(* ===== verification/_CoqProject ===== *)
-Q . S2P
Prelude.v
Digest.v
Spec.v
Pdu.v
PduProofs.v
Pool.v
PoolProofs.v
PoolSafety.v
PoolData.v
SlotQ.v
SlotQProofs.v
SlotQSafety.v
Registry.v
Backend.v
BackendProofs.v
SegIO.v
Subsystem.v
SubsystemProofs.v
Fabrics.v
Identify.v
Dispatch.v
FabricsExec.v
Admin.v
Io.v
ExecLaws.v
AdminProofs.v
FabricsProofs.v
IoProofs.v
ExecSafety.v
ExecWitness.v
ControlProofs.v
AdminData.v
BufRing.v
SendBatch.v
Sender.v
TcpQueue.v
Recv.v
Reader.v
Send.v
Handshake.v
GatherProofs.v
SendProofs.v
SenderProofs.v
SendWire.v
RingProofs.v
ConnProofs.v
RecvProofs.v
RecvStream.v
RecvData.v
RecvSafe.v
HandshakeProofs.v
RecvWitness.v
File.v
FileProofs.v
FileLaws.v
Frame.v
RecvFrame.v
Connection.v
ConnectionProofs.v
TaskProofs.v
System.v
CpuSet.v
CpuSetProofs.v
Spread.v
SpreadProofs.v
Placement.v
Control.v
ControlPlane.v
Harness.v
HarnessProofs.v
RdmaWire.v
RdmaQueue.v
RdmaData.v
RdmaReap.v
RdmaSystem.v
RdmaSpec.v
RdmaCm.v
Reactor.v
ReactorProofs.v
ReactorSpec.v
