(* ===== verification/Prelude.v ===== *)
(** * ioutgt: a Rocq model of the NVMe-oF storage target

    ** The program

    ioutgt serves block devices over NVMe/TCP and NVMe/RDMA.  One thread runs
    one queue of one host: a receive path decodes PDUs or capsules, claims a
    command slot, leases a data buffer from the queue's page pool and submits
    the command to the slot's task; the task executes it (fabrics, admin or IO
    command) against a controller, the port's subsystems and a storage backend,
    and puts the completion on the send list; the send path transmits it and
    releases the slot.  Queues of one controller meet in the registry (ids,
    queue admission, traffic flags for the keep-alive watchdog), and all
    threads meet in the subsystems' namespace tables, which the control plane
    changes while they are read.

    ** Files, and the code they model (under src/crates/)

    - [Prelude]: machine integers, results, the state-and-error monad, byte
      arrays, shared lemmas, tactics and hint databases.
    - [Digest]: ioutgt-nvme/src/digest.rs.
    - [Spec]: ioutgt-nvme/src/spec.rs and status.rs.
    - [Pdu], [PduProofs]: ioutgt-nvme/src/pdu.rs; [PduDecoder] with [feed] and
      [PduDecoder_take] (the source's take), and the encoders.
    - [Pool], [PoolProofs], [PoolSafety], [PoolData]: ioutgt-core/src/pool.rs
      and buf.rs; [BufPool] with [alloc], [alloc_await_poll], [reserve_arena],
      [free_segs]; [SlotData] with [write_at], [for_each_seg] and its drop.
    - [SlotQ], [SlotQProofs], [SlotQSafety]: ioutgt-core/src/slotq.rs and
      queue.rs; the slot array (claim, submit, await, respond, release,
      leases), the send list, the queue's SQ head and statistics.
    - [Registry]: ioutgt-core/src/registry.rs, with its theorems.
    - [Backend], [BackendProofs], [SegIO]: ioutgt-core/src/backend.rs,
      ioutgt-backend/src/memory.rs and null.rs; the trait is the class
      [Backend], what the memory store promises is the class [ReliableDisk].
    - [Subsystem], [SubsystemProofs]: ioutgt-core/src/subsystem.rs.
    - [Fabrics]: ioutgt-nvme/src/fabrics.rs and controller.rs; [Identify]:
      identify.rs.
    - [Dispatch]: ioutgt-nvme/src/dispatch.rs; the connection's context is the
      record [World].  [FabricsExec], [Admin], [Io]: fabrics_exec.rs,
      admin.rs, io.rs and [dispatch::execute].
    - [ExecLaws] (the classes [Store], what the command layer asks of any store,
      and [Disk], of one that keeps its data; the rules for handlers, and the
      invariant [world_ok] of a connection), [AdminProofs],
      [FabricsProofs], [IoProofs], [ExecSafety], [ControlProofs],
      [AdminData]: theorems about the command layer; [ExecWitness]: concrete
      connections on which they apply.
    - [BufRing]: ioutgt-uring/src/bufring.rs, the provided-buffer ring;
      [SendBatch]: ioutgt-uring/src/sendbatch.rs, the gather-send batch.
    - [Sender]: ioutgt-stream/src/lib.rs, batches, zero-copy notifications and
      tag release; [Reader]: ioutgt-stream/src/reader.rs, both reader modes and
      the direct receive.
    - [TcpQueue], [Recv], [Send], [Handshake]: ioutgt-nvme-tcp/src/queue.rs,
      recv.rs, send.rs, handshake.rs with transport.rs; a connection is the
      record [Conn] (the queue's [World], its send list and its ring).
    - [GatherProofs], [SendProofs], [SenderProofs], [SendWire]: theorems about
      the send path; [RingProofs]: the ring between reader, kernel and writes;
      [ConnProofs] (the invariant [conn_ok] of a connection), [RecvProofs] (the
      invariant [rx_ok] of the receive path), [RecvStream], [RecvData],
      [RecvSafe], [HandshakeProofs]: theorems about the receive
      path and the handshake; [RecvWitness]: connections on which they apply.
    - [File], [FileProofs], [FileLaws]: ioutgt-backend/src/file.rs and lib.rs;
      the kernel's answers to reads, writes, fallocate and statx are the record
      [Kernel]; the enum of backends is an instance of [Backend] and of [Store],
      with failing calls and null devices, and of [Disk] for the stores that
      keep data.
    - [Frame], [RecvFrame]: what an operation may change, proved for
      handlers, stores and the receive path.
    - [Connection], [ConnectionProofs], [TaskProofs], [System]:
      ioutgt-nvme-tcp/src/connection.rs; the set-up of a queue, a turn of a slot
      task, watchdog and beacon, teardown; and the whole connection as the step
      relation [sys_step].
    - [CpuSet], [CpuSetProofs], [Spread], [SpreadProofs], [Placement]:
      ioutgt-cpus/src/cpuset.rs, topology.rs, spread.rs, and io_thread_cpus of
      ioutgt-harness/src/lib.rs.
    - [Control], [ControlPlane]: ioutgt-control/src/config.rs, nvmet.rs,
      server.rs, and build_port and apply_file of the harness.
    - [Harness], [HarnessProofs]: the rest of ioutgt-harness/src/lib.rs,
      ioutgt-core/src/permit.rs and ioutgt-uring/src/mailbox.rs; the control
      thread and every queue thread take turns in [h_step].
    - [RdmaWire]: ioutgt-nvme-rdma/src/sgl.rs, cmproto.rs, wr.rs and stats.rs;
      [RdmaQueue]: target.rs, the queue with its registered buffers, from its
      making to its teardown.  What the verbs library and the adapter hold is the
      record [Nic].
    - [RdmaData] (identifiers, transfers, and the invariant [acct] of a queue),
      [RdmaReap] (the reap loop keeps it), [RdmaSystem] (the whole
      queue as the step relation [rdma_step]), [RdmaSpec]: theorems about the RDMA
      transport.
    - [RdmaCm]: cm.rs and listener.rs, the events of the connection manager and the
      listener, with its theorems.  What librdmacm holds is the record [Cm].
    - [Reactor]: ioutgt-uring/src/cqe.rs, op.rs, reactor.rs and ops.rs; the
      reactor of a thread, with its rings, and the futures of its operations.
      [ReactorProofs] (the invariant [core]), [ReactorSpec] (reactor, futures and
      kernel as the step relation [us_step]): its theorems.

    ** What the theorems show

    - Framing: the decoder is total, insensitive to fragmentation, accounts
      for every byte of PLEN, and inverts the encoders.
    - Buffers: leases never share a byte, allocation fails only when pages are
      short, freeing coalesces back to the original free list, no page is lost,
      and a scattered lease reads and writes like one array.
    - Slots: under any interleaving of the operations each path may call, no
      assertion of the engine fails, tags are exclusive, commands are delivered
      once, wake-ups are not lost, and the gates teardown waits on mean what
      they say.
    - Registry: fresh ids, bounded and unique queues, one installation per id.
    - Storage: the memory backend is a flat disk; segmented IO through any
      store that keeps [ReliableDisk] is flat IO, whatever the segmentation.
    - Subsystems: UUID text, namespace identity, and coherence of the
      generation-validated cache while the control plane changes the table.
    - Commands: every SQE, on every queue, is answered with its own CID or
      parked, without a panic and with the invariant kept, whatever error the
      store gives; on a store that keeps data, Write then Read returns the data;
      failed IO is contained (what was refused changes nothing, a store that
      fails a transfer changes at most its range); Connect
      binds at most once and only admitted hosts; no controller is enabled
      unbound; notices are delivered; the watchdog fires in its window; the
      registers, Identify Controller and the discovery log are as specified.

    - Sending: a turn puts on the wire exactly the PDUs of the work it staged,
      in order, which decode to the completions and solicitations queued,
      whatever the kernel answers (short sends, refused zero-copy or fixed
      buffers); a slot's buffer is not reused before the kernel has completed the
      notifications of the zero-copy ops it rides in;
      the sender never panics and releases every tag once.
    - Ring: a buffer is the kernel's, the reader's or a write's, and a region a
      write borrows is behind what the kernel may still fill; the reader never
      panics; a parked reader is woken.
    - Receiving: the stream may be cut anywhere; in-capsule and solicited
      payloads reach their slot byte for byte and nothing else changes; data
      whose digest is wrong is never executed; the direct receive equals the
      copying one; no peer makes the path panic.
    - Handshake: a well-formed one is accepted however it is cut and leaves the
      stream behind the Connect capsule; every one ends.
    - Files: whatever the kernel answers (short transfers, an unsupported flag,
      errors) a transfer that succeeds moved exactly the requested bytes; zeroes
      are written by one of three ways; the geometry fits the device.
    - Connections: in classic and in ring mode, under every interleaving of the
      receive task, the slot tasks, the send task (as taking work and releasing
      slots) and the rest of the program, with failing stores, nothing panics,
      the invariants of all parts hold together, and each command is answered
      exactly once.
      Teardown ends, frees a queue only when nothing uses it, and removes the
      controller; traffic on an IO queue keeps its controller alive.
    - CPUs: the pinning groups partition the machine, keep nodes together and are
      even; threads are pinned apart; cpulists are read back as printed.
    - Configuration: a document loads into exactly its ports, the port serves
      exactly its configuration, control requests are safe while connections
      run, and port processes never share a controller id.
    - RDMA: under every interleaving of the adapter, the reap loop, the slot tasks
      and the rest of the program, with failing calls and work requests, nothing
      panics; capsule buffers, reads and responses are accounted for; data moves
      exactly; the thread does not sleep on completions; the teardown ends and
      frees buffers only when they are not in use.  The listener accounts for every
      event, identifier and connection.
    - Reactor: the memory an operation was given (buffer, message or timer value)
      is kept until the kernel has ended it, also past a dropped future and a
      reactor that is closed; results are
      delivered in order and once; a wait does not sleep on a wake-up; a cancel
      hits only what was dropped; table slots are exclusive.
    - Harness: connections are counted exactly and never lost to a stopping pool;
      an idle pool is given back; statistics add up across reconnects.

    ** How code becomes definitions

    - Integers are [Z] kept in their width.  The checked build is modelled: an
      overflowing [+], [-] or [*], a shift of at least the width, an index out
      of range, [expect] on [None], [assert!] and [debug_assert!] are [Panic];
      [as] casts and wrapping operations use [wrap].  Sums and products whose
      operands' types exclude an overflow are plain.
    - [Result] is [res]; methods with [&mut self] or interior mutability are
      functions in the monad [M], which threads the state through errors.
    - [repr(C)] structures are their fields with [X_bytes] and [X_view].
    - An [async] function is its polls: [Some] or [Done] is [Poll::Ready];
      [Parked] carries what the future waits for, and [resume] polls it again.
      Calls of a backend are single steps: only lease waits and event requests
      park.  Wakers are numbers, and waking is recorded.
    - [Arc]s are the key or index of what they share, in the store that holds
      it.  Borrow flags of [RefCell]s, logging and metrics export are dropped.
    - Code outside the repository is a parameter: the crc32c crate
      ([crc32c_append] with [Crc32cLaws], instantiated by the bitwise CRC), the
      allocator (addresses given to [lease_or_owned] and the pool), the
      clock and thread placement (fields of [World]), the receive ring's buffer
      indices ([ring_index]).  The kernel's answers are arguments: the bytes a
      receive returned, the chunks and errors of a multishot receive, how much
      of a send went out, which notifications have come.
    - Memories are functions from addresses to bytes; [RecvStream] and
      [RecvSafe] compare them with functional extensionality.

    ** Fuel

    Loops that are not structural take a bound on their rounds.  [feed_loop]
    runs at most [feed_fuel] = 3 rounds (common header, rest, completion);
    [scatter_loop] removes a run in every round but the last, so
    [S (length free)] rounds are enough; the memory backend's [chunk_loop]
    visits one 2 MiB chunk per round.  [stage_loop] takes one work item per
    round, [advance_iovecs] and [advance_direct] pass one entry; [recv_window]
    consumes a byte per round and [read_header] a byte per read.  A transfer of a
    file of [n] bytes takes at most [n + 2] rounds ([rwv_loop]), zeroing one per
    chunk; teardown at most 10,001 polls (two waits of ten seconds in steps of
    two milliseconds), of an RDMA queue 5,001 (one wait); a reactor
    is closed in 500 rounds; a poll of a notification takes what the entry holds
    ([notif_loop]); a number
    of 64 bits prints in 20 digits; [skip_full] passes
    each group once.  Running out
    of fuel is [Panic], so the theorems that exclude panics show that the fuel
    is enough.

    ** Assumptions

    They are hypotheses of the theorems that need them: the kernel moves no more
    bytes than it was asked to ([k_sane], [k_fair]); a store that is neither the
    memory, the file nor the null backend keeps [Store] (no panic on a valid range;
    the three are proved to); the kernel does not receive past the end of a ring
    buffer ([reader_valid]) and a receive ring is below 8 GiB ([ring_at]); a
    notification of a zero-copy op is ready only when the kernel has completed it
    ([snd_step]); a counter of commands has room for the
    command at hand; the steps of the rest of the program are [outside] steps,
    which the control API's theorem establishes for its requests; the sysfs
    topology files are as the kernel documents them ([files_ok]); the totals of
    statistics fit a machine word; the data of an RDMA command does not reach the
    end of the address space ([capsule_ok]); the adapter completes a work request
    after it was carried out, and none after the connection failed ([nic_step]);
    the slab returns a vacant key, the kernel posts several completions only for
    operations that ask for them, none after the last, and the counters of a
    reactor stay below 2^61 ([us_step], [uroom]).
    Each has a witness.

    ** Not modelled

    In [sys_step], the composition of a connection, the send task is only its
    effects on the rest (it takes work off the list and releases slots, in any
    order) and the reader's calls on the ring come in any order: the send loop
    itself is [snd_step], the reader with its ring and the kernel [ring_step].
    The theorems on the bytes of payloads ([RecvStream], [RecvData]) are about
    windows of the classic reader.
    The creation of the ring and its kernel interface (the io-uring crate), the
    thread's handle to its reactor and the tokio runtime around it
    (ioutgt-uring/src/runtime.rs, lib.rs, probe.rs); the creation of verbs objects
    and the calls of librdmacm that connect a queue pair (verbs.rs, most of cm.rs); thread creation, forking, sockets, JSON text, the
    rendering of the control client (client.rs) and the load generator. *)

From Stdlib Require Export ZArith Lia.
From coqutil Require Export Byte Word.LittleEndianList.
From stdpp Require Export base list gmap strings numbers option.

#[global] Open Scope Z_scope.

(** ** Machine integers

    Rust's [u8] .. [u64] and [usize] are [Z] with their range as a predicate.
    Arithmetic is written as in the checked build: an operation that would
    leave its range is a panic; explicit wrapping operations and [as] casts
    are written with [wrap]. *)

Definition in_u (w z : Z) : Prop := 0 <= z < 2 ^ w.
Definition wrap (w z : Z) : Z := z mod 2 ^ w.

#[export] Instance in_u_dec w z : Decision (in_u w z).
Proof. unfold in_u. apply _. Defined.

(** ** Results: a value, a Rust [Err], or a panic *)

Inductive res (E A : Type) : Type :=
| Ok (a : A)
| Err (e : E)
| Panic.
Arguments Ok {E A} _.
Arguments Err {E A} _.
Arguments Panic {E A}.

#[export] Instance res_ret E : MRet (res E) := fun A a => Ok a.
#[export] Instance res_bind E : MBind (res E) := fun A B f m =>
  match m with Ok a => f a | Err e => Err e | Panic => Panic end.

(** Change of error type: Rust's [map_err]. *)
Definition map_err {E F A} (f : E -> F) (m : res E A) : res F A :=
  match m with Ok a => Ok a | Err e => Err (f e) | Panic => Panic end.

(** [assert!] and [debug_assert!]. *)
Definition assert {E} (b : bool) : res E unit := if b then Ok tt else Panic.

(** [Option::ok_or]. *)
Definition ok_or {E A} (o : option A) (e : E) : res E A :=
  match o with Some a => Ok a | None => Err e end.

(** [Option::expect] and slice indexing. *)
Definition expect {E A} (o : option A) : res E A :=
  match o with Some a => Ok a | None => Panic end.

(** Checked unsigned arithmetic of width [w]. *)
Definition checked {E} (w z : Z) : res E Z :=
  if decide (in_u w z) then Ok z else Panic.

(** ** State and error: [&mut self] methods returning [Result] *)

Definition M (S E A : Type) : Type := S -> S * res E A.

#[export] Instance M_ret S E : MRet (M S E) := fun A a s => (s, Ok a).
#[export] Instance M_bind S E : MBind (M S E) := fun A B f m s =>
  match m s with
  | (s', Ok a) => f a s'
  | (s', Err e) => (s', Err e)
  | (s', Panic) => (s', Panic)
  end.

Definition get {S E} : M S E S := fun s => (s, Ok s).
Definition modify {S E} (f : S -> S) : M S E unit := fun s => (f s, Ok tt).
Definition fail {S E A} (e : E) : M S E A := fun s => (s, Err e).
Definition panic {S E A} : M S E A := fun s => (s, Panic).
Definition lift {S E A} (r : res E A) : M S E A := fun s => (s, r).

(** ** Byte slices *)

Abbreviation bytes := (list Byte.byte).

#[export] Instance byte_eq_dec : EqDecision Byte.byte := Strings.Byte.byte_eq_dec.
#[export] Instance byte_countable : Countable Byte.byte.
Proof. refine (inj_countable Strings.Byte.to_N Strings.Byte.of_N _). apply Strings.Byte.of_to_N. Defined.

(** Rust strings are their UTF-8 bytes. *)
Abbreviation str := (list Byte.byte).
Definition ascii_bytes (s : string) : str := String.list_byte_of_string s.

(** [n] bytes at offset [off]; the little-endian integer they hold. *)
Definition bytes_at (bs : bytes) (off n : nat) : bytes := take n (drop off bs).
Definition field (bs : bytes) (off n : nat) : Z := le_combine (bytes_at bs off n).

(** [[0; n]]. *)
Definition zeroes (n : nat) : bytes := replicate n Byte.x00.

(** [dst[off..off+src.len()].copy_from_slice(src)]: panics out of range. *)
Definition copy_into {E} (dst : bytes) (off : nat) (src : bytes) : res E bytes :=
  if decide (off + length src <= length dst)%nat
  then Ok (take off dst ++ src ++ drop (off + length src) dst)
  else Panic.

(** ** Sorting *)

(** A stable sort by a total order. *)
Fixpoint insert_by {A} (le : A -> A -> bool) (x : A) (l : list A) : list A :=
  match l with
  | [] => [x]
  | y :: l' => if le x y then x :: l else y :: insert_by le x l'
  end.
Definition sort_by {A} (le : A -> A -> bool) (l : list A) : list A := foldr (insert_by le) [] l.

(** ** Automation *)

Create HintDb ioutgt discriminated.
Create Rewrite HintDb bytelen.

#[export] Hint Rewrite @length_app @length_le_split @length_replicate @length_take
  @length_drop @length_cons @length_nil : bytelen.

(** Lengths of concatenated fields. *)
Ltac blen := unfold zeroes, bytes_at in *; autorewrite with bytelen in *; try lia.

(** Case analysis on the outermost [if]/[match] of a hypothesis or the goal. *)
Ltac csplit :=
  repeat match goal with
  | H : context [decide ?P] |- _ => destruct (decide P); simplify_eq/=
  | |- context [decide ?P] => destruct (decide P); simplify_eq/=
  end.

(** Reading back an encoded field is a computation on the list spine. *)
Ltac field_refl := unfold field, bytes_at; reflexivity.

(** Turn boolean comparisons on [Z] into propositions. *)
Ltac zbool :=
  repeat match goal with
  | H : (_ <? _) = true |- _ => apply Z.ltb_lt in H
  | H : (_ <? _) = false |- _ => apply Z.ltb_ge in H
  | H : (_ <=? _) = true |- _ => apply Z.leb_le in H
  | H : (_ <=? _) = false |- _ => apply Z.leb_gt in H
  | H : (_ =? _) = true |- _ => apply Z.eqb_eq in H
  | H : (_ =? _) = false |- _ => apply Z.eqb_neq in H
  | H : (_ && _)%bool = true |- _ => apply andb_prop in H; destruct H
  | H : (_ || _)%bool = false |- _ => apply orb_false_elim in H; destruct H
  end.

(** ** Generic lemmas *)

Lemma in_u_wrap w z : 0 <= w -> in_u w (wrap w z).
Proof. intros. apply Z.mod_pos_bound, Z.pow_pos_nonneg; lia. Qed.

Lemma wrap_small w z : in_u w z -> wrap w z = z.
Proof. apply Z.mod_small. Qed.

Lemma checked_ok {E} w z : in_u w z -> checked (E := E) w z = Ok z.
Proof. intros. unfold checked. by rewrite decide_True. Qed.

Lemma le_combine_le_split_small n z :
  in_u (8 * Z.of_nat n) z -> le_combine (le_split n z) = z.
Proof.
  intros H. rewrite le_combine_split. apply Z.mod_small.
  rewrite Z.mul_comm. exact H.
Qed.

(** A field read back from an encoding whose value is in range. *)
Ltac field_ok :=
  match goal with |- field _ _ ?n = ?x =>
    transitivity (le_combine (le_split n x));
    [ field_refl | apply le_combine_le_split_small; assumption ]
  end.

Lemma in_u_le_combine bs n :
  length bs = n -> in_u (8 * Z.of_nat n) (le_combine bs).
Proof. intros <-. apply le_combine_bound. Qed.

Lemma in_u_field bs off n :
  (off + n <= length bs)%nat -> in_u (8 * Z.of_nat n) (field bs off n).
Proof. intros. apply in_u_le_combine. unfold bytes_at. blen. Qed.

Lemma copy_into_ok {E} dst off src :
  (off + length src <= length dst)%nat ->
  copy_into (E := E) dst off src = Ok (take off dst ++ src ++ drop (off + length src) dst).
Proof. intros. unfold copy_into. by rewrite decide_True. Qed.

Lemma copy_into_length {E} dst off src dst' :
  copy_into (E := E) dst off src = Ok dst' -> length dst' = length dst.
Proof. unfold copy_into. intros. csplit. blen. Qed.

Lemma insert_by_perm {A} (le : A -> A -> bool) x l : insert_by le x l ≡ₚ x :: l.
Proof. induction l as [|y l IH]; cbn; [done|]. destruct (le x y); [done|]. rewrite IH. apply perm_swap. Qed.

Lemma sort_by_perm {A} (le : A -> A -> bool) l : sort_by le l ≡ₚ l.
Proof. unfold sort_by. induction l as [|x l IH]; cbn; [done|]. by rewrite insert_by_perm, IH. Qed.

(** [Vec::swap_remove]: the last element takes the removed one's place. *)
Definition swap_remove {A} (i : nat) (l : list A) : list A :=
  match list.last l with
  | Some x => take (length l - 1) (<[i := x]> l)
  | None => l
  end.

Lemma swap_remove_perm {A} (l : list A) i x :
  l !! i = Some x -> l ≡ₚ x :: swap_remove i l.
Proof.
  intros Hi. unfold swap_remove. destruct (list.last l) as [y|] eqn:Hy.
  2: { apply last_None in Hy. subst. done. }
  apply list.last_Some in Hy as [l0 ->]. pose proof (lookup_lt_Some _ _ _ Hi) as Hlt.
  rewrite length_app in *. cbn in *. replace (length l0 + 1 - 1)%nat with (length l0) by lia.
  destruct (decide (i < length l0)%nat) as [Hlt'|Hge].
  - rewrite insert_app_l by done. rewrite take_app_length' by (by rewrite length_insert).
    rewrite lookup_app_l in Hi by done. rewrite <- (take_drop_middle l0 i x Hi) at 1.
    rewrite insert_take_drop by done. rewrite <- app_assoc. cbn.
    rewrite <- Permutation_middle. constructor. f_equiv. symmetry. apply Permutation_cons_append.
  - assert (i = length l0) as -> by lia. rewrite lookup_app_r, Nat.sub_diag in Hi by lia. cbn in Hi. simplify_eq.
    rewrite insert_app_r_alt, Nat.sub_diag by lia. cbn. rewrite take_app_length. symmetry. apply Permutation_cons_append.
Qed.

#[export] Hint Resolve in_u_wrap checked_ok : ioutgt.
