(* ===== verification/Digest.v ===== *)
(** * [ioutgt-nvme/src/digest.rs]: CRC32C header and data digests

    The CRC itself comes from the [crc32c] crate, which is not part of the
    repository: it is the parameter [crc32c_append] of every definition that
    digests bytes, with the documented facts the target relies on collected in
    [Crc32cLaws].  [Castagnoli] instantiates the parameter with the bitwise
    definition of CRC32C (RFC 3720) and proves the laws, so no theorem about
    digests is vacuous. *)

From S2P Require Import Prelude.

(** The crate's incremental entry point: [crc32c::crc32c_append(crc, data)]. *)
Class Crc32cLib := { crc32c_append : Z -> bytes -> Z }.

(** What the target relies on: appending is incremental, starting from the CRC
    of the data seen so far, and the value is a [u32]. *)
Class Crc32cLaws (L : Crc32cLib) := {
  crc_append_nil : forall s, in_u 32 s -> crc32c_append s [] = s;
  crc_append_app : forall s a b,
    in_u 32 s -> crc32c_append s (a ++ b) = crc32c_append (crc32c_append s a) b;
  crc_append_u32 : forall s a, in_u 32 s -> in_u 32 (crc32c_append s a);
}.

Section Digest.
Context {L : Crc32cLib}.

(** [struct Crc32c { state: u32 }]. *)
Record Crc32c := { crc_state : Z }.

Definition Crc32c_new : Crc32c := {| crc_state := 0 |}.

Definition Crc32c_update (c : Crc32c) (data : bytes) : Crc32c :=
  {| crc_state := crc32c_append (crc_state c) data |}.

Definition Crc32c_finalize (c : Crc32c) : Z := crc_state c.

(** [crc32c::crc32c(data)] is documented as appending to a zero CRC. *)
Definition crc32c (data : bytes) : Z := crc32c_append 0 data.

Context {LL : Crc32cLaws L}.

Lemma crc32c_u32 data : in_u 32 (crc32c data).
Proof. apply crc_append_u32. split; [lia | reflexivity]. Qed.

Lemma update_state_u32 c data : in_u 32 (crc_state c) -> in_u 32 (crc_state (Crc32c_update c data)).
Proof. apply crc_append_u32. Qed.

(** Streaming a payload chunk by chunk gives the one-shot digest. *)
Lemma update_chunks c chunks :
  in_u 32 (crc_state c) ->
  foldl Crc32c_update c chunks = Crc32c_update c (concat chunks).
Proof.
  revert c. induction chunks as [|x l IH]; intros c Hc; cbn [foldl concat].
  - destruct c as [s]. unfold Crc32c_update. cbn in *. by rewrite crc_append_nil.
  - rewrite IH by (by apply update_state_u32). destruct c as [s]. unfold Crc32c_update.
    cbn in *. by rewrite crc_append_app.
Qed.

End Digest.

(** ** The Castagnoli polynomial, bit by bit *)

Module Castagnoli.

Definition poly : Z := 0x82F63B78.
Definition ones : Z := 0xFFFFFFFF.

Definition bit_step (c : Z) : Z :=
  if Z.odd c then Z.lxor (Z.shiftr c 1) poly else Z.shiftr c 1.

Definition byte_step (c : Z) (b : Byte.byte) : Z :=
  Nat.iter 8 bit_step (Z.lxor c (byte.unsigned b)).

Definition append (s : Z) (data : bytes) : Z :=
  Z.lxor (foldl byte_step (Z.lxor s ones) data) ones.

#[export] Instance lib : Crc32cLib := {| crc32c_append := append |}.

Lemma lxor_u32 a b : in_u 32 a -> in_u 32 b -> in_u 32 (Z.lxor a b).
Proof.
  intros Ha Hb. unfold in_u in *. split; [apply Z.lxor_nonneg; lia |].
  destruct (Z.eq_dec (Z.lxor a b) 0) as [-> | Hne]; [lia |].
  apply Z.log2_lt_pow2; [pose proof (proj2 (Z.lxor_nonneg a b)); lia |].
  eapply Z.le_lt_trans; [apply Z.log2_lxor; lia |].
  apply Z.max_lub_lt.
  - destruct (Z.eq_dec a 0) as [-> | ]; [reflexivity | apply Z.log2_lt_pow2; lia].
  - destruct (Z.eq_dec b 0) as [-> | ]; [reflexivity | apply Z.log2_lt_pow2; lia].
Qed.

Lemma shiftr_u32 c : in_u 32 c -> in_u 32 (Z.shiftr c 1).
Proof.
  intros H. unfold in_u in *. rewrite Z.shiftr_div_pow2 by lia.
  change (2 ^ 1) with 2. split; [apply Z.div_pos; lia |].
  apply Z.div_lt_upper_bound; lia.
Qed.

Lemma bit_step_u32 c : in_u 32 c -> in_u 32 (bit_step c).
Proof.
  intros H. unfold bit_step. destruct (Z.odd c); [| by apply shiftr_u32].
  apply lxor_u32; [by apply shiftr_u32 | by vm_compute].
Qed.

Lemma byte_step_u32 c b : in_u 32 c -> in_u 32 (byte_step c b).
Proof.
  intros H. unfold byte_step. cbn [Nat.iter nat_rect]. do 8 apply bit_step_u32.
  apply lxor_u32; [done |]. pose proof (byte.unsigned_range b). unfold in_u. lia.
Qed.

Lemma fold_u32 data c : in_u 32 c -> in_u 32 (foldl byte_step c data).
Proof. revert c. induction data; intros; cbn; [done | apply IHdata, byte_step_u32; done]. Qed.

Lemma lxor_ones_ones s : Z.lxor (Z.lxor s ones) ones = s.
Proof. by rewrite Z.lxor_assoc, Z.lxor_nilpotent, Z.lxor_0_r. Qed.

#[export] Instance laws : Crc32cLaws lib.
Proof.
  assert (Ho : in_u 32 ones) by (by vm_compute).
  split; cbn; unfold append.
  - intros s _. apply lxor_ones_ones.
  - intros s a b _. by rewrite foldl_app, lxor_ones_ones.
  - intros s a Hs. apply lxor_u32; [| done]. by apply fold_u32, lxor_u32.
Qed.

(** The published check value of CRC32C: the digest of the ASCII digits 1..9. *)
Example check_value :
  crc32c (map byte.of_Z [49; 50; 51; 52; 53; 54; 55; 56; 57]) = 0xE3069283.
Proof. reflexivity. Qed.

End Castagnoli.
