(* ===== verification/Spec.v ===== *)
(** * [ioutgt-nvme/src/spec.rs] and [status.rs]: command structures, status codes

    Wire structures are [repr(C)] structs of little-endian integers with
    alignment one, so a struct is its fields in order: [X_bytes] is the byte
    view ([as_bytes]) and [X_view] the structure read from bytes; the checked
    [read_from_bytes] applies it exactly when the slice has the struct's size. *)

From S2P Require Import Prelude.

(** ** Opcodes and field values *)

Module admin_opcode.
Definition GET_LOG_PAGE : Z := 0x02.
Definition IDENTIFY : Z := 0x06.
Definition SET_FEATURES : Z := 0x09.
Definition GET_FEATURES : Z := 0x0A.
Definition ASYNC_EVENT : Z := 0x0C.
Definition KEEP_ALIVE : Z := 0x18.
Definition FABRICS : Z := 0x7F.
End admin_opcode.

Module io_opcode.
Definition FLUSH : Z := 0x00.
Definition WRITE : Z := 0x01.
Definition READ : Z := 0x02.
Definition WRITE_ZEROES : Z := 0x08.
Definition DSM : Z := 0x09.
End io_opcode.

Module cns.
Definition NAMESPACE : Z := 0x00.
Definition CONTROLLER : Z := 0x01.
Definition ACTIVE_NS_LIST : Z := 0x02.
Definition NS_DESC_LIST : Z := 0x03.
End cns.

Module feat.
Definition VOLATILE_WC : Z := 0x06.
Definition NUM_QUEUES : Z := 0x07.
Definition ASYNC_EVENT_CONFIG : Z := 0x0B.
Definition KATO : Z := 0x0F.
Definition HOST_ID : Z := 0x81.
End feat.

Module log_page.
Definition ERROR : Z := 0x01.
Definition SMART : Z := 0x02.
Definition FW_SLOT : Z := 0x03.
Definition CHANGED_NS : Z := 0x04.
Definition DISCOVERY : Z := 0x70.
End log_page.

Module sgl.
Definition TYPE_DATA_BLOCK_OFFSET : Z := 0x0A.
Definition TYPE_TRANSPORT_DATA_BLOCK : Z := 0x5A.
End sgl.

(** Status codes, [(SCT << 8) | SC]. *)
Module status.
Definition SUCCESS : Z := 0x0.
Definition INVALID_OPCODE : Z := 0x1.
Definition INVALID_FIELD : Z := 0x2.
Definition DATA_XFER_ERROR : Z := 0x4.
Definition INTERNAL : Z := 0x6.
Definition INVALID_NS : Z := 0xB.
Definition CMD_SEQ_ERROR : Z := 0xC.
Definition DATA_SGL_LEN_INVALID : Z := 0xF.
Definition LBA_RANGE : Z := 0x80.
Definition CAP_EXCEEDED : Z := 0x81.
Definition INVALID_LOG_PAGE : Z := 0x109.
Definition FEATURE_NOT_CHANGEABLE : Z := 0x10E.
Definition CONNECT_FORMAT : Z := 0x180.
Definition CONNECT_CTRL_BUSY : Z := 0x181.
Definition CONNECT_INVALID_PARAM : Z := 0x182.
Definition CONNECT_INVALID_HOST : Z := 0x184.
Definition DNR : Z := 0x4000.

(** [code | DNR]. *)
Definition dnr (code : Z) : Z := Z.lor code DNR.

Definition connect_invalid_param_result (in_data : bool) (offset : Z) : Z :=
  Z.lor (Z.shiftl offset 16) (if in_data then 1 else 0).
End status.

(** ** Wire structures *)

Record SglDescriptor := {
  sgl_addr : Z;
  sgl_length : Z;
  sgl_rsvd : bytes;
  sgl_type : Z;
}.

Definition SglDescriptor_bytes (d : SglDescriptor) : bytes :=
  le_split 8 (sgl_addr d) ++ le_split 4 (sgl_length d) ++ sgl_rsvd d ++ le_split 1 (sgl_type d).

Definition SglDescriptor_view (bs : bytes) : SglDescriptor := {|
  sgl_addr := field bs 0 8;
  sgl_length := field bs 8 4;
  sgl_rsvd := bytes_at bs 12 3;
  sgl_type := field bs 15 1;
|}.

Record Sqe := {
  sqe_opcode : Z;
  sqe_flags : Z;
  sqe_cid : Z;
  sqe_nsid : Z;
  sqe_cdw2 : Z;
  sqe_cdw3 : Z;
  sqe_mptr : Z;
  sqe_dptr : SglDescriptor;
  sqe_cdw10 : Z;
  sqe_cdw11 : Z;
  sqe_cdw12 : Z;
  sqe_cdw13 : Z;
  sqe_cdw14 : Z;
  sqe_cdw15 : Z;
}.

Definition Sqe_bytes (s : Sqe) : bytes :=
  le_split 1 (sqe_opcode s) ++ le_split 1 (sqe_flags s) ++ le_split 2 (sqe_cid s) ++
  le_split 4 (sqe_nsid s) ++ le_split 4 (sqe_cdw2 s) ++ le_split 4 (sqe_cdw3 s) ++
  le_split 8 (sqe_mptr s) ++ SglDescriptor_bytes (sqe_dptr s) ++
  le_split 4 (sqe_cdw10 s) ++ le_split 4 (sqe_cdw11 s) ++ le_split 4 (sqe_cdw12 s) ++
  le_split 4 (sqe_cdw13 s) ++ le_split 4 (sqe_cdw14 s) ++ le_split 4 (sqe_cdw15 s).

Definition Sqe_view (bs : bytes) : Sqe := {|
  sqe_opcode := field bs 0 1;
  sqe_flags := field bs 1 1;
  sqe_cid := field bs 2 2;
  sqe_nsid := field bs 4 4;
  sqe_cdw2 := field bs 8 4;
  sqe_cdw3 := field bs 12 4;
  sqe_mptr := field bs 16 8;
  sqe_dptr := SglDescriptor_view (bytes_at bs 24 16);
  sqe_cdw10 := field bs 40 4;
  sqe_cdw11 := field bs 44 4;
  sqe_cdw12 := field bs 48 4;
  sqe_cdw13 := field bs 52 4;
  sqe_cdw14 := field bs 56 4;
  sqe_cdw15 := field bs 60 4;
|}.

(** [Sqe::zeroed()]. *)
Definition Sqe_zeroed : Sqe := Sqe_view (zeroes 64).

Record Cqe := {
  cqe_result : Z;
  cqe_rsvd : Z;
  cqe_sq_head : Z;
  cqe_sq_id : Z;
  cqe_cid : Z;
  cqe_status : Z;
}.

Definition Cqe_bytes (c : Cqe) : bytes :=
  le_split 4 (cqe_result c) ++ le_split 4 (cqe_rsvd c) ++ le_split 2 (cqe_sq_head c) ++
  le_split 2 (cqe_sq_id c) ++ le_split 2 (cqe_cid c) ++ le_split 2 (cqe_status c).

Definition Cqe_view (bs : bytes) : Cqe := {|
  cqe_result := field bs 0 4;
  cqe_rsvd := field bs 4 4;
  cqe_sq_head := field bs 8 2;
  cqe_sq_id := field bs 10 2;
  cqe_cid := field bs 12 2;
  cqe_status := field bs 14 2;
|}.

(** [Cqe::new]: the combined status code shifted into wire position; a shift
    on [u16] drops the bits it pushes out. *)
Definition Cqe_new (result sq_head sq_id cid status : Z) : Cqe := {|
  cqe_result := result;
  cqe_rsvd := 0;
  cqe_sq_head := sq_head;
  cqe_sq_id := sq_id;
  cqe_cid := cid;
  cqe_status := wrap 16 (Z.shiftl status 1);
|}.

Record RwCommand := { rw_slba : Z; rw_nlb : Z; rw_fua : bool }.

Definition RwCommand_parse (sqe : Sqe) : RwCommand := {|
  rw_slba := Z.lor (sqe_cdw10 sqe) (Z.shiftl (sqe_cdw11 sqe) 32);
  rw_nlb := Z.land (sqe_cdw12 sqe) 0xFFFF;
  rw_fua := negb (Z.land (sqe_cdw12 sqe) (Z.shiftl 1 30) =? 0);
|}.

Record DsmRange := { dsm_cattr : Z; dsm_nlb : Z; dsm_slba : Z }.

Definition DsmRange_view (bs : bytes) : DsmRange := {|
  dsm_cattr := field bs 0 4;
  dsm_nlb := field bs 4 4;
  dsm_slba := field bs 8 8;
|}.

(** [read_from_bytes] of an [n]-byte struct viewed with [view]. *)
Definition read_from_bytes {A} (n : nat) (view : bytes -> A) (bs : bytes) : option A :=
  if decide (length bs = n) then Some (view bs) else None.

(** ** Value ranges of the Rust types *)

Definition SglDescriptor_wf (d : SglDescriptor) : Prop :=
  in_u 64 (sgl_addr d) /\ in_u 32 (sgl_length d) /\ length (sgl_rsvd d) = 3%nat /\
  in_u 8 (sgl_type d).

Definition Sqe_wf (s : Sqe) : Prop :=
  in_u 8 (sqe_opcode s) /\ in_u 8 (sqe_flags s) /\ in_u 16 (sqe_cid s) /\
  in_u 32 (sqe_nsid s) /\ in_u 32 (sqe_cdw2 s) /\ in_u 32 (sqe_cdw3 s) /\
  in_u 64 (sqe_mptr s) /\ SglDescriptor_wf (sqe_dptr s) /\
  in_u 32 (sqe_cdw10 s) /\ in_u 32 (sqe_cdw11 s) /\ in_u 32 (sqe_cdw12 s) /\
  in_u 32 (sqe_cdw13 s) /\ in_u 32 (sqe_cdw14 s) /\ in_u 32 (sqe_cdw15 s).

Definition Cqe_wf (c : Cqe) : Prop :=
  in_u 32 (cqe_result c) /\ in_u 32 (cqe_rsvd c) /\ in_u 16 (cqe_sq_head c) /\
  in_u 16 (cqe_sq_id c) /\ in_u 16 (cqe_cid c) /\ in_u 16 (cqe_status c).

(** ** Lemmas *)

Lemma SglDescriptor_bytes_length d :
  SglDescriptor_wf d -> length (SglDescriptor_bytes d) = 16%nat.
Proof. intros (_ & _ & H & _). unfold SglDescriptor_bytes. blen. Qed.

Lemma Sqe_bytes_length s : Sqe_wf s -> length (Sqe_bytes s) = 64%nat.
Proof.
  intros H. unfold Sqe_bytes. blen. rewrite SglDescriptor_bytes_length; [lia | apply H].
Qed.

Lemma Cqe_bytes_length c : length (Cqe_bytes c) = 16%nat.
Proof. unfold Cqe_bytes. blen. Qed.

(** The [rsvd] bytes of a well-formed descriptor, spelled out. *)
Lemma length_3 {A} (l : list A) : length l = 3%nat -> exists a b c, l = [a; b; c].
Proof. destruct l as [|a [|b [|c [|]]]]; intros; simplify_eq/=; eauto. Qed.

Lemma Sqe_view_bytes s rest : Sqe_wf s -> Sqe_view (Sqe_bytes s ++ rest) = s.
Proof.
  destruct s as [op fl cid ns c2 c3 mp [a l r t] c10 c11 c12 c13 c14 c15].
  intros (?&?&?&?&?&?&?&(Ha&Hl&Hr&Ht)&?&?&?&?&?&?). cbn in *.
  destruct (length_3 r Hr) as (r0 & r1 & r2 & ->).
  unfold Sqe_view, Sqe_bytes, SglDescriptor_view, SglDescriptor_bytes. cbn -[le_split field bytes_at].
  f_equal; try (f_equal; field_ok); field_ok.
Qed.

Lemma Cqe_view_bytes c rest : Cqe_wf c -> Cqe_view (Cqe_bytes c ++ rest) = c.
Proof.
  destruct c. intros (?&?&?&?&?&?). cbn in *. unfold Cqe_view, Cqe_bytes.
  cbn [cqe_result cqe_rsvd cqe_sq_head cqe_sq_id cqe_cid cqe_status].
  f_equal; field_ok.
Qed.

(** Reading never leaves the Rust types' ranges. *)
Lemma SglDescriptor_view_wf bs : length bs = 16%nat -> SglDescriptor_wf (SglDescriptor_view bs).
Proof.
  intros H. unfold SglDescriptor_wf. cbn.
  split_and!; first [ apply (in_u_field bs); lia | blen ].
Qed.

Lemma Sqe_view_wf bs : (64 <= length bs)%nat -> Sqe_wf (Sqe_view bs).
Proof.
  intros H. unfold Sqe_wf, Sqe_view.
  cbn [sqe_opcode sqe_flags sqe_cid sqe_nsid sqe_cdw2 sqe_cdw3 sqe_mptr sqe_dptr
       sqe_cdw10 sqe_cdw11 sqe_cdw12 sqe_cdw13 sqe_cdw14 sqe_cdw15].
  assert (Hd : SglDescriptor_wf (SglDescriptor_view (bytes_at bs 24 16))).
  { apply SglDescriptor_view_wf. blen. }
  split_and!; first [ exact Hd | apply (in_u_field bs); lia ].
Qed.
