(* ===== verification/Pdu.v ===== *)
(** * [ioutgt-nvme/src/pdu.rs]: NVMe/TCP PDUs, the incremental header decoder, the encoders

    [PduDecoder] is the source's struct; [feed] and [PduDecoder_take] are its
    two stateful methods in the state-and-error monad.  The decoder's [loop]
    runs at most three times per call ([feed_fuel]): collect the common header,
    collect the rest, report completion; the proofs show this fuel is
    never exhausted.  The encoders write into a caller-provided buffer and
    return the number of bytes written, as in the source. *)

From S2P Require Import Prelude Digest Spec.

Module pdu_type.
Definition ICREQ : Z := 0x0.
Definition ICRESP : Z := 0x1.
Definition H2C_TERM : Z := 0x2.
Definition C2H_TERM : Z := 0x3.
Definition CAPSULE_CMD : Z := 0x4.
Definition CAPSULE_RESP : Z := 0x5.
Definition H2C_DATA : Z := 0x6.
Definition C2H_DATA : Z := 0x7.
Definition R2T : Z := 0x9.
End pdu_type.

Module pdu_flags.
Definition HDGST : Z := Z.shiftl 1 0.
Definition DDGST : Z := Z.shiftl 1 1.
Definition DATA_LAST : Z := Z.shiftl 1 2.
Definition DATA_SUCCESS : Z := Z.shiftl 1 3.
End pdu_flags.

Module fes.
Definition INVALID_PDU_HDR : Z := 0x1.
Definition PDU_SEQ_ERR : Z := 0x2.
Definition HDR_DIGEST_ERR : Z := 0x3.
Definition DATA_OUT_OF_RANGE : Z := 0x4.
Definition DATA_LIMIT_EXCEEDED : Z := 0x5.
Definition UNSUPPORTED_PARAM : Z := 0x6.
End fes.

Definition PFV_1_0 : Z := 0.
Definition DIGEST_HDGST : Z := Z.shiftl 1 0.
Definition DIGEST_DDGST : Z := Z.shiftl 1 1.

(** [flags & bit != 0]. *)
Definition has (flags bit : Z) : bool := negb (Z.land flags bit =? 0).

(** ** Wire structures *)

Record CommonHeader := {
  ch_pdu_type : Z;
  ch_flags : Z;
  ch_hlen : Z;
  ch_pdo : Z;
  ch_plen : Z;
}.

Definition CommonHeader_bytes (h : CommonHeader) : bytes :=
  le_split 1 (ch_pdu_type h) ++ le_split 1 (ch_flags h) ++ le_split 1 (ch_hlen h) ++
  le_split 1 (ch_pdo h) ++ le_split 4 (ch_plen h).

Definition CommonHeader_view (bs : bytes) : CommonHeader := {|
  ch_pdu_type := field bs 0 1;
  ch_flags := field bs 1 1;
  ch_hlen := field bs 2 1;
  ch_pdo := field bs 3 1;
  ch_plen := field bs 4 4;
|}.

Record IcReq := {
  icreq_hdr : CommonHeader;
  icreq_pfv : Z;
  icreq_hpda : Z;
  icreq_digest : Z;
  icreq_maxr2t : Z;
  icreq_rsvd : bytes;
}.

Definition IcReq_bytes (p : IcReq) : bytes :=
  CommonHeader_bytes (icreq_hdr p) ++ le_split 2 (icreq_pfv p) ++ le_split 1 (icreq_hpda p) ++
  le_split 1 (icreq_digest p) ++ le_split 4 (icreq_maxr2t p) ++ icreq_rsvd p.

Definition IcReq_view (bs : bytes) : IcReq := {|
  icreq_hdr := CommonHeader_view (bytes_at bs 0 8);
  icreq_pfv := field bs 8 2;
  icreq_hpda := field bs 10 1;
  icreq_digest := field bs 11 1;
  icreq_maxr2t := field bs 12 4;
  icreq_rsvd := bytes_at bs 16 112;
|}.

Record IcResp := {
  icresp_hdr : CommonHeader;
  icresp_pfv : Z;
  icresp_cpda : Z;
  icresp_digest : Z;
  icresp_maxdata : Z;
  icresp_rsvd : bytes;
}.

Definition IcResp_bytes (p : IcResp) : bytes :=
  CommonHeader_bytes (icresp_hdr p) ++ le_split 2 (icresp_pfv p) ++ le_split 1 (icresp_cpda p) ++
  le_split 1 (icresp_digest p) ++ le_split 4 (icresp_maxdata p) ++ icresp_rsvd p.

Definition IcResp_view (bs : bytes) : IcResp := {|
  icresp_hdr := CommonHeader_view (bytes_at bs 0 8);
  icresp_pfv := field bs 8 2;
  icresp_cpda := field bs 10 1;
  icresp_digest := field bs 11 1;
  icresp_maxdata := field bs 12 4;
  icresp_rsvd := bytes_at bs 16 112;
|}.

Record TermPdu := {
  term_hdr : CommonHeader;
  term_fes : Z;
  term_fei : Z;
  term_rsvd : bytes;
}.

Definition TermPdu_bytes (p : TermPdu) : bytes :=
  CommonHeader_bytes (term_hdr p) ++ le_split 2 (term_fes p) ++ le_split 4 (term_fei p) ++
  term_rsvd p.

Definition TermPdu_view (bs : bytes) : TermPdu := {|
  term_hdr := CommonHeader_view (bytes_at bs 0 8);
  term_fes := field bs 8 2;
  term_fei := field bs 10 4;
  term_rsvd := bytes_at bs 14 10;
|}.

Record CmdCapsule := { cmd_hdr : CommonHeader; cmd_sqe : Sqe }.

Definition CmdCapsule_bytes (p : CmdCapsule) : bytes :=
  CommonHeader_bytes (cmd_hdr p) ++ Sqe_bytes (cmd_sqe p).

Definition CmdCapsule_view (bs : bytes) : CmdCapsule := {|
  cmd_hdr := CommonHeader_view (bytes_at bs 0 8);
  cmd_sqe := Sqe_view (bytes_at bs 8 64);
|}.

Record RspCapsule := { rsp_hdr : CommonHeader; rsp_cqe : Cqe }.

Definition RspCapsule_bytes (p : RspCapsule) : bytes :=
  CommonHeader_bytes (rsp_hdr p) ++ Cqe_bytes (rsp_cqe p).

Definition RspCapsule_view (bs : bytes) : RspCapsule := {|
  rsp_hdr := CommonHeader_view (bytes_at bs 0 8);
  rsp_cqe := Cqe_view (bytes_at bs 8 16);
|}.

Record DataPdu := {
  data_hdr : CommonHeader;
  data_cid : Z;
  data_ttag : Z;
  data_offset : Z;
  data_length : Z;
  data_rsvd : bytes;
}.

Definition DataPdu_bytes (p : DataPdu) : bytes :=
  CommonHeader_bytes (data_hdr p) ++ le_split 2 (data_cid p) ++ le_split 2 (data_ttag p) ++
  le_split 4 (data_offset p) ++ le_split 4 (data_length p) ++ data_rsvd p.

Definition DataPdu_view (bs : bytes) : DataPdu := {|
  data_hdr := CommonHeader_view (bytes_at bs 0 8);
  data_cid := field bs 8 2;
  data_ttag := field bs 10 2;
  data_offset := field bs 12 4;
  data_length := field bs 16 4;
  data_rsvd := bytes_at bs 20 4;
|}.

Definition MAX_HDR : nat := 128.
Definition MAX_PLEN : Z := 32 * 1024 * 1024.

Record PduError := { err_fes : Z; err_fei : Z }.

Definition hdr_field (offset : Z) : PduError :=
  {| err_fes := fes.INVALID_PDU_HDR; err_fei := offset |}.

Inductive PduKind :=
| KIcReq (p : IcReq)
| KIcResp (p : IcResp)
| KH2CTerm (fes fei : Z)
| KCapsuleCmd (sqe : Sqe)
| KCapsuleResp (cqe : Cqe)
| KH2CData (cid ttag offset length : Z) (last : bool)
| KC2HData (cid offset length : Z) (last success : bool)
| KR2T (cid ttag offset length : Z).

Record DecodedPdu := { dp_kind : PduKind; dp_data_len : Z; dp_ddgst : bool }.

(** ** The decoder *)

Inductive DecodeState := Common | Rest | Complete.

Record PduDecoder := {
  hdr_digest : bool;
  buf : bytes;
  have : nat;
  need : nat;
  dstate : DecodeState;
}.

Definition PduDecoder_new (hd : bool) : PduDecoder :=
  {| hdr_digest := hd; buf := zeroes MAX_HDR; have := 0; need := 8; dstate := Common |}.

Definition is_complete (d : PduDecoder) : bool :=
  match dstate d with Complete => true | _ => false end.

Definition set_buf (b : bytes) (h : nat) (d : PduDecoder) : PduDecoder :=
  {| hdr_digest := hdr_digest d; buf := b; have := h; need := need d; dstate := dstate d |}.
Definition set_rest (n : nat) (d : PduDecoder) : PduDecoder :=
  {| hdr_digest := hdr_digest d; buf := buf d; have := have d; need := n; dstate := Rest |}.
Definition set_complete (d : PduDecoder) : PduDecoder :=
  {| hdr_digest := hdr_digest d; buf := buf d; have := have d; need := need d; dstate := Complete |}.
Definition set_reset (d : PduDecoder) : PduDecoder :=
  {| hdr_digest := hdr_digest d; buf := buf d; have := 0; need := 8; dstate := Common |}.

(** [usize] subtraction. *)
Definition usub {E} (a b : nat) : res E nat :=
  if decide (b <= a)%nat then Ok (a - b)%nat else Panic.

Section Decoder.
Context {L : Crc32cLib}.

(** [full_header_len]: header length, with the digest, from the validated
    common header. *)
Definition full_header_len (d : PduDecoder) : res PduError nat :=
  hdr ← expect (read_from_bytes 8 CommonHeader_view (take 8 (buf d)));
  let t := ch_pdu_type hdr in
  '(expected_hlen, digestable) ←
    (if (t =? pdu_type.ICREQ) || (t =? pdu_type.ICRESP) then Ok (128, false)
     else if (t =? pdu_type.H2C_TERM) || (t =? pdu_type.C2H_TERM) then Ok (24, false)
     else if t =? pdu_type.CAPSULE_CMD then Ok (72, true)
     else if t =? pdu_type.CAPSULE_RESP then Ok (24, true)
     else if (t =? pdu_type.H2C_DATA) || (t =? pdu_type.C2H_DATA) || (t =? pdu_type.R2T)
       then Ok (24, true)
     else Err (hdr_field 0));
  if negb (ch_hlen hdr =? expected_hlen) then Err (hdr_field 2) else
  let hdgst := digestable && hdr_digest d in
  if has (ch_flags hdr) pdu_flags.HDGST && negb hdgst then Err (hdr_field 1) else
  let plen := ch_plen hdr in
  let header_wire := expected_hlen + (if hdgst then 4 else 0) in
  if (plen <? header_wire) || (MAX_PLEN <? plen) then Err (hdr_field 4) else
  let exact :=
    if (t =? pdu_type.ICREQ) || (t =? pdu_type.ICRESP) then Some 128
    else if (t =? pdu_type.CAPSULE_RESP) || (t =? pdu_type.R2T) then Some header_wire
    else None in
  if match exact with Some e => negb (plen =? e) | None => false end
  then Err (hdr_field 4) else
  let ddgst := has (ch_flags hdr) pdu_flags.DDGST in
  if ddgst && (plen <? header_wire + 4 + 1) then Err (hdr_field 4) else
  Ok (Z.to_nat expected_hlen + (if hdgst then 4 else 0))%nat.

(** One iteration of [feed]'s [loop]: [inl n] is [return Ok(n)], [inr n] goes
    round again with [n] bytes consumed. *)
Definition feed_step (input : bytes) (consumed : nat) : M PduDecoder PduError (nat + nat) :=
  d ← get;
  match dstate d with
  | Complete => mret (inl consumed)
  | Common | Rest =>
      want ← lift (usub (need d) (have d));
      r ← (if decide (0 < want)%nat then
             avail ← lift (usub (length input) consumed);
             let n := Nat.min want avail in
             if decide (n = 0%nat) then mret (inl consumed)
             else
               b ← lift (copy_into (buf d) (have d) (bytes_at input consumed n));
               _ ← modify (set_buf b (have d + n));
               if decide (have d + n < need d)%nat then mret (inl (consumed + n)%nat)
               else mret (inr (consumed + n)%nat)
           else mret (inr consumed));
      match r with
      | inl n => mret (inl n)
      | inr n =>
          d ← get;
          match dstate d with
          | Common => len ← lift (full_header_len d); _ ← modify (set_rest len); mret (inr n)
          | _ => _ ← modify set_complete; mret (inr n)
          end
      end
  end.

Fixpoint feed_loop (fuel : nat) (input : bytes) (consumed : nat) : M PduDecoder PduError nat :=
  match fuel with
  | O => panic
  | S fuel =>
      r ← feed_step input consumed;
      match r with
      | inl n => mret n
      | inr n => feed_loop fuel input n
      end
  end.

Definition feed_fuel : nat := 3.

Definition feed (input : bytes) : M PduDecoder PduError nat := feed_loop feed_fuel input 0.

(** The typed header in [take]'s final [match]; the last arm is the source's
    [unreachable!]. *)
Definition take_kind (b : bytes) (hdr : CommonHeader) (data_len : Z) : res PduError PduKind :=
  let t := ch_pdu_type hdr in
  if t =? pdu_type.ICREQ then
    p ← expect (read_from_bytes 128 IcReq_view (take 128 b)); mret (KIcReq p)
  else if t =? pdu_type.ICRESP then
    p ← expect (read_from_bytes 128 IcResp_view (take 128 b)); mret (KIcResp p)
  else if (t =? pdu_type.H2C_TERM) || (t =? pdu_type.C2H_TERM) then
    term ← expect (read_from_bytes 24 TermPdu_view (take 24 b));
    if 152 <? ch_plen hdr then Err (hdr_field 4)
    else mret (KH2CTerm (term_fes term) (term_fei term))
  else if t =? pdu_type.CAPSULE_CMD then
    cmd ← expect (read_from_bytes 72 CmdCapsule_view (take 72 b)); mret (KCapsuleCmd (cmd_sqe cmd))
  else if t =? pdu_type.CAPSULE_RESP then
    rsp ← expect (read_from_bytes 24 RspCapsule_view (take 24 b)); mret (KCapsuleResp (rsp_cqe rsp))
  else if t =? pdu_type.H2C_DATA then
    p ← expect (read_from_bytes 24 DataPdu_view (take 24 b));
    if negb (data_length p =? data_len) then Err (hdr_field 12)
    else mret (KH2CData (data_cid p) (data_ttag p) (data_offset p) (data_length p)
                        (has (ch_flags hdr) pdu_flags.DATA_LAST))
  else if t =? pdu_type.C2H_DATA then
    p ← expect (read_from_bytes 24 DataPdu_view (take 24 b));
    mret (KC2HData (data_cid p) (data_offset p) (data_length p)
                   (has (ch_flags hdr) pdu_flags.DATA_LAST)
                   (has (ch_flags hdr) pdu_flags.DATA_SUCCESS))
  else if t =? pdu_type.R2T then
    p ← expect (read_from_bytes 24 DataPdu_view (take 24 b));
    mret (KR2T (data_cid p) (data_ttag p) (data_offset p) (data_length p))
  else Panic.

(** The part of [take] before the reset: digest and field checks, typed parse. *)
Definition take_parse (hd : bool) (b : bytes) : res PduError DecodedPdu :=
  hdr ← expect (read_from_bytes 8 CommonHeader_view (take 8 b));
  let hlen := Z.to_nat (ch_hlen hdr) in
  let t := ch_pdu_type hdr in
  let digestable := negb ((t =? pdu_type.ICREQ) || (t =? pdu_type.ICRESP) ||
                          (t =? pdu_type.H2C_TERM) || (t =? pdu_type.C2H_TERM)) in
  let hdgst := digestable && hd in
  _ ← (if hdgst then
         _ ← assert (bool_decide (hlen + 4 <= length b)%nat);
         if negb (field b hlen 4 =? crc32c (take hlen b))
         then Err {| err_fes := fes.HDR_DIGEST_ERR; err_fei := 0 |}
         else Ok tt
       else Ok tt);
  let ddgst := digestable && has (ch_flags hdr) pdu_flags.DDGST in
  let header_wire := ch_hlen hdr + (if hdgst then 4 else 0) in
  rest ← checked 32 (ch_plen hdr - header_wire);
  data_len ← checked 32 (rest - (if ddgst then 4 else 0));
  if negb (ch_pdo hdr =? 0) && negb (ch_pdo hdr =? header_wire) then Err (hdr_field 3) else
  kind ← take_kind b hdr data_len;
  mret {| dp_kind := kind; dp_data_len := data_len; dp_ddgst := ddgst |}.

Definition PduDecoder_take : M PduDecoder PduError DecodedPdu :=
  d ← get;
  _ ← lift (assert (is_complete d));
  pdu ← lift (take_parse (hdr_digest d) (buf d));
  _ ← modify set_reset;
  mret pdu.

(** ** Encoders *)

Definition common (pdu_type flags hlen pdo plen : Z) : CommonHeader := {|
  ch_pdu_type := pdu_type; ch_flags := flags; ch_hlen := hlen; ch_pdo := pdo; ch_plen := plen |}.

Definition put_hdgst {E} (b : bytes) (hlen : nat) : res E (bytes * nat) :=
  _ ← assert (bool_decide (hlen <= length b)%nat);
  b' ← copy_into b hlen (le_split 4 (crc32c (take hlen b)));
  mret (b', hlen + 4)%nat.

Definition digest_bits (hdgst ddgst : bool) : Z :=
  let bits := 0 in
  let bits := if hdgst then Z.lor bits DIGEST_HDGST else bits in
  if ddgst then Z.lor bits DIGEST_DDGST else bits.

Definition encode_icreq {E} (b : bytes) (hdgst ddgst : bool) (maxr2t : Z) : res E (bytes * nat) :=
  let pdu := {|
    icreq_hdr := common pdu_type.ICREQ 0 128 0 128;
    icreq_pfv := PFV_1_0;
    icreq_hpda := 0;
    icreq_digest := digest_bits hdgst ddgst;
    icreq_maxr2t := maxr2t;
    icreq_rsvd := zeroes 112 |} in
  b' ← copy_into b 0 (IcReq_bytes pdu);
  mret (b', 128%nat).

Definition encode_icresp {E} (b : bytes) (hdgst ddgst : bool) (maxdata : Z) : res E (bytes * nat) :=
  let pdu := {|
    icresp_hdr := common pdu_type.ICRESP 0 128 0 128;
    icresp_pfv := PFV_1_0;
    icresp_cpda := 0;
    icresp_digest := digest_bits hdgst ddgst;
    icresp_maxdata := maxdata;
    icresp_rsvd := zeroes 112 |} in
  b' ← copy_into b 0 (IcResp_bytes pdu);
  mret (b', 128%nat).

Definition flag_if (c : bool) (bit flags : Z) : Z := if c then Z.lor flags bit else flags.

Definition encode_capsule_cmd {E} (b : bytes) (sqe : Sqe) (hdgst : bool) (data_len : Z)
    (ddgst : bool) : res E (bytes * nat) :=
  let hdgst_len := (if hdgst then 1 else 0) * 4 in
  let ddgst_len := (if ddgst && (0 <? data_len) then 1 else 0) * 4 in
  plen ← checked 32 (72 + hdgst_len + data_len + ddgst_len);
  let flags := flag_if hdgst pdu_flags.HDGST 0 in
  let flags := flag_if (ddgst && (0 <? data_len)) pdu_flags.DDGST flags in
  let pdo := if 0 <? data_len then 72 + hdgst_len else 0 in
  let pdu := {| cmd_hdr := common pdu_type.CAPSULE_CMD flags 72 (wrap 8 pdo) plen;
                cmd_sqe := sqe |} in
  b' ← copy_into b 0 (CmdCapsule_bytes pdu);
  if hdgst then put_hdgst b' 72 else mret (b', 72%nat).

Definition encode_capsule_resp {E} (b : bytes) (cqe : Cqe) (hdgst : bool) : res E (bytes * nat) :=
  let plen := 24 + (if hdgst then 1 else 0) * 4 in
  let flags := if hdgst then pdu_flags.HDGST else 0 in
  let pdu := {| rsp_hdr := common pdu_type.CAPSULE_RESP flags 24 0 plen; rsp_cqe := cqe |} in
  b' ← copy_into b 0 (RspCapsule_bytes pdu);
  if hdgst then put_hdgst b' 24 else mret (b', 24%nat).

Definition encode_data_pdu {E} (b : bytes) (pdu_type base_flags cid ttag data_offset data_length : Z)
    (hdgst ddgst : bool) : res E (bytes * nat) :=
  let hdgst_len := (if hdgst then 1 else 0) * 4 in
  let ddgst_len := (if ddgst then 1 else 0) * 4 in
  let flags := flag_if hdgst pdu_flags.HDGST base_flags in
  let flags := flag_if ddgst pdu_flags.DDGST flags in
  plen ← checked 32 (24 + hdgst_len + data_length + ddgst_len);
  let pdu := {|
    data_hdr := common pdu_type flags 24 (wrap 8 (24 + hdgst_len)) plen;
    data_cid := cid;
    data_ttag := ttag;
    data_offset := data_offset;
    data_length := data_length;
    data_rsvd := zeroes 4 |} in
  b' ← copy_into b 0 (DataPdu_bytes pdu);
  if hdgst then put_hdgst b' 24 else mret (b', 24%nat).

Definition encode_c2h_data {E} (b : bytes) (cid data_offset data_length : Z)
    (last success hdgst ddgst : bool) : res E (bytes * nat) :=
  let base_flags := flag_if last pdu_flags.DATA_LAST 0 in
  let base_flags := flag_if success pdu_flags.DATA_SUCCESS base_flags in
  encode_data_pdu b pdu_type.C2H_DATA base_flags cid 0 data_offset data_length hdgst ddgst.

Definition encode_r2t {E} (b : bytes) (cid ttag offset length : Z) (hdgst : bool) :
    res E (bytes * nat) :=
  let plen := 24 + (if hdgst then 1 else 0) * 4 in
  let flags := if hdgst then pdu_flags.HDGST else 0 in
  let pdu := {|
    data_hdr := common pdu_type.R2T flags 24 0 plen;
    data_cid := cid;
    data_ttag := ttag;
    data_offset := offset;
    data_length := length;
    data_rsvd := zeroes 4 |} in
  b' ← copy_into b 0 (DataPdu_bytes pdu);
  if hdgst then put_hdgst b' 24 else mret (b', 24%nat).

Definition encode_h2c_data {E} (b : bytes) (cid ttag data_offset data_length : Z)
    (last hdgst ddgst : bool) : res E (bytes * nat) :=
  let base_flags := if last then pdu_flags.DATA_LAST else 0 in
  encode_data_pdu b pdu_type.H2C_DATA base_flags cid ttag data_offset data_length hdgst ddgst.

Definition encode_c2h_term {E} (b : bytes) (error : PduError) : res E (bytes * nat) :=
  let pdu := {|
    term_hdr := common pdu_type.C2H_TERM 0 24 0 24;
    term_fes := err_fes error;
    term_fei := err_fei error;
    term_rsvd := zeroes 10 |} in
  b' ← copy_into b 0 (TermPdu_bytes pdu);
  mret (b', 24%nat).

End Decoder.
