(* ===== verification/PduProofs.v ===== *)
(** * Theorems about the PDU codec

    [dec_wf] is the decoder's invariant.  The theorems: [feed] never panics and
    its loop terminates within its fuel ([feed_total]); feeding a header in
    arbitrary pieces is feeding it whole ([feed_fragmentation]); [take] on a
    complete header never panics, its length arithmetic cannot underflow and it
    accounts for every byte of the PDU ([take_total]); and decoding what the
    encoders wrote gives the encoded PDU back. *)

From S2P Require Import Prelude Digest Spec Pdu.

Section PduProofs.
Context {L : Crc32cLib}.

(** ** The decoder invariant *)

Definition dec_wf (d : PduDecoder) : Prop :=
  length (buf d) = MAX_HDR /\ (have d <= need d <= MAX_HDR)%nat /\
  match dstate d with
  | Common => need d = 8%nat
  | Rest => (8 <= have d)%nat /\ full_header_len d = Ok (need d)
  | Complete => have d = need d /\ full_header_len d = Ok (need d)
  end.

(** A decoder waiting for the first byte of a header. *)
Definition dec_ready (d : PduDecoder) : Prop :=
  length (buf d) = MAX_HDR /\ have d = 0%nat /\ need d = 8%nat /\ dstate d = Common.

Lemma dec_ready_wf d : dec_ready d -> dec_wf d.
Proof. intros (? & Hh & Hn & Hs). unfold dec_wf. rewrite Hs, Hh, Hn. unfold MAX_HDR in *. lia. Qed.

Lemma new_ready hd : dec_ready (PduDecoder_new hd).
Proof. by repeat split. Qed.

(** ** What one call of [feed] does, as a function *)

(** The decoder with [bs] appended to the buffered header. *)
Definition push (d : PduDecoder) (bs : bytes) : PduDecoder :=
  set_buf (take (have d) (buf d) ++ bs ++ drop (have d + length bs) (buf d))
          (have d + length bs) d.

(** Collecting the rest of a header of known length. *)
Definition feed_rest (d : PduDecoder) (input : bytes) : PduDecoder * nat :=
  let n := Nat.min (need d - have d) (length input) in
  let d' := push d (take n input) in
  (if decide (have d' = need d') then set_complete d' else d', n).

(** Collecting the common header, then the rest. *)
Definition feed_common (d : PduDecoder) (input : bytes) : PduDecoder * res PduError nat :=
  let n := Nat.min (8 - have d) (length input) in
  let d' := push d (take n input) in
  if decide (have d' < 8)%nat then (d', Ok n)
  else match full_header_len d' with
       | Ok len => let r := feed_rest (set_rest len d') (drop n input) in (r.1, Ok (n + r.2)%nat)
       | Err e => (d', Err e)
       | Panic => (d', Panic)
       end.

Lemma push_nil d : (have d <= length (buf d))%nat -> push d [] = d.
Proof.
  intros. destruct d as [hd b h n s]. unfold push, set_buf. cbn in *.
  rewrite Nat.add_0_r, take_drop. done.
Qed.

Lemma push_app d a b :
  (have d + length a + length b <= length (buf d))%nat -> push (push d a) b = push d (a ++ b).
Proof.
  intros H. destruct d as [hd bf h n s]. unfold push, set_buf. cbn in *.
  assert (Hl : length (take h bf) = h) by blen.
  f_equal; [| rewrite length_app; lia].
  rewrite length_app. rewrite (app_assoc (take h bf) a).
  rewrite take_app_length' by (rewrite length_app, Hl; done).
  rewrite <- !app_assoc. do 3 f_equal.
  rewrite (app_assoc (take h bf) a).
  rewrite drop_app_ge by (rewrite length_app, Hl; lia).
  rewrite drop_drop, length_app, Hl. f_equal. lia.
Qed.

Lemma push_buf_length d bs :
  (have d + length bs <= length (buf d))%nat -> length (buf (push d bs)) = length (buf d).
Proof. intros. cbn. blen. Qed.

Lemma push_prefix d bs n :
  (n <= have d)%nat -> (have d <= length (buf d))%nat ->
  take n (buf (push d bs)) = take n (buf d).
Proof. intros. cbn. rewrite take_app_le by blen. rewrite take_take. f_equal. lia. Qed.

(** The header length depends on the first eight bytes only. *)
Lemma full_header_len_prefix d d' :
  hdr_digest d = hdr_digest d' -> take 8 (buf d) = take 8 (buf d') ->
  full_header_len d = full_header_len d'.
Proof. unfold full_header_len. by intros -> ->. Qed.

Lemma full_header_len_push d bs :
  (8 <= have d <= length (buf d))%nat -> full_header_len (push d bs) = full_header_len d.
Proof. intros. apply full_header_len_prefix; [done | apply push_prefix; lia]. Qed.

(** Bind on the result monad, as a hypothesis. *)
Lemma res_bind_ok {E A B} (m : res E A) (f : A -> res E B) b :
  m ≫= f = Ok b -> exists a, m = Ok a /\ f a = Ok b.
Proof. destruct m; cbn; intros; simplify_eq; eauto. Qed.

Lemma res_bind_no_panic {E A B} (m : res E A) (f : A -> res E B) :
  m <> Panic -> (forall a, m = Ok a -> f a <> Panic) -> m ≫= f <> Panic.
Proof. destruct m; cbn; eauto. Qed.

Lemma full_header_len_bounds d n :
  full_header_len d = Ok n -> (24 <= n <= MAX_HDR)%nat.
Proof.
  unfold full_header_len, MAX_HDR. intros H.
  apply res_bind_ok in H as (hdr & _ & H).
  apply res_bind_ok in H as ([hl dg] & Ht & H).
  repeat (case_match; simplify_eq/=); lia.
Qed.

Lemma full_header_len_no_panic d : length (buf d) = MAX_HDR -> full_header_len d <> Panic.
Proof.
  intros Hb. unfold full_header_len.
  apply res_bind_no_panic.
  - unfold read_from_bytes. rewrite decide_True; [done |]. unfold MAX_HDR in *. blen.
  - intros hdr _. apply res_bind_no_panic; [by repeat case_match |].
    intros [hl dg] _. by repeat case_match.
Qed.

(** ** One loop iteration *)

Lemma feed_step_partial d input consumed :
  dstate d <> Complete -> (have d < need d)%nat -> (need d <= length (buf d))%nat ->
  (consumed <= length input)%nat ->
  let n := Nat.min (need d - have d) (length input - consumed) in
  (have d + n < need d)%nat ->
  feed_step input consumed d = (push d (bytes_at input consumed n), Ok (inl (consumed + n)%nat)).
Proof.
  intros Hs Hlt Hb Hc n Hn.
  assert (Hlen : length (bytes_at input consumed n) = n) by (unfold n; blen).
  unfold feed_step, mbind, M_bind, get, lift, modify, mret, M_ret.
  destruct (dstate d) eqn:Es; [| | done].
  all: unfold usub; rewrite decide_True by lia; rewrite decide_True by lia;
    rewrite decide_True by lia; fold n;
    destruct (decide (n = 0%nat)) as [Hz | Hz];
    [ rewrite (nil_length_inv (bytes_at input consumed n)) by lia; rewrite push_nil by lia;
      repeat f_equal; lia
    | rewrite copy_into_ok by lia; cbn; rewrite decide_True by lia; cbn;
      unfold push; by rewrite Hlen ].
Qed.

Lemma feed_step_full d input consumed :
  dstate d <> Complete -> (have d <= need d)%nat -> (need d <= length (buf d))%nat ->
  (need d - have d <= length input - consumed)%nat -> (consumed <= length input)%nat ->
  let n := (need d - have d)%nat in
  let d' := push d (bytes_at input consumed n) in
  feed_step input consumed d =
    match dstate d with
    | Common => match full_header_len d' with
                | Ok len => (set_rest len d', Ok (inr (consumed + n)%nat))
                | Err e => (d', Err e)
                | Panic => (d', Panic)
                end
    | _ => (set_complete d', Ok (inr (consumed + n)%nat))
    end.
Proof.
  intros Hs Hle Hb Hav Hc n d'.
  assert (Hlen : length (bytes_at input consumed n) = n) by (unfold n; blen).
  assert (Hstep : forall k : nat -> M PduDecoder PduError (nat + nat),
    (r ← (if decide (0 < n)%nat then
             avail ← lift (usub (length input) consumed);
             let m := Nat.min n avail in
             if decide (m = 0%nat) then mret (inl consumed)
             else
               b ← lift (copy_into (buf d) (have d) (bytes_at input consumed m));
               _ ← modify (set_buf b (have d + m));
               if decide (have d + m < need d)%nat then mret (inl (consumed + m)%nat)
               else mret (inr (consumed + m)%nat)
           else mret (inr consumed));
     match r with inl m => mret (inl m) | inr m => k m end) d = k (consumed + n)%nat d').
  { intros k. unfold mbind, M_bind, lift, modify, mret, M_ret.
    destruct (decide (0 < n)%nat) as [Hp | Hp].
    - unfold usub. rewrite decide_True by lia. rewrite (Nat.min_l n) by (unfold n; lia).
      rewrite decide_False by lia. rewrite copy_into_ok by (unfold n in *; lia). cbn.
      rewrite decide_False by (unfold n; lia). unfold d', push. by rewrite Hlen.
    - assert (Hn : n = 0%nat) by lia. unfold d'. rewrite Hn.
      change (bytes_at input consumed 0) with (@nil Byte.byte).
      rewrite push_nil by lia. by rewrite Nat.add_0_r. }
  unfold feed_step. unfold mbind at 1, M_bind at 1, get at 1.
  destruct (dstate d) eqn:Es; [| | done];
  (unfold mbind at 1, M_bind at 1, lift at 1; unfold usub at 1; rewrite decide_True by lia;
   fold n; rewrite Hstep; unfold mbind, M_bind, get, lift, modify, mret, M_ret;
   replace (dstate d') with (dstate d) by done; rewrite Es; try done;
   by destruct (full_header_len d')).
Qed.

(** ** [feed] is [feed_rest] / [feed_common] *)

Lemma feed_loop_S fuel input n d :
  feed_loop (S fuel) input n d =
    match feed_step input n d with
    | (d', Ok (inl m)) => (d', Ok m)
    | (d', Ok (inr m)) => feed_loop fuel input m d'
    | (d', Err e) => (d', Err e)
    | (d', Panic) => (d', Panic)
    end.
Proof. cbn. unfold mbind, M_bind. by destruct (feed_step input n d) as [d' [[m | m] | e |]]. Qed.

Lemma feed_loop_complete fuel input n d :
  dstate d = Complete -> feed_loop (S fuel) input n d = (d, Ok n).
Proof.
  intros H. cbn. unfold feed_step, mbind, M_bind, get. cbn. rewrite H. done.
Qed.

Lemma feed_loop_rest fuel input consumed d :
  dec_wf d -> dstate d = Rest -> (consumed <= length input)%nat ->
  feed_loop (S (S fuel)) input consumed d =
    let r := feed_rest d (drop consumed input) in (r.1, Ok (consumed + r.2)%nat).
Proof.
  intros (Hb & Hle & Hst) Hs Hc. rewrite Hs in Hst. unfold feed_rest.
  rewrite length_drop. unfold MAX_HDR in *.
  destruct (decide (need d - have d <= length input - consumed)%nat) as [Hf | Hp].
  - rewrite (Nat.min_l (need d - have d)) by lia.
    assert (Hl : length (take (need d - have d) (drop consumed input)) = (need d - have d)%nat)
      by blen.
    rewrite feed_loop_S.
    rewrite feed_step_full by (rewrite ?Hs; done || lia).
    rewrite Hs. cbv zeta beta.
    rewrite feed_loop_complete by done.
    unfold bytes_at. rewrite decide_True; [done |]. cbn. lia.
  - rewrite (Nat.min_r (need d - have d)) by lia.
    assert (Hl : length (take (length input - consumed) (drop consumed input))
                 = (length input - consumed)%nat) by blen.
    rewrite feed_loop_S.
    rewrite feed_step_partial by (rewrite ?Hs; (done || lia)).
    rewrite (Nat.min_r (need d - have d)) by lia. cbn.
    unfold bytes_at. rewrite decide_False; [done |]. cbn. lia.
Qed.

Lemma set_rest_wf d len :
  length (buf d) = MAX_HDR -> have d = 8%nat -> full_header_len d = Ok len ->
  dec_wf (set_rest len d).
Proof.
  intros Hb Hh Hl. pose proof (full_header_len_bounds _ _ Hl). unfold dec_wf, MAX_HDR in *. cbn.
  rewrite Hh. repeat split; try lia. rewrite <- Hl. by apply full_header_len_prefix.
Qed.

Lemma feed_common_eq input d :
  dec_wf d -> dstate d = Common -> feed input d = feed_common d input.
Proof.
  intros (Hb & Hle & Hst) Hs. rewrite Hs in Hst. unfold feed, feed_fuel, feed_common.
  unfold MAX_HDR in *.
  destruct (decide (8 - have d <= length input)%nat) as [Hf | Hp].
  - rewrite (Nat.min_l (8 - have d)) by lia.
    assert (Hl : length (take (8 - have d) input) = (8 - have d)%nat) by blen.
    rewrite decide_False by (cbn; lia).
    set (d' := push d (take (8 - have d) input)).
    rewrite feed_loop_S.
    rewrite feed_step_full by (rewrite ?Hs; done || lia).
    rewrite Hs, Hst, Nat.add_0_l. cbv zeta.
    change (push d (bytes_at input 0 (8 - have d))) with d'. destruct (full_header_len d') as [len | e |] eqn:El; [| done | done].
    rewrite feed_loop_rest; [done | | done | lia].
    apply set_rest_wf; [| cbn; lia | done].
    unfold d'. rewrite push_buf_length; unfold MAX_HDR; lia.
  - rewrite (Nat.min_r (8 - have d)) by lia.
    assert (Hl : length (take (length input) input) = length input) by blen.
    rewrite decide_True by (cbn; lia).
    rewrite feed_loop_S.
    rewrite feed_step_partial by (rewrite ?Hs; (done || lia)).
    rewrite Hst, Nat.sub_0_r, (Nat.min_r (8 - have d)) by lia. done.
Qed.

Lemma feed_rest_eq input d :
  dec_wf d -> dstate d = Rest ->
  feed input d = let r := feed_rest d input in (r.1, Ok r.2).
Proof. intros. unfold feed, feed_fuel. rewrite feed_loop_rest by (done || lia). by rewrite drop_0. Qed.

Lemma feed_complete_eq input d : dstate d = Complete -> feed input d = (d, Ok 0%nat).
Proof. apply feed_loop_complete. Qed.

(** ** Fragmentation *)

Lemma feed_rest_app d a b :
  dec_wf d -> dstate d = Rest -> (have d + length a < need d)%nat ->
  feed_rest d (a ++ b) =
    (let r := feed_rest (push d a) b in (r.1, (length a + r.2)%nat)).
Proof.
  intros (Hb & Hle & Hst) Hs Hlt. rewrite Hs in Hst. unfold feed_rest, MAX_HDR in *.
  change (have (push d a)) with (have d + length a)%nat. change (need (push d a)) with (need d).
  rewrite length_app. set (n := Nat.min (need d - (have d + length a)) (length b)).
  replace (Nat.min (need d - have d) (length a + length b)) with (length a + n)%nat by lia.
  rewrite take_app_add'  by done.
  rewrite push_app by (blen; subst n; lia). done.
Qed.

Lemma feed_rest_partial d a :
  dec_wf d -> dstate d = Rest -> (have d + length a < need d)%nat ->
  feed_rest d a = (push d a, length a).
Proof.
  intros (Hb & Hle & Hst) Hs Hlt. unfold feed_rest.
  rewrite Nat.min_r, firstn_all by lia. rewrite decide_False; [done |]. cbn. lia.
Qed.

Lemma feed_rest_full d a b :
  dec_wf d -> dstate d = Rest -> (need d <= have d + length a)%nat ->
  feed_rest d (a ++ b) = feed_rest d a.
Proof.
  intros (Hb & Hle & Hst) Hs Hlt. unfold feed_rest.
  rewrite length_app, !Nat.min_l by lia. by rewrite take_app_le by lia.
Qed.

Lemma push_wf_rest d a :
  dec_wf d -> dstate d = Rest -> (have d + length a <= need d)%nat -> dec_wf (push d a).
Proof.
  intros (Hb & Hle & Hst) Hs Hlt. rewrite Hs in Hst. unfold dec_wf, MAX_HDR in *.
  rewrite push_buf_length by lia. cbn [have need dstate push set_buf]. rewrite Hs.
  rewrite full_header_len_push by lia. repeat split; [lia.. | apply Hst].
Qed.

Lemma feed_rest_wf d input : dec_wf d -> dstate d = Rest -> dec_wf (feed_rest d input).1.
Proof.
  intros Hwf Hs. pose proof Hwf as (Hb & Hle & Hst). rewrite Hs in Hst. unfold feed_rest.
  set (n := Nat.min _ _).
  assert (Hw : dec_wf (push d (take n input))) by (apply push_wf_rest; [done.. | subst n; blen]).
  cbv zeta. case_decide as He; [| done]. destruct Hw as (Hb' & Hle' & Hw).
  change (dstate (push d (take n input))) with (dstate d) in Hw. rewrite Hs in Hw.
  unfold dec_wf. cbn [fst].
  rewrite (full_header_len_prefix (set_complete _) (push d (take n input))) by done.
  split; [exact Hb' |]. split; [exact Hle' |]. split; [exact He | apply Hw].
Qed.

Lemma push_wf_common d a :
  dec_wf d -> dstate d = Common -> (have d + length a <= 8)%nat -> dec_wf (push d a).
Proof.
  intros (Hb & Hle & Hst) Hs Hlt. rewrite Hs in Hst. unfold dec_wf, MAX_HDR in *.
  rewrite push_buf_length by lia. cbn [have need dstate push set_buf]. rewrite Hs. lia.
Qed.

Lemma feed_rest_ok d input :
  dec_wf d -> dstate d = Rest ->
  dec_wf (feed_rest d input).1 /\ ((feed_rest d input).2 <= length input)%nat /\
  (dstate (feed_rest d input).1 <> Complete -> (feed_rest d input).2 = length input).
Proof.
  intros Hwf Hs. pose proof Hwf as (Hb & Hle & Hst). split; [by apply feed_rest_wf |].
  unfold feed_rest. cbn [fst snd]. set (n := Nat.min _ _). split; [subst n; lia |].
  case_decide as Hc; [done |]. intros _. revert Hc. cbn. rewrite length_take. subst n. lia.
Qed.

(** [feed] from a decoder that has not completed its header, case by case. *)
Lemma feed_common_ok d input d' r :
  dec_wf d -> dstate d = Common -> feed_common d input = (d', r) ->
  dec_wf d' /\
  match r with
  | Ok n => (n <= length input)%nat /\ (dstate d' <> Complete -> n = length input)
  | Err e => full_header_len d' = Err e
  | Panic => False
  end.
Proof.
  intros Hwf Hs. pose proof Hwf as (Hb & Hle & Hst). rewrite Hs in Hst. unfold feed_common.
  set (n := Nat.min _ _).
  assert (Hl : length (take n input) = n) by (subst n; blen).
  assert (Hw : dec_wf (push d (take n input))) by (apply push_wf_common; [done.. | subst n; lia]).
  case_decide as Hlt; [intros [= <- <-]; cbn in Hlt; split; [done | subst n; lia] |].
  destruct (full_header_len (push d (take n input))) as [len | e |] eqn:El.
  - assert (Hr : dec_wf (set_rest len (push d (take n input)))).
    { apply set_rest_wf; [apply Hw | cbn in *; subst n; lia | done]. }
    pose proof (feed_rest_ok _ (drop n input) Hr eq_refl) as (Hw2 & Hn2 & Hc2).
    rewrite length_drop in *.
    destruct (feed_rest _ _) as [d2 m]. cbn in *. intros [= <- <-].
    split; [done |]. split; [subst n; lia |]. intros Hc. specialize (Hc2 Hc). subst n. lia.
  - by intros [= <- <-].
  - exfalso. revert El. apply full_header_len_no_panic. apply Hw.
Qed.

Lemma full_header_len_err d e :
  full_header_len d = Err e -> err_fes e = fes.INVALID_PDU_HDR.
Proof.
  unfold full_header_len. destruct (read_from_bytes _ _ _); [| done]. cbn. intros H.
  repeat (case_match; simplify_eq/=); done.
Qed.

(**  [feed] is total and memory-safe: from any decoder satisfying the
    invariant (in particular a new one) and for any input, the call returns
    within its loop fuel without panicking, consumes no more than it was given,
    consumes all of it unless a header completed, and re-establishes the
    invariant (so the header buffer is never overrun by later calls).  A refused
    header is refused with the fatal error status for an invalid PDU header. *)
Theorem feed_total d input :
  dec_wf d ->
  match feed input d with
  | (d', Ok n) => dec_wf d' /\ (n <= length input)%nat /\
                  (dstate d' <> Complete -> n = length input)
  | (d', Err e) => dec_wf d' /\ err_fes e = fes.INVALID_PDU_HDR
  | (_, Panic) => False
  end.
Proof.
  intros Hwf. destruct (dstate d) eqn:Hs.
  - rewrite feed_common_eq by done. destruct (feed_common d input) as [d' r] eqn:E.
    destruct (feed_common_ok _ _ _ _ Hwf Hs E) as [Hw Hr].
    destruct r; [done | | done]. split; [done |]. by eapply full_header_len_err.
  - rewrite feed_rest_eq by done. by apply feed_rest_ok.
  - rewrite feed_complete_eq by done. split; [done |]. split; [lia | done].
Qed.

Lemma feed_common_partial d a :
  dec_wf d -> (have d + length a < 8)%nat -> feed_common d a = (push d a, Ok (length a)).
Proof.
  intros (Hb & Hle & _) Hlt. unfold feed_common.
  rewrite Nat.min_r, firstn_all by lia. rewrite decide_True; [done |]. cbn. lia.
Qed.

Lemma feed_common_app d a b :
  dec_wf d -> dstate d = Common -> (have d + length a < 8)%nat ->
  feed_common d (a ++ b) =
    match feed_common (push d a) b with
    | (d2, Ok m) => (d2, Ok (length a + m)%nat)
    | other => other
    end.
Proof.
  intros (Hb & Hle & Hst) Hs Hlt. unfold feed_common, MAX_HDR in *.
  change (have (push d a)) with (have d + length a)%nat.
  rewrite length_app. set (n := Nat.min (8 - (have d + length a)) (length b)).
  replace (Nat.min (8 - have d) (length a + length b)) with (length a + n)%nat by lia.
  rewrite take_app_add' by done. rewrite drop_app_add' by done.
  rewrite push_app by (blen; subst n; lia).
  case_decide; [done |]. destruct (full_header_len (push _ _)); [| done | done].
  by rewrite Nat.add_assoc.
Qed.

Lemma feed_rest_fragmentation d a b :
  dec_wf d -> dstate d = Rest ->
  feed_rest d (a ++ b) =
    (let r := feed_rest d a in
     if is_complete r.1 then r
     else let r2 := feed_rest r.1 b in (r2.1, (r.2 + r2.2)%nat)).
Proof.
  intros Hwf Hs. destruct (decide (have d + length a < need d)%nat) as [Hlt | Hge].
  - rewrite feed_rest_app, (feed_rest_partial d a) by done. cbv zeta. cbn [fst snd].
    replace (is_complete (push d a)) with false; [done |].
    unfold is_complete. cbn. by rewrite Hs.
  - rewrite feed_rest_full by (done || lia). cbv zeta.
    replace (is_complete (feed_rest d a).1) with true; [done |].
    pose proof Hwf as (_ & ? & _).
    unfold feed_rest. cbn [fst]. rewrite decide_True; [done |]. cbn. rewrite length_take. lia.
Qed.

(** An incomplete run of [feed_rest] is ready for more. *)
Lemma feed_rest_state d a :
  dstate d = Rest -> is_complete (feed_rest d a).1 = false -> dstate (feed_rest d a).1 = Rest.
Proof. intros Hs. unfold feed_rest. cbn [fst]. case_decide; cbn; [done | by rewrite Hs]. Qed.

(**  Fragmentation does not matter: feeding [a ++ b] in one call leaves the
    same decoder, the same error and the same total consumption as feeding [a]
    and then, if no header completed, [b].  By induction any segmentation the
    TCP stream delivers is equivalent to the unfragmented header. *)
Theorem feed_fragmentation d a b :
  dec_wf d ->
  feed (a ++ b) d =
    match feed a d with
    | (d1, Ok n) =>
        if is_complete d1 then (d1, Ok n)
        else match feed b d1 with
             | (d2, Ok m) => (d2, Ok (n + m)%nat)
             | other => other
             end
    | other => other
    end.
Proof.
  intros Hwf. destruct (dstate d) eqn:Hs.
  - rewrite !feed_common_eq by done.
    destruct (decide (have d + length a < 8)%nat) as [Hlt | Hge].
    + rewrite feed_common_app, (feed_common_partial d a) by done.
      replace (is_complete (push d a)) with false by (unfold is_complete; cbn; by rewrite Hs).
      by rewrite feed_common_eq by (done || (apply push_wf_common; (done || lia))).
    + destruct (feed_common d a) as [d1 r1] eqn:Ea.
      pose proof (feed_common_ok _ _ _ _ Hwf Hs Ea) as [Hw1 _].
      pose proof Hwf as (Hb & Hle & Hst). rewrite Hs in Hst.
      revert Ea. unfold feed_common.
      rewrite length_app, !Nat.min_l, take_app_le, drop_app_le by lia.
      assert (Hl : length (take (8 - have d) a) = (8 - have d)%nat) by blen.
      rewrite !decide_False by (cbn; lia).
      set (d' := push d (take (8 - have d) a)).
      destruct (full_header_len d') as [len | e |] eqn:El; [| by intros [= <- <-] ..].
      assert (Hr : dec_wf (set_rest len d')).
      { apply set_rest_wf; [| cbn; lia | done].
        unfold d'. rewrite push_buf_length; unfold MAX_HDR in *; lia. }
      rewrite feed_rest_fragmentation by done. cbv zeta.
      intros Ea. apply pair_equal_spec in Ea as [<- <-].
      destruct (is_complete _) eqn:Ec; [done |].
      rewrite feed_rest_eq; [cbn; by rewrite Nat.add_assoc | done | by apply feed_rest_state].
  - rewrite !feed_rest_eq by done. cbv zeta. rewrite feed_rest_fragmentation by done. cbv zeta.
    destruct (is_complete _) eqn:Ec; [done |].
    rewrite feed_rest_eq; [done | by apply feed_rest_wf | by apply feed_rest_state].
  - rewrite !feed_complete_eq by done. unfold is_complete. by rewrite Hs.
Qed.

(** ** [take] *)

(** The PDU types with their header length and whether digests cover them. *)
Definition type_shape (t hlen : Z) (digestable : bool) : Prop :=
  ((t = pdu_type.ICREQ \/ t = pdu_type.ICRESP) /\ hlen = 128 /\ digestable = false) \/
  ((t = pdu_type.H2C_TERM \/ t = pdu_type.C2H_TERM) /\ hlen = 24 /\ digestable = false) \/
  (t = pdu_type.CAPSULE_CMD /\ hlen = 72 /\ digestable = true) \/
  ((t = pdu_type.CAPSULE_RESP \/ t = pdu_type.H2C_DATA \/ t = pdu_type.C2H_DATA \/
    t = pdu_type.R2T) /\ hlen = 24 /\ digestable = true).

(** The common header a decoder has buffered. *)
Definition dec_hdr (d : PduDecoder) : CommonHeader := CommonHeader_view (take 8 (buf d)).

(** What [full_header_len] has checked once it succeeds. *)
Lemma full_header_len_inv d n :
  length (buf d) = MAX_HDR -> full_header_len d = Ok n ->
  exists digestable,
    let h := dec_hdr d in
    let wire := ch_hlen h + (if digestable && hdr_digest d then 4 else 0) in
    type_shape (ch_pdu_type h) (ch_hlen h) digestable /\
    Z.of_nat n = wire /\ wire <= ch_plen h <= MAX_PLEN /\
    (has (ch_flags h) pdu_flags.DDGST = true -> wire + 5 <= ch_plen h).
Proof.
  intros Hb. unfold full_header_len, read_from_bytes.
  rewrite decide_True by (unfold MAX_HDR in *; blen). cbn [expect mbind res_bind].
  fold (dec_hdr d). set (h := dec_hdr d). clearbody h. intros H.
  apply res_bind_ok in H as ([hl dg] & Ht & H). exists dg. cbv zeta.
  assert (Hs : type_shape (ch_pdu_type h) hl dg).
  { unfold type_shape. repeat (case_match; simplify_eq/=); zbool;
      repeat match goal with H : (_ || _)%bool = true |- _ => apply orb_prop in H as [H|H] end;
      zbool; tauto. }
  destruct (ch_hlen h =? hl) eqn:Ehl; [| done]. cbn [negb] in H. zbool. subst hl.
  destruct (has (ch_flags h) pdu_flags.HDGST && _); [done |].
  destruct ((_ <? _) || _) eqn:Epl; [done |]. zbool.
  destruct (match _ with Some e => _ | None => _ end) eqn:Eex; [done |].
  destruct (has (ch_flags h) pdu_flags.DDGST && _) eqn:Edd; [done |].
  assert (Hpos : 0 <= ch_hlen h) by (unfold type_shape in Hs; lia).
  injection H as <-. split_and!; [done | destruct (dg && hdr_digest d); lia | lia | lia |].
  intros Hdd. rewrite Hdd in Edd. cbn [andb] in Edd. zbool. lia.
Qed.

Lemma take_kind_no_panic b h hlen dg n :
  length b = MAX_HDR -> type_shape (ch_pdu_type h) hlen dg -> take_kind b h n <> Panic.
Proof.
  intros Hb Hs. unfold MAX_HDR in *. unfold take_kind, read_from_bytes.
  rewrite !decide_True by blen. cbn [expect mbind res_bind].
  destruct Hs as [([-> | ->] & _) | [([-> | ->] & _) | [(-> & _) | ([-> | [-> | [-> | ->]]] & _)]]];
    cbn -[has]; repeat case_match; done.
Qed.

(**  [take] is total on a complete header: no panic, no [unreachable!], and
    no [u32] underflow in the payload length.  On success the lengths account
    for the whole PDU (header and header digest, payload, data digest make up
    PLEN) and the decoder is ready for the next header. *)
Theorem take_total d :
  dec_wf d -> dstate d = Complete ->
  match PduDecoder_take d with
  | (d', Ok p) =>
      dec_ready d' /\ 0 <= dp_data_len p /\
      ch_plen (dec_hdr d) = Z.of_nat (need d) + dp_data_len p + (if dp_ddgst p then 4 else 0)
  | (d', Err _) => d' = d
  | (_, Panic) => False
  end.
Proof.
  intros (Hb & Hle & Hst) Hs. rewrite Hs in Hst. destruct Hst as [Hhn Hf].
  destruct (full_header_len_inv d _ Hb Hf) as (dg & Hsh & Hn & Hpl & Hdd).
  unfold PduDecoder_take, mbind, M_bind, get, lift, modify, mret, M_ret, is_complete.
  rewrite Hs. cbn [assert].
  assert (Hp : match take_parse (hdr_digest d) (buf d) with
               | Ok p => 0 <= dp_data_len p /\
                   ch_plen (dec_hdr d) =
                   Z.of_nat (need d) + dp_data_len p + (if dp_ddgst p then 4 else 0)
               | Err _ => True
               | Panic => False end).
  2: { destruct (take_parse _ _); [| done | done]. split; [| done]. by repeat split. }
  unfold take_parse, read_from_bytes. rewrite decide_True by (unfold MAX_HDR in *; blen).
  cbn [expect mbind res_bind]. fold (dec_hdr d). set (h := dec_hdr d) in *.
  assert (Hdg : negb ((ch_pdu_type h =? pdu_type.ICREQ) || (ch_pdu_type h =? pdu_type.ICRESP) ||
    (ch_pdu_type h =? pdu_type.H2C_TERM) || (ch_pdu_type h =? pdu_type.C2H_TERM)) = dg).
  { destruct Hsh as [([-> | ->] & _ & ->) | [([-> | ->] & _ & ->) |
         [(-> & _ & ->) | ([-> | [-> | [-> | ->]]] & _ & ->)]]]; reflexivity. }
  rewrite Hdg. clearbody h.
  assert (Hh : 24 <= ch_hlen h) by (unfold type_shape in Hsh; lia).
  assert (Hpu : ch_plen h < 2 ^ 32) by (unfold MAX_PLEN in *; lia).
  assert (Hbd : bool_decide (Z.to_nat (ch_hlen h) + 4 <= length (buf d))%nat = true \/
                dg && hdr_digest d = false).
  { destruct (dg && hdr_digest d); [left | by right]. apply bool_decide_eq_true_2.
    unfold MAX_HDR in *. lia. }
  destruct (dg && hdr_digest d) eqn:Ehd.
  1: destruct Hbd as [-> | ?]; [| done]; cbn [assert mbind res_bind];
     destruct (negb (field _ _ _ =? _)); [done |].
  all: cbn [mbind res_bind].
  all: rewrite (checked_ok 32 (ch_plen h - _)) by (unfold in_u; lia); cbn [mbind res_bind].
  all: assert (Hd : (if dg && has (ch_flags h) pdu_flags.DDGST then 4 else 0) = 0 \/
                    Z.of_nat (need d) + 5 <= ch_plen h /\
                    (if dg && has (ch_flags h) pdu_flags.DDGST then 4 else 0) = 4)
         by (destruct dg, (has (ch_flags h) pdu_flags.DDGST); cbn; auto;
             right; split; [specialize (Hdd eq_refl) |]; lia).
  all: rewrite checked_ok by (unfold in_u; lia); cbn [mbind res_bind].
  all: destruct (_ && negb (_ =? _)); [done |].
  all: destruct (take_kind _ _ _) as [k | e |] eqn:Ek; cbn; [lia | done |].
  all: by eapply take_kind_no_panic in Ek.
Qed.

(** ** Decoding what was encoded *)

Context {LL : Crc32cLaws L}.

Definition CommonHeader_wf (h : CommonHeader) : Prop :=
  in_u 8 (ch_pdu_type h) /\ in_u 8 (ch_flags h) /\ in_u 8 (ch_hlen h) /\ in_u 8 (ch_pdo h) /\
  in_u 32 (ch_plen h).

Lemma CommonHeader_bytes_length h : length (CommonHeader_bytes h) = 8%nat.
Proof. unfold CommonHeader_bytes. blen. Qed.

Lemma CommonHeader_view_bytes h : CommonHeader_wf h -> CommonHeader_view (CommonHeader_bytes h) = h.
Proof.
  destruct h as [t f hl pd pl]. intros (?&?&?&?&?). cbn in *. unfold CommonHeader_view, CommonHeader_bytes.
  cbn [ch_pdu_type ch_flags ch_hlen ch_pdo ch_plen]. f_equal; field_ok.
Qed.

Lemma read_header h rest :
  CommonHeader_wf h ->
  read_from_bytes 8 CommonHeader_view (take 8 (CommonHeader_bytes h ++ rest)) = Some h.
Proof.
  intros H. rewrite take_app_length' by (by rewrite CommonHeader_bytes_length).
  unfold read_from_bytes. rewrite decide_True by apply CommonHeader_bytes_length.
  by rewrite CommonHeader_view_bytes.
Qed.

(** The header digest the sender appends. *)
Definition hdgst_bytes (hd : bool) (p : bytes) : bytes :=
  if hd then le_split 4 (crc32c p) else [].

(** Every encoder ends this way: copy the struct, append its digest. *)
Lemma emit_header {E} (b p : bytes) (h : nat) (hd : bool) :
  length p = h -> (h + (if hd then 4 else 0) <= length b)%nat ->
  exists b' n,
    (b1 ← copy_into b 0 p; if hd then put_hdgst b1 h else mret (b1, h)) = Ok (E := E) (b', n) /\
    n = (h + (if hd then 4 else 0))%nat /\ take n b' = p ++ hdgst_bytes hd p.
Proof.
  intros Hp Hb. rewrite copy_into_ok by lia. rewrite take_0. cbn [app Nat.add mbind res_bind].
  rewrite Hp. destruct hd; cbn [hdgst_bytes].
  - unfold put_hdgst. rewrite bool_decide_eq_true_2 by blen. cbn [assert mbind res_bind].
    rewrite (take_app_length' p _ h) by lia.
    rewrite copy_into_ok by blen. cbn [mbind res_bind]. eexists _, _. split; [done |].
    split; [done |]. rewrite (take_app_length' p _ h) by lia. rewrite app_assoc.
    rewrite take_app_length' by blen. done.
  - eexists _, _. split; [done |]. split; [lia |].
    rewrite (take_app_length' p _ h) by lia. by rewrite app_nil_r.
Qed.

(** What [take] computes from a header whose lengths are consistent. *)
Lemma take_parse_spec hd h body tail dg :
  let p := CommonHeader_bytes h ++ body in
  let wire := ch_hlen h + (if dg && hd then 4 else 0) in
  let dd := dg && has (ch_flags h) pdu_flags.DDGST in
  let b := p ++ hdgst_bytes (dg && hd) p ++ tail in
  CommonHeader_wf h -> type_shape (ch_pdu_type h) (ch_hlen h) dg ->
  Z.of_nat (length p) = ch_hlen h ->
  wire + (if dd then 4 else 0) <= ch_plen h -> (ch_pdo h = 0 \/ ch_pdo h = wire) ->
  take_parse hd b =
    (kind ← take_kind b h (ch_plen h - wire - (if dd then 4 else 0));
     mret {| dp_kind := kind; dp_data_len := ch_plen h - wire - (if dd then 4 else 0);
             dp_ddgst := dd |}).
Proof.
  intros p wire dd b Hh Hsh Hp Hpl Hpdo.
  assert (Hdg : negb ((ch_pdu_type h =? pdu_type.ICREQ) || (ch_pdu_type h =? pdu_type.ICRESP) ||
    (ch_pdu_type h =? pdu_type.H2C_TERM) || (ch_pdu_type h =? pdu_type.C2H_TERM)) = dg).
  { destruct Hsh as [([-> | ->] & _ & ->) | [([-> | ->] & _ & ->) |
         [(-> & _ & ->) | ([-> | [-> | [-> | ->]]] & _ & ->)]]]; reflexivity. }
  assert (Hhl : 24 <= ch_hlen h) by (unfold type_shape in Hsh; lia).
  assert (Hpu : ch_plen h < 2 ^ 32) by apply Hh.
  assert (Hrd : read_from_bytes 8 CommonHeader_view (take 8 b) = Some h).
  { unfold b, p. rewrite <- !app_assoc. by apply read_header. }
  unfold take_parse. rewrite Hrd.
  cbn [expect mbind res_bind]. rewrite Hdg. fold dd wire.
  assert (Hn : Z.to_nat (ch_hlen h) = length p) by lia.
  replace (if dg && hd then _ else Ok tt) with (Ok (E := PduError) tt).
  2: { destruct (dg && hd) eqn:E; [| done]. unfold b. cbn [hdgst_bytes].
       rewrite bool_decide_eq_true_2 by (rewrite Hn, !length_app, length_le_split; lia).
       cbn [assert mbind res_bind]. unfold field, bytes_at. rewrite Hn.
       rewrite drop_app_length, !take_app_length' by (done || apply length_le_split).
       rewrite le_combine_le_split_small by apply crc32c_u32. by rewrite Z.eqb_refl. }
  assert (Hw : 24 <= wire) by (unfold wire; destruct (dg && hd); lia). clearbody wire.
  cbn [mbind res_bind].
  rewrite checked_ok by (unfold in_u; destruct dd; lia). cbn [mbind res_bind].
  rewrite checked_ok by (unfold in_u; destruct dd; lia). cbn [mbind res_bind].
  replace (negb (ch_pdo h =? 0) && negb (ch_pdo h =? wire)) with false; [done |].
  destruct Hpdo as [-> | ->]; [done |]. by rewrite Z.eqb_refl, andb_false_r.
Qed.

(** [wire] is one complete header for decoder [d]: whatever follows it, [feed]
    consumes exactly it and [take] returns [p], leaving a ready decoder. *)
Definition decodes (d : PduDecoder) (wire : bytes) (p : DecodedPdu) : Prop :=
  forall rest, exists d' d'',
    feed (wire ++ rest) d = (d', Ok (length wire)) /\
    PduDecoder_take d' = (d'', Ok p) /\ dec_ready d''.

Lemma decodes_intro d wire p :
  dec_ready d -> (8 <= length wire <= MAX_HDR)%nat ->
  full_header_len (set_buf wire 0 d) = Ok (length wire) ->
  (forall tail, take_parse (hdr_digest d) (wire ++ tail) = Ok p) ->
  decodes d wire p.
Proof.
  intros Hr Hlen Hf Hp rest. pose proof (dec_ready_wf _ Hr) as Hwf.
  destruct Hr as (Hb & Hh & Hn & Hs). unfold MAX_HDR in *.
  rewrite feed_common_eq by done. unfold feed_common. rewrite Hh.
  rewrite Nat.min_l by (rewrite length_app; lia).
  rewrite take_app_le, drop_app_le by lia.
  assert (Hl8 : length (take 8 wire) = 8%nat) by blen.
  rewrite decide_False by (cbn; lia).
  change (8 - 0)%nat with 8%nat.
  set (d1 := push d (take 8 wire)).
  assert (Hb1 : buf d1 = take 8 wire ++ drop 8 (buf d)).
  { unfold d1, push. cbn [buf set_buf]. by rewrite Hh, take_0, Hl8. }
  assert (Hh1 : have d1 = 8%nat) by (cbn; lia).
  assert (Hd1 : full_header_len d1 = Ok (length wire)).
  { rewrite <- Hf. apply full_header_len_prefix; [done |]. cbn. rewrite Hh, take_0. cbn [app].
    by rewrite take_app_length'. }
  rewrite Hd1. cbn [fst snd]. unfold feed_rest.
  change (need (set_rest (length wire) d1)) with (length wire).
  change (have (set_rest (length wire) d1)) with (have d + length (take 8 wire))%nat.
  rewrite Hh, Hl8, length_app, length_drop.
  rewrite Nat.min_l, take_app_length' by (rewrite ?length_drop; lia).
  rewrite decide_True by (cbn; rewrite length_drop, Hh; lia).
  eexists _, _. cbn [fst snd]. split; [repeat f_equal; lia |].
  unfold PduDecoder_take, mbind, M_bind, get, lift, modify, mret, M_ret.
  cbn [is_complete dstate set_complete assert].
  assert (Hbuf : exists tail, buf (push (set_rest (length wire) d1) (drop 8 wire)) = wire ++ tail).
  { unfold push at 1. cbn [buf have set_buf set_rest]. rewrite Hh1, Hb1.
    rewrite take_app_length' by done. rewrite app_assoc, take_drop. eauto. }
  destruct Hbuf as [tail Hbuf]. cbn [buf hdr_digest set_complete]. rewrite Hbuf.
  change (hdr_digest (push _ _)) with (hdr_digest d). rewrite Hp.
  split; [done |]. split_and!; [| done..]. cbn [buf set_reset set_complete].
  rewrite push_buf_length; cbn [buf have set_rest]; rewrite ?Hh1, Hb1; unfold MAX_HDR; blen.
Qed.

(** The header length [full_header_len] computes for a valid header. *)
Lemma full_header_len_spec d h rest dg :
  let wire := ch_hlen h + (if dg && hdr_digest d then 4 else 0) in
  let t := ch_pdu_type h in
  CommonHeader_wf h -> type_shape t (ch_hlen h) dg -> buf d = CommonHeader_bytes h ++ rest ->
  (has (ch_flags h) pdu_flags.HDGST = true -> dg && hdr_digest d = true) ->
  wire <= ch_plen h <= MAX_PLEN ->
  ((t =? pdu_type.ICREQ) || (t =? pdu_type.ICRESP) = true -> ch_plen h = 128) ->
  ((t =? pdu_type.CAPSULE_RESP) || (t =? pdu_type.R2T) = true -> ch_plen h = wire) ->
  (has (ch_flags h) pdu_flags.DDGST = true -> wire + 5 <= ch_plen h) ->
  full_header_len d = Ok (Z.to_nat wire).
Proof.
  intros wire t Hh Hsh Hb Hf Hpl Hic Hex Hdd. unfold full_header_len.
  rewrite Hb, read_header by done. cbn [expect mbind res_bind]. fold t.
  assert (Ht : (if (t =? pdu_type.ICREQ) || (t =? pdu_type.ICRESP) then Ok (128, false)
     else if (t =? pdu_type.H2C_TERM) || (t =? pdu_type.C2H_TERM) then Ok (24, false)
     else if t =? pdu_type.CAPSULE_CMD then Ok (72, true)
     else if t =? pdu_type.CAPSULE_RESP then Ok (24, true)
     else if (t =? pdu_type.H2C_DATA) || (t =? pdu_type.C2H_DATA) || (t =? pdu_type.R2T)
       then Ok (24, true)
     else Err (hdr_field 0)) = Ok (E := PduError) (ch_hlen h, dg)).
  { destruct Hsh as [([-> | ->] & -> & ->) | [([-> | ->] & -> & ->) |
         [(-> & -> & ->) | ([-> | [-> | [-> | ->]]] & -> & ->)]]]; reflexivity. }
  rewrite Ht. cbn [mbind res_bind]. rewrite Z.eqb_refl. cbn [negb]. fold wire.
  replace (has (ch_flags h) pdu_flags.HDGST && _) with false
    by (destruct (has _ pdu_flags.HDGST); [by rewrite Hf | done]).
  replace ((ch_plen h <? wire) || (MAX_PLEN <? ch_plen h)) with false
    by (symmetry; apply orb_false_intro; apply Z.ltb_ge; lia).
  replace (match _ with Some e => _ | None => false end) with false.
  2: { destruct ((t =? pdu_type.ICREQ) || _); [by rewrite Hic |].
       destruct ((t =? pdu_type.CAPSULE_RESP) || _); [| done].
       by rewrite Hex, Z.eqb_refl. }
  replace (has (ch_flags h) pdu_flags.DDGST && _) with false.
  2: { destruct (has _ pdu_flags.DDGST); [| done]. symmetry. apply Z.ltb_ge.
       specialize (Hdd eq_refl). lia. }
  f_equal. unfold wire. unfold type_shape in Hsh. destruct (dg && hdr_digest d); lia.
Qed.

(** One header, from its fields to its decoding. *)
Lemma header_decodes d h body dg p :
  let wire := ch_hlen h + (if dg && hdr_digest d then 4 else 0) in
  let t := ch_pdu_type h in
  let pb := CommonHeader_bytes h ++ body in
  let dd := dg && has (ch_flags h) pdu_flags.DDGST in
  dec_ready d ->
  CommonHeader_wf h -> type_shape t (ch_hlen h) dg -> Z.of_nat (length pb) = ch_hlen h ->
  (has (ch_flags h) pdu_flags.HDGST = true -> dg && hdr_digest d = true) ->
  wire <= ch_plen h <= MAX_PLEN ->
  ((t =? pdu_type.ICREQ) || (t =? pdu_type.ICRESP) = true -> ch_plen h = 128) ->
  ((t =? pdu_type.CAPSULE_RESP) || (t =? pdu_type.R2T) = true -> ch_plen h = wire) ->
  (has (ch_flags h) pdu_flags.DDGST = true -> wire + 5 <= ch_plen h) ->
  (ch_pdo h = 0 \/ ch_pdo h = wire) ->
  dp_data_len p = ch_plen h - wire - (if dd then 4 else 0) -> dp_ddgst p = dd ->
  (forall tail, take_kind (pb ++ tail) h (dp_data_len p) = Ok (dp_kind p)) ->
  decodes d (pb ++ hdgst_bytes (dg && hdr_digest d) pb) p.
Proof.
  intros wire t pb dd Hr Hh Hsh Hp Hf Hpl Hic Hex Hdd Hpdo Hn Hd Hk.
  assert (Hlen : length (pb ++ hdgst_bytes (dg && hdr_digest d) pb) = Z.to_nat wire).
  { rewrite length_app. unfold wire, hdgst_bytes. unfold type_shape in Hsh.
    destruct (dg && hdr_digest d); rewrite ?length_le_split; cbn [length]; lia. }
  assert (Hw : 24 <= wire <= 128).
  { unfold wire. unfold type_shape in Hsh. destruct dg; cbn; [destruct (hdr_digest d) |]; lia. }
  apply decodes_intro; [done | unfold MAX_HDR; lia | |].
  - rewrite Hlen.
    by apply (full_header_len_spec (set_buf (pb ++ hdgst_bytes (dg && hdr_digest d) pb) 0 d)
                h (body ++ hdgst_bytes (dg && hdr_digest d) pb)).
  - intros tail. rewrite <- app_assoc. unfold pb.
    rewrite take_parse_spec; try done.
    2: { fold wire dd. destruct dd eqn:E; [| lia].
         assert (has (ch_flags h) pdu_flags.DDGST = true) as Hx.
         { unfold dd in E. by apply andb_prop in E as [_ ?]. }
         specialize (Hdd Hx). lia. }
    fold wire dd pb. rewrite <- Hn, Hk. cbn. destruct p; cbn in *. by subst.
Qed.

(** The arithmetic side conditions of [header_decodes], gathered: header [h] is a
    consistent one for PDU class [dg], header digests [hd], payload [n] and data
    digest [dd]. *)
Definition hdr_good (hd : bool) (h : CommonHeader) (dg dd : bool) (n : Z) : Prop :=
  let wire := ch_hlen h + (if dg && hd then 4 else 0) in
  let t := ch_pdu_type h in
  CommonHeader_wf h /\ type_shape t (ch_hlen h) dg /\
  (has (ch_flags h) pdu_flags.HDGST = true -> dg && hd = true) /\
  wire <= ch_plen h <= MAX_PLEN /\
  ((t =? pdu_type.ICREQ) || (t =? pdu_type.ICRESP) = true -> ch_plen h = 128) /\
  ((t =? pdu_type.CAPSULE_RESP) || (t =? pdu_type.R2T) = true -> ch_plen h = wire) /\
  (has (ch_flags h) pdu_flags.DDGST = true -> wire + 5 <= ch_plen h) /\
  (ch_pdo h = 0 \/ ch_pdo h = wire) /\
  n = ch_plen h - wire - (if dd then 4 else 0) /\
  dd = dg && has (ch_flags h) pdu_flags.DDGST.

Lemma good_header_decodes d h body dg dd n kind :
  let pb := CommonHeader_bytes h ++ body in
  dec_ready d -> hdr_good (hdr_digest d) h dg dd n -> Z.of_nat (length pb) = ch_hlen h ->
  (forall tail, take_kind (pb ++ tail) h n = Ok kind) ->
  decodes d (pb ++ hdgst_bytes (dg && hdr_digest d) pb)
    {| dp_kind := kind; dp_data_len := n; dp_ddgst := dd |}.
Proof.
  intros pb Hr (H1 & H2 & H3 & H4 & H5 & H6 & H7 & H8 & H9 & H10) Hlen Hk.
  apply header_decodes; cbn [dp_kind dp_data_len dp_ddgst]; subst dd; done.
Qed.

Ltac hdr_good_side :=
  unfold hdr_good, CommonHeader_wf, type_shape, in_u, MAX_PLEN in *;
  cbn [ch_pdu_type ch_flags ch_hlen ch_pdo ch_plen common andb negb] in *;
  repeat match goal with |- context [has ?f ?b] =>
    let v := eval vm_compute in (has f b) in change (has f b) with v end;
  repeat match goal with |- context [Z.eqb ?f ?b] =>
    let v := eval vm_compute in (Z.eqb f b) in change (Z.eqb f b) with v end;
  cbn [orb negb andb];
  split_and!;
  first [ done | lia | tauto | left; reflexivity | right; reflexivity | by vm_compute ].

(** A command or data PDU: [hlen] bytes of header, digests and payload as the
    encoders lay them out. *)
Lemma payload_hdr_good (hd : bool) (t base hlen : Z) (dd : bool) n pdo :
  t = pdu_type.CAPSULE_CMD /\ hlen = 72 \/
  (t = pdu_type.H2C_DATA \/ t = pdu_type.C2H_DATA) /\ hlen = 24 ->
  base = 0 \/ base = 4 \/ base = 8 \/ base = 12 ->
  0 <= n <= MAX_PLEN - 80 -> (dd = true -> 0 < n) ->
  pdo = 0 \/ pdo = hlen + (if hd then 1 else 0) * 4 ->
  hdr_good hd (common t (flag_if dd pdu_flags.DDGST (flag_if hd pdu_flags.HDGST base)) hlen
                 (wrap 8 pdo)
                 (hlen + (if hd then 1 else 0) * 4 + n + (if dd then 1 else 0) * 4)) true dd n.
Proof.
  intros Ht Hb Hn Hdd Hp.
  assert (wrap 8 pdo = pdo) as ->.
  { apply wrap_small. unfold in_u. destruct Ht as [[_ ->] | [_ ->]], hd; lia. }
  destruct Ht as [[-> ->] | [[-> | ->] ->]], Hb as [-> | [-> | [-> | ->]]], hd, dd;
    try specialize (Hdd eq_refl); destruct Hp as [-> | ->]; hdr_good_side.
Qed.

(** A PDU with no payload. *)
Lemma bare_hdr_good (hd : bool) (t : Z) :
  t = pdu_type.CAPSULE_RESP \/ t = pdu_type.R2T ->
  hdr_good hd (common t (if hd then pdu_flags.HDGST else 0) 24 0
                 (24 + (if hd then 1 else 0) * 4)) true false 0.
Proof. intros [-> | ->]; destruct hd; hdr_good_side. Qed.

Lemma control_hdr_good (hd : bool) (t hlen : Z) :
  (t = pdu_type.ICREQ \/ t = pdu_type.ICRESP) /\ hlen = 128 \/ t = pdu_type.C2H_TERM /\ hlen = 24 ->
  hdr_good hd (common t 0 hlen 0 hlen) false false 0.
Proof. intros [[[-> | ->] ->] | [-> ->]]; destruct hd; hdr_good_side. Qed.

Lemma read_exact {A} (n : nat) (view : bytes -> A) p tail :
  length p = n -> read_from_bytes n view (take n (p ++ tail)) = Some (view p).
Proof.
  intros H. rewrite take_app_length' by done. unfold read_from_bytes. by rewrite decide_True.
Qed.

Lemma bytes_at_app a c off n :
  length a = off -> length c = n -> bytes_at (a ++ c) off n = c.
Proof. intros <- <-. unfold bytes_at. by rewrite drop_app_length, firstn_all. Qed.

(** The arms of [take]'s final [match], by PDU type. *)
Lemma take_kind_cmd b h n :
  ch_pdu_type h = pdu_type.CAPSULE_CMD ->
  take_kind b h n =
    (p ← expect (read_from_bytes 72 CmdCapsule_view (take 72 b)); mret (KCapsuleCmd (cmd_sqe p))).
Proof. unfold take_kind. by intros ->. Qed.

Lemma take_kind_resp b h n :
  ch_pdu_type h = pdu_type.CAPSULE_RESP ->
  take_kind b h n =
    (p ← expect (read_from_bytes 24 RspCapsule_view (take 24 b)); mret (KCapsuleResp (rsp_cqe p))).
Proof. unfold take_kind. by intros ->. Qed.

Lemma take_kind_h2c b h n :
  ch_pdu_type h = pdu_type.H2C_DATA ->
  take_kind b h n =
    (p ← expect (read_from_bytes 24 DataPdu_view (take 24 b));
     if negb (data_length p =? n) then Err (hdr_field 12)
     else mret (KH2CData (data_cid p) (data_ttag p) (data_offset p) (data_length p)
                         (has (ch_flags h) pdu_flags.DATA_LAST))).
Proof. unfold take_kind. by intros ->. Qed.

Lemma take_kind_c2h b h n :
  ch_pdu_type h = pdu_type.C2H_DATA ->
  take_kind b h n =
    (p ← expect (read_from_bytes 24 DataPdu_view (take 24 b));
     mret (KC2HData (data_cid p) (data_offset p) (data_length p)
                    (has (ch_flags h) pdu_flags.DATA_LAST)
                    (has (ch_flags h) pdu_flags.DATA_SUCCESS))).
Proof. unfold take_kind. by intros ->. Qed.

Lemma take_kind_r2t b h n :
  ch_pdu_type h = pdu_type.R2T ->
  take_kind b h n =
    (p ← expect (read_from_bytes 24 DataPdu_view (take 24 b));
     mret (KR2T (data_cid p) (data_ttag p) (data_offset p) (data_length p))).
Proof. unfold take_kind. by intros ->. Qed.

Lemma take_kind_term b h n :
  ch_pdu_type h = pdu_type.C2H_TERM ->
  take_kind b h n =
    (p ← expect (read_from_bytes 24 TermPdu_view (take 24 b));
     if 152 <? ch_plen h then Err (hdr_field 4) else mret (KH2CTerm (term_fes p) (term_fei p))).
Proof. unfold take_kind. by intros ->. Qed.

Lemma take_kind_icreq b h n :
  ch_pdu_type h = pdu_type.ICREQ ->
  take_kind b h n =
    (p ← expect (read_from_bytes 128 IcReq_view (take 128 b)); mret (KIcReq p)).
Proof. unfold take_kind. by intros ->. Qed.

Lemma take_kind_icresp b h n :
  ch_pdu_type h = pdu_type.ICRESP ->
  take_kind b h n =
    (p ← expect (read_from_bytes 128 IcResp_view (take 128 b)); mret (KIcResp p)).
Proof. unfold take_kind. by intros ->. Qed.

(** Encoding then decoding a PDU whose struct is header [h] followed by [body]. *)
Lemma emit_decodes {E} d b h body dg dd n (hlen : nat) kind :
  dec_ready d -> hdr_good (hdr_digest d) h dg dd n ->
  (hlen + (if dg && hdr_digest d then 4 else 0) <= length b)%nat ->
  length (CommonHeader_bytes h ++ body) = hlen ->
  Z.of_nat hlen = ch_hlen h ->
  (forall tail, take_kind ((CommonHeader_bytes h ++ body) ++ tail) h n = Ok kind) ->
  exists b' k,
    (b1 ← copy_into b 0 (CommonHeader_bytes h ++ body);
     if dg && hdr_digest d then put_hdgst b1 hlen else mret (b1, hlen)) = Ok (E := E) (b', k) /\
    decodes d (take k b') {| dp_kind := kind; dp_data_len := n; dp_ddgst := dd |}.
Proof.
  intros Hr Hg Hb Hl Hh Hk.
  destruct (emit_header (E := E) b _ hlen (dg && hdr_digest d) Hl Hb) as (b' & k & He & _ & Ht).
  exists b', k. split; [exact He |]. rewrite Ht.
  by apply (good_header_decodes d h body); [| | rewrite Hl |].
Qed.

(** Room for the struct and its digest. *)
Ltac hdr_room := cbn [andb]; repeat case_match; lia.

(**  A command capsule encoded by [encode_capsule_cmd] (header digest on or
    off as the decoder expects, data digest on or off, any payload length that
    fits PLEN) decodes to the same SQE, payload length and digest flag. *)
Theorem capsule_cmd_roundtrip {E} d b sqe data_len ddgst :
  dec_ready d -> Sqe_wf sqe -> 0 <= data_len <= MAX_PLEN - 80 -> (76 <= length b)%nat ->
  exists b' n,
    encode_capsule_cmd (E := E) b sqe (hdr_digest d) data_len ddgst = Ok (b', n) /\
    decodes d (take n b') {| dp_kind := KCapsuleCmd sqe; dp_data_len := data_len;
                             dp_ddgst := ddgst && (0 <? data_len) |}.
Proof.
  intros Hr Hs Hl Hb. unfold encode_capsule_cmd.
  rewrite checked_ok
    by (unfold in_u, MAX_PLEN in *; destruct (hdr_digest d), (ddgst && (0 <? data_len)); lia).
  cbn [mbind res_bind]. set (h := common _ _ _ _ _).
  apply (emit_decodes d b h (Sqe_bytes sqe) true); [done | | hdr_room | | done |].
  - apply payload_hdr_good; [tauto.. | lia | |].
    + intros [_ ?%Z.ltb_lt]%andb_prop. done.
    + destruct (0 <? data_len); tauto.
  - by rewrite length_app, CommonHeader_bytes_length, Sqe_bytes_length.
  - intros tail. rewrite take_kind_cmd by done.
    rewrite (read_exact 72)
      by (by rewrite length_app, CommonHeader_bytes_length, Sqe_bytes_length).
    cbn [expect mbind res_bind]. unfold CmdCapsule_view. cbn [cmd_sqe].
    rewrite (bytes_at_app _ _ 8 64 (CommonHeader_bytes_length h) (Sqe_bytes_length sqe Hs)).
    rewrite <- (app_nil_r (Sqe_bytes sqe)), (Sqe_view_bytes sqe [] Hs). done.
Qed.

Lemma capsule_resp_roundtrip {E} d b cqe :
  dec_ready d -> Cqe_wf cqe -> (28 <= length b)%nat ->
  exists b' n,
    encode_capsule_resp (E := E) b cqe (hdr_digest d) = Ok (b', n) /\
    decodes d (take n b') {| dp_kind := KCapsuleResp cqe; dp_data_len := 0; dp_ddgst := false |}.
Proof.
  intros Hr Hs Hb. unfold encode_capsule_resp. set (h := common _ _ _ _ _).
  apply (emit_decodes d b h (Cqe_bytes cqe) true); [done | | hdr_room | | done |].
  - apply bare_hdr_good. tauto.
  - by rewrite length_app, CommonHeader_bytes_length, Cqe_bytes_length.
  - intros tail. rewrite take_kind_resp by done.
    rewrite (read_exact 24) by (by rewrite length_app, CommonHeader_bytes_length, Cqe_bytes_length).
    cbn [expect mbind res_bind]. unfold RspCapsule_view. cbn [rsp_cqe].
    rewrite (bytes_at_app _ _ 8 16 (CommonHeader_bytes_length h) (Cqe_bytes_length cqe)).
    rewrite <- (app_nil_r (Cqe_bytes cqe)), (Cqe_view_bytes cqe [] Hs). done.
Qed.

(** The fields of a data PDU, read back. *)
Definition data_body (cid ttag off len : Z) : bytes :=
  le_split 2 cid ++ le_split 2 ttag ++ le_split 4 off ++ le_split 4 len ++ zeroes 4.

Lemma data_bytes_length h cid ttag off len :
  length (CommonHeader_bytes h ++ data_body cid ttag off len) = 24%nat.
Proof. unfold data_body. rewrite length_app, CommonHeader_bytes_length. blen. Qed.

Lemma data_view_fields h cid ttag off len :
  in_u 16 cid -> in_u 16 ttag -> in_u 32 off -> in_u 32 len ->
  let p := DataPdu_view (CommonHeader_bytes h ++ data_body cid ttag off len) in
  data_cid p = cid /\ data_ttag p = ttag /\ data_offset p = off /\ data_length p = len.
Proof.
  intros Hc Ht Ho Hl p. subst p. unfold DataPdu_view, data_body.
  cbn [data_cid data_ttag data_offset data_length]. unfold CommonHeader_bytes.
  split_and!; field_ok.
Qed.

Lemma read_data h cid ttag off len tail :
  read_from_bytes 24 DataPdu_view
    (take 24 ((CommonHeader_bytes h ++ data_body cid ttag off len) ++ tail)) =
  Some (DataPdu_view (CommonHeader_bytes h ++ data_body cid ttag off len)).
Proof. apply read_exact, data_bytes_length. Qed.

(** The data PDUs share one encoder. *)
Lemma data_pdu_decodes {E} d b t base cid ttag off len ddgst kind :
  dec_ready d -> t = pdu_type.H2C_DATA \/ t = pdu_type.C2H_DATA ->
  base = 0 \/ base = 4 \/ base = 8 \/ base = 12 ->
  0 <= len <= MAX_PLEN - 80 -> (ddgst = true -> 0 < len) -> (28 <= length b)%nat ->
  (forall h tail,
     ch_pdu_type h = t ->
     ch_flags h = flag_if ddgst pdu_flags.DDGST (flag_if (hdr_digest d) pdu_flags.HDGST base) ->
     take_kind ((CommonHeader_bytes h ++ data_body cid ttag off len) ++ tail) h len = Ok kind) ->
  exists b' n,
    encode_data_pdu (E := E) b t base cid ttag off len (hdr_digest d) ddgst = Ok (b', n) /\
    decodes d (take n b') {| dp_kind := kind; dp_data_len := len; dp_ddgst := ddgst |}.
Proof.
  intros Hr Ht Hbase Hl Hdd Hb Hk. unfold encode_data_pdu.
  rewrite checked_ok by (unfold in_u, MAX_PLEN in *; destruct (hdr_digest d), ddgst; lia).
  cbn [mbind res_bind]. set (h := common _ _ _ _ _).
  apply (emit_decodes d b h (data_body cid ttag off len) true); [done | | hdr_room | | done |].
  - apply payload_hdr_good; [tauto | done | done | done | tauto].
  - apply data_bytes_length.
  - intros tail. by apply Hk.
Qed.

(** Flag bits survive the digest bits added on top. *)
Lemma has_flags hd dd (last success : bool) :
  let f := flag_if dd pdu_flags.DDGST (flag_if hd pdu_flags.HDGST
             (flag_if success pdu_flags.DATA_SUCCESS (flag_if last pdu_flags.DATA_LAST 0))) in
  has f pdu_flags.DATA_LAST = last /\ has f pdu_flags.DATA_SUCCESS = success.
Proof. destruct hd, dd, last, success; done. Qed.

(**  A host's [H2CData] header round-trips: CCCID, TTAG, offset, length and
    LAST_PDU come back exactly, for every payload that fits PLEN. *)
Theorem h2c_data_roundtrip {E} d b cid ttag off len last ddgst :
  dec_ready d -> in_u 16 cid -> in_u 16 ttag -> in_u 32 off ->
  0 <= len <= MAX_PLEN - 80 -> (ddgst = true -> 0 < len) -> (28 <= length b)%nat ->
  exists b' n,
    encode_h2c_data (E := E) b cid ttag off len last (hdr_digest d) ddgst = Ok (b', n) /\
    decodes d (take n b') {| dp_kind := KH2CData cid ttag off len last;
                             dp_data_len := len; dp_ddgst := ddgst |}.
Proof.
  intros Hr Hc Ht Ho Hl Hdd Hb. unfold encode_h2c_data.
  apply data_pdu_decodes; try done; [tauto | destruct last; cbn; tauto |].
  intros h tail Hh Hf. rewrite take_kind_h2c, read_data by done. cbn [expect mbind res_bind].
  assert (in_u 32 len) as Hl' by (unfold in_u, MAX_PLEN in *; lia).
  destruct (data_view_fields h cid ttag off len) as (-> & -> & -> & ->); [done.. |].
  rewrite Z.eqb_refl. cbn [negb]. rewrite Hf.
  destruct (has_flags (hdr_digest d) ddgst last false) as [HL _]. cbn [flag_if] in HL.
  by replace (if last then _ else _) with (flag_if last pdu_flags.DATA_LAST 0); [rewrite HL |].
Qed.

(**  The controller's [C2HData] header round-trips through the host-side
    decoder with its LAST_PDU and SUCCESS bits. *)
Theorem c2h_data_roundtrip {E} d b cid off len last success ddgst :
  dec_ready d -> in_u 16 cid -> in_u 32 off ->
  0 <= len <= MAX_PLEN - 80 -> (ddgst = true -> 0 < len) -> (28 <= length b)%nat ->
  exists b' n,
    encode_c2h_data (E := E) b cid off len last success (hdr_digest d) ddgst = Ok (b', n) /\
    decodes d (take n b') {| dp_kind := KC2HData cid off len last success;
                             dp_data_len := len; dp_ddgst := ddgst |}.
Proof.
  intros Hr Hc Ho Hl Hdd Hb. unfold encode_c2h_data.
  apply data_pdu_decodes; try done; [tauto | destruct last, success; cbn; tauto |].
  intros h tail Hh Hf. rewrite take_kind_c2h, read_data by done. cbn [expect mbind res_bind].
  assert (in_u 32 len) as Hl' by (unfold in_u, MAX_PLEN in *; lia).
  destruct (data_view_fields h cid 0 off len) as (-> & _ & -> & ->); [done.. |].
  rewrite Hf. by destruct (has_flags (hdr_digest d) ddgst last success) as [-> ->].
Qed.

Lemma r2t_roundtrip {E} d b cid ttag off len :
  dec_ready d -> in_u 16 cid -> in_u 16 ttag -> in_u 32 off -> in_u 32 len ->
  (28 <= length b)%nat ->
  exists b' n,
    encode_r2t (E := E) b cid ttag off len (hdr_digest d) = Ok (b', n) /\
    decodes d (take n b') {| dp_kind := KR2T cid ttag off len; dp_data_len := 0;
                             dp_ddgst := false |}.
Proof.
  intros Hr Hc Ht Ho Hl Hb. unfold encode_r2t. set (h := common _ _ _ _ _).
  apply (emit_decodes d b h (data_body cid ttag off len) true); [done | | hdr_room | | done |].
  - apply bare_hdr_good. tauto.
  - apply data_bytes_length.
  - intros tail. rewrite take_kind_r2t, read_data by done. cbn [expect mbind res_bind].
    by destruct (data_view_fields h cid ttag off len) as (-> & -> & -> & ->).
Qed.

Lemma c2h_term_roundtrip {E} d b err :
  dec_ready d -> in_u 16 (err_fes err) -> in_u 32 (err_fei err) -> (24 <= length b)%nat ->
  exists b' n,
    encode_c2h_term (E := E) b err = Ok (b', n) /\
    decodes d (take n b') {| dp_kind := KH2CTerm (err_fes err) (err_fei err); dp_data_len := 0;
                             dp_ddgst := false |}.
Proof.
  intros Hr Hf Hi Hb. unfold encode_c2h_term. set (h := common _ _ _ _ _).
  apply (emit_decodes d b h
    (le_split 2 (err_fes err) ++ le_split 4 (err_fei err) ++ zeroes 10) false);
    [done | | hdr_room | | done |].
  - apply control_hdr_good. tauto.
  - rewrite length_app, CommonHeader_bytes_length. blen.
  - intros tail. rewrite take_kind_term by done.
    rewrite (read_exact 24) by (rewrite length_app, CommonHeader_bytes_length; blen).
    cbn [expect mbind res_bind]. unfold TermPdu_view. cbn [term_fes term_fei].
    change (152 <? ch_plen h) with false. unfold CommonHeader_bytes.
    cbn [mret res_ret]. unfold mret, res_ret. do 2 f_equal; field_ok.
Qed.

Lemma icreq_roundtrip {E} d b hdgst ddgst maxr2t :
  dec_ready d -> in_u 32 maxr2t -> (128 <= length b)%nat ->
  exists b' n p,
    encode_icreq (E := E) b hdgst ddgst maxr2t = Ok (b', n) /\
    decodes d (take n b') {| dp_kind := KIcReq p; dp_data_len := 0; dp_ddgst := false |} /\
    icreq_pfv p = PFV_1_0 /\ icreq_hpda p = 0 /\ icreq_maxr2t p = maxr2t /\
    icreq_digest p = digest_bits hdgst ddgst.
Proof.
  intros Hr Hm Hb. unfold encode_icreq. set (h := common _ _ _ _ _).
  set (body := le_split 2 PFV_1_0 ++ le_split 1 0 ++ le_split 1 (digest_bits hdgst ddgst) ++
               le_split 4 maxr2t ++ zeroes 112).
  assert (Hl : length (CommonHeader_bytes h ++ body) = 128%nat).
  { rewrite length_app, CommonHeader_bytes_length. unfold body. blen. }
  destruct (emit_decodes (E := E) d b h body false false 0 128
              (KIcReq (IcReq_view (CommonHeader_bytes h ++ body)))) as (b' & n & He & Hd);
    [done | apply control_hdr_good; tauto | hdr_room | exact Hl | done | |].
  - intros tail. rewrite take_kind_icreq by done. by rewrite (read_exact 128) by exact Hl.
  - exists b', n, (IcReq_view (CommonHeader_bytes h ++ body)).
    split; [exact He |]. split; [exact Hd |]. unfold IcReq_view, body, CommonHeader_bytes.
    cbn [icreq_pfv icreq_hpda icreq_maxr2t icreq_digest]. assert (in_u 16 PFV_1_0) by done.
    assert (in_u 8 (digest_bits hdgst ddgst)) by (destruct hdgst, ddgst; done).
    assert (in_u 8 0) by done. split_and!; field_ok.
Qed.

Lemma icresp_roundtrip {E} d b hdgst ddgst maxdata :
  dec_ready d -> in_u 32 maxdata -> (128 <= length b)%nat ->
  exists b' n p,
    encode_icresp (E := E) b hdgst ddgst maxdata = Ok (b', n) /\
    decodes d (take n b') {| dp_kind := KIcResp p; dp_data_len := 0; dp_ddgst := false |} /\
    icresp_pfv p = PFV_1_0 /\ icresp_cpda p = 0 /\ icresp_maxdata p = maxdata /\
    icresp_digest p = digest_bits hdgst ddgst.
Proof.
  intros Hr Hm Hb. unfold encode_icresp. set (h := common _ _ _ _ _).
  set (body := le_split 2 PFV_1_0 ++ le_split 1 0 ++ le_split 1 (digest_bits hdgst ddgst) ++
               le_split 4 maxdata ++ zeroes 112).
  assert (Hl : length (CommonHeader_bytes h ++ body) = 128%nat).
  { rewrite length_app, CommonHeader_bytes_length. unfold body. blen. }
  destruct (emit_decodes (E := E) d b h body false false 0 128
              (KIcResp (IcResp_view (CommonHeader_bytes h ++ body)))) as (b' & n & He & Hd);
    [done | apply control_hdr_good; tauto | hdr_room | exact Hl | done | |].
  - intros tail. rewrite take_kind_icresp by done. by rewrite (read_exact 128) by exact Hl.
  - exists b', n, (IcResp_view (CommonHeader_bytes h ++ body)).
    split; [exact He |]. split; [exact Hd |]. unfold IcResp_view, body, CommonHeader_bytes.
    cbn [icresp_pfv icresp_cpda icresp_maxdata icresp_digest]. assert (in_u 16 PFV_1_0) by done.
    assert (in_u 8 (digest_bits hdgst ddgst)) by (destruct hdgst, ddgst; done).
    assert (in_u 8 0) by done. split_and!; field_ok.
Qed.

End PduProofs.

(** ** Concrete instances: the CRC is Castagnoli's *)

(** A 512-byte write capsule with both digests; its first 20 bytes arrive alone. *)
Definition sample_sqe : Sqe := Eval vm_compute in
  Sqe_view (map byte.of_Z [1; 0; 7; 0; 1; 0; 0; 0] ++ zeroes 32 ++
            map byte.of_Z [8; 0; 0; 0; 0; 0; 0; 0; 1; 0; 0; 0; 0; 0; 0; 0] ++ zeroes 8).

Definition sample_wire : bytes := Eval vm_compute in
  match encode_capsule_cmd (L := Castagnoli.lib) (E := unit) (zeroes 128) sample_sqe true 512 true with
  | Ok (b, n) => take n b
  | _ => []
  end.

Definition sample_mid : PduDecoder := (feed (take 20 sample_wire) (PduDecoder_new true)).1.
Definition sample_done : PduDecoder := (feed sample_wire (PduDecoder_new true)).1.

Lemma new_wf hd : dec_wf (PduDecoder_new hd).
Proof. by apply dec_ready_wf, new_ready. Qed.

Lemma feed_fragmentation_witness :
  feed (take 20 sample_wire ++ drop 20 sample_wire) (PduDecoder_new true) =
    match feed (take 20 sample_wire) (PduDecoder_new true) with
    | (d1, Ok n) =>
        if is_complete d1 then (d1, Ok n)
        else match feed (drop 20 sample_wire) d1 with
             | (d2, Ok m) => (d2, Ok (n + m)%nat)
             | other => other
             end
    | other => other
    end.
Proof. apply feed_fragmentation, new_wf. Defined.

Lemma feed_total_witness :
  match feed (drop 20 sample_wire) sample_mid with
  | (d', Ok n) => dec_wf d' /\ (n <= length (drop 20 sample_wire))%nat /\
                  (dstate d' <> Complete -> n = length (drop 20 sample_wire))
  | (d', Err e) => dec_wf d' /\ err_fes e = fes.INVALID_PDU_HDR
  | (_, Panic) => False
  end.
Proof. apply feed_total. unfold dec_wf. vm_compute. repeat split; lia. Defined.

Lemma take_total_witness :
  dstate sample_done = Complete /\
  match PduDecoder_take (L := Castagnoli.lib) sample_done with
  | (d', Ok p) =>
      dec_ready d' /\ 0 <= dp_data_len p /\
      ch_plen (dec_hdr sample_done) =
        Z.of_nat (need sample_done) + dp_data_len p + (if dp_ddgst p then 4 else 0)
  | (d', Err _) => d' = sample_done
  | (_, Panic) => False
  end.
Proof.
  split; [reflexivity |]. apply take_total; [| reflexivity].
  unfold dec_wf. vm_compute. repeat split; lia.
Defined.

Lemma capsule_cmd_roundtrip_witness :
  exists b' n,
    encode_capsule_cmd (L := Castagnoli.lib) (E := unit) (zeroes 128) sample_sqe true 512 true
      = Ok (b', n) /\
    decodes (L := Castagnoli.lib) (PduDecoder_new true) (take n b')
      {| dp_kind := KCapsuleCmd sample_sqe; dp_data_len := 512; dp_ddgst := true |}.
Proof.
  apply (capsule_cmd_roundtrip (LL := Castagnoli.laws) (PduDecoder_new true) (zeroes 128) sample_sqe 512 true);
    [apply new_ready | | unfold MAX_PLEN; lia | vm_compute; lia].
  unfold Sqe_wf, SglDescriptor_wf, in_u. vm_compute. repeat split; congruence.
Defined.

Lemma h2c_data_roundtrip_witness :
  exists b' n,
    encode_h2c_data (L := Castagnoli.lib) (E := unit) (zeroes 128) 5 6 4096 8192 true false true
      = Ok (b', n) /\
    decodes (L := Castagnoli.lib) (PduDecoder_new false) (take n b')
      {| dp_kind := KH2CData 5 6 4096 8192 true; dp_data_len := 8192; dp_ddgst := true |}.
Proof.
  apply (h2c_data_roundtrip (LL := Castagnoli.laws) (PduDecoder_new false) (zeroes 128) 5 6 4096 8192 true true);
    try (unfold in_u, MAX_PLEN; lia); [apply new_ready | vm_compute; lia].
Defined.

Lemma c2h_data_roundtrip_witness :
  exists b' n,
    encode_c2h_data (L := Castagnoli.lib) (E := unit) (zeroes 128) 5 0 512 true true true false
      = Ok (b', n) /\
    decodes (L := Castagnoli.lib) (PduDecoder_new true) (take n b')
      {| dp_kind := KC2HData 5 0 512 true true; dp_data_len := 512; dp_ddgst := false |}.
Proof.
  apply (c2h_data_roundtrip (LL := Castagnoli.laws) (PduDecoder_new true) (zeroes 128) 5 0 512 true true false);
    try (unfold in_u, MAX_PLEN; lia); [apply new_ready | vm_compute; lia].
Defined.
