(* ===== verification/Pool.v ===== *)
(** * [ioutgt-core/src/pool.rs], [buf.rs]: command data buffers and the page pool

    [BufPool] is the per-queue arena with its list of free page runs;
    [SlotData] is a lease: an array of [MAX_SEGS] segments of which the first
    [nsegs] are in use.  Memory is a function from addresses to bytes, so that
    [write_at] and [for_each_seg] say what bytes they touch.  The pool is used
    from one thread; a waker is an identifier, and [free_segs] returns the
    wakers it wakes.  Where the source repeats a few lines (carving pages off a
    run, merging a run with its right neighbour) the model has one helper. *)

From S2P Require Import Prelude.

Definition PAGE : Z := 4096.
Definition MAX_SEGS : nat := 32.
Definition BUF_ALIGN : Z := 4096.

(** No [Err] is possible in this file: operations return or panic. *)
Abbreviation never := Empty_set.

(** [usize::div_ceil] and [u32::try_from]. *)
Definition div_ceil (a b : Z) : Z := (a + b - 1) / b.
Definition u32_try_from (z : Z) : option Z := if decide (in_u 32 z) then Some z else None.

(** ** Segments and leases *)

Record Seg := { ptr : Z; seg_len : Z }.
Definition NULL_SEG : Seg := {| ptr := 0; seg_len := 0 |}.

(** The backing of a lease; the [Rc<BufPool>] of [OPool] is the queue's pool. *)
Inductive Owner :=
| OEmpty
| OOwned (buf_ptr buf_len : Z)
| OPool
| ORing (bid : Z).

Record SlotData := {
  sd_segs : list Seg;
  nsegs : Z;
  sd_len : Z;
  owner : Owner;
}.

Definition null_segs : list Seg := replicate MAX_SEGS NULL_SEG.

Definition SlotData_empty : SlotData :=
  {| sd_segs := null_segs; nsegs := 0; sd_len := 0; owner := OEmpty |}.

(** [AlignedBuf::zeroed]: the size allocated for a request of [len] bytes. *)
Definition AlignedBuf_size (len : Z) : Z := Z.max (div_ceil len BUF_ALIGN * BUF_ALIGN) BUF_ALIGN.

(** [SlotData::owned]; [addr] is the address the allocator returned. *)
Definition SlotData_owned (addr len : Z) : SlotData :=
  let n := AlignedBuf_size len in
  {| sd_segs := <[0%nat := {| ptr := addr; seg_len := n |}]> null_segs;
     nsegs := 1; sd_len := n; owner := OOwned addr n |}.

Definition SlotData_ring (bid addr len : Z) : SlotData :=
  {| sd_segs := <[0%nat := {| ptr := addr; seg_len := len |}]> null_segs;
     nsegs := 1; sd_len := len; owner := ORing bid |}.

Definition is_contiguous (d : SlotData) : bool := nsegs d =? 1.
Definition is_pool (d : SlotData) : bool := match owner d with OPool => true | _ => false end.

(** [&self.segs[..self.nsegs as usize]]. *)
Definition segs (d : SlotData) : list Seg := take (Z.to_nat (nsegs d)) (sd_segs d).

(** ** Memory *)

Abbreviation mem := (Z -> Byte.byte).

Definition mem_read (m : mem) (a n : Z) : bytes := map (fun i => m (a + i)) (seqZ 0 n).

Definition mem_write (m : mem) (a : Z) (bs : bytes) : mem := fun x =>
  if decide (a <= x < a + Z.of_nat (length bs))
  then nth (Z.to_nat (x - a)) bs Byte.x00 else m x.

(** The [for] loop of [write_at]: memory and the part of [src] still unwritten. *)
Fixpoint write_loop (m : mem) (l : list Seg) (off : Z) (src : bytes) : mem * bytes :=
  match l with
  | [] => (m, src)
  | seg :: l =>
      if decide (src = []) then (m, src)
      else if seg_len seg <=? off then write_loop m l (off - seg_len seg) src
      else
        let n := Z.to_nat (Z.min (seg_len seg - off) (Z.of_nat (length src))) in
        write_loop (mem_write m (ptr seg + off) (take n src)) l 0 (drop n src)
  end.

Definition write_at {E} (d : SlotData) (off : Z) (src : bytes) (m : mem) : res E mem :=
  let '(m, src) := write_loop m (segs d) off src in
  _ ← assert (bool_decide (src = []));
  mret m.

(** The [for] loop of [for_each_seg]: the chunks passed to [f], and the length
    not yet visited. *)
Fixpoint each_loop (m : mem) (l : list Seg) (off len : Z) : list bytes * Z :=
  match l with
  | [] => ([], len)
  | seg :: l =>
      if len =? 0 then ([], len)
      else if seg_len seg <=? off then each_loop m l (off - seg_len seg) len
      else
        let n := Z.min (seg_len seg - off) len in
        let '(chunks, rest) := each_loop m l 0 (len - n) in
        (mem_read m (ptr seg + off) n :: chunks, rest)
  end.

Definition for_each_seg {E} (d : SlotData) (off len : Z) (m : mem) : res E (list bytes) :=
  let '(chunks, len) := each_loop m (segs d) off len in
  _ ← assert (len =? 0);
  mret chunks.

Definition as_slice {E} (d : SlotData) (m : mem) : res E bytes :=
  _ ← assert (is_contiguous d);
  s ← expect (sd_segs d !! 0%nat);
  mret (mem_read m (ptr s) (sd_len d)).

(** ** The pool *)

Record Run := { r_start : Z; r_len : Z }.

Record BufPool := {
  base : Z;
  npages : Z;
  free : list Run;
  pool_free_pages : Z;
  waiters : list nat;
  pool_buf_index : option Z;
  send_arena : option (Z * Z);
}.

Definition set_free (l : list Run) (p : BufPool) : BufPool :=
  {| base := base p; npages := npages p; free := l; pool_free_pages := pool_free_pages p;
     waiters := waiters p; pool_buf_index := pool_buf_index p; send_arena := send_arena p |}.
Definition set_free_pages (n : Z) (p : BufPool) : BufPool :=
  {| base := base p; npages := npages p; free := free p; pool_free_pages := n;
     waiters := waiters p; pool_buf_index := pool_buf_index p; send_arena := send_arena p |}.
Definition set_waiters (w : list nat) (p : BufPool) : BufPool :=
  {| base := base p; npages := npages p; free := free p; pool_free_pages := pool_free_pages p;
     waiters := w; pool_buf_index := pool_buf_index p; send_arena := send_arena p |}.
Definition set_buf_index_opt (i : option Z) (p : BufPool) : BufPool :=
  {| base := base p; npages := npages p; free := free p; pool_free_pages := pool_free_pages p;
     waiters := waiters p; pool_buf_index := i; send_arena := send_arena p |}.
Definition set_send_arena (r : option (Z * Z)) (p : BufPool) : BufPool :=
  {| base := base p; npages := npages p; free := free p; pool_free_pages := pool_free_pages p;
     waiters := waiters p; pool_buf_index := pool_buf_index p; send_arena := r |}.

(** Merge run [i] with its right neighbour when they touch. *)
Definition merge_next {E} (l : list Run) (i : nat) : res E (list Run) :=
  a ← expect (l !! i);
  b ← expect (l !! S i);
  e ← checked 32 (r_start a + r_len a);
  if e =? r_start b then
    n ← checked 32 (r_len a + r_len b);
    mret (take i l ++ {| r_start := r_start a; r_len := n |} :: drop (S (S i)) l)
  else mret l.

(** [free.partition_point(p)] on a partitioned vector. *)
Fixpoint partition_point (p : Run -> bool) (l : list Run) : nat :=
  match l with
  | [] => 0
  | r :: l => if p r then S (partition_point p l) else 0
  end.

Definition insert_run {E} (l : list Run) (run : Run) : res E (list Run) :=
  let pos := partition_point (fun r => r_start r <? r_start run) l in
  let l := take pos l ++ run :: drop pos l in
  l ← (if decide (pos + 1 < length l)%nat then merge_next l pos else mret l);
  if decide (0 < pos)%nat then merge_next l (pos - 1) else mret l.

Definition pages_for (len : Z) : Z := Z.max (div_ceil len PAGE) 1.

(** [BufPool::new]; [addr] is the address of the slab. *)
Definition BufPool_new {E} (addr len : Z) : res E BufPool :=
  n ← expect (u32_try_from (pages_for len));
  mret {| base := addr; npages := n; free := [{| r_start := 0; r_len := n |}];
          pool_free_pages := n; waiters := []; pool_buf_index := None; send_arena := None |}.

Definition arena (p : BufPool) : Z * Z := (base p, npages p * PAGE).
Definition set_buf_index (i : Z) (p : BufPool) : BufPool := set_buf_index_opt (Some i) p.
Definition take_buf_index (p : BufPool) : BufPool * option Z :=
  (set_buf_index_opt None p, pool_buf_index p).
Definition page_ptr (p : BufPool) (page : Z) : Z := base p + page * PAGE.

(** Take [n] pages off the front of run [i], dropping the run when it empties. *)
Definition carve {E} (l : list Run) (i : nat) (n : Z) : res E (Z * list Run) :=
  r ← expect (l !! i);
  start ← checked 32 (r_start r + n);
  len ← checked 32 (r_len r - n);
  mret (r_start r,
        if len =? 0 then delete i l else <[i := {| r_start := start; r_len := len |}]> l).

(** [free.iter().position(|r| r.len >= pages)]. *)
Definition fits_at (l : list Run) (pages : Z) : option nat :=
  fst <$> list_find (fun r => pages <= r_len r) l.

Definition reserve_arena (len : Z) : M BufPool never (option (Z * Z)) :=
  p ← get;
  match pool_buf_index p, u32_try_from (pages_for len) with
  | Some _, Some pages =>
      match fits_at (free p) pages with
      | None => mret None
      | Some i =>
          '(start, l) ← lift (carve (free p) i pages);
          _ ← modify (set_free l);
          n ← lift (checked 32 (pool_free_pages p - pages));
          _ ← modify (set_free_pages n);
          let region := (page_ptr p start, pages * PAGE) in
          _ ← modify (set_send_arena (Some region));
          mret (Some region)
      end
  | _, _ => mret None
  end.

Definition make_lease (sg : list Seg) (n pages : Z) : M BufPool never SlotData :=
  p ← get;
  left ← lift (checked 32 (pool_free_pages p - pages));
  _ ← modify (set_free_pages left);
  mret {| sd_segs := sg; nsegs := n; sd_len := pages * PAGE; owner := OPool |}.

(** The scatter path's dry run: pages still missing after the runs visited,
    [None] when more than [MAX_SEGS] runs would be needed. *)
Fixpoint scatter_scan (l : list Run) (need : Z) (count : nat) : option Z :=
  match l with
  | [] => Some need
  | r :: l =>
      if need =? 0 then Some need
      else if decide (MAX_SEGS < count + 1)%nat then None
      else scatter_scan l (Z.max (need - r_len r) 0) (count + 1)
  end.

(** The scatter path's carving loop.  Every iteration but the last removes a
    run, so [S (length l)] iterations are enough ([scatter_loop_ok]). *)
Fixpoint scatter_loop {E} (fuel : nat) (p : BufPool) (l : list Run) (sg : list Seg)
    (n : nat) (need : Z) : res E (list Run * list Seg * nat) :=
  match fuel with
  | O => Panic
  | S fuel =>
      if need <=? 0 then mret (l, sg, n) else
      r ← expect (l !! 0%nat);
      let take := Z.min need (r_len r) in
      _ ← assert (bool_decide (n < length sg)%nat);
      let sg := <[n := {| ptr := page_ptr p (r_start r); seg_len := take * PAGE |}]> sg in
      '(_, l) ← carve l 0 take;
      need ← checked 32 (need - take);
      scatter_loop fuel p l sg (n + 1) need
  end.

Definition alloc (len : Z) : M BufPool never (option SlotData) :=
  p ← get;
  match u32_try_from (pages_for len) with
  | None => mret None
  | Some pages =>
      if pool_free_pages p <? pages then mret None else
      match fits_at (free p) pages with
      | Some i =>
          '(start, l) ← lift (carve (free p) i pages);
          _ ← modify (set_free l);
          let sg := <[0%nat := {| ptr := page_ptr p start; seg_len := pages * PAGE |}]> null_segs in
          d ← make_lease sg 1 pages;
          mret (Some d)
      | None =>
          match scatter_scan (free p) pages 0 with
          | None => mret None
          | Some need =>
              if 0 <? need then mret None else
              '(l, sg, n) ← lift (scatter_loop (S (length (free p))) p (free p) null_segs 0 pages);
              _ ← modify (set_free l);
              d ← make_lease sg (wrap 8 (Z.of_nat n)) pages;
              mret (Some d)
          end
      end
  end.

(** One poll of [alloc_await] by the task whose waker is [w]. *)
Definition alloc_await_poll (w : nat) (len : Z) : M BufPool never (option SlotData) :=
  r ← alloc len;
  match r with
  | Some d => mret (Some d)
  | None =>
      p ← get;
      _ ← modify (set_waiters (waiters p ++ [w]));
      mret None
  end.

(** The [for] loop of [free_segs]. *)
Fixpoint free_loop {E} (b : Z) (l : list Run) (sg : list Seg) (freed : Z) : res E (list Run * Z) :=
  match sg with
  | [] => mret (l, freed)
  | s :: sg =>
      d ← checked 64 (ptr s - b);
      start ← expect (u32_try_from (d / PAGE));
      n ← expect (u32_try_from (seg_len s / PAGE));
      freed ← checked 32 (freed + n);
      l ← insert_run l {| r_start := start; r_len := n |};
      free_loop b l sg freed
  end.

Definition free_segs (sg : list Seg) : M BufPool never (list nat) :=
  p ← get;
  '(l, freed) ← lift (free_loop (base p) (free p) sg 0);
  _ ← modify (set_free l);
  n ← lift (checked 32 (pool_free_pages p + freed));
  _ ← modify (set_free_pages n);
  _ ← modify (set_waiters []);
  mret (waiters p).

(** [Drop for SlotData]: the pool's wakers to wake, and the ring sub-buffer to
    release. *)
Definition SlotData_drop (d : SlotData) : M BufPool never (list nat * option Z) :=
  match owner d with
  | OPool => w ← free_segs (segs d); mret (w, None)
  | ORing bid => mret ([], Some bid)
  | OEmpty | OOwned _ _ => mret ([], None)
  end.

(** The fixed-buffer index of a lease; [ring_index] is the ring provider's. *)
Definition SlotData_buf_index (ring_index : Z -> option Z) (p : BufPool) (d : SlotData) : option Z :=
  match owner d with
  | OPool => pool_buf_index p
  | ORing bid => ring_index bid
  | OOwned _ _ | OEmpty => None
  end.
