(* ===== verification/PoolProofs.v ===== *)
(** * Theorems about the page pool

    [chain] is the free list's invariant: runs sorted, non-empty, separated by
    at least one page (so coalesced) and inside the arena.  [cover l pg] counts
    the runs of [l] that contain page [pg]; every operation is characterised by
    what it does to [cover], so disjointness and conservation of pages are
    arithmetic.  A chain is determined by its [cover] ([chain_ext]). *)

From S2P Require Import Prelude Pool.

Definition r_end (r : Run) : Z := r_start r + r_len r.

Fixpoint chain (lo : Z) (l : list Run) (hi : Z) : Prop :=
  match l with
  | [] => True
  | r :: l => lo <= r_start r /\ 0 < r_len r /\ r_end r <= hi /\ chain (r_end r + 1) l hi
  end.

Definition cover1 (r : Run) (pg : Z) : Z :=
  if (r_start r <=? pg) && (pg <? r_end r) then 1 else 0.

Fixpoint cover (l : list Run) (pg : Z) : Z :=
  match l with [] => 0 | r :: l => cover1 r pg + cover l pg end.

Fixpoint total (l : list Run) : Z :=
  match l with [] => 0 | r :: l => r_len r + total l end.

(** Where the next run after [l] may start. *)
Fixpoint chain_end (lo : Z) (l : list Run) : Z :=
  match l with [] => lo | r :: l => chain_end (r_end r + 1) l end.

Lemma cover_app a b pg : cover (a ++ b) pg = cover a pg + cover b pg.
Proof. induction a; cbn; lia. Qed.

Lemma total_app a b : total (a ++ b) = total a + total b.
Proof. induction a; cbn; lia. Qed.

Lemma chain_app lo a b hi : chain lo (a ++ b) hi <-> chain lo a hi /\ chain (chain_end lo a) b hi.
Proof. revert lo. induction a as [|r a IH]; intros lo; cbn; [tauto |]. rewrite IH. tauto. Qed.

Lemma cover1_bounds r pg : 0 <= cover1 r pg <= 1.
Proof. unfold cover1. case_match; lia. Qed.

Lemma cover_nonneg l pg : 0 <= cover l pg.
Proof. induction l as [|r l IH]; cbn; [lia |]. pose proof (cover1_bounds r pg). lia. Qed.

Lemma chain_weaken lo lo' l hi : lo' <= lo -> chain lo l hi -> chain lo' l hi.
Proof. destruct l; cbn; [done |]. intros ? (? & ?). split; [lia | done]. Qed.

(** Splits every [cover1] into in-range and out-of-range. *)
Ltac cov :=
  unfold cover1, r_end in *; cbn [r_start r_len] in *;
  repeat match goal with
  | H : context [(?a <=? ?b)] |- _ => destruct (Z.leb_spec a b)
  | |- context [(?a <=? ?b)] => destruct (Z.leb_spec a b)
  | H : context [(?a <? ?b)] |- _ => destruct (Z.ltb_spec a b)
  | |- context [(?a <? ?b)] => destruct (Z.ltb_spec a b)
  end; cbn [andb] in *; try lia.

Lemma cover_below lo l hi pg : chain lo l hi -> pg < lo -> cover l pg = 0.
Proof.
  revert lo. induction l as [|r l IH]; intros lo; cbn [chain cover]; [done |].
  intros (? & ? & ? & Hc) ?. rewrite (IH _ Hc) by (unfold r_end in *; lia). cov.
Qed.

Lemma cover_above lo l hi pg : chain lo l hi -> hi <= pg -> cover l pg = 0.
Proof.
  revert lo. induction l as [|r l IH]; intros lo; cbn [chain cover]; [done |].
  intros (? & ? & ? & Hc) ?. rewrite (IH _ Hc) by lia. cov.
Qed.

Lemma chain_cover_le1 lo l hi pg : chain lo l hi -> cover l pg <= 1.
Proof.
  revert lo. induction l as [|r l IH]; intros lo; cbn [chain cover]; [lia |].
  intros (? & ? & ? & Hc). specialize (IH _ Hc).
  destruct (decide (pg < r_end r + 1)).
  - rewrite (cover_below _ _ _ _ Hc) by lia. pose proof (cover1_bounds r pg). lia.
  - pose proof (cover_nonneg l pg). cov.
Qed.

Lemma chain_total lo l hi : chain lo l hi -> 0 <= total l.
Proof.
  revert lo. induction l as [|r l IH]; intros lo; cbn; [lia |].
  intros (? & ? & ? & Hc). specialize (IH _ Hc). lia.
Qed.

Lemma chain_total_le lo l hi : chain lo l hi -> lo <= hi -> total l <= hi - lo.
Proof.
  revert lo. induction l as [|r l IH]; intros lo; cbn [chain total]; [lia |].
  intros (? & ? & ? & Hc) ?. destruct l as [|r' l'].
  - cbn. unfold r_end in *. lia.
  - assert (r_end r + 1 <= hi) by (cbn in Hc; unfold r_end in *; lia).
    specialize (IH _ Hc). unfold r_end in *. lia.
Qed.

(** A chain is canonical: the same pages, the same list of runs. *)
Lemma chain_ext lo l l' hi :
  chain lo l hi -> chain lo l' hi -> (forall pg, cover l pg = cover l' pg) -> l = l'.
Proof.
  revert lo l'. induction l as [|a l IH]; intros lo l' Hl Hl' Heq.
  - destruct l' as [|b l']; [done |]. destruct Hl' as (? & ? & ? & ?).
    specialize (Heq (r_start b)). cbn [cover] in Heq. pose proof (cover_nonneg l' (r_start b)).
    exfalso. cov.
  - destruct l' as [|b l'].
    { destruct Hl as (? & ? & ? & ?). specialize (Heq (r_start a)). cbn [cover] in Heq.
      pose proof (cover_nonneg l (r_start a)). exfalso. cov. }
    destruct Hl as (Ha1 & Ha2 & Ha3 & Ha), Hl' as (Hb1 & Hb2 & Hb3 & Hb).
    assert (Hb' : forall pg, pg < r_end b + 1 -> cover l' pg = 0) by (intros; by eapply cover_below).
    assert (Ha' : forall pg, pg < r_end a + 1 -> cover l pg = 0) by (intros; by eapply cover_below).
    assert (r_start a = r_start b) as Hs.
    { destruct (Z.lt_trichotomy (r_start a) (r_start b)) as [? | [? | ?]]; [exfalso | done | exfalso].
      - specialize (Heq (r_start a)). cbn [cover] in Heq.
        rewrite Ha', Hb' in Heq by (unfold r_end; lia). cov.
      - specialize (Heq (r_start b)). cbn [cover] in Heq.
        rewrite Ha', Hb' in Heq by (unfold r_end; lia). cov. }
    assert (r_end a = r_end b) as He.
    { destruct (Z.lt_trichotomy (r_end a) (r_end b)) as [? | [? | ?]]; [exfalso | done | exfalso].
      - specialize (Heq (r_end a)). cbn [cover] in Heq. rewrite Ha', Hb' in Heq by lia. cov.
      - specialize (Heq (r_end b)). cbn [cover] in Heq. rewrite Ha', Hb' in Heq by lia. cov. }
    assert (a = b) as -> by (destruct a, b; unfold r_end in *; cbn in *; f_equal; lia).
    f_equal. eapply IH; [exact Ha | done |].
    intros pg. specialize (Heq pg). cbn [cover] in Heq. lia.
Qed.

(** ** [insert_run] *)

(** What [merge_next] does at a split list. *)
Lemma merge_next_at {E} l1 a b l2 :
  in_u 32 (r_end a) -> in_u 32 (r_len a + r_len b) ->
  merge_next (E := E) (l1 ++ a :: b :: l2) (length l1) =
    Ok (if r_end a =? r_start b
        then l1 ++ {| r_start := r_start a; r_len := r_len a + r_len b |} :: l2
        else l1 ++ a :: b :: l2).
Proof.
  intros He Hn. unfold merge_next. rewrite (list_lookup_middle l1 (b :: l2) a (length l1) eq_refl).
  rewrite lookup_app_r by lia. replace (S (length l1) - length l1)%nat with 1%nat by lia.
  cbn [expect mbind res_bind lookup list_lookup]. fold (r_end a). rewrite (checked_ok _ _ He).
  cbn [mbind res_bind]. case_match; [| done].
  rewrite (checked_ok _ _ Hn). cbn [mbind res_bind]. rewrite take_app_length.
  replace (S (S (length l1))) with (length l1 + 2)%nat by lia. by rewrite drop_app_add.
Qed.

(** The insertion point splits a chain before and after the new run. *)
Lemma partition_point_split f l :
  let pos := partition_point f l in
  l = take pos l ++ drop pos l /\ length (take pos l) = pos /\
  (forall r, r ∈ take pos l -> f r = true) /\
  (forall r l', drop pos l = r :: l' -> f r = false).
Proof.
  cbn zeta. split; [by rewrite take_drop |]. induction l as [|r l IH]; cbn [partition_point].
  - cbn. split_and!; [done | by intros r ?%elem_of_nil | by intros ].
  - destruct (f r) eqn:Hf; cbn [take drop length].
    + destruct IH as (H1 & H2 & H3). split_and!; [by rewrite H1 | | done].
      intros x [-> | Hx]%elem_of_cons; [done | by apply H2].
    + split_and!; [done | by intros x ?%elem_of_nil | by intros x l' [= <- _]].
Qed.

(** First half of [insert_run]: the new run and what follows it. *)
Lemma insert_merge_right {E} l1 r l2 hi lo :
  in_u 32 hi -> 0 <= r_start r -> 0 < r_len r -> r_end r <= hi -> chain lo l2 hi ->
  (forall pg, cover l2 pg + cover1 r pg <= 1) ->
  (forall b l', l2 = b :: l' -> r_start r <= r_start b) ->
  exists r1 rest,
    (if decide (length l1 + 1 < length (l1 ++ r :: l2))%nat
     then merge_next (l1 ++ r :: l2) (length l1) else mret (l1 ++ r :: l2))
      = Ok (E := E) (l1 ++ r1 :: rest) /\
    r_start r1 = r_start r /\ 0 < r_len r1 /\ r_end r1 <= hi /\ chain (r_end r1 + 1) rest hi /\
    (forall pg, cover (r1 :: rest) pg = cover1 r pg + cover l2 pg) /\
    total (r1 :: rest) = r_len r + total l2.
Proof.
  intros Hhi Hs Hl He Hc Hdis Hb. destruct l2 as [|b l2].
  - rewrite decide_False by (rewrite length_app; cbn; lia). exists r, []. split; [done |].
    cbn. split_and!; try done; intros; lia.
  - rewrite decide_True by (rewrite length_app; cbn; lia).
    destruct Hc as (Hb1 & Hb2 & Hb3 & Hc). specialize (Hb _ _ eq_refl).
    assert (r_end r <= r_start b).
    { specialize (Hdis (r_start b)). cbn [cover] in Hdis.
      rewrite (cover_below _ _ _ (r_start b) Hc) in Hdis by (unfold r_end; lia). cov. }
    rewrite merge_next_at by (unfold in_u, r_end in *; lia).
    destruct (r_end r =? r_start b) eqn:Heq; zbool.
    + eexists _, _. split; [done |]. cbn [total cover r_start r_len]. unfold r_end in *.
      cbn [r_start r_len]. split_and!; try lia.
      * eapply chain_weaken; [| exact Hc]. lia.
      * intros pg. cov.
    + exists r, (b :: l2). split; [done |]. cbn [total cover chain]. unfold r_end in *.
      split_and!; try done; try lia.
Qed.

Lemma insert_run_spec {E} l r hi :
  in_u 32 hi -> chain 0 l hi -> 0 <= r_start r -> 0 < r_len r -> r_end r <= hi ->
  (forall pg, cover l pg + cover1 r pg <= 1) ->
  exists l', insert_run (E := E) l r = Ok l' /\ chain 0 l' hi /\
    (forall pg, cover l' pg = cover l pg + cover1 r pg) /\ total l' = total l + r_len r.
Proof.
  intros Hhi Hc Hs Hl He Hdis. unfold insert_run.
  destruct (partition_point_split (fun x => r_start x <? r_start r) l) as (Hsp & Hpos & H1 & H2).
  set (pos := partition_point _ l) in *. clearbody pos.
  set (l1 := take pos l) in *. set (l2 := drop pos l) in *. clearbody l1 l2. subst l pos.
  apply chain_app in Hc as [Hc1 Hc2].
  destruct (insert_merge_right (E := E) l1 r l2 hi (chain_end 0 l1)) as
    (r1 & rest & -> & Hs1 & Hl1 & He1 & Hc & Hcov & Htot); try done.
  { intros pg. specialize (Hdis pg). rewrite cover_app in Hdis.
    pose proof (cover_nonneg l1 pg). lia. }
  { intros b l' ->. specialize (H2 b l' eq_refl). zbool. lia. }
  cbn [mbind res_bind].
  destruct l1 as [|a l1' _] using rev_ind.
  - rewrite decide_False by (cbn; lia). exists (r1 :: rest).
    split; [done |]. split; [cbn; split_and!; try done; lia |].
    split; [intros pg; rewrite Hcov; cbn; lia | rewrite Htot; cbn; lia].
  - rewrite length_app. cbn [length]. rewrite decide_True by lia.
    replace (length l1' + 1 - 1)%nat with (length l1') by lia.
    rewrite <- (app_assoc l1'). cbn [app].
    assert (r_start a < r_start r).
    { specialize (H1 a). zbool. apply Z.ltb_lt, H1, elem_of_app. right. by apply list_elem_of_singleton. }
    apply chain_app in Hc1 as [Hc0 (Ha1 & Ha2 & Ha3 & _)].
    assert (r_end a <= r_start r).
    { specialize (Hdis (r_start r)). rewrite !cover_app in Hdis. cbn [cover] in Hdis.
      pose proof (cover_nonneg l1' (r_start r)). pose proof (cover_nonneg l2 (r_start r)). cov. }
    assert (0 <= r_start a).
    { clear -Ha1 Hc0. assert (forall lo l h, chain lo l h -> lo <= chain_end lo l).
      { intros lo l. revert lo. induction l as [|x l IH]; intros lo h; cbn; [lia |].
        intros (?&?&?&Hx). specialize (IH _ _ Hx). unfold r_end in *. lia. }
      specialize (H _ _ _ Hc0). lia. }
    rewrite merge_next_at by (unfold in_u, r_end in *; lia).
    destruct (r_end a =? r_start r1) eqn:Heq; zbool; eexists; (split; [done |]).
    + split; [| split].
      * apply chain_app. split; [done |]. cbn [chain]. unfold r_end in *. cbn [r_start r_len].
        split_and!; try lia. eapply chain_weaken; [| exact Hc]. lia.
      * intros pg. specialize (Hcov pg). rewrite !cover_app. cbn [cover] in *. cov.
      * rewrite !total_app. cbn [total r_len] in *. lia.
    + split; [| split].
      * apply chain_app. split; [done |]. cbn [chain]. unfold r_end in *.
        split_and!; try lia. done.
      * intros pg. specialize (Hcov pg). rewrite !cover_app. cbn [cover] in *. lia.
      * rewrite !total_app. cbn [total r_len] in *. lia.
Qed.

(** ** [carve] *)

Lemma carve_spec {E} l i r n lo hi :
  in_u 32 hi -> 0 <= lo -> chain lo l hi -> l !! i = Some r -> 0 < n <= r_len r ->
  exists l', carve (E := E) l i n = Ok (r_start r, l') /\ chain lo l' hi /\
    (forall pg, cover l pg = cover l' pg + cover1 {| r_start := r_start r; r_len := n |} pg) /\
    total l = total l' + n /\ 0 <= r_start r /\ r_start r + n <= hi.
Proof.
  intros Hhi Hlo Hc Hi Hn. pose proof (take_drop_middle l i r Hi) as Hl.
  pose proof (lookup_lt_Some _ _ _ Hi) as Hlt.
  assert (Hlen : length (take i l) = i) by (rewrite length_take; lia).
  set (l1 := take i l) in *. set (l2 := drop (S i) l) in *. clearbody l1 l2. subst l.
  apply chain_app in Hc as [Hc1 Hc]. cbn [chain] in Hc. destruct Hc as (H1 & H2 & H3 & Hc2).
  assert (lo <= chain_end lo l1).
  { clear -Hc1. revert lo Hc1. induction l1 as [|x l IH]; intros lo; cbn; [lia |].
    intros (?&?&?&Hx). specialize (IH _ Hx). unfold r_end in *. lia. }
  unfold carve. rewrite Hi. cbn [expect mbind res_bind].
  rewrite !checked_ok by (unfold in_u, r_end in *; lia). cbn [mbind res_bind].
  eexists. split; [done |]. destruct (r_len r - n =? 0) eqn:Heq; zbool.
  - rewrite <- Hlen, delete_middle. rewrite total_app, total_app. cbn [total].
    split_and!; try lia; [| | unfold r_end in *; lia].
    + apply chain_app. split; [done |]. eapply chain_weaken; [| exact Hc2]. unfold r_end in *. lia.
    + intros pg. rewrite !cover_app. cbn [cover]. cov.
  - rewrite <- Hlen, insert_app_r_alt, Nat.sub_diag by lia. cbn [insert list_insert].
    rewrite total_app, total_app. cbn [total r_len].
    split_and!; try lia; [| | unfold r_end in *; lia].
    + apply chain_app. split; [done |]. cbn [chain]. unfold r_end in *. cbn [r_start r_len].
      split_and!; try lia. eapply chain_weaken; [| exact Hc2]. lia.
    + intros pg. rewrite !cover_app. cbn [cover]. cov.
Qed.

(** ** Leases *)

Definition run_in (n : Z) (r : Run) : Prop := 0 <= r_start r /\ 0 < r_len r /\ r_end r <= n.

Definition run_seg (b : Z) (r : Run) : Seg :=
  {| ptr := b + r_start r * PAGE; seg_len := r_len r * PAGE |}.

(** [d] leases exactly the page runs [rs] of pool [p]. *)
Definition leases (p : BufPool) (d : SlotData) (rs : list Run) : Prop :=
  owner d = OPool /\ segs d = map (run_seg (base p)) rs /\ sd_len d = total rs * PAGE /\
  (1 <= length rs <= MAX_SEGS)%nat /\ Forall (run_in (npages p)) rs.

Definition pool_wf (p : BufPool) : Prop :=
  in_u 32 (npages p) /\ 0 < npages p /\ 0 <= base p /\ base p + npages p * PAGE < 2 ^ 64 /\
  chain 0 (free p) (npages p) /\ pool_free_pages p = total (free p).

(** The dry run finds every page it needs when the free count says so. *)
Lemma scatter_scan_enough lo hi l need count k :
  chain lo l hi -> 0 <= need <= total l -> scatter_scan l need count = Some k -> k = 0.
Proof.
  revert lo need count. induction l as [|r l IH]; intros lo need count Hc Hn; cbn in *.
  { intros [= <-]. lia. }
  destruct Hc as (? & ? & ? & Hc). case_match; zbool; [intros [= <-]; lia |].
  case_decide; [done |]. apply (IH _ _ _ Hc). pose proof (chain_total _ _ _ Hc). lia.
Qed.

(** ... and needs at most one run per page. *)
Lemma scatter_scan_small lo hi l need count :
  chain lo l hi -> 0 <= need <= total l -> Z.of_nat count + need <= Z.of_nat MAX_SEGS ->
  scatter_scan l need count = Some 0.
Proof.
  revert lo need count. induction l as [|r l IH]; intros lo need count Hc Hn Hk; cbn in *.
  { f_equal. lia. }
  destruct Hc as (? & ? & ? & Hc). case_match; zbool; [f_equal; lia |].
  rewrite decide_False by (unfold MAX_SEGS in *; lia).
  apply (IH _ _ _ Hc); [pose proof (chain_total _ _ _ Hc) |]; lia.
Qed.

Lemma scatter_loop_done {E} fuel p l sg n :
  scatter_loop (E := E) (S fuel) p l sg n 0 = Ok (l, sg, n).
Proof. done. Qed.

Lemma take_S_insert {A} (l : list A) n x :
  (n < length l)%nat -> take (n + 1) (<[n := x]> l) = take n l ++ [x].
Proof.
  intros Hn. replace (n + 1)%nat with (S n) by lia.
  rewrite (take_S_r _ _ x) by (by apply list_lookup_insert_eq).
  by rewrite take_insert_ge by lia.
Qed.

Lemma scatter_loop_ok {E} fuel p l sg n need lo hi :
  in_u 32 hi -> 0 <= lo -> chain lo l hi -> in_u 32 need -> scatter_scan l need n = Some 0 ->
  length sg = MAX_SEGS -> (length l < fuel)%nat ->
  exists l' sg' rs,
    scatter_loop (E := E) fuel p l sg n need = Ok (l', sg', (n + length rs)%nat) /\
    chain lo l' hi /\ (forall pg, cover l pg = cover l' pg + cover rs pg) /\
    total l = total l' + need /\ total rs = need /\ Forall (run_in hi) rs /\
    length sg' = MAX_SEGS /\ (rs = [] \/ n + length rs <= MAX_SEGS)%nat /\
    take (n + length rs) sg' = take n sg ++ map (run_seg (base p)) rs.
Proof.
  intros Hhi Hlo. revert fuel sg n need. induction l as [|r l IH]; intros fuel sg n need Hc Hn Hscan Hsg Hf.
  { cbn in Hscan. simplify_eq. destruct fuel; [cbn in Hf; lia |]. exists [], sg, [].
    rewrite scatter_loop_done. cbn. rewrite Nat.add_0_r, app_nil_r. split_and!; try done; try lia.
    by left. }
  destruct fuel as [|fuel]; [cbn in Hf; lia |]. cbn [length] in Hf.
  cbn [scatter_scan] in Hscan. destruct (need =? 0) eqn:Hz; zbool.
  { subst need. exists (r :: l), sg, []. rewrite scatter_loop_done. cbn [length map].
    rewrite Nat.add_0_r, app_nil_r. cbn [total cover]. split_and!; try done; try lia; by left. }
  case_decide; [done |]. unfold in_u in Hn. cbn [scatter_loop].
  rewrite (proj2 (Z.leb_gt need 0)) by lia. cbn [lookup list_lookup expect mbind res_bind].
  rewrite bool_decide_eq_true_2 by (unfold MAX_SEGS in *; lia). cbn [assert mbind res_bind].
  pose proof Hc as (H1 & H2 & H3 & Hc').
  destruct (carve_spec (E := E) (r :: l) 0 r (Z.min need (r_len r)) lo hi) as
    (l' & Hcv & Hcl & Hcov & Htot & Hs0 & Hse); try done; [lia |].
  rewrite Hcv. cbn [mbind res_bind].
  rewrite checked_ok by (unfold in_u; lia). cbn [mbind res_bind].
  set (q := {| r_start := r_start r; r_len := Z.min need (r_len r) |}) in *.
  assert (Hq : run_in hi q) by (unfold run_in, r_end, q; cbn; lia).
  assert (Hqs : {| ptr := page_ptr p (r_start r); seg_len := Z.min need (r_len r) * PAGE |}
                = run_seg (base p) q) by done.
  rewrite Hqs. set (sg1 := <[n := run_seg (base p) q]> sg).
  assert (Htk : take (n + 1) sg1 = take n sg ++ [run_seg (base p) q])
    by (apply take_S_insert; unfold MAX_SEGS in *; lia).
  assert (Hsg1 : length sg1 = MAX_SEGS) by (unfold sg1; by rewrite length_insert).
  assert (r_len q = Z.min need (r_len r)) as Hql by done.
  destruct (decide (r_len r <= need)).
  - (* the whole run is taken *)
    assert (l' = l) as ->.
    { unfold carve in Hcv. cbn [lookup list_lookup expect mbind res_bind] in Hcv.
      rewrite !checked_ok in Hcv by (unfold in_u, r_end in *; lia). cbn [mbind res_bind] in Hcv.
      rewrite (proj2 (Z.eqb_eq _ 0)) in Hcv by lia. by injection Hcv. }
    destruct (IH fuel sg1 (n + 1)%nat (need - Z.min need (r_len r))) as
      (l' & sg' & rs & -> & A1 & A2 & A3 & A4 & A5 & A6 & A7 & A8); try done; try lia.
    { unfold in_u; lia. }
    { rewrite <- Hscan. f_equal. lia. }
    exists l', sg', (q :: rs). cbn [length map total cover] in *.
    replace (n + S (length rs))%nat with (n + 1 + length rs)%nat by lia.
    split_and!; try done; try lia.
    + intros pg. specialize (Hcov pg). specialize (A2 pg). cbn [cover] in Hcov. lia.
    + by constructor.
    + right. destruct A7 as [-> | ?]; cbn; unfold MAX_SEGS in *; lia.
    + by rewrite A8, Htk, <- app_assoc.
  - destruct fuel as [|fuel]; [lia |].
    replace (need - Z.min need (r_len r)) with 0 by lia. rewrite scatter_loop_done.
    exists l', sg1, [q]. cbn [length map total cover] in *.
    split_and!; try done; try lia.
    + intros pg. specialize (Hcov pg). cbn [cover] in Hcov. lia.
    + by constructor.
Qed.

(** ** [alloc] *)

(** Everything but the free list is untouched. *)
Definition same_arena (p p' : BufPool) : Prop :=
  base p' = base p /\ npages p' = npages p /\ waiters p' = waiters p /\
  pool_buf_index p' = pool_buf_index p /\ send_arena p' = send_arena p.

(** [p'] is [p] with the runs [rs] taken out. *)
Definition takes (p p' : BufPool) (rs : list Run) : Prop :=
  pool_wf p' /\ forall pg, cover (free p) pg = cover (free p') pg + cover rs pg.

Lemma fits_at_spec l pages i :
  fits_at l pages = Some i -> exists r, l !! i = Some r /\ pages <= r_len r.
Proof.
  unfold fits_at. destruct (list_find _ l) as [[j r]|] eqn:E; [| done].
  intros [= <-]. apply list_find_Some in E as (? & ? & _). eauto.
Qed.

Lemma pages_for_pos len : 1 <= pages_for len.
Proof. unfold pages_for. lia. Qed.

Lemma pages_for_enough len : 0 <= len -> len <= pages_for len * PAGE.
Proof.
  intros. unfold pages_for, div_ceil, PAGE.
  pose proof (Z.div_mod (len + 4096 - 1) 4096). pose proof (Z.mod_pos_bound (len + 4096 - 1) 4096). lia.
Qed.

Lemma taken_wf p l rs n :
  pool_wf p -> chain 0 l (npages p) -> total (free p) = total l + n ->
  (forall pg, cover (free p) pg = cover l pg + cover rs pg) ->
  takes p (set_free_pages (pool_free_pages p - n) (set_free l p)) rs.
Proof.
  intros (H1 & H2 & H3 & H4 & H5 & H6) Hc Ht Hcov. split; [| done].
  unfold pool_wf. cbn. split_and!; try done; lia.
Qed.

Lemma make_lease_eq sg n pages p :
  in_u 32 (pool_free_pages p - pages) ->
  make_lease sg n pages p =
    (set_free_pages (pool_free_pages p - pages) p,
     Ok {| sd_segs := sg; nsegs := n; sd_len := pages * PAGE; owner := OPool |}).
Proof.
  intros H. unfold make_lease, mbind, M_bind, get, lift, modify, mret, M_ret.
  by rewrite checked_ok.
Qed.

Lemma alloc_spec p len :
  pool_wf p ->
  (alloc len p = (p, Ok None) /\
   ~ (pages_for len <= pool_free_pages p /\ pages_for len <= Z.of_nat MAX_SEGS)) \/
  exists p' d rs,
    alloc len p = (p', Ok (Some d)) /\ takes p p' rs /\ same_arena p p' /\
    leases p d rs /\ total rs = pages_for len.
Proof.
  intros Hwf. pose proof Hwf as (H1 & H2 & H3 & H4 & H5 & H6).
  pose proof (pages_for_pos len) as Hpp. unfold alloc, u32_try_from.
  unfold mbind, M_bind, get, lift, mret, M_ret. set (pages := pages_for len) in *. clearbody pages.
  pose proof (chain_total_le _ _ _ H5 ltac:(lia)) as Htl.
  case_decide as Hu; [| left; split; [done |]; unfold in_u, MAX_SEGS in *; lia].
  destruct (pool_free_pages p <? pages) eqn:Hlt; zbool; [left; split; [done | lia] |].
  destruct (fits_at (free p) pages) as [i|] eqn:Hfit.
  - right. destruct (fits_at_spec _ _ _ Hfit) as (r & Hi & Hr).
    destruct (carve_spec (E := never) (free p) i r pages 0 (npages p)) as
      (l' & Hcv & Hcl & Hcov & Htot & Hs0 & Hse); try done; [lia |].
    rewrite Hcv. cbn [fst snd]. unfold modify.
    rewrite make_lease_eq by (unfold in_u in *; cbn; lia).
    eexists _, _, [{| r_start := r_start r; r_len := pages |}].
    split; [done |]. split; [| split; [done | split]].
    + apply (taken_wf p l' _ pages); try done. intros pg. rewrite Hcov. cbn. lia.
    + unfold leases, segs. cbn. unfold run_seg, page_ptr, MAX_SEGS. cbn.
      split_and!; try done; try lia. constructor; [| done]. unfold run_in, r_end; cbn. lia.
    + cbn. lia.
  - destruct (scatter_scan (free p) pages 0) as [need|] eqn:Hscan.
    + assert (need = 0) as -> by (eapply scatter_scan_enough; [done | | done]; lia).
      change (0 <? 0) with false. cbv iota. right.
      destruct (scatter_loop_ok (E := never) (S (length (free p))) p (free p) null_segs 0 pages 0 (npages p))
        as (l' & sg' & rs & -> & A1 & A2 & A3 & A4 & A5 & A6 & A7 & A8); try done; [lia |].
      cbn [fst snd]. unfold modify. rewrite make_lease_eq by (unfold in_u in *; cbn; lia).
      assert (Hrs : (1 <= length rs <= MAX_SEGS)%nat).
      { destruct rs; [cbn in A4; lia |]. destruct A7 as [| ?]; [done |]. cbn in *. lia. }
      eexists _, _, rs. split; [done |]. split; [by apply (taken_wf p l' _ pages) |]. split; [done |].
      split; [| done]. unfold leases, segs. cbn [owner nsegs sd_segs sd_len base npages].
      split_and!; try done; try lia.
      * rewrite wrap_small by (unfold in_u, MAX_SEGS in *; lia). rewrite Nat2Z.id.
        rewrite A8. by rewrite take_0.
    + left. split; [done |]. intros [_ Hsm].
      rewrite (scatter_scan_small 0 (npages p)) in Hscan; [done | done | lia | cbn; lia].
Qed.

(** ** [free_segs], [reserve_arena] *)

Lemma page_div b s : (b + s * PAGE - b) / PAGE = s.
Proof. replace (b + s * PAGE - b) with (s * PAGE) by lia. by apply Z.div_mul. Qed.

Lemma free_loop_ok {E} b rs l hi freed :
  in_u 32 hi -> 0 <= b -> b + hi * PAGE < 2 ^ 64 -> chain 0 l hi -> Forall (run_in hi) rs ->
  (forall pg, cover l pg + cover rs pg <= 1) -> 0 <= freed -> freed + total rs < 2 ^ 32 ->
  exists l', free_loop (E := E) b l (map (run_seg b) rs) freed = Ok (l', freed + total rs) /\
    chain 0 l' hi /\ (forall pg, cover l' pg = cover l pg + cover rs pg) /\
    total l' = total l + total rs.
Proof.
  intros Hhi Hb Hb'. revert l freed. induction rs as [|r rs IH]; intros l freed Hc Hrs Hdis Hf Hft.
  { cbn. exists l. rewrite Z.add_0_r. split_and!; [done | done | intros; lia | lia]. }
  inversion_clear Hrs as [| ? ? (Hr1 & Hr2 & Hr3) Hrs'].
  assert (Htn : 0 <= total rs).
  { clear -Hrs'. induction Hrs' as [|x ? (?&?&?)]; cbn; lia. }
  cbn [map free_loop run_seg ptr seg_len total] in *. unfold r_end in Hr3.
  rewrite checked_ok by (unfold in_u, PAGE in *; lia). cbn [mbind res_bind].
  rewrite page_div, Z.div_mul by done. unfold u32_try_from.
  rewrite !decide_True by (unfold in_u in *; lia). cbn [expect mbind res_bind].
  rewrite checked_ok by (unfold in_u in *; lia). cbn [mbind res_bind].
  replace {| r_start := r_start r; r_len := r_len r |} with r by (by destruct r).
  destruct (insert_run_spec (E := E) l r hi) as (l1 & -> & A1 & A2 & A3); try done.
  { intros pg. specialize (Hdis pg). cbn [cover] in Hdis. pose proof (cover_nonneg rs pg). lia. }
  cbn [mbind res_bind].
  destruct (IH l1 (freed + r_len r)) as (l' & -> & B1 & B2 & B3); try done; try lia.
  { intros pg. specialize (Hdis pg). cbn [cover] in Hdis. rewrite A2. lia. }
  exists l'. split; [by rewrite Z.add_assoc |]. split; [done |]. split; [| lia].
  intros pg. rewrite B2, A2. cbn [cover]. lia.
Qed.

Lemma free_segs_spec p d rs :
  pool_wf p -> leases p d rs -> (forall pg, cover (free p) pg + cover rs pg <= 1) ->
  exists p', free_segs (segs d) p = (p', Ok (waiters p)) /\ takes p' p rs /\
    same_arena (set_waiters [] p) p' /\ pool_wf p' /\
    pool_free_pages p' = pool_free_pages p + total rs.
Proof.
  intros (H1 & H2 & H3 & H4 & H5 & H6) (_ & Hsg & _ & _ & Hrs) Hdis.
  unfold free_segs, mbind, M_bind, get, lift, modify, mret, M_ret. rewrite Hsg.
  assert (Htn : 0 <= total rs) by (clear -Hrs; induction Hrs as [|x ? (?&?&?)]; cbn; lia).
  assert (exists l', free_loop (E := never) (base p) (free p) (map (run_seg (base p)) rs) 0 =
            Ok (l', total rs) /\ chain 0 l' (npages p) /\
            (forall pg, cover l' pg = cover (free p) pg + cover rs pg) /\
            total l' = total (free p) + total rs /\ total rs <= npages p) as
    (l' & -> & A1 & A2 & A3 & A4).
  { assert (Hcap : total rs <= npages p).
    { (* the runs are disjoint pages of the arena: insert them into an empty list *)
      assert (forall l, chain 0 l (npages p) -> (forall pg, cover l pg + cover rs pg <= 1) ->
                exists l', chain 0 l' (npages p) /\ total l' = total l + total rs) as Hind.
      { clear -Hrs H1. induction Hrs as [|r rs (?&?&?) Hrs IH]; intros l Hc Hd; cbn in *.
        { exists l. split; [done | lia]. }
        destruct (insert_run_spec (E := never) l r (npages p)) as (l1 & _ & A1 & A2 & A3); try done.
        { intros pg. specialize (Hd pg). pose proof (cover_nonneg rs pg). lia. }
        destruct (IH l1 A1) as (l2 & B1 & B2); [intros pg; specialize (Hd pg); rewrite A2; lia |].
        exists l2. split; [done | lia]. }
      destruct (Hind [] I) as (l2 & B1 & B2).
      { intros pg. specialize (Hdis pg). pose proof (cover_nonneg (free p) pg). cbn. lia. }
      apply chain_total_le in B1; [cbn in B2; lia | lia]. }
    destruct (free_loop_ok (E := never) (base p) rs (free p) (npages p) 0) as (l' & Hl & A); try done;
      [unfold in_u in *; lia |]. exists l'. rewrite Hl. cbn in *. tauto. }
  pose proof (chain_total_le _ _ _ A1 ltac:(lia)) as Htl. pose proof (chain_total _ _ _ A1).
  rewrite checked_ok by (unfold in_u in *; lia).
  eexists. split; [done |].
  assert (Hwf' : pool_wf (set_waiters [] (set_free_pages (pool_free_pages p + total rs) (set_free l' p)))).
  { unfold pool_wf. cbn. split_and!; try done; lia. }
  split; [| done]. split; [| done]. unfold pool_wf. by split_and!.
Qed.

Lemma reserve_arena_spec p len :
  pool_wf p ->
  reserve_arena len p = (p, Ok None) \/
  exists p' r, reserve_arena len p =
      (p', Ok (Some (base p + r_start r * PAGE, r_len r * PAGE))) /\
    takes p p' [r] /\ run_in (npages p) r /\ r_len r = pages_for len /\
    base p' = base p /\ npages p' = npages p /\ waiters p' = waiters p /\
    pool_buf_index p' = pool_buf_index p /\
    send_arena p' = Some (base p + r_start r * PAGE, r_len r * PAGE).
Proof.
  intros Hwf. pose proof Hwf as (H1 & H2 & H3 & H4 & H5 & H6).
  pose proof (pages_for_pos len) as Hpp. unfold reserve_arena, u32_try_from.
  unfold mbind, M_bind, get, lift, mret, M_ret. set (pages := pages_for len) in *. clearbody pages.
  pose proof (chain_total_le _ _ _ H5 ltac:(lia)) as Htl.
  destruct (pool_buf_index p) as [bi|] eqn:Hbi; [| by left].
  case_decide as Hu; [| by left].
  destruct (fits_at (free p) pages) as [i|] eqn:Hfit; [| by left]. right.
  destruct (fits_at_spec _ _ _ Hfit) as (r & Hi & Hr).
  destruct (carve_spec (E := never) (free p) i r pages 0 (npages p)) as
    (l' & -> & Hcl & Hcov & Htot & Hs0 & Hse); try done; [lia |].
  pose proof (chain_total _ _ _ Hcl). cbn [fst snd]. unfold modify.
  rewrite checked_ok by (unfold in_u in *; lia).
  eexists _, {| r_start := r_start r; r_len := pages |}. split; [done |].
  split; [| split_and!; try done; unfold run_in, r_end; cbn; lia].
  destruct (taken_wf p l' [{| r_start := r_start r; r_len := pages |}] pages) as [A B]; try done.
  intros pg. rewrite Hcov. cbn. lia.
Qed.
