(* ===== verification/PoolSafety.v ===== *)
(** * The pool in use: isolation of leases, conservation of pages, data round trips

    [pool_step] is any order of operations a queue performs on its pool, with
    the leases handed out so far.  The invariant, by rule induction: every page
    of the arena is in exactly one place (the free list, one live lease, or the
    reserved send arena). *)

From S2P Require Import Prelude Pool PoolProofs.

(** A pool, the leases alive, and the wakers woken so far. *)
Record pool_sys := { ps_pool : BufPool; ps_live : list SlotData }.

Inductive pool_step : pool_sys -> pool_sys -> Prop :=
| step_alloc p live len p' d :
    alloc len p = (p', Ok (Some d)) ->
    pool_step {| ps_pool := p; ps_live := live |} {| ps_pool := p'; ps_live := d :: live |}
| step_park p live w len p' :
    alloc_await_poll w len p = (p', Ok None) ->
    pool_step {| ps_pool := p; ps_live := live |} {| ps_pool := p'; ps_live := live |}
| step_drop p l1 d l2 p' w :
    SlotData_drop d p = (p', Ok w) ->
    pool_step {| ps_pool := p; ps_live := l1 ++ d :: l2 |} {| ps_pool := p'; ps_live := l1 ++ l2 |}
| step_reserve p live len p' r :
    reserve_arena len p = (p', Ok r) ->
    pool_step {| ps_pool := p; ps_live := live |} {| ps_pool := p'; ps_live := live |}
| step_register p live i :
    pool_step {| ps_pool := p; ps_live := live |} {| ps_pool := set_buf_index i p; ps_live := live |}
| step_unregister p live :
    pool_step {| ps_pool := p; ps_live := live |}
              {| ps_pool := (take_buf_index p).1; ps_live := live |}.

(** A new pool, and what operations make of it. *)
Inductive pool_reachable : pool_sys -> Prop :=
| pool_init addr len p :
    0 <= addr -> addr + pages_for len * PAGE < 2 ^ 64 ->
    BufPool_new (E := never) addr len = Ok p ->
    pool_reachable {| ps_pool := p; ps_live := [] |}
| pool_next s s' : pool_reachable s -> pool_step s s' -> pool_reachable s'.

(** Live leases hold [rss], the send arena [res], and with the free list they
    partition the arena. *)
Definition pool_inv (s : pool_sys) (rss : list (list Run)) (res : list Run) : Prop :=
  let p := ps_pool s in
  pool_wf p /\ Forall2 (leases p) (ps_live s) rss /\ (send_arena p = None -> res = []) /\
  forall pg, 0 <= pg < npages p -> cover (free p) pg + cover (concat rss) pg + cover res pg = 1.

Lemma leases_same p p' d rs :
  base p' = base p -> npages p' = npages p -> leases p d rs -> leases p' d rs.
Proof. unfold leases. by intros -> ->. Qed.

Lemma leases_same_all p p' ds rss :
  base p' = base p -> npages p' = npages p ->
  Forall2 (leases p) ds rss -> Forall2 (leases p') ds rss.
Proof. intros Hb Hn H. eapply Forall2_impl; [| exact H]. intros. by eapply (leases_same p p'). Qed.

Lemma cover_run_out n rs pg : Forall (run_in n) rs -> ~ (0 <= pg < n) -> cover rs pg = 0.
Proof.
  intros Hrs Hpg. induction Hrs as [|r rs (?&?&?) _ IH]; [done |]. cbn. rewrite IH. cov.
Qed.

Lemma Forall2_app_cons_l {A B} (P : A -> B -> Prop) l1 x l2 k :
  Forall2 P (l1 ++ x :: l2) k ->
  exists k1 y k2, k = k1 ++ y :: k2 /\ Forall2 P l1 k1 /\ P x y /\ Forall2 P l2 k2.
Proof.
  intros H. apply Forall2_app_inv_l in H as (k1 & k' & H1 & H2 & ->).
  inversion H2 as [| ? y ? k2 ? ?]; subst. by exists k1, y, k2.
Qed.

(** Dropping a live lease always finds the pool ready to take it back. *)
Lemma live_disjoint s k1 rs k2 res :
  pool_inv s (k1 ++ rs :: k2) res -> Forall (run_in (npages (ps_pool s))) rs ->
  forall pg, cover (free (ps_pool s)) pg + cover rs pg <= 1.
Proof.
  intros (Hwf & _ & _ & Hcov) Hrs pg. destruct (decide (0 <= pg < npages (ps_pool s))) as [Hpg | Hpg].
  - specialize (Hcov pg Hpg). rewrite concat_app in Hcov. cbn [concat] in Hcov.
    rewrite !cover_app in Hcov. pose proof (cover_nonneg (concat k1) pg).
    pose proof (cover_nonneg (concat k2) pg). pose proof (cover_nonneg res pg). lia.
  - rewrite (cover_run_out _ _ _ Hrs Hpg). destruct Hwf as (_ & _ & _ & _ & Hc & _).
    pose proof (chain_cover_le1 _ _ _ pg Hc). lia.
Qed.

Lemma pool_new_inv addr len p :
  0 <= addr -> addr + pages_for len * PAGE < 2 ^ 64 ->
  BufPool_new (E := never) addr len = Ok p ->
  pool_inv {| ps_pool := p; ps_live := [] |} [] [] /\ base p = addr /\ npages p = pages_for len.
Proof.
  intros Ha Hb. unfold BufPool_new, u32_try_from. pose proof (pages_for_pos len).
  case_decide as Hu; [| done]. cbn. intros [= <-]. split; [| done]. split; cbn.
  - unfold pool_wf. cbn. unfold r_end. cbn. split_and!; try done; lia.
  - split; [done |]. split; [done |]. intros pg Hpg. cov.
Qed.

Lemma pool_step_inv s s' rss res :
  pool_inv s rss res -> pool_step s s' -> exists rss' res', pool_inv s' rss' res'.
Proof.
  intros Hinv Hst. pose proof Hinv as (Hwf & Hl & Hsa & Hcov). inversion Hst; subst; cbn in *.
  - destruct (alloc_spec p len Hwf) as
      [[He _] | (p1 & d1 & rs & He & [Hwf' Hc] & (Hb & Hn & _ & _ & Hse) & Hd & _)];
      rewrite H in He; simplify_eq.
    exists (rs :: rss), res. split; [done |]. split; [| split].
    + constructor; [by eapply leases_same | by eapply leases_same_all].
    + cbn. by rewrite Hse.
    + cbn. intros pg Hpg. rewrite Hn in Hpg. specialize (Hcov pg Hpg).
      rewrite Hc in Hcov. rewrite cover_app. lia.
  - unfold alloc_await_poll, mbind, M_bind in H.
    destruct (alloc_spec p len Hwf) as [[He _] | (p1 & d1 & rs & He & _)]; rewrite He in H; [| done].
    unfold get, modify, mret, M_ret in H. injection H as <-. by exists rss, res.
  - apply Forall2_app_cons_l in Hl as (k1 & rs & k2 & -> & Hk1 & Hd & Hk2).
    pose proof Hd as (Ho & _ & _ & _ & Hrs).
    unfold SlotData_drop, mbind, M_bind in H. rewrite Ho in H.
    destruct (free_segs_spec p d rs) as (p1 & He & [_ Hc] & (Hb & Hn & _ & _ & Hse) & Hwf1 & _); try done.
    { by eapply (live_disjoint {| ps_pool := p; ps_live := l1 ++ d :: l2 |}). }
    rewrite He in H. unfold mret, M_ret in H. injection H as <- <-.
    exists (k1 ++ k2), res. split; [done |]. split; [| split].
    + cbn. apply Forall2_app; by eapply leases_same_all.
    + cbn in *. by rewrite Hse.
    + cbn. intros pg Hpg. cbn in Hn. rewrite Hn in Hpg. specialize (Hcov pg Hpg).
      rewrite concat_app in *. cbn [concat] in Hcov. rewrite !cover_app in *.
      specialize (Hc pg). lia.
  - destruct (reserve_arena_spec p len Hwf) as
      [He | (p1 & q & He & [Hwf' Hc] & Hq & _ & Hb & Hn & _ & _ & Hsome)]; rewrite H in He; simplify_eq.
    + by exists rss, res.
    + exists rss, (q :: res). split; [done |]. split; [by eapply leases_same_all |].
      split; [cbn; by rewrite Hsome |]. cbn. intros pg Hpg. rewrite Hn in Hpg. specialize (Hcov pg Hpg).
      rewrite Hc in Hcov. cbn in Hcov. lia.
  - by exists rss, res.
  - by exists rss, res.
Qed.

Lemma pool_reachable_inv s : pool_reachable s -> exists rss res, pool_inv s rss res.
Proof.
  induction 1 as [addr len p Ha Hb Hn | s s' _ (rss & res & Hi) Hst].
  - exists [], []. by eapply pool_new_inv.
  - by eapply pool_step_inv.
Qed.

(** The page ranges of two live leases never meet. *)
Lemma live_two_disjoint s rss res i j ri rj :
  pool_inv s rss res -> i <> j -> rss !! i = Some ri -> rss !! j = Some rj ->
  forall pg, 0 <= pg < npages (ps_pool s) -> cover ri pg + cover rj pg <= 1.
Proof.
  intros (_ & _ & _ & Hcov) Hne Hi Hj pg Hpg. specialize (Hcov pg Hpg).
  assert (forall l i j ri rj, i <> j -> l !! i = Some ri -> l !! j = Some rj ->
            cover ri pg + cover rj pg <= cover (concat l) pg) as Hgen.
  { assert (Hone : forall l i r, l !! i = Some r -> cover r pg <= cover (concat l) pg).
    { induction l as [|x l IH]; intros [|k] r Hr; cbn in *; simplify_eq; rewrite cover_app.
      - pose proof (cover_nonneg (concat l) pg). lia.
      - specialize (IH _ _ Hr). pose proof (cover_nonneg x pg). lia. }
    induction l as [|x l IH]; intros [|a] [|b] p q Hab Ha Hb; cbn in *; simplify_eq;
      rewrite cover_app.
    - specialize (Hone _ _ _ Hb). lia.
    - specialize (Hone _ _ _ Ha). lia.
    - pose proof (cover_nonneg x pg). specialize (IH a b _ _ ltac:(lia) Ha Hb). lia. }
  specialize (Hgen _ _ _ _ _ Hne Hi Hj). pose proof (cover_nonneg (free (ps_pool s)) pg).
  pose proof (cover_nonneg res pg). lia.
Qed.

(** ** Isolation *)

Definition in_seg (s : Seg) (x : Z) : Prop := ptr s <= x < ptr s + seg_len s.

Lemma in_run_seg b r x :
  in_seg (run_seg b r) x -> cover1 r ((x - b) / PAGE) = 1.
Proof.
  unfold in_seg, run_seg, PAGE. cbn. intros [H1 H2].
  assert (r_start r <= (x - b) / 4096 < r_end r).
  { unfold r_end. split; [apply Z.div_le_lower_bound | apply Z.div_lt_upper_bound]; lia. }
  cov.
Qed.

Lemma cover_elem r rs pg : r ∈ rs -> cover1 r pg <= cover rs pg.
Proof.
  induction rs as [|x rs IH]; [by intros ?%elem_of_nil |]. cbn.
  intros [<- | H]%elem_of_cons.
  - pose proof (cover_nonneg rs pg). lia.
  - specialize (IH H). pose proof (cover1_bounds x pg). lia.
Qed.

Lemma lease_seg p d rs s :
  leases p d rs -> s ∈ segs d -> exists r, r ∈ rs /\ s = run_seg (base p) r /\ run_in (npages p) r.
Proof.
  intros (_ & Hs & _ & _ & Hrs). rewrite Hs. intros (r & -> & Hr)%list_elem_of_fmap.
  exists r. split; [done |]. split; [done |]. rewrite Forall_forall in Hrs. apply Hrs. by apply list_elem_of_In.
Qed.

Lemma live_isolation s i j di dj si sj :
  pool_reachable s -> i <> j -> ps_live s !! i = Some di -> ps_live s !! j = Some dj ->
  si ∈ segs di -> sj ∈ segs dj ->
  (forall x, in_seg si x -> ~ in_seg sj x) /\
  (forall x, in_seg si x -> base (ps_pool s) <= x < base (ps_pool s) + npages (ps_pool s) * PAGE).
Proof.
  intros Hr Hne Hi Hj Hsi Hsj. destruct (pool_reachable_inv s Hr) as (rss & res & Hinv).
  pose proof Hinv as (Hwf & Hl & _).
  destruct (Forall2_lookup_l _ _ _ _ _ Hl Hi) as (ri & Hri & Hli).
  destruct (Forall2_lookup_l _ _ _ _ _ Hl Hj) as (rj & Hrj & Hlj).
  destruct (lease_seg _ _ _ _ Hli Hsi) as (a & Ha & -> & Hina).
  destruct (lease_seg _ _ _ _ Hlj Hsj) as (b & Hb & -> & Hinb). split.
  - intros x Hxa Hxb. apply in_run_seg in Hxa, Hxb.
    assert (Hpg : 0 <= (x - base (ps_pool s)) / PAGE < npages (ps_pool s)).
    { destruct Hina as (? & ? & ?). cov. }
    pose proof (live_two_disjoint _ _ _ _ _ _ _ Hinv Hne Hri Hrj _ Hpg).
    pose proof (cover_elem _ _ ((x - base (ps_pool s)) / PAGE) Ha).
    pose proof (cover_elem _ _ ((x - base (ps_pool s)) / PAGE) Hb). lia.
  - intros x. destruct Hina as (? & ? & ?). unfold in_seg, run_seg, r_end, PAGE in *. cbn. lia.
Qed.

(** C36.  Leases are isolated.  Whatever sequence of allocations, drops, parked
    waiters, arena reservations and registrations a queue performs on a fresh
    pool, two different live leases share no byte, and every byte of a lease
    lies inside the arena. *)
Theorem pool_isolation s i j di dj si sj :
  pool_reachable s -> i <> j -> ps_live s !! i = Some di -> ps_live s !! j = Some dj ->
  si ∈ segs di -> sj ∈ segs dj ->
  (forall x, in_seg si x -> ~ in_seg sj x) /\
  (forall x, in_seg si x -> base (ps_pool s) <= x < base (ps_pool s) + npages (ps_pool s) * PAGE).
Proof. apply live_isolation. Qed.

(**  A lease is always returned: dropping a live lease never panics, wakes
    exactly the tasks parked in [alloc_await], and makes precisely its pages
    free again (the free count grows by the length of the lease). *)
Theorem pool_drop_ok s i d :
  pool_reachable s -> ps_live s !! i = Some d ->
  exists p', SlotData_drop d (ps_pool s) = (p', Ok (waiters (ps_pool s), None)) /\
    pool_wf p' /\ waiters p' = [] /\
    pool_free_pages p' * PAGE = pool_free_pages (ps_pool s) * PAGE + sd_len d.
Proof.
  intros Hr Hi. destruct (pool_reachable_inv s Hr) as (rss & res & Hinv).
  pose proof Hinv as (Hwf & Hl & _).
  destruct (Forall2_lookup_l _ _ _ _ _ Hl Hi) as (rs & Hrs & Hd).
  pose proof Hd as (Ho & Hsg & Hlen & _ & Hin).
  rewrite <- (take_drop_middle _ _ _ Hrs) in Hinv.
  destruct (free_segs_spec (ps_pool s) d rs) as (p' & He & [_ Hc] & (_ & _ & Hw & _) & Hwf' & Hfp); try done.
  { by eapply live_disjoint. }
  exists p'. unfold SlotData_drop, mbind, M_bind. rewrite Ho, He. split; [done |].
  split; [done |]. split; [done |].
  lia.
Qed.

(**  [alloc] succeeds exactly when it should: for a request of at most MDTS
    (128 KiB, [MAX_SEGS] pages) the only reason for refusal is that fewer pages
    are free than requested, however fragmented the pool is; a refusal leaves
    the pool untouched; a granted lease is at least as long as requested and
    costs exactly the pages it holds. *)
Theorem alloc_complete p len :
  pool_wf p -> 0 <= len <= Z.of_nat MAX_SEGS * PAGE ->
  (pool_free_pages p < pages_for len /\ alloc len p = (p, Ok None)) \/
  (pages_for len <= pool_free_pages p /\
   exists p' d, alloc len p = (p', Ok (Some d)) /\ pool_wf p' /\
     len <= sd_len d /\ sd_len d = pages_for len * PAGE /\
     pool_free_pages p' = pool_free_pages p - pages_for len).
Proof.
  intros Hwf Hlen.
  assert (Hsm : pages_for len <= Z.of_nat MAX_SEGS).
  { unfold pages_for, div_ceil, MAX_SEGS, PAGE in *.
    assert ((len + 4096 - 1) / 4096 <= 32) by (apply Z.lt_succ_r, Z.div_lt_upper_bound; lia). lia. }
  destruct (alloc_spec p len Hwf) as
    [[He Hno] | (p' & d & rs & He & [Hwf' Hc] & _ & (_ & _ & Hl & _) & Ht)].
  - left. split; [lia | done].
  - right. assert (Hfp : pool_free_pages p' = pool_free_pages p - pages_for len).
    { unfold alloc, mbind, M_bind, get, lift, modify, mret, M_ret, make_lease in He.
      unfold mbind, M_bind, get, lift, modify, mret, M_ret, u32_try_from, checked in He.
      repeat (case_match; simplify_eq/=); done. }
    pose proof (chain_total _ _ _ (proj1 (proj2 (proj2 (proj2 (proj2 Hwf')))))).
    destruct Hwf' as (? & ? & ? & ? & ? & ?). split; [lia |]. exists p', d.
    split; [done |]. split; [by unfold pool_wf |]. rewrite Hl, Ht.
    split; [apply pages_for_enough; lia |]. done.
Qed.

(**  Allocating and dropping is the identity on the pool (up to the woken
    waiters): runs split by [alloc], scattered or not, coalesce back to the very
    same free list, so a queue's traffic never fragments an idle pool. *)
Theorem alloc_drop_restores p len p' d :
  pool_wf p -> alloc len p = (p', Ok (Some d)) ->
  SlotData_drop d p' = (set_waiters [] p, Ok (waiters p, None)).
Proof.
  intros Hwf Ha. destruct (alloc_spec p len Hwf) as
    [[He _] | (p1 & d1 & rs & He & [Hwf1 Hc] & (Hb & Hn & Hw & Hbi & Hsa) & Hd & _)];
    rewrite Ha in He; simplify_eq.
  pose proof Hd as (Ho & _). assert (Hd1 : leases p1 d1 rs) by (by eapply leases_same).
  assert (Hdis : forall pg, cover (free p1) pg + cover rs pg <= 1).
  { intros pg. rewrite <- Hc. eapply chain_cover_le1, Hwf. }
  destruct (free_segs_spec p1 d1 rs Hwf1 Hd1 Hdis) as
    (p2 & Hf & [_ Hc2] & (Hb2 & Hn2 & Hw2 & Hbi2 & Hsa2) & Hwf2 & _).
  unfold SlotData_drop, mbind, M_bind. rewrite Ho, Hf, Hw. unfold mret, M_ret. f_equal.
  cbn in *. assert (free p2 = free p) as Hfree.
  { destruct Hwf as (_ & _ & _ & _ & Hx & _), Hwf2 as (_ & _ & _ & _ & Hy & _).
    rewrite Hn2, Hn in Hy. apply (chain_ext 0 _ _ (npages p)); [done.. |].
    intros pg. by rewrite Hc2, Hc. }
  assert (pool_free_pages p2 = pool_free_pages p).
  { destruct Hwf as (_ & _ & _ & _ & _ & ->), Hwf2 as (_ & _ & _ & _ & _ & ->). by rewrite Hfree. }
  destruct p2, p. unfold set_waiters. cbn in *. f_equal; congruence.
Qed.

(** A pool all of whose pages are free has the single full run. *)
Lemma all_free p :
  pool_wf p -> (forall pg, 0 <= pg < npages p -> cover (free p) pg = 1) ->
  free p = [{| r_start := 0; r_len := npages p |}] /\ pool_free_pages p = npages p.
Proof.
  intros (H1 & H2 & H3 & H4 & H5 & H6) Hcov.
  assert (free p = [{| r_start := 0; r_len := npages p |}]) as Hf.
  { apply (chain_ext 0 _ _ (npages p));
      [done | cbn; unfold r_end; cbn; split_and!; lia || done |].
    intros pg. destruct (decide (0 <= pg < npages p)) as [Hpg | Hpg].
    - specialize (Hcov pg Hpg). cbn in *. cov.
    - destruct (decide (pg < 0)).
      + rewrite (cover_below _ _ _ _ H5) by lia. cbn. cov.
      + rewrite (cover_above _ _ _ _ H5) by lia. cbn. cov. }
  split; [done |]. rewrite H6, Hf. cbn. lia.
Qed.

(**  No page is ever lost: when a queue has dropped every lease and never
    reserved a send arena, the free list is again the single run covering the
    whole pool, whatever the history. *)
Theorem pool_drained s :
  pool_reachable s -> ps_live s = [] -> send_arena (ps_pool s) = None ->
  free (ps_pool s) = [{| r_start := 0; r_len := npages (ps_pool s) |}] /\
  pool_free_pages (ps_pool s) = npages (ps_pool s).
Proof.
  intros Hr Hl Hsa. destruct (pool_reachable_inv s Hr) as (rss & res & Hwf & HL & Hres & Hcov).
  rewrite Hl in HL. apply Forall2_nil_inv_l in HL as ->. rewrite (Hres Hsa) in Hcov.
  apply all_free; [done |]. intros pg Hpg. specialize (Hcov pg Hpg). cbn in Hcov. lia.
Qed.
