(* ===== verification/PoolData.v ===== *)
(** * [SlotData::write_at] and [for_each_seg]: a scattered buffer is one byte array

    The logical contents of a lease are the concatenation of its segments
    ([flat]).  [write_at] is an in-place array update of it and [for_each_seg]
    visits exactly the bytes of a range of it, whatever the segmentation; the
    segments of a lease do not overlap ([live_segs_ok]). *)

From S2P Require Import Prelude Pool PoolProofs PoolSafety.

Definition flat (m : mem) (l : list Seg) : bytes :=
  concat (map (fun s => mem_read m (ptr s) (seg_len s)) l).

Fixpoint seg_total (l : list Seg) : Z :=
  match l with [] => 0 | s :: l => seg_len s + seg_total l end.

(** Segments of non-negative length, no two of which share a byte. *)
Fixpoint segs_ok (l : list Seg) : Prop :=
  match l with
  | [] => True
  | s :: l => 0 <= seg_len s /\ Forall (fun s' => forall x, in_seg s x -> ~ in_seg s' x) l /\ segs_ok l
  end.

Lemma mem_read_length m a n : 0 <= n -> Z.of_nat (length (mem_read m a n)) = n.
Proof. intros. unfold mem_read. rewrite length_map, length_seqZ. lia. Qed.

Lemma mem_read_lookup m a n (i : nat) :
  Z.of_nat i < n -> mem_read m a n !! i = Some (m (a + Z.of_nat i)).
Proof.
  intros H. unfold mem_read. rewrite list_lookup_fmap, lookup_seqZ_lt by lia. cbn. do 2 f_equal.
Qed.

Lemma mem_read_ext m m' a n :
  (forall x, a <= x < a + n -> m x = m' x) -> mem_read m a n = mem_read m' a n.
Proof.
  intros H. apply list_eq. intros i. destruct (decide (Z.of_nat i < n)).
  - rewrite !mem_read_lookup by done. f_equal. apply H. lia.
  - unfold mem_read. rewrite !lookup_ge_None_2; rewrite ?length_map, ?length_seqZ; lia || done.
Qed.

Lemma mem_read_split m a n k :
  0 <= k <= n -> mem_read m a n = mem_read m a k ++ mem_read m (a + k) (n - k).
Proof.
  intros H. unfold mem_read. replace n with (k + (n - k)) at 1 by lia.
  rewrite seqZ_app by lia. rewrite map_app. f_equal.
  apply list_eq. intros i. rewrite !list_lookup_fmap. rewrite Z.add_0_l.
  destruct (decide (Z.of_nat i < n - k)).
  - rewrite !lookup_seqZ_lt by lia. cbn. do 2 f_equal. lia.
  - rewrite !lookup_seqZ_ge by lia. done.
Qed.

Lemma mem_read_written m a bs : mem_read (mem_write m a bs) a (Z.of_nat (length bs)) = bs.
Proof.
  apply list_eq. intros i. destruct (decide (i < length bs)%nat) as [Hi | Hi].
  - rewrite mem_read_lookup by lia. unfold mem_write. rewrite decide_True by lia.
    replace (Z.to_nat (a + Z.of_nat i - a)) with i by lia.
    destruct (lookup_lt_is_Some_2 bs i Hi) as [x Hx]. rewrite Hx. f_equal.
    by apply nth_lookup_Some.
  - rewrite !lookup_ge_None_2; [done | lia |]. unfold mem_read. rewrite length_map, length_seqZ. lia.
Qed.

Lemma mem_write_outside m a bs x : ~ (a <= x < a + Z.of_nat (length bs)) -> mem_write m a bs x = m x.
Proof. intros. unfold mem_write. by rewrite decide_False. Qed.

(** Updating the middle of one segment. *)
Lemma mem_read_write_mid m a n off bs :
  0 <= off -> off + Z.of_nat (length bs) <= n ->
  mem_read (mem_write m (a + off) bs) a n =
    take (Z.to_nat off) (mem_read m a n) ++ bs ++
    drop (Z.to_nat off + length bs) (mem_read m a n).
Proof.
  intros Ho Hn. set (k := Z.of_nat (length bs)) in *.
  rewrite (mem_read_split _ a n off) by lia.
  rewrite (mem_read_split _ (a + off) (n - off) k) by lia.
  rewrite (mem_read_ext (mem_write m (a + off) bs) m a off)
    by (intros; apply mem_write_outside; lia).
  rewrite mem_read_written.
  rewrite (mem_read_ext (mem_write m (a + off) bs) m (a + off + k))
    by (intros; apply mem_write_outside; lia).
  rewrite (mem_read_split m a n off) by lia.
  rewrite (mem_read_split m (a + off) (n - off) k) by lia.
  pose proof (mem_read_length m a off Ho). pose proof (mem_read_length m (a + off) k ltac:(lia)).
  rewrite take_app_length' by lia. do 2 f_equal.
  rewrite app_assoc, drop_app_length'; [done |]. rewrite length_app. lia.
Qed.

Lemma flat_ext m m' l :
  (forall s x, s ∈ l -> in_seg s x -> m x = m' x) -> flat m l = flat m' l.
Proof.
  induction l as [|s l IH]; intros H; [done |]. unfold flat in *. cbn [map concat]. f_equal.
  - apply mem_read_ext. intros x Hx. apply (H s); [left | done].
  - apply IH. intros s' x Hs. apply (H s'). by right.
Qed.

Lemma flat_length m l : segs_ok l -> Z.of_nat (length (flat m l)) = seg_total l.
Proof.
  induction l as [|s l IH]; [done |]. cbn. intros (H & _ & Hl). unfold flat in *.
  cbn [map concat]. rewrite length_app, Nat2Z.inj_add, mem_read_length, IH by done. done.
Qed.

Lemma seg_total_nonneg l : segs_ok l -> 0 <= seg_total l.
Proof. induction l as [|s l IH]; cbn; [lia |]. intros (? & _ & ?%IH). lia. Qed.

Lemma write_loop_spec m l off src :
  segs_ok l -> 0 <= off -> off + Z.of_nat (length src) <= seg_total l ->
  exists m', write_loop m l off src = (m', []) /\
    flat m' l = take (Z.to_nat off) (flat m l) ++ src ++ drop (Z.to_nat off + length src) (flat m l) /\
    (forall x, (forall s, s ∈ l -> ~ in_seg s x) -> m' x = m x).
Proof.
  revert m off src. induction l as [|s l IH]; intros m off src Hok Ho Hn.
  { cbn in Hn. destruct src; [| cbn in Hn; lia]. exists m. split; [done |]. split; [| done].
    cbn. by rewrite take_nil, drop_nil. }
  destruct Hok as (Hs & Hdis & Hok). cbn [write_loop seg_total] in *.
  assert (Hfl : forall m, flat m (s :: l) = mem_read m (ptr s) (seg_len s) ++ flat m l) by done.
  pose proof (mem_read_length m (ptr s) (seg_len s) Hs) as Hrl.
  destruct (decide (src = [])) as [-> | Hne].
  { exists m. split; [done |]. split; [| done]. cbn [length app]. by rewrite Nat.add_0_r, take_drop. }
  rewrite Forall_forall in Hdis. setoid_rewrite <- list_elem_of_In in Hdis.
  destruct (seg_len s <=? off) eqn:Hle; zbool.
  - destruct (IH m (off - seg_len s) src Hok) as (m' & -> & Hf & Hfr); [lia | lia |].
    exists m'. split; [done |]. rewrite !Hfl. split.
    + rewrite Hf. rewrite (mem_read_ext m' m).
      2: { intros x Hx. apply Hfr. intros s' Hs' Hx'. by apply (Hdis s' Hs' x). }
      rewrite (take_app_ge (mem_read m _ _)), (drop_app_ge (mem_read m _ _)) by lia. rewrite <- app_assoc.
      replace (Z.to_nat off - length (mem_read m (ptr s) (seg_len s)))%nat
        with (Z.to_nat (off - seg_len s)) by lia.
      by replace (Z.to_nat off + length src - length (mem_read m (ptr s) (seg_len s)))%nat
        with (Z.to_nat (off - seg_len s) + length src)%nat by lia.
    + intros x Hx. apply Hfr. intros s' Hs'. apply Hx. by right.
  - set (n := Z.to_nat (Z.min (seg_len s - off) (Z.of_nat (length src)))).
    pose proof (seg_total_nonneg l Hok). assert (Hnl : (n <= length src)%nat) by lia.
    set (m1 := mem_write m (ptr s + off) (take n src)).
    assert (Htl : length (take n src) = n) by (rewrite length_take; lia).
    destruct (IH m1 0 (drop n src) Hok) as (m' & -> & Hf & Hfr);
      [lia | rewrite length_drop; lia |].
    assert (Hm1 : forall x, ~ in_seg s x -> m1 x = m x).
    { intros x Hx. apply mem_write_outside. unfold in_seg in Hx. rewrite Htl. lia. }
    exists m'. split; [done |]. rewrite !Hfl. split.
    + rewrite Hf. rewrite (mem_read_ext m' m1).
      2: { intros x Hx. apply Hfr. intros s' Hs' Hx'. by apply (Hdis s' Hs' x). }
      unfold m1. rewrite mem_read_write_mid by (rewrite ?Htl; lia). fold m1. rewrite Htl.
      rewrite (flat_ext m1 m).
      2: { intros s' x Hs' Hx'. apply Hm1. intros Hx. by apply (Hdis s' Hs' x). }
      change (Z.to_nat 0) with 0%nat. rewrite take_0, length_drop. cbn [app Nat.add].
      rewrite (take_app_le (mem_read m _ _)) by lia. rewrite <- !app_assoc. f_equal.
      destruct (decide (n = length src)) as [He | Hlt].
      * rewrite He, drop_all, firstn_all, Nat.sub_diag, drop_0. cbn [app].
        by rewrite drop_app_le by lia.
      * rewrite (drop_ge (mem_read m _ _)) by lia. cbn [app].
        rewrite drop_app_ge by lia. rewrite (app_assoc (take n src)), take_drop.
        do 2 f_equal. lia.
    + intros x Hx. rewrite Hfr by (intros s' Hs'; apply Hx; by right). apply Hm1, Hx. left.
Qed.

Lemma each_loop_spec m l off len :
  segs_ok l -> 0 <= off -> 0 <= len -> off + len <= seg_total l ->
  exists chunks, each_loop m l off len = (chunks, 0) /\
    concat chunks = take (Z.to_nat len) (drop (Z.to_nat off) (flat m l)).
Proof.
  revert off len. induction l as [|s l IH]; intros off len Hok Ho Hn Hle.
  { cbn in *. exists []. split; [f_equal; lia |]. by rewrite drop_nil, take_nil. }
  destruct Hok as (Hs & _ & Hok). cbn [each_loop seg_total] in *.
  assert (Hfl : flat m (s :: l) = mem_read m (ptr s) (seg_len s) ++ flat m l) by done.
  pose proof (mem_read_length m (ptr s) (seg_len s) Hs) as Hrl. rewrite Hfl.
  destruct (len =? 0) eqn:Hz; zbool.
  { subst. exists []. split; [done |]. by rewrite take_0. }
  destruct (seg_len s <=? off) eqn:Hlo; zbool.
  - destruct (IH (off - seg_len s) len Hok) as (c & -> & Hc); [lia.. |].
    exists c. split; [done |]. rewrite Hc, drop_app_ge by lia. do 2 f_equal. lia.
  - pose proof (seg_total_nonneg l Hok).
    destruct (IH 0 (len - Z.min (seg_len s - off) len) Hok) as (c & -> & Hc); [lia.. |].
    eexists. split; [done |]. cbn [concat]. rewrite Hc. change (Z.to_nat 0) with 0%nat. rewrite drop_0.
    remember (Z.min (seg_len s - off) len) as k eqn:Hkd.
    rewrite (mem_read_split m (ptr s) (seg_len s) off) by lia.
    rewrite (mem_read_split m (ptr s + off) (seg_len s - off) k) by lia.
    pose proof (mem_read_length m (ptr s) off Ho).
    pose proof (mem_read_length m (ptr s + off) k ltac:(lia)).
    rewrite <- app_assoc, drop_app_length' by lia. rewrite <- app_assoc.
    rewrite take_app_ge by lia. f_equal.
    destruct (decide (k = len)) as [Hk | Hk].
    + rewrite Hk in *. rewrite Z.sub_diag. replace (Z.to_nat len - _)%nat with 0%nat by lia.
      change (Z.to_nat 0) with 0%nat. by rewrite !take_0.
    + assert (k = seg_len s - off) as Hk' by lia.
      rewrite Hk' in *. rewrite Z.sub_diag.
      change (mem_read m (ptr s + off + (seg_len s - off)) 0 ++ flat m l) with (flat m l).
      f_equal. lia.
Qed.

(** ** The segments of a lease *)

Lemma runs_segs_ok b rs n :
  Forall (run_in n) rs -> (forall pg, cover rs pg <= 1) ->
  segs_ok (map (run_seg b) rs) /\ seg_total (map (run_seg b) rs) = total rs * PAGE.
Proof.
  intros Hrs. induction Hrs as [|r rs (H1 & H2 & H3) Hrs IH]; intros Hc; [done |].
  destruct IH as [IH1 IH2].
  { intros pg. specialize (Hc pg). cbn in Hc. pose proof (cover1_bounds r pg). lia. }
  cbn. split; [| unfold PAGE in *; lia]. split; [unfold PAGE; lia |]. split; [| done].
  apply Forall_forall. intros s Hs. apply list_elem_of_In in Hs.
  apply list_elem_of_fmap in Hs as (r' & -> & Hr').
  intros x Hx Hx'. apply in_run_seg in Hx, Hx'. specialize (Hc ((x - b) / PAGE)). cbn in Hc.
  pose proof (cover_elem r' rs ((x - b) / PAGE) Hr'). lia.
Qed.

Lemma live_segs_ok s i d :
  pool_reachable s -> ps_live s !! i = Some d ->
  segs_ok (segs d) /\ seg_total (segs d) = sd_len d.
Proof.
  intros Hr Hi. destruct (pool_reachable_inv s Hr) as (rss & res & Hinv).
  pose proof Hinv as (Hwf & Hl & _).
  destruct (Forall2_lookup_l _ _ _ _ _ Hl Hi) as (rs & Hrs & Hd).
  pose proof Hd as (_ & Hsg & Hlen & _ & Hin). rewrite Hsg, Hlen.
  eapply runs_segs_ok; [done |]. intros pg.
  rewrite <- (take_drop_middle _ _ _ Hrs) in Hinv.
  pose proof (live_disjoint _ _ _ _ _ Hinv Hin pg).
  pose proof (cover_nonneg (free (ps_pool s)) pg). lia.
Qed.

(**  The data path is faithful on any lease, scattered or not: in every
    state a queue can reach, writing [src] at [off] within the lease succeeds,
    reading the same range back segment by segment yields exactly [src], the
    rest of the lease is unchanged, and so is every other live lease. *)
Theorem slot_data_roundtrip s i d off src m :
  pool_reachable s -> ps_live s !! i = Some d ->
  0 <= off -> off + Z.of_nat (length src) <= sd_len d ->
  exists m' chunks,
    write_at (E := never) d off src m = Ok m' /\
    for_each_seg (E := never) d off (Z.of_nat (length src)) m' = Ok chunks /\ concat chunks = src /\
    flat m' (segs d) = take (Z.to_nat off) (flat m (segs d)) ++ src ++
                       drop (Z.to_nat off + length src) (flat m (segs d)) /\
    forall j dj, j <> i -> ps_live s !! j = Some dj -> flat m' (segs dj) = flat m (segs dj).
Proof.
  intros Hr Hi Ho Hn. destruct (live_segs_ok s i d Hr Hi) as [Hok Htot].
  destruct (write_loop_spec m (segs d) off src) as (m' & Hw & Hf & Hfr); [done.. | lia |].
  destruct (each_loop_spec m' (segs d) off (Z.of_nat (length src))) as (ch & He & Hc); [done | lia.. |].
  exists m', ch. unfold write_at, for_each_seg. rewrite Hw, He.
  split; [done |]. split; [done |]. split; [| split; [done |]].
  - rewrite Hc, Hf, Nat2Z.id. pose proof (flat_length m (segs d) Hok).
    rewrite drop_app_length' by (rewrite length_take; lia). by rewrite take_app_length.
  - intros j dj Hj Hdj. symmetry. apply flat_ext. intros sg x Hsg Hx. symmetry. apply Hfr.
    intros sg' Hsg' Hx'.
    destruct (live_isolation s j i dj d sg sg' Hr Hj Hdj Hi Hsg Hsg') as [Hd _].
    by apply (Hd x).
Qed.

(** ** A fragmented pool, executed *)

(** Four pages; leases of pages 0 and 2 dropped; then a two-page lease, which
    must be scattered over them. *)
Definition frag_pool : BufPool := Eval vm_compute in
  match BufPool_new (E := never) 0x100000 (4 * PAGE) with Ok p => p | _ => set_free [] (Build_BufPool 0 0 [] 0 [] None None) end.
Definition alloc_run (len : Z) (p : BufPool) : BufPool * SlotData :=
  match alloc len p with (p', Ok (Some d)) => (p', d) | (p', _) => (p', SlotData_empty) end.
Definition frag_a := Eval vm_compute in alloc_run PAGE frag_pool.
Definition frag_b := Eval vm_compute in alloc_run PAGE frag_a.1.
Definition frag_c := Eval vm_compute in alloc_run PAGE frag_b.1.
Definition frag_d := Eval vm_compute in alloc_run PAGE frag_c.1.
Definition frag_e := Eval vm_compute in (SlotData_drop frag_a.2 frag_d.1).1.
Definition frag_f := Eval vm_compute in (SlotData_drop frag_c.2 frag_e).1.
Definition frag_g := Eval vm_compute in alloc_run (2 * PAGE) frag_f.
Definition frag_sys : pool_sys :=
  {| ps_pool := frag_g.1; ps_live := [frag_g.2; frag_d.2; frag_b.2] |}.

Example frag_scattered : segs frag_g.2 =
  [{| ptr := 0x100000; seg_len := 4096 |}; {| ptr := 0x102000; seg_len := 4096 |}].
Proof. reflexivity. Qed.

Lemma frag_reachable : pool_reachable frag_sys.
Proof.
  unfold frag_sys.
  apply (pool_next {| ps_pool := frag_f; ps_live := [frag_d.2; frag_b.2] |});
    [| by apply (step_alloc _ _ (2 * PAGE))].
  apply (pool_next {| ps_pool := frag_e; ps_live := [frag_d.2] ++ frag_c.2 :: [frag_b.2] |});
    [| by eapply (step_drop _ [frag_d.2] frag_c.2 [frag_b.2])].
  apply (pool_next {| ps_pool := frag_d.1;
                      ps_live := [frag_d.2; frag_c.2; frag_b.2] ++ frag_a.2 :: [] |});
    [| by eapply (step_drop _ [frag_d.2; frag_c.2; frag_b.2] frag_a.2 [])].
  apply (pool_next {| ps_pool := frag_c.1; ps_live := [frag_c.2; frag_b.2; frag_a.2] |});
    [| by apply (step_alloc _ _ PAGE)].
  apply (pool_next {| ps_pool := frag_b.1; ps_live := [frag_b.2; frag_a.2] |});
    [| by apply (step_alloc _ _ PAGE)].
  apply (pool_next {| ps_pool := frag_a.1; ps_live := [frag_a.2] |});
    [| by apply (step_alloc _ _ PAGE)].
  apply (pool_next {| ps_pool := frag_pool; ps_live := [] |}); [| by apply (step_alloc _ _ PAGE)].
  by apply (pool_init 0x100000 (4 * PAGE)).
Qed.

Lemma frag_wf : pool_wf frag_f.
Proof. unfold pool_wf, in_u. cbn. unfold r_end, PAGE. cbn. lia. Qed.

Lemma pool_isolation_witness :
  (forall x, in_seg {| ptr := 0x102000; seg_len := 4096 |} x ->
             ~ in_seg {| ptr := 0x101000; seg_len := 4096 |} x) /\
  (forall x, in_seg {| ptr := 0x102000; seg_len := 4096 |} x ->
             base (ps_pool frag_sys) <= x < base (ps_pool frag_sys) + npages (ps_pool frag_sys) * PAGE).
Proof.
  apply (pool_isolation frag_sys 0 2 frag_g.2 frag_b.2 _ _ frag_reachable);
    [lia | reflexivity.. | |].
  - right. left.
  - left.
Defined.

Lemma pool_drop_ok_witness :
  exists p', SlotData_drop frag_g.2 (ps_pool frag_sys) = (p', Ok (waiters (ps_pool frag_sys), None)) /\
    pool_wf p' /\ waiters p' = [] /\
    pool_free_pages p' * PAGE = pool_free_pages (ps_pool frag_sys) * PAGE + sd_len frag_g.2.
Proof. apply (pool_drop_ok frag_sys 0 frag_g.2 frag_reachable). reflexivity. Defined.

Lemma alloc_complete_witness :
  (pool_free_pages frag_f < pages_for 8192 /\ alloc 8192 frag_f = (frag_f, Ok None)) \/
  (pages_for 8192 <= pool_free_pages frag_f /\
   exists p' d, alloc 8192 frag_f = (p', Ok (Some d)) /\ pool_wf p' /\
     8192 <= sd_len d /\ sd_len d = pages_for 8192 * PAGE /\
     pool_free_pages p' = pool_free_pages frag_f - pages_for 8192).
Proof. apply (alloc_complete frag_f 8192 frag_wf). unfold PAGE, MAX_SEGS. lia. Defined.

Lemma alloc_drop_restores_witness :
  SlotData_drop frag_g.2 frag_g.1 = (set_waiters [] frag_f, Ok (waiters frag_f, None)).
Proof. apply (alloc_drop_restores frag_f 8192 frag_g.1 frag_g.2 frag_wf). reflexivity. Defined.

(** One page leased and dropped. *)
Definition drained_sys : pool_sys := {| ps_pool := (SlotData_drop frag_a.2 frag_a.1).1; ps_live := [] |}.

Lemma drained_reachable : pool_reachable drained_sys.
Proof.
  apply (pool_next {| ps_pool := frag_a.1; ps_live := [] ++ frag_a.2 :: [] |});
    [| by eapply (step_drop _ [] frag_a.2 [])].
  apply (pool_next {| ps_pool := frag_pool; ps_live := [] |}); [| by apply (step_alloc _ _ PAGE)].
  by apply (pool_init 0x100000 (4 * PAGE)).
Qed.

Lemma pool_drained_witness :
  free (ps_pool drained_sys) = [{| r_start := 0; r_len := npages (ps_pool drained_sys) |}] /\
  pool_free_pages (ps_pool drained_sys) = npages (ps_pool drained_sys).
Proof. apply (pool_drained drained_sys drained_reachable); reflexivity. Defined.

(** Three bytes written across the seam of the scattered lease. *)
Lemma slot_data_roundtrip_witness :
  exists m' chunks,
    write_at (E := never) frag_g.2 4095 [Byte.x01; Byte.x02; Byte.x03] (fun _ => Byte.x00) = Ok m' /\
    for_each_seg (E := never) frag_g.2 4095 3 m' = Ok chunks /\
    concat chunks = [Byte.x01; Byte.x02; Byte.x03] /\
    flat m' (segs frag_g.2) =
      take 4095 (flat (fun _ => Byte.x00) (segs frag_g.2)) ++ [Byte.x01; Byte.x02; Byte.x03] ++
      drop (4095 + 3) (flat (fun _ => Byte.x00) (segs frag_g.2)) /\
    forall j dj, j <> 0%nat -> ps_live frag_sys !! j = Some dj ->
      flat m' (segs dj) = flat (fun _ => Byte.x00) (segs dj).
Proof.
  apply (slot_data_roundtrip frag_sys 0 frag_g.2 4095 [Byte.x01; Byte.x02; Byte.x03]
           (fun _ => Byte.x00) frag_reachable); [reflexivity | lia | cbn; lia].
Defined.
