(* ===== verification/SlotQ.v ===== *)
(** * [ioutgt-core/src/slotq.rs], [queue.rs]: command slots, send list, queue core

    The slot array owns the preallocated slots, the stack of free tags, the
    executing counter and the page pool.  A waker is an identifier; what an
    operation wakes (and the receive-ring buffers it gives back) is appended to
    the state's [events], so that theorems can speak about wake-ups.  Polls of
    the [async] methods are functions returning [Some] for [Poll::Ready]. *)

From S2P Require Import Prelude Pool.

Inductive SlotState := Free | Receiving | Ready | Executing | Responding.

#[export] Instance SlotState_eq_dec : EqDecision SlotState.
Proof. solve_decision. Defined.

(** What happens outside the state: a task is woken, a ring buffer released. *)
Inductive Event := Wake (w : nat) | ReleaseRing (bid : Z).

Section SlotQ.
(** The per-slot command type [C: Copy]. *)
Context {C : Type}.

Record Slot := {
  state : SlotState;
  cmd : C;
  waker : option nat;
  data : SlotData;
  data_len : Z;
  recv_offset : Z;
}.

Definition Slot_new (init : C) : Slot :=
  {| state := Free; cmd := init; waker := None; data := SlotData_empty;
     data_len := 0; recv_offset := 0 |}.

Definition with_state (x : SlotState) (s : Slot) : Slot :=
  {| state := x; cmd := cmd s; waker := waker s; data := data s;
     data_len := data_len s; recv_offset := recv_offset s |}.
Definition with_cmd (x : C) (s : Slot) : Slot :=
  {| state := state s; cmd := x; waker := waker s; data := data s;
     data_len := data_len s; recv_offset := recv_offset s |}.
Definition with_waker (x : option nat) (s : Slot) : Slot :=
  {| state := state s; cmd := cmd s; waker := x; data := data s;
     data_len := data_len s; recv_offset := recv_offset s |}.
Definition with_data (x : SlotData) (s : Slot) : Slot :=
  {| state := state s; cmd := cmd s; waker := waker s; data := x;
     data_len := data_len s; recv_offset := recv_offset s |}.
Definition with_data_len (x : Z) (s : Slot) : Slot :=
  {| state := state s; cmd := cmd s; waker := waker s; data := data s;
     data_len := x; recv_offset := recv_offset s |}.
Definition with_recv_offset (x : Z) (s : Slot) : Slot :=
  {| state := state s; cmd := cmd s; waker := waker s; data := data s;
     data_len := data_len s; recv_offset := x |}.

(** [free_tags] lists the stack of free tags, its top first. *)
Record SlotArray := {
  nslots : Z;
  slots : list Slot;
  free_tags : list Z;
  executing : Z;
  tag_waiter : option nat;
  pool : BufPool;
  events : list Event;
}.

Definition upd_slots (f : list Slot -> list Slot) (a : SlotArray) : SlotArray :=
  {| nslots := nslots a; slots := f (slots a); free_tags := free_tags a; executing := executing a;
     tag_waiter := tag_waiter a; pool := pool a; events := events a |}.
Definition upd_free_tags (f : list Z -> list Z) (a : SlotArray) : SlotArray :=
  {| nslots := nslots a; slots := slots a; free_tags := f (free_tags a); executing := executing a;
     tag_waiter := tag_waiter a; pool := pool a; events := events a |}.
Definition set_executing (n : Z) (a : SlotArray) : SlotArray :=
  {| nslots := nslots a; slots := slots a; free_tags := free_tags a; executing := n;
     tag_waiter := tag_waiter a; pool := pool a; events := events a |}.
Definition set_tag_waiter (w : option nat) (a : SlotArray) : SlotArray :=
  {| nslots := nslots a; slots := slots a; free_tags := free_tags a; executing := executing a;
     tag_waiter := w; pool := pool a; events := events a |}.
Definition set_pool (p : BufPool) (a : SlotArray) : SlotArray :=
  {| nslots := nslots a; slots := slots a; free_tags := free_tags a; executing := executing a;
     tag_waiter := tag_waiter a; pool := p; events := events a |}.
Definition emit (e : list Event) (a : SlotArray) : SlotArray :=
  {| nslots := nslots a; slots := slots a; free_tags := free_tags a; executing := executing a;
     tag_waiter := tag_waiter a; pool := pool a; events := events a ++ e |}.

Abbreviation MA := (M SlotArray never).

(** [waker.take()], waking it. *)
Definition wake (w : option nat) : list Event := match w with Some w => [Wake w] | None => [] end.

(** An operation of the pool. *)
Definition on_pool {A} (m : M BufPool never A) : MA A := fun a =>
  let '(p, r) := m (pool a) in (set_pool p a, r).

(** [&self.slots[usize::from(tag)]]: panics out of range. *)
Definition slot (tag : Z) : MA Slot :=
  a ← get;
  lift (expect (slots a !! Z.to_nat tag)).

(** A [Cell] of the slot is set. *)
Definition set_slot (tag : Z) (f : Slot -> Slot) : MA unit :=
  modify (upd_slots (alter f (Z.to_nat tag))).

Definition debug_assert_state (tag : Z) (x : SlotState) : MA unit :=
  s ← slot tag;
  lift (assert (bool_decide (state s = x))).

(** [SlotArray::new]; [addr] is the address of the pool's slab. *)
Definition SlotArray_new {E} (n addr pool_bytes : Z) (init : C) : res E SlotArray :=
  p ← BufPool_new addr pool_bytes;
  mret {| nslots := n; slots := replicate (Z.to_nat n) (Slot_new init);
          free_tags := seqZ 0 n; executing := 0; tag_waiter := None; pool := p; events := [] |}.

(** [*self.data.borrow_mut() = data]: installs the new buffer and drops the old. *)
Definition set_data (tag : Z) (d : SlotData) : MA unit :=
  s ← slot tag;
  '(woken, ring) ← on_pool (SlotData_drop (data s));
  _ ← set_slot tag (with_data d);
  modify (emit (map Wake woken ++ match ring with Some b => [ReleaseRing b] | None => [] end)).

Definition release_data (tag : Z) : MA unit := set_data tag SlotData_empty.

Definition set_data_len (tag len : Z) : MA unit := _ ← slot tag; set_slot tag (with_data_len len).
Definition set_recv_offset (tag off : Z) : MA unit := _ ← slot tag; set_slot tag (with_recv_offset off).

Definition stash_cmd (tag : Z) (c : C) : MA unit :=
  _ ← debug_assert_state tag Receiving;
  set_slot tag (with_cmd c).

(** One poll of [lease_await] by the task whose waker is [w]. *)
Definition lease_await_poll (tag len : Z) (w : nat) : MA bool :=
  d ← on_pool (alloc_await_poll w len);
  match d with
  | Some d => _ ← set_data tag d; mret true
  | None => mret false
  end.

Definition try_lease (tag len : Z) : MA bool :=
  d ← on_pool (alloc len);
  match d with
  | Some d => _ ← set_data tag d; mret true
  | None => mret false
  end.

(** [addr]: where the heap puts the private buffer, should one be needed. *)
Definition lease_or_owned (tag len addr : Z) : MA unit :=
  d ← on_pool (alloc len);
  set_data tag (match d with Some d => d | None => SlotData_owned addr (Z.max len 1) end).

Definition claim_tag : MA (option Z) :=
  a ← get;
  match free_tags a with
  | [] => mret None
  | tag :: rest =>
      _ ← modify (upd_free_tags (fun _ => rest));
      _ ← debug_assert_state tag Free;
      _ ← set_slot tag (with_state Receiving);
      _ ← set_slot tag (with_data_len 0);
      _ ← set_slot tag (with_recv_offset 0);
      mret (Some tag)
  end.

Definition await_tag_poll (w : nat) : MA (option Z) :=
  r ← claim_tag;
  match r with
  | Some tag => mret (Some tag)
  | None => _ ← modify (set_tag_waiter (Some w)); mret None
  end.

Definition submit (tag : Z) (c : C) : MA unit :=
  _ ← debug_assert_state tag Receiving;
  _ ← set_slot tag (with_cmd c);
  _ ← set_slot tag (with_state Ready);
  s ← slot tag;
  _ ← set_slot tag (with_waker None);
  modify (emit (wake (waker s))).

Definition await_command_poll (tag : Z) (w : nat) : MA (option C) :=
  s ← slot tag;
  match state s with
  | Ready =>
      _ ← set_slot tag (with_state Executing);
      a ← get;
      n ← lift (checked 16 (executing a + 1));
      _ ← modify (set_executing n);
      mret (Some (cmd s))
  | _ =>
      _ ← set_slot tag (with_waker (Some w));
      mret None
  end.

Definition begin_respond (tag : Z) : MA unit :=
  _ ← debug_assert_state tag Executing;
  _ ← set_slot tag (with_state Responding);
  a ← get;
  n ← lift (checked 16 (executing a - 1));
  modify (set_executing n).

Definition respond_receiving (tag : Z) : MA unit :=
  _ ← debug_assert_state tag Receiving;
  set_slot tag (with_state Responding).

Definition release_tag (tag : Z) : MA unit :=
  _ ← debug_assert_state tag Responding;
  _ ← release_data tag;
  _ ← set_slot tag (with_state Free);
  _ ← modify (upd_free_tags (cons tag));
  a ← get;
  _ ← modify (set_tag_waiter None);
  modify (emit (wake (tag_waiter a))).

Definition idle (a : SlotArray) : bool := Z.of_nat (length (free_tags a)) =? nslots a.

End SlotQ.

Arguments Slot : clear implicits.
Arguments SlotArray : clear implicits.

(** ** The send list *)

Section SendList.
Context {W : Type}.

Record SendList := {
  work : list W;
  sl_waker : option nat;
  closed : bool;
}.

Definition SendList_new : SendList := {| work := []; sl_waker := None; closed := false |}.

(** Each operation returns the new list, its result, and the task it wakes. *)
Definition push (w : W) (l : SendList) : SendList * option nat :=
  ({| work := work l ++ [w]; sl_waker := None; closed := closed l |}, sl_waker l).

Definition try_next (l : SendList) : SendList * option W :=
  match work l with
  | w :: rest => ({| work := rest; sl_waker := sl_waker l; closed := closed l |}, Some w)
  | [] => (l, None)
  end.

(** [Some r] is [Poll::Ready(r)]. *)
Definition poll_next (t : nat) (l : SendList) : SendList * option (option W) :=
  match work l with
  | w :: rest => ({| work := rest; sl_waker := sl_waker l; closed := closed l |}, Some (Some w))
  | [] =>
      if closed l then (l, Some None)
      else ({| work := []; sl_waker := Some t; closed := closed l |}, None)
  end.

Definition close (l : SendList) : SendList * option nat :=
  ({| work := work l; sl_waker := None; closed := true |}, sl_waker l).

End SendList.
Arguments SendList : clear implicits.

(** ** Queue core and statistics *)

(** The counters of [QueueStats]; the transport-specific provider is outside
    this crate.  [QueueStatsSnapshot] has the same fields. *)
Record QueueStats := {
  qid : Z;
  cntlid : Z;
  read_cmds : Z;
  write_cmds : Z;
  flush_cmds : Z;
  other_cmds : Z;
  read_bytes : Z;
  write_bytes : Z;
  errors : Z;
}.

Definition QueueStats_new (q : Z) : QueueStats :=
  {| qid := q; cntlid := 0; read_cmds := 0; write_cmds := 0; flush_cmds := 0; other_cmds := 0;
     read_bytes := 0; write_bytes := 0; errors := 0 |}.

Definition snapshot (s : QueueStats) : QueueStats := s.

Definition reset (s : QueueStats) : QueueStats :=
  {| qid := qid s; cntlid := cntlid s; read_cmds := 0; write_cmds := 0; flush_cmds := 0;
     other_cmds := 0; read_bytes := 0; write_bytes := 0; errors := 0 |}.

Definition absorb {E} (s o : QueueStats) : res E QueueStats :=
  r ← checked 64 (read_cmds s + read_cmds o);
  w ← checked 64 (write_cmds s + write_cmds o);
  f ← checked 64 (flush_cmds s + flush_cmds o);
  x ← checked 64 (other_cmds s + other_cmds o);
  rb ← checked 64 (read_bytes s + read_bytes o);
  wb ← checked 64 (write_bytes s + write_bytes o);
  e ← checked 64 (errors s + errors o);
  mret {| qid := qid s; cntlid := cntlid s; read_cmds := r; write_cmds := w; flush_cmds := f;
          other_cmds := x; read_bytes := rb; write_bytes := wb; errors := e |}.

(** The part of [QueueCore] beside its slots. *)
Record QueueCore := {
  sqsize : Z;
  qc_qid : Z;
  sqhd : Z;
  sqhd_disabled : bool;
  stats : QueueStats;
}.

Definition QueueCore_new (q size : Z) (dis : bool) : QueueCore :=
  {| sqsize := size; qc_qid := q; sqhd := 0; sqhd_disabled := dis; stats := QueueStats_new q |}.

Definition advance_sqhd : M QueueCore never Z :=
  q ← get;
  if sqhd_disabled q then mret 0 else
  n ← lift (checked 16 (sqhd q + 1));
  _ ← lift (assert (negb (sqsize q =? 0)));
  let next := n mod sqsize q in
  _ ← modify (fun q => {| sqsize := sqsize q; qc_qid := qc_qid q; sqhd := next;
                          sqhd_disabled := sqhd_disabled q; stats := stats q |});
  mret next.
