(* ===== verification/SlotQProofs.v ===== *)
(** * Theorems about command slots

    [array_ok] is the engine's invariant: the free stack holds exactly the tags
    of the [Free] slots, once each; the executing counter counts the
    [Executing] slots; a [Free] slot holds no buffer; leases of slots, free
    list and send arena partition the pool; and no wake-up is lost (a slot that
    is [Ready] has no parked task left unwoken, and a parked claimer implies an
    empty free stack). *)

From S2P Require Import Prelude Pool PoolProofs PoolSafety SlotQ.

Section SlotQProofs.
Context {C : Type}.
Implicit Types (a : SlotArray C) (s : Slot C).

(** The page runs a slot's buffer holds. *)
Definition slot_holds (p : BufPool) (d : SlotData) (rs : list Run) : Prop :=
  if is_pool d then leases p d rs else rs = [].

(** Slots, a buffer in hand, the send arena and the free list partition the pool. *)
Definition pool_part (p : BufPool) (ds : list SlotData) (rss : list (list Run))
    (hand res : list Run) : Prop :=
  pool_wf p /\ Forall2 (slot_holds p) ds rss /\ (send_arena p = None -> res = []) /\
  forall pg, 0 <= pg < npages p ->
    cover (free p) pg + cover (concat rss) pg + cover hand pg + cover res pg = 1.

Definition is_exec (s : Slot C) : nat := if decide (state s = Executing) then 1 else 0.
Fixpoint exec_count (l : list (Slot C)) : nat :=
  match l with [] => 0 | s :: l => is_exec s + exec_count l end.

Lemma is_exec_no s : state s <> Executing -> is_exec s = 0%nat.
Proof. intros. unfold is_exec. by rewrite decide_False. Qed.

Lemma is_exec_yes s : state s = Executing -> is_exec s = 1%nat.
Proof. intros. unfold is_exec. by rewrite decide_True. Qed.

Record array_ok (a : SlotArray C) (rss : list (list Run)) (res : list Run) : Prop := {
  ok_n : in_u 16 (nslots a) /\ Z.of_nat (length (slots a)) = nslots a;
  ok_nodup : NoDup (free_tags a);
  ok_free : forall t, t ∈ free_tags a <->
    0 <= t /\ exists s, slots a !! Z.to_nat t = Some s /\ state s = Free;
  ok_exec : executing a = Z.of_nat (exec_count (slots a));
  ok_ready : forall i s, slots a !! i = Some s -> state s = Ready -> waker s = None;
  ok_tagw : tag_waiter a <> None -> free_tags a = [];
  ok_empty : forall i s, slots a !! i = Some s -> state s = Free -> owner (data s) = OEmpty;
  ok_pool : pool_part (pool a) (data <$> slots a) rss [] res;
}.

(** ** Lists *)

Lemma alter_insert_at {A} (f : A -> A) (i : nat) (l : list A) x : l !! i = Some x -> alter f i l = <[i := f x]> l.
Proof.
  intros H. apply list_eq. intros j. destruct (decide (i = j)) as [<- | Hne].
  - rewrite list_lookup_alter_eq, list_lookup_insert_eq by (by eapply lookup_lt_Some). by rewrite H.
  - by rewrite list_lookup_alter_ne, list_lookup_insert_ne.
Qed.

Lemma alter_insert_eq {A} (f : A -> A) (i : nat) (l : list A) x :
  (i < length l)%nat -> alter f i (<[i := x]> l) = <[i := f x]> l.
Proof.
  intros H. rewrite (alter_insert_at f i _ x) by (by apply list_lookup_insert_eq).
  apply list_insert_insert_eq.
Qed.

Lemma exec_count_le l : (exec_count l <= length l)%nat.
Proof. induction l; cbn; [lia |]. unfold is_exec. case_decide; lia. Qed.

Lemma exec_count_insert i l s s' :
  l !! i = Some s -> (exec_count (<[i := s']> l) + is_exec s = exec_count l + is_exec s')%nat.
Proof.
  revert i. induction l as [|x l IH]; intros [|i] H; cbn in *; simplify_eq; [lia |].
  specialize (IH _ H). unfold insert in *. lia.
Qed.

Lemma exec_count_pos i l s : l !! i = Some s -> state s = Executing -> (1 <= exec_count l)%nat.
Proof.
  intros H Hs. pose proof (exec_count_insert i l s (with_state Free s) H) as He.
  revert He. unfold is_exec at 1. rewrite decide_True by done.
  unfold is_exec. rewrite decide_False by done. lia.
Qed.

Lemma cover_concat_insert i rss rs rs' pg :
  rss !! i = Some rs ->
  cover (concat (<[i := rs']> rss)) pg + cover rs pg = cover (concat rss) pg + cover rs' pg.
Proof.
  revert i. induction rss as [|x l IH]; intros [|i] H; cbn in *; simplify_eq; rewrite !cover_app.
  - lia.
  - specialize (IH _ H). unfold insert in *. lia.
Qed.

(** ** Buffers and the pool *)

Lemma slot_holds_same p p' d rs :
  base p' = base p -> npages p' = npages p -> slot_holds p d rs -> slot_holds p' d rs.
Proof. unfold slot_holds. case_match; [| done]. apply leases_same. Qed.

Lemma holds_same_all p p' ds rss :
  base p' = base p -> npages p' = npages p ->
  Forall2 (slot_holds p) ds rss -> Forall2 (slot_holds p') ds rss.
Proof. intros Hb Hn H. eapply Forall2_impl; [| exact H]. intros. by eapply (slot_holds_same p p'). Qed.

Lemma alloc_part p ds rss res len :
  pool_part p ds rss [] res ->
  alloc len p = (p, Ok None) \/
  exists p' d rs, alloc len p = (p', Ok (Some d)) /\ is_pool d = true /\ leases p' d rs /\
    pool_part p' ds rss rs res /\ waiters p' = waiters p.
Proof.
  intros (Hwf & Hl & Hsa & Hcov).
  destruct (alloc_spec p len Hwf) as
    [[He _] | (p' & d & rs & He & [Hwf' Hc] & (Hb & Hn & Hw & _ & Hse) & Hd & _)];
    [by left | right].
  exists p', d, rs. split; [done |]. pose proof Hd as (Ho & _).
  split; [unfold is_pool; by rewrite Ho |]. split; [by eapply leases_same |]. split; [| done].
  split; [done |]. split; [by eapply holds_same_all |]. split; [by rewrite Hse |].
  intros pg Hpg. rewrite Hn in Hpg. specialize (Hcov pg Hpg). rewrite Hc in Hcov. cbn in Hcov. lia.
Qed.

(** Dropping a slot's buffer frees its runs. *)
Lemma drop_part p ds rss hand res i d rs d' :
  pool_part p ds rss hand res -> ds !! i = Some d -> rss !! i = Some rs ->
  slot_holds p d' hand ->
  exists p' w, SlotData_drop d p = (p', Ok w) /\
    pool_part p' (<[i := d']> ds) (<[i := hand]> rss) [] res.
Proof.
  intros (Hwf & Hl & Hsa & Hcov) Hi Hr Hd'.
  pose proof (Forall2_lookup_lr _ _ _ _ _ _ Hl Hi Hr) as Hd.
  unfold SlotData_drop, slot_holds, is_pool in *.
  assert (Hother : forall p', base p' = base p -> npages p' = npages p ->
            Forall2 (slot_holds p') (<[i := d']> ds) (<[i := hand]> rss)).
  { intros p' Hb Hn. apply Forall2_insert; [by eapply holds_same_all |].
    eapply slot_holds_same; [done | done |]. unfold slot_holds, is_pool. exact Hd'. }
  assert (Hstay : rs = [] ->
    pool_part p (<[i := d']> ds) (<[i := hand]> rss) [] res).
  { intros ->. split; [done |]. split; [by apply Hother |]. split; [done |].
    intros pg Hpg. specialize (Hcov pg Hpg).
    pose proof (cover_concat_insert i rss [] hand pg Hr). cbn in *. lia. }
  destruct (owner d) eqn:Ho; [eexists _, _; split; [done | by apply Hstay].. | |
                              eexists _, _; split; [done | by apply Hstay]].
  destruct (free_segs_spec p d rs) as (p' & He & [_ Hc] & (Hb & Hn & _ & _ & Hse) & Hwf' & _); [done.. | |].
  { intros pg. destruct (decide (0 <= pg < npages p)) as [Hpg | Hpg].
    - specialize (Hcov pg Hpg). pose proof (cover_concat_insert i rss rs [] pg Hr) as Hci.
      cbn [cover] in Hci. pose proof (cover_nonneg (concat (<[i := []]> rss)) pg).
      pose proof (cover_nonneg hand pg). pose proof (cover_nonneg res pg). lia.
    - destruct Hd as (_ & _ & _ & _ & Hin). rewrite (cover_run_out _ _ _ Hin Hpg).
      destruct Hwf as (_ & _ & _ & _ & Hx & _). pose proof (chain_cover_le1 _ _ _ pg Hx). lia. }
  unfold mbind, M_bind. rewrite He. eexists _, _. split; [done |].
  cbn in Hb, Hn, Hse. split; [done |]. split; [by apply Hother |]. split; [by rewrite Hse |].
  intros pg Hpg. rewrite Hn in Hpg. specialize (Hcov pg Hpg). specialize (Hc pg).
  pose proof (cover_concat_insert i rss rs hand pg Hr). cbn. lia.
Qed.

(** ** Replacing one slot *)

Lemma fmap_data_insert i (l : list (Slot C)) s s' :
  l !! i = Some s -> data s' = data s -> data <$> <[i := s']> l = data <$> l.
Proof.
  intros Hi Hd. rewrite list_fmap_insert, Hd. apply list_insert_id.
  by rewrite list_lookup_fmap, Hi.
Qed.

(** The state reached when slot [i] becomes [s'], with new free stack [F],
    counter [X] and claimer [TW]. *)
Definition moved a (i : nat) s' F X TW ev : SlotArray C :=
  {| nslots := nslots a; slots := <[i := s']> (slots a); free_tags := F; executing := X;
     tag_waiter := TW; pool := pool a; events := ev |}.

Lemma slot_replace a rss res i s s' F X TW ev :
  array_ok a rss res -> slots a !! i = Some s -> data s' = data s -> NoDup F ->
  (forall t, t ∈ F <-> (t <> Z.of_nat i /\ t ∈ free_tags a) \/ (t = Z.of_nat i /\ state s' = Free)) ->
  X = executing a - Z.of_nat (is_exec s) + Z.of_nat (is_exec s') ->
  (state s' = Ready -> waker s' = None) -> (TW <> None -> F = []) ->
  (state s' = Free -> owner (data s') = OEmpty) ->
  array_ok (moved a i s' F X TW ev) rss res.
Proof.
  intros [H1 H2 H3 H4 H5 H6 H7 H8] Hi Hd HF Ht HX HR HT HE.
  pose proof (lookup_lt_Some _ _ _ Hi) as Hlt. split; cbn.
  - rewrite length_insert. done.
  - done.
  - intros t. rewrite Ht, H3. destruct (decide (Z.to_nat t = i)) as [<- | Hne].
    + rewrite list_lookup_insert_eq by done. split.
      * intros [(Hn & Ht0 & _) | (-> & Hf)]; [lia |]. split; [lia |]. eauto.
      * intros (Ht0 & s0 & [= <-] & Hf). right. split; [lia | done].
    + rewrite list_lookup_insert_ne by done. split.
      * intros [(_ & ?) | (-> & _)]; [done | lia].
      * intros (Ht0 & Hs). left. split; [lia |]. done.
  - pose proof (exec_count_insert i (slots a) s s' Hi). lia.
  - intros j x Hj. destruct (decide (i = j)) as [<- | Hne].
    + rewrite list_lookup_insert_eq in Hj by done. by simplify_eq.
    + rewrite list_lookup_insert_ne in Hj by done. by eapply H5.
  - done.
  - intros j x Hj. destruct (decide (i = j)) as [<- | Hne].
    + rewrite list_lookup_insert_eq in Hj by done. by simplify_eq.
    + rewrite list_lookup_insert_ne in Hj by done. by eapply H7.
  - by rewrite (fmap_data_insert _ _ s).
Qed.

(** A change that keeps the slot's state touches no bookkeeping. *)
Lemma slot_touch a rss res i s s' ev :
  array_ok a rss res -> slots a !! i = Some s -> data s' = data s -> state s' = state s ->
  (state s' = Ready -> waker s' = None) ->
  array_ok (moved a i s' (free_tags a) (executing a) (tag_waiter a) ev) rss res.
Proof.
  intros Hok Hi Hd Hst Hr. pose proof Hok as [H1 H2 H3 H4 H5 H6 H7 H8].
  eapply slot_replace; try done.
  - intros t. rewrite Hst. split.
    + intros Ht. destruct (decide (t = Z.of_nat i)) as [-> | ]; [right | by left].
      split; [done |]. apply H3 in Ht as (_ & x & Hx & Hf). rewrite Nat2Z.id in Hx. by simplify_eq.
    + intros [(_ & ?) | (-> & Hf)]; [done |]. apply H3. split; [lia |]. rewrite Nat2Z.id. eauto.
  - unfold is_exec. rewrite Hst. lia.
  - intros Hf. rewrite Hd. eapply H7; [done |]. by rewrite <- Hst.
Qed.

Lemma slot_in_range a rss res i s :
  array_ok a rss res -> slots a !! i = Some s -> 0 <= Z.of_nat i < nslots a /\ in_u 16 (nslots a).
Proof. intros [[? ?] _ _ _ _ _ _ _] Hi. pose proof (lookup_lt_Some _ _ _ Hi). split; [lia | done]. Qed.

(** ** What each operation computes *)

Ltac sq_unfold :=
  unfold claim_tag, await_tag_poll, submit, await_command_poll, begin_respond, respond_receiving,
    release_tag, release_data, stash_cmd, set_data_len, set_recv_offset, set_data,
    debug_assert_state, slot, set_slot, on_pool;
  unfold mbind, M_bind, get, lift, modify, mret, M_ret, expect, assert;
  cbn [slots upd_slots upd_free_tags free_tags set_executing set_tag_waiter set_pool emit
       nslots executing tag_waiter pool events].

Lemma state_eq_true s x : state s = x -> bool_decide (state s = x) = true.
Proof. intros. by apply bool_decide_eq_true_2. Qed.

Ltac sq_slots :=
  unfold moved, upd_slots, upd_free_tags, set_executing, set_tag_waiter, set_pool, emit;
  cbn [slots free_tags nslots executing tag_waiter pool events];
  repeat match goal with
  | H : ?l !! ?i = Some ?s |- context [alter ?f ?i ?l] =>
      rewrite (alter_insert_at f i l s H)
  | H : ?l !! ?i = Some ?s |- context [alter ?f ?i (<[?i := ?x]> ?l)] =>
      rewrite (alter_insert_eq f i l x) by (by eapply lookup_lt_Some)
  | H : ?l !! ?i = Some ?s |- context [<[?i := ?x]> ?l !! ?i] =>
      rewrite (list_lookup_insert_eq l i x) by (by eapply lookup_lt_Some)
  | H : ?l !! ?i = Some _ |- context [?l !! ?i] => rewrite H
  end.

Lemma claim_tag_eq a t rest s :
  free_tags a = t :: rest -> slots a !! Z.to_nat t = Some s -> state s = Free ->
  claim_tag a = (moved a (Z.to_nat t) (with_recv_offset 0 (with_data_len 0 (with_state Receiving s)))
                   rest (executing a) (tag_waiter a) (events a), Ok (Some t)).
Proof.
  intros Hf Hs Hst. sq_unfold. rewrite Hf. cbn [slots]. rewrite Hs, (state_eq_true _ _ Hst). cbn [slots].
  by sq_slots.
Qed.

Lemma claim_tag_none a : free_tags a = [] -> claim_tag a = (a, Ok None).
Proof. intros Hf. sq_unfold. by rewrite Hf. Qed.

Lemma submit_eq a i s c :
  slots a !! i = Some s -> state s = Receiving ->
  submit (Z.of_nat i) c a =
    (moved a i (with_waker None (with_state Ready (with_cmd c s))) (free_tags a) (executing a)
       (tag_waiter a) (events a ++ wake (waker s)), Ok tt).
Proof.
  intros Hs Hst. sq_unfold. rewrite Nat2Z.id, Hs, (state_eq_true _ _ Hst). cbn [slots].
  by sq_slots.
Qed.

Lemma await_command_ready a i s w :
  slots a !! i = Some s -> state s = Ready -> in_u 16 (executing a + 1) ->
  await_command_poll (Z.of_nat i) w a =
    (moved a i (with_state Executing s) (free_tags a) (executing a + 1) (tag_waiter a) (events a),
     Ok (Some (cmd s))).
Proof.
  intros Hs Hst Hu. sq_unfold. rewrite Nat2Z.id, Hs, Hst. cbn [slots executing].
  rewrite checked_ok by done. by sq_slots.
Qed.

Lemma await_command_park a i s w :
  slots a !! i = Some s -> state s <> Ready ->
  await_command_poll (Z.of_nat i) w a =
    (moved a i (with_waker (Some w) s) (free_tags a) (executing a) (tag_waiter a) (events a), Ok None).
Proof.
  intros Hs Hst. sq_unfold. rewrite Nat2Z.id, Hs. destruct (state s); try done; by sq_slots.
Qed.

Lemma begin_respond_eq a i s :
  slots a !! i = Some s -> state s = Executing -> in_u 16 (executing a - 1) ->
  begin_respond (Z.of_nat i) a =
    (moved a i (with_state Responding s) (free_tags a) (executing a - 1) (tag_waiter a) (events a), Ok tt).
Proof.
  intros Hs Hst Hu. sq_unfold. rewrite Nat2Z.id, Hs, (state_eq_true _ _ Hst). cbn [slots executing].
  rewrite checked_ok by done. by sq_slots.
Qed.

Lemma respond_receiving_eq a i s :
  slots a !! i = Some s -> state s = Receiving ->
  respond_receiving (Z.of_nat i) a =
    (moved a i (with_state Responding s) (free_tags a) (executing a) (tag_waiter a) (events a), Ok tt).
Proof.
  intros Hs Hst. sq_unfold. rewrite Nat2Z.id, Hs, (state_eq_true _ _ Hst). cbn [slots]. by sq_slots.
Qed.

(** Replacing a slot's buffer, given what dropping the old one does. *)
Lemma set_data_eq a i s d p' woken ring :
  slots a !! i = Some s -> SlotData_drop (data s) (pool a) = (p', Ok (woken, ring)) ->
  set_data (Z.of_nat i) d a =
    (set_pool p' (moved a i (with_data d s) (free_tags a) (executing a) (tag_waiter a)
       (events a ++ (map Wake woken ++ match ring with Some b => [ReleaseRing b] | None => [] end))),
     Ok tt).
Proof.
  intros Hs Hd. sq_unfold. cbv beta iota. rewrite Nat2Z.id, Hs. cbv beta iota. rewrite Hd.
  cbv beta iota. by sq_slots.
Qed.

(** ** Every enabled operation succeeds and keeps the invariant *)

Lemma exec_range a rss res i s :
  array_ok a rss res -> slots a !! i = Some s ->
  (state s <> Executing -> in_u 16 (executing a + 1)) /\
  (state s = Executing -> in_u 16 (executing a - 1)).
Proof.
  intros [[Hn Hl] _ _ Hx _ _ _ _] Hi. rewrite Hx. unfold in_u in *.
  pose proof (exec_count_le (slots a)). split; intros Hs.
  - pose proof (exec_count_insert i (slots a) s (with_state Executing s) Hi) as He.
    revert He. unfold is_exec. rewrite decide_False by done. rewrite decide_True by done.
    pose proof (exec_count_le (<[i := with_state Executing s]> (slots a))) as Hle.
    rewrite length_insert in Hle. lia.
  - pose proof (exec_count_pos _ _ _ Hi Hs). lia.
Qed.

(** No tag of a non-free slot is on the stack. *)
Lemma busy_not_free a rss res i s :
  array_ok a rss res -> slots a !! i = Some s -> state s <> Free -> Z.of_nat i ∉ free_tags a.
Proof.
  intros [_ _ H3 _ _ _ _ _] Hi Hs Hin. apply H3 in Hin as (_ & x & Hx & Hf).
  rewrite Nat2Z.id in Hx. by simplify_eq.
Qed.

(** A slot that was busy and stays busy leaves the free stack alone. *)
Lemma slot_move a rss res i s s' X ev :
  array_ok a rss res -> slots a !! i = Some s -> data s' = data s ->
  state s <> Free -> state s' <> Free ->
  X = executing a - Z.of_nat (is_exec s) + Z.of_nat (is_exec s') ->
  (state s' = Ready -> waker s' = None) ->
  array_ok (moved a i s' (free_tags a) X (tag_waiter a) ev) rss res.
Proof.
  intros Hok Hi Hd Hs Hs' HX Hr. pose proof (busy_not_free _ _ _ _ _ Hok Hi Hs) as Hnf.
  eapply slot_replace; try done; try apply Hok.
  intros t. split.
  - intros Ht. left. split; [| done]. by intros ->.
  - intros [(_ & ?) | (_ & ?)]; done.
Qed.

Lemma claim_ok a rss res :
  array_ok a rss res ->
  (free_tags a = [] /\ claim_tag a = (a, Ok None)) \/
  exists t s a', claim_tag a = (a', Ok (Some t)) /\ array_ok a' rss res /\
    0 <= t < nslots a /\ slots a !! Z.to_nat t = Some s /\ state s = Free /\
    slots a' = <[Z.to_nat t := with_recv_offset 0 (with_data_len 0 (with_state Receiving s))]> (slots a) /\
    free_tags a = t :: free_tags a'.
Proof.
  intros Hok. pose proof Hok as [H1 H2 H3 H4 H5 H6 H7 H8].
  destruct (free_tags a) as [|t rest] eqn:Hf; [left; split; [done | by apply claim_tag_none] | right].
  assert (Hin : t ∈ free_tags a) by (rewrite Hf; left).
  rewrite Hf in Hin. apply H3 in Hin as (Ht & s & Hs & Hst).
  exists t, s. eexists. rewrite (claim_tag_eq a t rest s Hf Hs Hst). split; [done |].
  apply list.NoDup_cons in H2 as [Hnr Hnd]. split.
  - eapply slot_replace; try done.
    + intros u. rewrite Hf. split.
      * intros Hu. left. split; [| by right]. rewrite Z2Nat.id by done. by intros ->.
      * intros [(Hne & Hu) | (_ & ?)]; [| done]. apply elem_of_cons in Hu as [-> | ?]; [| done].
        rewrite Z2Nat.id in Hne by done. done.
    + rewrite !is_exec_no by (cbn; congruence). lia.
    + intros Htw. specialize (H6 Htw). done.
  - destruct (slot_in_range _ _ _ _ _ Hok Hs). split; [lia |]. done.
Qed.

(** Buffers: what installing one does to the invariant. *)
Lemma set_data_ok a rss hand res i s d p :
  array_ok a rss res -> slots a !! i = Some s -> state s <> Free ->
  pool_part p (data <$> slots a) rss hand res -> slot_holds p d hand ->
  exists a', set_data (Z.of_nat i) d (set_pool p a) = (a', Ok tt) /\
    array_ok a' (<[i := hand]> rss) res /\ slots a' = <[i := with_data d s]> (slots a) /\
    free_tags a' = free_tags a /\ executing a' = executing a /\ tag_waiter a' = tag_waiter a /\
    nslots a' = nslots a.
Proof.
  intros Hok Hi Hs Hp Hd. pose proof Hp as (_ & Hl & _).
  assert (Hdi : (data <$> slots a) !! i = Some (data s)) by (by rewrite list_lookup_fmap, Hi).
  destruct (Forall2_lookup_l _ _ _ _ _ Hl Hdi) as (rs & Hrs & _).
  destruct (drop_part p _ _ _ _ i _ rs d Hp Hdi Hrs Hd) as (p' & [woken ring] & Hdr & Hp').
  rewrite (set_data_eq (set_pool p a) i s d p' woken ring) by done.
  eexists. split; [done |]. split; [| done].
  pose proof Hok as [H1 H2 H3 H4 H5 H6 H7 H8]. split; cbn; try done.
  - by rewrite length_insert.
  - intros t. rewrite H3. destruct (decide (Z.to_nat t = i)) as [<- | Hne].
    + rewrite list_lookup_insert_eq by (by eapply lookup_lt_Some).
      split; intros (? & x & Hx & Hf); (split; [done |]); simplify_eq; done.
    + by rewrite list_lookup_insert_ne.
  - rewrite H4. pose proof (exec_count_insert i (slots a) s (with_data d s) Hi) as He.
    unfold is_exec in He. cbn in He. lia.
  - intros j x Hj. destruct (decide (i = j)) as [<- | Hne].
    + rewrite list_lookup_insert_eq in Hj by (by eapply lookup_lt_Some). simplify_eq. cbn. by eapply H5.
    + rewrite list_lookup_insert_ne in Hj by done. by eapply H5.
  - intros j x Hj. destruct (decide (i = j)) as [<- | Hne].
    + rewrite list_lookup_insert_eq in Hj by (by eapply lookup_lt_Some). by simplify_eq.
    + rewrite list_lookup_insert_ne in Hj by done. by eapply H7.
  - by rewrite list_fmap_insert.
Qed.

End SlotQProofs.
