(* ===== verification/SlotQSafety.v ===== *)
(** * The slot engine in use

    [sq_op] is every operation the receive path, the slot tasks and the send
    path perform on a slot array; [enabled] is the slot state each of them is
    called in.  From a fresh array, any interleaving of enabled operations runs
    without a panic and keeps [array_ok]. *)

From S2P Require Import Prelude Pool PoolProofs PoolSafety SlotQ SlotQProofs.

Section System.
Context {C : Type}.
Implicit Types (a : SlotArray C) (s : Slot C).

Inductive sq_op :=
| OpClaim
| OpAwaitTag (w : nat)
| OpStash (tag : nat) (c : C)
| OpSubmit (tag : nat) (c : C)
| OpAwaitCommand (tag w : nat)
| OpBeginRespond (tag : nat)
| OpRespondReceiving (tag : nat)
| OpRelease (tag : nat)
| OpSetDataLen (tag : nat) (len : Z)
| OpSetRecvOffset (tag : nat) (off : Z)
| OpTryLease (tag : nat) (len : Z)
| OpLeaseAwait (tag : nat) (len : Z) (w : nat)
| OpLeaseOrOwned (tag : nat) (len addr : Z)
| OpInstall (tag : nat) (bid addr len : Z)
| OpReserveArena (len : Z).

Definition run_op (o : sq_op) : M (SlotArray C) never unit :=
  match o with
  | OpClaim => _ ← claim_tag; mret tt
  | OpAwaitTag w => _ ← await_tag_poll w; mret tt
  | OpStash t c => stash_cmd (Z.of_nat t) c
  | OpSubmit t c => submit (Z.of_nat t) c
  | OpAwaitCommand t w => _ ← await_command_poll (Z.of_nat t) w; mret tt
  | OpBeginRespond t => begin_respond (Z.of_nat t)
  | OpRespondReceiving t => respond_receiving (Z.of_nat t)
  | OpRelease t => release_tag (Z.of_nat t)
  | OpSetDataLen t n => set_data_len (Z.of_nat t) n
  | OpSetRecvOffset t n => set_recv_offset (Z.of_nat t) n
  | OpTryLease t n => _ ← try_lease (Z.of_nat t) n; mret tt
  | OpLeaseAwait t n w => _ ← lease_await_poll (Z.of_nat t) n w; mret tt
  | OpLeaseOrOwned t n addr => lease_or_owned (Z.of_nat t) n addr
  | OpInstall t bid addr n => set_data (Z.of_nat t) (SlotData_ring bid addr n)
  | OpReserveArena n => _ ← on_pool (reserve_arena n); mret tt
  end.

Definition slot_in a (t : nat) (P : SlotState -> Prop) : Prop :=
  exists s, slots a !! t = Some s /\ P (state s).

Definition enabled a (o : sq_op) : Prop :=
  match o with
  | OpClaim | OpAwaitTag _ | OpReserveArena _ => True
  | OpStash t _ | OpSubmit t _ | OpRespondReceiving t => slot_in a t (eq Receiving)
  | OpAwaitCommand t _ | OpSetDataLen t _ | OpSetRecvOffset t _ => slot_in a t (fun _ => True)
  | OpBeginRespond t => slot_in a t (eq Executing)
  | OpRelease t => slot_in a t (eq Responding)
  | OpTryLease t _ | OpLeaseAwait t _ _ | OpLeaseOrOwned t _ _ | OpInstall t _ _ _ =>
      slot_in a t (fun x => x <> Free)
  end.

Definition arr_ok a : Prop := exists rss res, array_ok a rss res.

Inductive sq_reachable : SlotArray C -> Prop :=
| sq_init n addr bytes init a :
    in_u 16 n -> 0 <= addr -> addr + pages_for bytes * PAGE < 2 ^ 64 ->
    SlotArray_new (E := never) n addr bytes init = Ok a -> sq_reachable a
| sq_next a o a' : sq_reachable a -> enabled a o -> run_op o a = (a', Ok tt) -> sq_reachable a'.

Lemma array_new_ok n addr bytes init a :
  in_u 16 n -> 0 <= addr -> addr + pages_for bytes * PAGE < 2 ^ 64 ->
  SlotArray_new (E := never) n addr bytes init = Ok a -> arr_ok a.
Proof.
  intros Hn Ha Hb. unfold SlotArray_new.
  destruct (BufPool_new addr bytes) as [p | |] eqn:Hp; try done. intros [= <-].
  destruct (pool_new_inv addr bytes p Ha Hb Hp) as [(Hwf & _ & _ & Hcov) _].
  assert (Hrep : forall i s, replicate (Z.to_nat n) (Slot_new init) !! i = Some s -> s = Slot_new init).
  { intros i s Hs. by apply lookup_replicate in Hs as [-> _]. }
  exists (replicate (Z.to_nat n) []), []. split; cbn.
  - split; [done |]. rewrite length_replicate. unfold in_u in Hn. lia.
  - apply NoDup_seqZ.
  - intros t. rewrite elem_of_seqZ. split.
    + intros Ht. split; [lia |]. eexists. split; [apply lookup_replicate; split; [done | lia] | done].
    + intros (Ht & s & Hs & _). apply lookup_replicate in Hs as [_ Hs]. lia.
  - assert (forall k, exec_count (replicate k (Slot_new init)) = 0%nat) as Hk.
    { induction k; cbn; [done |]. by rewrite IHk. }
    by rewrite Hk.
  - intros i s Hs. by apply Hrep in Hs as ->.
  - done.
  - intros i s Hs. by apply Hrep in Hs as ->.
  - split; [done |]. split; [| split; [done |]].
    + rewrite fmap_replicate. cbn. apply Forall2_replicate. done.
    + assert (forall k pg, cover (concat (replicate k [])) pg = 0) as Hk by (induction k; done).
      cbn in *. intros pg Hpg. specialize (Hcov pg Hpg). rewrite Hk. lia.
Qed.

Lemma alloc_await_part p ds rss res w len :
  pool_part p ds rss [] res ->
  (exists p', alloc_await_poll w len p = (p', Ok None) /\ pool_part p' ds rss [] res) \/
  exists p' d rs, alloc_await_poll w len p = (p', Ok (Some d)) /\ slot_holds p' d rs /\
    pool_part p' ds rss rs res.
Proof.
  intros Hp. unfold alloc_await_poll, mbind, M_bind, get, modify, mret, M_ret.
  destruct (alloc_part p ds rss res len Hp) as [-> | (p' & d & rs & -> & Hd & Hl & Hp' & _)].
  - left. eexists. split; [done |]. destruct Hp as (? & ? & ? & ?). by split.
  - right. exists p', d, rs. split; [done |]. split; [| done]. unfold slot_holds. by rewrite Hd.
Qed.

(** A change of the pool alone. *)
Lemma set_pool_ok a rss res p :
  array_ok a rss res -> (exists res', pool_part p (data <$> slots a) rss [] res') -> arr_ok (set_pool p a).
Proof. intros [H1 H2 H3 H4 H5 H6 H7 H8] [res' Hp]. exists rss, res'. by split. Qed.

Lemma release_ok a rss res t s :
  array_ok a rss res -> slots a !! t = Some s -> state s = Responding ->
  exists a' s', release_tag (Z.of_nat t) a = (a', Ok tt) /\ arr_ok a' /\
    slots a' = <[t := s']> (slots a) /\ state s' = Free /\ owner (data s') = OEmpty /\
    free_tags a' = Z.of_nat t :: free_tags a /\ tag_waiter a' = None /\ nslots a' = nslots a.
Proof.
  intros Hok Hs Hst. pose proof Hok as [H1 H2 H3 H4 H5 H6 H7 H8].
  destruct (set_data_ok a rss [] res t s SlotData_empty (pool a)) as
    (a1 & Hsd & Hok1 & Hsl & Hft & Hex & Htw & Hns); try done; [by rewrite Hst |].
  replace (set_pool (pool a) a) with a in Hsd by (by destruct a).
  assert (Hs1 : slots a1 !! t = Some (with_data SlotData_empty s)).
  { rewrite Hsl. apply list_lookup_insert_eq. by eapply lookup_lt_Some. }
  set (s' := with_state Free (with_data SlotData_empty s)).
  assert (Hr : release_tag (Z.of_nat t) a =
    (moved a1 t s' (Z.of_nat t :: free_tags a1) (executing a1) None
       (events a1 ++ wake (tag_waiter a1)), Ok tt)).
  { unfold release_tag, debug_assert_state, release_data, slot, set_slot.
    unfold mbind, M_bind, get, lift, modify, mret, M_ret, expect, assert.
    rewrite Nat2Z.id, Hs, (state_eq_true _ _ Hst), Hsd. unfold moved, upd_slots, upd_free_tags,
      set_tag_waiter, emit. cbn [slots free_tags nslots executing tag_waiter pool events].
    by rewrite (alter_insert_at _ _ _ _ Hs1). }
  eexists _, s'. split; [exact Hr |]. split.
  - exists (<[t := []]> rss), res. eapply slot_replace; try done.
    + apply list.NoDup_cons. split; [| apply Hok1].
      rewrite Hft. eapply busy_not_free; [done.. |]. by rewrite Hst.
    + intros u. rewrite elem_of_cons. split.
      * intros [-> | Hu]; [by right |]. left. split; [| done]. intros ->. revert Hu. rewrite Hft.
        eapply busy_not_free; [done.. |]. by rewrite Hst.
      * intros [(_ & ?) | (-> & _)]; [by right | by left].
    + rewrite !is_exec_no by (cbn; congruence). lia.
  - cbn. rewrite Hsl, Hft, list_insert_insert_eq. done.
Qed.

(** Leases: allocate, then install. *)
Lemma install_ok a rss res t s d p hand :
  array_ok a rss res -> slots a !! t = Some s -> state s <> Free ->
  pool_part p (data <$> slots a) rss hand res -> slot_holds p d hand ->
  exists a', set_data (Z.of_nat t) d (set_pool p a) = (a', Ok tt) /\ arr_ok a'.
Proof.
  intros Hok Hs Hst Hp Hd.
  destruct (set_data_ok a rss hand res t s d p Hok Hs Hst Hp Hd) as (a' & He & Ho & _).
  exists a'. split; [done |]. by exists (<[t := hand]> rss), res.
Qed.

Lemma touch_ok a rss res t s f :
  array_ok a rss res -> slots a !! t = Some s -> data (f s) = data s -> state (f s) = state s ->
  waker (f s) = waker s ->
  arr_ok (upd_slots (alter f t) a).
Proof.
  intros Hok Hs Hd Hst Hw. exists rss, res.
  assert (upd_slots (alter f t) a =
    moved a t (f s) (free_tags a) (executing a) (tag_waiter a) (events a)) as ->.
  { unfold upd_slots, moved. by rewrite (alter_insert_at _ _ _ _ Hs). }
  eapply slot_touch; try done. rewrite Hst, Hw. by eapply (ok_ready _ _ _ Hok).
Qed.

Lemma lease_op_safe a rss res t s :
  array_ok a rss res -> slots a !! t = Some s -> state s <> Free ->
  (forall n, exists a', run_op (OpTryLease t n) a = (a', Ok tt) /\ arr_ok a') /\
  (forall n w, exists a', run_op (OpLeaseAwait t n w) a = (a', Ok tt) /\ arr_ok a') /\
  (forall n addr, exists a', run_op (OpLeaseOrOwned t n addr) a = (a', Ok tt) /\ arr_ok a').
Proof.
  intros Hok Hs Hst. pose proof (ok_pool _ _ _ Hok) as Hp. split; [| split].
  - intros n. cbn. unfold try_lease, on_pool, mbind, M_bind, mret, M_ret.
    destruct (alloc_part _ _ _ _ n Hp) as [-> | (p' & d & rs & -> & Hd & Hl & Hp' & _)].
    + eexists. split; [done |]. eapply set_pool_ok; eauto.
    + destruct (install_ok a rss res t s d p' rs) as (a' & -> & Ho); try done; [| eauto].
      unfold slot_holds. by rewrite Hd.
  - intros n w. cbn. unfold lease_await_poll, on_pool, mbind, M_bind, mret, M_ret.
    destruct (alloc_await_part _ _ _ _ w n Hp) as [(p' & -> & Hp') | (p' & d & rs & -> & Hd & Hp')].
    + eexists. split; [done |]. eapply set_pool_ok; eauto.
    + destruct (install_ok a rss res t s d p' rs) as (a' & -> & Ho); try done. eauto.
  - intros n addr. cbn. unfold lease_or_owned, on_pool, mbind, M_bind, mret, M_ret.
    destruct (alloc_part _ _ _ _ n Hp) as [-> | (p' & d & rs & -> & Hd & Hl & Hp' & _)].
    + by apply (install_ok a rss res t s _ (pool a) []).
    + apply (install_ok a rss res t s _ p' rs); try done. unfold slot_holds. by rewrite Hd.
Qed.

Lemma op_safe a o :
  arr_ok a -> enabled a o -> exists a', run_op o a = (a', Ok tt) /\ arr_ok a'.
Proof.
  intros (rss & res & Hok) Hen.
  destruct o; cbn [enabled] in Hen; try destruct Hen as (s & Hs & Hst);
    try (destruct (lease_op_safe a rss res tag s Hok Hs Hst) as (L1 & L2 & L3); by eauto).
  - cbn. unfold mbind, M_bind, mret, M_ret.
    destruct (claim_ok _ _ _ Hok) as [[_ ->] | (t & s & a' & -> & Ho & _)];
      eexists; (split; [done |]); by exists rss, res.
  - cbn. unfold await_tag_poll, modify, mbind, M_bind, mret, M_ret.
    destruct (claim_ok _ _ _ Hok) as [[Hf ->] | (t & s & a' & -> & Ho & _)];
      eexists; (split; [done |]); exists rss, res; [| done].
    destruct Hok as [H1 H2 H3 H4 H5 H6 H7 H8]. by split.
  - cbn. unfold stash_cmd, debug_assert_state, slot, set_slot, mbind, M_bind, get, lift, modify, expect, assert.
    rewrite Nat2Z.id, Hs. rewrite state_eq_true by done.
    eexists. split; [done |]. by eapply touch_ok.
  - cbn. rewrite (submit_eq a tag s) by done. eexists. split; [done |]. exists rss, res.
    eapply slot_move; try done; [by rewrite <- Hst | rewrite !is_exec_no by (cbn; congruence); lia].
  - cbn. unfold mbind, M_bind, mret, M_ret. destruct (decide (state s = Ready)) as [Hr | Hr].
    + destruct (exec_range _ _ _ _ _ Hok Hs) as [Hx _].
      rewrite (await_command_ready a tag s w Hs Hr) by (apply Hx; by rewrite Hr).
      eexists. split; [done |]. exists rss, res.
      eapply slot_move; try done; [by rewrite Hr |].
      rewrite (is_exec_no s), is_exec_yes by (cbn; congruence). lia.
    + rewrite (await_command_park a tag s w Hs Hr). eexists. split; [done |]. exists rss, res.
      eapply slot_touch; try done.
  - cbn. destruct (exec_range _ _ _ _ _ Hok Hs) as [_ Hx].
    rewrite (begin_respond_eq a tag s) by (done || by apply Hx). eexists. split; [done |]. exists rss, res.
    eapply slot_move; try done; [by rewrite <- Hst |].
    rewrite (is_exec_yes s), is_exec_no by (cbn; congruence). lia.
  - cbn. rewrite (respond_receiving_eq a tag s) by done. eexists. split; [done |]. exists rss, res.
    eapply slot_move; try done; [by rewrite <- Hst | rewrite !is_exec_no by (cbn; congruence); lia].
  - cbn. destruct (release_ok a rss res tag s) as (a' & s' & -> & Ho & _); try done. eauto.
  - cbn. unfold set_data_len, slot, set_slot, mbind, M_bind, get, lift, modify, expect.
    rewrite Nat2Z.id, Hs. eexists. split; [done |]. by eapply touch_ok.
  - cbn. unfold set_recv_offset, slot, set_slot, mbind, M_bind, get, lift, modify, expect.
    rewrite Nat2Z.id, Hs. eexists. split; [done |]. by eapply touch_ok.
  - cbn. pose proof (install_ok a rss res tag s (SlotData_ring bid addr len) (pool a) [] Hok Hs Hst
      (ok_pool _ _ _ Hok) eq_refl) as Hi.
    by replace (set_pool (pool a) a) with a in Hi by (by destruct a).
  - cbn. unfold on_pool, mbind, M_bind, mret, M_ret. pose proof (ok_pool _ _ _ Hok) as (Hwf & Hl & Hsa & Hcov).
    destruct (reserve_arena_spec (pool a) len Hwf) as
      [-> | (p1 & q & -> & [Hwf' Hc] & Hq & _ & Hb & Hn & _ & _ & Hsome)];
      eexists; (split; [done |]); (eapply set_pool_ok; [done |]).
    + by exists res.
    + exists (q :: res). split; [done |]. split; [by eapply holds_same_all |].
      split; [by rewrite Hsome |]. intros pg Hpg. rewrite Hn in Hpg. specialize (Hcov pg Hpg).
      rewrite Hc in Hcov. cbn in *. lia.
Qed.

Lemma sq_reachable_ok a : sq_reachable a -> arr_ok a.
Proof.
  induction 1 as [n addr bytes init a | a o a' _ IH Hen Hrun].
  - by eapply array_new_ok.
  - destruct (op_safe a o IH Hen) as (a1 & He & Ho). rewrite Hrun in He. by simplify_eq.
Qed.

(** ** The claims *)

Lemma idle_all_free a rss res :
  array_ok a rss res ->
  idle a = true <-> (forall i s, slots a !! i = Some s -> state s = Free).
Proof.
  intros Hok. pose proof Hok as [[Hn Hl] H2 H3 _ _ _ _ _]. unfold idle. rewrite Z.eqb_eq.
  assert (Hsub : forall t, t ∈ free_tags a -> t ∈ seqZ 0 (nslots a)).
  { intros t (Ht & s & Hs & _)%H3. apply elem_of_seqZ.
    pose proof (lookup_lt_Some _ _ _ Hs). lia. }
  pose proof (NoDup_submseteq _ _ H2 Hsub) as Hss. unfold in_u in Hn. split.
  - intros Hlen i s Hs.
    assert (Hp : free_tags a ≡ₚ seqZ 0 (nslots a)).
    { apply submseteq_length_Permutation; [done |]. rewrite length_seqZ. lia. }
    assert (Hi : Z.of_nat i ∈ free_tags a).
    { rewrite Hp. apply elem_of_seqZ. pose proof (lookup_lt_Some _ _ _ Hs). lia. }
    apply H3 in Hi as (_ & x & Hx & Hf). rewrite Nat2Z.id in Hx. by simplify_eq.
  - intros Hall. apply submseteq_length in Hss. rewrite length_seqZ in Hss.
    assert (seqZ 0 (nslots a) ⊆+ free_tags a) as Hss'.
    { apply NoDup_submseteq; [apply NoDup_seqZ |]. intros t Ht%elem_of_seqZ. apply H3.
      split; [lia |]. destruct (lookup_lt_is_Some_2 (slots a) (Z.to_nat t)) as [s Hs]; [lia |].
      exists s. split; [done |]. by eapply Hall. }
    apply submseteq_length in Hss'. rewrite length_seqZ in Hss'. lia.
Qed.

(** C37.  The slot engine never trips over its own assertions: from a fresh
    array, whatever interleaving of claims, submissions, task polls, responses,
    releases and buffer leases the receive path, slot tasks and send path
    produce (each called in the slot state it is written for), the next
    operation returns: no [debug_assert!], index, counter or pool arithmetic
    panic, and the result is again a reachable state. *)
Theorem slot_engine_safe a o :
  sq_reachable a -> enabled a o -> exists a', run_op o a = (a', Ok tt) /\ sq_reachable a'.
Proof.
  intros Hr Hen. destruct (op_safe a o (sq_reachable_ok a Hr) Hen) as (a' & He & _).
  exists a'. split; [done |]. by eapply sq_next.
Qed.

(**  Tags are exclusive: a claim hands out a tag whose slot was free, marks
    exactly that slot [Receiving] with its cursors reset, and takes the tag off
    the stack, so it cannot be claimed again before it is released; a claim
    fails only when no slot is free. *)
Theorem claim_tag_exclusive a :
  sq_reachable a ->
  (claim_tag a = (a, Ok None) /\ forall i s, slots a !! i = Some s -> state s <> Free) \/
  exists t s a', claim_tag a = (a', Ok (Some t)) /\ 0 <= t < nslots a /\
    slots a !! Z.to_nat t = Some s /\ state s = Free /\
    slots a' = <[Z.to_nat t := with_recv_offset 0 (with_data_len 0 (with_state Receiving s))]> (slots a) /\
    t ∈ free_tags a /\ t ∉ free_tags a'.
Proof.
  intros Hr. destruct (sq_reachable_ok a Hr) as (rss & res & Hok).
  destruct (claim_ok _ _ _ Hok) as
    [[Hf He] | (t & s & a' & He & _ & Ht & Hs & Hst & Hsl & Hft)].
  - left. split; [done |]. intros i s Hs Hst.
    assert (Hin : Z.of_nat i ∈ free_tags a).
    { apply (ok_free _ _ _ Hok). split; [lia |]. rewrite Nat2Z.id. eauto. }
    rewrite Hf in Hin. by apply elem_of_nil in Hin.
  - right. exists t, s, a'. pose proof (ok_nodup _ _ _ Hok) as Hnd. rewrite Hft in Hnd.
    apply list.NoDup_cons in Hnd as [Hni _]. split_and!; try done; try lia. rewrite Hft. by left.
Qed.

(**  Teardown can trust its two gates: [executing] is zero exactly when no
    slot is inside dispatch, and [idle] holds exactly when every slot is free, in
    which case all data pages are back in the pool. *)
Theorem teardown_gates a :
  sq_reachable a ->
  (executing a = 0 <-> forall i s, slots a !! i = Some s -> state s <> Executing) /\
  (idle a = true <-> forall i s, slots a !! i = Some s -> state s = Free) /\
  (idle a = true -> send_arena (pool a) = None ->
   pool_free_pages (pool a) = npages (pool a) /\
   free (pool a) = [{| r_start := 0; r_len := npages (pool a) |}]).
Proof.
  intros Hr. destruct (sq_reachable_ok a Hr) as (rss & res & Hok). split; [| split].
  - rewrite (ok_exec _ _ _ Hok). split.
    + intros H0 i s Hs Hst. pose proof (exec_count_pos _ _ _ Hs Hst). lia.
    + intros Hall. assert (forall l, (forall i s, l !! i = Some s -> state s <> Executing) ->
                                     exec_count (C := C) l = 0%nat) as Hz.
      { induction l as [|x l IH]; intros H; [done |]. cbn. rewrite is_exec_no by (by apply (H 0%nat)).
        rewrite IH; [done |]. intros i s. apply (H (S i)). }
      by rewrite Hz.
  - by eapply idle_all_free.
  - intros Hid Hsa. pose proof (proj1 (idle_all_free _ _ _ Hok) Hid) as Hall.
    destruct (ok_pool _ _ _ Hok) as (Hwf & Hl & Hres & Hcov). rewrite (Hres Hsa) in Hcov.
    assert (Hz : forall pg, cover (concat rss) pg = 0).
    { intros pg. assert (Hnil : forall rs, rs ∈ rss -> rs = []).
      { intros rs (i & Hi)%list_elem_of_lookup.
        destruct (Forall2_lookup_r _ _ _ _ _ Hl Hi) as (d & Hd & Hh).
        rewrite list_lookup_fmap in Hd. destruct (slots a !! i) as [s|] eqn:Hs; [| done].
        cbn in Hd. simplify_eq. unfold slot_holds, is_pool in Hh.
        by rewrite (ok_empty _ _ _ Hok _ _ Hs (Hall _ _ Hs)) in Hh. }
      clear -Hnil. induction rss as [|x l IH]; [done |]. cbn. rewrite (Hnil x) by left.
      cbn. apply IH. intros rs Hrs. apply Hnil. by right. }
    apply and_comm, all_free; [done |]. intros pg Hpg. specialize (Hcov pg Hpg).
    rewrite Hz in Hcov. cbn in Hcov. lia.
Qed.

(**  A submitted command is delivered once, to the right task: after
    [submit], the next poll of that slot's task returns precisely the submitted
    command and enters [Executing]; polling again parks. *)
Theorem submit_delivers a t s c w w' :
  sq_reachable a -> slots a !! t = Some s -> state s = Receiving ->
  exists a1 a2 a3,
    submit (Z.of_nat t) c a = (a1, Ok tt) /\
    await_command_poll (Z.of_nat t) w a1 = (a2, Ok (Some c)) /\
    executing a2 = executing a + 1 /\
    await_command_poll (Z.of_nat t) w' a2 = (a3, Ok None).
Proof.
  intros Hr Hs Hst. destruct (sq_reachable_ok a Hr) as (rss & res & Hok).
  pose proof (lookup_lt_Some _ _ _ Hs) as Hlt.
  destruct (exec_range _ _ _ _ _ Hok Hs) as [Hx _].
  eexists _, _, _. split; [by apply submit_eq |]. split.
  - apply (await_command_ready (moved _ _ _ _ _ _ _) t (with_waker None (with_state Ready (with_cmd c s))));
      [by apply list_lookup_insert_eq | done |]. apply Hx. by rewrite Hst.
  - split; [done |]. eapply await_command_park; [cbn; apply list_lookup_insert_eq; by rewrite length_insert |].
    by cbn.
Qed.

(**  No wake-up is lost: in every reachable state a slot that is [Ready]
    has no task still parked on it (its waker was consumed by [submit]), and a
    receive path parked for a tag implies that no tag is free; submitting to a
    slot with a parked task, or releasing a tag while the receive path is
    parked, emits that very wake-up. *)
Theorem no_lost_wakeup a :
  sq_reachable a ->
  (forall i s, slots a !! i = Some s -> state s = Ready -> waker s = None) /\
  (tag_waiter a <> None -> free_tags a = []) /\
  (forall t s c w, slots a !! t = Some s -> state s = Receiving -> waker s = Some w ->
     Wake w ∈ events (submit (Z.of_nat t) c a).1) /\
  (forall t s w, slots a !! t = Some s -> state s = Responding -> tag_waiter a = Some w ->
     Wake w ∈ events (release_tag (Z.of_nat t) a).1).
Proof.
  intros Hr. destruct (sq_reachable_ok a Hr) as (rss & res & Hok). split; [apply Hok |].
  split; [apply Hok |]. split.
  - intros t s c w Hs Hst Hw. rewrite (submit_eq a t s c Hs Hst). cbn. rewrite Hw.
    apply elem_of_app. right. by left.
  - intros t s w Hs Hst Hw.
    destruct (set_data_ok a rss [] res t s SlotData_empty (pool a)) as
      (a1 & Hsd & Hok1 & Hsl & _ & _ & Htw & _); try done; [by rewrite Hst | apply Hok |].
    replace (set_pool (pool a) a) with a in Hsd by (by destruct a).
    unfold release_tag, debug_assert_state, release_data, slot, set_slot.
    unfold mbind, M_bind, get, lift, modify, mret, M_ret, expect, assert.
    rewrite Nat2Z.id, Hs, (state_eq_true _ _ Hst), Hsd. cbn. rewrite Htw, Hw.
    apply elem_of_app. right. by left.
Qed.

End System.

(** ** The send list is a FIFO with orderly close *)

Section SendListProofs.
Context {W : Type}.

Inductive sl_op := SlPush (w : W) | SlTryNext | SlPoll (t : nat) | SlClose.

(** The list, everything pushed so far, everything handed to the send loop, and
    whether a poll has answered end-of-work. *)
Record sl_run := { slr_list : SendList W; slr_pushed : list W; slr_out : list W; slr_ended : bool }.

Definition sl_exec (r : sl_run) (o : sl_op) : sl_run :=
  match o with
  | SlPush w =>
      {| slr_list := (push w (slr_list r)).1; slr_pushed := slr_pushed r ++ [w];
         slr_out := slr_out r; slr_ended := slr_ended r |}
  | SlTryNext =>
      let '(l, x) := try_next (slr_list r) in
      {| slr_list := l; slr_pushed := slr_pushed r;
         slr_out := slr_out r ++ match x with Some w => [w] | None => [] end;
         slr_ended := slr_ended r |}
  | SlPoll t =>
      let '(l, x) := poll_next t (slr_list r) in
      {| slr_list := l; slr_pushed := slr_pushed r;
         slr_out := slr_out r ++ match x with Some (Some w) => [w] | _ => [] end;
         slr_ended := match x with Some None => true | _ => slr_ended r end |}
  | SlClose =>
      {| slr_list := (close (slr_list r)).1; slr_pushed := slr_pushed r;
         slr_out := slr_out r; slr_ended := slr_ended r |}
  end.

Definition sl_start : sl_run :=
  {| slr_list := SendList_new; slr_pushed := []; slr_out := []; slr_ended := false |}.

Lemma sl_exec_inv r o :
  slr_out r ++ work (slr_list r) = slr_pushed r ->
  (sl_waker (slr_list r) <> None -> work (slr_list r) = [] /\ closed (slr_list r) = false) ->
  (slr_ended r = true -> closed (slr_list r) = true) ->
  let r' := sl_exec r o in
  slr_out r' ++ work (slr_list r') = slr_pushed r' /\
  (sl_waker (slr_list r') <> None -> work (slr_list r') = [] /\ closed (slr_list r') = false) /\
  (slr_ended r' = true -> closed (slr_list r') = true).
Proof.
  destruct r as [[wk wa cl] pu ou en]. cbn. intros H1 H2 H3.
  destruct o as [w | | t |]; cbn.
  - split_and!; [by rewrite app_assoc, H1 | done | done].
  - destruct wk as [|w wk]; cbn; [by rewrite app_nil_r |].
    split_and!; [by rewrite <- app_assoc | | done]. intros Hw. by destruct (H2 Hw).
  - destruct wk as [|w wk]; cbn.
    + destruct cl; cbn; rewrite app_nil_r; split_and!; try done.
    + split_and!; [by rewrite <- app_assoc | | done]. intros Hw. by destruct (H2 Hw).
  - split_and!; done.
Qed.

(**  The send loop sees every queued response exactly once and in order:
    after any sequence of pushes, non-blocking pops, polls and closes, what was
    delivered followed by what is pending is what was pushed; the list answers
    end-of-work only once closed and drained; and a parked send loop implies
    there is nothing it should have been woken for. *)
Theorem send_list_fifo ops t :
  let r := foldl sl_exec sl_start ops in
  slr_out r ++ work (slr_list r) = slr_pushed r /\
  (sl_waker (slr_list r) <> None -> work (slr_list r) = [] /\ closed (slr_list r) = false) /\
  ((poll_next t (slr_list r)).2 = Some None <-> closed (slr_list r) = true /\ slr_out r = slr_pushed r).
Proof.
  cbn zeta. assert (Hinv : forall ops r,
    (slr_out r ++ work (slr_list r) = slr_pushed r /\
     (sl_waker (slr_list r) <> None -> work (slr_list r) = [] /\ closed (slr_list r) = false) /\
     (slr_ended r = true -> closed (slr_list r) = true)) ->
    let r' := foldl sl_exec r ops in
    slr_out r' ++ work (slr_list r') = slr_pushed r' /\
    (sl_waker (slr_list r') <> None -> work (slr_list r') = [] /\ closed (slr_list r') = false) /\
    (slr_ended r' = true -> closed (slr_list r') = true)).
  { clear. intros ops. induction ops as [|o ops IH]; intros r H; [done |]. cbn.
    apply IH, sl_exec_inv; apply H. }
  destruct (Hinv ops sl_start) as (H1 & H2 & H3); [done |].
  set (r := foldl sl_exec sl_start ops) in *. clearbody r. split; [done |]. split; [done |].
  unfold poll_next. destruct (work (slr_list r)) as [|w wk] eqn:Hw.
  - rewrite app_nil_r in H1. destruct (closed (slr_list r)); cbn; [tauto |]. split; [done | by intros []].
  - cbn. split; [done |]. intros [_ Ho]. rewrite Ho in H1.
    assert (length (slr_pushed r ++ w :: wk) = length (slr_pushed r)) as Hl by (by rewrite H1).
    rewrite length_app in Hl. cbn in Hl. lia.
Qed.

End SendListProofs.

(** ** SQ head *)

Fixpoint advance_n (k : nat) : M QueueCore never Z :=
  match k with
  | O => q ← get; mret (sqhd q)
  | S k => _ ← advance_n k; advance_sqhd
  end.

(**  SQ-head flow control: after [k] completions on a queue of [size]
    entries the head reported to the host is [k mod size]; the [u16] arithmetic
    never overflows and the modulus is never by zero. *)
Theorem sqhd_counts q size k :
  0 < size < 2 ^ 16 ->
  exists q', advance_n (S k) (QueueCore_new q size false) = (q', Ok (Z.of_nat (S k) mod size)) /\
    sqsize q' = size /\ sqhd q' = Z.of_nat (S k) mod size.
Proof.
  intros Hs.
  assert (Hstep : forall c n, sqsize c = size -> sqhd_disabled c = false -> sqhd c = n mod size ->
    exists c', advance_sqhd c = (c', Ok ((n + 1) mod size)) /\ sqsize c' = size /\
      sqhd_disabled c' = false /\ sqhd c' = (n + 1) mod size).
  { intros c n H1 H2 H3. unfold advance_sqhd, mbind, M_bind, get, lift, modify, mret, M_ret, assert.
    rewrite H2, H3, H1. pose proof (Z.mod_pos_bound n size ltac:(lia)).
    rewrite checked_ok by (unfold in_u; lia). rewrite (proj2 (Z.eqb_neq size 0)) by lia. cbn.
    eexists. rewrite Zplus_mod_idemp_l. done. }
  assert (Hn : forall k, exists c, advance_n k (QueueCore_new q size false) =
                 (c, Ok (Z.of_nat k mod size)) /\ sqsize c = size /\ sqhd_disabled c = false /\
                 sqhd c = Z.of_nat k mod size).
  { clear k. induction k as [|k (c & IH & H1 & H2 & H3)].
    - eexists. rewrite Z.mod_0_l by lia. done.
    - cbn [advance_n]. unfold mbind, M_bind. rewrite IH.
      destruct (Hstep c (Z.of_nat k) H1 H2 H3) as (c' & He & A & B & D). exists c'.
      replace (Z.of_nat (S k)) with (Z.of_nat k + 1) by lia. done. }
  destruct (Hn (S k)) as (c & H1 & H2 & H3 & H4). by exists c.
Qed.

Lemma sqhd_counts_witness :
  exists q', advance_n 5 (QueueCore_new 1 4 false) = (q', Ok 1) /\ sqsize q' = 4 /\ sqhd q' = 1.
Proof. apply (sqhd_counts 1 4 4). lia. Defined.

(** ** A run of two commands over a one-page pool *)

Definition sq_run_op (o : sq_op) (a : SlotArray Z) : SlotArray Z := (run_op o a).1.

Definition demo0 : SlotArray Z := Eval vm_compute in
  match SlotArray_new (E := never) 2 0x200000 4096 (0 : Z) with
  | Ok a => a
  | _ => {| SlotQ.nslots := 0; slots := []; free_tags := []; executing := 0; tag_waiter := None;
            pool := Build_BufPool 0 0 [] 0 [] None None; events := [] |}
  end.
Definition demo1 := Eval vm_compute in sq_run_op (OpAwaitCommand 0 7) demo0.
Definition demo2 := Eval vm_compute in sq_run_op OpClaim demo1.
Definition demo3 := Eval vm_compute in sq_run_op (OpLeaseOrOwned 0 4096 0) demo2.

Lemma demo3_reachable : sq_reachable demo3.
Proof.
  apply (sq_next demo2 (OpLeaseOrOwned 0 4096 0)); [| by eexists | reflexivity].
  apply (sq_next demo1 OpClaim); [| done | reflexivity].
  apply (sq_next demo0 (OpAwaitCommand 0 7)); [| by eexists | reflexivity].
  by apply (sq_init 2 0x200000 4096 0).
Qed.

Lemma slot_engine_safe_witness :
  exists a', run_op (OpRespondReceiving 0) demo3 = (a', Ok tt) /\ sq_reachable a'.
Proof. apply (slot_engine_safe demo3 (OpRespondReceiving 0) demo3_reachable). by eexists. Defined.

Lemma claim_tag_exclusive_witness :
  (claim_tag demo3 = (demo3, Ok None) /\ forall i s, slots demo3 !! i = Some s -> state s <> Free) \/
  exists t s a', claim_tag demo3 = (a', Ok (Some t)) /\ 0 <= t < SlotQ.nslots demo3 /\
    slots demo3 !! Z.to_nat t = Some s /\ state s = Free /\
    slots a' = <[Z.to_nat t := with_recv_offset 0 (with_data_len 0 (with_state Receiving s))]> (slots demo3) /\
    t ∈ free_tags demo3 /\ t ∉ free_tags a'.
Proof. apply (claim_tag_exclusive demo3 demo3_reachable). Defined.

Lemma teardown_gates_witness :
  (executing demo3 = 0 <-> forall i s, slots demo3 !! i = Some s -> state s <> Executing) /\
  (idle demo3 = true <-> forall i s, slots demo3 !! i = Some s -> state s = Free) /\
  (idle demo3 = true -> send_arena (pool demo3) = None ->
   pool_free_pages (pool demo3) = npages (pool demo3) /\
   free (pool demo3) = [{| r_start := 0; r_len := npages (pool demo3) |}]).
Proof. apply (teardown_gates demo3 demo3_reachable). Defined.

Lemma submit_delivers_witness :
  exists a1 a2 a3,
    submit (Z.of_nat 0) 42 demo3 = (a1, Ok tt) /\
    await_command_poll (Z.of_nat 0) 7 a1 = (a2, Ok (Some 42)) /\
    executing a2 = executing demo3 + 1 /\
    await_command_poll (Z.of_nat 0) 7 a2 = (a3, Ok None).
Proof. eapply (submit_delivers demo3 0 _ 42 7 7 demo3_reachable); reflexivity. Defined.

Lemma no_lost_wakeup_witness :
  (forall i s, slots demo3 !! i = Some s -> state s = Ready -> waker s = None) /\
  (tag_waiter demo3 <> None -> free_tags demo3 = []) /\
  (forall t s c w, slots demo3 !! t = Some s -> state s = Receiving -> waker s = Some w ->
     Wake w ∈ events (submit (Z.of_nat t) c demo3).1) /\
  (forall t s w, slots demo3 !! t = Some s -> state s = Responding -> tag_waiter demo3 = Some w ->
     Wake w ∈ events (release_tag (Z.of_nat t) demo3).1).
Proof. apply (no_lost_wakeup demo3 demo3_reachable). Defined.
