(* ===== verification/Registry.v ===== *)
(** * [ioutgt-core/src/registry.rs]: the controller registry

    One [Registry] value is the data behind the mutex: every method locks for
    its whole body, so methods are state transformers and concurrency is their
    interleaving ([reg_step]).  A traffic flag is an [Arc<AtomicBool>] shared by
    the queues of a controller: it is a cell of the [flags] store, and entries
    and their clones hold its index. *)

From Stdlib Require Import Sorted.
From S2P Require Import Prelude Pool.

(** ** Traffic flags *)

Definition TrafficFlag_set (i : nat) (flags : list bool) : list bool := <[i := true]> flags.

(** [swap(false)]. *)
Definition TrafficFlag_take (i : nat) (flags : list bool) : list bool * bool :=
  (<[i := false]> flags, default false (flags !! i)).

(** ** Controllers *)

Record QueueInfo := {
  qi_qid : Z;
  qi_sqsize : Z;
  qi_tid : Z;
  qi_cpus : str;
  qi_peer : str;
}.

Record ControllerEntry := {
  ce_cntlid : Z;
  ce_subsys_nqn : str;
  ce_hostnqn : str;
  ce_max_qid : Z;
  ce_kato_ms : Z;
  ce_queues : list QueueInfo;
  ce_discovery : bool;
  ce_traffic : nat;
}.

Record Registry := {
  cntlid_min : Z;
  cntlid_max : Z;
  next_cntlid : Z;
  controllers : gmap Z ControllerEntry;
  flags : list bool;
}.

Definition CNTLID_MAX : Z := 0xFFEF.

Inductive IoConnectError := UnknownController | HostMismatch | QueueExists | InvalidQid.

#[export] Instance IoConnectError_eq_dec : EqDecision IoConnectError.
Proof. solve_decision. Defined.

Definition Registry_new {E} (lo hi : Z) : res E Registry :=
  _ ← assert ((1 <=? lo) && (lo <=? hi) && (hi <=? CNTLID_MAX));
  mret {| cntlid_min := lo; cntlid_max := hi; next_cntlid := lo; controllers := ∅; flags := [] |}.

(** [x.clamp(lo, hi)]. *)
Definition clamp (x lo hi : Z) : Z := Z.max lo (Z.min x hi).

(** The candidate id at loop index [offset]. *)
Definition candidate {E} (r : Registry) (span start offset : Z) : res E Z :=
  let index := (start - cntlid_min r + offset) mod span in
  i ← expect (if decide (in_u 16 index) then Some index else None);
  checked 16 (cntlid_min r + i).

(** The [for offset in 0..span] loop; [n] iterations are left. *)
Fixpoint allocate_loop (entry : Z -> nat -> ControllerEntry) (span start offset : Z) (n : nat) :
    M Registry never (option Z) :=
  match n with
  | O => mret None
  | S n =>
      r ← get;
      cntlid ← lift (candidate r span start offset);
      match controllers r !! cntlid with
      | None =>
          _ ← modify (fun r => {|
            cntlid_min := cntlid_min r; cntlid_max := cntlid_max r;
            next_cntlid := wrap 16 (cntlid + 1);
            controllers := <[cntlid := entry cntlid (length (flags r))]> (controllers r);
            flags := flags r ++ [false] |});
          mret (Some cntlid)
      | Some _ => allocate_loop entry span start (offset + 1) n
      end
  end.

Definition allocate (subsys_nqn hostnqn : str) (max_qid kato_ms : Z) (admin_queue : QueueInfo)
    (discovery : bool) : M Registry never (option Z) :=
  r ← get;
  d ← lift (checked 16 (cntlid_max r - cntlid_min r));
  let span := d + 1 in
  let start := clamp (next_cntlid r) (cntlid_min r) (cntlid_max r) in
  let entry cntlid flag := {|
    ce_cntlid := cntlid; ce_subsys_nqn := subsys_nqn; ce_hostnqn := hostnqn;
    ce_max_qid := max_qid; ce_kato_ms := kato_ms; ce_queues := [admin_queue];
    ce_discovery := discovery; ce_traffic := flag |} in
  allocate_loop entry span start 0 (Z.to_nat span).

Definition set_controllers (m : gmap Z ControllerEntry) (r : Registry) : Registry :=
  {| cntlid_min := cntlid_min r; cntlid_max := cntlid_max r; next_cntlid := next_cntlid r;
     controllers := m; flags := flags r |}.

Definition push_queue (q : QueueInfo) (e : ControllerEntry) : ControllerEntry := {|
  ce_cntlid := ce_cntlid e; ce_subsys_nqn := ce_subsys_nqn e; ce_hostnqn := ce_hostnqn e;
  ce_max_qid := ce_max_qid e; ce_kato_ms := ce_kato_ms e; ce_queues := ce_queues e ++ [q];
  ce_discovery := ce_discovery e; ce_traffic := ce_traffic e |}.

Definition install_io_queue (cntlid : Z) (hostnqn : str) (queue : QueueInfo) :
    M Registry IoConnectError ControllerEntry :=
  r ← get;
  entry ← lift (ok_or (controllers r !! cntlid) UnknownController);
  if bool_decide (ce_hostnqn entry <> hostnqn) then fail HostMismatch
  else if (qi_qid queue =? 0) || (ce_max_qid entry <? qi_qid queue) then fail InvalidQid
  else if existsb (fun q => qi_qid q =? qi_qid queue) (ce_queues entry) then fail QueueExists
  else
    let entry := push_queue queue entry in
    _ ← modify (set_controllers (<[cntlid := entry]> (controllers r)));
    mret entry.

Definition remove (cntlid : Z) (r : Registry) : Registry * option ControllerEntry :=
  (set_controllers (base.delete cntlid (controllers r)) r, controllers r !! cntlid).

Definition traffic (r : Registry) (cntlid : Z) : option nat :=
  ce_traffic <$> controllers r !! cntlid.

Definition contains (r : Registry) (cntlid : Z) : bool := bool_decide (is_Some (controllers r !! cntlid)).
Definition Registry_len (r : Registry) : Z := Z.of_nat (size (controllers r)).
Definition Registry_is_empty (r : Registry) : bool := Registry_len r =? 0.

(** [sort_unstable_by_key(|e| e.cntlid)]: the keys are distinct. *)
Fixpoint insert_sorted (e : ControllerEntry) (l : list ControllerEntry) : list ControllerEntry :=
  match l with
  | [] => [e]
  | x :: l' => if ce_cntlid e <=? ce_cntlid x then e :: l else x :: insert_sorted e l'
  end.

Definition Registry_snapshot (r : Registry) : list ControllerEntry :=
  foldr insert_sorted [] (map snd (map_to_list (controllers r))).

(** ** The invariant *)

Definition entry_ok (r : Registry) (k : Z) (e : ControllerEntry) : Prop :=
  ce_cntlid e = k /\ cntlid_min r <= k <= cntlid_max r /\ (ce_traffic e < length (flags r))%nat /\
  exists ios q0, ce_queues e = q0 :: ios /\ NoDup (map qi_qid ios) /\
    Forall (fun q => 1 <= qi_qid q <= ce_max_qid e) ios.

Definition reg_ok (r : Registry) : Prop :=
  1 <= cntlid_min r <= cntlid_max r /\ cntlid_max r <= CNTLID_MAX /\
  map_Forall (entry_ok r) (controllers r) /\
  (forall k k' e e', controllers r !! k = Some e -> controllers r !! k' = Some e' ->
                     ce_traffic e = ce_traffic e' -> k = k').

(** Any thread's next call. *)
Inductive reg_step : Registry -> Registry -> Prop :=
| reg_allocate r s h m k q d r' o :
    qi_qid q = 0 -> allocate s h m k q d r = (r', Ok o) -> reg_step r r'
| reg_install r c h q r' o :
    in_u 16 (qi_qid q) -> install_io_queue c h q r = (r', o) -> reg_step r r'
| reg_remove r c : reg_step r (remove c r).1.

Inductive reg_reachable : Registry -> Prop :=
| reg_init lo hi r : Registry_new (E := never) lo hi = Ok r -> reg_reachable r
| reg_next r r' : reg_reachable r -> reg_step r r' -> reg_reachable r'.

(** ** [allocate] *)

Lemma candidate_ok {E} r span start offset :
  1 <= cntlid_min r <= cntlid_max r -> cntlid_max r <= CNTLID_MAX ->
  span = cntlid_max r - cntlid_min r + 1 -> cntlid_min r <= start -> 0 <= offset ->
  candidate (E := E) r span start offset = Ok (cntlid_min r + (start - cntlid_min r + offset) mod span) /\
  cntlid_min r <= cntlid_min r + (start - cntlid_min r + offset) mod span <= cntlid_max r.
Proof.
  intros H1 H2 -> H3 H4. unfold candidate, CNTLID_MAX in *.
  pose proof (Z.mod_pos_bound (start - cntlid_min r + offset) (cntlid_max r - cntlid_min r + 1)
                ltac:(lia)) as Hb.
  rewrite decide_True by (unfold in_u; lia). cbn [expect mbind res_bind].
  rewrite checked_ok by (unfold in_u; lia). split; [done | lia].
Qed.

(** The loop takes the first vacant candidate. *)
Lemma allocate_loop_spec entry r span start n offset :
  1 <= cntlid_min r <= cntlid_max r -> cntlid_max r <= CNTLID_MAX ->
  span = cntlid_max r - cntlid_min r + 1 -> cntlid_min r <= start -> 0 <= offset ->
  let cand i := cntlid_min r + (start - cntlid_min r + i) mod span in
  (allocate_loop entry span start offset n r = (r, Ok None) /\
   forall i, offset <= i < offset + Z.of_nat n -> is_Some (controllers r !! cand i)) \/
  exists k, allocate_loop entry span start offset n r =
      ({| cntlid_min := cntlid_min r; cntlid_max := cntlid_max r; next_cntlid := wrap 16 (k + 1);
          controllers := <[k := entry k (length (flags r))]> (controllers r);
          flags := flags r ++ [false] |}, Ok (Some k)) /\
    controllers r !! k = None /\ cntlid_min r <= k <= cntlid_max r.
Proof.
  intros H1 H2 Hsp H3 H4. cbn zeta. revert offset H4. induction n as [|n IH]; intros offset H4.
  { left. split; [done |]. intros i Hi. lia. }
  destruct (candidate_ok (E := never) r span start offset H1 H2 Hsp H3 H4) as [Hc Hr].
  cbn [allocate_loop]. unfold mbind, M_bind, get, lift, modify, mret, M_ret. rewrite Hc.
  set (k := cntlid_min r + _) in *.
  destruct (controllers r !! k) as [e|] eqn:Hk; [| right; by exists k].
  destruct (IH (offset + 1) ltac:(lia)) as [[He Hall] | (k' & He & Hk')]; [left | right; by exists k'].
  split; [exact He |]. intros i Hi. destruct (decide (i = offset)) as [-> | Hne]; [by eexists |].
  apply Hall. lia.
Qed.

(** The candidates of one full turn are all the ids of the slice. *)
Lemma candidates_cover r span start k :
  span = cntlid_max r - cntlid_min r + 1 -> cntlid_min r <= start <= cntlid_max r ->
  cntlid_min r <= k <= cntlid_max r ->
  exists i, 0 <= i < span /\ cntlid_min r + (start - cntlid_min r + i) mod span = k.
Proof.
  intros Hsp Hs Hk. exists ((k - start) mod span). split; [apply Z.mod_pos_bound; lia |].
  rewrite Zplus_mod_idemp_r. replace (start - cntlid_min r + (k - start)) with (k - cntlid_min r) by lia.
  rewrite Z.mod_small by lia. lia.
Qed.

Lemma allocate_cases r s h m kt q d :
  reg_ok r ->
  (allocate s h m kt q d r = (r, Ok None) /\
   forall k, cntlid_min r <= k <= cntlid_max r -> is_Some (controllers r !! k)) \/
  exists k r', allocate s h m kt q d r = (r', Ok (Some k)) /\
    controllers r !! k = None /\ cntlid_min r <= k <= cntlid_max r /\
    controllers r' = <[k := {| ce_cntlid := k; ce_subsys_nqn := s; ce_hostnqn := h; ce_max_qid := m;
       ce_kato_ms := kt; ce_queues := [q]; ce_discovery := d; ce_traffic := length (flags r) |}]>
         (controllers r) /\
    flags r' = flags r ++ [false] /\ cntlid_min r' = cntlid_min r /\ cntlid_max r' = cntlid_max r.
Proof.
  intros (H1 & H2 & _). unfold allocate, mbind, M_bind, get, lift.
  rewrite checked_ok by (unfold in_u, CNTLID_MAX in *; lia). cbn [fst snd].
  set (span := cntlid_max r - cntlid_min r + 1). set (start := clamp _ _ _). set (entry := fun _ _ => _).
  assert (Hst : cntlid_min r <= start <= cntlid_max r) by (unfold start, clamp; lia).
  destruct (allocate_loop_spec entry r span start (Z.to_nat span) 0) as
    [[He Hall] | (k & He & Hk & Hr)]; try done; [lia | left | right].
  - split; [exact He |]. intros k Hk.
    destruct (candidates_cover r span start k eq_refl Hst Hk) as (i & Hi & <-). apply Hall. lia.
  - eexists k, _. split; [exact He |]. done.
Qed.

Lemma entry_ok_grow r r' k e :
  cntlid_min r' = cntlid_min r -> cntlid_max r' = cntlid_max r ->
  (length (flags r) <= length (flags r'))%nat -> entry_ok r k e -> entry_ok r' k e.
Proof. intros H1 H2 H3 (A & B & D & F). split_and!; try done; lia. Qed.

Lemma reg_step_ok r r' : reg_ok r -> reg_step r r' -> reg_ok r'.
Proof.
  intros Hok Hst. pose proof Hok as (H1 & H2 & H3 & H4). destruct Hst as
    [r s h m kt q d r' o Hq He | r c h q r' o Hq He | r c].
  - destruct (allocate_cases r s h m kt q d Hok) as
      [[Hn _] | (k & r1 & Hs & Hk & Hr & Hc & Hf & Hlo & Hhi)]; rewrite He in *; simplify_eq; [done |].
    split_and!; rewrite ?Hlo, ?Hhi; try done; try lia.
    + rewrite Hc. apply map_Forall_insert_2.
      * split; [done |]. rewrite Hlo, Hhi, Hf, length_app. cbn. split; [lia |]. split; [lia |].
        exists [], q. split_and!; [done | constructor | constructor].
      * eapply map_Forall_impl; [done |]. intros. eapply entry_ok_grow; try done.
        rewrite Hf, length_app. lia.
    + intros k1 k2 e1 e2. rewrite Hc. intros E1 E2 Ht.
      apply lookup_insert_Some in E1 as [[<- <-] | [N1 E1]], E2 as [[<- <-] | [N2 E2]]; try done.
      * destruct (H3 _ _ E2) as (_ & _ & Hlt & _). cbn in Ht. lia.
      * destruct (H3 _ _ E1) as (_ & _ & Hlt & _). cbn in Ht. lia.
      * by eapply H4.
  - unfold install_io_queue, mbind, M_bind, get, lift, fail, modify, mret, M_ret, ok_or in He.
    destruct (controllers r !! c) as [e|] eqn:Hc; [| by simplify_eq].
    case_bool_decide; [by simplify_eq |]. case_match eqn:Hqid; [by simplify_eq |].
    case_match eqn:Hex; [by simplify_eq |]. injection He as <- _.
    destruct (H3 _ _ Hc) as (A & B & D & ios & q0 & Hqs & Hnd & Hall). zbool. unfold in_u in Hq.
    split_and!; cbn; try done; try lia.
    + apply map_Forall_insert_2; [| exact H3]. split; [done |]. split; [done |]. split; [done |].
      exists (ios ++ [q]), q0. cbn. rewrite Hqs. split; [done |]. rewrite Hqs in Hex. cbn in Hex.
      apply orb_false_elim in Hex as [_ Hex]. split.
      * rewrite map_app. apply list.NoDup_app. split; [done |]. split; [| by apply NoDup_singleton].
        intros x Hx ->%list_elem_of_singleton. apply list_elem_of_fmap in Hx as (y & Hy & Hyin).
        assert (existsb (fun q1 => qi_qid q1 =? qi_qid q) ios = true) as Hcon; [| congruence].
        apply existsb_exists. exists y. split; [by apply list_elem_of_In |]. apply Z.eqb_eq. done.
      * apply Forall_app. split; [done |]. constructor; [lia | constructor].
    + intros k1 k2 e1 e2 E1 E2 Ht. cbn in *.
      apply lookup_insert_Some in E1 as [[<- <-] | [N1 E1]], E2 as [[<- <-] | [N2 E2]]; try done;
        cbn in Ht; by eapply H4.
  - split_and!; cbn; try done; try lia.
    + by apply map_Forall_delete.
    + intros k1 k2 e1 e2 E1 E2. cbn in *. apply lookup_delete_Some in E1 as [_ E1], E2 as [_ E2].
      by eapply H4.
Qed.

Lemma reg_reachable_ok r : reg_reachable r -> reg_ok r.
Proof.
  induction 1 as [lo hi r Hn | r r' _ IH Hst]; [| by eapply reg_step_ok].
  unfold Registry_new, assert in Hn. case_match eqn:Hc; [| done]. cbn in Hn. injection Hn as <-. zbool.
  split_and!; try done; cbn; lia.
Qed.

(** ** The claims *)

(**  Controller ids: whatever connects and disconnects happened before,
    [allocate] either returns an id of this process's slice that no live
    controller has, recording a controller with the admin queue only and a
    traffic flag of its own, or refuses, which happens exactly when every id of
    the slice is live. *)
Theorem allocate_fresh r s h m kt q d :
  reg_reachable r ->
  (allocate s h m kt q d r = (r, Ok None) /\
   forall k, cntlid_min r <= k <= cntlid_max r -> is_Some (controllers r !! k)) \/
  exists k r' e, allocate s h m kt q d r = (r', Ok (Some k)) /\
    controllers r !! k = None /\ cntlid_min r <= k <= cntlid_max r /\
    controllers r' = <[k := e]> (controllers r) /\
    ce_cntlid e = k /\ ce_hostnqn e = h /\ ce_max_qid e = m /\ ce_queues e = [q] /\
    flags r' !! ce_traffic e = Some false /\
    (forall k' e', controllers r !! k' = Some e' -> ce_traffic e' <> ce_traffic e).
Proof.
  intros Hr. pose proof (reg_reachable_ok r Hr) as Hok.
  destruct (allocate_cases r s h m kt q d Hok) as
    [? | (k & r' & He & Hk & Hran & Hc & Hf & _)]; [by left | right].
  eexists k, r', _. split; [exact He |]. split; [done |]. split; [done |]. split; [exact Hc |].
  cbn. split_and!; try done.
  - rewrite Hf. by apply list_lookup_middle.
  - intros k' e' Hk'. destruct Hok as (_ & _ & H3 & _).
    destruct (H3 _ _ Hk') as (_ & _ & Hlt & _). lia.
Qed.

Lemma nodup_bounded (l : list Z) m :
  NoDup l -> Forall (fun x => 1 <= x <= m) l -> Z.of_nat (length l) <= Z.max 0 m.
Proof.
  intros Hnd Hall. assert (l ⊆+ seqZ 1 m) as Hs.
  { apply NoDup_submseteq; [done |]. intros x Hx. rewrite list.Forall_forall in Hall.
    specialize (Hall x Hx). apply elem_of_seqZ. lia. }
  apply submseteq_length in Hs. rewrite length_seqZ in Hs. lia.
Qed.

(**  Queue ids: in every reachable registry a controller has one admin queue
    and IO queues with distinct ids in [1..=max_qid], so never more queues than
    it was granted; two controllers never share a traffic flag. *)
Theorem queue_ids_unique r k e :
  reg_reachable r -> controllers r !! k = Some e ->
  ce_cntlid e = k /\ cntlid_min r <= k <= cntlid_max r /\
  Z.of_nat (length (ce_queues e)) <= Z.max 0 (ce_max_qid e) + 1 /\
  (exists q0 ios, ce_queues e = q0 :: ios /\ NoDup (map qi_qid ios) /\
     Forall (fun q => 1 <= qi_qid q <= ce_max_qid e) ios) /\
  (forall k' e', controllers r !! k' = Some e' -> ce_traffic e' = ce_traffic e -> k' = k).
Proof.
  intros Hr He. pose proof (reg_reachable_ok r Hr) as (_ & _ & H3 & H4).
  destruct (H3 _ _ He) as (A & B & D & ios & q0 & Hq & Hnd & Hall).
  split; [done |]. split; [done |]. split; [| split; [by exists q0, ios | eauto]].
  rewrite Hq. cbn. pose proof (nodup_bounded (map qi_qid ios) (ce_max_qid e) Hnd) as Hb.
  rewrite length_map in Hb. specialize (Hb ltac:(by apply list.Forall_fmap)). lia.
Qed.

(**  An IO queue is installed at most once: after a successful
    [install_io_queue] the same id is refused with [QueueExists] and an
    unchanged registry for as long as the controller lives; once it is removed,
    the answer is [UnknownController]. *)
Theorem install_once r c h q r' e q' :
  install_io_queue c h q r = (r', Ok e) -> qi_qid q' = qi_qid q ->
  install_io_queue c h q' r' = (r', Err QueueExists) /\
  install_io_queue c h q' (remove c r').1 = ((remove c r').1, Err UnknownController) /\
  controllers r' !! c = Some e /\ list.last (ce_queues e) = Some q /\
  (forall k, k <> c -> controllers r' !! k = controllers r !! k).
Proof.
  unfold install_io_queue, mbind, M_bind, get, lift, fail, modify, mret, M_ret, ok_or.
  destruct (controllers r !! c) as [e0|] eqn:Hc; [| done].
  case_bool_decide as Hh; [done |]. case_match eqn:Hq; [done |]. case_match eqn:Hex; [done |].
  intros [= <- <-] Hqq. cbn. rewrite !lookup_insert_eq. cbn. rewrite Hqq.
  rewrite bool_decide_eq_false_2 by (intros Hx; by apply Hx). rewrite Hq.
  assert (existsb (fun q0 => qi_qid q0 =? qi_qid q) (ce_queues e0 ++ [q]) = true) as ->.
  { rewrite existsb_app. cbn. rewrite Z.eqb_refl. by rewrite orb_true_r. }
  rewrite lookup_delete_eq. split_and!; try done.
  - by rewrite last_snoc.
  - intros k Hk. by rewrite lookup_insert_ne.
Qed.

Lemma insert_sorted_perm e l : insert_sorted e l ≡ₚ e :: l.
Proof.
  induction l as [|x l IH]; [done |]. cbn. case_match; [done |]. rewrite IH. apply Permutation_swap.
Qed.

Lemma insert_sorted_sorted e l :
  StronglySorted (fun x y => ce_cntlid x <= ce_cntlid y) l ->
  StronglySorted (fun x y => ce_cntlid x <= ce_cntlid y) (insert_sorted e l).
Proof.
  induction 1 as [|x l Hl IH Hx]; [by repeat constructor |]. cbn. case_match eqn:Hc; zbool.
  - constructor; [by constructor |]. constructor; [lia |].
    eapply list.Forall_impl; [exact Hx |]. cbn. lia.
  - constructor; [done |]. rewrite insert_sorted_perm. constructor; [lia | done].
Qed.

(**  [snapshot] is the live controllers, each once, in ascending id order. *)
Theorem snapshot_sorted r :
  reg_reachable r ->
  StronglySorted (fun x y => ce_cntlid x <= ce_cntlid y) (Registry_snapshot r) /\
  NoDup (map ce_cntlid (Registry_snapshot r)) /\
  (forall e, e ∈ Registry_snapshot r <-> controllers r !! ce_cntlid e = Some e).
Proof.
  intros Hr. pose proof (reg_reachable_ok r Hr) as (_ & _ & H3 & _). unfold Registry_snapshot.
  assert (Hp : foldr insert_sorted [] (map snd (map_to_list (controllers r))) ≡ₚ
               map snd (map_to_list (controllers r))).
  { generalize (map snd (map_to_list (controllers r))). intros l.
    induction l as [|x l IH]; [done |]. cbn. by rewrite insert_sorted_perm, IH. }
  split; [| split].
  - clear. induction (map snd _) as [|x l IH]; [constructor |]. by apply insert_sorted_sorted.
  - apply (Permutation_map ce_cntlid) in Hp. rewrite Hp, map_map.
    assert (map (fun x => ce_cntlid x.2) (map_to_list (controllers r)) =
            (map_to_list (controllers r)).*1) as ->.
    { apply map_ext_in. intros [k e] Hin. apply list_elem_of_In, elem_of_map_to_list in Hin.
      by destruct (H3 _ _ Hin) as (? & _). }
    apply NoDup_fst_map_to_list.
  - intros e. rewrite Hp, list_elem_of_fmap. split.
    + intros ([k e'] & -> & Hin). apply elem_of_map_to_list in Hin. cbn.
      by destruct (H3 _ _ Hin) as (-> & _).
    + intros He. exists (ce_cntlid e, e). split; [done |]. by apply elem_of_map_to_list.
Qed.

(** ** A slice of three ids in use *)

Definition demo_q (n : Z) : QueueInfo :=
  {| qi_qid := n; qi_sqsize := 32; qi_tid := 42; qi_cpus := []; qi_peer := [] |}.
Definition demo_new : Registry := Eval vm_compute in
  match Registry_new (E := never) 10 12 with Ok r => r | _ => Build_Registry 0 0 0 ∅ [] end.
Definition demo_reg1 : Registry := Eval vm_compute in (allocate [] [] 4 0 (demo_q 0) false demo_new).1.
Definition demo_reg2 : Registry := Eval vm_compute in (install_io_queue 10 [] (demo_q 1) demo_reg1).1.

Definition demo_entry : ControllerEntry := Eval vm_compute in
  match controllers demo_reg2 !! 10 with
  | Some e => e
  | None => Build_ControllerEntry 0 [] [] 0 0 [] false 0
  end.

Lemma demo_reg2_reachable : reg_reachable demo_reg2.
Proof.
  apply (reg_next demo_reg1);
    [| by apply (reg_install _ 10 [] (demo_q 1) _ (install_io_queue 10 [] (demo_q 1) demo_reg1).2)].
  apply (reg_next demo_new); [| by apply (reg_allocate _ [] [] 4 0 (demo_q 0) false _ (Some 10))].
  by apply (reg_init 10 12).
Qed.

Lemma allocate_fresh_witness :
  (allocate [] [] 4 0 (demo_q 0) false demo_reg2 = (demo_reg2, Ok None) /\
   forall k, cntlid_min demo_reg2 <= k <= cntlid_max demo_reg2 -> is_Some (controllers demo_reg2 !! k)) \/
  exists k r' e, allocate [] [] 4 0 (demo_q 0) false demo_reg2 = (r', Ok (Some k)) /\
    controllers demo_reg2 !! k = None /\ cntlid_min demo_reg2 <= k <= cntlid_max demo_reg2 /\
    controllers r' = <[k := e]> (controllers demo_reg2) /\
    ce_cntlid e = k /\ ce_hostnqn e = [] /\ ce_max_qid e = 4 /\ ce_queues e = [demo_q 0] /\
    flags r' !! ce_traffic e = Some false /\
    (forall k' e', controllers demo_reg2 !! k' = Some e' -> ce_traffic e' <> ce_traffic e).
Proof. apply (allocate_fresh demo_reg2 [] [] 4 0 (demo_q 0) false demo_reg2_reachable). Defined.

Lemma queue_ids_unique_witness :
  exists e, controllers demo_reg2 !! 10 = Some e /\ ce_cntlid e = 10 /\
    Z.of_nat (length (ce_queues e)) <= Z.max 0 (ce_max_qid e) + 1.
Proof.
  eexists. split; [reflexivity |].
  destruct (queue_ids_unique demo_reg2 10 _ demo_reg2_reachable eq_refl) as (A & _ & B & _).
  split; [exact A | exact B].
Defined.

Lemma install_once_witness :
  install_io_queue 10 [] (demo_q 1) demo_reg2 = (demo_reg2, Err QueueExists).
Proof.
  apply (install_once demo_reg1 10 [] (demo_q 1) demo_reg2 demo_entry (demo_q 1));
    [vm_compute; reflexivity | reflexivity].
Defined.

Lemma snapshot_sorted_witness : NoDup (map ce_cntlid (Registry_snapshot demo_reg2)).
Proof. apply (snapshot_sorted demo_reg2 demo_reg2_reachable). Defined.
