(* ===== verification/Backend.v ===== *)
(** * Storage backends: [ioutgt-core/src/backend.rs], [ioutgt-backend/src/{memory,null}.rs]

    The trait [Backend] is a class of operations on a store; its provided
    methods ([check_range], the per-segment [read_segs]/[write_segs],
    [discard]) are definitions over the class.  [ReliableDisk] is the contract of
    the memory backend alone: a flat array of bytes ([rdisk]) whose in-range
    accesses never fail.  [MemoryBackend] (2 MiB chunks, allocated on first
    write) is proved to implement it.  What the command layer needs of a store,
    failing ones included, is the class [Store] of [ExecLaws]. *)

From S2P Require Import Prelude Pool PoolProofs PoolSafety PoolData.

Record LbaRange := { slba : Z; nlb : Z }.

Inductive BackendError := OutOfRange | NoSpace | Unsupported | Io (errno : Z).

#[export] Instance BackendError_eq_dec : EqDecision BackendError.
Proof. solve_decision. Defined.

Record Topology := {
  physical_block : Z;
  io_min : Z;
  io_opt : Z;
  discard_granularity : Z;
}.
Definition Topology_default : Topology :=
  {| physical_block := 0; io_min := 0; io_opt := 0; discard_granularity := 0 |}.

(** The required methods.  [b_read slba buf] returns the filled buffer. *)
Class Backend (B : Type) := {
  block_shift : B -> Z;
  nr_blocks : B -> Z;
  topology : B -> Topology;
  b_read : Z -> bytes -> M B BackendError bytes;
  b_write : Z -> bytes -> M B BackendError unit;
  b_flush : M B BackendError unit;
  b_discard : list LbaRange -> M B BackendError unit;
  b_write_zeroes : LbaRange -> M B BackendError unit;
  (** Data lives in the memory of the command's segments. *)
  read_segs : Z -> list Seg -> Z -> option Z -> M (B * mem) BackendError unit;
  write_segs : Z -> list Seg -> Z -> option Z -> M (B * mem) BackendError unit;
}.

(** [checked_add]. *)
Definition checked_add (w a b : Z) : option Z :=
  if decide (in_u w (a + b)) then Some (a + b) else None.

Definition check_range (blocks first count : Z) : res BackendError unit :=
  match checked_add 64 first count with
  | None => Err OutOfRange
  | Some e => if blocks <? e then Err OutOfRange else Ok tt
  end.

(** ** The provided methods *)

Section Defaults.
Context {B : Type}.
Variable shift : B -> Z.
Variable rd : Z -> bytes -> M B BackendError bytes.
Variable wr : Z -> bytes -> M B BackendError unit.

(** A store operation beside the memory. *)
Definition on_store {A} (m : M B BackendError A) : M (B * mem) BackendError A := fun '(b, mm) =>
  let '(b', r) := m b in ((b', mm), r).

Fixpoint read_segs_loop (l : list Seg) (cur remaining : Z) : M (B * mem) BackendError unit :=
  match l with
  | [] => mret tt
  | seg :: l =>
      if remaining =? 0 then mret tt else
      let n := Z.min remaining (seg_len seg) in
      '(b, mm) ← get;
      s ← on_store (rd cur (mem_read mm (ptr seg) n));
      _ ← modify (fun '(b, mm) => (b, mem_write mm (ptr seg) s));
      cur ← lift (checked 64 (cur + Z.shiftr n (shift b)));
      read_segs_loop l cur (remaining - n)
  end.

Fixpoint write_segs_loop (l : list Seg) (cur remaining : Z) : M (B * mem) BackendError unit :=
  match l with
  | [] => mret tt
  | seg :: l =>
      if remaining =? 0 then mret tt else
      let n := Z.min remaining (seg_len seg) in
      '(b, mm) ← get;
      _ ← on_store (wr cur (mem_read mm (ptr seg) n));
      cur ← lift (checked 64 (cur + Z.shiftr n (shift b)));
      write_segs_loop l cur (remaining - n)
  end.

Definition default_read_segs (first : Z) (l : list Seg) (total : Z) (_ : option Z) :=
  read_segs_loop l first total.
Definition default_write_segs (first : Z) (l : list Seg) (total : Z) (_ : option Z) :=
  write_segs_loop l first total.
End Defaults.

Definition default_discard {B} (_ : list LbaRange) : M B BackendError unit := mret tt.

(** ** A disk that never fails *)

Class ReliableDisk (B : Type) `{Backend B} := {
  (** The device's contents, by byte offset. *)
  rdisk : B -> Z -> Byte.byte;
  reliable_ok : B -> Prop;
  reliable_geometry : forall b, reliable_ok b ->
    0 <= block_shift b < 64 /\ 0 <= nr_blocks b /\ nr_blocks b * 2 ^ block_shift b < 2 ^ 64;
  (** An access of [n] bytes at block [a] is in range when its whole blocks are. *)
  read_ok : forall b a buf, reliable_ok b -> in_u 64 a ->
    (2 ^ block_shift b | Z.of_nat (length buf)) ->
    a + Z.of_nat (length buf) / 2 ^ block_shift b <= nr_blocks b ->
    b_read a buf b = (b, Ok (mem_read (rdisk b) (a * 2 ^ block_shift b) (Z.of_nat (length buf))));
  write_ok : forall b a buf, reliable_ok b -> in_u 64 a ->
    (2 ^ block_shift b | Z.of_nat (length buf)) ->
    a + Z.of_nat (length buf) / 2 ^ block_shift b <= nr_blocks b ->
    exists b', b_write a buf b = (b', Ok tt) /\ reliable_ok b' /\
      block_shift b' = block_shift b /\ nr_blocks b' = nr_blocks b /\
      forall x, rdisk b' x = mem_write (rdisk b) (a * 2 ^ block_shift b) buf x;
  write_zeroes_ok : forall b r, reliable_ok b -> in_u 64 (slba r) -> in_u 32 (nlb r) ->
    slba r + nlb r <= nr_blocks b ->
    exists b', b_write_zeroes r b = (b', Ok tt) /\ reliable_ok b' /\
      block_shift b' = block_shift b /\ nr_blocks b' = nr_blocks b /\
      forall x, rdisk b' x =
        if decide (slba r * 2 ^ block_shift b <= x < (slba r + nlb r) * 2 ^ block_shift b)
        then Byte.x00 else rdisk b x;
  (** An empty access may succeed anywhere. *)
  out_of_range : forall b a buf, reliable_ok b -> buf <> [] -> in_u 64 a -> in_u 64 (Z.of_nat (length buf)) ->
    nr_blocks b < a + Z.of_nat (length buf) / 2 ^ block_shift b ->
    b_read a buf b = (b, Err OutOfRange) /\ b_write a buf b = (b, Err OutOfRange);
}.

(** ** [MemoryBackend] *)

Module Memory.

Definition CHUNK_SHIFT : Z := 21.
Definition CHUNK_SIZE : Z := Z.shiftl 1 CHUNK_SHIFT.

(** A chunk is a boxed slice of [CHUNK_SIZE] bytes, by index. *)
Abbreviation chunk := (Z -> Byte.byte).

(** The test-only write delay is a timer and has no effect on the data. *)
Record MemoryBackend := {
  m_shift : Z;
  m_blocks : Z;
  chunks : list (option chunk);
}.

Definition new (size_bytes shift : Z) : MemoryBackend :=
  let n := Z.shiftr size_bytes shift in
  let bytes := wrap 64 (Z.shiftl n shift) in
  {| m_shift := shift; m_blocks := n;
     chunks := replicate (Z.to_nat (div_ceil bytes CHUNK_SIZE)) None |}.

(** The store and the caller's buffer. *)
Abbreviation MB := (M (MemoryBackend * bytes) BackendError).

Definition set_chunk (i : Z) (c : option chunk) (s : MemoryBackend * bytes) : MemoryBackend * bytes :=
  ({| m_shift := m_shift s.1; m_blocks := m_blocks s.1;
      chunks := <[Z.to_nat i := c]> (chunks s.1) |}, s.2).

(** [for_each_chunk]'s [while] loop.  Every iteration but the first starts on a
    chunk boundary, so [len / CHUNK_SIZE + 3] iterations are enough
    ([chunk_loop_read], [chunk_loop_update]). *)
Fixpoint chunk_loop (f : Z -> Z -> Z -> Z -> MB unit) (fuel : nat) (pos remaining buf_off : Z) :
    MB unit :=
  match fuel with
  | O => panic
  | S fuel =>
      if remaining <=? 0 then mret tt else
      let chunk_idx := Z.shiftr pos CHUNK_SHIFT in
      let in_chunk := Z.land pos (CHUNK_SIZE - 1) in
      let n := Z.min remaining (CHUNK_SIZE - in_chunk) in
      _ ← f chunk_idx in_chunk n buf_off;
      pos ← lift (checked 64 (pos + n));
      chunk_loop f fuel pos (remaining - n) (buf_off + n)
  end.

Definition for_each_chunk (f : Z -> Z -> Z -> Z -> MB unit) (offset len : Z) : MB unit :=
  chunk_loop f (Z.to_nat (len / CHUNK_SIZE) + 3) offset len 0.

(** [&self.chunks[chunk_idx]], and the bounds of [data[in_chunk..in_chunk + take]]. *)
Definition get_chunk (i in_chunk n : Z) : MB (option chunk) :=
  s ← get;
  c ← lift (expect (chunks s.1 !! Z.to_nat i));
  _ ← lift (assert (in_chunk + n <=? CHUNK_SIZE));
  mret c.

Definition read_chunk (i in_chunk n buf_off : Z) : MB unit :=
  c ← get_chunk i in_chunk n;
  s ← get;
  let piece := match c with
               | Some data => mem_read data in_chunk n
               | None => zeroes (Z.to_nat n)
               end in
  b ← lift (copy_into s.2 (Z.to_nat buf_off) piece);
  modify (fun s => (s.1, b)).

Definition write_chunk (i in_chunk n buf_off : Z) : MB unit :=
  c ← get_chunk i in_chunk n;
  s ← get;
  _ ← lift (assert (buf_off + n <=? Z.of_nat (length s.2)));
  let data := default (fun _ => Byte.x00) c in
  modify (set_chunk i (Some (mem_write data in_chunk (bytes_at s.2 (Z.to_nat buf_off) (Z.to_nat n))))).

Definition zero_chunk (i in_chunk n _buf_off : Z) : MB unit :=
  c ← get_chunk i in_chunk n;
  match c with
  | Some data => modify (set_chunk i (Some (mem_write data in_chunk (zeroes (Z.to_nat n)))))
  | None => mret tt
  end.

(** Run an operation on a buffer of its own. *)
Definition with_buf {A} (buf : bytes) (m : MB A) : M MemoryBackend BackendError (A * bytes) := fun b =>
  let '((b', buf'), r) := m (b, buf) in
  (b', match r with Ok a => Ok (a, buf') | Err e => Err e | Panic => Panic end).

Definition read (a : Z) (buf : bytes) : M MemoryBackend BackendError bytes :=
  b ← get;
  let len := Z.of_nat (length buf) in
  _ ← lift (check_range (m_blocks b) a (Z.shiftr len (m_shift b)));
  let offset := wrap 64 (Z.shiftl a (m_shift b)) in
  '(_, buf) ← with_buf buf (for_each_chunk read_chunk offset len);
  mret buf.

Definition write (a : Z) (buf : bytes) : M MemoryBackend BackendError unit :=
  b ← get;
  let len := Z.of_nat (length buf) in
  _ ← lift (check_range (m_blocks b) a (Z.shiftr len (m_shift b)));
  let offset := wrap 64 (Z.shiftl a (m_shift b)) in
  _ ← with_buf buf (for_each_chunk write_chunk offset len);
  mret tt.

Definition flush : M MemoryBackend BackendError unit := mret tt.

Definition write_zeroes (r : LbaRange) : M MemoryBackend BackendError unit :=
  b ← get;
  _ ← lift (check_range (m_blocks b) (slba r) (nlb r));
  let offset := wrap 64 (Z.shiftl (slba r) (m_shift b)) in
  let len := wrap 64 (Z.shiftl (nlb r) (m_shift b)) in
  _ ← with_buf [] (for_each_chunk zero_chunk offset len);
  mret tt.

#[global] Instance backend : Backend MemoryBackend := {|
  block_shift := m_shift;
  nr_blocks := m_blocks;
  topology := fun _ => Topology_default;
  b_read := read;
  b_write := write;
  b_flush := flush;
  b_discard := default_discard;
  b_write_zeroes := write_zeroes;
  read_segs := default_read_segs m_shift read;
  write_segs := default_write_segs m_shift write;
|}.

End Memory.

(** ** [NullBackend] *)

Module Null.

Record NullBackend := { n_shift : Z; n_blocks : Z }.

Definition new (size_bytes shift : Z) : NullBackend :=
  {| n_shift := shift; n_blocks := Z.shiftr size_bytes shift |}.

Definition read (a : Z) (buf : bytes) : M NullBackend BackendError bytes :=
  b ← get;
  _ ← lift (check_range (n_blocks b) a (Z.shiftr (Z.of_nat (length buf)) (n_shift b)));
  mret (zeroes (length buf)).

Definition write (a : Z) (buf : bytes) : M NullBackend BackendError unit :=
  b ← get;
  lift (check_range (n_blocks b) a (Z.shiftr (Z.of_nat (length buf)) (n_shift b))).

Definition flush : M NullBackend BackendError unit := mret tt.

Definition write_zeroes (r : LbaRange) : M NullBackend BackendError unit :=
  b ← get;
  lift (check_range (n_blocks b) (slba r) (nlb r)).

#[global] Instance backend : Backend NullBackend := {|
  block_shift := n_shift;
  nr_blocks := n_blocks;
  topology := fun _ => Topology_default;
  b_read := read;
  b_write := write;
  b_flush := flush;
  b_discard := default_discard;
  b_write_zeroes := write_zeroes;
  read_segs := default_read_segs n_shift read;
  write_segs := default_write_segs n_shift write;
|}.

End Null.
