(* ===== verification/BackendProofs.v ===== *)
(** * The memory backend implements a flat store; segmented IO is flat IO *)

From S2P Require Import Prelude Pool PoolProofs PoolSafety PoolData Backend.
Import Memory.

Abbreviation CH := CHUNK_SIZE.

Lemma CH_val : CH = 2097152.
Proof. reflexivity. Qed.

Lemma chunk_index pos : Z.shiftr pos CHUNK_SHIFT = pos / CH.
Proof. apply Z.shiftr_div_pow2. done. Qed.

Lemma chunk_offset pos : Z.land pos (CH - 1) = pos mod CH.
Proof. change (CH - 1) with (Z.ones CHUNK_SHIFT). by rewrite Z.land_ones. Qed.

(** ** The bytes of the store *)

Definition mdisk (m : MemoryBackend) (x : Z) : Byte.byte :=
  if decide (0 <= x) then
    match chunks m !! Z.to_nat (x / CH) with
    | Some (Some d) => d (x mod CH)
    | _ => Byte.x00
    end
  else Byte.x00.

Definition cap (m : MemoryBackend) : Z := Z.of_nat (length (chunks m)) * CH.

Definition mem_ok (m : MemoryBackend) : Prop :=
  0 <= m_shift m < 64 /\ 0 <= m_blocks m /\ m_blocks m * 2 ^ m_shift m < 2 ^ 64 /\
  m_blocks m * 2 ^ m_shift m <= cap m.

Definition same_shape (m m' : MemoryBackend) : Prop :=
  m_shift m' = m_shift m /\ m_blocks m' = m_blocks m /\ length (chunks m') = length (chunks m).

Lemma in_chunk_div pos i :
  0 <= i -> pos mod CH + i < CH -> (pos + i) / CH = pos / CH /\ (pos + i) mod CH = pos mod CH + i.
Proof.
  intros Hi Hlt. pose proof (Z.mod_pos_bound pos CH ltac:(done)).
  pose proof (Z.div_mod pos CH ltac:(done)) as Hd.
  split; symmetry; [apply (Z.div_unique _ _ _ (pos mod CH + i)) | apply (Z.mod_unique _ _ (pos / CH))]; lia.
Qed.

Lemma chunk_in_range m pos :
  0 <= pos < cap m -> exists c, chunks m !! Z.to_nat (pos / CH) = Some c.
Proof.
  intros H. unfold cap in H. apply lookup_lt_is_Some_2.
  pose proof (Z.div_pos pos CH ltac:(lia) ltac:(done)).
  assert (pos / CH < Z.of_nat (length (chunks m))) by (apply Z.div_lt_upper_bound; [done | lia]). lia.
Qed.

(** One chunk's worth of the store. *)
Lemma mdisk_chunk m pos n c :
  0 <= pos -> pos mod CH + n <= CH -> chunks m !! Z.to_nat (pos / CH) = Some c ->
  mem_read (mdisk m) pos n =
    match c with Some d => mem_read d (pos mod CH) n | None => zeroes (Z.to_nat n) end.
Proof.
  intros Hp Hn Hc. assert (Hx : forall i, 0 <= i < n -> mdisk m (pos + i) =
    match c with Some d => d (pos mod CH + i) | None => Byte.x00 end).
  { intros i Hi. unfold mdisk. rewrite decide_True by lia.
    destruct (in_chunk_div pos i) as [-> ->]; [lia.. |]. rewrite Hc. by destruct c. }
  apply list_eq. intros i. destruct (decide (Z.of_nat i < n)) as [Hi | Hi].
  - rewrite mem_read_lookup, Hx by lia. destruct c.
    + by rewrite mem_read_lookup.
    + symmetry. apply lookup_replicate. split; [done | lia].
  - assert (forall m a, mem_read m a n !! i = None) as Hnone.
    { intros. apply lookup_ge_None_2. unfold mem_read. rewrite length_map, length_seqZ. lia. }
    rewrite Hnone. destruct c; [done |]. symmetry. apply lookup_ge_None_2. unfold zeroes.
    rewrite length_replicate. lia.
Qed.

(** Updating part of one chunk updates those bytes of the store. *)
Lemma mdisk_set_chunk m pos n d0 d x :
  0 <= pos < cap m -> 0 < n -> pos mod CH + n <= CH ->
  (forall y, 0 <= y < CH -> d0 y =
     match chunks m !! Z.to_nat (pos / CH) with Some (Some e) => e y | _ => Byte.x00 end) ->
  (forall y, ~ (pos mod CH <= y < pos mod CH + n) -> d y = d0 y) ->
  mdisk (set_chunk (pos / CH) (Some d) (m, [])).1 x =
    if decide (pos <= x < pos + n) then d (x - pos + pos mod CH) else mdisk m x.
Proof.
  intros Hp Hn Hr Hd0 Hd. destruct (chunk_in_range m pos Hp) as [c Hc].
  pose proof (lookup_lt_Some _ _ _ Hc) as Hlt. unfold set_chunk. cbn [fst].
  pose proof (Z.mod_pos_bound pos CH ltac:(done)) as Hm.
  pose proof (Z.div_mod pos CH ltac:(done)) as Hdm. unfold mdisk at 1. cbn [chunks].
  destruct (decide (pos <= x < pos + n)) as [Hx | Hx].
  - rewrite decide_True by lia.
    destruct (in_chunk_div pos (x - pos)) as [He1 He2]; [lia.. |].
    replace (pos + (x - pos)) with x in He1, He2 by lia. rewrite He1, He2.
    rewrite list_lookup_insert_eq by done. f_equal. lia.
  - unfold mdisk. destruct (decide (0 <= x)) as [H0 | H0]; [| done].
    destruct (decide (x / CH = pos / CH)) as [He | Hne].
    + rewrite He, list_lookup_insert_eq by done.
      pose proof (Z.mod_pos_bound x CH ltac:(done)). pose proof (Z.div_mod x CH ltac:(done)).
      rewrite He in *. rewrite Hd, Hd0 by lia. done.
    + rewrite list_lookup_insert_ne; [done |]. intros Heq.
      pose proof (Z.div_pos x CH ltac:(lia) ltac:(done)).
      pose proof (Z.div_pos pos CH ltac:(lia) ltac:(done)). lia.
Qed.

(** ** The chunk loop *)

(** Enough iterations for [rem] bytes at [pos]. *)
Definition enough (fuel : nat) (pos rem : Z) : Prop :=
  (1 <= fuel)%nat /\ (0 < rem -> rem + pos mod CH < (Z.of_nat fuel - 1) * CH).

Lemma enough_start pos len : 0 <= len -> enough (Z.to_nat (len / CH) + 3) pos len.
Proof.
  intros H. pose proof (Z.mod_pos_bound pos CH ltac:(done)).
  pose proof (Z.div_mod len CH ltac:(done)). pose proof (Z.mod_pos_bound len CH ltac:(done)).
  pose proof (Z.div_pos len CH ltac:(lia) ltac:(done)). split; [lia |]. intros _. rewrite CH_val in *. lia.
Qed.

Lemma enough_next fuel pos rem :
  enough (S fuel) pos rem -> 0 < rem -> 0 <= pos ->
  let n := Z.min rem (CH - pos mod CH) in
  0 < n /\ pos mod CH + n <= CH /\ enough fuel (pos + n) (rem - n).
Proof.
  intros [_ Hf] Hr Hp n. specialize (Hf Hr). pose proof (Z.mod_pos_bound pos CH ltac:(done)) as Hm.
  pose proof (Z.div_mod pos CH ltac:(done)) as Hd.
  replace ((Z.of_nat (S fuel) - 1) * CH) with ((Z.of_nat fuel - 1) * CH + CH) in Hf by lia.
  split; [lia |]. split; [lia |]. split.
  { destruct fuel; [cbn in Hf; lia | lia]. }
  intros Hr'. assert (n = CH - pos mod CH) as -> by lia.
  replace ((pos + (CH - pos mod CH)) mod CH) with 0; [lia |]. symmetry.
  replace (pos + (CH - pos mod CH)) with ((pos / CH + 1) * CH) by lia.
  by apply Z.mod_mul.
Qed.

Lemma chunk_loop_read fuel m buf pos rem off :
  0 <= pos -> 0 <= rem -> pos + rem <= cap m -> pos + rem < 2 ^ 64 -> 0 <= off ->
  off + rem = Z.of_nat (length buf) -> enough fuel pos rem ->
  chunk_loop read_chunk fuel pos rem off (m, buf) =
    ((m, take (Z.to_nat off) buf ++ mem_read (mdisk m) pos rem), Ok tt).
Proof.
  revert buf pos rem off. induction fuel as [|fuel IH]; intros buf pos rem off Hp Hr Hc H64 Ho Hl Hf.
  { destruct Hf. lia. }
  cbn [chunk_loop]. destruct (rem <=? 0) eqn:Hz; zbool.
  { replace rem with 0 by lia. unfold mret, M_ret. do 2 f_equal. cbn. rewrite app_nil_r.
    rewrite take_ge by lia. done. }
  destruct (enough_next _ _ _ Hf Hz Hp) as (Hn0 & Hn1 & Hf').
  rewrite chunk_index, chunk_offset. set (n := Z.min rem (CH - pos mod CH)) in *.
  destruct (chunk_in_range m pos ltac:(lia)) as [c Hck].
  unfold mbind, M_bind at 1, read_chunk, get_chunk, mbind, M_bind, get, lift, modify, mret, M_ret, expect, assert.
  cbn [fst snd]. rewrite Hck. rewrite (proj2 (Z.leb_le _ CH)) by lia.
  assert (Hpiece : match c with Some data => mem_read data (pos mod CH) n | None => zeroes (Z.to_nat n) end
                   = mem_read (mdisk m) pos n) by (symmetry; by apply mdisk_chunk).
  rewrite Hpiece. pose proof (mem_read_length (mdisk m) pos n ltac:(lia)) as Hpl.
  rewrite copy_into_ok by (cbn [snd]; lia). cbn [fst snd]. rewrite checked_ok by (unfold in_u; lia).
  rewrite IH; try done; try lia.
  - do 2 f_equal.
    rewrite (mem_read_split (mdisk m) pos rem n) by lia.
    rewrite (app_assoc (take (Z.to_nat off) buf) _ (mem_read _ (pos + n) _)). f_equal.
    rewrite app_assoc. apply take_app_length'. rewrite length_app, length_take. lia.
  - rewrite !length_app, length_take, length_drop. lia.
Qed.

(** Any per-chunk update that sets the bytes of its range to [g]. *)
Lemma chunk_loop_update f (g : Z -> Byte.byte) buf lo hi fuel m pos :
  (forall m pos n, lo <= pos -> pos + n <= hi -> 0 <= pos < cap m -> 0 < n -> pos mod CH + n <= CH ->
     exists m', f (pos / CH) (pos mod CH) n (pos - lo) (m, buf) = ((m', buf), Ok tt) /\ same_shape m m' /\
       forall x, mdisk m' x = if decide (pos <= x < pos + n) then g x else mdisk m x) ->
  0 <= lo -> lo <= pos <= hi -> hi <= cap m -> hi < 2 ^ 64 -> enough fuel pos (hi - pos) ->
  exists m', chunk_loop f fuel pos (hi - pos) (pos - lo) (m, buf) = ((m', buf), Ok tt) /\
    same_shape m m' /\ forall x, mdisk m' x = if decide (pos <= x < hi) then g x else mdisk m x.
Proof.
  intros Hstep Hlo. revert m pos. induction fuel as [|fuel IH]; intros m pos Hp Hc H64 Hf.
  { destruct Hf. lia. }
  cbn [chunk_loop]. destruct (hi - pos <=? 0) eqn:Hz; zbool.
  { exists m. split; [done |]. split; [done |]. intros x. by rewrite decide_False by lia. }
  destruct (enough_next _ _ _ Hf Hz ltac:(lia)) as (Hn0 & Hn1 & Hf').
  rewrite chunk_index, chunk_offset. set (n := Z.min (hi - pos) (CH - pos mod CH)) in *.
  destruct (Hstep m pos n) as (m1 & He & (S1 & S2 & S3) & Hd1); [lia.. |].
  unfold mbind, M_bind. rewrite He. unfold lift. rewrite checked_ok by (unfold in_u; lia).
  replace (hi - pos - n) with (hi - (pos + n)) in * by lia.
  replace (pos - lo + n) with (pos + n - lo) by lia.
  destruct (IH m1 (pos + n)) as (m2 & He2 & (T1 & T2 & T3) & Hd2); try done; [lia | unfold cap in *; lia |].
  exists m2. split; [exact He2 |]. split; [unfold same_shape; split_and!; congruence |].
  intros x. rewrite Hd2, Hd1. repeat case_decide; try done; lia.
Qed.

Lemma write_chunk_step buf lo m pos n :
  lo <= pos -> pos + n <= lo + Z.of_nat (length buf) -> 0 <= pos < cap m -> 0 < n ->
  pos mod CH + n <= CH ->
  exists m', write_chunk (pos / CH) (pos mod CH) n (pos - lo) (m, buf) = ((m', buf), Ok tt) /\
    same_shape m m' /\
    forall x, mdisk m' x = if decide (pos <= x < pos + n)
                           then nth (Z.to_nat (x - lo)) buf Byte.x00 else mdisk m x.
Proof.
  intros Hlo Hhi Hp Hn Hr. destruct (chunk_in_range m pos Hp) as [c Hck].
  pose proof (Z.mod_pos_bound pos CH ltac:(done)) as Hm.
  unfold write_chunk, get_chunk, mbind, M_bind, get, lift, modify, mret, M_ret, expect, assert.
  cbn [fst snd]. rewrite Hck, (proj2 (Z.leb_le _ CH)) by lia.
  rewrite (proj2 (Z.leb_le (pos - lo + n) _)) by (cbn [snd]; lia).
  cbn [snd]. set (piece := bytes_at buf (Z.to_nat (pos - lo)) (Z.to_nat n)).
  assert (Hpl : Z.of_nat (length piece) = n) by (unfold piece, bytes_at; rewrite length_take, length_drop; lia).
  eexists. split; [unfold set_chunk; cbn; reflexivity |]. split.
  { unfold same_shape. cbn. by rewrite length_insert. }
  intros x. pose proof (mdisk_set_chunk m pos n (default (fun _ => Byte.x00) c)
    (mem_write (default (fun _ => Byte.x00) c) (pos mod CH) piece) x Hp Hn Hr) as Hset.
  unfold set_chunk in Hset. cbn [fst] in Hset. rewrite Hset; clear Hset.
  - case_decide as Hx; [| done]. unfold mem_write. rewrite decide_True by lia.
    unfold piece, bytes_at. rewrite nth_firstn, nth_skipn.
    replace (Z.to_nat (x - pos + pos mod CH - pos mod CH) <? Z.to_nat n)%nat with true
      by (symmetry; apply Nat.ltb_lt; lia). f_equal. lia.
  - intros y Hy. rewrite Hck. by destruct c.
  - intros y Hy. apply mem_write_outside. lia.
Qed.

Lemma zero_chunk_step buf lo m pos n :
  0 <= pos < cap m -> 0 < n -> pos mod CH + n <= CH ->
  exists m', zero_chunk (pos / CH) (pos mod CH) n (pos - lo) (m, buf) = ((m', buf), Ok tt) /\
    same_shape m m' /\
    forall x, mdisk m' x = if decide (pos <= x < pos + n) then Byte.x00 else mdisk m x.
Proof.
  intros Hp Hn Hr. destruct (chunk_in_range m pos Hp) as [c Hck].
  pose proof (Z.mod_pos_bound pos CH ltac:(done)) as Hm.
  unfold zero_chunk, get_chunk, mbind, M_bind, get, lift, modify, mret, M_ret, expect, assert.
  cbn [fst snd]. rewrite Hck, (proj2 (Z.leb_le _ CH)) by lia. destruct c as [d|].
  - eexists. split; [unfold set_chunk; cbn; reflexivity |]. split.
    { unfold same_shape. cbn. by rewrite length_insert. }
    intros x. pose proof (mdisk_set_chunk m pos n d
      (mem_write d (pos mod CH) (zeroes (Z.to_nat n))) x Hp Hn Hr) as Hset.
    unfold set_chunk in Hset. cbn [fst] in Hset. rewrite Hset; clear Hset.
    + case_decide as Hx; [| done]. unfold mem_write, zeroes. rewrite length_replicate, decide_True by lia.
      by rewrite nth_lookup, lookup_replicate_2 by lia.
    + intros y Hy. by rewrite Hck.
    + intros y Hy. apply mem_write_outside. unfold zeroes. rewrite length_replicate. lia.
  - exists m. split; [done |]. split; [done |]. intros x. case_decide as Hx; [| done].
    pose proof (mdisk_chunk m pos n None ltac:(lia) Hr Hck) as Hz.
    assert (mem_read (mdisk m) pos n !! Z.to_nat (x - pos) = Some (mdisk m x)) as Hl.
    { rewrite mem_read_lookup by lia. do 2 f_equal. lia. }
    rewrite Hz in Hl. unfold zeroes in Hl. by apply lookup_replicate in Hl as [-> _].
Qed.

(** ** [ReliableDisk] for the memory backend *)

Lemma shiftl_u64 m a n :
  mem_ok m -> 0 <= a -> 0 <= n -> a + n <= m_blocks m ->
  wrap 64 (Z.shiftl a (m_shift m)) = a * 2 ^ m_shift m /\
  0 <= a * 2 ^ m_shift m /\ (a + n) * 2 ^ m_shift m <= cap m /\ (a + n) * 2 ^ m_shift m < 2 ^ 64.
Proof.
  intros (H1 & H2 & H3 & H4) Ha Hn Hle.
  assert (0 < 2 ^ m_shift m) by (apply Z.pow_pos_nonneg; lia).
  assert ((a + n) * 2 ^ m_shift m <= m_blocks m * 2 ^ m_shift m) by (apply Z.mul_le_mono_nonneg_r; lia).
  assert (0 <= a * 2 ^ m_shift m) by (apply Z.mul_nonneg_nonneg; lia).
  assert (a * 2 ^ m_shift m <= (a + n) * 2 ^ m_shift m) by (apply Z.mul_le_mono_nonneg_r; lia).
  rewrite Z.shiftl_mul_pow2 by lia. rewrite wrap_small by (unfold in_u; lia). lia.
Qed.

Lemma check_range_ok blocks a n :
  0 <= a -> 0 <= n -> a + n <= blocks -> in_u 64 blocks -> check_range blocks a n = Ok tt.
Proof.
  intros Ha Hn Hle Hb. unfold check_range, checked_add. unfold in_u in Hb.
  rewrite decide_True by (unfold in_u; lia). by rewrite (proj2 (Z.ltb_ge _ _)) by lia.
Qed.

Lemma check_range_bad blocks a n : blocks < a + n -> check_range blocks a n = Err OutOfRange.
Proof.
  intros H. unfold check_range, checked_add. case_decide; [| done].
  by rewrite (proj2 (Z.ltb_lt _ _)) by lia.
Qed.

Lemma blocks_u64 m : mem_ok m -> in_u 64 (m_blocks m).
Proof.
  intros (H1 & H2 & H3 & _). pose proof (Z.pow_pos_nonneg 2 (m_shift m) ltac:(lia) ltac:(lia)).
  unfold in_u. nia.
Qed.

Lemma len_blocks m (len : Z) :
  mem_ok m -> 0 <= len -> Z.shiftr len (m_shift m) = len / 2 ^ m_shift m /\ 0 <= len / 2 ^ m_shift m.
Proof.
  intros (H1 & _) Hl. rewrite Z.shiftr_div_pow2 by lia. split; [done |].
  apply Z.div_pos; [done |]. apply Z.pow_pos_nonneg; lia.
Qed.

Lemma aligned_len m (len : Z) : mem_ok m -> (2 ^ m_shift m | len) -> len = len / 2 ^ m_shift m * 2 ^ m_shift m.
Proof.
  intros (H1 & _) [k ->]. rewrite Z.div_mul; [done |]. pose proof (Z.pow_pos_nonneg 2 (m_shift m)). lia.
Qed.

Lemma mem_read_spec m a buf :
  mem_ok m -> in_u 64 a -> (2 ^ m_shift m | Z.of_nat (length buf)) ->
  a + Z.of_nat (length buf) / 2 ^ m_shift m <= m_blocks m ->
  Memory.read a buf m =
    (m, Ok (mem_read (mdisk m) (a * 2 ^ m_shift m) (Z.of_nat (length buf)))).
Proof.
  intros Hok Ha Hd Hle. set (len := Z.of_nat (length buf)) in *. unfold in_u in Ha.
  destruct (len_blocks m len Hok ltac:(lia)) as [Hs Hs0].
  destruct (shiftl_u64 m a (len / 2 ^ m_shift m) Hok) as (Hw & H0 & Hcap & H64); [lia.. |].
  rewrite Z.mul_add_distr_r, <- (aligned_len m len Hok Hd) in Hcap, H64.
  unfold Memory.read, for_each_chunk, with_buf, mbind, M_bind, get, lift, mret, M_ret. fold len.
  rewrite Hs, check_range_ok, Hw by (try lia; by apply blocks_u64).
  rewrite chunk_loop_read; try done; try lia. apply enough_start; lia.
Qed.

Lemma mem_write_spec m a buf :
  mem_ok m -> in_u 64 a -> (2 ^ m_shift m | Z.of_nat (length buf)) ->
  a + Z.of_nat (length buf) / 2 ^ m_shift m <= m_blocks m ->
  exists m', Memory.write a buf m = (m', Ok tt) /\ same_shape m m' /\
    forall x, mdisk m' x = mem_write (mdisk m) (a * 2 ^ m_shift m) buf x.
Proof.
  intros Hok Ha Hd Hle. set (len := Z.of_nat (length buf)) in *. unfold in_u in Ha.
  destruct (len_blocks m len Hok ltac:(lia)) as [Hs Hs0].
  destruct (shiftl_u64 m a (len / 2 ^ m_shift m) Hok) as (Hw & H0 & Hcap & H64); [lia.. |].
  rewrite Z.mul_add_distr_r, <- (aligned_len m len Hok Hd) in Hcap, H64.
  set (off := a * 2 ^ m_shift m) in *.
  destruct (chunk_loop_update write_chunk (fun x => nth (Z.to_nat (x - off)) buf Byte.x00) buf off (off + len)
              (Z.to_nat (len / CH) + 3) m off) as (m' & He & Hsh & Hx); try done; try lia.
  { intros m0 pos n A B D E F. by apply write_chunk_step. }
  { replace (off + len - off) with len by lia. apply enough_start. lia. }
  exists m'. split; [| split; [done |]].
  - unfold Memory.write, for_each_chunk, with_buf, mbind, M_bind, get, lift, mret, M_ret. fold len.
    rewrite Hs, check_range_ok, Hw by (try lia; by apply blocks_u64).
    replace (off + len - off) with len in He by lia. rewrite Z.sub_diag in He. by rewrite He.
  - intros x. rewrite Hx. done.
Qed.

Lemma mem_zero_spec m r :
  mem_ok m -> in_u 64 (slba r) -> in_u 32 (nlb r) -> slba r + nlb r <= m_blocks m ->
  exists m', Memory.write_zeroes r m = (m', Ok tt) /\ same_shape m m' /\
    forall x, mdisk m' x =
      if decide (slba r * 2 ^ m_shift m <= x < (slba r + nlb r) * 2 ^ m_shift m)
      then Byte.x00 else mdisk m x.
Proof.
  intros Hok Ha Hn Hle. unfold in_u in *.
  destruct (shiftl_u64 m (slba r) (nlb r) Hok) as (Hw & H0 & Hcap & H64); [lia.. |].
  destruct (shiftl_u64 m (nlb r) 0 Hok) as (Hwl & Hl0 & _); [lia.. |].
  rewrite Z.mul_add_distr_r in *.
  set (off := slba r * 2 ^ m_shift m) in *. set (len := nlb r * 2 ^ m_shift m) in *.
  destruct (chunk_loop_update zero_chunk (fun _ => Byte.x00) [] off (off + len)
              (Z.to_nat (len / CH) + 3) m off) as (m' & He & Hsh & Hx); try done; try lia.
  { intros m0 pos n A B D E F. by apply zero_chunk_step. }
  { replace (off + len - off) with len by lia. by apply enough_start. }
  exists m'. split; [| split; [done |]].
  - unfold Memory.write_zeroes, for_each_chunk, with_buf, mbind, M_bind, get, lift, mret, M_ret.
    rewrite check_range_ok, Hw, Hwl by (try lia; by apply blocks_u64).
    replace (off + len - off) with len in He by lia. rewrite Z.sub_diag in He. by rewrite He.
  - done.
Qed.

Lemma same_shape_ok m m' : mem_ok m -> same_shape m m' -> mem_ok m'.
Proof. unfold mem_ok, cap. by intros H (-> & -> & ->). Qed.

#[export] Instance memory_laws : ReliableDisk MemoryBackend.
Proof.
  refine {| rdisk := mdisk; reliable_ok := mem_ok |}; cbn.
  - intros b (? & ? & ? & ?). done.
  - apply mem_read_spec.
  - intros b a buf Hok Ha Hd Hle. destruct (mem_write_spec b a buf Hok Ha Hd Hle) as (b' & He & Hsh & Hx).
    exists b'. split; [done |]. split; [by eapply same_shape_ok |]. by destruct Hsh as (? & ? & _).
  - intros b r Hok Ha Hn Hle. destruct (mem_zero_spec b r Hok Ha Hn Hle) as (b' & He & Hsh & Hx).
    exists b'. split; [done |]. split; [by eapply same_shape_ok |]. by destruct Hsh as (? & ? & _).
  - intros b a buf Hok _ Ha Hb Hgt. destruct (len_blocks b (Z.of_nat (length buf)) Hok ltac:(lia)) as [Hs _].
    unfold Memory.read, Memory.write, mbind, M_bind, get, lift.
    rewrite Hs, check_range_bad by done. done.
Defined.

Lemma new_mem_ok size shift :
  0 <= shift < 64 -> 0 <= size < 2 ^ 64 -> mem_ok (Memory.new size shift).
Proof.
  intros Hs Hz. unfold mem_ok, cap, Memory.new. cbn [m_shift m_blocks chunks].
  assert (0 < 2 ^ shift) by (apply Z.pow_pos_nonneg; lia).
  rewrite Z.shiftr_div_pow2, Z.shiftl_mul_pow2 by lia.
  pose proof (Z.div_pos size (2 ^ shift) ltac:(lia) ltac:(lia)).
  pose proof (Z.mul_div_le size (2 ^ shift) ltac:(lia)).
  assert (0 <= size / 2 ^ shift * 2 ^ shift) by (apply Z.mul_nonneg_nonneg; lia).
  rewrite wrap_small by (unfold in_u; lia). rewrite length_replicate.
  set (n := size / 2 ^ shift * 2 ^ shift) in *. split_and!; try lia.
  unfold div_ceil. pose proof (Z.div_mod (n + CH - 1) CH ltac:(done)).
  pose proof (Z.mod_pos_bound (n + CH - 1) CH ltac:(done)).
  pose proof (Z.div_pos (n + CH - 1) CH ltac:(rewrite CH_val; lia) ltac:(done)).
  rewrite Z2Nat.id by done. lia.
Qed.
