(* ===== verification/SegIO.v ===== *)
(** * Segmented IO against the store interface

    The trait's default [read_segs]/[write_segs], proved against [ReliableDisk]
    alone: moving a command's scattered buffer to or from a store is one flat
    array copy, for every store that keeps the laws. *)

From S2P Require Import Prelude Pool PoolProofs PoolSafety PoolData Backend BackendProofs.

Section SegIO.
Context {B : Type} {HB : Backend B} {SL : ReliableDisk B}.

(** The default methods of the trait, at this store. *)
Definition seg_read := default_read_segs block_shift b_read.
Definition seg_write := default_write_segs block_shift b_write.

(** Every segment holds whole blocks. *)
Definition blocked (bs : Z) (l : list Seg) : Prop := Forall (fun s => 0 < seg_len s /\ (bs | seg_len s)) l.

Lemma mem_write_app (D : mem) p a b x :
  mem_write (mem_write D p a) (p + Z.of_nat (length a)) b x = mem_write D p (a ++ b) x.
Proof.
  unfold mem_write. rewrite length_app. repeat case_decide; try lia; try done.
  - rewrite app_nth2 by lia. f_equal. lia.
  - by rewrite app_nth1 by lia.
Qed.

Lemma mem_write_nil (D : mem) p x : mem_write D p [] x = D x.
Proof. apply mem_write_outside. cbn. lia. Qed.

Lemma mem_write_ext (D D' : mem) p a x : D x = D' x -> mem_write D p a x = mem_write D' p a x.
Proof. intros H. unfold mem_write. by rewrite H. Qed.

Lemma take_mem_read m a n k : 0 <= k <= n -> take (Z.to_nat k) (mem_read m a n) = mem_read m a k.
Proof.
  intros H. rewrite (mem_read_split m a n k) by lia. apply take_app_length'.
  pose proof (mem_read_length m a k). lia.
Qed.

Lemma block_div bs n : 0 < bs -> (bs | n) -> n / bs * bs = n.
Proof. intros Hb [k ->]. rewrite Z.div_mul; lia. Qed.

Lemma write_segs_loop_ok b mm l cur rem :
  reliable_ok b -> segs_ok l -> blocked (2 ^ block_shift b) l ->
  0 <= cur -> 0 <= rem <= seg_total l -> (2 ^ block_shift b | rem) ->
  cur + rem / 2 ^ block_shift b <= nr_blocks b ->
  exists b', write_segs_loop block_shift b_write l cur rem (b, mm) = ((b', mm), Ok tt) /\ reliable_ok b' /\
    block_shift b' = block_shift b /\ nr_blocks b' = nr_blocks b /\
    forall x, rdisk b' x = mem_write (rdisk b) (cur * 2 ^ block_shift b) (take (Z.to_nat rem) (flat mm l)) x.
Proof.
  revert b cur rem. induction l as [|s l IH]; intros b cur rem Hok Hsg Hbl Hc Hr Hd Hle.
  { cbn in Hr. replace rem with 0 by lia. exists b. split_and!; try done.
    intros x. change (take (Z.to_nat 0) (flat mm [])) with (@nil Byte.byte). by rewrite mem_write_nil. }
  destruct (reliable_geometry b Hok) as (Hs & Hn & H64). set (bs := 2 ^ block_shift b) in *.
  assert (Hbs : 0 < bs) by (apply Z.pow_pos_nonneg; lia).
  destruct Hsg as (_ & _ & Hsg). cbn [seg_total] in Hr. cbn [write_segs_loop].
  apply list.Forall_cons in Hbl as [[Hl0 Hld] Hbl].
  destruct (rem =? 0) eqn:Hz; zbool.
  { subst rem. exists b. split_and!; try done. intros x. change (Z.to_nat 0) with 0%nat. by rewrite take_0, mem_write_nil. }
  set (n := Z.min rem (seg_len s)).
  assert (Hnd : (bs | n)) by (unfold n; destruct (Z.min_spec rem (seg_len s)) as [[_ ->] | [_ ->]]; done).
  pose proof (block_div bs n Hbs Hnd) as Hnb. pose proof (block_div bs rem Hbs Hd) as Hrb.
  pose proof (mem_read_length mm (ptr s) n ltac:(lia)) as Hrl.
  assert (Hble : n / bs <= rem / bs) by (apply Z.div_le_mono; lia).
  assert (0 <= n / bs) by (apply Z.div_pos; lia).
  assert (nr_blocks b < 2 ^ 64) by nia.
  destruct (write_ok b cur (mem_read mm (ptr s) n)) as (b1 & He & Hok1 & G1 & G2 & Hx1); try done.
  { unfold in_u. lia. }
  { by rewrite Hrl. }
  { rewrite Hrl. fold bs. lia. }
  unfold mbind, M_bind, get, on_store, lift, mret, M_ret. rewrite He. cbn [fst snd].
  rewrite Z.shiftr_div_pow2 by lia. fold bs. rewrite checked_ok by (unfold in_u; lia).
  assert (Hrd : (bs | rem - n)) by (by apply Z.divide_sub_r).
  assert (Hsub : (rem - n) / bs = rem / bs - n / bs).
  { apply (Z.mul_reg_r _ _ bs); [lia |]. rewrite block_div by done. rewrite Z.mul_sub_distr_r. lia. }
  destruct (IH b1 (cur + n / bs) (rem - n)) as (b2 & -> & Hok2 & K1 & K2 & Hx2); try done; try lia;
    try (rewrite ?G1, ?G2; fold bs; done || lia).
  { split; [lia |]. destruct (Z.min_spec rem (seg_len s)) as [[? Hm] | [? Hm]]; fold n in Hm; [| lia].
    pose proof (seg_total_nonneg l Hsg). lia. }
  exists b2. split; [done |]. split; [done |]. split; [congruence |]. split; [congruence |].
  intros x. rewrite Hx2, G1. fold bs. rewrite (mem_write_ext _ _ _ _ _ (Hx1 x)). fold bs.
  rewrite Z.mul_add_distr_r, Hnb.
  replace (cur * bs + n) with (cur * bs + Z.of_nat (length (mem_read mm (ptr s) n))) by lia.
  rewrite mem_write_app. f_equal.
  unfold flat. cbn [map concat]. fold (flat mm l).
  pose proof (mem_read_length mm (ptr s) (seg_len s) ltac:(lia)) as Hsl.
  destruct (decide (rem <= seg_len s)) as [Hle' | Hgt].
  - rewrite take_app_le by lia. replace (rem - n) with 0 by lia. change (Z.to_nat 0) with 0%nat.
    rewrite take_0, app_nil_r. replace n with rem by lia. symmetry. apply take_mem_read; lia.
  - replace n with (seg_len s) by lia. rewrite take_app_ge by lia. do 2 f_equal. lia.
Qed.

Lemma read_segs_loop_ok b mm l cur rem :
  reliable_ok b -> segs_ok l -> blocked (2 ^ block_shift b) l ->
  0 <= cur -> 0 <= rem <= seg_total l -> (2 ^ block_shift b | rem) ->
  cur + rem / 2 ^ block_shift b <= nr_blocks b ->
  exists mm', read_segs_loop block_shift b_read l cur rem (b, mm) = ((b, mm'), Ok tt) /\
    flat mm' l = mem_read (rdisk b) (cur * 2 ^ block_shift b) rem ++ drop (Z.to_nat rem) (flat mm l) /\
    (forall x, (forall s, s ∈ l -> ~ in_seg s x) -> mm' x = mm x).
Proof.
  intros Hok. revert mm cur rem. induction l as [|s l IH]; intros mm cur rem Hsg Hbl Hc Hr Hd Hle.
  { cbn in Hr. replace rem with 0 by lia. exists mm. by cbn. }
  destruct (reliable_geometry b Hok) as (Hs & Hn & H64). set (bs := 2 ^ block_shift b) in *.
  assert (Hbs : 0 < bs) by (apply Z.pow_pos_nonneg; lia).
  destruct Hsg as (_ & Hdis & Hsg). cbn [seg_total] in Hr. cbn [read_segs_loop].
  apply list.Forall_cons in Hbl as [[Hl0 Hld] Hbl]. rewrite list.Forall_forall in Hdis.
  destruct (rem =? 0) eqn:Hz; zbool.
  { subst rem. exists mm. change (Z.to_nat 0) with 0%nat. rewrite drop_0. by cbn. }
  set (n := Z.min rem (seg_len s)).
  assert (Hnd : (bs | n)) by (unfold n; destruct (Z.min_spec rem (seg_len s)) as [[_ ->] | [_ ->]]; done).
  pose proof (block_div bs n Hbs Hnd) as Hnb. pose proof (block_div bs rem Hbs Hd) as Hrb.
  pose proof (mem_read_length mm (ptr s) n ltac:(lia)) as Hrl.
  assert (Hble : n / bs <= rem / bs) by (apply Z.div_le_mono; lia).
  assert (0 <= n / bs) by (apply Z.div_pos; lia).
  assert (nr_blocks b < 2 ^ 64) by nia.
  pose proof (read_ok b cur (mem_read mm (ptr s) n) Hok ltac:(unfold in_u; lia)) as Hrd.
  rewrite Hrl in Hrd. specialize (Hrd Hnd ltac:(fold bs; lia)). fold bs in Hrd.
  unfold mbind, M_bind, get, on_store, lift, modify, mret, M_ret. rewrite Hrd. cbn [fst snd].
  rewrite Z.shiftr_div_pow2 by lia. fold bs. rewrite checked_ok by (unfold in_u; lia).
  set (piece := mem_read (rdisk b) (cur * bs) n).
  pose proof (mem_read_length (rdisk b) (cur * bs) n ltac:(lia)) as Hpl. fold piece in Hpl.
  set (mm1 := mem_write mm (ptr s) piece).
  assert (Hsub : (rem - n) / bs = rem / bs - n / bs).
  { apply (Z.mul_reg_r _ _ bs); [lia |]. rewrite block_div by (try done; by apply Z.divide_sub_r).
    rewrite Z.mul_sub_distr_r. lia. }
  destruct (IH mm1 (cur + n / bs) (rem - n)) as (mm2 & -> & Hf & Hfr); try done; try lia.
  { split; [lia |]. destruct (Z.min_spec rem (seg_len s)) as [[? Hm] | [? Hm]]; fold n in Hm; [| lia].
    pose proof (seg_total_nonneg l Hsg). lia. }
  { by apply Z.divide_sub_r. }
  assert (Hm1 : forall x, ~ in_seg s x -> mm1 x = mm x).
  { intros x Hx. apply mem_write_outside. unfold in_seg in Hx. lia. }
  exists mm2. split; [done |]. split.
  - change (flat mm2 (s :: l)) with (mem_read mm2 (ptr s) (seg_len s) ++ flat mm2 l).
    change (flat mm (s :: l)) with (mem_read mm (ptr s) (seg_len s) ++ flat mm l).
    rewrite Hf. rewrite (mem_read_ext mm2 mm1).
    2: { intros x Hx. apply Hfr. intros s' Hs' Hx'. by apply (Hdis s' Hs' x). }
    rewrite (flat_ext mm1 mm l).
    2: { intros s' x Hs' Hx'. apply Hm1. intros Hx. by apply (Hdis s' Hs' x). }
    pose proof (mem_read_write_mid mm (ptr s) (seg_len s) 0 piece ltac:(lia) ltac:(lia)) as Hmid.
    rewrite Z.add_0_r in Hmid. unfold mm1. rewrite Hmid. cbn [Nat.add Z.to_nat].
    rewrite take_0. cbn [app]. rewrite Z.mul_add_distr_r, Hnb.
    rewrite (mem_read_split (rdisk b) (cur * bs) rem n) by lia. fold piece. rewrite <- !app_assoc. f_equal.
    pose proof (mem_read_length mm (ptr s) (seg_len s) ltac:(lia)) as Hsl.
    destruct (decide (rem <= seg_len s)) as [Hle' | Hgt].
    + assert (rem - n = 0) as Hz0 by lia. rewrite Hz0. change (Z.to_nat 0) with 0%nat.
      change (mem_read (rdisk b) (cur * bs + n) 0) with (@nil Byte.byte). cbn [app].
      rewrite drop_0, (drop_app_le _ (flat mm l)) by lia.
      by replace (length piece) with (Z.to_nat rem) by lia.
    + rewrite drop_ge by lia. cbn [app]. rewrite (drop_app_ge _ (flat mm l)) by lia.
      by replace (Z.to_nat rem - length (mem_read mm (ptr s) (seg_len s)))%nat
        with (Z.to_nat (rem - n)) by lia.
  - intros x Hx. rewrite Hfr by (intros s' Hs'; apply Hx; by right). apply Hm1, Hx. by left.
Qed.

(**  What a host writes is what it reads, through any store that keeps the
    laws and whatever the segmentation on either side: after [write_segs] of
    [total] bytes from one buffer, [read_segs] of the same blocks into another
    buffer (different segments, different memory) yields exactly those bytes,
    touches no byte beyond them, and the store is otherwise unchanged. *)
Theorem seg_write_read b a l l' mm mm' total idx idx' :
  reliable_ok b -> segs_ok l -> segs_ok l' ->
  blocked (2 ^ block_shift b) l -> blocked (2 ^ block_shift b) l' ->
  0 <= a -> 0 <= total -> total <= seg_total l -> total <= seg_total l' ->
  (2 ^ block_shift b | total) -> a + total / 2 ^ block_shift b <= nr_blocks b ->
  exists b' mm1,
    seg_write a l total idx (b, mm) = ((b', mm), Ok tt) /\
    seg_read a l' total idx' (b', mm') = ((b', mm1), Ok tt) /\
    flat mm1 l' = take (Z.to_nat total) (flat mm l) ++ drop (Z.to_nat total) (flat mm' l') /\
    (forall x, ~ (a * 2 ^ block_shift b <= x < a * 2 ^ block_shift b + total) -> rdisk b' x = rdisk b x).
Proof.
  intros Hok Hl Hl' Hbl Hbl' Ha Ht0 Ht Ht' Hd Hle.
  destruct (write_segs_loop_ok b mm l a total) as (b' & Hw & Hok' & G1 & G2 & Hx); try done.
  assert (Hwl : length (take (Z.to_nat total) (flat mm l)) = Z.to_nat total).
  { rewrite length_take. pose proof (flat_length mm l Hl). lia. }
  destruct (read_segs_loop_ok b' mm' l' a total) as (mm1 & Hr & Hf & _); rewrite ?G1, ?G2; try done.
  exists b', mm1. split; [exact Hw |]. split; [exact Hr |]. split.
  - rewrite Hf, G1. f_equal.
    rewrite (mem_read_ext _ (mem_write (rdisk b) (a * 2 ^ block_shift b) (take (Z.to_nat total) (flat mm l))))
      by (intros; apply Hx).
    pose proof (mem_read_written (rdisk b) (a * 2 ^ block_shift b) (take (Z.to_nat total) (flat mm l))) as Hmw.
    rewrite Hwl, Z2Nat.id in Hmw by done. exact Hmw.
  - intros x Hxr. rewrite Hx. apply mem_write_outside. lia.
Qed.

End SegIO.

(** ** The memory and null backends *)

(**  The memory backend is a flat disk.  From any store it can be in, an
    in-range block-aligned write succeeds; reading those blocks back gives the
    data written; reading any other blocks gives what they held before; and
    write-zeroes makes its range read as zeroes, whether or not the 2 MiB chunks
    underneath were allocated. *)
Theorem memory_read_back m a buf a2 buf2 :
  mem_ok m -> in_u 64 a -> in_u 64 a2 ->
  (2 ^ Memory.m_shift m | Z.of_nat (length buf)) -> (2 ^ Memory.m_shift m | Z.of_nat (length buf2)) ->
  a + Z.of_nat (length buf) / 2 ^ Memory.m_shift m <= Memory.m_blocks m ->
  a2 + Z.of_nat (length buf2) / 2 ^ Memory.m_shift m <= Memory.m_blocks m ->
  a2 + Z.of_nat (length buf2) / 2 ^ Memory.m_shift m <= a \/
    a + Z.of_nat (length buf) / 2 ^ Memory.m_shift m <= a2 ->
  exists m', Memory.write a buf m = (m', Ok tt) /\ mem_ok m' /\
    Memory.read a buf m' = (m', Ok buf) /\
    (Memory.read a2 buf2 m').2 = (Memory.read a2 buf2 m).2 /\
    (forall n, in_u 32 n -> n = Z.of_nat (length buf) / 2 ^ Memory.m_shift m ->
       exists m'', Memory.write_zeroes {| slba := a; nlb := n |} m' = (m'', Ok tt) /\
         Memory.read a buf m'' = (m'', Ok (zeroes (length buf)))).
Proof.
  intros Hok Ha Ha2 Hd Hd2 Hle Hle2 Hdis.
  destruct (mem_write_spec m a buf Hok Ha Hd Hle) as (m' & He & Hsh & Hx).
  pose proof (same_shape_ok _ _ Hok Hsh) as Hok'. destruct Hsh as (S1 & S2 & S3).
  exists m'. split; [done |]. split; [done |]. split; [| split].
  - rewrite mem_read_spec by (rewrite ?S1, ?S2; done). do 2 f_equal. rewrite S1.
    rewrite (mem_read_ext _ _ _ _ (fun x _ => Hx x)). apply mem_read_written.
  - rewrite !mem_read_spec by (rewrite ?S1, ?S2; done). cbn. f_equal. rewrite S1.
    apply mem_read_ext. intros x Hxr. rewrite Hx. apply mem_write_outside.
    pose proof (aligned_len m _ Hok Hd). pose proof (aligned_len m _ Hok Hd2).
    assert (0 < 2 ^ Memory.m_shift m) by (apply Z.pow_pos_nonneg; [lia | apply Hok]). nia.
  - intros n Hn Hne.
    destruct (mem_zero_spec m' {| slba := a; nlb := n |}) as (m'' & Hz & Hsz & Hxz); cbn; try done.
    { rewrite S2. lia. }
    pose proof (same_shape_ok _ _ Hok' Hsz) as Hok''. destruct Hsz as (T1 & T2 & T3).
    exists m''. split; [done |]. rewrite mem_read_spec by (rewrite ?T1, ?T2, ?S1, ?S2; done).
    do 2 f_equal. rewrite T1, S1. apply list_eq. intros i.
    pose proof (aligned_len m _ Hok Hd) as Hal. cbn in Hxz.
    destruct (decide (i < length buf)%nat) as [Hi | Hi].
    + rewrite mem_read_lookup, Hxz by lia. rewrite decide_True.
      * symmetry. unfold zeroes. by apply lookup_replicate.
      * rewrite S1, Hne, Z.mul_add_distr_r, <- Hal. lia.
    + rewrite !lookup_ge_None_2; [done | |].
      * unfold zeroes. rewrite length_replicate. lia.
      * pose proof (mem_read_length (mdisk m'') (a * 2 ^ Memory.m_shift m) (Z.of_nat (length buf))). lia.
Qed.

(**  Every access beyond the end of the device, the ones whose end overflows
    [u64] included, is refused with [OutOfRange] and changes nothing, by both
    backends alike; the null backend reads as zeroes and accepts exactly the
    accesses the memory backend of the same geometry accepts. *)
Theorem range_checks_agree m a buf :
  mem_ok m -> in_u 64 a -> (2 ^ Memory.m_shift m | Z.of_nat (length buf)) ->
  let nb := {| Null.n_shift := Memory.m_shift m; Null.n_blocks := Memory.m_blocks m |} in
  if decide (a + Z.of_nat (length buf) / 2 ^ Memory.m_shift m <= Memory.m_blocks m) then
    Null.read a buf nb = (nb, Ok (zeroes (length buf))) /\ Null.write a buf nb = (nb, Ok tt) /\
    (exists out, Memory.read a buf m = (m, Ok out) /\ length out = length buf) /\
    (exists m', Memory.write a buf m = (m', Ok tt))
  else
    Null.read a buf nb = (nb, Err OutOfRange) /\ Null.write a buf nb = (nb, Err OutOfRange) /\
    Memory.read a buf m = (m, Err OutOfRange) /\ Memory.write a buf m = (m, Err OutOfRange).
Proof.
  intros Hok Ha Hd nb. destruct (len_blocks m (Z.of_nat (length buf)) Hok ltac:(lia)) as [Hs Hs0].
  unfold Null.read, Null.write, mbind, M_bind, get, lift, mret, M_ret. cbn [Null.n_shift Null.n_blocks nb].
  rewrite Hs. unfold in_u in Ha. case_decide as Hle.
  - rewrite check_range_ok by (try lia; by apply blocks_u64). split; [done |]. split; [done |]. split.
    + rewrite mem_read_spec by done. eexists. split; [done |].
      pose proof (mem_read_length (mdisk m) (a * 2 ^ Memory.m_shift m) (Z.of_nat (length buf))). lia.
    + destruct (mem_write_spec m a buf) as (m' & He & _); try done. eauto.
  - rewrite check_range_bad by lia. split; [done |]. split; [done |].
    unfold Memory.read, Memory.write, mbind, M_bind, get, lift. rewrite Hs, check_range_bad by lia. done.
Qed.

(** ** Witnesses: a 4 MiB store of 512-byte blocks *)

Definition demo_store : Memory.MemoryBackend := Memory.new 0x400000 9.

Lemma demo_store_ok : mem_ok demo_store.
Proof. by apply new_mem_ok. Qed.

Definition demo_segs : list Seg := [{| ptr := 0; seg_len := 4096 |}; {| ptr := 8192; seg_len := 4096 |}].
Definition demo_segs2 : list Seg := [{| ptr := 65536; seg_len := 8192 |}].

Lemma demo_segs_ok : segs_ok demo_segs /\ segs_ok demo_segs2.
Proof.
  split; cbn; split_and!; try lia; try done; try (constructor; [| constructor]); try constructor.
  unfold in_seg. cbn. lia.
Qed.

(** 8 KiB over the boundary of the two chunks. *)
Lemma seg_write_read_witness :
  exists b' mm1,
    seg_write 4092 demo_segs 8192 None (demo_store, fun _ => Byte.x5a) = ((b', fun _ => Byte.x5a), Ok tt) /\
    seg_read 4092 demo_segs2 8192 None (b', fun _ => Byte.x00) = ((b', mm1), Ok tt) /\
    flat mm1 demo_segs2 = take (Z.to_nat 8192) (flat (fun _ => Byte.x5a) demo_segs) ++
                          drop (Z.to_nat 8192) (flat (fun _ => Byte.x00) demo_segs2) /\
    (forall x, ~ (4092 * 512 <= x < 4092 * 512 + 8192) -> rdisk b' x = rdisk demo_store x).
Proof.
  apply (seg_write_read (SL := memory_laws) demo_store 4092 demo_segs demo_segs2 _ _ 8192 None None);
    try apply demo_segs_ok; try (cbn; lia); try apply demo_store_ok.
  - constructor; [split; [cbn; lia | by exists 8] |]. constructor; [split; [cbn; lia | by exists 8] | constructor].
  - constructor; [split; [cbn; lia | by exists 16] | constructor].
  - by exists 16.
Defined.

Lemma memory_read_back_witness :
  exists m', Memory.write 8191 (replicate 512 Byte.x01) demo_store = (m', Ok tt) /\ mem_ok m' /\
    Memory.read 8191 (replicate 512 Byte.x01) m' = (m', Ok (replicate 512 Byte.x01)) /\
    (Memory.read 0 (replicate 512 Byte.x00) m').2 = (Memory.read 0 (replicate 512 Byte.x00) demo_store).2 /\
    (forall n, in_u 32 n -> n = Z.of_nat (length (replicate 512 Byte.x01)) / 512 ->
       exists m'', Memory.write_zeroes {| slba := 8191; nlb := n |} m' = (m'', Ok tt) /\
         Memory.read 8191 (replicate 512 Byte.x01) m'' = (m'', Ok (zeroes (length (replicate 512 Byte.x01))))).
Proof.
  apply (memory_read_back demo_store 8191 (replicate 512 Byte.x01) 0 (replicate 512 Byte.x00) demo_store_ok);
    rewrite ?length_replicate; try (by exists 1); try done.
  left. by vm_compute.
Defined.

Lemma range_checks_agree_witness :
  Memory.read 8192 (replicate 512 Byte.x00) demo_store = (demo_store, Err OutOfRange).
Proof.
  pose proof (range_checks_agree demo_store 8192 (replicate 512 Byte.x00) demo_store_ok) as H.
  rewrite length_replicate in H. cbn zeta in H.
  destruct H as (_ & _ & H & _); [unfold in_u; lia | by exists 1 | exact H].
Defined.
