(* ===== verification/Subsystem.v ===== *)
(** * [ioutgt-core/src/subsystem.rs]: subsystems, namespaces and ports

    [Arc<B>] is the index of a backend in the store of backends (see
    [Dispatch]); an immutable [Arc<BTreeMap>] snapshot is its value.  The
    namespace table is changed by the control plane while queue threads read it
    through their [NsCache]: [SubsystemProofs.cache_step] interleaves the writer's two
    effects (table swap, generation bump, both under the write lock) with the
    reader's two (generation load without the lock, snapshot under the read
    lock). *)

From stdpp Require Import sorting.
From S2P Require Import Prelude Pool.

Inductive TransportType := Tcp | Rdma.

Record Namespace := {
  ns_nsid : Z;
  ns_backend : nat;
  ns_uuid : bytes;
}.

(** ** Namespace UUIDs *)

(** [to_be_bytes] and [from_be_bytes]. *)
Definition to_be_bytes (n : nat) (v : Z) : bytes := rev (le_split n v).
Definition from_be_bytes (bs : bytes) : Z := le_combine (rev bs).

(** The FNV-1a loop. *)
Definition fnv1a (nqn : str) : Z :=
  foldl (fun hash b => wrap 64 (Z.lxor hash (byte.unsigned b) * 0x00000100000001b3))
    0xcbf29ce484222325 nqn.

Definition namespace_uuid (nqn : str) (nsid : Z) : bytes :=
  to_be_bytes 8 (fnv1a nqn) ++ [byte.of_Z 0x80] ++ zeroes 3 ++ to_be_bytes 4 nsid.

(** ** Hexadecimal text *)

Definition HYPHEN : Byte.byte := Byte.x2d.

(** [c.is_ascii_hexdigit()] with the digit's value ([char::to_digit(16)]). *)
Definition hex_val (c : Byte.byte) : option Z :=
  let z := byte.unsigned c in
  if (48 <=? z) && (z <=? 57) then Some (z - 48)
  else if (97 <=? z) && (z <=? 102) then Some (z - 87)
  else if (65 <=? z) && (z <=? 70) then Some (z - 55)
  else None.

Definition is_ascii_hexdigit (c : Byte.byte) : bool := bool_decide (is_Some (hex_val c)).

(** The digit loop of [u128::from_str_radix(_, 16)]: an invalid digit or an
    overflow is an error. *)
Fixpoint radix_digits (acc : Z) (l : str) : option Z :=
  match l with
  | [] => Some acc
  | c :: r =>
      d ← hex_val c;
      if 2 ^ 128 <=? acc * 16 + d then None else radix_digits (acc * 16 + d) r
  end.

(** The empty string and a lone sign are errors, a leading [+] is skipped. *)
Definition from_str_radix_16 (l : str) : option Z :=
  match l with
  | [] => None
  | c :: r =>
      if decide (c = Byte.x2b /\ r <> []) then radix_digits 0 r else radix_digits 0 l
  end.

Definition hex_char (d : Z) : Byte.byte := byte.of_Z (if d <? 10 then 48 + d else 87 + d).

(** The last [w] hexadecimal digits of [v], most significant first. *)
Fixpoint hex_fixed (w : nat) (v : Z) : str :=
  match w with
  | O => []
  | S w => hex_fixed w (v / 16) ++ [hex_char (v mod 16)]
  end.

(** The number of digits [LowerHex] prints. *)
Definition hex_len (v : Z) : nat := Z.to_nat (Z.log2 v / 4 + 1).

(** [format!("{:0wx}", v)]: zero-padded to at least [w] digits. *)
Definition fmt_hex (w : nat) (v : Z) : str := hex_fixed (w `max` hex_len v) v.

Definition parse_uuid {E} (text : str) : res E (option bytes) :=
  if negb (length text =? 36)%nat
     || existsb (fun i => negb (bool_decide (text !! i = Some HYPHEN))) [8; 13; 18; 23]%nat
  then mret None
  else
    let hex := filter (fun c => c <> HYPHEN) text in
    if forallb is_ascii_hexdigit hex
    then v ← expect (from_str_radix_16 hex); mret (Some (to_be_bytes 16 v))
    else mret None.

Definition format_uuid (b : bytes) : str :=
  let v := from_be_bytes b in
  fmt_hex 8 (Z.shiftr v 96) ++ [HYPHEN]
  ++ fmt_hex 4 (Z.land (Z.shiftr v 80) 0xffff) ++ [HYPHEN]
  ++ fmt_hex 4 (Z.land (Z.shiftr v 64) 0xffff) ++ [HYPHEN]
  ++ fmt_hex 4 (Z.land (Z.shiftr v 48) 0xffff) ++ [HYPHEN]
  ++ fmt_hex 12 (Z.land v 0xffffffffffff).

(** ** The subsystem and its versioned table *)

Abbreviation NsMap := (gmap Z Namespace).

(** Iteration order of a [BTreeMap] keyed by integers. *)
Definition key_le {A} (x y : Z * A) : Prop := x.1 <= y.1.
#[export] Instance key_le_dec {A} : RelDecision (@key_le A).
Proof. intros x y. unfold key_le. apply _. Defined.
Definition btree_entries {A} (m : gmap Z A) : list (Z * A) := merge_sort key_le (map_to_list m).

Record Subsystem := {
  ss_nqn : str;
  ss_serial : str;
  ss_model : str;
  allow_any_host : bool;
  allowed_hosts : list str;
  ss_namespaces : NsMap;
  ss_generation : Z;
}.

Definition Subsystem_new (nqn serial model : str) (any : bool) (hosts : list str) (ns : NsMap) :
    Subsystem :=
  {| ss_nqn := nqn; ss_serial := serial; ss_model := model; allow_any_host := any;
     allowed_hosts := hosts; ss_namespaces := ns; ss_generation := 1 |}.

Definition admits (s : Subsystem) (hostnqn : str) : bool :=
  allow_any_host s || existsb (fun h => bool_decide (h = hostnqn)) (allowed_hosts s).

(** [*guard = Arc::new(table)] and [generation.fetch_add(1)]. *)
Definition swap_table (t : NsMap) (s : Subsystem) : Subsystem :=
  {| ss_nqn := ss_nqn s; ss_serial := ss_serial s; ss_model := ss_model s;
     allow_any_host := allow_any_host s; allowed_hosts := allowed_hosts s;
     ss_namespaces := t; ss_generation := ss_generation s |}.
Definition bump (s : Subsystem) : Subsystem :=
  {| ss_nqn := ss_nqn s; ss_serial := ss_serial s; ss_model := ss_model s;
     allow_any_host := allow_any_host s; allowed_hosts := allowed_hosts s;
     ss_namespaces := ss_namespaces s; ss_generation := wrap 64 (ss_generation s + 1) |}.

(** The table a change installs, or the refusal. *)
Inductive NsError := AlreadyExists (nsid : Z) | NotFound (nsid : Z).
Inductive NsChange := NsAdd (ns : Namespace) | NsRemove (nsid : Z).

Definition changed_table (c : NsChange) (t : NsMap) : res NsError NsMap :=
  match c with
  | NsAdd ns =>
      if decide (is_Some (t !! ns_nsid ns)) then Err (AlreadyExists (ns_nsid ns))
      else Ok (<[ns_nsid ns := ns]> t)
  | NsRemove nsid =>
      if decide (is_Some (t !! nsid)) then Ok (base.delete nsid t) else Err (NotFound nsid)
  end.

Definition change_namespaces (c : NsChange) : M Subsystem NsError unit :=
  s ← get;
  t ← lift (changed_table c (ss_namespaces s));
  _ ← modify (swap_table t);
  modify bump.

Definition add_namespace (ns : Namespace) : M Subsystem NsError unit := change_namespaces (NsAdd ns).
Definition remove_namespace (nsid : Z) : M Subsystem NsError unit :=
  change_namespaces (NsRemove nsid).

(** [keys().next_back().copied().unwrap_or(0)]. *)
Definition max_nsid (s : Subsystem) : Z :=
  default 0 (list.last (btree_entries (ss_namespaces s)).*1).

(** ** The per-connection cache *)

Record NsCache := {
  cache_generation : Z;
  cache_map : option NsMap;
}.

Definition NsCache_default : NsCache := {| cache_generation := 0; cache_map := None |}.

(** The condition of [get], and its two outcomes; [snap] is what
    [subsys.snapshot()] returns when it is called. *)
Definition cache_stale (c : NsCache) (generation : Z) : bool :=
  negb (cache_generation c =? generation) || bool_decide (cache_map c = None).

Definition cache_refresh (generation : Z) (snap : NsMap) : NsCache :=
  {| cache_generation := generation; cache_map := Some snap |}.

Definition NsCache_get (subsys : Subsystem) : M NsCache never NsMap :=
  c ← get;
  let generation := ss_generation subsys in
  _ ← (if cache_stale c generation
       then modify (fun _ => cache_refresh generation (ss_namespaces subsys)) else mret tt);
  c ← get;
  lift (expect (cache_map c)).

(** ** Ports *)

(** Byte-wise order of strings, the order of a [BTreeMap<String, _>]. *)
Fixpoint str_leb (a b : str) : bool :=
  match a, b with
  | [], _ => true
  | _, [] => false
  | x :: a, y :: b =>
      (byte.unsigned x <? byte.unsigned y)
      || (byte.unsigned x =? byte.unsigned y) && str_leb a b
  end.

Record PortConfig := {
  pc_traddr : str;
  pc_trsvcid : str;
  pc_trtype : TransportType;
  pc_max_qid : Z;
  pc_io_queue_size : Z;
  pc_queue_buf_bytes : Z;
  pc_recv_buf_bytes : Z;
  pc_poll : bool;
  pc_subsystems : gmap str Subsystem;
}.

Definition subsystem (p : PortConfig) (nqn : str) : option Subsystem := pc_subsystems p !! nqn.

(** The order in which the map's entries are visited. *)
Definition str_le (x y : str * Subsystem) : Prop := str_leb x.1 y.1 = true.
#[export] Instance str_le_dec : RelDecision str_le.
Proof. intros x y. unfold str_le. apply _. Defined.
