(* ===== verification/SubsystemProofs.v ===== *)
(** * Subsystems: UUID text, namespace identity and cache coherence *)

From S2P Require Import Prelude Pool Subsystem.

(** ** Hexadecimal text *)

Lemma radix_digits_app a b acc :
  radix_digits acc (a ++ b) = z ← radix_digits acc a; radix_digits z b.
Proof.
  revert acc. induction a as [|c a IH]; intros acc; [done|].
  cbn [app radix_digits]. destruct (hex_val c) as [d|]; [|done]. cbn.
  destruct (2 ^ 128 <=? acc * 16 + d); [done|]. apply IH.
Qed.

Lemma digit_cases d : 0 <= d < 16 -> In d (map Z.of_nat (seq 0 16)).
Proof. intros. rewrite <- (Z2Nat.id d) by lia. apply in_map, in_seq. lia. Qed.

Lemma hex_char_digit d :
  0 <= d < 16 -> hex_val (hex_char d) = Some d /\ hex_char d <> HYPHEN.
Proof.
  intros Hd%digit_cases. cbn in Hd.
  repeat (destruct Hd as [<-|Hd]; [by split|]). done.
Qed.

Lemma hex_val_bound c d : hex_val c = Some d -> 0 <= d < 16.
Proof. unfold hex_val. intros H. repeat case_match; simplify_eq; zbool; lia. Qed.

Lemma radix_digits_fixed w v acc :
  0 <= acc -> acc * 16 ^ Z.of_nat w + v mod 16 ^ Z.of_nat w < 2 ^ 128 ->
  radix_digits acc (hex_fixed w v) = Some (acc * 16 ^ Z.of_nat w + v mod 16 ^ Z.of_nat w).
Proof.
  revert v. induction w as [|w IH]; intros v Ha Hb.
  { cbn. f_equal. change (16 ^ Z.of_nat 0) with 1. rewrite Z.mod_1_r. lia. }
  assert (Hp : 0 < 16 ^ Z.of_nat w) by (apply Z.pow_pos_nonneg; lia).
  assert (Hs : 16 ^ Z.of_nat (S w) = 16 * 16 ^ Z.of_nat w)
    by (rewrite Nat2Z.inj_succ, Z.pow_succ_r; lia).
  rewrite Hs in *. rewrite Z.rem_mul_r in * by lia.
  pose proof (Z.mod_pos_bound (v / 16) (16 ^ Z.of_nat w) Hp).
  pose proof (Z.mod_pos_bound v 16 ltac:(lia)).
  cbn [hex_fixed]. rewrite radix_digits_app, IH by nia. cbn.
  destruct (hex_char_digit (v mod 16)) as [-> _]; [lia|]. cbn -[Z.pow].
  replace (_ * 16 + _) with (acc * (16 * 16 ^ Z.of_nat w) +
    (v mod 16 + 16 * ((v / 16) mod 16 ^ Z.of_nat w))) by nia.
  destruct (Z.leb_spec (2 ^ 128) (acc * (16 * 16 ^ Z.of_nat w) +
    (v mod 16 + 16 * ((v / 16) mod 16 ^ Z.of_nat w)))); [lia|done].
Qed.

Lemma fmt_hex_fixed w v :
  (0 < w)%nat -> 0 <= v < 16 ^ Z.of_nat w -> fmt_hex w v = hex_fixed w v.
Proof.
  intros Hw Hv. unfold fmt_hex, hex_len. f_equal.
  enough (Z.log2 v / 4 + 1 <= Z.of_nat w) by lia.
  destruct (Z.eq_dec v 0) as [->|]; [change (Z.log2 0 / 4 + 1) with 1; lia|].
  assert (Z.log2 v < 4 * Z.of_nat w).
  { apply Z.log2_lt_pow2; [lia|]. rewrite Z.pow_mul_r by lia. exact (proj2 Hv). }
  enough (Z.log2 v / 4 < Z.of_nat w) by lia. apply Z.div_lt_upper_bound; lia.
Qed.

Lemma hex_fixed_digits w v :
  Forall (fun c => c <> HYPHEN /\ is_Some (hex_val c)) (hex_fixed w v).
Proof.
  revert v. induction w; intros; cbn; [done|]. apply Forall_app_2; [done|].
  destruct (hex_char_digit (v mod 16)) as [Hv Hn]; [apply Z.mod_pos_bound; lia|].
  repeat constructor; [done|]. rewrite Hv. eauto.
Qed.

Lemma hex_fixed_hex w v : Forall (fun c => is_Some (hex_val c)) (hex_fixed w v).
Proof. eapply list.Forall_impl; [apply hex_fixed_digits|]. by intros c []. Qed.

Lemma filter_hex_fixed w v : filter (fun c => c <> HYPHEN) (hex_fixed w v) = hex_fixed w v.
Proof.
  generalize (hex_fixed_digits w v). induction (hex_fixed w v); [done|].
  intros [[??]?]%list.Forall_cons. rewrite filter_cons_True by done. f_equal; auto.
Qed.

Lemma from_to_be n v : in_u (8 * Z.of_nat n) v -> from_be_bytes (to_be_bytes n v) = v.
Proof.
  intros. unfold from_be_bytes, to_be_bytes. rewrite rev_involutive.
  by apply le_combine_le_split_small.
Qed.

Lemma to_from_be bs : to_be_bytes (length bs) (from_be_bytes bs) = bs.
Proof.
  unfold from_be_bytes, to_be_bytes. rewrite <- (length_rev bs), split_le_combine.
  apply rev_involutive.
Qed.

Lemma hex_fixed_mod w v : hex_fixed w (v mod 16 ^ Z.of_nat w) = hex_fixed w v.
Proof.
  revert v. induction w as [|w IH]; intros; [done|]. cbn [hex_fixed].
  assert (Hp : 0 < 16 ^ Z.of_nat w) by (apply Z.pow_pos_nonneg; lia).
  rewrite Nat2Z.inj_succ, Z.pow_succ_r, Z.rem_mul_r by lia.
  rewrite (Z.mul_comm 16 (_ mod _)), Z.div_add, Z.mod_add by lia.
  rewrite Z.mod_mod, (Z.div_small (v mod 16)) by (try apply Z.mod_pos_bound; lia).
  rewrite Z.add_0_l. by rewrite IH.
Qed.

(** The five printed fields spell [v]. *)
Lemma radix_uuid_fields v :
  in_u 128 v ->
  radix_digits 0 (hex_fixed 8 (v / 2 ^ 96) ++ hex_fixed 4 (v / 2 ^ 80)
    ++ hex_fixed 4 (v / 2 ^ 64) ++ hex_fixed 4 (v / 2 ^ 48) ++ hex_fixed 12 v) = Some v.
Proof.
  intros [Hv0 Hv].
  rewrite <- (hex_fixed_mod 8), <- (hex_fixed_mod 4 (v / 2 ^ 80)),
    <- (hex_fixed_mod 4 (v / 2 ^ 64)), <- (hex_fixed_mod 4 (v / 2 ^ 48)), <- (hex_fixed_mod 12 v).
  change (16 ^ Z.of_nat 8) with (2 ^ 32). change (16 ^ Z.of_nat 4) with (2 ^ 16).
  change (16 ^ Z.of_nat 12) with (2 ^ 48).
  assert (exists a b c d e, v = (((a * 2 ^ 16 + b) * 2 ^ 16 + c) * 2 ^ 16 + d) * 2 ^ 48 + e
    /\ (v / 2 ^ 96) mod 2 ^ 32 = a /\ (v / 2 ^ 80) mod 2 ^ 16 = b
    /\ (v / 2 ^ 64) mod 2 ^ 16 = c /\ (v / 2 ^ 48) mod 2 ^ 16 = d /\ v mod 2 ^ 48 = e
    /\ 0 <= a < 2 ^ 32 /\ 0 <= b < 2 ^ 16 /\ 0 <= c < 2 ^ 16 /\ 0 <= d < 2 ^ 16
    /\ 0 <= e < 2 ^ 48)
    as (a & b & c & d & e & Heq & -> & -> & -> & -> & -> & Ha & Hb & Hc & Hd & He).
  { do 5 eexists. split; [|do 5 (split; [reflexivity|])];
      Z.to_euclidean_division_equations; lia. }
  do 4 (rewrite radix_digits_app; rewrite radix_digits_fixed;
    [|try lia|rewrite Z.mod_small; cbn [Z.of_nat]; lia]; cbn [mbind option_bind];
    rewrite Z.mod_small by (cbn [Z.of_nat]; lia)).
  rewrite radix_digits_fixed, Z.mod_small; [f_equal|..]; cbn [Z.of_nat]; try lia.
  rewrite Z.mod_small; lia.
Qed.


Lemma in_u_from_be b : length b = 16%nat -> in_u 128 (from_be_bytes b).
Proof. intros. unfold from_be_bytes. apply (in_u_le_combine _ 16). by rewrite length_rev. Qed.

Lemma land_shiftr_field v k w :
  0 <= k -> 0 <= v ->
  fmt_hex (S w) (Z.land (Z.shiftr v k) (Z.ones (4 * Z.of_nat (S w)))) = hex_fixed (S w) (v / 2 ^ k).
Proof.
  intros. rewrite Z.land_ones, Z.shiftr_div_pow2, Z.pow_mul_r by lia.
  change (2 ^ 4) with 16. rewrite fmt_hex_fixed, hex_fixed_mod; [done|lia|].
  apply Z.mod_pos_bound, Z.pow_pos_nonneg; lia.
Qed.

Lemma format_uuid_fields b :
  length b = 16%nat ->
  let v := from_be_bytes b in
  format_uuid b = hex_fixed 8 (v / 2 ^ 96) ++ [HYPHEN] ++ hex_fixed 4 (v / 2 ^ 80) ++ [HYPHEN]
    ++ hex_fixed 4 (v / 2 ^ 64) ++ [HYPHEN] ++ hex_fixed 4 (v / 2 ^ 48) ++ [HYPHEN]
    ++ hex_fixed 12 v.
Proof.
  intros Hb. destruct (in_u_from_be b Hb) as [H0 H1]. intros v.
  fold v in H0, H1. unfold format_uuid. fold v. cbv zeta.
  change 0xffff with (Z.ones (4 * Z.of_nat 4)).
  change 0xffffffffffff with (Z.ones (4 * Z.of_nat 12)).
  replace (Z.land v (Z.ones (4 * Z.of_nat 12)))
    with (Z.land (Z.shiftr v 0) (Z.ones (4 * Z.of_nat 12))) by (by rewrite Z.shiftr_0_r).
  rewrite !land_shiftr_field by lia.
  change (v / 2 ^ 0) with (v / 1). rewrite Z.div_1_r.
  rewrite Z.shiftr_div_pow2 by lia. rewrite fmt_hex_fixed; [done|lia|].
  change (16 ^ Z.of_nat 8) with (2 ^ 32). Z.to_euclidean_division_equations; lia.
Qed.

Lemma forallb_hex l : Forall (fun c => is_Some (hex_val c)) l -> forallb is_ascii_hexdigit l = true.
Proof.
  intros Hl. apply forallb_forall. intros x Hx. unfold is_ascii_hexdigit.
  apply bool_decide_eq_true. by apply (proj1 (List.Forall_forall _ _) Hl).
Qed.

Lemma from_str_radix_hex l :
  l <> [] -> Forall (fun c => is_Some (hex_val c)) l -> from_str_radix_16 l = radix_digits 0 l.
Proof.
  destruct l as [|c r]; [done|]. intros _ [[d Hc] _]%list.Forall_cons. cbn [from_str_radix_16].
  destruct (decide _) as [[-> _]|]; [by vm_compute in Hc|done].
Qed.

(** A namespace UUID survives the control plane's text form: parsing what
    [format_uuid] prints gives back the same sixteen bytes, without a panic. *)
Theorem uuid_text_roundtrip {E} (b : bytes) :
  length b = 16%nat -> parse_uuid (E := E) (format_uuid b) = Ok (Some b).
Proof.
  intros Hb. rewrite (format_uuid_fields b Hb).
  pose proof (radix_uuid_fields _ (in_u_from_be b Hb)) as Hr.
  set (v := from_be_bytes b) in *.
  unfold parse_uuid.
  match goal with |- context [if ?c then _ else _] => replace c with false by reflexivity end.
  rewrite !list.filter_app, !filter_hex_fixed.
  assert (filter (fun c => c <> HYPHEN) [HYPHEN] = []) as -> by reflexivity. cbn [app].
  match type of Hr with radix_digits _ ?l = _ => assert (Hl : Forall (fun c => is_Some (hex_val c)) l) end.
  { rewrite !list.Forall_app. repeat split; apply hex_fixed_hex. }
  cbv zeta. rewrite forallb_hex, from_str_radix_hex, Hr by done. cbn.
  unfold v. by rewrite <- Hb, to_from_be.
Qed.

Lemma uuid_text_roundtrip_witness :
  parse_uuid (E := never) (format_uuid (namespace_uuid (ascii_bytes "nqn.a") 7))
  = Ok (Some (namespace_uuid (ascii_bytes "nqn.a") 7)).
Proof. apply uuid_text_roundtrip. vm_compute. reflexivity. Defined.

(** ** Malformed text *)

Abbreviation unhyphen := (filter (fun c => c <> HYPHEN)).

Lemma unhyphen_at (t : str) i :
  t !! i = Some HYPHEN -> unhyphen t = unhyphen (take i t) ++ unhyphen (drop (S i) t).
Proof.
  intros H. rewrite <- (take_drop_middle t i HYPHEN H) at 1.
  by rewrite list.filter_app, filter_cons_False by (intros []; reflexivity).
Qed.

Lemma length_unhyphen (t : str) : (length (unhyphen t) <= length t)%nat.
Proof. apply length_filter. Qed.

Lemma length_unhyphen_cut (t : str) i n m :
  t !! i = Some HYPHEN -> (length (unhyphen (take i t)) <= n)%nat ->
  (length t - S i <= m)%nat -> (length (unhyphen t) <= n + m)%nat.
Proof.
  intros H Hn Hm. rewrite (unhyphen_at t i H), length_app.
  pose proof (length_unhyphen (drop (S i) t)). rewrite length_drop in *. lia.
Qed.

Lemma length_unhyphen_36 (t : str) :
  length t = 36%nat -> t !! 8%nat = Some HYPHEN -> t !! 13%nat = Some HYPHEN ->
  t !! 18%nat = Some HYPHEN -> t !! 23%nat = Some HYPHEN ->
  (length (unhyphen t) <= 32)%nat.
Proof.
  intros Ht H8 H13 H18 H23.
  apply (length_unhyphen_cut t 23 20 12); [done| |lia].
  apply (length_unhyphen_cut _ 18 16 4); [by rewrite lookup_take_lt by lia| |rewrite length_take; lia].
  rewrite take_take. apply (length_unhyphen_cut _ 13 12 4);
    [by rewrite lookup_take_lt by lia| |rewrite length_take; lia].
  rewrite take_take. apply (length_unhyphen_cut _ 8 8 4);
    [by rewrite lookup_take_lt by lia| |rewrite length_take; lia].
  rewrite take_take. rewrite length_unhyphen, length_take. lia.
Qed.

Lemma radix_digits_some l acc k :
  Forall (fun c => is_Some (hex_val c)) l -> 0 <= acc < 16 ^ Z.of_nat k ->
  (k + length l <= 32)%nat -> is_Some (radix_digits acc l).
Proof.
  revert acc k. induction l as [|c l IH]; intros acc k Hl Ha Hk; [by eexists|].
  apply list.Forall_cons in Hl as [[d Hd] Hl]. pose proof (hex_val_bound _ _ Hd).
  cbn [radix_digits length] in *. rewrite Hd. cbn [mbind option_bind].
  assert (16 ^ Z.of_nat (S k) = 16 * 16 ^ Z.of_nat k) by (rewrite Nat2Z.inj_succ, Z.pow_succ_r; lia).
  assert (16 ^ Z.of_nat (S k) <= 2 ^ 128)
    by (change (2 ^ 128) with (16 ^ 32); apply Z.pow_le_mono_r; lia).
  destruct (Z.leb_spec (2 ^ 128) (acc * 16 + d)); [lia|].
  apply (IH _ (S k)); [done|lia|lia].
Qed.

Lemma unhyphen_nil (t : str) : unhyphen t = [] -> t = replicate (length t) HYPHEN.
Proof.
  induction t as [|c t IH]; [done|]. destruct (decide (c = HYPHEN)) as [->|Hc].
  - rewrite filter_cons_False by (intros []; reflexivity). intros. cbn. f_equal. auto.
  - by rewrite filter_cons_True.
Qed.

Lemma forallb_is_hex l : forallb is_ascii_hexdigit l = true -> Forall (fun c => is_Some (hex_val c)) l.
Proof.
  intros H. apply List.Forall_forall. intros x Hx.
  apply (proj1 (forallb_forall _ _) H) in Hx. by apply bool_decide_eq_true in Hx.
Qed.

Lemma parse_uuid_panic {E} (t : str) :
  parse_uuid (E := E) t = Panic -> t = replicate 36 HYPHEN.
Proof.
  unfold parse_uuid. destruct (orb _ _) eqn:Hc; [done|].
  apply orb_false_elim in Hc as [Hlen Hpos]. apply negb_false_iff, Nat.eqb_eq in Hlen.
  cbn [existsb] in Hpos. rewrite !orb_false_iff, !negb_false_iff, !bool_decide_eq_true in Hpos.
  destruct Hpos as (H8 & H13 & H18 & H23 & _). cbv zeta.
  destruct (forallb _ _) eqn:Hx; [|done]. apply forallb_is_hex in Hx.
  destruct (decide (unhyphen t = [])) as [He|He].
  { intros _. rewrite (unhyphen_nil t He), Hlen. done. }
  rewrite from_str_radix_hex by done.
  destruct (radix_digits_some (unhyphen t) 0 0) as [z ->]; [done|cbn; lia| |done].
  by apply length_unhyphen_36.
Qed.

(** [parse_uuid] panics on exactly one text, thirty-six hyphens: its
    hyphens are dropped wherever they stand, so the digits left may be none
    (the [expect]) or fewer than thirty-two (a malformed text is accepted). *)
Theorem parse_uuid_hyphens {E} :
  (forall t, parse_uuid (E := E) t = Panic <-> t = replicate 36 HYPHEN)
  /\ exists b, parse_uuid (E := E) (ascii_bytes "00112233-4455-6677-8899-------------") = Ok (Some b).
Proof.
  split; [intros t; split; [apply parse_uuid_panic|intros ->; by vm_compute]|].
  eexists. vm_compute. reflexivity.
Qed.

(** ** Namespace identity *)

Lemma to_be_bytes_inj n a b :
  in_u (8 * Z.of_nat n) a -> in_u (8 * Z.of_nat n) b -> to_be_bytes n a = to_be_bytes n b -> a = b.
Proof. intros Ha Hb H. by rewrite <- (from_to_be n a Ha), <- (from_to_be n b Hb), H. Qed.

Lemma fnv1a_u64 nqn : in_u 64 (fnv1a nqn).
Proof.
  unfold fnv1a. destruct nqn as [|b q _] using rev_ind; [by vm_compute|].
  rewrite foldl_app. cbn [foldl]. apply in_u_wrap. lia.
Qed.

(** Two namespaces get the same UUID only if their NSIDs agree and their
    subsystem NQNs hash to the same 64-bit FNV-1a value; no namespace gets the
    all-zero UUID. *)
Theorem namespace_uuid_identity (q1 q2 : str) (n1 n2 : Z) :
  in_u 32 n1 -> in_u 32 n2 ->
  (namespace_uuid q1 n1 = namespace_uuid q2 n2 <-> n1 = n2 /\ fnv1a q1 = fnv1a q2)
  /\ namespace_uuid q1 n1 <> zeroes 16.
Proof.
  intros H1 H2. split; [split|].
  - unfold namespace_uuid. intros H.
    apply app_inj_1 in H as [Hh Hn]; [|unfold to_be_bytes; rewrite !length_rev; blen].
    apply app_inv_head in Hn. apply app_inv_head in Hn.
    split; [by apply (to_be_bytes_inj 4)|]. by apply (to_be_bytes_inj 8); [apply fnv1a_u64..|].
  - unfold namespace_uuid. by intros [-> ->].
  - intros H. apply (f_equal (fun l => l !! 8%nat)) in H. unfold namespace_uuid in H.
    rewrite lookup_app_r in H by (unfold to_be_bytes; rewrite length_rev; blen).
    replace (8 - length (to_be_bytes 8 (fnv1a q1)))%nat with 0%nat in H
      by (unfold to_be_bytes; rewrite length_rev; blen).
    vm_compute in H. done.
Qed.

Lemma namespace_uuid_identity_witness :
  namespace_uuid (ascii_bytes "nqn.a") 1 <> zeroes 16.
Proof. apply (namespace_uuid_identity _ (ascii_bytes "nqn.b") 1 1); vm_compute; split; done. Defined.

(** ** The namespace cache under concurrent changes

    A writer holds the write lock from the swap to the bump; a reader loads the
    generation without the lock and takes the snapshot under the read lock.
    [hist] is the list of tables installed so far, oldest first. *)

Record cache_st := {
  sub : Subsystem;
  wlock : bool;
  loaded : option Z;
  cache : NsCache;
  hist : list NsMap;
}.

Definition cache_init (s : Subsystem) : cache_st :=
  {| sub := s; wlock := false; loaded := None; cache := NsCache_default;
     hist := [ss_namespaces s] |}.

(** The label is a completed [get]: the generation it loaded, what it returned. *)
Inductive cache_step (st : cache_st) : option (Z * NsMap) -> cache_st -> Prop :=
| W_swap c t :
    wlock st = false -> changed_table c (ss_namespaces (sub st)) = Ok t ->
    cache_step st None
      {| sub := swap_table t (sub st); wlock := true; loaded := loaded st; cache := cache st;
         hist := hist st ++ [t] |}
| W_bump :
    wlock st = true ->
    cache_step st None
      {| sub := bump (sub st); wlock := false; loaded := loaded st; cache := cache st;
         hist := hist st |}
| R_load :
    loaded st = None ->
    cache_step st None
      {| sub := sub st; wlock := wlock st; loaded := Some (ss_generation (sub st));
         cache := cache st; hist := hist st |}
| R_hit g m :
    loaded st = Some g -> cache_stale (cache st) g = false -> cache_map (cache st) = Some m ->
    cache_step st (Some (g, m))
      {| sub := sub st; wlock := wlock st; loaded := None; cache := cache st; hist := hist st |}
| R_refresh g :
    loaded st = Some g -> cache_stale (cache st) g = true -> wlock st = false ->
    cache_step st (Some (g, ss_namespaces (sub st)))
      {| sub := sub st; wlock := wlock st; loaded := None;
         cache := cache_refresh g (ss_namespaces (sub st)); hist := hist st |}.

Inductive cache_reachable (s : Subsystem) : cache_st -> Prop :=
| cache_start : cache_reachable s (cache_init s)
| cache_next st l st' : cache_reachable s st -> cache_step st l st' -> cache_reachable s st'.

(** The [v]-th installed table, from 1. *)
Definition version (st : cache_st) (v : Z) : option NsMap := hist st !! Z.to_nat (v - 1).

(** Versions completely installed: a change counts once its bump is done. *)
Definition published (st : cache_st) : Z :=
  Z.of_nat (length (hist st)) - (if wlock st then 1 else 0).

Record cache_inv (st : cache_st) : Prop := {
  ci_gen : ss_generation (sub st) = published st;
  ci_last : list.last (hist st) = Some (ss_namespaces (sub st));
  ci_pos : 1 <= published st;
  ci_cache : match cache_map (cache st) with
             | None => cache_generation (cache st) = 0
             | Some m => 1 <= cache_generation (cache st)
                 /\ exists v, cache_generation (cache st) <= v /\ version st v = Some m
             end;
  ci_loaded : forall g, loaded st = Some g -> 1 <= g <= published st;
}.

Lemma version_last st :
  list.last (hist st) = version st (Z.of_nat (length (hist st))).
Proof. rewrite last_lookup. unfold version. f_equal. lia. Qed.

Lemma version_app st st' t v m :
  hist st' = hist st ++ t -> version st v = Some m -> version st' v = Some m.
Proof. unfold version. intros -> H. by apply lookup_app_l_Some. Qed.

Lemma cache_inv_step st l st' :
  Z.of_nat (length (hist st')) < 2 ^ 64 -> cache_inv st -> cache_step st l st' -> cache_inv st'.
Proof.
  intros Hb [Hg Hl Hp Hc Hr] Hs. unfold published in *.
  destruct Hs as [c t Hw Ht|Hw|Hn|g m Hld Hst Hm|g Hld Hst Hw]; cbn in Hb;
    split; unfold published; cbn; try rewrite Hw in *; try done; try lia.
  - rewrite length_app. cbn. lia.
  - by rewrite last_snoc.
  - rewrite length_app. cbn. lia.
  - destruct (cache_map (cache st)) as [m|]; [|done]. destruct Hc as (? & v & ? & ?).
    split; [done|]. exists v. split; [done|]. by eapply version_app; [reflexivity|].
  - intros g Hg'. apply Hr in Hg'. rewrite length_app. cbn. lia.
  - rewrite wrap_small; [lia|]. split; lia.
  - intros g Hg'. apply Hr in Hg'. lia.
  - intros g [= <-]. lia.
  - apply Hr in Hld. split; [lia|]. exists (Z.of_nat (length (hist st))).
    split; [lia|]. rewrite <- Hl, version_last. done.
Qed.

Lemma cache_hist_grows st l st' :
  cache_step st l st' -> (length (hist st) <= length (hist st'))%nat.
Proof. intros Hs. destruct Hs; cbn; rewrite ?length_app; lia. Qed.

Lemma cache_inv_reachable s st :
  ss_generation s = 1 -> cache_reachable s st -> Z.of_nat (length (hist st)) < 2 ^ 64 ->
  cache_inv st.
Proof.
  intros Hs Hr. induction Hr as [|st l st' Hr IH Hst]; intros Hb.
  - split; cbn; unfold published; cbn; try done; try lia. 
  - eapply cache_inv_step; [done| |done]. apply IH. apply cache_hist_grows in Hst. lia.
Qed.

(** A [get] that no writer interrupts returns the current table. *)
Lemma get_current st :
  cache_inv st -> wlock st = false ->
  (NsCache_get (sub st) (cache st)).2 = Ok (ss_namespaces (sub st)).
Proof.
  intros [Hg Hl Hp Hc Hr] Hw. unfold NsCache_get, mbind, M_bind, get. cbv beta iota zeta.
  destruct (cache_stale _ _) eqn:Hst; [done|]. cbn. unfold cache_stale in Hst.
  apply orb_false_elim in Hst as [He%negb_false_iff%Z.eqb_eq Hn%bool_decide_eq_false].
  destruct (cache_map (cache st)) as [m|] eqn:Hm; [|done]. cbn.
  destruct Hc as (_ & v & Hv & Hvm). unfold published in *. rewrite Hw in *.
  assert (v = Z.of_nat (length (hist st))) as ->.
  { apply lookup_lt_Some in Hvm. lia. }
  rewrite <- version_last, Hl in Hvm. by simplify_eq.
Qed.

(** C39. The generation-validated cache never goes back in time: however the
    control plane's changes interleave, a [get] returns a table at least as new
    as every change that had completed when it loaded the generation, and when
    no change is under way it returns the current table (fewer than [2^64]
    changes, so that the generation does not wrap). *)
Theorem ns_cache_coherent s st :
  ss_generation s = 1 -> cache_reachable s st -> Z.of_nat (length (hist st)) < 2 ^ 64 ->
  (forall g m st', cache_step st (Some (g, m)) st' -> exists v, g <= v /\ version st v = Some m)
  /\ (forall st', cache_step st None st' -> loaded st = None -> forall g,
        loaded st' = Some g -> g = published st)
  /\ (wlock st = false -> (NsCache_get (sub st) (cache st)).2 = Ok (ss_namespaces (sub st))).
Proof.
  intros Hs Hr Hb. pose proof (cache_inv_reachable s st Hs Hr Hb) as HI.
  pose proof HI as [Hg Hl Hp Hc Hld]. split; [|split; [|by apply get_current]].
  - intros g m st' Hst. inversion Hst as [| | |g' m' Hlo Hst' Hm|g' Hlo Hst' Hw]; subst.
    + rewrite Hm in Hc. destruct Hc as (_ & v & Hv & ?). exists v. split; [|done].
      unfold cache_stale in Hst'.
      apply orb_false_elim in Hst' as [He%negb_false_iff%Z.eqb_eq _]. lia.
    + exists (Z.of_nat (length (hist st))). rewrite <- version_last. split; [|done].
      apply Hld in Hlo. unfold published in *. rewrite Hw in *. lia.
  - intros st' Hst Hn g Hg'. inversion Hst; subst; cbn in Hg'; congruence.
Qed.

Definition demo_ns (n : Z) : Namespace :=
  {| ns_nsid := n; ns_backend := 0; ns_uuid := namespace_uuid (ascii_bytes "nqn.a") n |}.
Definition demo_sub : Subsystem :=
  Subsystem_new (ascii_bytes "nqn.a") (ascii_bytes "S1") (ascii_bytes "ioutgt") true []
    {[1 := demo_ns 1]}.

(** A change completed between two commands: the cached table is refreshed. *)
Lemma ns_cache_coherent_witness :
  exists st, (length (hist st) = 2)%nat /\ cache_map (cache st) = Some {[1 := demo_ns 1]}
    /\ (NsCache_get (sub st) (cache st)).2 = Ok {[1 := demo_ns 1; 2 := demo_ns 2]}.
Proof.
  eexists (Build_cache_st (bump (swap_table (<[2 := demo_ns 2]> {[1 := demo_ns 1]}) demo_sub))
    false None (cache_refresh 1 {[1 := demo_ns 1]}) [{[1 := demo_ns 1]}; <[2 := demo_ns 2]> {[1 := demo_ns 1]}]).
  split; [done|split; [done|]].
  match goal with |- (NsCache_get (sub ?st) _).2 = _ =>
    transitivity (Ok (E := never) (ss_namespaces (sub st))); [|vm_compute; reflexivity];
    apply (ns_cache_coherent demo_sub st); [reflexivity| |cbn; lia|reflexivity] end.
  eapply cache_next; [|exact (W_bump (Build_cache_st
    (swap_table (<[2 := demo_ns 2]> {[1 := demo_ns 1]}) demo_sub) true None
    (cache_refresh 1 {[1 := demo_ns 1]})
    [{[1 := demo_ns 1]}; <[2 := demo_ns 2]> {[1 := demo_ns 1]}]) eq_refl)].
  eapply cache_next; [|exact (W_swap (Build_cache_st demo_sub false None
    (cache_refresh 1 {[1 := demo_ns 1]}) [{[1 := demo_ns 1]}]) (NsAdd (demo_ns 2)) _ eq_refl eq_refl)].
  eapply cache_next; [|exact (R_refresh (Build_cache_st demo_sub false (Some 1) NsCache_default
    [{[1 := demo_ns 1]}]) 1 eq_refl eq_refl eq_refl)].
  eapply cache_next; [apply cache_start|exact (R_load (cache_init demo_sub) eq_refl)].
Defined.
