(* ===== verification/Fabrics.v ===== *)
(** * [ioutgt-nvme/src/fabrics.rs], [controller.rs]: fabrics capsules, registers

    The fabrics commands reinterpret the bytes of an SQE; [X_view] and [X_bytes]
    are the [repr(C)] views as in [Spec].  [RegisterState] is the CC/CSTS
    machine of one controller. *)

From S2P Require Import Prelude Spec.

Module fctype.
Definition PROPERTY_SET : Z := 0x00.
Definition CONNECT : Z := 0x01.
Definition PROPERTY_GET : Z := 0x04.
End fctype.

Module prop.
Definition CAP : Z := 0x00.
Definition VS : Z := 0x08.
Definition CC : Z := 0x14.
Definition CSTS : Z := 0x1C.
Definition NSSR : Z := 0x20.
End prop.

Module cc.
Definition EN : Z := Z.shiftl 1 0.
Definition SHN_MASK : Z := Z.shiftl 3 14.
Definition SHN_NORMAL : Z := Z.shiftl 1 14.
Definition IOSQES_SHIFT : Z := 16.
Definition IOCQES_SHIFT : Z := 20.
End cc.

Module csts.
Definition RDY : Z := Z.shiftl 1 0.
Definition CFS : Z := Z.shiftl 1 1.
Definition SHST_COMPLETE : Z := Z.shiftl 2 2.
End csts.

Module trtype.
Definition RDMA : Z := 1.
Definition FC : Z := 2.
Definition TCP : Z := 3.
End trtype.

Module subtype.
Definition DISCOVERY : Z := 3.
Definition NVM : Z := 2.
End subtype.

Definition DISCOVERY_NQN : str := ascii_bytes "nqn.2014-08.org.nvmexpress.discovery".

(** ** Command and data capsules *)

Record ConnectCommand := {
  cn_opcode : Z;
  cn_resv1 : Z;
  cn_cid : Z;
  cn_fctype : Z;
  cn_resv2 : bytes;
  cn_dptr : SglDescriptor;
  cn_recfmt : Z;
  cn_qid : Z;
  cn_sqsize : Z;
  cn_cattr : Z;
  cn_resv3 : Z;
  cn_kato : Z;
  cn_resv4 : bytes;
}.

Definition ConnectCommand_view (bs : bytes) : ConnectCommand := {|
  cn_opcode := field bs 0 1;
  cn_resv1 := field bs 1 1;
  cn_cid := field bs 2 2;
  cn_fctype := field bs 4 1;
  cn_resv2 := bytes_at bs 5 19;
  cn_dptr := SglDescriptor_view (bytes_at bs 24 16);
  cn_recfmt := field bs 40 2;
  cn_qid := field bs 42 2;
  cn_sqsize := field bs 44 2;
  cn_cattr := field bs 46 1;
  cn_resv3 := field bs 47 1;
  cn_kato := field bs 48 4;
  cn_resv4 := bytes_at bs 52 12;
|}.

Record ConnectData := {
  cd_hostid : bytes;
  cd_cntlid : Z;
  cd_resv4 : bytes;
  cd_subsysnqn : bytes;
  cd_hostnqn : bytes;
  cd_resv5 : bytes;
}.

Definition ConnectData_bytes (d : ConnectData) : bytes :=
  cd_hostid d ++ le_split 2 (cd_cntlid d) ++ cd_resv4 d ++ cd_subsysnqn d ++ cd_hostnqn d ++
  cd_resv5 d.

Definition ConnectData_view (bs : bytes) : ConnectData := {|
  cd_hostid := bytes_at bs 0 16;
  cd_cntlid := field bs 16 2;
  cd_resv4 := bytes_at bs 18 238;
  cd_subsysnqn := bytes_at bs 256 256;
  cd_hostnqn := bytes_at bs 512 256;
  cd_resv5 := bytes_at bs 768 256;
|}.

Definition ConnectData_zeroed : ConnectData := ConnectData_view (zeroes 1024).

Record PropertyCommand := {
  pr_opcode : Z;
  pr_resv1 : Z;
  pr_cid : Z;
  pr_fctype : Z;
  pr_resv2 : bytes;
  pr_attrib : Z;
  pr_resv3 : bytes;
  pr_offset : Z;
  pr_value : Z;
  pr_resv4 : bytes;
}.

Definition PropertyCommand_view (bs : bytes) : PropertyCommand := {|
  pr_opcode := field bs 0 1;
  pr_resv1 := field bs 1 1;
  pr_cid := field bs 2 2;
  pr_fctype := field bs 4 1;
  pr_resv2 := bytes_at bs 5 35;
  pr_attrib := field bs 40 1;
  pr_resv3 := bytes_at bs 41 3;
  pr_offset := field bs 44 4;
  pr_value := field bs 48 8;
  pr_resv4 := bytes_at bs 56 8;
|}.

(** ** Discovery log *)

Record DiscoveryLogHeader := {
  dh_genctr : Z;
  dh_numrec : Z;
  dh_recfmt : Z;
  dh_resv : bytes;
}.

Definition DiscoveryLogHeader_bytes (h : DiscoveryLogHeader) : bytes :=
  le_split 8 (dh_genctr h) ++ le_split 8 (dh_numrec h) ++ le_split 2 (dh_recfmt h) ++ dh_resv h.

Record DiscoveryLogEntry := {
  de_trtype : Z;
  de_adrfam : Z;
  de_subtype : Z;
  de_treq : Z;
  de_portid : Z;
  de_cntlid : Z;
  de_asqsz : Z;
  de_eflags : Z;
  de_resv12 : bytes;
  de_trsvcid : bytes;
  de_resv64 : bytes;
  de_subnqn : bytes;
  de_traddr : bytes;
  de_tsas : bytes;
}.

Definition DiscoveryLogEntry_bytes (e : DiscoveryLogEntry) : bytes :=
  le_split 1 (de_trtype e) ++ le_split 1 (de_adrfam e) ++ le_split 1 (de_subtype e) ++
  le_split 1 (de_treq e) ++ le_split 2 (de_portid e) ++ le_split 2 (de_cntlid e) ++
  le_split 2 (de_asqsz e) ++ le_split 2 (de_eflags e) ++ de_resv12 e ++ de_trsvcid e ++
  de_resv64 e ++ de_subnqn e ++ de_traddr e ++ de_tsas e.

(** ** The register file of a controller *)

Record RegisterState := {
  r_cc : Z;
  r_csts : Z;
  r_cap : Z;
}.

Inductive CcEffect := CcNone | Enabled | Shutdown | Disabled.

Definition RegisterState_new {E} (max_queue_entries : Z) : res E RegisterState :=
  mqes ← checked 16 (max_queue_entries - 1);
  mret {| r_cc := 0; r_csts := 0;
          r_cap := Z.lor (Z.lor mqes (Z.shiftl 1 16)) (Z.shiftl 30 24) |}.

Definition write_cc (value : Z) (r : RegisterState) : RegisterState * CcEffect :=
  let was_enabled := negb (Z.land (r_cc r) cc.EN =? 0) in
  let now_enabled := negb (Z.land value cc.EN =? 0) in
  let shutdown := negb (Z.land value cc.SHN_MASK =? 0) in
  let with_csts c := {| r_cc := value; r_csts := c; r_cap := r_cap r |} in
  if shutdown then (with_csts (Z.lor (r_csts r) csts.SHST_COMPLETE), Shutdown)
  else if negb was_enabled && now_enabled then (with_csts (Z.lor (r_csts r) csts.RDY), Enabled)
  else if was_enabled && negb now_enabled
       then (with_csts (Z.land (r_csts r) (Z.lnot csts.RDY)), Disabled)
  else (with_csts (r_csts r), CcNone).

Definition ready (r : RegisterState) : bool := negb (Z.land (r_csts r) csts.RDY =? 0).

(** ** Lemmas *)

(** Bytes 0 to 3 are shared by every reinterpretation of an SQE. *)
Lemma ConnectCommand_cid s : Sqe_wf s -> cn_cid (ConnectCommand_view (Sqe_bytes s)) = sqe_cid s.
Proof.
  intros (?&?&Hc&_). unfold ConnectCommand_view, Sqe_bytes. cbn [cn_cid].
  transitivity (le_combine (le_split 2 (sqe_cid s))); [reflexivity|].
  by apply le_combine_le_split_small.
Qed.

Lemma PropertyCommand_cid s : Sqe_wf s -> pr_cid (PropertyCommand_view (Sqe_bytes s)) = sqe_cid s.
Proof. apply ConnectCommand_cid. Qed.

Lemma DiscoveryLogHeader_length h :
  length (dh_resv h) = 1006%nat -> length (DiscoveryLogHeader_bytes h) = 1024%nat.
Proof. intros. unfold DiscoveryLogHeader_bytes. blen. Qed.

Lemma DiscoveryLogEntry_length e :
  length (de_resv12 e) = 20%nat -> length (de_trsvcid e) = 32%nat ->
  length (de_resv64 e) = 192%nat -> length (de_subnqn e) = 256%nat ->
  length (de_traddr e) = 256%nat -> length (de_tsas e) = 256%nat ->
  length (DiscoveryLogEntry_bytes e) = 1024%nat.
Proof. intros. unfold DiscoveryLogEntry_bytes. blen. Qed.
