(* ===== verification/Identify.v ===== *)
(** * [ioutgt-nvme/src/identify.rs]: Identify data structures

    Both structures are 4096 bytes; [X_bytes] is the [repr(C)] view. *)

From S2P Require Import Prelude Spec.

Module oncs.
Definition DSM : Z := Z.shiftl 1 2.
Definition WRITE_ZEROES : Z := Z.shiftl 1 3.
End oncs.

Module vwc.
Definition PRESENT : Z := Z.shiftl 1 0.
End vwc.

Module ctratt.
Definition TBKAS : Z := Z.shiftl 1 6.
End ctratt.

Module cmic.
Definition MULTI_CTRL : Z := Z.shiftl 1 1.
End cmic.

Module nsfeat.
Definition ATOMICS : Z := Z.shiftl 1 1.
Definition OPTPERF : Z := Z.shiftl 3 4.
End nsfeat.

Module nmic.
Definition SHARED : Z := Z.shiftl 1 0.
End nmic.

Definition SGLS_BYTE_ALIGNED : Z := 1.
Definition SGLS_KEYED : Z := Z.shiftl 1 2.
Definition SGLS_SAOS : Z := Z.shiftl 1 20.

Record LbaFormat := { lf_ms : Z; lf_lbads : Z; lf_rp : Z }.
Definition LbaFormat_bytes (f : LbaFormat) : bytes :=
  le_split 2 (lf_ms f) ++ le_split 1 (lf_lbads f) ++ le_split 1 (lf_rp f).

Record IdentifyController := {
  ic_vid : Z;
  ic_ssvid : Z;
  ic_sn : bytes;
  ic_mn : bytes;
  ic_fr : bytes;
  ic_rab : Z;
  ic_ieee : bytes;
  ic_cmic : Z;
  ic_mdts : Z;
  ic_cntlid : Z;
  ic_ver : Z;
  ic_rtd3r : Z;
  ic_rtd3e : Z;
  ic_oaes : Z;
  ic_ctratt : Z;
  ic_rsvd100 : bytes;
  ic_cntrltype : Z;
  ic_fguid : bytes;
  ic_rsvd128 : bytes;
  ic_oacs : Z;
  ic_acl : Z;
  ic_aerl : Z;
  ic_frmw : Z;
  ic_lpa : Z;
  ic_elpe : Z;
  ic_npss : Z;
  ic_avscc : Z;
  ic_apsta : Z;
  ic_wctemp : Z;
  ic_cctemp : Z;
  ic_rsvd270 : bytes;
  ic_kas : Z;
  ic_rsvd322 : bytes;
  ic_sqes : Z;
  ic_cqes : Z;
  ic_maxcmd : Z;
  ic_nn : Z;
  ic_oncs : Z;
  ic_fuses : Z;
  ic_fna : Z;
  ic_vwc : Z;
  ic_awun : Z;
  ic_awupf : Z;
  ic_nvscc : Z;
  ic_nwpc : Z;
  ic_acwu : Z;
  ic_rsvd534 : bytes;
  ic_sgls : Z;
  ic_mnan : Z;
  ic_rsvd544 : bytes;
  ic_subnqn : bytes;
  ic_rsvd1024 : bytes;
  ic_ioccsz : Z;
  ic_iorcsz : Z;
  ic_icdoff : Z;
  ic_ctrattr : Z;
  ic_msdbd : Z;
  ic_rsvd1804 : bytes;
  ic_psd : bytes;
  ic_vs : bytes;
}.

Definition IdentifyController_bytes (i : IdentifyController) : bytes :=
  le_split 2 (ic_vid i) ++ le_split 2 (ic_ssvid i) ++ ic_sn i ++ ic_mn i ++ ic_fr i ++
  le_split 1 (ic_rab i) ++ ic_ieee i ++ le_split 1 (ic_cmic i) ++ le_split 1 (ic_mdts i) ++
  le_split 2 (ic_cntlid i) ++ le_split 4 (ic_ver i) ++ le_split 4 (ic_rtd3r i) ++
  le_split 4 (ic_rtd3e i) ++ le_split 4 (ic_oaes i) ++ le_split 4 (ic_ctratt i) ++
  ic_rsvd100 i ++ le_split 1 (ic_cntrltype i) ++ ic_fguid i ++ ic_rsvd128 i ++
  le_split 2 (ic_oacs i) ++ le_split 1 (ic_acl i) ++ le_split 1 (ic_aerl i) ++
  le_split 1 (ic_frmw i) ++ le_split 1 (ic_lpa i) ++ le_split 1 (ic_elpe i) ++
  le_split 1 (ic_npss i) ++ le_split 1 (ic_avscc i) ++ le_split 1 (ic_apsta i) ++
  le_split 2 (ic_wctemp i) ++ le_split 2 (ic_cctemp i) ++ ic_rsvd270 i ++
  le_split 2 (ic_kas i) ++ ic_rsvd322 i ++ le_split 1 (ic_sqes i) ++ le_split 1 (ic_cqes i) ++
  le_split 2 (ic_maxcmd i) ++ le_split 4 (ic_nn i) ++ le_split 2 (ic_oncs i) ++
  le_split 2 (ic_fuses i) ++ le_split 1 (ic_fna i) ++ le_split 1 (ic_vwc i) ++
  le_split 2 (ic_awun i) ++ le_split 2 (ic_awupf i) ++ le_split 1 (ic_nvscc i) ++
  le_split 1 (ic_nwpc i) ++ le_split 2 (ic_acwu i) ++ ic_rsvd534 i ++ le_split 4 (ic_sgls i) ++
  le_split 4 (ic_mnan i) ++ ic_rsvd544 i ++ ic_subnqn i ++ ic_rsvd1024 i ++
  le_split 4 (ic_ioccsz i) ++ le_split 4 (ic_iorcsz i) ++ le_split 2 (ic_icdoff i) ++
  le_split 1 (ic_ctrattr i) ++ le_split 1 (ic_msdbd i) ++ ic_rsvd1804 i ++ ic_psd i ++ ic_vs i.

Record IdentifyNamespace := {
  idn_nsze : Z;
  idn_ncap : Z;
  idn_nuse : Z;
  idn_nsfeat : Z;
  idn_nlbaf : Z;
  idn_flbas : Z;
  idn_mc : Z;
  idn_dpc : Z;
  idn_dps : Z;
  idn_nmic : Z;
  idn_rescap : Z;
  idn_fpi : Z;
  idn_dlfeat : Z;
  idn_nawun : Z;
  idn_nawupf : Z;
  idn_nacwu : Z;
  idn_nabsn : Z;
  idn_nabo : Z;
  idn_nabspf : Z;
  idn_noiob : Z;
  idn_nvmcap : bytes;
  idn_npwg : Z;
  idn_npwa : Z;
  idn_npdg : Z;
  idn_npda : Z;
  idn_nows : Z;
  idn_rsvd74 : bytes;
  idn_anagrpid : Z;
  idn_rsvd96 : bytes;
  idn_nsattr : Z;
  idn_nvmsetid : Z;
  idn_endgid : Z;
  idn_nguid : bytes;
  idn_eui64 : bytes;
  idn_lbaf : list LbaFormat;
  idn_rsvd192 : bytes;
  idn_vs : bytes;
}.

Definition IdentifyNamespace_bytes (i : IdentifyNamespace) : bytes :=
  le_split 8 (idn_nsze i) ++ le_split 8 (idn_ncap i) ++ le_split 8 (idn_nuse i) ++
  le_split 1 (idn_nsfeat i) ++ le_split 1 (idn_nlbaf i) ++ le_split 1 (idn_flbas i) ++
  le_split 1 (idn_mc i) ++ le_split 1 (idn_dpc i) ++ le_split 1 (idn_dps i) ++
  le_split 1 (idn_nmic i) ++ le_split 1 (idn_rescap i) ++ le_split 1 (idn_fpi i) ++
  le_split 1 (idn_dlfeat i) ++ le_split 2 (idn_nawun i) ++ le_split 2 (idn_nawupf i) ++
  le_split 2 (idn_nacwu i) ++ le_split 2 (idn_nabsn i) ++ le_split 2 (idn_nabo i) ++
  le_split 2 (idn_nabspf i) ++ le_split 2 (idn_noiob i) ++ idn_nvmcap i ++
  le_split 2 (idn_npwg i) ++ le_split 2 (idn_npwa i) ++ le_split 2 (idn_npdg i) ++
  le_split 2 (idn_npda i) ++ le_split 2 (idn_nows i) ++ idn_rsvd74 i ++
  le_split 4 (idn_anagrpid i) ++ idn_rsvd96 i ++ le_split 1 (idn_nsattr i) ++
  le_split 2 (idn_nvmsetid i) ++ le_split 2 (idn_endgid i) ++ idn_nguid i ++ idn_eui64 i ++
  concat (map LbaFormat_bytes (idn_lbaf i)) ++ idn_rsvd192 i ++ idn_vs i.

Definition IdentifyNamespace_zeroed : IdentifyNamespace := {|
  idn_nsze := 0; idn_ncap := 0; idn_nuse := 0; idn_nsfeat := 0; idn_nlbaf := 0; idn_flbas := 0;
  idn_mc := 0; idn_dpc := 0; idn_dps := 0; idn_nmic := 0; idn_rescap := 0; idn_fpi := 0;
  idn_dlfeat := 0; idn_nawun := 0; idn_nawupf := 0; idn_nacwu := 0; idn_nabsn := 0; idn_nabo := 0;
  idn_nabspf := 0; idn_noiob := 0; idn_nvmcap := zeroes 16; idn_npwg := 0; idn_npwa := 0;
  idn_npdg := 0; idn_npda := 0; idn_nows := 0; idn_rsvd74 := zeroes 18; idn_anagrpid := 0;
  idn_rsvd96 := zeroes 3; idn_nsattr := 0; idn_nvmsetid := 0; idn_endgid := 0;
  idn_nguid := zeroes 16; idn_eui64 := zeroes 8;
  idn_lbaf := replicate 16 {| lf_ms := 0; lf_lbads := 0; lf_rp := 0 |}; idn_rsvd192 := zeroes 192;
  idn_vs := zeroes 3712;
|}.
