(* ===== verification/Dispatch.v ===== *)
(** * [ioutgt-nvme/src/dispatch.rs]: per-connection context and controller state

    [World] is everything a command handler can reach: the connection's context
    ([ConnCtx]: queue, port, registry, connect data, role) and what lies behind
    its [Arc]s and buffers (the backends, by index; the memory; the clock).
    An [Arc<Subsystem>] held by a queue is the NQN it was looked up by: the
    port's map never changes, only the tables inside its subsystems do.

    Handlers are state transformers.  One that awaits returns [Parked] with
    what it waits for, and [resume] continues it; between the two any other
    task may run. *)

From S2P Require Import Prelude Spec Fabrics Pool SlotQ Registry Backend Subsystem.

(** [ioutgt-core/src/lib.rs] and [ioutgt-nvme/src/lib.rs]. *)
Definition MAX_QUEUE_ENTRIES : Z := 256.
Definition MDTS_BYTES : Z := 128 * 1024.
Definition ADMIN_DATA_MAX : Z := 8 * 1024.
Definition RDMA_INLINE_DATA_SIZE : Z := 4096.
Definition INLINE_DATA_SIZE : Z := 16 * 1024.
Definition AEN_CFG_NS_ATTR : Z := Z.shiftl 1 8.

(** Durations are in milliseconds. *)
Definition KEEPALIVE_TICK_MIN : Z := 250.
Definition KEEPALIVE_TICK_MAX : Z := 5000.

Definition keepalive_tick (kato_ms : Z) : Z :=
  if kato_ms =? 0 then KEEPALIVE_TICK_MAX
  else clamp (kato_ms / 2) KEEPALIVE_TICK_MIN KEEPALIVE_TICK_MAX.

Record AdminState := {
  ad_regs : RegisterState;
  ad_cntlid : Z;
  ad_subsys : option str;
  ad_discovery : bool;
  ad_kato_ms : Z;
  ad_last_heard : Z;
  ad_traffic : option nat;
  ad_events : list Z;
  ad_aer_wakers : list nat;
  ad_aec : Z;
  ad_ns_changed : bool;
  ad_closing : bool;
}.

Record IoState := {
  io_cntlid : Z;
  io_subsys : option str;
  io_ns_cache : NsCache;
  io_traffic : option nat;
  io_kato_ms : Z;
}.

Inductive Role := Admin (a : AdminState) | IoQueue (i : IoState).

(** [Cell::set] and [RefCell] updates of the admin state. *)
Definition ad_set_regs r a := {|
  ad_regs := r; ad_cntlid := ad_cntlid a; ad_subsys := ad_subsys a; ad_discovery := ad_discovery a;
  ad_kato_ms := ad_kato_ms a; ad_last_heard := ad_last_heard a; ad_traffic := ad_traffic a;
  ad_events := ad_events a; ad_aer_wakers := ad_aer_wakers a; ad_aec := ad_aec a;
  ad_ns_changed := ad_ns_changed a; ad_closing := ad_closing a |}.
Definition ad_set_subsys s a := {|
  ad_regs := ad_regs a; ad_cntlid := ad_cntlid a; ad_subsys := s; ad_discovery := ad_discovery a;
  ad_kato_ms := ad_kato_ms a; ad_last_heard := ad_last_heard a; ad_traffic := ad_traffic a;
  ad_events := ad_events a; ad_aer_wakers := ad_aer_wakers a; ad_aec := ad_aec a;
  ad_ns_changed := ad_ns_changed a; ad_closing := ad_closing a |}.
Definition ad_set_discovery d a := {|
  ad_regs := ad_regs a; ad_cntlid := ad_cntlid a; ad_subsys := ad_subsys a; ad_discovery := d;
  ad_kato_ms := ad_kato_ms a; ad_last_heard := ad_last_heard a; ad_traffic := ad_traffic a;
  ad_events := ad_events a; ad_aer_wakers := ad_aer_wakers a; ad_aec := ad_aec a;
  ad_ns_changed := ad_ns_changed a; ad_closing := ad_closing a |}.
Definition ad_set_last_heard t a := {|
  ad_regs := ad_regs a; ad_cntlid := ad_cntlid a; ad_subsys := ad_subsys a;
  ad_discovery := ad_discovery a; ad_kato_ms := ad_kato_ms a; ad_last_heard := t;
  ad_traffic := ad_traffic a; ad_events := ad_events a; ad_aer_wakers := ad_aer_wakers a;
  ad_aec := ad_aec a; ad_ns_changed := ad_ns_changed a; ad_closing := ad_closing a |}.
Definition ad_set_events e ws a := {|
  ad_regs := ad_regs a; ad_cntlid := ad_cntlid a; ad_subsys := ad_subsys a;
  ad_discovery := ad_discovery a; ad_kato_ms := ad_kato_ms a; ad_last_heard := ad_last_heard a;
  ad_traffic := ad_traffic a; ad_events := e; ad_aer_wakers := ws;
  ad_aec := ad_aec a; ad_ns_changed := ad_ns_changed a; ad_closing := ad_closing a |}.
Definition ad_set_ns_changed b a := {|
  ad_regs := ad_regs a; ad_cntlid := ad_cntlid a; ad_subsys := ad_subsys a;
  ad_discovery := ad_discovery a; ad_kato_ms := ad_kato_ms a; ad_last_heard := ad_last_heard a;
  ad_traffic := ad_traffic a; ad_events := ad_events a; ad_aer_wakers := ad_aer_wakers a;
  ad_aec := ad_aec a; ad_ns_changed := b; ad_closing := ad_closing a |}.
Definition ad_set_closing b a := {|
  ad_regs := ad_regs a; ad_cntlid := ad_cntlid a; ad_subsys := ad_subsys a;
  ad_discovery := ad_discovery a; ad_kato_ms := ad_kato_ms a; ad_last_heard := ad_last_heard a;
  ad_traffic := ad_traffic a; ad_events := ad_events a; ad_aer_wakers := ad_aer_wakers a;
  ad_aec := ad_aec a; ad_ns_changed := ad_ns_changed a; ad_closing := b |}.
Definition ad_set_kato k a := {|
  ad_regs := ad_regs a; ad_cntlid := ad_cntlid a; ad_subsys := ad_subsys a;
  ad_discovery := ad_discovery a; ad_kato_ms := k; ad_last_heard := ad_last_heard a;
  ad_traffic := ad_traffic a; ad_events := ad_events a; ad_aer_wakers := ad_aer_wakers a;
  ad_aec := ad_aec a; ad_ns_changed := ad_ns_changed a; ad_closing := ad_closing a |}.
Definition ad_set_aec c a := {|
  ad_regs := ad_regs a; ad_cntlid := ad_cntlid a; ad_subsys := ad_subsys a;
  ad_discovery := ad_discovery a; ad_kato_ms := ad_kato_ms a; ad_last_heard := ad_last_heard a;
  ad_traffic := ad_traffic a; ad_events := ad_events a; ad_aer_wakers := ad_aer_wakers a;
  ad_aec := c; ad_ns_changed := ad_ns_changed a; ad_closing := ad_closing a |}.
Definition ad_set_cntlid c a := {|
  ad_regs := ad_regs a; ad_cntlid := c; ad_subsys := ad_subsys a;
  ad_discovery := ad_discovery a; ad_kato_ms := ad_kato_ms a; ad_last_heard := ad_last_heard a;
  ad_traffic := ad_traffic a; ad_events := ad_events a; ad_aer_wakers := ad_aer_wakers a;
  ad_aec := ad_aec a; ad_ns_changed := ad_ns_changed a; ad_closing := ad_closing a |}.
(** [OnceCell::set]: a second set is refused. *)
Definition ad_set_traffic f a := {|
  ad_regs := ad_regs a; ad_cntlid := ad_cntlid a; ad_subsys := ad_subsys a;
  ad_discovery := ad_discovery a; ad_kato_ms := ad_kato_ms a; ad_last_heard := ad_last_heard a;
  ad_traffic := match ad_traffic a with None => Some f | t => t end;
  ad_events := ad_events a; ad_aer_wakers := ad_aer_wakers a;
  ad_aec := ad_aec a; ad_ns_changed := ad_ns_changed a; ad_closing := ad_closing a |}.

Definition io_set_cntlid c i := {|
  io_cntlid := c; io_subsys := io_subsys i; io_ns_cache := io_ns_cache i;
  io_traffic := io_traffic i; io_kato_ms := io_kato_ms i |}.
Definition io_set_kato k i := {|
  io_cntlid := io_cntlid i; io_subsys := io_subsys i; io_ns_cache := io_ns_cache i;
  io_traffic := io_traffic i; io_kato_ms := k |}.
Definition io_set_cache c i := {|
  io_cntlid := io_cntlid i; io_subsys := io_subsys i; io_ns_cache := c;
  io_traffic := io_traffic i; io_kato_ms := io_kato_ms i |}.
Definition io_set_traffic f i := {|
  io_cntlid := io_cntlid i; io_subsys := io_subsys i; io_ns_cache := io_ns_cache i;
  io_traffic := match io_traffic i with None => Some f | t => t end; io_kato_ms := io_kato_ms i |}.
Definition io_set_subsys s i := {|
  io_cntlid := io_cntlid i; io_subsys := match io_subsys i with None => Some s | t => t end;
  io_ns_cache := io_ns_cache i; io_traffic := io_traffic i; io_kato_ms := io_kato_ms i |}.

(** The [AdminState] and [IoState] of a fresh connection. *)
Definition new_admin {E} (now : Z) : res E Role :=
  r ← RegisterState_new MAX_QUEUE_ENTRIES;
  mret (Admin {| ad_regs := r; ad_cntlid := 0; ad_subsys := None; ad_discovery := false;
    ad_kato_ms := 0; ad_last_heard := now; ad_traffic := None; ad_events := [];
    ad_aer_wakers := []; ad_aec := AEN_CFG_NS_ATTR; ad_ns_changed := false;
    ad_closing := false |}).
Definition new_io : Role :=
  IoQueue {| io_cntlid := 0; io_subsys := None; io_ns_cache := NsCache_default;
    io_traffic := None; io_kato_ms := 0 |}.

Section World.
Context {B : Type}.

Record World := {
  w_slots : SlotArray Sqe;
  w_core : QueueCore;
  w_port : PortConfig;
  w_registry : Registry;
  w_connect_data : ConnectData;
  w_peer : str;
  w_role : Role;
  w_backends : list B;
  w_mem : mem;
  (** The environment: clock, owning thread, the address the next heap
      allocation gets, and the tasks woken so far. *)
  w_now : Z;
  w_tid : Z;
  w_cpus : str;
  w_heap : Z;
  w_woken : list nat;
}.

Definition set_slots x w := {| w_slots := x; w_core := w_core w; w_port := w_port w;
  w_registry := w_registry w; w_connect_data := w_connect_data w; w_peer := w_peer w;
  w_role := w_role w; w_backends := w_backends w; w_mem := w_mem w; w_now := w_now w;
  w_tid := w_tid w; w_cpus := w_cpus w; w_heap := w_heap w; w_woken := w_woken w |}.
Definition set_core x w := {| w_slots := w_slots w; w_core := x; w_port := w_port w;
  w_registry := w_registry w; w_connect_data := w_connect_data w; w_peer := w_peer w;
  w_role := w_role w; w_backends := w_backends w; w_mem := w_mem w; w_now := w_now w;
  w_tid := w_tid w; w_cpus := w_cpus w; w_heap := w_heap w; w_woken := w_woken w |}.
Definition set_registry x w := {| w_slots := w_slots w; w_core := w_core w; w_port := w_port w;
  w_registry := x; w_connect_data := w_connect_data w; w_peer := w_peer w;
  w_role := w_role w; w_backends := w_backends w; w_mem := w_mem w; w_now := w_now w;
  w_tid := w_tid w; w_cpus := w_cpus w; w_heap := w_heap w; w_woken := w_woken w |}.
Definition set_role x w := {| w_slots := w_slots w; w_core := w_core w; w_port := w_port w;
  w_registry := w_registry w; w_connect_data := w_connect_data w; w_peer := w_peer w;
  w_role := x; w_backends := w_backends w; w_mem := w_mem w; w_now := w_now w;
  w_tid := w_tid w; w_cpus := w_cpus w; w_heap := w_heap w; w_woken := w_woken w |}.
Definition set_store x m w := {| w_slots := w_slots w; w_core := w_core w; w_port := w_port w;
  w_registry := w_registry w; w_connect_data := w_connect_data w; w_peer := w_peer w;
  w_role := w_role w; w_backends := x; w_mem := m; w_now := w_now w;
  w_tid := w_tid w; w_cpus := w_cpus w; w_heap := w_heap w; w_woken := w_woken w |}.
Definition wake_all ws w := {| w_slots := w_slots w; w_core := w_core w; w_port := w_port w;
  w_registry := w_registry w; w_connect_data := w_connect_data w; w_peer := w_peer w;
  w_role := w_role w; w_backends := w_backends w; w_mem := w_mem w; w_now := w_now w;
  w_tid := w_tid w; w_cpus := w_cpus w; w_heap := w_heap w; w_woken := w_woken w ++ ws |}.

Abbreviation MW := (M World never).

(** Operations of the parts. *)
Definition on_slots {A} (m : M (SlotArray Sqe) never A) : MW A := fun w =>
  let '(x, r) := m (w_slots w) in (set_slots x w, r).
Definition on_core {A} (m : M QueueCore never A) : MW A := fun w =>
  let '(x, r) := m (w_core w) in (set_core x w, r).

(** A [Result] kept as a value. *)
Definition reflect {E A} (r : res E A) : res never (A + E) :=
  match r with Ok a => Ok (inl a) | Err e => Ok (inr e) | Panic => Panic end.
Definition on_registry {E A} (m : M Registry E A) : MW (A + E) := fun w =>
  let '(x, r) := m (w_registry w) in (set_registry x w, reflect r).

(** A method of backend [i], which may read and write the memory. *)
Definition on_backend {A} (i : nat) (m : M (B * mem) BackendError A) : MW (A + BackendError) :=
  fun w =>
  match w_backends w !! i with
  | None => (w, Panic)
  | Some b => let '((b, mm), r) := m (b, w_mem w) in
              (set_store (<[i := b]> (w_backends w)) mm w, reflect r)
  end.

Definition modify_admin (f : AdminState -> AdminState) : MW unit := modify (fun w =>
  match w_role w with Admin a => set_role (Admin (f a)) w | IoQueue _ => w end).
Definition modify_io (f : IoState -> IoState) : MW unit := modify (fun w =>
  match w_role w with Admin _ => w | IoQueue i => set_role (IoQueue (f i)) w end).

(** [stat_add]: the counters of [ctx.queue.stats]. *)
Inductive Counter := ReadCmds | WriteCmds | FlushCmds | OtherCmds | ReadBytes | WriteBytes | Errors.

Definition counter (c : Counter) (s : QueueStats) : Z :=
  match c with
  | ReadCmds => read_cmds s | WriteCmds => write_cmds s | FlushCmds => flush_cmds s
  | OtherCmds => other_cmds s | ReadBytes => read_bytes s | WriteBytes => write_bytes s
  | Errors => errors s
  end.

Definition set_counter (c : Counter) (v : Z) (s : QueueStats) : QueueStats :=
  let sel k old := match c, k with
    | ReadCmds, ReadCmds | WriteCmds, WriteCmds | FlushCmds, FlushCmds | OtherCmds, OtherCmds
    | ReadBytes, ReadBytes | WriteBytes, WriteBytes | Errors, Errors => v
    | _, _ => old end in
  {| qid := qid s; cntlid := cntlid s; read_cmds := sel ReadCmds (read_cmds s);
     write_cmds := sel WriteCmds (write_cmds s); flush_cmds := sel FlushCmds (flush_cmds s);
     other_cmds := sel OtherCmds (other_cmds s); read_bytes := sel ReadBytes (read_bytes s);
     write_bytes := sel WriteBytes (write_bytes s); errors := sel Errors (errors s) |}.

Definition set_stats (s : QueueStats) (q : QueueCore) : QueueCore :=
  {| sqsize := sqsize q; qc_qid := qc_qid q; sqhd := sqhd q; sqhd_disabled := sqhd_disabled q;
     stats := s |}.

Definition stat_add (c : Counter) (n : Z) : MW unit :=
  on_core (q ← get;
           v ← lift (checked 64 (counter c (stats q) + n));
           modify (set_stats (set_counter c v (stats q)))).

Definition set_stats_cntlid (c : Z) : MW unit :=
  on_core (modify (fun q => set_stats
    {| qid := qid (stats q); cntlid := c; read_cmds := read_cmds (stats q);
       write_cmds := write_cmds (stats q); flush_cmds := flush_cmds (stats q);
       other_cmds := other_cmds (stats q); read_bytes := read_bytes (stats q);
       write_bytes := write_bytes (stats q); errors := errors (stats q) |} q)).

(** ** Completions *)

Definition cqe (result cid status_code : Z) : MW Cqe :=
  head ← on_core advance_sqhd;
  w ← get;
  mret (Cqe_new result head (qc_qid (w_core w)) cid status_code).

Record Outcome := { out_cqe : Cqe; out_data_len : Z }.

(** [Outcome::status(ctx.cqe(..))] and [Outcome::with_data(ctx.cqe(..), len)]. *)
Definition with_data (result cid status_code len : Z) : MW Outcome :=
  c ← cqe result cid status_code;
  mret {| out_cqe := c; out_data_len := len |}.
Definition complete (result cid status_code : Z) : MW Outcome := with_data result cid status_code 0.

(** What a command waits for: a buffer lease for a read, or an event. *)
Inductive Await :=
| AwaitLease (backend : nat) (cid : Z) (rw : RwCommand) (len : Z)
| AwaitEvent (cid : Z).

Inductive Progress := Done (o : Outcome) | Parked (k : Await).

(** ** Keep-alive *)

Definition keepalive_expired : MW (option Z) :=
  w ← get;
  match w_role w with
  | IoQueue _ => mret None
  | Admin a =>
      let kato := ad_kato_ms a in
      if kato =? 0 then mret None else
      heard ← match ad_traffic a with
              | None => mret false
              | Some f =>
                  let '(fl, b) := TrafficFlag_take f (flags (w_registry w)) in
                  _ ← modify (fun w => let r := w_registry w in set_registry
                        {| cntlid_min := cntlid_min r; cntlid_max := cntlid_max r;
                           next_cntlid := next_cntlid r; controllers := controllers r;
                           flags := fl |} w);
                  mret b
              end;
      if heard : bool
      then _ ← modify_admin (ad_set_last_heard (w_now w)); mret None
      else
        let silent := Z.min (Z.max 0 (w_now w - ad_last_heard a)) (2 ^ 64 - 1) in
        let grace := keepalive_tick kato in
        limit ← lift (checked 64 (kato * 2 + grace));
        mret (if limit <? silent then Some silent else None)
  end.

(** ** Asynchronous events and teardown *)

(** Type Notice, NS_ATTR_CHANGED, Changed-NS log page. *)
Definition NS_ATTR_NOTICE : Z := 0x00040002.

Definition fire_ns_changed : MW unit :=
  w ← get;
  match w_role w with
  | IoQueue _ => mret tt
  | Admin a =>
      _ ← modify_admin (ad_set_ns_changed true);
      if Z.land (ad_aec a) AEN_CFG_NS_ATTR =? 0 then mret tt else
      let events := if bool_decide (NS_ATTR_NOTICE ∈ ad_events a) then ad_events a
                    else ad_events a ++ [NS_ATTR_NOTICE] in
      _ ← modify_admin (ad_set_events events []);
      modify (wake_all (ad_aer_wakers a))
  end.

(** The poll of an Asynchronous Event Request, by the task whose waker is [t]. *)
Definition aer_poll (t : nat) : MW (option Z) :=
  w ← get;
  match w_role w with
  | IoQueue _ => panic
  | Admin a =>
      if ad_closing a then mret (Some 0) else
      match ad_events a with
      | e :: rest => _ ← modify_admin (ad_set_events rest (ad_aer_wakers a)); mret (Some e)
      | [] => _ ← modify_admin (ad_set_events [] (ad_aer_wakers a ++ [t])); mret None
      end
  end.

Definition ConnCtx_close : MW unit :=
  w ← get;
  match w_role w with
  | Admin a =>
      _ ← modify_admin (ad_set_closing true);
      _ ← modify_admin (ad_set_events (ad_events a) []);
      modify (wake_all (ad_aer_wakers a))
  | IoQueue i =>
      match io_traffic i with
      | Some f => modify (fun w => let r := w_registry w in set_registry
            {| cntlid_min := cntlid_min r; cntlid_max := cntlid_max r;
               next_cntlid := next_cntlid r; controllers := controllers r;
               flags := TrafficFlag_set f (flags r) |} w)
      | None => mret tt
      end
  end.

End World.

Arguments World : clear implicits.
