(* ===== verification/FabricsExec.v ===== *)
(** * [ioutgt-nvme/src/fabrics_exec.rs]: Connect and Property Get/Set *)

From S2P Require Import Prelude Spec Fabrics Pool SlotQ Registry Backend Subsystem Dispatch.

(** ** NQN text

    [str::from_utf8] accepts exactly well-formed UTF-8; [trim_end] removes
    trailing characters with the Unicode property [White_Space]. *)

Definition is_cont (b : Byte.byte) : bool := (0x80 <=? byte.unsigned b) && (byte.unsigned b <=? 0xBF).
Definition in_range (lo hi : Z) (b : Byte.byte) : bool :=
  (lo <=? byte.unsigned b) && (byte.unsigned b <=? hi).

(** The characters, each with the bytes that encode it. *)
Fixpoint utf8_chars (l : str) : option (list (Z * str)) :=
  let low b := Z.land (byte.unsigned b) 0x3F in
  match l with
  | [] => Some []
  | a :: r =>
      if byte.unsigned a <? 0x80 then cs ← utf8_chars r; Some ((byte.unsigned a, [a]) :: cs) else
      if in_range 0xC2 0xDF a then
        match r with
        | b :: r => if is_cont b
            then cs ← utf8_chars r;
                 Some ((Z.land (byte.unsigned a) 0x1F * 64 + low b, [a; b]) :: cs)
            else None
        | [] => None
        end
      else if in_range 0xE0 0xEF a then
        match r with
        | b :: c :: r =>
            let second := if byte.unsigned a =? 0xE0 then in_range 0xA0 0xBF b
                          else if byte.unsigned a =? 0xED then in_range 0x80 0x9F b else is_cont b in
            if second && is_cont c
            then cs ← utf8_chars r;
                 Some (((Z.land (byte.unsigned a) 0x0F * 64 + low b) * 64 + low c, [a; b; c]) :: cs)
            else None
        | _ => None
        end
      else if in_range 0xF0 0xF4 a then
        match r with
        | b :: c :: d :: r =>
            let second := if byte.unsigned a =? 0xF0 then in_range 0x90 0xBF b
                          else if byte.unsigned a =? 0xF4 then in_range 0x80 0x8F b else is_cont b in
            if second && is_cont c && is_cont d
            then cs ← utf8_chars r;
                 Some ((((Z.land (byte.unsigned a) 0x07 * 64 + low b) * 64 + low c) * 64 + low d,
                        [a; b; c; d]) :: cs)
            else None
        | _ => None
        end
      else None
  end.

Definition is_whitespace (c : Z) : bool :=
  (9 <=? c) && (c <=? 13) || existsb (Z.eqb c) [0x20; 0x85; 0xA0; 0x1680; 0x2028; 0x2029; 0x202F; 0x205F; 0x3000]
  || (0x2000 <=? c) && (c <=? 0x200A).

Fixpoint drop_spaces (l : list (Z * str)) : list (Z * str) :=
  match l with
  | c :: r => if is_whitespace c.1 then drop_spaces r else l
  | [] => []
  end.

Definition trim_end (l : list (Z * str)) : list (Z * str) := rev (drop_spaces (rev l)).

(** [raw.iter().position(|&b| b == 0).unwrap_or(raw.len())], and the prefix. *)
Fixpoint until_nul (raw : bytes) : bytes :=
  match raw with
  | [] => []
  | b :: r => if decide (b = Byte.x00) then [] else b :: until_nul r
  end.

Definition nqn_str (raw : bytes) : str :=
  match utf8_chars (until_nul raw) with
  | Some cs => concat (map snd (trim_end cs))
  | None => []
  end.

Section Fabrics.
Context {B : Type}.
Abbreviation MW := (M (World B) never).

Definition queue_info (w : World B) : QueueInfo :=
  {| qi_qid := qc_qid (w_core w); qi_sqsize := sqsize (w_core w); qi_tid := w_tid w;
     qi_cpus := w_cpus w; qi_peer := w_peer w |}.

(** ** Connect on an admin queue *)

(** Resolve and admit: the subsystem's NQN is bound, or the discovery flag set.
    [inr] is an early return. *)
Definition connect_resolve (cid : Z) (subsysnqn hostnqn : str) : MW (unit + Outcome) :=
  w ← get;
  if bool_decide (subsysnqn = DISCOVERY_NQN) then
    _ ← modify_admin (ad_set_discovery true); mret (inl tt)
  else
    match subsystem (w_port w) subsysnqn with
    | None =>
        o ← complete (status.connect_invalid_param_result true 256) cid
              (status.dnr status.CONNECT_INVALID_PARAM);
        mret (inr o)
    | Some s =>
        if negb (admits s hostnqn) then
          o ← complete 0 cid (status.dnr status.CONNECT_INVALID_HOST); mret (inr o)
        else _ ← modify_admin (ad_set_subsys (Some subsysnqn)); mret (inl tt)
    end.

(** Allocate the controller and bind this queue to it. *)
Definition connect_allocate (cmd : ConnectCommand) (subsysnqn hostnqn : str) : MW Outcome :=
  let cid := cn_cid cmd in
  let discovery := bool_decide (subsysnqn = DISCOVERY_NQN) in
  w ← get;
  if negb (cd_cntlid (w_connect_data w) =? 0xFFFF) then
    complete (status.connect_invalid_param_result true 16) cid
      (status.dnr status.CONNECT_INVALID_PARAM)
  else
    let max_qid := if discovery then 0 else pc_max_qid (w_port w) in
    let kato := if (cn_kato cmd =? 0) && discovery then 120000 else cn_kato cmd in
    r ← on_registry (allocate subsysnqn hostnqn max_qid kato (queue_info w) discovery);
    match r with
    | inl (Some cntlid) =>
        _ ← modify_admin (ad_set_cntlid cntlid);
        _ ← set_stats_cntlid cntlid;
        _ ← modify_admin (ad_set_kato kato);
        w ← get;
        _ ← match traffic (w_registry w) cntlid with
            | Some f => modify_admin (ad_set_traffic f)
            | None => mret tt
            end;
        complete cntlid cid status.SUCCESS
    | _ => complete 0 cid (status.dnr status.CONNECT_CTRL_BUSY)
    end.

Definition connect_admin (a : AdminState) (cmd : ConnectCommand) (subsysnqn hostnqn : str) :
    MW Outcome :=
  let cid := cn_cid cmd in
  if negb (ad_cntlid a =? 0) then
    complete 0 cid (status.dnr status.CONNECT_INVALID_PARAM)
  else
    r ← connect_resolve cid subsysnqn hostnqn;
    match r with
    | inr o => mret o
    | inl _ => connect_allocate cmd subsysnqn hostnqn
    end.

(** ** Connect on an IO queue *)

Definition connect_io (i : IoState) (cmd : ConnectCommand) (hostnqn : str) : MW Outcome :=
  let cid := cn_cid cmd in
  if negb (io_cntlid i =? 0) then
    complete 0 cid (status.dnr status.CONNECT_INVALID_PARAM)
  else
    w ← get;
    let cntlid := cd_cntlid (w_connect_data w) in
    r ← on_registry (install_io_queue cntlid hostnqn (queue_info w));
    match r with
    | inl entry =>
        _ ← modify_io (io_set_cntlid cntlid);
        _ ← set_stats_cntlid cntlid;
        _ ← modify_io (io_set_kato (ce_kato_ms entry));
        _ ← (if negb (ce_kato_ms entry =? 0) then modify_io (io_set_traffic (ce_traffic entry))
             else mret tt);
        _ ← (if negb (ce_discovery entry)
                && bool_decide (is_Some (subsystem (w_port w) (ce_subsys_nqn entry)))
             then modify_io (io_set_subsys (ce_subsys_nqn entry)) else mret tt);
        complete cntlid cid status.SUCCESS
    | inr _ =>
        complete (status.connect_invalid_param_result true 16) cid
          (status.dnr status.CONNECT_INVALID_PARAM)
    end.

Definition connect (sqe : Sqe) : MW Outcome :=
  w ← get;
  let cmd := ConnectCommand_view (Sqe_bytes sqe) in
  let subsysnqn := nqn_str (cd_subsysnqn (w_connect_data w)) in
  let hostnqn := nqn_str (cd_hostnqn (w_connect_data w)) in
  if negb (cn_recfmt cmd =? 0) then
    complete 0 (cn_cid cmd) (status.dnr status.CONNECT_FORMAT)
  else
    match w_role w with
    | Admin a => connect_admin a cmd subsysnqn hostnqn
    | IoQueue i => connect_io i cmd hostnqn
    end.

(** ** Properties *)

Definition property_get (a : AdminState) (cmd : PropertyCommand) : MW Outcome :=
  let cid := pr_cid cmd in
  let offset := pr_offset cmd in
  let reply (value : Z) :=
    c ← cqe 0 cid status.SUCCESS;
    mret {| out_cqe := {| cqe_result := wrap 32 value; cqe_rsvd := wrap 32 (Z.shiftr value 32);
                          cqe_sq_head := cqe_sq_head c; cqe_sq_id := cqe_sq_id c;
                          cqe_cid := cqe_cid c; cqe_status := cqe_status c |};
            out_data_len := 0 |} in
  if offset =? prop.CAP then reply (r_cap (ad_regs a))
  else if offset =? prop.VS then reply 0x00010300
  else if offset =? prop.CC then reply (r_cc (ad_regs a))
  else if offset =? prop.CSTS then reply (r_csts (ad_regs a))
  else complete 0 cid (status.dnr status.INVALID_FIELD).

Definition property (sqe : Sqe) (fct : Z) : MW Outcome :=
  let cmd := PropertyCommand_view (Sqe_bytes sqe) in
  let cid := pr_cid cmd in
  w ← get;
  match w_role w with
  | IoQueue _ => complete 0 cid (status.dnr status.INVALID_FIELD)
  | Admin a =>
      if fct =? fctype.PROPERTY_GET then property_get a cmd
      else if pr_offset cmd =? prop.CC then
        if ad_cntlid a =? 0 then complete 0 cid (status.dnr status.INVALID_FIELD)
        else
          _ ← modify_admin (fun a => ad_set_regs (write_cc (wrap 32 (pr_value cmd)) (ad_regs a)).1 a);
          complete 0 cid status.SUCCESS
      else complete 0 cid (status.dnr status.INVALID_FIELD)
  end.

Definition fabrics_execute (sqe : Sqe) : MW Outcome :=
  fct ← lift (expect (byte.unsigned <$> Sqe_bytes sqe !! 4%nat));
  if fct =? fctype.CONNECT then connect sqe
  else if (fct =? fctype.PROPERTY_GET) || (fct =? fctype.PROPERTY_SET) then property sqe fct
  else complete 0 (sqe_cid sqe) (status.dnr status.INVALID_OPCODE).

End Fabrics.
