(* ===== verification/Admin.v ===== *)
(** * [ioutgt-nvme/src/admin.rs]: admin command handlers *)

From S2P Require Import Prelude Spec Fabrics Identify Pool SlotQ Registry Backend Subsystem Dispatch.

Definition KAS_UNITS : Z := 100.

(** [ascii_pad] into a field of [len] bytes. *)
Definition ascii_pad (len : nat) (src : str) : bytes :=
  let n := (length src `min` len)%nat in
  take n src ++ replicate (len - n) Byte.x20.

(** [nul_terminate] into 256 bytes. *)
Definition nul_terminate (s : str) : bytes :=
  let n := (length s `min` 255)%nat in
  take n s ++ zeroes (256 - n).

(** ** Identify Namespace topology hints *)

Record NsLimits := {
  nl_nsfeat : Z;
  nl_nawun : Z;
  nl_npwg : Z;
  nl_npdg : Z;
  nl_nows : Z;
}.

#[export] Instance Topology_eq_dec : EqDecision Topology.
Proof. solve_decision. Defined.

(** Bytes to logical blocks, 0-based. *)
Definition to0based (lbs bytes : Z) : Z :=
  let blocks := clamp (bytes / lbs) 1 0x10000 in
  wrap 16 (blocks - 1).

Definition ns_limits {E} (topo : Topology) (shift : Z) : res E NsLimits :=
  if decide (topo = Topology_default)
  then mret {| nl_nsfeat := 0; nl_nawun := 0; nl_npwg := 0; nl_npdg := 0; nl_nows := 0 |}
  else
    _ ← assert (shift <? 64);
    let lbs := wrap 64 (Z.shiftl 1 shift) in
    mret {| nl_nsfeat := Z.lor nsfeat.ATOMICS nsfeat.OPTPERF;
            nl_nawun := to0based lbs (physical_block topo);
            nl_npwg := to0based lbs (io_min topo);
            nl_npdg := to0based lbs (discard_granularity topo);
            nl_nows := to0based lbs (io_opt topo) |}.

Definition build_id_ns {E} `{Backend B} (b : B) : res E IdentifyNamespace :=
  l ← ns_limits (topology b) (block_shift b);
  mret {|
    idn_nsze := nr_blocks b; idn_ncap := nr_blocks b; idn_nuse := nr_blocks b;
    idn_nsfeat := nl_nsfeat l; idn_nlbaf := 0; idn_flbas := 0; idn_mc := 0; idn_dpc := 0;
    idn_dps := 0; idn_nmic := nmic.SHARED; idn_rescap := 0; idn_fpi := 0; idn_dlfeat := 1;
    idn_nawun := nl_nawun l; idn_nawupf := nl_nawun l; idn_nacwu := nl_nawun l; idn_nabsn := 0;
    idn_nabo := 0; idn_nabspf := 0; idn_noiob := 0; idn_nvmcap := zeroes 16;
    idn_npwg := nl_npwg l; idn_npwa := nl_npwg l; idn_npdg := nl_npdg l; idn_npda := nl_npdg l;
    idn_nows := nl_nows l; idn_rsvd74 := zeroes 18; idn_anagrpid := 0; idn_rsvd96 := zeroes 3;
    idn_nsattr := 0; idn_nvmsetid := 0; idn_endgid := 0; idn_nguid := zeroes 16;
    idn_eui64 := zeroes 8;
    idn_lbaf := {| lf_ms := 0; lf_lbads := block_shift b; lf_rp := 0 |}
                :: replicate 15 {| lf_ms := 0; lf_lbads := 0; lf_rp := 0 |};
    idn_rsvd192 := zeroes 192; idn_vs := zeroes 3712;
  |}.

(** ** Identify Controller *)

Definition is_rdma (p : PortConfig) : bool := match pc_trtype p with Rdma => true | Tcp => false end.

(** [admin.subsys.borrow().as_ref()]. *)
Definition bound_subsys (p : PortConfig) (a : AdminState) : option Subsystem :=
  n ← ad_subsys a; subsystem p n.

Definition build_id_ctrl (p : PortConfig) (a : AdminState) : IdentifyController :=
  let discovery := ad_discovery a in
  let subsys := bound_subsys p a in
  let inline := if is_rdma p then RDMA_INLINE_DATA_SIZE else INLINE_DATA_SIZE in
  {|
    ic_vid := 0; ic_ssvid := 0;
    ic_sn := ascii_pad 20 (match subsys with
                           | Some s => ss_serial s
                           | None => ascii_bytes "ioutgt-disc" end);
    ic_mn := ascii_pad 40 (ascii_bytes "ioutgt");
    ic_fr := ascii_pad 8 (ascii_bytes "1.0");
    ic_rab := 0; ic_ieee := zeroes 3;
    ic_cmic := if discovery then 0 else cmic.MULTI_CTRL;
    ic_mdts := 5;
    ic_cntlid := ad_cntlid a; ic_ver := 0x00010300; ic_rtd3r := 0; ic_rtd3e := 0;
    ic_oaes := AEN_CFG_NS_ATTR;
    ic_ctratt := if negb discovery && negb (is_rdma p) then ctratt.TBKAS else 0;
    ic_rsvd100 := zeroes 11;
    ic_cntrltype := if discovery then 2 else 1;
    ic_fguid := zeroes 16; ic_rsvd128 := zeroes 128; ic_oacs := 0; ic_acl := 3; ic_aerl := 3;
    ic_frmw := 0; ic_lpa := 0; ic_elpe := 0; ic_npss := 0; ic_avscc := 0; ic_apsta := 0;
    ic_wctemp := 0; ic_cctemp := 0; ic_rsvd270 := zeroes 50; ic_kas := KAS_UNITS;
    ic_rsvd322 := zeroes 190; ic_sqes := 0x66; ic_cqes := 0x44; ic_maxcmd := pc_io_queue_size p;
    ic_nn := if discovery then 0 else match subsys with Some s => max_nsid s | None => 0 end;
    ic_oncs := if discovery then 0 else Z.lor oncs.DSM oncs.WRITE_ZEROES;
    ic_fuses := 0; ic_fna := 0; ic_vwc := if discovery then 0 else vwc.PRESENT;
    ic_awun := 0; ic_awupf := 0; ic_nvscc := 0; ic_nwpc := 0; ic_acwu := 0;
    ic_rsvd534 := zeroes 2;
    ic_sgls := if is_rdma p then Z.lor SGLS_BYTE_ALIGNED (Z.lor SGLS_KEYED SGLS_SAOS)
               else SGLS_BYTE_ALIGNED;
    ic_mnan := 0; ic_rsvd544 := zeroes 224;
    ic_subnqn := nul_terminate (match subsys with Some s => ss_nqn s | None => DISCOVERY_NQN end);
    ic_rsvd1024 := zeroes 768;
    ic_ioccsz := if discovery then 0 else (64 + inline) / 16;
    ic_iorcsz := if discovery then 0 else 1;
    ic_icdoff := 0; ic_ctrattr := 0; ic_msdbd := 0; ic_rsvd1804 := zeroes 244;
    ic_psd := zeroes 1024; ic_vs := zeroes 1024;
  |}.

(** ** The discovery log *)

Definition discovery_entry (p : PortConfig) (index : nat) (nqn : str) : DiscoveryLogEntry := {|
  de_trtype := match pc_trtype p with Tcp => trtype.TCP | Rdma => trtype.RDMA end;
  de_adrfam := 1; de_subtype := subtype.NVM; de_treq := 0;
  de_portid := if decide (in_u 16 (Z.of_nat index)) then Z.of_nat index else 0;
  de_cntlid := 0xFFFF; de_asqsz := 32; de_eflags := 0; de_resv12 := zeroes 20;
  de_trsvcid := ascii_pad 32 (pc_trsvcid p); de_resv64 := zeroes 192;
  de_subnqn := nul_terminate nqn;
  de_traddr := ascii_pad 256 (pc_traddr p); de_tsas := zeroes 256;
|}.

(** [subsystems.iter()], in key order. *)
Definition port_nqns (p : PortConfig) : list str :=
  (sorting.merge_sort str_le (map_to_list (pc_subsystems p))).*1.

Definition build_discovery_log (p : PortConfig) : bytes :=
  DiscoveryLogHeader_bytes {| dh_genctr := 1; dh_numrec := Z.of_nat (size (pc_subsystems p));
                              dh_recfmt := 0; dh_resv := zeroes 1006 |}
  ++ concat (imap (fun i nqn => DiscoveryLogEntry_bytes (discovery_entry p i nqn)) (port_nqns p)).

(** ** Handlers *)

Section Admin.
Context {B : Type} `{Backend B}.
Abbreviation MW := (M (World B) never).

(** [write_at] through the slot's buffer. *)
Definition slot_write_at (tag off : Z) (src : bytes) : MW unit :=
  s ← on_slots (slot tag);
  w ← get;
  m ← lift (write_at (data s) off src (w_mem w));
  modify (set_store (w_backends w) m).

Definition fill_slot (tag : Z) (d : bytes) : MW Z :=
  let n := Z.min (Z.of_nat (length d)) ADMIN_DATA_MAX in
  w ← get;
  _ ← on_slots (lease_or_owned tag (Z.max n 1) (w_heap w));
  _ ← slot_write_at tag 0 (take (Z.to_nat n) d);
  lift (expect (u32_try_from n)).

Definition reply_data (tag cid : Z) (d : bytes) : MW Outcome :=
  len ← fill_slot tag d;
  with_data 0 cid status.SUCCESS len.

(** The loop of the active-namespace list. *)
Fixpoint put_nsids {E} (list_ : bytes) (i : nat) (nsids : list Z) : res E bytes :=
  match nsids with
  | [] => Ok list_
  | n :: r => l ← copy_into list_ (i * 4) (le_split 4 n); put_nsids l (S i) r
  end.

Definition active_ns_list {E} (s : option Subsystem) (start : Z) : res E bytes :=
  match s with
  | None => Ok (zeroes 4096)
  | Some s => put_nsids (zeroes 4096) 0
      (take 1024 (filter (fun n => start < n) (btree_entries (ss_namespaces s)).*1))
  end.

Definition ns_desc_list {E} (uuid : bytes) : res E bytes :=
  d ← copy_into (zeroes 4096) 0 [byte.of_Z 3];
  d ← copy_into d 1 [byte.of_Z 16];
  copy_into d 4 uuid.

Definition identify (a : AdminState) (tag : Z) (sqe : Sqe) : MW Outcome :=
  let cid := sqe_cid sqe in
  let which := Z.land (sqe_cdw10 sqe) 0xFF in
  w ← get;
  let subsys := bound_subsys (w_port w) a in
  if which =? cns.CONTROLLER then
    reply_data tag cid (IdentifyController_bytes (build_id_ctrl (w_port w) a))
  else if which =? cns.NAMESPACE then
    match subsys with
    | None => complete 0 cid (status.dnr status.INVALID_NS)
    | Some s =>
        match ss_namespaces s !! sqe_nsid sqe with
        | Some ns =>
            b ← lift (expect (w_backends w !! ns_backend ns));
            id ← lift (build_id_ns b);
            reply_data tag cid (IdentifyNamespace_bytes id)
        | None =>
            if sqe_nsid sqe <=? max_nsid s
            then reply_data tag cid (IdentifyNamespace_bytes IdentifyNamespace_zeroed)
            else complete 0 cid (status.dnr status.INVALID_NS)
        end
    end
  else if which =? cns.ACTIVE_NS_LIST then
    l ← lift (active_ns_list subsys (sqe_nsid sqe));
    reply_data tag cid l
  else if which =? cns.NS_DESC_LIST then
    match subsys ≫= fun s => ss_namespaces s !! sqe_nsid sqe with
    | Some ns => d ← lift (ns_desc_list (ns_uuid ns)); reply_data tag cid d
    | None => complete 0 cid (status.dnr status.INVALID_NS)
    end
  else complete 0 cid (status.dnr status.INVALID_FIELD).

(** ** Features *)

Definition io_queue_count (p : PortConfig) (a : AdminState) : Z :=
  match ad_subsys a with Some _ => Z.max (pc_max_qid p) 1 | None => 1 end.

(** [q | (q << 16)] on [u32]. *)
Definition queue_counts (q : Z) : Z := Z.lor q (wrap 32 (Z.shiftl q 16)).

Definition get_features (a : AdminState) (sqe : Sqe) : MW Outcome :=
  let cid := sqe_cid sqe in
  let fid := Z.land (sqe_cdw10 sqe) 0xFF in
  w ← get;
  if fid =? feat.NUM_QUEUES then
    queues ← lift (checked 32 (io_queue_count (w_port w) a - 1));
    complete (queue_counts queues) cid status.SUCCESS
  else if fid =? feat.KATO then complete (ad_kato_ms a) cid status.SUCCESS
  else if fid =? feat.ASYNC_EVENT_CONFIG then complete (ad_aec a) cid status.SUCCESS
  else if (fid =? feat.VOLATILE_WC) && negb (ad_discovery a) then complete 1 cid status.SUCCESS
  else complete 0 cid (status.dnr status.INVALID_FIELD).

Definition set_features (a : AdminState) (sqe : Sqe) : MW Outcome :=
  let cid := sqe_cid sqe in
  let fid := Z.land (sqe_cdw10 sqe) 0xFF in
  w ← get;
  if fid =? feat.NUM_QUEUES then
    offered ← lift (checked 32 (io_queue_count (w_port w) a - 1));
    let requested := Z.land (sqe_cdw11 sqe) 0xFFFF in
    let granted := Z.min requested offered in
    complete (queue_counts granted) cid status.SUCCESS
  else if fid =? feat.KATO then
    _ ← modify_admin (ad_set_kato (sqe_cdw11 sqe)); complete 0 cid status.SUCCESS
  else if fid =? feat.ASYNC_EVENT_CONFIG then
    _ ← modify_admin (ad_set_aec (sqe_cdw11 sqe)); complete 0 cid status.SUCCESS
  else if fid =? feat.HOST_ID then complete 0 cid status.SUCCESS
  else complete 0 cid (status.dnr status.FEATURE_NOT_CHANGEABLE).

(** ** Log pages *)

(** NUMD and LPO, in bytes. *)
Definition log_len (sqe : Sqe) : Z :=
  let numdl := Z.shiftr (sqe_cdw10 sqe) 16 in
  let numdu := Z.land (sqe_cdw11 sqe) 0xFFFF in
  (Z.lor (Z.shiftl numdu 16) numdl + 1) * 4.
Definition log_offset (sqe : Sqe) : Z := Z.lor (Z.shiftl (sqe_cdw13 sqe) 32) (sqe_cdw12 sqe).

(** [&log[start..end]] of the requested window; [saturating_add] on [u64]. *)
Definition log_window {E} (log : bytes) (offset len : Z) : res E bytes :=
  let e := Z.min (Z.min (offset + len) (2 ^ 64 - 1)) (Z.of_nat (length log)) in
  let start := Z.min offset e in
  _ ← assert ((start <=? e) && (e <=? Z.of_nat (length log)));
  mret (take (Z.to_nat (e - start)) (drop (Z.to_nat start) log)).

Definition changed_ns_page {E} (changed : bool) : res E bytes :=
  if changed then copy_into (zeroes 4096) 0 (le_split 4 0xFFFFFFFF) else mret (zeroes 4096).

(** [as_mut_slice()[..n].fill(0)]. *)
Definition zero_slot (tag n : Z) : MW unit :=
  s ← on_slots (slot tag);
  w ← get;
  sl ← lift (as_slice (data s) (w_mem w));
  _ ← lift (assert (n <=? Z.of_nat (length sl)));
  seg ← lift (expect (sd_segs (data s) !! 0%nat));
  modify (set_store (w_backends w) (mem_write (w_mem w) (ptr seg) (zeroes (Z.to_nat n)))).

Definition get_log_page (a : AdminState) (tag : Z) (sqe : Sqe) : MW Outcome :=
  let cid := sqe_cid sqe in
  let lid := Z.land (sqe_cdw10 sqe) 0xFF in
  let len := log_len sqe in
  let offset := log_offset sqe in
  w ← get;
  if (lid =? log_page.DISCOVERY) && ad_discovery a then
    window ← lift (log_window (build_discovery_log (w_port w)) offset len);
    n ← fill_slot tag window;
    with_data 0 cid status.SUCCESS n
  else if lid =? log_page.CHANGED_NS then
    _ ← modify_admin (ad_set_ns_changed false);
    page ← lift (changed_ns_page (ad_ns_changed a));
    let n := Z.min len 4096 in
    written ← fill_slot tag (take (Z.to_nat n) page);
    _ ← lift (assert (written =? n));
    with_data 0 cid status.SUCCESS n
  else if (lid =? log_page.ERROR) || (lid =? log_page.SMART) || (lid =? log_page.FW_SLOT) then
    let n := Z.min len 4096 in
    _ ← on_slots (lease_or_owned tag (Z.max n 1) (w_heap w));
    _ ← zero_slot tag n;
    with_data 0 cid status.SUCCESS n
  else complete 0 cid (status.dnr status.INVALID_LOG_PAGE).

(** ** Asynchronous events and routing *)

(** The rest of an Asynchronous Event Request, from its poll. *)
Definition async_event (t : nat) (cid : Z) : MW Progress :=
  r ← aer_poll t;
  match r with
  | None => mret (Parked (AwaitEvent cid))
  | Some result => o ← complete result cid status.SUCCESS; mret (Done o)
  end.

Definition done (m : MW Outcome) : MW Progress := o ← m; mret (Done o).

Definition admin_execute (a : AdminState) (t : nat) (tag : Z) (sqe : Sqe) : MW Progress :=
  let op := sqe_opcode sqe in
  if op =? admin_opcode.IDENTIFY then done (identify a tag sqe)
  else if op =? admin_opcode.GET_FEATURES then done (get_features a sqe)
  else if op =? admin_opcode.SET_FEATURES then done (set_features a sqe)
  else if op =? admin_opcode.GET_LOG_PAGE then done (get_log_page a tag sqe)
  else if op =? admin_opcode.KEEP_ALIVE then done (complete 0 (sqe_cid sqe) status.SUCCESS)
  else if op =? admin_opcode.ASYNC_EVENT then async_event t (sqe_cid sqe)
  else done (complete 0 (sqe_cid sqe) (status.dnr status.INVALID_OPCODE)).

End Admin.
