(* ===== verification/Io.v ===== *)
(** * [ioutgt-nvme/src/io.rs] and [dispatch::execute]: IO commands, routing *)

From S2P Require Import Prelude Spec Fabrics Pool SlotQ Registry.
From S2P Require Import Backend Subsystem Dispatch FabricsExec Admin.

Definition nvme_status (err : BackendError) : Z :=
  match err with
  | OutOfRange => status.dnr status.LBA_RANGE
  | NoSpace => status.dnr status.CAP_EXCEEDED
  | Unsupported => status.dnr status.INVALID_OPCODE
  | Backend.Io _ => status.dnr status.INTERNAL
  end.

(** [len > MDTS], the SGL length (24 bits), then the device range. *)
Definition checked_len `{Backend B} (b : B) (sqe : Sqe) : res Z (RwCommand * Z) :=
  let rw := RwCommand_parse sqe in
  let n := rw_nlb rw + 1 in
  _ ← assert (block_shift b <? 64);
  let len := wrap 64 (Z.shiftl n (block_shift b)) in
  if MDTS_BYTES <? len then Err (status.dnr status.INVALID_FIELD)
  else if negb (Z.land (sgl_length (sqe_dptr sqe)) 0x00FFFFFF =? len)
       then Err (status.dnr status.DATA_SGL_LEN_INVALID)
  else
    _ ← map_err nvme_status (check_range (nr_blocks b) (rw_slba rw) n);
    mret (rw, wrap 32 len).

(** [copy_from_slice] of each chunk at the running offset. *)
Fixpoint gather {E} (dst : bytes) (off : nat) (chunks : list bytes) : res E bytes :=
  match chunks with
  | [] => Ok dst
  | c :: r => d ← copy_into dst off c; gather d (off + length c) r
  end.

(** The [i]-th range of a DSM list. *)
Definition dsm_range {E} (bs : bytes) (i : nat) : res E LbaRange :=
  raw ← expect (read_from_bytes 16 DsmRange_view (bytes_at bs (i * 16) 16));
  mret {| slba := dsm_slba raw; nlb := dsm_nlb raw |}.

Fixpoint dsm_ranges {E} (bs : bytes) (l : list nat) : res E (list LbaRange) :=
  match l with
  | [] => Ok []
  | i :: l => r ← dsm_range bs i; rs ← dsm_ranges bs l; mret (r :: rs)
  end.

Section Io.
Context {B : Type} `{Backend B}.
(** The registered index of a receive-ring buffer, known to the transport. *)
Variable ring_index : Z -> option Z.
Abbreviation MW := (M (World B) never).

Definition err_outcome (cid code : Z) : MW Outcome :=
  _ ← stat_add Errors 1;
  complete 0 cid code.

Definition map_backend (cid : Z) (result : unit + BackendError) (len : Z) : MW Outcome :=
  match result with
  | inl _ => with_data 0 cid status.SUCCESS len
  | inr err => err_outcome cid (nvme_status err)
  end.

(** [buf.buf_index()] of the slot's data. *)
Definition buf_index (d : SlotData) (w : World B) : option Z :=
  SlotData_buf_index ring_index (pool (w_slots w)) d.

(** A backend method that does not touch the memory. *)
Definition on_disk {A} (i : nat) (m : M B BackendError A) : MW (A + BackendError) :=
  on_backend i (on_store m).

(** [read], once the buffer is leased. *)
Definition read_leased (i : nat) (tag cid : Z) (rw : RwCommand) (len : Z) : MW Outcome :=
  s ← on_slots (slot tag);
  w ← get;
  result ← on_backend i (read_segs (rw_slba rw) (segs (data s)) len (buf_index (data s) w));
  _ ← match result with inl _ => stat_add ReadBytes len | inr _ => mret tt end;
  map_backend cid result len.

(** [lease_await(..).await] by the slot's task [t], and what follows. *)
Definition await_lease (t : nat) (i : nat) (tag cid : Z) (rw : RwCommand) (len : Z) : MW Progress :=
  leased ← on_slots (lease_await_poll tag len t);
  if leased : bool then done (read_leased i tag cid rw len)
  else mret (Parked (AwaitLease i cid rw len)).

Definition read (t : nat) (ns : Namespace) (tag : Z) (sqe : Sqe) : MW Progress :=
  let cid := sqe_cid sqe in
  w ← get;
  b ← lift (expect (w_backends w !! ns_backend ns));
  r ← lift (reflect (checked_len b sqe));
  match r with
  | inr code => done (err_outcome cid code)
  | inl (rw, len) => await_lease t (ns_backend ns) tag cid rw len
  end.

(** The backend calls of [write]: FUA flushes after a successful write. *)
Definition write_backend (i : nat) (d : SlotData) (rw : RwCommand) (len : Z) :
    MW (unit + BackendError) :=
  w ← get;
  result ← on_backend i (write_segs (rw_slba rw) (segs d) len (buf_index d w));
  match result, rw_fua rw with
  | inl _, true => on_disk i b_flush
  | other, _ => mret other
  end.

Definition write (ns : Namespace) (tag : Z) (sqe : Sqe) : MW Outcome :=
  let cid := sqe_cid sqe in
  w ← get;
  b ← lift (expect (w_backends w !! ns_backend ns));
  r ← lift (reflect (checked_len b sqe));
  match r with
  | inr code => err_outcome cid code
  | inl (rw, len) =>
      s ← on_slots (slot tag);
      if negb (data_len s =? len) then err_outcome cid (status.dnr status.DATA_XFER_ERROR)
      else
        result ← write_backend (ns_backend ns) (data s) rw len;
        _ ← match result with inl _ => stat_add WriteBytes len | inr _ => mret tt end;
        map_backend cid result 0
  end.

Definition dsm (ns : Namespace) (tag : Z) (sqe : Sqe) : MW Outcome :=
  let cid := sqe_cid sqe in
  let deallocate := negb (Z.land (sqe_cdw11 sqe) (Z.shiftl 1 2) =? 0) in
  let nr := Z.to_nat (Z.land (sqe_cdw10 sqe) 0xFF + 1) in
  let needed := (nr * 16)%nat in
  s ← on_slots (slot tag);
  if data_len s <? Z.of_nat needed then err_outcome cid (status.dnr status.DATA_SGL_LEN_INVALID)
  else if negb deallocate then complete 0 cid status.SUCCESS
  else
    w ← get;
    chunks ← lift (for_each_seg (data s) 0 (Z.of_nat needed) (w_mem w));
    bs ← lift (gather (zeroes needed) 0 chunks);
    ranges ← lift (dsm_ranges bs (seq 0 nr));
    result ← on_disk (ns_backend ns) (b_discard ranges);
    map_backend cid result 0.

Definition write_zeroes (ns : Namespace) (sqe : Sqe) : MW Outcome :=
  let rw := RwCommand_parse sqe in
  let range := {| slba := rw_slba rw; nlb := rw_nlb rw + 1 |} in
  result ← on_disk (ns_backend ns) (b_write_zeroes range);
  map_backend (sqe_cid sqe) result 0.

Definition flush (ns : Namespace) (sqe : Sqe) : MW Outcome :=
  result ← on_disk (ns_backend ns) b_flush;
  map_backend (sqe_cid sqe) result 0.

(** [io.ns_cache.get(subsys)]. *)
Definition ns_table (i : IoState) (s : Subsystem) : MW NsMap :=
  let '(c, r) := NsCache_get s (io_ns_cache i) in
  _ ← modify_io (io_set_cache c);
  lift r.

(** Routing of a command on a namespace. *)
Definition io_command (t : nat) (ns : Namespace) (tag : Z) (sqe : Sqe) : MW Progress :=
  let op := sqe_opcode sqe in
  if op =? io_opcode.FLUSH then _ ← stat_add FlushCmds 1; done (flush ns sqe)
  else if op =? io_opcode.READ then _ ← stat_add ReadCmds 1; read t ns tag sqe
  else if op =? io_opcode.WRITE then _ ← stat_add WriteCmds 1; done (write ns tag sqe)
  else if op =? io_opcode.WRITE_ZEROES then _ ← stat_add OtherCmds 1; done (write_zeroes ns sqe)
  else if op =? io_opcode.DSM then _ ← stat_add OtherCmds 1; done (dsm ns tag sqe)
  else _ ← stat_add OtherCmds 1;
       done (err_outcome (sqe_cid sqe) (status.dnr status.INVALID_OPCODE)).

Definition io_execute (i : IoState) (t : nat) (tag : Z) (sqe : Sqe) : MW Progress :=
  let cid := sqe_cid sqe in
  w ← get;
  match io_subsys i ≫= subsystem (w_port w) with
  | None => done (err_outcome cid (status.dnr status.CMD_SEQ_ERROR))
  | Some s =>
      table ← ns_table i s;
      match table !! sqe_nsid sqe with
      | None => done (err_outcome cid (status.dnr status.INVALID_NS))
      | Some ns => io_command t ns tag sqe
      end
  end.

(** ** [dispatch::execute] *)

Definition execute (t : nat) (tag : Z) (sqe : Sqe) : MW Progress :=
  w ← get;
  _ ← modify_admin (ad_set_last_heard (w_now w));
  if sqe_opcode sqe =? admin_opcode.FABRICS then
    _ ← stat_add OtherCmds 1;
    done (fabrics_execute sqe)
  else
    w ← get;
    match w_role w with
    | Admin a =>
        _ ← stat_add OtherCmds 1;
        if negb (ready (ad_regs a)) then
          done (complete 0 (sqe_cid sqe) (status.dnr status.CONNECT_CTRL_BUSY))
        else admin_execute a t tag sqe
    | IoQueue i => io_execute i t tag sqe
    end.

(** A parked command is polled again. *)
Definition resume (t : nat) (tag : Z) (k : Await) : MW Progress :=
  match k with
  | AwaitLease i cid rw len => await_lease t i tag cid rw len
  | AwaitEvent cid => async_event t cid
  end.

End Io.
