(* ===== verification/ExecLaws.v ===== *)
(** * What the command layer needs of its parts

    [Store] is the interface between the command handlers and a store: every
    call they make ends without a panic, keeps the store well formed and its
    geometry, and touches no memory but the command's own buffer; any of them
    may fail.  [Disk] adds what the calls do to the contents of a store that
    keeps them: all of it on success, and on failure nothing outside the range.
    The memory and null backends are [Store]s here, files and the enum of all
    backends in [FileLaws].  [runs] is the weakest
    precondition of a handler that neither fails nor panics, [preserves] the
    frame rule for any outcome; both have rules for every monadic primitive.
    [world_ok] is the invariant of a connection, with what the shared steps do
    to it. *)

From S2P Require Import Prelude Pool PoolProofs PoolSafety PoolData Backend.
From S2P Require Import BackendProofs SegIO SlotQ SlotQProofs Registry Subsystem.
From S2P Require Import Spec Fabrics Dispatch.

(** What an execution leaves, once its outcome is known. *)
Lemma ran {S E A} (p : S * res E A) r : p.2 = r -> p = (p.1, r).
Proof. by intros <-; destruct p. Qed.

(** ** The store interface *)

(** [len] bytes at block [a], in range and in whole blocks, and a buffer for them.
    The segments of a buffer are whole pages, so they hold whole blocks unless
    blocks are larger than a page. *)
Record valid_io {B} `{Backend B} (b : B) (l : list Seg) (a len : Z) : Prop := {
  vi_segs : segs_ok l;
  vi_few : (length l <= MAX_SEGS)%nat;
  vi_blocked : block_shift b <= 12 -> blocked (2 ^ block_shift b) l;
  vi_start : in_u 64 a;
  vi_len : 0 <= len <= seg_total l;
  vi_whole : (2 ^ block_shift b | len);
  vi_range : a + len / 2 ^ block_shift b <= nr_blocks b;
}.

Definition same_geometry {B} `{Backend B} (b b' : B) : Prop :=
  block_shift b' = block_shift b /\ nr_blocks b' = nr_blocks b.

(** The blocks of a command are parsed from it, so they are in their types. *)
Definition range_typed (r : LbaRange) : Prop := in_u 64 (slba r) /\ in_u 32 (nlb r).

Class Store (B : Type) `{Backend B} := {
  store_ok : B -> Prop;
  geometry_ok : forall b, store_ok b ->
    0 <= block_shift b < 32 /\ 0 <= nr_blocks b /\ nr_blocks b * 2 ^ block_shift b < 2 ^ 64;
  read_safe : forall b mm l a len idx, store_ok b -> valid_io b l a len ->
    exists b' mm' r, read_segs a l len idx (b, mm) = ((b', mm'), r) /\ r <> Panic /\
      store_ok b' /\ same_geometry b b' /\ (forall x, (forall g, g ∈ l -> ~ in_seg g x) -> mm' x = mm x);
  write_safe : forall b mm l a len idx, store_ok b -> valid_io b l a len ->
    exists b' r, write_segs a l len idx (b, mm) = ((b', mm), r) /\ r <> Panic /\
      store_ok b' /\ same_geometry b b';
  flush_safe : forall b, store_ok b ->
    exists b' r, b_flush b = (b', r) /\ r <> Panic /\ store_ok b' /\ same_geometry b b';
  discard_safe : forall b l, store_ok b ->
    exists b' r, b_discard l b = (b', r) /\ r <> Panic /\ store_ok b' /\ same_geometry b b';
  write_zeroes_safe : forall b r, store_ok b -> range_typed r ->
    exists b' x, b_write_zeroes r b = (b', x) /\ x <> Panic /\ store_ok b' /\ same_geometry b b';
}.

(** [n] bytes from block [a]. *)
Definition in_blocks {B} `{Backend B} (b : B) (a n x : Z) : Prop :=
  a * 2 ^ block_shift b <= x < a * 2 ^ block_shift b + n.

(** A store that [retains] what is written to it (a null device does not). *)
Class Disk (B : Type) `{ST : Store B} := {
  disk : B -> Z -> Byte.byte;
  retains : B -> Prop;
  read_disk : forall b mm l a len idx b' mm' r, store_ok b -> retains b -> valid_io b l a len ->
    read_segs a l len idx (b, mm) = ((b', mm'), r) ->
    retains b' /\ (forall x, disk b' x = disk b x) /\
    (r = Ok tt -> flat mm' l = mem_read (disk b) (a * 2 ^ block_shift b) len ++ drop (Z.to_nat len) (flat mm l));
  write_disk : forall b mm l a len idx b' mm' r, store_ok b -> retains b -> valid_io b l a len ->
    write_segs a l len idx (b, mm) = ((b', mm'), r) ->
    retains b' /\ (forall x, ~ in_blocks b a len x -> disk b' x = disk b x) /\
    (r = Ok tt -> forall x, disk b' x = mem_write (disk b) (a * 2 ^ block_shift b) (take (Z.to_nat len) (flat mm l)) x);
  flush_disk : forall b b' r, store_ok b -> retains b -> b_flush b = (b', r) ->
    retains b' /\ forall x, disk b' x = disk b x;
  write_zeroes_disk : forall b r b' x, store_ok b -> retains b -> range_typed r ->
    b_write_zeroes r b = (b', x) ->
    retains b' /\ (forall y, ~ in_blocks b (slba r) (nlb r * 2 ^ block_shift b) y -> disk b' y = disk b y) /\
    (x = Ok tt -> forall y, in_blocks b (slba r) (nlb r * 2 ^ block_shift b) y -> disk b' y = Byte.x00);
}.

(** *** The memory backend never fails *)

Definition memory_ok (b : Memory.MemoryBackend) : Prop := mem_ok b /\ Memory.m_shift b <= 12.

Lemma memory_read_io b mm l a len idx :
  memory_ok b -> valid_io b l a len ->
  exists mm', read_segs a l len idx (b, mm) = ((b, mm'), Ok tt) /\
    flat mm' l = mem_read (mdisk b) (a * 2 ^ Memory.m_shift b) len ++ drop (Z.to_nat len) (flat mm l) /\
    (forall x, (forall g, g ∈ l -> ~ in_seg g x) -> mm' x = mm x).
Proof.
  intros [Hok Hs] [? _ Hb [Ha _] ? ? ?]. by apply (read_segs_loop_ok (SL := memory_laws)); [..|apply Hb| | | |].
Qed.

Lemma memory_write_io b mm l a len idx :
  memory_ok b -> valid_io b l a len ->
  exists b', write_segs a l len idx (b, mm) = ((b', mm), Ok tt) /\ memory_ok b' /\ same_geometry b b' /\
    forall x, mdisk b' x = mem_write (mdisk b) (a * 2 ^ Memory.m_shift b) (take (Z.to_nat len) (flat mm l)) x.
Proof.
  intros [Hok Hs] [Hsg _ Hb [Ha _] Hl Hd Hr].
  destruct (write_segs_loop_ok (SL := memory_laws) b mm l a len) as (b' & He & Hok' & Hsh & Hn & Hx); try done; [by apply Hb|].
  exists b'. split; [done|]. split; [split; [done|]; cbn in Hsh; by rewrite Hsh|done].
Qed.

Lemma memory_zeroes_io b r :
  memory_ok b -> range_typed r ->
  exists b' x, b_write_zeroes r b = (b', x) /\ memory_ok b' /\ same_geometry b b' /\
    if decide (slba r + nlb r <= nr_blocks b)
    then x = Ok tt /\ forall y, mdisk b' y =
      if decide (in_blocks b (slba r) (nlb r * 2 ^ block_shift b) y) then Byte.x00 else mdisk b y
    else x = Err OutOfRange /\ b' = b.
Proof.
  intros [Hok Hs] [Ha Hn]. cbn. case_decide as Hle.
  - destruct (mem_zero_spec b r Hok Ha Hn Hle) as (b' & He & Hsh & Hx). pose proof (same_shape_ok _ _ Hok Hsh).
    destruct Hsh as (Hsh & Hnb & _). exists b', (Ok tt). split; [done|]. split; [by split; [|rewrite Hsh]|]. split; [done|].
    split; [done|]. intros y. rewrite Hx. unfold in_blocks. cbn [block_shift Memory.backend]. rewrite Z.mul_add_distr_r.
    repeat case_decide; done || lia.
  - exists b, (Err OutOfRange). split; [|done]. unfold Memory.write_zeroes, mbind, M_bind, get, lift.
    by rewrite check_range_bad by lia.
Qed.

#[export] Instance memory_store : Store Memory.MemoryBackend.
Proof.
  refine {| store_ok := memory_ok |}.
  - intros b [(? & ? & ? & _) ?]. cbn. lia.
  - intros b mm l a len idx Hok Hv. destruct (memory_read_io b mm l a len idx Hok Hv) as (mm' & He & _ & Hf).
    by exists b, mm', (Ok tt).
  - intros b mm l a len idx Hok Hv. destruct (memory_write_io b mm l a len idx Hok Hv) as (b' & He & Hok' & Hg & _).
    by exists b', (Ok tt).
  - intros b Hok. by exists b, (Ok tt).
  - intros b l Hok. by exists b, (Ok tt).
  - intros b r Hok Hr. destruct (memory_zeroes_io b r Hok Hr) as (b' & x & He & Hok' & Hg & Hx).
    exists b', x. split_and!; try done. by case_decide; destruct Hx as [-> _].
Defined.

#[export] Instance memory_disk : Disk Memory.MemoryBackend.
Proof.
  refine {| disk := mdisk; retains := fun _ => True |}.
  - intros b mm l a len idx b' mm' r Hok _ Hv He. destruct (memory_read_io b mm l a len idx Hok Hv) as (m2 & He' & Hf & _).
    rewrite He' in He. injection He as <- <- <-. done.
  - intros b mm l a len idx b' mm' r Hok _ Hv He. destruct (memory_write_io b mm l a len idx Hok Hv) as (b2 & He' & _ & _ & Hx).
    rewrite He' in He. injection He as <- <- <-. split; [done|]. split; [|done]. intros x Hout. rewrite Hx.
    apply mem_write_outside. pose proof (flat_length mm l (vi_segs _ _ _ _ Hv)). pose proof (vi_len _ _ _ _ Hv).
    unfold in_blocks in Hout. cbn in Hout. rewrite length_take. lia.
  - intros b b' r Hok _ He. injection He as <- <-. done.
  - intros b r b' x Hok _ Hr He. destruct (memory_zeroes_io b r Hok Hr) as (b2 & x2 & He' & _ & _ & Hx).
    rewrite He' in He. injection He as <- <-. split; [done|]. case_decide as Hle.
    + destruct Hx as [-> Hx]. split; [intros y Hy; rewrite Hx; by rewrite decide_False|].
      intros _ y Hy. rewrite Hx. by rewrite decide_True.
    + by destruct Hx as [-> ->].
Defined.

(** *** The null backend: no contents, no failures in range *)

Definition null_ok (b : Null.NullBackend) : Prop :=
  0 <= Null.n_shift b <= 12 /\ 0 <= Null.n_blocks b /\ Null.n_blocks b * 2 ^ Null.n_shift b < 2 ^ 64.

(** The per-segment loops over a store that is never changed. *)
Lemma null_loop_next b (l : list Seg) g cur rem :
  null_ok b -> segs_ok (g :: l) -> 0 <= cur -> 0 < rem <= seg_total (g :: l) ->
  cur + rem / 2 ^ Null.n_shift b <= Null.n_blocks b -> blocked (2 ^ Null.n_shift b) (g :: l) -> (2 ^ Null.n_shift b | rem) ->
  let n := Z.min rem (seg_len g) in let k := Z.shiftr n (Null.n_shift b) in
  0 < n /\ check_range (Null.n_blocks b) cur k = Ok tt /\ in_u 64 (cur + k) /\ 0 <= cur + k /\
  0 <= rem - n <= seg_total l /\ cur + k + (rem - n) / 2 ^ Null.n_shift b <= Null.n_blocks b /\ (2 ^ Null.n_shift b | rem - n).
Proof.
  intros (Hs & Hn0 & H64) (_ & _ & Hsg) Hc Hr Hle [[Hg Hgd] Hbl]%list.Forall_cons Hd n k. cbn [seg_total] in Hr.
  pose proof (seg_total_nonneg l Hsg) as Ht. set (bs := 2 ^ Null.n_shift b) in *.
  assert (Hbs : 0 < bs) by (apply Z.pow_pos_nonneg; lia).
  assert (Hnd : (bs | n)) by (unfold n; destruct (Z.min_spec rem (seg_len g)) as [[_ ->]|[_ ->]]; done).
  assert (Hk : k = n / bs) by (unfold k; by rewrite Z.shiftr_div_pow2 by lia).
  pose proof (block_div bs n Hbs Hnd). pose proof (block_div bs rem Hbs Hd).
  assert (0 < n) by lia. assert (0 <= n / bs) by (apply Z.div_pos; lia).
  assert (n / bs <= rem / bs) by (apply Z.div_le_mono; lia). assert (Null.n_blocks b < 2 ^ 64) by nia.
  assert ((bs | rem - n)) by (by apply Z.divide_sub_r). pose proof (block_div bs (rem - n) Hbs ltac:(done)).
  split; [done|]. split; [apply check_range_ok; unfold in_u; lia|]. split; [unfold in_u; lia|]. split; [lia|].
  split; [lia|]. split; [|done]. nia.
Qed.

Lemma null_read_loop b l : forall mm cur rem,
  null_ok b -> segs_ok l -> blocked (2 ^ Null.n_shift b) l -> 0 <= cur -> 0 <= rem <= seg_total l ->
  (2 ^ Null.n_shift b | rem) -> cur + rem / 2 ^ Null.n_shift b <= Null.n_blocks b ->
  exists mm', read_segs_loop Null.n_shift Null.read l cur rem (b, mm) = ((b, mm'), Ok tt) /\
    (forall x, (forall g, g ∈ l -> ~ in_seg g x) -> mm' x = mm x).
Proof.
  induction l as [|g l IH]; intros mm cur rem Hok Hsg Hbl Hc Hr Hd Hle; [by exists mm|]. cbn [read_segs_loop].
  destruct (Z.eqb_spec rem 0) as [|Hnz]; [by exists mm|].
  destruct (null_loop_next b l g cur rem Hok Hsg Hc ltac:(lia) Hle Hbl Hd) as (Hn & Hck & Hu & Hc' & Hr' & Hle' & Hd').
  set (n := Z.min rem (seg_len g)) in *. pose proof (mem_read_length mm (ptr g) n ltac:(lia)) as Hrl.
  set (mm1 := mem_write mm (ptr g) (zeroes (length (mem_read mm (ptr g) n)))).
  destruct (IH mm1 (cur + Z.shiftr n (Null.n_shift b)) (rem - n)) as (mm' & He & Hf);
    [done|apply Hsg|by apply list.Forall_cons in Hbl as [_ ?]|done..|].
  exists mm'. split.
  - unfold Null.read, on_store, mbind, M_bind, get, lift, modify, mret, M_ret. rewrite Hrl, Hck.
    rewrite checked_ok by done. fold mm1. exact He.
  - intros x Hx. rewrite Hf by (intros g' Hg'; apply Hx; by constructor). apply mem_write_outside.
    pose proof (Hx g ltac:(by constructor)) as Hg. unfold in_seg in Hg. unfold zeroes. rewrite length_replicate. lia.
Qed.

Lemma null_write_loop b l : forall mm cur rem,
  null_ok b -> segs_ok l -> blocked (2 ^ Null.n_shift b) l -> 0 <= cur -> 0 <= rem <= seg_total l ->
  (2 ^ Null.n_shift b | rem) -> cur + rem / 2 ^ Null.n_shift b <= Null.n_blocks b ->
  write_segs_loop Null.n_shift Null.write l cur rem (b, mm) = ((b, mm), Ok tt).
Proof.
  induction l as [|g l IH]; intros mm cur rem Hok Hsg Hbl Hc Hr Hd Hle; [done|]. cbn [write_segs_loop].
  destruct (Z.eqb_spec rem 0) as [|Hnz]; [done|].
  destruct (null_loop_next b l g cur rem Hok Hsg Hc ltac:(lia) Hle Hbl Hd) as (Hn & Hck & Hu & Hc' & Hr' & Hle' & Hd').
  set (n := Z.min rem (seg_len g)) in *. pose proof (mem_read_length mm (ptr g) n ltac:(lia)) as Hrl.
  unfold Null.write, on_store, mbind, M_bind, get, lift, mret, M_ret. rewrite Hrl, Hck.
  rewrite checked_ok by done. apply IH; try done; [apply Hsg|by apply list.Forall_cons in Hbl as [_ ?]].
Qed.

Definition null_store : Store Null.NullBackend.
Proof.
  refine {| store_ok := null_ok |}.
  - intros b (? & ? & ?). cbn. lia.
  - intros b mm l a len idx Hok [? _ Hb [Ha _] ? ? ?]. destruct (null_read_loop b l mm a len) as (mm' & He & Hf); try done;
      [apply Hb, Hok|]. by exists b, mm', (Ok tt).
  - intros b mm l a len idx Hok [? _ Hb [Ha _] ? ? ?]. exists b, (Ok tt). split; [|done].
    apply null_write_loop; try done. apply Hb, Hok.
  - intros b Hok. by exists b, (Ok tt).
  - intros b l Hok. by exists b, (Ok tt).
  - intros b r Hok _. exists b, (check_range (Null.n_blocks b) (slba r) (nlb r)). split; [done|]. split; [|done].
    unfold check_range. by repeat case_match.
Defined.

(** ** Running without failure *)

Section Calculus.
Context {S E : Type}.

Definition runs {A} (m : M S E A) (s : S) (Q : S -> A -> Prop) : Prop :=
  exists s' a, m s = (s', Ok a) /\ Q s' a.

Lemma runs_ret {A} (a : A) s (Q : S -> A -> Prop) : Q s a -> runs (mret a) s Q.
Proof. intros. by exists s, a. Qed.

Lemma runs_bind {A A'} (m : M S E A) (f : A -> M S E A') s (Q : S -> A' -> Prop) :
  runs m s (fun s' a => runs (f a) s' Q) -> runs (m ≫= f) s Q.
Proof.
  intros (s' & a & Hm & s'' & a' & Hf & HQ). exists s'', a'.
  unfold mbind, M_bind. by rewrite Hm.
Qed.

Lemma runs_get s (Q : S -> S -> Prop) : Q s s -> runs get s Q.
Proof. intros. by exists s, s. Qed.

Lemma runs_modify f s (Q : S -> unit -> Prop) : Q (f s) tt -> runs (modify f) s Q.
Proof. intros. by exists (f s), tt. Qed.

Lemma runs_lift {A} (r : res E A) a s (Q : S -> A -> Prop) : r = Ok a -> Q s a -> runs (lift r) s Q.
Proof. intros -> ?. by exists s, a. Qed.

Lemma runs_mono {A} (m : M S E A) s (P Q : S -> A -> Prop) :
  runs m s P -> (forall s' a, P s' a -> Q s' a) -> runs m s Q.
Proof. intros (s' & a & Hm & HP) H. exists s', a. eauto. Qed.

Lemma runs_det {A} (m : M S E A) s s' a Q : runs m s Q -> m s = (s', Ok a) -> Q s' a.
Proof. intros (s1 & a1 & He & HQ) H. rewrite He in H. by simplify_eq. Qed.

Lemma get_bind {A} (f : S -> M S E A) s : (get ≫= f) s = f s s.
Proof. done. Qed.

Lemma bind_ok {A A'} (m : M S E A) (f : A -> M S E A') s s' a :
  m s = (s', Ok a) -> (m ≫= f) s = f a s'.
Proof. unfold mbind, M_bind. by intros ->. Qed.

(** ** Invariants that hold whatever happens *)

Definition preserves {A} (I : S -> Prop) (m : M S E A) : Prop := forall s, I s -> I (m s).1.

Lemma preserves_ret {A} I (a : A) : preserves I (mret a).
Proof. intros ? ?. cbn. auto. Qed.
Lemma preserves_get I : preserves I get.
Proof. intros ? ?. cbn. auto. Qed.
Lemma preserves_lift {A} I (r : res E A) : preserves I (lift r).
Proof. intros ? ?. cbn. auto. Qed.
Lemma preserves_panic {A} I : preserves I (@panic S E A).
Proof. intros ? ?. cbn. auto. Qed.

Lemma preserves_fail {A} I (e : E) : preserves I (@fail S E A e).
Proof. intros ? ?. cbn. auto. Qed.

Lemma preserves_bind {A A'} I (m : M S E A) (f : A -> M S E A') :
  preserves I m -> (forall a, preserves I (f a)) -> preserves I (m ≫= f).
Proof.
  intros Hm Hf s Hs. unfold mbind, M_bind. specialize (Hm s Hs).
  destruct (m s) as [s' [a|e|]]; cbn in *; [by apply Hf|done..].
Qed.

(** A continuation that may use the state [get] returned. *)
Lemma preserves_get_bind {A} I (f : S -> M S E A) :
  (forall s, I s -> I (f s s).1) -> preserves I (get ≫= f).
Proof. intros H s Hs. by apply H. Qed.

End Calculus.

#[export] Hint Resolve preserves_ret preserves_get preserves_lift preserves_panic preserves_fail : ioutgt.

Ltac runs_step :=
  match goal with
  | |- runs (mbind _ _) _ _ => apply runs_bind
  | |- runs (mret _) _ _ => apply runs_ret
  | |- runs get _ _ => apply runs_get
  | |- runs (modify _) _ _ => apply runs_modify
  end.

(** ** Leased buffers *)

(** A buffer of at least [n] bytes in whole pages. *)
Definition page_buf (d : SlotData) (n : Z) : Prop :=
  segs_ok (segs d) /\ seg_total (segs d) = sd_len d /\ n <= sd_len d /\ blocked PAGE (segs d) /\
  (length (segs d) <= MAX_SEGS)%nat.

Lemma runs_blocked b n rs : Forall (run_in n) rs -> blocked PAGE (map (run_seg b) rs).
Proof.
  induction 1 as [|r rs (H1 & H2 & H3) _ IH]; [constructor|]. constructor; [|done].
  cbn. unfold PAGE. split; [lia|]. apply Z.divide_factor_r.
Qed.

Lemma pages_for_bytes len : len <= pages_for len * PAGE.
Proof.
  unfold pages_for, div_ceil, PAGE. pose proof (Z.div_mod (len + 4096 - 1) 4096 ltac:(lia)).
  pose proof (Z.mod_pos_bound (len + 4096 - 1) 4096 ltac:(lia)). lia.
Qed.

Lemma pages_for_one len : len <= PAGE -> pages_for len = 1.
Proof.
  intros. unfold pages_for, div_ceil, PAGE in *.
  enough ((len + 4096 - 1) / 4096 <= 1) by lia. apply Z.lt_succ_r, Z.div_lt_upper_bound; lia.
Qed.

Lemma lease_page_buf p ds rss hand res d :
  pool_part p ds rss hand res -> leases p d hand -> length (sd_segs d) = MAX_SEGS -> page_buf d (sd_len d).
Proof.
  intros (_ & _ & _ & Hc) (_ & Hsg & Hlen & _ & Hin) Hmax.
  destruct (runs_segs_ok (base p) hand (npages p) Hin) as [H1 H2].
  { intros pg. destruct (decide (0 <= pg < npages p)) as [Hpg|Hpg].
    - specialize (Hc pg Hpg). pose proof (cover_nonneg (free p) pg).
      pose proof (cover_nonneg (concat rss) pg). pose proof (cover_nonneg res pg). lia.
    - rewrite (cover_run_out _ _ _ Hin Hpg). lia. }
  split; [by rewrite Hsg|]. split; [by rewrite Hsg, Hlen|]. split; [lia|].
  split; [rewrite Hsg; by eapply runs_blocked|]. unfold segs. rewrite length_take. lia.
Qed.

Lemma scatter_loop_length {E} fuel p l sg n need l' sg' n' :
  scatter_loop (E := E) fuel p l sg n need = Ok (l', sg', n') -> length sg' = length sg.
Proof.
  revert l sg n need. induction fuel as [|fuel IH]; intros l sg n need; [done|]. cbn [scatter_loop].
  destruct (need <=? 0); [by intros [= _ <- _]|]. unfold expect.
  destruct (l !! 0%nat) as [r|]; [|done]. cbn [mbind res_bind]. unfold assert.
  destruct (bool_decide _); [|done]. cbn [mbind res_bind].
  destruct (carve l 0 _) as [[x l1]|e|]; [|done..]. cbn [mbind res_bind].
  destruct (checked 32 _) as [nd|e|]; [|done..]. cbn [mbind res_bind].
  intros H%IH. by rewrite H, length_insert.
Qed.

(** A lease has all its segment slots. *)
Lemma alloc_length len p p' d : alloc len p = (p', Ok (Some d)) -> length (sd_segs d) = MAX_SEGS.
Proof.
  unfold alloc, make_lease, mbind, M_bind, get, modify, lift, mret, M_ret.
  intros H. repeat case_match; simplify_eq/=; rewrite ?length_insert; try done.
  match goal with H : _ = Ok (_, ?l0, _) |- length ?l0 = _ =>
    exact (scatter_loop_length (S (length (free p))) p _ null_segs 0 _ _ _ _ H) end.
Qed.

Lemma alloc_len len p p' d : pool_wf p -> alloc len p = (p', Ok (Some d)) -> sd_len d = pages_for len * PAGE.
Proof.
  intros Hwf H. destruct (alloc_spec p len Hwf) as [[Hn _]|(p1 & d1 & rs & Hs & _ & _ & Hl & Ht)];
    rewrite H in *; simplify_eq. destruct Hl as (_ & _ & Hlen & _). by rewrite Hlen, Ht.
Qed.

Lemma total_length n rs : Forall (run_in n) rs -> Z.of_nat (length rs) <= total rs.
Proof. induction 1 as [|r rs (?&?&?) _ IH]; cbn [length total]; lia. Qed.

Lemma lease_contiguous p d rs :
  leases p d rs -> length (sd_segs d) = MAX_SEGS -> sd_len d = PAGE -> is_contiguous d = true.
Proof.
  intros (_ & Hsg & Hlen & Hn & Hin) Hl Hd. pose proof (total_length _ _ Hin).
  assert (length rs = 1%nat) as H1 by (unfold PAGE in *; lia).
  apply (f_equal length) in Hsg. unfold segs in Hsg.
  rewrite length_take, length_map, Hl, H1 in Hsg. unfold MAX_SEGS in Hsg.
  unfold is_contiguous. apply Z.eqb_eq. lia.
Qed.

(** ** The invariant *)

Section World.
Context {B : Type} {BK : Backend B} {ST : Store B}.
Implicit Types (w : World B) (o : Outcome).

Definition core_ok (q : QueueCore) : Prop :=
  in_u 16 (qc_qid q) /\ in_u 16 (sqsize q) /\ 0 <= sqhd q < sqsize q.

(** Every namespace names an existing backend and has a 16-byte UUID. *)
Definition table_ok (n : nat) (t : NsMap) : Prop :=
  forall k ns, t !! k = Some ns -> in_u 32 k /\ (ns_backend ns < n)%nat /\ length (ns_uuid ns) = 16%nat.

Definition port_ok (n : nat) (p : PortConfig) : Prop :=
  in_u 16 (pc_max_qid p) /\
  forall nqn s, pc_subsystems p !! nqn = Some s -> table_ok n (ss_namespaces s).

Definition role_ok (n : nat) (r : Role) : Prop :=
  match r with
  | Admin _ => True
  | IoQueue i => forall t, cache_map (io_ns_cache i) = Some t -> table_ok n t
  end.

Record world_ok w : Prop := {
  wk_core : core_ok (w_core w);
  wk_slots : exists rss res, array_ok (w_slots w) rss res;
  wk_registry : reg_ok (w_registry w);
  wk_backends : Forall store_ok (w_backends w);
  wk_port : port_ok (length (w_backends w)) (w_port w);
  wk_role : role_ok (length (w_backends w)) (w_role w);
  (** The role is chosen by the queue id. *)
  wk_qid : match w_role w with Admin _ => qc_qid (w_core w) = 0 | IoQueue _ => True end;
}.

(** No counter is within [k] of overflow. *)
Definition room (k : Z) w : Prop :=
  forall c, 0 <= counter c (stats (w_core w)) < 2 ^ 64 - k.

(** Only the queue core moved: sequence head and counters. *)
Definition core_step w w' : Prop :=
  w' = set_core (w_core w') w /\ world_ok w' /\ qc_qid (w_core w') = qc_qid (w_core w).

Definition replied (cid q result code len : Z) o : Prop :=
  cqe_cid (out_cqe o) = cid /\ cqe_sq_id (out_cqe o) = q /\ cqe_result (out_cqe o) = result /\
  cqe_status (out_cqe o) = wrap 16 (Z.shiftl code 1) /\ out_data_len o = len.

Lemma world_ok_core w q :
  world_ok w -> core_ok q -> qc_qid q = qc_qid (w_core w) -> world_ok (set_core q w).
Proof. intros [] ? Hq. split; try done. cbn. by rewrite Hq. Qed.

Lemma set_core_core w q q' : set_core q (set_core q' w) = set_core q w.
Proof. done. Qed.

Lemma core_step_trans w1 w2 w3 : core_step w1 w2 -> core_step w2 w3 -> core_step w1 w3.
Proof.
  intros (H1 & _ & Hq1) (H2 & Hok & Hq2). split; [|split; [done|congruence]].
  rewrite H2, H1. by rewrite set_core_core.
Qed.

Lemma core_step_refl w : world_ok w -> core_step w w.
Proof. intros. split; [by destruct w|done]. Qed.

Lemma stat_add_runs w c n k :
  world_ok w -> room k w -> 0 <= n <= k ->
  runs (stat_add c n) w (fun w' _ => core_step w w' /\ room (k - n) w').
Proof.
  intros Hok Hr Hn. eexists _, tt. unfold stat_add, on_core, mbind, M_bind, get, lift, modify.
  rewrite checked_ok by (pose proof (Hr c); split; lia). cbv beta iota. split; [reflexivity|].
  split; [split; [done|split; [|done]]|].
  - apply world_ok_core; [done|apply Hok|done].
  - intros c'. pose proof (Hr c). pose proof (Hr c').
    destruct c, c'; cbn in *; lia.
Qed.

Lemma advance_core_ok q :
  core_ok q -> exists q' h, advance_sqhd q = (q', Ok h) /\ core_ok q' /\ qc_qid q' = qc_qid q /\ sqsize q' = sqsize q.
Proof.
  intros (Hq & Hs & Hh). unfold advance_sqhd, mbind, M_bind, get, lift, modify, mret, M_ret.
  destruct (sqhd_disabled q); [by exists q, 0|].
  rewrite checked_ok by (unfold in_u in *; lia). cbv beta iota.
  unfold assert. destruct (Z.eqb_spec (sqsize q) 0); [lia|]. cbn [negb].
  eexists _, _. split; [reflexivity|]. split; [|done]. split; [done|]. split; [done|]. cbn.
  apply Z.mod_pos_bound. lia.
Qed.

Lemma with_data_runs w result cid code len :
  world_ok w ->
  runs (with_data result cid code len) w (fun w' o =>
    core_step w w' /\ replied cid (qc_qid (w_core w)) result code len o).
Proof.
  intros Hok. destruct (advance_core_ok _ (wk_core _ Hok)) as (q' & h & Hadv & Hq' & Hqid & _).
  exists (set_core q' w). eexists. unfold with_data, cqe, on_core, mbind, M_bind, get, mret, M_ret.
  rewrite Hadv. cbv beta iota. split; [reflexivity|]. split.
  - split; [done|]. split; [by apply world_ok_core|done].
  - unfold replied. cbn. by rewrite Hqid.
Qed.

Lemma complete_runs w result cid code :
  world_ok w ->
  runs (complete result cid code) w (fun w' o =>
    core_step w w' /\ replied cid (qc_qid (w_core w)) result code 0 o).
Proof. apply with_data_runs. Qed.

(** ** Buffers of a command's slot *)

(** The slot of the command being executed, with its received payload. *)
Definition exec_slot w (tag : Z) (s : Slot Sqe) : Prop :=
  0 <= tag /\ slots (w_slots w) !! Z.to_nat tag = Some s /\ state s = Executing.

(** A page buffer, or one segment that is exactly the payload (a buffer borrowed
    from the receive ring); a command without data may have either. *)
Definition payload_ok (s : Slot Sqe) : Prop :=
  0 <= data_len s <= seg_total (segs (data s)) /\ segs_ok (segs (data s)) /\ (length (segs (data s)) <= MAX_SEGS)%nat /\
  (blocked PAGE (segs (data s)) \/ exists g, segs (data s) = [g] /\ (data_len s = 0 \/ seg_len g = data_len s)).

(** Only the slot's buffer and its bookkeeping in the slot array changed. *)
Definition buf_step w (tag : Z) (s : Slot Sqe) (d : SlotData) w' : Prop :=
  w' = set_slots (w_slots w') w /\ world_ok w' /\
  slots (w_slots w') = <[Z.to_nat tag := SlotQ.with_data d s]> (slots (w_slots w)).

Lemma world_ok_slots w a : world_ok w -> (exists rss res, array_ok a rss res) -> world_ok (set_slots a w).
Proof. intros [] ?. by split. Qed.

(** A private heap buffer is one segment of whole pages. *)
Lemma owned_page_buf addr len :
  page_buf (SlotData_owned addr len) len /\ is_contiguous (SlotData_owned addr len) = true
  /\ is_pool (SlotData_owned addr len) = false.
Proof.
  split; [|done]. unfold page_buf. change (segs (SlotData_owned addr len))
    with [{| ptr := addr; seg_len := AlignedBuf_size len |}].
  cbn [sd_len SlotData_owned segs_ok seg_total seg_len]. unfold AlignedBuf_size.
  set (k := div_ceil len BUF_ALIGN).
  assert (Hk : Z.max (k * BUF_ALIGN) BUF_ALIGN = Z.max k 1 * BUF_ALIGN) by (unfold BUF_ALIGN; lia).
  assert (Hlen : len <= Z.max (k * BUF_ALIGN) BUF_ALIGN).
  { pose proof (pages_for_bytes len). unfold pages_for, PAGE in *. rewrite Hk.
    unfold k, BUF_ALIGN. lia. }
  assert (0 < BUF_ALIGN) by (unfold BUF_ALIGN; lia).
  split_and!; try done; try (cbn; unfold MAX_SEGS; lia); try nia.
  constructor; [|done]. cbn [seg_len]. rewrite Hk. split; [nia|].
  unfold PAGE, BUF_ALIGN. apply Z.divide_factor_r.
Qed.

(** [lease_or_owned] always installs a buffer of the requested size. *)
Lemma lease_or_owned_ok (a : SlotArray Sqe) rss res i s n addr :
  array_ok a rss res -> slots a !! i = Some s -> state s <> Free -> 1 <= n ->
  exists p d hand a', lease_or_owned (Z.of_nat i) n addr a = (a', Ok tt) /\
    set_data (Z.of_nat i) d (set_pool p a) = (a', Ok tt) /\ array_ok a' (<[i := hand]> rss) res /\
    slots a' = <[i := SlotQ.with_data d s]> (slots a) /\
    (free_tags a' = free_tags a /\ executing a' = executing a /\ tag_waiter a' = tag_waiter a /\
     nslots a' = nslots a) /\
    page_buf d n /\ (n <= PAGE -> is_contiguous d = true) /\ (forall b, owner d <> ORing b) /\ owner d <> OEmpty.
Proof.
  intros Ha Hs Hst Hn. pose proof (ok_pool _ _ _ Ha) as Hp. pose proof Hp as (Hwf & _).
  assert (exists p d hand, lease_or_owned (Z.of_nat i) n addr a = set_data (Z.of_nat i) d (set_pool p a) /\
    pool_part p (data <$> slots a) rss hand res /\ slot_holds p d hand /\
    page_buf d n /\ (n <= PAGE -> is_contiguous d = true) /\ (forall b, owner d <> ORing b) /\ owner d <> OEmpty)
    as (p & d & hand & He & Hp' & Hh & Hpb & Hc & Ho & Ho').
  { unfold lease_or_owned, on_pool, mbind, M_bind.
    destruct (alloc_part _ _ _ _ n Hp) as [He|(p' & d & rs & He & Hip & Hl & Hp' & _)]; rewrite He.
    - exists (pool a), (SlotData_owned addr (Z.max n 1)), [].
      destruct (owned_page_buf addr (Z.max n 1)) as (H1 & H2 & H3). rewrite Z.max_l in * by lia. by split_and!.
    - exists p', d, rs. split; [done|]. split; [done|]. split; [by unfold slot_holds; rewrite Hip|].
      pose proof (alloc_len _ _ _ _ Hwf He) as Hsl. pose proof (pages_for_bytes n).
      destruct (lease_page_buf _ _ _ _ _ _ Hp' Hl (alloc_length _ _ _ _ He)) as (H1 & H2 & _ & H4 & H5).
      split; [split_and!; try done; lia|]. split.
      + intros Hle. eapply lease_contiguous; [done|by eapply alloc_length|]. rewrite Hsl, pages_for_one by done. lia.
      + unfold is_pool in Hip. by destruct (owner d). }
  destruct (set_data_ok a rss hand res i s d p Ha Hs Hst Hp' Hh) as (a' & Hset & Ha' & Hsl & Hrest).
  exists p, d, hand, a'. rewrite He. by split_and!; try apply Hrest.
Qed.

Lemma lease_or_owned_runs w tag s n addr :
  world_ok w -> exec_slot w tag s -> 1 <= n ->
  runs (on_slots (lease_or_owned tag n addr)) w (fun w' _ =>
    exists d, buf_step w tag s d w' /\ page_buf d n /\ (n <= PAGE -> is_contiguous d = true)).
Proof.
  intros Hok (Ht & Hs & Hst) Hn. destruct (wk_slots _ Hok) as (rss & res & Ha).
  rewrite <- (Z2Nat.id tag) by done.
  destruct (lease_or_owned_ok _ _ _ (Z.to_nat tag) s n addr Ha Hs ltac:(congruence) Hn)
    as (p & d & hand & a' & He & _ & Ha' & Hsl & _ & Hpb & Hc & _).
  exists (set_slots a' w), tt. unfold on_slots. rewrite He. split; [done|].
  exists d. split; [|done]. split; [done|]. split; [by apply world_ok_slots; [|eauto]|]. cbn. by rewrite Hsl, Nat2Z.id.
Qed.

End World.
