(* ===== verification/AdminProofs.v ===== *)
(** * Admin and fabrics commands never panic and answer the right command *)

From S2P Require Import Prelude Pool PoolProofs PoolSafety PoolData Backend.
From S2P Require Import BackendProofs SegIO SlotQ SlotQProofs Registry Subsystem.
From S2P Require Import Spec Fabrics Identify Dispatch FabricsExec Admin.
From S2P Require Import ExecLaws.

Section AdminProofs.
Context {B : Type} {BK : Backend B} {ST : Store B}.
Implicit Types (w : World B) (o : Outcome).

(** ** What a finished or parked command owes *)

Definition await_ok w (cid : Z) (k : Await) : Prop :=
  match k with
  | AwaitEvent c => c = cid /\ exists a, w_role w = Admin a
  | AwaitLease i c rw len =>
      c = cid /\ in_u 64 (rw_slba rw) /\ 0 < len <= MDTS_BYTES /\
      exists b, w_backends w !! i = Some b /\ (2 ^ block_shift b | len) /\
        rw_slba rw + len / 2 ^ block_shift b <= nr_blocks b
  end.

Definition for_cmd (cid q : Z) o : Prop := cqe_cid (out_cqe o) = cid /\ cqe_sq_id (out_cqe o) = q.

Definition answered w (cid : Z) w' (p : Progress) : Prop :=
  world_ok w' /\
  match p with
  | Done o => for_cmd cid (qc_qid (w_core w)) o
  | Parked k => await_ok w' cid k
  end.

Definition finished w (cid : Z) w' o : Prop := world_ok w' /\ for_cmd cid (qc_qid (w_core w)) o.

Lemma done_runs w w0 cid (m : M (World B) never Outcome) :
  runs m w (finished w0 cid) -> runs (done m) w (answered w0 cid).
Proof. intros H. unfold done. runs_step. eapply runs_mono; [exact H|]. intros. by runs_step. Qed.

Lemma with_data_finished w w0 result cid code len :
  world_ok w -> qc_qid (w_core w) = qc_qid (w_core w0) ->
  runs (with_data result cid code len) w (finished w0 cid).
Proof.
  intros Hok Hq. eapply runs_mono; [by apply with_data_runs|].
  intros w' o ((_ & Hok' & _) & (Hc & Hs & _)). split; [done|]. split; congruence.
Qed.

Lemma complete_finished w w0 result cid code :
  world_ok w -> qc_qid (w_core w) = qc_qid (w_core w0) ->
  runs (complete result cid code) w (finished w0 cid).
Proof. apply with_data_finished. Qed.

Lemma modify_admin_runs w f :
  world_ok w -> runs (modify_admin f) w (fun w' _ =>
    world_ok w' /\ w_core w' = w_core w /\ w_port w' = w_port w /\ w_slots w' = w_slots w
    /\ w_backends w' = w_backends w /\ w_registry w' = w_registry w /\ w_mem w' = w_mem w
    /\ w_role w' = match w_role w with Admin a => Admin (f a) | r => r end).
Proof.
  intros Hok. unfold modify_admin. runs_step. destruct (w_role w) eqn:Hr; [|by rewrite Hr].
  destruct Hok as [? ? ? ? ? Hro Hqi]. rewrite Hr in Hqi. by split.
Qed.

(** ** Response data *)

(** The slot's buffer now starts with [bs]; nothing else moved. *)
Definition filled w (tag : Z) (s : Slot Sqe) (bs : bytes) w' : Prop :=
  world_ok w' /\ w_core w' = w_core w /\ w_port w' = w_port w /\ w_role w' = w_role w /\
  w_backends w' = w_backends w /\
  exists d, slots (w_slots w') !! Z.to_nat tag = Some (SlotQ.with_data d s) /\
    take (length bs) (flat (w_mem w') (segs d)) = bs.

Lemma on_slots_slot w tag s :
  exec_slot w tag s -> runs (on_slots (slot tag)) w (fun w' x => w' = w /\ x = s).
Proof.
  intros (_ & Hs & _). exists w, s. unfold on_slots, slot, mbind, M_bind, get, lift, expect.
  rewrite Hs. cbv beta iota. split; [|done]. f_equal. by destruct w.
Qed.

Lemma world_ok_mem w m : world_ok w -> world_ok (set_store (w_backends w) m w).
Proof. intros []. by split. Qed.

Lemma slot_write_at_runs w tag s d n bs :
  world_ok w -> exec_slot w tag (SlotQ.with_data d s) -> page_buf d n ->
  Z.of_nat (length bs) <= n ->
  runs (slot_write_at tag 0 bs) w (fun w' _ => filled w tag s bs w').
Proof.
  intros Hok Hsl (Hsg & Htot & Hn & _) Hlen. unfold slot_write_at.
  runs_step. eapply runs_mono; [by apply on_slots_slot|]. intros ? ? [-> ->].
  runs_step. runs_step. runs_step. cbn [data SlotQ.with_data].
  destruct (write_loop_spec (w_mem w) (segs d) 0 bs Hsg ltac:(lia) ltac:(lia))
    as (m' & Hw & Hfl & _).
  apply (runs_lift _ m').
  { unfold write_at. rewrite Hw. cbn. done. }
  runs_step. split; [by apply world_ok_mem|]. do 4 (split; [done|]).
  exists d. split; [apply Hsl|]. cbn. rewrite Hfl. change (Z.to_nat 0) with 0%nat.
  rewrite take_0. cbn [app]. by rewrite take_app_length.
Qed.

Lemma exec_slot_buf w tag s d w' :
  exec_slot w tag s -> buf_step w tag s d w' -> exec_slot w' tag (SlotQ.with_data d s).
Proof.
  intros (Ht & Hs & Hst) (_ & _ & Hsl). split; [done|]. split; [|done].
  rewrite Hsl. apply list_lookup_insert_eq. by eapply lookup_lt_Some.
Qed.

Lemma fill_slot_runs w tag s (bs : bytes) :
  world_ok w -> exec_slot w tag s ->
  let n := Z.min (Z.of_nat (length bs)) ADMIN_DATA_MAX in
  runs (fill_slot tag bs) w (fun w' r => r = n /\ filled w tag s (take (Z.to_nat n) bs) w').
Proof.
  intros Hok Hsl n. unfold fill_slot. fold n. runs_step. runs_step. runs_step.
  eapply runs_mono; [apply lease_or_owned_runs; [done|done|lia]|].
  intros w1 _ (d & Hb & Hpb & _). pose proof Hb as (Hw1 & Hok1 & Hs1).
  runs_step. eapply runs_mono.
  { apply (slot_write_at_runs w1 tag s d (Z.max n 1)); [done| |done|rewrite length_take; lia].
    by eapply exec_slot_buf. }
  intros w2 _ (Hok2 & Hc & Hp & Hr & Hbk & d' & Hd'). apply (runs_lift _ n).
  { unfold u32_try_from. rewrite decide_True by (unfold in_u, n, ADMIN_DATA_MAX; lia). done. }
  split; [done|]. rewrite Hw1 in Hc, Hp, Hr, Hbk. split; [done|]. do 4 (split; [done|]). by exists d'.
Qed.

Lemma reply_data_finished w tag s cid bs :
  world_ok w -> exec_slot w tag s -> runs (reply_data tag cid bs) w (finished w cid).
Proof.
  intros Hok Hsl. unfold reply_data. runs_step.
  eapply runs_mono; [by apply (fill_slot_runs w tag s)|].
  intros w' n (-> & Hok' & Hc & _). apply with_data_finished; [done|by rewrite Hc].
Qed.

(** ** Identify *)

Lemma put_nsids_ok {E} l i nsids :
  (i * 4 + length nsids * 4 <= length l)%nat -> exists l', put_nsids (E := E) l i nsids = Ok l'.
Proof.
  revert l i. induction nsids as [|n r IH]; intros l i Hl; [by exists l|].
  cbn [put_nsids length] in *. rewrite copy_into_ok by (blen). cbn [mbind res_bind].
  apply IH. blen.
Qed.

Lemma active_ns_list_ok {E} s start : exists l, active_ns_list (E := E) s start = Ok l.
Proof.
  destruct s as [s|]; [|by eexists]. apply put_nsids_ok. rewrite length_take. unfold zeroes.
  rewrite length_replicate. change 4096%nat with (1024 * 4)%nat. lia.
Qed.

Lemma ns_desc_list_ok {E} u : length u = 16%nat -> exists l, ns_desc_list (E := E) u = Ok l.
Proof.
  intros Hu. unfold ns_desc_list.
  destruct (copy_into (E := E) (zeroes 4096) 0 [byte.of_Z 3]) as [d| |] eqn:H1; [|by vm_compute in H1..].
  apply copy_into_length in H1. cbn [mbind res_bind].
  destruct (copy_into (E := E) d 1 [byte.of_Z 16]) as [d2| |] eqn:H2;
    [|unfold copy_into in H2; rewrite decide_True in H2 by (rewrite H1; cbn; lia); done..].
  apply copy_into_length in H2. cbn [mbind res_bind].
  rewrite copy_into_ok; [eauto|]. rewrite H2, H1, Hu. cbn. lia.
Qed.

Lemma build_id_ns_ok {E} b : store_ok b -> exists id, build_id_ns (E := E) b = Ok id.
Proof.
  intros Hs. destruct (geometry_ok b Hs) as [Hg _]. unfold build_id_ns, ns_limits.
  case_decide; [by eexists|]. unfold assert. destruct (Z.ltb_spec (block_shift b) 64); [|lia].
  by eexists.
Qed.

Lemma backend_lookup w i :
  world_ok w -> (i < length (w_backends w))%nat ->
  exists b, w_backends w !! i = Some b /\ store_ok b.
Proof.
  intros Hok Hi. destruct (lookup_lt_is_Some_2 _ _ Hi) as [b Hb]. exists b. split; [done|].
  by eapply Forall_lookup_1; [apply Hok|].
Qed.

Lemma bound_table w a s :
  world_ok w -> bound_subsys (w_port w) a = Some s -> table_ok (length (w_backends w)) (ss_namespaces s).
Proof.
  unfold bound_subsys. intros Hok H. destruct (ad_subsys a) as [n|]; [|done]. cbn in H.
  apply (wk_port _ Hok) in H. done.
Qed.

Lemma identify_finished w a tag s sqe :
  world_ok w -> exec_slot w tag s -> runs (identify a tag sqe) w (finished w (sqe_cid sqe)).
Proof.
  intros Hok Hsl. unfold identify. runs_step. runs_step.
  case_match; [by eapply reply_data_finished|].
  case_match.
  { destruct (bound_subsys (w_port w) a) as [su|] eqn:Hb; [|by apply complete_finished].
    pose proof (bound_table _ _ _ Hok Hb) as Ht.
    destruct (ss_namespaces su !! sqe_nsid sqe) as [ns|] eqn:Hn.
    - apply Ht in Hn as (_ & Hi & _). destruct (backend_lookup w _ Hok Hi) as (b & Hbk & Hbo).
      destruct (build_id_ns_ok (E := never) b Hbo) as [id Hid].
      runs_step. apply (runs_lift _ b); [by rewrite Hbk|].
      runs_step. apply (runs_lift _ id); [done|]. by eapply reply_data_finished.
    - case_match; [by eapply reply_data_finished|by apply complete_finished]. }
  case_match.
  { destruct (active_ns_list_ok (E := never) (bound_subsys (w_port w) a) (sqe_nsid sqe)) as [l Hl].
    runs_step. apply (runs_lift _ l); [done|]. by eapply reply_data_finished. }
  case_match; [|by apply complete_finished].
  destruct (bound_subsys (w_port w) a) as [su|] eqn:Hb; [|by apply complete_finished]. cbn.
  destruct (ss_namespaces su !! sqe_nsid sqe) as [ns|] eqn:Hn; [|by apply complete_finished].
  apply (bound_table _ _ _ Hok Hb) in Hn as (_ & _ & Hu).
  destruct (ns_desc_list_ok (E := never) _ Hu) as [d Hd].
  runs_step. apply (runs_lift _ d); [done|]. by eapply reply_data_finished.
Qed.

(** ** Features and log pages *)

Lemma io_queue_count_ok w a : world_ok w -> in_u 32 (io_queue_count (w_port w) a - 1).
Proof.
  intros Hok. destruct (wk_port _ Hok) as [[H1 H2] _]. unfold io_queue_count, in_u.
  destruct (ad_subsys a); lia.
Qed.

Lemma get_features_finished w a sqe :
  world_ok w -> runs (get_features a sqe) w (finished w (sqe_cid sqe)).
Proof.
  intros Hok. unfold get_features. runs_step. runs_step.
  case_match; [|repeat case_match; by apply complete_finished].
  runs_step. eapply runs_lift; [apply checked_ok; by apply io_queue_count_ok|].
  by apply complete_finished.
Qed.

Lemma admin_then_complete w f result cid code :
  world_ok w ->
  runs (modify_admin f ≫= fun _ => complete result cid code) w (finished w cid).
Proof.
  intros Hok. runs_step. eapply runs_mono; [by apply modify_admin_runs|].
  intros w' _ (Hok' & Hc & _). apply complete_finished; [done|by rewrite Hc].
Qed.

Lemma set_features_finished w a sqe :
  world_ok w -> runs (set_features a sqe) w (finished w (sqe_cid sqe)).
Proof.
  intros Hok. unfold set_features. runs_step. runs_step. case_match.
  { runs_step. eapply runs_lift; [apply checked_ok; by apply io_queue_count_ok|].
    by apply complete_finished. }
  repeat case_match; first [by apply admin_then_complete | by apply complete_finished].
Qed.

Lemma log_len_pos sqe : Sqe_wf sqe -> 4 <= log_len sqe.
Proof.
  intros (_ & _ & _ & _ & _ & _ & _ & _ & [H10 _] & [H11 _] & _). unfold log_len.
  assert (0 <= Z.lor (Z.shiftl (Z.land (sqe_cdw11 sqe) 0xFFFF) 16) (Z.shiftr (sqe_cdw10 sqe) 16)); [|lia].
  apply Z.lor_nonneg. split; [apply Z.shiftl_nonneg, Z.land_nonneg; lia|by apply Z.shiftr_nonneg].
Qed.

Lemma log_offset_nonneg sqe : Sqe_wf sqe -> 0 <= log_offset sqe.
Proof.
  intros (_ & _ & _ & _ & _ & _ & _ & _ & _ & _ & [H12 _] & [H13 _] & _). unfold log_offset.
  apply Z.lor_nonneg. split; [by apply Z.shiftl_nonneg|done].
Qed.

(** The window of a log: at most what was asked for, and never out of range. *)
Lemma log_window_ok {E} log offset len :
  0 <= offset -> 0 <= len ->
  log_window (E := E) log offset len =
    Ok (take (Z.to_nat (Z.min (offset + len) (2 ^ 64 - 1) - offset)) (drop (Z.to_nat offset) log)).
Proof.
  intros Ho Hl. unfold log_window, assert. set (lg := Z.of_nat (length log)).
  set (e := Z.min (Z.min (offset + len) (2 ^ 64 - 1)) lg).
  assert ((Z.min offset e <=? e) && (e <=? lg) = true) as ->.
  { apply andb_true_intro. split; apply Z.leb_le; lia. }
  cbn. f_equal. destruct (decide (offset <= e)) as [He|He].
  - rewrite (Z.min_l offset e) by lia. destruct (decide (e = lg)).
    + rewrite !take_ge; rewrite ?length_drop; [done|lia..].
    + do 2 f_equal. lia.
  - rewrite (Z.min_r offset e) by lia. rewrite Z.sub_diag. change (Z.to_nat 0) with 0%nat.
    rewrite take_0. symmetry. destruct (decide (lg <= offset)) as [Hx|Hx].
    + rewrite (drop_ge log) by lia. apply take_nil.
    + replace (Z.to_nat _) with 0%nat by lia. apply take_0.
Qed.

Lemma changed_ns_page_ok {E} b : exists p, changed_ns_page (E := E) b = Ok p /\ length p = 4096%nat.
Proof.
  unfold changed_ns_page. destruct b; [|eexists; split; [done|apply length_replicate]].
  destruct (copy_into (E := E) (zeroes 4096) 0 (le_split 4 4294967295)) as [p| |] eqn:H;
    [|by vm_compute in H..].
  exists p. split; [done|]. apply copy_into_length in H. rewrite H. apply length_replicate.
Qed.

Lemma zero_slot_runs w tag s d n :
  world_ok w -> exec_slot w tag (SlotQ.with_data d s) -> is_contiguous d = true ->
  segs_ok (segs d) -> seg_total (segs d) = sd_len d -> 1 <= n <= sd_len d ->
  runs (zero_slot tag n) w (fun w' _ => world_ok w' /\ w_core w' = w_core w).
Proof.
  intros Hok Hsl Hc Hsg Htot Hn. unfold zero_slot.
  runs_step. eapply runs_mono; [by apply on_slots_slot|]. intros ? ? [-> ->].
  cbn [data SlotQ.with_data]. runs_step. runs_step. runs_step.
  destruct (sd_segs d !! 0%nat) as [g|] eqn:Hg.
  2:{ exfalso. unfold segs in *. destruct (sd_segs d); [|done]. rewrite take_nil in *. cbn in *. lia. }
  eapply runs_lift. { unfold as_slice, assert. rewrite Hc. cbn. rewrite Hg. done. }
  runs_step. apply (runs_lift _ tt).
  { unfold assert. pose proof (mem_read_length (w_mem w) (ptr g) (sd_len d) ltac:(lia)) as ->.
    by destruct (Z.leb_spec n (sd_len d)); [|lia]. }
  runs_step. apply (runs_lift _ g); [done|]. runs_step. split; [by apply world_ok_mem|done].
Qed.

Lemma get_log_page_finished w a tag s sqe :
  world_ok w -> exec_slot w tag s -> Sqe_wf sqe ->
  runs (get_log_page a tag sqe) w (finished w (sqe_cid sqe)).
Proof.
  intros Hok Hsl Hwf. pose proof (log_len_pos _ Hwf) as Hlen. unfold get_log_page.
  runs_step. runs_step. case_match.
  { runs_step. eapply runs_lift; [apply log_window_ok; [by apply log_offset_nonneg|lia]|].
    runs_step. eapply runs_mono; [by apply (fill_slot_runs w tag s)|].
    intros w' n (-> & Hok' & Hc & _). apply with_data_finished; [done|by rewrite Hc]. }
  case_match.
  { runs_step. eapply runs_mono; [by apply modify_admin_runs|].
    intros w1 _ (Hok1 & Hc1 & _ & Hs1 & _). runs_step.
    destruct (changed_ns_page_ok (E := never) (ad_ns_changed a)) as (p & Hp & Hpl).
    apply (runs_lift _ p); [done|]. runs_step.
    eapply runs_mono; [apply (fill_slot_runs w1 tag s); [done|by unfold exec_slot; rewrite Hs1]|].
    intros w2 n (-> & Hok2 & Hc2 & _). runs_step. apply (runs_lift _ tt).
    { rewrite length_take, Hpl. unfold assert, ADMIN_DATA_MAX.
      by destruct (Z.eqb_spec (Z.min (Z.of_nat (Z.to_nat (Z.min (log_len sqe) 4096) `min` 4096)) (8 * 1024))
        (Z.min (log_len sqe) 4096)); [|lia]. }
    apply with_data_finished; [done|by rewrite Hc2, Hc1]. }
  case_match; [|by apply complete_finished].
  runs_step. eapply runs_mono; [apply lease_or_owned_runs; [done|done|lia]|].
  intros w1 _ (d & Hb & (Hsg & Htot & Hn & _) & Hcont). pose proof Hb as (Hw1 & Hok1 & _).
  runs_step. eapply runs_mono.
  { apply (zero_slot_runs w1 tag s d); [done|by eapply exec_slot_buf| |done..|lia].
    apply Hcont. unfold PAGE. lia. }
  intros w2 _ (Hok2 & Hc2). apply with_data_finished; [done|]. by rewrite Hc2, Hw1.
Qed.

(** ** Asynchronous events and routing *)

Lemma async_event_answered w t cid a :
  world_ok w -> w_role w = Admin a -> runs (async_event t cid) w (answered w cid).
Proof.
  intros Hok Hr. unfold async_event, aer_poll. runs_step. runs_step. runs_step. rewrite Hr.
  assert (Hgo : forall w1 r, world_ok w1 -> w_core w1 = w_core w ->
    runs (complete r cid status.SUCCESS ≫= fun o => mret (Done o)) w1 (answered w cid)).
  { intros w1 r Hok1 Hc1. apply (done_runs w1 w). apply complete_finished; [done|by rewrite Hc1]. }
  destruct (ad_closing a); [runs_step; by apply Hgo|].
  destruct (ad_events a) as [|e rest].
  - runs_step. eapply runs_mono; [by apply modify_admin_runs|].
    intros w1 _ (Hok1 & _ & _ & _ & _ & _ & _ & Hr1). runs_step. runs_step. split; [done|].
    rewrite Hr in Hr1. split; [done|]. by eexists.
  - runs_step. eapply runs_mono; [by apply modify_admin_runs|].
    intros w1 _ (Hok1 & Hc1 & _). runs_step. by apply Hgo.
Qed.

Lemma admin_execute_answered w a t tag s sqe :
  world_ok w -> w_role w = Admin a -> exec_slot w tag s -> Sqe_wf sqe ->
  runs (admin_execute a t tag sqe) w (answered w (sqe_cid sqe)).
Proof.
  intros Hok Hr Hsl Hwf. unfold admin_execute.
  case_match; [apply done_runs; by eapply identify_finished|].
  case_match; [apply done_runs; by apply get_features_finished|].
  case_match; [apply done_runs; by apply set_features_finished|].
  case_match; [apply done_runs; by eapply get_log_page_finished|].
  case_match; [apply done_runs; by apply complete_finished|].
  case_match; [by eapply async_event_answered|].
  apply done_runs. by apply complete_finished.
Qed.

End AdminProofs.
