(* ===== verification/FabricsProofs.v ===== *)
(** * Connect, properties and the enable sequence *)

From S2P Require Import Prelude Pool PoolProofs PoolSafety PoolData Backend.
From S2P Require Import BackendProofs SegIO SlotQ SlotQProofs Registry Subsystem.
From S2P Require Import Spec Fabrics Identify Dispatch FabricsExec Admin.
From S2P Require Import ExecLaws AdminProofs.

Section FabricsProofs.
Context {B : Type} {BK : Backend B} {ST : Store B}.
Implicit Types (w : World B) (o : Outcome) (a : AdminState).

(** ** Registry steps of a world *)

Lemma world_ok_registry w r : world_ok w -> reg_ok r -> world_ok (set_registry r w).
Proof. intros [] ?. by split. Qed.

Lemma allocate_runs w s h m kt d :
  world_ok w -> qc_qid (w_core w) = 0 ->
  runs (on_registry (allocate s h m kt (queue_info w) d)) w (fun w' r =>
    world_ok w' /\ w' = set_registry (w_registry w') w /\
    match r with
    | inl (Some k) => exists e,
        1 <= k /\ controllers (w_registry w) !! k = None /\
        controllers (w_registry w') = <[k := e]> (controllers (w_registry w)) /\
        ce_cntlid e = k /\ ce_subsys_nqn e = s /\ ce_hostnqn e = h /\ ce_max_qid e = m /\
        ce_kato_ms e = kt /\ ce_queues e = [queue_info w] /\ ce_discovery e = d
    | _ => w_registry w' = w_registry w
    end).
Proof.
  intros Hok Hq. pose proof (wk_registry _ Hok) as Hr. unfold runs, on_registry.
  destruct (allocate_cases (w_registry w) s h m kt (queue_info w) d Hr)
    as [[He _]|(k & r' & He & Hn & Hk & Hc & _)]; rewrite He; cbn [reflect].
  - eexists _, _. split; [done|]. cbn. split; [by apply world_ok_registry|]. done.
  - eexists _, _. split; [done|]. split.
    + apply world_ok_registry; [done|]. eapply reg_step_ok; [exact Hr|].
      by eapply (reg_allocate _ s h m kt (queue_info w) d).
    + split; [done|]. cbn. eexists. rewrite Hc. destruct Hr as [[? ?] _].
      split_and!; try done. lia.
Qed.

Lemma install_runs w c h :
  world_ok w ->
  runs (on_registry (install_io_queue c h (queue_info w))) w (fun w' r =>
    world_ok w' /\ w' = set_registry (w_registry w') w).
Proof.
  intros Hok. pose proof (wk_registry _ Hok) as Hr. unfold runs, on_registry.
  destruct (install_io_queue c h (queue_info w) (w_registry w)) as [r' res] eqn:He.
  assert (Hr' : reg_ok r').
  { eapply reg_step_ok; [exact Hr|]. eapply reg_install; [|exact He]. apply Hok. }
  destruct res as [e|e|].
  3:{ exfalso. revert He. unfold install_io_queue, mbind, M_bind, get, lift, ok_or, fail, modify, mret, M_ret.
      by repeat case_match. }
  all: eexists _, _; split; [done|]; split; [by apply world_ok_registry|done].
Qed.

(** ** Connect *)

(** What an admin Connect may have done. *)
Definition connect_post w a (cmd : ConnectCommand) (nqn host : str) w' o : Prop :=
  exists a', w_role w' = Admin a' /\ ad_regs a' = ad_regs a /\
  ((cqe_status (out_cqe o) = 0 /\ ad_cntlid a = 0 /\
    cd_cntlid (w_connect_data w) = 0xFFFF /\
    (nqn = DISCOVERY_NQN /\ ad_discovery a' = true
     \/ exists s, subsystem (w_port w) nqn = Some s /\ admits s host = true /\
          ad_subsys a' = Some nqn) /\
    exists e, controllers (w_registry w) !! ad_cntlid a' = None /\
      controllers (w_registry w') = <[ad_cntlid a' := e]> (controllers (w_registry w)) /\
      cqe_result (out_cqe o) = ad_cntlid a' /\ 1 <= ad_cntlid a' /\ ce_cntlid e = ad_cntlid a' /\
      ce_subsys_nqn e = nqn /\ ce_hostnqn e = host /\ ce_queues e = [queue_info w] /\
      ce_kato_ms e = ad_kato_ms a')
   \/
   (cqe_status (out_cqe o) <> 0 /\ w_registry w' = w_registry w /\ ad_cntlid a' = ad_cntlid a)).

Lemma refused w w0 a nqn host cmd result cid code :
  world_ok w -> w_role w = Admin a -> qc_qid (w_core w) = qc_qid (w_core w0) ->
  forall a0, w_role w0 = Admin a0 -> ad_regs a = ad_regs a0 -> ad_cntlid a = ad_cntlid a0 ->
  w_registry w = w_registry w0 -> wrap 16 (Z.shiftl code 1) <> 0 ->
  runs (complete result cid code) w (fun w' o =>
    finished w0 cid w' o /\ connect_post w0 a0 cmd nqn host w' o).
Proof.
  intros Hok Hr Hq a0 Hr0 Hrg Hcn Hre Hcode.
  eapply runs_mono; [by apply complete_runs|].
  intros w' o ((Hw' & Hok' & _) & (Hc & Hs & Hres & Hst & _)).
  split; [split; [done|split; congruence]|].
  exists a. rewrite Hw'. cbn. split; [done|]. split; [done|]. right. rewrite Hst. done.
Qed.

Lemma set_stats_cntlid_runs w c :
  world_ok w -> runs (set_stats_cntlid c) w (fun w' _ => core_step w w').
Proof.
  intros Hok. eexists _, tt. split; [reflexivity|]. split; [done|]. split; [|done].
  apply world_ok_core; [done|apply Hok|done].
Qed.

Lemma connect_allocate_runs w w0 a a0 cmd nqn host :
  world_ok w -> w_role w = Admin a -> w_role w0 = Admin a0 ->
  w_core w = w_core w0 -> w_port w = w_port w0 -> w_registry w = w_registry w0 ->
  w_connect_data w = w_connect_data w0 -> queue_info w = queue_info w0 ->
  ad_regs a = ad_regs a0 -> ad_cntlid a = 0 -> ad_cntlid a0 = 0 ->
  (nqn = DISCOVERY_NQN /\ ad_discovery a = true
     \/ exists s, subsystem (w_port w) nqn = Some s /\ admits s host = true /\
          ad_subsys a = Some nqn) ->
  runs (connect_allocate cmd nqn host) w (fun w' o =>
    finished w0 (cn_cid cmd) w' o /\ connect_post w0 a0 cmd nqn host w' o).
Proof.
  intros Hok Hr Hr0 Hc Hp Hre Hcd Hqi Hrg Hz Hz0 Hb.
  assert (Hq0 : qc_qid (w_core w) = 0) by (pose proof (wk_qid _ Hok) as H; by rewrite Hr in H).
  unfold connect_allocate. runs_step. runs_step.
  destruct (Z.eqb_spec (cd_cntlid (w_connect_data w)) 0xFFFF) as [Hff|]; cbn [negb].
  2:{ eapply refused; [done|done|by rewrite Hc|done|done|by rewrite Hz0|done|by vm_compute]. }
  runs_step. eapply runs_mono; [by apply allocate_runs|].
  intros w1 r (Hok1 & Hw1 & Hm). destruct r as [[k|]|[]].
  2:{ eapply (refused w1 w0 a);
        [done|by rewrite Hw1|rewrite Hw1; cbn; by rewrite Hc|done|done|by rewrite Hz0
        |by rewrite Hm|by vm_compute]. }
  destruct Hm as (e & Hk & Hn & Hctl & He1 & He2 & He3 & He4 & He5 & He6 & He7).
  assert (Hr1 : w_role w1 = Admin a) by (by rewrite Hw1).
  runs_step. eapply runs_mono; [by apply modify_admin_runs|].
  intros w2 _ (Hok2 & Hc2 & Hp2 & Hs2 & Hb2 & Hre2 & Hm2 & Hr2). rewrite Hr1 in Hr2.
  runs_step. eapply runs_mono; [by apply set_stats_cntlid_runs|]. intros w3 _ (Hw3 & Hok3 & Hq3).
  runs_step. eapply runs_mono; [by apply modify_admin_runs|].
  intros w4 _ (Hok4 & Hc4 & Hp4 & Hs4 & Hb4 & Hre4 & Hm4 & Hr4).
  assert (Hr3 : w_role w3 = w_role w2) by (by rewrite Hw3). rewrite Hr3, Hr2 in Hr4.
  runs_step. runs_step. runs_step.
  eapply (runs_mono _ _ (fun w5 _ => world_ok w5 /\ w_core w5 = w_core w4 /\
    w_registry w5 = w_registry w4 /\ exists t, w_role w5 = Admin (t (ad_set_kato
      (if (cn_kato cmd =? 0) && bool_decide (nqn = DISCOVERY_NQN) then 120000 else cn_kato cmd)
      (ad_set_cntlid k a))) /\ (t = id \/ exists f, t = ad_set_traffic f))).
  { destruct (traffic (w_registry w4) k) as [f|].
    - eapply runs_mono; [by apply modify_admin_runs|].
      intros w5 _ (H1 & H2 & _ & _ & _ & H3 & _ & H4). rewrite Hr4 in H4. split_and!; try done.
      exists (ad_set_traffic f). split; [done|]. right. by eexists.
    - runs_step. split_and!; try done. exists id. split; [done|by left]. }
  intros w5 _ (Hok5 & Hc5 & Hre5 & t & Hr5 & Ht).
  eapply runs_mono; [by apply complete_runs|].
  intros w6 o ((Hw6 & Hok6 & Hq6) & (Hoc & Hos & Hores & Host & _)).
  assert (Hqq : qc_qid (w_core w5) = qc_qid (w_core w0)).
  { rewrite Hc5, Hc4, Hq3, Hc2, Hw1. cbn. by rewrite Hc. }
  assert (Hreg : w_registry w6 = w_registry w1).
  { rewrite Hw6. cbn. rewrite Hre5, Hre4, Hw3. cbn. by rewrite Hre2. }
  split; [split; [done|split; [done|congruence]]|].
  eexists. rewrite Hw6 at 1. cbn [w_role set_core]. split; [exact Hr5|].
  destruct Ht as [->|[f ->]]; cbn; (split; [done|]; left; rewrite Host, Hores, Hreg;
    split; [by vm_compute|]; split; [done|]; split; [congruence|]; split;
    [destruct Hb as [[??]|(su & ? & ? & ?)]; [by left|right; exists su; rewrite <- Hp; done]|];
    exists e; rewrite <- Hre, <- Hqi; split_and!; try done; lia).
Qed.

(** The role alone is replaced. *)
Lemma modify_admin_role w a f :
  w_role w = Admin a -> modify_admin f w = (set_role (Admin (f a)) w, Ok (E := never) tt).
Proof. intros Hr. unfold modify_admin, modify. by rewrite Hr. Qed.

Lemma world_ok_admin w a a' : world_ok w -> w_role w = Admin a -> world_ok (set_role (Admin a') w).
Proof. intros [? ? ? ? ? ? Hq] Hr. rewrite Hr in Hq. by split. Qed.

Lemma connect_admin_runs w a cmd nqn host :
  world_ok w -> w_role w = Admin a ->
  runs (connect_admin a cmd nqn host) w (fun w' o =>
    finished w (cn_cid cmd) w' o /\ connect_post w a cmd nqn host w' o).
Proof.
  intros Hok Hr. unfold connect_admin.
  destruct (Z.eqb_spec (ad_cntlid a) 0) as [Hz|]; cbn [negb].
  2:{ eapply refused; try done; by vm_compute. }
  runs_step. unfold connect_resolve. runs_step. runs_step.
  destruct (bool_decide (nqn = DISCOVERY_NQN)) eqn:Hd.
  { apply bool_decide_eq_true in Hd. runs_step.
    eexists _, tt. split; [by apply modify_admin_role|]. runs_step.
    eapply (connect_allocate_runs (set_role (Admin (ad_set_discovery true a)) w) w); try done.
    - by eapply world_ok_admin.
    - by left. }
  destruct (subsystem (w_port w) nqn) as [s|] eqn:Hs.
  2:{ runs_step. eapply runs_mono; [eapply (refused w w a); try done; by vm_compute|].
      intros w' o H. runs_step. runs_step. exact H. }
  destruct (admits s host) eqn:Ha; cbn [negb].
  2:{ runs_step. eapply runs_mono; [eapply (refused w w a); try done; by vm_compute|].
      intros w' o H. runs_step. runs_step. exact H. }
  runs_step. eexists _, tt. split; [by apply modify_admin_role|]. runs_step.
  eapply (connect_allocate_runs (set_role (Admin (ad_set_subsys (Some nqn) a)) w) w); try done.
  - by eapply world_ok_admin.
  - right. by exists s.
Qed.

Lemma modify_io_runs w f :
  world_ok w -> (forall i, io_ns_cache (f i) = io_ns_cache i) ->
  runs (modify_io f) w (fun w' _ => world_ok w' /\ w_core w' = w_core w /\ w_port w' = w_port w).
Proof.
  intros Hok Hf. unfold modify_io. runs_step. destruct (w_role w) as [|i] eqn:Hr; [done|].
  split; [|done]. destruct Hok as [? ? ? ? ? Hro ?]. split; try done. cbn in *. rewrite Hr in Hro.
  cbn in Hro. by rewrite Hf.
Qed.

Lemma runs_io_step w w0 (m : M (World B) never unit) Q :
  world_ok w -> qc_qid (w_core w) = qc_qid (w_core w0) ->
  runs m w (fun w' _ => world_ok w' /\ qc_qid (w_core w') = qc_qid (w_core w)) ->
  (forall w', world_ok w' -> qc_qid (w_core w') = qc_qid (w_core w0) -> Q w' tt) ->
  runs m w Q.
Proof. intros _ Hq Hm HQ. eapply runs_mono; [exact Hm|]. intros w' [] [? ?]. apply HQ; congruence. Qed.

Lemma io_step_qid w f :
  world_ok w -> (forall i, io_ns_cache (f i) = io_ns_cache i) ->
  runs (modify_io f) w (fun w' _ => world_ok w' /\ qc_qid (w_core w') = qc_qid (w_core w)).
Proof.
  intros Hok Hf. eapply runs_mono; [by apply modify_io_runs|]. intros w' _ (? & -> & _). done.
Qed.

Lemma connect_io_finished w i cmd host :
  world_ok w -> runs (connect_io i cmd host) w (finished w (cn_cid cmd)).
Proof.
  intros Hok. unfold connect_io. case_match; [by apply complete_finished|].
  runs_step. runs_step. runs_step. eapply runs_mono; [by apply install_runs|].
  intros w1 r (Hok1 & Hw1). assert (Hq1 : qc_qid (w_core w1) = qc_qid (w_core w)) by (by rewrite Hw1).
  destruct r as [e|err]; [|by apply complete_finished].
  runs_step. eapply runs_io_step; [done|exact Hq1|by apply io_step_qid|]. intros w2 Hok2 Hq2.
  runs_step. eapply runs_io_step; [done|exact Hq2| |].
  { eapply runs_mono; [by apply set_stats_cntlid_runs|]. by intros ? ? (_ & ? & ?). }
  intros w3 Hok3 Hq3.
  runs_step. eapply runs_io_step; [done|exact Hq3|by apply io_step_qid|]. intros w4 Hok4 Hq4.
  runs_step. eapply runs_io_step; [done|exact Hq4| |].
  { case_match; [by apply io_step_qid|by runs_step]. }
  intros w5 Hok5 Hq5. runs_step. eapply runs_io_step; [done|exact Hq5| |].
  { case_match; [by apply io_step_qid|by runs_step]. }
  intros w6 Hok6 Hq6. by apply complete_finished.
Qed.

Lemma connect_finished w sqe :
  world_ok w -> Sqe_wf sqe -> runs (connect sqe) w (finished w (sqe_cid sqe)).
Proof.
  intros Hok Hwf. unfold connect. runs_step. runs_step. rewrite ConnectCommand_cid by done.
  case_match; [by apply complete_finished|].
  rewrite <- (ConnectCommand_cid sqe Hwf).
  destruct (w_role w) eqn:Hr; [|by apply connect_io_finished].
  eapply runs_mono; [by apply connect_admin_runs|]. by intros ? ? [? _].
Qed.

(** ** Properties *)

Lemma property_get_finished w a cmd : world_ok w -> runs (property_get a cmd) w (finished w (pr_cid cmd)).
Proof.
  intros Hok. unfold property_get.
  assert (Hreply : forall v, runs (c ← cqe 0 (pr_cid cmd) status.SUCCESS;
    mret {| out_cqe := {| cqe_result := wrap 32 v; cqe_rsvd := wrap 32 (Z.shiftr v 32);
              cqe_sq_head := cqe_sq_head c; cqe_sq_id := cqe_sq_id c;
              cqe_cid := cqe_cid c; cqe_status := cqe_status c |}; out_data_len := 0 |})
    w (finished w (pr_cid cmd))).
  { intros v. destruct (with_data_runs w 0 (pr_cid cmd) status.SUCCESS 0 Hok)
      as (w' & o & He & (_ & Hok' & _) & Hc & Hs & _).
    unfold with_data, mbind, M_bind in He. runs_step.
    destruct (cqe 0 (pr_cid cmd) status.SUCCESS w) as [w1 [c|e|]] eqn:Hcq; [|done..].
    unfold mret, M_ret in He. simplify_eq. eexists _, _. split; [exact Hcq|]. runs_step. by split. }
  repeat case_match; first [apply Hreply|by apply complete_finished].
Qed.

Lemma property_finished w sqe fct :
  world_ok w -> Sqe_wf sqe -> runs (property sqe fct) w (finished w (sqe_cid sqe)).
Proof.
  intros Hok Hwf. unfold property. rewrite <- (PropertyCommand_cid sqe Hwf). runs_step. runs_step.
  destruct (w_role w); [|by apply complete_finished].
  case_match; [by apply property_get_finished|].
  repeat case_match; first [by apply admin_then_complete|by apply complete_finished].
Qed.

Lemma Sqe_byte4 sqe : exists b, Sqe_bytes sqe !! 4%nat = Some b.
Proof. eexists. reflexivity. Qed.

Lemma fabrics_execute_finished w sqe :
  world_ok w -> Sqe_wf sqe -> runs (fabrics_execute sqe) w (finished w (sqe_cid sqe)).
Proof.
  intros Hok Hwf. unfold fabrics_execute. destruct (Sqe_byte4 sqe) as [b Hb].
  runs_step. apply (runs_lift _ (byte.unsigned b)); [by rewrite Hb|].
  case_match; [by apply connect_finished|].
  case_match; [by apply property_finished|by apply complete_finished].
Qed.

(** C38. Connect on an admin queue creates at most one controller, for an
    admitted host only.  It always completes; on success the queue was unbound,
    the host asked for a dynamic controller of a subsystem that admits it (or
    of the discovery subsystem), and exactly one fresh id is added to the
    registry, for this queue, and returned; on any refusal, a second Connect
    included, the registry and the queue's controller id are unchanged. *)
Theorem connect_admin_spec w a sqe :
  world_ok w -> w_role w = Admin a -> Sqe_wf sqe ->
  let cmd := ConnectCommand_view (Sqe_bytes sqe) in
  let nqn := nqn_str (cd_subsysnqn (w_connect_data w)) in
  let host := nqn_str (cd_hostnqn (w_connect_data w)) in
  exists w' o, connect sqe w = (w', Ok o) /\ world_ok w' /\
    cqe_cid (out_cqe o) = sqe_cid sqe /\ connect_post w a cmd nqn host w' o /\
    (ad_cntlid a <> 0 -> cqe_status (out_cqe o) <> 0 /\ w_registry w' = w_registry w).
Proof.
  intros Hok Hr Hwf cmd nqn host.
  assert (Hc : runs (connect sqe) w (fun w' o => finished w (sqe_cid sqe) w' o /\
    connect_post w a cmd nqn host w' o)).
  { unfold connect. runs_step. runs_step. fold cmd. fold nqn host. rewrite Hr.
    rewrite <- (ConnectCommand_cid sqe Hwf). fold cmd.
    case_match; [|by apply connect_admin_runs]. eapply refused; try done; by vm_compute. }
  destruct Hc as (w' & o & He & [Hok' [Hcid _]] & Hp). exists w', o. split_and!; try done.
  intros Hnz. destruct Hp as (a' & _ & _ & [(_ & ? & _)|(? & ? & _)]); done.
Qed.

End FabricsProofs.
