(* ===== verification/IoProofs.v ===== *)
(** * IO commands against a store, and the dispatcher *)

From S2P Require Import Prelude Pool PoolProofs PoolSafety PoolData Backend.
From S2P Require Import BackendProofs SegIO SlotQ SlotQProofs Registry Subsystem.
From S2P Require Import Spec Fabrics Identify Dispatch FabricsExec Admin.
From S2P Require Import Io ExecLaws AdminProofs FabricsProofs.

(** ** Command parsing *)

Lemma lor_bound w a b : 0 <= w -> in_u w a -> in_u w b -> in_u w (Z.lor a b).
Proof.
  intros Hw [Ha1 Ha2] [Hb1 Hb2]. split; [by apply Z.lor_nonneg|].
  destruct (Z.eq_dec (Z.lor a b) 0) as [->|Hn]; [by apply Z.pow_pos_nonneg|].
  assert (0 <= Z.lor a b) by (by apply Z.lor_nonneg). apply Z.log2_lt_pow2; [lia|].
  rewrite Z.log2_lor by done. apply Z.max_lub_lt.
  - destruct (Z.eq_dec a 0) as [->|]; [|apply Z.log2_lt_pow2; lia].
    cbn. destruct (Z.eq_dec w 0) as [->|]; [|lia]. rewrite Z.lor_0_l in Hn. cbn in *. lia.
  - destruct (Z.eq_dec b 0) as [->|]; [|apply Z.log2_lt_pow2; lia].
    cbn. destruct (Z.eq_dec w 0) as [->|]; [|lia]. rewrite Z.lor_0_r in Hn. cbn in *. lia.
Qed.

Lemma rw_ranges sqe :
  Sqe_wf sqe -> in_u 64 (rw_slba (RwCommand_parse sqe)) /\ in_u 16 (rw_nlb (RwCommand_parse sqe)).
Proof.
  intros (_ & _ & _ & _ & _ & _ & _ & _ & [H1 H2] & [H3 H4] & [H5 _] & _). cbn. split.
  - apply lor_bound; [lia|unfold in_u; lia|]. rewrite Z.shiftl_mul_pow2 by lia. split; lia.
  - change 0xFFFF with (Z.ones 16). rewrite Z.land_ones by lia. apply Z.mod_pos_bound. lia.
Qed.

Section IoProofs.
Context {B : Type} {BK : Backend B} {ST : Store B}.
Variable ring_index : Z -> option Z.
Implicit Types (w : World B) (o : Outcome).

(** A transfer that passed validation. *)
Definition transfer_ok (b : B) (rw : RwCommand) (len : Z) : Prop :=
  in_u 64 (rw_slba rw) /\ 0 < len <= MDTS_BYTES /\ (2 ^ block_shift b | len) /\
  rw_slba rw + len / 2 ^ block_shift b <= nr_blocks b.

Lemma backend_shift b : store_ok b -> 0 <= block_shift b < 32 /\ 0 < 2 ^ block_shift b.
Proof.
  intros Hs. destruct (geometry_ok b Hs) as [Hg _]. split; [lia|]. apply Z.pow_pos_nonneg; lia.
Qed.

Lemma checked_len_cases b sqe :
  store_ok b -> Sqe_wf sqe ->
  (exists code, checked_len b sqe = Err code /\ wrap 16 (Z.shiftl code 1) <> 0) \/
  exists len, checked_len b sqe = Ok (RwCommand_parse sqe, len) /\
    transfer_ok b (RwCommand_parse sqe) len /\
    len = (rw_nlb (RwCommand_parse sqe) + 1) * 2 ^ block_shift b.
Proof.
  intros Hb Hwf. destruct (backend_shift b Hb) as [Hsh Hp]. destruct (rw_ranges sqe Hwf) as [Hsl [Hn1 Hn2]].
  set (rw := RwCommand_parse sqe) in *. unfold checked_len. fold rw. cbv zeta. unfold assert.
  destruct (Z.ltb_spec (block_shift b) 64); [|lia]. cbn [mbind res_bind].
  assert (Hpow : 2 ^ block_shift b <= 2 ^ 31) by (apply Z.pow_le_mono_r; lia).
  rewrite Z.shiftl_mul_pow2 by lia.
  rewrite wrap_small by (unfold in_u; nia).
  set (len := (rw_nlb rw + 1) * 2 ^ block_shift b).
  destruct (Z.ltb_spec MDTS_BYTES len); [left; eexists; split; [done|by vm_compute]|].
  destruct (negb _); [left; eexists; split; [done|by vm_compute]|].
  unfold check_range, checked_add. case_decide as Hd; [|left; eexists; split; [done|by vm_compute]].
  destruct (Z.ltb_spec (nr_blocks b) (rw_slba rw + (rw_nlb rw + 1)));
    [left; eexists; split; [done|by vm_compute]|].
  right. exists len. cbn. rewrite wrap_small by (unfold in_u, MDTS_BYTES in *; nia).
  split; [done|]. split; [|done]. unfold transfer_ok, len. rewrite Z.div_mul by lia.
  split_and!; try done; try apply Z.divide_factor_r; try lia; unfold len in *; nia.
Qed.

(** ** Backend calls *)

Lemma world_ok_backend w i b b' mm :
  world_ok w -> w_backends w !! i = Some b -> store_ok b' ->
  world_ok (set_store (<[i := b']> (w_backends w)) mm w).
Proof.
  intros [? ? ? Hb Hp Hr ?] Hi Hb'. split; cbn; rewrite ?length_insert; try done.
  by apply Forall_insert.
Qed.

Lemma blocked_mono bs bs' l : (bs | bs') -> blocked bs' l -> blocked bs l.
Proof.
  intros Hd Hl. eapply list.Forall_impl; [exact Hl|]. cbn. intros g [? ?].
  split; [done|]. by etransitivity.
Qed.

Lemma block_divides_page (b : B) : 0 <= block_shift b <= 12 -> (2 ^ block_shift b | PAGE).
Proof.
  intros H. exists (2 ^ (12 - block_shift b)).
  rewrite <- Z.pow_add_r by lia. by replace (12 - block_shift b + block_shift b) with 12 by lia.
Qed.

(** Validated transfers between a store and the buffers of the command layer. *)
Lemma page_valid b d rw len :
  store_ok b -> transfer_ok b rw len -> page_buf d len -> valid_io b (segs d) (rw_slba rw) len.
Proof.
  intros Hb (Ha & Hl & Hd & Hr) (Hsg & Ht & Hn & Hbl & Hmax). destruct (backend_shift b Hb) as [Hs _].
  split; try done; [|lia]. intros H12. eapply blocked_mono; [by apply block_divides_page; lia|done].
Qed.

Lemma payload_valid b s rw len :
  store_ok b -> transfer_ok b rw len -> payload_ok s -> data_len s = len -> valid_io b (segs (data s)) (rw_slba rw) len.
Proof.
  intros Hb (Ha & Hl & Hd & Hr) (Ht & Hsg & Hmax & Hbl) Hdl. destruct (backend_shift b Hb) as [Hs _].
  split; try done; [|lia]. intros H12. destruct Hbl as [Hbl|(g & Hg & Hgl)].
  - eapply blocked_mono; [by apply block_divides_page; lia|done].
  - rewrite Hg. constructor; [|done]. destruct Hgl as [?|Hgl]; [lia|]. rewrite Hgl, Hdl. split; [lia|done].
Qed.

(** What a store answered, as the handler sees it. *)
Definition answer (x : unit + BackendError) : res BackendError unit :=
  match x with inl _ => Ok tt | inr e => Err e end.

Lemma answer_of (r : res BackendError unit) : r <> Panic -> exists x, r = answer x.
Proof. destruct r as [[]|e|]; [by exists (inl tt)|by exists (inr e)|done]. Qed.

(** A call that ended: the handler goes on with its answer, an error included. *)
Lemma on_backend_runs w i b (m : M (B * mem) BackendError unit) b' mm x :
  world_ok w -> w_backends w !! i = Some b -> m (b, w_mem w) = ((b', mm), answer x) -> store_ok b' ->
  runs (on_backend i m) w (fun w' y =>
    y = x /\ world_ok w' /\ w' = set_store (<[i := b']> (w_backends w)) mm w).
Proof.
  intros Hok Hi Hm Hb'. unfold runs, on_backend. rewrite Hi, Hm.
  exists (set_store (<[i := b']> (w_backends w)) mm w), x. split; [by destruct x as [[]|e]|].
  split; [done|]. split; [by eapply world_ok_backend|done].
Qed.

Lemma on_disk_runs w i b (m : M B BackendError unit) b' x :
  world_ok w -> w_backends w !! i = Some b -> m b = (b', answer x) -> store_ok b' ->
  runs (on_disk i m) w (fun w' y =>
    y = x /\ world_ok w' /\ w' = set_store (<[i := b']> (w_backends w)) (w_mem w) w).
Proof. intros Hok Hi Hm Hb'. eapply on_backend_runs; try done. unfold on_store. by rewrite Hm. Qed.

(** ** Completions of IO commands *)

Lemma err_outcome_runs w cid code k :
  world_ok w -> room k w -> 1 <= k ->
  runs (err_outcome cid code) w (fun w' o =>
    core_step w w' /\ replied cid (qc_qid (w_core w)) 0 code 0 o).
Proof.
  intros Hok Hr Hk. unfold err_outcome. runs_step.
  eapply runs_mono; [apply (stat_add_runs w Errors 1 k); [done|done|lia]|].
  intros w1 _ (Hs1 & _). pose proof Hs1 as (_ & Hok1 & Hq1).
  eapply runs_mono; [by apply complete_runs|]. intros w2 o (Hs2 & Hrep).
  split; [by eapply core_step_trans|]. by rewrite <- Hq1.
Qed.

Definition backend_code (r : unit + BackendError) : Z :=
  match r with inl _ => status.SUCCESS | inr e => nvme_status e end.

Lemma map_backend_runs w cid r len k :
  world_ok w -> room k w -> 1 <= k ->
  runs (map_backend cid r len) w (fun w' o => core_step w w' /\
    replied cid (qc_qid (w_core w)) 0 (backend_code r) (match r with inl _ => len | inr _ => 0 end) o).
Proof.
  intros Hok Hr Hk. destruct r as [u|e]; [by apply with_data_runs|]. by eapply err_outcome_runs.
Qed.

(** ** Read *)

(** One poll of [lease_await]: a buffer is installed, or the task is queued. *)
Lemma lease_await_runs w tag s n t :
  world_ok w -> exec_slot w tag s -> 1 <= n ->
  runs (on_slots (lease_await_poll tag n t)) w (fun w' b =>
    world_ok w' /\ w' = set_slots (w_slots w') w /\
    if b : bool then exists d, buf_step w tag s d w' /\ page_buf d n
    else slots (w_slots w') = slots (w_slots w)).
Proof.
  intros Hok (Ht & Hs & Hst) Hn. destruct (wk_slots _ Hok) as (rss & res & Ha).
  pose proof (ok_pool _ _ _ Ha) as Hp. pose proof Hp as (Hwf & Hl & Hsa & Hcov).
  rewrite <- (Z2Nat.id tag) by done. set (i := Z.to_nat tag) in *.
  unfold runs, on_slots, lease_await_poll, on_pool, alloc_await_poll, mbind, M_bind.
  destruct (alloc_part _ _ _ _ n Hp) as [He|(p' & d & rs & He & Hip & Hle & Hp' & _)]; rewrite He.
  - cbv beta iota. eexists _, _. split; [reflexivity|].
    assert (Hok' : world_ok (set_slots (set_pool (set_waiters (waiters (pool (w_slots w)) ++ [t])
      (pool (w_slots w))) (w_slots w)) w)).
    { apply world_ok_slots; [done|]. exists rss, res. destruct Ha as [? ? ? ? ? ? ? ?].
      split; try done. }
    done.
  - cbv beta iota. assert (Hh : slot_holds p' d rs) by (by unfold slot_holds; rewrite Hip).
    destruct (set_data_ok _ _ rs _ i s d p' Ha Hs ltac:(congruence) Hp' Hh)
      as (a' & Hset & Ha' & Hsl & _).
    cbv [mret M_ret]. rewrite Hset. eexists _, _. split; [reflexivity|].
    assert (Hok' : world_ok (set_slots a' w)) by (apply world_ok_slots; eauto).
    split; [done|]. split; [done|]. exists d. split.
    + split; [done|]. split; [done|]. cbn. unfold i. by rewrite Hsl, ?Nat2Z.id.
    + pose proof (alloc_len _ _ _ _ Hwf He) as Hsl'. pose proof (pages_for_bytes n).
      destruct (lease_page_buf _ _ _ _ _ _ Hp' Hle (alloc_length _ _ _ _ He)) as (H1 & H2 & _ & H4 & H5). split_and!; try done. lia.
Qed.

(** A read that is done called the store once, on its own buffer, and answers
    what the store answered. *)
Definition read_post w tag (s : Slot Sqe) i b (cid : Z) rw len w' (p : Progress) : Prop :=
  world_ok w' /\ w_port w' = w_port w /\ w_role w' = w_role w /\
  match p with
  | Parked k => k = AwaitLease i cid rw len /\ w_backends w' = w_backends w
  | Done o => exists d idx b' x,
      slots (w_slots w') = <[Z.to_nat tag := SlotQ.with_data d s]> (slots (w_slots w)) /\
      valid_io b (segs d) (rw_slba rw) len /\
      read_segs (rw_slba rw) (segs d) len idx (b, w_mem w) = ((b', w_mem w'), answer x) /\
      w_backends w' = <[i := b']> (w_backends w) /\ same_geometry b b' /\
      replied cid (qc_qid (w_core w)) 0 (backend_code x) (match x with inl _ => len | inr _ => 0 end) o
  end.

Lemma await_lease_runs w t i tag s cid rw len b k :
  world_ok w -> exec_slot w tag s -> w_backends w !! i = Some b -> transfer_ok b rw len ->
  room k w -> MDTS_BYTES < k ->
  runs (await_lease ring_index t i tag cid rw len) w (read_post w tag s i b cid rw len).
Proof.
  intros Hok Hsl Hi Htr Hroom Hk. pose proof Htr as (_ & Hlen & _). unfold await_lease.
  runs_step. eapply runs_mono; [apply lease_await_runs; [done|done|lia]|].
  intros w1 leased (Hok1 & Hw1 & Hl). destruct leased.
  2:{ runs_step. rewrite Hw1. rewrite Hw1 in Hok1. by split. }
  destruct Hl as (d & Hb & Hpb). pose proof (exec_slot_buf _ _ _ _ _ Hsl Hb) as Hsl1.
  assert (Hst : store_ok b) by (by eapply Forall_lookup_1; [apply Hok|]).
  pose proof (page_valid b d rw len Hst Htr Hpb) as Hv.
  unfold done, read_leased. runs_step. runs_step.
  eapply runs_mono; [by apply on_slots_slot|]. intros ? ? [-> ->].
  runs_step. runs_step. runs_step. cbn [data SlotQ.with_data]. set (idx := buf_index _ _ _).
  destruct (read_safe b (w_mem w1) (segs d) (rw_slba rw) len idx Hst Hv) as (b' & mm & r & He & Hr & Hb' & Hg & _).
  destruct (answer_of r Hr) as (x & ->).
  eapply runs_mono; [by apply (on_backend_runs w1 i b _ b' mm x); [|rewrite Hw1| |]|].
  intros w2 y (-> & Hok2 & Hw2). runs_step.
  eapply (runs_mono _ _ (fun w3 _ => core_step w2 w3 /\ room (k - len) w3)).
  { destruct x; [apply stat_add_runs; [done|by rewrite Hw2, Hw1|lia]|].
    runs_step. split; [by apply core_step_refl|]. rewrite Hw2, Hw1. intros c. specialize (Hroom c). cbn. lia. }
  intros w3 _ ((Hw3 & Hok3 & Hq3) & Hr3).
  eapply runs_mono; [apply (map_backend_runs w3 cid x len (k - len)); [done|done|unfold MDTS_BYTES in *; lia]|].
  intros w4 o ((Hw4 & Hok4 & Hq4) & Hrep). runs_step.
  split; [done|]. rewrite Hw4, Hw3, Hw2. cbn. rewrite Hw1. cbn. do 2 (split; [done|]).
  exists d, idx, b', x. split; [apply Hb|]. split; [done|]. split; [by rewrite Hw1 in He|]. split; [done|]. split; [done|].
  by rewrite Hq3, Hw2, Hw1 in Hrep.
Qed.

Definition refused_post w (cid code : Z) w' o : Prop :=
  core_step w w' /\ wrap 16 (Z.shiftl code 1) <> 0 /\ replied cid (qc_qid (w_core w)) 0 code 0 o.

(** Why a write is refused before it reaches the store. *)
Definition write_refused b (s : Slot Sqe) sqe (code : Z) : Prop :=
  checked_len b sqe = Err code \/
  exists rw len, checked_len b sqe = Ok (rw, len) /\ data_len s <> len /\ code = status.dnr status.DATA_XFER_ERROR.

Lemma read_runs w t ns tag s sqe b k :
  world_ok w -> exec_slot w tag s -> Sqe_wf sqe -> w_backends w !! ns_backend ns = Some b ->
  room k w -> MDTS_BYTES < k ->
  runs (read ring_index t ns tag sqe) w (fun w' p =>
    (exists o code, p = Done o /\ checked_len b sqe = Err code /\ refused_post w (sqe_cid sqe) code w' o) \/
    exists len, checked_len b sqe = Ok (RwCommand_parse sqe, len) /\
      transfer_ok b (RwCommand_parse sqe) len /\
      read_post w tag s (ns_backend ns) b (sqe_cid sqe) (RwCommand_parse sqe) len w' p).
Proof.
  intros Hok Hsl Hwf Hi Hroom Hk. unfold MDTS_BYTES in Hk. unfold read. runs_step. runs_step.
  runs_step. apply (runs_lift _ b); [by rewrite Hi|]. runs_step.
  assert (Hb : store_ok b) by (by eapply Forall_lookup_1; [apply Hok|]).
  destruct (checked_len_cases b sqe Hb Hwf) as [(code & He & Hnz)|(len & He & Htr & _)]; rewrite He.
  - apply (runs_lift _ (inr code)); [done|]. unfold done. runs_step.
    eapply runs_mono; [apply (err_outcome_runs w _ _ k); [done|done|lia]|].
    intros w' o [? ?]. runs_step. left. by exists o, code.
  - apply (runs_lift _ (inl (RwCommand_parse sqe, len))); [done|].
    eapply runs_mono; [by apply (await_lease_runs w t _ tag s _ _ len b k)|].
    intros w' p Hp. right. by exists len.
Qed.

(** ** Write *)

(** A write calls the store once on the slot's payload, then, with FUA and after
    a success, flushes; it answers what the last call answered. *)
Definition write_calls w (s : Slot Sqe) b rw len b' (x : unit + BackendError) : Prop :=
  exists idx b1 x1, write_segs (rw_slba rw) (segs (data s)) len idx (b, w_mem w) = ((b1, w_mem w), answer x1) /\
    store_ok b1 /\ same_geometry b b1 /\
    match x1, rw_fua rw with
    | inl _, true => b_flush b1 = (b', answer x)
    | _, _ => b' = b1 /\ x = x1
    end.

Definition write_post w (i : nat) (s : Slot Sqe) b cid rw len w' o : Prop :=
  world_ok w' /\ w_port w' = w_port w /\ w_role w' = w_role w /\
  qc_qid (w_core w') = qc_qid (w_core w) /\ w_mem w' = w_mem w /\ w_slots w' = w_slots w /\
  exists b' x, write_calls w s b rw len b' x /\ w_backends w' = <[i := b']> (w_backends w) /\ same_geometry b b' /\
    replied cid (qc_qid (w_core w)) 0 (backend_code x) 0 o.

Lemma same_geometry_trans (b1 b2 b3 : B) : same_geometry b1 b2 -> same_geometry b2 b3 -> same_geometry b1 b3.
Proof. unfold same_geometry. intros [] []. split; congruence. Qed.

Lemma write_backend_runs w i b s rw len :
  world_ok w -> w_backends w !! i = Some b -> transfer_ok b rw len ->
  payload_ok s -> data_len s = len ->
  runs (write_backend ring_index i (data s) rw len) w (fun w' x => exists b',
    world_ok w' /\ w' = set_store (<[i := b']> (w_backends w)) (w_mem w) w /\ write_calls w s b rw len b' x /\
    same_geometry b b').
Proof.
  intros Hok Hi Htr Hp Hdl. unfold write_backend. runs_step. runs_step. runs_step. set (idx := buf_index _ _ _).
  assert (Hst : store_ok b) by (by eapply Forall_lookup_1; [apply Hok|]).
  pose proof (payload_valid b s rw len Hst Htr Hp Hdl) as Hv.
  destruct (write_safe b (w_mem w) (segs (data s)) (rw_slba rw) len idx Hst Hv) as (b1 & r & He & Hr & Hb1 & Hg1).
  destruct (answer_of r Hr) as (x1 & ->).
  eapply runs_mono; [by apply (on_backend_runs w i b _ b1 (w_mem w) x1)|]. intros w1 y (-> & Hok1 & Hw1).
  assert (Hstop : match x1, rw_fua rw with inl _, true => False | _, _ => True end ->
    exists b', world_ok w1 /\ w1 = set_store (<[i := b']> (w_backends w)) (w_mem w) w /\
      write_calls w s b rw len b' x1 /\ same_geometry b b').
  { intros Hx. exists b1. split_and!; try done. exists idx, b1, x1. split_and!; try done.
    by destruct x1, (rw_fua rw). }
  destruct x1 as [u|e]; [|by runs_step; apply Hstop]. destruct (rw_fua rw) eqn:Hfua; [|by runs_step; apply Hstop].
  destruct (flush_safe b1 Hb1) as (b2 & r2 & Hfl & Hr2 & Hb2 & Hg2). destruct (answer_of r2 Hr2) as (x2 & ->).
  assert (Hi1 : w_backends w1 !! i = Some b1).
  { rewrite Hw1. apply list_lookup_insert_eq. by eapply lookup_lt_Some. }
  eapply runs_mono; [by apply (on_disk_runs w1 i b1 b_flush b2 x2)|]. intros w2 y (-> & Hok2 & Hw2).
  exists b2. split; [done|]. split; [rewrite Hw2, Hw1; cbn; by rewrite list_insert_insert_eq|].
  split; [|by eapply same_geometry_trans]. exists idx, b1, (inl u). by rewrite Hfua.
Qed.

Lemma write_runs w ns tag s sqe b k :
  world_ok w -> exec_slot w tag s -> payload_ok s -> Sqe_wf sqe ->
  w_backends w !! ns_backend ns = Some b -> room k w -> MDTS_BYTES < k ->
  runs (write ring_index ns tag sqe) w (fun w' o =>
    (exists code, write_refused b s sqe code /\ refused_post w (sqe_cid sqe) code w' o) \/
    exists len, checked_len b sqe = Ok (RwCommand_parse sqe, len) /\
      transfer_ok b (RwCommand_parse sqe) len /\ data_len s = len /\
      write_post w (ns_backend ns) s b (sqe_cid sqe) (RwCommand_parse sqe) len w' o).
Proof.
  intros Hok Hsl Hp Hwf Hi Hroom Hk. unfold MDTS_BYTES in Hk. unfold write. runs_step. runs_step.
  runs_step. apply (runs_lift _ b); [by rewrite Hi|]. runs_step.
  assert (Hb : store_ok b) by (by eapply Forall_lookup_1; [apply Hok|]).
  assert (Herr : forall code, wrap 16 (Z.shiftl code 1) <> 0 ->
    runs (err_outcome (sqe_cid sqe) code) w (refused_post w (sqe_cid sqe) code)).
  { intros code Hnz. eapply runs_mono; [apply (err_outcome_runs w _ _ k); [done|done|lia]|]. by intros w' o [? ?]. }
  destruct (checked_len_cases b sqe Hb Hwf) as [(code & He & Hnz)|(len & He & Htr & _)]; rewrite He.
  { apply (runs_lift _ (inr code)); [done|]. eapply runs_mono; [by apply Herr|].
    intros w' o Hr. left. exists code. split; [by left|done]. }
  apply (runs_lift _ (inl (RwCommand_parse sqe, len))); [done|].
  runs_step. eapply runs_mono; [by apply on_slots_slot|]. intros ? ? [-> ->].
  destruct (Z.eqb_spec (data_len s) len) as [Hdl|Hdl]; cbn [negb].
  2:{ eapply runs_mono; [apply (Herr (status.dnr status.DATA_XFER_ERROR)); by vm_compute|].
      intros w' o Hr. left. eexists. split; [right; by exists (RwCommand_parse sqe), len|exact Hr]. }
  runs_step. eapply runs_mono; [by apply (write_backend_runs w _ b s)|].
  intros w1 x (b' & Hok1 & Hw1 & Hcalls & Hg). runs_step.
  pose proof Htr as (_ & Hlen & _). unfold MDTS_BYTES in Hlen.
  eapply (runs_mono _ _ (fun w2 _ => core_step w1 w2 /\ room (k - len) w2)).
  { destruct x; [apply stat_add_runs; [done|by rewrite Hw1|lia]|].
    runs_step. split; [by apply core_step_refl|]. rewrite Hw1. intros c. specialize (Hroom c). cbn. lia. }
  intros w2 _ ((Hw2 & Hok2 & Hq2) & Hr2).
  eapply runs_mono; [apply (map_backend_runs w2 (sqe_cid sqe) x 0 (k - len)); [done|done|lia]|].
  intros w3 o ((Hw3 & Hok3 & Hq3) & Hrep). right. exists len. do 3 (split; [done|]).
  split; [done|]. rewrite Hw3, Hw2, Hw1. cbn. do 2 (split; [done|]).
  assert (Hq0 : qc_qid (w_core w2) = qc_qid (w_core w)) by (by rewrite Hq2, Hw1).
  split; [by rewrite Hq3, Hq0|]. do 2 (split; [done|]). exists b', x. split_and!; try done. rewrite <- Hq0.
  destruct Hrep as (?&?&?&?&Hz). split_and!; try done. by destruct x.
Qed.

(** ** Data-set management *)

Lemma gather_ok {E} dst off chunks :
  (off + length (concat chunks) <= length dst)%nat ->
  exists d, gather (E := E) dst off chunks = Ok d /\ length d = length dst.
Proof.
  revert dst off. induction chunks as [|c r IH]; intros dst off Hl; [by exists dst|].
  cbn [gather concat] in *. rewrite length_app in Hl. rewrite copy_into_ok by lia. cbn [mbind res_bind].
  destruct (IH (take off dst ++ c ++ drop (off + length c) dst) (off + length c)%nat) as (d & -> & Hd);
    [blen|]. exists d. split; [done|]. rewrite Hd. blen.
Qed.

Lemma dsm_ranges_ok {E} bs l :
  Forall (fun i => (i * 16 + 16 <= length bs)%nat) l -> exists rs, dsm_ranges (E := E) bs l = Ok rs.
Proof.
  induction 1 as [|i l Hi _ [rs IH]]; [by exists []|]. cbn [dsm_ranges]. unfold dsm_range, read_from_bytes.
  rewrite decide_True by (unfold bytes_at; blen). cbn [expect mbind res_bind].
  rewrite IH. by eexists.
Qed.

Lemma finished_core w w0 cid w' result code len o :
  qc_qid (w_core w) = qc_qid (w_core w0) -> core_step w w' ->
  replied cid (qc_qid (w_core w)) result code len o -> finished w0 cid w' o.
Proof. intros Hq (_ & Hok & _) (Hc & Hs & _). split; [done|]. split; congruence. Qed.

Lemma map_backend_finished w w0 cid r len k :
  world_ok w -> qc_qid (w_core w) = qc_qid (w_core w0) -> room k w -> 1 <= k ->
  runs (map_backend cid r len) w (finished w0 cid).
Proof.
  intros Hok Hq Hr Hk. eapply runs_mono; [by eapply map_backend_runs|].
  intros w' o [Hs Hrep]. by eapply finished_core.
Qed.

Lemma err_outcome_finished w w0 cid code k :
  world_ok w -> qc_qid (w_core w) = qc_qid (w_core w0) -> room k w -> 1 <= k ->
  runs (err_outcome cid code) w (finished w0 cid).
Proof.
  intros Hok Hq Hr Hk. eapply runs_mono; [by eapply err_outcome_runs|].
  intros w' o [Hs Hrep]. by eapply finished_core.
Qed.

(** A backend method and its completion. *)
Lemma on_disk_finished w w0 i b (m : M B BackendError unit) cid len k :
  world_ok w -> qc_qid (w_core w) = qc_qid (w_core w0) -> room k w -> 1 <= k ->
  w_backends w !! i = Some b ->
  (exists b' r, m b = (b', r) /\ r <> Panic /\ store_ok b' /\ same_geometry b b') ->
  runs (on_disk i m ≫= fun r => map_backend cid r len) w (finished w0 cid).
Proof.
  intros Hok Hq Hr Hk Hi (b' & r & Hm & Hp & Hb' & _). destruct (answer_of r Hp) as (x & ->). runs_step.
  eapply runs_mono; [by eapply on_disk_runs|]. intros w1 y (-> & Hok1 & Hw1).
  eapply map_backend_finished; [done|by rewrite Hw1| |exact Hk]. by rewrite Hw1.
Qed.

(** Whatever follows the parsing of the ranges, parsing does not fail. *)
Lemma dsm_runs w ns tag s sqe Q :
  exec_slot w tag s -> payload_ok s ->
  (forall code, runs (err_outcome (sqe_cid sqe) code) w Q) -> runs (complete 0 (sqe_cid sqe) status.SUCCESS) w Q ->
  (forall rs, runs (on_disk (ns_backend ns) (b_discard rs) ≫= fun r => map_backend (sqe_cid sqe) r 0) w Q) ->
  runs (dsm ns tag sqe) w Q.
Proof.
  intros Hsl (Hdl & Hsg & _) Herr Hdone Hdisk. unfold dsm.
  runs_step. eapply runs_mono; [by apply on_slots_slot|]. intros ? ? [-> ->].
  set (nr := Z.to_nat (Z.land (sqe_cdw10 sqe) 255 + 1)).
  destruct (Z.ltb_spec (data_len s) (Z.of_nat (nr * 16))); [apply Herr|].
  case_match; [exact Hdone|]. runs_step. runs_step. runs_step.
  destruct (each_loop_spec (w_mem w) (segs (data s)) 0 (Z.of_nat (nr * 16)) Hsg) as (chunks & Hch & Hcc);
    [lia..|].
  apply (runs_lift _ chunks). { unfold for_each_seg. by rewrite Hch. }
  assert (Hcl : (length (concat chunks) <= nr * 16)%nat) by (rewrite Hcc, length_take; lia).
  destruct (gather_ok (E := never) (zeroes (nr * 16)) 0 chunks) as (bs & Hg & Hbl).
  { unfold zeroes. rewrite length_replicate. lia. }
  runs_step. apply (runs_lift _ bs); [done|].
  destruct (dsm_ranges_ok (E := never) bs (seq 0 nr)) as (rs & Hrs).
  { apply list.Forall_forall. intros j Hj%elem_of_seq. rewrite Hbl. unfold zeroes.
    rewrite length_replicate. lia. }
  runs_step. apply (runs_lift _ rs); [done|]. apply Hdisk.
Qed.

Lemma dsm_finished w w0 ns tag s sqe b k :
  world_ok w -> qc_qid (w_core w) = qc_qid (w_core w0) -> exec_slot w tag s -> payload_ok s ->
  room k w -> 1 <= k -> w_backends w !! ns_backend ns = Some b ->
  runs (dsm ns tag sqe) w (finished w0 (sqe_cid sqe)).
Proof.
  intros Hok Hq Hsl Hp Hroom Hk Hi. apply (dsm_runs _ _ _ s); try done.
  - intros code. by eapply err_outcome_finished.
  - by apply complete_finished.
  - intros rs. eapply on_disk_finished; try done. apply discard_safe. by eapply Forall_lookup_1; [apply Hok|].
Qed.

(** An error of a store is an error to the host. *)
Lemma backend_code_zero x : wrap 16 (Z.shiftl (backend_code x) 1) = 0 -> x = inl tt.
Proof. by destruct x as [[]|[]]; vm_compute. Qed.

Lemma write_zeroes_range sqe :
  Sqe_wf sqe -> range_typed {| slba := rw_slba (RwCommand_parse sqe); nlb := rw_nlb (RwCommand_parse sqe) + 1 |}.
Proof. intros Hwf. destruct (rw_ranges sqe Hwf) as [H1 H2]. split; [done|]. unfold in_u in *. cbn [nlb]. lia. Qed.
End IoProofs.
