(* ===== verification/ExecSafety.v ===== *)
(** * Every command is answered: the dispatcher's theorems

    No command panics or breaks the invariant, and each is answered or parked;
    data written is read back, and failed IO is contained. *)

From S2P Require Import Prelude Pool PoolProofs PoolSafety PoolData Backend.
From S2P Require Import BackendProofs SegIO SlotQ SlotQProofs Registry Subsystem.
From S2P Require Import Spec Fabrics Identify Dispatch FabricsExec Admin.
From S2P Require Import Io ExecLaws AdminProofs FabricsProofs IoProofs.

Section ExecSafety.
Context {B : Type} {BK : Backend B} {ST : Store B}.
Variable ring_index : Z -> option Z.
Implicit Types (w : World B) (o : Outcome).

(** The counters have room for one more command. *)
Definition command_room : Z := 2 ^ 18.

Lemma NsCache_get_ok n s c :
  table_ok n (ss_namespaces s) -> (forall t, cache_map c = Some t -> table_ok n t) ->
  exists c' t, NsCache_get s c = (c', Ok t) /\ table_ok n t /\
    (forall t, cache_map c' = Some t -> table_ok n t).
Proof.
  intros Hs Hc. unfold NsCache_get, mbind, M_bind, get. cbv beta iota zeta.
  destruct (cache_stale c (ss_generation s)) eqn:Hst.
  - eexists _, _. split; [reflexivity|]. cbn. split; [done|]. by intros t [= <-].
  - unfold cache_stale in Hst. apply orb_false_elim in Hst as [_ Hn%bool_decide_eq_false].
    destruct (cache_map c) as [t|] eqn:Hm; [|done]. exists c, t. cbn. rewrite Hm. cbn.
    split; [done|]. split; [by apply Hc|]. intros t' Ht'. apply Hc. congruence.
Qed.

Lemma ns_table_runs w i s :
  world_ok w -> w_role w = IoQueue i -> table_ok (length (w_backends w)) (ss_namespaces s) ->
  runs (ns_table i s) w (fun w' t =>
    world_ok w' /\ table_ok (length (w_backends w)) t /\
    (NsCache_get s (io_ns_cache i)).2 = Ok t /\
    exists c, w' = set_role (IoQueue (io_set_cache c i)) w).
Proof.
  intros Hok Hr Ht. pose proof (wk_role _ Hok) as Hro. rewrite Hr in Hro.
  destruct (NsCache_get_ok _ s (io_ns_cache i) Ht Hro) as (c & t & He & Htt & Hcc).
  unfold ns_table. rewrite He. unfold modify_io. runs_step. runs_step. rewrite Hr.
  apply (runs_lift _ t); [done|]. split; [|split; [done|split; [done|by exists c]]].
  destruct Hok as [? ? ? ? ? ? ?]. by split.
Qed.

Lemma room_core k k' w w' : w_core w' = w_core w -> k' <= k -> room k w -> room k' w'.
Proof. intros Hc Hk Hr c. rewrite Hc. specialize (Hr c). lia. Qed.

Lemma exec_slot_same w w' tag s : w_slots w' = w_slots w -> exec_slot w tag s -> exec_slot w' tag s.
Proof. unfold exec_slot. by intros ->. Qed.

(** After the command counter: every opcode on a namespace is answered. *)
Lemma io_command_answered w t ns tag s sqe :
  world_ok w -> exec_slot w tag s -> payload_ok s -> Sqe_wf sqe -> room command_room w ->
  (ns_backend ns < length (w_backends w))%nat ->
  runs (io_command ring_index t ns tag sqe) w (answered w (sqe_cid sqe)).
Proof.
  intros Hok Hsl Hp Hwf Hroom Hn. destruct (backend_lookup w _ Hok Hn) as (b & Hi & Hb).
  unfold io_command.
  assert (Hstat : forall c (m : M (World B) never Progress),
    (forall w1, w1 = set_core (w_core w1) w -> world_ok w1 ->
       qc_qid (w_core w1) = qc_qid (w_core w) -> room (command_room - 1) w1 ->
       runs m w1 (answered w (sqe_cid sqe))) ->
    runs (stat_add c 1 ≫= fun _ => m) w (answered w (sqe_cid sqe))).
  { intros c m Hm. runs_step. eapply runs_mono;
      [apply (stat_add_runs w c 1 command_room); [done|done|unfold command_room; lia]|].
    intros w1 _ ((Hw1 & Hok1 & Hq1) & Hr1). by apply Hm. }
  repeat case_match; apply Hstat; intros w1 Hw1 Hok1 Hq1 Hr1;
    assert (Hi1 : w_backends w1 !! ns_backend ns = Some b) by (by rewrite Hw1);
    assert (Hsl1 : exec_slot w1 tag s) by (by rewrite Hw1).
  - apply done_runs. eapply on_disk_finished; try done. by apply flush_safe.
  - eapply runs_mono; [by apply (read_runs _ w1 t ns tag s sqe b (command_room - 1))|].
    intros w2 p [(o & code & -> & _ & Hs2 & _ & Hrep)|(len & _ & Htr & Hok2 & Hp2 & Hr2 & Hm)].
    + destruct (finished_core w1 w _ w2 _ _ _ o Hq1 Hs2 Hrep). by split.
    + split; [done|]. destruct p as [o|k].
      * destruct Hm as (d & idx & b' & x & _ & _ & _ & _ & _ & (Hc & Hs & _)). split; [done|]. by rewrite Hs.
      * destruct Hm as [-> Hb2]. destruct Htr as (H1 & H2 & H3 & H4). cbn. split_and!; try done; try apply H1; try lia.
        exists b. rewrite Hb2. done.
  - apply done_runs. eapply runs_mono; [by apply (write_runs _ w1 ns tag s sqe b (command_room - 1))|].
    intros w2 o [(code & _ & Hs2 & _ & Hrep)|(len & _ & _ & _ & Hok2 & _ & _ & Hq2 & _ & _ & b' & x & _ & _ & _ & Hrep)].
    + by eapply (finished_core w1).
    + destruct Hrep as (Hc & Hs & _). split; [done|]. split; congruence.
  - apply done_runs. eapply on_disk_finished; try done. by apply write_zeroes_safe, write_zeroes_range.
  - apply done_runs. eapply (dsm_finished w1 w ns tag s sqe b (command_room - 1)); done.
  - apply done_runs. eapply (err_outcome_finished w1 w _ _ (command_room - 1)); done.
Qed.

Lemma answered_role w c i cid w' p :
  answered (set_role (IoQueue (io_set_cache c i)) w) cid w' p -> answered w cid w' p.
Proof. done. Qed.

Lemma io_execute_answered w i t tag s sqe :
  world_ok w -> w_role w = IoQueue i -> exec_slot w tag s -> payload_ok s -> Sqe_wf sqe ->
  room command_room w ->
  runs (io_execute ring_index i t tag sqe) w (answered w (sqe_cid sqe)).
Proof.
  intros Hok Hr Hsl Hp Hwf Hroom. unfold io_execute. runs_step. runs_step.
  assert (Herr : forall w1 code, world_ok w1 -> w_core w1 = w_core w ->
    runs (done (err_outcome (sqe_cid sqe) code)) w1 (answered w (sqe_cid sqe))).
  { intros w1 code Hok1 Hc1. apply done_runs.
    eapply (err_outcome_finished w1 w _ _ command_room); [done|by rewrite Hc1| |done].
    eapply room_core; [exact Hc1| |exact Hroom]. lia. }
  destruct (io_subsys i ≫= subsystem (w_port w)) as [su|] eqn:Hsu; [|by apply Herr].
  assert (Ht : table_ok (length (w_backends w)) (ss_namespaces su)).
  { destruct (io_subsys i) as [n|]; [|done]. cbn in Hsu. by apply (wk_port _ Hok) in Hsu. }
  runs_step. eapply runs_mono; [by apply ns_table_runs|].
  intros w1 tb (Hok1 & Htb & _ & c & Hw1).
  destruct (tb !! sqe_nsid sqe) as [ns|] eqn:Hns; [|apply Herr; [done|by rewrite Hw1]].
  apply Htb in Hns as (_ & Hn & _). eapply runs_mono.
  { apply (io_command_answered w1 t ns tag s sqe); try done; rewrite Hw1; done. }
  intros w2 p Ha. rewrite Hw1 in Ha. by eapply answered_role.
Qed.

Lemma execute_answered w t tag s sqe :
  world_ok w -> exec_slot w tag s -> payload_ok s -> room command_room w -> Sqe_wf sqe ->
  runs (execute ring_index t tag sqe) w (answered w (sqe_cid sqe)).
Proof.
  intros Hok Hsl Hp Hroom Hwf.
  unfold execute. apply runs_bind, runs_get, runs_bind.
  eapply runs_mono; [by apply modify_admin_runs|].
  intros w1 _ (Hok1 & Hc1 & Hp1 & Hs1 & Hb1 & Hre1 & Hm1 & Hr1).
  assert (Hsl1 : exec_slot w1 tag s) by (by eapply exec_slot_same).
  assert (Hroom1 : room command_room w1) by (eapply room_core; [exact Hc1| |exact Hroom]; lia).
  assert (Hstat : forall (m : M (World B) never Progress),
    (forall w2, w2 = set_core (w_core w2) w1 -> world_ok w2 ->
       qc_qid (w_core w2) = qc_qid (w_core w1) -> runs m w2 (answered w1 (sqe_cid sqe))) ->
    runs (stat_add OtherCmds 1 ≫= fun _ => m) w1 (answered w (sqe_cid sqe))).
  { intros m Hm. runs_step. eapply runs_mono;
      [apply (stat_add_runs w1 OtherCmds 1 command_room); [done|done|unfold command_room; lia]|].
    intros w2 _ ((Hw2 & Hok2 & Hq2) & _). eapply runs_mono; [by apply Hm|].
    intros w3 p Ha. unfold answered in *. by rewrite Hc1 in Ha. }
  destruct (sqe_opcode sqe =? admin_opcode.FABRICS).
  { apply Hstat. intros w2 Hw2 Hok2 Hq2. apply done_runs.
    eapply runs_mono; [by apply fabrics_execute_finished|].
    intros w3 o [? [? Hs]]. split; [done|]. split; [done|]. by rewrite Hs. }
  runs_step. runs_step. destruct (w_role w1) as [a|i] eqn:Hrole.
  2:{ eapply runs_mono; [by apply (io_execute_answered w1 i t tag s)|].
      intros w2 p Ha. unfold answered in *. by rewrite Hc1 in Ha. }
  apply Hstat. intros w2 Hw2 Hok2 Hq2.
  destruct (negb _); [apply done_runs; by apply complete_finished|].
  eapply runs_mono.
  { apply (admin_execute_answered w2 a t tag s); [done|by rewrite Hw2|by rewrite Hw2|done]. }
  intros w3 p Ha. unfold answered in *. by rewrite Hq2 in Ha.
Qed.

Lemma resume_answered w t tag s cid k :
  world_ok w -> exec_slot w tag s -> room command_room w -> await_ok w cid k ->
  runs (resume ring_index t tag k) w (answered w cid).
Proof.
  intros Hok Hsl Hroom Hk.
  destruct k as [i c rw len|c]; cbn [resume].
  + destruct Hk as (-> & Hsl64 & Hlen & b & Hi & Hd & Hr).
    eapply runs_mono; [by apply (await_lease_runs _ w t i tag s cid rw len b command_room)|].
    intros w' p (Hok' & _ & _ & Hm). split; [done|]. destruct p as [o|k].
    * destruct Hm as (d & idx & b' & x & _ & _ & _ & _ & _ & (Hc & Hs & _)). by split.
    * destruct Hm as [-> Hb']. cbn. split_and!; try done; try apply Hsl64; try lia. exists b. by rewrite Hb'.
  + destruct Hk as (-> & a & Hr). by eapply async_event_answered.
Qed.

(** C7. Every command is answered, on every queue and whatever its store does:
    in any state of a connection that satisfies the invariant, dispatching any
    well-formed SQE neither panics nor fails, keeps the invariant, and either
    completes with the command's own CID and queue id or parks, a parked read or
    event request being resumable in the same way.  The stores are any that keep
    [Store]: a read, write, flush, discard or write-zeroes may fail with any error
    and may have been carried out in part; it only may not panic, break its own
    invariant or geometry, or touch memory outside the command's buffer.  The
    memory, null and file backends and their enum keep it ([FileLaws], files
    under any kernel that reports no more bytes than it was given). *)
Theorem execute_safe w t tag s :
  world_ok w -> exec_slot w tag s -> payload_ok s -> room command_room w ->
  (forall sqe, Sqe_wf sqe ->
     exists w' p, execute ring_index t tag sqe w = (w', Ok p) /\ answered w (sqe_cid sqe) w' p) /\
  (forall cid k, await_ok w cid k ->
     exists w' p, resume ring_index t tag k w = (w', Ok p) /\ answered w cid w' p).
Proof.
  intros Hok Hsl Hp Hroom. split; intros; [by eapply execute_answered|by eapply resume_answered].
Qed.

End ExecSafety.

Section ExecData.
Context {B : Type} {BK : Backend B} {ST : Store B} {DK : Disk B}.
Variable ring_index : Z -> option Z.
Implicit Types (w : World B) (o : Outcome).

(** ** Routing of an IO command to its namespace *)

(** The command reaches namespace [ns] through the connection's cached table. *)
Definition routes w (sqe : Sqe) (ns : Namespace) : Prop :=
  exists i su tb, w_role w = IoQueue i /\ io_subsys i ≫= subsystem (w_port w) = Some su /\
    (NsCache_get su (io_ns_cache i)).2 = Ok tb /\ tb !! sqe_nsid sqe = Some ns.

Lemma NsCache_get_again su c c' tb :
  NsCache_get su c = (c', Ok tb) -> NsCache_get su c' = (c', Ok tb).
Proof.
  unfold NsCache_get, mbind, M_bind, get. cbv beta iota zeta.
  destruct (cache_stale c (ss_generation su)) eqn:Hst.
  - cbn. intros [= <- <-]. unfold cache_stale. cbn. by rewrite Z.eqb_refl.
  - cbn. intros H. assert (c' = c) as -> by (unfold lift in H; by simplify_eq).
    rewrite Hst. exact H.
Qed.

Lemma execute_routed w t tag sqe ns :
  world_ok w -> routes w sqe ns -> sqe_opcode sqe <> admin_opcode.FABRICS ->
  exists w1, execute ring_index t tag sqe w = io_command ring_index t ns tag sqe w1 /\
    world_ok w1 /\ (ns_backend ns < length (w_backends w))%nat /\
    w_slots w1 = w_slots w /\ w_core w1 = w_core w /\ w_port w1 = w_port w /\
    w_backends w1 = w_backends w /\ w_mem w1 = w_mem w /\
    (forall sqe', sqe_nsid sqe' = sqe_nsid sqe -> routes w1 sqe' ns).
Proof.
  intros Hok (i & su & tb & Hr & Hsu & Htb & Hns) Hop.
  assert (Ht : table_ok (length (w_backends w)) (ss_namespaces su)).
  { destruct (io_subsys i) as [n|]; [|done]. cbn in Hsu. by apply (wk_port _ Hok) in Hsu. }
  destruct (ns_table_runs w i su Hok Hr Ht) as (w1 & tb' & He & Hok1 & Htt & Hg & c & Hw1).
  rewrite Htb in Hg. simplify_eq. exists (set_role (IoQueue (io_set_cache c i)) w).
  split.
  { unfold execute. rewrite get_bind. erewrite bind_ok.
    2:{ unfold modify_admin, modify. rewrite Hr. reflexivity. }
    destruct (Z.eqb_spec (sqe_opcode sqe) admin_opcode.FABRICS); [done|].
    rewrite get_bind, Hr. unfold io_execute. rewrite get_bind, Hsu.
    rewrite (bind_ok _ _ _ _ _ He). by rewrite Hns. }
  split; [done|]. split; [by apply Htt in Hns as (_ & ? & _)|]. do 5 (split; [done|]).
  intros sqe' Hn. exists (io_set_cache c i), su, tb'. cbn. split; [done|]. split; [done|].
  split; [|by rewrite Hn].
  assert (Hc : NsCache_get su (io_ns_cache i) = (c, Ok tb')).
  { unfold ns_table in He. destruct (NsCache_get su (io_ns_cache i)) as [c0 r0] eqn:Hg0. cbn in Htb.
    subst r0. f_equal. unfold modify_io, modify, lift, mbind, M_bind in He. rewrite Hr in He.
    by injection He. }
  by rewrite (NsCache_get_again _ _ _ _ Hc).
Qed.

(** ** What the two commands do, from the dispatcher *)

(** A write that reports success has stored its payload. *)
Lemma write_effect w t tag s sqe ns b w' o :
  world_ok w -> room command_room w -> routes w sqe ns -> Sqe_wf sqe ->
  w_backends w !! ns_backend ns = Some b -> retains b ->
  sqe_opcode sqe = io_opcode.WRITE -> exec_slot w tag s -> payload_ok s ->
  execute ring_index t tag sqe w = (w', Ok (Done o)) -> cqe_status (out_cqe o) = 0 ->
  exists len b', checked_len b sqe = Ok (RwCommand_parse sqe, len) /\
    transfer_ok b (RwCommand_parse sqe) len /\ data_len s = len /\ world_ok w' /\ w_slots w' = w_slots w /\
    (forall sqe', sqe_nsid sqe' = sqe_nsid sqe -> routes w' sqe' ns) /\
    w_backends w' !! ns_backend ns = Some b' /\ retains b' /\ same_geometry b b' /\
    forall x, disk b' x = mem_write (disk b) (rw_slba (RwCommand_parse sqe) * 2 ^ block_shift b)
      (take (Z.to_nat len) (flat (w_mem w) (segs (data s)))) x.
Proof.
  intros Hok Hroom Hrt Hwf Hi Hret Hop Hsl Hp Hex Hst.
  destruct (execute_routed w t tag sqe ns Hok Hrt) as
    (wa & He & Hoka & Hin & Hsa & Hca & Hpa & Hba & Hma & Hrta); [by rewrite Hop|].
  assert (Hb : store_ok b) by (by eapply Forall_lookup_1; [apply Hok|]).
  rewrite He in Hex. unfold io_command in Hex. rewrite Hop in Hex. cbn -[stat_add done] in Hex.
  destruct (stat_add_runs wa WriteCmds 1 command_room) as (wb & [] & Hsb & (Hwb & Hokb & Hqb) & Hrb);
    [done|by eapply room_core; [exact Hca| |exact Hroom]|done|].
  rewrite (bind_ok _ _ _ _ _ Hsb) in Hex.
  destruct (write_runs ring_index wb ns tag s sqe b (command_room - 1)) as (wc & oc & Hwc & Hpost);
    try done; [by rewrite Hwb; eapply exec_slot_same; [exact Hsa|]|by rewrite Hwb; cbn; rewrite Hba|].
  unfold done in Hex. rewrite (bind_ok _ _ _ _ _ Hwc) in Hex. injection Hex as <- <-.
  destruct Hpost as [(code & _ & _ & Hnz & (_ & _ & _ & Hs & _))|
    (len & Hck & Htr & Hdl & Hokc & Hpc & Hrc & _ & Hmc & Hsc & b' & x & Hcalls & Hbk & Hg & (_ & _ & _ & Hs & _))];
    [congruence|].
  rewrite Hst in Hs. symmetry in Hs. apply backend_code_zero in Hs. subst x.
  destruct Hcalls as (idx & b1 & x1 & Hw1 & Hb1 & Hg1 & Hx1).
  pose proof (payload_valid b s _ len Hb Htr Hp Hdl) as Hv.
  destruct (write_disk _ _ _ _ _ _ _ _ _ Hb Hret Hv Hw1) as (Hret1 & _ & Hd1).
  assert (retains b' /\ x1 = inl tt /\ forall x, disk b' x = disk b1 x) as (Hret' & -> & Hd').
  { destruct x1 as [[]|e]; [|by destruct Hx1]. destruct (rw_fua _); [|by destruct Hx1 as [-> _]].
    destruct (flush_disk _ _ _ Hb1 Hret1 Hx1). done. }
  assert (Hmb : w_mem wb = w_mem w) by (rewrite Hwb; exact Hma).
  exists len, b'. split; [done|]. split; [done|]. split; [done|]. split; [done|].
  rewrite Hwb in *. cbn in *. split; [congruence|]. split.
  { intros sqe' Hn. destruct (Hrta sqe' Hn) as (i & su & tb & H1 & H2 & H3 & H4).
    exists i, su, tb. rewrite Hrc, Hpc. done. }
  rewrite Hbk, Hba. split; [apply list_lookup_insert_eq; by eapply lookup_lt_Some|]. split; [done|]. split; [done|].
  intros x. by rewrite Hd', Hd1, Hmb by done.
Qed.

(** A read whose transfer is valid calls the store. *)
Lemma read_effect w t tag s sqe ns b :
  world_ok w -> room command_room w -> Sqe_wf sqe -> sqe_opcode sqe = io_opcode.READ ->
  exec_slot w tag s -> w_backends w !! ns_backend ns = Some b ->
  runs (io_command ring_index t ns tag sqe) w (fun w' p =>
    forall len, checked_len b sqe = Ok (RwCommand_parse sqe, len) ->
      read_post w tag s (ns_backend ns) b (sqe_cid sqe) (RwCommand_parse sqe) len w' p).
Proof.
  intros Hok Hroom Hwf Hop Hsl Hi. unfold io_command. rewrite Hop. cbn -[stat_add].
  runs_step. eapply runs_mono; [by apply (stat_add_runs w ReadCmds 1 command_room)|].
  intros w1 _ ((Hw1 & Hok1 & Hq1) & Hr1).
  eapply runs_mono; [apply (read_runs ring_index w1 t ns tag s sqe b (command_room - 1));
    [done|by rewrite Hw1|done|by rewrite Hw1|done|done]|].
  intros w2 p [(o & code & _ & Hck & _)|(len & Hck & _ & Hpost)] len' Hck'; rewrite Hck in Hck'; [done|injection Hck' as <-].
  unfold read_post in *. rewrite Hw1 in Hpost. cbn in Hpost. by rewrite Hq1 in Hpost.
Qed.

(** ** Write, then read *)

Lemma checked_len_same b b' sqe sqe' rw len :
  same_geometry b b' ->
  rw_slba (RwCommand_parse sqe') = rw_slba (RwCommand_parse sqe) ->
  rw_nlb (RwCommand_parse sqe') = rw_nlb (RwCommand_parse sqe) ->
  sgl_length (sqe_dptr sqe') = sgl_length (sqe_dptr sqe) ->
  checked_len b sqe = Ok (rw, len) -> checked_len b' sqe' = Ok (RwCommand_parse sqe', len).
Proof.
  intros [Hsh Hnr] Hs Hn Hl. unfold checked_len. rewrite Hsh, Hnr, Hs, Hn, Hl. cbv zeta.
  unfold assert. repeat case_match; try done. cbn. unfold mret, res_ret. intros H'.
  destruct (map_err _ _); by simplify_eq/=.
Qed.

Lemma disk_after_write (D D' : mem) p bs :
  (forall x, D' x = mem_write D p bs x) -> mem_read D' p (Z.of_nat (length bs)) = bs.
Proof.
  intros H. rewrite <- (mem_read_written D p bs) at 2. apply mem_read_ext. intros. apply H.
Qed.

(** C8. Data written is data read, and a failure is reported as one: after a
    Write command that completed with success on a namespace whose store retains
    its data (a memory store or a file, not a null device), a Read of the same
    blocks through any slot of the connection waits for a buffer, or calls the
    store once; if that call succeeds, the Read completes with success and its
    buffer starts with exactly the payload the Write's slot held; if it fails,
    the Read completes with the status of the error and no data. *)
Theorem write_then_read w t1 tag1 s1 sqe1 ns b w1 o1 t2 tag2 s2 sqe2 :
  world_ok w -> room command_room w -> w_backends w !! ns_backend ns = Some b -> retains b ->
  routes w sqe1 ns -> Sqe_wf sqe1 -> sqe_opcode sqe1 = io_opcode.WRITE ->
  exec_slot w tag1 s1 -> payload_ok s1 ->
  execute ring_index t1 tag1 sqe1 w = (w1, Ok (Done o1)) -> cqe_status (out_cqe o1) = 0 ->
  room command_room w1 ->
  Sqe_wf sqe2 -> sqe_opcode sqe2 = io_opcode.READ -> sqe_nsid sqe2 = sqe_nsid sqe1 ->
  rw_slba (RwCommand_parse sqe2) = rw_slba (RwCommand_parse sqe1) ->
  rw_nlb (RwCommand_parse sqe2) = rw_nlb (RwCommand_parse sqe1) ->
  sgl_length (sqe_dptr sqe2) = sgl_length (sqe_dptr sqe1) ->
  exec_slot w tag2 s2 ->
  exists w2 p b1 len, execute ring_index t2 tag2 sqe2 w1 = (w2, Ok p) /\ len = data_len s1 /\ 0 < len /\
    w_backends w1 !! ns_backend ns = Some b1 /\
    match p with
    | Parked k => exists i rw, k = AwaitLease i (sqe_cid sqe2) rw len
    | Done o2 => cqe_cid (out_cqe o2) = sqe_cid sqe2 /\
        exists d idx, slots (w_slots w2) = <[Z.to_nat tag2 := SlotQ.with_data d s2]> (slots (w_slots w1)) /\
          match (read_segs (rw_slba (RwCommand_parse sqe1)) (segs d) len idx (b1, w_mem w1)).2 with
          | Ok _ => cqe_status (out_cqe o2) = 0 /\ out_data_len o2 = len /\
              take (Z.to_nat len) (flat (w_mem w2) (segs d)) =
              take (Z.to_nat len) (flat (w_mem w) (segs (data s1)))
          | Err e => cqe_status (out_cqe o2) = wrap 16 (Z.shiftl (nvme_status e) 1) /\ out_data_len o2 = 0
          | Panic => False
          end
    end.
Proof.
  intros Hok Hroom Hi Hret Hrt Hwf1 Hop1 Hsl1 Hp1 Hex Hst Hroom1 Hwf2 Hop2 Hns Hslba Hnlb Hsgl Hsl2.
  destruct (write_effect w t1 tag1 s1 sqe1 ns b w1 o1) as
    (len & b1 & Hck & Htr & Hdl & Hok1 & Hs1 & Hrt1 & Hi' & Hret1 & Hg & Hdk); try done.
  assert (Hrt2 : routes w1 sqe2 ns) by (by apply Hrt1).
  destruct (execute_routed w1 t2 tag2 sqe2 ns Hok1 Hrt2) as
    (wb & He2 & Hokb & _ & Hsb & Hcb & _ & Hbb & Hmb & _); [by rewrite Hop2|].
  assert (Hslb : exec_slot wb tag2 s2) by (eapply exec_slot_same; [|exact Hsl2]; congruence).
  pose proof (checked_len_same b b1 sqe1 sqe2 _ _ Hg Hslba Hnlb Hsgl Hck) as Hck2.
  destruct (read_effect wb t2 tag2 s2 sqe2 ns b1) as (w2 & p & Hrun & Hpost); try done.
  { eapply room_core; [exact Hcb| |exact Hroom1]; lia. } { by rewrite Hbb. }
  exists w2, p, b1, len. rewrite He2. split; [exact Hrun|]. split; [done|].
  destruct Htr as (_ & Hlen & _). split; [lia|]. split; [done|].
  destruct (Hpost len Hck2) as (_ & _ & _ & Hm). destruct p as [o2|k]; [|by destruct Hm as [-> _]; eauto].
  destruct Hm as (d & idx & b2 & x & Hsl & Hv & Hrd & _ & _ & (Hcid & _ & _ & Hst2 & Hdl2)).
  split; [done|]. exists d, idx. rewrite Hsb in Hsl. split; [done|]. rewrite Hmb, Hslba in Hrd. rewrite Hrd. cbn [snd].
  destruct x as [[]|e]; cbn [answer]; [|done]. split; [by rewrite Hst2|]. split; [done|].
  assert (Hb1 : store_ok b1) by (by eapply Forall_lookup_1; [apply Hok1|]). rewrite Hslba in Hv.
  destruct (read_disk _ _ _ _ _ _ _ _ _ Hb1 Hret1 Hv Hrd) as (_ & _ & Hf). rewrite (Hf eq_refl).
  rewrite take_app_length' by (pose proof (mem_read_length (disk b1) (rw_slba (RwCommand_parse sqe1) * 2 ^ block_shift b1) len); lia).
  destruct Hg as [-> _]. destruct Hp1 as (Hpl & Hsg & _).
  rewrite <- (disk_after_write (disk b) (disk b1) (rw_slba (RwCommand_parse sqe1) * 2 ^ block_shift b)
    (take (Z.to_nat len) (flat (w_mem w) (segs (data s1)))) Hdk) at 1.
  f_equal. rewrite length_take. pose proof (flat_length (w_mem w) _ Hsg). lia.
Qed.

(** ** Failed commands *)

(** Store, buffers and slots are as they were. *)
Definition untouched w w' : Prop :=
  w_backends w' = w_backends w /\ w_mem w' = w_mem w /\ w_slots w' = w_slots w.

(** The bytes of its device that a command may have changed when it fails: those
    of the blocks it names, and for data-set management any it lists. *)
Definition may_change b sqe (x : Z) : Prop :=
  sqe_opcode sqe = io_opcode.DSM \/
  (sqe_opcode sqe = io_opcode.WRITE \/ sqe_opcode sqe = io_opcode.WRITE_ZEROES) /\
  in_blocks b (rw_slba (RwCommand_parse sqe)) ((rw_nlb (RwCommand_parse sqe) + 1) * 2 ^ block_shift b) x.

(** A command that validation refuses, or that is not one of the five. *)
Definition refused b (s : Slot Sqe) sqe : Prop :=
  (exists code, sqe_opcode sqe = io_opcode.READ /\ checked_len b sqe = Err code) \/
  (exists code, sqe_opcode sqe = io_opcode.WRITE /\ write_refused b s sqe code) \/
  sqe_opcode sqe ∉ [io_opcode.FLUSH; io_opcode.READ; io_opcode.WRITE; io_opcode.WRITE_ZEROES; io_opcode.DSM].

(** The memory outside the buffer of slot [tag], and the other slots. *)
Definition own_buffer w tag (s : Slot Sqe) w' : Prop :=
  untouched w w' \/
  exists d, slots (w_slots w') = <[Z.to_nat tag := SlotQ.with_data d s]> (slots (w_slots w)) /\
    forall x, (forall g, g ∈ segs d -> ~ in_seg g x) -> w_mem w' x = w_mem w x.

Definition contained w i b tag (s : Slot Sqe) sqe w' o : Prop :=
  cqe_status (out_cqe o) <> 0 ->
  cqe_cid (out_cqe o) = sqe_cid sqe /\ out_data_len o = 0 /\
  (exists b', w_backends w' = <[i := b']> (w_backends w) /\ same_geometry b b' /\
     (retains b -> forall x, ~ may_change b sqe x -> disk b' x = disk b x)) /\
  (if sqe_opcode sqe =? io_opcode.READ then own_buffer w tag s w' else w_mem w' = w_mem w /\ w_slots w' = w_slots w) /\
  (refused b s sqe -> untouched w w').

Lemma core_step_untouched w w0 w' : core_step w w' -> untouched w0 w -> untouched w0 w'.
Proof. intros (-> & _) H. exact H. Qed.

Lemma untouched_contained w i b tag s sqe w' o :
  w_backends w !! i = Some b -> untouched w w' -> cqe_cid (out_cqe o) = sqe_cid sqe -> out_data_len o = 0 ->
  contained w i b tag s sqe w' o.
Proof.
  intros Hi Hu Hc Hd _. pose proof Hu as (H1 & H2 & H3). split; [done|]. split; [done|]. split.
  { exists b. rewrite list_insert_id by done. done. }
  split; [|done]. case_match; [by left|done].
Qed.

Lemma refused_contained w w0 i b tag s sqe code w' o :
  w_backends w0 !! i = Some b -> untouched w0 w -> refused_post w (sqe_cid sqe) code w' o ->
  contained w0 i b tag s sqe w' o.
Proof.
  intros Hi Hu (Hs & _ & Hc & _ & _ & _ & Hd). apply untouched_contained; try done. by eapply core_step_untouched.
Qed.

Lemma err_contained w w0 i b tag s sqe code k :
  world_ok w -> w_backends w0 !! i = Some b -> untouched w0 w -> room k w -> 1 <= k ->
  runs (err_outcome (sqe_cid sqe) code) w (contained w0 i b tag s sqe).
Proof.
  intros Hok Hi Hu Hr Hk. eapply runs_mono; [by eapply err_outcome_runs|].
  intros w' o [Hs (Hc & _ & _ & _ & Hd)]. apply untouched_contained; try done. by eapply core_step_untouched.
Qed.

(** A store call on behalf of a command that was not refused. *)
Lemma on_disk_contained w w0 i b (m : M B BackendError unit) tag s sqe k :
  world_ok w -> w_backends w0 !! i = Some b -> untouched w0 w -> room k w -> 1 <= k ->
  sqe_opcode sqe <> io_opcode.READ -> ~ refused b s sqe ->
  (exists b' r, m b = (b', r) /\ r <> Panic /\ store_ok b' /\ same_geometry b b') ->
  (forall b' r, m b = (b', r) -> retains b -> forall x, ~ may_change b sqe x -> disk b' x = disk b x) ->
  runs (on_disk i m ≫= fun r => map_backend (sqe_cid sqe) r 0) w (contained w0 i b tag s sqe).
Proof.
  intros Hok Hi Hu Hr Hk Hop Hnr (b' & r & Hm & Hp & Hb' & Hg) Hdk. destruct (answer_of r Hp) as (x & ->).
  pose proof Hu as (Hu1 & Hu2 & Hu3). runs_step.
  eapply runs_mono; [eapply (on_disk_runs w i b); [done|by rewrite Hu1|done|done]|]. intros w1 y (-> & Hok1 & Hw1).
  eapply runs_mono; [eapply (map_backend_runs w1 _ x 0 k); [done|by rewrite Hw1|done]|].
  intros w2 o ((Hw2 & _) & (Hc & _ & _ & _ & Hd)) _. rewrite Hw2, Hw1. cbn.
  split; [done|]. split; [by destruct x|]. split; [exists b'; rewrite Hu1; split_and!; try done; by eapply Hdk|].
  rewrite (proj2 (Z.eqb_neq _ _) Hop). split; [done|]. by intros ?%Hnr.
Qed.

Lemma write_contained w w0 ns b tag s sqe k :
  world_ok w -> w_backends w0 !! ns_backend ns = Some b -> untouched w0 w -> room k w -> MDTS_BYTES < k -> Sqe_wf sqe ->
  exec_slot w tag s -> payload_ok s -> sqe_opcode sqe = io_opcode.WRITE ->
  runs (write ring_index ns tag sqe) w (contained w0 (ns_backend ns) b tag s sqe).
Proof.
  intros Hok Hi Hu Hr Hk Hwf Hsl Hp Hop. pose proof Hu as (Hu1 & Hu2 & Hu3).
  assert (Hi1 : w_backends w !! ns_backend ns = Some b) by (by rewrite Hu1).
  assert (Hb : store_ok b) by (by eapply Forall_lookup_1; [apply Hok|]).
  eapply runs_mono; [by eapply (write_runs ring_index w ns tag s sqe b k)|].
  intros w' o [(code & _ & Hpost)|(len & Hck & Htr & Hdl & _ & _ & _ & _ & Hm & Hs & b' & x & Hcalls & Hbk & Hg & Hrep)];
    [by eapply refused_contained|].
  intros _. destruct Hrep as (Hc & _ & _ & _ & Hd). split; [done|]. split; [done|]. split.
  - exists b'. rewrite Hbk, Hu1. split; [done|]. split; [done|]. intros Hret y Hy.
    destruct Hcalls as (idx & b1 & x1 & Hw1 & Hb1 & Hg1 & Hx1).
    destruct (write_disk _ _ _ _ _ _ _ _ _ Hb Hret (payload_valid b s _ len Hb Htr Hp Hdl) Hw1) as (Hret1 & Hd1 & _).
    destruct (checked_len_cases b sqe Hb Hwf) as [(? & He & _)|(len' & He & _ & Hlen)]; [congruence|].
    assert (len = (rw_nlb (RwCommand_parse sqe) + 1) * 2 ^ block_shift b) as -> by congruence.
    rewrite <- Hd1 by (intros Hin; apply Hy; right; split; [by left|done]).
    destruct x1 as [u|e]; [|by destruct Hx1 as [-> _]]. destruct (rw_fua _); [|by destruct Hx1 as [-> _]].
    by destruct (flush_disk _ _ _ Hb1 Hret1 Hx1).
  - rewrite Hop. split; [split; congruence|].
    intros [(code & He & _)|[(code & _ & [He|(rw & l & He & Hne & _)])|Hno]]; [by rewrite Hop in He|congruence..|].
    exfalso. apply Hno. rewrite Hop. set_solver.
Qed.

Lemma read_contained w w0 t ns b tag s sqe k :
  world_ok w -> w_backends w0 !! ns_backend ns = Some b -> untouched w0 w -> room k w -> MDTS_BYTES < k -> Sqe_wf sqe ->
  exec_slot w tag s -> sqe_opcode sqe = io_opcode.READ ->
  runs (read ring_index t ns tag sqe) w (fun w' p => forall o, p = Done o -> contained w0 (ns_backend ns) b tag s sqe w' o).
Proof.
  intros Hok Hi Hu Hr Hk Hwf Hsl Hop. pose proof Hu as (Hu1 & Hu2 & Hu3).
  assert (Hi1 : w_backends w !! ns_backend ns = Some b) by (by rewrite Hu1).
  assert (Hb : store_ok b) by (by eapply Forall_lookup_1; [apply Hok|]).
  eapply runs_mono; [by eapply (read_runs ring_index w t ns tag s sqe b k)|].
  intros w' p [(o & code & -> & _ & Hpost)|(len & Hck & Htr & _ & _ & _ & Hm)] o' Ho'.
  { injection Ho' as <-. by eapply refused_contained. }
  subst p. destruct Hm as (d & idx & b' & x & Hslots & Hv & Hrd & Hbk & Hg & (Hc & _ & _ & Hst & Hd)). intros Hnz.
  destruct x as [u|e]; [by rewrite Hst in Hnz|]. split; [done|]. split; [done|]. split.
  - exists b'. rewrite Hbk, Hu1. split; [done|]. split; [done|]. intros Hret y _.
    by destruct (read_disk _ _ _ _ _ _ _ _ _ Hb Hret Hv Hrd) as (_ & Hd' & _).
  - rewrite Hop. split.
    + right. exists d. rewrite <- Hu3. split; [done|].
      destruct (read_safe b (w_mem w) (segs d) (rw_slba (RwCommand_parse sqe)) len idx Hb Hv) as (b2 & m2 & r2 & He & _ & _ & _ & Hf).
      rewrite Hrd in He. injection He as <- <- <-. rewrite <- Hu2. exact Hf.
    + intros [(code & _ & He)|[(code & He & _)|Hno]]; [congruence|by rewrite Hop in He|].
      exfalso. apply Hno. rewrite Hop. set_solver.
Qed.


End ExecData.
