(* ===== verification/ExecWitness.v ===== *)
(** * Concrete connections on which the dispatcher's theorems apply *)

From S2P Require Import Prelude Pool PoolProofs PoolSafety PoolData Backend.
From S2P Require Import BackendProofs SegIO SlotQ SlotQProofs SlotQSafety Registry.
From S2P Require Import Subsystem SubsystemProofs Spec Fabrics Identify Dispatch.
From S2P Require Import FabricsExec Admin Io ExecLaws AdminProofs.
From S2P Require Import FabricsProofs IoProofs ExecSafety.

(** ** Slots: tag 0 executes a write with a leased 512-byte payload, tag 1 a read *)

Fixpoint ops_run (ops : list (sq_op (C := Sqe))) (a : SlotArray Sqe) : SlotArray Sqe :=
  match ops with [] => a | o :: ops => ops_run ops (run_op o a).1 end.

Fixpoint ops_ok (ops : list (sq_op (C := Sqe))) (a : SlotArray Sqe) : Prop :=
  match ops with
  | [] => True
  | o :: ops => enabled a o /\ (run_op o a).2 = Ok tt /\ ops_ok ops (run_op o a).1
  end.

Lemma ops_reachable ops a : sq_reachable a -> ops_ok ops a -> sq_reachable (ops_run ops a).
Proof.
  revert a. induction ops as [|o ops IH]; intros a Ha; [done|]. intros (He & Hr & Ho).
  apply IH; [|done]. eapply sq_next; [exact Ha|exact He|]. by destruct (run_op o a); cbn in *; subst.
Qed.

Definition slots0 : SlotArray Sqe := Eval vm_compute in
  match SlotArray_new (E := never) 2 0x200000 65536 Sqe_zeroed with
  | Ok a => a
  | _ => {| SlotQ.nslots := 0; slots := []; free_tags := []; executing := 0; tag_waiter := None;
            pool := Build_BufPool 0 0 [] 0 [] None None; events := [] |}
  end.

Definition slot_ops : list (sq_op (C := Sqe)) :=
  [OpClaim; OpLeaseAwait 0 512 1; OpSetDataLen 0 512; OpSubmit 0 Sqe_zeroed; OpAwaitCommand 0 1;
   OpClaim; OpSubmit 1 Sqe_zeroed; OpAwaitCommand 1 2].

Definition slots1 : SlotArray Sqe := Eval vm_compute in ops_run slot_ops slots0.

Lemma slots1_reachable : sq_reachable slots1.
Proof.
  change slots1 with (ops_run slot_ops slots0). apply ops_reachable.
  - by apply (sq_init 2 0x200000 65536 Sqe_zeroed).
  - repeat (split; [first [exact I|eexists; split; [vm_compute; reflexivity|done]]
                   |split; [vm_compute; reflexivity|]]). done.
Qed.

(** ** The connections *)

Definition demo_port : PortConfig :=
  {| pc_traddr := ascii_bytes "10.0.0.1"; pc_trsvcid := ascii_bytes "4420"; pc_trtype := Tcp;
     pc_max_qid := 4; pc_io_queue_size := 128; pc_queue_buf_bytes := 65536;
     pc_recv_buf_bytes := 0; pc_poll := false;
     pc_subsystems := {[ascii_bytes "nqn.a" := demo_sub]} |}.

Definition demo_connect : ConnectData :=
  {| cd_hostid := zeroes 16; cd_cntlid := 0xFFFF; cd_resv4 := zeroes 238;
     cd_subsysnqn := ascii_bytes "nqn.a" ++ zeroes 251;
     cd_hostnqn := ascii_bytes "nqn.h" ++ zeroes 251; cd_resv5 := zeroes 256 |}.

(** A connection whose only namespace is on store [b]. *)
Definition world_on {B} (b : B) (q : Z) (r : Role) : World B :=
  {| w_slots := slots1; w_core := QueueCore_new q 2 false; w_port := demo_port;
     w_registry := demo_reg2; w_connect_data := demo_connect; w_peer := [];
     w_role := r; w_backends := [b]; w_mem := fun _ => Byte.x5a;
     w_now := 1000; w_tid := 7; w_cpus := []; w_heap := 0x40000000; w_woken := [] |}.
Definition demo_world : Z -> Role -> World Memory.MemoryBackend := world_on demo_store.

Definition demo_io : Role :=
  IoQueue {| io_cntlid := 10; io_subsys := Some (ascii_bytes "nqn.a");
    io_ns_cache := NsCache_default; io_traffic := None; io_kato_ms := 0 |}.
Definition demo_ad : AdminState := Eval vm_compute in
  match new_admin (E := never) 0 with
  | Ok (Admin a) => a
  | _ => {| ad_regs := {| r_cc := 0; r_csts := 0; r_cap := 0 |}; ad_cntlid := 0; ad_subsys := None;
      ad_discovery := false; ad_kato_ms := 0; ad_last_heard := 0; ad_traffic := None;
      ad_events := []; ad_aer_wakers := []; ad_aec := 0; ad_ns_changed := false;
      ad_closing := false |}
  end.

Lemma world_on_ok {B} {BK : Backend B} {ST : Store B} (b : B) q r :
  store_ok b -> in_u 16 q -> match r with Admin _ => q = 0 | IoQueue i => io_ns_cache i = NsCache_default end ->
  world_ok (world_on b q r).
Proof.
  intros Hb Hq Hr. split; cbn.
  - split; [done|]. by vm_compute.
  - apply sq_reachable_ok, slots1_reachable.
  - apply reg_reachable_ok, demo_reg2_reachable.
  - by constructor.
  - split; [by vm_compute|]. intros nqn s Hs.
    unfold demo_port in Hs. cbn [pc_subsystems] in Hs. apply lookup_singleton_Some in Hs as [_ <-].
    intros k ns Hk. unfold demo_sub, Subsystem_new in Hk. cbn [ss_namespaces] in Hk.
    apply lookup_singleton_Some in Hk as [<- <-]. split; [by vm_compute|].
    split; [cbn; lia|]. by vm_compute.
  - destruct r as [|i]; [done|]. cbn. by rewrite Hr.
  - by destruct r.
Qed.

Lemma demo_store_fine : store_ok demo_store.
Proof. split; [apply demo_store_ok|cbn; lia]. Qed.

Lemma demo_world_ok q r :
  in_u 16 q -> match r with Admin _ => q = 0 | IoQueue i => io_ns_cache i = NsCache_default end ->
  world_ok (ST := memory_store) (demo_world q r).
Proof. apply world_on_ok, demo_store_fine. Qed.

Lemma room_on {B} (b : B) q r : room command_room (world_on b q r).
Proof. intros c. destruct c; cbn; unfold command_room; lia. Qed.
Lemma demo_room q r : room command_room (demo_world q r).
Proof. apply room_on. Qed.

Definition slot_w : Slot Sqe := Eval vm_compute in default (Slot_new Sqe_zeroed) (slots slots1 !! 0%nat).
Definition slot_r : Slot Sqe := Eval vm_compute in default (Slot_new Sqe_zeroed) (slots slots1 !! 1%nat).

Lemma slot_w_exec_on {B} (b : B) q r : exec_slot (world_on b q r) 0 slot_w.
Proof. split; [done|]. split; [vm_compute; reflexivity|done]. Qed.
Lemma slot_w_exec q r : exec_slot (demo_world q r) 0 slot_w.
Proof. apply slot_w_exec_on. Qed.
Lemma slot_r_exec q r : exec_slot (demo_world q r) 1 slot_r.
Proof. by vm_compute. Qed.

Lemma slot_w_payload : payload_ok slot_w.
Proof.
  assert (Hs : segs (data slot_w) = [{| ptr := 0x200000; seg_len := 4096 |}]) by reflexivity.
  unfold payload_ok. rewrite Hs. change (data_len slot_w) with 512. cbn.
  split; [lia|]. split; [split; [lia|done]|]. split; [unfold MAX_SEGS; lia|]. left.
  constructor; [|constructor]. cbn. unfold PAGE. split; [lia|]. by exists 1.
Qed.

(** One block at LBA 3 of namespace 1. *)
Definition rw_sqe (op : Z) : Sqe :=
  {| sqe_opcode := op; sqe_flags := 0; sqe_cid := 42; sqe_nsid := 1; sqe_cdw2 := 0; sqe_cdw3 := 0;
     sqe_mptr := 0;
     sqe_dptr := {| sgl_addr := 0; sgl_length := 512; sgl_rsvd := zeroes 3; sgl_type := 0 |};
     sqe_cdw10 := 3; sqe_cdw11 := 0; sqe_cdw12 := 0; sqe_cdw13 := 0; sqe_cdw14 := 0; sqe_cdw15 := 0 |}.

Lemma rw_sqe_wf op : in_u 8 op -> Sqe_wf (rw_sqe op).
Proof. intros H. unfold Sqe_wf. cbn. split; [done|]. by vm_compute. Qed.

Definition no_ring : Z -> option Z := fun _ => None.

Lemma routes_on {B} (b : B) q op : routes (world_on b q demo_io) (rw_sqe op) (demo_ns 1).
Proof.
  eexists _, demo_sub, _. split; [reflexivity|]. split; [by vm_compute|].
  split; [reflexivity|]. by vm_compute.
Qed.

Lemma demo_routes q op : routes (demo_world q demo_io) (rw_sqe op) (demo_ns 1).
Proof. apply routes_on. Qed.

(** ** Witnesses *)

Definition connect_sqe : Sqe :=
  Sqe_view ([Byte.x7f; Byte.x00; Byte.x2a; Byte.x00; Byte.x01] ++ zeroes 59).

Lemma connect_admin_spec_witness :
  exists w' o, connect connect_sqe (demo_world 0 (Admin demo_ad)) = (w', Ok o) /\
    cqe_status (out_cqe o) = 0.
Proof.
  destruct (connect_admin_spec (demo_world 0 (Admin demo_ad)) demo_ad connect_sqe) as
    (w' & o & He & _ & _ & _).
  - by apply demo_world_ok.
  - reflexivity.
  - apply Sqe_view_wf. vm_compute. lia.
  - exists w', o. split; [exact He|]. revert He.
    assert (Hc : (connect connect_sqe (demo_world 0 (Admin demo_ad))).2 =
      Ok {| out_cqe := Cqe_new 11 1 0 42 0; out_data_len := 0 |}) by (vm_compute; reflexivity).
    intros He. rewrite He in Hc. cbn in Hc. by injection Hc as ->.
Defined.

Definition after_write : World Memory.MemoryBackend :=
  (execute no_ring 1 0 (rw_sqe io_opcode.WRITE) (demo_world 1 demo_io)).1.
Definition write_outcome : Outcome := {| out_cqe := Cqe_new 0 1 1 42 0; out_data_len := 0 |}.

Lemma write_succeeds :
  execute no_ring 1 0 (rw_sqe io_opcode.WRITE) (demo_world 1 demo_io) =
    (after_write, Ok (Done write_outcome)).
Proof.
  unfold after_write. rewrite (surjective_pairing (execute _ _ _ _ _)) at 1. f_equal.
Qed.

Lemma write_then_read_witness :
  exists w2 o2 d,
    execute no_ring 2 1 (rw_sqe io_opcode.READ) after_write = (w2, Ok (Done o2)) /\
    cqe_status (out_cqe o2) = 0 /\ out_data_len o2 = 512 /\
    slots (w_slots w2) !! 1%nat = Some (SlotQ.with_data d slot_r) /\
    take (Z.to_nat (data_len slot_w)) (flat (w_mem w2) (segs d)) =
    take (Z.to_nat (data_len slot_w)) (flat (w_mem (demo_world 1 demo_io)) (segs (data slot_w))).
Proof.
  destruct (write_then_read no_ring (demo_world 1 demo_io) 1 0 slot_w (rw_sqe io_opcode.WRITE) (demo_ns 1) demo_store
    after_write write_outcome 2 1 slot_r (rw_sqe io_opcode.READ)) as (w2 & p & b1 & len & He & -> & _ & Hb1 & Hm);
    [by apply demo_world_ok|apply demo_room|reflexivity|done|apply demo_routes|by apply rw_sqe_wf|done|apply slot_w_exec
    |apply slot_w_payload|apply write_succeeds|done| |by apply rw_sqe_wf|done|done|done|done|done
    |apply slot_r_exec|].
  { intros c. destruct c; vm_compute; done. }
  assert (p = Done {| out_cqe := Cqe_new 0 0 1 42 0; out_data_len := 512 |}) as ->.
  { apply (f_equal snd) in He. vm_compute in He. by injection He. }
  destruct Hm as (_ & d & idx & Hs & Hm). exists w2, {| out_cqe := Cqe_new 0 0 1 42 0; out_data_len := 512 |}, d. split; [exact He|].
  split; [done|]. split; [done|]. split; [rewrite Hs; apply list_lookup_insert_eq; vm_compute; lia|].
  destruct (read_segs _ _ _ _ _) as [[b2 m2] [u|e|]]; cbn [snd] in Hm; [destruct Hm as (_ & _ & Hm); exact Hm| |destruct Hm].
  destruct Hm as [Hm _]. exfalso. destruct e; vm_compute in Hm; discriminate.
Defined.
