(* ===== verification/ControlProofs.v ===== *)
(** * The controller's life: enable sequence, notices, keep-alive *)

From S2P Require Import Prelude Pool PoolProofs PoolSafety PoolData Backend.
From S2P Require Import BackendProofs SegIO SlotQ SlotQProofs SlotQSafety Registry.
From S2P Require Import Subsystem SubsystemProofs Spec Fabrics Identify Dispatch.
From S2P Require Import FabricsExec Admin Io ExecLaws AdminProofs.
From S2P Require Import FabricsProofs IoProofs ExecSafety ExecWitness.

Section Control.
Context {B : Type} {BK : Backend B} {ST : Store B}.
Variable ring_index : Z -> option Z.
Implicit Types (w : World B) (a : AdminState).

(** ** Frames: what a handler leaves true of the admin state *)

Definition admin_has (P : AdminState -> Prop) w : Prop := exists a, w_role w = Admin a /\ P a.

Lemma has_on_slots P {A} (m : M (SlotArray Sqe) never A) : preserves (admin_has P) (on_slots (B := B) m).
Proof. intros w Hw. unfold on_slots. by destruct (m (w_slots w)). Qed.
Lemma has_on_core P {A} (m : M QueueCore never A) : preserves (admin_has P) (on_core (B := B) m).
Proof. intros w Hw. unfold on_core. by destruct (m (w_core w)). Qed.
Lemma has_on_registry P {E A} (m : M Registry E A) : preserves (admin_has P) (on_registry (B := B) m).
Proof. intros w Hw. unfold on_registry. by destruct (m (w_registry w)). Qed.
Lemma has_set_store P x m : preserves (E := never) (admin_has P) (modify (set_store (B := B) x m)).
Proof. intros w Hw. exact Hw. Qed.

Lemma has_modify_admin (P : AdminState -> Prop) f :
  (forall a, P a -> P (f a)) -> preserves (admin_has P) (modify_admin (B := B) f).
Proof.
  intros Hf w (a & Hr & Ha). unfold modify_admin, modify. rewrite Hr. exists (f a). by split; [|apply Hf].
Qed.

Lemma has_modify_io P f : preserves (admin_has P) (modify_io (B := B) f).
Proof. intros w (a & Hr & Ha). unfold modify_io, modify. rewrite Hr. by exists a. Qed.

Hint Resolve has_on_slots has_on_core has_on_registry has_set_store has_modify_io : ioutgt.

(** Structural proof of a frame; admin-state updates are left to [side]. *)
Ltac frame side :=
  repeat first
    [ apply preserves_bind; [|intros ?]
    | solve [auto with ioutgt]
    | apply has_modify_admin; side
    | case_match ].

Section Frames.
Variable P : AdminState -> Prop.
Abbreviation pres m := (preserves (admin_has P) m).

Lemma has_complete result cid code : pres (complete (B := B) result cid code).
Proof. unfold complete, with_data, cqe. frame idtac. Qed.
Lemma has_with_data result cid code len : pres (with_data (B := B) result cid code len).
Proof. unfold with_data, cqe. frame idtac. Qed.
Lemma has_cqe result cid code : pres (cqe (B := B) result cid code).
Proof. unfold cqe. frame idtac. Qed.
Lemma has_fill_slot tag bs : pres (fill_slot (B := B) tag bs).
Proof. unfold fill_slot, slot_write_at. frame idtac. Qed.
Hint Resolve has_complete has_with_data has_cqe has_fill_slot : ioutgt.
Lemma has_reply_data tag cid bs : pres (reply_data (B := B) tag cid bs).
Proof. unfold reply_data. frame idtac. Qed.
Hint Resolve has_reply_data : ioutgt.

Lemma has_identify a tag sqe : pres (identify a tag sqe).
Proof. unfold identify. frame idtac. Qed.
Lemma has_get_features a sqe : pres (get_features a sqe).
Proof. unfold get_features. frame idtac. Qed.

Hypothesis P_kato : forall k a, P a -> P (ad_set_kato k a).
Hypothesis P_aec : forall k a, P a -> P (ad_set_aec k a).
Hypothesis P_changed : forall k a, P a -> P (ad_set_ns_changed k a).
Hypothesis P_heard : forall k a, P a -> P (ad_set_last_heard k a).

Lemma has_set_features a sqe : pres (set_features a sqe).
Proof. unfold set_features. frame ltac:(intros; auto). Qed.
Lemma has_get_log_page a tag sqe : pres (get_log_page a tag sqe).
Proof. unfold get_log_page, zero_slot. frame ltac:(intros; auto). Qed.

Hypothesis P_events : forall e rest ws a, P a -> ad_events a = e :: rest -> P (ad_set_events rest ws a).
Hypothesis P_park : forall ws a, P a -> ad_events a = [] -> P (ad_set_events [] ws a).

Lemma has_async_event t cid : pres (async_event (B := B) t cid).
Proof.
  unfold async_event. apply preserves_bind; [|intros; frame idtac].
  unfold aer_poll. apply preserves_get_bind. intros w (a & Hr & Ha). rewrite Hr.
  destruct (ad_closing a); [by exists a|].
  destruct (ad_events a) as [|e rest] eqn:He; unfold mbind, M_bind, modify_admin, modify; rewrite Hr;
    eexists; (split; [reflexivity|]); eauto.
Qed.

Lemma has_admin_execute a t tag sqe : pres (admin_execute a t tag sqe).
Proof.
  unfold admin_execute, done.
  repeat case_match; try apply has_async_event; apply preserves_bind; intros; auto with ioutgt;
    auto using has_identify, has_get_features, has_set_features, has_get_log_page.
Qed.
End Frames.

(** ** The invariant of an admin queue *)

Definition notices_ok a : Prop := ad_events a = [] \/ ad_events a = [NS_ATTR_NOTICE].
Definition enabled_bound a : Prop := ready (ad_regs a) = true -> ad_cntlid a <> 0.

(** A command leaves the registers and the identity of the controller alone
    unless it is a fabrics command. *)
Lemma admin_execute_frame w a a0 t tag sqe :
  w_role w = Admin a ->
  notices_ok a ->
  exists a', w_role (admin_execute a0 t tag sqe w).1 = Admin a' /\ ad_regs a' = ad_regs a /\
    ad_cntlid a' = ad_cntlid a /\ notices_ok a'.
Proof.
  intros Hr Hn.
  destruct (has_admin_execute (fun a' => ad_regs a' = ad_regs a /\ ad_cntlid a' = ad_cntlid a
    /\ notices_ok a') ) with (a := a0) (t := t) (tag := tag) (sqe := sqe) (s := w) as (a' & ? & ? & ? & ?);
    try done; try (by exists a').
  - intros e rest ws x (? & ? & [Hx|Hx]) He; rewrite Hx in He; [done|]. injection He as <- <-.
    split_and!; try done. by left.
  - intros ws x (? & ? & _) He. split_and!; try done. by left.
  - by exists a.
Qed.

(** Only the pending notices matter to the asynchronous events. *)
Lemma has_fabrics (P : AdminState -> Prop) sqe :
  (forall a a', ad_events a' = ad_events a -> P a -> P a') ->
  preserves (admin_has P) (fabrics_execute (B := B) sqe).
Proof.
  intros HP. pose proof (has_complete P). pose proof (has_cqe P).
  unfold fabrics_execute, connect, connect_admin, connect_resolve, connect_allocate, connect_io,
    property, property_get, set_stats_cntlid.
  frame ltac:(intros; eapply HP; [|eassumption]; done).
Qed.

(** Properties other than CC, and refusals, leave registers and identity alone. *)
Lemma property_step w a sqe fct :
  world_ok w -> w_role w = Admin a -> Sqe_wf sqe ->
  exists a', w_role (property sqe fct w).1 = Admin a' /\ ad_cntlid a' = ad_cntlid a /\
    (ad_regs a' = ad_regs a \/ ad_cntlid a <> 0).
Proof.
  intros Hok Hr Hwf. set (P := fun x => ad_regs x = ad_regs a /\ ad_cntlid x = ad_cntlid a).
  assert (Hw : admin_has P w) by (by exists a).
  assert (Hsame : forall m, preserves (E := never) (A := Outcome) (admin_has P) m ->
    exists a', w_role (m w).1 = Admin a' /\ ad_cntlid a' = ad_cntlid a /\
      (ad_regs a' = ad_regs a \/ ad_cntlid a <> 0)).
  { intros m Hm. destruct (Hm w Hw) as (a' & ? & ? & ?). eauto. }
  pose proof (has_complete P) as Hcomp. pose proof (has_cqe P).
  unfold property. rewrite get_bind, Hr. case_match.
  { apply Hsame. unfold property_get. frame idtac. }
  case_match; [|apply Hsame, Hcomp]. destruct (Z.eqb_spec (ad_cntlid a) 0); [apply Hsame, Hcomp|].
  erewrite bind_ok by (by apply modify_admin_role).
  destruct (has_complete (fun x => ad_cntlid x = ad_cntlid a) 0
    (pr_cid (PropertyCommand_view (Sqe_bytes sqe))) status.SUCCESS
    (set_role (Admin (ad_set_regs (write_cc (wrap 32 (pr_value (PropertyCommand_view (Sqe_bytes sqe))))
       (ad_regs a)).1 a)) w)) as (a' & Ha' & Hc); [by eexists|]. exists a'. eauto.
Qed.

Lemma fabrics_step w a sqe :
  world_ok w -> w_role w = Admin a -> enabled_bound a -> notices_ok a -> Sqe_wf sqe ->
  exists a', w_role (fabrics_execute sqe w).1 = Admin a' /\ enabled_bound a' /\ notices_ok a' /\
    (ad_cntlid a <> 0 -> ad_cntlid a' = ad_cntlid a).
Proof.
  intros Hok Hr Hb Hn Hwf.
  destruct (has_fabrics notices_ok sqe ltac:(by unfold notices_ok; intros ? ? ->) w) as (a' & Ha' & Hn');
    [by exists a|]. exists a'. split; [done|].
  cut (enabled_bound a' /\ (ad_cntlid a <> 0 -> ad_cntlid a' = ad_cntlid a)); [naive_solver|].
  revert Ha'. unfold fabrics_execute. destruct (Sqe_byte4 sqe) as [b ->]. cbn [expect fmap option_fmap option_map].
  erewrite bind_ok by reflexivity.
  assert (Hsame : forall m, preserves (E := never) (A := Outcome)
    (admin_has (fun x => ad_regs x = ad_regs a /\ ad_cntlid x = ad_cntlid a)) m ->
    w_role (m w).1 = Admin a' -> enabled_bound a' /\ (ad_cntlid a <> 0 -> ad_cntlid a' = ad_cntlid a)).
  { intros m Hm Hma. destruct (Hm w) as (x & Hx & Hrg & Hc); [by exists a|]. rewrite Hma in Hx.
    injection Hx as <-. unfold enabled_bound in *. by rewrite Hrg, Hc. }
  case_match.
  - unfold connect. rewrite get_bind. case_match; [apply Hsame, has_complete|]. rewrite Hr.
    destruct (connect_admin_runs w a (ConnectCommand_view (Sqe_bytes sqe))
      (nqn_str (cd_subsysnqn (w_connect_data w))) (nqn_str (cd_hostnqn (w_connect_data w))) Hok Hr)
      as (w' & o & -> & _ & x & Hx & Hrg & Hcase). cbn [fst]. rewrite Hx. intros [= ->].
    unfold enabled_bound in *. rewrite Hrg.
    destruct Hcase as [(_ & Hz & _ & _ & e & _ & _ & _ & Hk & _)|(_ & _ & ->)]; [|done].
    split; [lia|]. by intros [].
  - case_match; [|apply Hsame, has_complete].
    destruct (property_step w a sqe (byte.unsigned b) Hok Hr Hwf) as (x & -> & Hc & Hrg).
    intros [= ->]. rewrite Hc. split; [|done]. unfold enabled_bound in *. rewrite Hc.
    destruct Hrg as [->|]; done.
Qed.

Lemma execute_step w a t tag sqe :
  world_ok w -> w_role w = Admin a -> enabled_bound a -> notices_ok a -> Sqe_wf sqe ->
  room command_room w ->
  exists a', w_role (execute ring_index t tag sqe w).1 = Admin a' /\ enabled_bound a' /\
    notices_ok a' /\ (ad_cntlid a <> 0 -> ad_cntlid a' = ad_cntlid a).
Proof.
  intros Hok Hr Hb Hn Hwf Hroom. unfold execute. rewrite get_bind.
  erewrite bind_ok by (by apply modify_admin_role).
  set (a1 := ad_set_last_heard (w_now w) a). set (w1 := set_role (Admin a1) w).
  assert (Hok1 : world_ok w1) by (by eapply world_ok_admin).
  destruct (stat_add_runs w1 OtherCmds 1 command_room) as (w2 & [] & Hst & (Hw2 & Hok2 & _) & _);
    [done|done|unfold command_room; lia|].
  assert (Hr2 : w_role w2 = Admin a1) by (by rewrite Hw2).
  assert (Hdone : forall m : M (World B) never Outcome, (done m w2).1 = (m w2).1).
  { intros m. unfold done, mbind, M_bind. by destruct (m w2) as [? []]. }
  destruct (sqe_opcode sqe =? admin_opcode.FABRICS).
  - rewrite (bind_ok _ _ _ _ _ Hst), Hdone. by apply (fabrics_step w2 a1).
  - rewrite get_bind. cbn [w_role set_role w1]. rewrite (bind_ok _ _ _ _ _ Hst).
    case_match.
    + rewrite Hdone. destruct (has_complete (eq a1) 0 (sqe_cid sqe) (status.dnr status.CONNECT_CTRL_BUSY) w2)
        as (x & Hx & <-); [by exists a1|]. by exists a1.
    + destruct (admin_execute_frame w2 a1 a1 t tag sqe Hr2 Hn) as (a' & Ha' & Hrg & Hc & Hn').
      exists a'. split; [done|]. unfold enabled_bound in *. by rewrite Hrg, Hc.
Qed.

(** ** Reachable states of an admin queue

    Commands run and resume, the control plane fires notices, the transport
    closes; in between other tasks and threads may change everything but the
    queue's role, keeping the invariant. *)
Inductive admin_reachable : World B -> Prop :=
| ar_start w t : world_ok w -> new_admin (E := never) t = Ok (w_role w) -> admin_reachable w
| ar_execute w t tag s sqe w' p :
    admin_reachable w -> exec_slot w tag s -> payload_ok s -> room command_room w -> Sqe_wf sqe ->
    execute ring_index t tag sqe w = (w', Ok p) -> admin_reachable w'
| ar_resume w t tag s cid w' p :
    admin_reachable w -> exec_slot w tag s -> room command_room w ->
    resume ring_index t tag (AwaitEvent cid) w = (w', Ok p) -> admin_reachable w'
| ar_fire w : admin_reachable w -> admin_reachable (fire_ns_changed w).1
| ar_close w : admin_reachable w -> admin_reachable (ConnCtx_close w).1
| ar_env w w' : admin_reachable w -> world_ok w' -> w_role w' = w_role w -> admin_reachable w'.

Definition admin_ok w : Prop := world_ok w /\ admin_has (fun a => enabled_bound a /\ notices_ok a) w.

Lemma world_ok_woken w ws : world_ok w -> world_ok (wake_all ws w).
Proof. intros []. by split. Qed.

Lemma fire_eq w a :
  w_role w = Admin a ->
  (fire_ns_changed w).1 =
    if Z.land (ad_aec a) AEN_CFG_NS_ATTR =? 0 then set_role (Admin (ad_set_ns_changed true a)) w
    else wake_all (ad_aer_wakers a) (set_role (Admin (ad_set_events
      (if bool_decide (NS_ATTR_NOTICE ∈ ad_events a) then ad_events a
       else ad_events a ++ [NS_ATTR_NOTICE]) [] (ad_set_ns_changed true a))) w).
Proof.
  intros Hr. unfold fire_ns_changed. rewrite get_bind, Hr.
  erewrite bind_ok by (by apply modify_admin_role). case_match; [done|].
  erewrite bind_ok by (by apply modify_admin_role). done.
Qed.

Lemma close_eq w a :
  w_role w = Admin a ->
  (ConnCtx_close w).1 =
    wake_all (ad_aer_wakers a)
      (set_role (Admin (ad_set_events (ad_events a) [] (ad_set_closing true a))) w).
Proof.
  intros Hr. unfold ConnCtx_close. rewrite get_bind, Hr.
  erewrite bind_ok by (by apply modify_admin_role).
  erewrite bind_ok by (by apply modify_admin_role). done.
Qed.

Lemma notice_pushed a :
  notices_ok a ->
  (if bool_decide (NS_ATTR_NOTICE ∈ ad_events a) then ad_events a
   else ad_events a ++ [NS_ATTR_NOTICE]) = [NS_ATTR_NOTICE].
Proof. intros [-> | ->]; [done|]. rewrite bool_decide_true by left. done. Qed.

Lemma new_admin_ok t :
  exists a, new_admin (E := never) t = Ok (Admin a) /\ enabled_bound a /\ notices_ok a.
Proof. eexists. split; [reflexivity|]. split; [by intros Hx; vm_compute in Hx|by left]. Qed.

Lemma admin_reachable_ok w : admin_reachable w -> admin_ok w.
Proof.
  induction 1 as [w t Hok Hn|w t tag s sqe w' p _ [Hok (a & Hr & Hb & Hno)] Hsl Hp Hroom Hwf He
    |w t tag s cid w' p _ [Hok (a & Hr & Hb & Hno)] Hsl Hroom He|w _ [Hok (a & Hr & Hb & Hno)]
    |w _ [Hok (a & Hr & Hb & Hno)]|w w' _ [_ (a & Hr & Hb & Hno)] Hok' Hro].
  - destruct (new_admin_ok t) as (a & Ha & ?). rewrite Ha in Hn. injection Hn as Hn.
    split; [done|]. by exists a.
  - destruct (runs_det _ _ _ _ _ (execute_answered ring_index w t tag s sqe Hok Hsl Hp Hroom Hwf) He) as [Hok' _].
    split; [done|]. destruct (execute_step w a t tag sqe) as (a' & Ha' & ? & ? & _); try done.
    rewrite He in Ha'. by exists a'.
  - destruct (runs_det _ _ _ _ _ (resume_answered ring_index w t tag s cid (AwaitEvent cid) Hok Hsl Hroom
      (conj eq_refl (ex_intro _ a Hr))) He) as [Hok' _].
    split; [done|].
    destruct (has_async_event (fun x => enabled_bound x /\ notices_ok x)) with (t := t) (cid := cid) (s := w)
      as (a' & Ha' & ?); [| |by exists a|].
    + intros e rest ws x [? [Hx|Hx]] Hy; rewrite Hx in Hy; [done|]. injection Hy as <- <-.
      split; [done|by left].
    + intros ws x [? _] _. split; [done|by left].
    + change (resume ring_index t tag (AwaitEvent cid) w) with (async_event t cid w) in He.
      rewrite He in Ha'. by exists a'.
  - rewrite (fire_eq w a Hr). case_match.
    + split; [by eapply world_ok_admin|]. by eexists.
    + rewrite notice_pushed by done. split; [by eapply world_ok_woken, world_ok_admin|].
      eexists. split; [reflexivity|]. split; [done|by right].
  - rewrite (close_eq w a Hr). split; [by eapply world_ok_woken, world_ok_admin|]. by eexists.
  - split; [done|]. exists a. by rewrite Hro.
Qed.

(** The enable sequence cannot be skipped: in every reachable state of an
    admin queue the controller is ready only if a Connect has bound it, its
    identity never changes once bound, and until it is ready every command but
    the fabrics ones is refused with CONNECT_CTRL_BUSY, leaving the store, the
    buffers and the slots untouched. *)
Theorem enable_sequence w a t tag s sqe :
  admin_reachable w -> w_role w = Admin a -> Sqe_wf sqe -> exec_slot w tag s ->
  room command_room w ->
  (ready (ad_regs a) = true -> ad_cntlid a <> 0) /\
  (exists a', w_role (execute ring_index t tag sqe w).1 = Admin a' /\
     (ad_cntlid a <> 0 -> ad_cntlid a' = ad_cntlid a)) /\
  (ready (ad_regs a) = false -> sqe_opcode sqe <> admin_opcode.FABRICS ->
     exists w' o, execute ring_index t tag sqe w = (w', Ok (Done o)) /\ untouched w w' /\
       replied (sqe_cid sqe) (qc_qid (w_core w)) 0 (status.dnr status.CONNECT_CTRL_BUSY) 0 o).
Proof.
  intros Hre Hr Hwf Hsl Hroom. destruct (admin_reachable_ok w Hre) as [Hok (a0 & Hr0 & Hb & Hn)].
  rewrite Hr in Hr0. injection Hr0 as <-. split; [done|]. split.
  { destruct (execute_step w a t tag sqe) as (a' & ? & _ & _ & ?); eauto. }
  intros Hnr Hop. unfold execute. rewrite get_bind. erewrite bind_ok by (by apply modify_admin_role).
  set (w1 := set_role _ w). assert (Hok1 : world_ok w1) by (by eapply world_ok_admin).
  destruct (stat_add_runs w1 OtherCmds 1 command_room) as (w2 & [] & Hst & (Hw2 & Hok2 & Hq2) & _);
    [done|done|unfold command_room; lia|].
  destruct (Z.eqb_spec (sqe_opcode sqe) admin_opcode.FABRICS); [done|].
  rewrite get_bind. cbn [w_role set_role w1]. rewrite (bind_ok _ _ _ _ _ Hst).
  change (ready (ad_regs (ad_set_last_heard (w_now w) a))) with (ready (ad_regs a)).
  rewrite Hnr. cbn [negb]. unfold done.
  destruct (complete_runs w2 0 (sqe_cid sqe) (status.dnr status.CONNECT_CTRL_BUSY) Hok2)
    as (w3 & o & Hc & (Hw3 & _ & _) & Hrep).
  rewrite (bind_ok _ _ _ _ _ Hc). exists w3, o. split; [done|]. split.
  - rewrite Hw3, Hw2. done.
  - by rewrite Hq2 in Hrep.
Qed.

(** Namespace-change notices are coalesced and never lost: firing one (with
    the notice enabled) leaves exactly one pending and wakes every parked event
    request; firing again before it is read adds nothing; the next poll of an
    event request takes it; and once the connection closes every poll resolves
    instead of parking. *)
Theorem ns_notice_delivered w a t :
  admin_reachable w -> w_role w = Admin a -> Z.land (ad_aec a) AEN_CFG_NS_ATTR <> 0 ->
  ad_closing a = false ->
  let w1 := (fire_ns_changed w).1 in
  (exists a1, w_role w1 = Admin a1 /\ ad_events a1 = [NS_ATTR_NOTICE] /\
     ad_ns_changed a1 = true /\ ad_aer_wakers a1 = []) /\
  w_woken w1 = w_woken w ++ ad_aer_wakers a /\
  w_role (fire_ns_changed w1).1 = w_role w1 /\
  (exists w2 a2, aer_poll t w1 = (w2, Ok (Some NS_ATTR_NOTICE)) /\ w_role w2 = Admin a2 /\
     ad_events a2 = [] /\ aer_poll t w2 = ((aer_poll t w2).1, Ok None)) /\
  (let wc := (ConnCtx_close w).1 in
   w_woken wc = w_woken w ++ ad_aer_wakers a /\ aer_poll t wc = (wc, Ok (Some 0))).
Proof.
  intros Hre Hr Haec Hcl w1. destruct (admin_reachable_ok w Hre) as [Hok (a0 & Hr0 & Hb & Hn)].
  rewrite Hr in Hr0. injection Hr0 as <-.
  assert (Hw1 : w1 = wake_all (ad_aer_wakers a) (set_role (Admin (ad_set_events [NS_ATTR_NOTICE] []
    (ad_set_ns_changed true a))) w)).
  { unfold w1. rewrite (fire_eq w a Hr), notice_pushed by done.
    destruct (Z.eqb_spec (Z.land (ad_aec a) AEN_CFG_NS_ATTR) 0); done. }
  rewrite Hw1. split; [by eexists|]. split; [done|]. split.
  { erewrite fire_eq by reflexivity. cbn [ad_aec ad_set_events ad_set_ns_changed ad_events].
    destruct (Z.eqb_spec (Z.land (ad_aec a) AEN_CFG_NS_ATTR) 0); [done|].
    rewrite bool_decide_true by left. done. }
  split.
  - unfold aer_poll. rewrite get_bind.
    cbn [w_role wake_all set_role ad_closing ad_set_events ad_set_ns_changed ad_events].
    rewrite Hcl. erewrite bind_ok by (by apply modify_admin_role). eexists _, _.
    split; [reflexivity|]. split; [reflexivity|]. split; [done|]. rewrite get_bind.
    cbn [w_role wake_all set_role ad_closing ad_set_events ad_set_ns_changed ad_events].
    rewrite Hcl. erewrite bind_ok by (by apply modify_admin_role). done.
  - cbv zeta. rewrite (close_eq w a Hr). done.
Qed.

(** ** Keep-alive *)

Lemma keepalive_tick_bounds k : KEEPALIVE_TICK_MIN <= keepalive_tick k <= KEEPALIVE_TICK_MAX.
Proof. unfold keepalive_tick, clamp, KEEPALIVE_TICK_MIN, KEEPALIVE_TICK_MAX. case_match; lia. Qed.

(** The shared liveness flag of the controller. *)
Definition traffic_set w a : bool :=
  match ad_traffic a with Some f => default false (flags (w_registry w) !! f) | None => false end.

(** The keep-alive watchdog never fires early and always fires: it reports
    expiry only with a timeout negotiated, no IO traffic since the last tick and
    more than KATO x 2 + 250 ms of silence; with more than KATO x 2 + 5 s of
    silence it does report; IO traffic is consumed and restarts the period. *)
Theorem keepalive_verdict w a :
  w_role w = Admin a -> in_u 32 (ad_kato_ms a) -> w_now w - ad_last_heard a < 2 ^ 64 ->
  exists w' r, keepalive_expired w = (w', Ok r) /\
    (forall x, r = Some x -> ad_kato_ms a <> 0 /\ traffic_set w a = false /\
       x = w_now w - ad_last_heard a /\ ad_kato_ms a * 2 + KEEPALIVE_TICK_MIN < x) /\
    (ad_kato_ms a <> 0 -> traffic_set w a = false ->
       ad_kato_ms a * 2 + KEEPALIVE_TICK_MAX < w_now w - ad_last_heard a -> r <> None) /\
    (ad_kato_ms a <> 0 -> traffic_set w a = true ->
       r = None /\ exists a', w_role w' = Admin a' /\ ad_last_heard a' = w_now w /\
         traffic_set w' a' = false).
Proof.
  intros Hr [Hk0 Hk1] Hsil. unfold keepalive_expired. rewrite get_bind, Hr.
  destruct (Z.eqb_spec (ad_kato_ms a) 0) as [Hz|Hnz].
  { eexists _, _. split; [reflexivity|]. split_and!; done. }
  pose proof (keepalive_tick_bounds (ad_kato_ms a)) as Ht.
  unfold KEEPALIVE_TICK_MIN, KEEPALIVE_TICK_MAX in *.
  (* the silent case, in any world that differs only in its registry *)
  assert (Hquiet : traffic_set w a = false -> forall wr : World B, exists w' r,
    (let silent := Z.min (Z.max 0 (w_now w - ad_last_heard a)) (2 ^ 64 - 1) in
     let grace := keepalive_tick (ad_kato_ms a) in
     limit ← lift (checked 64 (ad_kato_ms a * 2 + grace));
     mret (if limit <? silent then Some silent else None)) wr = (w', Ok (E := never) r) /\
    (forall x, r = Some x -> ad_kato_ms a <> 0 /\ traffic_set w a = false /\
       x = w_now w - ad_last_heard a /\ ad_kato_ms a * 2 + 250 < x) /\
    (ad_kato_ms a <> 0 -> traffic_set w a = false ->
       ad_kato_ms a * 2 + 5000 < w_now w - ad_last_heard a -> r <> None) /\
    (ad_kato_ms a <> 0 -> traffic_set w a = true -> r = None /\ exists a', w_role w' = Admin a' /\
       ad_last_heard a' = w_now w /\ traffic_set w' a' = false)).
  { intros Htr wr. cbv zeta. rewrite checked_ok by (unfold in_u; lia). eexists _, _.
    split; [reflexivity|]. rewrite Htr.
    destruct (Z.ltb_spec (ad_kato_ms a * 2 + keepalive_tick (ad_kato_ms a))
      (Z.min (Z.max 0 (w_now w - ad_last_heard a)) (2 ^ 64 - 1))).
    - split; [intros x [= <-]; split_and!; try done; lia|]. by split.
    - split; [done|]. split; [lia|done]. }
  unfold traffic_set in *. destruct (ad_traffic a) as [f|] eqn:Hf.
  2:{ erewrite bind_ok by reflexivity. by apply Hquiet. }
  unfold TrafficFlag_take. set (heard := default false (flags (w_registry w) !! f)) in *.
  erewrite bind_ok by (erewrite bind_ok by reflexivity; reflexivity).
  destruct heard eqn:Hh; [|by apply Hquiet].
  erewrite bind_ok by (by apply modify_admin_role). eexists _, _. split; [reflexivity|].
  split; [done|]. split; [done|]. intros _ _. split; [done|]. eexists. split; [reflexivity|].
  split; [done|]. cbn [ad_traffic ad_set_last_heard]. rewrite Hf. cbn.
  destruct (decide (f < length (flags (w_registry w)))%nat).
  - by rewrite list_lookup_insert_eq.
  - by rewrite lookup_ge_None_2 by (rewrite length_insert; lia).
Qed.

End Control.

(** ** Witnesses *)

Definition fresh_world : World Memory.MemoryBackend := demo_world 0 (Admin demo_ad).

Lemma fresh_reachable : admin_reachable (ST := memory_store) no_ring fresh_world.
Proof. apply (ar_start no_ring fresh_world 0); [by apply demo_world_ok|reflexivity]. Qed.

(** Identify before the controller is enabled. *)
Lemma enable_sequence_witness :
  exists w' o, execute no_ring 1 0 (rw_sqe admin_opcode.IDENTIFY) fresh_world = (w', Ok (Done o)) /\
    untouched fresh_world w'.
Proof.
  destruct (enable_sequence no_ring fresh_world demo_ad 1 0 slot_w (rw_sqe admin_opcode.IDENTIFY))
    as (_ & _ & H); [apply fresh_reachable|reflexivity|by apply rw_sqe_wf|apply slot_w_exec
    |apply demo_room|].
  destruct H as (w' & o & He & Hu & _); [reflexivity|done|]. by exists w', o.
Defined.

Lemma ns_notice_delivered_witness :
  exists w2, aer_poll 3 (fire_ns_changed fresh_world).1 = (w2, Ok (Some NS_ATTR_NOTICE)).
Proof.
  destruct (ns_notice_delivered no_ring fresh_world demo_ad 3) as (_ & _ & _ & (w2 & a2 & H & _) & _);
    [apply fresh_reachable|reflexivity|done|reflexivity|]. by exists w2.
Defined.

(** KATO 200 ms, one second of silence. *)
Lemma keepalive_verdict_witness :
  exists w' r, keepalive_expired (demo_world 0 (Admin (ad_set_kato 200 demo_ad))) = (w', Ok r) /\ r = Some 1000.
Proof.
  destruct (keepalive_verdict (demo_world 0 (Admin (ad_set_kato 200 demo_ad))) (ad_set_kato 200 demo_ad))
    as (w' & r & He & _ & _ & _); [reflexivity|by vm_compute|by vm_compute|].
  exists w', r. split; [exact He|]. vm_compute in He. by injection He.
Defined.
