(* ===== verification/AdminData.v ===== *)
(** * What admin commands report: registers, Identify, the discovery log *)

From S2P Require Import Prelude Pool PoolProofs PoolSafety PoolData Backend.
From S2P Require Import BackendProofs SegIO SlotQ SlotQProofs SlotQSafety Registry.
From S2P Require Import Subsystem SubsystemProofs Spec Fabrics Identify Dispatch.
From S2P Require Import FabricsExec Admin Io ExecLaws AdminProofs.
From S2P Require Import FabricsProofs IoProofs ExecSafety ExecWitness.

(** ** The register machine *)

Lemma land_1 x : Z.land x 1 = x mod 2.
Proof. exact (Z.land_ones x 1 ltac:(lia)). Qed.

Lemma ready_lor c : Z.land (Z.lor c csts.RDY) csts.RDY = 1.
Proof. change csts.RDY with 1. rewrite Z.land_lor_distr_l, land_1. change (Z.land 1 1) with 1.
  pose proof (Z.mod_pos_bound c 2 ltac:(lia)). assert (Hc : c mod 2 = 0 \/ c mod 2 = 1) by lia.
  by destruct Hc as [-> | ->]. Qed.

Lemma ready_lnot c : Z.land (Z.land c (Z.lnot csts.RDY)) csts.RDY = 0.
Proof. change csts.RDY with 1. rewrite <- Z.land_assoc. change (Z.land (Z.lnot 1) 1) with 0. apply Z.land_0_r. Qed.

Definition en (v : Z) : bool := negb (Z.land v cc.EN =? 0).
Definition shn (v : Z) : bool := negb (Z.land v cc.SHN_MASK =? 0).

(** The register file after a sequence of CC writes. *)
Definition writes (vs : list Z) (r : RegisterState) : RegisterState :=
  foldl (fun r v => (write_cc v r).1) r vs.

Lemma write_cc_en v r :
  shn v = false -> ready r = en (r_cc r) ->
  ready (write_cc v r).1 = en v /\ r_cc (write_cc v r).1 = v.
Proof.
  unfold write_cc, shn, ready. intros Hs Hr. cbv zeta. rewrite Hs.
  fold (en (r_cc r)) (en v). destruct (en (r_cc r)) eqn:H1, (en v) eqn:H2; cbn [negb andb];
    cbn [fst r_csts r_cc]; try done.
  - by rewrite ready_lnot.
  - by rewrite ready_lor.
Qed.

Lemma writes_en vs r :
  Forall (fun v => shn v = false) vs -> ready r = en (r_cc r) ->
  ready (writes vs r) = en (r_cc (writes vs r)) /\ r_cc (writes vs r) = default (r_cc r) (list.last vs).
Proof.
  revert r. induction vs as [|v vs IH]; intros r Hv Hr; [done|].
  apply list.Forall_cons in Hv as [Hv Hvs]. destruct (write_cc_en v r Hv Hr) as [H1 H2].
  destruct (IH (write_cc v r).1 Hvs) as [H3 H4]; [by rewrite H1, H2|].
  split; [exact H3|]. cbn [writes foldl]. change (foldl _ _ vs) with (writes vs (write_cc v r).1).
  rewrite H4, H2. rewrite last_cons. by destruct (list.last vs).
Qed.

Lemma shst_kept v r :
  Z.testbit (r_csts r) 3 = true \/ shn v = true -> Z.testbit (r_csts (write_cc v r).1) 3 = true.
Proof.
  intros H. unfold write_cc. cbv zeta. fold (shn v). destruct (shn v) eqn:Hs; cbn [fst r_csts].
  { rewrite Z.lor_spec. by rewrite orb_true_r. }
  destruct H as [H|]; [|done]. repeat case_match; cbn [fst r_csts]; try done.
  - rewrite Z.lor_spec. by rewrite H.
  - rewrite Z.land_spec, H. done.
Qed.

(** The CC/CSTS machine follows the enable bit: from reset, after any
    sequence of CC writes without shutdown notification, CSTS.RDY is exactly
    the EN bit of the last write.  A shutdown write sets SHST_COMPLETE, and no
    later write, disabling and re-enabling included, ever clears it. *)
Theorem cc_machine {E} n (vs : list Z) :
  1 <= n <= MAX_QUEUE_ENTRIES ->
  exists r, RegisterState_new (E := E) n = Ok r /\ Z.land (r_cap r) 0xFFFF = n - 1 /\
    (Forall (fun v => shn v = false) vs ->
       ready (writes vs r) = match list.last vs with Some v => en v | None => false end) /\
    (forall v r', shn v = true -> Z.testbit (r_csts (writes vs (write_cc v r').1)) 3 = true).
Proof.
  intros Hn. unfold RegisterState_new, MAX_QUEUE_ENTRIES in *. rewrite checked_ok by (unfold in_u; lia).
  eexists. split; [reflexivity|]. split; [|split].
  - cbn [r_cap]. change 0xFFFF with (Z.ones 16). rewrite !Z.land_lor_distr_l.
    change (Z.land (Z.shiftl 1 16) (Z.ones 16)) with 0. change (Z.land (Z.shiftl 30 24) (Z.ones 16)) with 0.
    rewrite !Z.lor_0_r, Z.land_ones by lia. apply Z.mod_small. lia.
  - intros Hv. match goal with |- ready (writes vs ?r) = _ =>
      destruct (writes_en vs r Hv eq_refl) as [-> ->] end. by destruct (list.last vs).
  - intros v r' Hs. assert (H1 : Z.testbit (r_csts (write_cc v r').1) 3 = true) by (apply shst_kept; by right).
    revert H1. generalize (write_cc v r').1. induction vs as [|x vs IH]; intros r H1; [done|].
    cbn [writes foldl]. apply IH, shst_kept. by left.
Qed.

Lemma cc_machine_witness :
  exists r, RegisterState_new (E := never) 256 = Ok r /\ ready (writes [1; 0x460001] r) = true.
Proof.
  destruct (cc_machine (E := never) 256 [1; 0x460001]) as (r & He & _ & Hr & _);
    [unfold MAX_QUEUE_ENTRIES; lia|].
  exists r. split; [exact He|]. apply Hr. repeat constructor.
Defined.

(** ** Field offsets *)

Lemma field_app_r (a b : bytes) off n :
  (length a <= off)%nat -> field (a ++ b) off n = field b (off - length a) n.
Proof.
  intros H. unfold field, bytes_at. by rewrite drop_app_ge by lia.
Qed.

Lemma field_app_l n z (b : bytes) :
  in_u (8 * Z.of_nat n) z -> field (le_split n z ++ b) 0 n = z.
Proof.
  intros H. unfold field, bytes_at. rewrite drop_0, take_app_length' by (by rewrite length_le_split).
  by apply le_combine_le_split_small.
Qed.

Lemma length_ascii_pad n s : length (ascii_pad n s) = n.
Proof. unfold ascii_pad. rewrite length_app, length_take, length_replicate. lia. Qed.

Lemma length_nul_terminate s : length (nul_terminate s) = 256%nat.
Proof. unfold nul_terminate, zeroes. rewrite length_app, length_take, length_replicate. lia. Qed.

Lemma length_zeroes n : length (zeroes n) = n.
Proof. apply length_replicate. Qed.

#[local] Hint Rewrite length_ascii_pad length_nul_terminate length_zeroes : bytelen.

Lemma field_skip (a b : bytes) k off off' n v :
  length a = k -> off = (k + off')%nat -> field b off' n = v -> field (a ++ b) off n = v.
Proof. intros Ha -> <-. rewrite field_app_r by lia. f_equal. lia. Qed.

(** Walk to a field of a structure whose leading fields have known lengths. *)
Ltac to_field :=
  lazymatch goal with
  | |- field (_ ++ _) O _ = _ => apply field_app_l
  | |- field (_ ++ _) _ _ = _ =>
      eapply field_skip; [autorewrite with bytelen; reflexivity | reflexivity | to_field]
  end.

(** Identify Controller tells the host the truth, at the offsets of the
    specification: 4096 bytes; MDTS is the transfer limit the IO path enforces;
    CNTLID, MAXCMD and NN are the controller's id, the port's queue depth and
    the highest NSID; IOCCSZ is the advertised in-capsule size. *)
Theorem identify_controller_layout p a :
  in_u 16 (ad_cntlid a) -> in_u 16 (pc_io_queue_size p) ->
  (forall s, bound_subsys p a = Some s -> in_u 32 (max_nsid s)) ->
  let bs := IdentifyController_bytes (build_id_ctrl p a) in
  length bs = 4096%nat /\
  2 ^ field bs 77 1 * PAGE = MDTS_BYTES /\
  field bs 78 2 = ad_cntlid a /\
  field bs 514 2 = pc_io_queue_size p /\
  field bs 516 4 = (if ad_discovery a then 0 else
    match bound_subsys p a with Some s => max_nsid s | None => 0 end) /\
  (ad_discovery a = false -> field bs 1792 4 * 16 =
     64 + (if is_rdma p then RDMA_INLINE_DATA_SIZE else INLINE_DATA_SIZE)).
Proof.
  intros Hc Hq Hn bs. unfold bs, IdentifyController_bytes, build_id_ctrl.
  cbn -[le_split ascii_pad nul_terminate zeroes field Z.pow app max_nsid ascii_bytes bound_subsys].
  split; [autorewrite with bytelen; lia|]. split; [|split; [|split; [|split]]].
  - assert (field _ 77 1 = 5) as -> by (to_field; by vm_compute). by vm_compute.
  - by to_field.
  - by to_field.
  - to_field. destruct (ad_discovery a); [by vm_compute|].
    destruct (bound_subsys p a) as [s|]; [by apply Hn|by vm_compute].
  - intros ->. 
    match goal with |- field ?b 1792 4 * 16 = _ => assert (field b 1792 4 =
      (64 + (if is_rdma p then RDMA_INLINE_DATA_SIZE else INLINE_DATA_SIZE)) / 16) as -> end.
    + to_field. destruct (is_rdma p); by vm_compute.
    + destruct (is_rdma p); by vm_compute.
Qed.

Definition bound_ad : AdminState := ad_set_cntlid 11 (ad_set_subsys (Some (ascii_bytes "nqn.a")) demo_ad).

Lemma identify_controller_layout_witness :
  let bs := IdentifyController_bytes (build_id_ctrl demo_port bound_ad) in
  field bs 78 2 = 11 /\ field bs 514 2 = 128 /\ field bs 516 4 = 1.
Proof.
  cbv zeta. destruct (identify_controller_layout demo_port bound_ad) as (_ & _ & H1 & H2 & H3 & _);
    [by vm_compute|by vm_compute| |].
  - intros s Hs. unfold bound_subsys in Hs. vm_compute in Hs. injection Hs as <-. by vm_compute.
  - rewrite H1, H2, H3. by vm_compute.
Defined.

(** ** The discovery log *)

Lemma length_discovery_entry p i nqn : length (DiscoveryLogEntry_bytes (discovery_entry p i nqn)) = 1024%nat.
Proof.
  apply DiscoveryLogEntry_length; cbn [discovery_entry de_resv12 de_trsvcid de_resv64 de_subnqn
    de_traddr de_tsas]; autorewrite with bytelen; reflexivity.
Qed.

Lemma length_port_nqns p : length (port_nqns p) = size (pc_subsystems p).
Proof.
  unfold port_nqns. rewrite length_fmap, sorting.merge_sort_Permutation. apply length_map_to_list.
Qed.

(** Equal-sized records: the [i]-th one starts at [i] times the size. *)
Lemma concat_record {A} (f : nat -> A -> bytes) l k i x :
  (forall j y, length (f j y) = k) -> l !! i = Some x ->
  bytes_at (concat (imap f l)) (i * k) k = f i x.
Proof.
  intros Hk. revert f Hk i. induction l as [|y l IH]; intros f Hk i Hi; [done|].
  cbn [imap concat]. destruct i as [|i]; cbn [lookup list_lookup] in Hi.
  - simplify_eq. unfold bytes_at. rewrite Nat.mul_0_l, drop_0. apply take_app_length'. by rewrite Hk.
  - unfold bytes_at. rewrite drop_app_ge by (rewrite Hk; lia). rewrite Hk.
    replace (S i * k - k)%nat with (i * k)%nat by lia.
    apply (IH (f ∘ S)); [intros; apply Hk|done].
Qed.

Lemma length_concat_records {A} (f : nat -> A -> bytes) l k :
  (forall j y, length (f j y) = k) -> length (concat (imap f l)) = (length l * k)%nat.
Proof.
  intros Hk. revert f Hk. induction l as [|y l IH]; intros f Hk; [done|].
  cbn [imap concat length]. rewrite length_app, Hk, (IH (f ∘ S)) by (intros; apply Hk). lia.
Qed.

Lemma length_discovery_log p :
  length (build_discovery_log p) = (1024 * (1 + size (pc_subsystems p)))%nat.
Proof.
  unfold build_discovery_log. rewrite length_app, DiscoveryLogHeader_length by apply length_zeroes.
  rewrite (length_concat_records _ _ 1024) by (intros; apply length_discovery_entry).
  rewrite length_port_nqns. lia.
Qed.

Section Discovery.
Context {B : Type} {BK : Backend B} {ST : Store B}.

(** The discovery log is served faithfully: one 1024-byte record per
    subsystem after the header, in key order, each carrying its NQN; and a Get
    Log Page of any window completes with success, its data length and the
    slot's bytes being that window of the log, cut at the log's end and at the
    8 KiB admin limit. *)
Theorem discovery_log_served (w : World B) a tag s sqe :
  world_ok w -> exec_slot w tag s -> Sqe_wf sqe -> ad_discovery a = true ->
  Z.land (sqe_cdw10 sqe) 0xFF = log_page.DISCOVERY -> log_offset sqe + log_len sqe < 2 ^ 64 ->
  let log := build_discovery_log (w_port w) in
  let window := take (Z.to_nat (log_len sqe)) (drop (Z.to_nat (log_offset sqe)) log) in
  let n := Z.min (Z.of_nat (length window)) ADMIN_DATA_MAX in
  length log = (1024 * (1 + size (pc_subsystems (w_port w))))%nat /\
  (forall i nqn, port_nqns (w_port w) !! i = Some nqn ->
     bytes_at log ((1 + i) * 1024) 1024 = DiscoveryLogEntry_bytes (discovery_entry (w_port w) i nqn)) /\
  exists w' o d, get_log_page a tag sqe w = (w', Ok o) /\ world_ok w' /\
    replied (sqe_cid sqe) (qc_qid (w_core w)) 0 status.SUCCESS n o /\
    slots (w_slots w') !! Z.to_nat tag = Some (SlotQ.with_data d s) /\
    take (Z.to_nat n) (flat (w_mem w') (segs d)) = take (Z.to_nat n) window.
Proof.
  intros Hok Hsl Hwf Hd Hlid Hlt log window n. split; [apply length_discovery_log|]. split.
  { intros i nqn Hi. unfold log, build_discovery_log, bytes_at.
    assert (Hh : length (DiscoveryLogHeader_bytes {| dh_genctr := 1;
      dh_numrec := Z.of_nat (size (pc_subsystems (w_port w))); dh_recfmt := 0;
      dh_resv := zeroes 1006 |}) = 1024%nat) by (apply DiscoveryLogHeader_length, length_zeroes).
    rewrite drop_app_ge by (rewrite Hh; lia). rewrite Hh.
    replace ((1 + i) * 1024 - 1024)%nat with (i * 1024)%nat by lia.
    apply (concat_record (fun i nqn => DiscoveryLogEntry_bytes (discovery_entry (w_port w) i nqn))
      (port_nqns (w_port w)) 1024 i nqn); [intros; apply length_discovery_entry|done]. }
  pose proof (log_len_pos _ Hwf) as Hlen. pose proof (log_offset_nonneg _ Hwf) as Hoff.
  cut (runs (get_log_page a tag sqe) w (fun w' o => exists d, world_ok w' /\
    replied (sqe_cid sqe) (qc_qid (w_core w)) 0 status.SUCCESS n o /\
    slots (w_slots w') !! Z.to_nat tag = Some (SlotQ.with_data d s) /\
    take (Z.to_nat n) (flat (w_mem w') (segs d)) = take (Z.to_nat n) window)).
  { intros (w' & o & He & d & H). by exists w', o, d. }
  unfold get_log_page. runs_step. runs_step. rewrite Hlid, Z.eqb_refl, Hd. cbn [andb].
  runs_step. eapply runs_lift.
  { rewrite log_window_ok by lia. rewrite Z.min_l by lia.
    replace (log_offset sqe + log_len sqe - log_offset sqe) with (log_len sqe) by lia. reflexivity. }
  fold log. fold window. runs_step. eapply runs_mono; [by apply (fill_slot_runs w tag s)|].
  fold n. intros w1 r (-> & Hok1 & Hc1 & _ & _ & _ & d & Hd1 & Hfl).
  eapply runs_mono; [by apply with_data_runs|]. intros w2 o ((Hw2 & Hok2 & _) & Hrep).
  exists d. split; [done|]. rewrite Hc1 in Hrep. split; [done|]. rewrite Hw2. split; [done|].
  cbn [w_mem set_core]. rewrite <- Hfl. f_equal. rewrite length_take. lia.
Qed.
End Discovery.

Definition disc_ad : AdminState := ad_set_discovery true demo_ad.

(** Get Log Page, discovery, 1024 bytes at offset 1024: the only record. *)
Definition log_sqe : Sqe :=
  {| sqe_opcode := admin_opcode.GET_LOG_PAGE; sqe_flags := 0; sqe_cid := 5; sqe_nsid := 0;
     sqe_cdw2 := 0; sqe_cdw3 := 0; sqe_mptr := 0;
     sqe_dptr := {| sgl_addr := 0; sgl_length := 1024; sgl_rsvd := zeroes 3; sgl_type := 0 |};
     sqe_cdw10 := Z.lor 0x70 (Z.shiftl 255 16); sqe_cdw11 := 0; sqe_cdw12 := 1024; sqe_cdw13 := 0;
     sqe_cdw14 := 0; sqe_cdw15 := 0 |}.

Lemma discovery_log_served_witness :
  exists w' o, get_log_page disc_ad 0 log_sqe (demo_world 0 (Admin disc_ad)) = (w', Ok o) /\
    out_data_len o = 1024.
Proof.
  destruct (discovery_log_served (demo_world 0 (Admin disc_ad)) disc_ad 0 slot_w log_sqe) as
    (_ & _ & w' & o & d & He & _ & (_ & _ & _ & _ & Hl) & _);
    [by apply demo_world_ok|apply slot_w_exec|unfold Sqe_wf; cbn; by vm_compute|done|done|by vm_compute|].
  exists w', o. split; [exact He|]. rewrite Hl. by vm_compute.
Defined.
