(* ===== verification/BufRing.v ===== *)
(** * [ioutgt-uring/src/bufring.rs]: the provided-buffer receive ring

    A [BufRing] is one connection's ring of two receive buffers.  Entries and
    tail are memory shared with the kernel; a buffer goes back to the kernel
    ([kernel_provide]) once the receive loop is done with it and no write still
    borrows a region of it.  Registration answers come from the reactor, so
    they are arguments of [build]. *)

From S2P Require Import Prelude Pool.

Definition NBUFS : Z := 2.
Definition BUF_MASK : Z := NBUFS - 1.
Definition BGID_RANGE : Z := 64.

Record RecvChunk := {
  rc_bid : Z;
  rc_len : Z;
  rc_more : bool;
  rc_buf_more : bool;
}.

(** [io_uring_buf]: address, length and buffer id. *)
Record BufRingEntry := { be_addr : Z; be_len : Z; be_bid : Z }.
Definition BufRingEntry_zeroed : BufRingEntry := {| be_addr := 0; be_len := 0; be_bid := 0 |}.

(** [br_shared_tail] is the tail in the ring's memory, which the kernel reads;
    [br_woken] lists the tasks woken so far. *)
Record BufRing := {
  br_bgid : Z;
  br_bgid_owned : bool;
  br_data : Z;
  br_buf_size : Z;
  br_entries : list BufRingEntry;
  br_tail : Z;
  br_shared_tail : Z;
  br_pending : list Z;
  br_awaiting : list bool;
  br_recv_off : list Z;
  br_provide_gen : Z;
  br_provide_waker : option nat;
  br_buf_index : list (option Z);
  br_woken : list nat;
}.

Definition br_set_ring entries tail r := {|
  br_bgid := br_bgid r; br_bgid_owned := br_bgid_owned r; br_data := br_data r;
  br_buf_size := br_buf_size r; br_entries := entries; br_tail := tail; br_shared_tail := tail;
  br_pending := br_pending r; br_awaiting := br_awaiting r; br_recv_off := br_recv_off r;
  br_provide_gen := br_provide_gen r; br_provide_waker := br_provide_waker r;
  br_buf_index := br_buf_index r; br_woken := br_woken r |}.
Definition br_set_bufs pending awaiting off r := {|
  br_bgid := br_bgid r; br_bgid_owned := br_bgid_owned r; br_data := br_data r;
  br_buf_size := br_buf_size r; br_entries := br_entries r; br_tail := br_tail r;
  br_shared_tail := br_shared_tail r; br_pending := pending; br_awaiting := awaiting;
  br_recv_off := off; br_provide_gen := br_provide_gen r;
  br_provide_waker := br_provide_waker r; br_buf_index := br_buf_index r; br_woken := br_woken r |}.
Definition br_set_park gen waker woken r := {|
  br_bgid := br_bgid r; br_bgid_owned := br_bgid_owned r; br_data := br_data r;
  br_buf_size := br_buf_size r; br_entries := br_entries r; br_tail := br_tail r;
  br_shared_tail := br_shared_tail r; br_pending := br_pending r; br_awaiting := br_awaiting r;
  br_recv_off := br_recv_off r; br_provide_gen := gen; br_provide_waker := waker;
  br_buf_index := br_buf_index r; br_woken := woken |}.

Abbreviation MR := (M BufRing never).

(** [(bid & BUF_MASK) as usize]. *)
Definition bix (bid : Z) : nat := Z.to_nat (Z.land bid BUF_MASK).

(** A per-buffer [Cell], indexed by the masked id. *)
Definition cell {A} (l : list A) (bid : Z) : res never A := expect (l !! bix bid).

Definition ring_buf_index (r : BufRing) (bid : Z) : res never (option Z) := cell (br_buf_index r) bid.

Definition ring_buf (bid : Z) : MR Z :=
  r ← get;
  _ ← lift (assert (bid <? NBUFS));
  mret (br_data r + Z.land bid BUF_MASK * br_buf_size r).

Definition kernel_provide (bid : Z) : MR unit :=
  r ← get;
  p ← lift (cell (br_pending r) bid);
  _ ← lift (assert (p =? 0));
  let tail := br_tail r in
  let idx := bix tail in
  addr ← ring_buf bid;
  _ ← lift (assert (bool_decide (idx < length (br_entries r))%nat));
  let entries := <[idx := {| be_addr := addr; be_len := br_buf_size r; be_bid := bid |}]> (br_entries r) in
  let new_tail := wrap 16 (tail + 1) in
  _ ← modify (br_set_ring entries new_tail);
  _ ← modify (fun r => br_set_bufs (br_pending r) (<[bix bid := false]> (br_awaiting r))
                                   (<[bix bid := 0]> (br_recv_off r)) r);
  modify (fun r => br_set_park (wrap 64 (br_provide_gen r + 1)) None
    (br_woken r ++ match br_provide_waker r with Some w => [w] | None => [] end) r).

(** One poll of [wait_for_provide] by the task whose waker is [w]. *)
Definition wait_for_provide_poll (since : Z) (w : nat) : MR bool :=
  r ← get;
  if negb (br_provide_gen r =? since) then mret true
  else _ ← modify (br_set_park (br_provide_gen r) (Some w) (br_woken r)); mret false.

Definition borrow (bid : Z) : MR unit :=
  r ← get;
  p ← lift (cell (br_pending r) bid);
  n ← lift (checked 32 (p + 1));
  modify (fun r => br_set_bufs (<[bix bid := n]> (br_pending r)) (br_awaiting r) (br_recv_off r) r).

Definition release (bid : Z) : MR unit :=
  r ← get;
  p ← lift (cell (br_pending r) bid);
  _ ← lift (assert (0 <? p));
  n ← lift (checked 32 (p - 1));
  _ ← modify (fun r => br_set_bufs (<[bix bid := n]> (br_pending r)) (br_awaiting r) (br_recv_off r) r);
  aw ← lift (cell (br_awaiting r) bid);
  if (n =? 0) && aw then kernel_provide bid else mret tt.

Definition recv_off (bid : Z) : MR Z := r ← get; lift (cell (br_recv_off r) bid).

Definition recv_advance (bid len : Z) : MR unit :=
  off ← recv_off bid;
  n ← lift (checked 64 (off + len));
  modify (fun r => br_set_bufs (br_pending r) (br_awaiting r) (<[bix bid := n]> (br_recv_off r)) r).

Definition recv_done (bid : Z) : MR unit :=
  r ← get;
  p ← lift (cell (br_pending r) bid);
  if p =? 0 then kernel_provide bid
  else modify (fun r => br_set_bufs (br_pending r) (<[bix bid := true]> (br_awaiting r)) (br_recv_off r) r).

(** ** Construction *)

(** The buffer size for [ring_bytes]: half of it in whole pages, at least one. *)
Definition ring_buf_size (ring_bytes : Z) : Z :=
  Z.max (Z.land (ring_bytes / 2) (Z.lnot (PAGE - 1))) PAGE.

(** The registration loop: [reg i] is the reactor's answer for sub-buffer [i].
    [Err] carries the indices to unregister. *)
Fixpoint register_all (require_fixed : bool) (reg : nat -> option Z) (n i : nat) (got : list (option Z)) :
    res (list Z) (list (option Z)) :=
  match n with
  | O => Ok got
  | S n =>
      match reg i with
      | Some idx => register_all require_fixed reg n (S i) (got ++ [Some idx])
      | None => if require_fixed then Err (omap id got)
                else register_all require_fixed reg n (S i) (got ++ [None])
      end
  end.

(** [data] is the address of the buffer arena, [ring_ok] whether the kernel
    accepted the ring; [Err] carries the fixed-buffer indices unregistered. *)
Definition build (bgid : Z) (owned require_fixed : bool) (ring_bytes data : Z)
    (reg : nat -> option Z) (ring_ok : bool) : res (list Z) BufRing :=
  idx ← register_all require_fixed reg 2 0 [];
  if negb ring_ok then Err (omap id idx) else
  let br := {| br_bgid := bgid; br_bgid_owned := owned; br_data := data;
    br_buf_size := wrap 32 (ring_buf_size ring_bytes);
    br_entries := replicate 2 BufRingEntry_zeroed; br_tail := 0; br_shared_tail := 0;
    br_pending := [0; 0]; br_awaiting := [false; false]; br_recv_off := [0; 0];
    br_provide_gen := 0; br_provide_waker := None; br_buf_index := idx; br_woken := [] |} in
  match (_ ← kernel_provide 0; kernel_provide 1) br with
  | (br, Ok _) => Ok br
  | _ => Panic
  end.

(** The thread's free buffer-group ids: [None] until first used. *)
Abbreviation BgidPool := (option (list Z)).

Definition alloc_bgid (pool : BgidPool) : BgidPool * option Z :=
  match default (seqZ 0 BGID_RANGE) pool with
  | [] => (Some [], None)
  | b :: rest => (Some rest, Some b)
  end.

Definition free_bgid (bgid : Z) (pool : BgidPool) : BgidPool := (cons bgid) <$> pool.

(** [for_connection]; a failure returns the id to the pool. *)
Definition for_connection (ring_bytes data : Z) (reg : nat -> option Z) (ring_ok : bool)
    (pool : BgidPool) : BgidPool * res never (option BufRing) :=
  let '(pool, b) := alloc_bgid pool in
  match b with
  | None => (pool, Ok None)
  | Some bgid =>
      match build bgid true true ring_bytes data reg ring_ok with
      | Ok br => (pool, Ok (Some br))
      | Err _ => (free_bgid bgid pool, Ok None)
      | Panic => (pool, Panic)
      end
  end.

(** [Drop for BufRing]: the fixed-buffer indices unregistered, and the pool. *)
Definition BufRing_drop (r : BufRing) (pool : BgidPool) : BgidPool * list Z :=
  (if br_bgid_owned r then free_bgid (br_bgid r) pool else pool, omap id (br_buf_index r)).
