(* ===== verification/SendBatch.v ===== *)
(** * [ioutgt-uring/src/sendbatch.rs]: gather-send staging

    A [GatherBatch] is a header arena and a list of chunks (address, length)
    that one vectored send puts on the wire; a short send resumes where it
    stopped.  The arena is a region of the memory, written through
    [arena_tail]; an iovec is a segment. *)

From S2P Require Import Prelude Pool.

Definition UIO_MAXIOV : Z := 1024.

Record GatherBatch := {
  arena_ptr : Z;
  arena_len : Z;
  gb_buf_index : option Z;
  arena_used : Z;
  iovs : list Seg;
  iov_cap : Z;
  live : nat;
  gb_payload_bytes : Z;
  payload_items : Z;
}.

Definition GatherBatch_build (ptr len : Z) (idx : option Z) (cap : Z) : GatherBatch := {|
  arena_ptr := ptr; arena_len := len; gb_buf_index := idx; arena_used := 0; iovs := [];
  iov_cap := Z.min cap UIO_MAXIOV; live := 0; gb_payload_bytes := 0; payload_items := 0 |}.

(** [GatherBatch::new]; [addr] is the address of the boxed arena. *)
Definition GatherBatch_new (addr arena_bytes cap : Z) : GatherBatch :=
  GatherBatch_build addr (Z.max arena_bytes 4096) None cap.
Definition from_pool_arena (ptr len idx cap : Z) : GatherBatch :=
  GatherBatch_build ptr len (Some idx) cap.

Definition set_arena_used n b := {|
  arena_ptr := arena_ptr b; arena_len := arena_len b; gb_buf_index := gb_buf_index b;
  arena_used := n; iovs := iovs b; iov_cap := iov_cap b; live := live b;
  gb_payload_bytes := gb_payload_bytes b; payload_items := payload_items b |}.
Definition set_iovs l k b := {|
  arena_ptr := arena_ptr b; arena_len := arena_len b; gb_buf_index := gb_buf_index b;
  arena_used := arena_used b; iovs := l; iov_cap := iov_cap b; live := k;
  gb_payload_bytes := gb_payload_bytes b; payload_items := payload_items b |}.
Definition set_payload n k b := {|
  arena_ptr := arena_ptr b; arena_len := arena_len b; gb_buf_index := gb_buf_index b;
  arena_used := arena_used b; iovs := iovs b; iov_cap := iov_cap b; live := live b;
  gb_payload_bytes := n; payload_items := k |}.

Definition gather_reset (b : GatherBatch) : GatherBatch :=
  set_payload 0 0 (set_iovs [] 0 (set_arena_used 0 b)).

Abbreviation MG := (M GatherBatch never).

Definition note_payload (n : Z) : MG unit :=
  b ← get;
  p ← lift (checked 64 (gb_payload_bytes b + n));
  k ← lift (checked 64 (payload_items b + 1));
  modify (set_payload p k).

Definition avg_payload (b : GatherBatch) : Z :=
  if payload_items b =? 0 then 0 else gb_payload_bytes b / payload_items b.

Definition gather_fits (arena_need iovs_need : Z) (b : GatherBatch) : bool :=
  (arena_used b + arena_need <=? arena_len b) &&
  (Z.of_nat (length (iovs b)) + iovs_need <=? iov_cap b).

(** Append a chunk, merging it with the previous one when they touch. *)
Definition push_raw (p len : Z) : MG unit :=
  b ← get;
  if len =? 0 then mret tt else
  match list.last (iovs b) with
  | Some e =>
      if ptr e + seg_len e =? p then
        n ← lift (checked 64 (seg_len e + len));
        modify (set_iovs (removelast (iovs b) ++ [{| ptr := ptr e; seg_len := n |}]) (live b))
      else modify (set_iovs (iovs b ++ [{| ptr := p; seg_len := len |}]) (live b))
  | None => modify (set_iovs (iovs b ++ [{| ptr := p; seg_len := len |}]) (live b))
  end.

Definition push_arena (len : Z) : MG unit :=
  b ← get;
  let start := arena_used b in
  n ← lift (checked 64 (start + len));
  _ ← modify (set_arena_used n);
  push_raw (arena_ptr b + start) len.

(** The arena's unused part, as an encoder's buffer: [f] writes into it and
    says how many bytes. *)
Definition with_arena_tail (f : bytes -> res never (bytes * nat)) : M (GatherBatch * mem) never nat :=
  '(b, m) ← get;
  left ← lift (checked 64 (arena_len b - arena_used b));
  '(bs, n) ← lift (f (mem_read m (arena_ptr b + arena_used b) left));
  _ ← modify (fun '(b, m) => (b, mem_write m (arena_ptr b + arena_used b) bs));
  mret n.

(** The unsent suffix, which a send op is given. *)
Definition live_iov (b : GatherBatch) : res never (list Seg) :=
  _ ← assert (bool_decide (live b <= length (iovs b))%nat);
  mret (drop (live b) (iovs b)).

(** Skip what was sent, bump the entry sent in part; [true] when nothing is
    left.  The index grows every round, so [length l] rounds are enough. *)
Fixpoint advance_iovecs (fuel : nat) (l : list Seg) (k : nat) (sent : Z) : list Seg * nat * bool :=
  match fuel, l !! k with
  | S fuel, Some e =>
      if sent <? seg_len e
      then (<[k := {| ptr := ptr e + sent; seg_len := seg_len e - sent |}]> l, k, false)
      else advance_iovecs fuel l (S k) (sent - seg_len e)
  | _, _ => (l, k, true)
  end.

Definition gather_advance (sent : Z) : MG bool :=
  b ← get;
  let '(l, k, done) := advance_iovecs (length (iovs b)) (iovs b) (live b) sent in
  _ ← modify (set_iovs l k);
  mret done.
