(* ===== verification/Sender.v ===== *)
(** * [ioutgt-stream/src/lib.rs]: the gather-send harness

    [StreamSender] drains a send list in batches, ships each batch with one
    gather op at a time, and releases slot tags: at the send's completion when
    the op references no slot memory, after the zero-copy notifications
    otherwise.  The kernel's answers to the ops are arguments; ops and
    notifications are numbered in the order they are issued, and every op
    submitted is recorded with the chunks it was given. *)

From S2P Require Import Prelude Pool SlotQ SendBatch.

Inductive Staged := NoRelease | AtCqe (tag : Z) | AtNotif (tag : Z).

Record GatherSendBatch := {
  gather : GatherBatch;
  arena_per_item : Z;
  iovs_per_item : Z;
  tags_at_cqe : list Z;
  tags_at_notif : list Z;
  pending_notifs : list nat;
}.

Definition around (g : GatherBatch) (api ipi : Z) : GatherSendBatch := {|
  gather := g; arena_per_item := api; iovs_per_item := ipi; tags_at_cqe := [];
  tags_at_notif := []; pending_notifs := [] |}.

Definition GatherSendBatch_new (addr size api ipi : Z) : GatherSendBatch :=
  around (GatherBatch_new addr (size * api) (size * ipi + ipi)) api ipi.
Definition with_pool_arena (size api ipi ptr idx : Z) : GatherSendBatch :=
  around (from_pool_arena ptr (size * api) idx (size * ipi + ipi)) api ipi.

Definition set_gather g b := {|
  gather := g; arena_per_item := arena_per_item b; iovs_per_item := iovs_per_item b;
  tags_at_cqe := tags_at_cqe b; tags_at_notif := tags_at_notif b;
  pending_notifs := pending_notifs b |}.
Definition set_tags c n b := {|
  gather := gather b; arena_per_item := arena_per_item b; iovs_per_item := iovs_per_item b;
  tags_at_cqe := c; tags_at_notif := n; pending_notifs := pending_notifs b |}.
Definition set_notifs l b := {|
  gather := gather b; arena_per_item := arena_per_item b; iovs_per_item := iovs_per_item b;
  tags_at_cqe := tags_at_cqe b; tags_at_notif := tags_at_notif b; pending_notifs := l |}.

Definition batch_reset : M GatherSendBatch never unit :=
  _ ← modify (fun b => set_tags [] [] (set_gather (gather_reset (gather b)) b));
  b ← get;
  lift (assert (bool_decide (pending_notifs b = []))).

Definition batch_fits (b : GatherSendBatch) : bool :=
  gather_fits (arena_per_item b) (iovs_per_item b) (gather b).

Record StreamSender := {
  batches : list GatherSendBatch;
  inflight : list nat;
  zc_batches : Z;
  zc_copied : Z;
  zc_fallbacks : Z;
  vec_fixed_ok : bool;
  zc_min_avg : Z;
}.

Definition ZC_GATHER_CAP : Z := 1024 * 1024.
Definition DEFAULT_ZC_MIN_BYTES : Z := 12288.

(** [StreamSender::new]; [a0], [a1] are the boxed arenas' addresses. *)
Definition StreamSender_new (size api ipi : Z) (pool_arena : option (Z * Z)) (zc_min a0 a1 : Z) :
    StreamSender := {|
  batches := match pool_arena with
             | Some (ptr, idx) => [with_pool_arena size api ipi ptr idx;
                                   with_pool_arena size api ipi (ptr + size * api) idx]
             | None => [GatherSendBatch_new a0 size api ipi; GatherSendBatch_new a1 size api ipi]
             end;
  inflight := []; zc_batches := 0; zc_copied := 0; zc_fallbacks := 0;
  vec_fixed_ok := match pool_arena with Some _ => true | None => false end;
  zc_min_avg := zc_min |}.

Definition set_batch i b s := {|
  batches := <[i := b]> (batches s); inflight := inflight s; zc_batches := zc_batches s;
  zc_copied := zc_copied s; zc_fallbacks := zc_fallbacks s; vec_fixed_ok := vec_fixed_ok s;
  zc_min_avg := zc_min_avg s |}.
Definition set_inflight l s := {|
  batches := batches s; inflight := l; zc_batches := zc_batches s;
  zc_copied := zc_copied s; zc_fallbacks := zc_fallbacks s; vec_fixed_ok := vec_fixed_ok s;
  zc_min_avg := zc_min_avg s |}.
Definition set_zc_stats n c f s := {|
  batches := batches s; inflight := inflight s; zc_batches := n; zc_copied := c;
  zc_fallbacks := f; vec_fixed_ok := vec_fixed_ok s; zc_min_avg := zc_min_avg s |}.
Definition set_vec_fixed v s := {|
  batches := batches s; inflight := inflight s; zc_batches := zc_batches s;
  zc_copied := zc_copied s; zc_fallbacks := zc_fallbacks s; vec_fixed_ok := v;
  zc_min_avg := zc_min_avg s |}.

(** ** Shipping one batch *)

Inductive OpKind := SendMsg | SendMsgZc | SendZcVecFixed (idx : Z).

(** The environment of the send path: the next notification's number, and the
    ops submitted so far with their chunks. *)
Record SendEnv := { se_next : nat; se_ops : list (OpKind * list Seg) }.

(** Why [ship_batch] returned. *)
Inductive ship_end := WriteZero | Errno (e : Z).

Definition EINVAL : Z := 22.
Definition EFAULT : Z := 14.
Definition EOPNOTSUPP : Z := 95.
Definition ENOMEM : Z := 12.
Definition ENOBUFS : Z := 105.

Definition import_refused (e : Z) : bool := (e =? EINVAL) || (e =? EFAULT) || (e =? EOPNOTSUPP).
Definition pin_refused (e : Z) : bool := (e =? ENOMEM) || (e =? ENOBUFS).

Abbreviation MShip := (M (GatherSendBatch * StreamSender * SendEnv) ship_end).

Definition on_gather {E A} (m : M GatherBatch never A) : M (GatherSendBatch * StreamSender * SendEnv) E A :=
  fun '(b, s, e) =>
  match m (gather b) with
  | (g, Ok a) => ((set_gather g b, s, e), Ok a)
  | (g, _) => ((set_gather g b, s, e), Panic)
  end.

(** Submit one op; a zero-copy op leaves its notification with the batch. *)
Definition submit_op (use_zc : bool) : MShip (option Z) :=
  '(b, s, e) ← get;
  l ← lift (map_err (fun x : never => match x with end) (live_iov (gather b)));
  let fixed := if vec_fixed_ok s then gb_buf_index (gather b) else None in
  let kind := if use_zc then match fixed with Some i => SendZcVecFixed i | None => SendMsgZc end
              else SendMsg in
  _ ← modify (fun '(b, s, e) =>
        (if use_zc then set_notifs (pending_notifs b ++ [se_next e]) b else b, s,
         {| se_next := (if use_zc then S (se_next e) else se_next e);
            se_ops := se_ops e ++ [(kind, l)] |}));
  mret (if use_zc then fixed else None).

(** The kernel's answer to an op: refused at submission, or completed. *)
Inductive Answer := SubmitErr (err : Z) | Sent (n : Z) | SendErr (err : Z).

(** One round of [ship_batch]'s loop, given the op's answer: [inl tt] is done,
    [inr z] goes round again with [use_zc = z]. *)
Definition ship_round (use_zc : bool) (ans : Answer) : MShip (unit + bool) :=
  match ans with
  | SubmitErr err => fail (Errno err)
  | Sent n =>
      _ ← submit_op use_zc;
      if n =? 0 then fail WriteZero else
      fin ← on_gather (gather_advance n);
      mret (if fin : bool then inl tt else inr use_zc)
  | SendErr err =>
      fixed ← submit_op use_zc;
      if bool_decide (is_Some fixed) && import_refused err then
        _ ← modify (fun '(b, s, e) => (b, set_vec_fixed false s, e)); mret (inr use_zc)
      else if use_zc && pin_refused err then
        '(b, s, e) ← get;
        n ← lift (checked 64 (zc_fallbacks s + 1));
        _ ← modify (fun '(b, s, e) => (b, set_zc_stats (zc_batches s) (zc_copied s) n s, e));
        mret (inr false)
      else fail (Errno err)
  end.

(** [ship_batch] with the kernel's answers in order; [None]: still waiting. *)
Fixpoint ship_batch (answers : list Answer) (use_zc : bool) : MShip (option unit) :=
  match answers with
  | [] => mret None
  | a :: rest =>
      r ← ship_round use_zc a;
      match r with
      | inl _ => mret (Some tt)
      | inr z => ship_batch rest z
      end
  end.

(** ** Staging *)

Section Stage.
Context {W St : Type}.
(** The transport's staging closure, over the batch and the transport's state. *)
Variable stage : W -> M (GatherBatch * St) never Staged.

Definition add_tag (t : Staged) (b : GatherSendBatch) : GatherSendBatch :=
  match t with
  | NoRelease => b
  | AtCqe tag => set_tags (tags_at_cqe b ++ [tag]) (tags_at_notif b) b
  | AtNotif tag => set_tags (tags_at_cqe b) (tags_at_notif b ++ [tag]) b
  end.

(** [stage(&mut batch.gather, &w)], and the tag it classifies. *)
Definition stage_item (w : W) : M (GatherSendBatch * SendList W * St) never unit := fun '(b, l, st) =>
  match stage w (gather b, st) with
  | ((g, st), Ok t) => ((add_tag t (set_gather g b), l, st), Ok tt)
  | ((g, st), _) => ((set_gather g b, l, st), Panic)
  end.

Definition next_item : M (GatherSendBatch * SendList W * St) never (option W) := fun '(b, l, st) =>
  let '(l, w) := try_next l in ((b, l, st), Ok w).

(** A zero-copy batch holds enough payload. *)
Definition gathered_enough (cap : option Z) (g : GatherBatch) : bool :=
  match cap with
  | Some zc_min => (zc_min <=? avg_payload g) && (ZC_GATHER_CAP <=? gb_payload_bytes g)
  | None => false
  end.

(** Every round after the first takes an item off the list, so one more than
    its length is enough rounds. *)
Fixpoint stage_loop (fuel : nat) (cap : option Z) (w : W) :
    M (GatherSendBatch * SendList W * St) never (option W) :=
  match fuel with
  | O => panic
  | S fuel =>
      '(b, l, st) ← get;
      if negb (batch_fits b) then mret (Some w) else
      _ ← stage_item w;
      '(b, l, st) ← get;
      if gathered_enough cap (gather b) then mret None else
      item ← next_item;
      match item with
      | Some w => stage_loop fuel cap w
      | None => mret None
      end
  end.

Definition stage_batch (first : W) (cap : option Z) : M (GatherSendBatch * SendList W * St) never (option W) :=
  '(b, l, st) ← get;
  stage_loop (S (length (work l))) cap first.

End Stage.

(** ** Releasing tags *)

Section Release.
Context {C : Type}.
Abbreviation MS := (M (StreamSender * SlotArray C) never).

Definition release_tags (tags : list Z) : MS unit := fun '(s, a) =>
  match fold_left (fun (m : M (SlotArray C) never unit) t => _ ← m; release_tag t) tags (mret tt) a with
  | (a, r) => ((s, a), r)
  end.

Definition batch (i : nat) : MS GatherSendBatch :=
  '(s, a) ← get; lift (expect (batches s !! i)).
Definition put_batch (i : nat) (b : GatherSendBatch) : MS unit :=
  modify (fun '(s, a) => (set_batch i b s, a)).

Definition recycle (i : nat) : MS unit :=
  b ← batch i;
  _ ← release_tags (tags_at_notif b);
  match batch_reset b with
  | (b, Ok _) => put_batch i b
  | (b, _) => panic
  end.

(** [reap]: every pending notification of batch [i] has completed; [copied]
    tells which ones reported a copy. *)
Definition reap (copied : nat -> bool) (i : nat) : MS unit :=
  b ← batch i;
  '(s, a) ← get;
  n ← lift (checked 64 (zc_copied s + Z.of_nat (length (filter (fun k => copied k = true) (pending_notifs b)))));
  _ ← modify (fun '(s, a) => (set_zc_stats (zc_batches s) n (zc_fallbacks s) s, a));
  _ ← put_batch i (set_notifs [] b);
  recycle i.

Definition reap_oldest (copied : nat -> bool) : MS unit :=
  '(s, a) ← get;
  match inflight s with
  | [] => mret tt
  | i :: rest => _ ← modify (fun '(s, a) => (set_inflight rest s, a)); reap copied i
  end.

Definition acquire (copied : nat -> bool) : MS nat :=
  '(s, a) ← get;
  _ ← (if decide (length (inflight s) = length (batches s)) then reap_oldest copied else mret tt);
  '(s, a) ← get;
  lift (expect (head (filter (fun i => i ∉ inflight s) (seq 0 (length (batches s)))))).

Definition retire (i : nat) : MS unit :=
  b ← batch i;
  _ ← release_tags (tags_at_cqe b);
  _ ← put_batch i (set_tags [] (tags_at_notif b) b);
  if decide (pending_notifs b = []) then recycle i
  else
    '(s, a) ← get;
    n ← lift (checked 64 (zc_batches s + 1));
    modify (fun '(s, a) => (set_inflight (inflight s ++ [i]) (set_zc_stats n (zc_copied s) (zc_fallbacks s) s), a)).

(** [drain]: the in-flight batches, oldest first, then every batch. *)
Fixpoint reap_all (copied : nat -> bool) (l : list nat) : MS unit :=
  match l with
  | [] => mret tt
  | i :: l => _ ← reap copied i; reap_all copied l
  end.

Definition drain (copied : nat -> bool) : MS unit :=
  '(s, a) ← get;
  let l := inflight s in
  _ ← modify (fun '(s, a) => (set_inflight [] s, a));
  _ ← reap_all copied l;
  '(s, a) ← get;
  reap_all copied (seq 0 (length (batches s))).

(** [Drop for StreamSender]. *)
Definition StreamSender_drop (s : StreamSender) : res never unit :=
  _ ← assert (bool_decide (inflight s = []));
  assert (forallb (fun b => bool_decide (pending_notifs b = [])) (batches s)).

End Release.

(** [poll_notifs]: completed notifications are counted and removed; every round
    shortens what is left to visit, so [length l] rounds are enough. *)
Fixpoint poll_notifs (fuel : nat) (done : nat -> option bool) (i : nat) (l : list nat) (copied : Z) :
    list nat * Z :=
  match fuel, l !! i with
  | S fuel, Some k =>
      match done k with
      | Some c => poll_notifs fuel done i (swap_remove i l) (if c then copied + 1 else copied)
      | None => poll_notifs fuel done (S i) l copied
      end
  | _, _ => (l, copied)
  end.

(** ** The send loop *)

Section Loop.
Context {C W : Type}.

(** What the send loop reaches: the sender, the slot array, the send list, the
    memory the chunks point into, and the ops it issued. *)
Record SendSt := {
  ss_sender : StreamSender;
  ss_slots : SlotArray C;
  ss_work : SendList W;
  ss_mem : mem;
  ss_env : SendEnv;
}.

Variable stage : SlotArray C -> W -> M (GatherBatch * mem) never Staged.

Abbreviation ML := (M SendSt never).

Definition on_sender {A} (m : M (StreamSender * SlotArray C) never A) : ML A := fun st =>
  let '((s, a), r) := m (ss_sender st, ss_slots st) in
  ({| ss_sender := s; ss_slots := a; ss_work := ss_work st; ss_mem := ss_mem st;
      ss_env := ss_env st |}, r).

(** [stage_batch] on batch [i]. *)
Definition stage_on (i : nat) (first : W) (cap : option Z) : ML (option W) := fun st =>
  match batches (ss_sender st) !! i with
  | None => (st, Panic)
  | Some b =>
      let '((b, l, m), r) := stage_batch (stage (ss_slots st)) first cap (b, ss_work st, ss_mem st) in
      ({| ss_sender := set_batch i b (ss_sender st); ss_slots := ss_slots st; ss_work := l;
          ss_mem := m; ss_env := ss_env st |}, r)
  end.

(** [ship_batch] on batch [i]: [inl None] still waits for an answer. *)
Definition ship_on (i : nat) (answers : list Answer) (use_zc : bool) : ML (option unit + ship_end) :=
  fun st =>
  match batches (ss_sender st) !! i with
  | None => (st, Panic)
  | Some b =>
      let '((b, s, e), r) := ship_batch answers use_zc (b, ss_sender st, ss_env st) in
      ({| ss_sender := set_batch i b s; ss_slots := ss_slots st; ss_work := ss_work st;
          ss_mem := ss_mem st; ss_env := e |},
       match r with Ok x => Ok (inl x) | Err x => Ok (inr x) | Panic => Panic end)
  end.

(** A turn of [send_batches] up to the first op: the batch in hand, whether it
    goes zero-copy, and the item carried to the next turn.  [copied]: what the
    notifications awaited by [acquire] report. *)
Definition begin_turn (copied : nat -> bool) (send_zc : bool) (first : W) : ML (nat * bool * option W) :=
  st ← get;
  let zc_min := zc_min_avg (ss_sender st) in
  i ← on_sender (acquire copied);
  carry ← stage_on i first (if send_zc then Some zc_min else None);
  st ← get;
  b ← lift (expect (batches (ss_sender st) !! i));
  mret (i, send_zc && (zc_min <=? avg_payload (gather b)), carry).

(** One poll of [next_work_reaping] by task [t]; [done] tells which
    notifications have completed. *)
Inductive NextWork := NWork (w : option W) | NReaped | NPending.

Definition next_work_poll (t : nat) (done : nat -> option bool) : ML NextWork := fun st =>
  let '(l, r) := poll_next t (ss_work st) in
  let st := {| ss_sender := ss_sender st; ss_slots := ss_slots st; ss_work := l;
               ss_mem := ss_mem st; ss_env := ss_env st |} in
  match r with
  | Some w => (st, Ok (NWork w))
  | None =>
      match inflight (ss_sender st) with
      | [] => (st, Ok NPending)
      | front :: rest =>
          (b ← on_sender (batch front);
           let '(l, n) := poll_notifs (length (pending_notifs b)) done 0 (pending_notifs b)
                            (zc_copied (ss_sender st)) in
           _ ← on_sender (modify (fun '(s, a) =>
                 (set_batch front (set_notifs l b) (set_zc_stats (zc_batches s) n (zc_fallbacks s) s), a)));
           if decide (l = []) then
             _ ← on_sender (modify (fun '(s, a) => (set_inflight rest s, a)));
             _ ← on_sender (recycle front); mret NReaped
           else mret NPending) st
      end
  end.

End Loop.
Arguments SendSt : clear implicits.
