(* ===== verification/TcpQueue.v ===== *)
(** * [ioutgt-nvme-tcp/src/queue.rs]: the connection's shared queue

    [Conn] is what the receive loop, the slot tasks and the send loop of one
    connection share: the dispatch context ([World], which holds the queue's
    slots, core and memory), the transport's send list, the traffic mark and,
    in ring mode, the receive ring.  A slot buffer that borrows from the ring
    gives it back when it is dropped: the [ReleaseRing] events of a slot
    operation are applied to the ring as part of it. *)

From S2P Require Import Prelude Spec Pool SlotQ Dispatch BufRing.

Record Completion := { co_tag : Z; co_cqe : Cqe; co_data_len : Z }.

Inductive SendWork :=
| Response (c : Completion)
| R2t (tag cid offset length : Z).

Section Conn.
Context {B : Type}.

Record Conn := {
  c_world : World B;
  c_send : SendList SendWork;
  c_traffic : bool;
  c_ring : option BufRing;
}.

Definition c_set_world w c :=
  {| c_world := w; c_send := c_send c; c_traffic := c_traffic c; c_ring := c_ring c |}.
Definition c_set_send l c :=
  {| c_world := c_world c; c_send := l; c_traffic := c_traffic c; c_ring := c_ring c |}.
Definition c_set_traffic b c :=
  {| c_world := c_world c; c_send := c_send c; c_traffic := b; c_ring := c_ring c |}.
Definition c_set_ring r c :=
  {| c_world := c_world c; c_send := c_send c; c_traffic := c_traffic c; c_ring := r |}.

(** Effects of the parts; none of them returns an error. *)
Definition no_err {E A} (r : res never A) : res E A :=
  match r with Ok a => Ok a | Err e => match e with end | Panic => Panic end.

Definition on_world {E A} (m : M (World B) never A) : M Conn E A := fun c =>
  let '(w, r) := m (c_world c) in (c_set_world w c, no_err r).

Definition on_ring {E A} (m : M BufRing never A) : M Conn E A := fun c =>
  match c_ring c with
  | Some r => let '(r, x) := m r in (c_set_ring (Some r) c, no_err x)
  | None => (c, Panic)
  end.

(** The ring buffers given back by the events of a slot operation. *)
Fixpoint release_events {E} (evs : list Event) : M Conn E unit :=
  match evs with
  | [] => mret tt
  | ReleaseRing bid :: evs => _ ← on_ring (release bid); release_events evs
  | Wake _ :: evs => release_events evs
  end.

Definition on_queue {E A} (m : M (SlotArray Sqe) never A) : M Conn E A :=
  c ← get;
  let n := length (events (w_slots (c_world c))) in
  x ← on_world (on_slots m);
  c ← get;
  _ ← release_events (drop n (events (w_slots (c_world c))));
  mret x.

Definition push_send {E} (x : SendWork) : M Conn E unit := fun c =>
  let '(l, woken) := push x (c_send c) in
  (c_set_world (wake_all (match woken with Some t => [t] | None => [] end) (c_world c))
     (c_set_send l c), Ok tt).

(** ** [NvmeTcpQueue] *)

Definition q_submit {E} (tag : Z) (sqe : Sqe) : M Conn E unit :=
  _ ← modify (c_set_traffic true);
  on_queue (submit tag sqe).

Definition take_traffic : M Conn never bool :=
  c ← get;
  _ ← modify (c_set_traffic false);
  mret (c_traffic c).

Definition q_complete {E} (tag : Z) (cqe : Cqe) (data_len : Z) : M Conn E unit :=
  _ ← on_queue (begin_respond tag);
  push_send (Response {| co_tag := tag; co_cqe := cqe; co_data_len := data_len |}).

Definition complete_receiving {E} (tag : Z) (cqe : Cqe) : M Conn E unit :=
  _ ← on_queue (respond_receiving tag);
  push_send (Response {| co_tag := tag; co_cqe := cqe; co_data_len := 0 |}).

Definition solicit {E} (tag cid offset length : Z) : M Conn E unit :=
  _ ← on_queue (debug_assert_state tag Receiving);
  push_send (R2t tag cid offset length).

Definition close_send : M Conn never unit := fun c =>
  let '(l, woken) := close (c_send c) in
  (c_set_world (wake_all (match woken with Some t => [t] | None => [] end) (c_world c))
     (c_set_send l c), Ok tt).

End Conn.
Arguments Conn : clear implicits.
