(* ===== verification/Recv.v ===== *)
(** * [ioutgt-nvme-tcp/src/recv.rs]: the receive path

    The phase machine over the bytes of a connection: headers through the
    decoder, payloads into slot buffers (copied, or retained in place in the
    receive ring), data digests.  A window is its address and its bytes.  The
    only await inside a window is the wait for a tag: [Waiting] holds the
    command that waits, and [resume_capsule] continues it.  Everything is
    relative to the digest library. *)

From S2P Require Import Prelude Digest Spec Pdu Pool SlotQ Backend Dispatch BufRing TcpQueue.

Inductive PayloadKind := InCapsule | H2c (last : bool) (length : Z).

Record DataPhase := {
  ph_tag : Z;
  ph_base : Z;
  ph_remaining : Z;
  ph_crc : Crc32c;
  ph_ddgst : bool;
  ph_kind : PayloadKind;
  ph_retained : bool;
}.

Record DdgstPhase := {
  dg_tag : Z;
  dg_expected : Z;
  dg_have : bytes;
  dg_have_len : nat;
  dg_kind : PayloadKind;
}.

Inductive RecvPhase := PHeader | PData (d : DataPhase) | PDdgst (d : DdgstPhase).

Definition RecvPhase_ddgst (tag expected : Z) (kind : PayloadKind) : RecvPhase :=
  PDdgst {| dg_tag := tag; dg_expected := expected; dg_have := zeroes 4; dg_have_len := 0;
            dg_kind := kind |}.

Inductive RecvEnd :=
| RIo (errno : Z)
| RTerm (err : PduError)
| HostTerm (fes fei : Z)
| RClosed.

Definition RecvEnd_term (code : Z) : RecvEnd := RTerm {| err_fes := code; err_fei := 0 |}.

Definition H2C_DIRECT_MIN : Z := 16 * 1024.

(** [RingCtx]: the sub-buffer of the current window, in ring mode. *)
Abbreviation RingCtx := Z.

(** The unconsumed part of a window. *)
Record Slice := { sl_ptr : Z; sl_bytes : bytes }.
Definition sl_advance (n : nat) (s : Slice) : Slice :=
  {| sl_ptr := sl_ptr s + Z.of_nat n; sl_bytes := drop n (sl_bytes s) |}.

Definition needs_r2t (sqe : Sqe) : bool :=
  (Z.land (sqe_opcode sqe) 0x3 =? 0x1) &&
  (sgl_type (sqe_dptr sqe) =? sgl.TYPE_TRANSPORT_DATA_BLOCK) &&
  (0 <? sgl_length (sqe_dptr sqe)).

Section Recv.
Context {B : Type} {L : Crc32cLib}.
Abbreviation MC := (M (Conn B) RecvEnd).

(** [queue.slot(tag)]. *)
Definition q_slot {E} (tag : Z) : M (Conn B) E (Slot Sqe) := on_queue (slot tag).

(** [slot.data().write_at(dest, src)]. *)
Definition slot_write {E} (tag dest : Z) (src : bytes) : M (Conn B) E unit :=
  s ← q_slot tag;
  on_world (w ← get;
            m ← lift (write_at (data s) dest src (w_mem w));
            modify (set_store (w_backends w) m)).

Definition try_retain_payload {E} (bid : RingCtx) (tag payload_ptr payload_len : Z) : M (Conn B) E bool :=
  c ← get;
  r ← lift (expect (c_ring c));
  let cap := br_buf_size r in
  start ← on_ring (ring_buf bid);
  let off := wrap 64 (payload_ptr - start) in
  if (cap <? off) || (cap - off <? payload_len) then mret false
  else
    _ ← on_ring (borrow bid);
    _ ← on_queue (set_data tag (SlotData_ring bid payload_ptr payload_len));
    mret true.

Definition finish_payload (tag : Z) (kind : PayloadKind) : M (Conn B) PduError unit :=
  s ← q_slot tag;
  match kind with
  | InCapsule => q_submit tag (cmd s)
  | H2c last length =>
      fin ← lift (checked 32 (recv_offset s + length));
      _ ← on_queue (set_recv_offset tag fin);
      if fin =? data_len s then q_submit tag (cmd s)
      else if last : bool then fail {| err_fes := fes.DATA_OUT_OF_RANGE; err_fei := 0 |}
      else mret tt
  end.

(** [?] on a [PduError]. *)
Definition from_pdu {A} (m : M (Conn B) PduError A) : MC A := fun c =>
  match m c with
  | (c, Ok a) => (c, Ok a)
  | (c, Err e) => (c, Err (RTerm e))
  | (c, Panic) => (c, Panic)
  end.

(** The length of the PDU's payload, and where its next byte goes. *)
Definition payload_total (d : DataPhase) (s : Slot Sqe) : Z :=
  match ph_kind d with InCapsule => data_len s | H2c _ length => length end.
Definition payload_dest {E} (d : DataPhase) (s : Slot Sqe) : res E Z :=
  got ← checked 32 (payload_total d s - ph_remaining d);
  checked 32 (ph_base d + got).

Definition ph_take (n : nat) (crc : Crc32c) (d : DataPhase) : DataPhase :=
  {| ph_tag := ph_tag d; ph_base := ph_base d; ph_remaining := ph_remaining d - Z.of_nat n;
     ph_crc := crc; ph_ddgst := ph_ddgst d; ph_kind := ph_kind d; ph_retained := ph_retained d |}.

(** After the payload: its digest, or the end of the PDU. *)
Definition payload_done (d : DataPhase) : MC RecvPhase :=
  if ph_ddgst d then mret (RecvPhase_ddgst (ph_tag d) (Crc32c_finalize (ph_crc d)) (ph_kind d))
  else _ ← from_pdu (finish_payload (ph_tag d) (ph_kind d)); mret PHeader.

(** [DataPhase::advance]: the phase afterwards and the bytes left. *)
Definition DataPhase_advance (d : DataPhase) (sl : Slice) : MC (RecvPhase * Slice) :=
  let n := Nat.min (Z.to_nat (ph_remaining d)) (length (sl_bytes sl)) in
  let piece := take n (sl_bytes sl) in
  _ ← (if ph_retained d then mret tt
       else s ← q_slot (ph_tag d);
            dest ← lift (payload_dest d s);
            slot_write (ph_tag d) dest piece);
  let crc := if ph_ddgst d then Crc32c_update (ph_crc d) piece else ph_crc d in
  let d := ph_take n crc d in
  if 0 <? ph_remaining d then mret (PData d, sl_advance n sl)
  else p ← payload_done d; mret (p, sl_advance n sl).

Definition dg_take (n : nat) (have : bytes) (d : DdgstPhase) : DdgstPhase :=
  {| dg_tag := dg_tag d; dg_expected := dg_expected d; dg_have := have;
     dg_have_len := dg_have_len d + n; dg_kind := dg_kind d |}.

(** A command still being received fails with [DATA_XFER_ERROR]. *)
Definition fail_digest (tag : Z) : MC RecvPhase :=
  s ← q_slot tag;
  head ← on_world (on_core advance_sqhd);
  c ← get;
  _ ← complete_receiving tag (Cqe_new 0 head (qc_qid (w_core (c_world c))) (sqe_cid (cmd s))
                                (status.dnr status.DATA_XFER_ERROR));
  mret PHeader.

Definition DdgstPhase_advance (d : DdgstPhase) (sl : Slice) : MC (RecvPhase * Slice) :=
  k ← lift (usub 4 (dg_have_len d));
  let n := Nat.min k (length (sl_bytes sl)) in
  have ← lift (copy_into (dg_have d) (dg_have_len d) (take n (sl_bytes sl)));
  let d := dg_take n have d in
  if decide (dg_have_len d < 4)%nat then mret (PDdgst d, sl_advance n sl)
  else if negb (le_combine (dg_have d) =? dg_expected d)
  then p ← fail_digest (dg_tag d); mret (p, sl_advance n sl)
  else _ ← from_pdu (finish_payload (dg_tag d) (dg_kind d)); mret (PHeader, sl_advance n sl).

(** ** PDU headers *)

Definition validate_h2c (cid ttag offset length data_len_ : Z) : MC Z :=
  c ← get;
  if sqsize (w_core (c_world c)) <=? ttag
  then fail (RTerm {| err_fes := fes.INVALID_PDU_HDR; err_fei := 10 |})
  else
    s ← q_slot ttag;
    let valid :=
      bool_decide (state s = Receiving) && (sqe_cid (cmd s) =? cid) && (offset =? recv_offset s) &&
      match checked_add 32 offset length with Some e => e <=? data_len s | None => false end &&
      (0 <? length) in
    if negb valid then fail (RecvEnd_term fes.DATA_OUT_OF_RANGE)
    else if negb (data_len_ =? length)
    then fail (RTerm {| err_fes := fes.INVALID_PDU_HDR; err_fei := 16 |})
    else mret ttag.

(** A command capsule, once it has its tag. *)
Definition capsule_tagged (tag : Z) (sqe : Sqe) (len : Z) (ddgst : bool)
    (rc : option RingCtx) (payload_ptr : Z) : MC (option RecvPhase) :=
  _ ← q_slot tag;
  if 0 <? len then
    if MDTS_BYTES <? len then fail (RecvEnd_term fes.DATA_LIMIT_EXCEEDED) else
    retained ← match rc with
               | Some bid => try_retain_payload bid tag payload_ptr len
               | None => mret false
               end;
    c ← get;
    _ ← (if retained : bool then mret tt
         else on_queue (lease_or_owned tag len (w_heap (c_world c))));
    _ ← on_queue (set_data_len tag len);
    _ ← on_queue (stash_cmd tag sqe);
    mret (Some (PData {| ph_tag := tag; ph_base := 0; ph_remaining := len; ph_crc := Crc32c_new;
                         ph_ddgst := ddgst; ph_kind := InCapsule; ph_retained := retained |}))
  else if needs_r2t sqe then
    let length := sgl_length (sqe_dptr sqe) in
    if MDTS_BYTES <? length then fail (RecvEnd_term fes.DATA_LIMIT_EXCEEDED) else
    c ← get;
    _ ← on_queue (lease_or_owned tag length (w_heap (c_world c)));
    _ ← on_queue (set_data_len tag length);
    _ ← on_queue (set_recv_offset tag 0);
    _ ← on_queue (stash_cmd tag sqe);
    _ ← solicit tag (sqe_cid sqe) 0 length;
    mret None
  else _ ← q_submit tag sqe; mret None.

(** A capsule waiting for a tag: the arguments of [handle_capsule_cmd]. *)
Record Capsule := {
  ca_sqe : Sqe;
  ca_data_len : Z;
  ca_ddgst : bool;
  ca_ring : option RingCtx;
  ca_payload_ptr : Z;
}.

Inductive Handled := Routed (p : option RecvPhase) | Waiting (k : Capsule).

(** [handle_capsule_cmd], one poll of its [await_tag] by the receive task [t]. *)
Definition handle_capsule_cmd (t : nat) (k : Capsule) : MC Handled :=
  tag ← on_queue (await_tag_poll t);
  match tag with
  | None => mret (Waiting k)
  | Some tag =>
      p ← capsule_tagged tag (ca_sqe k) (ca_data_len k) (ca_ddgst k) (ca_ring k) (ca_payload_ptr k);
      mret (Routed p)
  end.

Definition handle_pdu (t : nat) (pdu : DecodedPdu) (data_digest : bool)
    (rc : option RingCtx) (payload_ptr : Z) : MC Handled :=
  let ddgst := dp_ddgst pdu && data_digest in
  match dp_kind pdu with
  | KCapsuleCmd sqe =>
      handle_capsule_cmd t {| ca_sqe := sqe; ca_data_len := dp_data_len pdu; ca_ddgst := ddgst;
                              ca_ring := rc; ca_payload_ptr := payload_ptr |}
  | KH2CData cid ttag offset length last =>
      tag ← validate_h2c cid ttag offset length (dp_data_len pdu);
      s ← q_slot tag;
      retained ← match rc with
                 | Some bid =>
                     if (offset =? 0) && (length =? data_len s)
                     then try_retain_payload bid tag payload_ptr length else mret false
                 | None => mret false
                 end;
      mret (Routed (Some (PData {| ph_tag := tag; ph_base := offset; ph_remaining := length;
              ph_crc := Crc32c_new; ph_ddgst := ddgst; ph_kind := H2c last length;
              ph_retained := retained |})))
  | KH2CTerm fes fei => fail (HostTerm fes fei)
  | KIcReq _ | KIcResp _ | KCapsuleResp _ | KC2HData _ _ _ _ _ | KR2T _ _ _ _ =>
      fail (RecvEnd_term fes.PDU_SEQ_ERR)
  end.

(** ** The receive loop *)

(** Its local state: decoder and phase. *)
Record RecvSt := { rx_conn : Conn B; rx_decoder : PduDecoder; rx_phase : RecvPhase }.

Abbreviation MX := (M RecvSt RecvEnd).

Definition on_conn {A} (m : MC A) : MX A := fun x =>
  let '(c, r) := m (rx_conn x) in
  ({| rx_conn := c; rx_decoder := rx_decoder x; rx_phase := rx_phase x |}, r).
Definition on_decoder {A} (m : M PduDecoder PduError A) : MX A := fun x =>
  let '(d, r) := m (rx_decoder x) in
  ({| rx_conn := rx_conn x; rx_decoder := d; rx_phase := rx_phase x |}, map_err RTerm r).
Definition set_phase (p : RecvPhase) : MX unit :=
  modify (fun x => {| rx_conn := rx_conn x; rx_decoder := rx_decoder x; rx_phase := p |}).

Definition feed_header (t : nat) (data_digest : bool) (rc : option RingCtx) (sl : Slice) :
    MX (Handled * Slice) :=
  consumed ← on_decoder (feed (sl_bytes sl));
  _ ← on_conn (lift (assert (bool_decide (consumed <= length (sl_bytes sl))%nat)));
  let sl := sl_advance consumed sl in
  x ← get;
  if negb (is_complete (rx_decoder x)) then mret (Routed None, sl)
  else
    pdu ← on_decoder PduDecoder_take;
    h ← on_conn (handle_pdu t pdu data_digest rc (sl_ptr sl));
    mret (h, sl).

(** One round of the loop over a window. *)
Definition recv_round (t : nat) (data_digest : bool) (rc : option RingCtx) (sl : Slice) :
    MX (option Capsule * Slice) :=
  x ← get;
  match rx_phase x with
  | PHeader =>
      '(h, sl) ← feed_header t data_digest rc sl;
      match h with
      | Routed (Some p) => _ ← set_phase p; mret (None, sl)
      | Routed None => mret (None, sl)
      | Waiting k => mret (Some k, sl)
      end
  | PData d => '(p, sl) ← on_conn (DataPhase_advance d sl); _ ← set_phase p; mret (None, sl)
  | PDdgst d => '(p, sl) ← on_conn (DdgstPhase_advance d sl); _ ← set_phase p; mret (None, sl)
  end.

(** What is left of a window when the loop stops: nothing, or a capsule that
    waits for a tag and the bytes behind it. *)
Inductive WindowEnd := Drained | Blocked (k : Capsule) (sl : Slice).

(** [while !slice.is_empty()]: every round consumes a byte, so the window's
    length is enough rounds. *)
Fixpoint recv_window (fuel : nat) (t : nat) (data_digest : bool) (rc : option RingCtx) (sl : Slice) :
    MX WindowEnd :=
  match sl_bytes sl with
  | [] => mret Drained
  | _ =>
      match fuel with
      | O => panic
      | S fuel =>
          '(k, sl) ← recv_round t data_digest rc sl;
          match k with
          | Some k => mret (Blocked k sl)
          | None => recv_window fuel t data_digest rc sl
          end
      end
  end.

Definition recv_bytes (t : nat) (data_digest : bool) (rc : option RingCtx) (sl : Slice) : MX WindowEnd :=
  recv_window (length (sl_bytes sl)) t data_digest rc sl.

(** A waiting capsule is polled again; once it has its tag the window goes on. *)
Definition resume_capsule (t : nat) (data_digest : bool) (rc : option RingCtx) (k : Capsule) (sl : Slice) :
    MX WindowEnd :=
  h ← on_conn (handle_capsule_cmd t k);
  match h with
  | Waiting k => mret (Blocked k sl)
  | Routed (Some p) => _ ← set_phase p; recv_bytes t data_digest rc sl
  | Routed None => recv_bytes t data_digest rc sl
  end.

(** ** Direct receive of a large tail *)

(** [fill_subsegs]: the sub-segments covering [off, off + len). *)
Fixpoint fill_subsegs {E} (out : list Seg) (n : nat) (l : list Seg) (off len : Z) : res E (list Seg * nat) :=
  match l with
  | [] => Ok (out, n)
  | seg :: l =>
      if len =? 0 then Ok (out, n)
      else if seg_len seg <=? off then fill_subsegs out n l (off - seg_len seg) len
      else
        let k := Z.min (seg_len seg - off) len in
        _ ← assert (bool_decide (n < length out)%nat);
        fill_subsegs (<[n := {| ptr := ptr seg + off; seg_len := k |}]> out) (S n) l 0 (len - k)
  end.

(** The destination of the tail: its sub-segments. *)
Definition tail_subsegs (d : DataPhase) : MC (list Seg) :=
  s ← q_slot (ph_tag d);
  dest ← lift (payload_dest d s);
  '(subs, n) ← lift (fill_subsegs null_segs 0 (segs (data s)) dest (ph_remaining d));
  mret (take n subs).

(** The drained window ended inside a large H2C payload, in classic mode. *)
Definition wants_direct (is_ring : bool) (p : RecvPhase) : option DataPhase :=
  match p with
  | PData d =>
      if negb is_ring && match ph_kind d with H2c _ _ => true | InCapsule => false end
         && (H2C_DIRECT_MIN <=? ph_remaining d) then Some d else None
  | _ => None
  end.

(** After the kernel filled the sub-segments with [got] bytes. *)
Definition recv_tail_landed (d : DataPhase) (subs : list Seg) (got : Z) : MC RecvPhase :=
  if got <? ph_remaining d then fail RClosed else
  c ← get;
  let crc := if ph_ddgst d
             then foldl (fun crc s => Crc32c_update crc (mem_read (w_mem (c_world c)) (ptr s) (seg_len s)))
                        (ph_crc d) subs
             else ph_crc d in
  payload_done (ph_take (Z.to_nat (ph_remaining d)) crc d).

(** ** [recv_loop]'s endings *)

(** The C2HTermReq sent, if any, and the result. *)
Definition send_term (err : PduError) : res never bytes :=
  '(b, n) ← encode_c2h_term (zeroes 24) err;
  _ ← assert (bool_decide (n = 24)%nat);
  mret b.

Definition recv_end (r : res RecvEnd unit) : res never (option bytes * option Z) :=
  match r with
  | Ok _ | Err RClosed => Ok (None, None)
  | Err (RIo e) => Ok (None, Some e)
  | Err (RTerm err) => b ← send_term err; mret (Some b, None)
  | Err (HostTerm _ _) => Ok (None, None)
  | Panic => Panic
  end.

End Recv.
Arguments RecvSt : clear implicits.
