(* ===== verification/Reader.v ===== *)
(** * [ioutgt-stream/src/reader.rs]: the buffered byte source

    Classic mode refills one scratch buffer with a [recv]; ring mode hands out
    the chunks of a multishot receive from a [BufRing].  Completions are
    arguments: the bytes a [recv] returned, or the next event of the multishot
    receive.  [read_direct_vectored] fills the caller's segments, resuming after
    a short receive. *)

From S2P Require Import Prelude Pool BufRing.

(** ** Classic mode *)

Record ClassicMode := { cm_buf : bytes; cm_filled : nat; cm_pos : nat }.

Definition ClassicMode_new (cap : nat) : ClassicMode :=
  {| cm_buf := zeroes cap; cm_filled := 0; cm_pos := 0 |}.

(** [rv]: the completion of the [recv] issued when the window is drained,
    either an errno or the bytes put at the front of the buffer. *)
Definition ClassicMode_fill (rv : res Z bytes) : M ClassicMode Z bytes :=
  c ← get;
  _ ← (if decide (cm_pos c = cm_filled c) then
         d ← lift rv;
         b ← lift (copy_into (cm_buf c) 0 d);
         modify (fun _ => {| cm_buf := b; cm_filled := length d; cm_pos := 0 |})
       else mret tt);
  c ← get;
  _ ← lift (assert (bool_decide (cm_pos c <= cm_filled c <= length (cm_buf c))%nat));
  mret (bytes_at (cm_buf c) (cm_pos c) (cm_filled c - cm_pos c)).

Definition ClassicMode_consume (n : nat) : M ClassicMode Z unit :=
  c ← get;
  _ ← lift (assert (bool_decide (cm_pos c + n <= cm_filled c)%nat));
  modify (fun c => {| cm_buf := cm_buf c; cm_filled := cm_filled c; cm_pos := cm_pos c + n |}).

(** ** Ring mode *)

Record Cur := { cur_bid : Z; cur_off : Z; cur_len : Z; cur_pos : Z; cur_buf_more : bool }.

(** [rm_op]: a multishot receive is armed. *)
Record RingMode := { rm_op : bool; rm_cur : option Cur; rm_armed_gen : Z }.

Definition RingMode_new : RingMode := {| rm_op := false; rm_cur := None; rm_armed_gen := 0 |}.

Definition rm_set_cur c m := {| rm_op := rm_op m; rm_cur := c; rm_armed_gen := rm_armed_gen m |}.
Definition rm_set_op b g m := {| rm_op := b; rm_cur := rm_cur m; rm_armed_gen := g |}.

(** The reader and the connection's ring. *)
Abbreviation MRing := (M (RingMode * BufRing) Z).

Definition on_br {A} (m : M BufRing never A) : MRing A := fun '(rm, r) =>
  let '(r, x) := m r in
  ((rm, r), match x with Ok a => Ok a | Err e => match e with end | Panic => Panic end).

(** A window: address, length and buffer id. *)
Record RingWindow := { rw_addr : Z; rw_len : Z; rw_bid : Z }.

(** What is left of the chunk in hand; a drained one is put away. *)
Definition fill_current : MRing (option RingWindow) :=
  '(rm, r) ← get;
  match rm_cur rm with
  | None => mret None
  | Some cur =>
      if cur_pos cur <? cur_len cur then
        a ← on_br (ring_buf (cur_bid cur));
        mret (Some {| rw_addr := a + (cur_off cur + cur_pos cur);
                      rw_len := cur_len cur - cur_pos cur; rw_bid := cur_bid cur |})
      else
        _ ← (if cur_buf_more cur then mret tt else on_br (recv_done (cur_bid cur)));
        _ ← modify (fun '(rm, r) => (rm_set_cur None rm, r));
        mret None
  end.

(** Arm the multishot receive, noting the provide generation first. *)
Definition fill_arm (armed : res Z unit) : MRing unit :=
  '(rm, r) ← get;
  if rm_op rm then mret tt else
  _ ← modify (fun '(rm, r) => (rm_set_op false (br_provide_gen r) rm, r));
  _ ← lift armed;
  modify (fun '(rm, r) => (rm_set_op true (rm_armed_gen rm) rm, r)).

Inductive RecvEvent := EvChunk (c : RecvChunk) | EvErr (errno : Z) | EvEof.
Inductive Filled := FWindow (w : RingWindow) | FPark | FEof.

Definition ENOBUFS : Z := 105.

(** The next event of the armed receive. *)
Definition fill_event (ev : RecvEvent) : MRing Filled :=
  match ev with
  | EvChunk c =>
      _ ← (if rc_more c then mret tt
           else modify (fun '(rm, r) => (rm_set_op false (rm_armed_gen rm) rm, r)));
      off ← on_br (recv_off (rc_bid c));
      _ ← (if rc_buf_more c then on_br (recv_advance (rc_bid c) (rc_len c)) else mret tt);
      _ ← modify (fun '(rm, r) => (rm_set_cur (Some {| cur_bid := rc_bid c; cur_off := off;
            cur_len := rc_len c; cur_pos := 0; cur_buf_more := rc_buf_more c |}) rm, r));
      a ← on_br (ring_buf (rc_bid c));
      mret (FWindow {| rw_addr := a + off; rw_len := rc_len c; rw_bid := rc_bid c |})
  | EvErr e =>
      if e =? ENOBUFS
      then _ ← modify (fun '(rm, r) => (rm_set_op false (rm_armed_gen rm) rm, r)); mret FPark
      else fail e
  | EvEof => mret FEof
  end.

(** Parked on a drained ring: one poll of [wait_for_provide]. *)
Definition fill_park_poll (t : nat) : MRing bool :=
  '(rm, r) ← get;
  on_br (wait_for_provide_poll (rm_armed_gen rm) t).

Definition RingMode_consume (n : Z) : MRing unit :=
  '(rm, r) ← get;
  cur ← lift (expect (rm_cur rm));
  _ ← lift (assert (cur_pos cur + n <=? cur_len cur));
  modify (fun '(rm, r) => (rm_set_cur (Some {| cur_bid := cur_bid cur; cur_off := cur_off cur;
    cur_len := cur_len cur; cur_pos := cur_pos cur + n; cur_buf_more := cur_buf_more cur |}) rm, r)).

(** ** Direct receive *)

Fixpoint iov_total (l : list Seg) : Z :=
  match l with [] => 0 | s :: l => seg_len s + iov_total l end.

(** The kernel scatters received bytes over the chunks it was given. *)
Fixpoint scatter (m : mem) (l : list Seg) (d : bytes) : mem :=
  match l with
  | [] => m
  | s :: l =>
      let n := Z.to_nat (Z.min (seg_len s) (Z.of_nat (length d))) in
      scatter (mem_write m (ptr s) (take n d)) l (drop n d)
  end.

(** Advance past [adv] landed bytes; [length iovs] rounds are enough. *)
Fixpoint advance_direct (fuel : nat) (iovs : list Seg) (idx : nat) (adv : Z) : res Z (list Seg * nat) :=
  if adv <=? 0 then Ok (iovs, idx) else
  match fuel with
  | O => Panic
  | S fuel =>
      v ← expect (iovs !! idx);
      if seg_len v <=? adv then advance_direct fuel iovs (S idx) (adv - seg_len v)
      else Ok (<[idx := {| ptr := ptr v + adv; seg_len := seg_len v - adv |}]> iovs, idx)
  end.

(** The loop of [read_direct_vectored], one completion per round: an errno, or
    the bytes received into the chunks from [idx] on.  [None]: still waiting. *)
Fixpoint direct_loop (comps : list (res Z bytes)) (iovs : list Seg) (idx : nat) (done total : Z) :
    M mem Z (option Z) :=
  if total <=? done then mret (Some done) else
  match comps with
  | [] => mret None
  | c :: comps =>
      d ← lift c;
      _ ← lift (assert (bool_decide (idx <= length iovs)%nat));
      let n := Z.of_nat (length d) in
      if n =? 0 then mret (Some done) else
      _ ← modify (fun m => scatter m (drop idx iovs) d);
      '(iovs, idx) ← lift (advance_direct (S (length iovs)) iovs idx n);
      direct_loop comps iovs idx (done + n) total
  end.

Definition read_direct_vectored (comps : list (res Z bytes)) (iovs : list Seg) : M mem Z (option Z) :=
  direct_loop comps iovs 0 0 (iov_total iovs).
