(* ===== verification/Send.v ===== *)
(** * [ioutgt-nvme-tcp/src/send.rs]: encoding send work into a gather batch *)

From S2P Require Import Prelude Digest Spec Pdu Pool SlotQ SendBatch Sender Dispatch TcpQueue.

Definition ARENA_PER_ITEM : Z := 64.
Definition IOVS_PER_ITEM : Z := Z.of_nat MAX_SEGS + 3.

Section Send.
Context {L : Crc32cLib}.
Abbreviation MSt := (M (GatherBatch * mem) never).

Definition on_batch {A} (m : M GatherBatch never A) : MSt A := fun '(b, mm) =>
  let '(b, r) := m b in ((b, mm), r).

(** Encode at the arena's tail and publish the bytes. *)
Definition stage_header (f : bytes -> res never (bytes * nat)) : MSt unit :=
  n ← with_arena_tail f;
  on_batch (push_arena (Z.of_nat n)).

(** The payload rides in place from the slot's segments. *)
Fixpoint push_segs (l : list Seg) (remaining : Z) : M GatherBatch never unit :=
  match l with
  | [] => mret tt
  | seg :: l =>
      if remaining =? 0 then mret tt else
      let n := Z.min remaining (seg_len seg) in
      _ ← push_raw (ptr seg) n;
      push_segs l (remaining - n)
  end.

(** The DDGST trailer over the slot's data. *)
Definition stage_ddgst (d : SlotData) (len : Z) : MSt unit :=
  '(b, m) ← get;
  chunks ← lift (for_each_seg d 0 len m);
  let crc := foldl Crc32c_update Crc32c_new chunks in
  stage_header (fun tail => b ← copy_into tail 0 (le_split 4 (Crc32c_finalize crc)); mret (b, 4%nat)).

Definition stage_payload (a : SlotArray Sqe) (c : Completion) (elide hdr_digest data_digest : bool) : MSt unit :=
  let len := co_data_len c in
  _ ← stage_header (fun tail => encode_c2h_data tail (cqe_cid (co_cqe c)) 0 len true elide hdr_digest data_digest);
  s ← lift (expect (slots a !! Z.to_nat (co_tag c)));
  _ ← on_batch (push_segs (segs (data s)) len);
  _ ← on_batch (note_payload len);
  if data_digest then stage_ddgst (data s) len else mret tt.

Definition success_elide (q : QueueCore) (c : Completion) : bool :=
  (0 <? co_data_len c) && sqhd_disabled q && (cqe_status (co_cqe c) =? 0).

Definition stage_send_work (q : QueueCore) (hdr_digest data_digest : bool) (a : SlotArray Sqe)
    (work : SendWork) : MSt unit :=
  match work with
  | R2t tag cid offset length =>
      stage_header (fun tail => encode_r2t tail cid tag offset length hdr_digest)
  | Response c =>
      let elide := success_elide q c in
      _ ← (if 0 <? co_data_len c then stage_payload a c elide hdr_digest data_digest else mret tt);
      if elide then mret tt
      else stage_header (fun tail => encode_capsule_resp tail (co_cqe c) hdr_digest)
  end.

Definition release_class (work : SendWork) : Staged :=
  match work with
  | Response c => if 0 <? co_data_len c then AtNotif (co_tag c) else AtCqe (co_tag c)
  | R2t _ _ _ _ => NoRelease
  end.

(** The closure [send_loop] passes to the sender. *)
Definition tcp_stage (q : QueueCore) (hdr_digest data_digest : bool) (a : SlotArray Sqe) (work : SendWork) :
    MSt Staged :=
  _ ← stage_send_work q hdr_digest data_digest a work;
  mret (release_class work).

(** The sender of [send_loop]: the pool's reserved arena must hold two batches. *)
Definition send_loop_sender (q : QueueCore) (p : BufPool) (zc_min a0 a1 : Z) : res never StreamSender :=
  arena ← match send_arena p with
          | None => mret None
          | Some (ptr, len) =>
              need ← checked 64 (2 * sqsize q * ARENA_PER_ITEM);
              _ ← assert (need <=? len);
              mret ((fun idx => (ptr, idx)) <$> pool_buf_index p)
          end;
  mret (StreamSender_new (sqsize q) ARENA_PER_ITEM IOVS_PER_ITEM arena zc_min a0 a1).

End Send.
