(* ===== verification/Handshake.v ===== *)
(** * [ioutgt-nvme-tcp/src/handshake.rs], [transport.rs]: connection setup

    The IC exchange, the first Connect capsule, and the checks that turn them
    into a queue connection.  A stream is the sequence of pieces in which its
    bytes arrive; a [read] takes at most its buffer's size from the next piece. *)

From S2P Require Import Prelude Digest Spec Pdu Fabrics Subsystem Dispatch.

Inductive HsErr := UnexpectedEof | ProtoErr (what : string).

Abbreviation Stream := (list bytes).
Abbreviation MH := (M Stream HsErr).

(** [stream.read(&mut buf)] with a buffer of [cap] bytes; empty at the end. *)
Fixpoint read_from (cap : nat) (s : Stream) : Stream * bytes :=
  match s with
  | [] => ([], [])
  | [] :: s => read_from cap s
  | c :: s => (if decide (length c <= cap)%nat then s else drop cap c :: s, take cap c)
  end.
Definition stream_read (cap : nat) : MH bytes := fun s =>
  let '(s, d) := read_from cap s in (s, Ok d).

(** [stream.read_exact]: [None] when the stream ends first. *)
Fixpoint exact_from (n : nat) (s : Stream) : Stream * option bytes :=
  match s with
  | [] => ([], if decide (n = 0)%nat then Some [] else None)
  | c :: s =>
      if decide (length c <= n)%nat then
        let '(s, r) := exact_from (n - length c) s in (s, (app c) <$> r)
      else (drop n c :: s, Some (take n c))
  end.
Definition read_exact (n : nat) : MH bytes := fun s =>
  let '(s, r) := exact_from n s in (s, ok_or r UnexpectedEof).

Record Negotiated := { ng_hdr_digest : bool; ng_data_digest : bool; ng_maxr2t : Z }.

Definition MAX_H2C_DATA : Z := 0x400000 * 4.
Definition CONNECT_DISABLE_SQFLOW : Z := Z.shiftl 1 2.

Section Handshake.
Context {L : Crc32cLib}.

(** A decoder method, its error as the message. *)
Definition decoding {A} (msg : string) (m : M PduDecoder PduError A) (d : PduDecoder) :
    MH (PduDecoder * A) :=
  let '(d, r) := m d in
  a ← lift (map_err (fun _ => ProtoErr msg) r);
  mret (d, a).

(** The negotiated parameters and the ICResp written to the stream. *)
Definition accept_handshake (allow_hdgst allow_ddgst : bool) (maxdata : Z) : MH (Negotiated * bytes) :=
  b ← read_exact 128;
  '(d, _) ← decoding "bad ICReq" (feed b) (PduDecoder_new false);
  if negb (is_complete d) then fail (ProtoErr "short ICReq") else
  '(d, pdu) ← decoding "bad ICReq" PduDecoder_take d;
  match dp_kind pdu with
  | KIcReq icreq =>
      if negb (icreq_pfv icreq =? PFV_1_0) then fail (ProtoErr "unsupported PFV")
      else if negb (icreq_hpda icreq =? 0) then fail (ProtoErr "HPDA != 0 unsupported")
      else
        let ng := {| ng_hdr_digest := allow_hdgst && has (icreq_digest icreq) DIGEST_HDGST;
                     ng_data_digest := allow_ddgst && has (icreq_digest icreq) DIGEST_DDGST;
                     ng_maxr2t := Z.max (icreq_maxr2t icreq) 1 |} in
        '(resp, n) ← lift (encode_icresp (zeroes 128) (ng_hdr_digest ng) (ng_data_digest ng) maxdata);
        mret (ng, take n resp)
  | _ => fail (ProtoErr "expected ICReq")
  end.

(** The header of the first capsule, and the bytes read behind it.  A read that
    is not the last consumes a byte, so as many rounds as the stream has bytes,
    and one for its end, are enough. *)
Fixpoint read_header (fuel : nat) (d : PduDecoder) : MH (DecodedPdu * bytes) :=
  match fuel with
  | O => panic
  | S fuel =>
      b ← stream_read 256;
      if decide (b = []) then fail UnexpectedEof else
      '(d, consumed) ← decoding "bad capsule" (feed b) d;
      if is_complete d then
        '(d, pdu) ← decoding "bad capsule" PduDecoder_take d;
        mret (pdu, drop consumed b)
      else
        _ ← lift (assert (bool_decide (consumed = length b)));
        read_header fuel d
  end.

Definition read_connect (ng : Negotiated) : MH (Sqe * ConnectData) :=
  s ← get;
  '(pdu, pending) ← read_header (S (length (concat s))) (PduDecoder_new (ng_hdr_digest ng));
  match dp_kind pdu with
  | KCapsuleCmd sqe =>
      if negb (sqe_opcode sqe =? admin_opcode.FABRICS)
      then fail (ProtoErr "first command must be fabrics Connect") else
      let expected := (1024 + if dp_ddgst pdu then 4 else 0)%nat in
      if negb (dp_data_len pdu =? 1024) then fail (ProtoErr "Connect data must be 1024 bytes") else
      let already := Nat.min (length pending) expected in
      rest ← (if decide (already < expected)%nat then read_exact (expected - already) else mret []);
      let payload := take already pending ++ rest in
      _ ← (if dp_ddgst pdu && negb (field payload 1024 4 =? crc32c (take 1024 payload))
           then fail (ProtoErr "Connect data digest mismatch") else mret tt);
      data ← lift (expect (read_from_bytes 1024 ConnectData_view (take 1024 payload)));
      mret (sqe, data)
  | _ => fail (ProtoErr "expected command capsule")
  end.

(** ** [TcpTransport::handshake] *)

Definition sqsize_cap (qid io_queue_size : Z) : Z :=
  if qid =? 0 then MAX_QUEUE_ENTRIES else io_queue_size.

Record QueueConn := {
  qn_hdr_digest : bool;
  qn_data_digest : bool;
  qn_qid : Z;
  qn_sqsize : Z;
  qn_sqhd_disabled : bool;
  qn_connect_sqe : Sqe;
  qn_connect_data : ConnectData;
}.

(** The connection, and the ICResp sent on the way. *)
Definition handshake (allow_hdgst allow_ddgst : bool) (port : PortConfig) : MH (QueueConn * bytes) :=
  '(ng, resp) ← accept_handshake allow_hdgst allow_ddgst MAX_H2C_DATA;
  '(sqe, cdata) ← read_connect ng;
  let connect := ConnectCommand_view (Sqe_bytes sqe) in
  let entries := cn_sqsize connect + 1 in
  let cap := sqsize_cap (cn_qid connect) (pc_io_queue_size port) in
  if negb ((2 <=? entries) && (entries <=? cap)) then fail (ProtoErr "sqsize out of range") else
  mret ({| qn_hdr_digest := ng_hdr_digest ng; qn_data_digest := ng_data_digest ng;
           qn_qid := cn_qid connect; qn_sqsize := wrap 16 entries;
           qn_sqhd_disabled := negb (Z.land (cn_cattr connect) CONNECT_DISABLE_SQFLOW =? 0);
           qn_connect_sqe := sqe; qn_connect_data := cdata |}, resp).

End Handshake.
