(* ===== verification/GatherProofs.v ===== *)
(** * The gather batch puts every byte on the wire once, in order

    [pending] is the byte string a batch still has to send.  Appending a chunk
    appends its bytes, merged or not; consuming [n] bytes drops [n] bytes.  Over
    a whole [ship_batch], whatever short sends, refusals and fallbacks the kernel
    answers with, the bytes on the wire followed by what is left are the batch,
    and the loop ends after at most two more ops than there are bytes. *)

From S2P Require Import Prelude Pool PoolSafety PoolData SlotQ SendBatch.
From S2P Require Import Sender ExecLaws.

(** The bytes a batch still has to send. *)
Definition pending (m : mem) (g : GatherBatch) : bytes := flat m (drop (live g) (iovs g)).

(** A chunk is not empty and lies in the address space. *)
Definition chunk_ok (s : Seg) : Prop := 0 <= ptr s /\ 0 < seg_len s /\ ptr s + seg_len s < 2 ^ 64.

Definition gather_ok (g : GatherBatch) : Prop :=
  Forall chunk_ok (iovs g) /\ (live g <= length (iovs g))%nat.

Lemma flat_app m l1 l2 : flat m (l1 ++ l2) = flat m l1 ++ flat m l2.
Proof. unfold flat. by rewrite map_app, concat_app. Qed.

Lemma flat_nil m : flat m [] = [].
Proof. done. Qed.

Lemma flat_single m s : flat m [s] = mem_read m (ptr s) (seg_len s).
Proof. unfold flat. cbn. by rewrite app_nil_r. Qed.

Lemma flat_cons m s l : flat m (s :: l) = mem_read m (ptr s) (seg_len s) ++ flat m l.
Proof. done. Qed.

Lemma flat_chunks_length m l : Forall chunk_ok l -> (length l <= length (flat m l))%nat.
Proof.
  induction 1 as [|s l (H1 & H2 & H3) Hl IH]; [cbn; lia|]. rewrite flat_cons, length_app.
  pose proof (mem_read_length m (ptr s) (seg_len s)). cbn [length]. lia.
Qed.

Lemma lookup_app_r_hd {A} (l : list A) x : (l ++ [x]) !! length l = Some x.
Proof. by rewrite lookup_app_r, Nat.sub_diag by lia. Qed.

(** ** Appending *)

(** [l'] is [l] with the bytes [p, p + len) appended. *)
Definition appended (l l' : list Seg) (p len : Z) : Prop :=
  Forall chunk_ok l' /\ (length l <= length l' <= S (length l))%nat /\
  (forall m, flat m l' = flat m l ++ mem_read m p len) /\
  forall P : Z -> Prop, (forall x, p <= x < p + len -> P x) ->
    Forall (fun s => forall x, in_seg s x -> P x) l -> Forall (fun s => forall x, in_seg s x -> P x) l'.

Lemma appended_new l p len :
  Forall chunk_ok l -> 0 <= p -> 0 < len -> p + len < 2 ^ 64 ->
  appended l (l ++ [{| ptr := p; seg_len := len |}]) p len.
Proof.
  intros. split_and!; [|blen..| |].
  - apply list.Forall_app_2; [done|]. apply list.Forall_singleton. repeat split; cbn; lia.
  - intros m. by rewrite flat_app, flat_single.
  - intros P Hp Hl. apply list.Forall_app_2; [done|]. by apply list.Forall_singleton.
Qed.

Lemma appended_merge l e len :
  Forall chunk_ok (l ++ [e]) -> 0 <= len -> ptr e + seg_len e + len < 2 ^ 64 ->
  appended (l ++ [e]) (l ++ [{| ptr := ptr e; seg_len := seg_len e + len |}]) (ptr e + seg_len e) len.
Proof.
  intros [Hl (He1 & He2 & He3)%list.Forall_singleton]%list.Forall_app Hn Hb. split_and!; [|blen..| |].
  - apply list.Forall_app_2; [done|]. apply list.Forall_singleton. repeat split; cbn; lia.
  - intros m. rewrite !flat_app, !flat_single, <- app_assoc. f_equal. cbn [ptr seg_len].
    rewrite (mem_read_split m (ptr e) (seg_len e + len) (seg_len e)) by lia. do 2 f_equal. lia.
  - intros P Hp [HP He]%list.Forall_app. apply list.Forall_app_2; [done|]. apply list.Forall_singleton.
    apply list.Forall_cons in He as [He _]. intros x Hx. unfold in_seg in *. cbn in *.
    destruct (decide (x < ptr e + seg_len e)); [apply He|apply Hp]; lia.
Qed.

(** A chunk appended to a batch appends its bytes; it needs at most one entry. *)
Lemma push_raw_ok p len g :
  Forall chunk_ok (iovs g) -> 0 <= p -> 0 <= len -> p + len < 2 ^ 64 ->
  exists l, push_raw p len g = (set_iovs l (live g) g, Ok tt) /\ appended (iovs g) l p len.
Proof.
  intros Hc Hp Hl Hb. unfold push_raw. rewrite get_bind. destruct (Z.eqb_spec len 0) as [->|Hn].
  { exists (iovs g). destruct g; cbn. split; [done|]. split_and!; try done; [lia|].
    intros m. by rewrite app_nil_r. }
  assert (0 < len) as Hpos by lia. pose proof (appended_new _ _ _ Hc Hp Hpos Hb) as Hnew.
  destruct (list.last (iovs g)) as [e|] eqn:He; [|by eexists].
  destruct (Z.eqb_spec (ptr e + seg_len e) p) as [Hadj|]; [|by eexists].
  apply list.last_Some in He as [l0 Hl0]. rewrite Hl0 in *.
  assert (chunk_ok e) as (He1 & He2 & He3)
    by (eapply list.Forall_lookup_1; [exact Hc|]; apply lookup_app_r_hd).
  rewrite (bind_ok _ _ _ g (seg_len e + len)) by (unfold lift; rewrite checked_ok; [done|split; lia]).
  rewrite removelast_last. eexists. split; [reflexivity|]. subst p. by apply appended_merge.
Qed.

(** ** Consuming *)

Lemma advance_iovecs_ok m fuel l k sent :
  Forall chunk_ok l -> (k <= length l)%nat -> (length l <= fuel + k)%nat -> 0 <= sent ->
  exists l' k' d, advance_iovecs fuel l k sent = (l', k', d) /\ Forall chunk_ok l' /\
    (k' <= length l')%nat /\ length l' = length l /\
    flat m (drop k' l') = drop (Z.to_nat sent) (flat m (drop k l)) /\
    d = bool_decide (length (flat m (drop k l)) <= Z.to_nat sent)%nat.
Proof.
  revert k sent. induction fuel as [|fuel IH]; intros k sent Hc Hk Hf Hs; cbn [advance_iovecs].
  - assert (drop k l = []) as Hd by (apply drop_ge; lia). exists l, k, true. split; [by destruct (l !! k)|].
    rewrite Hd. cbn [flat map concat]. rewrite drop_nil, bool_decide_true by (cbn; lia). done.
  - destruct (l !! k) as [e|] eqn:Hlk.
    2: { apply list.lookup_ge_None in Hlk. assert (drop k l = []) as Hd by (by apply drop_ge).
         exists l, k, true. rewrite Hd. cbn [flat map concat]. rewrite drop_nil, bool_decide_true by (cbn; lia). done. }
    pose proof (list.Forall_lookup_1 _ _ _ _ Hc Hlk) as (He1 & He2 & He3).
    rewrite (drop_S _ _ _ Hlk), flat_cons.
    assert (Z.of_nat (length (mem_read m (ptr e) (seg_len e))) = seg_len e) as Hlen by (apply mem_read_length; lia).
    destruct (Z.ltb_spec sent (seg_len e)).
    + eexists _, k, false. split; [reflexivity|]. split.
      { apply list.Forall_insert; [done|]. repeat split; cbn; lia. }
      pose proof (lookup_lt_Some _ _ _ Hlk). rewrite length_insert. split; [done|]. split; [done|]. split.
      * rewrite (drop_S _ {| ptr := ptr e + sent; seg_len := seg_len e - sent |})
          by (by rewrite list_lookup_insert_eq). rewrite flat_cons, drop_insert_lt by lia. cbn [ptr seg_len].
        rewrite drop_app_le by lia. f_equal.
        rewrite (mem_read_split m (ptr e) (seg_len e) sent) by lia.
        rewrite drop_app_length'; [done|]. pose proof (mem_read_length m (ptr e) sent). lia.
      * rewrite bool_decide_false; [done|]. rewrite length_app. lia.
    + pose proof (lookup_lt_Some _ _ _ Hlk).
      destruct (IH (S k) (sent - seg_len e)) as (l' & k' & d & Ha & Hc' & Hk' & Hl' & Hfl & Hd); [done|lia..|].
      exists l', k', d. split_and!; try done.
      * rewrite Hfl, drop_app_ge by lia. f_equal. lia.
      * rewrite Hd. apply bool_decide_ext. rewrite length_app. lia.
Qed.

Lemma gather_advance_ok g sent :
  gather_ok g -> 0 <= sent ->
  exists g' d, gather_advance sent g = (g', Ok d) /\ gather_ok g' /\ gb_buf_index g' = gb_buf_index g /\
    forall m, pending m g' = drop (Z.to_nat sent) (pending m g) /\
      d = bool_decide (length (pending m g) <= Z.to_nat sent)%nat.
Proof.
  intros [Hc Hk] Hs. unfold gather_advance. rewrite get_bind.
  destruct (advance_iovecs (length (iovs g)) (iovs g) (live g) sent) as [[l k] d] eqn:Ha.
  exists (set_iovs l k g), d. split; [done|].
  assert (forall m, Forall chunk_ok l /\ (k <= length l)%nat /\
            flat m (drop k l) = drop (Z.to_nat sent) (flat m (drop (live g) (iovs g))) /\
            d = bool_decide (length (flat m (drop (live g) (iovs g))) <= Z.to_nat sent)%nat) as H.
  { intros m. destruct (advance_iovecs_ok m (length (iovs g)) (iovs g) (live g) sent Hc Hk) as
      (l' & k' & d' & Ha' & ? & ? & ? & ? & ?); [lia..|]. rewrite Ha in Ha'. by injection Ha' as <- <- <-. }
  split; [|split; [done|]].
  - destruct (H (fun _ => Byte.x00)) as (? & ? & _). by split.
  - intros m. by destruct (H m) as (_ & _ & ? & ?).
Qed.

(** ** Shipping a batch *)

(** The bytes the ops put on the wire, given the kernel's answers to them: a
    send of [n] bytes takes the first [n] of the chunks it was given. *)
Fixpoint wire (m : mem) (ops : list (OpKind * list Seg)) (answers : list Answer) : bytes :=
  match answers with
  | [] => []
  | SubmitErr _ :: answers => wire m ops answers
  | a :: answers =>
      match ops with
      | [] => []
      | (_, l) :: ops => match a with Sent n => take (Z.to_nat n) (flat m l) | _ => [] end ++ wire m ops answers
      end
  end.

(** An op refused at submission was never issued. *)
Definition issued (a : Answer) : bool := match a with SubmitErr _ => false | _ => true end.

(** An answer the kernel can give: a send does not return a negative count. *)
Definition answer_ok (a : Answer) : Prop := match a with Sent n => 0 <= n | _ => True end.

(** Rounds a batch may still take: one per byte, one for each fallback. *)
Definition rounds (m : mem) (zc : bool) (b : GatherSendBatch) (s : StreamSender) : nat :=
  length (pending m (gather b)) +
  (if vec_fixed_ok s then 1 else 0) + (if zc then 1 else 0).

Lemma submit_op_ok zc b s e :
  gather_ok (gather b) ->
  exists b' kind,
    submit_op zc (b, s, e) =
      ((b', s, {| se_next := (if zc then S (se_next e) else se_next e);
                  se_ops := se_ops e ++ [(kind, drop (live (gather b)) (iovs (gather b)))] |}),
       Ok (if zc then (if vec_fixed_ok s then gb_buf_index (gather b) else None) else None)) /\
    gather b' = gather b.
Proof.
  intros [_ Hl]. unfold submit_op. rewrite get_bind. unfold live_iov, assert.
  rewrite bool_decide_true by done. eexists _, _. split; [reflexivity|]. by destruct zc.
Qed.

(** The fallback counter has room for the one fallback a batch can take. *)
Definition counter_ok (zc : bool) (s : StreamSender) : Prop :=
  0 <= zc_fallbacks s /\ zc_fallbacks s + (if zc then 1 else 0) < 2 ^ 64.

(** What was sent and what is left are what was to be sent. *)
Definition accounted (m : mem) (a : list Answer) (b : GatherSendBatch) (e : SendEnv)
    (st : GatherSendBatch * StreamSender * SendEnv) : Prop :=
  exists ops, se_ops st.2 = se_ops e ++ ops /\ length ops = length (List.filter issued a) /\
    pending m (gather b) = wire m ops a ++ pending m (gather st.1.1).

(** One round; going round again uses up a byte or a fallback. *)
Lemma ship_round_ok m zc a b s e st r :
  gather_ok (gather b) -> answer_ok a -> counter_ok zc s ->
  ship_round zc a (b, s, e) = (st, r) ->
  gather_ok (gather st.1.1) /\ accounted m [a] b e st /\
  match r with
  | Panic => False
  | Err _ => True
  | Ok (inl _) => pending m (gather st.1.1) = []
  | Ok (inr z) => counter_ok z st.1.2 /\ (rounds m z st.1.1 st.1.2 < rounds m zc b s)%nat
  end.
Proof.
  intros Hg Ha Hc. unfold ship_round. destruct a as [err|n|err].
  - intros [= <- <-]. cbn. split; [done|]. split; [|done]. exists []. rewrite app_nil_r. by split; [|split; [done|]].
  - destruct (submit_op_ok zc b s e Hg) as (b' & kind & Hop & Hb'). rewrite (bind_ok _ _ _ _ _ Hop).
    destruct (Z.eqb_spec n 0) as [->|Hn].
    { intros [= <- <-]. cbn. rewrite Hb'. split; [done|]. split; [|done]. eexists. split; [reflexivity|]. split; [done|]. cbn. by rewrite Hb'. }
    destruct (gather_advance_ok (gather b') n) as (g & d & Hadv & Hg' & _ & Hp); [by rewrite Hb'|done|].
    unfold mbind, M_bind, on_gather. rewrite Hadv. intros [= <- <-]. cbn.
    destruct (Hp m) as [Hpend ->]. rewrite Hb' in *. split; [done|]. split.
    { eexists. split; [reflexivity|]. split; [done|]. cbn. by rewrite Hpend, app_nil_r, take_drop. }
    destruct (bool_decide_reflect (length (pending m (gather b)) <= Z.to_nat n)%nat).
    + by rewrite Hpend, drop_ge.
    + split; [done|]. unfold rounds. cbn. rewrite Hpend, length_drop. cbn in Ha. lia.
  - destruct (submit_op_ok zc b s e Hg) as (b' & kind & Hop & Hb'). rewrite (bind_ok _ _ _ _ _ Hop).
    assert (forall s', accounted m [SendErr err] b e (b', s', {| se_next := (if zc then S (se_next e) else se_next e);
                  se_ops := se_ops e ++ [(kind, drop (live (gather b)) (iovs (gather b)))] |})) as Hacc.
    { intros s'. eexists. split; [reflexivity|]. split; [done|]. cbn. by rewrite Hb'. }
    assert (gather_ok (gather b')) as Hg' by by rewrite Hb'.
    destruct (bool_decide_reflect (is_Some (if zc then (if vec_fixed_ok s then gb_buf_index (gather b) else None) else None)));
      [destruct (import_refused err); cbn [andb]|].
    { intros [= <- <-]. split; [done|]. split; [apply Hacc|]. split; [exact Hc|].
      unfold rounds. cbn. rewrite Hb'. destruct zc, (vec_fixed_ok s); try (by destruct i). lia. }
    all: cbn [andb]; destruct zc; cbn [andb]; [destruct (pin_refused err)|];
      try (intros [= <- <-]; split; [done|]; split; [apply Hacc|done]).
    all: rewrite get_bind, (bind_ok _ _ _ _ (zc_fallbacks s + 1))
      by (unfold lift; rewrite checked_ok; [done|]; destruct Hc; split; lia);
      intros [= <- <-]; split; [done|]; split; [apply Hacc|]; destruct Hc; split;
      [split; cbn; lia|unfold rounds; cbn; rewrite Hb'; lia].
Qed.

Lemma accounted_nil m b s e : accounted m [] b e (b, s, e).
Proof. exists []. by rewrite app_nil_r. Qed.

Lemma accounted_cons m a used b e st st' :
  accounted m [a] b e st -> accounted m used st.1.1 st.2 st' -> accounted m (a :: used) b e st'.
Proof.
  intros (ops & Ho & Hl & Hp) (ops' & Ho' & Hl' & Hp'). exists (ops ++ ops').
  rewrite Ho', Ho, app_assoc. split; [done|]. rewrite Hp, Hp', app_assoc. revert Hl. cbn [List.filter].
  destruct a as [?|?|?], ops as [|[k l] [|??]]; try done; intros _; cbn; (split; [by rewrite ?Hl'|]);
    by rewrite ?app_nil_r.
Qed.

Lemma ship_batch_ok m answers zc b s e st r :
  gather_ok (gather b) -> Forall answer_ok answers -> counter_ok zc s ->
  ship_batch answers zc (b, s, e) = (st, r) ->
  gather_ok (gather st.1.1) /\ (exists used, used `prefix_of` answers /\ accounted m used b e st) /\
  match r with
  | Panic => False
  | Err _ => True
  | Ok (Some _) => pending m (gather st.1.1) = []
  | Ok None => (length answers + rounds m false st.1.1 st.1.2 <= rounds m zc b s)%nat
  end.
Proof.
  revert zc b s e. induction answers as [|a rest IH]; intros zc b s e Hg Ha Hc.
  { intros [= <- <-]. split; [done|]. split; [exists []; split; [done|apply accounted_nil]|].
    unfold rounds. cbn. destruct zc; lia. }
  apply list.Forall_cons in Ha as [Ha Hrest]. cbn [ship_batch].
  destruct (ship_round zc a (b, s, e)) as [[[b1 s1] e1] r1] eqn:Hr.
  destruct (ship_round_ok m zc a b s e _ _ Hg Ha Hc Hr) as (Hg1 & Hacc & Hres).
  assert (exists used, used `prefix_of` a :: rest /\ accounted m used b e (b1, s1, e1)) as Hone.
  { exists [a]. split; [|done]. by exists rest. }
  unfold mbind, M_bind. rewrite Hr. destruct r1 as [[[]|z]|x|]; [| |by intros [= <- <-]|done].
  { by intros [= <- <-]. }
  intros Hs. destruct Hres as [Hc1 Hlt]. cbn in *.
  destruct (IH z b1 s1 e1 Hg1 Hrest Hc1 Hs) as (Hg2 & (used & Hpre & Hacc2) & Hend).
  split; [done|]. split.
  { exists (a :: used). split; [by apply prefix_cons|]. by eapply accounted_cons. }
  destruct r as [[[]|]|x|]; try done. lia.
Qed.

(** C35. Over a whole [ship_batch], whatever the kernel answers (short sends, a
    refused fixed-buffer import, a refused page pin, a failure), the bytes put on
    the wire by the ops so far followed by the bytes still pending are exactly
    the bytes that were to be sent: nothing is repeated, skipped or reordered.
    The loop never panics, returns success only when everything went out, and
    never waits for more answers than there are bytes plus two fallbacks. *)
Theorem ship_batch_exact m answers zc b s e st r :
  gather_ok (gather b) -> Forall answer_ok answers -> counter_ok zc s ->
  ship_batch answers zc (b, s, e) = (st, r) ->
  r <> Panic /\
  (exists used ops, used `prefix_of` answers /\ se_ops st.2 = se_ops e ++ ops /\
     length ops = length (List.filter issued used) /\
     wire m ops used ++ pending m (gather st.1.1) = pending m (gather b)) /\
  (r = Ok (Some tt) -> pending m (gather st.1.1) = []) /\
  ((length (pending m (gather b)) + 2 < length answers)%nat -> r <> Ok None).
Proof.
  intros Hg Ha Hc Hs. destruct (ship_batch_ok m _ _ _ _ _ _ _ Hg Ha Hc Hs) as (_ & (used & Hp & ops & Ho & Hl & Hw) & Hr).
  split; [by intros ->|]. split; [by exists used, ops|]. split; [by intros ->|].
  intros Hlen ->. unfold rounds in Hr. destruct (vec_fixed_ok s), (vec_fixed_ok st.1.2), zc; lia.
Qed.
