(* ===== verification/SendProofs.v ===== *)
(** * What the send loop puts on the wire

    A work item staged into a gather batch appends its PDUs to the bytes the
    batch sends: a host's decoder reads back exactly the command id, lengths,
    flags and CQE of the completion, and the payload between them is the slot's
    data, followed by its digest.  An item never outgrows the room that the fit
    check reserves for it. *)

From S2P Require Import Prelude Digest Spec Pdu PduProofs Pool.
From S2P Require Import PoolSafety PoolData SlotQ SendBatch Sender Dispatch.
From S2P Require Import TcpQueue Send ExecLaws GatherProofs Backend SegIO.

#[local] Arguments flat : simpl never.

Section SendProofs.
Context {L : Crc32cLib} {LL : Crc32cLaws L}.

(** ** Encoders stay inside their buffer *)

Definition encodes (f : bytes -> res never (bytes * nat)) (k : nat) : Prop :=
  forall b b' n, f b = Ok (b', n) -> length b' = length b /\ (0 < n <= k)%nat.

Lemma put_header_encodes (p : bytes) (h : nat) (hd : bool) :
  (0 < h)%nat -> encodes (fun b => b1 ← copy_into b 0 p; if hd then put_hdgst b1 h else mret (b1, h)) (h + 4).
Proof.
  intros Hh b b' n H. destruct (copy_into b 0 p) as [b1|e|] eqn:Hc; [|done..]. apply copy_into_length in Hc.
  cbn [mbind res_bind] in H. destruct hd.
  - unfold put_hdgst, assert in H. destruct (bool_decide _); [|done]. cbn [mbind res_bind] in H.
    destruct (copy_into b1 h _) as [b2|e|] eqn:Hc2; [|done..]. apply copy_into_length in Hc2.
    cbn in H. injection H as <- <-. lia.
  - injection H as <- <-. lia.
Qed.

Lemma c2h_encodes cid off len last success hd dd :
  encodes (fun b => encode_c2h_data b cid off len last success hd dd) 28.
Proof.
  intros b b' n. unfold encode_c2h_data, encode_data_pdu. destruct (checked 32 _); [|done..].
  cbn [mbind res_bind]. apply put_header_encodes. lia.
Qed.

Lemma resp_encodes cqe hd : encodes (fun b => encode_capsule_resp b cqe hd) 28.
Proof. apply (put_header_encodes _ 24 hd). lia. Qed.

Lemma r2t_encodes cid ttag off len hd : encodes (fun b => encode_r2t b cid ttag off len hd) 28.
Proof. apply (put_header_encodes _ 24 hd). lia. Qed.

(** ** A batch being staged *)

(** [s] has no byte in [a, a + n). *)
Definition avoids (a n : Z) (s : Seg) : Prop := forall x, a <= x < a + n -> ~ in_seg s x.

(** The unused part of the arena belongs to no chunk; the payload counters
    cannot overflow: every payload item has a header in the arena. *)
Record staging (g : GatherBatch) : Prop := {
  sg_chunks : Forall chunk_ok (iovs g);
  sg_live : live g = 0%nat;
  sg_arena : 0 <= arena_ptr g /\ 0 <= arena_used g <= arena_len g /\ arena_ptr g + arena_len g < 2 ^ 64;
  sg_tail : Forall (avoids (arena_ptr g + arena_used g) (arena_len g - arena_used g)) (iovs g);
  sg_small : arena_len g < 2 ^ 32;
  sg_items : 0 <= payload_items g <= arena_used g /\ 0 <= gb_payload_bytes g <= payload_items g * 2 ^ 24;
}.

(** What staging one piece does: the arena, the bound on items and the memory
    outside the unused arena stay. *)
Record staged (g g' : GatherBatch) (m m' : mem) (arena : Z) (entries : nat) (bs : bytes) : Prop := {
  st_staging : staging g';
  st_arena : arena_ptr g' = arena_ptr g /\ arena_len g' = arena_len g /\ iov_cap g' = iov_cap g;
  st_used : arena_used g <= arena_used g' <= arena_used g + arena;
  st_entries : (length (iovs g) <= length (iovs g') <= length (iovs g) + entries)%nat;
  st_mem : forall x, ~ (arena_ptr g + arena_used g <= x < arena_ptr g + arena_len g) -> m' x = m x;
  st_bytes : flat m' (iovs g') = flat m (iovs g) ++ bs;
}.

Lemma staged_trans g1 g2 g3 m1 m2 m3 a1 a2 e1 e2 b1 b2 :
  staged g1 g2 m1 m2 a1 e1 b1 -> staged g2 g3 m2 m3 a2 e2 b2 ->
  staged g1 g3 m1 m3 (a1 + a2) (e1 + e2) (b1 ++ b2).
Proof.
  intros [H1 (A1 & A2 & A3) U1 E1 M1 B1] [H2 (A4 & A5 & A6) U2 E2 M2 B2]. split; [done| |lia|lia| |].
  - split_and!; congruence.
  - intros x Hx. rewrite M2, M1; [done|done|]. rewrite A1, A2. lia.
  - by rewrite B2, B1, app_assoc.
Qed.

Lemma staged_weaken g g' m m' a e bs a' e' :
  staged g g' m m' a e bs -> a <= a' -> (e <= e')%nat -> staged g g' m m' a' e' bs.
Proof. intros [H1 H2 H3 H4 H5 H6] Ha He. split; try done; lia. Qed.

Lemma staged_refl g m : staging g -> staged g g m m 0 0 [].
Proof. intros. split; [done|done|lia|lia|done|]. by rewrite app_nil_r. Qed.

(** Writing into the unused arena changes no staged byte. *)
Lemma tail_write_flat g m bs :
  staging g -> Z.of_nat (length bs) <= arena_len g - arena_used g ->
  flat (mem_write m (arena_ptr g + arena_used g) bs) (iovs g) = flat m (iovs g).
Proof.
  intros [Hc Hl Ha Ht _ _] Hb. apply flat_ext. intros s x Hs Hx. apply mem_write_outside.
  apply list_elem_of_lookup in Hs as [i Hi]. pose proof (list.Forall_lookup_1 _ _ _ _ Ht Hi) as Hav. intros Hin.
  apply (Hav x); [lia|done].
Qed.

(** Publishing the first [n] bytes of the unused arena. *)
Lemma push_arena_ok g n m :
  staging g -> (0 < n)%nat -> arena_used g + Z.of_nat n <= arena_len g ->
  exists l, push_arena (Z.of_nat n) g =
      (set_iovs l (live g) (set_arena_used (arena_used g + Z.of_nat n) g), Ok tt) /\
    staged g (set_iovs l (live g) (set_arena_used (arena_used g + Z.of_nat n) g)) m m (Z.of_nat n) 1
      (mem_read m (arena_ptr g + arena_used g) (Z.of_nat n)).
Proof.
  intros [Hc Hl Ha Ht Hs Hi] Hn Hle. unfold push_arena. rewrite get_bind.
  rewrite (bind_ok _ _ _ g (arena_used g + Z.of_nat n)) by (unfold lift; rewrite checked_ok; [done|split; lia]).
  rewrite (bind_ok _ _ _ (set_arena_used (arena_used g + Z.of_nat n) g) tt) by done.
  destruct (push_raw_ok (arena_ptr g + arena_used g) (Z.of_nat n) (set_arena_used (arena_used g + Z.of_nat n) g))
    as (l & Hp & Hc' & Hlen & Hf & Hsub); [done|lia..|].
  exists l. split; [exact Hp|]. cbn in *. split; cbn; try done; [|lia..].
  split; cbn; try done; [lia| |lia]. eapply list.Forall_impl.
  { apply (Hsub (fun x => ~ (arena_ptr g + (arena_used g + Z.of_nat n) <= x < arena_ptr g + arena_len g))); [lia|].
    eapply list.Forall_impl; [exact Ht|]. cbn. intros s Hav x Hx Hin. apply (Hav x); [lia|done]. }
  intros s Hav x Hx Hin. apply (Hav x Hin). lia.
Qed.

(** Encoding a header at the arena's tail and publishing it. *)
Lemma stage_header_ok f k g m b' n :
  staging g -> encodes f k -> arena_used g + Z.of_nat k <= arena_len g ->
  f (mem_read m (arena_ptr g + arena_used g) (arena_len g - arena_used g)) = Ok (b', n) ->
  exists l m', stage_header f (g, m) =
      ((set_iovs l (live g) (set_arena_used (arena_used g + Z.of_nat n) g), m'), Ok tt) /\
    staged g (set_iovs l (live g) (set_arena_used (arena_used g + Z.of_nat n) g)) m m'
      (Z.of_nat k) 1 (take n b').
Proof.
  intros Hg Hf Hk Hok. destruct (Hf _ _ _ Hok) as [Hlen [Hn Hnk]]. pose proof Hg as [Hc Hl Ha Ht Hs Hi].
  pose proof (mem_read_length m (arena_ptr g + arena_used g) (arena_len g - arena_used g) ltac:(lia)) as Hml.
  set (m' := mem_write m (arena_ptr g + arena_used g) b').
  assert (with_arena_tail f (g, m) = ((g, m'), Ok n)) as Htail.
  { unfold with_arena_tail. rewrite get_bind.
    rewrite (bind_ok _ _ _ (g, m) (arena_len g - arena_used g)) by (unfold lift; rewrite checked_ok; [done|split; lia]).
    unfold mbind, M_bind, lift. by rewrite Hok. }
  unfold stage_header. rewrite (bind_ok _ _ _ _ _ Htail).
  destruct (push_arena_ok g n m' Hg Hn ltac:(lia)) as (l & Hp & [S1 S2 S3 S4 S5 S6]).
  exists l, m'. unfold on_batch. rewrite Hp. split; [done|]. split; [done|done|cbn; lia|done| |].
  - intros x Hx. apply mem_write_outside. lia.
  - rewrite S6. unfold m'. rewrite tail_write_flat by (done || lia). f_equal.
    rewrite <- (mem_read_written m (arena_ptr g + arena_used g) b') at 2.
    rewrite <- (take_mem_read _ _ (Z.of_nat (length b'))) by lia. f_equal. lia.
Qed.

(** The payload, in place. *)
Lemma push_segs_ok l rem g :
  Forall chunk_ok (iovs g) -> Forall chunk_ok l -> 0 <= rem ->
  exists l', push_segs l rem g = (set_iovs l' (live g) g, Ok tt) /\ Forall chunk_ok l' /\
    (length (iovs g) <= length l' <= length (iovs g) + length l)%nat /\
    (forall m, flat m l' = flat m (iovs g) ++ take (Z.to_nat rem) (flat m l)) /\
    forall P : Z -> Prop, Forall (fun s => forall x, in_seg s x -> P x) l ->
      Forall (fun s => forall x, in_seg s x -> P x) (iovs g) -> Forall (fun s => forall x, in_seg s x -> P x) l'.
Proof.
  revert rem g. induction l as [|s l IH]; intros rem g Hg Hl Hr.
  { exists (iovs g). destruct g; cbn in *. split_and!; try done; [lia|]. intros m. by rewrite flat_nil, take_nil, app_nil_r. }
  apply list.Forall_cons in Hl as [(Hs1 & Hs2 & Hs3) Hl]. cbn [push_segs seg_total] in *.
  destruct (Z.eqb_spec rem 0) as [->|Hne].
  { exists (iovs g). destruct g; cbn in *. split_and!; try done; [lia|]. intros m. by rewrite take_0, app_nil_r. }
  destruct (push_raw_ok (ptr s) (Z.min rem (seg_len s)) g Hg) as (l1 & Hp & Hc1 & Hn1 & Hf1 & Hs); [lia..|].
  rewrite (bind_ok _ _ _ _ _ Hp).
  destruct (IH (rem - Z.min rem (seg_len s)) (set_iovs l1 (live g) g) Hc1 Hl) as (l2 & Hp2 & Hc2 & Hn2 & Hf2 & Hs').
  { lia. }
  exists l2. split; [exact Hp2|]. cbn [iovs set_iovs] in *. split; [done|]. split; [cbn; lia|]. split.
  - intros m. rewrite Hf2, Hf1, <- app_assoc. f_equal. rewrite flat_cons.
    pose proof (mem_read_length m (ptr s) (seg_len s) ltac:(lia)) as Hml.
    destruct (Z.min_spec rem (seg_len s)) as [[Hlt Hm]|[Hge Hm]]; rewrite Hm.
    + rewrite Z.sub_diag. change (Z.to_nat 0) with 0%nat. rewrite take_0, app_nil_r.
      by rewrite take_app_le, take_mem_read by lia.
    + rewrite take_app_ge by lia. do 2 f_equal. lia.
  - intros P [HP Hl']%list.Forall_cons Hg'. apply Hs'; [done|]. apply Hs; [|done]. intros x Hx. apply HP.
    unfold in_seg. lia.
Qed.

(** A slot's data as the send path sees it: segments in the address space that
    keep clear of the batch's arena. *)
Definition sendable (g : GatherBatch) (d : SlotData) (len : Z) : Prop :=
  segs_ok (segs d) /\ Forall chunk_ok (segs d) /\ (length (segs d) <= MAX_SEGS)%nat /\
  0 < len <= seg_total (segs d) /\ len <= 2 ^ 24 /\ Forall (avoids (arena_ptr g) (arena_len g)) (segs d).

(** The payload of a completion, as the memory holds it. *)
Definition payload (m : mem) (d : SlotData) (len : Z) : bytes := take (Z.to_nat len) (flat m (segs d)).

Lemma payload_frame g m m' d len :
  sendable g d len -> (forall x, ~ (arena_ptr g <= x < arena_ptr g + arena_len g) -> m' x = m x) ->
  payload m' d len = payload m d len.
Proof.
  intros (_ & _ & _ & _ & _ & Ha) Hm. unfold payload. f_equal. apply flat_ext. intros s x Hs Hx. apply Hm.
  intros Hin. apply list_elem_of_lookup in Hs as [i Hi]. by apply (list.Forall_lookup_1 _ _ _ _ Ha Hi x).
Qed.

(** Header, payload segments and the payload counters. *)
Lemma stage_segs_ok g m d len :
  staging g -> sendable g d len -> payload_items g < arena_used g ->
  exists g', (forall k : M (GatherBatch * mem) never unit,
      (_ ← on_batch (push_segs (segs d) len); _ ← on_batch (note_payload len); k) (g, m) = k (g', m)) /\
    staged g g' m m 0 MAX_SEGS (payload m d len) /\ arena_used g' = arena_used g.
Proof.
  intros [Hc Hl Ha Ht Hs Hi] (Hok & Hch & Hn & Hlen & H24 & Hav) Hit.
  destruct (push_segs_ok (segs d) len g Hc Hch ltac:(lia)) as (l & Hp & Hc' & Hn' & Hf & Hsub).
  assert (in_u 64 (gb_payload_bytes g + len) /\ in_u 64 (payload_items g + 1)) as [Hb1 Hb2] by (split; split; lia).
  eexists. split.
  { intros k. unfold mbind, M_bind, on_batch. rewrite Hp. unfold note_payload, mbind, M_bind, get, lift, modify.
    cbn [gb_payload_bytes payload_items set_iovs]. rewrite !checked_ok by done. reflexivity. } split; [|done]. split; cbn; try done; [|lia|lia].
  split; cbn; try done; [|lia]. eapply list.Forall_impl.
  { apply (Hsub (fun x => ~ (arena_ptr g + arena_used g <= x < arena_ptr g + arena_len g))).
    - eapply list.Forall_impl; [exact Hav|]. intros s Hx x Hin Hr. apply (Hx x); [lia|done].
    - eapply list.Forall_impl; [exact Ht|]. intros s Hx x Hin Hr. apply (Hx x); [lia|done]. }
  intros s Hx x Hr Hin. apply (Hx x Hin). lia.
Qed.

(** The data digest of the payload. *)
Definition ddgst_bytes (dd : bool) (bs : bytes) : bytes := if dd then le_split 4 (crc32c bs) else [].

Lemma stage_ddgst_ok g m d len :
  staging g -> sendable g d len -> arena_used g + 4 <= arena_len g ->
  exists g' m', stage_ddgst d len (g, m) = ((g', m'), Ok tt) /\
    staged g g' m m' 4 1 (ddgst_bytes true (payload m d len)).
Proof.
  intros Hg (Hok & _ & _ & Hlen & _ & _) Hr. unfold stage_ddgst. rewrite get_bind.
  destruct (each_loop_spec m (segs d) 0 len Hok) as (chunks & He & Hch); [lia..|].
  rewrite (bind_ok _ _ _ (g, m) chunks) by (unfold lift, for_each_seg; by rewrite He).
  rewrite update_chunks by (cbn; split; lia). unfold Crc32c_finalize, Crc32c_update, Crc32c_new. cbn [crc_state].
  rewrite Hch. change (Z.to_nat 0) with 0%nat. rewrite drop_0. fold (payload m d len). fold (crc32c (payload m d len)).
  set (f := fun tail : bytes => _).
  assert (encodes f 4) as Hf.
  { intros b b' n. unfold f. destruct (copy_into b 0 _) as [b1|e|] eqn:Hc; [|done..]. apply copy_into_length in Hc.
    cbn. intros [= <- <-]. lia. }
  pose proof Hg as [_ _ Ha _ _ _].
  set (tail := mem_read m (arena_ptr g + arena_used g) (arena_len g - arena_used g)).
  pose proof (mem_read_length m (arena_ptr g + arena_used g) (arena_len g - arena_used g) ltac:(lia)) as Hml.
  destruct (stage_header_ok f 4 g m (le_split 4 (crc32c (payload m d len)) ++ drop 4 tail) 4)
    as (l & m' & Hst & Hsd); [done|done|lia| |].
  { unfold f. fold tail in Hml |- *. by rewrite copy_into_ok by (rewrite length_le_split; lia). }
  rewrite take_app_length' in Hsd by (by rewrite length_le_split). by eexists _, m'.
Qed.

(** ** One work item *)

(** A host's decoder reads [h] as this C2HData header. *)
Definition c2h_header (d : PduDecoder) (h : bytes) (cid len : Z) (elide dd : bool) : Prop :=
  decodes d h {| dp_kind := KC2HData cid 0 len true elide; dp_data_len := len; dp_ddgst := dd |}.

(** The bytes of a work item: PDU headers as a host's decoder [d] reads them,
    the payload and its digest. *)
Definition work_wire (d : PduDecoder) (dd elide : bool) (data : bytes) (work : SendWork) (bs : bytes) : Prop :=
  match work with
  | R2t tag cid off len =>
      decodes d bs {| dp_kind := KR2T cid tag off len; dp_data_len := 0; dp_ddgst := false |}
  | Response c =>
      exists data_pdu resp, bs = data_pdu ++ resp /\
        (if 0 <? co_data_len c
         then exists h, data_pdu = h ++ data ++ ddgst_bytes dd data /\
                        c2h_header d h (cqe_cid (co_cqe c)) (co_data_len c) elide dd
         else data_pdu = []) /\
        (if elide then resp = []
         else decodes d resp {| dp_kind := KCapsuleResp (co_cqe c); dp_data_len := 0; dp_ddgst := false |})
  end.

(** A completion the dispatcher can produce, and the data it announces. *)
Definition work_ok (g : GatherBatch) (a : SlotArray Sqe) (work : SendWork) : Prop :=
  match work with
  | R2t tag cid off len => in_u 16 cid /\ in_u 16 tag /\ in_u 32 off /\ in_u 32 len
  | Response c =>
      Cqe_wf (co_cqe c) /\ 0 <= co_data_len c /\
      (0 < co_data_len c -> exists s, slots a !! Z.to_nat (co_tag c) = Some s /\ sendable g (data s) (co_data_len c))
  end.

(** The data a work item announces. *)
Definition work_data (m : mem) (a : SlotArray Sqe) (work : SendWork) : bytes :=
  match work with
  | Response c =>
      match slots a !! Z.to_nat (co_tag c) with
      | Some s => payload m (data s) (co_data_len c)
      | None => []
      end
  | R2t _ _ _ _ => []
  end.

Definition work_elide (q : QueueCore) (work : SendWork) : bool :=
  match work with Response c => success_elide q c | R2t _ _ _ _ => false end.

Lemma stage_payload_ok d dd elide a c s g m :
  dec_ready d -> staging g -> Cqe_wf (co_cqe c) -> slots a !! Z.to_nat (co_tag c) = Some s ->
  sendable g (data s) (co_data_len c) -> arena_used g + 32 <= arena_len g ->
  exists g' m' h, stage_payload a c elide (hdr_digest d) dd (g, m) = ((g', m'), Ok tt) /\
    staged g g' m m' 32 (MAX_SEGS + 2) (h ++ payload m (data s) (co_data_len c) ++
                                   ddgst_bytes dd (payload m (data s) (co_data_len c))) /\
    c2h_header d h (cqe_cid (co_cqe c)) (co_data_len c) elide dd.
Proof.
  intros Hd Hg Hc Hs Hsd Hr. pose proof Hg as [_ _ Ha _ _ Hi].
  pose proof (mem_read_length m (arena_ptr g + arena_used g) (arena_len g - arena_used g) ltac:(lia)) as Hml.
  destruct (c2h_data_roundtrip (E := never) d (mem_read m (arena_ptr g + arena_used g) (arena_len g - arena_used g))
    (cqe_cid (co_cqe c)) 0 (co_data_len c) true elide dd) as (b' & n & He & Hdec); [done|apply Hc|split; lia| | |lia|].
  { destruct Hsd as (_ & _ & _ & ? & ? & _). unfold MAX_PLEN. lia. }
  { intros _. apply Hsd. }
  destruct (c2h_encodes _ _ _ _ _ _ _ _ _ _ He) as [_ [Hn _]].
  destruct (stage_header_ok _ 28 g m b' n Hg (c2h_encodes (cqe_cid (co_cqe c)) 0 (co_data_len c) true elide (hdr_digest d) dd)) as (l & m1 & Hst & Hs1); [lia|exact He|].
  unfold stage_payload. rewrite (bind_ok _ _ _ _ _ Hst).
  set (g1 := set_iovs l _ _) in *. rewrite (bind_ok _ _ _ (g1, m1) s) by (unfold lift; by rewrite Hs).
  destruct (stage_segs_ok g1 m1 (data s) (co_data_len c)) as (g2 & Hst2 & Hs2 & Hu2);
    [apply Hs1|exact Hsd|cbn; lia|].
  assert (payload m1 (data s) (co_data_len c) = payload m (data s) (co_data_len c)) as Hpl.
  { eapply payload_frame; [exact Hsd|]. intros x Hx. apply (st_mem _ _ _ _ _ _ _ Hs1). lia. }
  rewrite Hpl in Hs2. pose proof (staged_trans _ _ _ _ _ _ _ _ _ _ _ _ Hs1 Hs2) as H12.
  rewrite Hst2. destruct dd.
  - destruct (stage_ddgst_ok g2 m1 (data s) (co_data_len c)) as (g3 & m3 & Hst3 & Hs3).
    { apply Hs2. }
    { destruct Hsd as (?&?&?&?&?&?). destruct (st_arena _ _ _ _ _ _ _ H12) as (E1 & E2 & _).
      unfold sendable. by rewrite E1, E2. }
    { pose proof (st_used _ _ _ _ _ _ _ H12). destruct (st_arena _ _ _ _ _ _ _ H12) as (_ & E2 & _). lia. }
    rewrite Hpl in Hs3. exists g3, m3, (take n b'). split; [done|]. split; [|done].
    rewrite app_assoc. exact (staged_trans _ _ _ _ _ _ _ _ _ _ _ _ H12 Hs3).
  - exists g2, m1, (take n b'). split; [done|]. split; [|done]. cbn [ddgst_bytes]. rewrite app_nil_r.
    eapply staged_weaken; [exact H12|lia..].
Qed.

(** A header whose encoding is known, staged alone. *)
Lemma stage_pdu_ok d f g m p :
  staging g -> encodes f 28 -> arena_used g + 28 <= arena_len g ->
  (forall b, (28 <= length b)%nat -> exists b' n, f b = Ok (b', n) /\ decodes d (take n b') p) ->
  exists g' m' h, stage_header f (g, m) = ((g', m'), Ok tt) /\ staged g g' m m' 28 1 h /\ decodes d h p.
Proof.
  intros Hg Hf Hr Hd. pose proof Hg as [_ _ Ha _ _ _].
  pose proof (mem_read_length m (arena_ptr g + arena_used g) (arena_len g - arena_used g) ltac:(lia)) as Hml.
  destruct (Hd (mem_read m (arena_ptr g + arena_used g) (arena_len g - arena_used g))) as (b' & n & He & Hdec); [lia|].
  destruct (stage_header_ok f 28 g m b' n Hg Hf ltac:(lia) He) as (l & m' & Hst & Hsd). by eexists _, m', _.
Qed.

(** The data PDU of a completion, if it has one. *)
Lemma stage_data_ok d dd elide a c g m :
  dec_ready d -> staging g -> work_ok g a (Response c) -> arena_used g + 32 <= arena_len g ->
  exists g1 m1 bs1,
    (if 0 <? co_data_len c then stage_payload a c elide (hdr_digest d) dd else mret tt) (g, m) = ((g1, m1), Ok tt) /\
    staged g g1 m m1 32 (MAX_SEGS + 2) bs1 /\
    if 0 <? co_data_len c
    then exists h, bs1 = h ++ work_data m a (Response c) ++ ddgst_bytes dd (work_data m a (Response c)) /\
                   c2h_header d h (cqe_cid (co_cqe c)) (co_data_len c) elide dd
    else bs1 = [].
Proof.
  intros Hd Hg (Hc & Hlen & Hdata) Hr. destruct (Z.ltb_spec 0 (co_data_len c)) as [Hpos|].
  - destruct (Hdata Hpos) as (s & Hs & Hsd). cbn [work_data]. rewrite Hs.
    destruct (stage_payload_ok d dd elide a c s g m) as (g1 & m1 & h & ? & ? & ?); [done..|].
    eexists g1, m1, _. split; [done|]. split; [done|]. by exists h.
  - exists g, m, []. split; [done|]. split; [|done]. eapply staged_weaken; [by apply staged_refl|lia..].
Qed.

Lemma staged_room g g' m m' a e bs n :
  staged g g' m m' a e bs -> arena_used g + (a + n) <= arena_len g -> arena_used g' + n <= arena_len g'.
Proof. intros [_ (_ & -> & _) Hu _ _ _]. lia. Qed.

Lemma stage_work_ok q d dd a work g m :
  dec_ready d -> staging g -> work_ok g a work -> arena_used g + ARENA_PER_ITEM <= arena_len g ->
  exists g' m' bs, tcp_stage q (hdr_digest d) dd a work (g, m) = ((g', m'), Ok (release_class work)) /\
    staged g g' m m' ARENA_PER_ITEM (MAX_SEGS + 3) bs /\
    work_wire d dd (work_elide q work) (work_data m a work) work bs.
Proof.
  intros Hd Hg Hw Hr. unfold ARENA_PER_ITEM in *. unfold tcp_stage. destruct work as [c|tag cid off len].
  - destruct (stage_data_ok d dd (success_elide q c) a c g m Hd Hg Hw) as (g1 & m1 & bs1 & Hst1 & Hs1 & Hw1); [lia|].
    cbn [stage_send_work work_elide]. destruct (success_elide q c) eqn:He.
    + exists g1, m1, (bs1 ++ []). split; [|split; [|by exists bs1, []]].
      * unfold mbind, M_bind. by rewrite Hst1.
      * rewrite app_nil_r. eapply staged_weaken; [exact Hs1|lia..].
    + destruct (stage_pdu_ok d (fun b => encode_capsule_resp b (co_cqe c) (hdr_digest d)) g1 m1
        {| dp_kind := KCapsuleResp (co_cqe c); dp_data_len := 0; dp_ddgst := false |}) as (g2 & m2 & h & Hst2 & Hs2 & Hd2);
        [apply Hs1|apply resp_encodes|eapply staged_room; [exact Hs1|lia]| |].
      { intros b Hb. apply capsule_resp_roundtrip; [done|apply Hw|done]. }
      exists g2, m2, (bs1 ++ h). split; [|split; [|by exists bs1, h]].
      * unfold mbind, M_bind. by rewrite Hst1, Hst2.
      * eapply staged_weaken; [exact (staged_trans _ _ _ _ _ _ _ _ _ _ _ _ Hs1 Hs2)|lia..].
  - destruct Hw as (Hc & Ht & Ho & Hl).
    destruct (stage_pdu_ok d (fun b => encode_r2t b cid tag off len (hdr_digest d)) g m
      {| dp_kind := KR2T cid tag off len; dp_data_len := 0; dp_ddgst := false |}) as (g2 & m2 & h & Hst2 & Hs2 & Hd2);
      [done|apply r2t_encodes|lia|intros b Hb; by apply r2t_roundtrip|].
    exists g2, m2, h. split; [|split; [|done]].
    + cbn [stage_send_work]. unfold mbind, M_bind. by rewrite Hst2.
    + eapply staged_weaken; [exact Hs2|lia..].
Qed.

(** ** A batch *)

Definition cqe_tags (l : list SendWork) : list Z :=
  omap (fun w => match release_class w with AtCqe t => Some t | _ => None end) l.
Definition notif_tags (l : list SendWork) : list Z :=
  omap (fun w => match release_class w with AtNotif t => Some t | _ => None end) l.

(** The items [l] were staged from [b] to [b'], each as its own bytes. *)
Record batched (q : QueueCore) (d : PduDecoder) (dd : bool) (a : SlotArray Sqe) (l : list SendWork)
    (b b' : GatherSendBatch) (m m' : mem) : Prop := {
  bt_staging : staging (gather b');
  bt_arena : arena_ptr (gather b') = arena_ptr (gather b) /\ arena_len (gather b') = arena_len (gather b) /\
             iov_cap (gather b') = iov_cap (gather b);
  bt_iovs : Z.of_nat (length (iovs (gather b))) <= iov_cap (gather b) ->
            Z.of_nat (length (iovs (gather b'))) <= iov_cap (gather b);
  bt_mem : forall x, ~ (arena_ptr (gather b) <= x < arena_ptr (gather b) + arena_len (gather b)) -> m' x = m x;
  bt_tags : tags_at_cqe b' = tags_at_cqe b ++ cqe_tags l /\ tags_at_notif b' = tags_at_notif b ++ notif_tags l;
  bt_notifs : pending_notifs b' = pending_notifs b /\ arena_per_item b' = arena_per_item b /\
              iovs_per_item b' = iovs_per_item b;
  bt_wire : exists bss, flat m' (iovs (gather b')) = flat m (iovs (gather b)) ++ concat bss /\
      Forall2 (fun w bs => work_wire d dd (work_elide q w) (work_data m a w) w bs) l bss;
}.

Lemma batched_nil q d dd a b m : staging (gather b) -> batched q d dd a [] b b m m.
Proof.
  intros. split; try done; [by rewrite !app_nil_r|]. exists []. by rewrite app_nil_r.
Qed.

Lemma work_ok_arena g g' a w :
  arena_ptr g' = arena_ptr g -> arena_len g' = arena_len g -> work_ok g a w -> work_ok g' a w.
Proof.
  intros Hp Hl. destruct w; [|done]. intros (? & ? & Hd). split_and!; try done. intros Hpos.
  destruct (Hd Hpos) as (s & ? & Hs). exists s. split; [done|]. unfold sendable. by rewrite Hp, Hl.
Qed.

Lemma work_data_frame g a w m m' :
  work_ok g a w -> (forall x, ~ (arena_ptr g <= x < arena_ptr g + arena_len g) -> m' x = m x) ->
  (match w with Response c => 0 < co_data_len c | _ => True end) -> work_data m' a w = work_data m a w.
Proof.
  destruct w; [|done]. intros (_ & _ & Hd) Hm Hpos. destruct (Hd Hpos) as (s & Hs & Hsd). cbn. rewrite Hs.
  by eapply payload_frame.
Qed.

(** The wire image of an item does not depend on the arena's contents. *)
Lemma work_wire_frame g d dd e a w m m' bs :
  work_ok g a w -> (forall x, ~ (arena_ptr g <= x < arena_ptr g + arena_len g) -> m' x = m x) ->
  work_wire d dd e (work_data m' a w) w bs -> work_wire d dd e (work_data m a w) w bs.
Proof.
  intros Hw Hm. destruct w as [c|]; [|done]. cbn [work_wire]. destruct (Z.ltb_spec 0 (co_data_len c)); [|done].
  by rewrite (work_data_frame g a (Response c) m m' Hw Hm).
Qed.

Lemma batched_cons q d dd a w l b b1 b2 m m1 m2 :
  Forall (work_ok (gather b) a) (w :: l) ->
  batched q d dd a [w] b b1 m m1 -> batched q d dd a l b1 b2 m1 m2 -> batched q d dd a (w :: l) b b2 m m2.
Proof.
  intros [Hw Hl]%list.Forall_cons [S1 (A1 & A2 & A3) I1 M1 (T1 & T2) (N1 & N2 & N3) (bs1 & W1 & F1)]
    [S2 (A4 & A5 & A6) I2 M2 (T3 & T4) (N4 & N5 & N6) (bs2 & W2 & F2)]. split.
  - done.
  - split_and!; congruence.
  - intros. rewrite A3 in I2. by apply I2, I1.
  - intros x Hx. rewrite M2, M1; [done|done|]. by rewrite A1, A2.
  - rewrite T3, T1, T4, T2, <- !app_assoc. split; f_equal; symmetry; exact (omap_app _ [w] l).
  - split_and!; congruence.
  - exists (bs1 ++ bs2). rewrite concat_app, app_assoc, <- W1. split; [done|].
    apply (Forall2_app F1). clear -F2 Hl M1.
    induction F2 as [|w' bs l bss Hwire F2 IH]; [constructor|]. apply list.Forall_cons in Hl as [Hw' Hl].
    constructor; [by eapply work_wire_frame|by apply IH].
Qed.

Lemma add_tag_fields w b :
  let b' := add_tag (release_class w) b in
  tags_at_cqe b' = tags_at_cqe b ++ cqe_tags [w] /\ tags_at_notif b' = tags_at_notif b ++ notif_tags [w] /\
  gather b' = gather b /\ pending_notifs b' = pending_notifs b /\ arena_per_item b' = arena_per_item b /\
  iovs_per_item b' = iovs_per_item b.
Proof.
  unfold cqe_tags, notif_tags. cbn. destruct (release_class w); cbn; by rewrite ?app_nil_r.
Qed.

(** One item. *)
Lemma stage_item_ok q d dd a w b (l : SendList SendWork) m :
  dec_ready d -> staging (gather b) -> work_ok (gather b) a w ->
  gather_fits ARENA_PER_ITEM IOVS_PER_ITEM (gather b) = true ->
  exists b' m', stage_item (tcp_stage q (hdr_digest d) dd a) w (b, l, m) = ((b', l, m'), Ok tt) /\
    batched q d dd a [w] b b' m m'.
Proof.
  intros Hd Hg Hw Hf. unfold gather_fits in Hf. apply andb_prop in Hf as [Hf1 Hf2]. zbool.
  destruct (stage_work_ok q d dd a w (gather b) m Hd Hg Hw Hf1) as (g' & m' & bs & Hst & [S1 S2 S3 S4 S5 S6] & Hwire).
  exists (add_tag (release_class w) (set_gather g' b)), m'. unfold stage_item. rewrite Hst. split; [done|].
  pose proof (sg_arena _ Hg) as Ha. unfold IOVS_PER_ITEM in Hf2.
  assert (forall x, ~ (arena_ptr (gather b) <= x < arena_ptr (gather b) + arena_len (gather b)) -> m' x = m x) as Hm
    by (intros x Hx; apply S5; lia).
  destruct (add_tag_fields w (set_gather g' b)) as (T1 & T2 & Hga & Hpn & Ha1 & Ha2).
  split; rewrite ?Hga, ?T1, ?T2, ?Hpn, ?Ha1, ?Ha2; cbn; try done; [intros _; lia|]. exists [bs]. cbn. rewrite app_nil_r. split; [done|]. by repeat constructor.
Qed.

(** What [stage_batch] leaves: the items staged, the one carried over and the
    rest of the list, in order. *)
Lemma stage_loop_ok q d dd a fuel cap w b (l : SendList SendWork) m :
  dec_ready d -> staging (gather b) -> Forall (work_ok (gather b) a) (w :: work l) ->
  arena_per_item b = ARENA_PER_ITEM -> iovs_per_item b = IOVS_PER_ITEM -> (length (work l) < fuel)%nat ->
  exists carry b' l' m' ws,
    stage_loop (tcp_stage q (hdr_digest d) dd a) fuel cap w (b, l, m) = ((b', l', m'), Ok carry) /\
    ws ++ option_list carry ++ work l' = w :: work l /\ (batch_fits b = true -> ws <> []) /\
    batched q d dd a ws b b' m m'.
Proof.
  revert w b l m. induction fuel as [|fuel IH]; intros w b l m Hd Hg Hw Hapi Hipi Hf; [lia|].
  cbn [stage_loop]. rewrite get_bind. unfold batch_fits at 1 2. rewrite Hapi, Hipi.
  destruct (gather_fits ARENA_PER_ITEM IOVS_PER_ITEM (gather b)) eqn:Hfit; cbn [negb].
  2: { exists (Some w), b, l, m, []. split; [done|]. split; [done|]. split; [done|]. by apply batched_nil. }
  pose proof Hw as [Hw1 Hl]%list.Forall_cons.
  destruct (stage_item_ok q d dd a w b l m Hd Hg Hw1 Hfit) as (b1 & m1 & Hst & Hb1).
  rewrite (bind_ok _ _ _ _ _ Hst), get_bind. destruct (gathered_enough cap (gather b1)).
  { by exists None, b1, l, m1, [w]. }
  unfold next_item, try_next. unfold mbind, M_bind. destruct (work l) as [|w' rest] eqn:Hlw.
  { exists None, b1, l, m1, [w]. by rewrite Hlw. }
  pose proof Hb1 as [S1 (A1 & A2 & A3) I1 M1 T1 (N1 & N2 & N3) W1].
  destruct (IH w' b1 {| work := rest; sl_waker := sl_waker l; closed := closed l |} m1)
    as (carry & b2 & l2 & m2 & ws & Hrun & Hsplit & _ & Hb2); cbn [work]; try done.
  { eapply list.Forall_impl; [exact Hl|]. intros x. by apply work_ok_arena. }
  { congruence. } { congruence. } { cbn in Hf. lia. }
  exists carry, b2, l2, m2, (w :: ws). split; [exact Hrun|]. cbn in Hsplit |- *. rewrite Hsplit. split; [done|].
  split; [done|]. eapply batched_cons; [|done..].
  rewrite <- Hsplit in Hw. apply list.Forall_cons in Hw as [? Hws]. apply list.Forall_app in Hws as [? _].
  by constructor.
Qed.

End SendProofs.
