(* ===== verification/SenderProofs.v ===== *)
(** * The sender's tag accounting

    Every tag the send path holds (queued, carried over, staged, or waiting for
    zero-copy notifications) belongs to a slot in [Responding], and to one place
    only.  Sending, retiring, reaping and draining keep it so: a tag is released
    exactly once, a buffer that a zero-copy op still references stays with its
    slot until the kernel has completed the op's notification ([sy_pins],
    [sy_done]), and no assertion of the sender can fail. *)

From S2P Require Import Prelude Pool PoolProofs PoolSafety SlotQ SlotQProofs.
From S2P Require Import SlotQSafety SendBatch Sender ExecLaws.

(** ** Tags in hand *)

Section Owned.
Context {C : Type}.
Implicit Types a : SlotArray C.

Definition responding a (t : Z) : Prop :=
  0 <= t /\ exists s, slots a !! Z.to_nat t = Some s /\ state s = Responding.

(** The send path owns the tags [l]. *)
Definition owns a (l : list Z) : Prop := NoDup l /\ Forall (responding a) l.

#[export] Instance owns_proper : Proper (eq ==> Permutation ==> iff) (@owns).
Proof. intros a ? <- l l' Hp. unfold owns. by rewrite Hp. Qed.

Lemma owns_app_r a l k : owns a (l ++ k) -> owns a k.
Proof. intros [Hn Hf]. apply list.NoDup_app in Hn as (_ & _ & ?). by apply list.Forall_app in Hf as [_ ?]. Qed.

Lemma release_fold_step (f : M (SlotArray C) never unit) tags a a' :
  f a = (a', Ok tt) ->
  fold_left (fun (m : M (SlotArray C) never unit) t => _ ← m; release_tag t) tags f a =
  fold_left (fun (m : M (SlotArray C) never unit) t => _ ← m; release_tag t) tags (mret tt) a'.
Proof.
  revert f a a'. induction tags as [|t tags IH]; intros f a a' Hf; cbn [fold_left]; [done|].
  assert (forall (m : M (SlotArray C) never unit) b, m b = (a', Ok tt) ->
            (_ ← m; release_tag t) b = release_tag t a') as Hone.
  { intros m b Hm. unfold mbind, M_bind. by rewrite Hm. }
  destruct (release_tag t a') as [a1 [[]|e|]] eqn:Hr; [|done|].
  - rewrite (IH _ a a1), (IH _ a' a1); [done|..]; rewrite Hone; done.
  - clear IH. assert (forall (m m' : M (SlotArray C) never unit) b b' x, m b = (x, Panic) -> m' b' = (x, Panic) ->
      fold_left (fun (m : M (SlotArray C) never unit) t => _ ← m; release_tag t) tags m b =
      fold_left (fun (m : M (SlotArray C) never unit) t => _ ← m; release_tag t) tags m' b') as Hp.
    { clear. induction tags as [|u tags IH]; intros m m' b b' x H H'; cbn [fold_left]; [congruence|].
      eapply IH; unfold mbind, M_bind; [by rewrite H|by rewrite H']. }
    eapply Hp; rewrite Hone; done.
Qed.

(** Releasing owned tags succeeds and leaves the rest owned. *)
Lemma release_tags_ok (s : StreamSender) tags rest a :
  arr_ok a -> owns a (tags ++ rest) ->
  exists a', release_tags tags (s, a) = ((s, a'), Ok tt) /\ arr_ok a' /\ owns a' rest /\
    nslots a' = nslots a /\ (forall i, Z.of_nat i ∉ tags -> slots a' !! i = slots a !! i).
Proof.
  revert a. induction tags as [|t tags IH]; intros a (rss & res & Hok) Ho.
  { exists a. split; [done|]. split; [by exists rss, res|]. done. }
  pose proof Ho as [Hn [(Ht & sl & Hs & Hst) Hf]%list.Forall_cons].
  cbn in Hn. apply list.NoDup_cons in Hn as [Hni Hn].
  destruct (release_ok a rss res (Z.to_nat t) sl Hok Hs Hst) as (a1 & s1 & Hr & Hok1 & Hsl & _ & _ & _ & _ & Hns).
  rewrite Z2Nat.id in Hr by done.
  destruct (IH a1 Hok1) as (a2 & Hr2 & Hok2 & Ho2 & Hns2 & Hfr).
  { split; [done|]. eapply list.Forall_impl; [|intros u Hu; exact Hu].
    apply list.Forall_forall. intros u Hu. apply list.Forall_forall with (x := u) in Hf as (Hu0 & su & Hus & Hust); [|done].
    split; [done|]. exists su. rewrite Hsl, list_lookup_insert_ne; [done|]. intros He.
    apply Hni. by replace t with u by lia. }
  exists a2. split; [|split; [done|split; [done|split; [congruence|]]]].
  - revert Hr2. unfold release_tags. cbn [fold_left].
    rewrite (release_fold_step (_ ← mret tt; release_tag t) tags a a1) by exact Hr. done.
  - intros i Hi. rewrite Hfr by (intros ?; apply Hi; by right). rewrite Hsl. apply list_lookup_insert_ne.
    intros <-. apply Hi. rewrite Z2Nat.id by done. by left.
Qed.

End Owned.

(** ** Batches *)

Definition batch_tags (b : GatherSendBatch) : list Z := tags_at_cqe b ++ tags_at_notif b.
Definition all_tags (l : list GatherSendBatch) : list Z := concat (map batch_tags l).

(** A batch ready for staging. *)
Definition cleaned (b : GatherSendBatch) : GatherSendBatch :=
  set_tags [] [] (set_gather (gather_reset (gather b)) (set_notifs [] b)).
Definition clean (b : GatherSendBatch) : Prop := b = cleaned b.

Lemma cleaned_clean b : clean (cleaned b).
Proof. done. Qed.

Lemma clean_tags b : clean b -> batch_tags b = [] /\ pending_notifs b = [].
Proof. by intros ->. Qed.

(** Replacing one batch changes its share of the tags. *)
Lemma all_tags_split l i b :
  l !! i = Some b ->
  exists rest, all_tags l ≡ₚ batch_tags b ++ rest /\ forall b', all_tags (<[i := b']> l) ≡ₚ batch_tags b' ++ rest.
Proof.
  intros Hi. exists (all_tags (take i l) ++ all_tags (drop (S i) l)).
  assert (forall x, all_tags (take i l ++ x :: drop (S i) l) ≡ₚ
            batch_tags x ++ all_tags (take i l) ++ all_tags (drop (S i) l)) as H.
  { intros x. unfold all_tags. rewrite map_app, concat_app. cbn. rewrite !app_assoc.
    f_equiv. apply Permutation_app_comm. }
  split.
  - rewrite <- (H b). by rewrite take_drop_middle.
  - intros b'. rewrite <- (H b'). by rewrite insert_take_drop by (by eapply lookup_lt_Some).
Qed.

(** The sender between two steps; [hand] is the batch being staged or sent. *)
Record sender_ok (hand : option nat) (s : StreamSender) : Prop := {
  so_len : length (batches s) = 2%nat;
  so_hand : forall i, hand = Some i -> (i < 2)%nat;
  so_nodup : NoDup (inflight s);
  so_inflight : forall i, i ∈ inflight s ->
    hand <> Some i /\ exists b, batches s !! i = Some b /\ tags_at_cqe b = [] /\ pending_notifs b <> [];
  so_idle : forall i b, batches s !! i = Some b -> i ∉ inflight s -> hand <> Some i -> clean b;
}.

(** The statistics have room for what the sender may still count. *)
Definition notif_count (s : StreamSender) : Z :=
  Z.of_nat (length (concat (map pending_notifs (batches s)))).
Definition stats_ok (s : StreamSender) : Prop :=
  0 <= zc_batches s < 2 ^ 64 - 1 /\ 0 <= zc_copied s /\ zc_copied s + notif_count s < 2 ^ 64 /\
  0 <= zc_fallbacks s < 2 ^ 64 - 1.

(** A batch keeps its notifications, and the tags that wait for them, but for
    what was waited for. *)
Definition keeps (waited : list nat) (s s' : StreamSender) : Prop :=
  forall i b k, batches s !! i = Some b -> k ∈ pending_notifs b ->
    k ∈ waited \/ exists b', batches s' !! i = Some b' /\ k ∈ pending_notifs b' /\ tags_at_notif b' = tags_at_notif b.

Lemma keeps_same waited s s' : batches s' = batches s -> keeps waited s s'.
Proof. intros Hb i b k Hi Hk. right. exists b. by rewrite Hb. Qed.

Lemma keeps_put waited i b b' s s' : batches s' = <[i := b']> (batches s) -> batches s !! i = Some b ->
  (forall k, k ∈ pending_notifs b -> k ∈ waited \/ k ∈ pending_notifs b' /\ tags_at_notif b' = tags_at_notif b) -> keeps waited s s'.
Proof.
  intros Hbs Hb H j bj k Hj Hk. rewrite Hbs. destruct (decide (j = i)) as [->|].
  - assert (bj = b) as -> by congruence. destruct (H k Hk) as [?|[? ?]]; [by left|right]. exists b'.
    by rewrite list_lookup_insert_eq by (by eapply lookup_lt_Some).
  - right. exists bj. by rewrite list_lookup_insert_ne.
Qed.

Lemma keeps_trans waited s s1 s2 : keeps waited s s1 -> keeps waited s1 s2 -> keeps waited s s2.
Proof.
  intros H1 H2 i b k Hb Hk. destruct (H1 i b k Hb Hk) as [?|(b1 & Hb1 & Hk1 & Ht1)]; [by left|].
  destruct (H2 i b1 k Hb1 Hk1) as [?|(b2 & Hb2 & Hk2 & Ht2)]; [by left|]. right. exists b2. by rewrite Ht2.
Qed.

Lemma keeps_more (waited waited' : list nat) s s' : (forall k, k ∈ waited -> k ∈ waited') -> keeps waited s s' -> keeps waited' s s'.
Proof. intros Hw H i b k Hb Hk. destruct (H i b k Hb Hk) as [?|?]; [left; by apply Hw|by right]. Qed.

(** What [reap] awaits; what [acquire] does, when both batches are in flight;
    what [drain] does. *)
Definition reap_waits (s : StreamSender) (i : nat) : list nat := match batches s !! i with Some b => pending_notifs b | None => [] end.
Definition acquire_waits (s : StreamSender) : list nat :=
  if decide (length (inflight s) = length (batches s)) then match inflight s with i :: _ => reap_waits s i | [] => [] end else [].
Definition drain_waits (s : StreamSender) : list nat := concat (map pending_notifs (batches s)).

(** [s'] differs from [s] in batch [i] and the copy counter. *)
Definition batch_put (i : nat) (b : GatherSendBatch) (s s' : StreamSender) : Prop :=
  batches s' = <[i := b]> (batches s) /\ inflight s' = inflight s /\ zc_batches s' = zc_batches s /\
  zc_fallbacks s' = zc_fallbacks s /\ vec_fixed_ok s' = vec_fixed_ok s /\ zc_min_avg s' = zc_min_avg s.

Section Ops.
Context {C : Type}.
Implicit Types (a : SlotArray C) (s : StreamSender).

Lemma batch_eq i b s a : batches s !! i = Some b -> batch i (s, a) = ((s, a), Ok b).
Proof. intros H. unfold batch. rewrite get_bind. unfold lift. by rewrite H. Qed.

Lemma recycle_ok i b s a rest :
  batches s !! i = Some b -> pending_notifs b = [] -> arr_ok a -> owns a (tags_at_notif b ++ rest) ->
  exists a', recycle i (s, a) = ((set_batch i (cleaned b) s, a'), Ok tt) /\ arr_ok a' /\ owns a' rest /\
    (forall k, Z.of_nat k ∉ tags_at_notif b -> slots a' !! k = slots a !! k).
Proof.
  intros Hi Hp Hok Ho. unfold recycle. rewrite (bind_ok _ _ _ _ _ (batch_eq _ _ _ _ Hi)).
  destruct (release_tags_ok s _ _ a Hok Ho) as (a' & Hr & Hok' & Ho' & _ & Hfr).
  rewrite (bind_ok _ _ _ _ _ Hr). exists a'.
  assert (batch_reset b = (cleaned b, Ok tt)) as ->; [|done].
  unfold batch_reset, mbind, M_bind, modify, get, lift. cbn [pending_notifs set_tags set_gather].
  rewrite Hp. cbn. unfold cleaned. destruct b; cbn in *. by rewrite Hp.
Qed.

Lemma filter_copied_le (copied : nat -> bool) l :
  (length (filter (fun k => copied k = true) l) <= length l)%nat.
Proof. apply length_filter. Qed.

Lemma reap_ok copied i b s a rest :
  batches s !! i = Some b -> arr_ok a -> owns a (tags_at_notif b ++ rest) ->
  0 <= zc_copied s -> zc_copied s + Z.of_nat (length (pending_notifs b)) < 2 ^ 64 ->
  exists s' a', reap copied i (s, a) = ((s', a'), Ok tt) /\ batch_put i (cleaned b) s s' /\
    zc_copied s <= zc_copied s' <= zc_copied s + Z.of_nat (length (pending_notifs b)) /\
    arr_ok a' /\ owns a' rest /\ (forall k, Z.of_nat k ∉ tags_at_notif b -> slots a' !! k = slots a !! k).
Proof.
  intros Hi Hok Ho Hz Hb. unfold reap. rewrite (bind_ok _ _ _ _ _ (batch_eq _ _ _ _ Hi)), get_bind.
  pose proof (filter_copied_le copied (pending_notifs b)) as Hf.
  set (n := zc_copied s + _). rewrite (bind_ok _ _ _ (s, a) n) by (unfold lift; rewrite checked_ok; [done|split; lia]).
  rewrite (bind_ok _ _ _ (set_zc_stats (zc_batches s) n (zc_fallbacks s) s, a) tt) by done.
  set (s1 := set_zc_stats _ _ _ s). rewrite (bind_ok _ _ _ (set_batch i (set_notifs [] b) s1, a) tt) by done.
  destruct (recycle_ok i (set_notifs [] b) (set_batch i (set_notifs [] b) s1) a rest) as (a' & Hr & Hok' & Ho' & Hfr).
  { cbn. apply list_lookup_insert_eq. by eapply lookup_lt_Some. }
  { done. } { done. } { done. }
  eexists _, a'. split; [exact Hr|]. split; [|split; [cbn; lia|done]].
  split; [|done]. cbn. by rewrite list_insert_insert_eq.
Qed.

Lemma notif_count_put i b b' s s' :
  batches s !! i = Some b -> batches s' = <[i := b']> (batches s) ->
  notif_count s' + Z.of_nat (length (pending_notifs b)) = notif_count s + Z.of_nat (length (pending_notifs b')).
Proof.
  intros Hi Hs. unfold notif_count. rewrite Hs. clear Hs. revert i Hi.
  induction (batches s) as [|x l IH]; intros [|i] Hi; cbn in *; simplify_eq.
  - rewrite !length_app. lia.
  - specialize (IH i Hi). rewrite !length_app. unfold insert in *. rewrite ?length_app in *. lia.
Qed.

Lemma inflight_bound hand s i : sender_ok hand s -> i ∈ inflight s -> (i < 2)%nat.
Proof.
  intros [Hl _ _ Hin _] Hi. destruct (Hin i Hi) as (_ & b & Hb & _). apply lookup_lt_Some in Hb. lia.
Qed.

Lemma inflight_two hand s : sender_ok hand s -> (length (inflight s) <= 2)%nat.
Proof.
  intros Hs. assert (inflight s ⊆+ seq 0 2) as H.
  { apply NoDup_submseteq; [apply (so_nodup _ _ Hs)|]. intros i Hi. apply elem_of_seq.
    pose proof (inflight_bound _ _ _ Hs Hi). lia. }
  apply submseteq_length in H. by rewrite length_seq in H.
Qed.

(** What an operation of the sender keeps, beside the tags [rest] owned elsewhere. *)
Definition sends (hand : option nat) (rest : list Z) (st : StreamSender * SlotArray C) : Prop :=
  sender_ok hand st.1 /\ arr_ok st.2 /\ owns st.2 (all_tags (batches st.1) ++ rest).

(** Any batch can be reaped: what it held for its notifications is released. *)
Lemma reap_owned copied i b s a rest :
  stats_ok s -> arr_ok a -> owns a (all_tags (batches s) ++ rest) -> batches s !! i = Some b ->
  exists s' a', reap copied i (s, a) = ((s', a'), Ok tt) /\ stats_ok s' /\ arr_ok a' /\
    owns a' (all_tags (batches s') ++ rest) /\ batches s' = <[i := cleaned b]> (batches s) /\
    inflight s' = inflight s.
Proof.
  intros (Hz1 & Hz2 & Hz3 & Hz4) Hok Ho Hb. destruct (all_tags_split _ _ _ Hb) as (R & HR & HR').
  assert (owns a (tags_at_notif b ++ (R ++ rest))) as Ho'.
  { rewrite HR in Ho. unfold batch_tags in Ho. rewrite <- !app_assoc in Ho. by apply owns_app_r in Ho. }
  assert (Z.of_nat (length (pending_notifs b)) <= notif_count s) as Hc.
  { pose proof (notif_count_put i b (cleaned b) s (set_batch i (cleaned b) s) Hb eq_refl) as H. cbn in H.
    unfold notif_count in *. lia. }
  destruct (reap_ok copied i b s a (R ++ rest) Hb Hok Ho' Hz2) as
    (s' & a' & Hr & (Hbs & Hinf & H3 & H4 & H5 & H6) & Hzc & Hok' & Hown & _); [lia|].
  pose proof (notif_count_put i b (cleaned b) s s' Hb Hbs) as Hcount. cbn in Hcount.
  exists s', a'. split; [done|]. split; [unfold stats_ok in *; rewrite H3, H4; lia|].
  split; [done|]. split; [|done]. rewrite Hbs, HR'. cbn. done.
Qed.

Lemma reap_oldest_sends copied s a rest i l :
  sends None rest (s, a) -> stats_ok s -> inflight s = i :: l ->
  exists s' a', reap_oldest copied (s, a) = ((s', a'), Ok tt) /\ sends None rest (s', a') /\ stats_ok s' /\
    inflight s' = l /\ keeps (reap_waits s i) s s'.
Proof.
  intros (Hs & Hok & Ho) Hst Hi. cbn [fst snd] in *. pose proof Hs as [Hl Hh0 Hn Hin Hid]. rewrite Hi in *.
  apply list.NoDup_cons in Hn as [Hni Hn]. destruct (Hin i) as (_ & b & Hb & _); [left|].
  unfold reap_oldest. rewrite get_bind, Hi. rewrite (bind_ok _ _ _ (set_inflight l s, a) tt) by done.
  destruct (reap_owned copied i b (set_inflight l s) a rest) as (s' & a' & Hr & Hst' & Hok' & Ho' & Hbs & Hinf);
    try done. cbn in Hbs, Hinf. exists s', a'. split; [done|].
  split; [|split; [done|split; [done|eapply keeps_put; [exact Hbs|exact Hb|]; intros k Hk; left; unfold reap_waits; by rewrite Hb]]].
  split; [|done]. cbn [fst].
  split; [by rewrite Hbs, length_insert|done|by rewrite Hinf| |].
  - intros j Hj. rewrite Hinf in Hj. destruct (Hin j) as (Hh & bj & Hbj & ?); [by right|]. split; [done|]. exists bj.
    rewrite Hbs, list_lookup_insert_ne; [done|]. by intros ->.
  - intros j bj Hbj Hj _. rewrite Hinf in Hj. rewrite Hbs in Hbj. destruct (decide (j = i)) as [->|Hne].
    + rewrite list_lookup_insert_eq in Hbj by (by eapply lookup_lt_Some). by injection Hbj as <-.
    + rewrite list_lookup_insert_ne in Hbj by done. apply (Hid j bj Hbj); [|done]. by intros [->|?]%elem_of_cons.
Qed.

(** A batch is always free for staging, once the oldest is reaped. *)
Lemma acquire_sends copied s a rest :
  sends None rest (s, a) -> stats_ok s ->
  exists s' a' i b, acquire copied (s, a) = ((s', a'), Ok i) /\ sends None rest (s', a') /\ stats_ok s' /\
    (i ∉ inflight s') /\ batches s' !! i = Some b /\ clean b /\ keeps (acquire_waits s) s s'.
Proof.
  intros Hsd Hst. assert (exists s' a',
    (if decide (length (inflight s) = length (batches s)) then reap_oldest copied else (mret tt)) (s, a) =
      ((s', a'), Ok tt) /\ sends None rest (s', a') /\ stats_ok s' /\ (length (inflight s') < 2)%nat /\ keeps (acquire_waits s) s s')
    as (s' & a' & Hr & Hsd' & Hst' & Hlt & Hkeep).
  { pose proof Hsd as (Hs & _). cbn in Hs. pose proof (inflight_two _ _ Hs) as H2. rewrite (so_len _ _ Hs).
    unfold acquire_waits. rewrite (so_len _ _ Hs). destruct (inflight s) as [|i l] eqn:Hi; case_decide; try done.
    - exists s, a. split_and!; try done; [rewrite Hi; cbn; lia|by apply keeps_same].
    - destruct (reap_oldest_sends copied s a rest i l Hsd Hst Hi) as (s' & a' & ? & ? & ? & Hl & Hk).
      exists s', a'. split_and!; try done. rewrite Hl. cbn in H2. lia.
    - exists s, a. split_and!; try done; [rewrite Hi; lia|by apply keeps_same]. }
  unfold acquire. rewrite get_bind, (bind_ok _ _ _ _ _ Hr), get_bind.
  pose proof Hsd' as (Hs & _). cbn in Hs. rewrite (so_len _ _ Hs).
  destruct (filter (fun i => i ∉ inflight s') (seq 0 2)) as [|i l] eqn:Hf.
  { exfalso. assert (seq 0 2 ⊆+ inflight s') as Hsub.
    { apply NoDup_submseteq; [apply NoDup_seq|]. intros x Hx. destruct (decide (x ∈ inflight s')); [done|].
      assert (x ∈ filter (fun i => i ∉ inflight s') (seq 0 2)) as Hx' by (by apply list_elem_of_filter).
      rewrite Hf in Hx'. by apply elem_of_nil in Hx'. }
    apply submseteq_length in Hsub. rewrite length_seq in Hsub. lia. }
  assert (i ∈ filter (fun i => i ∉ inflight s') (seq 0 2)) as Hi by (rewrite Hf; left).
  apply list_elem_of_filter in Hi as [Hni Hi%elem_of_seq].
  destruct (lookup_lt_is_Some_2 (batches s') i) as [b Hb]; [rewrite (so_len _ _ Hs); lia|].
  exists s', a', i, b. split_and!; try done. by eapply (so_idle _ _ Hs).
Qed.

(** A batch that was sent. *)
Lemma retire_sends s a rest i :
  sends (Some i) rest (s, a) -> stats_ok s ->
  exists s' a', retire i (s, a) = ((s', a'), Ok tt) /\ sends None rest (s', a') /\
    (forall b, batches s !! i = Some b -> pending_notifs b <> [] ->
      batches s' !! i = Some (set_tags [] (tags_at_notif b) b)) /\ keeps [] s s'.
Proof.
  intros (Hs & Hok & Ho) (Hz & _). cbn [fst snd] in *. pose proof Hs as [Hl Hh0 Hn Hin Hid].
  destruct (lookup_lt_is_Some_2 (batches s) i) as [b Hb]; [rewrite Hl; by apply Hh0|].
  destruct (all_tags_split _ _ _ Hb) as (R & HR & HR').
  assert (owns a (tags_at_cqe b ++ (tags_at_notif b ++ R ++ rest))) as Ho1.
  { rewrite HR in Ho. unfold batch_tags in Ho. by rewrite <- !app_assoc in Ho. }
  destruct (release_tags_ok s _ _ a Hok Ho1) as (a1 & Hr1 & Hok1 & Ho1' & _).
  unfold retire. rewrite (bind_ok _ _ _ _ _ (batch_eq _ _ _ _ Hb)), (bind_ok _ _ _ _ _ Hr1).
  set (b1 := set_tags [] (tags_at_notif b) b). rewrite (bind_ok _ _ _ (set_batch i b1 s, a1) tt) by done.
  assert (i ∉ inflight s) as Hni by (intros Hin'; by destruct (Hin i Hin')).
  assert (batches (set_batch i b1 s) !! i = Some b1) as Hb1
    by (cbn; apply list_lookup_insert_eq; by eapply lookup_lt_Some).
  case_decide as Hp.
  - destruct (recycle_ok i b1 (set_batch i b1 s) a1 (R ++ rest) Hb1 Hp Hok1 Ho1') as (a2 & Hr2 & Hok2 & Ho2 & _).
    eexists _, a2. split; [exact Hr2|].
    split; [|split; [by intros b' Hb' Hp'; simplify_eq|]].
    2: { eapply keeps_put; [cbn; apply list_insert_insert_eq|exact Hb|]. intros k Hk. change (pending_notifs b = []) in Hp. rewrite Hp in Hk. by apply elem_of_nil in Hk. }
    split; [|split; [done|]]; cbn [fst snd set_batch batches inflight].
    + split; cbn; [by rewrite !length_insert|done|done| |].
      * intros j Hj. destruct (Hin j Hj) as (Hh & bj & Hbj & ?). split; [done|]. exists bj.
        rewrite !list_lookup_insert_ne by congruence. done.
      * intros j bj Hbj Hj _. rewrite list_insert_insert_eq in Hbj. destruct (decide (j = i)) as [->|Hne].
        -- rewrite list_lookup_insert_eq in Hbj by (by eapply lookup_lt_Some). by injection Hbj as <-.
        -- rewrite list_lookup_insert_ne in Hbj by done. apply (Hid j bj Hbj Hj). congruence.
    + rewrite list_insert_insert_eq, HR'. cbn. done.
  - rewrite get_bind. cbn [set_batch zc_batches].
    rewrite (bind_ok _ _ _ (set_batch i b1 s, a1) (zc_batches s + 1)) by (unfold lift; rewrite checked_ok; [done|split; lia]).
    eexists _, a1. split; [reflexivity|].
    split; [|split; [by intros b' Hb' _; simplify_eq|eapply keeps_put; [reflexivity|exact Hb|]; by right]].
    split; [|split; [done|]]; cbn [fst snd].
    + split; cbn; [by rewrite length_insert|done| | |].
      * apply list.NoDup_app. split; [done|]. split; [|by apply NoDup_singleton].
        intros j Hj ->%list_elem_of_singleton. done.
      * intros j [Hj | ->%list_elem_of_singleton]%elem_of_app; split; try done.
        -- destruct (Hin j Hj) as (Hh & bj & Hbj & ?). exists bj. rewrite list_lookup_insert_ne by congruence. done.
        -- by exists b1.
      * intros j bj Hbj [Hj Hj']%not_elem_of_app _. rewrite list_lookup_insert_ne in Hbj.
        -- apply (Hid j bj Hbj Hj). intros [= <-]. apply Hj'. by apply list_elem_of_singleton.
        -- intros <-. apply Hj'. by apply list_elem_of_singleton.
    + cbn [set_inflight set_zc_stats set_batch batches]. rewrite HR'. unfold b1, batch_tags. cbn. by rewrite <- app_assoc.
Qed.

(** [drain] waits for everything and leaves two clean batches. *)
Lemma reap_all_ok copied l s a rest :
  length (batches s) = 2%nat -> (forall i, i ∈ l -> (i < 2)%nat) -> stats_ok s -> arr_ok a ->
  owns a (all_tags (batches s) ++ rest) ->
  exists s' a', reap_all copied l (s, a) = ((s', a'), Ok tt) /\ stats_ok s' /\ arr_ok a' /\
    owns a' (all_tags (batches s') ++ rest) /\ length (batches s') = 2%nat /\ inflight s' = inflight s /\
    forall i b, batches s' !! i = Some b ->
      i ∈ l \/ (exists b0, batches s !! i = Some b0 /\ clean b0) -> clean b.
Proof.
  revert s a. induction l as [|i l IH]; intros s a Hl Hi Hst Hok Ho.
  { exists s, a. split_and!; try done. intros i b Hb [Hin|(b0 & Hb0 & ?)]; [by apply elem_of_nil in Hin|congruence]. }
  destruct (lookup_lt_is_Some_2 (batches s) i) as [b Hb]; [rewrite Hl; apply Hi; left|].
  destruct (reap_owned copied i b s a rest Hst Hok Ho Hb) as (s1 & a1 & Hr & Hst1 & Hok1 & Ho1 & Hbs & Hinf).
  destruct (IH s1 a1) as (s2 & a2 & Hr2 & Hst2 & Hok2 & Ho2 & Hl2 & Hinf2 & Hcl); try done.
  { by rewrite Hbs, length_insert. } { intros j Hj. apply Hi. by right. }
  exists s2, a2. cbn [reap_all]. rewrite (bind_ok _ _ _ _ _ Hr). split_and!; try done; [congruence|].
  intros j bj Hbj Hj. apply (Hcl j bj Hbj). destruct (decide (j = i)) as [->|Hne].
  - right. exists (cleaned b). split; [|done]. rewrite Hbs. apply list_lookup_insert_eq. by eapply lookup_lt_Some.
  - destruct Hj as [[?|?]%elem_of_cons|(b0 & Hb0 & ?)]; [done|by left|]. right. exists b0.
    by rewrite Hbs, list_lookup_insert_ne.
Qed.

Lemma drain_ok copied s a rest :
  length (batches s) = 2%nat -> (forall i, i ∈ inflight s -> (i < 2)%nat) -> stats_ok s -> arr_ok a ->
  owns a (all_tags (batches s) ++ rest) ->
  exists s' a', drain copied (s, a) = ((s', a'), Ok tt) /\ Forall clean (batches s') /\ inflight s' = [] /\
    length (batches s') = 2%nat /\ arr_ok a' /\ owns a' rest.
Proof.
  intros Hl Hi Hst Hok Ho. unfold drain. rewrite get_bind.
  rewrite (bind_ok _ _ _ (set_inflight [] s, a) tt) by done.
  destruct (reap_all_ok copied (inflight s) (set_inflight [] s) a rest) as
    (s1 & a1 & Hr & Hst1 & Hok1 & Ho1 & Hl1 & Hinf1 & _); try done.
  rewrite (bind_ok _ _ _ _ _ Hr), get_bind, Hl1.
  destruct (reap_all_ok copied (seq 0 2) s1 a1 rest) as (s2 & a2 & Hr2 & Hst2 & Hok2 & Ho2 & Hl2 & Hinf2 & Hcl); try done.
  { intros i [_ ?]%elem_of_seq. lia. }
  exists s2, a2. split; [done|].
  assert (Forall clean (batches s2)) as Hall.
  { apply list.Forall_lookup. intros i b Hb. apply (Hcl i b Hb). left. apply elem_of_seq.
    apply lookup_lt_Some in Hb. lia. }
  split_and!; try done; [by rewrite Hinf2, Hinf1|]. by apply owns_app_r in Ho2.
Qed.

End Ops.

(** ** Shipping leaves the tags alone *)

(** Shipping touches the batch's chunks and notifications, and the counters. *)
Definition ship_frame (x y : GatherSendBatch * StreamSender * SendEnv) : Prop :=
  tags_at_cqe y.1.1 = tags_at_cqe x.1.1 /\ tags_at_notif y.1.1 = tags_at_notif x.1.1 /\
  batches y.1.2 = batches x.1.2 /\ inflight y.1.2 = inflight x.1.2 /\
  zc_batches y.1.2 = zc_batches x.1.2 /\ zc_copied y.1.2 = zc_copied x.1.2 /\
  exists n, pending_notifs y.1.1 = pending_notifs x.1.1 ++ seq (se_next x.2) n /\ se_next y.2 = (se_next x.2 + n)%nat.

#[export] Instance ship_frame_preorder : PreOrder ship_frame.
Proof.
  split; [intros x; split_and!; try done; exists 0%nat; by rewrite app_nil_r, Nat.add_0_r|].
  intros x y z (?&?&?&?&?&?&n&Hn&Hs) (?&?&?&?&?&?&m&Hm&Hs'). unfold ship_frame. split_and!; try congruence. exists (n + m)%nat.
  rewrite Hm, Hn, Hs', Hs, <- app_assoc, seq_app. split; [done|lia].
Qed.

Lemma ship_frame_preserves x zc answers : ship_frame x (ship_batch answers zc x).1.
Proof.
  enough (forall a zc y, ship_frame x y -> ship_frame x (ship_round zc a y).1) as Hround.
  { assert (ship_frame x x) as H by done. revert H. generalize x at 2 4. revert zc.
    induction answers as [|a rest IH]; intros zc y Hy; [done|]. cbn [ship_batch]. unfold mbind, M_bind.
    specialize (Hround a zc y Hy). destruct (ship_round zc a y) as [y' [[[]|z]|e|]]; cbn in *; [done| |done..].
    by apply IH. }
  intros a z y Hy. revert y Hy. change (preserves (ship_frame x) (ship_round z a)).
  assert (preserves (ship_frame x) (submit_op z)) as Hop.
  { unfold submit_op. apply preserves_get_bind. intros [[b s] e] H. unfold mbind, M_bind, lift.
    destruct (live_iov _) as [l|[]|]; cbn; [|done]. etrans; [exact H|].
    destruct z; split_and!; try done; cbn; [exists 1%nat|exists 0%nat]; cbn; rewrite ?app_nil_r; (split; [done|lia]). }
  assert (forall f, (forall y, ship_frame y (f y)) -> preserves (E := ship_end) (ship_frame x) (modify f)) as Hmod.
  { intros f Hf y Hy. cbn. by rewrite Hy. }
  unfold ship_round. destruct a as [err|n|err]; [apply preserves_fail|..]; (apply preserves_bind; [exact Hop|]).
  - intros _. destruct (n =? 0); [apply preserves_fail|]. apply preserves_bind; [|intros ?; apply preserves_ret].
    intros [[b s] e] Hy. unfold on_gather. destruct (gather_advance n (gather b)) as [g [?|?|]]; (etrans; [exact Hy|]);
      split_and!; try done; exists 0%nat; cbn; rewrite app_nil_r; (split; [done|lia]).
  - intros fixed. repeat case_match; try apply preserves_fail; (apply preserves_bind; [|intros ?; try apply preserves_ret]).
    + apply Hmod. intros [[b s] e]. split_and!; try done. exists 0%nat. cbn. rewrite app_nil_r. split; [done|lia].
    + apply preserves_get.
    + destruct a as [[b s] e]. apply preserves_bind; [apply preserves_lift|]. intros k.
      apply preserves_bind; [|intros ?; apply preserves_ret]. apply Hmod.
      intros [[b' s'] e']. split_and!; try done. exists 0%nat. cbn. rewrite app_nil_r. split; [done|lia].
Qed.

(** ** Polling notifications *)

(** What is removed has completed, and is counted at most once. *)
Lemma poll_notifs_ok fuel done i l c :
  exists l' n gone, poll_notifs fuel done i l c = (l', n) /\ l ≡ₚ gone ++ l' /\
    Forall (fun k => is_Some (done k)) gone /\ c <= n <= c + Z.of_nat (length gone).
Proof.
  revert i l c. induction fuel as [|fuel IH]; intros i l c; cbn [poll_notifs].
  { exists l, c, []. destruct (l !! i); (split; [done|]); (split; [done|]); (split; [constructor|cbn; lia]). }
  destruct (l !! i) as [k|] eqn:Hk.
  2: { exists l, c, []. split; [done|]. split; [done|]. split; [constructor|cbn; lia]. }
  destruct (done k) as [cp|] eqn:Hd; [|apply IH].
  destruct (IH i (swap_remove i l) (if cp then c + 1 else c)) as (l' & n & gone & Hp & Hperm & Hg & Hn).
  exists l', n, (k :: gone). split; [done|]. rewrite (swap_remove_perm l i k Hk), Hperm. split; [done|].
  split; [constructor; [by rewrite Hd|done]|]. cbn [length]. destruct cp; lia.
Qed.

(** ** The send loop as a transition system *)

Section System.
Context {C W : Type}.
Variable stage : SlotArray C -> W -> M (GatherBatch * mem) never Staged.
(** The tag a work item carries, if any: staging classifies it, and no other. *)
Variable tag_of : W -> list Z.
Definition staged_tags (t : Staged) : list Z :=
  match t with NoRelease => [] | AtCqe t | AtNotif t => [t] end.
Hypothesis stage_tag : forall a w x x' t, stage a w x = (x', Ok t) -> staged_tags t = tag_of w.

(** Where [send_batches] stands: looking for work, a batch staged, a batch
    sent, ended (closed, or a send failed), drained. *)
Inductive phase := Looking | Staging (i : nat) (zc : bool) | Shipped (i : nat) | Ended (hand : option nat) | Drained.

(** [sy_pins]: the zero-copy ops submitted, each with the number of its
    notification, its batch and the tags whose buffers ride in it; [sy_done]: the
    notifications the kernel has completed.  Until then it may read the buffers. *)
Record sys := { sy_st : SendSt C W; sy_carry : option W; sy_phase : phase; sy_pins : list (nat * nat * list Z); sy_done : list nat }.

(** The loop went on. *)
Definition sy_go (st : SendSt C W) (carry : option W) (p : phase) (x : sys) : sys :=
  {| sy_st := st; sy_carry := carry; sy_phase := p; sy_pins := sy_pins x; sy_done := sy_done x |}.

Definition work_tags (l : list W) : list Z := concat (map tag_of l).

(** The tags of queued and carried items, and all tags of the send path. *)
Definition queued (x : sys) : list Z := work_tags (option_list (sy_carry x) ++ work (ss_work (sy_st x))).
Definition owned (x : sys) : list Z := all_tags (batches (ss_sender (sy_st x))) ++ queued x.

Definition hand (p : phase) : option nat :=
  match p with Staging i _ | Shipped i => Some i | Ended h => h | Looking | Drained => None end.

Definition ss_put_slots (a : SlotArray C) (st : SendSt C W) : SendSt C W :=
  {| ss_sender := ss_sender st; ss_slots := a; ss_work := ss_work st; ss_mem := ss_mem st; ss_env := ss_env st |}.
Definition ss_put_work (l : SendList W) (st : SendSt C W) : SendSt C W :=
  {| ss_sender := ss_sender st; ss_slots := ss_slots st; ss_work := l; ss_mem := ss_mem st; ss_env := ss_env st |}.
Definition ss_put_mem (m : mem) (st : SendSt C W) : SendSt C W :=
  {| ss_sender := ss_sender st; ss_slots := ss_slots st; ss_work := ss_work st; ss_mem := m; ss_env := ss_env st |}.

(** What the ops of batch [i] submitted between two states may read. *)
Definition new_pins (i : nat) (st st' : SendSt C W) : list (nat * nat * list Z) :=
  match batches (ss_sender st) !! i with
  | Some b => map (fun k => (k, i, tags_at_notif b)) (seq (se_next (ss_env st)) (se_next (ss_env st') - se_next (ss_env st)))
  | None => []
  end.

Definition completed (x : sys) (l : list nat) : Prop := forall k, k ∈ l -> k ∈ sy_done x.

Inductive snd_step (x : sys) : sys -> Prop :=
(** The rest of the connection: it leaves responding slots alone, changes
    memory, queues work and closes the list. *)
| step_slots a m : arr_ok a -> (forall t, t ∈ owned x -> responding a t) ->
    snd_step x (sy_go (ss_put_mem m (ss_put_slots a (sy_st x))) (sy_carry x) (sy_phase x) x)
| step_push w : owns (ss_slots (sy_st x)) (tag_of w ++ owned x) ->
    snd_step x (sy_go (ss_put_work (push w (ss_work (sy_st x))).1 (sy_st x)) (sy_carry x) (sy_phase x) x)
| step_close : snd_step x (sy_go (ss_put_work (close (ss_work (sy_st x))).1 (sy_st x)) (sy_carry x) (sy_phase x) x)
(** The kernel completes the notification of an op that was submitted. *)
| step_notif k : (k < se_next (ss_env (sy_st x)))%nat ->
    snd_step x {| sy_st := sy_st x; sy_carry := sy_carry x; sy_phase := sy_phase x; sy_pins := sy_pins x; sy_done := k :: sy_done x |}
(** The loop: the next item, or a reaped batch; a notification is ready only
    when the kernel has completed it. *)
| step_next t done st r : sy_phase x = Looking -> sy_carry x = None ->
    (forall k, is_Some (done k) -> k ∈ sy_done x) -> next_work_poll t done (sy_st x) = (st, Ok r) ->
    snd_step x (sy_go st (match r with NWork w => w | _ => None end) (match r with NWork None => Ended None | _ => Looking end) x)
(** [acquire] and [drain] return when what they await has completed. *)
| step_begin copied zc w st i use carry : sy_phase x = Looking -> sy_carry x = Some w ->
    completed x (acquire_waits (ss_sender (sy_st x))) -> begin_turn stage copied zc w (sy_st x) = (st, Ok (i, use, carry)) ->
    snd_step x (sy_go st carry (Staging i use) x)
| step_ship i zc answers st r : sy_phase x = Staging i zc ->
    ship_on i answers zc (sy_st x) = (st, Ok r) -> r <> inl None ->
    snd_step x {| sy_st := st; sy_carry := sy_carry x; sy_phase := match r with inl _ => Shipped i | inr _ => Ended (Some i) end;
      sy_pins := sy_pins x ++ new_pins i (sy_st x) st; sy_done := sy_done x |}
| step_retire i st : sy_phase x = Shipped i ->
    on_sender (retire i) (sy_st x) = (st, Ok tt) ->
    snd_step x (sy_go st (sy_carry x) Looking x)
| step_drain copied h st : sy_phase x = Ended h ->
    completed x (drain_waits (ss_sender (sy_st x))) -> on_sender (drain copied) (sy_st x) = (st, Ok tt) ->
    snd_step x (sy_go st (sy_carry x) Drained x).

(** The counters do not wrap within a run. *)
Inductive snd_reach : sys -> Prop :=
| reach_init x n api ipi arena zc a0 a1 :
    ss_sender (sy_st x) = StreamSender_new n api ipi arena zc a0 a1 -> arr_ok (ss_slots (sy_st x)) ->
    work (ss_work (sy_st x)) = [] -> sy_carry x = None -> sy_phase x = Looking -> sy_pins x = [] -> sy_done x = [] -> snd_reach x
| reach_step x y : snd_reach x -> stats_ok (ss_sender (sy_st x)) -> snd_step x y -> snd_reach y.

Definition sinv (x : sys) : Prop :=
  sends (hand (sy_phase x)) (queued x) (ss_sender (sy_st x), ss_slots (sy_st x)) /\
  (sy_phase x = Drained -> Forall clean (batches (ss_sender (sy_st x))) /\ inflight (ss_sender (sy_st x)) = []).

Lemma work_tags_app l k : work_tags (l ++ k) = work_tags l ++ work_tags k.
Proof. unfold work_tags. by rewrite map_app, concat_app. Qed.

(** Staging moves tags from the list into the batch. *)
Lemma stage_loop_tags a fuel cap w b (l : SendList W) m b' l' m' carry :
  stage_loop (stage a) fuel cap w (b, l, m) = ((b', l', m'), Ok carry) ->
  pending_notifs b' = pending_notifs b /\
  batch_tags b' ++ work_tags (option_list carry ++ work l') ≡ₚ batch_tags b ++ work_tags (w :: work l).
Proof.
  revert w b l m. induction fuel as [|fuel IH]; intros w b l m; [done|]. cbn [stage_loop]. rewrite get_bind.
  destruct (negb (batch_fits b)); [by intros [= <- <- <- <-]|]. unfold mbind at 1, M_bind at 1, stage_item at 1.
  destruct (stage a w (gather b, m)) as [[g m1] [t|[]|]] eqn:Hst; [|done]. apply stage_tag in Hst.
  set (b1 := add_tag t (set_gather g b)). rewrite get_bind.
  assert (pending_notifs b1 = pending_notifs b) as Hpn by (by destruct t).
  assert (batch_tags b1 ≡ₚ batch_tags b ++ tag_of w) as Htags.
  { rewrite <- Hst. unfold b1, batch_tags. destruct t; cbn; rewrite ?app_nil_r, <- ?app_assoc; [done| |done].
    f_equiv. apply Permutation_app_comm. }
  assert (forall k, batch_tags b1 ++ work_tags k ≡ₚ batch_tags b ++ work_tags (w :: k)) as Hk.
  { intros k. rewrite Htags, <- app_assoc. done. }
  destruct (gathered_enough cap (gather b1)); [by intros [= <- <- <- <-]|].
  unfold next_item, try_next, mbind, M_bind. destruct (work l) as [|w' rest] eqn:Hl.
  { intros [= <- <- <- <-]. rewrite Hl. by rewrite <- Hk. }
  intros H. apply IH in H as [Hp Hperm]. cbn [work] in Hperm. split; [congruence|]. by rewrite Hperm, Hk.
Qed.

Lemma on_sender_eq {A} (m : M (StreamSender * SlotArray C) never A) (st : SendSt C W) s a r :
  m (ss_sender st, ss_slots st) = ((s, a), r) ->
  on_sender m st = ({| ss_sender := s; ss_slots := a; ss_work := ss_work st; ss_mem := ss_mem st;
                       ss_env := ss_env st |}, r).
Proof. intros H. unfold on_sender. by rewrite H. Qed.

(** The batch in hand may hold anything. *)
Lemma hand_put h i b s :
  sender_ok h s -> h = None \/ h = Some i -> i ∉ inflight s -> (i < 2)%nat -> sender_ok (Some i) (set_batch i b s).
Proof.
  intros [Hl Hh Hn Hin Hid] Hhi Hni Hi. split; cbn.
  - by rewrite length_insert.
  - by intros ? [= <-].
  - done.
  - intros j Hj. destruct (Hin j Hj) as (? & bj & Hbj & ?). assert (i <> j) as Hne by (by intros ->).
    split; [congruence|]. exists bj. by rewrite list_lookup_insert_ne.
  - intros j bj Hbj Hj Hne. rewrite list_lookup_insert_ne in Hbj by congruence. apply (Hid j bj Hbj Hj).
    destruct Hhi as [->| ->]; [done|congruence].
Qed.

Lemma begin_inv copied zc w st st' i use carry l :
  sends None (work_tags (w :: work (ss_work st))) (ss_sender st, ss_slots st) -> stats_ok (ss_sender st) ->
  begin_turn stage copied zc w st = (st', Ok (i, use, carry)) -> l = option_list carry ++ work (ss_work st') ->
  sends (Some i) (work_tags l) (ss_sender st', ss_slots st') /\ keeps (acquire_waits (ss_sender st)) (ss_sender st) (ss_sender st') /\
  exists b, batches (ss_sender st') !! i = Some b /\ pending_notifs b = [].
Proof.
  intros Hsd Hst Hb ->. revert Hb. unfold begin_turn. rewrite get_bind.
  destruct (acquire_sends copied _ _ _ Hsd Hst) as (s1 & a1 & k & b & Hacq & (Hs1 & Hok1 & Ho1) & _ & Hk & Hbk & Hcl & Hkeep).
  rewrite (bind_ok _ _ _ _ _ (on_sender_eq _ _ _ _ _ Hacq)). unfold mbind at 1, M_bind at 1, stage_on.
  cbn [ss_sender ss_slots ss_work ss_mem ss_env fst snd] in *. rewrite Hbk.
  destruct (stage_batch (stage a1) w _ (b, ss_work st, ss_mem st)) as [[[b' l'] m'] [c|[]|]] eqn:Hstage; [|done].
  unfold stage_batch in Hstage. rewrite get_bind in Hstage. apply stage_loop_tags in Hstage as [Hpn Hperm].
  apply clean_tags in Hcl as [_ Hpb]. rewrite Hpb in Hpn.
  rewrite get_bind. unfold mbind, M_bind, lift, expect. cbn [ss_sender ss_work set_batch batches].
  rewrite list_lookup_insert_eq by (by eapply lookup_lt_Some). intros [= <- <- <- <-].
  destruct (all_tags_split _ _ _ Hbk) as (R & HR & HR').
  split; [|split; [eapply keeps_trans; [exact Hkeep|]; eapply keeps_put; [reflexivity|exact Hbk|]; rewrite Hpb; by intros ? ?%elem_of_nil|]].
  2: { exists b'. split; [|done]. cbn. apply list_lookup_insert_eq. by eapply lookup_lt_Some. }
  split; [|split; [done|]]; cbn [fst snd ss_sender ss_slots ss_work].
  - eapply hand_put; [done|by left|done|]. apply lookup_lt_Some in Hbk. by rewrite (so_len _ _ Hs1) in Hbk.
  - cbn [set_batch batches]. rewrite HR', <- app_assoc, (Permutation_app_comm R), app_assoc, Hperm.
    rewrite <- app_assoc, (Permutation_app_comm (work_tags _)), app_assoc, <- HR. done.
Qed.

Lemma ship_inv i answers zc (st st' : SendSt C W) r rest :
  sends (Some i) rest (ss_sender st, ss_slots st) -> ship_on i answers zc st = (st', Ok r) ->
  sends (Some i) rest (ss_sender st', ss_slots st') /\ ss_work st' = ss_work st /\ keeps [] (ss_sender st) (ss_sender st') /\
  exists b b' n, batches (ss_sender st) !! i = Some b /\ batches (ss_sender st') !! i = Some b' /\ tags_at_notif b' = tags_at_notif b /\
    pending_notifs b' = pending_notifs b ++ seq (se_next (ss_env st)) n /\ se_next (ss_env st') = (se_next (ss_env st) + n)%nat.
Proof.
  intros (Hs & Hok & Ho). cbn [fst snd] in *. unfold ship_on.
  destruct (batches (ss_sender st) !! i) as [b|] eqn:Hb; [|done].
  pose proof (ship_frame_preserves (b, ss_sender st, ss_env st) zc answers) as Hf.
  destruct (ship_batch answers zc (b, ss_sender st, ss_env st)) as [[[b' s'] e'] x].
  destruct Hf as (H1 & H2 & H3 & H4 & _ & _ & n & H5 & H6). cbn [fst snd] in *.
  intros [= <- _]. cbn [ss_sender ss_slots ss_work ss_env]. split; [|split; [done|split]].
  2: { eapply keeps_put; [cbn; by rewrite H3|exact Hb|]. intros k Hk. right. rewrite H5. split; [apply elem_of_app; by left|done]. }
  2: { exists b, b', n. split; [done|]. split; [cbn; rewrite H3; apply list_lookup_insert_eq; by eapply lookup_lt_Some|done]. }
  destruct (all_tags_split _ _ _ Hb) as (R & HR & HR').
  assert (sender_ok (Some i) s') as Hs'.
  { destruct Hs as [G1 G2 G3 G4 G5]. split; by rewrite ?H3, ?H4. }
  split; [|split; [done|]]; cbn [fst snd].
  - eapply hand_put; [done|by right| |by apply (so_hand _ _ Hs)].
    intros Hin. rewrite H4 in Hin. by destruct (so_inflight _ _ Hs i Hin).
  - cbn [set_batch batches]. rewrite H3, HR'. unfold batch_tags. rewrite H1, H2. fold (batch_tags b). by rewrite <- HR.
Qed.

(** The oldest batch in flight, after a poll of its notifications. *)
Lemma polled_inv front rest b l n s (a : SlotArray C) q :
  sends None q (s, a) -> inflight s = front :: rest -> batches s !! front = Some b -> l <> [] ->
  sends None q (set_batch front (set_notifs l b) (set_zc_stats (zc_batches s) n (zc_fallbacks s) s), a).
Proof.
  intros (Hs & Hok & Ho) Hi Hb Hl. cbn [fst snd] in *. destruct (all_tags_split _ _ _ Hb) as (R & HR & HR').
  pose proof Hs as [H1 H2 H3 H4 H5]. split; [|split; [done|]]; cbn [fst snd].
  - split; cbn; [by rewrite length_insert|done|done| |].
    + intros j Hj. destruct (H4 j Hj) as (? & bj & Hbj & Hc & Hp). split; [done|]. destruct (decide (j = front)) as [->|].
      * exists (set_notifs l b). rewrite list_lookup_insert_eq by (by eapply lookup_lt_Some). by simplify_eq.
      * exists bj. by rewrite list_lookup_insert_ne.
    + intros j bj Hbj Hj Hh. rewrite list_lookup_insert_ne in Hbj by (intros <-; apply Hj; rewrite Hi; left).
      by apply (H5 j).
  - cbn [set_batch batches set_zc_stats]. rewrite HR'. by rewrite HR in Ho.
Qed.

Lemma reaped_inv front rest b n s (a : SlotArray C) q :
  sends None q (s, a) -> inflight s = front :: rest -> batches s !! front = Some b ->
  exists s' a',
    recycle front (set_inflight rest (set_batch front (set_notifs [] b)
                     (set_zc_stats (zc_batches s) n (zc_fallbacks s) s)), a) = ((s', a'), Ok tt) /\
    sends None q (s', a') /\ batches s' = <[front := cleaned b]> (batches s).
Proof.
  intros (Hs & Hok & Ho) Hi Hb. cbn [fst snd] in *. destruct (all_tags_split _ _ _ Hb) as (R & HR & HR').
  pose proof Hs as [H1 H2 H3 H4 H5]. rewrite Hi in H3. apply list.NoDup_cons in H3 as [Hni H3].
  set (s1 := set_inflight rest _).
  assert (batches s1 !! front = Some (set_notifs [] b)) as Hb1 by (cbn; apply list_lookup_insert_eq; by eapply lookup_lt_Some).
  destruct (recycle_ok front (set_notifs [] b) s1 a (R ++ q) Hb1) as (a' & Hr & Hok' & Ho' & _); [done|done| |].
  { cbn. rewrite HR in Ho. unfold batch_tags in Ho. rewrite <- !app_assoc in Ho. by apply owns_app_r in Ho. }
  eexists _, a'. split; [exact Hr|]. split; [|cbn; by rewrite list_insert_insert_eq]. split; [|split; [done|]]; cbn [fst snd].
  - split; cbn; [by rewrite !length_insert|done|done| |].
    + intros j Hj. destruct (H4 j) as (? & bj & Hbj & ?); [rewrite Hi; by right|]. split; [done|]. exists bj.
      rewrite !list_lookup_insert_ne by (by intros ->). done.
    + intros j bj Hbj Hj _. rewrite list_insert_insert_eq in Hbj. destruct (decide (j = front)) as [->|].
      * rewrite list_lookup_insert_eq in Hbj by (by eapply lookup_lt_Some). by injection Hbj as <-.
      * rewrite list_lookup_insert_ne in Hbj by done. apply (H5 j bj Hbj); [|done]. rewrite Hi.
        by intros [->|?]%elem_of_cons.
  - unfold s1. cbn [set_batch batches set_inflight set_zc_stats]. rewrite list_insert_insert_eq, HR'. done.
Qed.

(** One poll for work: it never panics, and a batch is recycled only when each
    of its notifications has completed. *)
Lemma next_inv t done (st : SendSt C W) :
  sends None (work_tags (work (ss_work st))) (ss_sender st, ss_slots st) ->
  exists st' r, next_work_poll t done st = (st', Ok r) /\
    sends None (work_tags (option_list (match r with NWork w => w | _ => None end) ++ work (ss_work st')))
      (ss_sender st', ss_slots st') /\
    (r = NReaped -> exists i b, head (inflight (ss_sender st)) = Some i /\ batches (ss_sender st) !! i = Some b /\
       forall k, k ∈ pending_notifs b -> is_Some (done k)) /\
    exists gone, Forall (fun k => is_Some (done k)) gone /\ keeps gone (ss_sender st) (ss_sender st').
Proof.
  assert (forall st st' : SendSt C W, ss_sender st' = ss_sender st ->
    exists gone, Forall (fun k => is_Some (done k)) gone /\ keeps gone (ss_sender st) (ss_sender st')) as Hsame
    by (intros s1 s2 ->; exists []; split; [constructor|by apply keeps_same]).
  intros Hsd. unfold next_work_poll, poll_next. destruct (work (ss_work st)) as [|w rest] eqn:Hw.
  2: { eexists _, _. split; [done|]. split; [done|]. split; [done|]. by apply Hsame. }
  destruct (closed (ss_work st)).
  { eexists _, _. split; [done|]. split; [cbn; by rewrite Hw|]. split; [done|]. by apply Hsame. }
  cbn [ss_sender]. destruct (inflight (ss_sender st)) as [|front rest] eqn:Hi.
  { eexists _, _. split; [done|]. split; [done|]. split; [done|]. by apply Hsame. }
  pose proof Hsd as (Hs & _). cbn [fst] in Hs.
  destruct (so_inflight _ _ Hs front) as (_ & b & Hb & _); [rewrite Hi; left|].
  set (st1 := {| ss_work := _ |}).
  rewrite (bind_ok _ _ _ _ _ (on_sender_eq _ st1 _ _ _ (batch_eq _ _ (ss_sender st1) (ss_slots st1) Hb))).
  cbn [ss_sender ss_slots ss_work]. destruct (poll_notifs_ok (length (pending_notifs b)) done 0 (pending_notifs b) (zc_copied (ss_sender st)))
    as (l & n & gone & Hp & Hperm & Hgone & _). rewrite Hp.
  rewrite (bind_ok _ _ _ _ _ (on_sender_eq (modify _) _ _ _ _ eq_refl)). case_decide as Hl.
  - rewrite (bind_ok _ _ _ _ _ (on_sender_eq (modify _) _ _ _ _ eq_refl)). cbn [ss_sender ss_slots]. subst l.
    destruct (reaped_inv front rest b n _ _ _ Hsd Hi Hb) as (s' & a' & Hr & Hsd' & Hbs').
    rewrite app_nil_r in Hperm.
    unfold mbind, M_bind, on_sender. cbn [ss_sender ss_slots ss_work st1]. rewrite Hr.
    eexists _, NReaped. split; [done|]. cbn. split; [done|]. split.
    + intros _. exists front, b. split; [done|]. split; [done|].
      intros k Hk. rewrite Hperm in Hk. by apply (proj1 (list.Forall_forall _ _) Hgone).
    + exists gone. split; [done|]. eapply keeps_put; [exact Hbs'|exact Hb|]. intros k Hk. left. by rewrite Hperm in Hk.
  - eexists _, NPending. split; [done|]. split; [cbn; by eapply polled_inv|]. split; [done|]. exists gone. split; [done|].
    eapply keeps_put; [reflexivity|exact Hb|]. cbn. intros k Hk. rewrite Hperm, elem_of_app in Hk. destruct Hk; [by left|by right].
Qed.

Lemma owns_frame (a a' : SlotArray C) l : owns a l -> (forall t, t ∈ l -> responding a' t) -> owns a' l.
Proof. intros [Hn _] H. split; [done|]. by apply list.Forall_forall. Qed.

Lemma new_sender_ok n api ipi arena zc a0 a1 (a : SlotArray C) :
  arr_ok a -> sends None [] (StreamSender_new n api ipi arena zc a0 a1, a).
Proof.
  intros Hok. assert (Forall clean (batches (StreamSender_new n api ipi arena zc a0 a1))) as Hcl.
  { unfold StreamSender_new. destruct arena as [[p idx]|]; cbn; by repeat constructor. }
  split; [|split; [done|]]; cbn [fst snd].
  - split; cbn; try done; [by destruct arena as [[]|]|constructor|by intros ? ?%elem_of_nil|].
    intros i b Hb _ _. by eapply (list.Forall_lookup_1 _ _ _ _ Hcl).
  - rewrite app_nil_r. assert (all_tags (batches (StreamSender_new n api ipi arena zc a0 a1)) = []) as ->.
    { unfold StreamSender_new. by destruct arena as [[p idx]|]. }
    split; constructor.
Qed.

Lemma snd_step_inv x y : sinv x -> stats_ok (ss_sender (sy_st x)) -> snd_step x y -> sinv y.
Proof.
  intros [Hsd Hdr] Hst Hstep. pose proof Hsd as (Hs & Hok & Ho). cbn [fst snd] in *.
  destruct Hstep as [a m Ha Hresp|w Hw| |k Hk|t done st r Hp Hc Hdone Hn|copied zc w st i use carry Hp Hc Hwait Hb
    |i zc answers st r Hp Hship Hr|i st Hp Hret|copied h st Hp Hwait Hd].
  - split; [|done]. split; [done|]. split; [done|]. by eapply owns_frame.
  - split; [|done]. split; [done|]. split; [done|]. unfold queued. cbn. rewrite app_assoc, work_tags_app.
    unfold owned, queued in Hw. unfold work_tags at 2. cbn. rewrite app_nil_r, app_assoc.
    by rewrite Permutation_app_comm.
  - split; [|done]. split; [done|]. split; done.
  - done.
  - unfold sinv, queued in *. cbn [sy_go sy_st sy_carry sy_phase] in *. rewrite Hp in *. rewrite Hc in Hsd. cbn [hand] in *.
    destruct (next_inv t done (sy_st x) Hsd) as (st' & r' & Hn' & Hsd' & _). rewrite Hn in Hn'. injection Hn' as <- <-.
    split; by destruct r as [[w|]| |].
  - unfold sinv, queued in *. cbn [sy_go sy_st sy_carry sy_phase hand] in *. rewrite Hp in *. rewrite Hc in Hsd.
    split; [|done]. exact (proj1 (begin_inv copied zc w (sy_st x) st i use carry _ Hsd Hst Hb eq_refl)).
  - unfold sinv, queued in *. cbn [sy_go sy_st sy_carry sy_phase hand] in *. rewrite Hp in *. cbn [hand] in *.
    destruct (ship_inv i answers zc _ _ r _ Hsd Hship) as (Hsd' & Hw & _). rewrite Hw. by destruct r.
  - unfold sinv, queued in *. cbn [sy_go sy_st sy_carry sy_phase hand] in *. rewrite Hp in *. cbn [hand] in *.
    destruct (retire_sends _ _ _ _ Hsd Hst) as (s' & a' & Hr & Hsd' & _).
    rewrite (on_sender_eq _ _ _ _ _ Hr) in Hret. injection Hret as <-. done.
  - unfold sinv, queued in *. cbn [sy_go sy_st sy_carry sy_phase hand] in *.
    destruct (drain_ok copied _ _ _ (so_len _ _ Hs) (fun i => inflight_bound _ _ i Hs) Hst Hok Ho)
      as (s' & a' & Hr & Hcl & Hinf & Hl & Hok' & Ho').
    rewrite (on_sender_eq _ _ _ _ _ Hr) in Hd. injection Hd as <-. cbn [ss_sender ss_slots ss_work].
    split; [|done]. split; [|split; [done|]]; cbn [fst snd].
    + split; [done|done|rewrite Hinf; constructor|by rewrite Hinf; intros ? ?%elem_of_nil|].
      intros i b Hb _ _. by eapply (list.Forall_lookup_1 _ _ _ _ Hcl).
    + assert (all_tags (batches s') = []) as ->; [|done].
      clear -Hcl. unfold all_tags. induction Hcl as [|b l Hb _ IH]; [done|]. cbn. by rewrite IH, Hb.
Qed.

(** A zero-copy op the kernel has not done with: its batch still waits for its
    notification, with its tags. *)
Definition pinned (x : sys) (p : nat * nat * list Z) : Prop :=
  p.1.1 ∈ sy_done x \/
  exists b, batches (ss_sender (sy_st x)) !! p.1.2 = Some b /\ p.1.1 ∈ pending_notifs b /\ tags_at_notif b = p.2.
Definition pinv (x : sys) : Prop :=
  Forall (pinned x) (sy_pins x) /\
  forall i zc, sy_phase x = Staging i zc -> exists b, batches (ss_sender (sy_st x)) !! i = Some b /\ pending_notifs b = [].

Lemma pins_keep x y waited : (forall k, k ∈ sy_done x -> k ∈ sy_done y) -> completed x waited ->
  keeps waited (ss_sender (sy_st x)) (ss_sender (sy_st y)) -> Forall (pinned x) (sy_pins x) -> Forall (pinned y) (sy_pins x).
Proof.
  intros Hd Hw Hk Hf. eapply list.Forall_impl; [exact Hf|]. intros [[k i] tags] [H|(b & Hb & Hin & Ht)]; [left; by apply Hd|]. cbn in *.
  destruct (Hk i b k Hb Hin) as [H|(b' & Hb' & Hin' & Ht')]; [left; by apply Hd, Hw|]. right. exists b'. cbn. by rewrite Ht'.
Qed.

Lemma pins_same x st carry p : ss_sender st = ss_sender (sy_st x) -> p = sy_phase x -> pinv x -> pinv (sy_go st carry p x).
Proof. intros Hs -> [Hf Hst]. unfold pinv, pinned. cbn. rewrite Hs. by split. Qed.

Lemma snd_step_pins x y : sinv x -> pinv x -> stats_ok (ss_sender (sy_st x)) -> snd_step x y -> pinv y.
Proof.
  intros [Hsd Hdr] [Hf Hsg] Hst Hstep. pose proof Hsd as (Hs & Hok & Ho). cbn [fst snd] in *.
  destruct Hstep as [a m Ha Hresp|w Hw| |k Hk|t done st r Hp Hc Hdone Hn|copied zc w st i use carry Hp Hc Hwait Hb
    |i zc answers st r Hp Hship Hr|i st Hp Hret|copied h st Hp Hwait Hd].
  - by apply pins_same.
  - by apply pins_same.
  - by apply pins_same.
  - split; [|done]. eapply (pins_keep x _ []); [intros j Hj; by right|by intros j ?%elem_of_nil|by apply keeps_same|done].
  - unfold queued in *. rewrite Hp in *. rewrite Hc in Hsd. destruct (next_inv t done (sy_st x) Hsd) as (st' & r' & Hn' & _ & _ & gone & Hg & Hkeep).
    rewrite Hn in Hn'. injection Hn' as <- <-. split; [|by destruct r as [[]| |]]. apply (pins_keep x _ gone); [done| |done|done].
    intros k Hk. apply Hdone. by apply (proj1 (list.Forall_forall _ _) Hg).
  - unfold queued in *. rewrite Hp in *. rewrite Hc in Hsd. destruct (begin_inv copied zc w (sy_st x) st i use carry _ Hsd Hst Hb eq_refl) as (_ & Hkeep & b & Hbi & Hpn).
    split; [exact (pins_keep x (sy_go st carry (Staging i use) x) _ (fun _ H => H) Hwait Hkeep Hf)|]. cbn. intros j zc' [= <- _]. by exists b.
  - unfold queued in *. rewrite Hp in *. destruct (ship_inv i answers zc _ _ r _ Hsd Hship) as (_ & _ & Hkeep & b & b' & n & Hb & Hb' & Ht & Hpn & Hn).
    split; [|by destruct r]. cbn [sy_pins]. apply list.Forall_app. split; [refine (pins_keep x {| sy_st := st |} [] (fun _ H => H) _ Hkeep Hf); by intros j ?%elem_of_nil|].
    unfold new_pins. rewrite Hb, Hn. apply list.Forall_forall. intros p Hin. apply (proj1 (list_elem_of_fmap _ _ _)) in Hin as (k & -> & Hk). right. exists b'. cbn.
    split; [done|]. split; [|done]. rewrite Hpn. apply elem_of_app. right. by replace (se_next _ + n - _)%nat with n in Hk by lia.
  - unfold queued in *. rewrite Hp in *. destruct (retire_sends _ _ _ _ Hsd Hst) as (s' & a' & Hr & _ & _ & Hkeep).
    rewrite (on_sender_eq _ _ _ _ _ Hr) in Hret. injection Hret as <-. split; [|done].
    eapply (pins_keep x _ []); [by intros|by intros j ?%elem_of_nil|exact Hkeep|exact Hf].
  - split; [|done]. refine (pins_keep x (sy_go st (sy_carry x) Drained x) _ (fun _ H => H) Hwait _ Hf). intros i b k Hb Hk. left. unfold drain_waits.
    apply list_elem_of_In, in_concat. exists (pending_notifs b). split; [|by apply list_elem_of_In].
    apply list_elem_of_In, (proj2 (list_elem_of_fmap pending_notifs _ _)). exists b. split; [done|by eapply list_elem_of_lookup_2].
Qed.

Lemma snd_reach_inv x : snd_reach x -> sinv x /\ pinv x.
Proof.
  induction 1 as [x n api ipi arena zc a0 a1 Hs Ha Hw Hc Hp Hpi Hd|x y _ [IH IHp] Hst Hstep]; [|split; [by eapply snd_step_inv|by eapply snd_step_pins]].
  unfold sinv, pinv, queued. rewrite Hs, Hw, Hc, Hp, Hpi. split; [split; [|done]; by apply new_sender_ok|]. split; [constructor|done].
Qed.


(** The send loop never trips over its own assertions.  In every reachable
    state, the operation its phase calls for returns: polling for work (and a
    batch is recycled only when each of its notifications has completed), taking
    a batch for staging (a clean one, reaping the oldest if both are in flight),
    retiring a sent batch (its zero-copy tags keep their slots while
    notifications are outstanding), draining; and once drained the sender can be
    dropped. *)
Theorem sender_safe x :
  snd_reach x -> stats_ok (ss_sender (sy_st x)) ->
  match sy_phase x with
  | Looking =>
      match sy_carry x with
      | None => forall t done, exists st r, next_work_poll t done (sy_st x) = (st, Ok r) /\
          (r = NReaped -> exists i b, head (inflight (ss_sender (sy_st x))) = Some i /\
             batches (ss_sender (sy_st x)) !! i = Some b /\ forall k, k ∈ pending_notifs b -> is_Some (done k))
      | Some _ => forall copied, exists st i b, on_sender (acquire copied) (sy_st x) = (st, Ok i) /\
          batches (ss_sender st) !! i = Some b /\ clean b
      end
  | Staging i _ => exists b, batches (ss_sender (sy_st x)) !! i = Some b
  | Shipped i => exists st, on_sender (retire i) (sy_st x) = (st, Ok tt) /\
      forall b, batches (ss_sender (sy_st x)) !! i = Some b -> pending_notifs b <> [] ->
      forall t, t ∈ tags_at_notif b -> responding (ss_slots st) t
  | Ended _ => forall copied, exists st, on_sender (drain copied) (sy_st x) = (st, Ok tt)
  | Drained => StreamSender_drop (ss_sender (sy_st x)) = Ok tt
  end.
Proof.
  intros Hr Hst. destruct (snd_reach_inv x Hr) as [[Hsd Hdr] _]. pose proof Hsd as (Hs & Hok & Ho). cbn [fst snd] in *.
  destruct (sy_phase x) as [|i zc|i|h|] eqn:Hp; cbn [hand] in *.
  - unfold queued in *. destruct (sy_carry x) as [w|].
    + intros copied. destruct (acquire_sends copied _ _ _ Hsd Hst) as (s' & a' & i & b & Ha & _ & _ & _ & Hb & Hcl & _).
      eexists _, i, b. by rewrite (on_sender_eq _ _ _ _ _ Ha).
    + intros t done. destruct (next_inv t done (sy_st x) Hsd) as (st & r & Hn & _ & Hre & _). by exists st, r.
  - apply lookup_lt_is_Some_2. rewrite (so_len _ _ Hs). by apply (so_hand _ _ Hs).
  - destruct (retire_sends _ _ _ _ Hsd Hst) as (s' & a' & Hr' & (_ & _ & Ho') & Hk & _).
    eexists. rewrite (on_sender_eq _ _ _ _ _ Hr'). split; [done|]. intros b Hb Hpn t Ht. cbn [ss_slots fst snd] in *.
    destruct Ho' as [_ Hf]. apply (proj1 (list.Forall_forall _ _) Hf). apply elem_of_app. left.
    destruct (all_tags_split _ _ _ (Hk b Hb Hpn)) as (R & HR & _). rewrite HR. apply elem_of_app. by left.
  - intros copied. destruct (drain_ok copied _ _ _ (so_len _ _ Hs) (fun i => inflight_bound _ _ i Hs) Hst Hok Ho)
      as (s' & a' & Hr' & _). eexists. by rewrite (on_sender_eq _ _ _ _ _ Hr').
  - destruct (Hdr eq_refl) as [Hcl Hinf]. unfold StreamSender_drop. rewrite Hinf. cbn.
    assert (forallb (fun b => bool_decide (pending_notifs b = [])) (batches (ss_sender (sy_st x))) = true) as ->; [|done].
    clear -Hcl. induction Hcl as [|b l Hb _ IH]; [done|]. cbn. by rewrite IH, Hb.
Qed.

End System.
