(* ===== verification/SendWire.v ===== *)
(** * From work items to the bytes of the connection

    Staging and shipping composed: what a whole turn of the NVMe/TCP send loop
    puts on the wire; and the send loop's tag accounting instantiated with the
    NVMe/TCP staging function; and the witnesses of the send path. *)

From S2P Require Import Prelude Digest Spec Pdu PduProofs Pool.
From S2P Require Import PoolSafety PoolData SlotQ SlotQSafety SendBatch Sender.
From S2P Require Import Dispatch TcpQueue Send ExecLaws GatherProofs SendProofs.
From S2P Require Import SenderProofs PoolProofs ExecWitness.

Section SendWire.
Context {L : Crc32cLib} {LL : Crc32cLaws L}.


(** The tag of a work item: staging classifies it. *)
Definition tcp_tag (w : SendWork) : list Z := match w with Response c => [co_tag c] | R2t _ _ _ _ => [] end.

Lemma tcp_stage_tag q hd dd (a : SlotArray Sqe) w x x' t :
  tcp_stage q hd dd a w x = (x', Ok t) -> staged_tags t = tcp_tag w.
Proof.
  unfold tcp_stage, mbind, M_bind. destruct (stage_send_work q hd dd a w x) as [y [[]|[]|]]; [|done].
  intros [= _ <-]. destruct w as [c|]; [|done]. cbn. by destruct (0 <? co_data_len c).
Qed.

End SendWire.

#[local] Existing Instances Castagnoli.lib Castagnoli.laws.

(** Tag 0 has responded with 512 bytes in its page; a heap arena of two items. *)
Definition resp_slots : SlotArray Sqe := Eval vm_compute in ops_run [OpBeginRespond 0] slots1.

Lemma resp_slots_ok : arr_ok resp_slots.
Proof.
  apply sq_reachable_ok. change resp_slots with (ops_run [OpBeginRespond 0] slots1). apply ops_reachable.
  - apply slots1_reachable.
  - repeat (split; [eexists; split; [vm_compute; reflexivity|done]|split; [vm_compute; reflexivity|]]). done.
Qed.

Definition demo_resp : SendWork :=
  Response {| co_tag := 0; co_cqe := Cqe_new 0 1 1 7 0; co_data_len := 512 |}.
Definition demo_r2t : SendWork := R2t 1 9 0 4096.
Definition demo_list : SendList SendWork := {| work := [demo_r2t]; sl_waker := None; closed := false |}.

Definition demo_sender : StreamSender :=
  StreamSender_new 2 ARENA_PER_ITEM IOVS_PER_ITEM (Some (0x100000, 3)) 0 0 0.
Definition demo_batch : GatherSendBatch := with_pool_arena 2 ARENA_PER_ITEM IOVS_PER_ITEM 0x100000 3.

Lemma demo_batch_staging : staging (gather demo_batch).
Proof. split; cbn; try done; try lia; constructor. Qed.

Definition demo_seg : Seg := {| ptr := 0x200000; seg_len := 4096 |}.

Lemma demo_resp_slot : exists s, slots resp_slots !! 0%nat = Some s /\ segs (data s) = [demo_seg].
Proof. by eexists. Qed.

Lemma demo_work_ok : Forall (work_ok (gather demo_batch) resp_slots) [demo_resp; demo_r2t].
Proof.
  apply list.Forall_cons. split; [|apply list.Forall_singleton; by vm_compute].
  cbn [work_ok demo_resp co_cqe co_data_len co_tag]. split; [by vm_compute|]. split; [lia|]. intros _.
  destruct demo_resp_slot as (s & Hs & Hsg). exists s. split; [exact Hs|]. unfold sendable. rewrite Hsg.
  split; [by repeat constructor|]. split; [apply list.Forall_singleton; by vm_compute|].
  split; [vm_compute; lia|]. split; [cbn; lia|]. split; [lia|]. apply list.Forall_singleton.
  intros x Hx. change (0x100000 <= x < 0x100000 + 128) in Hx. unfold in_seg. cbn. lia.
Qed.

(** The fixed-buffer import is refused, one byte goes out, then zero-copy is
    refused and the rest is copied. *)
Definition demo_answers : list Answer := [SendErr EINVAL; Sent 1; SendErr ENOMEM; Sent 4123].

Lemma demo_answers_ok : Forall answer_ok demo_answers.
Proof. repeat (apply list.Forall_cons; split; [cbn; lia || done|]). apply list.Forall_nil; done. Qed.


(** The staged batch, shipped. *)
Definition demo_gather : GatherSendBatch :=
  set_gather (set_iovs [{| ptr := 0x100000; seg_len := 28 |}; demo_seg] 0 (gather demo_batch)) demo_batch.

Lemma demo_gather_ok : gather_ok (gather demo_gather).
Proof.
  split; [|cbn; lia]. repeat (apply list.Forall_cons; split; [by vm_compute|]). by apply list.Forall_nil.
Qed.

Lemma demo_counter_ok : counter_ok true demo_sender.
Proof. by vm_compute. Qed.

Lemma ship_batch_exact_witness :
  exists st, ship_batch demo_answers true (demo_gather, demo_sender, {| se_next := 0; se_ops := [] |}) =
      (st, Ok (Some tt)) /\
    pending (fun _ => Byte.x5a) (gather st.1.1) = [].
Proof.
  destruct (ship_batch demo_answers true (demo_gather, demo_sender, {| se_next := 0; se_ops := [] |}))
    as [st r] eqn:Hs.
  assert (r = Ok (Some tt)) as -> by (apply (f_equal snd) in Hs; vm_compute in Hs; by symmetry).
  destruct (ship_batch_exact (fun _ => Byte.x5a) demo_answers true demo_gather demo_sender
    {| se_next := 0; se_ops := [] |} st (Ok (Some tt)) demo_gather_ok demo_answers_ok demo_counter_ok Hs)
    as (_ & _ & Hp & _).
  exists st. split; [reflexivity|]. exact (Hp eq_refl).
Defined.

(** ** The send loop: a completion is queued, taken, staged and sent zero-copy *)

Abbreviation demo_stage := (tcp_stage (QueueCore_new 1 2 false) true true).

Definition demo_sys0 : sys (C := Sqe) (W := SendWork) := {|
  sy_st := {| ss_sender := demo_sender; ss_slots := resp_slots; ss_work := SendList_new;
              ss_mem := fun _ => Byte.x5a; ss_env := {| se_next := 0; se_ops := [] |} |};
  sy_carry := None; sy_phase := Looking; sy_pins := []; sy_done := [] |}.
Definition demo_sys1 : sys (C := Sqe) (W := SendWork) :=
  sy_go (ss_put_work (push demo_resp SendList_new).1 (sy_st demo_sys0)) None Looking demo_sys0.
Definition demo_st2 : SendSt Sqe SendWork := (next_work_poll 5 (fun _ => None) (sy_st demo_sys1)).1.
Definition demo_sys2 : sys (C := Sqe) (W := SendWork) := sy_go demo_st2 (Some demo_resp) Looking demo_sys1.
Definition demo_st3 : SendSt Sqe SendWork := (begin_turn demo_stage (fun _ => false) true demo_resp (sy_st demo_sys2)).1.
Definition demo_sys3 : sys (C := Sqe) (W := SendWork) := sy_go demo_st3 None (Staging 0 true) demo_sys2.
Definition demo_st4 : SendSt Sqe SendWork := (ship_on 0 [Sent 572] true (sy_st demo_sys3)).1.
Definition demo_sys4 : sys (C := Sqe) (W := SendWork) := {|
  sy_st := demo_st4; sy_carry := None; sy_phase := Shipped 0;
  sy_pins := sy_pins demo_sys3 ++ new_pins 0 (sy_st demo_sys3) demo_st4; sy_done := [] |}.

Lemma demo_stats_ok : stats_ok demo_sender.
Proof. unfold stats_ok, notif_count. cbn. lia. Qed.

Lemma demo_sys_reach : snd_reach demo_stage tcp_tag demo_sys1.
Proof.
  apply (reach_step _ _ demo_sys0); [|exact demo_stats_ok|].
  - by apply (reach_init _ _ demo_sys0 2 ARENA_PER_ITEM IOVS_PER_ITEM (Some (0x100000, 3)) 0 0 0 eq_refl resp_slots_ok).
  - apply (step_push _ _ demo_sys0 demo_resp). change (owns resp_slots [0]). split; [apply NoDup_singleton|].
    apply list.Forall_singleton. split; [lia|]. by eexists.
Qed.

Lemma demo_runs :
  next_work_poll 5 (fun _ => None) (sy_st demo_sys1) = (demo_st2, Ok (NWork (Some demo_resp))) /\
  begin_turn demo_stage (fun _ => false) true demo_resp (sy_st demo_sys2) = (demo_st3, Ok (0%nat, true, None)) /\
  ship_on 0 [Sent 572] true (sy_st demo_sys3) = (demo_st4, Ok (inl (Some tt))) /\ stats_ok (ss_sender (sy_st demo_sys3)) /\
  completed demo_sys2 (acquire_waits (ss_sender (sy_st demo_sys2))).
Proof.
  assert (acquire_waits (ss_sender (sy_st demo_sys2)) = []) as Hw by (by vm_compute).
  split; [exact (ran (next_work_poll 5 (fun _ => None) (sy_st demo_sys1)) (Ok (NWork (Some demo_resp))) ltac:(by vm_compute))|].
  split; [exact (ran (begin_turn demo_stage (fun _ => false) true demo_resp (sy_st demo_sys2)) (Ok (0%nat, true, None)) ltac:(by vm_compute))|].
  split; [exact (ran (ship_on 0 [Sent 572] true (sy_st demo_sys3)) (Ok (inl (Some tt))) ltac:(by vm_compute))|].
  split; [by vm_compute|]. rewrite Hw. intros k Hk. by apply elem_of_nil in Hk.
Qed.

Lemma demo_sys4_reach : snd_reach demo_stage tcp_tag demo_sys4.
Proof.
  destruct demo_runs as (R1 & R2 & R3 & R4 & R5).
  pose proof (step_ship demo_stage tcp_tag demo_sys3 0 true [Sent 572] demo_st4 (inl (Some tt)) eq_refl R3 ltac:(discriminate)) as S3.
  pose proof (step_begin demo_stage tcp_tag demo_sys2 (fun _ => false) true demo_resp _ 0 true None eq_refl eq_refl R5 R2) as S2.
  pose proof (step_next demo_stage tcp_tag demo_sys1 5 (fun _ => None) _ (NWork (Some demo_resp)) eq_refl eq_refl ltac:(by intros k [? ?]) R1) as S1.
  refine (reach_step _ _ demo_sys3 demo_sys4 _ R4 S3).
  refine (reach_step _ _ demo_sys2 demo_sys3 _ demo_stats_ok S2).
  exact (reach_step _ _ demo_sys1 demo_sys2 demo_sys_reach demo_stats_ok S1).
Qed.

Lemma demo_sys4_facts : sy_pins demo_sys4 = [(0%nat, 0%nat, [0])] /\ sy_done demo_sys4 = [].
Proof. split; by vm_compute. Qed.


Lemma sender_safe_witness :
  exists st r, next_work_poll (C := Sqe) 5 (fun _ => None) (sy_st demo_sys1) = (st, Ok r).
Proof.
  pose proof (sender_safe demo_stage tcp_tag (fun a w x x' t => tcp_stage_tag _ _ _ a w x x' t) demo_sys1 demo_sys_reach
    demo_stats_ok) as H. cbn in H.
  destruct (H 5%nat (fun _ => None)) as (st & r & Hn & _). by exists st, r.
Defined.
