(* ===== verification/RingProofs.v ===== *)
(** * The receive ring under a kernel that runs ahead

    The kernel's side of a provided-buffer ring: it reads the entry at its head,
    receives into that buffer at its own running offset, queues a completion
    that names only the buffer and a length, and moves its head past a buffer
    that is full.  It may do so many times before the reader looks.  The reader
    reconstructs where the bytes are.  [ring_step] interleaves the kernel, the
    reader and the writes that borrow buffer regions; [ring_inv] is what holds
    after any number of steps.  At the end, rings on which the theorems apply. *)

From S2P Require Import Prelude Pool BufRing Reader ExecLaws.

(** ** The kernel's side *)

(** A queued completion; a chunk carries the address it was received at. *)
Inductive KEv :=
| KChunk (c : RecvChunk) (addr : Z)
| KNoBufs
| KErr (errno : Z)
| KEof.

Definition event_of (e : KEv) : RecvEvent :=
  match e with KChunk c _ => EvChunk c | KNoBufs => EvErr ENOBUFS | KErr e => EvErr e | KEof => EvEof end.

(** The reader, its ring, and the kernel: ring head, offset in the buffer at the
    head, whether the multishot receive is active, and its completions; and, as a
    ghost, the borrows that have not ended, each with its buffer and the end of
    its region in it. *)
Record rsys := {
  rs_rm : RingMode;
  rs_ring : BufRing;
  rs_head : Z;
  rs_off : Z;
  rs_armed : bool;
  rs_q : list KEv;
  rs_parked : bool;
  rs_held : list (nat * Z);
}.

Definition rs_user (x : rsys) (y : RingMode * BufRing) (q : list KEv) (armed parked : bool) : rsys :=
  {| rs_rm := y.1; rs_ring := y.2; rs_head := rs_head x; rs_off := rs_off x; rs_armed := armed; rs_q := q;
     rs_parked := parked; rs_held := rs_held x |}.
Definition rs_kernel (x : rsys) (head off : Z) (armed : bool) (e : KEv) : rsys :=
  {| rs_rm := rs_rm x; rs_ring := rs_ring x; rs_head := head; rs_off := off; rs_armed := armed;
     rs_q := rs_q x ++ [e]; rs_parked := rs_parked x; rs_held := rs_held x |}.
(** A borrow begins or ends. *)
Definition rs_hold (x : rsys) (r : BufRing) (held : list (nat * Z)) : rsys :=
  {| rs_rm := rs_rm x; rs_ring := r; rs_head := rs_head x; rs_off := rs_off x; rs_armed := rs_armed x; rs_q := rs_q x;
     rs_parked := rs_parked x; rs_held := held |}.

Definition rs_pair (x : rsys) : RingMode * BufRing := (rs_rm x, rs_ring x).

Inductive ring_step (x : rsys) : rsys -> Prop :=
(** The kernel receives [len] bytes into the buffer at its head. *)
| k_receive e len more : rs_armed x = true -> rs_head x <> br_shared_tail (rs_ring x) ->
    br_entries (rs_ring x) !! bix (rs_head x) = Some e -> 0 < len -> rs_off x + len <= be_len e ->
    let full := negb (rs_off x + len <? be_len e) in
    ring_step x (rs_kernel x (if full then wrap 16 (rs_head x + 1) else rs_head x)
                             (if full then 0 else rs_off x + len) more
                   (KChunk {| rc_bid := be_bid e; rc_len := len; rc_more := more; rc_buf_more := negb full |}
                      (be_addr e + rs_off x)))
| k_drained : rs_armed x = true -> rs_head x = br_shared_tail (rs_ring x) ->
    ring_step x (rs_kernel x (rs_head x) (rs_off x) false KNoBufs)
| k_end e : rs_armed x = true -> e = KEof \/ (exists n, e = KErr n /\ n <> ENOBUFS) ->
    ring_step x (rs_kernel x (rs_head x) (rs_off x) false e)
(** [fill_bid]: the chunk in hand; arming; the next completion (the connection
    ends at end of file); the park. *)
| u_current y w : fill_current (rs_pair x) = (y, Ok w) -> rs_parked x = false ->
    ring_step x (rs_user x y (rs_q x) (rs_armed x) false)
| u_arm y : rm_cur (rs_rm x) = None -> rm_op (rs_rm x) = false -> rs_parked x = false ->
    fill_arm (Ok tt) (rs_pair x) = (y, Ok tt) ->
    ring_step x (rs_user x y (rs_q x) true false)
| u_event e q y f : rm_cur (rs_rm x) = None -> rm_op (rs_rm x) = true -> rs_q x = e :: q -> rs_parked x = false ->
    fill_event (event_of e) (rs_pair x) = (y, Ok f) -> f <> FEof ->
    ring_step x (rs_user x y q (rs_armed x) (match f with FPark => true | _ => false end))
| u_park t y b : rs_parked x = true -> fill_park_poll t (rs_pair x) = (y, Ok b) ->
    ring_step x (rs_user x y (rs_q x) (rs_armed x) (negb b))
| u_consume n y : 0 <= n -> rs_parked x = false -> RingMode_consume n (rs_pair x) = (y, Ok tt) ->
    ring_step x (rs_user x y (rs_q x) (rs_armed x) false)
(** A write borrows a region of the chunk in hand; a borrow ends. *)
| u_borrow c r : rm_cur (rs_rm x) = Some c -> borrow (cur_bid c) (rs_ring x) = (r, Ok tt) ->
    ring_step x (rs_hold x r ((bix (cur_bid c), cur_off c + cur_len c) :: rs_held x))
| u_release b e h1 h2 r : rs_held x = h1 ++ (b, e) :: h2 -> release (Z.of_nat b) (rs_ring x) = (r, Ok tt) ->
    ring_step x (rs_hold x r (h1 ++ h2)).

(** The generation counter does not wrap within a run. *)
Inductive ring_reach : rsys -> Prop :=
| ring_init bgid owned fixed bytes data reg r :
    0 <= data -> 0 < ring_buf_size bytes < 2 ^ 32 -> data + 2 * ring_buf_size bytes < 2 ^ 64 ->
    build bgid owned fixed bytes data reg true = Ok r ->
    ring_reach {| rs_rm := RingMode_new; rs_ring := r; rs_head := 0; rs_off := 0; rs_armed := false;
                  rs_q := []; rs_parked := false; rs_held := [] |}
| ring_more x y : ring_reach x -> br_provide_gen (rs_ring x) < 2 ^ 64 - 1 -> ring_step x y -> ring_reach y.

(** ** The invariant *)

(** The chunks of buffer [b] in the queue are consecutive, from the reader's
    offset [o] to [fin]. *)
Fixpoint chunks (start size b : Z) (q : list KEv) (o fin : Z) : Prop :=
  match q with
  | [] => o = fin
  | KChunk c a :: q =>
      if rc_bid c =? b then
        a = start + o /\ 0 < rc_len c /\ o + rc_len c <= size /\ rc_buf_more c = (o + rc_len c <? size) /\
        chunks start size b q (o + rc_len c) fin
      else chunks start size b q o fin
  | _ :: q => chunks start size b q o fin
  end.

Definition no_chunks (b : Z) (q : list KEv) : Prop :=
  Forall (fun e => match e with KChunk c _ => rc_bid c <> b | _ => True end) q.

Definition terminal (e : KEv) : bool := match e with KChunk c _ => negb (rc_more c) | _ => true end.

Definition pend (r : BufRing) (b : nat) : Z := nth b (br_pending r) 0.
Definition await (r : BufRing) (b : nat) : bool := nth b (br_awaiting r) false.
Definition roff (r : BufRing) (b : nat) : Z := nth b (br_recv_off r) 0.
Definition start (r : BufRing) (b : nat) : Z := br_data r + Z.of_nat b * br_buf_size r.

Record ring_wf (r : BufRing) : Prop := {
  wf_len : length (br_pending r) = 2%nat /\ length (br_awaiting r) = 2%nat /\ length (br_recv_off r) = 2%nat /\
           length (br_entries r) = 2%nat;
  wf_size : 0 < br_buf_size r < 2 ^ 32 /\ 0 <= br_data r /\ br_data r + 2 * br_buf_size r < 2 ^ 64;
  wf_tail : in_u 16 (br_tail r) /\ br_shared_tail r = br_tail r;
  wf_gen : 0 <= br_provide_gen r < 2 ^ 64;
  wf_pend : forall b, 0 <= pend r b < 2 ^ 32;
  wf_roff : forall b, 0 <= roff r b <= br_buf_size r;
}.

(** The ring entries between the kernel's head and the tail are [kr]. *)
Definition in_ring (r : BufRing) (head : Z) (kr : list nat) : Prop :=
  in_u 16 head /\ wrap 16 (br_tail r - head) = Z.of_nat (length kr) /\ NoDup kr /\ (forall b, b ∈ kr -> (b < 2)%nat) /\
  forall (i : nat) b, kr !! i = Some b ->
    br_entries r !! bix (head + Z.of_nat i) =
      Some {| be_addr := start r b; be_len := br_buf_size r; be_bid := Z.of_nat b |}.

(** Is buffer [b] the one the chunk in hand came from, and was it its last? *)
Definition in_hand (rm : RingMode) (b : nat) (last : bool) : Prop :=
  exists c, rm_cur rm = Some c /\ cur_bid c = Z.of_nat b /\ cur_buf_more c = negb last.

(** The borrows of buffer [b] that have not ended. *)
Fixpoint held_of (b : nat) (l : list (nat * Z)) : nat :=
  match l with [] => 0 | h :: l => (if decide (h.1 = b) then 1 else 0) + held_of b l end.

(** Where buffer [b] is.  What the kernel may still fill lies behind the chunks
    and the borrowed regions. *)
Inductive place (x : rsys) (kr : list nat) (b : nat) : Prop :=
| with_kernel : b ∈ kr -> await (rs_ring x) b = false -> ~ in_hand (rs_rm x) b true ->
    chunks (start (rs_ring x) b) (br_buf_size (rs_ring x)) (Z.of_nat b) (rs_q x) (roff (rs_ring x) b)
      (if decide (head kr = Some b) then rs_off x else 0) ->
    (forall e, (b, e) ∈ rs_held x -> e <= if decide (head kr = Some b) then rs_off x else 0) -> place x kr b
| queued_full : b ∉ kr -> await (rs_ring x) b = false -> ~ in_hand (rs_rm x) b true ->
    chunks (start (rs_ring x) b) (br_buf_size (rs_ring x)) (Z.of_nat b) (rs_q x) (roff (rs_ring x) b)
      (br_buf_size (rs_ring x)) -> roff (rs_ring x) b < br_buf_size (rs_ring x) -> place x kr b
| drained_hand : b ∉ kr -> await (rs_ring x) b = false -> in_hand (rs_rm x) b true ->
    no_chunks (Z.of_nat b) (rs_q x) -> place x kr b
| borrowed : b ∉ kr -> await (rs_ring x) b = true -> 0 < pend (rs_ring x) b ->
    (forall l, ~ in_hand (rs_rm x) b l) -> no_chunks (Z.of_nat b) (rs_q x) -> place x kr b.

(** Everything but the places. *)
Record ring_core (x : rsys) (kr : list nat) : Prop := {
  ri_wf : ring_wf (rs_ring x);
  ri_ring : in_ring (rs_ring x) (rs_head x) kr;
  ri_off : 0 <= rs_off x < br_buf_size (rs_ring x) /\ (kr = [] -> rs_off x = 0);
  ri_cur : forall c, rm_cur (rs_rm x) = Some c ->
    exists b, cur_bid c = Z.of_nat b /\ (b < 2)%nat /\ 0 <= cur_pos c <= cur_len c /\
      (cur_buf_more c = true -> roff (rs_ring x) b = cur_off c + cur_len c);
  ri_op : rm_op (rs_rm x) = rs_armed x || existsb terminal (rs_q x);
  ri_last : forall e q1 q2, rs_q x = q1 ++ e :: q2 -> terminal e = true -> q2 = [] /\ rs_armed x = false;
  ri_gen : 0 <= rm_armed_gen (rs_rm x) <= br_provide_gen (rs_ring x);
  ri_dry : KNoBufs ∈ rs_q x \/ rs_parked x = true ->
    rm_armed_gen (rs_rm x) = br_provide_gen (rs_ring x) -> kr = [];
  ri_parked : rs_parked x = true -> rs_q x = [] /\ rm_cur (rs_rm x) = None /\ rm_op (rs_rm x) = false;
  ri_err : forall n, KErr n ∈ rs_q x -> n <> ENOBUFS;
  ri_bids : forall c a, KChunk c a ∈ rs_q x -> 0 <= rc_bid c < 2;
  ri_held : forall b, pend (rs_ring x) b = Z.of_nat (held_of b (rs_held x));
}.

Definition ring_inv (x : rsys) (kr : list nat) : Prop :=
  ring_core x kr /\ forall b, (b < 2)%nat -> place x kr b.

Lemma held_of_app b l l' : held_of b (l ++ l') = (held_of b l + held_of b l')%nat.
Proof. induction l as [|h l IH]; cbn; [done|]. rewrite IH. lia. Qed.

Lemma held_of_in b e l : (b, e) ∈ l -> (0 < held_of b l)%nat.
Proof. induction l as [|h l IH]; [by intros ?%elem_of_nil|]. cbn. intros [<-|Hin%IH]%elem_of_cons; [|lia]. cbn. rewrite decide_True by done. lia. Qed.

Lemma held_of_pos b l : (0 < held_of b l)%nat -> exists e h1 h2, l = h1 ++ (b, e) :: h2.
Proof.
  induction l as [|[b' e] l IH]; cbn; [lia|]. case_decide; [subst; intros _; by exists e, [], l|].
  intros Hl. destruct (IH Hl) as (e' & h1 & h2 & ->). by exists e', ((b', e) :: h1), h2.
Qed.

(** ** Index arithmetic *)

Lemma bix_mod z : bix z = Z.to_nat (z mod 2).
Proof. unfold bix. change BUF_MASK with (Z.ones 1). by rewrite Z.land_ones by lia. Qed.

Lemma bix_nat b : (b < 2)%nat -> bix (Z.of_nat b) = b.
Proof. intros. rewrite bix_mod, Z.mod_small by lia. lia. Qed.

Lemma bix_wrap z : bix (wrap 16 z) = bix z.
Proof.
  rewrite !bix_mod. f_equal. unfold wrap. symmetry. rewrite (Z.div_mod z (2 ^ 16)) at 1 by lia.
  rewrite <- Z.add_mod_idemp_l by lia. replace ((2 ^ 16 * (z / 2 ^ 16)) mod 2) with 0; [done|].
  symmetry. apply Z.mod_divide; [lia|]. exists (2 ^ 15 * (z / 2 ^ 16)). lia.
Qed.

Lemma bix_lt z : (bix z < 2)%nat.
Proof. rewrite bix_mod. pose proof (Z.mod_pos_bound z 2). lia. Qed.

Lemma bix_succ z : bix (z + 1) <> bix z.
Proof.
  rewrite !bix_mod. pose proof (Z.div_mod z 2). pose proof (Z.div_mod (z + 1) 2).
  pose proof (Z.mod_pos_bound z 2). pose proof (Z.mod_pos_bound (z + 1) 2). lia.
Qed.

Lemma wrap_sub_add t h n : in_u 16 t -> in_u 16 h -> wrap 16 (t - h) = n -> n < 2 ^ 16 -> t = wrap 16 (h + n).
Proof.
  intros Ht Hh <- _. unfold wrap. rewrite Zplus_mod_idemp_r. replace (h + (t - h)) with t by lia.
  symmetry. by apply Z.mod_small.
Qed.

Lemma nth_two {A} (l : list A) b d : length l = 2%nat -> (b < 2)%nat -> l !! b = Some (nth b l d).
Proof. intros Hl Hb. destruct l as [|x [|y [|]]]; try done. destruct b as [|[|]]; [done|done|lia]. Qed.

Lemma nth_put {A} (l : list A) b b' x d :
  length l = 2%nat -> (b < 2)%nat -> nth b' (<[b := x]> l) d = if decide (b' = b) then x else nth b' l d.
Proof.
  intros Hl Hb. destruct l as [|y [|z [|]]]; try done. destruct b as [|[|]]; [| |lia];
    destruct b' as [|[|]]; cbn; repeat case_decide; try done; try lia; by destruct n.
Qed.

Lemma cell_ok {A} (l : list A) b d : length l = 2%nat -> (b < 2)%nat -> cell l (Z.of_nat b) = Ok (nth b l d).
Proof. intros. unfold cell. rewrite bix_nat by done. by rewrite (nth_two l b d). Qed.

Lemma no_third kr b : NoDup kr -> (forall b, b ∈ kr -> (b < 2)%nat) -> (b < 2)%nat -> b ∉ kr -> (length kr <= 1)%nat.
Proof.
  intros Hn Hl Hb Hni. assert (b :: kr ⊆+ seq 0 2) as Hs.
  { apply NoDup_submseteq; [by apply list.NoDup_cons|]. intros x [->|Hx]%elem_of_cons; apply elem_of_seq; [lia|].
    specialize (Hl x Hx). lia. }
  apply submseteq_length in Hs. cbn in Hs. lia.
Qed.

(** ** Handing a buffer to the kernel *)

(** [r'] is [r] after buffer [b] was provided. *)
Record provided (b : nat) (r r' : BufRing) : Prop := {
  pv_geo : br_data r' = br_data r /\ br_buf_size r' = br_buf_size r /\ br_buf_index r' = br_buf_index r;
  pv_pending : br_pending r' = br_pending r;
  pv_await : br_awaiting r' = <[b := false]> (br_awaiting r);
  pv_off : br_recv_off r' = <[b := 0]> (br_recv_off r);
  pv_gen : br_provide_gen r' = br_provide_gen r + 1;
  pv_wake : br_provide_waker r' = None /\ br_woken r' = br_woken r ++ option_list (br_provide_waker r);
}.

Lemma ring_buf_ok r b : (b < 2)%nat -> ring_buf (Z.of_nat b) r = (r, Ok (start r b)).
Proof.
  intros Hb. unfold ring_buf. rewrite get_bind.
  rewrite (bind_ok _ _ _ r tt) by (unfold lift, assert, NBUFS; by destruct (Z.ltb_spec (Z.of_nat b) 2); [|lia]).
  unfold start. assert (Z.land (Z.of_nat b) BUF_MASK = Z.of_nat b) as ->; [|done].
  pose proof (bix_nat b Hb) as H. unfold bix in H. rewrite <- H at 2. rewrite Z2Nat.id; [done|].
  change BUF_MASK with (Z.ones 1). rewrite Z.land_ones by lia. apply Z.mod_pos_bound. lia.
Qed.

Lemma provide_ok r head kr b :
  ring_wf r -> in_ring r head kr -> (b < 2)%nat -> b ∉ kr -> pend r b = 0 -> br_provide_gen r < 2 ^ 64 - 1 ->
  exists r', kernel_provide (Z.of_nat b) r = (r', Ok tt) /\ ring_wf r' /\ in_ring r' head (kr ++ [b]) /\
    provided b r r'.
Proof.
  intros [Hl Hs (Ht & Hsh) Hg Hp Hro] (Hh & Hw & Hn & Hk & He) Hb Hni Hp0 Hgen.
  destruct Hl as (L1 & L2 & L3 & L4). pose proof (no_third kr b Hn Hk Hb Hni) as Hlen.
  unfold kernel_provide. rewrite get_bind.
  rewrite (bind_ok _ _ _ r (pend r b)) by (unfold lift; by rewrite (cell_ok _ b 0)).
  rewrite (bind_ok _ _ _ r tt) by (unfold lift; by rewrite Hp0).
  rewrite (bind_ok _ _ _ _ _ (ring_buf_ok r b Hb)).
  rewrite (bind_ok _ _ _ r tt) by (unfold lift, assert; rewrite bool_decide_true; [done|]; rewrite L4; apply bix_lt).
  unfold mbind, M_bind, modify, br_set_bufs, br_set_park, br_set_ring.
  cbn [br_pending br_awaiting br_recv_off br_provide_gen br_provide_waker br_woken br_data br_buf_size br_entries
       br_tail br_shared_tail br_buf_index]. rewrite bix_nat by done.
  rewrite (wrap_small 64 (br_provide_gen r + 1)) by (split; lia).
  assert (br_tail r = wrap 16 (head + Z.of_nat (length kr))) as Htail by (apply wrap_sub_add; [done|done|done|lia]).
  eexists. split; [reflexivity|]. split; [|split].
  - split; cbn.
    + split_and!; try done; by rewrite ?length_insert.
    + done.
    + split; [apply in_u_wrap; lia|done].
    + lia.
    + exact Hp.
    + intros b'. unfold roff. cbn. rewrite nth_put by done. case_decide; [lia|apply Hro].
  - split_and!; cbn [br_tail br_entries br_data br_buf_size].
    + done.
    + rewrite length_app. cbn [length]. unfold wrap in *. rewrite Zminus_mod_idemp_l.
      replace (br_tail r + 1 - head) with (br_tail r - head + 1) by lia.
      rewrite <- Z.add_mod_idemp_l, Hw by lia. rewrite Z.mod_small; lia.
    + apply list.NoDup_app. split; [done|]. split; [|apply NoDup_singleton].
      intros x Hx ->%list_elem_of_singleton. done.
    + intros x [Hx| ->%list_elem_of_singleton]%elem_of_app; auto.
    + intros i x Hx. rewrite Htail, bix_wrap. apply lookup_app_Some in Hx as [Hx|(Hge & Hx)].
      * rewrite list_lookup_insert_ne; [by apply He|]. pose proof (lookup_lt_Some _ _ _ Hx).
        assert (i = 0%nat) as -> by lia. replace (length kr) with 1%nat by lia. rewrite Z.add_0_r. apply bix_succ.
      * apply list_lookup_singleton_Some in Hx as [Hi <-]. replace i with (length kr) by lia.
        rewrite list_lookup_insert_eq by (rewrite L4; apply bix_lt). done.
  - split; cbn; try done.
Qed.

(** ** The queue of completions *)

Lemma chunks_le s sz b q o fin : chunks s sz b q o fin -> o <= fin.
Proof.
  revert o. induction q as [|[c a| | |] q IH]; intros o H; cbn in H; try (by apply IH); [lia|].
  destruct (rc_bid c =? b); [|by apply IH]. destruct H as (_ & Hl & _ & _ & H%IH). lia.
Qed.

Lemma chunks_none s sz b q o : no_chunks b q -> chunks s sz b q o o.
Proof.
  induction 1 as [|[c a| | |] q Hc _ IH]; cbn; try done. by destruct (Z.eqb_spec (rc_bid c) b).
Qed.

(** After the last chunk of a full buffer. *)
Lemma chunks_full s sz b q fin : chunks s sz b q sz fin -> fin = sz /\ no_chunks b q.
Proof.
  induction q as [|[c a| | |] q IH]; cbn; intros H; try (destruct (IH H); split; [done|by constructor]).
  - split; [done|constructor].
  - destruct (Z.eqb_spec (rc_bid c) b); [|destruct (IH H); split; [done|by constructor]].
    destruct H as (_ & ? & ? & _). lia.
Qed.

Lemma chunks_snoc s sz b q o fin c :
  chunks s sz b q o fin -> rc_bid c = b -> 0 < rc_len c -> fin + rc_len c <= sz ->
  rc_buf_more c = (fin + rc_len c <? sz) -> chunks s sz b (q ++ [KChunk c (s + fin)]) o (fin + rc_len c).
Proof.
  intros H Hb Hl Hs Hm. revert o H. induction q as [|[c' a| | |] q IH]; intros o H; cbn in *; try (by apply IH).
  - subst o. rewrite (proj2 (Z.eqb_eq _ _) Hb). done.
  - destruct (rc_bid c' =? b); [|by apply IH]. destruct H as (?&?&?&?&?). split_and!; try done. by apply IH.
Qed.

Lemma chunks_snoc_other s sz b q o fin e :
  chunks s sz b q o fin -> (match e with KChunk c _ => rc_bid c <> b | _ => True end) ->
  chunks s sz b (q ++ [e]) o fin.
Proof.
  intros H He. revert o H. induction q as [|[c' a| | |] q IH]; intros o H; cbn in *; try (by apply IH).
  - subst o. destruct e as [c a| | |]; cbn; try done. by destruct (Z.eqb_spec (rc_bid c) b).
  - destruct (rc_bid c' =? b); [|by apply IH]. destruct H as (?&?&?&?&?). split_and!; try done. by apply IH.
Qed.

Lemma no_chunks_snoc b q e :
  no_chunks b q -> (match e with KChunk c _ => rc_bid c <> b | _ => True end) -> no_chunks b (q ++ [e]).
Proof. intros H He. apply list.Forall_app_2; [done|]. by apply list.Forall_singleton. Qed.

(** ** Moving a place along *)

(** [place] reads only these parts of the state. *)
Lemma place_frame x y kr kr' b :
  start (rs_ring y) b = start (rs_ring x) b -> br_buf_size (rs_ring y) = br_buf_size (rs_ring x) ->
  rs_q y = rs_q x -> rs_off y = rs_off x -> await (rs_ring y) b = await (rs_ring x) b ->
  roff (rs_ring y) b = roff (rs_ring x) b ->
  (await (rs_ring x) b = true -> 0 < pend (rs_ring x) b -> 0 < pend (rs_ring y) b) ->
  (forall l, in_hand (rs_rm y) b l <-> in_hand (rs_rm x) b l) -> (b ∈ kr' <-> b ∈ kr) ->
  (b ∈ kr -> head kr' = Some b <-> head kr = Some b) ->
  (forall e, (b, e) ∈ rs_held y -> (b, e) ∈ rs_held x) -> place x kr b -> place y kr' b.
Proof.
  intros E1 E2 E3 E4 E5 E6 E7 E8 E9 E10 E11 H. destruct H as [H1 H2 H3 H4 H5|H1 H2 H3 H4 H5|H1 H2 H3 H4|H1 H2 H3 H4 H5].
  - apply with_kernel; rewrite ?E9, ?E1, ?E2, ?E3, ?E4, ?E5, ?E6, ?E8; try done.
    all: destruct (decide (head kr' = Some b)) as [Hd|Hd], (decide (head kr = Some b)) as [Hd'|Hd']; try done;
      try (by apply (E10 H1) in Hd); try (by apply (E10 H1) in Hd').
    all: intros e He; by apply H5, E11.
  - apply queued_full; rewrite ?E9, ?E1, ?E2, ?E3, ?E4, ?E5, ?E6, ?E8; done.
  - apply drained_hand; rewrite ?E9, ?E3, ?E5, ?E8; done.
  - apply borrowed; rewrite ?E9, ?E3, ?E5; try done; [by apply E7|]. intros l. by rewrite E8.
Qed.

(** ** The kernel's steps *)

Lemma ring_head r h kr : in_ring r h kr -> ring_wf r -> (h = br_shared_tail r <-> kr = []).
Proof.
  intros (Hh & Hw & Hn & Hk & _) [_ _ (Ht & Hsh) _ _ _]. rewrite Hsh. split.
  - intros ->. rewrite Z.sub_diag in Hw. by destruct kr.
  - intros ->. cbn in Hw. assert (br_tail r = wrap 16 (h + 0)) as -> by (apply wrap_sub_add; done || lia).
    rewrite Z.add_0_r. symmetry. by apply wrap_small.
Qed.

(** The kernel moves past a full buffer. *)
Lemma ring_pop r h b kr : in_ring r h (b :: kr) -> in_ring r (wrap 16 (h + 1)) kr.
Proof.
  intros (Hh & Hw & Hn & Hk & He). apply list.NoDup_cons in Hn as [Hni Hn]. split_and!; try done.
  - apply in_u_wrap. lia.
  - cbn [length] in Hw. unfold wrap in *. rewrite Zminus_mod_idemp_r.
    replace (br_tail r - (h + 1)) with (br_tail r - h - 1) by lia.
    rewrite <- Zminus_mod_idemp_l, Hw. rewrite Z.mod_small; [lia|].
    assert (length (b :: kr) <= 2)%nat; [|cbn in *; lia].
    assert (b :: kr ⊆+ seq 0 2) as Hs.
    { apply NoDup_submseteq; [by apply list.NoDup_cons|]. intros x Hx. apply elem_of_seq. specialize (Hk x Hx). lia. }
    by apply submseteq_length in Hs.
  - intros x Hx. apply Hk. by right.
  - intros i x Hx. rewrite <- (He (S i) x Hx). f_equal. rewrite <- (bix_wrap (wrap 16 (h + 1) + _)).
    rewrite <- (bix_wrap (h + _)). unfold wrap. rewrite Zplus_mod_idemp_l. do 2 f_equal. lia.
Qed.

Lemma no_terminal x kr : ring_inv x kr -> rs_armed x = true -> forall e, e ∈ rs_q x -> terminal e = false.
Proof.
  intros Hi Ha e He. apply list_elem_of_split in He as (q1 & q2 & Hq). destruct (terminal e) eqn:Ht; [|done].
  destruct (ri_last _ _ (proj1 Hi) e q1 q2 Hq Ht). congruence.
Qed.

(** What appending a completion does to the queue's part of the invariant. *)
Lemma queue_push x kr e (armed : bool) :
  ring_inv x kr -> rs_armed x = true -> (terminal e = true <-> armed = false) ->
  rs_parked x = false /\
  rm_op (rs_rm x) = armed || existsb terminal (rs_q x ++ [e]) /\
  (forall e' q1 q2, rs_q x ++ [e] = q1 ++ e' :: q2 -> terminal e' = true -> q2 = [] /\ armed = false).
Proof.
  intros Hi Ha Ht. pose proof (no_terminal x kr Hi Ha) as Hnt. split_and!.
  - destruct (rs_parked x) eqn:Hp; [|done]. destruct (ri_parked _ _ (proj1 Hi) Hp) as (_ & _ & Ho).
    rewrite (ri_op _ _ (proj1 Hi)), Ha in Ho. done.
  - rewrite (ri_op _ _ (proj1 Hi)), Ha, existsb_app. cbn. destruct armed; [done|]. rewrite (proj2 Ht eq_refl).
    by rewrite orb_true_r.
  - intros e' q1 q2 Hq Ht'. destruct (decide (q2 = [])) as [->|Hne].
    + split; [done|]. apply app_inj_tail in Hq as [_ <-]. by apply Ht.
    + exfalso. destruct (list.last q2) as [z|] eqn:Hz; [|by apply last_None in Hz].
      apply list.last_Some in Hz as [q3 ->]. rewrite (app_comm_cons q3), app_assoc in Hq.
      apply app_inj_tail in Hq as [Hq _]. rewrite (Hnt e') in Ht'; [done|]. rewrite Hq. apply elem_of_app. right. left.
Qed.

(** A buffer a completion is not about stays where it is. *)
Lemma place_push x kr kr' h off armed e b :
  place x kr b -> (match e with KChunk c _ => rc_bid c <> Z.of_nat b | _ => True end) -> (b ∈ kr' <-> b ∈ kr) ->
  (b ∈ kr -> (if decide (head kr' = Some b) then off else 0) = (if decide (head kr = Some b) then rs_off x else 0)) ->
  place (rs_kernel x h off armed e) kr' b.
Proof.
  intros [P1 P2 P3 P4|P1 P2 P3 P4 P5|P1 P2 P3 P4|P1 P2 P3 P4 P5] He Hk Hf.
  - apply with_kernel; cbn; rewrite ?Hk, ?Hf; try done. by apply chunks_snoc_other.
  - apply queued_full; cbn; rewrite ?Hk; try done. by apply chunks_snoc_other.
  - apply drained_hand; cbn; rewrite ?Hk; try done. by apply no_chunks_snoc.
  - apply borrowed; cbn; rewrite ?Hk; try done. by apply no_chunks_snoc.
Qed.

(** A completion without data. *)
Lemma push_plain x kr e :
  ring_inv x kr -> rs_armed x = true -> (match e with KChunk _ _ => False | _ => True end) ->
  (e = KNoBufs -> kr = []) -> (forall n, e = KErr n -> n <> ENOBUFS) ->
  ring_inv (rs_kernel x (rs_head x) (rs_off x) false e) kr.
Proof.
  intros Hi Ha He Hdry Herr. destruct (queue_push x kr e false Hi Ha) as (Hp & Hop & Hlast).
  { by destruct e. }
  pose proof Hi as [[H1 H2 H3 H5 H6 H7 H8 H9 H10 H11 H12] H4].
  split; [|intros b Hb; apply (place_push x kr kr); [by apply H4|by destruct e|done|done]].
  split; cbn; try done.
  - intros [Hin|Hpk] Hg; [|congruence]. apply elem_of_app in Hin as [Hin|Hin].
    + apply H9; [by left|done].
    + apply list_elem_of_singleton in Hin. by apply Hdry.
  - by rewrite Hp.
  - intros n [Hin|Hin]%elem_of_app; [by apply H11|]. apply list_elem_of_singleton in Hin. by apply Herr.
  - intros c a [Hin|Hin]%elem_of_app; [by eapply H12|]. apply list_elem_of_singleton in Hin. by subst e.
Qed.

(** The kernel receives into the buffer at its head. *)
Lemma receive_inv x kr e len more :
  ring_inv x kr -> rs_armed x = true -> rs_head x <> br_shared_tail (rs_ring x) ->
  br_entries (rs_ring x) !! bix (rs_head x) = Some e -> 0 < len -> rs_off x + len <= be_len e ->
  let full := negb (rs_off x + len <? be_len e) in
  exists kr', ring_inv (rs_kernel x (if full then wrap 16 (rs_head x + 1) else rs_head x)
                             (if full then 0 else rs_off x + len) more
                   (KChunk {| rc_bid := be_bid e; rc_len := len; rc_more := more; rc_buf_more := negb full |}
                      (be_addr e + rs_off x))) kr'.
Proof.
  intros Hi Ha Hh He Hl Hle full. pose proof Hi as [[H1 H2 H3 H5 H6 H7 H8 H9 H10 H11 H12] H4].
  destruct kr as [|b kr]. { exfalso. apply Hh. by apply (ring_head _ _ _ H2 H1). }
  pose proof H2 as (_ & _ & Hn & Hk & Hent). pose proof (Hent 0%nat b eq_refl) as He0. rewrite Z.add_0_r, He in He0.
  injection He0 as ->. cbn [be_addr be_len be_bid] in *.
  apply list.NoDup_cons in Hn as [Hni _].
  set (c := {| rc_bid := Z.of_nat b; rc_len := len; rc_more := more; rc_buf_more := negb full |}).
  destruct (queue_push x (b :: kr) (KChunk c (start (rs_ring x) b + rs_off x)) more Hi Ha) as (Hp & Hop & Hlast).
  { cbn. by destruct more. }
  assert (b < 2)%nat as Hb by (apply Hk; left).
  assert (place x (b :: kr) b) as Hpl by auto.
  inversion Hpl as [P1 P2 P3 P4 P5|P1 _ _ _ _|P1 _ _ _|P1 _ _ _ _]; try (exfalso; apply P1; left).
  rewrite decide_True in P4, P5 by done. pose proof (chunks_le _ _ _ _ _ _ P4) as Hro.
  assert (chunks (start (rs_ring x) b) (br_buf_size (rs_ring x)) (Z.of_nat b)
            (rs_q x ++ [KChunk c (start (rs_ring x) b + rs_off x)]) (roff (rs_ring x) b) (rs_off x + len)) as Hsn.
  { apply (chunks_snoc _ _ _ _ _ _ c); try done. cbn. unfold full. by rewrite negb_involutive. }
  assert (forall b', (b' < 2)%nat -> b' <> b -> Z.of_nat b <> Z.of_nat b') as Hzne by lia.
  exists (if full then kr else b :: kr). split.
  2: { intros b' Hb'. destruct (decide (b' = b)) as [->|Hne].
    + unfold full in *. destruct (Z.ltb_spec (rs_off x + len) (br_buf_size (rs_ring x))); cbn [negb].
      * apply with_kernel; cbn; rewrite ?decide_True by done; try done. intros e' He'%P5. lia.
      * assert (rs_off x + len = br_buf_size (rs_ring x)) as Heq by lia. rewrite Heq in Hsn.
        apply queued_full; cbn; try done. lia.
    + apply (place_push x (b :: kr)); [by apply H4|by apply Hzne| |].
      * destruct full; [|done]. rewrite elem_of_cons. split; [by right|by intros [?|?]].
      * intros _. rewrite (decide_False (P := head (b :: kr) = Some b')) by (cbn; congruence).
        destruct full; [by case_decide|by rewrite decide_False by (cbn; congruence)]. }
  split; cbn [rs_kernel rs_rm rs_ring rs_head rs_off rs_armed rs_q rs_parked]; try done.
  - destruct full; [|done]. by eapply ring_pop.
  - unfold full. destruct (Z.ltb_spec (rs_off x + len) (br_buf_size (rs_ring x))); cbn; split; try done; lia.
  - intros [Hin|Hpk] Hg; [|congruence]. apply elem_of_app in Hin as [Hin|Hin]; [|by apply list_elem_of_singleton in Hin].
    by specialize (H9 (or_introl Hin) Hg).
  - by rewrite Hp.
  - intros n [Hin|Hin]%elem_of_app; [by apply H11|]. by apply list_elem_of_singleton in Hin.
  - intros c' a [Hin|Hin]%elem_of_app; [by eapply H12|]. apply list_elem_of_singleton in Hin. injection Hin as -> _.
    cbn. lia.
Qed.

(** ** The reader's steps *)

Lemma head_app (kr : list nat) b b' : b' ∈ kr -> head (kr ++ [b]) = Some b' <-> head kr = Some b'.
Proof. destruct kr; [by intros ?%elem_of_nil|done]. Qed.

(** A buffer that nobody uses goes back to the kernel. *)
Lemma provide_inv x kr b :
  ring_core x kr -> (forall b', (b' < 2)%nat -> b' <> b -> place x kr b') -> (b < 2)%nat -> b ∉ kr ->
  no_chunks (Z.of_nat b) (rs_q x) -> pend (rs_ring x) b = 0 -> (forall l, ~ in_hand (rs_rm x) b l) ->
  br_provide_gen (rs_ring x) < 2 ^ 64 - 1 ->
  exists r, kernel_provide (Z.of_nat b) (rs_ring x) = (r, Ok tt) /\ provided b (rs_ring x) r /\
    ring_inv (rs_user x (rs_rm x, r) (rs_q x) (rs_armed x) (rs_parked x)) (kr ++ [b]).
Proof.
  intros Hcore Hpl Hb Hni Hq Hp0 Hhand Hgen. pose proof Hcore as [H1 H2 H3 H5 H6 H7 H8 H9 H10 H11 H12 H13].
  destruct (provide_ok _ _ _ _ H1 H2 Hb Hni Hp0 Hgen) as (r & Hr & Hwf & Hin & Hpv).
  exists r. split; [done|]. split; [done|]. pose proof Hpv as [(G1 & G2 & G3) V1 V2 V3 V4 _].
  pose proof (wf_len _ H1) as (L1 & L2 & L3 & L4). split.
  - split; cbn [rs_user rs_rm rs_ring rs_head rs_off rs_armed rs_q rs_parked fst snd]; try done.
    + rewrite G2. split; [apply H3|]. by destruct kr.
    + intros c Hc. destruct (H5 c Hc) as (b' & Hb1 & Hb2 & Hb3 & Hb4). exists b'. split_and!; try done; try lia.
      intros Hm. unfold roff. rewrite V3, nth_put by done. rewrite decide_False; [by apply Hb4|].
      intros ->. apply (Hhand false). by exists c.
    + rewrite V4. lia.
    + intros _ Hg. lia.
    + intros b'. unfold pend. rewrite V1. apply H13.
  - intros b' Hb'. destruct (decide (b' = b)) as [->|Hne].
    + apply with_kernel; cbn.
      * apply elem_of_app. right. by apply list_elem_of_singleton.
      * unfold await. rewrite V2, nth_put by done. by rewrite decide_True.
      * apply Hhand.
      * unfold roff. rewrite V3, nth_put by done. rewrite decide_True by done.
        assert ((if decide (head (kr ++ [b]) = Some b) then rs_off x else 0) = 0) as ->; [|by apply chunks_none].
        case_decide as Hd; [|done]. apply H3. destruct kr as [|k kr]; [done|]. cbn in Hd. injection Hd as ->.
        exfalso. apply Hni. left.
      * intros e He%held_of_in. exfalso. rewrite H13 in Hp0. lia.
    + apply (place_frame x _ kr); cbn [rs_user rs_rm rs_ring rs_head rs_off rs_armed rs_q rs_parked fst snd]; try done.
      * unfold start. by rewrite G1, G2.
      * unfold await. rewrite V2, nth_put by done. by rewrite decide_False.
      * unfold roff. rewrite V3, nth_put by done. by rewrite decide_False.
      * unfold pend. by rewrite V1.
      * rewrite elem_of_app, list_elem_of_singleton. split; [by intros [?|?]|by left].
      * apply head_app.
      * by apply Hpl.
Qed.

(** Per-buffer counters change, the ring stays. *)
Lemma wf_bufs r p a o :
  ring_wf r -> length p = 2%nat -> length a = 2%nat -> length o = 2%nat -> (forall b, 0 <= nth b p 0 < 2 ^ 32) ->
  (forall b, 0 <= nth b o 0 <= br_buf_size r) -> ring_wf (br_set_bufs p a o r).
Proof. intros [(L1 & L2 & L3 & L4) H2 H3 H4 H5 H6] Hp Ha Ho Hb Hr. by split. Qed.

Lemma core_bufs x kr p a o h :
  ring_core x kr -> ring_wf (br_set_bufs p a o (rs_ring x)) -> o = br_recv_off (rs_ring x) ->
  (forall b, nth b p 0 = Z.of_nat (held_of b h)) ->
  ring_core (rs_hold x (br_set_bufs p a o (rs_ring x)) h) kr.
Proof. intros [H1 H2 H3 H5 H6 H7 H8 H9 H10 H11 H12 H13] Hwf -> Hh. by split. Qed.

Lemma hold_same x r : rs_hold x r (rs_held x) = rs_user x (rs_rm x, r) (rs_q x) (rs_armed x) (rs_parked x).
Proof. done. Qed.

(** The chunk in hand of a buffer the kernel fills ends before what it may fill. *)
Lemma hand_behind x kr b c :
  ring_core x kr -> place x kr b -> b ∈ kr -> rm_cur (rs_rm x) = Some c -> cur_bid c = Z.of_nat b ->
  cur_off c + cur_len c <= if decide (head kr = Some b) then rs_off x else 0.
Proof.
  intros Hc Hpl Hin Hcur Hbid. destruct Hpl as [_ _ P3 P4 _|P1 _ _ _ _|P1 _ _ _|P1 _ _ _ _]; try done.
  destruct (ri_cur _ _ Hc c Hcur) as (b' & Hb1 & _ & _ & Hro). assert (b' = b) as -> by lia.
  destruct (cur_buf_more c) eqn:Hm; [|exfalso; apply P3; by exists c].
  rewrite <- (Hro eq_refl). by eapply chunks_le.
Qed.

Lemma borrow_inv x kr b c :
  ring_inv x kr -> (b < 2)%nat -> rm_cur (rs_rm x) = Some c -> cur_bid c = Z.of_nat b -> pend (rs_ring x) b < 2 ^ 32 - 1 ->
  exists r, borrow (Z.of_nat b) (rs_ring x) = (r, Ok tt) /\
    ring_inv (rs_hold x r ((b, cur_off c + cur_len c) :: rs_held x)) kr.
Proof.
  intros [Hc Hpl] Hb Hcur Hbid Hlt. pose proof (ri_wf _ _ Hc) as Hwf. pose proof (wf_len _ Hwf) as (L1 & L2 & L3 & L4).
  pose proof (wf_pend _ Hwf b) as Hp. unfold borrow. rewrite get_bind.
  rewrite (bind_ok _ _ _ (rs_ring x) (pend (rs_ring x) b)) by (unfold lift; by rewrite (cell_ok _ b 0)).
  rewrite (bind_ok _ _ _ (rs_ring x) (pend (rs_ring x) b + 1)) by (unfold lift; rewrite checked_ok; [done|split; lia]).
  rewrite bix_nat by done. eexists. split; [reflexivity|].
  assert (forall b', nth b' (<[b := pend (rs_ring x) b + 1]> (br_pending (rs_ring x))) 0 =
            if decide (b' = b) then pend (rs_ring x) b + 1 else pend (rs_ring x) b') as Hn by (intros; by apply nth_put).
  split.
  - apply core_bufs; [done| |done|].
    + apply wf_bufs; try done; [by rewrite length_insert| |apply (wf_roff _ Hwf)]. intros b'. rewrite Hn.
      case_decide; [lia|apply (wf_pend _ Hwf)].
    + intros b'. rewrite Hn. cbn [held_of fst]. pose proof (ri_held _ _ Hc b') as Hh. repeat case_decide; subst; try done; lia.
  - intros b' Hb'. pose proof (Hpl b' Hb') as Hpb. set (y := rs_hold _ _ _).
    assert (forall b', b' <> b -> forall e, (b', e) ∈ rs_held y -> (b', e) ∈ rs_held x) as Hother
      by (intros b1 Hne e [[= ? _]|?]%elem_of_cons; done).
    destruct (decide (b' = b)) as [->|Hne].
    2: { apply (place_frame x _ kr); try done; [|by apply Hother]. unfold pend at 2. cbn. rewrite Hn. by rewrite decide_False. }
    pose proof (fun Hin => hand_behind x kr b c Hc Hpb Hin Hcur Hbid) as Hbehind.
    destruct Hpb as [P1 P2 P3 P4 P5|P1 P2 P3 P4 P5|P1 P2 P3 P4|P1 P2 P3 P4 P5].
    + apply with_kernel; try done. cbn. intros e [[= ->]|He]%elem_of_cons; [by apply Hbehind|by apply P5].
    + by apply queued_full.
    + by apply drained_hand.
    + exfalso. destruct (cur_buf_more c) eqn:Hm; [apply (P4 false)|apply (P4 true)]; by exists c.
Qed.

Lemma release_inv x kr b e h1 h2 :
  ring_inv x kr -> (b < 2)%nat -> rs_held x = h1 ++ (b, e) :: h2 -> br_provide_gen (rs_ring x) < 2 ^ 64 - 1 ->
  exists r kr', release (Z.of_nat b) (rs_ring x) = (r, Ok tt) /\
    ring_inv (rs_hold x r (h1 ++ h2)) kr' /\
    (pend (rs_ring x) b = 1 -> await (rs_ring x) b = true ->
     br_provide_waker r = None /\ br_woken r = br_woken (rs_ring x) ++ option_list (br_provide_waker (rs_ring x)) /\
     kr' = kr ++ [b]).
Proof.
  intros [Hc Hpl] Hb Hheld Hgen. pose proof (ri_wf _ _ Hc) as Hwf. pose proof (wf_len _ Hwf) as (L1 & L2 & L3 & L4).
  assert (forall b', pend (rs_ring x) b' = Z.of_nat (held_of b' (h1 ++ h2)) + if decide (b' = b) then 1 else 0) as Hcount.
  { intros b'. rewrite (ri_held _ _ Hc), Hheld, !held_of_app. cbn [held_of fst]. repeat case_decide; subst; try done; lia. }
  assert (0 < pend (rs_ring x) b) as Hpos by (rewrite Hcount, decide_True by done; lia).
  pose proof (wf_pend _ Hwf b) as Hp. unfold release. rewrite get_bind.
  rewrite (bind_ok _ _ _ (rs_ring x) (pend (rs_ring x) b)) by (unfold lift; by rewrite (cell_ok _ b 0)).
  rewrite (bind_ok _ _ _ (rs_ring x) tt) by (unfold lift, assert; by rewrite (proj2 (Z.ltb_lt _ _) Hpos)).
  rewrite (bind_ok _ _ _ (rs_ring x) (pend (rs_ring x) b - 1)) by (unfold lift; rewrite checked_ok; [done|split; lia]).
  rewrite bix_nat by done. set (n := pend (rs_ring x) b - 1).
  set (r1 := br_set_bufs (<[b := n]> (br_pending (rs_ring x))) (br_awaiting (rs_ring x)) (br_recv_off (rs_ring x)) (rs_ring x)).
  rewrite (bind_ok _ _ _ r1 tt) by done.
  rewrite (bind_ok _ _ _ r1 (await (rs_ring x) b)) by (unfold lift; by rewrite (cell_ok _ b false)).
  assert (forall b', nth b' (<[b := n]> (br_pending (rs_ring x))) 0 =
            if decide (b' = b) then n else pend (rs_ring x) b') as Hn by (intros; by apply nth_put).
  set (x1 := rs_hold x r1 (h1 ++ h2)).
  assert (ring_core x1 kr) as Hc1.
  { apply core_bufs; [done| |done|].
    - apply wf_bufs; try done; [by rewrite length_insert| |apply (wf_roff _ Hwf)]. intros b'. rewrite Hn.
      case_decide; [lia|apply (wf_pend _ Hwf)].
    - intros b'. rewrite Hn. unfold n. rewrite (Hcount b'), (Hcount b). rewrite (decide_True (P := b = b)) by done.
      case_decide; [subst b'|]; lia. }
  assert (forall b', (b' < 2)%nat -> b' <> b \/ ((n =? 0) && await (rs_ring x) b) = false -> place x1 kr b') as Hpl1.
  { intros b' Hb' Hor. apply (place_frame x _ kr); try done; [| |by apply Hpl].
    2: { cbn. intros e'. rewrite Hheld, !elem_of_app, elem_of_cons. tauto. }
    unfold pend at 2. cbn. rewrite Hn.
    intros Haw Hp'. case_decide; [subst b'|done]. destruct Hor as [|Hor]; [done|]. rewrite Haw, andb_true_r in Hor. lia. }
  destruct ((n =? 0) && await (rs_ring x) b) eqn:Hcase.
  - apply andb_prop in Hcase as [Hn0 Haw]. apply Z.eqb_eq in Hn0.
    destruct (Hpl b Hb) as [_ Q _ _|_ Q _ _ _|_ Q _ _|Q1 _ _ Q4 Q5]; try congruence.
    destruct (provide_inv x1 kr b Hc1) as (r & Hr & Hpv & Hinv); try done.
    { intros b' Hb' Hne. apply Hpl1; [done|by left]. }
    { unfold pend. cbn. rewrite Hn, decide_True by done. done. }
    exists r, (kr ++ [b]). split; [exact Hr|]. split; [done|]. intros _ _. destruct (pv_wake _ _ _ Hpv). done.
  - eexists _, kr. split; [reflexivity|]. split.
    + split; [done|]. intros b' Hb'. apply Hpl1; [done|by right].
    + intros H1 Haw. rewrite Haw, andb_true_r in Hcase. lia.
Qed.

(** Putting a drained chunk away. *)
Lemma recv_done_inv x kr b c :
  ring_inv x kr -> rs_parked x = false -> rm_cur (rs_rm x) = Some c -> cur_bid c = Z.of_nat b -> cur_buf_more c = false ->
  (b < 2)%nat -> br_provide_gen (rs_ring x) < 2 ^ 64 - 1 ->
  exists r kr', recv_done (Z.of_nat b) (rs_ring x) = (r, Ok tt) /\
    ring_inv (rs_user x (rm_set_cur None (rs_rm x), r) (rs_q x) (rs_armed x) false) kr'.
Proof.
  intros [Hc Hpl] Hpk Hcur Hbid Hbm Hb Hgen. pose proof (ri_wf _ _ Hc) as Hwf.
  pose proof (wf_len _ Hwf) as (L1 & L2 & L3 & L4). pose proof (wf_pend _ Hwf b) as Hp.
  assert (in_hand (rs_rm x) b true) as Hhand by (by exists c).
  assert (forall b' l, in_hand (rs_rm x) b' l -> b' = b /\ l = true) as Honly.
  { intros b' l (c' & Hc' & Hb' & Hm'). rewrite Hcur in Hc'. injection Hc' as <-. rewrite Hbm in Hm'.
    split; [lia|by destruct l]. }
  destruct (Hpl b Hb) as [_ _ Q _|_ _ Q _ _|Q1 Q2 _ Q4|_ _ _ Q _]; try done; [|by destruct (Q true)].
  set (x0 := rs_user x (rm_set_cur None (rs_rm x), rs_ring x) (rs_q x) (rs_armed x) false).
  assert (forall b' l, ~ in_hand (rs_rm x0) b' l) as Hnone by (by intros b' l (c' & Hc' & _)).
  assert (forall b', (b' < 2)%nat -> b' <> b -> place x0 kr b') as Hpl0.
  { intros b' Hb' Hne. apply (place_frame x _ kr); try done; [|by apply Hpl]. intros l. split.
    - intros H. by apply Hnone in H.
    - intros H. by apply Honly in H as [? _]. }
  assert (ring_core x0 kr) as Hc0.
  { pose proof Hc as [H1 H2 H3 H5 H6 H7 H8 H9 H10 H11 H12]. split; cbn; try done.
    intros [Hin|?]; [|done]. by apply H9; left. }
  unfold recv_done. rewrite get_bind.
  rewrite (bind_ok _ _ _ (rs_ring x) (pend (rs_ring x) b)) by (unfold lift; by rewrite (cell_ok _ b 0)).
  destruct (Z.eqb_spec (pend (rs_ring x) b) 0) as [Hz|Hnz].
  - destruct (provide_inv x0 kr b Hc0) as (r & Hr & _ & Hinv); try done. exists r, (kr ++ [b]). by split.
  - rewrite bix_nat by done. eexists _, kr. split; [reflexivity|]. split.
    + apply (core_bufs x0 kr _ _ _ (rs_held x)); [done| |done|apply (ri_held _ _ Hc)]. apply wf_bufs; try done; [by rewrite length_insert|apply (wf_pend _ Hwf)|apply (wf_roff _ Hwf)].
    + intros b' Hb'. destruct (decide (b' = b)) as [->|Hne].
      * apply borrowed; cbn; try done; [|unfold pend in *; cbn; lia]. unfold await. cbn. rewrite nth_put by done.
        by rewrite decide_True.
      * apply (place_frame x0 _ kr); try done; [|by apply Hpl0]. unfold await. cbn. rewrite nth_put by done.
        by rewrite decide_False.
Qed.

Lemma on_br_eq {A} (m : M BufRing never A) rm r r' a :
  m r = (r', Ok a) -> on_br m (rm, r) = ((rm, r'), Ok a).
Proof. intros H. unfold on_br. by rewrite H. Qed.

Lemma rs_user_id x : rs_user x (rs_pair x) (rs_q x) (rs_armed x) (rs_parked x) = x.
Proof. by destruct x. Qed.

(** The chunk in hand is dropped or shortened; no other part changes. *)
Lemma cur_inv x kr cur :
  ring_inv x kr -> rs_parked x = false ->
  (forall b l, in_hand (rm_set_cur cur (rs_rm x)) b l -> in_hand (rs_rm x) b l) ->
  (forall b, in_hand (rs_rm x) b true -> in_hand (rm_set_cur cur (rs_rm x)) b true) ->
  (forall c, cur = Some c -> exists b, cur_bid c = Z.of_nat b /\ (b < 2)%nat /\ 0 <= cur_pos c <= cur_len c /\
     (cur_buf_more c = true -> roff (rs_ring x) b = cur_off c + cur_len c)) ->
  ring_inv (rs_user x (rm_set_cur cur (rs_rm x), rs_ring x) (rs_q x) (rs_armed x) false) kr.
Proof.
  intros [Hc Hpl] Hpk H1 H2 H3. split.
  - pose proof Hc as [C1 C2 C3 C5 C6 C7 C8 C9 C10 C11 C12]. split; cbn; try done.
    intros [Hin|?]; [|done]. by apply C9; left.
  - intros b Hb. destruct (Hpl b Hb) as [P1 P2 P3 P4 P5|P1 P2 P3 P4 P5|P1 P2 P3 P4|P1 P2 P3 P4 P5].
    + apply with_kernel; cbn; try done. intros H%H1. done.
    + apply queued_full; cbn; try done. intros H%H1. done.
    + apply drained_hand; cbn; try done. by apply H2.
    + apply borrowed; cbn; try done. intros l H%H1. by apply P4 in H.
Qed.

Lemma fill_current_inv x kr :
  ring_inv x kr -> rs_parked x = false -> br_provide_gen (rs_ring x) < 2 ^ 64 - 1 ->
  exists y w kr', fill_current (rs_pair x) = (y, Ok w) /\ ring_inv (rs_user x y (rs_q x) (rs_armed x) false) kr'.
Proof.
  intros Hi Hpk Hgen. pose proof (rs_user_id x) as Hid. rewrite Hpk in Hid. unfold fill_current, rs_pair in *. rewrite get_bind.
  destruct (rm_cur (rs_rm x)) as [c|] eqn:Hcur.
  2: { eexists _, None, kr. split; [reflexivity|]. by rewrite Hid. }
  destruct (ri_cur _ _ (proj1 Hi) c Hcur) as (b & Hbid & Hb & Hpos & _). rewrite Hbid.
  destruct (Z.ltb_spec (cur_pos c) (cur_len c)).
  { rewrite (bind_ok _ _ _ _ _ (on_br_eq _ (rs_rm x) _ _ _ (ring_buf_ok (rs_ring x) b Hb))).
    eexists _, _, kr. split; [reflexivity|]. by rewrite Hid. }
  destruct (cur_buf_more c) eqn:Hbm.
  - eexists _, None, kr. split; [reflexivity|]. cbn [fst snd]. apply cur_inv; try done.
    + by intros b' l (c' & Hc' & _).
    + intros b' (c' & Hc' & _ & Hm). rewrite Hcur in Hc'. injection Hc' as <-. by rewrite Hbm in Hm.
  - destruct (recv_done_inv x kr b c Hi Hpk Hcur Hbid Hbm Hb Hgen) as (r & kr' & Hr & Hinv).
    rewrite (bind_ok _ _ _ _ _ (on_br_eq _ (rs_rm x) _ _ _ Hr)). eexists _, None, kr'. split; [reflexivity|]. done.
Qed.

Lemma fill_arm_inv x kr :
  ring_inv x kr -> rs_parked x = false -> rm_op (rs_rm x) = false ->
  exists y, fill_arm (Ok tt) (rs_pair x) = (y, Ok tt) /\ ring_inv (rs_user x y (rs_q x) true false) kr.
Proof.
  intros [Hc Hpl] Hpk Hop. unfold fill_arm, rs_pair. rewrite get_bind, Hop. eexists. split; [reflexivity|].
  pose proof Hc as [C1 C2 C3 C5 C6 C7 C8 C9 C10 C11 C12].
  assert (existsb terminal (rs_q x) = false) as Hnt by (rewrite Hop in C6; symmetry in C6; by apply orb_false_elim in C6 as [_ ?]).
  split.
  - split; cbn; try done.
    + intros e q1 q2 Hq Ht. rewrite Hq, existsb_app in Hnt. cbn in Hnt. rewrite Ht, orb_true_r in Hnt. done.
    + lia.
    + intros [Hin|?]; [|done]. exfalso. apply list_elem_of_split in Hin as (q1 & q2 & Hq).
      rewrite Hq, existsb_app in Hnt. cbn in Hnt. by rewrite orb_true_r in Hnt.
  - intros b Hb. apply (place_frame x _ kr); try done. by apply Hpl.
Qed.

Lemma park_inv x kr t :
  ring_inv x kr -> rs_parked x = true ->
  exists y b, fill_park_poll t (rs_pair x) = (y, Ok b) /\
    ring_inv (rs_user x y (rs_q x) (rs_armed x) (negb b)) kr /\
    (b = false -> br_provide_waker y.2 = Some t /\ kr = []).
Proof.
  intros [Hc Hpl] Hpk. unfold fill_park_poll, rs_pair. rewrite get_bind. unfold on_br, wait_for_provide_poll.
  rewrite get_bind. pose proof Hc as [C1 C2 C3 C5 C6 C7 C8 C9 C10 C11 C12].
  destruct (Z.eqb_spec (br_provide_gen (rs_ring x)) (rm_armed_gen (rs_rm x))) as [Hg|Hg]; cbn [negb].
  - eexists _, false. split; [reflexivity|]. split; [|split; [done|by apply C9; [right|]]]. split.
    + destruct C1 as [W1 W2 W3 W4 W5 W6]. split; cbn; try done; [intros _ _; apply C9; [by right|done]|intros _; by apply C10].
    + intros b Hb. apply (place_frame x _ kr); try done. by apply Hpl.
  - eexists _, true. split; [reflexivity|]. split; [|done]. split.
    + split; cbn; try done.
    + intros b Hb. apply (place_frame x _ kr); try done. by apply Hpl.
Qed.

Lemma consume_inv x kr c n :
  ring_inv x kr -> rs_parked x = false -> rm_cur (rs_rm x) = Some c -> 0 <= n <= cur_len c - cur_pos c ->
  exists y, RingMode_consume n (rs_pair x) = (y, Ok tt) /\ ring_inv (rs_user x y (rs_q x) (rs_armed x) false) kr.
Proof.
  intros Hi Hpk Hcur Hn. unfold RingMode_consume, rs_pair. rewrite get_bind, Hcur.
  destruct (ri_cur _ _ (proj1 Hi) c Hcur) as (b & Hbid & Hb & Hpos & Hro).
  rewrite (bind_ok _ _ _ (rs_rm x, rs_ring x) c) by done.
  rewrite (bind_ok _ _ _ (rs_rm x, rs_ring x) tt) by (unfold lift, assert; by destruct (Z.leb_spec (cur_pos c + n) (cur_len c)); [|lia]).
  eexists. split; [reflexivity|]. cbn [fst snd]. apply cur_inv; try done.
  - intros b' l (c' & Hc' & H1 & H2). cbn in Hc'. injection Hc' as <-. by exists c.
  - intros b' (c' & Hc' & H1 & H2). rewrite Hcur in Hc'. injection Hc' as <-. eexists. split; [reflexivity|]. done.
  - intros c' [= <-]. exists b. cbn. split_and!; try done; lia.
Qed.

(** The completion at the front of the queue is removed. *)
Lemma queue_pop x kr e q (op : bool) :
  ring_core x kr -> rs_q x = e :: q -> rm_op (rs_rm x) = true -> op = negb (terminal e) ->
  op = rs_armed x || existsb terminal q /\
  (forall e' q1 q2, q = q1 ++ e' :: q2 -> terminal e' = true -> q2 = [] /\ rs_armed x = false) /\
  (terminal e = true -> q = [] /\ rs_armed x = false).
Proof.
  intros Hc Hq Hop ->. pose proof (ri_op _ _ Hc) as Ho. rewrite Hop, Hq in Ho. cbn in Ho.
  assert (terminal e = true -> q = [] /\ rs_armed x = false) as Ht by (intros Ht; by apply (ri_last _ _ Hc e [] q)).
  split_and!; [|intros e' q1 q2 Hq' Ht'; by apply (ri_last _ _ Hc e' (e :: q1) q2); [rewrite Hq, Hq'|]|done].
  destruct (terminal e); cbn in *; [|by rewrite <- Ho]. by destruct (Ht eq_refl) as [-> ->].
Qed.

(** What observing a chunk does to the reader and to the ring's offsets. *)
Definition chunk_rm (c : RecvChunk) (off : Z) (rm : RingMode) : RingMode :=
  rm_set_cur (Some {| cur_bid := rc_bid c; cur_off := off; cur_len := rc_len c; cur_pos := 0;
                      cur_buf_more := rc_buf_more c |})
    (if rc_more c then rm else rm_set_op false (rm_armed_gen rm) rm).
Definition chunk_ring (c : RecvChunk) (b : nat) (r : BufRing) : BufRing :=
  if rc_buf_more c then br_set_bufs (br_pending r) (br_awaiting r)
                          (<[b := roff r b + rc_len c]> (br_recv_off r)) r else r.

Lemma fill_chunk_eq rm r c b :
  ring_wf r -> (b < 2)%nat -> rc_bid c = Z.of_nat b -> 0 < rc_len c -> roff r b + rc_len c <= br_buf_size r ->
  fill_event (EvChunk c) (rm, r) = ((chunk_rm c (roff r b) rm, chunk_ring c b r),
    Ok (FWindow {| rw_addr := start r b + roff r b; rw_len := rc_len c; rw_bid := rc_bid c |})).
Proof.
  intros Hwf Hb Hbe Hl Hsz. pose proof (wf_len _ Hwf) as (L1 & L2 & L3 & L4).
  pose proof (wf_size _ Hwf) as Hs. pose proof (wf_roff _ Hwf b) as Hro. unfold fill_event.
  set (rm' := if rc_more c then rm else rm_set_op false (rm_armed_gen rm) rm).
  rewrite (bind_ok _ _ _ (rm', r) tt) by (unfold rm'; by destruct (rc_more c)).
  assert (recv_off (rc_bid c) r = (r, Ok (roff r b))) as Hoff.
  { unfold recv_off. rewrite get_bind. unfold lift. by rewrite Hbe, (cell_ok _ b 0). }
  rewrite (bind_ok _ _ _ _ _ (on_br_eq _ rm' _ _ _ Hoff)).
  rewrite (bind_ok _ _ _ (rm', chunk_ring c b r) tt).
  2: { unfold chunk_ring. destruct (rc_buf_more c); [|done]. apply on_br_eq. unfold recv_advance.
       rewrite (bind_ok _ _ _ _ _ Hoff). rewrite (bind_ok _ _ _ r (roff r b + rc_len c))
         by (unfold lift; rewrite checked_ok; [done|split; lia]). rewrite Hbe, bix_nat by done. done. }
  rewrite (bind_ok _ _ _ (chunk_rm c (roff r b) rm, chunk_ring c b r) tt) by done.
  rewrite Hbe at 1. rewrite (bind_ok _ _ _ _ _ (on_br_eq _ _ _ _ _ (ring_buf_ok _ b Hb))).
  assert (start (chunk_ring c b r) b = start r b) as ->; [|done]. unfold chunk_ring. by destruct (rc_buf_more c).
Qed.

(** The queue's next chunk is of a buffer the kernel has, or had, at the
    reader's offset. *)
Lemma chunk_where x kr c a q b :
  place x kr b -> rs_q x = KChunk c a :: q -> rc_bid c = Z.of_nat b ->
  exists fin, await (rs_ring x) b = false /\ a = start (rs_ring x) b + roff (rs_ring x) b /\ 0 < rc_len c /\
    roff (rs_ring x) b + rc_len c <= br_buf_size (rs_ring x) /\
    rc_buf_more c = (roff (rs_ring x) b + rc_len c <? br_buf_size (rs_ring x)) /\
    chunks (start (rs_ring x) b) (br_buf_size (rs_ring x)) (Z.of_nat b) q (roff (rs_ring x) b + rc_len c) fin /\
    ((b ∈ kr /\ fin = (if decide (head kr = Some b) then rs_off x else 0) /\ forall e, (b, e) ∈ rs_held x -> e <= fin) \/
     ((b ∉ kr) /\ fin = br_buf_size (rs_ring x))).
Proof.
  intros Hpl Hq Hbe. pose proof (proj2 (Z.eqb_eq _ _) Hbe) as Heq.
  destruct Hpl as [P1 P2 P3 P4|P1 P2 P3 P4 P5|P1 P2 P3 P4|P1 P2 P3 P4 P5]; rewrite Hq in *.
  - cbn [chunks] in P4. rewrite Heq in P4. destruct P4 as (?&?&?&?&?). eexists. split_and!; try done. by left.
  - cbn [chunks] in P4. rewrite Heq in P4. destruct P4 as (?&?&?&?&?). eexists. split_and!; try done. by right.
  - exfalso. by apply list.Forall_cons in P4 as [? _].
  - exfalso. by apply list.Forall_cons in P5 as [? _].
Qed.

Lemma chunk_ring_fields c b r :
  br_pending (chunk_ring c b r) = br_pending r /\ br_awaiting (chunk_ring c b r) = br_awaiting r /\
  br_buf_size (chunk_ring c b r) = br_buf_size r /\ br_provide_gen (chunk_ring c b r) = br_provide_gen r /\
  (forall b', start (chunk_ring c b r) b' = start r b') /\
  (forall h kr, in_ring r h kr -> in_ring (chunk_ring c b r) h kr).
Proof. unfold chunk_ring. by destruct (rc_buf_more c). Qed.

Lemma chunk_ring_roff c b r b' :
  ring_wf r -> (b < 2)%nat ->
  roff (chunk_ring c b r) b' = if decide (b' = b) then (if rc_buf_more c then roff r b + rc_len c else roff r b) else roff r b'.
Proof.
  intros Hwf Hb. unfold chunk_ring. destruct (rc_buf_more c); [|by case_decide; subst].
  unfold roff. cbn. apply nth_put; [apply (wf_len _ Hwf)|done].
Qed.

(** A buffer the observed chunk is not about. *)
Lemma chunk_place_other x kr c a q b b' :
  ring_wf (rs_ring x) -> place x kr b' -> rm_cur (rs_rm x) = None -> rs_q x = KChunk c a :: q ->
  rc_bid c = Z.of_nat b -> (b < 2)%nat -> b' <> b ->
  place (rs_user x (chunk_rm c (roff (rs_ring x) b) (rs_rm x), chunk_ring c b (rs_ring x)) q (rs_armed x) false) kr b'.
Proof.
  intros Hwf Hpl Hcur Hq Hbe Hb Hne. destruct (chunk_ring_fields c b (rs_ring x)) as (F1 & F2 & F3 & F4 & F5 & _).
  assert (rc_bid c <> Z.of_nat b') as Hbn by lia. pose proof (proj2 (Z.eqb_neq _ _) Hbn) as Heq.
  assert (roff (chunk_ring c b (rs_ring x)) b' = roff (rs_ring x) b') as Hro
    by (rewrite chunk_ring_roff, decide_False by done; done).
  assert (forall l, ~ in_hand (chunk_rm c (roff (rs_ring x) b) (rs_rm x)) b' l) as Hnh.
  { intros l (c' & Hc' & Hb' & _). cbn in Hc'. injection Hc' as <-. cbn in Hb'. lia. }
  destruct Hpl as [P1 P2 P3 P4|P1 P2 P3 P4 P5|P1 P2 P3 P4|P1 P2 P3 P4 P5]; rewrite Hq in *.
  - cbn [chunks] in P4. rewrite Heq in P4. apply with_kernel; cbn [rs_user rs_ring rs_rm rs_q rs_off fst snd];
      unfold await in *; rewrite ?F2, ?F3, ?F5, ?Hro; done.
  - cbn [chunks] in P4. rewrite Heq in P4. apply queued_full; cbn [rs_user rs_ring rs_rm rs_q rs_off fst snd];
      unfold await in *; rewrite ?F2, ?F3, ?F5, ?Hro; done.
  - destruct P3 as (c' & Hc' & _). congruence.
  - apply list.Forall_cons in P5 as [_ P5]. apply borrowed; cbn [rs_user rs_ring rs_rm rs_q rs_off fst snd];
      unfold await, pend in *; rewrite ?F1, ?F2; done.
Qed.

(** The buffer it is about: more to come, or drained with this chunk. *)
Lemma chunk_place_same x kr c a q b :
  ring_core x kr -> place x kr b -> rs_q x = KChunk c a :: q -> rc_bid c = Z.of_nat b -> (b < 2)%nat ->
  place (rs_user x (chunk_rm c (roff (rs_ring x) b) (rs_rm x), chunk_ring c b (rs_ring x)) q (rs_armed x) false) kr b.
Proof.
  intros Hc Hpl Hq Hbe Hb. pose proof (ri_wf _ _ Hc) as Hwf. destruct (ri_off _ _ Hc) as [Hoff _].
  destruct (chunk_ring_fields c b (rs_ring x)) as (F1 & F2 & F3 & F4 & F5 & _).
  destruct (chunk_where x kr c a q b Hpl Hq Hbe) as (fin & Haw & _ & Hl & Hsz & Hbm & Hrest & Hwhere).
  assert (forall l, in_hand (chunk_rm c (roff (rs_ring x) b) (rs_rm x)) b l <-> l = negb (rc_buf_more c)) as Hh.
  { intros l. split.
    - intros (c' & Hc' & _ & Hm). cbn in Hc'. injection Hc' as <-. cbn in Hm. rewrite Hm. by rewrite negb_involutive.
    - intros ->. eexists. split; [reflexivity|]. cbn. by rewrite negb_involutive. }
  pose proof (chunk_ring_roff c b (rs_ring x) b Hwf Hb) as Hro. rewrite decide_True in Hro by done.
  destruct (Z.ltb_spec (roff (rs_ring x) b + rc_len c) (br_buf_size (rs_ring x))) as [Hlt|Hge]; rewrite Hbm in *; cbn in Hh.
  - destruct Hwhere as [(Hin & -> & Hheld)|(Hni & ->)];
      [apply with_kernel|apply queued_full]; cbn [rs_user rs_ring rs_rm rs_q rs_off fst snd];
      unfold await in *; rewrite ?F2, ?F3, ?F5, ?Hro, ?Hh; done.
  - assert (roff (rs_ring x) b + rc_len c = br_buf_size (rs_ring x)) as He by lia. rewrite He in Hrest.
    apply chunks_full in Hrest as [Hfin Hno]. destruct Hwhere as [(Hin & Hf & _)|(Hni & _)].
    + exfalso. rewrite Hf in Hfin. case_decide; lia.
    + apply drained_hand; cbn [rs_user rs_ring rs_rm rs_q rs_off fst snd]; unfold await in *; rewrite ?F2, ?Hh; done.
Qed.

(** A chunk is observed: its window is where the kernel put it. *)
Lemma chunk_inv x kr c a q :
  ring_inv x kr -> rm_cur (rs_rm x) = None -> rm_op (rs_rm x) = true -> rs_q x = KChunk c a :: q ->
  rs_parked x = false ->
  exists y, fill_event (EvChunk c) (rs_pair x) =
      (y, Ok (FWindow {| rw_addr := a; rw_len := rc_len c; rw_bid := rc_bid c |})) /\
    ring_inv (rs_user x y q (rs_armed x) false) kr.
Proof.
  intros [Hc Hpl] Hcur Hop Hq Hpk. pose proof Hc as [C1 C2 C3 C5 C6 C7 C8 C9 C10 C11 C12].
  assert (0 <= rc_bid c < 2) as Hbid by (apply (C12 c a); rewrite Hq; left).
  set (b := Z.to_nat (rc_bid c)). assert (rc_bid c = Z.of_nat b) as Hbe by (unfold b; lia).
  assert (b < 2)%nat as Hb by (unfold b; lia). clearbody b.
  destruct (queue_pop x kr _ q (rc_more c) Hc Hq Hop) as (Hop' & Hlast & Ht); [cbn; by rewrite negb_involutive|].
  destruct (chunk_where x kr c a q b (Hpl b Hb) Hq Hbe) as (fin & Haw & -> & Hl & Hsz & Hbm & Hrest & Hwhere).
  eexists. split; [by apply fill_chunk_eq|]. cbn [fst snd].
  destruct (chunk_ring_fields c b (rs_ring x)) as (F1 & F2 & F3 & F4 & F5 & F6). split.
  2: { intros b' Hb'. destruct (decide (b' = b)) as [->|Hne];
         [by eapply chunk_place_same; [|apply Hpl|..]|by eapply chunk_place_other; [|apply Hpl|..]]. }
  pose proof (wf_len _ C1) as (L1 & L2 & L3 & L4).
  split; cbn [rs_user rs_rm rs_ring rs_head rs_off rs_armed rs_q rs_parked fst snd]; rewrite ?F3, ?F4; try done.
  - unfold chunk_ring. destruct (rc_buf_more c); [|done]. apply wf_bufs; try done; [by rewrite length_insert|apply (wf_pend _ C1)|].
    intros b'. rewrite nth_put by done. destruct (decide (b' = b)); [|apply (wf_roff _ C1)]. pose proof (wf_roff _ C1 b). lia.
  - by apply F6.
  - intros c' Hc'. cbn in Hc'. injection Hc' as <-. exists b. cbn. split_and!; try done; try lia.
    intros Hm. rewrite chunk_ring_roff, decide_True by done. by rewrite Hm.
  - rewrite <- Hop'. unfold chunk_rm. cbn. by destruct (rc_more c).
  - unfold chunk_rm. cbn. by destruct (rc_more c).
  - intros [Hin|?]; [|done]. unfold chunk_rm. cbn. intros Hg. apply C9; [left; rewrite Hq; by right|].
    by destruct (rc_more c).
  - intros n Hin. apply C11. rewrite Hq. by right.
  - intros c' a Hin. apply (C12 c' a). rewrite Hq. by right.
  - intros b'. unfold pend. rewrite F1. apply (ri_held _ _ Hc).
Qed.

(** The group is dry: the reader parks. *)
Lemma nobufs_inv x kr q :
  ring_inv x kr -> rm_cur (rs_rm x) = None -> rm_op (rs_rm x) = true -> rs_q x = KNoBufs :: q ->
  exists y, fill_event (EvErr ENOBUFS) (rs_pair x) = (y, Ok FPark) /\ ring_inv (rs_user x y q (rs_armed x) true) kr.
Proof.
  intros [Hc Hpl] Hcur Hop Hq. pose proof Hc as [C1 C2 C3 C5 C6 C7 C8 C9 C10 C11 C12].
  destruct (queue_pop x kr _ q false Hc Hq Hop eq_refl) as (Hop' & Hlast & Ht). destruct (Ht eq_refl) as [-> Ha].
  eexists. split; [reflexivity|]. split.
  - split; cbn; rewrite ?Ha; try done.
    + by intros e [|? ?] q2 ?.
    + intros _ Hg. apply C9; [left; rewrite Hq; left|done].
    + by intros n ?%elem_of_nil.
    + by intros c a ?%elem_of_nil.
  - intros b Hb. destruct (Hpl b Hb) as [P1 P2 P3 P4|P1 P2 P3 P4 P5|P1 P2 P3 P4|P1 P2 P3 P4 P5]; rewrite Hq in *.
    + by apply with_kernel.
    + by apply queued_full.
    + destruct P3 as (c' & Hc' & _). congruence.
    + apply borrowed; cbn; try done. constructor.
Qed.


(** ** The invariant holds *)

Lemma build_inv bgid owned fixed bytes data reg r :
  0 <= data -> 0 < ring_buf_size bytes < 2 ^ 32 -> data + 2 * ring_buf_size bytes < 2 ^ 64 ->
  build bgid owned fixed bytes data reg true = Ok r ->
  ring_inv {| rs_rm := RingMode_new; rs_ring := r; rs_head := 0; rs_off := 0; rs_armed := false;
              rs_q := []; rs_parked := false; rs_held := [] |} [0%nat; 1%nat].
Proof.
  intros Hd Hs Ha. unfold build. destruct (register_all fixed reg 2 0 []) as [idx|e|]; [|done..].
  cbn [mbind res_bind negb]. set (r0 := {| br_bgid := bgid |}).
  assert (wrap 32 (ring_buf_size bytes) = ring_buf_size bytes) as Hw by (apply wrap_small; split; lia).
  assert (ring_wf r0) as W0.
  { split; cbn; rewrite ?Hw; try done; try lia.
    - intros [|[|[|?]]]; cbn; lia.
    - intros [|[|[|?]]]; cbn; lia. }
  assert (in_ring r0 0 []) as R0.
  { split_and!; try done; [constructor|by intros ? ?%elem_of_nil]. }
  destruct (provide_ok r0 0 [] 0 W0 R0) as (r1 & Hr1 & W1 & R1 & V1); [lia|by intros ?%elem_of_nil|done|done|].
  destruct (provide_ok r1 0 [0%nat] 1 W1 R1) as (r2 & Hr2 & W2 & R2 & V2); [lia| | | |].
  { by intros ?%list_elem_of_singleton. }
  { unfold pend. by rewrite (pv_pending _ _ _ V1). }
  { by rewrite (pv_gen _ _ _ V1). }
  change (kernel_provide 0 r0) with (kernel_provide (Z.of_nat 0) r0). rewrite (bind_ok _ _ _ _ _ Hr1).
  change 1 with (Z.of_nat 1). rewrite Hr2. intros [= <-].
  destruct V1 as [(G1 & G2 & _) V11 V12 V13 V14 _], V2 as [(G3 & G4 & _) V21 V22 V23 V24 _].
  assert (forall b, (b < 2)%nat -> await r2 b = false /\ roff r2 b = 0) as Hz.
  { intros b Hb. unfold await, roff. rewrite V22, V12, V23, V13. destruct b as [|[|]]; [done|done|lia]. }
  split.
  - split; cbn; try done.
    + rewrite G4, G2. cbn. rewrite Hw. lia.
    + by intros e [|? ?] q2 ?.
    + rewrite V24, V14. cbn. lia.
    + intros [Hin%elem_of_nil|?]; done.
    + by intros n ?%elem_of_nil.
    + by intros c a ?%elem_of_nil.
    + intros b. unfold pend. rewrite V21, V11. by destruct b as [|[|[|?]]].
  - intros b Hb. destruct (Hz b Hb) as [Hz1 Hz2]. apply with_kernel; cbn; [|done| | |by intros e ?%elem_of_nil].
    + apply list_elem_of_lookup. exists b. destruct b as [|[|]]; [done|done|lia].
    + by intros (c & Hc & _).
    + rewrite Hz2. by case_decide.
Qed.

Lemma ring_step_inv x y kr :
  ring_inv x kr -> br_provide_gen (rs_ring x) < 2 ^ 64 - 1 -> ring_step x y -> exists kr', ring_inv y kr'.
Proof.
  intros Hi Hgen Hs. destruct Hs as [e len more Ha Hh He Hl Hle|Ha Hh|e Ha He|y w Hf Hpk|y Hcur Hop Hpk Hf
    |e q y f Hcur Hop Hq Hpk Hf Hne|t y b Hpk Hf|n y Hn Hpk Hf|c r Hcur Hf|b e h1 h2 r Hheld Hf].
  - by apply (receive_inv x kr e len more).
  - exists kr. apply push_plain; try done. intros _. by apply (ring_head _ _ _ (ri_ring _ _ (proj1 Hi)) (ri_wf _ _ (proj1 Hi))).
  - exists kr. destruct He as [->|(n & -> & Hn)]; apply push_plain; try done. by intros ? [= <-].
  - destruct (fill_current_inv x kr Hi Hpk Hgen) as (y' & w' & kr' & Hf' & Hinv). rewrite Hf in Hf'.
    injection Hf' as <- _. by exists kr'.
  - destruct (fill_arm_inv x kr Hi Hpk Hop) as (y' & Hf' & Hinv). rewrite Hf in Hf'. injection Hf' as <-. by exists kr.
  - destruct e as [c a| |n|]; cbn [event_of] in Hf.
    + destruct (chunk_inv x kr c a q Hi Hcur Hop Hq Hpk) as (y' & Hf' & Hinv). rewrite Hf in Hf'.
      injection Hf' as <- ->. by exists kr.
    + destruct (nobufs_inv x kr q Hi Hcur Hop Hq) as (y' & Hf' & Hinv). rewrite Hf in Hf'. injection Hf' as <- ->.
      by exists kr.
    + exfalso. unfold fill_event in Hf. destruct (Z.eqb_spec n ENOBUFS) as [->|]; [|done].
      by apply (ri_err _ _ (proj1 Hi) ENOBUFS); [rewrite Hq; left|].
    + injection Hf as _ <-. done.
  - destruct (park_inv x kr t Hi Hpk) as (y' & b' & Hf' & Hinv & _). rewrite Hf in Hf'. injection Hf' as <- <-. by exists kr.
  - destruct (rm_cur (rs_rm x)) as [c|] eqn:Hcur; [|unfold RingMode_consume, rs_pair in Hf; rewrite get_bind, Hcur in Hf; done].
    assert (n <= cur_len c - cur_pos c) as Hle.
    { unfold RingMode_consume, rs_pair in Hf. rewrite get_bind, Hcur in Hf. unfold mbind, M_bind, lift, assert in Hf. cbn in Hf.
      destruct (Z.leb_spec (cur_pos c + n) (cur_len c)); [lia|done]. }
    destruct (consume_inv x kr c n Hi Hpk Hcur) as (y' & Hf' & Hinv); [lia|]. rewrite Hf in Hf'. injection Hf' as <-. by exists kr.
  - destruct (ri_cur _ _ (proj1 Hi) c Hcur) as (b & Hbid & Hb & _). rewrite Hbid in Hf.
    assert (pend (rs_ring x) b < 2 ^ 32 - 1) as Hlt.
    { pose proof (wf_len _ (ri_wf _ _ (proj1 Hi))) as (L1 & _). unfold borrow in Hf. rewrite get_bind in Hf.
      rewrite (bind_ok _ _ _ (rs_ring x) (pend (rs_ring x) b)) in Hf by (unfold lift; by rewrite (cell_ok _ b 0)).
      unfold mbind, M_bind, lift, checked in Hf. destruct (decide (in_u 32 (pend (rs_ring x) b + 1))) as [[_ ?]|]; [lia|done]. }
    destruct (borrow_inv x kr b c Hi Hb Hcur Hbid Hlt) as (r' & Hf' & Hinv).
    rewrite Hf in Hf'. injection Hf' as <-. exists kr. by rewrite Hbid, bix_nat.
  - assert (b < 2)%nat as Hb2.
    { pose proof (wf_len _ (ri_wf _ _ (proj1 Hi))) as (L1 & _). pose proof (ri_held _ _ (proj1 Hi) b) as Hc.
      rewrite Hheld, held_of_app in Hc. cbn [held_of fst] in Hc. rewrite decide_True in Hc by done.
      destruct (decide (b < 2)%nat) as [|Hge]; [done|]. unfold pend in Hc. rewrite nth_overflow in Hc by lia. lia. }
    destruct (release_inv x kr b e h1 h2 Hi Hb2 Hheld Hgen) as (r' & kr' & Hf' & Hinv & _). rewrite Hf in Hf'. injection Hf' as <-.
    by exists kr'.
Qed.

Lemma ring_reach_inv x : ring_reach x -> exists kr, ring_inv x kr.
Proof.
  induction 1 as [bgid owned fixed bytes data reg r H1 H2 H3 Hb|x y _ (kr & IH) Hg Hs].
  - eexists. by eapply build_inv.
  - by eapply ring_step_inv.
Qed.

(** ** The claims *)

Lemma chunks_bound s sz b q o fin c a :
  chunks s sz b q o fin -> KChunk c a ∈ q -> rc_bid c = b -> a + rc_len c <= s + fin.
Proof.
  intros H Hin Hb. revert o H. induction q as [|e q IH]; intros o H; [by apply elem_of_nil in Hin|].
  apply elem_of_cons in Hin as [<-|Hin].
  - cbn in H. rewrite (proj2 (Z.eqb_eq _ _) Hb) in H. destruct H as (-> & _ & _ & _ & H%chunks_le). lia.
  - destruct e as [c' a'| | |]; cbn in H; try (by eapply (IH Hin)).
    destruct (rc_bid c' =? b); [|by eapply (IH Hin)]. destruct H as (_ & _ & _ & _ & H). by eapply (IH Hin).
Qed.

(** C34. The kernel may only write where nobody looks.  In every reachable state
    of reader, ring, kernel and the writes that borrow from the ring, an entry
    between the kernel's head and the tail is one of the two buffers, whole and at
    its address, and is not waiting for a borrow to end; the region the kernel may
    still fill in it lies behind the chunk in hand, behind every chunk received
    but not yet looked at, and behind every region that a write still borrows from
    it (the ring counts exactly those borrows), so a buffer is handed back whole
    only when its last borrow has ended.  (The provide generation does not wrap.) *)
Theorem ring_exclusive x i e :
  ring_reach x -> 0 <= i < wrap 16 (br_shared_tail (rs_ring x) - rs_head x) ->
  br_entries (rs_ring x) !! bix (rs_head x + i) = Some e ->
  exists b, (b < 2)%nat /\ be_bid e = Z.of_nat b /\ be_addr e = start (rs_ring x) b /\
    be_len e = br_buf_size (rs_ring x) /\ await (rs_ring x) b = false /\
    let free := start (rs_ring x) b + (if i =? 0 then rs_off x else 0) in
    (forall c, rm_cur (rs_rm x) = Some c -> cur_bid c = Z.of_nat b ->
       start (rs_ring x) b + cur_off c + cur_len c <= free) /\
    (forall c a, KChunk c a ∈ rs_q x -> rc_bid c = Z.of_nat b -> a + rc_len c <= free) /\
    (forall fin, (b, fin) ∈ rs_held x -> start (rs_ring x) b + fin <= free) /\
    pend (rs_ring x) b = Z.of_nat (held_of b (rs_held x)).
Proof.
  intros Hr Hi He. destruct (ring_reach_inv x Hr) as (kr & Hc & Hpl).
  destruct (ri_ring _ _ Hc) as (_ & Hw & Hn & Hk & Hent). rewrite (proj2 (wf_tail _ (ri_wf _ _ Hc))), Hw in Hi.
  destruct (lookup_lt_is_Some_2 kr (Z.to_nat i)) as [b Hb]; [lia|].
  pose proof (Hent _ b Hb) as He'. rewrite Z2Nat.id, He in He' by lia. injection He' as ->.
  assert (b ∈ kr) as Hin by (by apply list_elem_of_lookup; exists (Z.to_nat i)).
  exists b. split; [by apply Hk|]. split; [done|]. split; [done|]. split; [done|].
  assert ((if decide (head kr = Some b) then rs_off x else 0) = (if i =? 0 then rs_off x else 0)) as Hfin.
  { destruct (Z.eqb_spec i 0) as [->|Hne].
    - rewrite decide_True; [done|]. destruct kr; [done|]. cbn in *. done.
    - rewrite decide_False; [done|]. intros Hh. apply Hne. destruct kr as [|k kr]; [done|]. cbn in Hh. injection Hh as ->.
      pose proof (NoDup_lookup _ 0%nat (Z.to_nat i) b Hn eq_refl Hb). lia. }
  pose proof (fun c => hand_behind x kr b c Hc (Hpl b (Hk b Hin)) Hin) as Hhand. rewrite Hfin in Hhand.
  destruct (Hpl b (Hk b Hin)) as [_ P2 P3 P4 P5|P1 _ _ _ _|P1 _ _ _|P1 _ _ _ _]; try done.
  rewrite Hfin in P4, P5. split; [done|]. intros free. unfold free. split_and!.
  - intros c Hcur Hbid. specialize (Hhand c Hcur Hbid). lia.
  - intros c a Hin' Hbid. by eapply chunks_bound.
  - intros fin Hf%P5. lia.
  - apply (ri_held _ _ Hc).
Qed.

(** The reader never trips over the ring.  In every reachable state, putting
    the chunk in hand away, arming, observing the next completion, parking,
    consuming, borrowing and releasing return; and a chunk's window, rebuilt
    from the running offset, is exactly the address the kernel received it at. *)
Theorem ring_reader_safe x :
  ring_reach x -> br_provide_gen (rs_ring x) < 2 ^ 64 - 1 ->
  (rs_parked x = true -> forall t, exists y b, fill_park_poll t (rs_pair x) = (y, Ok b)) /\
  (rs_parked x = false ->
     (exists y w, fill_current (rs_pair x) = (y, Ok w)) /\
     (rm_op (rs_rm x) = false -> exists y, fill_arm (Ok tt) (rs_pair x) = (y, Ok tt)) /\
     (forall c a q, rm_cur (rs_rm x) = None -> rm_op (rs_rm x) = true -> rs_q x = KChunk c a :: q ->
        exists y, fill_event (EvChunk c) (rs_pair x) =
          (y, Ok (FWindow {| rw_addr := a; rw_len := rc_len c; rw_bid := rc_bid c |}))) /\
     (forall c n, rm_cur (rs_rm x) = Some c -> 0 <= n <= cur_len c - cur_pos c ->
        exists y, RingMode_consume n (rs_pair x) = (y, Ok tt))) /\
  (forall c, rm_cur (rs_rm x) = Some c -> pend (rs_ring x) (bix (cur_bid c)) < 2 ^ 32 - 1 ->
     exists r, borrow (cur_bid c) (rs_ring x) = (r, Ok tt)) /\
  (forall b, (b < 2)%nat -> 0 < pend (rs_ring x) b -> exists r, release (Z.of_nat b) (rs_ring x) = (r, Ok tt)).
Proof.
  intros Hr Hg. destruct (ring_reach_inv x Hr) as (kr & Hi). split_and!.
  - intros Hpk t. destruct (park_inv x kr t Hi Hpk) as (y & b & Hf & _). by exists y, b.
  - intros Hpk. split_and!.
    + destruct (fill_current_inv x kr Hi Hpk Hg) as (y & w & _ & Hf & _). by exists y, w.
    + intros Hop. destruct (fill_arm_inv x kr Hi Hpk Hop) as (y & Hf & _). by exists y.
    + intros c a q Hcur Hop Hq. destruct (chunk_inv x kr c a q Hi Hcur Hop Hq Hpk) as (y & Hf & _). by exists y.
    + intros c n Hcur Hn. destruct (consume_inv x kr c n Hi Hpk Hcur Hn) as (y & Hf & _). by exists y.
  - intros c Hcur Hlt. destruct (ri_cur _ _ (proj1 Hi) c Hcur) as (b & Hbid & Hb & _). rewrite Hbid in *.
    rewrite bix_nat in Hlt by done.
    destruct (borrow_inv x kr b c Hi Hb Hcur Hbid Hlt) as (r & Hf & _). by exists r.
  - intros b Hb Hpos. rewrite (ri_held _ _ (proj1 Hi)) in Hpos. destruct (held_of_pos b (rs_held x)) as (e & h1 & h2 & Hh); [lia|].
    destruct (release_inv x kr b e h1 h2 Hi Hb Hh Hg) as (r & _ & Hf & _). by exists r.
Qed.

(** A parked reader is always woken.  If the reader parks because the group
    ran dry (no buffer came back since it armed), then both buffers are held by
    writes that borrow them, and the release of a buffer's last borrow hands it
    to the kernel, bumps the generation and wakes the reader: neither a lost
    wake-up nor a wait for a buffer that is already back. *)
Theorem ring_park_wakes x t y :
  ring_reach x -> br_provide_gen (rs_ring x) < 2 ^ 64 - 1 -> rs_parked x = true ->
  fill_park_poll t (rs_pair x) = (y, Ok false) ->
  forall b, (b < 2)%nat ->
    await y.2 b = true /\ 0 < pend y.2 b /\
    (pend y.2 b = 1 -> exists r, release (Z.of_nat b) y.2 = (r, Ok tt) /\ br_woken r = br_woken y.2 ++ [t] /\
       wait_for_provide_poll (rm_armed_gen y.1) t r = (r, Ok true)).
Proof.
  intros Hr Hg Hpk Hf b Hb. destruct (ring_reach_inv x Hr) as (kr & Hi).
  destruct (park_inv x kr t Hi Hpk) as (y' & b' & Hf' & Hinv & Hwk). rewrite Hf in Hf'. injection Hf' as <- <-.
  destruct (Hwk eq_refl) as [Hw ->]. destruct y as [rm r]. cbn [fst snd] in *.
  destruct (ri_parked _ _ (proj1 Hinv) eq_refl) as (Hq & Hcur & _). cbn in Hq, Hcur.
  assert (await r b = true /\ 0 < pend r b) as [Haw Hp].
  { destruct (proj2 Hinv b Hb) as [P1 _ _ _|_ _ _ P4 P5|_ _ P3 _|_ P2 P3 _ _]; cbn in *.
    - by apply elem_of_nil in P1.
    - rewrite Hq in P4. cbn in P4. lia.
    - destruct P3 as (c & Hc & _). congruence.
    - done. }
  split; [done|]. split; [done|]. intros H1.
  assert (br_provide_gen r < 2 ^ 64 - 1) as Hg'.
  { revert Hf. unfold fill_park_poll, rs_pair. rewrite get_bind. unfold on_br, wait_for_provide_poll. rewrite get_bind.
    unfold mbind, M_bind, modify, mret, M_ret.
    destruct (br_provide_gen (rs_ring x) =? rm_armed_gen (rs_rm x)); cbn [negb]; intros Hf;
      apply (f_equal (fun z => br_provide_gen z.1.2)) in Hf; cbn in Hf; rewrite <- Hf; exact Hg. }
  pose proof Hp as Hp'. rewrite (ri_held _ _ (proj1 Hinv) b : pend r b = _) in Hp'. destruct (held_of_pos b (rs_held x)) as (e & h1 & h2 & Hh);
    [cbn in Hp'; lia|].
  destruct (release_inv _ _ b e h1 h2 Hinv Hb Hh Hg') as (r' & kr' & Hrel & Hinv' & Hfin). cbn in Hrel.
  destruct (Hfin H1 Haw) as (_ & Hwoken & ->). cbn in Hwoken. exists r'. split; [done|]. rewrite Hwoken, Hw. split; [done|].
  unfold wait_for_provide_poll. rewrite get_bind. pose proof (ri_dry _ _ (proj1 Hinv') (or_intror eq_refl)) as Hd. cbn in Hd.
  destruct (Z.eqb_spec (br_provide_gen r') (rm_armed_gen rm)) as [He|]; [|done]. by specialize (Hd (eq_sym He)).
Qed.

Inductive rop :=
| RReceive (len : Z) (more : bool)
| RDrained
| RCurrent
| RArm
| REvent
| RPark (t : nat)
| RConsume (n : Z)
| RBorrow
| RRelease (i : nat).

Definition user_turn {A} (x : rsys) (m : MRing A) (q : list KEv) (armed : bool) (parked : A -> bool) : option rsys :=
  match m (rs_pair x) with (y, Ok a) => Some (rs_user x y q armed (parked a)) | _ => None end.

Definition ring_do (o : rop) (x : rsys) : option rsys :=
  match o with
  | RReceive len more =>
      e ← br_entries (rs_ring x) !! bix (rs_head x);
      if rs_armed x && negb (rs_head x =? br_shared_tail (rs_ring x)) && (0 <? len) && (rs_off x + len <=? be_len e)
      then let full := negb (rs_off x + len <? be_len e) in
        Some (rs_kernel x (if full then wrap 16 (rs_head x + 1) else rs_head x)
                          (if full then 0 else rs_off x + len) more
                (KChunk {| rc_bid := be_bid e; rc_len := len; rc_more := more; rc_buf_more := negb full |}
                   (be_addr e + rs_off x)))
      else None
  | RDrained =>
      if rs_armed x && (rs_head x =? br_shared_tail (rs_ring x))
      then Some (rs_kernel x (rs_head x) (rs_off x) false KNoBufs) else None
  | RCurrent => if rs_parked x then None else user_turn x fill_current (rs_q x) (rs_armed x) (fun _ => false)
  | RArm =>
      match rm_cur (rs_rm x), rm_op (rs_rm x), rs_parked x with
      | None, false, false => user_turn x (fill_arm (Ok tt)) (rs_q x) true (fun _ => false)
      | _, _, _ => None
      end
  | REvent =>
      match rm_cur (rs_rm x), rm_op (rs_rm x), rs_parked x, rs_q x with
      | None, true, false, e :: q =>
          match fill_event (event_of e) (rs_pair x) with
          | (y, Ok FEof) => None
          | (y, Ok f) => Some (rs_user x y q (rs_armed x) (match f with FPark => true | _ => false end))
          | _ => None
          end
      | _, _, _, _ => None
      end
  | RPark t => if rs_parked x then user_turn x (fill_park_poll t) (rs_q x) (rs_armed x) negb else None
  | RConsume n => if rs_parked x || (n <? 0) then None
                  else user_turn x (RingMode_consume n) (rs_q x) (rs_armed x) (fun _ => false)
  | RBorrow =>
      c ← rm_cur (rs_rm x);
      match borrow (cur_bid c) (rs_ring x) with
      | (r, Ok tt) => Some (rs_hold x r ((bix (cur_bid c), cur_off c + cur_len c) :: rs_held x))
      | _ => None
      end
  | RRelease i =>
      match drop i (rs_held x) with
      | (b, _) :: h2 =>
          match release (Z.of_nat b) (rs_ring x) with
          | (r, Ok tt) => Some (rs_hold x r (take i (rs_held x) ++ h2))
          | _ => None
          end
      | [] => None
      end
  end.

Lemma user_turn_Some {A} x (m : MRing A) q a p z :
  user_turn x m q a p = Some z -> exists y v, m (rs_pair x) = (y, Ok v) /\ z = rs_user x y q a (p v).
Proof. unfold user_turn. destruct (m (rs_pair x)) as [y [v|e|]]; try done. intros [= <-]. by exists y, v. Qed.

Lemma ring_do_step o x y : ring_do o x = Some y -> ring_step x y.
Proof.
  destruct o; cbn [ring_do].
  - destruct (br_entries _ !! _) as [e|] eqn:He; [|done]. cbn [mbind option_bind].
    destruct (rs_armed x) eqn:Ha; [|done]. destruct (Z.eqb_spec (rs_head x) (br_shared_tail (rs_ring x))); [done|].
    destruct (Z.ltb_spec 0 len); [|done]. destruct (Z.leb_spec (rs_off x + len) (be_len e)); [|done].
    intros [= <-]. by apply k_receive.
  - destruct (rs_armed x) eqn:Ha; [|done]. destruct (Z.eqb_spec (rs_head x) (br_shared_tail (rs_ring x))); [|done].
    intros [= <-]. by apply k_drained.
  - destruct (rs_parked x) eqn:Hp; [done|]. intros (y' & v & Hm & ->)%user_turn_Some. by eapply u_current.
  - destruct (rm_cur (rs_rm x)) eqn:?, (rm_op (rs_rm x)) eqn:?, (rs_parked x) eqn:?; try done.
    intros (y' & [] & Hm & ->)%user_turn_Some. by apply u_arm.
  - destruct (rm_cur (rs_rm x)) eqn:?, (rm_op (rs_rm x)) eqn:?, (rs_parked x) eqn:?, (rs_q x) as [|e q] eqn:Hq; try done.
    destruct (fill_event _ _) as [y' [[w| |]|err|]] eqn:Hf; try done; intros [= <-].
    + by eapply (u_event x e q y' (FWindow w)).
    + by eapply (u_event x e q y' FPark).
  - destruct (rs_parked x) eqn:Hp; [|done]. intros (y' & v & Hm & ->)%user_turn_Some. by eapply u_park.
  - destruct (rs_parked x) eqn:Hp; [done|]. cbn [orb]. destruct (Z.ltb_spec n 0); [done|].
    intros (y' & [] & Hm & ->)%user_turn_Some. by eapply u_consume.
  - destruct (rm_cur (rs_rm x)) as [c|] eqn:Hc; [|done]. cbn [mbind option_bind].
    destruct (borrow _ _) as [r [[]|e|]] eqn:Hb; try done. intros [= <-]. by eapply u_borrow.
  - destruct (drop i (rs_held x)) as [|[b e] h2] eqn:Hd; [done|].
    destruct (release _ _) as [r [[]|er|]] eqn:Hb; try done. intros [= <-].
    apply (u_release x b e); [|done]. rewrite <- Hd. symmetry. apply take_drop.
Qed.

(** A run, stopped if the generation counter is about to wrap. *)
Fixpoint ring_run (l : list rop) (x : rsys) : option rsys :=
  match l with
  | [] => Some x
  | o :: l => if br_provide_gen (rs_ring x) <? 2 ^ 64 - 1 then y ← ring_do o x; ring_run l y else None
  end.

Lemma ring_run_reach l : forall x y, ring_reach x -> ring_run l x = Some y -> ring_reach y.
Proof.
  induction l as [|o l IH]; intros x y Hx; cbn [ring_run]; [congruence|].
  destruct (Z.ltb_spec (br_provide_gen (rs_ring x)) (2 ^ 64 - 1)); [|done].
  destruct (ring_do o x) as [z|] eqn:Hz; [|done]. cbn [mbind option_bind]. apply IH.
  eapply ring_more; [done..|]. by eapply ring_do_step.
Qed.

(** Two pages, a page each. *)
Definition demo_ring : BufRing :=
  Eval vm_compute in match build 0 false false 8192 0x10000 (fun _ => None) true with Ok r => r | _ => {|
    br_bgid := 0; br_bgid_owned := false; br_data := 0; br_buf_size := 0; br_entries := []; br_tail := 0;
    br_shared_tail := 0; br_pending := []; br_awaiting := []; br_recv_off := []; br_provide_gen := 0;
    br_provide_waker := None; br_buf_index := []; br_woken := [] |} end.
Definition demo_start : rsys :=
  {| rs_rm := RingMode_new; rs_ring := demo_ring; rs_head := 0; rs_off := 0; rs_armed := false;
     rs_q := []; rs_parked := false; rs_held := [] |}.

Lemma demo_start_reach : ring_reach demo_start.
Proof. eapply (ring_init 0 false false 8192 0x10000 (fun _ => None)); [lia|by vm_compute..]. Qed.

(** Two chunks in the first buffer, one of them read and borrowed; the kernel
    runs on in the same buffer. *)
Definition busy_ops : list rop := [RArm; RReceive 100 true; RReceive 50 true; REvent; RBorrow; RConsume 60].
Definition busy : rsys := Eval vm_compute in default demo_start (ring_run busy_ops demo_start).

Lemma busy_reach : ring_reach busy.
Proof. eapply (ring_run_reach busy_ops); [apply demo_start_reach|by vm_compute]. Qed.

(** Both buffers filled, read and held by writes: the reader parks. *)
Definition dry_ops : list rop :=
  [RArm; RReceive 4096 true; RReceive 4096 true; RDrained; REvent; RBorrow; RConsume 4096; RCurrent; REvent; RBorrow;
   RConsume 4096; RCurrent; REvent].
Definition dry : rsys := Eval vm_compute in default demo_start (ring_run dry_ops demo_start).

Lemma dry_reach : ring_reach dry.
Proof. eapply (ring_run_reach dry_ops); [apply demo_start_reach|by vm_compute]. Qed.

(** The first hundred bytes are borrowed while the kernel is at byte 150. *)
Lemma ring_exclusive_witness :
  exists b, (b < 2)%nat /\ 0 = Z.of_nat b /\ await (rs_ring busy) b = false /\ pend (rs_ring busy) b = 1 /\
    (b, 100) ∈ rs_held busy /\ start (rs_ring busy) b + 100 <= start (rs_ring busy) b + rs_off busy.
Proof.
  destruct (ring_exclusive busy 0 {| be_addr := 0x10000; be_len := 4096; be_bid := 0 |} busy_reach)
    as (b & Hb & Hbid & _ & _ & Haw & _ & _ & Hheld & Hpend); [by vm_compute|by vm_compute|].
  exists b. split; [exact Hb|]. split; [exact Hbid|]. split; [exact Haw|]. assert (b = 0%nat) as -> by (cbn in Hbid; lia).
  split; [rewrite Hpend; reflexivity|]. assert ((0%nat, 100) ∈ rs_held busy) as Hin by (vm_compute; left).
  split; [exact Hin|]. exact (Hheld 100 Hin).
Defined.

Lemma ring_reader_safe_witness :
  exists y, RingMode_consume 40 (rs_pair busy) = (y, Ok tt).
Proof.
  destruct (ring_reader_safe busy busy_reach) as (_ & Hu & _); [by vm_compute|].
  destruct Hu as (_ & _ & _ & Hc); [done|].
  eapply Hc; [reflexivity|]. cbn. lia.
Defined.

Lemma ring_park_wakes_witness :
  exists y r, fill_park_poll 7 (rs_pair dry) = (y, Ok false) /\ release 1 y.2 = (r, Ok tt) /\
    br_woken r = br_woken y.2 ++ [7%nat].
Proof.
  destruct (fill_park_poll 7 (rs_pair dry)) as [y v] eqn:Hf.
  assert (v = Ok false /\ pend y.2 1 = 1) as [-> Hp].
  { vm_compute in Hf. injection Hf as <- <-. by vm_compute. }
  destruct (ring_park_wakes dry 7 y dry_reach) with (b := 1%nat) as (_ & _ & Hr); [by vm_compute|done|done|lia|].
  destruct (Hr Hp) as (r & Hrel & Hw & _). by exists y, r.
Defined.
