(* ===== verification/ConnProofs.v ===== *)
(** * The invariant of a TCP connection's queue

    [conn_ok]: the slot array is consistent, every slot still being received
    has a buffer for the data it announced, and the receive ring counts exactly
    the slots that borrow its buffers.  The operations of [TcpQueue] as
    equations, and their effect on the invariant.  [ends] is the weakest
    precondition of code that may end with an error but must not panic. *)

From S2P Require Import Prelude Spec Pool PoolProofs PoolSafety PoolData.
From S2P Require Import SlotQ SlotQProofs SlotQSafety Backend Dispatch BufRing.
From S2P Require Import RingProofs TcpQueue ExecLaws.

(** ** Ending without a panic *)

Section Ends.
Context {S E : Type}.

Definition ends {A} (m : M S E A) (s : S) (Q : S -> A -> Prop) (R : S -> E -> Prop) : Prop :=
  match m s with (s', Ok a) => Q s' a | (s', Err e) => R s' e | (_, Panic) => False end.

Lemma ends_eq {A} (m : M S E A) s s' a (Q : S -> A -> Prop) R : m s = (s', Ok a) -> Q s' a -> ends m s Q R.
Proof. unfold ends. by intros ->. Qed.

Lemma ends_ret {A} (a : A) s (Q : S -> A -> Prop) R : Q s a -> ends (mret a) s Q R.
Proof. done. Qed.

Lemma ends_fail {A} (e : E) s (Q : S -> A -> Prop) (R : S -> E -> Prop) : R s e -> ends (fail e) s Q R.
Proof. done. Qed.

Lemma ends_bind {A A'} (m : M S E A) (f : A -> M S E A') s (Q : S -> A' -> Prop) R :
  ends m s (fun s' a => ends (f a) s' Q R) R -> ends (m ≫= f) s Q R.
Proof. unfold ends, mbind, M_bind. by destruct (m s) as [s' [a|e|]]. Qed.

(** After a step whose result is known. *)
Lemma ends_step {A A'} (m : M S E A) (f : A -> M S E A') s s' a (Q : S -> A' -> Prop) R :
  m s = (s', Ok a) -> ends (f a) s' Q R -> ends (m ≫= f) s Q R.
Proof. intros Hm H. unfold ends. by rewrite (bind_ok m f s s' a Hm). Qed.

Lemma ends_get {A} (f : S -> M S E A) s (Q : S -> A -> Prop) R : ends (f s) s Q R -> ends (get ≫= f) s Q R.
Proof. done. Qed.

Lemma ends_mono {A} (m : M S E A) s (P Q : S -> A -> Prop) (R R' : S -> E -> Prop) :
  ends m s P R -> (forall s' a, P s' a -> Q s' a) -> (forall s' e, R s' e -> R' s' e) -> ends m s Q R'.
Proof. unfold ends. destruct (m s) as [s' [a|e|]]; auto. Qed.

End Ends.

(** ** Who borrows from the ring *)

(** Does the buffer [d] borrow receive buffer [b]? *)
Definition borrows (b : Z) (d : SlotData) : nat :=
  match owner d with ORing x => if x =? b then 1 else 0 | _ => 0 end.

Fixpoint held {C} (b : Z) (l : list (Slot C)) : nat :=
  match l with [] => 0 | s :: l => borrows b (data s) + held b l end.

Lemma held_insert {C} b i (l : list (Slot C)) s s' :
  l !! i = Some s -> (held b (<[i := s']> l) + borrows b (data s) = held b l + borrows b (data s'))%nat.
Proof.
  revert i. induction l as [|x l IH]; intros [|i] H; cbn in *; simplify_eq; [lia|].
  specialize (IH _ H). unfold insert in *. lia.
Qed.

Lemma held_le {C} b (l : list (Slot C)) : (held b l <= length l)%nat.
Proof. induction l; cbn; [lia|]. unfold borrows. repeat case_match; lia. Qed.

Lemma borrows_other b d : (forall x, owner d <> ORing x) -> borrows b d = 0%nat.
Proof. unfold borrows. destruct (owner d) eqn:Ho; try done. intros H. by destruct (H bid). Qed.

(** The ring [o] counts the borrows of the slots [l], and [extra] more. *)
Definition ring_counts {C} (o : option BufRing) (l : list (Slot C)) (extra : Z -> nat) : Prop :=
  match o with
  | Some r => ring_wf r /\ (forall i s x, l !! i = Some s -> owner (data s) = ORing x -> 0 <= x < NBUFS) /\
      forall b, (b < 2)%nat -> pend r b = Z.of_nat (held (Z.of_nat b) l + extra (Z.of_nat b))
  | None => forall i s x, l !! i = Some s -> owner (data s) <> ORing x
  end.

Lemma borrow_wf r b :
  ring_wf r -> (b < 2)%nat -> pend r b < 2 ^ 32 - 1 ->
  exists r', borrow (Z.of_nat b) r = (r', Ok tt) /\ ring_wf r' /\
    (forall b', pend r' b' = if decide (b' = b) then pend r b + 1 else pend r b') /\
    br_data r' = br_data r /\ br_buf_size r' = br_buf_size r.
Proof.
  intros Hwf Hb Hlt. pose proof (wf_len _ Hwf) as (L1 & L2 & L3 & L4). pose proof (wf_pend _ Hwf b) as Hp.
  unfold borrow. rewrite get_bind.
  rewrite (bind_ok _ _ _ r (pend r b)) by (unfold lift; by rewrite (cell_ok _ b 0)).
  rewrite (bind_ok _ _ _ r (pend r b + 1)) by (unfold lift; rewrite checked_ok; [done|split; lia]).
  rewrite bix_nat by done. eexists. split; [reflexivity|].
  assert (forall b', nth b' (<[b := pend r b + 1]> (br_pending r)) 0 =
            if decide (b' = b) then pend r b + 1 else pend r b') as Hn by (intros; by apply nth_put).
  split; [|by split]. apply wf_bufs; try done; [by rewrite length_insert| |apply (wf_roff _ Hwf)].
  intros b'. rewrite Hn. case_decide; [lia|apply (wf_pend _ Hwf)].
Qed.

(** Providing keeps the ring well formed, whoever holds what. *)
Lemma provide_wf r b :
  ring_wf r -> (b < 2)%nat -> pend r b = 0 ->
  exists r', kernel_provide (Z.of_nat b) r = (r', Ok tt) /\ ring_wf r' /\ br_pending r' = br_pending r /\
    br_data r' = br_data r /\ br_buf_size r' = br_buf_size r.
Proof.
  intros [Hl Hs (Ht & Hsh) Hg Hp Hro] Hb Hp0. destruct Hl as (L1 & L2 & L3 & L4).
  unfold kernel_provide. rewrite get_bind.
  rewrite (bind_ok _ _ _ r (pend r b)) by (unfold lift; by rewrite (cell_ok _ b 0)).
  rewrite (bind_ok _ _ _ r tt) by (unfold lift; by rewrite Hp0).
  rewrite (bind_ok _ _ _ _ _ (ring_buf_ok r b Hb)).
  rewrite (bind_ok _ _ _ r tt) by (unfold lift, assert; rewrite bool_decide_true; [done|]; rewrite L4; apply bix_lt).
  unfold mbind, M_bind, modify, br_set_bufs, br_set_park, br_set_ring.
  cbn [br_pending br_awaiting br_recv_off br_provide_gen br_provide_waker br_woken br_data br_buf_size br_entries
       br_tail br_shared_tail br_buf_index]. rewrite bix_nat by done.
  eexists. split; [reflexivity|]. split; [|done]. split; cbn.
  - split_and!; try done; by rewrite ?length_insert.
  - done.
  - split; [apply in_u_wrap; lia|done].
  - apply in_u_wrap. lia.
  - exact Hp.
  - intros b'. unfold roff. cbn. rewrite nth_put by done. case_decide; [lia|apply Hro].
Qed.

Lemma release_wf r b :
  ring_wf r -> (b < 2)%nat -> 0 < pend r b ->
  exists r', release (Z.of_nat b) r = (r', Ok tt) /\ ring_wf r' /\
    (forall b', pend r' b' = if decide (b' = b) then pend r b - 1 else pend r b') /\
    br_data r' = br_data r /\ br_buf_size r' = br_buf_size r.
Proof.
  intros Hwf Hb Hpos. pose proof (wf_len _ Hwf) as (L1 & L2 & L3 & L4). pose proof (wf_pend _ Hwf b) as Hp.
  unfold release. rewrite get_bind.
  rewrite (bind_ok _ _ _ r (pend r b)) by (unfold lift; by rewrite (cell_ok _ b 0)).
  rewrite (bind_ok _ _ _ r tt) by (unfold lift, assert; by rewrite (proj2 (Z.ltb_lt _ _) Hpos)).
  rewrite (bind_ok _ _ _ r (pend r b - 1)) by (unfold lift; rewrite checked_ok; [done|split; lia]).
  rewrite bix_nat by done.
  set (r1 := br_set_bufs (<[b := pend r b - 1]> (br_pending r)) (br_awaiting r) (br_recv_off r) r).
  rewrite (bind_ok _ _ _ r1 tt) by done.
  rewrite (bind_ok _ _ _ r1 (await r b)) by (unfold lift; by rewrite (cell_ok _ b false)).
  assert (forall b', pend r1 b' = if decide (b' = b) then pend r b - 1 else pend r b') as Hn
    by (intros; by apply nth_put).
  assert (ring_wf r1) as Hwf1.
  { apply wf_bufs; try done; [by rewrite length_insert| |apply (wf_roff _ Hwf)]. intros b'.
    change (0 <= pend r1 b' < 2 ^ 32). rewrite Hn. case_decide; [lia|apply (wf_pend _ Hwf)]. }
  destruct ((pend r b - 1 =? 0) && await r b) eqn:Hc; [|by exists r1].
  apply andb_prop in Hc as [Hc%Z.eqb_eq _].
  destruct (provide_wf r1 b Hwf1 Hb) as (r' & Hr & Hwf' & Hpe & Hgeo); [by rewrite Hn, decide_True|].
  exists r'. split; [exact Hr|]. split; [done|]. split; [|done]. intros b'. unfold pend in *. by rewrite Hpe.
Qed.

(** ** The connection *)

Section Conn.
Context {B : Type}.
Implicit Types (c : Conn B) (s : Slot Sqe).

Abbreviation arr c := (w_slots (c_world c)).

(** The command's bytes were decoded from 64, a slot without a buffer has no
    segments, and a buffer being received or just received holds the payload. *)
Definition slot_shape s : Prop :=
  Sqe_wf (cmd s) /\ (owner (data s) = OEmpty -> segs (data s) = []) /\
  (state s = Receiving \/ state s = Ready -> payload_ok s).

(** A slot's buffer, and room in it for what is still to be received. *)
Definition recv_buf s : Prop :=
  segs_ok (segs (data s)) /\
  (state s = Receiving -> 0 <= recv_offset s <= data_len s /\ data_len s <= seg_total (segs (data s)) /\
     data_len s <= MDTS_BYTES) /\
  slot_shape s.

Lemma shape_at_rest s : Sqe_wf (cmd s) -> owner (data s) <> OEmpty -> state s <> Receiving -> state s <> Ready -> slot_shape s.
Proof. intros. split; [done|]. split; [done|]. by intros []. Qed.

(** A work item names a slot. *)
Definition work_ok (x : SendWork) : Prop := match x with Response co => 0 <= co_tag co | R2t tag _ _ _ => 0 <= tag end.

Record conn_inv (extra : Z -> nat) c : Prop := {
  ck_slots : arr_ok (arr c);
  ck_core : core_ok (w_core (c_world c));
  ck_size : sqsize (w_core (c_world c)) = nslots (arr c);
  ck_bufs : forall i s, slots (arr c) !! i = Some s -> recv_buf s;
  ck_ring : ring_counts (c_ring c) (slots (arr c)) extra;
  ck_send : Forall work_ok (work (c_send c));
}.

Definition conn_ok c : Prop := conn_inv (fun _ => 0%nat) c.

Definition c_slots (a : SlotArray Sqe) c : Conn B := c_set_world (set_slots a (c_world c)) c.

(** Slot [i] becomes [s], nothing else moves. *)
Definition put_slot (i : nat) s (evs : list Event) c : Conn B :=
  c_slots (moved (arr c) i s (free_tags (arr c)) (executing (arr c)) (tag_waiter (arr c)) (events (arr c) ++ evs)) c.

Lemma c_slots_same c : c_slots (arr c) c = c.
Proof. by destruct c as [[]]. Qed.

Lemma put_slot_lookup i s s' evs c :
  slots (arr c) !! i = Some s -> slots (arr (put_slot i s' evs c)) !! i = Some s'.
Proof. intros Hi. cbn. apply list_lookup_insert_eq. by eapply lookup_lt_Some. Qed.

Lemma put_slot_put i s s' e e' c : put_slot i s' e' (put_slot i s e c) = put_slot i s' (e ++ e') c.
Proof. unfold put_slot, c_slots, moved. cbn. by rewrite list_insert_insert_eq, app_assoc. Qed.

Definition quiet (evs : list Event) : Prop := Forall (fun e => match e with Wake _ => True | _ => False end) evs.

Lemma quiet_wake w : quiet (wake w).
Proof. destruct w; by repeat constructor. Qed.

Lemma quiet_wakes l : quiet (map Wake l).
Proof. induction l; by constructor. Qed.

Lemma release_quiet {E} evs c : quiet evs -> release_events (E := E) evs c = (c, Ok tt).
Proof. induction 1 as [|[w|b] evs He _ IH]; [done|exact IH|done]. Qed.

(** A slot operation followed by the release of what it gave back. *)
Lemma on_queue_eq {E A} (m : M (SlotArray Sqe) never A) c a x evs :
  m (arr c) = (a, Ok x) -> events a = events (arr c) ++ evs ->
  on_queue (E := E) m c = (release_events evs ≫= fun _ => mret x) (c_slots a c).
Proof.
  intros Hm He. unfold on_queue. rewrite get_bind.
  rewrite (bind_ok (on_world (on_slots m)) _ c (c_slots a c) x).
  - rewrite get_bind. replace (drop _ _) with evs; [done|]. cbn. by rewrite He, drop_app_length.
  - unfold on_world, on_slots. by rewrite Hm.
Qed.

Lemma on_queue_quiet {E A} (m : M (SlotArray Sqe) never A) c a x evs :
  m (arr c) = (a, Ok x) -> events a = events (arr c) ++ evs -> quiet evs ->
  on_queue (E := E) m c = (c_slots a c, Ok x).
Proof. intros Hm He Hq. rewrite (on_queue_eq m c a x evs Hm He). unfold mbind, M_bind. by rewrite release_quiet. Qed.

(** ** Operations on one slot *)

Lemma q_slot_eq {E} c i s : slots (arr c) !! i = Some s -> on_queue (E := E) (slot (Z.of_nat i)) c = (c, Ok s).
Proof.
  intros Hi. rewrite (on_queue_quiet _ c (arr c) s []); [by rewrite c_slots_same| |by rewrite app_nil_r|constructor].
  unfold slot, mbind, M_bind, get, lift, expect. by rewrite Nat2Z.id, Hi.
Qed.

Lemma touch_eq {E} c i s (f : Slot Sqe -> Slot Sqe) :
  slots (arr c) !! i = Some s ->
  on_queue (E := E) (set_slot (Z.of_nat i) f) c = (put_slot i (f s) [] c, Ok tt).
Proof.
  intros Hi. rewrite (on_queue_quiet _ c (upd_slots (alter f i) (arr c)) tt []).
  - unfold put_slot, moved, upd_slots. by rewrite (alter_insert_at _ _ _ _ Hi), app_nil_r.
  - unfold set_slot, modify. by rewrite Nat2Z.id.
  - by rewrite app_nil_r.
  - constructor.
Qed.

Lemma assert_eq {E} c i s st :
  slots (arr c) !! i = Some s -> state s = st ->
  on_queue (E := E) (debug_assert_state (Z.of_nat i) st) c = (c, Ok tt).
Proof.
  intros Hi Hs. rewrite (on_queue_quiet _ c (arr c) tt []); [by rewrite c_slots_same| |by rewrite app_nil_r|constructor].
  unfold debug_assert_state, slot, mbind, M_bind, get, lift, expect, assert. by rewrite Nat2Z.id, Hi, state_eq_true.
Qed.

(** A slot operation that reads the slot first. *)
Lemma slot_op_eq {E} c i s (f : Slot Sqe -> Slot Sqe) (m : M (SlotArray Sqe) never unit) :
  slots (arr c) !! i = Some s ->
  m (arr c) = set_slot (Z.of_nat i) f (arr c) -> on_queue (E := E) m c = (put_slot i (f s) [] c, Ok tt).
Proof.
  intros Hi Hm. rewrite <- (touch_eq c i s f Hi). unfold on_queue, on_world, on_slots, mbind, M_bind, get. by rewrite Hm.
Qed.

Lemma set_data_len_eq {E} c i s n :
  slots (arr c) !! i = Some s ->
  on_queue (E := E) (set_data_len (Z.of_nat i) n) c = (put_slot i (with_data_len n s) [] c, Ok tt).
Proof.
  intros Hi. apply slot_op_eq; [done|]. unfold set_data_len, slot, mbind, M_bind, get, lift, expect. by rewrite Nat2Z.id, Hi.
Qed.

Lemma set_recv_offset_eq {E} c i s n :
  slots (arr c) !! i = Some s ->
  on_queue (E := E) (set_recv_offset (Z.of_nat i) n) c = (put_slot i (with_recv_offset n s) [] c, Ok tt).
Proof.
  intros Hi. apply slot_op_eq; [done|]. unfold set_recv_offset, slot, mbind, M_bind, get, lift, expect.
  by rewrite Nat2Z.id, Hi.
Qed.

Lemma stash_eq {E} c i s x :
  slots (arr c) !! i = Some s -> state s = Receiving ->
  on_queue (E := E) (stash_cmd (Z.of_nat i) x) c = (put_slot i (with_cmd x s) [] c, Ok tt).
Proof.
  intros Hi Hs. apply slot_op_eq; [done|].
  unfold stash_cmd, debug_assert_state, slot, mbind, M_bind, get, lift, expect, assert. by rewrite Nat2Z.id, Hi, state_eq_true.
Qed.

Definition ready (x : Sqe) s : Slot Sqe := with_waker None (with_state Ready (with_cmd x s)).

Lemma q_submit_eq {E} c i s x :
  slots (arr c) !! i = Some s -> state s = Receiving ->
  q_submit (E := E) (Z.of_nat i) x c = (put_slot i (ready x s) (wake (waker s)) (c_set_traffic true c), Ok tt).
Proof.
  intros Hi Hs. unfold q_submit. rewrite (bind_ok _ _ _ (c_set_traffic true c) tt) by done.
  rewrite (on_queue_quiet _ (c_set_traffic true c) _ tt (wake (waker s)) (submit_eq (arr c) i s x Hi Hs));
    [done|done|apply quiet_wake].
Qed.

(** What a push does to the send list. *)
Definition pushed (x : SendWork) c : Conn B :=
  c_set_world (wake_all (option_list (sl_waker (c_send c))) (c_world c))
    (c_set_send {| work := work (c_send c) ++ [x]; sl_waker := None; closed := closed (c_send c) |} c).

Lemma push_send_eq {E} x c : push_send (E := E) x c = (pushed x c, Ok tt).
Proof. unfold push_send, pushed, push. by destruct (sl_waker (c_send c)). Qed.

Lemma complete_receiving_eq {E} c i s q :
  slots (arr c) !! i = Some s -> state s = Receiving ->
  complete_receiving (E := E) (Z.of_nat i) q c =
    (pushed (Response {| co_tag := Z.of_nat i; co_cqe := q; co_data_len := 0 |})
       (put_slot i (with_state Responding s) [] c), Ok tt).
Proof.
  intros Hi Hs. unfold complete_receiving.
  rewrite (bind_ok _ _ c (put_slot i (with_state Responding s) [] c) tt); [apply push_send_eq|].
  rewrite (on_queue_quiet _ c _ tt [] (respond_receiving_eq (arr c) i s Hi Hs));
    [|cbn; by rewrite app_nil_r|constructor].
  unfold put_slot. by rewrite app_nil_r.
Qed.

Lemma solicit_eq {E} c i s cid off len :
  slots (arr c) !! i = Some s -> state s = Receiving ->
  solicit (E := E) (Z.of_nat i) cid off len c = (pushed (R2t (Z.of_nat i) cid off len) c, Ok tt).
Proof. intros Hi Hs. unfold solicit. rewrite (bind_ok _ _ c c tt) by (by eapply assert_eq). apply push_send_eq. Qed.

(** ** Keeping the invariant *)

Lemma pushed_ok ex x c : work_ok x -> conn_inv ex c -> conn_inv ex (pushed x c).
Proof. intros Hx [H1 H2 H3 H4 H5 H6]. split; try done. cbn. apply list.Forall_app. split; [done|]. by apply list.Forall_singleton. Qed.

Lemma traffic_ok ex b c : conn_inv ex c -> conn_inv ex (c_set_traffic b c).
Proof. by intros []. Qed.

Lemma store_ok_conn ex bs m c : conn_inv ex c -> conn_inv ex (c_set_world (set_store bs m (c_world c)) c).
Proof. by intros []. Qed.

Lemma core_ok_conn ex q c :
  conn_inv ex c -> core_ok q -> sqsize q = sqsize (w_core (c_world c)) ->
  conn_inv ex (c_set_world (set_core q (c_world c)) c).
Proof. intros [] Hq Hs. split; try done. cbn. congruence. Qed.

(** One slot changes, its buffer's owner does not. *)
Lemma counts_same (o : option BufRing) (l : list (Slot Sqe)) ex i s s' :
  ring_counts o l ex -> l !! i = Some s -> owner (data s') = owner (data s) -> ring_counts o (<[i := s']> l) ex.
Proof.
  intros Hc Hi Ho. assert (forall j x b, <[i := s']> l !! j = Some x -> owner (data x) = ORing b ->
    exists y, l !! j = Some y /\ owner (data y) = ORing b) as Hl.
  { intros j x b Hj Hb. destruct (decide (i = j)) as [<-|].
    - rewrite list_lookup_insert_eq in Hj by (by eapply lookup_lt_Some). simplify_eq. exists s. by rewrite <- Ho.
    - rewrite list_lookup_insert_ne in Hj by done. by exists x. }
  destruct o as [r|]; cbn in *.
  - destruct Hc as (Hwf & Hr & Hp). split; [done|]. split.
    + intros j x b Hj Hb. destruct (Hl j x b Hj Hb) as (y & Hy & Hyb). by eapply Hr.
    + intros b Hb. rewrite Hp by done. pose proof (held_insert (Z.of_nat b) i l s s' Hi) as Hh.
      assert (borrows (Z.of_nat b) (data s') = borrows (Z.of_nat b) (data s)) by (unfold borrows; by rewrite Ho). lia.
  - intros j x b Hj Hb. destruct (Hl j x b Hj Hb) as (y & Hy & Hyb). by eapply Hc.
Qed.

Lemma bufs_insert (l : list (Slot Sqe)) i s s' :
  (forall j x, l !! j = Some x -> recv_buf x) -> l !! i = Some s -> recv_buf s' ->
  forall j x, <[i := s']> l !! j = Some x -> recv_buf x.
Proof.
  intros H Hi Hs' j x Hj. destruct (decide (i = j)) as [<-|].
  - rewrite list_lookup_insert_eq in Hj by (by eapply lookup_lt_Some). by simplify_eq.
  - rewrite list_lookup_insert_ne in Hj by done. by eapply H.
Qed.

(** A step of the array that rewrites slot [i]. *)
Lemma array_step_ok ex c i s s' a :
  conn_inv ex c -> slots (arr c) !! i = Some s -> arr_ok a -> slots a = <[i := s']> (slots (arr c)) ->
  nslots a = nslots (arr c) -> owner (data s') = owner (data s) -> recv_buf s' -> conn_inv ex (c_slots a c).
Proof.
  intros [H1 H2 H3 H4 H5 H6] Hi Ha Hs Hn Ho Hb. split; cbn; try done.
  - congruence.
  - rewrite Hs. by eapply bufs_insert.
  - rewrite Hs. by eapply counts_same.
Qed.

Lemma put_ok ex c i s s' evs :
  conn_inv ex c -> slots (arr c) !! i = Some s -> data s' = data s ->
  state s = Receiving -> state s' <> Free -> state s' <> Executing -> (state s' = Ready -> waker s' = None) ->
  recv_buf s' -> conn_inv ex (put_slot i s' evs c).
Proof.
  intros Hc Hi Hd Hs Hf Hx Hr Hb. destruct (ck_slots _ _ Hc) as (rss & res & Ha).
  eapply (array_step_ok _ c i s s'); try done; [|by rewrite Hd].
  exists rss, res. eapply slot_move; try done; [by rewrite Hs|]. rewrite !is_exec_no by (done || by rewrite Hs). lia.
Qed.

(** A tag is claimed, or there is none. *)
Lemma claim_conn_ok c :
  conn_ok c ->
  free_tags (arr c) = [] /\ claim_tag (arr c) = (arr c, Ok None) \/
  exists i s, slots (arr c) !! i = Some s /\ state s = Free /\
    let a := moved (arr c) i (with_recv_offset 0 (with_data_len 0 (with_state Receiving s)))
               (tail (free_tags (arr c))) (executing (arr c)) (tag_waiter (arr c)) (events (arr c)) in
    claim_tag (arr c) = (a, Ok (Some (Z.of_nat i))) /\ conn_ok (c_slots a c).
Proof.
  intros Hc. pose proof Hc as [(rss & res & Ha) _ _ Hb _ _]. pose proof Ha as [H1 H2 H3 H4 H5 H6 H7 H8].
  destruct (claim_ok _ _ _ Ha) as [[Hf Hcl]|(t' & s & a' & Hcl & Ha' & Hr & Hs & Hst & Hsl & Hft)]; [by left|right].
  exists (Z.to_nat t'), s. split; [done|]. split; [done|]. cbv zeta. rewrite Z2Nat.id by lia.
  pose proof (claim_tag_eq (arr c) t' (free_tags a') s Hft Hs Hst) as Heq. rewrite Hcl in Heq. injection Heq as Ha''.
  replace (tail (free_tags (arr c))) with (free_tags a') by (by rewrite Hft). rewrite <- Ha''. split; [done|].
  eapply (array_step_ok _ c (Z.to_nat t') s); try done; [by exists rss, res|by rewrite Ha''|].
  destruct (Hb _ _ Hs) as (Hsg & _ & Hw & He0 & _). pose proof (seg_total_nonneg _ Hsg).
  split; [done|]. split; [intros _; cbn; unfold MDTS_BYTES; lia|]. split; [done|]. split; [done|]. intros _.
  assert (segs (data s) = []) as Hnil by (apply He0; by eapply H7). unfold payload_ok. cbn. rewrite Hnil. cbn.
  split; [lia|]. split; [done|]. split; [lia|]. left. constructor.
Qed.

(** A tag is claimed, or there is none and the receive task waits for one. *)
Lemma await_tag_ok {E} c t :
  conn_ok c ->
  (exists c', on_queue (E := E) (await_tag_poll t) c = (c', Ok None) /\ conn_ok c' /\
     free_tags (arr c) = [] /\ c' = c_slots (set_tag_waiter (Some t) (arr c)) c) \/
  exists i s c', on_queue (E := E) (await_tag_poll t) c = (c', Ok (Some (Z.of_nat i))) /\ conn_ok c' /\
    slots (arr c) !! i = Some s /\ state s = Free /\
    c' = c_slots (moved (arr c) i (with_recv_offset 0 (with_data_len 0 (with_state Receiving s)))
                    (tail (free_tags (arr c))) (executing (arr c)) (tag_waiter (arr c)) (events (arr c))) c.
Proof.
  intros Hc. destruct (claim_conn_ok c Hc) as [[Hf Hcl]|(i & s & Hs & Hst & Hcl & Hok)].
  - left. eexists. assert (await_tag_poll t (arr c) = (set_tag_waiter (Some t) (arr c), Ok None)) as He
      by (unfold await_tag_poll, mbind, M_bind, modify, mret, M_ret; by rewrite Hcl).
    rewrite (on_queue_quiet _ c _ _ [] He); [|by rewrite app_nil_r|constructor].
    split; [done|]. split; [|done]. destruct Hc as [(rss & res & []) ?? ?? ?]. split; cbn; try done. exists rss, res. by split.
  - right. exists i, s. eexists. assert (await_tag_poll t (arr c) = (_, Ok (Some (Z.of_nat i)))) as He
      by (unfold await_tag_poll, mbind, M_bind, modify, mret, M_ret; by rewrite Hcl).
    rewrite (on_queue_quiet _ c _ _ [] He); [|cbn; by rewrite app_nil_r|constructor].
    split; [done|]. split; [exact Hok|]. by split_and!.
Qed.

(** ** Replacing a slot's buffer *)

(** What dropping a buffer gives back to the ring. *)
Definition given_back (d : SlotData) : list Event := match owner d with ORing b => [ReleaseRing b] | _ => [] end.

Lemma set_data_events (a : SlotArray Sqe) i s d a' :
  slots a !! i = Some s -> set_data (Z.of_nat i) d a = (a', Ok tt) ->
  exists woken, events a' = events a ++ map Wake woken ++ given_back (data s).
Proof.
  intros Hi. unfold set_data, slot, on_pool, set_slot, mbind, M_bind, get, lift, modify, expect. rewrite Nat2Z.id, Hi.
  destruct (SlotData_drop (data s) (pool a)) as [p [[woken ring]|e|]] eqn:Hd; intros He; try done. injection He as <-.
  exists woken. cbn. do 2 f_equal. revert Hd. unfold SlotData_drop, given_back.
  destruct (owner (data s)); unfold mbind, M_bind, mret, M_ret; try (by intros [=]; subst).
  by destruct (free_segs _ _) as [? [?|?|]]; intros [=]; subst.
Qed.

(** The slot's old borrow takes the place of the one the new buffer brings. *)
Lemma counts_swap (o : option BufRing) (l : list (Slot Sqe)) ex i s d :
  ring_counts o l ex -> l !! i = Some s -> (forall b, ex b = borrows b d) ->
  (forall b, owner d = ORing b -> 0 <= b < NBUFS /\ is_Some o) ->
  ring_counts o (<[i := SlotQ.with_data d s]> l) (fun b => borrows b (data s)).
Proof.
  intros Hc Hi Hex Hd.
  assert (forall j x b, <[i := SlotQ.with_data d s]> l !! j = Some x -> owner (data x) = ORing b ->
    owner d = ORing b \/ (exists y, l !! j = Some y /\ owner (data y) = ORing b)) as Hl.
  { intros j x b Hj Hx. destruct (decide (i = j)) as [<-|].
    - rewrite list_lookup_insert_eq in Hj by (by eapply lookup_lt_Some). simplify_eq. by left.
    - rewrite list_lookup_insert_ne in Hj by done. right. by exists x. }
  destruct o as [r|]; cbn in *.
  - destruct Hc as (Hwf & Hr & Hp). split; [done|]. split.
    + intros j x b Hj Hx. destruct (Hl j x b Hj Hx) as [Ho|(y & Hy & Hyb)]; [by apply Hd|by eapply Hr].
    + intros b Hb. rewrite Hp, Hex by done. pose proof (held_insert (Z.of_nat b) i l s (SlotQ.with_data d s) Hi) as Hh.
      cbn in Hh. lia.
  - intros j x b Hj Hx. destruct (Hl j x b Hj Hx) as [Ho|(y & Hy & Hyb)]; [|by eapply Hc].
    by destruct (Hd b Ho) as [_ []].
Qed.

(** Giving back the dropped buffer's borrow. *)
Lemma give_back_ok {E} c d :
  conn_inv (fun b => borrows b d) c -> (forall b, owner d = ORing b -> 0 <= b < NBUFS /\ is_Some (c_ring c)) ->
  exists o, release_events (E := E) (given_back d) c = (c_set_ring o c, Ok tt) /\ conn_ok (c_set_ring o c) /\
    (is_Some o <-> is_Some (c_ring c)).
Proof.
  intros Hc Hd. assert (c_set_ring (c_ring c) c = c) as Hid by (by destruct c).
  unfold given_back. destruct (owner d) as [| | |b] eqn:Ho.
  1-3: exists (c_ring c); rewrite Hid; split; [done|]; split; [|done];
    destruct Hc as [H1 H2 H3 H4 H5 H6]; split; try done;
    (destruct (c_ring c) as [r|]; [|done]); destruct H5 as (Hwf & Hr & Hp); split; [done|]; split; [done|];
    intros b Hb; rewrite (Hp b Hb), borrows_other; [done|by rewrite Ho].
  destruct (Hd b eq_refl) as (Hb & r & Hr). destruct Hc as [H1 H2 H3 H4 H5 H6]. rewrite Hr in H5.
  destruct H5 as (Hwf & Hrg & Hp).
  assert (exists n, (n < 2)%nat /\ b = Z.of_nat n) as (n & Hn & ->) by (exists (Z.to_nat b); unfold NBUFS in Hb; lia).
  assert (forall m, borrows (Z.of_nat m) d = if decide (m = n) then 1%nat else 0%nat) as Hbo.
  { intros m. unfold borrows. rewrite Ho. destruct (Z.eqb_spec (Z.of_nat n) (Z.of_nat m)); case_decide; lia. }
  destruct (release_wf r n Hwf Hn) as (r' & Hrel & Hwf' & Hpe & _).
  { rewrite (Hp n Hn), Hbo, decide_True by done. lia. }
  exists (Some r'). split; [|split; [|done]].
  - cbn [release_events]. unfold mbind, M_bind, on_ring. rewrite Hr, Hrel. done.
  - split; cbn; try done. split; [done|]. split; [done|]. intros m Hm. rewrite Hpe, !Hp by done. rewrite !Hbo.
    repeat case_decide; subst; lia.
Qed.

Lemma install_buf {E} c i s d m a ex :
  conn_inv ex c -> slots (arr c) !! i = Some s -> m (arr c) = (a, Ok tt) ->
  (exists woken, events a = events (arr c) ++ map Wake woken ++ given_back (data s)) ->
  arr_ok a -> slots a = <[i := SlotQ.with_data d s]> (slots (arr c)) -> nslots a = nslots (arr c) ->
  recv_buf (SlotQ.with_data d s) -> (forall b, ex b = borrows b d) ->
  (forall b, owner d = ORing b -> 0 <= b < NBUFS /\ is_Some (c_ring c)) ->
  exists o, on_queue (E := E) m c = (c_set_ring o (c_slots a c), Ok tt) /\ conn_ok (c_set_ring o (c_slots a c)) /\
    (is_Some o <-> is_Some (c_ring c)).
Proof.
  intros [H1 H2 H3 H4 H5 H6] Hi Hm (woken & Hev) Ha Hs Hn Hb Hex Hd. rewrite (on_queue_eq m c a tt _ Hm Hev).
  destruct (give_back_ok (E := E) (c_slots a c) (data s)) as (o & Hrel & Hok & Hi').
  - split; cbn; try done; [congruence| |].
    + rewrite Hs. by eapply bufs_insert.
    + rewrite Hs. by eapply counts_swap.
  - intros b Ho. cbn. destruct (c_ring c) as [r|]; [|by destruct (H5 i s b Hi)]. split; [|done].
    destruct H5 as (_ & Hr & _). by eapply Hr.
  - exists o. split; [|done]. unfold mbind, M_bind.
    assert (forall evs, release_events (E := E) (map Wake woken ++ evs) (c_slots a c) = release_events evs (c_slots a c))
      as -> by (intros evs; clear; induction woken; done).
    by rewrite Hrel.
Qed.

(** A lease, or a private buffer, for the data of a command being received. *)
Lemma lease_ok {E} c i s n addr :
  conn_ok c -> slots (arr c) !! i = Some s -> state s = Receiving -> 1 <= n -> data_len s <= n ->
  exists d a o, on_queue (E := E) (lease_or_owned (Z.of_nat i) n addr) c = (c_set_ring o (c_slots a c), Ok tt) /\
    conn_ok (c_set_ring o (c_slots a c)) /\ (is_Some o <-> is_Some (c_ring c)) /\
    slots a = <[i := SlotQ.with_data d s]> (slots (arr c)) /\
    (free_tags a = free_tags (arr c) /\ executing a = executing (arr c) /\ nslots a = nslots (arr c)) /\
    page_buf d n /\ owner d <> OEmpty.
Proof.
  intros Hc Hi Hs Hn Hl. pose proof Hc as [(rss & res & Ha) _ _ Hb _ _].
  destruct (lease_or_owned_ok _ rss res i s n addr Ha Hi ltac:(congruence) Hn)
    as (p & d & hand & a & He & Hset & Ha' & Hsl & (Hf & Hx & _ & Hns) & Hpb & _ & Ho & Hne).
  destruct (install_buf (E := E) c i s d (lease_or_owned (Z.of_nat i) n addr) a (fun _ => 0%nat))
    as (o & Hq & Hok & Hio); try done.
  - destruct (set_data_events (set_pool p (arr c)) i s d a Hi Hset) as (woken & Hev). by exists woken.
  - by exists (<[i := hand]> rss), res.
  - destruct (Hb _ _ Hi) as (_ & Hr & Hw & _). destruct (Hr Hs) as (H1 & H2 & H3). destruct Hpb as (P1 & P2 & P3 & P4 & P5).
    split; [done|]. split; [intros _; cbn; lia|]. split; [done|]. split; [by intros He0|].
    intros _. split; [cbn; lia|]. split; [done|]. split; [done|]. by left.
  - intros b. by rewrite borrows_other.
  - intros b Hb'. by destruct (Ho b).
  - by exists d, a, o.
Qed.

End Conn.
