(* ===== verification/RecvProofs.v ===== *)
(** * The receive path is safe

    [rx_ok] is the invariant of the receive loop: [conn_ok], a decoder between
    headers or inside one, and a phase whose slot is still being received and
    has room for the rest of the payload.  Every round keeps it, consumes a
    byte, and ends with an error or a next phase, never a panic, whatever bytes
    the host sends. *)

From S2P Require Import Prelude Digest Spec Pdu PduProofs Pool.
From S2P Require Import PoolProofs PoolSafety PoolData SlotQ SlotQProofs.
From S2P Require Import SlotQSafety Backend Dispatch BufRing RingProofs TcpQueue.
From S2P Require Import Recv SegIO ExecLaws ConnProofs.

Section RecvProofs.
Context {B : Type} {L : Crc32cLib} {LL : Crc32cLaws L}.
Implicit Types (c : Conn B) (s : Slot Sqe).

Abbreviation arr c := (w_slots (c_world c)).

(** ** The invariant *)

(** What is left of a payload fits in the slot it goes to. *)
Definition data_ok c (d : DataPhase) : Prop :=
  exists i s, ph_tag d = Z.of_nat i /\ slots (arr c) !! i = Some s /\ state s = Receiving /\
    0 < ph_remaining d <= payload_total d s /\ 0 <= ph_base d /\ ph_base d + payload_total d s <= data_len s /\
    in_u 32 (crc_state (ph_crc d)) /\
    match ph_kind d with InCapsule => ph_base d = 0 | H2c _ _ => ph_base d = recv_offset s end.

(** The payload of a PDU is complete; its slot waits for the verdict. *)
Definition finish_ok c (tag : Z) (kind : PayloadKind) : Prop :=
  exists i s, tag = Z.of_nat i /\ slots (arr c) !! i = Some s /\ state s = Receiving /\
    match kind with InCapsule => True | H2c _ len => 0 <= len /\ recv_offset s + len <= data_len s end.

Definition phase_ok c (p : RecvPhase) : Prop :=
  match p with
  | PHeader => True
  | PData d => data_ok c d
  | PDdgst d => finish_ok c (dg_tag d) (dg_kind d) /\ (dg_have_len d < 4)%nat /\ length (dg_have d) = 4%nat
  end.

(** A decoder that waits for more of a header. *)
Definition dec_open (d : PduDecoder) : Prop := dec_wf d /\ (have d < need d)%nat /\ dstate d <> Complete.

Definition rx_ok (x : RecvSt B) : Prop :=
  conn_ok (rx_conn x) /\ dec_open (rx_decoder x) /\ phase_ok (rx_conn x) (rx_phase x).

(** In ring mode the window lies in one of the ring's buffers. *)
Definition ring_ctx_ok c (rc : option RingCtx) : Prop :=
  match rc with Some b => 0 <= b < NBUFS /\ is_Some (c_ring c) | None => True end.

(** ** Payload bytes *)

Lemma write_at_ok {E} (d : SlotData) off src m :
  segs_ok (segs d) -> 0 <= off -> off + Z.of_nat (length src) <= seg_total (segs d) ->
  exists m', write_at (E := E) d off src m = Ok m' /\
    flat m' (segs d) = take (Z.to_nat off) (flat m (segs d)) ++ src ++ drop (Z.to_nat off + length src) (flat m (segs d)) /\
    (forall x, (forall g, g ∈ segs d -> ~ in_seg g x) -> m' x = m x).
Proof.
  intros Hok Ho Hn. destruct (write_loop_spec m (segs d) off src Hok Ho Hn) as (m' & Hw & Hf & Hfr).
  exists m'. unfold write_at. by rewrite Hw.
Qed.

(** The memory becomes [m]. *)
Definition put_mem (m : mem) c : Conn B := c_set_world (set_store (w_backends (c_world c)) m (c_world c)) c.

Lemma slot_write_eq {E} c i s dest src m :
  slots (arr c) !! i = Some s -> write_at (E := never) (data s) dest src (w_mem (c_world c)) = Ok m ->
  slot_write (E := E) (Z.of_nat i) dest src c = (put_mem m c, Ok tt).
Proof.
  intros Hi Hw. unfold slot_write, q_slot. rewrite (bind_ok _ _ c c s) by (by apply q_slot_eq).
  unfold on_world. rewrite get_bind. unfold mbind, M_bind, lift. by rewrite Hw.
Qed.

Lemma put_mem_ok m c : conn_ok c -> conn_ok (put_mem m c).
Proof. apply store_ok_conn. Qed.

(** ** The end of a payload *)

(** Slot [i] goes from receiving to ready, or stays with more received. *)
Lemma ready_buf x s : recv_buf s -> state s = Receiving -> Sqe_wf x -> recv_buf (ready x s).
Proof.
  intros (H & _ & Hw & He & Hp) Hs Hx. split; [done|]. split; [done|]. split; [done|]. split; [done|].
  intros _. exact (Hp (or_introl Hs)).
Qed.

Lemma responding_buf s : recv_buf s -> recv_buf (with_state Responding s).
Proof. intros (H & _ & Hw & He & _). split; [done|]. split; [done|]. split; [done|]. split; [done|]. by intros []. Qed.

Lemma offset_buf s n : recv_buf s -> 0 <= n <= data_len s -> recv_buf (with_recv_offset n s).
Proof. intros (H & Hr & Hw) Hn. split; [done|]. split; [|done]. cbn. intros Hs. destruct (Hr Hs) as (_ & ?). by split. Qed.

(** A buffer for [len] bytes, and the command they belong to. *)
Definition holds_payload (d : SlotData) (len : Z) : Prop :=
  segs_ok (segs d) /\ len <= seg_total (segs d) /\ (length (segs d) <= MAX_SEGS)%nat /\ (owner d = OEmpty -> segs d = []) /\
  (blocked PAGE (segs d) \/ exists g, segs d = [g] /\ seg_len g = len).

Lemma announced_buf s len x n :
  holds_payload (data s) len -> Sqe_wf x -> 0 <= n <= len -> len <= MDTS_BYTES ->
  recv_buf (with_cmd x (with_recv_offset n (with_data_len len s))).
Proof.
  intros (H1 & H2 & H3 & H4 & H5) Hx Hn Hm. split; [done|]. split; [done|]. split; [done|]. split; [done|]. intros _.
  split; [cbn; lia|]. split; [done|]. split; [done|]. cbn. destruct H5 as [?|(g & ? & ?)]; [by left|right; exists g; auto].
Qed.

Lemma page_buf_holds d n : page_buf d n -> owner d <> OEmpty -> holds_payload d n.
Proof. intros (H1 & H2 & H3 & H4 & H5) Ho. split; [done|]. split; [lia|]. split; [done|]. split; [done|]. by left. Qed.

Lemma finish_payload_ok c tag kind :
  conn_ok c -> finish_ok c tag kind ->
  ends (finish_payload tag kind) c (fun c' _ => conn_ok c' /\ c_ring c' = c_ring c) (fun c' _ => conn_ok c').
Proof.
  intros Hc (i & s & -> & Hi & Hs & Hk). unfold finish_payload, q_slot.
  destruct (ck_bufs _ _ Hc _ _ Hi) as (Hsg & Hr & _). destruct (Hr Hs) as (Ho & Hd & Hm).
  eapply ends_step; [by apply q_slot_eq|].
  assert (forall c s, conn_ok c -> slots (arr c) !! i = Some s -> state s = Receiving ->
    forall x R, Sqe_wf x -> ends (q_submit (E := PduError) (Z.of_nat i) x) c (fun c' _ => conn_ok c' /\ c_ring c' = c_ring c) R) as Hsub.
  { clear. intros c s Hc Hi Hs x R Hx. eapply ends_eq; [by apply q_submit_eq|]. split; [|done].
    eapply (put_ok _ _ i s); try done; [by apply traffic_ok|]. apply ready_buf; [by apply (ck_bufs _ _ Hc i)|done|done]. }
  assert (Sqe_wf (cmd s)) as Hw by apply (ck_bufs _ _ Hc _ _ Hi).
  destruct kind as [|last len]; [by eapply Hsub|]. destruct Hk as [Hl Hle].
  eapply ends_step; [unfold lift; rewrite checked_ok; [reflexivity|unfold in_u, MDTS_BYTES in *; lia]|].
  eapply ends_step; [by apply set_recv_offset_eq|].
  assert (conn_ok (put_slot i (with_recv_offset (recv_offset s + len) s) [] c)) as Hc'.
  { eapply (put_ok _ _ i s); try done; cbn; rewrite ?Hs; try done. apply offset_buf; [by apply (ck_bufs _ _ Hc i)|lia]. }
  destruct (_ =? _).
  - eapply (Hsub (put_slot i (with_recv_offset (recv_offset s + len) s) [] c)); [done|by eapply put_slot_lookup|done..].
  - destruct last; [by apply ends_fail|]. by apply ends_ret.
Qed.

Lemma payload_done_ok c d :
  conn_ok c -> finish_ok c (ph_tag d) (ph_kind d) ->
  ends (payload_done d) c (fun c' p => conn_ok c' /\ c_ring c' = c_ring c /\ phase_ok c' p) (fun c' _ => conn_ok c').
Proof.
  intros Hc Hf. unfold payload_done. destruct (ph_ddgst d).
  - apply ends_ret. split; [done|]. split; [done|]. split; [done|]. cbn. split; [lia|done].
  - apply ends_bind. pose proof (finish_payload_ok c _ _ Hc Hf) as H. unfold ends, from_pdu in *.
    destruct (finish_payload _ _ c) as [c' [[]|e|]]; [|done|done]. by destruct H.
Qed.

(** ** Payload and digest phases *)

(** The memory once [piece] is in place; a retained payload is already. *)
Definition stored (d : DataPhase) s (piece : bytes) (m : mem) : res never mem :=
  if ph_retained d then Ok m
  else write_at (data s) (ph_base d + (payload_total d s - ph_remaining d)) piece m.

(** [n] bytes of [sl] taken: the digest moves on, and the payload may be complete. *)
Definition took (d : DataPhase) (n : nat) (sl : Slice) : M (Conn B) RecvEnd (RecvPhase * Slice) :=
  let d := ph_take n (if ph_ddgst d then Crc32c_update (ph_crc d) (take n (sl_bytes sl)) else ph_crc d) d in
  if 0 <? ph_remaining d then mret (PData d, sl_advance n sl)
  else p ← payload_done d; mret (p, sl_advance n sl).

Definition data_taken (d : DataPhase) (sl : Slice) : nat :=
  Nat.min (Z.to_nat (ph_remaining d)) (length (sl_bytes sl)).

Lemma data_advance_eq c d sl i s m :
  conn_ok c -> ph_tag d = Z.of_nat i -> slots (arr c) !! i = Some s -> state s = Receiving ->
  0 < ph_remaining d <= payload_total d s -> 0 <= ph_base d -> ph_base d + payload_total d s <= data_len s ->
  stored d s (take (data_taken d sl) (sl_bytes sl)) (w_mem (c_world c)) = Ok m ->
  DataPhase_advance d sl c = took d (data_taken d sl) sl (put_mem m c).
Proof.
  intros Hc Ht Hi Hs Hr Hb Hle. unfold stored, DataPhase_advance, data_taken.
  destruct (ck_bufs _ _ Hc _ _ Hi) as (_ & Hbuf & _). destruct (Hbuf Hs) as (_ & _ & Hm).
  destruct (ph_retained d) eqn:Hret.
  - intros [= <-]. rewrite (bind_ok _ _ c c tt) by done.
    replace (put_mem (w_mem (c_world c)) c) with c by (by destruct c as [[]]). done.
  - intros Hw. erewrite bind_ok; [reflexivity|]. rewrite Ht.
    rewrite (bind_ok _ _ c c s) by (by apply q_slot_eq).
    rewrite (bind_ok _ _ c c (ph_base d + (payload_total d s - ph_remaining d))).
    + by eapply slot_write_eq.
    + unfold lift, payload_dest. rewrite checked_ok by (unfold in_u, MDTS_BYTES in *; lia). cbn [mbind res_bind].
      by rewrite checked_ok by (unfold in_u, MDTS_BYTES in *; lia).
Qed.

Lemma stored_ok c d i s sl :
  conn_ok c -> slots (arr c) !! i = Some s -> state s = Receiving ->
  0 < ph_remaining d <= payload_total d s -> 0 <= ph_base d -> ph_base d + payload_total d s <= data_len s ->
  exists m, stored d s (take (data_taken d sl) (sl_bytes sl)) (w_mem (c_world c)) = Ok m.
Proof.
  intros Hc Hi Hs Hr Hb Hle. destruct (ck_bufs _ _ Hc _ _ Hi) as (Hsg & Hbuf & _). destruct (Hbuf Hs) as (Ho & Hd & Hm).
  unfold stored, data_taken. destruct (ph_retained d); [by eexists|].
  destruct (write_at_ok (E := never) (data s) (ph_base d + (payload_total d s - ph_remaining d))
    (take (Nat.min (Z.to_nat (ph_remaining d)) (length (sl_bytes sl))) (sl_bytes sl)) (w_mem (c_world c)))
    as (m & Hw & _); [done|lia|rewrite length_take; lia|by exists m].
Qed.

Lemma DataPhase_advance_ok c d sl :
  conn_ok c -> data_ok c d -> sl_bytes sl <> [] ->
  ends (DataPhase_advance d sl) c
    (fun c' '(p, sl') => conn_ok c' /\ c_ring c' = c_ring c /\ phase_ok c' p /\
       exists n, (0 < n <= length (sl_bytes sl))%nat /\ sl' = sl_advance n sl)
    (fun c' _ => conn_ok c').
Proof.
  intros Hc (i & s & Ht & Hi & Hs & Hr & Hb & Hle & Hcrc & Hk) Hne.
  destruct (stored_ok c d i s sl Hc Hi Hs Hr Hb Hle) as (m & Hm).
  assert (0 < length (sl_bytes sl))%nat as Hlen by (destruct (sl_bytes sl); cbn; [done|lia]).
  unfold ends. rewrite (data_advance_eq c d sl i s m Hc Ht Hi Hs Hr Hb Hle Hm).
  set (n := data_taken d sl). assert (0 < n <= length (sl_bytes sl))%nat as Hn by (unfold n, data_taken; lia).
  assert (Z.of_nat n <= ph_remaining d) as Hnr by (unfold n, data_taken; lia).
  fold (ends (took d n sl) (put_mem m c)
    (fun c' '(p, sl') => conn_ok c' /\ c_ring c' = c_ring c /\ phase_ok c' p /\
       exists n, (0 < n <= length (sl_bytes sl))%nat /\ sl' = sl_advance n sl) (fun c' _ => conn_ok c')).
  unfold took. set (crc := if ph_ddgst d then _ else _). cbv zeta. pose proof (put_mem_ok m c Hc) as Hc'.
  assert (in_u 32 (crc_state crc)) as Hcrc' by (unfold crc; destruct (ph_ddgst d); [by apply update_state_u32|done]).
  destruct (Z.ltb_spec 0 (ph_remaining (ph_take n crc d))) as [Hp|Hp]; cbn in Hp.
  - apply ends_ret. split; [done|]. split; [done|]. split; [|by exists n].
    exists i, s. unfold payload_total in *. cbn in *. split_and!; try done; lia.
  - apply ends_bind. eapply ends_mono; [apply payload_done_ok; [done|]| |by intros].
    + exists i, s. split; [done|]. split; [done|]. split; [done|]. unfold payload_total in *. cbn.
      destruct (ph_kind d); [done|]. lia.
    + intros c' p (? & ? & ?). apply ends_ret. split; [done|]. split; [done|]. split; [done|]. by exists n.
Qed.

(** A digest that does not match fails the command. *)
Lemma fail_digest_ok c tag kind :
  conn_ok c -> finish_ok c tag kind ->
  ends (fail_digest tag) c (fun c' p => conn_ok c' /\ c_ring c' = c_ring c /\ p = PHeader) (fun c' _ => conn_ok c').
Proof.
  intros Hc (i & s & -> & Hi & Hs & _). unfold fail_digest.
  eapply ends_step; [by apply q_slot_eq|].
  destruct (advance_core_ok _ (ck_core _ _ Hc)) as (q & h & Hadv & Hq & Hqid & Hsz).
  set (c1 := c_set_world (set_core q (c_world c)) c).
  assert (conn_ok c1) as Hc1 by (by apply core_ok_conn).
  eapply (ends_step _ _ _ c1 h); [unfold on_world, on_core; by rewrite Hadv|].
  apply ends_get. eapply ends_step; [by apply (complete_receiving_eq c1 i s)|]. apply ends_ret.
  split; [|done]. apply pushed_ok; [cbn; lia|]. eapply (put_ok _ _ i s); try done. by apply responding_buf, (ck_bufs _ _ Hc i s).
Qed.

Lemma DdgstPhase_advance_ok c d sl :
  conn_ok c -> phase_ok c (PDdgst d) -> sl_bytes sl <> [] ->
  ends (DdgstPhase_advance d sl) c
    (fun c' '(p, sl') => conn_ok c' /\ c_ring c' = c_ring c /\ phase_ok c' p /\
       exists n, (0 < n <= length (sl_bytes sl))%nat /\ sl' = sl_advance n sl)
    (fun c' _ => conn_ok c').
Proof.
  intros Hc (Hf & Hlt & Hlen) Hne. unfold DdgstPhase_advance.
  assert (0 < length (sl_bytes sl))%nat by (destruct (sl_bytes sl); cbn; [done|lia]).
  eapply ends_step; [unfold lift, usub; by rewrite decide_True by lia|].
  set (n := Nat.min _ _). assert (0 < n <= length (sl_bytes sl))%nat by lia.
  eapply ends_step; [unfold lift; rewrite copy_into_ok; [reflexivity|rewrite length_take; lia]|].
  set (have := _ ++ _ ++ _). cbn [dg_have_len dg_take dg_have dg_expected dg_tag dg_kind].
  case_decide as Hd.
  - apply ends_ret. split; [done|]. split; [done|]. split; [|by exists n]. split; [done|]. split; [done|].
    unfold have. cbn. rewrite !length_app, !length_take, length_drop. lia.
  - destruct (negb _).
    + apply ends_bind. eapply ends_mono; [by apply (fail_digest_ok c _ (dg_kind d))| |by intros].
      intros c' p (? & ? & ->). apply ends_ret. split_and!; try done. by exists n.
    + apply ends_bind. pose proof (finish_payload_ok c _ _ Hc Hf) as Hfin.
      unfold from_pdu. unfold ends at 1. unfold ends in Hfin.
      destruct (finish_payload _ _ c) as [c' [[]|e|]]; [|done|done]. destruct Hfin.
      apply ends_ret. split_and!; try done. by exists n.
Qed.

(** ** Headers *)

Lemma ring_buf_segs b p n :
  0 <= n -> segs_ok (segs (SlotData_ring b p n)) /\ seg_total (segs (SlotData_ring b p n)) = n.
Proof.
  intros Hn. assert (segs (SlotData_ring b p n) = [{| ptr := p; seg_len := n |}]) as -> by done.
  cbn. split; [split; [done|]; split; [constructor|done]|lia].
Qed.

Lemma try_retain_ok {E} c i s bid p len :
  conn_ok c -> slots (arr c) !! i = Some s -> state s = Receiving -> ring_ctx_ok c (Some bid) ->
  0 <= len -> data_len s = 0 \/ data_len s = len ->
  exists c' (b : bool), try_retain_payload (E := E) bid (Z.of_nat i) p len c = (c', Ok b) /\ conn_ok c' /\
    (is_Some (c_ring c') <-> is_Some (c_ring c)) /\ w_mem (c_world c') = w_mem (c_world c) /\
    if b then slots (arr c') = <[i := SlotQ.with_data (SlotData_ring bid p len) s]> (slots (arr c)) else c' = c.
Proof.
  intros Hc Hi Hs [Hb [r Hr]] Hl Hd. unfold try_retain_payload. rewrite get_bind. rewrite Hr. cbn [expect].
  rewrite (bind_ok _ _ c c r) by done.
  assert (exists n, (n < 2)%nat /\ bid = Z.of_nat n) as (n & Hn & ->) by (exists (Z.to_nat bid); unfold NBUFS in Hb; lia).
  rewrite (bind_ok _ _ c c (start r n)).
  2:{ unfold on_ring. rewrite Hr, ring_buf_ok by done. cbn. rewrite <- Hr. by destruct c. }
  cbv zeta. destruct (_ || _); [by exists c, false|].
  pose proof Hc as [(rss & res & Ha) Hcore Hsz Hbufs Hcnt Hsnd]. rewrite Hr in Hcnt. destruct Hcnt as (Hwf & Hrg & Hp).
  pose proof (ok_n _ _ _ Ha) as [Hns Hls]. unfold in_u in Hns.
  pose proof (held_le (Z.of_nat n) (slots (arr c))) as Hhl.
  destruct (borrow_wf r n Hwf Hn) as (r1 & Hbor & Hwf1 & Hp1 & _).
  { rewrite Hp by done. lia. }
  set (c1 := c_set_ring (Some r1) c).
  rewrite (bind_ok _ _ c c1 tt) by (unfold on_ring; rewrite Hr, Hbor; done).
  set (d := SlotData_ring (Z.of_nat n) p len).
  assert (conn_inv (fun b => borrows b d) c1) as Hc1.
  { split; cbn; try done; [by exists rss, res|]. split; [done|]. split; [done|]. intros b Hb'. rewrite Hp1, !Hp by done. unfold borrows.
    cbn [d SlotData_ring owner]. destruct (Z.eqb_spec (Z.of_nat n) (Z.of_nat b)); case_decide; subst; lia. }
  destruct (ck_bufs _ _ Hc _ _ Hi) as (_ & Hbuf & Hw & _). destruct (Hbuf Hs) as (B1 & B2 & B3).
  destruct (set_data_ok (arr c) rss [] res i s d (pool (arr c)) Ha Hi ltac:(congruence) (ok_pool _ _ _ Ha) eq_refl)
    as (a & Hset & Ha' & Hsl & _ & _ & _ & Hna).
  replace (set_pool (pool (arr c)) (arr c)) with (arr c) in Hset by (by destruct (arr c)).
  destruct (install_buf (E := E) c1 i s d (set_data (Z.of_nat i) d) a (fun b => borrows b d))
    as (o & Hq & Hok & Hio); try done.
  - by eapply set_data_events.
  - by exists (<[i := []]> rss), res.
  - destruct (ring_buf_segs (Z.of_nat n) p len Hl) as [R1 R2]. fold d in R1, R2.
    split; [done|]. split; [intros _; cbn [data SlotQ.with_data recv_offset data_len]; rewrite R2; lia|].
    split; [done|]. split; [done|]. intros _. split; [cbn [data SlotQ.with_data data_len]; rewrite R2; lia|].
    split; [done|]. split; [apply (Nat.leb_le 1 MAX_SEGS); reflexivity|]. right. eexists. split; [reflexivity|]. cbn. lia.
  - intros b [= <-]. split; [done|]. by eexists.
  - rewrite (bind_ok _ _ c1 _ tt Hq). exists (c_set_ring o (c_slots a c1)), true. split; [done|]. split; [done|].
    split; [|done]. cbn in *. by rewrite Hio.
Qed.

Definition routed_ok c c' (p : option RecvPhase) : Prop :=
  conn_ok c' /\ (is_Some (c_ring c') <-> is_Some (c_ring c)) /\ match p with Some p => phase_ok c' p | None => True end.

(** A slot just claimed. *)
Definition fresh s : Prop := state s = Receiving /\ data_len s = 0 /\ recv_offset s = 0.

Lemma in_capsule_ok c i s sqe len ddgst rc p :
  conn_ok c -> slots (arr c) !! i = Some s -> fresh s -> ring_ctx_ok c rc -> Sqe_wf sqe -> 0 < len ->
  ends (capsule_tagged (Z.of_nat i) sqe len ddgst rc p) c (routed_ok c) (fun c' _ => conn_ok c').
Proof.
  intros Hc Hi (Hs & Hd & Ho) Hrc Hx Hl. unfold capsule_tagged.
  eapply ends_step; [by apply q_slot_eq|]. rewrite (proj2 (Z.ltb_lt 0 len) Hl).
  destruct (Z.ltb_spec MDTS_BYTES len); [by apply ends_fail|].
  assert (exists c1 (b : bool), (match rc with Some bid => try_retain_payload bid (Z.of_nat i) p len | None => mret false end : M (Conn B) RecvEnd bool)
      c = (c1, Ok b) /\ conn_ok c1 /\ (is_Some (c_ring c1) <-> is_Some (c_ring c)) /\
    exists s1, slots (arr c1) !! i = Some s1 /\ fresh s1 /\
      (b = true -> holds_payload (data s1) len)) as (c1 & b & He & Hc1 & Hio & s1 & Hi1 & (Hs1 & Hd1 & Ho1) & Hb).
  { destruct rc as [bid|]; [|exists c, false; split; [done|]; split; [done|]; split; [done|]; exists s; by split_and!].
    destruct (try_retain_ok (E := RecvEnd) c i s bid p len) as (c1 & b & He & Hc1 & Hio & _ & Hb); try done; [lia..|].
    exists c1, b. split; [done|]. split; [done|]. split; [done|]. destruct b; [|subst c1; exists s; by split_and!].
    exists (SlotQ.with_data (SlotData_ring bid p len) s). split; [rewrite Hb; apply list_lookup_insert_eq; by eapply lookup_lt_Some|].
    split; [done|]. intros _. cbn [data SlotQ.with_data]. destruct (ring_buf_segs bid p len) as [R1 R2]; [lia|].
    split; [done|]. split; [lia|]. split; [apply (Nat.leb_le 1 MAX_SEGS); reflexivity|]. split; [done|]. right. by eexists. }
  eapply ends_step; [exact He|]. apply ends_get.
  assert (exists c2 s2, (if b then mret tt : M (Conn B) RecvEnd unit else on_queue (lease_or_owned (Z.of_nat i) len (w_heap (c_world c1)))) c1 = (c2, Ok tt) /\
    conn_ok c2 /\ (is_Some (c_ring c2) <-> is_Some (c_ring c)) /\ slots (arr c2) !! i = Some s2 /\ fresh s2 /\
    holds_payload (data s2) len) as (c2 & s2 & He2 & Hc2 & Hio2 & Hi2 & (Hs2 & Hd2 & Ho2) & Hhp).
  { destruct b; [exists c1, s1; by split_and!; try apply Hb|].
    destruct (lease_ok (E := RecvEnd) c1 i s1 len (w_heap (c_world c1))) as (d & a & o & Hq & Hok & Ho' & Hsl & _ & Hpb & Hne);
      try done; [lia..|].
    eexists _, (SlotQ.with_data d s1). split; [exact Hq|]. split; [done|]. split; [cbn; by rewrite Ho'|].
    split; [cbn; rewrite Hsl; apply list_lookup_insert_eq; by eapply lookup_lt_Some|]. split; [done|]. by apply page_buf_holds. }
  eapply ends_step; [exact He2|]. eapply ends_step; [by apply set_data_len_eq|].
  eapply ends_step; [apply stash_eq; [by eapply put_slot_lookup|done]|]. apply ends_ret.
  rewrite put_slot_put. split; [|split; [done|]].
  - eapply (put_ok _ _ i s2); try done; cbn; rewrite ?Hs2; try done.
    replace (with_cmd sqe _) with (with_cmd sqe (with_recv_offset 0 (with_data_len len s2))) by (rewrite <- Ho2; by destruct s2).
    apply announced_buf; [done|done|lia|lia].
  - exists i, (with_cmd sqe (with_data_len len s2)). split; [done|]. split; [by eapply put_slot_lookup|].
    unfold payload_total. cbn. by split_and!; lia || done.
Qed.

Lemma capsule_tagged_ok c i s sqe len ddgst rc p :
  conn_ok c -> slots (arr c) !! i = Some s -> fresh s -> ring_ctx_ok c rc -> Sqe_wf sqe ->
  ends (capsule_tagged (Z.of_nat i) sqe len ddgst rc p) c (routed_ok c) (fun c' _ => conn_ok c').
Proof.
  intros Hc Hi Hf Hrc Hx. destruct (Z.ltb_spec 0 len) as [Hl|Hl]; [by eapply in_capsule_ok|].
  destruct Hf as (Hs & Hd & Ho). unfold capsule_tagged. eapply ends_step; [by apply q_slot_eq|].
  rewrite (proj2 (Z.ltb_ge 0 len) Hl). destruct (needs_r2t sqe) eqn:Hr.
  - unfold needs_r2t in Hr. zbool. destruct (Z.ltb_spec MDTS_BYTES (sgl_length (sqe_dptr sqe))); [by apply ends_fail|].
    apply ends_get. set (n := sgl_length (sqe_dptr sqe)) in *.
    destruct (lease_ok (E := RecvEnd) c i s n (w_heap (c_world c))) as (d & a & o & Hq & Hok & Ho' & Hsl & _ & Hpb & Hne);
      try done; [lia..|].
    eapply ends_step; [exact Hq|]. set (c2 := c_set_ring o (c_slots a c)) in *.
    assert (slots (arr c2) !! i = Some (SlotQ.with_data d s)) as Hi2
      by (cbn; rewrite Hsl; apply list_lookup_insert_eq; by eapply lookup_lt_Some).
    eapply ends_step; [by apply set_data_len_eq|].
    eapply ends_step; [apply set_recv_offset_eq; by eapply put_slot_lookup|]. rewrite put_slot_put.
    eapply ends_step; [apply stash_eq; [by eapply put_slot_lookup|done]|]. rewrite put_slot_put.
    eapply ends_step; [eapply solicit_eq; [by eapply put_slot_lookup|done]|]. apply ends_ret.
    split; [|by split]. apply pushed_ok; [cbn; lia|]. eapply (put_ok _ _ i _ _ _ Hok Hi2); try done; cbn; rewrite ?Hs; try done.
    apply announced_buf; [by apply page_buf_holds|done|lia|lia].
  - eapply ends_step; [by apply q_submit_eq|]. apply ends_ret. split; [|by split].
    eapply (put_ok _ _ i s); try done; [by apply traffic_ok|]. apply ready_buf; [by apply (ck_bufs _ _ Hc i)|done|done].
Qed.

(** What a decoded header's fields satisfy. *)
Definition kind_ok (k : PduKind) : Prop :=
  match k with
  | KH2CData _ ttag _ _ _ => 0 <= ttag
  | KCapsuleCmd sqe => Sqe_wf sqe
  | _ => True
  end.

Lemma take_kind_ok b h n k : take_kind b h n = Ok k -> kind_ok k.
Proof.
  unfold take_kind, mbind, res_bind, expect, read_from_bytes. cbv zeta.
  repeat (case_match; simplify_eq); try done; intros [= <-]; try done; cbn.
  - apply Sqe_view_wf. unfold bytes_at. rewrite length_take, length_drop. lia.
  - unfold field. apply le_combine_bound.
Qed.

Lemma take_ok_kind d d' p : PduDecoder_take d = (d', Ok p) -> kind_ok (dp_kind p).
Proof.
  unfold PduDecoder_take, mbind, M_bind, get, lift, modify, mret, M_ret.
  destruct (assert _); try done. destruct (take_parse _ _) as [q|e|] eqn:Hp; try done. intros [= _ <-].
  revert Hp. unfold take_parse. cbv zeta.
  destruct (expect _) as [h| |]; try done. cbn [mbind res_bind].
  match goal with |- context [@mbind _ _ _ _ _ (if ?b then _ else _)] => destruct b end; cbn [mbind res_bind].
  1: destruct (assert _) as [[]| |]; try done; cbn [mbind res_bind]; destruct (negb (field _ _ _ =? _)); try done; cbn [mbind res_bind].
  all: destruct (checked _ _) as [r| |]; try done; cbn [mbind res_bind].
  all: destruct (checked _ (r - _)) as [n| |]; try done; cbn [mbind res_bind].
  all: destruct (_ && negb (ch_pdo _ =? _)); try done.
  all: destruct (take_kind _ _ _) as [k| |] eqn:Hkk; try done; cbn [mbind res_bind].
  all: intros [= <-]; by eapply take_kind_ok.
Qed.

Lemma decodes_kind_ok d wire p : decodes d wire p -> kind_ok (dp_kind p).
Proof. intros H. destruct (H []) as (d1 & d2 & _ & Ht & _). by eapply take_ok_kind. Qed.

Lemma validate_h2c_ok c cid ttag off len dl :
  conn_ok c -> 0 <= ttag ->
  ends (validate_h2c cid ttag off len dl) c
    (fun c' t => c' = c /\ exists i s, t = Z.of_nat i /\ slots (arr c) !! i = Some s /\ state s = Receiving /\
       sqe_cid (cmd s) = cid /\ off = recv_offset s /\ 0 < len /\ off + len <= data_len s /\ dl = len)
    (fun c' _ => conn_ok c').
Proof.
  intros Hc Ht. unfold validate_h2c. apply ends_get.
  destruct (Z.leb_spec (sqsize (w_core (c_world c))) ttag) as [|Hlt]; [by apply ends_fail|].
  destruct (ck_slots _ _ Hc) as (rss & res & Ha). pose proof (ok_n _ _ _ Ha) as [_ Hl].
  rewrite (ck_size _ _ Hc) in Hlt. destruct (lookup_lt_is_Some_2 (slots (arr c)) (Z.to_nat ttag)) as [s Hs]; [lia|].
  assert (ttag = Z.of_nat (Z.to_nat ttag)) as Hz by lia.
  eapply ends_step; [rewrite Hz; by apply q_slot_eq|]. cbv zeta.
  destruct (_ && _) eqn:Hv; [|by apply ends_fail]. cbn [negb]. zbool.
  destruct (Z.eqb_spec dl len); [|by apply ends_fail]. cbn [negb]. apply ends_ret. split; [done|].
  exists (Z.to_nat ttag), s. destruct (checked_add 32 off len) as [fin|] eqn:He; [|done]. zbool.
  assert (fin = off + len) as -> by (unfold checked_add in He; by case_decide; simplify_eq).
  split_and!; try done. by eapply bool_decide_eq_true.
Qed.

(** A tag for the capsule, or the wait for one. *)
Definition handled_ok c c' (h : Handled) : Prop :=
  match h with
  | Routed p => routed_ok c c' p
  | Waiting _ => conn_ok c' /\ (is_Some (c_ring c') <-> is_Some (c_ring c)) /\
      free_tags (arr c') = [] /\ tag_waiter (arr c') <> None
  end.

(** A capsule being handled: its window's ring buffer, and a decoded command. *)
Definition capsule_ok (rc : option RingCtx) (k : Capsule) : Prop := ca_ring k = rc /\ Sqe_wf (ca_sqe k).

Lemma handle_capsule_cmd_ok c t k :
  conn_ok c -> ring_ctx_ok c (ca_ring k) -> Sqe_wf (ca_sqe k) ->
  ends (handle_capsule_cmd t k) c (fun c' h => handled_ok c c' h /\ (forall k', h = Waiting k' -> k' = k))
    (fun c' _ => conn_ok c').
Proof.
  intros Hc Hrc Hx. unfold handle_capsule_cmd.
  destruct (await_tag_ok (E := RecvEnd) c t Hc) as [(c1 & He & Hc1 & Hf & Heq)|(i & s & c1 & He & Hc1 & Hi & Hs & Heq)].
  - eapply ends_step; [exact He|]. apply ends_ret. split; [|by intros k' [= ->]]. by subst c1.
  - eapply ends_step; [exact He|]. apply ends_bind.
    assert (slots (arr c1) !! i = Some (with_recv_offset 0 (with_data_len 0 (with_state Receiving s)))) as Hi1
      by (subst c1; cbn; apply list_lookup_insert_eq; by eapply lookup_lt_Some).
    assert (c_ring c1 = c_ring c) as Hr1 by (by subst c1).
    eapply ends_mono; [eapply (capsule_tagged_ok c1 i); [done|exact Hi1|done| |done]| |by intros].
    + destruct (ca_ring k); cbn in *; [by rewrite Hr1|done].
    + intros c2 p (? & Hio & ?). apply ends_ret. split; [|done]. by rewrite Hr1 in Hio.
Qed.

Lemma handle_pdu_ok c t d d' pdu dd rc p :
  conn_ok c -> ring_ctx_ok c rc -> PduDecoder_take d = (d', Ok pdu) ->
  ends (handle_pdu t pdu dd rc p) c (fun c' h => handled_ok c c' h /\ (forall k, h = Waiting k -> capsule_ok rc k))
    (fun c' _ => conn_ok c').
Proof.
  intros Hc Hrc Htk. unfold handle_pdu. destruct (dp_kind pdu) as [| |sqe| | |cid ttag off len last| |] eqn:Hk;
    try by apply ends_fail.
  - assert (Sqe_wf sqe) as Hx by (pose proof (take_ok_kind _ _ _ Htk) as Hx; by rewrite Hk in Hx).
    eapply ends_mono; [by apply handle_capsule_cmd_ok| |by intros]. intros c' h [H Hw]. split; [done|].
    by intros k ->%Hw.
  - apply ends_bind. eapply ends_mono; [apply validate_h2c_ok; [done|pose proof (take_ok_kind _ _ _ Htk) as Hx; by rewrite Hk in Hx]| |by intros].
    intros c1 tag (-> & i & s & -> & Hi & Hs & _ & Ho & Hl & Hle & _).
    eapply ends_step; [by apply q_slot_eq|].
    assert (exists c1 (b : bool), (match rc with
        | Some bid => if (off =? 0) && (len =? data_len s) then try_retain_payload bid (Z.of_nat i) p len else mret false
        | None => mret false end : M (Conn B) RecvEnd bool) c = (c1, Ok b) /\ conn_ok c1 /\
      (is_Some (c_ring c1) <-> is_Some (c_ring c)) /\
      exists s1, slots (arr c1) !! i = Some s1 /\ state s1 = Receiving /\ recv_offset s1 = recv_offset s /\
        data_len s1 = data_len s) as (c1 & b & He & Hc1 & Hio & s1 & Hi1 & Hs1 & Ho1 & Hd1).
    { assert (forall (b : bool), exists c1 b', (mret b : M (Conn B) RecvEnd bool) c = (c1, Ok b') /\ conn_ok c1 /\
        (is_Some (c_ring c1) <-> is_Some (c_ring c)) /\
        exists s1, slots (arr c1) !! i = Some s1 /\ state s1 = Receiving /\ recv_offset s1 = recv_offset s /\
          data_len s1 = data_len s) as Hno by (intros b; exists c, b; split_and!; try done; by exists s).
      destruct rc as [bid|]; [|apply Hno]. destruct ((off =? 0) && (len =? data_len s)) eqn:Hcase; [|apply Hno].
      zbool. destruct (try_retain_ok (E := RecvEnd) c i s bid p len) as (c1 & b & He & Hc1 & Hio & _ & Hb); try done; [lia..|].
      exists c1, b. split; [done|]. split; [done|]. split; [done|]. destruct b; [|subst c1; by exists s].
      exists (SlotQ.with_data (SlotData_ring bid p len) s). split; [|done].
      rewrite Hb. apply list_lookup_insert_eq. by eapply lookup_lt_Some. }
    eapply ends_step; [exact He|]. apply ends_ret. split; [|done]. split; [done|]. split; [done|].
    exists i, s1. split; [done|]. split; [done|]. split; [done|]. unfold payload_total. cbn.
    destruct (ck_bufs _ _ Hc _ _ Hi) as (_ & Hbuf & _). destruct (Hbuf Hs) as (B1 & _).
    split_and!; try lia. done.
Qed.

(** ** The decoder in the loop *)

Lemma dec_ready_open d : dec_ready d -> dec_open d.
Proof. intros Hr. split; [by apply dec_ready_wf|]. destruct Hr as (_ & Hh & Hn & Hs). rewrite Hh, Hn, Hs. split; [lia|done]. Qed.

Lemma feed_rest_open d input :
  dec_wf d -> dstate d = Rest -> dstate (feed_rest d input).1 <> Complete -> dec_open (feed_rest d input).1.
Proof.
  intros Hwf Hs Hc. split; [by apply feed_rest_wf|]. split; [|done]. revert Hc. unfold feed_rest. cbn [fst].
  case_decide as He; [done|]. intros _. revert He. destruct Hwf as (_ & Hle & _). cbn. rewrite length_take. lia.
Qed.

(** Feeding an open decoder consumes something, and leaves it open or complete. *)
Lemma feed_open d input :
  dec_open d -> input <> [] ->
  match feed input d with
  | (d', Ok n) => (0 < n <= length input)%nat /\ dec_wf d' /\
      (dstate d' <> Complete -> dec_open d' /\ n = length input)
  | (d', Err e) => dec_wf d'
  | (_, Panic) => False
  end.
Proof.
  intros (Hwf & Hlt & Hc) Hne. pose proof (feed_total d input Hwf) as Ht.
  assert (0 < length input)%nat by (destruct input; cbn; [done|lia]).
  destruct (dstate d) eqn:Hs; [| |done].
  - rewrite feed_common_eq in * by done. unfold feed_common in *. pose proof Hwf as (Hb & Hle & Hst). rewrite Hs in Hst.
    set (n := Nat.min (8 - have d) (length input)) in *.
    assert (length (take n input) = n) as Hl by (rewrite length_take; lia).
    case_decide as Hd.
    + destruct Ht as (Hw & _ & Hn). split; [lia|]. split; [done|]. intros Hcc. split; [|by apply Hn].
      split; [done|]. split; [|done]. cbn in Hd |- *. rewrite Hst. exact Hd.
    + destruct (full_header_len _) as [len|e|] eqn:Hf; [|by destruct Ht|done]. cbv zeta in *.
      set (r := feed_rest _ _) in *. destruct Ht as (Hw & Hn & Hcc). split; [lia|]. split; [done|]. intros Hx.
      split; [|by apply Hcc]. apply feed_rest_open; [|done|done]. apply set_rest_wf; [|cbn; cbn in Hd; lia|done].
      rewrite push_buf_length; unfold MAX_HDR in *; lia.
  - rewrite feed_rest_eq in * by done. cbv zeta in *. destruct Ht as (Hw & Hn & Hcc).
    split; [|split; [done|]; intros Hx; split; [by apply feed_rest_open|by apply Hcc]].
    split; [|done]. unfold feed_rest. cbn [snd]. lia.
Qed.

(** ** Rounds of the loop *)

Definition advanced (sl sl' : Slice) : Prop :=
  exists n, (0 < n <= length (sl_bytes sl))%nat /\ sl' = sl_advance n sl.

Lemma feed_header_ok x t dd rc sl :
  rx_ok x -> rx_phase x = PHeader -> ring_ctx_ok (rx_conn x) rc -> sl_bytes sl <> [] ->
  ends (feed_header t dd rc sl) x
    (fun x' '(h, sl') => handled_ok (rx_conn x) (rx_conn x') h /\ dec_open (rx_decoder x') /\
       rx_phase x' = PHeader /\ advanced sl sl' /\ (forall k, h = Waiting k -> capsule_ok rc k))
    (fun x' _ => conn_ok (rx_conn x')).
Proof.
  intros (Hc & Hd & Hp) Hph Hrc Hne. unfold feed_header.
  pose proof (feed_open _ _ Hd Hne) as Hf. destruct (feed (sl_bytes sl) (rx_decoder x)) as [d1 [n|e|]] eqn:Hfe; [| |done].
  2:{ unfold ends, mbind, M_bind, on_decoder. by rewrite Hfe. }
  destruct Hf as (Hn & Hw & Hopen).
  set (x1 := {| rx_conn := rx_conn x; rx_decoder := d1; rx_phase := rx_phase x |}).
  eapply (ends_step _ _ _ x1 n); [unfold on_decoder; by rewrite Hfe|].
  eapply (ends_step _ _ _ x1 tt); [unfold on_conn, lift, assert; rewrite bool_decide_true by lia; done|].
  cbv zeta. apply ends_get. destruct (is_complete (rx_decoder x1)) eqn:Hcp; cbn [negb].
  - assert (dstate d1 = Complete) as Hs by (revert Hcp; unfold is_complete; cbn; by destruct (dstate d1)).
    pose proof (take_total d1 Hw Hs) as Ht. destruct (PduDecoder_take d1) as [d2 [pdu|e|]] eqn:Htk; [| |done].
    2:{ unfold ends, mbind, M_bind, on_decoder. cbn [rx_decoder x1]. by rewrite Htk. }
    set (x2 := {| rx_conn := rx_conn x; rx_decoder := d2; rx_phase := rx_phase x |}).
    eapply (ends_step _ _ _ x2 pdu); [unfold on_decoder; cbn [rx_decoder x1]; by rewrite Htk|].
    apply ends_bind. pose proof (handle_pdu_ok (rx_conn x) t d1 d2 pdu dd rc (sl_ptr (sl_advance n sl)) Hc Hrc Htk) as Hh.
    unfold ends at 1, on_conn. unfold ends in Hh. cbn [rx_conn x2].
    destruct (handle_pdu _ _ _ _ _ _) as [c' [h|e|]]; [|done|done]. destruct Hh as [Hh Hk].
    apply ends_ret. split; [done|]. split; [apply dec_ready_open, Ht|]. split; [done|]. split; [by exists n|done].
  - assert (dstate d1 <> Complete) as Hs by (intros Hx; revert Hcp; unfold is_complete; cbn; by rewrite Hx).
    apply ends_ret. split; [by split|]. split; [by apply Hopen|]. split; [done|]. split; [by exists n|done].
Qed.

Lemma recv_round_ok x t dd rc sl :
  rx_ok x -> ring_ctx_ok (rx_conn x) rc -> sl_bytes sl <> [] ->
  ends (recv_round t dd rc sl) x
    (fun x' '(k, sl') => rx_ok x' /\ (is_Some (c_ring (rx_conn x')) <-> is_Some (c_ring (rx_conn x))) /\ advanced sl sl' /\
       match k with
       | Some k => capsule_ok rc k /\ rx_phase x' = PHeader /\ free_tags (arr (rx_conn x')) = [] /\
                   tag_waiter (arr (rx_conn x')) <> None
       | None => True
       end)
    (fun x' _ => conn_ok (rx_conn x')).
Proof.
  intros Hx Hrc Hne. pose proof Hx as (Hc & Hd & Hp). unfold recv_round. apply ends_get.
  destruct (rx_phase x) as [|d|d] eqn:Hph.
  - apply ends_bind. eapply ends_mono; [by apply feed_header_ok| |by intros].
    intros x' [h sl'] (Hh & Hdo & Hpx & Ha & Hk). destruct h as [[p|]|k]; cbn in Hh.
    + destruct Hh as (Hc' & Hio & Hp'). eapply ends_step; [reflexivity|]. apply ends_ret. by split.
    + destruct Hh as (Hc' & Hio & _). apply ends_ret. split; [|done]. split; [done|]. split; [done|]. by rewrite Hpx.
    + destruct Hh as (Hc' & Hio & Hf & Hw). apply ends_ret. split; [split; [done|]; split; [done|]; by rewrite Hpx|].
      split; [done|]. split; [done|]. split; [by apply Hk|done].
  - apply ends_bind. pose proof (DataPhase_advance_ok _ d sl Hc Hp Hne) as Ha.
    unfold ends at 1, on_conn. unfold ends in Ha. destruct (DataPhase_advance d sl (rx_conn x)) as [c' [[p sl']|e|]]; [|done|done].
    destruct Ha as (Hc' & Hr & Hp' & Ha). eapply ends_step; [reflexivity|]. apply ends_ret. cbn. by rewrite Hr.
  - apply ends_bind. pose proof (DdgstPhase_advance_ok _ d sl Hc Hp Hne) as Ha.
    unfold ends at 1, on_conn. unfold ends in Ha. destruct (DdgstPhase_advance d sl (rx_conn x)) as [c' [[p sl']|e|]]; [|done|done].
    destruct Ha as (Hc' & Hr & Hp' & Ha). eapply ends_step; [reflexivity|]. apply ends_ret. cbn. by rewrite Hr.
Qed.

(** What a window leaves behind, with [n] bytes read or in hand. *)
Definition window_ok (x x' : RecvSt B) (rc : option RingCtx) (n : nat) (w : WindowEnd) : Prop :=
  rx_ok x' /\ (is_Some (c_ring (rx_conn x')) <-> is_Some (c_ring (rx_conn x))) /\
  match w with
  | Drained => True
  | Blocked k sl => capsule_ok rc k /\ rx_phase x' = PHeader /\ (length (sl_bytes sl) <= n)%nat /\
      free_tags (arr (rx_conn x')) = [] /\ tag_waiter (arr (rx_conn x')) <> None
  end.

Lemma ring_ctx_same c c' rc :
  (is_Some (c_ring c') <-> is_Some (c_ring c)) -> ring_ctx_ok c rc -> ring_ctx_ok c' rc.
Proof. intros H. destruct rc; [|done]. cbn. by rewrite H. Qed.

Lemma advanced_length sl sl' : advanced sl sl' -> (length (sl_bytes sl') < length (sl_bytes sl))%nat.
Proof. intros (n & Hn & ->). cbn. rewrite length_drop. lia. Qed.

Lemma recv_window_ok fuel x t dd rc sl :
  rx_ok x -> ring_ctx_ok (rx_conn x) rc -> (length (sl_bytes sl) <= fuel)%nat ->
  ends (recv_window fuel t dd rc sl) x (fun x' w => window_ok x x' rc (length (sl_bytes sl)) w)
    (fun x' _ => conn_ok (rx_conn x')).
Proof.
  revert x sl. induction fuel as [|fuel IH]; intros x sl Hx Hrc Hf; cbn [recv_window];
    (destruct (sl_bytes sl) as [|b bs] eqn:Hsl; [by apply ends_ret|]).
  { cbn in Hf. lia. }
  apply ends_bind. eapply ends_mono; [apply recv_round_ok; [done|done|by rewrite Hsl]| |by intros].
  intros x1 [k sl1] (Hx1 & Hio & Ha & Hk). pose proof (advanced_length _ _ Ha) as Hl. rewrite Hsl in Hl.
  destruct k as [k|].
  - apply ends_ret. destruct Hk as (? & ? & ? & ?). split; [done|]. split; [done|]. split_and!; try done. lia.
  - eapply ends_mono; [apply IH; [done|by eapply ring_ctx_same|cbn in Hf, Hl; lia]| |by intros].
    intros x2 w (Hx2 & Hio2 & Hw). split; [done|]. split; [by rewrite Hio2|].
    destruct w as [|k sl2]; [done|]. destruct Hw as (? & ? & ? & ? & ?). split_and!; try done. cbn in *. lia.
Qed.

Lemma recv_bytes_ok x t dd rc sl :
  rx_ok x -> ring_ctx_ok (rx_conn x) rc ->
  ends (recv_bytes t dd rc sl) x (fun x' w => window_ok x x' rc (length (sl_bytes sl)) w)
    (fun x' _ => conn_ok (rx_conn x')).
Proof. intros. by apply recv_window_ok. Qed.

Lemma resume_capsule_ok x t dd rc k sl :
  rx_ok x -> rx_phase x = PHeader -> ring_ctx_ok (rx_conn x) rc -> capsule_ok rc k ->
  ends (resume_capsule t dd rc k sl) x (fun x' w => window_ok x x' rc (length (sl_bytes sl)) w)
    (fun x' _ => conn_ok (rx_conn x')).
Proof.
  intros (Hc & Hd & Hp) Hph Hrc [Hk Hx]. unfold resume_capsule, recv_bytes. apply ends_bind.
  pose proof (handle_capsule_cmd_ok (rx_conn x) t k Hc) as Hh. rewrite Hk in Hh. specialize (Hh Hrc Hx).
  unfold ends at 1, on_conn. unfold ends in Hh.
  destruct (handle_capsule_cmd t k (rx_conn x)) as [c' [h|e|]]; [|done|done]. destruct Hh as [Hh Hk'].
  destruct h as [[p|]|k']; cbn in Hh.
  - destruct Hh as (Hc' & Hio & Hp'). eapply ends_step; [reflexivity|].
    eapply ends_mono; [apply recv_window_ok; [by split|by eapply ring_ctx_same|done]| |by intros].
    intros x2 w (Hx2 & Hio2 & Hw). split; [done|]. split; [by rewrite Hio2|done].
  - destruct Hh as (Hc' & Hio & _).
    eapply ends_mono; [apply recv_window_ok; [split; [done|]; split; [done|]; by rewrite Hph|by eapply ring_ctx_same|done]| |by intros].
    intros x2 w (Hx2 & Hio2 & Hw). split; [done|]. split; [by rewrite Hio2|done].
  - destruct Hh as (Hc' & Hio & Hf & Hw). apply ends_ret. rewrite (Hk' k' eq_refl).
    split; [split; [done|]; split; [done|]; by rewrite Hph|]. by split_and!.
Qed.

(** The invariant the loop starts with. *)
Definition rx_start (hdr_digest : bool) c : RecvSt B :=
  {| rx_conn := c; rx_decoder := PduDecoder_new hdr_digest; rx_phase := PHeader |}.

Lemma rx_start_ok hd c : conn_ok c -> rx_ok (rx_start hd c).
Proof. intros Hc. split; [done|]. split; [apply dec_ready_open, new_ready|done]. Qed.

End RecvProofs.
