(* ===== verification/RecvStream.v ===== *)
(** * TCP may cut the stream anywhere

    A connection's bytes arrive in windows whose boundaries mean nothing.  Two
    windows in sequence do exactly what their concatenation does, to the whole
    state: decoder, phase, slots, memory, send list.  Memories are functions,
    so equality of states uses functional extensionality. *)

From Stdlib Require Import FunctionalExtensionality.
From S2P Require Import Prelude Digest Spec Pdu PduProofs Pool.
From S2P Require Import PoolProofs PoolSafety PoolData SlotQ SlotQProofs.
From S2P Require Import SlotQSafety Backend Dispatch BufRing RingProofs TcpQueue.
From S2P Require Import Recv ExecLaws ConnProofs RecvProofs.

(** ** Writing in two pieces *)

Lemma mem_write_pieces m a x y : mem_write m a (x ++ y) = mem_write (mem_write m a x) (a + Z.of_nat (length x)) y.
Proof.
  apply functional_extensionality. intros z. unfold mem_write. rewrite length_app.
  destruct (decide (a + Z.of_nat (length x) <= z < a + Z.of_nat (length x) + Z.of_nat (length y))).
  - rewrite decide_True by lia. rewrite app_nth2 by lia. f_equal. lia.
  - destruct (decide (a <= z < a + Z.of_nat (length x))).
    + rewrite decide_True by lia. apply app_nth1. lia.
    + rewrite decide_False by lia. done.
Qed.

Lemma write_loop_nil m l off : write_loop m l off [] = (m, []).
Proof. by destruct l. Qed.

Lemma write_loop_app m l off p q m1 :
  0 <= off -> Forall (fun s => 0 <= seg_len s) l -> write_loop m l off p = (m1, []) ->
  write_loop m l off (p ++ q) = write_loop m1 l (off + Z.of_nat (length p)) q.
Proof.
  intros Ho Hl. revert m off p Ho. induction Hl as [|s l Hs Hl IH]; intros m off p Ho; cbn [write_loop].
  { intros [= <- ->]. done. }
  destruct (decide (p = [])) as [->|Hp].
  { intros [= <-]. cbn [app length]. replace (off + Z.of_nat 0) with off by lia. done. }
  assert (0 < length p)%nat by (destruct p; cbn; [done|lia]).
  rewrite (decide_False (P := p ++ q = [])) by (by destruct p).
  destruct (Z.leb_spec (seg_len s) off) as [Hle|Hgt].
  - intros Hw. rewrite (IH m (off - seg_len s) p ltac:(lia) Hw). destruct (decide (q = [])) as [->|Hq]; [by rewrite write_loop_nil|].
    destruct (Z.leb_spec (seg_len s) (off + Z.of_nat (length p))); [|lia]. f_equal. lia.
  - rewrite length_app. destruct (decide (seg_len s - off <= Z.of_nat (length p))) as [Hge|Hlt].
    + set (k := Z.to_nat (seg_len s - off)).
      replace (Z.to_nat (Z.min (seg_len s - off) (Z.of_nat (length p)))) with k by lia.
      replace (Z.to_nat (Z.min (seg_len s - off) (Z.of_nat (length p + length q)))) with k by lia.
      rewrite take_app_le, drop_app_le by lia. intros Hw. rewrite (IH _ 0 (drop k p) ltac:(lia) Hw).
      destruct (decide (q = [])) as [->|Hq]; [by rewrite write_loop_nil|].
      destruct (Z.leb_spec (seg_len s) (off + Z.of_nat (length p))); [|lia]. f_equal. rewrite length_drop. lia.
    + replace (Z.to_nat (Z.min (seg_len s - off) (Z.of_nat (length p)))) with (length p) by lia.
      rewrite firstn_all, drop_all, write_loop_nil. intros [= <-].
      set (n := Z.to_nat (Z.min (seg_len s - (off + Z.of_nat (length p))) (Z.of_nat (length q)))).
      replace (Z.to_nat (Z.min (seg_len s - off) (Z.of_nat (length p + length q)))) with (length p + n)%nat by lia.
      rewrite take_app_add, drop_app_add, mem_write_pieces.
      destruct (decide (q = [])) as [->|Hq].
      { assert (n = 0%nat) as -> by (unfold n; cbn; lia). cbn. rewrite write_loop_nil. f_equal.
        apply functional_extensionality. intros z. unfold mem_write at 1. cbn. rewrite decide_False by lia. done. }
      destruct (Z.leb_spec (seg_len s) (off + Z.of_nat (length p))); [lia|]. by rewrite Z.add_assoc.
Qed.

Lemma segs_ok_nonneg l : segs_ok l -> Forall (fun s => 0 <= seg_len s) l.
Proof. induction l as [|s l IH]; [constructor|]. intros (? & _ & ?). constructor; auto. Qed.

Lemma write_at_app {E} d off p q m m1 :
  0 <= off -> segs_ok (segs d) -> write_at (E := E) d off p m = Ok m1 ->
  write_at (E := E) d off (p ++ q) m = write_at d (off + Z.of_nat (length p)) q m1.
Proof.
  intros Ho Hs. unfold write_at. destruct (write_loop m (segs d) off p) as [m' r] eqn:Hw.
  destruct (bool_decide (r = [])) eqn:Hr; [|done]. apply bool_decide_eq_true in Hr as ->. intros [= ->].
  by rewrite (write_loop_app m (segs d) off p q m1 Ho (segs_ok_nonneg _ Hs) Hw).
Qed.

(** ** Slices *)

Definition sl_app (sl : Slice) (b : bytes) : Slice := {| sl_ptr := sl_ptr sl; sl_bytes := sl_bytes sl ++ b |}.

(** The bytes behind [sl]. *)
Definition sl_next (sl : Slice) (b : bytes) : Slice :=
  {| sl_ptr := sl_ptr sl + Z.of_nat (length (sl_bytes sl)); sl_bytes := b |}.

Lemma sl_advance_app n sl b :
  (n <= length (sl_bytes sl))%nat -> sl_advance n (sl_app sl b) = sl_app (sl_advance n sl) b.
Proof. intros Hn. unfold sl_advance, sl_app. cbn. by rewrite drop_app_le. Qed.

Lemma sl_advance_past n sl b :
  sl_advance (length (sl_bytes sl) + n) (sl_app sl b) = sl_advance n (sl_next sl b).
Proof. unfold sl_advance, sl_app, sl_next. cbn. rewrite drop_app_add. f_equal. lia. Qed.

Section Stream.
Context {B : Type} {L : Crc32cLib} {LL : Crc32cLaws L}.
Implicit Types (c : Conn B) (s : Slot Sqe).

Abbreviation arr c := (w_slots (c_world c)).

(** A result whose left-over bytes are followed by [b]. *)
Definition behind {S E A} (b : bytes) (r : S * res E (A * Slice)) : S * res E (A * Slice) :=
  match r with (s, Ok (a, sl)) => (s, Ok (a, sl_app sl b)) | r => r end.

Lemma behind_bind {S E A A'} b (m : M S E A) (f g : A -> M S E (A' * Slice)) (s : S) :
  (forall a (s' : S), f a s' = behind b (g a s')) -> (m ≫= f) s = behind b ((m ≫= g) s).
Proof. intros H. unfold mbind, M_bind. by destruct (m s) as [s' [a|e|]]. Qed.

Lemma update_app crc a b :
  in_u 32 (crc_state crc) -> Crc32c_update crc (a ++ b) = Crc32c_update (Crc32c_update crc a) b.
Proof. intros H. unfold Crc32c_update. cbn. by rewrite crc_append_app. Qed.

(** ** Payload bytes *)

(** All of the rest of the payload is in the first window. *)
Lemma data_advance_full c d sl b :
  (Z.to_nat (ph_remaining d) <= length (sl_bytes sl))%nat ->
  DataPhase_advance d (sl_app sl b) c = behind b (DataPhase_advance d sl c).
Proof.
  intros Hn. unfold DataPhase_advance. cbn [sl_app sl_bytes]. rewrite length_app, !Nat.min_l by lia.
  rewrite take_app_le by lia. apply behind_bind. intros [] c'. cbv zeta.
  set (d' := ph_take _ _ d). rewrite sl_advance_app by lia.
  destruct (0 <? ph_remaining d'); [done|]. by apply behind_bind.
Qed.

Lemma stored_app d s p q crc m m1 :
  segs_ok (segs (data s)) -> ph_remaining d <= payload_total d s -> 0 <= ph_base d -> stored d s p m = Ok m1 ->
  stored d s (p ++ q) m = stored (ph_take (length p) crc d) s q m1.
Proof.
  intros Hs Hr Hb. unfold stored. cbn [ph_take ph_retained ph_base ph_remaining].
  destruct (ph_retained d); [by intros [= ->]|]. intros Hw.
  rewrite (write_at_app (data s) _ p q m m1) by (done || lia). f_equal. unfold payload_total. cbn. lia.
Qed.

(** The first window ends inside the payload. *)
Lemma data_advance_part c d sl b :
  conn_ok c -> data_ok c d -> (0 < length (sl_bytes sl) < Z.to_nat (ph_remaining d))%nat ->
  exists c1 d1, DataPhase_advance d sl c = (c1, Ok (PData d1, sl_advance (length (sl_bytes sl)) sl)) /\
    DataPhase_advance d (sl_app sl b) c = DataPhase_advance d1 (sl_next sl b) c1.
Proof.
  intros Hc (i & s & Ht & Hi & Hs & Hr & Hb & Hle & Hcrc & Hk) Hlt.
  destruct (ck_bufs _ _ Hc _ _ Hi) as (Hsg & _ & _). set (na := length (sl_bytes sl)) in *.
  set (crc := if ph_ddgst d then Crc32c_update (ph_crc d) (sl_bytes sl) else ph_crc d). set (d1 := ph_take na crc d).
  assert (data_taken d sl = na) as Hna by (unfold data_taken; lia).
  destruct (stored_ok c d i s sl Hc Hi Hs Hr Hb Hle) as (m & Hm).
  pose proof (data_advance_eq c d sl i s m Hc Ht Hi Hs Hr Hb Hle Hm) as He. rewrite Hna in Hm, He. unfold took in He.
  assert (take na (sl_bytes sl) = sl_bytes sl) as Hall by apply firstn_all.
  rewrite Hall in Hm, He. fold crc d1 in He. cbv zeta in He.
  destruct (Z.ltb_spec 0 (ph_remaining d1)) as [Hpos|Hx]; [|cbn in Hx; lia].
  exists (put_mem m c), d1. split; [exact He|].
  set (nb := data_taken d1 (sl_next sl b)).
  assert (data_taken d (sl_app sl b) = (na + nb)%nat) as Hnab.
  { unfold nb, data_taken. cbn. rewrite length_app. fold na. lia. }
  assert (slots (arr (put_mem m c)) !! i = Some s) as Hi1 by done.
  assert (payload_total d1 s = payload_total d s) as Htot by done.
  destruct (stored_ok (put_mem m c) d1 i s (sl_next sl b)) as (m2 & Hm2);
    [by apply put_mem_ok|done|done|cbn; cbn in Hpos; rewrite Htot; lia|done|by rewrite Htot|].
  rewrite (data_advance_eq (put_mem m c) d1 (sl_next sl b) i s m2);
    [|by apply put_mem_ok|done|done|done|cbn; cbn in Hpos; rewrite Htot; lia|done|by rewrite Htot|done].
  assert (take (na + nb) (sl_bytes sl ++ b) = sl_bytes sl ++ take nb b) as Htk by apply take_app_add.
  rewrite (data_advance_eq c d (sl_app sl b) i s m2 Hc Ht Hi Hs Hr Hb Hle).
  2:{ rewrite Hnab. cbn [sl_app sl_bytes]. rewrite Htk. rewrite (stored_app d s _ _ crc _ m Hsg) by (done || lia).
      exact Hm2. }
  rewrite Hnab. fold nb. replace (put_mem m2 (put_mem m c)) with (put_mem m2 c) by done. unfold took.
  cbn [sl_app sl_bytes sl_next]. rewrite Htk.
  assert (ph_take (na + nb) (if ph_ddgst d then Crc32c_update (ph_crc d) (sl_bytes sl ++ take nb b) else ph_crc d) d
    = ph_take nb (if ph_ddgst d1 then Crc32c_update (ph_crc d1) (take nb b) else ph_crc d1) d1) as ->.
  { unfold d1, crc. cbn [ph_take ph_ddgst ph_crc]. unfold ph_take. cbn. f_equal; [lia|].
    destruct (ph_ddgst d); [by rewrite update_app|done]. }
  unfold na. rewrite sl_advance_past. done.
Qed.

(** ** Digest bytes *)

Lemma copy_into_app {E} dst off p q :
  (off + length p + length q <= length dst)%nat ->
  copy_into (E := E) dst off (p ++ q) = (d ← copy_into dst off p; copy_into d (off + length p) q).
Proof.
  intros H. rewrite !copy_into_ok by (rewrite ?length_app; lia). cbn [mbind res_bind].
  rewrite copy_into_ok by (rewrite !length_app, length_take, length_drop; lia).
  rewrite length_app. f_equal. rewrite take_app_add' by (rewrite length_take; lia). rewrite take_app_length.
  rewrite <- !app_assoc. do 3 f_equal. rewrite !drop_app_ge by (rewrite ?length_take; lia).
  rewrite drop_drop. f_equal. rewrite length_take. lia.
Qed.

(** The digest has [n] more bytes, [have] so far: wait for the rest, or decide. *)
Definition judged (d : DdgstPhase) (n : nat) (have : bytes) (sl : Slice) : M (Conn B) RecvEnd (RecvPhase * Slice) :=
  let d := dg_take n have d in
  if decide (dg_have_len d < 4)%nat then mret (PDdgst d, sl_advance n sl)
  else if negb (le_combine (dg_have d) =? dg_expected d)
  then p ← fail_digest (dg_tag d); mret (p, sl_advance n sl)
  else _ ← from_pdu (finish_payload (dg_tag d) (dg_kind d)); mret (PHeader, sl_advance n sl).

Definition dg_taken (d : DdgstPhase) (sl : Slice) : nat := Nat.min (4 - dg_have_len d) (length (sl_bytes sl)).

Lemma ddgst_advance_eq c d sl have :
  (dg_have_len d < 4)%nat -> copy_into (E := RecvEnd) (dg_have d) (dg_have_len d) (take (dg_taken d sl) (sl_bytes sl)) = Ok have ->
  DdgstPhase_advance d sl c = judged d (dg_taken d sl) have sl c.
Proof.
  intros Hl Hcp. unfold DdgstPhase_advance.
  rewrite (bind_ok _ _ c c (4 - dg_have_len d)%nat) by (unfold lift, usub; by rewrite decide_True by lia).
  fold (dg_taken d sl). by rewrite (bind_ok _ _ c c have) by (unfold lift; by rewrite Hcp).
Qed.

Lemma ddgst_copy d sl :
  (dg_have_len d < 4)%nat -> length (dg_have d) = 4%nat ->
  exists have, copy_into (E := RecvEnd) (dg_have d) (dg_have_len d) (take (dg_taken d sl) (sl_bytes sl)) = Ok have.
Proof. intros Hl Hn. rewrite copy_into_ok by (rewrite length_take; unfold dg_taken; lia). by eexists. Qed.

Lemma ddgst_advance_full c d sl b :
  phase_ok c (PDdgst d) -> (4 - dg_have_len d <= length (sl_bytes sl))%nat ->
  DdgstPhase_advance d (sl_app sl b) c = behind b (DdgstPhase_advance d sl c).
Proof.
  intros (_ & Hl & Hn) Hge. destruct (ddgst_copy d sl Hl Hn) as (have & Hcp).
  assert (dg_taken d (sl_app sl b) = dg_taken d sl) as Ht by (unfold dg_taken; cbn; rewrite length_app; lia).
  rewrite (ddgst_advance_eq c d sl have Hl Hcp), (ddgst_advance_eq c d (sl_app sl b) have Hl).
  2:{ rewrite Ht. cbn [sl_app sl_bytes]. rewrite take_app_le by (unfold dg_taken; lia). done. }
  rewrite Ht. unfold judged. cbv zeta. rewrite sl_advance_app by (unfold dg_taken; lia).
  case_decide; [done|]. destruct (negb _); by apply behind_bind.
Qed.

Lemma ddgst_advance_part c d sl b :
  phase_ok c (PDdgst d) -> (length (sl_bytes sl) < 4 - dg_have_len d)%nat ->
  exists d1, DdgstPhase_advance d sl c = (c, Ok (PDdgst d1, sl_advance (length (sl_bytes sl)) sl)) /\
    DdgstPhase_advance d (sl_app sl b) c = DdgstPhase_advance d1 (sl_next sl b) c.
Proof.
  intros (_ & Hl & Hn) Hlt. set (na := length (sl_bytes sl)) in *.
  assert (dg_taken d sl = na) as Hna by (unfold dg_taken; lia).
  assert (take na (sl_bytes sl) = sl_bytes sl) as Hall by apply firstn_all.
  destruct (ddgst_copy d sl Hl Hn) as (have & Hcp). pose proof (ddgst_advance_eq c d sl have Hl Hcp) as He.
  rewrite Hna in Hcp, He. rewrite Hall in Hcp. unfold judged in He. cbv zeta in He.
  rewrite decide_True in He by (cbn; lia). set (d1 := dg_take na have d) in *. exists d1. split; [exact He|].
  assert (dg_have_len d1 < 4)%nat as Hl1 by (cbn; lia).
  assert (length (dg_have d1) = 4%nat) as Hn1 by (rewrite <- Hn; by eapply copy_into_length).
  destruct (ddgst_copy d1 (sl_next sl b) Hl1 Hn1) as (have2 & Hcp2).
  set (nb := dg_taken d1 (sl_next sl b)) in *.
  assert (dg_taken d (sl_app sl b) = (na + nb)%nat) as Hnab.
  { unfold nb, dg_taken. cbn. rewrite length_app. fold na. lia. }
  rewrite (ddgst_advance_eq c d1 (sl_next sl b) have2 Hl1 Hcp2). fold nb.
  rewrite (ddgst_advance_eq c d (sl_app sl b) have2 Hl); rewrite Hnab.
  - unfold judged. cbv zeta. unfold na. rewrite sl_advance_past. fold na.
    assert (dg_take (na + nb) have2 d = dg_take nb have2 d1) as -> by (unfold d1, dg_take; cbn; f_equal; lia). done.
  - cbn [sl_app sl_bytes]. assert (take (na + nb) (sl_bytes sl ++ b) = sl_bytes sl ++ take nb b) as -> by apply take_app_add.
    rewrite copy_into_app.
    + rewrite Hcp. cbn [mbind res_bind]. exact Hcp2.
    + rewrite length_take. unfold nb, dg_taken. cbn. fold na. lia.
Qed.

(** ** Headers *)

Lemma feed_header_app (x : RecvSt B) t dd rc sl b :
  rx_ok x -> sl_bytes sl <> [] -> b <> [] ->
  feed_header t dd rc (sl_app sl b) x = behind b (feed_header t dd rc sl x) \/
  exists x1, feed_header t dd rc sl x = (x1, Ok (Routed None, sl_advance (length (sl_bytes sl)) sl)) /\
    rx_phase x1 = rx_phase x /\ feed_header t dd rc (sl_app sl b) x = feed_header t dd rc (sl_next sl b) x1.
Proof.
  intros (Hc & Hd & Hp) Hne Hb. pose proof (feed_open _ _ Hd Hne) as Hf. destruct Hd as (Hwf & Hhn & Hnc).
  pose proof (feed_fragmentation (rx_decoder x) (sl_bytes sl) b Hwf) as Hfr.
  destruct (feed (sl_bytes sl) (rx_decoder x)) as [d1 [n|e|]] eqn:Hfe; [| |done].
  2:{ left. unfold feed_header, mbind, M_bind, on_decoder. cbn [sl_app sl_bytes]. by rewrite Hfe, Hfr. }
  destruct Hf as (Hn & Hw & Hopen). set (x1 := {| rx_conn := rx_conn x; rx_decoder := d1; rx_phase := rx_phase x |}).
  assert (forall k sl', (k <= length (sl_bytes sl'))%nat -> forall z : RecvSt B,
    on_conn (lift (assert (bool_decide (k <= length (sl_bytes sl'))%nat))) z = (z, Ok tt)) as Has.
  { intros k sl' Hk z. unfold on_conn, lift, assert. rewrite bool_decide_true by done. by destruct z. }
  destruct (is_complete d1) eqn:Hcp.
  - left. unfold feed_header.
    rewrite (bind_ok _ _ x x1 n) by (unfold on_decoder; cbn [sl_app sl_bytes]; by rewrite Hfr).
    rewrite (bind_ok _ _ x x1 n) by (unfold on_decoder; by rewrite Hfe).
    rewrite (bind_ok _ _ x1 x1 tt) by (apply Has; cbn; rewrite length_app; lia).
    rewrite (bind_ok _ _ x1 x1 tt) by (apply Has; lia). cbv zeta. rewrite !get_bind. cbn [rx_decoder x1].
    rewrite Hcp. cbn [negb]. rewrite sl_advance_app by lia. apply behind_bind. intros pdu x'. by apply behind_bind.
  - right. assert (dstate d1 <> Complete) as Hs by (intros Hx; revert Hcp; unfold is_complete; by rewrite Hx).
    destruct (Hopen Hs) as [Hopen1 ->]. exists x1. split; [|split; [done|]].
    + unfold feed_header. rewrite (bind_ok _ _ x x1 (length (sl_bytes sl))) by (unfold on_decoder; by rewrite Hfe).
      rewrite (bind_ok _ _ x1 x1 tt) by (apply Has; lia). cbv zeta. rewrite get_bind. cbn [rx_decoder x1]. by rewrite Hcp.
    + pose proof (feed_open _ _ Hopen1 Hb) as Hf2. destruct (feed b d1) as [d2 [m|e|]] eqn:Hfb; [| |done].
      2:{ unfold feed_header, mbind, M_bind, on_decoder. cbn [sl_app sl_next sl_bytes rx_decoder x1]. by rewrite Hfb, Hfr. }
      destruct Hf2 as (Hm & _ & _).
      set (x2 := {| rx_conn := rx_conn x; rx_decoder := d2; rx_phase := rx_phase x |}). unfold feed_header.
      rewrite (bind_ok _ _ x x2 (length (sl_bytes sl) + m)%nat) by (unfold on_decoder; cbn [sl_app sl_bytes]; by rewrite Hfr).
      rewrite (bind_ok _ _ x1 x2 m) by (unfold on_decoder; cbn [sl_next sl_bytes rx_decoder x1]; by rewrite Hfb).
      rewrite (bind_ok _ _ x2 x2 tt) by (apply Has; cbn; rewrite length_app; lia).
      rewrite (bind_ok _ _ x2 x2 tt) by (apply Has; cbn; lia). by rewrite sl_advance_past.
Qed.

(** ** Rounds and windows *)

(** Two runs agree on their result; after an error, on the connection. *)
Definition agree {A} (R : A -> A -> Prop) (r r' : RecvSt B * res RecvEnd A) : Prop :=
  match r, r' with
  | (x, Ok a), (x', Ok a') => x = x' /\ R a a'
  | (x, Err e), (x', Err e') => rx_conn x = rx_conn x' /\ e = e'
  | (_, Panic), (_, Panic) => True
  | _, _ => False
  end.

#[local] Instance agree_refl {A} (R : relation A) `{!Reflexive R} : Reflexive (agree R).
Proof. intros [x [a|e|]]; done. Qed.

#[local] Instance agree_trans {A} (R : relation A) `{!Transitive R} : Transitive (agree R).
Proof.
  intros [x [a|e|]] [y [b|e'|]] [z [d|e''|]]; cbn; try done.
  - intros [-> ?] [-> ?]. split; [done|]. by etrans.
  - intros [-> ->] [-> ->]. done.
Qed.

Lemma agree_bind {A A'} (R : relation A) (R' : relation A') m m' (f f' : A -> M (RecvSt B) RecvEnd A') x x' :
  agree R (m x) (m' x') -> (forall a a' y, R a a' -> agree R' (f a y) (f' a' y)) -> agree R' ((m ≫= f) x) ((m' ≫= f') x').
Proof.
  intros H Hf. unfold mbind, M_bind. destruct (m x) as [y [a|e|]], (m' x') as [y' [a'|e'|]]; cbn in *; try done.
  destruct H as [-> H]. by apply Hf.
Qed.

(** A phase step, seen from two states that differ in the phase only. *)
Lemma phase_step_agree (m : M (Conn B) RecvEnd (RecvPhase * Slice)) c dec p p' :
  agree eq
    (('(q, sl) ← on_conn m; _ ← set_phase q; mret (None : option Capsule, sl)) {| rx_conn := c; rx_decoder := dec; rx_phase := p |})
    (('(q, sl) ← on_conn m; _ ← set_phase q; mret (None : option Capsule, sl)) {| rx_conn := c; rx_decoder := dec; rx_phase := p' |}).
Proof. unfold mbind, M_bind, on_conn. cbn. by destruct (m c) as [c' [[q sl]|e|]]. Qed.

Lemma phase_step_behind (m m' : M (Conn B) RecvEnd (RecvPhase * Slice)) x b :
  m (rx_conn x) = behind b (m' (rx_conn x)) ->
  ('(q, sl) ← on_conn m; _ ← set_phase q; mret (None : option Capsule, sl)) x =
  behind b (('(q, sl) ← on_conn m'; _ ← set_phase q; mret (None : option Capsule, sl)) x).
Proof. intros H. unfold mbind, M_bind, on_conn. rewrite H. by destruct (m' (rx_conn x)) as [c' [[q sl]|e|]]. Qed.

Lemma header_step_behind (m m' : M (RecvSt B) RecvEnd (Handled * Slice)) (x : RecvSt B) b :
  m x = behind b (m' x) ->
  ('(h, sl) ← m; match h with
     | Routed (Some p) => _ ← set_phase p; mret (None, sl)
     | Routed None => mret (None, sl)
     | Waiting k => mret (Some k, sl) end) x =
  behind b (('(h, sl) ← m'; match h with
     | Routed (Some p) => _ ← set_phase p; mret (None, sl)
     | Routed None => mret (None, sl)
     | Waiting k => mret (Some k, sl) end) x).
Proof. intros H. unfold mbind, M_bind. rewrite H. by destruct (m' x) as [x' [[[[q|]|k] sl']|e|]]. Qed.

Lemma recv_round_app (x : RecvSt B) t dd rc sl b :
  rx_ok x -> sl_bytes sl <> [] -> b <> [] ->
  recv_round t dd rc (sl_app sl b) x = behind b (recv_round t dd rc sl x) \/
  exists x1, recv_round t dd rc sl x = (x1, Ok (None, sl_advance (length (sl_bytes sl)) sl)) /\
    agree eq (recv_round t dd rc (sl_app sl b) x) (recv_round t dd rc (sl_next sl b) x1).
Proof.
  intros Hx Hne Hb. pose proof Hx as (Hc & Hd & Hp).
  assert (0 < length (sl_bytes sl))%nat by (destruct (sl_bytes sl); cbn; [done|lia]).
  unfold recv_round. rewrite !get_bind. destruct x as [c dec p]. cbn [rx_phase rx_conn] in *. destruct p as [|d|d].
  - destruct (feed_header_app _ t dd rc sl b Hx Hne Hb) as [He|(x1 & He & Hph & Hn)].
    + left. by apply header_step_behind.
    + right. exists x1. split; [unfold mbind, M_bind; by rewrite He|]. rewrite get_bind, Hph. cbn [rx_phase].
      unfold mbind at 1 3, M_bind at 1 3. rewrite Hn. reflexivity.
  - destruct (decide (Z.to_nat (ph_remaining d) <= length (sl_bytes sl))%nat) as [Hge|Hlt].
    + left. apply phase_step_behind. by apply data_advance_full.
    + right. destruct (data_advance_part c d sl b Hc Hp ltac:(lia)) as (c1 & d1 & He & Hn).
      eexists. split; [unfold mbind, M_bind, on_conn; cbn [rx_conn]; rewrite He; reflexivity|].
      rewrite get_bind. cbn [rx_phase]. etrans; [|apply (phase_step_agree _ c1 dec (PData d))].
      unfold mbind, M_bind, on_conn. cbn [rx_conn rx_decoder rx_phase]. rewrite Hn. reflexivity.
  - destruct (decide (4 - dg_have_len d <= length (sl_bytes sl))%nat) as [Hge|Hlt].
    + left. apply phase_step_behind. by apply ddgst_advance_full.
    + right. destruct (ddgst_advance_part c d sl b Hp ltac:(lia)) as (d1 & He & Hn).
      eexists. split; [unfold mbind, M_bind, on_conn; cbn [rx_conn]; rewrite He; reflexivity|].
      rewrite get_bind. cbn [rx_phase]. etrans; [|apply (phase_step_agree _ c dec (PDdgst d))].
      unfold mbind, M_bind, on_conn. cbn [rx_conn rx_decoder rx_phase]. rewrite Hn. reflexivity.
Qed.

(** Enough fuel is enough. *)
Lemma recv_window_fuel (x : RecvSt B) t dd rc sl f f' :
  rx_ok x -> ring_ctx_ok (rx_conn x) rc -> (length (sl_bytes sl) <= f)%nat -> (length (sl_bytes sl) <= f')%nat ->
  recv_window f t dd rc sl x = recv_window f' t dd rc sl x.
Proof.
  revert x sl f'. induction f as [|f IH]; intros x sl f' Hx Hrc Hf Hf'.
  { destruct f'; cbn [recv_window]; destruct (sl_bytes sl); cbn in *; try done; lia. }
  destruct f' as [|f']; [cbn [recv_window]; destruct (sl_bytes sl); cbn in *; try done; lia|].
  cbn [recv_window]. destruct (sl_bytes sl) as [|y ys] eqn:Hs; [done|].
  pose proof (recv_round_ok x t dd rc sl Hx Hrc ltac:(by rewrite Hs)) as Hr. unfold ends in Hr. unfold mbind, M_bind.
  destruct (recv_round t dd rc sl x) as [x1 [[[k|] sl1]|e|]]; try done.
  destruct Hr as (Hx1 & Hio & Ha & _). apply advanced_length in Ha. rewrite Hs in Ha. cbn in Ha, Hf, Hf'.
  apply IH; [done|by eapply ring_ctx_same|lia|lia].
Qed.

Lemma recv_bytes_step (x : RecvSt B) t dd rc sl :
  rx_ok x -> ring_ctx_ok (rx_conn x) rc -> sl_bytes sl <> [] ->
  recv_bytes t dd rc sl x =
    ('(k, sl) ← recv_round t dd rc sl; match k with Some k => mret (Blocked k sl) | None => recv_bytes t dd rc sl end) x.
Proof.
  intros Hx Hrc Hne. unfold recv_bytes at 1. destruct (sl_bytes sl) as [|y ys] eqn:Hs; [done|].
  cbn [length recv_window]. rewrite Hs. pose proof (recv_round_ok x t dd rc sl Hx Hrc ltac:(by rewrite Hs)) as Hr.
  unfold ends in Hr. unfold mbind, M_bind. destruct (recv_round t dd rc sl x) as [x1 [[[k|] sl1]|e|]]; try done.
  destruct Hr as (Hx1 & Hio & Ha & _). apply advanced_length in Ha. rewrite Hs in Ha. cbn in Ha. unfold recv_bytes.
  apply recv_window_fuel; [done|by eapply ring_ctx_same|lia|lia].
Qed.

(** The rest of the stream after the first window. *)
Definition continue t dd rc (next : Slice) (r : RecvSt B * res RecvEnd WindowEnd) : RecvSt B * res RecvEnd WindowEnd :=
  match r with
  | (x, Ok Drained) => recv_bytes t dd rc next x
  | (x, Ok (Blocked k sl)) => (x, Ok (Blocked k (sl_app sl (sl_bytes next))))
  | r => r
  end.

Lemma recv_bytes_nil (x : RecvSt B) t dd rc sl : sl_bytes sl = [] -> recv_bytes t dd rc sl x = (x, Ok Drained).
Proof. intros H. unfold recv_bytes. by rewrite H; cbn; rewrite H. Qed.

Lemma sl_app_nil sl b : sl_bytes sl = [] -> sl_app sl b = sl_next sl b.
Proof. intros H. unfold sl_app, sl_next. rewrite H. cbn. f_equal. lia. Qed.

Lemma sl_next_advance n sl b : (n <= length (sl_bytes sl))%nat -> sl_next (sl_advance n sl) b = sl_next sl b.
Proof. intros. unfold sl_next, sl_advance. cbn. rewrite length_drop. f_equal. lia. Qed.

Lemma recv_bytes_app (x : RecvSt B) t dd rc sl b :
  rx_ok x -> ring_ctx_ok (rx_conn x) rc -> b <> [] ->
  agree eq (recv_bytes t dd rc (sl_app sl b) x) (continue t dd rc (sl_next sl b) (recv_bytes t dd rc sl x)).
Proof.
  intros Hx Hrc Hb. remember (length (sl_bytes sl)) as n eqn:Hn. revert x sl Hn Hx Hrc.
  induction n as [n IH] using lt_wf_ind. intros x sl -> Hx Hrc.
  destruct (decide (sl_bytes sl = [])) as [He|Hne].
  { rewrite (recv_bytes_nil x t dd rc sl He), (sl_app_nil sl b He). reflexivity. }
  rewrite (recv_bytes_step x t dd rc sl Hx Hrc Hne).
  rewrite (recv_bytes_step x t dd rc (sl_app sl b) Hx Hrc) by (cbn; by destruct (sl_bytes sl)).
  pose proof (recv_round_ok x t dd rc sl Hx Hrc Hne) as Hr. unfold ends in Hr.
  destruct (recv_round_app x t dd rc sl b Hx Hne Hb) as [Ha|(x1 & Ha & Hag)].
  - unfold mbind, M_bind. rewrite Ha. destruct (recv_round t dd rc sl x) as [x1 [[[k|] sl1]|e|]]; [reflexivity| |done|done].
    cbn [behind]. destruct Hr as (Hx1 & Hio & (m & Hm & ->) & _).
    rewrite <- (sl_next_advance m sl b) by lia.
    apply (IH (length (sl_bytes (sl_advance m sl)))); [cbn; rewrite length_drop; lia|done|done|by eapply ring_ctx_same].
  - rewrite Ha in Hr. destruct Hr as (Hx1 & Hio & _).
    unfold mbind at 2, M_bind at 2. rewrite Ha. rewrite recv_bytes_nil by (cbn; apply drop_all). cbn [continue].
    rewrite (recv_bytes_step x1 t dd rc (sl_next sl b) Hx1) by (done || by eapply ring_ctx_same).
    eapply agree_bind; [exact Hag|]. intros a a' y <-. reflexivity.
Qed.

(** ** Where a window lies does not matter

    In classic mode nothing is retained in place, so only a window's bytes
    count, not its address. *)

Definition same_bytes (sl sl' : Slice) : Prop := sl_bytes sl = sl_bytes sl'.

Definition same_capsule (k k' : Capsule) : Prop :=
  ca_sqe k = ca_sqe k' /\ ca_data_len k = ca_data_len k' /\ ca_ddgst k = ca_ddgst k' /\ ca_ring k = ca_ring k'.

Definition same_end (w w' : WindowEnd) : Prop :=
  match w, w' with
  | Drained, Drained => True
  | Blocked k sl, Blocked k' sl' => same_capsule k k' /\ same_bytes sl sl'
  | _, _ => False
  end.

#[local] Instance same_end_refl : Reflexive same_end.
Proof. intros [|k sl]; [done|]. by split. Qed.

#[local] Instance same_end_trans : Transitive same_end.
Proof.
  intros [|k sl] [|k' sl'] [|k'' sl'']; cbn; try done. intros [(? & ? & ? & ?) ?] [(? & ? & ? & ?) ?].
  split; [split_and!|]; unfold same_bytes in *; congruence.
Qed.

(** Results of a connection step, up to [R]. *)
Definition alike {S E A} (R : A -> A -> Prop) (r r' : S * res E A) : Prop :=
  match r, r' with
  | (s, Ok a), (s', Ok a') => s = s' /\ R a a'
  | (s, Err e), (s', Err e') => s = s' /\ e = e'
  | (_, Panic), (_, Panic) => True
  | _, _ => False
  end.

Lemma alike_bind {S E A A'} (R : A -> A -> Prop) (R' : A' -> A' -> Prop) (m m' : M S E A) (f f' : A -> M S E A') (s s' : S) :
  alike R (m s) (m' s') -> (forall a a' y, R a a' -> alike R' (f a y) (f' a' y)) -> alike R' ((m ≫= f) s) ((m' ≫= f') s').
Proof.
  intros H Hf. unfold mbind, M_bind. destruct (m s) as [y [a|e|]], (m' s') as [y' [a'|e'|]]; cbn in *; try done.
  destruct H as [-> H]. by apply Hf.
Qed.

Lemma alike_same {S E A} (R : A -> A -> Prop) `{!Reflexive R} (r : S * res E A) : alike R r r.
Proof. by destruct r as [s [a|e|]]. Qed.

Lemma alike_ret {S E A} (R : A -> A -> Prop) a a' (s : S) : R a a' -> alike R ((mret a : M S E A) s) ((mret a' : M S E A) s).
Proof. done. Qed.

Definition same_step (r r' : RecvPhase * Slice) : Prop := r.1 = r'.1 /\ same_bytes r.2 r'.2.

Lemma same_advance n sl sl' : same_bytes sl sl' -> same_bytes (sl_advance n sl) (sl_advance n sl').
Proof. unfold same_bytes. cbn. by intros ->. Qed.

Lemma data_advance_alike d sl sl' c :
  same_bytes sl sl' -> alike same_step (DataPhase_advance d sl c) (DataPhase_advance d sl' c).
Proof.
  intros Hs. pose proof (fun n => same_advance n sl sl' Hs) as Hadv. unfold same_bytes in Hs. unfold DataPhase_advance. rewrite Hs.
  eapply (alike_bind eq); [by apply alike_same|]. intros [] [] y _. cbv zeta.
  destruct (0 <? _); [apply alike_ret; (split; [done|apply Hadv])|].
  eapply (alike_bind eq); [by apply alike_same|]. intros p ? y' <-. apply alike_ret. split; [done|apply Hadv].
Qed.

Lemma ddgst_advance_alike d sl sl' c :
  same_bytes sl sl' -> alike same_step (DdgstPhase_advance d sl c) (DdgstPhase_advance d sl' c).
Proof.
  intros Hs. pose proof (fun n => same_advance n sl sl' Hs) as Hadv. unfold same_bytes in Hs. unfold DdgstPhase_advance. rewrite Hs.
  eapply (alike_bind eq); [by apply alike_same|]. intros k ? y <-.
  eapply (alike_bind eq); [by apply alike_same|]. intros have ? y' <-. cbv zeta.
  case_decide; [apply alike_ret; (split; [done|apply Hadv])|].
  destruct (negb _); (eapply (alike_bind eq); [by apply alike_same|]; intros p ? y'' <-; apply alike_ret; (split; [done|apply Hadv])).
Qed.

Definition same_handled (h h' : Handled) : Prop :=
  match h, h' with Routed p, Routed p' => p = p' | Waiting k, Waiting k' => same_capsule k k' | _, _ => False end.

#[local] Instance same_handled_refl : Reflexive same_handled.
Proof. by intros [p|k]. Qed.

Lemma handle_pdu_alike t pdu dd p p' c :
  alike same_handled (handle_pdu t pdu dd None p c) (handle_pdu t pdu dd None p' c).
Proof.
  unfold handle_pdu. destruct (dp_kind pdu); try by apply (alike_same same_handled).
  unfold handle_capsule_cmd. eapply (alike_bind eq); [by apply alike_same|]. intros tag ? y <-. destruct tag as [tag|]; [|done].
  cbn [ca_sqe ca_data_len ca_ddgst ca_ring ca_payload_ptr]. eapply (alike_bind eq); [by apply alike_same|].
  by intros q ? y' <-.
Qed.

Lemma alike_agree {A} (R : A -> A -> Prop) r r' : alike R r r' -> agree R r r'.
Proof. destruct r as [x [a|e|]], r' as [x' [a'|e'|]]; cbn; try done. by intros [-> ->]. Qed.

Lemma on_conn_alike {A} (R : A -> A -> Prop) m m' (x : RecvSt B) :
  alike R (m (rx_conn x)) (m' (rx_conn x)) -> alike R (on_conn m x) (on_conn m' x).
Proof.
  unfold on_conn. destruct (m (rx_conn x)) as [c [a|e|]], (m' (rx_conn x)) as [c' [a'|e'|]]; cbn; try done;
    by intros [-> ?].
Qed.

Definition same_round (r r' : option Capsule * Slice) : Prop :=
  match r.1, r'.1 with Some k, Some k' => same_capsule k k' | None, None => True | _, _ => False end /\ same_bytes r.2 r'.2.

Lemma recv_round_alike (x : RecvSt B) t dd sl sl' :
  same_bytes sl sl' -> alike same_round (recv_round t dd None sl x) (recv_round t dd None sl' x).
Proof.
  intros Hs. unfold recv_round. rewrite !get_bind. destruct (rx_phase x) as [|d|d].
  - assert (alike (fun r r' => same_handled r.1 r'.1 /\ same_bytes r.2 r'.2) (feed_header t dd None sl x) (feed_header t dd None sl' x)) as Hh.
    { unfold feed_header. rewrite <- Hs. eapply (alike_bind eq); [by apply alike_same|]. intros n ? y <-.
      pose proof (same_advance n sl sl' Hs) as Ha.
      eapply (alike_bind eq); [by apply alike_same|]. intros [] [] y1 _. cbv zeta. rewrite !get_bind.
      destruct (negb _); [apply alike_ret; by split|]. eapply (alike_bind eq); [by apply alike_same|]. intros pdu ? y2 <-.
      eapply (alike_bind same_handled); [apply on_conn_alike, handle_pdu_alike|]. intros h h' y3 Hh. apply alike_ret. by split. }
    eapply (alike_bind _ _ _ _ _ _ _ _ Hh). intros [[p|k] s1] [[p'|k'] s2] y [H1 H2]; cbn in H1, H2; try done.
    subst p'. destruct p; by split.
  - eapply alike_bind; [apply on_conn_alike; by apply data_advance_alike|].
    intros [p s1] [p' s2] y [H1 H2]. cbn in H1, H2. subst p'. by split.
  - eapply alike_bind; [apply on_conn_alike; by apply ddgst_advance_alike|].
    intros [p s1] [p' s2] y [H1 H2]. cbn in H1, H2. subst p'. by split.
Qed.

Lemma recv_bytes_alike (x : RecvSt B) t dd sl sl' :
  rx_ok x -> same_bytes sl sl' -> agree same_end (recv_bytes t dd None sl x) (recv_bytes t dd None sl' x).
Proof.
  intros Hx Hs. remember (length (sl_bytes sl)) as n eqn:Hn. revert x sl sl' Hn Hx Hs.
  induction n as [n IH] using lt_wf_ind. intros x sl sl' -> Hx Hs.
  destruct (decide (sl_bytes sl = [])) as [He|Hne].
  { rewrite !recv_bytes_nil by (done || by rewrite <- Hs). done. }
  rewrite (recv_bytes_step x t dd None sl) by done. rewrite (recv_bytes_step x t dd None sl') by (done || by rewrite <- Hs).
  pose proof (recv_round_ok x t dd None sl Hx I Hne) as Hr. pose proof (recv_round_alike x t dd sl sl' Hs) as Ha.
  unfold ends in Hr. unfold mbind, M_bind.
  destruct (recv_round t dd None sl x) as [x1 [[k sl1]|e|]], (recv_round t dd None sl' x) as [x2 [[k' sl2]|e'|]]; try done; cbn in Ha.
  - destruct Ha as (<- & Hk & Hb). cbn in Hk, Hb. destruct Hr as (Hx1 & _ & Hadv & _). apply advanced_length in Hadv.
    destruct k as [k|], k' as [k'|]; try done. by eapply IH.
  - destruct Ha as [-> ->]. done.
Qed.

(** ** The stream *)

(** The loop over the windows in which the stream arrives. *)
Fixpoint recv_stream (t : nat) (dd : bool) (ws : list Slice) : M (RecvSt B) RecvEnd WindowEnd :=
  match ws with
  | [] => mret Drained
  | w :: ws =>
      e ← recv_bytes t dd None w;
      match e with
      | Drained => recv_stream t dd ws
      | Blocked k sl => mret (Blocked k (sl_app sl (concat (map sl_bytes ws))))
      end
  end.

(** C12. TCP may cut the stream anywhere.  From any state of the receive path and
    for any bytes the host sends, receiving them in any windows (each at its own
    address) leaves the same connection, decoder and phase, or ends with the
    same error, or blocks on the same capsule with the same bytes behind it, as
    receiving them in one window (windows of the classic reader). *)
Theorem recv_fragmentation (x : RecvSt B) t dd ws w :
  rx_ok x -> sl_bytes w = concat (map sl_bytes ws) ->
  agree same_end (recv_stream t dd ws x) (recv_bytes t dd None w x).
Proof.
  revert x w. induction ws as [|v ws IH]; intros x w Hx Hw; cbn [map concat] in Hw.
  { rewrite recv_bytes_nil by done. done. }
  cbn [recv_stream].
  destruct (decide (concat (map sl_bytes ws) = [])) as [Hnil|Hne].
  - rewrite Hnil, app_nil_r in Hw. etrans; [|by apply (recv_bytes_alike x t dd v w)].
    pose proof (recv_bytes_ok x t dd None v Hx I) as Hok. unfold ends in Hok. unfold mbind, M_bind.
    destruct (recv_bytes t dd None v x) as [x1 [[|k sl]|e|]]; [| |done|done].
    + destruct Hok as (Hx1 & _). pose proof (IH x1 {| sl_ptr := 0; sl_bytes := [] |} Hx1 (eq_sym Hnil)) as Hr.
      by rewrite recv_bytes_nil in Hr by done.
    + cbn. split; [done|]. split; [done|]. unfold same_bytes. cbn. by rewrite Hnil, app_nil_r.
  - set (b := concat (map sl_bytes ws)) in *.
    etrans; [|apply (recv_bytes_alike x t dd (sl_app v b) w); [done|by symmetry]].
    assert (forall r r' : RecvSt B * res RecvEnd WindowEnd, agree eq r r' -> agree same_end r' r) as Hsym.
    { intros [y [a|e|]] [y' [a'|e'|]]; cbn; try done; intros [-> ->]; done. }
    etrans; [|apply Hsym, (recv_bytes_app x t dd None v b Hx I Hne)].
    pose proof (recv_bytes_ok x t dd None v Hx I) as Hok. unfold ends in Hok. unfold mbind, M_bind.
    destruct (recv_bytes t dd None v x) as [x1 [[|k sl]|e|]]; [|reflexivity|done|done].
    destruct Hok as (Hx1 & _). cbn [continue]. by apply IH.
Qed.
End Stream.
