(* ===== verification/RecvData.v ===== *)
(** * What the host sends is what the command gets

    A payload, whichever way it comes (in the command capsule, or solicited and
    split over several H2CData PDUs), ends up in the slot's buffer byte for
    byte, and the command becomes ready exactly when it is complete; a digest
    that does not match makes it fail instead. *)

From S2P Require Import Prelude Digest Spec Pdu PduProofs Pool.
From S2P Require Import PoolProofs PoolSafety PoolData SlotQ SlotQProofs.
From S2P Require Import SlotQSafety Backend Dispatch BufRing RingProofs TcpQueue.
From S2P Require Import Recv ExecLaws ConnProofs RecvProofs RecvStream.

Section Data.
Context {B : Type} {L : Crc32cLib} {LL : Crc32cLaws L}.
Implicit Types (c : Conn B) (s : Slot Sqe).

Abbreviation arr c := (w_slots (c_world c)).

(** The digest bytes behind a payload. *)
Definition trailer (ddgst : bool) (payload : bytes) : bytes := if ddgst then le_split 4 (crc32c payload) else [].

Lemma le_combine_le_split4 z : in_u 32 z -> le_combine (le_split 4 z) = z.
Proof. intros. by apply le_combine_le_split_small. Qed.

(** ** From the first payload byte to the verdict *)

Lemma digest_round x t dd rc i s d bs rest p c2 :
  rx_phase x = RecvPhase_ddgst (Z.of_nat i) d bs -> in_u 32 d -> 
  finish_payload (Z.of_nat i) bs (rx_conn x) = (c2, Ok tt) -> rx_ok x -> ring_ctx_ok (rx_conn x) rc ->
  slots (arr (rx_conn x)) !! i = Some s ->
  recv_bytes t dd rc {| sl_ptr := p; sl_bytes := le_split 4 d ++ rest |} x =
  recv_bytes t dd rc {| sl_ptr := p + 4; sl_bytes := rest |}
    {| rx_conn := c2; rx_decoder := rx_decoder x; rx_phase := PHeader |}.
Proof.
  intros Hph Hd Hfin Hx Hrc Hi. rewrite recv_bytes_step by (done || by destruct (le_split 4 d) eqn:E; [apply (f_equal length) in E; rewrite length_le_split in E|]).
  unfold recv_round. rewrite (bind_ok _ _ x {| rx_conn := c2; rx_decoder := rx_decoder x; rx_phase := PHeader |}
    (None, {| sl_ptr := p + 4; sl_bytes := rest |})); [done|].
  rewrite get_bind, Hph. unfold RecvPhase_ddgst. set (dg := {| dg_tag := _ |}).
  set (sl := {| sl_ptr := p; sl_bytes := le_split 4 d ++ rest |}).
  assert (dg_taken dg sl = 4%nat) as Ht by (unfold dg_taken; cbn [sl sl_bytes dg dg_have_len]; rewrite length_app, length_le_split; lia).
  assert (take 4 (sl_bytes sl) = le_split 4 d) as Htk by (cbn [sl sl_bytes]; apply take_app_length'; by rewrite length_le_split).
  assert (DdgstPhase_advance dg sl (rx_conn x) = (c2, Ok (PHeader, {| sl_ptr := p + 4; sl_bytes := rest |}))) as He.
  { rewrite (ddgst_advance_eq (rx_conn x) dg sl (le_split 4 d)); [|cbn; lia|].
    - rewrite Ht. unfold judged. cbv zeta. rewrite decide_False by (cbn; lia).
      cbn [dg_take dg_have dg_expected dg dg_tag dg_kind]. rewrite le_combine_le_split4, Z.eqb_refl by done. cbn [negb].
      unfold mbind, M_bind, from_pdu. rewrite Hfin. unfold sl_advance. cbn [sl sl_ptr sl_bytes].
      rewrite drop_app_length' by (by rewrite length_le_split). done.
    - rewrite Ht, Htk. cbn [dg dg_have dg_have_len]. rewrite copy_into_ok by (rewrite length_le_split; cbn; lia).
      rewrite length_le_split. cbn. by rewrite app_nil_r. }
  unfold mbind, M_bind, on_conn. rewrite He. done.
Qed.

(** All of the payload is in the window: it is stored, and its digest folded. *)
Lemma payload_taken (x : RecvSt B) t dd rc d i s payload rest p m :
  rx_ok x -> ring_ctx_ok (rx_conn x) rc -> rx_phase x = PData d -> ph_tag d = Z.of_nat i ->
  slots (arr (rx_conn x)) !! i = Some s -> Z.of_nat (length payload) = ph_remaining d -> ph_crc d = Crc32c_new ->
  stored d s payload (w_mem (c_world (rx_conn x))) = Ok m ->
  exists d', ph_tag d' = Z.of_nat i /\ ph_ddgst d' = ph_ddgst d /\ ph_kind d' = ph_kind d /\
    (ph_ddgst d = true -> Crc32c_finalize (ph_crc d') = crc32c payload) /\
    recv_bytes t dd rc {| sl_ptr := p; sl_bytes := payload ++ rest |} x =
    (on_conn (ph ← payload_done d'; mret (ph, {| sl_ptr := p + Z.of_nat (length payload); sl_bytes := rest |})) ≫=
       (fun '(ph, sl) => set_phase ph ≫= (fun _ => recv_bytes (B := B) t dd rc sl)))
      {| rx_conn := put_mem m (rx_conn x); rx_decoder := rx_decoder x; rx_phase := rx_phase x |}.
Proof.
  intros Hx Hrc Hph Ht Hi Hlen Hcrc Hm. pose proof Hx as (Hc & Hd & Hp). rewrite Hph in Hp.
  destruct Hp as (i' & s' & Ht' & Hi' & Hs & Hr & Hb & Hle & Hcu & Hk).
  assert (i' = i) as -> by lia. rewrite Hi in Hi'. injection Hi' as <-.
  set (sl := {| sl_ptr := p; sl_bytes := _ |}).
  assert (data_taken d sl = length payload) as Hn by (unfold data_taken; cbn [sl sl_bytes]; rewrite length_app; lia).
  assert (take (length payload) (sl_bytes sl) = payload) as Htk by apply take_app_length.
  rewrite recv_bytes_step; [|done|done|cbn [sl sl_bytes]; destruct payload; cbn in Hlen; [lia|done]].
  pose proof (data_advance_eq (rx_conn x) d sl i s m Hc Ht Hi Hs Hr Hb Hle) as He. rewrite Hn, Htk in He. specialize (He Hm).
  unfold took in He. rewrite Htk in He. cbv zeta in He.
  set (d' := ph_take (length payload) (if ph_ddgst d then Crc32c_update (ph_crc d) payload else ph_crc d) d) in He.
  destruct (Z.ltb_spec 0 (ph_remaining d')) as [Hx0|_]; [cbn in Hx0; lia|].
  assert (sl_advance (length payload) sl = {| sl_ptr := p + Z.of_nat (length payload); sl_bytes := rest |}) as Hadv.
  { unfold sl_advance. cbn [sl sl_ptr sl_bytes]. by rewrite drop_app_length. }
  rewrite Hadv in He. exists d'. split; [done|]. split; [done|]. split; [done|]. split.
  { intros Hdd. unfold d'. cbn. by rewrite Hdd, Hcrc. }
  unfold recv_round, mbind, M_bind, get. rewrite Hph. unfold on_conn at 1 2. cbn [rx_conn rx_decoder].
  rewrite He. unfold mbind, M_bind. destruct (payload_done d' _) as [c1 [ph|e|]]; cbn [rx_phase]; by rewrite ?Hph.
Qed.

Lemma payload_awaits (x : RecvSt B) t dd rc d i s payload rest p m :
  rx_ok x -> ring_ctx_ok (rx_conn x) rc -> rx_phase x = PData d -> ph_tag d = Z.of_nat i -> ph_ddgst d = true ->
  slots (arr (rx_conn x)) !! i = Some s -> Z.of_nat (length payload) = ph_remaining d -> ph_crc d = Crc32c_new ->
  stored d s payload (w_mem (c_world (rx_conn x))) = Ok m ->
  let x1 := {| rx_conn := put_mem m (rx_conn x); rx_decoder := rx_decoder x;
               rx_phase := RecvPhase_ddgst (Z.of_nat i) (crc32c payload) (ph_kind d) |} in
  rx_ok x1 /\
  recv_bytes t dd rc {| sl_ptr := p; sl_bytes := payload ++ rest |} x =
  recv_bytes t dd rc {| sl_ptr := p + Z.of_nat (length payload); sl_bytes := rest |} x1.
Proof.
  intros Hx Hrc Hph Ht Hdd Hi Hlen Hcrc Hm x1.
  destruct (payload_taken x t dd rc d i s payload rest p m) as (d' & Ht' & Hdd' & Hk' & Hfin & ->); try done.
  pose proof Hx as (Hc & Hd & Hp). rewrite Hph in Hp. destruct Hp as (i' & s' & Ht2 & Hi' & Hs & Hr & Hb & Hle & Hcu & Hk).
  assert (i' = i) as -> by lia. rewrite Hi in Hi'. injection Hi' as <-. split.
  - split; [by apply put_mem_ok|]. split; [done|]. split; [|split; [cbn; lia|done]]. exists i, s. cbn.
    split; [done|]. split; [done|]. split; [done|]. unfold payload_total in *. destruct (ph_kind d); [done|]. lia.
  - unfold payload_done. rewrite Hdd', Hdd, Ht', Hk', (Hfin Hdd). done.
Qed.

Lemma payload_lands (x : RecvSt B) t dd rc d i s payload rest p m c2 :
  rx_ok x -> ring_ctx_ok (rx_conn x) rc -> rx_phase x = PData d -> ph_tag d = Z.of_nat i ->
  slots (arr (rx_conn x)) !! i = Some s -> Z.of_nat (length payload) = ph_remaining d -> ph_crc d = Crc32c_new ->
  stored d s payload (w_mem (c_world (rx_conn x))) = Ok m ->
  finish_payload (Z.of_nat i) (ph_kind d) (put_mem m (rx_conn x)) = (c2, Ok tt) ->
  recv_bytes t dd rc {| sl_ptr := p; sl_bytes := payload ++ trailer (ph_ddgst d) payload ++ rest |} x =
  recv_bytes t dd rc {| sl_ptr := p + Z.of_nat (length payload + length (trailer (ph_ddgst d) payload)); sl_bytes := rest |}
    {| rx_conn := c2; rx_decoder := rx_decoder x; rx_phase := PHeader |}.
Proof.
  intros Hx Hrc Hph Ht Hi Hlen Hcrc Hm Hfin. destruct (ph_ddgst d) eqn:Hdd; cbn [trailer].
  - destruct (payload_awaits x t dd rc d i s payload (le_split 4 (crc32c payload) ++ rest) p m) as [Hx1 ->]; try done.
    rewrite (digest_round _ t dd rc i s (crc32c payload) (ph_kind d) rest _ c2); try done; [|apply crc32c_u32].
    rewrite length_le_split. do 2 f_equal. lia.
  - cbn [app length]. rewrite Nat.add_0_r.
    destruct (payload_taken x t dd rc d i s payload rest p m) as (d' & Ht' & Hdd' & Hk' & _ & ->); try done.
    unfold payload_done. rewrite Hdd', Hdd, Ht', Hk'. unfold mbind, M_bind, on_conn, from_pdu. cbn [rx_conn]. by rewrite Hfin.
Qed.

(** ** Headers *)

Lemma feed_keeps_digest hd input : preserves (fun d => hdr_digest d = hd) (feed input).
Proof.
  unfold feed. generalize feed_fuel, 0%nat. intros fuel. induction fuel as [|fuel IH]; intros n; cbn [feed_loop]; [apply preserves_panic|].
  apply preserves_bind; [|intros [k|k]; [apply preserves_ret|apply IH]]. unfold feed_step.
  assert (forall f, (forall d, hdr_digest (f d) = hdr_digest d) -> preserves (E := PduError) (fun d => hdr_digest d = hd) (modify f)) as Hm
    by (intros f Hf d Hd; cbn; by rewrite Hf).
  apply preserves_bind; [apply preserves_get|]. intros d. destruct (dstate d); [| |apply preserves_ret].
  all: apply preserves_bind; [apply preserves_lift|]; intros want; apply preserves_bind.
  1,3: case_decide; [|apply preserves_ret]; apply preserves_bind; [apply preserves_lift|]; intros av; cbv zeta;
    case_decide; [apply preserves_ret|]; apply preserves_bind; [apply preserves_lift|]; intros b;
    apply preserves_bind; [by apply Hm|]; intros _; case_decide; apply preserves_ret.
  all: intros [k|k]; [apply preserves_ret|]; apply preserves_bind; [apply preserves_get|]; intros d'; destruct (dstate d').
  all: apply preserves_bind; try (by apply Hm); try (intros; by apply preserves_ret).
  all: try apply preserves_lift; intros; (apply preserves_bind; [by apply Hm|]); intros; apply preserves_ret.
Qed.

Lemma take_keeps_digest hd : preserves (fun d => hdr_digest d = hd) PduDecoder_take.
Proof.
  unfold PduDecoder_take. apply preserves_bind; [apply preserves_get|]. intros d.
  apply preserves_bind; [apply preserves_lift|]. intros _. apply preserves_bind; [apply preserves_lift|]. intros p.
  apply preserves_bind; [by intros x Hx|]. intros _. apply preserves_ret.
Qed.

Lemma header_routes x t dd rc hdr pdu rest p c1 o :
  rx_ok x -> ring_ctx_ok (rx_conn x) rc -> rx_phase x = PHeader -> hdr <> [] -> decodes (rx_decoder x) hdr pdu ->
  handle_pdu t pdu dd rc (p + Z.of_nat (length hdr)) (rx_conn x) = (c1, Ok (Routed o)) ->
  exists d, dec_ready d /\ hdr_digest d = hdr_digest (rx_decoder x) /\
    recv_bytes t dd rc {| sl_ptr := p; sl_bytes := hdr ++ rest |} x =
    recv_bytes t dd rc {| sl_ptr := p + Z.of_nat (length hdr); sl_bytes := rest |}
      {| rx_conn := c1; rx_decoder := d; rx_phase := match o with Some ph => ph | None => PHeader end |}.
Proof.
  intros Hx Hrc Hph Hne Hdec Hh. destruct (Hdec rest) as (d1 & d2 & Hf & Htk & Hr). exists d2. split; [done|]. split.
  { pose proof (feed_keeps_digest (hdr_digest (rx_decoder x)) (hdr ++ rest) (rx_decoder x) eq_refl) as H1. rewrite Hf in H1. cbn in H1.
    pose proof (take_keeps_digest (hdr_digest (rx_decoder x)) d1 H1) as H2. by rewrite Htk in H2. }
  rewrite recv_bytes_step; [|done|done|cbn; by destruct hdr].
  set (sl := {| sl_ptr := p; sl_bytes := hdr ++ rest |}).
  assert (feed_header t dd rc sl x = ({| rx_conn := c1; rx_decoder := d2; rx_phase := PHeader |},
    Ok (Routed o, {| sl_ptr := p + Z.of_nat (length hdr); sl_bytes := rest |}))) as He.
  { unfold feed_header.
    rewrite (bind_ok _ _ x {| rx_conn := rx_conn x; rx_decoder := d1; rx_phase := rx_phase x |} (length hdr))
      by (unfold on_decoder; cbn [sl sl_bytes]; by rewrite Hf).
    set (x1 := {| rx_conn := rx_conn x; rx_decoder := d1; rx_phase := rx_phase x |}).
    rewrite (bind_ok _ _ x1 x1 tt)
      by (unfold on_conn, lift, assert; rewrite bool_decide_true by (cbn; rewrite length_app; lia); done).
    assert (sl_advance (length hdr) sl = {| sl_ptr := p + Z.of_nat (length hdr); sl_bytes := rest |}) as Hadv
      by (unfold sl_advance; cbn [sl sl_ptr sl_bytes]; by rewrite drop_app_length).
    cbv zeta. rewrite Hadv, get_bind. cbn [rx_decoder x1].
    assert (is_complete d1 = true) as ->.
    { revert Htk. unfold PduDecoder_take, mbind, M_bind, get, lift, assert. by destruct (is_complete d1). }
    cbn [negb]. set (x2 := {| rx_conn := rx_conn x; rx_decoder := d2; rx_phase := rx_phase x |}).
    rewrite (bind_ok _ _ x1 x2 pdu) by (unfold on_decoder; cbn [rx_decoder x1]; by rewrite Htk).
    unfold mbind, M_bind, on_conn. cbn [rx_conn x2 sl_ptr]. rewrite Hh. cbn. by rewrite Hph. }
  unfold recv_round. rewrite (bind_ok _ _ x
    {| rx_conn := c1; rx_decoder := d2; rx_phase := match o with Some ph => ph | None => PHeader end |}
    (None, {| sl_ptr := p + Z.of_nat (length hdr); sl_bytes := rest |})); [done|].
  rewrite get_bind, Hph. unfold mbind, M_bind. rewrite He. by destruct o.
Qed.

(** ** Frames *)

(** Only slot [i], the memory, the ring and the traffic mark changed: send list,
    queue core, controller state and backends are as before. *)
Definition slot_only (i : nat) c c' : Prop :=
  (forall j, j <> i -> slots (arr c') !! j = slots (arr c) !! j) /\
  exists a o b m, c' = c_set_ring o (c_set_traffic b (put_mem m (c_slots a c))).

Lemma slot_only_refl i c : slot_only i c c.
Proof. split; [done|]. exists (arr c), (c_ring c), (c_traffic c), (w_mem (c_world c)). by destruct c as [[]]. Qed.

Lemma slot_only_trans i c1 c2 c3 : slot_only i c1 c2 -> slot_only i c2 c3 -> slot_only i c1 c3.
Proof.
  intros (H1 & a & o & b & m & ->) (H2 & a' & o' & b' & m' & ->). split.
  - intros j Hj. rewrite (H2 j Hj). by apply H1.
  - by exists a', o', b', m'.
Qed.

Lemma slot_only_slots i c a s o :
  slots a = <[i := s]> (slots (arr c)) -> slot_only i c (c_set_ring o (c_slots a c)).
Proof.
  intros Hs. split; [intros j Hj; cbn; rewrite Hs; by apply list_lookup_insert_ne|].
  exists a, o, (c_traffic c), (w_mem (c_world c)). by destruct c as [[]].
Qed.

Lemma slot_only_step i c a s : slots a = <[i := s]> (slots (arr c)) -> slot_only i c (c_slots a c).
Proof.
  intros Hs. replace (c_slots a c) with (c_set_ring (c_ring c) (c_slots a c)) by done. by apply (slot_only_slots i c a s).
Qed.

Lemma slot_only_put i c s evs : slot_only i c (put_slot i s evs c).
Proof. by apply (slot_only_step i c _ s). Qed.

Lemma slot_only_mem i m c : slot_only i c (put_mem m c).
Proof. split; [done|]. exists (arr c), (c_ring c), (c_traffic c), m. by destruct c as [[]]. Qed.

Lemma slot_only_traffic i b c : slot_only i c (c_set_traffic b c).
Proof. split; [done|]. exists (arr c), (c_ring c), b, (w_mem (c_world c)). by destruct c as [[]]. Qed.

(** ** In-capsule data *)

(** A command with in-capsule data gets a tag and a buffer. *)
Lemma capsule_routes c t tag tags sqe len ddgst p :
  conn_ok c -> free_tags (arr c) = tag :: tags -> 0 < len <= MDTS_BYTES -> Sqe_wf sqe ->
  exists i s c1, tag = Z.of_nat i /\
    handle_capsule_cmd t {| ca_sqe := sqe; ca_data_len := len; ca_ddgst := ddgst; ca_ring := None; ca_payload_ptr := p |} c =
      (c1, Ok (Routed (Some (PData {| ph_tag := tag; ph_base := 0; ph_remaining := len; ph_crc := Crc32c_new;
         ph_ddgst := ddgst; ph_kind := InCapsule; ph_retained := false |})))) /\
    conn_ok c1 /\ slots (arr c1) !! i = Some s /\ state s = Receiving /\ cmd s = sqe /\ data_len s = len /\
    slot_only i c c1 /\ w_mem (c_world c1) = w_mem (c_world c).
Proof.
  intros Hc Hf Hl Hx. destruct (await_tag_ok (E := RecvEnd) c t Hc) as [(c1 & _ & _ & Hf' & _)|(i & s & c1 & He & Hc1 & Hi & Hs & Heq)];
    [congruence|].
  set (s1 := with_recv_offset 0 (with_data_len 0 (with_state Receiving s))) in *.
  assert (slots (arr c1) !! i = Some s1) as Hi1 by (subst c1; cbn; apply list_lookup_insert_eq; by eapply lookup_lt_Some).
  assert (tag = Z.of_nat i) as ->.
  { destruct (ck_slots _ _ Hc) as (rss & res & Ha). revert He. unfold on_queue. rewrite get_bind. unfold mbind, M_bind, on_world, on_slots.
    unfold await_tag_poll, mbind, M_bind. destruct (claim_ok _ _ _ Ha) as [[Hf' _]|(t' & s' & a' & Hcl & _ & _ & _ & _ & _ & Hft)]; [congruence|].
    rewrite Hcl. cbn. destruct (release_events _ _) as [? [?|?|]]; intros [=]; simplify_eq. congruence. }
  destruct (lease_ok (E := RecvEnd) c1 i s1 len (w_heap (c_world c1))) as (d & a & o & Hq & Hok & _ & Hsl & _ & Hpb & Hne);
    [done|done|done|lia|cbn; lia|].
  set (c2 := c_set_ring o (c_slots a c1)) in *.
  assert (slots (arr c2) !! i = Some (SlotQ.with_data d s1)) as Hi2
    by (cbn; rewrite Hsl; apply list_lookup_insert_eq; by eapply lookup_lt_Some).
  set (s3 := with_cmd sqe (with_data_len len (SlotQ.with_data d s1))).
  exists i, s3, (put_slot i s3 [] c2). split; [done|]. split; [|split; [|split; [exact (put_slot_lookup i _ s3 [] c2 Hi2)|]; split; [done|]; split; [done|]; split; [done|]; split]].
  - unfold handle_capsule_cmd. rewrite (bind_ok _ _ _ _ _ He). cbn [ca_sqe ca_data_len ca_ddgst ca_ring ca_payload_ptr].
    rewrite (bind_ok _ _ c1 (put_slot i s3 [] c2) (Some (PData {| ph_tag := Z.of_nat i; ph_base := 0; ph_remaining := len; ph_crc := Crc32c_new;
         ph_ddgst := ddgst; ph_kind := InCapsule; ph_retained := false |}))); [done|].
    unfold capsule_tagged. rewrite (bind_ok _ _ c1 c1 s1) by (by apply q_slot_eq).
    destruct (Z.ltb_spec 0 len); [|lia]. destruct (Z.ltb_spec MDTS_BYTES len); [lia|].
    rewrite (bind_ok _ _ c1 c1 false) by done. rewrite get_bind. rewrite (bind_ok _ _ c1 c2 tt) by exact Hq.
    rewrite (bind_ok _ _ c2 (put_slot i (with_data_len len (SlotQ.with_data d s1)) [] c2) tt) by (by apply set_data_len_eq).
    rewrite (bind_ok _ _ _ (put_slot i s3 [] c2) tt); [done|].
    rewrite (stash_eq _ i (with_data_len len (SlotQ.with_data d s1))); [|by eapply put_slot_lookup|done]. by rewrite put_slot_put.
  - eapply (put_ok _ _ i _ _ _ Hok Hi2); try done.
    apply (announced_buf (SlotQ.with_data d s1) len sqe 0); [by apply page_buf_holds|done|lia|lia].
  - eapply slot_only_trans; [|apply slot_only_put]. eapply (slot_only_trans _ _ c1).
    + subst c1. by apply (slot_only_step i c _ s1).
    + by eapply slot_only_slots.
  - by subst c1.
Qed.

(** Receiving its header leads to the payload. *)
Lemma capsule_enters (x : RecvSt B) t dd tag tags hdr sqe ddgst len tail p :
  rx_ok x -> rx_phase x = PHeader -> free_tags (arr (rx_conn x)) = tag :: tags -> hdr <> [] -> 0 < len <= MDTS_BYTES ->
  decodes (rx_decoder x) hdr {| dp_kind := KCapsuleCmd sqe; dp_data_len := len; dp_ddgst := ddgst |} ->
  exists i s c1 dec d, tag = Z.of_nat i /\
    d = {| ph_tag := tag; ph_base := 0; ph_remaining := len; ph_crc := Crc32c_new; ph_ddgst := ddgst && dd;
           ph_kind := InCapsule; ph_retained := false |} /\
    recv_bytes t dd None {| sl_ptr := p; sl_bytes := hdr ++ tail |} x =
    recv_bytes t dd None {| sl_ptr := p + Z.of_nat (length hdr); sl_bytes := tail |} {| rx_conn := c1; rx_decoder := dec; rx_phase := PData d |} /\
    rx_ok {| rx_conn := c1; rx_decoder := dec; rx_phase := PData d |} /\ dec_ready dec /\
    slots (arr c1) !! i = Some s /\ state s = Receiving /\ cmd s = sqe /\ data_len s = len /\
    slot_only i (rx_conn x) c1 /\ w_mem (c_world c1) = w_mem (c_world (rx_conn x)).
Proof.
  intros Hx Hph Hf Hne Hl Hdec. pose proof Hx as (Hc & _).
  destruct (capsule_routes (rx_conn x) t tag tags sqe len (ddgst && dd) (p + Z.of_nat (length hdr)) Hc Hf Hl (decodes_kind_ok _ _ _ Hdec))
    as (i & s & c1 & -> & Hh & Hc1 & Hi & Hs & Hcmd & Hdl & Hso & Hmem).
  set (d := {| ph_tag := Z.of_nat i |}) in Hh.
  destruct (header_routes x t dd None hdr _ tail p c1 (Some (PData d)) Hx I Hph Hne Hdec Hh) as (dec & Hdr & _ & ->).
  exists i, s, c1, dec, d. split_and!; try done. split; [done|]. split; [by apply dec_ready_open|].
  destruct (ck_bufs _ _ Hc1 _ _ Hi) as (_ & Hbuf & _). destruct (Hbuf Hs) as (Ho & Hd & Hm).
  exists i, s. unfold payload_total. cbn. rewrite Hdl. split_and!; try done; lia.
Qed.

(** Outside the buffer of slot [i], the memory is as before. *)
Definition mem_only (i : nat) c c' : Prop :=
  forall z, (forall s g, slots (arr c') !! i = Some s -> g ∈ segs (data s) -> ~ in_seg g z) ->
    w_mem (c_world c') z = w_mem (c_world c) z.

(** The command in slot [i] is ready, with its data. *)
Definition delivered (i : nat) (sqe : Sqe) (data_ : bytes) c : Prop :=
  exists s, slots (arr c) !! i = Some s /\ state s = Ready /\ cmd s = sqe /\
    data_len s = Z.of_nat (length data_) /\ segs_ok (segs (data s)) /\
    take (length data_) (flat (w_mem (c_world c)) (segs (data s))) = data_.

(** C14. A write with in-capsule data is delivered.  From any state between PDUs
    with a free tag, receiving a command capsule, its payload of at most MDTS
    bytes and, when negotiated, the payload's digest (with whatever follows)
    claims the tag and leaves the command ready in its slot with exactly the
    bytes the host sent; only that slot and its buffer changed, and the receive
    path is between PDUs again, with the bytes that follow still to be read.  The
    windows are those of the classic reader. *)
Theorem capsule_delivered x t dd tag tags hdr sqe ddgst payload rest p :
  rx_ok x -> rx_phase x = PHeader -> free_tags (arr (rx_conn x)) = tag :: tags ->
  hdr <> [] -> 0 < Z.of_nat (length payload) <= MDTS_BYTES ->
  decodes (rx_decoder x) hdr {| dp_kind := KCapsuleCmd sqe; dp_data_len := Z.of_nat (length payload); dp_ddgst := ddgst |} ->
  exists i c d p', tag = Z.of_nat i /\
    recv_bytes t dd None {| sl_ptr := p; sl_bytes := hdr ++ payload ++ trailer (ddgst && dd) payload ++ rest |} x =
    recv_bytes t dd None {| sl_ptr := p'; sl_bytes := rest |} {| rx_conn := c; rx_decoder := d; rx_phase := PHeader |} /\
    rx_ok {| rx_conn := c; rx_decoder := d; rx_phase := PHeader |} /\ dec_ready d /\
    delivered i sqe payload c /\ slot_only i (rx_conn x) c /\ mem_only i (rx_conn x) c /\ c_traffic c = true.
Proof.
  intros Hx Hph Hf Hne Hl Hdec.
  destruct (capsule_enters x t dd tag tags hdr sqe ddgst (Z.of_nat (length payload)) (payload ++ trailer (ddgst && dd) payload ++ rest) p)
    as (i & s & c1 & dec & d & -> & -> & -> & Hx1 & Hdr & Hi & Hs & Hcmd & Hdl & Hso & Hmem); try done.
  pose proof Hx1 as (Hc1 & _). set (d := {| ph_tag := Z.of_nat i |}) in *. set (x1 := {| rx_conn := c1 |}) in *.
  destruct (ck_bufs _ _ Hc1 _ _ Hi) as (Hsg & Hbuf & _). destruct (Hbuf Hs) as (Ho & Hd & Hm).
  destruct (write_at_ok (E := never) (data s) 0 payload (w_mem (c_world c1)) Hsg) as (m & Hw & Hfl & Hfr); [lia|lia|].
  set (s' := ready sqe s).
  set (c2 := put_slot i s' (wake (waker s)) (c_set_traffic true (put_mem m c1))).
  exists i, c2, dec. eexists. split; [done|]. split.
  - apply (payload_lands x1 t dd None d i s payload rest _ m c2); try done.
    + unfold stored. cbn [ph_retained d ph_base ph_remaining]. unfold payload_total. cbn [ph_kind d]. rewrite Hdl, Z.sub_diag. exact Hw.
    + cbn [ph_kind d]. unfold finish_payload, q_slot. rewrite (bind_ok _ _ _ (put_mem m c1) s) by (by apply q_slot_eq).
      rewrite Hcmd. by apply q_submit_eq.
  - assert (slots (arr c2) !! i = Some s') as Hi2 by (by eapply put_slot_lookup).
    split; [|split; [done|split; [|split; [|split; [|done]]]]].
    + split; [|split; [by apply dec_ready_open|done]]. eapply (put_ok _ _ i s); [apply traffic_ok, put_mem_ok, Hc1|done..|].
      apply ready_buf; [by apply (ck_bufs _ _ Hc1 i)|done|by apply (decodes_kind_ok _ _ _ Hdec)].
    + exists s'. split; [done|]. split; [done|]. split; [done|]. split; [done|]. split; [done|].
      change (take (length payload) (flat m (segs (data s))) = payload).
      rewrite Hfl. change (Z.to_nat 0) with 0%nat. rewrite take_0. cbn [app]. apply take_app_length.
    + eapply slot_only_trans; [exact Hso|]. eapply slot_only_trans; [|apply slot_only_put].
      eapply slot_only_trans; [apply slot_only_mem|apply slot_only_traffic].
    + intros z Hz. cbn. rewrite <- Hmem. apply Hfr. intros g Hg. by apply (Hz s').
Qed.

(** ** Solicited data *)

(** An H2CData PDU: its header on the wire, its data, the LAST and digest flags. *)
Record H2cPdu := { hp_hdr : bytes; hp_data : bytes; hp_last : bool; hp_ddgst : bool }.

Definition h2c_wire (dd : bool) (u : H2cPdu) : bytes :=
  hp_hdr u ++ hp_data u ++ trailer (hp_ddgst u && dd) (hp_data u).

(** [u] carries the data at [off] for command [cid] in slot [i]. *)
Definition h2c_pdu (hd : bool) (cid : Z) (i : nat) (off : Z) (u : H2cPdu) : Prop :=
  hp_hdr u <> [] /\ hp_data u <> [] /\
  forall d, dec_ready d -> hdr_digest d = hd ->
    decodes d (hp_hdr u) {| dp_kind := KH2CData cid (Z.of_nat i) off (Z.of_nat (length (hp_data u))) (hp_last u);
      dp_data_len := Z.of_nat (length (hp_data u)); dp_ddgst := hp_ddgst u |}.

(** The PDUs cover [off, total) in order, LAST only on the last one. *)
Fixpoint h2c_pdus (hd : bool) (cid : Z) (i : nat) (off total : Z) (us : list H2cPdu) : Prop :=
  match us with
  | [] => off = total
  | u :: us => h2c_pdu hd cid i off u /\ (hp_last u = true -> us = []) /\
      h2c_pdus hd cid i (off + Z.of_nat (length (hp_data u))) total us
  end.

Lemma h2c_pdus_total hd cid i off total us :
  h2c_pdus hd cid i off total us -> off + Z.of_nat (length (concat (map hp_data us))) = total.
Proof.
  revert off. induction us as [|u us IH]; intros off; cbn; [lia|]. intros (_ & _ & H%IH). rewrite length_app. lia.
Qed.

(** One PDU: its data goes to its offset. *)
Lemma h2c_step x t dd i s u rest p :
  rx_ok x -> rx_phase x = PHeader -> dec_ready (rx_decoder x) -> slots (arr (rx_conn x)) !! i = Some s -> state s = Receiving ->
  h2c_pdu (hdr_digest (rx_decoder x)) (sqe_cid (cmd s)) i (recv_offset s) u ->
  recv_offset s + Z.of_nat (length (hp_data u)) <= data_len s ->
  (hp_last u = true -> recv_offset s + Z.of_nat (length (hp_data u)) = data_len s) ->
  let fin := recv_offset s + Z.of_nat (length (hp_data u)) in
  exists c d m s' p', recv_bytes t dd None {| sl_ptr := p; sl_bytes := h2c_wire dd u ++ rest |} x =
    recv_bytes t dd None {| sl_ptr := p'; sl_bytes := rest |} {| rx_conn := c; rx_decoder := d; rx_phase := PHeader |} /\
    rx_ok {| rx_conn := c; rx_decoder := d; rx_phase := PHeader |} /\ dec_ready d /\ hdr_digest d = hdr_digest (rx_decoder x) /\
    slot_only i (rx_conn x) c /\ slots (arr c) !! i = Some s' /\ data s' = data s /\ cmd s' = cmd s /\ data_len s' = data_len s /\
    recv_offset s' = fin /\ state s' = (if fin =? data_len s then Ready else Receiving) /\ w_mem (c_world c) = m /\
    flat m (segs (data s)) = take (Z.to_nat (recv_offset s)) (flat (w_mem (c_world (rx_conn x))) (segs (data s))) ++ hp_data u ++
      drop (Z.to_nat (recv_offset s) + length (hp_data u)) (flat (w_mem (c_world (rx_conn x))) (segs (data s))) /\
    (forall z, (forall g, g ∈ segs (data s) -> ~ in_seg g z) -> m z = w_mem (c_world (rx_conn x)) z).
Proof.
  intros Hx Hph Hdr Hi Hs (Hne & Hnd & Hdec) Hle Hlast fin. pose proof Hx as (Hc & _).
  destruct (ck_bufs _ _ Hc _ _ Hi) as (Hsg & Hbuf & _). destruct (Hbuf Hs) as (Ho & Hd & Hm).
  set (n := Z.of_nat (length (hp_data u))) in *.
  assert (0 < n) as Hn by (unfold n; destruct (hp_data u); [done|cbn; lia]).
  set (d := {| ph_tag := Z.of_nat i; ph_base := recv_offset s; ph_remaining := n; ph_crc := Crc32c_new;
               ph_ddgst := hp_ddgst u && dd; ph_kind := H2c (hp_last u) n; ph_retained := false |}).
  assert (handle_pdu t {| dp_kind := KH2CData (sqe_cid (cmd s)) (Z.of_nat i) (recv_offset s) n (hp_last u); dp_data_len := n;
      dp_ddgst := hp_ddgst u |} dd None (p + Z.of_nat (length (hp_hdr u))) (rx_conn x) = (rx_conn x, Ok (Routed (Some (PData d))))) as Hh.
  { unfold handle_pdu. cbn [dp_kind dp_ddgst dp_data_len]. rewrite (bind_ok _ _ _ (rx_conn x) (Z.of_nat i)).
    - rewrite (bind_ok _ _ _ (rx_conn x) s) by (by apply q_slot_eq). by rewrite (bind_ok _ _ _ (rx_conn x) false) by done.
    - unfold validate_h2c. rewrite get_bind. rewrite (ck_size _ _ Hc). destruct (ck_slots _ _ Hc) as (rss & res & Ha).
      destruct (slot_in_range _ _ _ _ _ Ha Hi) as [Hr _]. destruct (Z.leb_spec (nslots (arr (rx_conn x))) (Z.of_nat i)); [lia|].
      rewrite (bind_ok _ _ _ (rx_conn x) s) by (by apply q_slot_eq). cbv zeta. rewrite bool_decide_true by done.
      rewrite !Z.eqb_refl. unfold checked_add. rewrite decide_True by (unfold in_u, MDTS_BYTES in *; lia).
      rewrite (proj2 (Z.leb_le _ _) Hle), (proj2 (Z.ltb_lt _ _) Hn). done. }
  destruct (header_routes x t dd None (hp_hdr u) _ (hp_data u ++ trailer (hp_ddgst u && dd) (hp_data u) ++ rest) p _ _
    Hx I Hph Hne (Hdec _ Hdr eq_refl) Hh) as (dec & Hdr' & Hhd & He).
  set (x1 := {| rx_conn := rx_conn x; rx_decoder := dec; rx_phase := PData d |}) in *.
  assert (rx_ok x1) as Hx1.
  { split; [done|]. split; [by apply dec_ready_open|]. exists i, s. unfold payload_total. cbn. split_and!; try done; lia. }
  destruct (write_at_ok (E := never) (data s) (recv_offset s) (hp_data u) (w_mem (c_world (rx_conn x))) Hsg) as (m & Hw & Hfl & Hfr);
    [lia|fold n; lia|].
  set (c1 := put_mem m (rx_conn x)). set (s1 := with_recv_offset fin s).
  pose proof (ck_bufs _ _ Hc _ _ Hi) as Hb. assert (Sqe_wf (cmd s)) as Hwf by apply Hb.
  assert (recv_buf s1) as Hb1 by (apply offset_buf; [done|unfold fin; fold n; lia]).
  assert (conn_ok (put_slot i s1 [] c1)) as Hok1.
  { eapply (put_ok _ _ i s); [by apply put_mem_ok|done|done|done|cbn; congruence|cbn; congruence|cbn; congruence|done]. }
  set (s' := if fin =? data_len s then ready (cmd s) s1 else s1).
  set (c2 := if fin =? data_len s then put_slot i s' (wake (waker s)) (c_set_traffic true (put_slot i s1 [] c1)) else put_slot i s1 [] c1).
  assert (finish_payload (Z.of_nat i) (H2c (hp_last u) n) c1 = (c2, Ok tt)) as Hfin.
  { unfold finish_payload, q_slot. rewrite (bind_ok _ _ c1 c1 s) by (by apply q_slot_eq).
    rewrite (bind_ok _ _ c1 c1 fin) by (unfold lift; by rewrite checked_ok by (unfold in_u, MDTS_BYTES in *; fold fin; lia)).
    rewrite (bind_ok _ _ c1 (put_slot i s1 [] c1) tt) by (by apply set_recv_offset_eq). unfold c2, s'.
    destruct (Z.eqb_spec fin (data_len s)) as [Hf|Hf].
    - rewrite (q_submit_eq _ i s1 (cmd s)); [done|by apply (put_slot_lookup i s)|done].
    - destruct (hp_last u); [by specialize (Hlast eq_refl)|done]. }
  pose proof (payload_lands x1 t dd None d i s (hp_data u) rest (p + Z.of_nat (length (hp_hdr u))) m c2 Hx1 I eq_refl eq_refl Hi eq_refl eq_refl) as Hp.
  assert (slots (arr c2) !! i = Some s') as Hi2.
  { unfold c2, s'. destruct (fin =? data_len s); [by apply (put_slot_lookup i s1), (put_slot_lookup i s)|by apply (put_slot_lookup i s)]. }
  exists c2, dec, m, s'. eexists. split; [|split; [|split; [done|split; [done|split; [|split; [done|]]]]]].
  - unfold h2c_wire. rewrite <- !app_assoc, He. apply Hp; [|exact Hfin].
    unfold stored. cbn [ph_retained d ph_base ph_remaining]. unfold payload_total. cbn [ph_kind d]. by rewrite Z.sub_diag, Z.add_0_r.
  - split; [|split; [by apply dec_ready_open|done]]. unfold c2, s'. cbn [rx_conn]. destruct (fin =? data_len s); [|done].
    eapply (put_ok _ _ i s1); [by apply traffic_ok|by apply (put_slot_lookup i s)|done..|by apply ready_buf].
  - assert (slot_only i (rx_conn x) (put_slot i s1 [] c1)) as Hso
      by (eapply slot_only_trans; [apply slot_only_mem|apply slot_only_put]).
    unfold c2. destruct (fin =? data_len s); [|done]. eapply slot_only_trans; [exact Hso|].
    eapply slot_only_trans; [apply slot_only_traffic|apply slot_only_put].
  - unfold s', c2. destruct (fin =? data_len s); split_and!; done.
Qed.

Lemma splice (l a b : bytes) (o : nat) :
  (o + length a + length b <= length l)%nat ->
  let l1 := take o l ++ a ++ drop (o + length a) l in
  take (o + length a) l1 ++ b ++ drop (o + length a + length b) l1 = take o l ++ (a ++ b) ++ drop (o + length (a ++ b)) l.
Proof.
  intros H. cbn. rewrite !length_app. rewrite take_app_add' by (rewrite length_take; lia). rewrite take_app_length.
  rewrite <- !app_assoc. do 3 f_equal.
  rewrite (drop_app_ge (take o l)) by (rewrite length_take; lia). rewrite drop_app_ge by (rewrite length_take; lia).
  rewrite drop_drop. f_equal. rewrite length_take. lia.
Qed.

(** C11. A solicited write is reassembled.  Once its R2T is out, the host may send
    the data in any number of H2CData PDUs (in order, LAST at most on the last
    one), with or without digests: after all of them the command is ready, its
    buffer holds the concatenation of their data from the offset reached before,
    and nothing but its slot and its buffer has changed.  The windows are those of
    the classic reader. *)
Theorem h2c_reassembled x t dd i s us rest p :
  rx_ok x -> rx_phase x = PHeader -> dec_ready (rx_decoder x) -> slots (arr (rx_conn x)) !! i = Some s -> state s = Receiving ->
  us <> [] -> h2c_pdus (hdr_digest (rx_decoder x)) (sqe_cid (cmd s)) i (recv_offset s) (data_len s) us ->
  exists c d s' p', recv_bytes t dd None {| sl_ptr := p; sl_bytes := concat (map (h2c_wire dd) us) ++ rest |} x =
    recv_bytes t dd None {| sl_ptr := p'; sl_bytes := rest |} {| rx_conn := c; rx_decoder := d; rx_phase := PHeader |} /\
    rx_ok {| rx_conn := c; rx_decoder := d; rx_phase := PHeader |} /\ dec_ready d /\
    slots (arr c) !! i = Some s' /\ state s' = Ready /\ cmd s' = cmd s /\ data s' = data s /\
    (let l := flat (w_mem (c_world (rx_conn x))) (segs (data s)) in
     let new := concat (map hp_data us) in
     let o := Z.to_nat (recv_offset s) in
     flat (w_mem (c_world c)) (segs (data s')) = take o l ++ new ++ drop (o + length new) l) /\
    slot_only i (rx_conn x) c /\ mem_only i (rx_conn x) c.
Proof.
  intros Hx Hph Hdr Hi Hs Hne Hus. revert x s p Hx Hph Hdr Hi Hs Hus. induction us as [|u us IH]; intros x s p Hx Hph Hdr Hi Hs Hus; [done|].
  pose proof (h2c_pdus_total _ _ _ _ _ _ Hus) as Htot. destruct Hus as (Hu & Hlast & Hus). cbn [map concat] in *.
  rewrite length_app in Htot. destruct Hx as (Hc & Hx).
  destruct (ck_bufs _ _ Hc _ _ Hi) as (Hsg & Hbuf & _). destruct (Hbuf Hs) as (Ho & Hd & Hm).
  pose proof (flat_length (w_mem (c_world (rx_conn x))) _ Hsg) as Hfl0.
  destruct (h2c_step x t dd i s u (concat (map (h2c_wire dd) us) ++ rest) p (conj Hc Hx) Hph Hdr Hi Hs Hu)
    as (c1 & d1 & m1 & s1 & p1 & He & Hx1 & Hdr1 & Hhd1 & Hso1 & Hi1 & Hdata1 & Hcmd1 & Hdl1 & Hro1 & Hst1 & Hm1 & Hfl1 & Hfr1).
  { lia. }
  { intros Hl. specialize (Hlast Hl). subst us. cbn in Htot. lia. }
  set (fin := recv_offset s + Z.of_nat (length (hp_data u))) in *. cbv zeta.
  assert (mem_only i (rx_conn x) c1) as Hmo1.
  { intros z Hz. rewrite Hm1. apply Hfr1. intros g Hg. apply (Hz s1 g Hi1). by rewrite Hdata1. }
  destruct (decide (us = [])) as [->|Hus0].
  - cbn [h2c_pdus] in Hus. exists c1, d1, s1, p1. rewrite <- app_assoc, He. split; [done|]. split; [done|]. split; [done|].
    split; [done|]. split; [by rewrite Hst1, Hus, Z.eqb_refl|]. split; [done|]. split; [done|]. split; [|done].
    cbn [map concat]. rewrite app_nil_r, Hdata1, Hm1. exact Hfl1.
  - assert (fin < data_len s) as Hlt.
    { destruct us as [|v us]; [done|]. destruct Hus as ((_ & Hv & _) & _). cbn in Htot. rewrite length_app in Htot.
      destruct (hp_data v); [done|]. cbn in Htot. unfold fin. lia. }
    destruct (IH Hus0 {| rx_conn := c1; rx_decoder := d1; rx_phase := PHeader |} s1 p1 Hx1 eq_refl Hdr1 Hi1)
      as (c & d & s' & p' & He2 & Hx2 & Hdr2 & Hi2 & Hst2 & Hcmd2 & Hdata2 & Hfl2 & Hso2 & Hmo2).
    { rewrite Hst1. destruct (Z.eqb_spec fin (data_len s)); [lia|done]. }
    { cbn [rx_decoder]. by rewrite Hhd1, Hcmd1, Hro1, Hdl1. }
    cbn [rx_conn] in *. exists c, d, s', p'. rewrite <- app_assoc, He, He2. split; [done|]. split; [done|]. split; [done|].
    split; [done|]. split; [done|]. split; [congruence|]. split; [congruence|]. split; [|split; [by eapply slot_only_trans|]].
    + rewrite Hfl2, Hro1, Hdata1, Hm1, Hfl1. unfold fin. rewrite Z2Nat.inj_add, Nat2Z.id by lia. apply splice. lia.
    + intros z Hz. rewrite Hmo2 by done. apply Hmo1. intros s0 g Hs0 Hg. rewrite Hi1 in Hs0. injection Hs0 as <-.
      apply (Hz s' g Hi2). by rewrite Hdata2.
Qed.
End Data.
