(* ===== verification/RecvSafe.v ===== *)
(** * The receive path never panics, and never executes corrupt data

    The receive task as a step relation: windows arrive, a capsule may wait for
    a tag and be polled again, and between its steps the other tasks of the
    connection run.  Its invariant holds in every reachable state, where every
    input is handled without a panic.  A payload whose digest does not match is
    answered with an error and never becomes a ready command.

    When a window ends inside a large H2C payload, the rest is received straight
    into the slot's segments, in as many short receives as it takes.  The result
    is what copying the same bytes through the receive buffer gives. *)

From Stdlib Require Import FunctionalExtensionality.
From S2P Require Import Prelude Digest Spec Pdu PduProofs Pool.
From S2P Require Import PoolProofs PoolSafety PoolData SlotQ SlotQProofs SlotQSafety.
From S2P Require Import Backend Dispatch BufRing RingProofs TcpQueue Recv.
From S2P Require Import ExecLaws ConnProofs RecvProofs RecvStream RecvData Reader.

Section Safe.
Context {B : Type} {L : Crc32cLib} {LL : Crc32cLaws L}.
Implicit Types (c : Conn B) (s : Slot Sqe).

Abbreviation arr c := (w_slots (c_world c)).

(** ** The receive task *)

(** Between windows, or with a capsule waiting for a tag and the bytes behind it. *)
Inductive RxTask :=
| RxIdle (x : RecvSt B)
| RxWait (x : RecvSt B) (rc : option RingCtx) (k : Capsule) (sl : Slice).

Definition rx_after (rc : option RingCtx) (x : RecvSt B) (w : WindowEnd) : RxTask :=
  match w with Drained => RxIdle x | Blocked k sl => RxWait x rc k sl end.

Definition rx_with (c : Conn B) (x : RecvSt B) : RecvSt B :=
  {| rx_conn := c; rx_decoder := rx_decoder x; rx_phase := rx_phase x |}.

(** The other tasks keep the connection's invariant and leave the slots being
    received alone; a slot's task may register its waker there. *)
Definition others c c' : Prop :=
  conn_ok c' /\ (is_Some (c_ring c') <-> is_Some (c_ring c)) /\
  forall i s, slots (arr c) !! i = Some s -> state s = Receiving ->
    exists v, slots (arr c') !! i = Some (with_waker v s).

Inductive rx_step (t : nat) (dd : bool) : RxTask -> RxTask -> Prop :=
| rx_window x rc sl x' w :
    ring_ctx_ok (rx_conn x) rc -> recv_bytes t dd rc sl x = (x', Ok w) ->
    rx_step t dd (RxIdle x) (rx_after rc x' w)
| rx_poll x rc k sl x' w :
    resume_capsule t dd rc k sl x = (x', Ok w) -> rx_step t dd (RxWait x rc k sl) (rx_after rc x' w)
| rx_idle_others x c' : others (rx_conn x) c' -> rx_step t dd (RxIdle x) (RxIdle (rx_with c' x))
| rx_wait_others x rc k sl c' :
    others (rx_conn x) c' -> rx_step t dd (RxWait x rc k sl) (RxWait (rx_with c' x) rc k sl).

Definition task_ok (r : RxTask) : Prop :=
  match r with
  | RxIdle x => rx_ok x
  | RxWait x rc k sl => rx_ok x /\ rx_phase x = PHeader /\ ring_ctx_ok (rx_conn x) rc /\ capsule_ok rc k
  end.

Lemma phase_others c c' p : others c c' -> phase_ok c p -> phase_ok c' p.
Proof.
  intros (_ & _ & Hs). destruct p as [|d|d]; [done| |].
  - intros (i & s & Ht & Hi & Hst & H). destruct (Hs i s Hi Hst) as (v & Hv). by exists i, (with_waker v s).
  - intros ((i & s & Ht & Hi & Hst & H) & Hd). split; [|done]. destruct (Hs i s Hi Hst) as (v & Hv). by exists i, (with_waker v s).
Qed.

Lemma rx_others (x : RecvSt B) c' : rx_ok x -> others (rx_conn x) c' -> rx_ok (rx_with c' x).
Proof. intros (Hc & Hd & Hp) Ho. split; [apply Ho|]. split; [done|]. by eapply phase_others. Qed.

Lemma after_ok (x x' : RecvSt B) rc n w : ring_ctx_ok (rx_conn x) rc -> window_ok x x' rc n w -> task_ok (rx_after rc x' w).
Proof.
  intros Hrc (Hx & Hio & Hw). destruct w as [|k sl]; [done|]. destruct Hw as (Hk & Hp & _).
  split; [done|]. split; [done|]. split; [by eapply ring_ctx_same|done].
Qed.

Lemma rx_step_ok t dd r r' : rx_step t dd r r' -> task_ok r -> task_ok r'.
Proof.
  intros Hstep Hr. destruct Hstep as [x rc sl x' w Hrc He|x rc k sl x' w He|x c' Ho|x rc k sl c' Ho].
  - pose proof (recv_bytes_ok x t dd rc sl Hr Hrc) as Hok. unfold ends in Hok. rewrite He in Hok. by eapply after_ok.
  - destruct Hr as (Hx & Hp & Hrc & Hk). pose proof (resume_capsule_ok x t dd rc k sl Hx Hp Hrc Hk) as Hok.
    unfold ends in Hok. rewrite He in Hok. by eapply after_ok.
  - by apply rx_others.
  - destruct Hr as (Hx & Hp & Hrc & Hk). split; [by apply rx_others|]. split; [done|]. split; [|done].
    eapply ring_ctx_same; [apply Ho|done].
Qed.

(** No input makes the task panic in this state. *)
Definition never_panics (t : nat) (dd : bool) (r : RxTask) : Prop :=
  match r with
  | RxIdle x => forall rc sl, ring_ctx_ok (rx_conn x) rc -> (recv_bytes t dd rc sl x).2 <> Panic
  | RxWait x rc k sl => (resume_capsule t dd rc k sl x).2 <> Panic
  end.

(** C13. The receive path is safe against any peer.  From a fresh decoder on any
    well-formed connection, whatever windows of bytes arrive (classic or in ring
    buffers), however often a capsule waits for a tag, and with the other tasks
    of the connection running in between, every reachable state keeps the
    invariant (decoder in bounds, current payload within its slot's buffer, slots,
    borrowed ring buffers and send list well formed), and in every such state no
    bytes at all make the task panic. *)
Theorem recv_safe t dd hd c r :
  conn_ok c -> rtc (rx_step t dd) (RxIdle (rx_start hd c)) r -> task_ok r /\ never_panics t dd r.
Proof.
  intros Hc Hr. assert (task_ok r) as Hok.
  { remember (RxIdle (rx_start hd c)) as r0 eqn:Hr0. assert (task_ok r0) as H0 by (subst r0; by apply rx_start_ok). clear Hr0.
    induction Hr as [|r0 r1 r2 Hs _ IH]; [done|]. apply IH. by eapply rx_step_ok. }
  split; [done|]. destruct r as [x|x rc k sl]; cbn in *.
  - intros rc sl Hrc Hp. pose proof (recv_bytes_ok x t dd rc sl Hok Hrc) as H. unfold ends in H.
    destruct (recv_bytes t dd rc sl x) as [x' q]. cbn in Hp. by subst q.
  - destruct Hok as (Hx & Hp & Hrc & Hk). intros He. pose proof (resume_capsule_ok x t dd rc k sl Hx Hp Hrc Hk) as H.
    unfold ends in H. destruct (resume_capsule t dd rc k sl x) as [x' q]. cbn in He. by subst q.
Qed.

(** ** Corrupt payloads *)

(** The digest is complete and wrong. *)
Lemma bad_digest_round (x : RecvSt B) t dd i s crc kind bad rest p :
  rx_ok x -> rx_phase x = RecvPhase_ddgst (Z.of_nat i) crc kind -> slots (arr (rx_conn x)) !! i = Some s -> state s = Receiving ->
  length bad = 4%nat -> le_combine bad <> crc ->
  exists q h, core_ok q /\
    let c1 := c_set_world (set_core q (c_world (rx_conn x))) (rx_conn x) in
    let cqe := Cqe_new 0 h (qc_qid q) (sqe_cid (cmd s)) (status.dnr status.DATA_XFER_ERROR) in
    let c2 := pushed (Response {| co_tag := Z.of_nat i; co_cqe := cqe; co_data_len := 0 |}) (put_slot i (with_state Responding s) [] c1) in
    conn_ok c2 /\
    recv_bytes t dd None {| sl_ptr := p; sl_bytes := bad ++ rest |} x =
    recv_bytes t dd None {| sl_ptr := p + 4; sl_bytes := rest |} {| rx_conn := c2; rx_decoder := rx_decoder x; rx_phase := PHeader |}.
Proof.
  intros Hx Hph Hi Hs Hbad Hne. pose proof Hx as (Hc & _).
  destruct (advance_core_ok _ (ck_core _ _ Hc)) as (q & h & Hadv & Hq & Hqid & Hsz). exists q, h. split; [done|].
  intros c1 cqe c2. assert (conn_ok c1) as Hc1 by (by apply core_ok_conn). split.
  { apply pushed_ok; [cbn; lia|]. eapply (put_ok _ _ i s); try done. by apply responding_buf, (ck_bufs _ _ Hc i s). }
  rewrite recv_bytes_step by (done || by destruct bad). unfold recv_round.
  rewrite (bind_ok _ _ x {| rx_conn := c2; rx_decoder := rx_decoder x; rx_phase := PHeader |}
    (None, {| sl_ptr := p + 4; sl_bytes := rest |})); [done|].
  rewrite get_bind, Hph. unfold RecvPhase_ddgst. set (dg := {| dg_tag := _ |}). set (sl := {| sl_ptr := p |}).
  assert (dg_taken dg sl = 4%nat) as Ht by (unfold dg_taken; cbn [sl sl_bytes dg dg_have_len]; rewrite length_app; lia).
  assert (take 4 (sl_bytes sl) = bad) as Htk by (by apply take_app_length').
  assert (DdgstPhase_advance dg sl (rx_conn x) = (c2, Ok (PHeader, {| sl_ptr := p + 4; sl_bytes := rest |}))) as He.
  { rewrite (ddgst_advance_eq (rx_conn x) dg sl bad); [|cbn; lia|].
    - rewrite Ht. unfold judged. cbv zeta. rewrite decide_False by (cbn; lia).
      cbn [dg_take dg_have dg_expected dg dg_tag dg_kind]. destruct (Z.eqb_spec (le_combine bad) crc); [done|]. cbn [negb].
      unfold fail_digest, q_slot. rewrite (bind_ok _ _ _ c2 PHeader).
      + unfold sl_advance. cbn [sl sl_ptr sl_bytes]. by rewrite drop_app_length'.
      + rewrite (bind_ok _ _ _ (rx_conn x) s) by (by apply q_slot_eq).
        rewrite (bind_ok _ _ _ c1 h) by (unfold on_world, on_core; by rewrite Hadv).
        rewrite get_bind. by rewrite (bind_ok _ _ _ c2 tt) by (by apply (complete_receiving_eq c1 i s)).
    - rewrite Ht, Htk. cbn [dg dg_have dg_have_len]. rewrite copy_into_ok by (rewrite Hbad; cbn; lia).
      rewrite Hbad. cbn. by rewrite app_nil_r. }
  unfold mbind, M_bind, on_conn. rewrite He. done.
Qed.

(** C19. Corrupt data is never executed.  When a command capsule's payload arrives
    followed by four bytes that are not its CRC32C, the command does not become
    ready: its slot goes straight to responding, exactly one completion is
    queued, for that command and with Data Transfer Error (do not retry), no
    other slot changes, and the connection goes on with the next PDU. *)
Theorem bad_digest_refused x t tag tags hdr sqe payload bad rest p :
  rx_ok x -> rx_phase x = PHeader -> free_tags (arr (rx_conn x)) = tag :: tags ->
  hdr <> [] -> 0 < Z.of_nat (length payload) <= MDTS_BYTES ->
  decodes (rx_decoder x) hdr {| dp_kind := KCapsuleCmd sqe; dp_data_len := Z.of_nat (length payload); dp_ddgst := true |} ->
  length bad = 4%nat -> le_combine bad <> crc32c payload ->
  exists i c d s cqe p', tag = Z.of_nat i /\
    recv_bytes t true None {| sl_ptr := p; sl_bytes := hdr ++ payload ++ bad ++ rest |} x =
    recv_bytes t true None {| sl_ptr := p'; sl_bytes := rest |} {| rx_conn := c; rx_decoder := d; rx_phase := PHeader |} /\
    rx_ok {| rx_conn := c; rx_decoder := d; rx_phase := PHeader |} /\ dec_ready d /\
    slots (arr c) !! i = Some s /\ state s = Responding /\ cmd s = sqe /\
    work (c_send c) = work (c_send (rx_conn x)) ++ [Response {| co_tag := tag; co_cqe := cqe; co_data_len := 0 |}] /\
    cqe_cid cqe = sqe_cid sqe /\ cqe_status cqe = wrap 16 (Z.shiftl (status.dnr status.DATA_XFER_ERROR) 1) /\
    (forall j, j <> i -> slots (arr c) !! j = slots (arr (rx_conn x)) !! j).
Proof.
  intros Hx Hph Hf Hne Hl Hdec Hbad Hcrc.
  destruct (capsule_enters x t true tag tags hdr sqe true (Z.of_nat (length payload)) (payload ++ bad ++ rest) p)
    as (i & s & c1 & dec & d & -> & -> & -> & Hx1 & Hdr & Hi & Hs & Hcmd & Hdl & Hso & Hmem); try done.
  pose proof Hx1 as (Hc1 & _). set (d := {| ph_tag := Z.of_nat i |}) in *. set (x1 := {| rx_conn := c1 |}) in *.
  destruct (ck_bufs _ _ Hc1 _ _ Hi) as (Hsg & Hbuf & _). destruct (Hbuf Hs) as (Ho & Hd & Hm).
  destruct (write_at_ok (E := never) (data s) 0 payload (w_mem (c_world c1)) Hsg) as (m & Hw & _); [lia|lia|].
  destruct (payload_awaits x1 t true None d i s payload (bad ++ rest) (p + Z.of_nat (length hdr)) m) as [Hx2 ->]; try done.
  { unfold stored. cbn [ph_retained d ph_base ph_remaining]. unfold payload_total. cbn [ph_kind d]. rewrite Hdl, Z.sub_diag. exact Hw. }
  set (x2 := {| rx_conn := put_mem m (rx_conn x1) |}) in *.
  destruct (bad_digest_round x2 t true i s (crc32c payload) (ph_kind d) bad rest (p + Z.of_nat (length hdr) + Z.of_nat (length payload)))
    as (q & h & Hq & Hc2 & ->); try done.
  set (c2 := pushed _ _) in *. exists i, c2, dec, (with_state Responding s). do 2 eexists. split; [done|]. split; [reflexivity|].
  split; [split; [done|]; split; [by apply dec_ready_open|done]|]. split; [done|].
  destruct Hso as (Hoth & a & o & b & m' & Heq). cbn. split; [apply list_lookup_insert_eq; by eapply lookup_lt_Some|].
  split; [done|]. split; [done|]. split; [by rewrite Heq|]. split; [by rewrite Hcmd|]. split; [done|].
  intros j Hj. rewrite list_lookup_insert_ne by done. by apply Hoth.
Qed.
End Safe.

Lemma bind_assoc {S E A A' A''} (m : M S E A) (f : A -> M S E A') (g : A' -> M S E A'') (s : S) :
  ((m ≫= f) ≫= g) s = (m ≫= (fun a => f a ≫= g)) s.
Proof. unfold mbind, M_bind. by destruct (m s) as [s' [a|e|]]. Qed.

(** ** The sub-segments *)

(** The parts of the segments that cover [off, off + len). *)
Fixpoint sub_segs (l : list Seg) (off len : Z) : list Seg :=
  match l with
  | [] => []
  | g :: l =>
      if len =? 0 then []
      else if seg_len g <=? off then sub_segs l (off - seg_len g) len
      else
        let k := Z.min (seg_len g - off) len in
        {| ptr := ptr g + off; seg_len := k |} :: sub_segs l 0 (len - k)
  end.

Lemma sub_segs_length l off len : (length (sub_segs l off len) <= length l)%nat.
Proof.
  revert off len. induction l as [|g l IH]; intros off len; cbn; [done|].
  destruct (len =? 0); [cbn; lia|]. destruct (seg_len g <=? off); [specialize (IH (off - seg_len g) len); lia|].
  cbn. specialize (IH 0 (len - Z.min (seg_len g - off) len)). lia.
Qed.

(** [fill_subsegs] writes them into its array. *)
Lemma fill_subsegs_eq {E} out n l off len :
  (n + length l <= length out)%nat ->
  exists out' k, fill_subsegs (E := E) out n l off len = Ok (out', k) /\ take k out' = take n out ++ sub_segs l off len.
Proof.
  revert out n off len. induction l as [|g l IH]; intros out n off len Hn; cbn in Hn |- *.
  { exists out, n. by rewrite app_nil_r. }
  destruct (len =? 0); [exists out, n; by rewrite app_nil_r|].
  destruct (seg_len g <=? off); [apply IH; lia|].
  unfold assert. rewrite bool_decide_true by lia. cbn [mbind res_bind].
  set (e := {| ptr := _ |}).
  destruct (IH (<[n := e]> out) (S n) 0 (len - Z.min (seg_len g - off) len)) as (out' & k & -> & Hk); [rewrite length_insert; lia|].
  exists out', k. split; [done|]. rewrite Hk. rewrite (take_S_r _ n e) by (apply list_lookup_insert_eq; lia).
  rewrite take_insert_ge by lia. by rewrite <- app_assoc.
Qed.

Lemma sub_segs_ok l off len : 0 <= off -> 0 <= len -> Forall (fun g => 0 <= seg_len g) l -> Forall (fun g => 0 <= seg_len g) (sub_segs l off len).
Proof.
  intros Ho Hlen Hl. revert off len Ho Hlen. induction Hl as [|g l Hg Hl IH]; intros off len Ho Hlen; cbn; [done|].
  destruct (Z.eqb_spec len 0); [done|]. destruct (Z.leb_spec (seg_len g) off); [apply IH; lia|].
  constructor; [cbn; lia|]. apply IH; lia.
Qed.

Lemma sub_segs_total l off len :
  0 <= off -> 0 <= len -> Forall (fun g => 0 <= seg_len g) l -> off + len <= seg_total l -> iov_total (sub_segs l off len) = len.
Proof.
  intros Ho Hlen Hl. revert off len Ho Hlen. induction Hl as [|g l Hg Hl IH]; intros off len Ho Hlen; cbn; [lia|].
  intros Ht. destruct (Z.eqb_spec len 0); [cbn; lia|]. destruct (Z.leb_spec (seg_len g) off); [apply IH; lia|].
  cbn. destruct (decide (seg_len g - off <= len)); [rewrite IH; lia|].
  replace (len - Z.min (seg_len g - off) len) with 0 by lia. destruct l; cbn; lia.
Qed.

(** They hold what the segments hold there. *)
Lemma sub_segs_flat m l off len :
  0 <= off -> 0 <= len -> Forall (fun g => 0 <= seg_len g) l -> off + len <= seg_total l ->
  flat m (sub_segs l off len) = take (Z.to_nat len) (drop (Z.to_nat off) (flat m l)).
Proof.
  intros Ho Hlen Hl. revert off len Ho Hlen. induction Hl as [|g l Hg Hl IH]; intros off len Ho Hlen; cbn [sub_segs seg_total].
  { intros. cbn. by rewrite drop_nil, take_nil. }
  intros Ht. destruct (Z.eqb_spec len 0) as [->|]; [done|].
  change (flat m (g :: l)) with (mem_read m (ptr g) (seg_len g) ++ flat m l).
  pose proof (mem_read_length m (ptr g) (seg_len g) Hg) as Hgl.
  destruct (Z.leb_spec (seg_len g) off).
  - rewrite IH by lia. f_equal. rewrite drop_app_ge by lia. f_equal. lia.
  - rewrite drop_app_le by lia. set (k := Z.min (seg_len g - off) len). change (flat m (?h :: ?t)) with (mem_read m (ptr h) (seg_len h) ++ flat m t).
    cbn [ptr seg_len]. rewrite (mem_read_split m (ptr g) (seg_len g) off) by lia.
    rewrite drop_app_length' by (pose proof (mem_read_length m (ptr g) off); lia).
    rewrite (mem_read_split m (ptr g + off) (seg_len g - off) k) by lia.
    pose proof (mem_read_length m (ptr g + off) k ltac:(lia)) as Hkl.
    rewrite <- app_assoc. rewrite take_app_ge by lia. f_equal.
    replace (Z.to_nat len - length (mem_read m (ptr g + off) k))%nat with (Z.to_nat (len - k)) by lia.
    destruct (decide (seg_len g - off <= len)).
    + rewrite IH by lia. change (Z.to_nat 0) with 0%nat. rewrite drop_0. rewrite (take_app_ge (mem_read _ _ _)).
      2:{ pose proof (mem_read_length m (ptr g + off + k) (seg_len g - off - k)). lia. }
      assert (length (mem_read m (ptr g + off + k) (seg_len g - off - k)) = 0%nat) as H0
        by (pose proof (mem_read_length m (ptr g + off + k) (seg_len g - off - k)); lia).
      rewrite H0, Nat.sub_0_r. apply length_zero_iff_nil in H0 as ->. done.
    + replace (len - k) with 0 by lia. cbn. by destruct l.
Qed.

(** ** Scattered receives *)

(** What is left of a chunk list after [n] bytes. *)
Fixpoint iov_drop (l : list Seg) (n : Z) : list Seg :=
  match l with
  | [] => []
  | g :: l' =>
      if n <=? 0 then l
      else if seg_len g <=? n then iov_drop l' (n - seg_len g)
      else {| ptr := ptr g + n; seg_len := seg_len g - n |} :: l'
  end.

Abbreviation chunks l := (Forall (fun g => 0 <= seg_len g) l).

Lemma iov_drop_zero l : iov_drop l 0 = l.
Proof. by destruct l. Qed.

Lemma iov_drop_chunks l n : chunks l -> chunks (iov_drop l n).
Proof.
  intros Hl. revert n. induction Hl as [|g l Hg Hl IH]; intros n; cbn; [done|].
  destruct (n <=? 0); [by constructor|]. destruct (Z.leb_spec (seg_len g) n); [apply IH|]. constructor; [cbn; lia|done].
Qed.

Lemma iov_drop_total l n : chunks l -> 0 <= n <= iov_total l -> iov_total (iov_drop l n) = iov_total l - n.
Proof.
  intros Hl. revert n. induction Hl as [|g l Hg Hl IH]; intros n; cbn; [lia|]. intros Hn.
  destruct (Z.leb_spec n 0); [cbn; lia|]. destruct (Z.leb_spec (seg_len g) n); [rewrite IH; lia|]. cbn. lia.
Qed.

Lemma iov_total_nonneg l : chunks l -> 0 <= iov_total l.
Proof. induction 1; cbn; lia. Qed.

(** The source's cursor arithmetic computes it. *)
Lemma advance_direct_eq fuel iovs idx n :
  chunks (drop idx iovs) -> 0 <= n <= iov_total (drop idx iovs) -> (length iovs <= idx + fuel)%nat -> (idx <= length iovs)%nat ->
  exists iovs' idx', advance_direct (S fuel) iovs idx n = Ok (iovs', idx') /\ length iovs' = length iovs /\
    (idx' <= length iovs)%nat /\ drop idx' iovs' = iov_drop (drop idx iovs) n.
Proof.
  revert idx n. induction fuel as [|fuel IH]; intros idx n Hch Hn Hf Hi.
  { rewrite drop_ge in * by lia. cbn in Hn. exists iovs, idx. cbn.
    destruct (Z.leb_spec n 0); [|lia]. rewrite drop_ge by lia. done. }
  change (advance_direct (S (S fuel)) iovs idx n) with
    (if n <=? 0 then Ok (iovs, idx) else
     v ← expect (iovs !! idx);
     if seg_len v <=? n then advance_direct (S fuel) iovs (S idx) (n - seg_len v)
     else Ok (<[idx := {| ptr := ptr v + n; seg_len := seg_len v - n |}]> iovs, idx)).
  destruct (Z.leb_spec n 0).
  { exists iovs, idx. split_and!; try done. replace n with 0 by lia. by rewrite iov_drop_zero. }
  destruct (iovs !! idx) as [v|] eqn:Hv; [|apply lookup_ge_None in Hv; rewrite drop_ge in Hn by done; cbn in Hn; lia].
  pose proof (lookup_lt_Some _ _ _ Hv) as Hlt. cbn [expect mbind res_bind].
  rewrite (drop_S _ _ _ Hv) in Hch, Hn |- *. inversion Hch as [|? ? Hg Hl]. subst. cbn [iov_total iov_drop] in *.
  destruct (Z.leb_spec n 0); [lia|]. destruct (Z.leb_spec (seg_len v) n); [apply IH; [done|lia..]|].
  exists (<[idx := {| ptr := ptr v + n; seg_len := seg_len v - n |}]> iovs), idx. rewrite length_insert. split_and!; try done.
  rewrite (drop_S _ {| ptr := ptr v + n; seg_len := seg_len v - n |}) by (by apply list_lookup_insert_eq).
  by rewrite drop_insert_lt by lia.
Qed.

Lemma mem_write_none m a : mem_write m a [] = m.
Proof. apply functional_extensionality. intros z. unfold mem_write. cbn. by rewrite decide_False by lia. Qed.

Lemma scatter_nil m l : chunks l -> scatter m l [] = m.
Proof.
  intros Hl. revert m. induction Hl as [|g l Hg Hl IH]; intros m; cbn; [done|].
  rewrite take_nil, drop_nil, mem_write_none. apply IH.
Qed.

(** Two receives land where one would. *)
Lemma scatter_app m l x y :
  chunks l -> scatter m l (x ++ y) = scatter (scatter m l x) (iov_drop l (Z.of_nat (length x))) y.
Proof.
  intros Hl. revert m x. induction Hl as [|g l Hg Hl IH]; intros m x; [done|].
  cbn [scatter iov_drop]. rewrite length_app. destruct (decide (x = [])) as [->|Hx].
  { cbn [length app]. destruct (Z.leb_spec (Z.of_nat 0) 0); [|lia]. rewrite take_nil, drop_nil, mem_write_none.
    rewrite scatter_nil by done. done. }
  assert (0 < length x)%nat by (destruct x; cbn; [done|lia]).
  destruct (Z.leb_spec (Z.of_nat (length x)) 0); [lia|].
  destruct (Z.leb_spec (seg_len g) (Z.of_nat (length x))) as [Hle|Hgt].
  - set (k := Z.to_nat (seg_len g)).
    replace (Z.to_nat (Z.min (seg_len g) (Z.of_nat (length x)))) with k by lia.
    replace (Z.to_nat (Z.min (seg_len g) (Z.of_nat (length x + length y)))) with k by lia.
    rewrite take_app_le, drop_app_le by lia. rewrite IH. f_equal. f_equal. rewrite length_drop. lia.
  - replace (Z.to_nat (Z.min (seg_len g) (Z.of_nat (length x)))) with (length x) by lia.
    rewrite firstn_all, drop_all, scatter_nil by done. cbn [scatter ptr seg_len].
    set (n := Z.to_nat (Z.min (seg_len g - Z.of_nat (length x)) (Z.of_nat (length y)))).
    replace (Z.to_nat (Z.min (seg_len g) (Z.of_nat (length x + length y)))) with (length x + n)%nat by lia.
    rewrite take_app_add, drop_app_add. by rewrite mem_write_pieces.
Qed.

(** The loop over the receives: every completion brings at least a byte. *)
Lemma direct_loop_eq ps iovs idx done total m :
  Forall (fun p => p <> []) ps -> chunks (drop idx iovs) -> (idx <= length iovs)%nat ->
  Z.of_nat (length (concat ps)) = iov_total (drop idx iovs) -> total = done + iov_total (drop idx iovs) ->
  direct_loop (map Ok ps) iovs idx done total m = (scatter m (drop idx iovs) (concat ps), Ok (Some total)).
Proof.
  intros Hps. revert iovs idx done m. induction Hps as [|p ps Hp Hps IH]; intros iovs idx dn m Hch Hi Hlen Ht.
  { cbn in Hlen. cbn [map concat direct_loop]. destruct (Z.leb_spec total dn); [|lia]. rewrite scatter_nil by done.
    assert (total = dn) as -> by lia. done. }
  assert (0 < length p)%nat by (destruct p; cbn; [done|lia]).
  cbn [map direct_loop concat] in *. rewrite length_app in Hlen. destruct (Z.leb_spec total dn); [lia|].
  unfold mbind, M_bind, lift, modify, assert. rewrite bool_decide_true by done. cbv beta iota.
  destruct (Z.eqb_spec (Z.of_nat (length p)) 0); [lia|].
  destruct (advance_direct_eq (length iovs) iovs idx (Z.of_nat (length p))) as (iovs' & idx' & -> & Hl' & Hi' & Hd'); [done|lia|lia|done|].
  assert (iov_total (drop idx' iovs') = iov_total (drop idx iovs) - Z.of_nat (length p)) as Htot
    by (rewrite Hd'; apply iov_drop_total; [done|lia]).
  rewrite IH; [|by rewrite Hd'; apply iov_drop_chunks|by rewrite Hl'|rewrite Htot; lia|rewrite Htot; lia].
  by rewrite Hd', scatter_app.
Qed.

(** Scattering over the sub-segments is writing at the offset. *)
Lemma scatter_write m l off p :
  0 <= off -> Forall (fun g => 0 <= seg_len g) l -> scatter m (sub_segs l off (Z.of_nat (length p))) p = (write_loop m l off p).1.
Proof.
  intros Ho Hl. revert m off p Ho. induction Hl as [|g l Hg Hl IH]; intros m off p Ho; [done|].
  cbn [sub_segs write_loop]. destruct (decide (p = [])) as [->|Hp]; [done|].
  assert (0 < length p)%nat by (destruct p; cbn; [done|lia]).
  destruct (Z.eqb_spec (Z.of_nat (length p)) 0); [lia|]. destruct (Z.leb_spec (seg_len g) off); [apply IH; lia|].
  cbn [scatter ptr seg_len]. set (k := Z.min (seg_len g - off) (Z.of_nat (length p))).
  replace (Z.min k (Z.of_nat (length p))) with k by lia. rewrite <- IH by lia. rewrite length_drop. do 2 f_equal. lia.
Qed.

(** ** The tail of a payload *)

Section Direct.
Context {B : Type} {L : Crc32cLib} {LL : Crc32cLaws L}.
Implicit Types (c : Conn B) (s : Slot Sqe).

Abbreviation arr c := (w_slots (c_world c)).

Lemma update_fold m crc l :
  in_u 32 (crc_state crc) ->
  foldl (fun crc g => Crc32c_update crc (mem_read m (ptr g) (seg_len g))) crc l = Crc32c_update crc (flat m l).
Proof.
  revert crc. induction l as [|g l IH]; intros crc Hc; cbn [foldl].
  - unfold Crc32c_update. cbn. rewrite crc_append_nil by done. by destruct crc.
  - rewrite IH by (by apply update_state_u32). change (flat m (g :: l)) with (mem_read m (ptr g) (seg_len g) ++ flat m l).
    by rewrite update_app.
Qed.

(** [recv_tail_direct], with the completions of its receives; [None] while it
    still waits for one. *)
Definition recv_tail_direct (d : DataPhase) (comps : list (res Z bytes)) : M (Conn B) RecvEnd (option RecvPhase) :=
  subs ← tail_subsegs d;
  c ← get;
  let '(m, r) := read_direct_vectored comps subs (w_mem (c_world c)) in
  _ ← modify (fun c => c_set_world (set_store (w_backends (c_world c)) m (c_world c)) c);
  got ← lift (map_err RIo r);
  match got with
  | None => mret None
  | Some got => p ← recv_tail_landed d subs got; mret (Some p)
  end.

(** C20. Receiving a large tail directly is receiving it.  When the rest of a
    payload is received straight into the slot's segments, in any number of
    short receives, the slot's memory, its digest and its outcome (the digest
    still to be read, the command made ready, or the connection ended) are those
    of copying the same bytes through the receive buffer. *)
Theorem direct_tail_equiv c d ps p sl i s :
  conn_ok c -> data_ok c d -> ph_retained d = false -> ph_tag d = Z.of_nat i -> slots (arr c) !! i = Some s ->
  length (sd_segs (data s)) = MAX_SEGS -> Forall (fun x => x <> []) ps -> p = concat ps ->
  Z.of_nat (length p) = ph_remaining d -> sl_bytes sl = p ->
  DataPhase_advance d sl c =
    (ph ← recv_tail_direct d (map Ok ps); ph ← lift (expect ph); mret (ph, sl_advance (length p) sl)) c.
Proof.
  intros Hc Hdo Hret Ht Hi Hmax Hps -> Hlen Hsl. destruct Hdo as (i' & s' & Ht' & Hi' & Hs & Hr & Hb & Hle & Hcrc & Hk).
  assert (i' = i) as -> by lia. rewrite Hi in Hi'. injection Hi' as <-.
  destruct (ck_bufs _ _ Hc _ _ Hi) as (Hsg & Hbuf & _). destruct (Hbuf Hs) as (Ho & Hd & Hm).
  pose proof (segs_ok_nonneg _ Hsg) as Hnn. set (p := concat ps) in *.
  set (dest := ph_base d + (payload_total d s - ph_remaining d)).
  assert (data_taken d sl = length p) as Htk by (unfold data_taken; rewrite Hsl; lia).
  destruct (write_at_ok (E := never) (data s) dest p (w_mem (c_world c)) Hsg) as (m & Hw & Hfl & _); [lia|lia|].
  pose proof (data_advance_eq c d sl i s m Hc Ht Hi Hs Hr Hb Hle) as He. unfold stored in He. rewrite Htk, Hret, Hsl in He.
  fold dest in He. rewrite firstn_all in He. rewrite (He Hw). clear He.
  set (subs := sub_segs (segs (data s)) dest (ph_remaining d)).
  assert (tail_subsegs (B := B) d c = (c, Ok subs)) as Hsub.
  { unfold tail_subsegs. rewrite Ht. rewrite (bind_ok _ _ c c s) by (by apply q_slot_eq).
    rewrite (bind_ok _ _ c c dest).
    2:{ unfold lift, payload_dest. rewrite checked_ok by (unfold in_u, MDTS_BYTES in *; lia). cbn [mbind res_bind].
        by rewrite checked_ok by (unfold in_u, MDTS_BYTES in *; lia). }
    destruct (fill_subsegs_eq (E := RecvEnd) null_segs 0 (segs (data s)) dest (ph_remaining d)) as (out & k & Hf & Hk').
    { unfold segs, null_segs. rewrite length_take, length_replicate. lia. }
    unfold mbind, M_bind, lift. rewrite Hf. cbn. by rewrite Hk'. }
  assert (read_direct_vectored (map Ok ps) subs (w_mem (c_world c)) = (m, Ok (Some (ph_remaining d)))) as Hrd.
  { unfold read_direct_vectored. assert (iov_total subs = ph_remaining d) as Htot by (apply sub_segs_total; [lia|lia|done|lia]).
    rewrite (direct_loop_eq ps subs 0 0 (iov_total subs)); [|done|apply sub_segs_ok; [lia|lia|done]|lia|by rewrite drop_0, Htot|done].
    rewrite Htot. f_equal. unfold subs. fold p. rewrite drop_0, <- Hlen, scatter_write by (lia || done).
    unfold write_at in Hw. destruct (write_loop _ _ _ _) as [m' r]. destruct (bool_decide _); [|done]. by injection Hw. }
  unfold recv_tail_direct. rewrite !bind_assoc. rewrite (bind_ok _ _ c c subs Hsub). rewrite bind_assoc, get_bind, Hrd.
  rewrite bind_assoc. rewrite (bind_ok _ _ c (put_mem m c) tt) by done.
  rewrite bind_assoc. rewrite (bind_ok _ _ _ (put_mem m c) (Some (ph_remaining d))) by done. rewrite bind_assoc.
  unfold took, recv_tail_landed. rewrite Hsl, firstn_all. rewrite Z.ltb_irrefl, bind_assoc, get_bind.
  set (x := ph_take _ _ _). destruct (Z.ltb_spec 0 (ph_remaining x)) as [Hx|_]; [cbn in Hx; lia|].
  assert (x = ph_take (Z.to_nat (ph_remaining d)) (if ph_ddgst d
    then foldl (fun crc g => Crc32c_update crc (mem_read (w_mem (c_world (put_mem m c))) (ptr g) (seg_len g))) (ph_crc d) subs
    else ph_crc d) d) as ->; [|unfold mbind, M_bind; by destruct (payload_done _ _) as [c' [ph|e|]]].
  unfold x. rewrite <- Hlen, Nat2Z.id. f_equal. rewrite update_fold by done. destruct (ph_ddgst d); [|done]. f_equal.
  unfold subs. rewrite sub_segs_flat by (lia || done). change (w_mem (c_world (put_mem m c))) with m. rewrite Hfl.
  rewrite drop_app_length'. 2:{ rewrite length_take. pose proof (flat_length (w_mem (c_world c)) _ Hsg). lia. }
  rewrite take_app_length' by lia. done.
Qed.
End Direct.
