(* ===== verification/HandshakeProofs.v ===== *)
(** * Connection setup, byte for byte

    The handshake reads the ICReq and the Connect capsule off the stream in
    whatever pieces they come, answers with the digests both sides want, and
    leaves the stream at the byte behind the capsule.  No stream makes it panic
    or loop. *)

From S2P Require Import Prelude Digest Spec Pdu PduProofs.
From S2P Require Import Fabrics Subsystem Dispatch ExecLaws ConnProofs RecvProofs.
From S2P Require Import RecvData Handshake.

(** ** Streams *)

(** A [read]: some bytes from the front, or the end. *)
Lemma read_from_spec cap (s : Stream) s' b :
  (0 < cap)%nat -> read_from cap s = (s', b) ->
  concat s = b ++ concat s' /\ (length b <= cap)%nat /\ (b = [] -> concat s = []).
Proof.
  intros Hc. revert s' b. induction s as [|c s IH]; intros s' b; cbn [read_from]; [intros [= <- <-]; cbn; split_and!; (done || lia)|].
  destruct c as [|y c]; [apply IH|]. set (l := y :: c). case_decide as Hd; intros [= <- <-]; cbn [concat].
  - rewrite take_ge by done. split_and!; done.
  - rewrite app_assoc, take_drop. split; [done|]. rewrite length_take. split; [lia|].
    destruct cap; [lia|]. done.
Qed.

Lemma exact_from_spec n (s : Stream) :
  match exact_from n s with
  | (s', Some b) => length b = n /\ concat s = b ++ concat s'
  | (_, None) => (length (concat s) < n)%nat
  end.
Proof.
  revert n. induction s as [|c s IH]; intros n; cbn [exact_from].
  { case_decide; [by subst|]. cbn. lia. }
  case_decide as Hd.
  - specialize (IH (n - length c)%nat). destruct (exact_from _ s) as [s' [b|]]; cbn [fmap option_fmap option_map concat].
    + destruct IH as [Hb Hs]. rewrite length_app, Hs, app_assoc. split; [lia|done].
    + rewrite length_app. lia.
  - rewrite length_take. split; [lia|]. cbn [concat]. by rewrite app_assoc, take_drop.
Qed.

Lemma read_exact_ok n (s : Stream) wire rest :
  concat s = wire ++ rest -> length wire = n -> exists s', Handshake.read_exact n s = (s', Ok wire) /\ concat s' = rest.
Proof.
  intros Hs Hn. unfold Handshake.read_exact. pose proof (exact_from_spec n s) as H. destruct (exact_from n s) as [s' [b|]].
  - destruct H as [Hb Hc]. exists s'. rewrite Hs in Hc. apply app_inj_1 in Hc as [-> ->]; [done|lia].
  - rewrite Hs, length_app in H. lia.
Qed.

Section Setup.
Context {L : Crc32cLib} {LL : Crc32cLaws L}.

(** ** The first capsule's header *)

(** [d] has read the front of a header; [tail] is the rest of it. *)
Definition completes (d : PduDecoder) (tail : bytes) (p : DecodedPdu) : Prop :=
  dec_open d /\ tail <> [] /\ forall rest, exists d' d'',
    feed (tail ++ rest) d = (d', Ok (length tail)) /\ dstate d' = Complete /\ PduDecoder_take d' = (d'', Ok p).

Lemma complete_spec d : Bool.reflect (dstate d = Complete) (is_complete d).
Proof. unfold is_complete. destruct (dstate d); by constructor. Qed.

Lemma take_ok_complete d d' p : PduDecoder_take d = (d', Ok p) -> dstate d = Complete.
Proof. unfold PduDecoder_take, mbind, M_bind, get, lift, assert. by destruct (complete_spec d). Qed.

Lemma decodes_completes d wire p : dec_ready d -> wire <> [] -> decodes d wire p -> completes d wire p.
Proof.
  intros Hd Hne Hdec. split; [by apply dec_ready_open|]. split; [done|]. intros rest.
  destruct (Hdec rest) as (d' & d'' & Hf & Ht & _). exists d', d''. split; [done|]. split; [by eapply take_ok_complete|done].
Qed.

(** A piece that ends inside the header. *)
Lemma completes_piece d b tail p :
  completes d (b ++ tail) p -> b <> [] -> tail <> [] ->
  exists d1, feed b d = (d1, Ok (length b)) /\ dstate d1 <> Complete /\ completes d1 tail p.
Proof.
  intros (Ho & _ & Hc) Hb Ht. pose proof (feed_open d b Ho Hb) as Hf.
  assert (forall rest, exists d' d'', match feed b d with
    | (d1, Ok n) => if is_complete d1 then (d1, Ok n) else match feed (tail ++ rest) d1 with (d2, Ok m) => (d2, Ok (n + m)%nat) | o => o end
    | o => o end = (d', Ok (length (b ++ tail))) /\ dstate d' = Complete /\ PduDecoder_take d' = (d'', Ok p)) as Hall.
  { intros rest. destruct (Hc rest) as (d' & d'' & He & Hs). exists d', d''. split; [|done]. rewrite <- He, <- app_assoc.
    symmetry. apply feed_fragmentation, Ho. }
  assert (0 < length tail)%nat by (destruct tail; cbn; [done|lia]).
  destruct (feed b d) as [d1 [n|e|]] eqn:He; [|destruct (Hall []) as (? & ? & [=] & _)|done].
  destruct Hf as (Hn & Hw & Hopen). destruct (complete_spec d1) as [Hcm|Hcm].
  { exfalso. destruct (Hall []) as (? & ? & [= _ Hl] & _). rewrite length_app in Hl. lia. }
  destruct (Hopen Hcm) as [Ho1 ->]. exists d1. split; [done|]. split; [done|]. split; [done|]. split; [done|].
  intros rest. destruct (Hall rest) as (d' & d'' & Hr & Hs). exists d', d''. split; [|done].
  destruct (feed (tail ++ rest) d1) as [d2 [m|e|]]; [|done|done].
  injection Hr as -> Hm. rewrite length_app in Hm. f_equal. f_equal. lia.
Qed.

Lemma read_header_ok fuel d tail rest p (s : Stream) :
  completes d tail p -> concat s = tail ++ rest -> (length (concat s) < fuel)%nat ->
  exists s' pending, read_header fuel d s = (s', Ok (p, pending)) /\ pending ++ concat s' = rest /\ (length pending < 256)%nat.
Proof.
  revert d tail s. induction fuel as [|fuel IH]; intros d tail s Hc Hs Hf; [lia|].
  pose proof Hc as (Ho & Hne & Hcc). cbn [read_header].
  destruct (read_from 256 s) as [s1 b] eqn:Hr. destruct (read_from_spec 256 s s1 b (Nat.lt_0_succ _) Hr) as (Hb & Hcap & Hnil).
  rewrite (bind_ok _ _ s s1 b) by (unfold stream_read; by rewrite Hr).
  destruct (decide (b = [])) as [Hb0|Hb0].
  { exfalso. specialize (Hnil Hb0). rewrite Hnil in Hs. by destruct tail. }
  assert (0 < length b)%nat by (destruct b; cbn; [done|lia]).
  rewrite Hs in Hb. destruct (decide (length tail <= length b)%nat) as [Hle|Hgt].
  - assert (b = tail ++ drop (length tail) b) as Hbt.
    { rewrite <- (take_drop (length tail) b) at 1. f_equal. apply (f_equal (take (length tail))) in Hb.
      rewrite take_app_length, take_app_le in Hb by done. done. }
    assert (rest = drop (length tail) b ++ concat s1) as Hrest.
    { rewrite Hbt, <- app_assoc in Hb. by apply app_inv_head in Hb. }
    destruct (Hcc (drop (length tail) b)) as (d1 & d2 & Hfd & Hst & Htk). rewrite <- Hbt in Hfd.
    exists s1, (drop (length tail) b). split; [|split; [done|]].
    + unfold mbind at 1, M_bind at 1. unfold decoding. rewrite Hfd. cbn [map_err]. unfold mbind at 1, M_bind at 1. cbn [lift mret M_ret].
      destruct (complete_spec d1); [|done]. unfold mbind, M_bind. by rewrite Htk.
    + rewrite length_drop. assert (0 < length tail)%nat by (destruct tail; cbn; [done|lia]). lia.
  - assert (tail = b ++ drop (length b) tail) as Htb.
    { rewrite <- (take_drop (length b) tail) at 1. f_equal. apply (f_equal (take (length b))) in Hb.
      rewrite take_app_length, take_app_le in Hb by lia. done. }
    set (tail' := drop (length b) tail) in *.
    assert (tail' <> []) as Ht' by (intros H0; apply (f_equal length) in H0; unfold tail' in H0; rewrite length_drop in H0; cbn in H0; lia).
    rewrite Htb in Hc. destruct (completes_piece d b tail' p Hc Hb0 Ht') as (d1 & Hfd & Hnc & Hc1).
    assert (concat s1 = tail' ++ rest) as Hs1. { rewrite Htb, <- app_assoc in Hb. by apply app_inv_head in Hb. }
    unfold mbind at 1, M_bind at 1. unfold decoding. rewrite Hfd. cbn [map_err].
    unfold mbind, M_bind, lift, assert, mret, M_ret. destruct (complete_spec d1); [done|].
    rewrite bool_decide_true by done. apply (IH d1 tail' s1 Hc1 Hs1). rewrite Hs1. rewrite Hs, Htb, !length_app in Hf. rewrite length_app. lia.
Qed.

Lemma decoding_ends {A A'} msg (m : M PduDecoder PduError A) d (s : Stream) (f : PduDecoder * A -> M Stream HsErr A')
    (Q : Stream -> A' -> Prop) (R : Stream -> HsErr -> Prop) :
  match m d with
  | (d', Ok a) => ends (f (d', a)) s Q R
  | (_, Err _) => R s (ProtoErr msg)
  | (_, Panic) => False
  end -> ends (decoding msg m d ≫= f) s Q R.
Proof. unfold ends, decoding, mbind, M_bind. by destruct (m d) as [d' [a|e|]]. Qed.

(** Any stream: the header is read, or an error is returned. *)
Lemma read_header_total fuel d (s : Stream) :
  dec_open d -> (length (concat s) < fuel)%nat -> ends (read_header fuel d) s (fun _ _ => True) (fun _ _ => True).
Proof.
  revert d s. induction fuel as [|fuel IH]; intros d s Ho Hf; [lia|]. cbn [read_header].
  destruct (read_from 256 s) as [s1 b] eqn:Hr. destruct (read_from_spec 256 s s1 b (Nat.lt_0_succ _) Hr) as (Hb & _ & _).
  eapply (ends_step _ _ _ s1 b); [unfold stream_read; by rewrite Hr|].
  destruct (decide (b = [])) as [Hb0|Hb0]; [by apply ends_fail|]. pose proof (feed_open d b Ho Hb0) as Hfo.
  assert (0 < length b)%nat by (destruct b; cbn; [done|lia]). apply decoding_ends.
  destruct (feed b d) as [d1 [n|e|]]; [|done|done]. destruct Hfo as (Hn & Hw & Hopen).
  destruct (complete_spec d1) as [Hc|Hc].
  - apply decoding_ends. pose proof (take_total d1 Hw Hc) as Ht. by destruct (PduDecoder_take d1) as [d2 [p|e|]].
  - destruct (Hopen Hc) as [Ho1 ->]. eapply (ends_step _ _ _ s1 tt); [unfold lift, assert; by rewrite bool_decide_true|].
    apply IH; [done|]. rewrite Hb, length_app in Hf. lia.
Qed.

(** ** The exchange *)

Lemma decoding_ok {A} msg (m : M PduDecoder PduError A) d d' a (s : Stream) :
  m d = (d', Ok a) -> decoding msg m d s = (s, Ok (d', a)).
Proof. intros H. unfold decoding. by rewrite H. Qed.

Definition negotiated (allow_h allow_d : bool) (ic : IcReq) : Negotiated :=
  {| ng_hdr_digest := allow_h && has (icreq_digest ic) DIGEST_HDGST;
     ng_data_digest := allow_d && has (icreq_digest ic) DIGEST_DDGST;
     ng_maxr2t := Z.max (icreq_maxr2t ic) 1 |}.

Lemma accept_ok allow_h allow_d ic icw rest (s : Stream) :
  concat s = icw ++ rest -> length icw = 128%nat ->
  decodes (PduDecoder_new false) icw {| dp_kind := KIcReq ic; dp_data_len := 0; dp_ddgst := false |} ->
  icreq_pfv ic = PFV_1_0 -> icreq_hpda ic = 0 ->
  let ng := negotiated allow_h allow_d ic in
  exists s' resp r, accept_handshake allow_h allow_d MAX_H2C_DATA s = (s', Ok (ng, resp)) /\ concat s' = rest /\
    decodes (PduDecoder_new false) resp {| dp_kind := KIcResp r; dp_data_len := 0; dp_ddgst := false |} /\
    icresp_digest r = digest_bits (ng_hdr_digest ng) (ng_data_digest ng) /\ icresp_maxdata r = MAX_H2C_DATA.
Proof.
  intros Hs Hl Hdec Hp Hh ng. destruct (read_exact_ok 128 s icw rest Hs Hl) as (s1 & Hr & Hs1).
  destruct (Hdec []) as (d1 & d2 & Hf & Ht & _). rewrite app_nil_r in Hf.
  destruct (icresp_roundtrip (E := HsErr) (PduDecoder_new false) (zeroes 128) (ng_hdr_digest ng) (ng_data_digest ng) MAX_H2C_DATA)
    as (b & n & r & Henc & Hd & _ & _ & Hmax & Hdg); [apply new_ready|done|done|].
  exists s1, (take n b), r. split; [|done]. unfold accept_handshake. rewrite (bind_ok _ _ _ _ _ Hr).
  rewrite (bind_ok _ _ _ s1 (d1, length icw)) by (by apply decoding_ok).
  destruct (complete_spec d1) as [_|Hc]; [|by apply take_ok_complete in Ht]. cbn [negb].
  rewrite (bind_ok _ _ _ s1 (d2, {| dp_kind := KIcReq ic; dp_data_len := 0; dp_ddgst := false |})) by (by apply decoding_ok).
  cbn [dp_kind]. rewrite Hp, Hh, !Z.eqb_refl. cbn [negb]. fold (negotiated allow_h allow_d ic). fold ng.
  unfold mbind, M_bind, lift. by rewrite Henc.
Qed.

Lemma connect_ok ng hdr sqe ddgst cdata rest (s : Stream) :
  concat s = hdr ++ cdata ++ trailer ddgst cdata ++ rest -> hdr <> [] ->
  decodes (PduDecoder_new (ng_hdr_digest ng)) hdr {| dp_kind := KCapsuleCmd sqe; dp_data_len := 1024; dp_ddgst := ddgst |} ->
  sqe_opcode sqe = admin_opcode.FABRICS -> length cdata = 1024%nat ->
  exists s', read_connect ng s = (s', Ok (sqe, ConnectData_view cdata)) /\ concat s' = rest.
Proof.
  intros Hs Hne Hdec Hop Hl. unfold read_connect. rewrite get_bind.
  destruct (read_header_ok (S (length (concat s))) (PduDecoder_new (ng_hdr_digest ng)) hdr (cdata ++ trailer ddgst cdata ++ rest) _ s
    (decodes_completes _ _ _ (new_ready _) Hne Hdec) Hs ltac:(lia)) as (s1 & pend & Hr & Hp & Hlt).
  rewrite (bind_ok _ _ _ _ _ Hr). cbn [dp_kind dp_ddgst dp_data_len]. rewrite Hop, Z.eqb_refl. cbn [negb Z.eqb Pos.eqb].
  set (expected := (1024 + if ddgst then 4 else 0)%nat). set (pl := cdata ++ trailer ddgst cdata).
  assert (length pl = expected) as Hpl.
  { unfold pl, expected, trailer. rewrite length_app, Hl. destruct ddgst; [by rewrite length_le_split|done]. }
  assert (length pend < expected)%nat as Hpe by (unfold expected; lia).
  rewrite Nat.min_l by lia. rewrite decide_True by done. rewrite app_assoc in Hp. fold pl in Hp.
  assert (pl = pend ++ drop (length pend) pl) as Hsplit.
  { rewrite <- (take_drop (length pend) pl) at 1. f_equal. apply (f_equal (take (length pend))) in Hp.
    rewrite take_app_length, take_app_le in Hp by lia. done. }
  rewrite Hsplit, <- app_assoc in Hp. apply app_inv_head in Hp.
  destruct (read_exact_ok (expected - length pend) s1 _ _ Hp) as (s2 & Hr2 & Hs2); [rewrite length_drop; lia|].
  rewrite (bind_ok _ _ _ _ _ Hr2). rewrite firstn_all, <- Hsplit. exists s2. split; [|done].
  assert (take 1024 pl = cdata) as Hcd by (by apply take_app_length').
  rewrite (bind_ok _ _ s2 s2 tt).
  - rewrite Hcd. unfold read_from_bytes. rewrite decide_True by done. done.
  - destruct ddgst; [|done]. cbn [andb]. rewrite Hcd. unfold field, bytes_at.
    replace (take 4 (drop 1024 pl)) with (le_split 4 (crc32c cdata)).
    + rewrite le_combine_le_split4 by apply crc32c_u32. by rewrite Z.eqb_refl.
    + unfold pl. rewrite drop_app_length' by done. cbn [trailer]. symmetry. apply take_ge. by rewrite length_le_split.
Qed.

(** C21. A well-formed handshake is accepted, however the stream is cut.  A host
    that sends an ICReq (version 1.0, no padding), and then a Connect capsule
    framed with the header digest so negotiated, its 1024 bytes of data and their
    digest when it has one, with a queue size within the port's limit, gets a
    connection with the digests both sides want, the queue id, size and flow
    control it asked for and exactly its Connect command and data; the ICResp it
    is sent announces those digests, and the stream is left at the first byte
    behind the capsule. *)
Theorem handshake_accepts allow_h allow_d port ic icw hdr sqe ddgst cdata rest (s : Stream) :
  let ng := negotiated allow_h allow_d ic in
  let connect := ConnectCommand_view (Sqe_bytes sqe) in
  concat s = icw ++ hdr ++ cdata ++ trailer ddgst cdata ++ rest ->
  length icw = 128%nat -> decodes (PduDecoder_new false) icw {| dp_kind := KIcReq ic; dp_data_len := 0; dp_ddgst := false |} ->
  icreq_pfv ic = PFV_1_0 -> icreq_hpda ic = 0 ->
  hdr <> [] -> decodes (PduDecoder_new (ng_hdr_digest ng)) hdr {| dp_kind := KCapsuleCmd sqe; dp_data_len := 1024; dp_ddgst := ddgst |} ->
  sqe_opcode sqe = admin_opcode.FABRICS -> length cdata = 1024%nat ->
  2 <= cn_sqsize connect + 1 <= sqsize_cap (cn_qid connect) (pc_io_queue_size port) -> pc_io_queue_size port < 2 ^ 16 ->
  exists s' resp r, handshake allow_h allow_d port s =
      (s', Ok ({| qn_hdr_digest := ng_hdr_digest ng; qn_data_digest := ng_data_digest ng; qn_qid := cn_qid connect;
                  qn_sqsize := cn_sqsize connect + 1;
                  qn_sqhd_disabled := negb (Z.land (cn_cattr connect) CONNECT_DISABLE_SQFLOW =? 0);
                  qn_connect_sqe := sqe; qn_connect_data := ConnectData_view cdata |}, resp)) /\
    concat s' = rest /\
    decodes (PduDecoder_new false) resp {| dp_kind := KIcResp r; dp_data_len := 0; dp_ddgst := false |} /\
    icresp_digest r = digest_bits (ng_hdr_digest ng) (ng_data_digest ng) /\ icresp_maxdata r = MAX_H2C_DATA.
Proof.
  intros ng connect Hs Hicl Hic Hpfv Hhpda Hne Hdec Hop Hcl Hsz Hio.
  destruct (accept_ok allow_h allow_d ic icw _ s Hs Hicl Hic Hpfv Hhpda) as (s1 & resp & r & Ha & Hs1 & Hd & Hdg & Hmax).
  fold ng in Ha, Hdg. destruct (connect_ok ng hdr sqe ddgst cdata rest s1 Hs1 Hne Hdec Hop Hcl) as (s2 & Hc & Hs2).
  exists s2, resp, r. split; [|done]. unfold handshake. rewrite (bind_ok _ _ _ _ _ Ha), (bind_ok _ _ _ _ _ Hc). cbv zeta.
  fold connect. rewrite (proj2 (Z.leb_le _ _) (proj1 Hsz)), (proj2 (Z.leb_le _ _) (proj2 Hsz)). cbn [andb negb].
  rewrite wrap_small; [done|]. unfold in_u, sqsize_cap, MAX_QUEUE_ENTRIES in *. destruct (cn_qid connect =? 0); lia.
Qed.

(** ** Any stream *)

Lemma accept_total allow_h allow_d (s : Stream) :
  ends (accept_handshake allow_h allow_d MAX_H2C_DATA) s
    (fun _ '(ng, _) => (ng_hdr_digest ng = true -> allow_h = true) /\ (ng_data_digest ng = true -> allow_d = true)) (fun _ _ => True).
Proof.
  unfold accept_handshake. apply ends_bind. unfold ends at 1, Handshake.read_exact. destruct (exact_from 128 s) as [s1 [b|]]; [|done]. cbn [ok_or].
  apply decoding_ends. pose proof (feed_total (PduDecoder_new false) b (new_wf false)) as Hf.
  destruct (feed b (PduDecoder_new false)) as [d1 [n|e|]]; [|done|done]. destruct Hf as (Hw & _).
  destruct (complete_spec d1) as [Hc|Hc]; cbn [negb]; [|done]. apply decoding_ends. pose proof (take_total d1 Hw Hc) as Ht.
  destruct (PduDecoder_take d1) as [d2 [p|e|]]; [|done|done]. destruct (dp_kind p); try done.
  destruct (negb _); [done|]. destruct (negb _); [done|]. set (ng := {| ng_hdr_digest := _ |}).
  destruct (icresp_roundtrip (E := HsErr) (PduDecoder_new false) (zeroes 128) (ng_hdr_digest ng) (ng_data_digest ng) MAX_H2C_DATA)
    as (rb & k & r & Henc & _); [apply new_ready|done|done|].
  eapply ends_step; [unfold lift; by rewrite Henc|]. apply ends_ret. cbn. by split; intros [??]%andb_prop.
Qed.

Lemma connect_total ng (s : Stream) :
  ends (read_connect ng) s (fun _ '(sqe, _) => sqe_opcode sqe = admin_opcode.FABRICS) (fun _ _ => True).
Proof.
  unfold read_connect. apply ends_get, ends_bind. eapply ends_mono; [apply read_header_total; [apply dec_ready_open, new_ready|lia]| |by intros].
  intros s1 [pdu pend] _. destruct (dp_kind pdu) as [| |sqe| | | | |]; try done.
  destruct (Z.eqb_spec (sqe_opcode sqe) admin_opcode.FABRICS) as [Hop|]; cbn [negb]; [|done]. cbv zeta.
  set (expected := (1024 + if dp_ddgst pdu then 4 else 0)%nat). destruct (negb _); [done|].
  apply ends_bind. eapply (ends_mono _ _ (fun _ rest => length (take (Nat.min (length pend) expected) pend ++ rest) = expected) _ (fun _ _ => True)).
  - case_decide.
    + unfold ends, Handshake.read_exact. pose proof (exact_from_spec (expected - Nat.min (length pend) expected) s1) as Hx.
      destruct (exact_from _ s1) as [s2 [b|]]; [|done]. cbn. rewrite length_app, length_take. lia.
    + apply ends_ret. rewrite app_nil_r, length_take. lia.
  - intros s2 rest Hlen. set (pl := _ ++ rest) in *. apply ends_bind. eapply (ends_mono _ _ (fun s' _ => s' = s2) _ (fun _ _ => True)).
    + destruct (_ && _); [by apply ends_fail|by apply ends_ret].
    + intros s3 [] ->. assert (length (take 1024 pl) = 1024%nat) as Hpl by (rewrite length_take; unfold expected in Hlen; lia).
      unfold read_from_bytes. rewrite decide_True by done. by apply ends_ret.
    + by intros.
  - by intros.
Qed.

(** Every handshake ends.  Whatever bytes a peer sends and wherever they end,
    the handshake returns a connection or an error (it neither panics nor reads
    on for ever), and a connection it returns has a queue size between 2 and the
    port's limit, only digests the configuration allows, and a fabrics command
    as its first. *)
Theorem handshake_total allow_h allow_d port (s : Stream) :
  pc_io_queue_size port < 2 ^ 16 ->
  match handshake allow_h allow_d port s with
  | (_, Ok (q, _)) =>
      2 <= qn_sqsize q <= sqsize_cap (qn_qid q) (pc_io_queue_size port) /\
      (qn_hdr_digest q = true -> allow_h = true) /\ (qn_data_digest q = true -> allow_d = true) /\
      sqe_opcode (qn_connect_sqe q) = admin_opcode.FABRICS
  | (_, Err _) => True
  | (_, Panic) => False
  end.
Proof.
  intros Hio. assert (ends (handshake allow_h allow_d port) s (fun _ '(q, _) =>
      2 <= qn_sqsize q <= sqsize_cap (qn_qid q) (pc_io_queue_size port) /\
      (qn_hdr_digest q = true -> allow_h = true) /\ (qn_data_digest q = true -> allow_d = true) /\
      sqe_opcode (qn_connect_sqe q) = admin_opcode.FABRICS) (fun _ _ => True)) as H.
  { unfold handshake. apply ends_bind. eapply ends_mono; [apply accept_total| |by intros]. intros s1 [ng resp] [Hh Hd].
    apply ends_bind. eapply ends_mono; [apply connect_total| |by intros]. intros s2 [sqe cd] Hop. cbv zeta.
    set (cn := ConnectCommand_view _). set (cap := sqsize_cap _ _).
    destruct (Z.leb_spec 2 (cn_sqsize cn + 1)); [|done]. destruct (Z.leb_spec (cn_sqsize cn + 1) cap); [|done]. cbn [andb negb].
    apply ends_ret. cbn [qn_sqsize qn_qid qn_hdr_digest qn_data_digest qn_connect_sqe]. fold cap. rewrite wrap_small; [done|].
    unfold in_u, cap, sqsize_cap, MAX_QUEUE_ENTRIES in *. destruct (cn_qid cn =? 0); lia. }
  unfold ends in H. by destruct (handshake allow_h allow_d port s) as [s' [[q r]|e|]].
Qed.
End Setup.
