(* ===== verification/RecvWitness.v ===== *)
(** * Concrete connections on which the receive path's theorems apply *)

From S2P Require Import Prelude Digest Spec Pdu PduProofs Pool.
From S2P Require Import PoolSafety PoolData SlotQ SlotQSafety Backend Subsystem.
From S2P Require Import Fabrics Dispatch TcpQueue Recv Handshake ExecLaws.
From S2P Require Import SegIO ExecLaws.
From S2P Require Import ExecWitness ConnProofs RecvProofs RecvStream RecvData RecvSafe.
From S2P Require Import RecvSafe HandshakeProofs.

#[local] Existing Instances Castagnoli.lib Castagnoli.laws.

(** ** A connection with two free tags, and one that solicited 1024 bytes *)

Definition rx_conn_of (a : SlotArray Sqe) : Conn Memory.MemoryBackend :=
  {| c_world := {| w_slots := a; w_core := QueueCore_new 1 2 false; w_port := demo_port;
       w_registry := w_registry (demo_world 1 demo_io); w_connect_data := demo_connect; w_peer := [];
       w_role := demo_io; w_backends := []; w_mem := fun _ => Byte.x00;
       w_now := 0; w_tid := 7; w_cpus := []; w_heap := 0x40000000; w_woken := [] |};
     c_send := SendList_new; c_traffic := false; c_ring := None |}.

Definition h2c_ops : list (sq_op (C := Sqe)) := [OpClaim; OpLeaseAwait 0 1024 1; OpSetDataLen 0 1024].
Definition h2c_slots : SlotArray Sqe := Eval vm_compute in ops_run h2c_ops slots0.

Definition h2c_slot : Slot Sqe := Eval vm_compute in default (Slot_new Sqe_zeroed) (slots h2c_slots !! 0%nat).

Lemma slots0_reachable : sq_reachable slots0.
Proof. by apply (sq_init 2 0x200000 65536 Sqe_zeroed). Qed.

Lemma h2c_slots_reachable : sq_reachable h2c_slots.
Proof.
  change h2c_slots with (ops_run h2c_ops slots0). apply ops_reachable; [apply slots0_reachable|].
  repeat (split; [first [exact I|eexists; split; [vm_compute; reflexivity|done]]|split; [vm_compute; reflexivity|]]). done.
Qed.

(** Two slots, each without data or with the leased page. *)
Definition plain (s : Slot Sqe) : Prop :=
  (segs (data s) = [] /\ data_len s = 0 \/
   segs (data s) = [{| ptr := 0x200000; seg_len := 4096 |}] /\ data_len s = 1024 /\ owner (data s) <> OEmpty) /\
  recv_offset s = 0 /\ cmd s = Sqe_zeroed /\ forall b, owner (data s) <> ORing b.

Lemma plain_buf s : plain s -> recv_buf s.
Proof.
  intros (Hs & Hr & Hc & _). unfold recv_buf, slot_shape, payload_ok. rewrite Hr, Hc.
  assert (Sqe_wf Sqe_zeroed) as Hw by (by vm_compute).
  destruct Hs as [[-> ->]|(-> & -> & Ho)]; cbn.
  - split; [done|]. split; [intros _; unfold MDTS_BYTES; lia|]. split; [done|]. split; [done|]. intros _.
    split; [lia|]. split; [done|]. split; [lia|]. left. constructor.
  - split; [by repeat constructor|]. split; [intros _; unfold MDTS_BYTES; lia|]. split; [done|]. split; [done|]. intros _.
    split; [lia|]. split; [by repeat constructor|]. split; [unfold MAX_SEGS; lia|]. left.
    apply list.Forall_cons. split; [split; [cbn; lia|by exists 1]|constructor].
Qed.

Lemma rx_conn_ok a :
  sq_reachable a -> SlotQ.nslots a = 2 -> Forall plain (slots a) -> conn_ok (rx_conn_of a).
Proof.
  intros Ha Hn Hp. split; cbn.
  - by apply sq_reachable_ok.
  - by vm_compute.
  - by rewrite Hn.
  - intros i s Hs. by apply plain_buf, (list.Forall_lookup_1 _ _ _ _ Hp Hs).
  - intros i s b Hs. apply (list.Forall_lookup_1 _ _ _ _ Hp) in Hs as (_ & _ & _ & Ho). apply Ho.
  - constructor.
Qed.

Lemma fresh_conn_ok : conn_ok (rx_conn_of slots0).
Proof.
  apply rx_conn_ok; [apply slots0_reachable|done|].
  repeat (apply list.Forall_cons; split; [split; [by left|]; split; [done|]; split; [done|by intros]|]). by apply list.Forall_nil.
Qed.

Lemma h2c_conn_ok : conn_ok (rx_conn_of h2c_slots).
Proof.
  apply rx_conn_ok; [apply h2c_slots_reachable|done|].
  apply list.Forall_cons; split; [split; [by right|]; split; [done|]; split; [done|by intros]|].
  apply list.Forall_cons; split; [split; [by left|]; split; [done|]; split; [done|by intros]|]. by apply list.Forall_nil.
Qed.

(** ** What the host sends *)

Definition demo_payload : bytes := replicate 512 Byte.x5a.

Lemma sample_wire_decodes :
  decodes (PduDecoder_new true) sample_wire {| dp_kind := KCapsuleCmd sample_sqe; dp_data_len := 512; dp_ddgst := true |}.
Proof.
  destruct (capsule_cmd_roundtrip (E := unit) (PduDecoder_new true) (zeroes 128) sample_sqe 512 true) as (b & n & He & Hd);
    [apply new_ready|by vm_compute|by vm_compute|by apply Nat.leb_le|].
  assert (match encode_capsule_cmd (E := unit) (zeroes 128) sample_sqe true 512 true with Ok (b, n) => take n b | _ => [] end = sample_wire)
    as Hw by (vm_compute; reflexivity).
  cbn [hdr_digest PduDecoder_new] in He. rewrite He in Hw. rewrite <- Hw. exact Hd.
Qed.

Definition wire_of (r : res unit (bytes * nat)) : bytes := match r with Ok (b, n) => take n b | _ => [] end.

Definition h2c_of (off : Z) (last : bool) : H2cPdu :=
  {| hp_hdr := wire_of (encode_h2c_data (zeroes 128) 0 0 off 512 last true true); hp_data := demo_payload;
     hp_last := last; hp_ddgst := true |}.

Lemma h2c_of_pdu off last : in_u 32 off -> h2c_pdu true 0 0 off (h2c_of off last).
Proof.
  intros Ho. assert (forall d, dec_ready d -> hdr_digest d = true -> decodes d (hp_hdr (h2c_of off last))
      {| dp_kind := KH2CData 0 0 off 512 last; dp_data_len := 512; dp_ddgst := true |}) as H.
  { intros d Hd Hh. destruct (h2c_data_roundtrip (E := unit) d (zeroes 128) 0 0 off 512 last true) as (b & n & He & Hdec);
      [done|done|done|done|by vm_compute|done|by apply Nat.leb_le|].
    cbn [h2c_of hp_hdr]. rewrite Hh in He. rewrite He. exact Hdec. }
  split; [|split; [done|]].
  - intros Hn. destruct (H (PduDecoder_new true) (new_ready true) eq_refl []) as (d1 & d2 & Hf & Ht & _). rewrite Hn in Hf.
    apply take_ok_complete in Ht. cbn in Hf. vm_compute in Hf. injection Hf as <-. done.
  - intros d Hd Hh. change (Z.of_nat 0) with 0. change (Z.of_nat (length (hp_data (h2c_of off last)))) with 512. by apply H.
Qed.

(** ** Witnesses *)

Abbreviation fresh_rx := (rx_start true (rx_conn_of slots0)).
Abbreviation h2c_rx := (rx_start true (rx_conn_of h2c_slots)).

Lemma recv_fragmentation_witness :
  agree same_end
    (recv_stream 1 true [{| sl_ptr := 0; sl_bytes := take 20 sample_wire |}; {| sl_ptr := 4096; sl_bytes := drop 20 sample_wire |}] fresh_rx)
    (recv_bytes 1 true None {| sl_ptr := 0; sl_bytes := sample_wire |} fresh_rx).
Proof. apply recv_fragmentation; [apply rx_start_ok, fresh_conn_ok|vm_compute; reflexivity]. Defined.

Lemma capsule_delivered_witness :
  exists i (c : Conn Memory.MemoryBackend), slots (w_slots (c_world (rx_conn_of slots0))) !! i <> None /\ delivered i sample_sqe demo_payload c.
Proof.
  destruct (capsule_delivered fresh_rx 1 true 0 [1] sample_wire sample_sqe true demo_payload [] 0
    (rx_start_ok true _ fresh_conn_ok) eq_refl eq_refl ltac:(discriminate) ltac:(vm_compute; split; (reflexivity || discriminate))
    sample_wire_decodes) as (i & c & d & p' & Hi & _ & _ & _ & Hd & _).
  exists i, c. split; [|exact Hd]. assert (i = 0%nat) as -> by lia. discriminate.
Defined.

Lemma bad_digest_refused_witness :
  exists (c : Conn Memory.MemoryBackend) s, slots (w_slots (c_world c)) !! 0%nat = Some s /\ state s = Responding /\ length (work (c_send c)) = 1%nat.
Proof.
  destruct (bad_digest_refused fresh_rx 1 0 [1] sample_wire sample_sqe demo_payload (zeroes 4) [] 0
    (rx_start_ok true _ fresh_conn_ok) eq_refl eq_refl ltac:(discriminate) ltac:(vm_compute; split; (reflexivity || discriminate))
    sample_wire_decodes eq_refl ltac:(vm_compute; discriminate)) as (i & c & d & s & cqe & p' & Hi & _ & _ & _ & Hs & Hst & _ & Hw & _).
  assert (i = 0%nat) as -> by lia. exists c, s. split; [exact Hs|]. split; [exact Hst|]. rewrite Hw. reflexivity.
Defined.

Lemma h2c_reassembled_witness :
  exists (c : Conn Memory.MemoryBackend) s, slots (w_slots (c_world c)) !! 0%nat = Some s /\ state s = Ready /\
    take 1024 (flat (w_mem (c_world c)) (segs (data s))) = demo_payload ++ demo_payload.
Proof.
  destruct (h2c_reassembled h2c_rx 1 true 0 h2c_slot [h2c_of 0 false; h2c_of 512 true] [] 0
    (rx_start_ok true _ h2c_conn_ok) eq_refl (new_ready true) eq_refl eq_refl ltac:(discriminate))
    as (c & d & s & p' & _ & _ & _ & Hs & Hst & _ & _ & Hf & _).
  - split; [by apply h2c_of_pdu|]. split; [done|]. split; [by apply (h2c_of_pdu 512)|]. by split.
  - exists c, s. split; [exact Hs|]. split; [exact Hst|]. rewrite Hf. vm_compute. reflexivity.
Defined.

Lemma direct_tail_equiv_witness :
  let d := {| ph_tag := 0; ph_base := 0; ph_remaining := 1024; ph_crc := Crc32c_new; ph_ddgst := true; ph_kind := H2c true 1024;
              ph_retained := false |} in
  let sl := {| sl_ptr := 0; sl_bytes := demo_payload ++ demo_payload |} in
  DataPhase_advance d sl (rx_conn_of h2c_slots) =
    (ph ← recv_tail_direct d (map Ok [take 100 demo_payload; drop 100 demo_payload ++ demo_payload]);
     ph ← lift (expect ph); mret (ph, sl_advance 1024 sl)) (rx_conn_of h2c_slots).
Proof.
  intros d sl. apply (direct_tail_equiv (rx_conn_of h2c_slots) d _ (demo_payload ++ demo_payload) sl 0
    h2c_slot h2c_conn_ok);
    [|reflexivity|reflexivity|reflexivity|reflexivity|repeat constructor; discriminate|reflexivity..].
  exists 0%nat, h2c_slot. split; [done|]. split; [done|]. split; [done|].
  split; [cbn; lia|]. split; [cbn; lia|]. split; [cbn; lia|]. split; [by vm_compute|done].
Defined.

Lemma recv_safe_witness :
  exists x, rtc (rx_step 1 true) (RxIdle fresh_rx) (RxIdle x) /\ rx_decoder x <> PduDecoder_new true /\
    task_ok (RxIdle x) /\ never_panics 1 true (RxIdle x).
Proof.
  set (sl := {| sl_ptr := 0; sl_bytes := take 20 sample_wire |}).
  assert (have (rx_decoder (recv_bytes 1 true None sl fresh_rx).1) = 20%nat) as Hh by (vm_compute; reflexivity).
  destruct (recv_bytes 1 true None sl fresh_rx) as [x r] eqn:He.
  assert (r = Ok Drained) as -> by (apply (f_equal snd) in He; vm_compute in He; by symmetry).
  assert (rtc (rx_step 1 true) (RxIdle fresh_rx) (RxIdle x)) as Hr
    by (eapply rtc_l; [exact (rx_window 1 true fresh_rx None sl x Drained I He)|apply rtc_refl]).
  exists x. split; [exact Hr|]. split; [|exact (recv_safe 1 true true _ _ fresh_conn_ok Hr)].
  intros Hx. cbn [fst] in Hh. rewrite Hx in Hh. discriminate.
Defined.

(** ** A handshake: both digests, queue 1 of 32 entries, the stream in three pieces *)

Definition connect_sqe : Sqe :=
  {| sqe_opcode := admin_opcode.FABRICS; sqe_flags := 0; sqe_cid := 1; sqe_nsid := 1; sqe_cdw2 := 0; sqe_cdw3 := 0;
     sqe_mptr := 0;
     sqe_dptr := {| sgl_addr := 0; sgl_length := 1024; sgl_rsvd := zeroes 3; sgl_type := 0 |};
     sqe_cdw10 := 65536; sqe_cdw11 := 31; sqe_cdw12 := 0; sqe_cdw13 := 0; sqe_cdw14 := 0; sqe_cdw15 := 0 |}.

Definition icreq_wire : bytes := Eval vm_compute in wire_of (encode_icreq (zeroes 128) true true 0).
Definition connect_wire : bytes := Eval vm_compute in wire_of (encode_capsule_cmd (zeroes 128) connect_sqe true 1024 true).

Definition setup_stream (tail : bytes) : Stream :=
  let b := icreq_wire ++ connect_wire ++ ConnectData_bytes demo_connect ++ trailer true (ConnectData_bytes demo_connect) ++ tail in
  [take 100 b; bytes_at b 100 200; drop 300 b].

Lemma connect_wire_decodes :
  decodes (PduDecoder_new true) connect_wire {| dp_kind := KCapsuleCmd connect_sqe; dp_data_len := 1024; dp_ddgst := true |}.
Proof.
  destruct (capsule_cmd_roundtrip (E := unit) (PduDecoder_new true) (zeroes 128) connect_sqe 1024 true) as (b & n & He & Hd);
    [apply new_ready|by vm_compute|by vm_compute|by apply Nat.leb_le|].
  assert (wire_of (encode_capsule_cmd (zeroes 128) connect_sqe true 1024 true) = connect_wire) as Hw by (vm_compute; reflexivity).
  cbn [hdr_digest PduDecoder_new] in He. rewrite He in Hw. rewrite <- Hw. exact Hd.
Qed.

Lemma icreq_wire_decodes :
  exists ic, decodes (PduDecoder_new false) icreq_wire {| dp_kind := KIcReq ic; dp_data_len := 0; dp_ddgst := false |} /\
    icreq_pfv ic = PFV_1_0 /\ icreq_hpda ic = 0 /\ icreq_maxr2t ic = 0 /\ icreq_digest ic = digest_bits true true.
Proof.
  destruct (icreq_roundtrip (E := unit) (PduDecoder_new false) (zeroes 128) true true 0) as (b & n & p & He & Hd & Hp);
    [apply new_ready|done|by apply Nat.leb_le|].
  assert (wire_of (encode_icreq (zeroes 128) true true 0) = icreq_wire) as Hw by (vm_compute; reflexivity).
  rewrite He in Hw. exists p. rewrite <- Hw. done.
Qed.

Lemma handshake_accepts_witness :
  exists q resp s', handshake true false demo_port (setup_stream demo_payload) = (s', Ok (q, resp)) /\ concat s' = demo_payload /\
    qn_sqsize q = 32 /\ qn_hdr_digest q = true /\ qn_data_digest q = false.
Proof.
  destruct icreq_wire_decodes as (ic & Hic & Hpfv & Hhpda & _ & Hdg).
  assert (ng_hdr_digest (negotiated true false ic) = true) as Hng by (cbn; by rewrite Hdg).
  destruct (handshake_accepts true false demo_port ic icreq_wire connect_wire connect_sqe true (ConnectData_bytes demo_connect) demo_payload
    (setup_stream demo_payload)) as (s' & resp & r & Hh & Hs & _); [|reflexivity|exact Hic|exact Hpfv|exact Hhpda|discriminate| |reflexivity|reflexivity| |reflexivity|].
  - unfold setup_stream. set (b := icreq_wire ++ _). cbn [concat]. rewrite app_nil_r. unfold bytes_at. rewrite app_assoc.
    replace (drop 300 b) with (drop 200 (drop 100 b)) by (by rewrite drop_drop). by rewrite <- app_assoc, !take_drop.
  - rewrite Hng. exact connect_wire_decodes.
  - vm_compute. split; discriminate.
  - do 3 eexists. split; [exact Hh|]. split; [exact Hs|]. split; [reflexivity|]. split; [exact Hng|]. reflexivity.
Defined.

Lemma handshake_total_witness :
  exists e s', handshake true true demo_port [take 60 icreq_wire] = (s', Err e).
Proof.
  pose proof (handshake_total true true demo_port [take 60 icreq_wire] ltac:(vm_compute; reflexivity)) as H.
  destruct (handshake true true demo_port [take 60 icreq_wire]) as [s' r] eqn:He.
  assert (r = Err UnexpectedEof) as -> by (apply (f_equal snd) in He; vm_compute in He; by symmetry). by eexists _, _.
Defined.
