(* ===== verification/File.v ===== *)
(** * [ioutgt-backend/src/file.rs], [lib.rs]: the file backend and the backend enum

    A regular file or a block device behind an io_uring.  The kernel is a
    parameter: its answer to each round of a transfer (bytes moved, or an errno),
    to fsync, fallocate and discard, and what a discarded block reads as.  The
    contents of the store are a field of the backend.  Registered file indices
    and the choice between the fixed and plain variants of an op do not change
    what it does. *)

From S2P Require Import Prelude Pool PoolData Backend Reader.

Module File.

Inductive Kind := Regular | Block.

Record FileBackend := {
  f_kind : Kind;
  f_shift : Z;
  f_blocks : Z;
  f_direct : bool;
  f_dontcache : bool;
  f_topology : Topology;
  f_disk : Z -> Byte.byte;
}.

Definition set_dontcache (v : bool) (b : FileBackend) : FileBackend :=
  {| f_kind := f_kind b; f_shift := f_shift b; f_blocks := f_blocks b; f_direct := f_direct b;
     f_dontcache := v; f_topology := f_topology b; f_disk := f_disk b |}.
Definition set_disk (d : Z -> Byte.byte) (b : FileBackend) : FileBackend :=
  {| f_kind := f_kind b; f_shift := f_shift b; f_blocks := f_blocks b; f_direct := f_direct b;
     f_dontcache := f_dontcache b; f_topology := f_topology b; f_disk := d |}.

Definition EIO : Z := 5.
Definition EBUSY : Z := 16.
Definition EINVAL : Z := 22.
Definition ENOSPC : Z := 28.
Definition EOPNOTSUPP : Z := 95.
Definition RWF_DONTCACHE : Z := 0x80.

(** ** Pure helpers *)

(** [u32::next_power_of_two] overflows above [2^31]. *)
Definition block_shift_for {E} (k : Kind) (align : Z) : res E Z :=
  let shift := Z.log2_up (Z.max align 512) in
  _ ← assert (shift <? 32);
  mret (match k with Block => shift | Regular => Z.min shift 12 end).

Definition unmap_hint_declined (errno : Z) : bool := (errno =? EOPNOTSUPP) || (errno =? EBUSY).
Definition fallocate_mode_unsupported (errno : Z) : bool := errno =? EOPNOTSUPP.

Definition direct_usable (ring_enabled : bool) (dio_mem dio_off block_shift : Z) : bool :=
  if negb ring_enabled then true
  else negb (dio_mem =? 0) && (dio_mem <=? 4) && negb (dio_off =? 0) && (dio_off <=? Z.shiftl 1 block_shift).

Definition map_errno (e : Z) : BackendError :=
  if e =? ENOSPC then NoSpace
  else if (e =? EOPNOTSUPP) || (e =? EINVAL) then Unsupported
  else Io e.

(** The iovecs of the first [total] bytes of the segments. *)
Fixpoint fill_iovecs {E} (iovs : list Seg) (n : nat) (l : list Seg) (remaining : Z) : res E (list Seg * nat) :=
  match l with
  | [] => Ok (iovs, n)
  | seg :: l =>
      if remaining =? 0 then Ok (iovs, n) else
      let k := Z.min remaining (seg_len seg) in
      _ ← assert (bool_decide (n < length iovs)%nat);
      fill_iovecs (<[n := {| ptr := ptr seg; seg_len := k |}]> iovs) (S n) l (remaining - k)
  end.

(** Past [n] transferred bytes; a round per entry is enough. *)
Fixpoint advance_iovecs {E} (fuel : nat) (iovs : list Seg) (idx : nat) (n : Z) : res E (list Seg * nat) :=
  if n <=? 0 then Ok (iovs, idx) else
  match fuel with
  | O => Panic
  | S fuel =>
      v ← expect (iovs !! idx);
      if seg_len v <=? n then advance_iovecs fuel iovs (S idx) (n - seg_len v)
      else Ok (<[idx := {| ptr := ptr v + n; seg_len := seg_len v - n |}]> iovs, idx)
  end.

(** ** The kernel *)

(** The op was not queued, or it completed with a count or an errno. *)
Inductive IoAnswer := NotQueued (errno : Z) | Moved (n : Z) | Failed (errno : Z).

Record IoOp := {
  op_write : bool;
  op_off : Z;
  op_len : Z;
  op_buf_index : option Z;
  op_flags : Z;
}.

Inductive FallocMode := ZERO_RANGE (keep_size : bool) | PUNCH_HOLE.

Record Kernel := {
  (** A vectored transfer, by the round of the call. *)
  k_rw : nat -> IoOp -> IoAnswer;
  k_write_at : nat -> Z -> Z -> IoAnswer;
  k_fsync : IoAnswer;
  k_fallocate : FallocMode -> Z -> Z -> IoAnswer;
  k_discard : Z -> Z -> IoAnswer;
  (** What a discarded range of a block device reads as. *)
  k_trimmed : Z -> Byte.byte -> Byte.byte;
}.

(** [fill] on [len] bytes at [off]. *)
Definition over (off len : Z) (fill : Z -> Byte.byte -> Byte.byte) (d : Z -> Byte.byte) : Z -> Byte.byte :=
  fun x => if decide (off <= x < off + len) then fill x (d x) else d x.

Section Io.
Variable K : Kernel.
Abbreviation MF := (M FileBackend BackendError).
Abbreviation MS := (M (FileBackend * mem) BackendError).

(** [slba << block_shift]. *)
Definition shl_block {E} (shift a : Z) : res E Z :=
  _ ← assert (shift <? 64);
  mret (wrap 64 (Z.shiftl a shift)).

(** [n] bytes moved between the iovecs and the store. *)
Definition transferred (write : bool) (l : list Seg) (off n : Z) (s : FileBackend * mem) : FileBackend * mem :=
  let '(b, m) := s in
  if write then (set_disk (mem_write (f_disk b) off (take (Z.to_nat n) (flat m l))) b, m)
  else (b, scatter m l (mem_read (f_disk b) off n)).

(** The [while] loop of [rwv].  Every round moves at least a byte or ends, but
    for one that drops the DONTCACHE flag: [total + 2] rounds are enough. *)
Fixpoint rwv_loop (fuel round : nat) (write : bool) (base : Z) (iovs : list Seg) (idx : nat) (done total : Z)
    (buf_index : option Z) : MS unit :=
  if total <=? done then mret tt else
  match fuel with
  | O => panic
  | S fuel =>
      off ← lift (checked 64 (base + done));
      s ← get;
      let use_dc := negb (f_direct s.1) && f_dontcache s.1 in
      _ ← lift (assert (bool_decide (idx <= length iovs)%nat));
      let rest := drop idx iovs in
      match k_rw K round {| op_write := write; op_off := off; op_len := iov_total rest; op_buf_index := buf_index;
                            op_flags := if use_dc then RWF_DONTCACHE else 0 |} with
      | NotQueued e => fail (Io e)
      | Moved n =>
          if n =? 0 then fail (Io EIO) else
          _ ← modify (transferred write rest off n);
          '(iovs, idx) ← lift (advance_iovecs (S (length iovs)) iovs idx n);
          rwv_loop fuel (S round) write base iovs idx (done + n) total buf_index
      | Failed e =>
          if use_dc && ((e =? EOPNOTSUPP) || (e =? EINVAL))
          then _ ← modify (fun s => (set_dontcache false s.1, s.2));
               rwv_loop fuel (S round) write base iovs idx done total buf_index
          else fail (map_errno e)
      end
  end.

Definition rwv (write : bool) (a : Z) (iovs : list Seg) (total : Z) (buf_index : option Z) : MS unit :=
  if total =? 0 then mret tt else
  s ← get;
  _ ← lift (assert (f_shift s.1 <? 64));
  _ ← lift (check_range (f_blocks s.1) a (Z.shiftr total (f_shift s.1)));
  base ← lift (shl_block (f_shift s.1) a);
  rwv_loop (Z.to_nat total + 2) 0 write base iovs 0 0 total buf_index.

(** ** [Backend for FileBackend] *)

(** One iovec over a buffer of its own, at address 0. *)
Definition with_buffer (write : bool) (a : Z) (buf : bytes) : MF bytes := fun b =>
  let len := Z.of_nat (length buf) in
  let '((b, m), r) := rwv write a [{| ptr := 0; seg_len := len |}] len None (b, mem_write (fun _ => Byte.x00) 0 buf) in
  (b, match r with Ok _ => Ok (mem_read m 0 len) | Err e => Err e | Panic => Panic end).

Definition read (a : Z) (buf : bytes) : MF bytes := with_buffer false a buf.
Definition write (a : Z) (buf : bytes) : MF unit := _ ← with_buffer true a buf; mret tt.

Definition rw_segs (write : bool) (a : Z) (l : list Seg) (total : Z) (buf_index : option Z) : MS unit :=
  '(iovs, n) ← lift (fill_iovecs null_segs 0 l total);
  rwv write a (take n iovs) total buf_index.
Definition read_segs (a : Z) (l : list Seg) (total : Z) (buf_index : option Z) : MS unit :=
  rw_segs false a l total buf_index.
Definition write_segs (a : Z) (l : list Seg) (total : Z) (buf_index : option Z) : MS unit :=
  rw_segs true a l total buf_index.

Definition flush : MF unit :=
  match k_fsync K with
  | NotQueued e => fail (Io e)
  | Moved _ => mret tt
  | Failed e => fail (map_errno e)
  end.

Fixpoint discard (ranges : list LbaRange) : MF unit :=
  match ranges with
  | [] => mret tt
  | r :: ranges =>
      b ← get;
      match check_range (f_blocks b) (slba r) (nlb r) with
      | Ok _ =>
          off ← lift (shl_block (f_shift b) (slba r));
          len ← lift (shl_block (f_shift b) (nlb r));
          let '(answer, fill) :=
            match f_kind b with
            | Regular => (k_fallocate K PUNCH_HOLE off len, fun _ _ => Byte.x00)
            | Block => (k_discard K off len, k_trimmed K)
            end in
          match answer with
          | NotQueued e => fail (Io e)
          | Moved _ => _ ← modify (fun b => set_disk (over off len fill (f_disk b)) b); discard ranges
          | Failed e => if unmap_hint_declined e then discard ranges else fail (map_errno e)
          end
      | _ => fail OutOfRange
      end
  end.

(** The modes tried in turn; [true] when one did the work. *)
Fixpoint fallocate_chain (modes : list FallocMode) (off len : Z) : MF bool :=
  match modes with
  | [] => mret false
  | mode :: modes =>
      match k_fallocate K mode off len with
      | NotQueued e => fail (Io e)
      | Moved _ =>
          _ ← modify (fun b => set_disk (over off len (fun _ _ => Byte.x00) (f_disk b)) b);
          mret true
      | Failed e => if fallocate_mode_unsupported e then fallocate_chain modes off len else fail (map_errno e)
      end
  end.

Definition ZERO_CHUNK : Z := 64 * 1024.

(** Zero chunks through the fd; a round writes at least a byte. *)
Fixpoint zero_loop (fuel round : nat) (remaining off : Z) : MF unit :=
  if remaining <=? 0 then mret tt else
  match fuel with
  | O => panic
  | S fuel =>
      let want := Z.min remaining ZERO_CHUNK in
      match k_write_at K round off want with
      | NotQueued e => fail (Io e)
      | Moved n =>
          if n =? 0 then fail (Io EIO) else
          _ ← modify (fun b => set_disk (over off n (fun _ _ => Byte.x00) (f_disk b)) b);
          remaining ← lift (checked 64 (remaining - n));
          off ← lift (checked 64 (off + n));
          zero_loop fuel (S round) remaining off
      | Failed e => fail (map_errno e)
      end
  end.

Definition write_zeroes (r : LbaRange) : MF unit :=
  b ← get;
  _ ← lift (check_range (f_blocks b) (slba r) (nlb r));
  len ← lift (shl_block (f_shift b) (nlb r));
  off ← lift (shl_block (f_shift b) (slba r));
  zeroed ← fallocate_chain (match f_kind b with
                            | Block => [ZERO_RANGE true]
                            | Regular => [ZERO_RANGE false; PUNCH_HOLE]
                            end) off len;
  if zeroed : bool then mret tt else zero_loop (Z.to_nat len) 0 len off.

#[global] Instance backend : Backend FileBackend := {|
  block_shift := f_shift;
  nr_blocks := f_blocks;
  topology := f_topology;
  b_read := read;
  b_write := write;
  b_flush := flush;
  b_discard := discard;
  b_write_zeroes := write_zeroes;
  Backend.read_segs := read_segs;
  Backend.write_segs := write_segs;
|}.

End Io.

(** ** Opening *)

Inductive OpenError := OsError (errno : Z) | InvalidInput (msg : string).

(** [fstat]: the kind (if it is one of the two), the size and the block size. *)
Record Stat := { st_kind : option Kind; st_size : Z; st_blksize : Z }.

(** What the system answers while the store is opened. *)
Record Probe := {
  pb_open_direct : res Z unit;
  pb_open_plain : res Z unit;
  pb_fstat : res Z Stat;
  pb_dioalign : Z * Z;
  pb_size64 : res Z Z;
  pb_ssz : res Z Z;
  pb_topology : Topology;
}.

Definition u32_or_0 (z : Z) : Z := default 0 (u32_try_from z).

(** Kind, size in bytes and alignment. *)
Definition probe_geometry (p : Probe) (st : Stat) : res OpenError (Kind * Z * Z) :=
  match st_kind st with
  | Some Block =>
      size ← map_err OsError (pb_size64 p);
      lbs ← map_err OsError (pb_ssz p);
      mret (Block, size, u32_or_0 lbs)
  | Some Regular =>
      let dio_off := (pb_dioalign p).2 in
      let align := if negb (dio_off =? 0) then dio_off else u32_or_0 (Z.max (st_blksize st) 0) in
      mret (Regular, Z.max (st_size st) 0, align)
  | None => Err (InvalidInput "not a file or block device")
  end.

(** [open] on a path; [contents] is what the store holds. *)
Definition open (path : bytes) (ring_enabled : bool) (p : Probe) (contents : Z -> Byte.byte) : res OpenError FileBackend :=
  if bool_decide (Byte.x00 ∈ path) then Err (InvalidInput "NUL in path") else
  direct ← match pb_open_direct p with
           | Ok _ => mret true
           | Err e => if (e =? EINVAL) || (e =? EOPNOTSUPP) then _ ← map_err OsError (pb_open_plain p); mret false
                      else Err (OsError e)
           | Panic => Panic
           end;
  st ← map_err OsError (pb_fstat p);
  '(kind, size, align) ← probe_geometry p st;
  shift ← block_shift_for kind align;
  direct ← (if (direct : bool) && negb (direct_usable ring_enabled (pb_dioalign p).1 (pb_dioalign p).2 shift)
            then _ ← map_err OsError (pb_open_plain p); mret false
            else mret direct);
  let blocks := Z.shiftr size shift in
  if blocks =? 0 then Err (InvalidInput "backing store too small") else
  mret {| f_kind := kind; f_shift := shift; f_blocks := blocks; f_direct := direct; f_dontcache := true;
          f_topology := match kind with Block => pb_topology p | Regular => Topology_default end;
          f_disk := contents |}.

End File.

(** ** [AnyBackend] *)

Inductive AnyBackend :=
| ANull (b : Null.NullBackend)
| AMemory (b : Memory.MemoryBackend)
| AFile (b : File.FileBackend).

Section Any.
Variable K : File.Kernel.

(** A method of the backend inside; it stays of its kind. *)
Definition any_op {A} (n : M Null.NullBackend BackendError A) (m : M Memory.MemoryBackend BackendError A)
    (f : M File.FileBackend BackendError A) : M AnyBackend BackendError A := fun b =>
  match b with
  | ANull b => let '(b, r) := n b in (ANull b, r)
  | AMemory b => let '(b, r) := m b in (AMemory b, r)
  | AFile b => let '(b, r) := f b in (AFile b, r)
  end.
Definition any_seg_op {A} (n : M (Null.NullBackend * mem) BackendError A) (m : M (Memory.MemoryBackend * mem) BackendError A)
    (f : M (File.FileBackend * mem) BackendError A) : M (AnyBackend * mem) BackendError A := fun '(b, mm) =>
  match b with
  | ANull b => let '((b, mm), r) := n (b, mm) in ((ANull b, mm), r)
  | AMemory b => let '((b, mm), r) := m (b, mm) in ((AMemory b, mm), r)
  | AFile b => let '((b, mm), r) := f (b, mm) in ((AFile b, mm), r)
  end.

Definition any_get {A} (n : Null.NullBackend -> A) (m : Memory.MemoryBackend -> A) (f : File.FileBackend -> A) (b : AnyBackend) : A :=
  match b with ANull b => n b | AMemory b => m b | AFile b => f b end.

#[global] Instance any_backend : Backend AnyBackend := {|
  block_shift := any_get block_shift block_shift (@block_shift _ (File.backend K));
  nr_blocks := any_get nr_blocks nr_blocks (@nr_blocks _ (File.backend K));
  topology := any_get topology topology (@topology _ (File.backend K));
  b_read := fun a buf => any_op (b_read a buf) (b_read a buf) (@b_read _ (File.backend K) a buf);
  b_write := fun a buf => any_op (b_write a buf) (b_write a buf) (@b_write _ (File.backend K) a buf);
  b_flush := any_op b_flush b_flush (@b_flush _ (File.backend K));
  b_discard := fun l => any_op (b_discard l) (b_discard l) (@b_discard _ (File.backend K) l);
  b_write_zeroes := fun r => any_op (b_write_zeroes r) (b_write_zeroes r) (@b_write_zeroes _ (File.backend K) r);
  Backend.read_segs := fun a l n i => any_seg_op (Backend.read_segs a l n i) (Backend.read_segs a l n i) (@Backend.read_segs _ (File.backend K) a l n i);
  Backend.write_segs := fun a l n i => any_seg_op (Backend.write_segs a l n i) (Backend.write_segs a l n i) (@Backend.write_segs _ (File.backend K) a l n i);
|}.

End Any.
