(* ===== verification/FileProofs.v ===== *)
(** * The file backend under any kernel

    Whatever the kernel answers (short transfers, errors, a refused DONTCACHE
    flag), a transfer ends, moves exactly the requested bytes when it succeeds,
    and touches nothing outside its range when it does not. *)

From S2P Require Import Prelude Pool PoolProofs PoolSafety PoolData Backend.
From S2P Require Import BackendProofs SegIO Reader ExecLaws GatherProofs ConnProofs.
From S2P Require Import RecvStream RecvSafe File.
Import File.

(** ** Iovecs *)

(** The first [n] bytes of a segment list. *)
Fixpoint clamp (l : list Seg) (n : Z) : list Seg :=
  match l with
  | [] => []
  | g :: l => if n =? 0 then [] else {| ptr := ptr g; seg_len := Z.min n (seg_len g) |} :: clamp l (n - Z.min n (seg_len g))
  end.

Lemma fill_iovecs_eq {E} iovs n l total :
  (n + length l <= length iovs)%nat ->
  exists iovs' k, fill_iovecs (E := E) iovs n l total = Ok (iovs', k) /\ take k iovs' = take n iovs ++ clamp l total.
Proof.
  revert iovs n total. induction l as [|g l IH]; intros iovs n total Hn; cbn in Hn |- *.
  { exists iovs, n. by rewrite app_nil_r. }
  destruct (total =? 0); [exists iovs, n; by rewrite app_nil_r|].
  unfold assert. rewrite bool_decide_true by lia. cbn [mbind res_bind]. set (e := {| ptr := _ |}).
  destruct (IH (<[n := e]> iovs) (S n) (total - Z.min total (seg_len g))) as (iovs' & k & -> & Hk); [rewrite length_insert; lia|].
  exists iovs', k. split; [done|]. rewrite Hk, (take_S_r _ n e) by (apply list_lookup_insert_eq; lia).
  rewrite take_insert_ge by lia. by rewrite <- app_assoc.
Qed.

Lemma clamp_chunks l n : chunks l -> 0 <= n -> chunks (clamp l n).
Proof.
  intros Hl. revert n. induction Hl as [|g l Hg Hl IH]; intros n Hn; cbn; [done|].
  destruct (n =? 0); [done|]. constructor; [cbn; lia|]. apply IH. lia.
Qed.

Lemma clamp_total l n : chunks l -> 0 <= n <= seg_total l -> iov_total (clamp l n) = n.
Proof.
  intros Hl. revert n. induction Hl as [|g l Hg Hl IH]; intros n; cbn; [lia|]. intros Hn.
  destruct (Z.eqb_spec n 0); [cbn; lia|]. cbn.
  destruct (decide (n <= seg_len g)); [|rewrite IH; lia].
  replace (n - Z.min n (seg_len g)) with 0 by lia. destruct l; cbn; lia.
Qed.

Lemma seg_total_chunks l : chunks l -> 0 <= seg_total l.
Proof. induction 1; cbn; lia. Qed.

Lemma clamp_flat m l n : chunks l -> 0 <= n <= seg_total l -> flat m (clamp l n) = take (Z.to_nat n) (flat m l).
Proof.
  intros Hl. revert n. induction Hl as [|g l Hg Hl IH]; intros n; cbn [clamp seg_total]; [intros; cbn; by rewrite take_nil|]. intros Hn.
  destruct (Z.eqb_spec n 0) as [->|]; [done|]. rewrite !flat_cons. cbn [ptr seg_len].
  pose proof (mem_read_length m (ptr g) (seg_len g) Hg) as Hgl. destruct (decide (n <= seg_len g)).
  - rewrite Z.min_l, Z.sub_diag by lia. rewrite take_app_le by lia. rewrite take_mem_read by lia.
    destruct l; cbn; by rewrite app_nil_r.
  - rewrite Z.min_r by lia. rewrite IH by lia. rewrite take_app_ge by lia. do 2 f_equal. lia.
Qed.

Lemma advance_iovecs_eq {E} fuel iovs idx n r :
  advance_direct fuel iovs idx n = Ok r -> advance_iovecs (E := E) fuel iovs idx n = Ok r.
Proof.
  revert idx n. induction fuel as [|fuel IH]; intros idx n; cbn; destruct (n <=? 0); try done; [by intros [= ->]..|].
  destruct (iovs !! idx) as [v|]; [|done]. cbn. destruct (seg_len v <=? n); [apply IH|]. by intros [= ->].
Qed.

Lemma iov_drop_flat m l n : chunks l -> 0 <= n <= iov_total l -> flat m (iov_drop l n) = drop (Z.to_nat n) (flat m l).
Proof.
  intros Hl. revert n. induction Hl as [|g l Hg Hl IH]; intros n; cbn [iov_drop iov_total]; [intros; cbn; by rewrite drop_nil|]. intros Hn.
  rewrite (flat_cons m g). pose proof (mem_read_length m (ptr g) (seg_len g) Hg) as Hgl.
  destruct (Z.leb_spec n 0); [by replace (Z.to_nat n) with 0%nat by lia|].
  destruct (Z.leb_spec (seg_len g) n).
  - rewrite IH by lia. rewrite drop_app_ge by lia. f_equal. lia.
  - rewrite flat_cons. cbn [ptr seg_len]. rewrite drop_app_le by lia. f_equal.
    rewrite (mem_read_split m (ptr g) (seg_len g) n) by lia. rewrite drop_app_length'; [done|].
    pose proof (mem_read_length m (ptr g) n). lia.
Qed.

Lemma flat_iov_length m l : chunks l -> Z.of_nat (length (flat m l)) = iov_total l.
Proof.
  induction 1 as [|g l Hg Hl IH]; cbn [iov_total]; [done|]. rewrite flat_cons, length_app. pose proof (mem_read_length m (ptr g) (seg_len g)). lia.
Qed.

Lemma iov_drop_in l n g x : g ∈ iov_drop l n -> in_seg g x -> exists g', g' ∈ l /\ in_seg g' x.
Proof.
  revert n. induction l as [|h l IH]; intros n; cbn [iov_drop]; [by intros ?%elem_of_nil|].
  destruct (n <=? 0) eqn:Hn; [by exists g|]. apply Z.leb_gt in Hn. destruct (Z.leb_spec (seg_len h) n) as [Hle|Hgt].
  - intros Hg Hx. destruct (IH _ Hg Hx) as (g' & Hg' & ?). exists g'. split; [by constructor|done].
  - intros [->|Hg]%elem_of_cons Hx; [exists h|exists g]; (split; [by constructor|]); [|done]. unfold in_seg in *. cbn in Hx. lia.
Qed.

Lemma scatter_frame m l d x : chunks l -> (forall g, g ∈ l -> ~ in_seg g x) -> scatter m l d x = m x.
Proof.
  intros Hl. revert m d. induction Hl as [|g l Hg Hl IH]; intros m d Hx; cbn [scatter]; [done|].
  rewrite IH by (intros g' Hg'; apply Hx; by constructor). apply mem_write_outside.
  rewrite length_take. pose proof (Hx g ltac:(by constructor)) as Hn. unfold in_seg in Hn. lia.
Qed.

(** ** Transfers *)

Section Rwv.
Variable K : Kernel.

(** A transfer never reports more bytes than it was given. *)
Definition k_sane : Prop :=
  forall round op, 0 <= op_len op -> match k_rw K round op with Moved n => 0 <= n <= op_len op | _ => True end.
Hypothesis Hk : k_sane.

(** It also moves something whenever it can. *)
Definition k_works : Prop := forall round op, 0 < op_len op -> exists n, k_rw K round op = Moved n /\ n <> 0.

(** Only the contents and the DONTCACHE flag may differ; the flag is only
    dropped, and only from a buffered store. *)
Definition same_store (b b' : FileBackend) : Prop :=
  b' = set_disk (f_disk b') (set_dontcache (f_dontcache b') b) /\
  (f_dontcache b' = f_dontcache b \/ f_direct b = false /\ f_dontcache b = true).

Lemma same_store_refl b : same_store b b.
Proof. split; [by destruct b|by left]. Qed.

Lemma same_store_trans b1 b2 b3 : same_store b1 b2 -> same_store b2 b3 -> same_store b1 b3.
Proof.
  intros [H1 H2] [H3 H4]. assert (f_direct b2 = f_direct b1) as Hd by (by rewrite H1).
  split; [rewrite H3, H1; done|]. rewrite Hd in H4. destruct H2 as [H2|H2]; [|by right]. rewrite <- H2. destruct H4; [left; congruence|by right].
Qed.

Lemma same_store_disk b d : same_store b (set_disk d b).
Proof. split; [by destruct b|by left]. Qed.

(** All of [l] moved, at [off]. *)
Definition moved_all (write : bool) (l : list Seg) (off : Z) (s s' : FileBackend * mem) : Prop :=
  same_store s.1 s'.1 /\
  if write then s'.2 = s.2 /\ forall x, f_disk s'.1 x = mem_write (f_disk s.1) off (flat s.2 l) x
  else f_disk s'.1 = f_disk s.1 /\ s'.2 = scatter s.2 l (mem_read (f_disk s.1) off (iov_total l)).

(** Some of it, at most. *)
Definition moved_part (write : bool) (l : list Seg) (off : Z) (s s' : FileBackend * mem) : Prop :=
  same_store s.1 s'.1 /\
  if write then s'.2 = s.2 /\ forall x, ~ (off <= x < off + iov_total l) -> f_disk s'.1 x = f_disk s.1 x
  else f_disk s'.1 = f_disk s.1 /\ forall x, (forall g, g ∈ l -> ~ in_seg g x) -> s'.2 x = s.2 x.

Lemma transferred_step write l off n s s' :
  chunks l -> 0 < n <= iov_total l -> moved_all write (iov_drop l n) (off + n) (transferred write l off n s) s' ->
  moved_all write l off s s'.
Proof.
  intros Hl Hn. destruct s as [b m]. unfold moved_all, transferred. pose proof (flat_iov_length m l Hl) as Hfl. destruct write; cbn [fst snd].
  - intros (Hs & Hm & Hd). split; [by eapply same_store_trans; [apply same_store_disk|exact Hs]|]. split; [done|].
    intros x. rewrite Hd. cbn [set_disk f_disk]. rewrite iov_drop_flat by (done || lia).
    rewrite <- (take_drop (Z.to_nat n) (flat m l)) at 3. rewrite <- mem_write_app. do 2 f_equal. rewrite length_take. lia.
  - intros (Hs & Hd & Hm). split; [done|]. split; [done|]. rewrite Hm, (mem_read_split (f_disk b) off (iov_total l) n) by lia.
    rewrite scatter_app by done. pose proof (mem_read_length (f_disk b) off n) as Hrl.
    rewrite iov_drop_total by (done || lia). by replace (Z.of_nat (length (mem_read (f_disk b) off n))) with n by lia.
Qed.

Lemma transferred_part write l off n s s' :
  chunks l -> 0 < n <= iov_total l -> moved_part write (iov_drop l n) (off + n) (transferred write l off n s) s' ->
  moved_part write l off s s'.
Proof.
  intros Hl Hn. destruct s as [b m]. unfold moved_part, transferred. rewrite iov_drop_total by (done || lia). destruct write; cbn [fst snd].
  - intros (Hs & Hm & Hd). split; [by eapply same_store_trans; [apply same_store_disk|exact Hs]|]. split; [done|].
    intros x Hx. rewrite Hd by lia. cbn [set_disk f_disk]. apply mem_write_outside.
    rewrite length_take. pose proof (flat_iov_length m l Hl). lia.
  - intros (Hs & Hd & Hm). split; [done|]. split; [done|]. intros x Hx. rewrite Hm; [by apply scatter_frame|].
    intros g Hg Hin. destruct (iov_drop_in _ _ _ _ Hg Hin) as (g' & Hg' & Hin'). by apply (Hx g').
Qed.

Lemma rwv_loop_ok fuel round write base iovs idx done_ total bi s :
  chunks (drop idx iovs) -> (idx <= length iovs)%nat -> total = done_ + iov_total (drop idx iovs) ->
  0 <= base -> 0 <= done_ -> base + total < 2 ^ 64 ->
  (Z.to_nat (total - done_) + (if f_dontcache s.1 then 1 else 0) <= fuel)%nat ->
  ends (rwv_loop K fuel round write base iovs idx done_ total bi) s
    (fun s' _ => moved_all write (drop idx iovs) (base + done_) s s')
    (fun s' _ => moved_part write (drop idx iovs) (base + done_) s s' /\ ~ k_works).
Proof.
  revert round iovs idx done_ s. induction fuel as [|fuel IH]; intros round iovs idx dn s Hch Hidx Ht Hb Hd Hlt Hf;
    cbn [rwv_loop]; (destruct (Z.leb_spec total dn) as [Hle|Hgt]; [|try (exfalso; destruct (f_dontcache s.1); lia)]).
  1,2: assert (iov_total (drop idx iovs) = 0) as H0 by (pose proof (iov_total_nonneg _ Hch); lia).
  1,2: apply ends_ret; split; [apply same_store_refl|]; destruct write; (split; [done|]).
  1,3: intros x; pose proof (flat_iov_length s.2 _ Hch) as Hl0; rewrite H0 in Hl0;
    assert (flat s.2 (drop idx iovs) = []) as -> by (apply length_zero_iff_nil; lia); by rewrite mem_write_nil.
  1,2: rewrite H0; by rewrite scatter_nil.
  assert (0 < iov_total (drop idx iovs)) as Hpos by lia.
  eapply ends_step; [unfold lift; by rewrite checked_ok by (unfold in_u; lia)|].
  apply ends_get. eapply ends_step; [unfold lift, assert; by rewrite bool_decide_true|]. set (use_dc := negb _ && _). cbv zeta.
  set (op := {| op_write := write |}). pose proof (Hk round op (Z.lt_le_incl _ _ Hpos)) as Hop.
  assert (moved_part write (drop idx iovs) (base + dn) s s) as Hnone
    by (split; [apply same_store_refl|]; by destruct write).
  assert (forall ans, k_rw K round op = ans -> (forall n, ans = Moved n -> n = 0) -> ~ k_works) as Hfail.
  { intros ans He Hno Hw. destruct (Hw round op Hpos) as (n & Hn & Hn0). apply Hn0, Hno. congruence. }
  destruct (k_rw K round op) as [e|n|e] eqn:Hans; [apply ends_fail; split; [done|eapply Hfail; [reflexivity|by intros]]| |].
  - cbn [op_len op] in Hop. destruct (Z.eqb_spec n 0); [apply ends_fail; split; [done|eapply Hfail; [reflexivity|by intros ? [= <-]]]|].
    eapply ends_step; [reflexivity|]. set (s1 := transferred _ _ _ _ s).
    assert (f_dontcache s1.1 = f_dontcache s.1) as Hdc by (unfold s1, transferred; destruct s, write; done).
    destruct (advance_direct_eq (length iovs) iovs idx n) as (iovs' & idx' & Ha & Hl' & Hi' & Hd'); [done|lia|lia|done|].
    eapply ends_step; [unfold lift; by rewrite (advance_iovecs_eq _ _ _ _ _ Ha)|].
    assert (iov_total (drop idx' iovs') = iov_total (drop idx iovs) - n) as Htot by (rewrite Hd'; apply iov_drop_total; [done|lia]).
    eapply ends_mono; [apply IH; [by rewrite Hd'; apply iov_drop_chunks|by rewrite Hl'|rewrite Htot; lia|done|lia|done|]| |].
    + rewrite Hdc. destruct (f_dontcache s.1); lia.
    + intros s' ?. rewrite Hd', Z.add_assoc. apply transferred_step; [done|lia].
    + intros s' e [Hm Hw]. split; [|done]. revert Hm. rewrite Hd', Z.add_assoc. apply transferred_part; [done|lia].
  - destruct (use_dc && _) eqn:Hdrop; [|apply ends_fail; split; [done|eapply Hfail; [reflexivity|by intros]]].
    apply andb_prop in Hdrop as [[Hdir Hdc]%andb_prop _]. apply negb_true_iff in Hdir.
    eapply ends_step; [reflexivity|]. set (s1 := (set_dontcache false s.1, s.2)). rewrite Hdc in Hf.
    assert (same_store s.1 s1.1) as Hs1 by (split; [done|by right]).
    eapply ends_mono; [apply (IH (S round) iovs idx dn s1); [done|done|done|done|done|done|cbn; lia]| |].
    + intros s' ? (Hs & Hm). split; [by eapply same_store_trans|]. exact Hm.
    + intros s' ? ((Hs & Hm) & Hw). split; [|done]. split; [by eapply same_store_trans|]. exact Hm.
Qed.

(** ** Whole requests *)

(** A scattered buffer filled from its start. *)
Lemma clamp_scatter m l d :
  chunks l -> scatter m (clamp l (Z.of_nat (length d))) d = (write_loop m l 0 d).1.
Proof.
  intros Hl. revert m d. induction Hl as [|g l Hg Hl IH]; intros m d; [done|]. cbn [clamp write_loop].
  destruct (decide (d = [])) as [->|Hd]; [done|]. assert (0 < length d)%nat by (destruct d; cbn; [done|lia]).
  destruct (Z.eqb_spec (Z.of_nat (length d)) 0); [lia|]. cbn [scatter ptr seg_len].
  rewrite Z.sub_0_r, Z.add_0_r. set (k := Z.min (Z.of_nat (length d)) (seg_len g)).
  replace (Z.to_nat (Z.min k (Z.of_nat (length d)))) with (Z.to_nat k) by lia.
  assert (Z.of_nat (length (drop (Z.to_nat k) d)) = Z.of_nat (length d) - k) as Hl' by (rewrite length_drop; lia).
  rewrite <- Hl', IH. destruct (Z.leb_spec (seg_len g) 0) as [Hz|Hz].
  - replace (Z.to_nat k) with 0%nat by lia. rewrite take_0, drop_0, mem_write_none. by replace (0 - seg_len g) with 0 by lia.
  - by replace (Z.to_nat (Z.min (seg_len g) (Z.of_nat (length d)))) with (Z.to_nat k) by lia.
Qed.

Definition file_geo (b : FileBackend) : Prop :=
  0 <= f_shift b < 64 /\ 0 <= f_blocks b /\ f_blocks b * 2 ^ f_shift b < 2 ^ 64.

Definition at_block (b : FileBackend) (a : Z) : Z := a * 2 ^ f_shift b.

Lemma file_range b a n :
  file_geo b -> 0 <= a -> 0 <= n -> a + n <= f_blocks b ->
  shl_block (E := BackendError) (f_shift b) a = Ok (at_block b a) /\
  0 <= at_block b a /\ at_block b a + n * 2 ^ f_shift b < 2 ^ 64 /\ check_range (f_blocks b) a n = Ok tt.
Proof.
  intros (H1 & H2 & H3) Ha Hn Hle. unfold at_block. pose proof (Z.pow_pos_nonneg 2 (f_shift b) ltac:(lia) ltac:(lia)) as Hp.
  assert ((a + n) * 2 ^ f_shift b <= f_blocks b * 2 ^ f_shift b) by nia. assert (0 <= a * 2 ^ f_shift b) by nia.
  assert (0 <= n * 2 ^ f_shift b) by nia. split.
  - unfold shl_block, assert. destruct (Z.ltb_spec (f_shift b) 64); [|lia]. cbn. rewrite Z.shiftl_mul_pow2 by lia.
    by rewrite wrap_small by (unfold in_u; lia).
  - split; [done|]. split; [lia|]. apply check_range_ok; try done. unfold in_u. nia.
Qed.

Lemma rwv_ok write a iovs total bi b m :
  file_geo b -> 0 <= a -> 0 < total -> chunks iovs -> iov_total iovs = total -> (2 ^ f_shift b | total) ->
  a + total / 2 ^ f_shift b <= f_blocks b ->
  ends (rwv K write a iovs total bi) (b, m) (fun s' _ => moved_all write iovs (at_block b a) (b, m) s')
    (fun s' _ => moved_part write iovs (at_block b a) (b, m) s' /\ ~ k_works).
Proof.
  intros Hg Ha Ht Hch Htot Hdiv Hle. pose proof Hg as (Hs & _). unfold rwv.
  pose proof (Z.pow_pos_nonneg 2 (f_shift b) ltac:(lia) ltac:(lia)) as Hp.
  destruct (Z.eqb_spec total 0); [lia|]. apply ends_get. cbn [fst].
  assert (0 <= total / 2 ^ f_shift b) as Hn by (apply Z.div_pos; lia).
  destruct (file_range b a (total / 2 ^ f_shift b) Hg Ha Hn Hle) as (Hsh & H0 & Hlt & Hck). rewrite block_div in Hlt by done.
  eapply ends_step; [unfold lift, assert; by destruct (Z.ltb_spec (f_shift b) 64); [|lia]|].
  eapply ends_step; [unfold lift; by rewrite Z.shiftr_div_pow2, Hck by lia|].
  eapply ends_step; [unfold lift; by rewrite Hsh|].
  eapply ends_mono; [apply (rwv_loop_ok (Z.to_nat total + 2) 0 write (at_block b a) iovs 0 0 total bi (b, m)); rewrite ?drop_0; try done; try lia| |].
  - cbn [fst]. destruct (f_dontcache b); lia.
  - intros s' ?. by rewrite drop_0, Z.add_0_r.
  - intros s' ?. by rewrite drop_0, Z.add_0_r.
Qed.

(** What a request over segments does to the store and the memory, in range. *)
Definition io_done (write : bool) (l : list Seg) (a len : Z) (b : FileBackend) (m : mem) (b' : FileBackend) (m' : mem) : Prop :=
  if write then m' = m /\ forall x, f_disk b' x = mem_write (f_disk b) (at_block b a) (take (Z.to_nat len) (flat m l)) x
  else f_disk b' = f_disk b /\ flat m' l = mem_read (f_disk b) (at_block b a) len ++ drop (Z.to_nat len) (flat m l) /\
    forall x, (forall g, g ∈ l -> ~ in_seg g x) -> m' x = m x.

Definition io_failed (write : bool) (l : list Seg) (a len : Z) (b : FileBackend) (m : mem) (b' : FileBackend) (m' : mem) : Prop :=
  if write then m' = m /\ forall x, ~ (at_block b a <= x < at_block b a + len) -> f_disk b' x = f_disk b x
  else f_disk b' = f_disk b /\ forall x, (forall g, g ∈ l -> ~ in_seg g x) -> m' x = m x.

Lemma clamp_in l n g x : 0 <= n -> g ∈ clamp l n -> in_seg g x -> exists g', g' ∈ l /\ in_seg g' x.
Proof.
  revert n. induction l as [|h l IH]; intros n Hn; cbn [clamp]; [by intros ?%elem_of_nil|].
  destruct (n =? 0); [by intros ?%elem_of_nil|]. intros [->|Hg]%elem_of_cons Hx.
  - exists h. split; [by constructor|]. unfold in_seg in *. cbn in Hx. lia.
  - destruct (IH (n - Z.min n (seg_len h)) ltac:(lia) Hg Hx) as (g' & Hg' & ?). exists g'. split; [by constructor|done].
Qed.

Lemma rw_segs_ok write a l len bi b m :
  file_geo b -> segs_ok l -> (length l <= MAX_SEGS)%nat -> 0 <= a -> 0 <= len <= seg_total l -> (2 ^ f_shift b | len) ->
  a + len / 2 ^ f_shift b <= f_blocks b ->
  ends (rw_segs K write a l len bi) (b, m)
    (fun '(b', m') _ => same_store b b' /\ io_done write l a len b m b' m')
    (fun '(b', m') _ => (same_store b b' /\ io_failed write l a len b m b' m') /\ ~ k_works).
Proof.
  intros Hg Hsg Hmax Ha Hlen Hdiv Hle. pose proof (segs_ok_nonneg _ Hsg) as Hch. unfold rw_segs.
  destruct (fill_iovecs_eq (E := BackendError) null_segs 0 l len) as (iovs & k & Hf & Hk'); [by unfold null_segs; rewrite length_replicate|].
  eapply ends_step; [unfold lift; by rewrite Hf|]. rewrite take_0 in Hk'. cbn [app] in Hk'. cbv beta iota. rewrite Hk'.
  destruct (decide (len = 0)) as [->|Hnz].
  { apply ends_ret. split; [apply same_store_refl|]. destruct write; cbn; [split; [done|]; intros; by rewrite mem_write_nil|done]. }
  eapply ends_mono; [apply rwv_ok; try done; [lia|by apply clamp_chunks; [|lia]|by apply clamp_total]| |];
    [intros [b' m'] ? (Hs & H)|intros [b' m'] ? ((Hs & H) & Hw); split; [|done]]; (split; [exact Hs|]); cbn [fst snd] in H.
  - destruct write; cbn; [by rewrite <- clamp_flat|]. destruct H as [Hd ->]. split; [done|].
    rewrite clamp_total by done. set (d := mem_read _ _ _).
    assert (Z.of_nat (length d) = len) as Hdl by (apply mem_read_length; lia).
    assert (scatter m (clamp l len) d = (write_loop m l 0 d).1) as -> by (rewrite <- Hdl; by apply clamp_scatter).
    destruct (write_loop_spec m l 0 d Hsg) as (m2 & -> & Hf2 & Hfr); [lia|lia|]. cbn [fst]. split; [|done].
    rewrite Hf2. change (Z.to_nat 0) with 0%nat. rewrite take_0, Nat.add_0_l. cbn [app]. do 2 f_equal. lia.
  - destruct write; cbn; rewrite ?clamp_total in H by done; [done|]. destruct H as [Hd Hm]. split; [done|].
    intros x Hx. apply Hm. intros g Hg' Hin. destruct (clamp_in l len g x) as (g' & ? & ?); [lia|done|done|]. by apply (Hx g').
Qed.
End Rwv.

(** C33. A file transfer is exact whatever the kernel answers.  For any sequence of
    short transfers, refused DONTCACHE flags and errors, a request over any
    scattered buffer ends; when it succeeds, exactly the requested bytes moved
    between the buffer and their place in the store, and nothing else changed;
    when it fails, nothing outside its range (of the store, for a write; of the
    buffer, for a read) changed; and a request past the end of the device is
    refused with no effect. *)
Theorem file_rw_exact K write a l len bi b m :
  k_sane K -> file_geo b -> segs_ok l -> (length l <= MAX_SEGS)%nat -> 0 <= a -> 0 < len <= seg_total l ->
  (2 ^ f_shift b | len) ->
  match rw_segs K write a l len bi (b, m) with
  | ((b', m'), Ok _) => a + len / 2 ^ f_shift b <= f_blocks b /\ same_store b b' /\ io_done write l a len b m b' m'
  | ((b', m'), Err e) =>
      same_store b b' /\ io_failed write l a len b m b' m' /\
      (f_blocks b < a + len / 2 ^ f_shift b -> e = OutOfRange /\ b' = b /\ m' = m)
  | (_, Panic) => False
  end.
Proof.
  intros Hk Hg Hsg Hmax Ha Hlen Hdiv. pose proof Hg as (Hs & _).
  destruct (decide (a + len / 2 ^ f_shift b <= f_blocks b)) as [Hle|Hgt].
  - pose proof (rw_segs_ok K Hk write a l len bi b m Hg Hsg Hmax Ha ltac:(lia) Hdiv Hle) as H. unfold ends in H.
    destruct (rw_segs K write a l len bi (b, m)) as [[b' m'] [u|e|]]; [done| |done]. destruct H as ((H1 & H2) & _).
    split; [done|]. split; [done|]. intros. lia.
  - unfold rw_segs. destruct (fill_iovecs_eq (E := BackendError) null_segs 0 l len) as (iovs & k & Hf & _);
      [by unfold null_segs; rewrite length_replicate|].
    rewrite (bind_ok _ _ (b, m) (b, m) (iovs, k)) by (unfold lift; by rewrite Hf).
    unfold rwv. destruct (Z.eqb_spec len 0); [lia|]. rewrite get_bind. cbn [fst].
    rewrite (bind_ok _ _ (b, m) (b, m) tt) by (unfold lift, assert; by destruct (Z.ltb_spec (f_shift b) 64); [|lia]).
    unfold mbind, M_bind, lift. rewrite Z.shiftr_div_pow2, check_range_bad by lia. cbv beta iota.
    split; [apply same_store_refl|]. split; [by destruct write|done].
Qed.
