(* ===== verification/FileLaws.v ===== *)
(** * The file backend keeps the laws of a store

    Write-zeroes by any of its three ways, discards, the geometry found at open,
    and the instances: the file backend and the enum of backends keep what the
    command layer asks of a store ([Store]), under any kernel that reports no more
    bytes than it was given, so its theorems hold for every namespace the binary
    can configure; and files keep what it asks of a store that holds data
    ([Disk]).  Null devices forget what is written: they are [Store]s only. *)

From S2P Require Import Prelude Pool PoolProofs PoolSafety PoolData Backend.
From S2P Require Import BackendProofs SegIO Reader ExecLaws GatherProofs ConnProofs.
From S2P Require Import RecvStream RecvSafe File FileProofs Dispatch.
From S2P Require Import Spec Io IoProofs AdminProofs ExecSafety ExecWitness.
From S2P Require Import SubsystemProofs.

Import File.

Abbreviation zero_fill := (fun (_ : Z) (_ : Byte.byte) => Byte.x00).

(** ** Write-zeroes and discard *)

Section Zeroes.
Variable K : Kernel.

Definition k_sane_zero : Prop :=
  forall round off want, 0 <= want -> match k_write_at K round off want with Moved n => 0 <= n <= want | _ => True end.
Hypothesis Hk : k_sane_zero.

(** Zeroing is supported by the store, or done by writes that make progress. *)
Definition k_zeroes : Prop :=
  (forall round off want, 0 < want -> exists n, k_write_at K round off want = Moved n /\ n <> 0) /\
  (forall mode off len, (exists n, k_fallocate K mode off len = Moved n) \/ k_fallocate K mode off len = Failed EOPNOTSUPP).

(** Zeroed on [len] bytes at [off], or on part of them. *)
Definition zeroed (off len : Z) (b b' : FileBackend) : Prop :=
  same_store b b' /\ forall x, f_disk b' x = over off len zero_fill (f_disk b) x.
Definition zeroed_part (off len : Z) (b b' : FileBackend) : Prop :=
  same_store b b' /\ forall x, ~ (off <= x < off + len) -> f_disk b' x = f_disk b x.

Lemma zero_loop_ok fuel round remaining off b :
  0 <= remaining -> 0 <= off -> off + remaining < 2 ^ 64 -> (Z.to_nat remaining <= fuel)%nat ->
  ends (zero_loop K fuel round remaining off) b (fun b' _ => zeroed off remaining b b')
    (fun b' _ => zeroed_part off remaining b b' /\ ~ k_zeroes).
Proof.
  revert round remaining off b. induction fuel as [|fuel IH]; intros round rem off b Hr Ho Hlt Hf;
    cbn [zero_loop]; (destruct (Z.leb_spec rem 0); [|try lia]).
  1,2: apply ends_ret; split; [apply same_store_refl|]; intros x; unfold over; by rewrite decide_False by lia.
  set (want := Z.min rem ZERO_CHUNK). assert (0 < want <= rem) as Hw by (unfold want, ZERO_CHUNK; lia).
  assert (zeroed_part off rem b b) as Hnone by (by split; [apply same_store_refl|]).
  pose proof (Hk round off want ltac:(lia)) as Hsane.
  assert (forall ans, k_write_at K round off want = ans -> (forall n, ans = Moved n -> n = 0) -> ~ k_zeroes) as Hfail.
  { intros ans He Hno [Hz _]. destruct (Hz round off want ltac:(lia)) as (n & Hn & Hn0). apply Hn0, Hno. congruence. }
  destruct (k_write_at K round off want) as [e|n|e]; [apply ends_fail; split; [done|eapply Hfail; [reflexivity|by intros]]| |
    apply ends_fail; split; [done|eapply Hfail; [reflexivity|by intros]]].
  destruct (Z.eqb_spec n 0); [apply ends_fail; split; [done|eapply Hfail; [reflexivity|by intros ? [= <-]]]|].
  eapply ends_step; [reflexivity|]. eapply ends_step; [unfold lift; by rewrite checked_ok by (unfold in_u; lia)|].
  eapply ends_step; [unfold lift; by rewrite checked_ok by (unfold in_u; lia)|].
  set (b1 := set_disk _ b). assert (same_store b b1) as Hs1 by apply same_store_disk.
  eapply ends_mono; [apply (IH (S round) (rem - n) (off + n) b1); lia| |].
  - intros b' ? [Hs Hd]. split; [by eapply same_store_trans|]. intros x. rewrite Hd. unfold b1, over. cbn [set_disk f_disk].
    repeat case_decide; done || lia.
  - intros b' ? [[Hs Hd] Hw']. split; [|done]. split; [by eapply same_store_trans|]. intros x Hx. rewrite Hd by lia.
    unfold b1, over. cbn [set_disk f_disk]. by rewrite decide_False by lia.
Qed.

Lemma fallocate_chain_ok modes off len b :
  ends (fallocate_chain K modes off len) b (fun b' z => if z then zeroed off len b b' else b' = b)
    (fun b' _ => b' = b /\ ~ k_zeroes).
Proof.
  induction modes as [|mode modes IH]; cbn [fallocate_chain]; [by apply ends_ret|].
  destruct (k_fallocate K mode off len) as [e|n|e] eqn:Hans.
  - apply ends_fail. split; [done|]. intros [_ Hz]. destruct (Hz mode off len) as [[? ?]|?]; congruence.
  - eapply ends_step; [reflexivity|]. apply ends_ret. split; [apply same_store_disk|done].
  - unfold fallocate_mode_unsupported. destruct (Z.eqb_spec e EOPNOTSUPP) as [->|Hne]; [exact IH|].
    apply ends_fail. split; [done|]. intros [_ Hz]. destruct (Hz mode off len) as [[? ?]|?]; congruence.
Qed.

Lemma write_zeroes_ok' r b :
  file_geo b -> 0 <= slba r -> 0 <= nlb r -> slba r + nlb r <= f_blocks b ->
  ends (write_zeroes K r) b (fun b' _ => zeroed (at_block b (slba r)) (at_block b (nlb r)) b b')
    (fun b' _ => zeroed_part (at_block b (slba r)) (at_block b (nlb r)) b b' /\ ~ k_zeroes).
Proof.
  intros Hg Ha Hn Hle. unfold write_zeroes. apply ends_get.
  destruct (file_range b (slba r) (nlb r) Hg Ha Hn Hle) as (Hsh & H0 & Hlt & Hck).
  destruct (file_range b (nlb r) 0 Hg Hn ltac:(lia) ltac:(lia)) as (Hshn & Hn0 & _ & _).
  eapply ends_step; [unfold lift; by rewrite Hck|]. eapply ends_step; [unfold lift; by rewrite Hshn|].
  eapply ends_step; [unfold lift; by rewrite Hsh|]. apply ends_bind. eapply ends_mono; [apply fallocate_chain_ok| |].
  - intros b1 [|] Hz; [by apply ends_ret|]. subst b1. by apply zero_loop_ok.
  - intros b1 ? [-> Hz]. split; [|done]. by split; [apply same_store_refl|].
Qed.

(** Whatever the kernel answers, a discard stays in its ranges. *)
Lemma discard_ok ranges b :
  file_geo b -> Forall (fun r => 0 <= slba r /\ 0 <= nlb r) ranges ->
  let post := fun b' => same_store b b' /\ forall x,
    (forall r, r ∈ ranges -> ~ (at_block b (slba r) <= x < at_block b (slba r) + at_block b (nlb r))) -> f_disk b' x = f_disk b x in
  ends (discard K ranges) b (fun b' _ => post b') (fun b' _ => post b').
Proof.
  intros Hg Hr. revert b Hg. induction Hr as [|r ranges [Ha Hn] Hr IH]; intros b Hg post; cbn [discard].
  { apply ends_ret. by split; [apply same_store_refl|]. }
  assert (post b) as Hnone by (by split; [apply same_store_refl|]).
  assert (forall b1, file_geo b1 -> same_store b b1 -> (forall x, ~ (at_block b (slba r) <= x < at_block b (slba r) + at_block b (nlb r)) -> f_disk b1 x = f_disk b x) ->
    ends (discard K ranges) b1 (fun b' _ => post b') (fun b' _ => post b')) as Hnext.
  { intros b1 Hg1 Hs1 Hd1. assert (f_shift b1 = f_shift b) as Hsf by (by destruct Hs1 as [-> _]).
    assert (forall b', same_store b1 b' /\ (forall x, (forall r, r ∈ ranges -> ~ (at_block b1 (slba r) <= x < at_block b1 (slba r) + at_block b1 (nlb r))) ->
      f_disk b' x = f_disk b1 x) -> post b') as Hpost.
    { intros b' [Hs Hd]. split; [by eapply same_store_trans|]. intros x Hx. rewrite Hd; [apply Hd1, Hx; by constructor|].
      intros r' Hr'. unfold at_block. rewrite Hsf. apply Hx. by constructor. }
    eapply ends_mono; [apply (IH b1 Hg1)| |]; intros b' ?; apply Hpost. }
  apply ends_get. destruct (decide (slba r + nlb r <= f_blocks b)) as [Hle|Hgt].
  2:{ rewrite check_range_bad by lia. by apply ends_fail. }
  destruct (file_range b (slba r) (nlb r) Hg Ha Hn Hle) as (Hsh & H0 & Hlt & ->).
  destruct (file_range b (nlb r) 0 Hg Hn ltac:(lia) ltac:(lia)) as (Hshn & _).
  eapply ends_step; [unfold lift; by rewrite Hsh|]. eapply ends_step; [unfold lift; by rewrite Hshn|].
  destruct (match f_kind b with Regular => _ | Block => _ end) as [ans fill]. destruct ans as [e|n|e]; [by apply ends_fail| |].
  - eapply ends_step; [reflexivity|]. apply Hnext; [done|apply same_store_disk|].
    intros x Hx. cbn [set_disk f_disk]. unfold over. by rewrite decide_False.
  - destruct (unmap_hint_declined e); [|by apply ends_fail]. apply Hnext; [done|apply same_store_refl|done].
Qed.
End Zeroes.

(** Write-zeroes zeroes its range and nothing else.  Whichever way it takes
    (an fallocate mode the store supports, or chunks of zeroes written in pieces
    of any size), a Write Zeroes that succeeds leaves exactly its blocks zero; one
    that fails has changed nothing outside them; it always ends; and a range past
    the end of the device is refused with no effect. *)
Theorem file_zeroes_exact K r b :
  k_sane_zero K -> file_geo b -> 0 <= slba r -> 0 <= nlb r ->
  match write_zeroes K r b with
  | (b', Ok _) => slba r + nlb r <= f_blocks b /\ zeroed (at_block b (slba r)) (at_block b (nlb r)) b b'
  | (b', Err e) => zeroed_part (at_block b (slba r)) (at_block b (nlb r)) b b' /\
      (f_blocks b < slba r + nlb r -> e = OutOfRange /\ b' = b)
  | (_, Panic) => False
  end.
Proof.
  intros Hk Hg Ha Hn. destruct (decide (slba r + nlb r <= f_blocks b)) as [Hle|Hgt].
  - pose proof (write_zeroes_ok' K Hk r b Hg Ha Hn Hle) as H. unfold ends in H.
    destruct (write_zeroes K r b) as [b' [u|e|]]; [done| |done]. destruct H as [H _]. split; [done|]. lia.
  - unfold write_zeroes. rewrite get_bind. unfold mbind, M_bind, lift. rewrite check_range_bad by lia. cbv beta iota.
    split; [|done]. by split; [apply same_store_refl|].
Qed.

(** ** The laws *)

Section Laws.
Variable K : Kernel.

(** No transfer reports more bytes than it was given; nothing else is asked of
    the kernel: it may fail, move less, or refuse the DONTCACHE flag. *)
Definition k_fair : Prop := k_sane K /\ k_sane_zero K.
Hypothesis Hk : k_fair.

(** What [open] leaves, and every operation keeps: direct or buffered. *)
Definition file_ok (b : FileBackend) : Prop := file_geo b /\ f_shift b < 32.

Lemma file_ok_same b b' : file_ok b -> same_store b b' -> file_ok b' /\ f_shift b' = f_shift b /\ f_blocks b' = f_blocks b.
Proof. intros [Hg Hs] [-> _]. by split. Qed.

(** A discard never panics, whatever it is asked. *)
Lemma discard_total ranges b :
  f_shift b < 64 -> ends (discard K ranges) b (fun b' _ => same_store b b') (fun b' _ => same_store b b').
Proof.
  revert b. induction ranges as [|r ranges IH]; intros b Hs; cbn [discard]; [apply ends_ret, same_store_refl|].
  assert (forall b1, same_store b b1 -> ends (discard K ranges) b1 (fun b' _ => same_store b b') (fun b' _ => same_store b b')) as Hnext.
  { intros b1 Hs1. assert (f_shift b1 = f_shift b) as Hsf by (by destruct Hs1 as [-> _]).
    eapply ends_mono; [apply (IH b1); lia| |]; intros b' ?; by apply same_store_trans. }
  assert (forall a, exists z, shl_block (E := BackendError) (f_shift b) a = Ok z) as Hsh.
  { intros a. unfold shl_block, assert. destruct (Z.ltb_spec (f_shift b) 64); [by eexists|lia]. }
  apply ends_get. destruct (check_range _ _ _); [|apply ends_fail, same_store_refl|apply ends_fail, same_store_refl].
  destruct (Hsh (slba r)) as [off Ho], (Hsh (nlb r)) as [len Hl].
  eapply ends_step; [unfold lift; by rewrite Ho|]. eapply ends_step; [unfold lift; by rewrite Hl|].
  destruct (match f_kind b with Regular => _ | Block => _ end) as [[e|n|e] fill]; [apply ends_fail, same_store_refl| |].
  - eapply ends_step; [reflexivity|]. apply Hnext, same_store_disk.
  - destruct (unmap_hint_declined e); [apply Hnext, same_store_refl|apply ends_fail, same_store_refl].
Qed.

(** A request over segments. *)
Lemma rw_segs_cases write a l len bi b m :
  file_ok b -> valid_io (H := File.backend K) b l a len ->
  exists b' m' r, rw_segs K write a l len bi (b, m) = ((b', m'), r) /\ r <> Panic /\ same_store b b' /\
    (r = Ok tt -> io_done write l a len b m b' m') /\ (forall e, r = Err e -> io_failed write l a len b m b' m').
Proof.
  intros [Hg _] [Hsg Hmax _ [Ha _] Hlen Hd Hle]. destruct Hk as (Hsane & _).
  pose proof (rw_segs_ok K Hsane write a l len bi b m Hg Hsg Hmax Ha Hlen Hd Hle) as H. unfold ends in H.
  destruct (rw_segs K write a l len bi (b, m)) as [[b' m'] [[]|e|]]; [| |done].
  - destruct H as [H1 H2]. by exists b', m', (Ok tt).
  - destruct H as [[H1 H2] _]. by exists b', m', (Err e).
Qed.

Lemma file_same_geometry b b' :
  file_ok b -> same_store b b' -> file_ok b' /\ same_geometry (H := File.backend K) b b'.
Proof. intros Hok Hs. by destruct (file_ok_same b b' Hok Hs). Qed.

Lemma write_zeroes_cases r b :
  file_ok b -> range_typed r ->
  exists b' x, write_zeroes K r b = (b', x) /\ x <> Panic /\ same_store b b' /\
    (forall y, ~ in_blocks (H := File.backend K) b (slba r) (nlb r * 2 ^ f_shift b) y -> f_disk b' y = f_disk b y) /\
    (x = Ok tt -> forall y, in_blocks (H := File.backend K) b (slba r) (nlb r * 2 ^ f_shift b) y -> f_disk b' y = Byte.x00).
Proof.
  intros [Hg _] [[Ha _] [Hn _]]. destruct (decide (slba r + nlb r <= f_blocks b)) as [Hle|Hgt].
  - destruct Hk as (_ & Hz). pose proof (write_zeroes_ok' K Hz r b Hg Ha Hn Hle) as H. unfold ends in H.
    unfold in_blocks. cbn [block_shift File.backend]. unfold at_block in H.
    destruct (write_zeroes K r b) as [b' [[]|e|]]; [| |done].
    + destruct H as [Hs Hd]. exists b', (Ok tt). split_and!; try done; intros; rewrite Hd; unfold over; by case_decide.
    + destruct H as [[Hs Hd] _]. by exists b', (Err e).
  - exists b, (Err OutOfRange). split_and!; try done; [|apply same_store_refl].
    unfold write_zeroes. rewrite get_bind. unfold mbind, M_bind, lift. by rewrite check_range_bad by lia.
Qed.

Definition file_store : Store FileBackend (H := File.backend K).
Proof.
  refine (Build_Store FileBackend (File.backend K) file_ok _ _ _ _ _ _); cbn.
  - intros b [(? & ? & ?) ?]. lia.
  - intros b mm l a len idx Hok Hv. destruct (rw_segs_cases false a l len idx b mm Hok Hv) as (b' & m' & r & He & Hr & Hs & Hd & Hf).
    destruct (file_same_geometry b b' Hok Hs). exists b', m', r. split_and!; try done.
    destruct r as [[]|e|]; [apply (Hd eq_refl)|apply (Hf e eq_refl)|done].
  - intros b mm l a len idx Hok Hv. destruct (rw_segs_cases true a l len idx b mm Hok Hv) as (b' & m' & r & He & Hr & Hs & Hd & Hf).
    destruct (file_same_geometry b b' Hok Hs). exists b', r. split_and!; try done.
    assert (m' = mm) as -> by (destruct r as [[]|e|]; [apply (Hd eq_refl)|apply (Hf e eq_refl)|done]). done.
  - intros b Hok. exists b. unfold File.flush. destruct (k_fsync K) as [e|n|e]; eexists; (split; [reflexivity|done]).
  - intros b l Hok. pose proof Hok as [(Hs & _) _]. pose proof (discard_total l b ltac:(lia)) as H. unfold ends in H.
    destruct (discard K l b) as [b' r]. assert (same_store b b') as Hsame by (by destruct r).
    destruct (file_same_geometry b b' Hok Hsame). exists b', r. split_and!; try done. by destruct r.
  - intros b r Hok Hr. destruct (write_zeroes_cases r b Hok Hr) as (b' & x & He & Hx & Hs & _).
    destruct (file_same_geometry b b' Hok Hs). by exists b', x.
Defined.

Definition file_disk : Disk FileBackend (H := File.backend K) (ST := file_store).
Proof.
  refine (Build_Disk FileBackend (File.backend K) file_store f_disk (fun _ => True) _ _ _ _); cbn.
  - intros b mm l a len idx b' mm' r Hok _ Hv He.
    destruct (rw_segs_cases false a l len idx b mm Hok Hv) as (b2 & m2 & r2 & He2 & Hr & Hs & Hd & Hf).
    unfold File.read_segs in He. rewrite He2 in He. injection He as <- <- <-. split; [done|].
    assert (f_disk b2 = f_disk b) as -> by (destruct r2 as [[]|e|]; [apply (Hd eq_refl)|apply (Hf e eq_refl)|done]).
    split; [done|]. intros Hok2. apply (Hd Hok2).
  - intros b mm l a len idx b' mm' r Hok _ Hv He.
    destruct (rw_segs_cases true a l len idx b mm Hok Hv) as (b2 & m2 & r2 & He2 & Hr & Hs & Hd & Hf).
    unfold File.write_segs in He. rewrite He2 in He. injection He as <- <- <-. split; [done|]. split; [|intros Hok2; apply (Hd Hok2)].
    intros x Hx. destruct r2 as [[]|e|]; [|by apply (Hf e eq_refl)|done]. destruct (Hd eq_refl) as [_ Hw]. rewrite Hw.
    apply mem_write_outside. pose proof (flat_length mm l (vi_segs _ _ _ _ Hv)). pose proof (vi_len _ _ _ _ Hv).
    unfold in_blocks in Hx. cbn in Hx. unfold at_block. rewrite length_take. lia.
  - intros b b' r Hok _. unfold File.flush. by destruct (k_fsync K) as [e|n|e]; intros [= <- <-].
  - intros b r b' x Hok _ Hr He. destruct (write_zeroes_cases r b Hok Hr) as (b2 & x2 & He2 & Hx & Hs & Hd & Hz).
    rewrite He2 in He. by injection He as <- <-.
Defined.
End Laws.

(** ** Opening a store *)

(** The geometry found at open is sound.  A store that opens has blocks of
    512 bytes or more (at most 4 KiB for a file) no smaller than the unit the
    device or the filesystem reports for a block device, at least one block, no
    block beyond its end and less than a block left over, its contents as they
    were; and it uses direct IO only if the kernel granted it and, with a
    receive ring, only if dword-aligned buffers and block offsets satisfy it. *)
Theorem open_geometry path ring p contents b kind size align st :
  File.open path ring p contents = Ok b -> pb_fstat p = Ok st -> probe_geometry p st = Ok (kind, size, align) -> in_u 64 size ->
  0 <= (pb_dioalign p).1 ->
  file_geo b /\ 9 <= f_shift b /\ f_kind b = kind /\ f_disk b = contents /\
  match kind with Regular => f_shift b <= 12 | Block => align <= 2 ^ f_shift b end /\
  0 < f_blocks b /\ f_blocks b * 2 ^ f_shift b <= size < (f_blocks b + 1) * 2 ^ f_shift b /\
  (f_direct b = true -> pb_open_direct p = Ok tt /\
     (ring = true -> 0 < (pb_dioalign p).1 <= 4 /\ (pb_dioalign p).2 <= 2 ^ f_shift b)).
Proof.
  intros Ho Hst Hpg Hsz Hdm. unfold File.open in Ho. destruct (bool_decide _); [done|].
  set (d0 := match pb_open_direct p with Ok _ => _ | Err _ => _ | Panic => _ end) in Ho.
  assert (d0 = Ok true -> pb_open_direct p = Ok tt) as Hd0.
  { unfold d0. destruct (pb_open_direct p) as [[]|e|]; [done| |done]. destruct (_ || _); [|done]. by destruct (pb_open_plain p). }
  destruct d0 as [direct|e|]; [|done|done]. cbn [mbind res_bind] in Ho. rewrite Hst in Ho. cbn [map_err mbind res_bind] in Ho.
  rewrite Hpg in Ho. cbn [mbind res_bind] in Ho. unfold block_shift_for in Ho.
  set (sh := Z.log2_up (Z.max align 512)) in Ho. unfold assert in Ho. destruct (Z.ltb_spec sh 32); [|done]. cbn [mbind res_bind mret res_ret] in Ho.
  set (shift := match kind with Block => sh | Regular => Z.min sh 12 end) in Ho.
  set (usable := direct_usable _ _ _ _) in Ho.
  set (d1 := if direct && negb usable then _ else _) in Ho.
  assert (forall v, d1 = Ok v -> v = true -> direct = true /\ usable = true) as Hd1.
  { intros v. unfold d1. destruct direct, usable; cbn; try (intros [= <-]; done); destruct (pb_open_plain p); cbn; intros [= <-]; done. }
  unfold mbind at 1, res_bind at 1 in Ho. fold d1 in Ho. destruct d1 as [dir|e|] eqn:He1; [|done|done].
  destruct (Z.eqb_spec (Z.shiftr size shift) 0) as [|Hnz]; [done|]. injection Ho as <-. cbn.
  assert (9 <= sh) as H9 by (change 9 with (Z.log2_up 512); apply Z.log2_up_le_mono; lia).
  assert (9 <= shift < 32) as Hs by (unfold shift; destruct kind; lia).
  pose proof (Z.pow_pos_nonneg 2 shift ltac:(lia) ltac:(lia)) as Hp. unfold in_u in Hsz.
  rewrite Z.shiftr_div_pow2 in * by lia. set (q := size / 2 ^ shift) in *.
  assert (0 <= q) by (apply Z.div_pos; lia). pose proof (Z.mul_div_le size (2 ^ shift) Hp) as Hq1. fold q in Hq1.
  pose proof (Z.mul_succ_div_gt size (2 ^ shift) Hp) as Hq2. fold q in Hq2.
  assert (dir = true -> direct = true /\ usable = true) as Hdu by (by apply Hd1).
  split_and!; try done; try lia.
  - split; [cbn; lia|]. cbn. lia.
  - unfold shift. destruct kind; [lia|]. pose proof (Z.log2_up_spec (Z.max align 512) ltac:(lia)) as [_ Hl]. fold sh in Hl. lia.
  - intros Hdir. destruct (Hdu Hdir) as [-> Hu]. split; [by apply Hd0|]. intros ->. unfold usable, direct_usable in Hu. cbn [negb] in Hu.
    apply andb_prop in Hu as [[[H1%negb_true_iff H2%Z.leb_le]%andb_prop _]%andb_prop H3%Z.leb_le].
    apply Z.eqb_neq in H1. rewrite Z.shiftl_1_l in H3. split; [lia|exact H3].
Qed.

(** What the system answers is in its types, and no alignment exceeds 2 GiB. *)
Record probe_typed (p : Probe) : Prop := {
  pt_answers : pb_open_direct p <> Panic /\ pb_open_plain p <> Panic /\ pb_fstat p <> Panic /\
    pb_size64 p <> Panic /\ pb_ssz p <> Panic;
  pt_dio : 0 <= (pb_dioalign p).1 /\ (pb_dioalign p).2 <= 2 ^ 31;
  pt_size : forall z, pb_size64 p = Ok z -> in_u 64 z;
  pt_ssz : forall z, pb_ssz p = Ok z -> z <= 2 ^ 31;
  pt_stat : forall st, pb_fstat p = Ok st -> st_size st < 2 ^ 64 /\ st_blksize st <= 2 ^ 31;
}.

Lemma u32_or_0_le z m : 0 <= m -> z <= m -> u32_or_0 z <= m.
Proof. intros. unfold u32_or_0, u32_try_from. by repeat case_match. Qed.

Lemma probe_geometry_cases p st :
  probe_typed p -> pb_fstat p = Ok st ->
  (exists e, probe_geometry p st = Err e) \/
  exists kind size align, probe_geometry p st = Ok (kind, size, align) /\ in_u 64 size /\ align <= 2 ^ 31.
Proof.
  intros [(_ & _ & _ & H1 & H2) [_ Hd] Hs Hz Hst] Hf. destruct (Hst st Hf) as [Hsz Hbs].
  unfold probe_geometry. destruct (st_kind st) as [[]|]; [right| |left; by eexists].
  - eexists _, _, _. split; [reflexivity|]. split; [unfold in_u; lia|]. case_match; [done|]. apply u32_or_0_le; lia.
  - destruct (pb_size64 p) as [size|e|]; [|left; by eexists|done]. cbn [map_err mbind res_bind].
    destruct (pb_ssz p) as [ssz|e|]; [|left; by eexists|done]. right. eexists _, _, _. split; [reflexivity|].
    split; [by apply Hs|]. apply u32_or_0_le; [lia|by apply Hz].
Qed.

(** Opening never panics, and leaves a store the command layer can use, direct
    or buffered. *)
Lemma open_ok path ring p contents :
  probe_typed p -> match File.open path ring p contents with Ok b => file_ok b | Err _ => True | Panic => False end.
Proof.
  intros Hp. destruct (File.open path ring p contents) as [b|e|] eqn:Ho; [|done|].
  all: pose proof Hp as [(N1 & N2 & N3 & _) [Hd1 _] _ _ _]; pose proof Ho as Ho2; unfold File.open in Ho;
    destruct (bool_decide _); [done|];
    set (d0 := match pb_open_direct p with Ok _ => _ | Err _ => _ | Panic => _ end) in Ho;
    assert (d0 <> Panic) as Hd0 by (unfold d0; destruct (pb_open_direct p); [done| |done]; case_match; [|done]; by destruct (pb_open_plain p));
    destruct d0 as [direct|e|]; [|done|done]; cbn [mbind res_bind] in Ho;
    destruct (pb_fstat p) as [st|e|] eqn:Hst; [|done|done]; cbn [map_err mbind res_bind] in Ho;
    destruct (probe_geometry_cases p st Hp Hst) as [[e He]|(kind & size & align & He & Hsz & Hal)]; rewrite He in Ho; [done|];
    cbn [mbind res_bind] in Ho; unfold block_shift_for in Ho.
  all: assert (Z.log2_up (Z.max align 512) <= 31) as Hl
    by (change 31 with (Z.log2_up (2 ^ 31)); apply Z.log2_up_le_mono; lia).
  all: unfold assert in Ho; rewrite (proj2 (Z.ltb_lt _ 32)) in Ho by lia; cbn [mbind res_bind mret res_ret] in Ho.
  all: set (shift := match kind with Block => _ | Regular => _ end) in Ho;
    assert (shift < 32) as Hsh by (unfold shift; destruct kind; lia); clearbody shift;
    set (d1 := if direct && _ then _ else _) in Ho;
    assert (d1 <> Panic) as Hn1 by (unfold d1; destruct (_ && _); [|done]; by destruct (pb_open_plain p));
    unfold mbind at 1, res_bind at 1 in Ho; fold d1 in Ho; destruct d1 as [dir|e|]; [|done|done];
    destruct (Z.shiftr size shift =? 0); [done|].
  - destruct (open_geometry path ring p contents b kind size align st Ho2 Hst He Hsz Hd1) as (Hg & _). split; [done|].
    by injection Ho as <-.
  - done.
Qed.

(** ** The enum of backends *)

Section Any.
Variable K : Kernel.
Hypothesis Hk : k_fair K.

Abbreviation FS := (file_store K Hk).
Abbreviation FD := (file_disk K Hk).

Definition any_ok (b : AnyBackend) : Prop := any_get null_ok memory_ok file_ok b.
(** A null device forgets what is written. *)
Definition any_retains (b : AnyBackend) : Prop := any_get (fun _ => False) (fun _ => True) (fun _ => True) b.
Definition any_disk (b : AnyBackend) : Z -> Byte.byte := any_get (fun _ _ => Byte.x00) mdisk f_disk b.

(** A validated transfer of the enum is one of the store inside. *)
Lemma any_valid b l a len :
  valid_io (H := any_backend K) b l a len ->
  match b with
  | ANull b => valid_io b l a len
  | AMemory b => valid_io b l a len
  | AFile b => valid_io (H := File.backend K) b l a len
  end.
Proof. intros [H1 H2 H3 H4 H5 H6 H7]. by destruct b; split. Qed.

Definition any_store : Store AnyBackend (H := any_backend K).
Proof.
  refine (Build_Store AnyBackend (any_backend K) any_ok _ _ _ _ _ _).
  - intros [b|b|b]; [apply (geometry_ok (Store := null_store))|apply (geometry_ok (Store := memory_store))|apply (geometry_ok (Store := FS))].
  - intros b mm l a len idx Hok Hv%any_valid. destruct b as [b|b|b];
      [destruct (read_safe (Store := null_store) b mm l a len idx Hok Hv) as (b' & m' & r & He & Hr & Ho & Hg & Hf)
      |destruct (read_safe (Store := memory_store) b mm l a len idx Hok Hv) as (b' & m' & r & He & Hr & Ho & Hg & Hf)
      |destruct (read_safe (Store := FS) b mm l a len idx Hok Hv) as (b' & m' & r & He & Hr & Ho & Hg & Hf)];
      [exists (ANull b'), m', r|exists (AMemory b'), m', r|exists (AFile b'), m', r]; cbn in He |- *; rewrite He; by split_and!.
  - intros b mm l a len idx Hok Hv%any_valid. destruct b as [b|b|b];
      [destruct (write_safe (Store := null_store) b mm l a len idx Hok Hv) as (b' & r & He & Hr & Ho & Hg)
      |destruct (write_safe (Store := memory_store) b mm l a len idx Hok Hv) as (b' & r & He & Hr & Ho & Hg)
      |destruct (write_safe (Store := FS) b mm l a len idx Hok Hv) as (b' & r & He & Hr & Ho & Hg)];
      [exists (ANull b'), r|exists (AMemory b'), r|exists (AFile b'), r]; cbn in He |- *; rewrite He; by split_and!.
  - intros [b|b|b] Hok; [by exists (ANull b), (Ok tt)|by exists (AMemory b), (Ok tt)|].
    destruct (flush_safe (Store := FS) b Hok) as (b' & r & He & Hr & Ho & Hg). exists (AFile b'), r. cbn in He |- *. rewrite He. by split_and!.
  - intros [b|b|b] l Hok; [by exists (ANull b), (Ok tt)|by exists (AMemory b), (Ok tt)|].
    destruct (discard_safe (Store := FS) b l Hok) as (b' & r & He & Hr & Ho & Hg). exists (AFile b'), r. cbn in He |- *. rewrite He. by split_and!.
  - intros b r Hok Hr. destruct b as [b|b|b];
      [destruct (write_zeroes_safe (Store := null_store) b r Hok Hr) as (b' & x & He & Hx & Ho & Hg)
      |destruct (write_zeroes_safe (Store := memory_store) b r Hok Hr) as (b' & x & He & Hx & Ho & Hg)
      |destruct (write_zeroes_safe (Store := FS) b r Hok Hr) as (b' & x & He & Hx & Ho & Hg)];
      [exists (ANull b'), x|exists (AMemory b'), x|exists (AFile b'), x]; cbn in He |- *; rewrite He; by split_and!.
Defined.

Definition any_disk_laws : Disk AnyBackend (H := any_backend K) (ST := any_store).
Proof.
  refine (Build_Disk AnyBackend (any_backend K) any_store any_disk any_retains _ _ _ _).
  - intros b mm l a len idx b' mm' r Hok Hret Hv%any_valid. destruct b as [b|b|b]; [done| |]; cbn;
      [destruct (default_read_segs _ _ _ _ _ _ _) as [[b2 m2] r2] eqn:He|destruct (File.read_segs K _ _ _ _ _) as [[b2 m2] r2] eqn:He];
      intros [= <- <- <-]; [by apply (read_disk (Disk := memory_disk) b mm l a len idx)|by apply (read_disk (Disk := FD) b mm l a len idx)].
  - intros b mm l a len idx b' mm' r Hok Hret Hv%any_valid. destruct b as [b|b|b]; [done| |]; cbn;
      [destruct (default_write_segs _ _ _ _ _ _ _) as [[b2 m2] r2] eqn:He|destruct (File.write_segs K _ _ _ _ _) as [[b2 m2] r2] eqn:He];
      intros [= <- <- <-]; [by apply (write_disk (Disk := memory_disk) b mm l a len idx b2 m2)|by apply (write_disk (Disk := FD) b mm l a len idx b2 m2)].
  - intros [b|b|b] b' r Hok Hret; [done| |]; cbn; [by intros [= <- <-]|].
    destruct (File.flush K b) as [b2 r2] eqn:He. intros [= <- <-]. by apply (flush_disk (Disk := FD) b b2 r2).
  - intros [b|b|b] r b' x Hok Hret Hr; [done| |]; cbn;
      [destruct (Memory.write_zeroes r b) as [b2 x2] eqn:He|destruct (File.write_zeroes K r b) as [b2 x2] eqn:He];
      intros [= <- <-]; [by apply (write_zeroes_disk (Disk := memory_disk) b r)|by apply (write_zeroes_disk (Disk := FD) b r)].
Defined.
End Any.

Import File.

(** It has no DONTCACHE and no fallocate, and moves at most 500 bytes a round. *)
Definition demo_kernel : Kernel := {|
  k_rw := fun _ op => if op_flags op =? RWF_DONTCACHE then Failed EOPNOTSUPP else Moved (Z.min (op_len op) 500);
  k_write_at := fun _ _ want => Moved (Z.min want 500);
  k_fsync := Moved 0;
  k_fallocate := fun _ _ _ => Failed EOPNOTSUPP;
  k_discard := fun _ _ => Failed EOPNOTSUPP;
  k_trimmed := fun _ x => x;
|}.

(** Sixteen blocks of 512 bytes, buffered. *)
Definition demo_file : FileBackend := {|
  f_kind := Regular; f_shift := 9; f_blocks := 16; f_direct := false; f_dontcache := true;
  f_topology := Topology_default; f_disk := fun _ => Byte.x00 |}.
Definition demo_iov : list Seg := [{| ptr := 0x1000; seg_len := 600 |}; {| ptr := 0x5000; seg_len := 424 |}].
Definition demo_bytes : mem := fun x => if x <? 0x5000 then Byte.x11 else Byte.x22.

Lemma demo_file_geo : file_geo demo_file.
Proof. unfold file_geo. cbn. lia. Qed.

Lemma demo_iov_ok : segs_ok demo_iov.
Proof.
  split; [cbn; lia|]. split; [|by repeat constructor]. apply list.Forall_singleton. intros x. unfold in_seg. cbn. lia.
Qed.


Lemma demo_sane : k_sane demo_kernel.
Proof. intros round op H. cbn. destruct (_ =? _); [done|lia]. Qed.

Lemma demo_zero_sane : k_sane_zero demo_kernel.
Proof. intros round off want H. cbn. lia. Qed.

(** The hypothesis of the store laws can hold. *)
Lemma demo_fair : k_fair demo_kernel.
Proof. split; [apply demo_sane|apply demo_zero_sane]. Qed.

(** Two blocks written at block 3: the flag is refused, then three short writes. *)
Lemma file_rw_exact_witness :
  exists b', rw_segs demo_kernel true 3 demo_iov 1024 None (demo_file, demo_bytes) = ((b', demo_bytes), Ok tt) /\
    f_dontcache b' = false /\
    forall x, f_disk b' x = mem_write (fun _ => Byte.x00) 1536 (replicate 600 Byte.x11 ++ replicate 424 Byte.x22) x.
Proof.
  pose proof (file_rw_exact demo_kernel true 3 demo_iov 1024 None demo_file demo_bytes demo_sane demo_file_geo demo_iov_ok
    ltac:(unfold MAX_SEGS; cbn; lia) ltac:(lia) ltac:(cbn; lia) ltac:(by exists 2)) as H.
  destruct (rw_segs demo_kernel true 3 demo_iov 1024 None (demo_file, demo_bytes)) as [[b' m'] r] eqn:He.
  assert (r = Ok tt) as -> by (apply (f_equal snd) in He; vm_compute in He; by symmetry).
  destruct H as (_ & _ & -> & Hd). exists b'. split; [reflexivity|]. split.
  - apply (f_equal (fun y => f_dontcache y.1.1)) in He. vm_compute in He. symmetry. exact He.
  - exact Hd.
Defined.

(** Four blocks zeroed by writes of at most 500 bytes. *)
Lemma file_zeroes_exact_witness :
  exists b', write_zeroes demo_kernel {| slba := 12; nlb := 4 |} (set_disk (fun _ => Byte.xff) demo_file) = (b', Ok tt) /\
    forall x, f_disk b' x = if decide (6144 <= x < 8192) then Byte.x00 else Byte.xff.
Proof.
  pose proof (file_zeroes_exact demo_kernel {| slba := 12; nlb := 4 |} (set_disk (fun _ => Byte.xff) demo_file) demo_zero_sane
    demo_file_geo ltac:(cbn; lia) ltac:(cbn; lia)) as H.
  destruct (write_zeroes _ _ _) as [b' r] eqn:He.
  assert (r = Ok tt) as -> by (apply (f_equal snd) in He; vm_compute in He; by symmetry).
  destruct H as (_ & _ & Hd). exists b'. split; [reflexivity|]. exact Hd.
Defined.

(** A 4 KiB-sector block device, with a receive ring. *)
Definition demo_probe : Probe := {|
  pb_open_direct := Ok tt; pb_open_plain := Ok tt;
  pb_fstat := Ok {| st_kind := Some Block; st_size := 0; st_blksize := 4096 |};
  pb_dioalign := (4, 4096); pb_size64 := Ok 1000000; pb_ssz := Ok 4096; pb_topology := Topology_default |}.

Lemma open_geometry_witness :
  exists b, File.open [Byte.x2f] true demo_probe (fun _ => Byte.x00) = Ok b /\ f_shift b = 12 /\ f_direct b = true /\
    f_blocks b * 2 ^ f_shift b <= 1000000 < (f_blocks b + 1) * 2 ^ f_shift b.
Proof.
  destruct (File.open [Byte.x2f] true demo_probe (fun _ => Byte.x00)) as [b|e|] eqn:He; [|vm_compute in He; discriminate..].
  pose proof (open_geometry [Byte.x2f] true demo_probe (fun _ => Byte.x00) b Block 1000000 4096 _ He eq_refl eq_refl
    ltac:(unfold in_u; lia) ltac:(cbn; lia)) as (_ & _ & _ & _ & _ & _ & Hsz & _).
  exists b. split; [reflexivity|]. assert (f_shift b = 12 /\ f_direct b = true) as [H1 H2] by (vm_compute in He; injection He as <-; done).
  split; [exact H1|]. split; [exact H2|]. exact Hsz.
Defined.

(** ** Commands on a store that fails *)

(** The first round of a transfer moves at most 200 bytes, the next fails. *)
Definition failing_kernel : Kernel := {|
  k_rw := fun round op => if (round =? 0)%nat then Moved (Z.min (op_len op) 200) else Failed EIO;
  k_write_at := fun _ _ _ => Failed ENOSPC; k_fsync := Failed EIO; k_fallocate := fun _ _ _ => Failed EIO;
  k_discard := fun _ _ => NotQueued EIO; k_trimmed := fun _ x => x |}.

Lemma failing_fair : k_fair failing_kernel.
Proof. split; [intros round op H; cbn; destruct (_ =? _)%nat; [lia|done]|by intros round off want H]. Qed.

#[local] Instance failing_backend : Backend AnyBackend := any_backend failing_kernel.
#[local] Instance failing_store : Store AnyBackend := any_store failing_kernel failing_fair.
#[local] Instance failing_disk : Disk AnyBackend := any_disk_laws failing_kernel failing_fair.

Definition failing_world : World AnyBackend := world_on (AFile demo_file) 1 demo_io.

Lemma failing_world_ok : world_ok failing_world.
Proof. apply world_on_ok; [|done|done]. split; [apply demo_file_geo|cbn; lia]. Qed.

Definition io_error : Outcome :=
  {| out_cqe := Cqe_new 0 1 1 42 (status.dnr status.INTERNAL); out_data_len := 0 |}.

Definition after_failure : World AnyBackend := (execute no_ring 1 0 (rw_sqe io_opcode.WRITE) failing_world).1.

Lemma write_fails :
  execute no_ring 1 0 (rw_sqe io_opcode.WRITE) failing_world = (after_failure, Ok (Done io_error)).
Proof. apply ran. vm_compute. reflexivity. Qed.

(** A write that fails part way is answered. *)
Lemma execute_safe_witness :
  answered failing_world 42 after_failure (Done io_error).
Proof.
  destruct (execute_safe no_ring failing_world 1 0 slot_w) as [H _];
    [apply failing_world_ok|apply slot_w_exec_on|apply slot_w_payload|apply room_on|].
  destruct (H (rw_sqe io_opcode.WRITE) ltac:(by apply rw_sqe_wf)) as (w' & p & He & Ha).
  rewrite write_fails in He. injection He as <- <-. exact Ha.
Defined.

