(* ===== verification/Frame.v ===== *)
(** * What an operation may change

    [moves R m]: whatever [m] returns (an error or a panic included), the state
    it leaves is related to the one it found by [R].  For a preorder [R] that is
    closed under the combinators of the state monad, so a frame is proved by
    walking through the code ([walk]); [keeps f] is the frame "[f] of the state
    stays as it is".  [touched] is the frame of a command: it executes on its own
    slot, whose buffer it may replace by a lease or a private one, and changes
    neither the queue's identity nor the geometry of the backends; no operation of
    a backend changes its block size or count ([StaticGeometry]). *)

From S2P Require Import Prelude Pool PoolProofs PoolSafety PoolData Backend.
From S2P Require Import SlotQ SlotQProofs Registry Subsystem Spec Fabrics.
From S2P Require Import Identify Dispatch FabricsExec Admin Io ExecLaws.
From S2P Require Import SegIO File.

Definition moves {S E A} (R : relation S) (m : M S E A) : Prop := forall s, R s (m s).1.

(** The states on which [f] is the same. *)
Definition same {S T} (f : S -> T) : relation S := fun s s' => f s' = f s.
Abbreviation keeps f m := (moves (same f) m).

#[export] Instance same_preorder {S T} (f : S -> T) : PreOrder (same f).
Proof. split; [done|]. intros x y z H1 H2. unfold same in *. congruence. Qed.

Create HintDb frame.

Section Moves.
Context {S E : Type} (R : relation S) `{!PreOrder R}.

Lemma moves_ret {A} (a : A) : moves (E := E) R (mret a).
Proof. intros s. reflexivity. Qed.

Lemma moves_get : moves (E := E) R get.
Proof. intros s. reflexivity. Qed.

Lemma moves_lift {A} (r : res E A) : moves R (lift r).
Proof. intros s. reflexivity. Qed.

Lemma moves_panic {A} : moves (E := E) (A := A) R panic.
Proof. intros s. reflexivity. Qed.

Lemma moves_fail {A} (e : E) : moves (A := A) R (fail e).
Proof. intros s. reflexivity. Qed.

Lemma moves_modify g : (forall s, R s (g s)) -> moves (E := E) R (modify g).
Proof. intros H s. apply H. Qed.

Lemma moves_bind {A A'} (m : M S E A) (k : A -> M S E A') : moves R m -> (forall a, moves R (k a)) -> moves R (m ≫= k).
Proof.
  intros Hm Hk s. specialize (Hm s). unfold mbind, M_bind. destruct (m s) as [s1 [a|e|]]; [|done|done].
  etrans; [exact Hm|]. apply Hk.
Qed.

End Moves.
#[export] Hint Resolve moves_ret moves_get moves_lift moves_panic moves_fail : frame.


(** Walks through the binds and branches of an operation; calls and state
    changes are left to the hints of [frame]. *)
Ltac walk :=
  repeat (cbv beta iota zeta; first
    [ solve [eauto 3 with frame typeclass_instances]
    | apply moves_bind; [apply _| |intros]
    | apply moves_modify; intros; reflexivity
    | case_match ]).

(** ** Events of the slot array *)

(** The ring buffers an operation gives back. *)
Definition ring_events (evs : list Event) : list Z :=
  omap (fun e => match e with ReleaseRing b => Some b | Wake _ => None end) evs.

(** The ring buffer a slot buffer borrows. *)
Definition ring_of (d : SlotData) : list Z := match owner d with ORing b => [b] | _ => [] end.

Lemma ring_events_app a b : ring_events (a ++ b) = ring_events a ++ ring_events b.
Proof. apply omap_app. Qed.

Lemma ring_events_wakes l : ring_events (map Wake l) = [].
Proof. induction l; done. Qed.

(** A buffer leased from the pool, or a private one. *)
Definition leased (d : SlotData) : Prop :=
  is_pool d = true /\ length (sd_segs d) = MAX_SEGS \/ exists addr len, d = SlotData_owned addr len.

Lemma leased_ring d : leased d -> ring_of d = [].
Proof. unfold leased, is_pool, ring_of. intros [[H _]|(a & n & ->)]; [|done]. by destruct (owner d). Qed.

(** It has at most as many segments as the array holds. *)
Lemma leased_short d : leased d -> (length (segs d) <= MAX_SEGS)%nat.
Proof. intros [[_ H]|(a & n & ->)]; [unfold segs; rewrite length_take, H; apply Nat.le_min_r|vm_compute; lia]. Qed.

Section Array.
Context {C : Type} (t : nat).
Implicit Types a : SlotArray C.

(** From [a] to [a'], slot [t]'s buffer may have been replaced by a leased one;
    what the old one borrowed was given back to the ring. *)
Definition buf_only a a' : Prop :=
  nslots a' = nslots a /\ free_tags a' = free_tags a /\ executing a' = executing a /\
  exists evs, events a' = events a ++ evs /\
    ((slots a' = slots a /\ ring_events evs = []) \/
     exists s d, slots a !! t = Some s /\ slots a' = <[t := SlotQ.with_data d s]> (slots a) /\
       leased d /\ ring_events evs = ring_of (data s)).

#[export] Instance buf_only_preorder : PreOrder buf_only.
Proof.
  split.
  - intros a. do 3 (split; [done|]). exists []. rewrite app_nil_r. split; [done|]. by left.
  - intros a b c (Hn & Hf & Hx & ev & He & H) (Hn' & Hf' & Hx' & ev' & He' & H').
    do 3 (split; [congruence|]). exists (ev ++ ev'). rewrite He', He, app_assoc, ring_events_app. split; [done|].
    destruct H as [(Hs & Hr)|(s & d & Hi & Hs & Hd & Hr)], H' as [(Hs' & Hr')|(s' & d' & Hi' & Hs' & Hd' & Hr')].
    + left. by rewrite Hs', Hs, Hr, Hr'.
    + right. exists s', d'. rewrite Hs in Hi', Hs'. by rewrite Hr, Hr'.
    + right. exists s, d. rewrite Hs'. by rewrite Hr, Hr', app_nil_r.
    + right. exists s, d'. rewrite Hs in Hi', Hs'.
      rewrite list_lookup_insert_eq in Hi' by (by eapply lookup_lt_Some). injection Hi' as <-.
      rewrite list_insert_insert_eq in Hs'. split_and!; try done. rewrite Hr, Hr'. cbn. by rewrite (leased_ring d Hd), app_nil_r.
Qed.

Lemma set_pool_moves p a : buf_only a (set_pool p a).
Proof. do 3 (split; [done|]). exists []. rewrite app_nil_r. split; [done|]. by left. Qed.

Lemma on_pool_moves {A} (m : M BufPool never A) : moves buf_only (on_pool m).
Proof. intros a. unfold on_pool. destruct (m (pool a)) as [p r]. apply set_pool_moves. Qed.

Lemma slot_moves u : moves buf_only (slot (C := C) u).
Proof. unfold slot. walk. Qed.

Lemma set_data_moves d : leased d -> moves buf_only (set_data (C := C) (Z.of_nat t) d).
Proof.
  intros Hd a. unfold set_data, slot, on_pool, set_slot, mbind, M_bind, get, lift, modify, expect.
  rewrite Nat2Z.id. destruct (slots a !! t) as [s|] eqn:Hs; [|reflexivity]. cbv beta iota.
  destruct (SlotData_drop (data s) (pool a)) as [p [[woken ring]|e|]] eqn:Hdr; cbn [fst]; [|apply set_pool_moves..].
  do 3 (split; [done|]). eexists. split; [reflexivity|]. right. exists s, d. split; [done|].
  cbn [slots upd_slots set_pool emit]. rewrite (alter_insert_at _ _ _ _ Hs). split; [done|].
  split; [done|]. rewrite ring_events_app, ring_events_wakes. unfold ring_of. revert Hdr.
  unfold SlotData_drop, mbind, M_bind, mret, M_ret.
  destruct (owner (data s)); intros; try (by simplify_eq).
  destruct (free_segs _ _) as [? [?|?|]]; by simplify_eq.
Qed.

(** An allocation of the pool, installed or not. *)
Lemma alloc_leased n p p' d : alloc n p = (p', Ok (Some d)) -> leased d.
Proof.
  intros H. left. split; [|by eapply alloc_length]. revert H. unfold alloc, make_lease, mbind, M_bind, get, lift, modify, mret, M_ret.
  intros H. repeat case_match; by simplify_eq.
Qed.

Lemma install_moves {A} (m : M BufPool never (option SlotData)) (k : option SlotData -> M (SlotArray C) never A) :
  (forall p p' d, m p = (p', Ok (Some d)) -> leased d) -> (forall d, leased d -> moves buf_only (k (Some d))) ->
  moves buf_only (k None) -> moves buf_only (on_pool m ≫= k).
Proof.
  intros Hm Hs Hn a. unfold mbind, M_bind, on_pool. destruct (m (pool a)) as [p [[d|]|e|]] eqn:He;
    (etrans; [apply (set_pool_moves p)|]); [|apply Hn|reflexivity|reflexivity]. apply Hs. by eapply Hm.
Qed.

Lemma lease_or_owned_moves n addr : moves buf_only (lease_or_owned (C := C) (Z.of_nat t) n addr).
Proof.
  apply install_moves; [apply alloc_leased|intros d Hd; by apply set_data_moves|]. apply set_data_moves. right. by eexists _, _.
Qed.

Lemma lease_await_moves n w : moves buf_only (lease_await_poll (C := C) (Z.of_nat t) n w).
Proof.
  apply install_moves; [|intros d Hd; apply moves_bind; [apply _|by apply set_data_moves|walk]|walk].
  intros p p' d. unfold alloc_await_poll, mbind, M_bind, get, modify, mret, M_ret.
  destruct (alloc n p) as [p1 [[d1|]|e|]] eqn:Ha; intros; simplify_eq. by eapply alloc_leased.
Qed.

End Array.

(** ** The world *)

(** The size of a backend. *)
Definition geo {B} `{Backend B} (b : B) : Z * Z := (block_shift b, nr_blocks b).

(** What a backend promises its users: its size is fixed when it is opened. *)
Class StaticGeometry (B : Type) `{Backend B} := {
  geo_flush : keeps (geo (B := B)) b_flush;
  geo_discard : forall l, keeps (geo (B := B)) (b_discard l);
  geo_zeroes : forall r, keeps (geo (B := B)) (b_write_zeroes r);
  geo_read : forall a l n i, keeps (fun x : B * mem => geo x.1) (read_segs a l n i);
  geo_write : forall a l n i, keeps (fun x : B * mem => geo x.1) (write_segs a l n i);
}.

Definition is_admin (r : Role) : bool := match r with Admin _ => true | IoQueue _ => false end.

Section World.
Context {B : Type} {BK : Backend B} {SG : StaticGeometry B} (t : nat).
Implicit Types w : World B.

Definition touched w w' : Prop :=
  buf_only t (w_slots w) (w_slots w') /\ sqsize (w_core w') = sqsize (w_core w) /\ qc_qid (w_core w') = qc_qid (w_core w) /\
  map geo (w_backends w') = map geo (w_backends w) /\ is_admin (w_role w') = is_admin (w_role w).

#[export] Instance touched_preorder : PreOrder touched.
Proof.
  split; [by split|]. intros x y z (H1 & H2 & H3 & H4 & H5) (K1 & K2 & K3 & K4 & K5).
  split; [by etrans|]. split_and!; congruence.
Qed.

Lemma on_slots_moves {A} (m : M (SlotArray Sqe) never A) : moves (buf_only t) m -> moves touched (on_slots m).
Proof. intros Hm w. specialize (Hm (w_slots w)). unfold on_slots. by destruct (m (w_slots w)). Qed.

Lemma slot_touched u : moves touched (on_slots (slot u)).
Proof. apply on_slots_moves, slot_moves. Qed.
Lemma lease_touched n addr : moves touched (on_slots (lease_or_owned (Z.of_nat t) n addr)).
Proof. apply on_slots_moves, lease_or_owned_moves. Qed.
Lemma await_touched n u : moves touched (on_slots (lease_await_poll (Z.of_nat t) n u)).
Proof. apply on_slots_moves, lease_await_moves. Qed.

Lemma on_core_moves {A} (m : M QueueCore never A) : moves (same (fun q => (sqsize q, qc_qid q))) m -> moves touched (on_core m).
Proof.
  intros Hm w. specialize (Hm (w_core w)). unfold on_core, same in *. destruct (m (w_core w)) as [q r]. cbn in *.
  injection Hm as H1 H2. split; [reflexivity|]. by split_and!.
Qed.

Lemma stat_add_touched c n : moves touched (stat_add c n).
Proof. apply on_core_moves. walk. Qed.
Lemma stats_cntlid_touched c : moves touched (set_stats_cntlid c).
Proof. apply on_core_moves. walk. Qed.
Lemma advance_touched : moves touched (on_core advance_sqhd).
Proof. apply on_core_moves. unfold advance_sqhd. walk. Qed.

Lemma on_registry_touched {E A} (m : M Registry E A) : moves touched (on_registry m).
Proof. intros w. unfold on_registry. destruct (m (w_registry w)). by split. Qed.

Lemma on_backend_touched {A} i (m : M (B * mem) BackendError A) :
  keeps (fun x : B * mem => geo x.1) m -> moves touched (on_backend i m).
Proof.
  intros Hm w. unfold on_backend. destruct (w_backends w !! i) as [b|] eqn:Hi; [|reflexivity].
  specialize (Hm (b, w_mem w)). unfold same in Hm. destruct (m _) as [[b' mm] r]. cbn in Hm.
  split; [done|]. do 2 (split; [done|]). split; [|done]. cbn. change (map geo) with (fmap (M := list) (geo (B := B))).
  rewrite list_fmap_insert, Hm. apply list_insert_id. by rewrite list_lookup_fmap, Hi.
Qed.

Lemma on_disk_touched {A} i (m : M B BackendError A) : keeps geo m -> moves touched (on_disk i m).
Proof.
  intros Hm. apply on_backend_touched. intros [b mm]. specialize (Hm b). unfold on_store, same in *. by destruct (m b).
Qed.

Lemma modify_admin_touched f : moves touched (modify_admin f).
Proof. intros w. unfold modify_admin, modify. cbn. destruct (w_role w) eqn:Hr; [|done]. split; [done|]. cbn. by rewrite Hr. Qed.
Lemma modify_io_touched f : moves touched (modify_io f).
Proof. intros w. unfold modify_io, modify. cbn. destruct (w_role w) eqn:Hr; [done|]. split; [done|]. cbn. by rewrite Hr. Qed.

(** The memory is written. *)
Lemma set_mem_touched w mm : touched w (set_store (w_backends w) mm w).
Proof. by split. Qed.

Hint Resolve geo_flush geo_discard geo_zeroes geo_read geo_write on_disk_touched : frame.
Hint Resolve slot_touched lease_touched await_touched stat_add_touched stats_cntlid_touched advance_touched : frame.
Hint Resolve on_registry_touched on_backend_touched modify_admin_touched modify_io_touched : frame.

(** *** Completions *)

Lemma with_data_touched r cid code len : moves touched (with_data r cid code len).
Proof. unfold with_data, cqe. walk. Qed.
Lemma complete_touched r cid code : moves touched (complete r cid code).
Proof. apply with_data_touched. Qed.
Lemma err_touched cid code : moves touched (err_outcome cid code).
Proof. pose proof complete_touched. unfold err_outcome. walk. Qed.
Lemma map_backend_touched cid r len : moves touched (map_backend cid r len).
Proof. pose proof with_data_touched. pose proof err_touched. unfold map_backend. walk. Qed.
Lemma done_touched m : moves touched m -> moves touched (done m).
Proof. intros. unfold done. walk. Qed.

Hint Resolve with_data_touched complete_touched err_touched map_backend_touched done_touched : frame.

(** *** Fabrics and admin commands *)

Lemma fabrics_touched sqe : moves touched (fabrics_execute sqe).
Proof.
  unfold fabrics_execute, connect, connect_admin, connect_resolve, connect_allocate, connect_io, property, property_get, cqe. walk.
Qed.

(** Writing the slot's memory, read and written back in one go. *)
Lemma slot_mem_touched {A} (f : Slot Sqe -> World B -> res never A) (g : A -> World B -> mem) tag :
  moves touched (s ← on_slots (slot tag); w ← get; a ← lift (f s w); modify (set_store (w_backends w) (g a w))).
Proof.
  intros w. unfold on_slots, slot, expect. unfold mbind, M_bind, get, lift, modify.
  destruct (slots (w_slots w) !! Z.to_nat tag) as [s|]; [|by destruct w]. cbv beta iota.
  replace (set_slots (w_slots w) w) with w by (by destruct w). by destruct (f s w).
Qed.

Lemma fill_slot_touched d : moves touched (fill_slot (Z.of_nat t) d).
Proof.
  assert (forall tag off src, moves touched (slot_write_at tag off src)) as Hw
    by (intros tag off src; apply (slot_mem_touched (fun s w => write_at (data s) off src (w_mem w)) (fun m _ => m))).
  unfold fill_slot. walk.
Qed.
Hint Resolve fill_slot_touched : frame.

Lemma zero_slot_touched n : moves touched (zero_slot (Z.of_nat t) n).
Proof.
  intros w. pose proof (slot_mem_touched (fun s w => sl ← as_slice (data s) (w_mem w);
      _ ← assert (n <=? Z.of_nat (length sl)); expect (sd_segs (data s) !! 0%nat))
    (fun seg w => mem_write (w_mem w) (ptr seg) (zeroes (Z.to_nat n))) (Z.of_nat t) w) as H. revert H.
  unfold zero_slot, on_slots, slot, expect. unfold mbind, M_bind, res_bind, get, lift, modify.
  destruct (slots (w_slots w) !! Z.to_nat (Z.of_nat t)) as [s|]; [|done]. cbn.
  destruct (as_slice _ _) as [sl| |]; [|done..]. destruct (assert _) as [[]| |]; [|done..]. by destruct (sd_segs _ !! 0%nat).
Qed.

Lemma async_event_touched u cid : moves touched (async_event u cid).
Proof. unfold async_event, aer_poll. walk. Qed.
Hint Resolve zero_slot_touched async_event_touched fabrics_touched : frame.

Lemma admin_touched a u sqe : moves touched (admin_execute a u (Z.of_nat t) sqe).
Proof.
  unfold admin_execute, identify, get_features, set_features, get_log_page, reply_data.
  repeat (case_match; [apply done_touched || apply async_event_touched; walk|]). apply done_touched. walk.
Qed.

(** *** IO commands *)

Section Io.
Variable ring_index : Z -> option Z.

Lemma await_lease_touched u i cid rw len : moves touched (await_lease ring_index u i (Z.of_nat t) cid rw len).
Proof.
  unfold await_lease. apply moves_bind; [apply _|walk|]. intros []; [|walk]. apply done_touched. unfold read_leased. walk.
Qed.
Hint Resolve await_lease_touched : frame.

Lemma read_touched u ns sqe : moves touched (read ring_index u ns (Z.of_nat t) sqe).
Proof. unfold read. walk. Qed.

Lemma write_backend_touched i d rw len : moves touched (write_backend ring_index i d rw len).
Proof. unfold write_backend. walk. Qed.
Hint Resolve read_touched write_backend_touched : frame.

Lemma write_touched ns sqe : moves touched (write ring_index ns (Z.of_nat t) sqe).
Proof. unfold write. walk. Qed.

Lemma dsm_touched ns sqe : moves touched (dsm ns (Z.of_nat t) sqe).
Proof. unfold dsm. walk. Qed.
Hint Resolve write_touched dsm_touched : frame.

Lemma io_command_touched u ns sqe : moves touched (io_command ring_index u ns (Z.of_nat t) sqe).
Proof.
  unfold io_command. repeat case_match; (apply moves_bind; [apply _|walk|intros _]);
    try apply done_touched; unfold write_zeroes, flush; walk.
Qed.
Hint Resolve io_command_touched : frame.

Lemma io_execute_touched i u sqe : moves touched (io_execute ring_index i u (Z.of_nat t) sqe).
Proof. unfold io_execute, ns_table. walk. Qed.
Hint Resolve io_execute_touched admin_touched : frame.

(** Executing a command, and resuming one, touches its own slot's buffer only. *)
Lemma execute_touched u sqe : moves touched (execute ring_index u (Z.of_nat t) sqe).
Proof. unfold execute. walk. Qed.

Lemma resume_touched u k : moves touched (resume ring_index u (Z.of_nat t) k).
Proof. destruct k; cbn [resume]; walk. Qed.

End Io.
End World.

(** ** The provided segment loops *)

Section Defaults.
Context {B T : Type} (f : B -> T) (shift : B -> Z).
Variable rd : Z -> bytes -> M B BackendError bytes.
Variable wr : Z -> bytes -> M B BackendError unit.
Hypothesis rd_keeps : forall a buf, keeps f (rd a buf).
Hypothesis wr_keeps : forall a buf, keeps f (wr a buf).

Lemma on_store_keeps {A} (m : M B BackendError A) : keeps f m -> keeps (fun x : B * mem => f x.1) (on_store m).
Proof. intros Hm [b mm]. specialize (Hm b). unfold same, on_store in *. by destruct (m b). Qed.

Lemma read_segs_keeps l cur n : keeps (fun x : B * mem => f x.1) (read_segs_loop shift rd l cur n).
Proof.
  revert cur n. induction l as [|s l IH]; intros cur n; cbn [read_segs_loop]; [walk|].
  pose proof (fun a buf => on_store_keeps _ (rd_keeps a buf)). walk. apply moves_modify. by intros [].
Qed.

Lemma write_segs_keeps l cur n : keeps (fun x : B * mem => f x.1) (write_segs_loop shift wr l cur n).
Proof.
  revert cur n. induction l as [|s l IH]; intros cur n; cbn [write_segs_loop]; [walk|].
  pose proof (fun a buf => on_store_keeps _ (wr_keeps a buf)). walk.
Qed.

End Defaults.

(** ** Memory and null *)

Section Memory.
Import Memory.

Lemma chunk_loop_keeps f fuel pos rem off :
  (forall i a n o, keeps (fun s : MemoryBackend * bytes => geo s.1) (f i a n o)) ->
  keeps (fun s : MemoryBackend * bytes => geo s.1) (chunk_loop f fuel pos rem off).
Proof. intros Hf. revert pos rem off. induction fuel as [|fuel IH]; intros pos rem off; cbn [chunk_loop]; walk. Qed.

Lemma with_buf_keeps {A} buf (m : M (MemoryBackend * bytes) BackendError A) :
  keeps (fun s : MemoryBackend * bytes => geo s.1) m -> keeps geo (with_buf buf m).
Proof. intros Hm b. specialize (Hm (b, buf)). unfold same, with_buf in *. by destruct (m (b, buf)) as [[]]. Qed.

Lemma read_chunk_keeps i a n o : keeps (fun s : MemoryBackend * bytes => geo s.1) (read_chunk i a n o).
Proof. unfold read_chunk, get_chunk. walk. Qed.
Lemma write_chunk_keeps i a n o : keeps (fun s : MemoryBackend * bytes => geo s.1) (write_chunk i a n o).
Proof. unfold write_chunk, get_chunk. walk. Qed.
Lemma zero_chunk_keeps i a n o : keeps (fun s : MemoryBackend * bytes => geo s.1) (zero_chunk i a n o).
Proof. unfold zero_chunk, get_chunk. walk. Qed.

Hint Resolve with_buf_keeps chunk_loop_keeps read_chunk_keeps write_chunk_keeps zero_chunk_keeps : frame.

Lemma memory_read_keeps a buf : keeps (geo (B := MemoryBackend)) (read a buf).
Proof. unfold read, for_each_chunk. walk. Qed.
Lemma memory_write_keeps a buf : keeps (geo (B := MemoryBackend)) (write a buf).
Proof. unfold write, for_each_chunk. walk. Qed.

#[export] Instance memory_geometry : StaticGeometry MemoryBackend.
Proof.
  split; cbn [b_flush b_discard b_write_zeroes Backend.read_segs Backend.write_segs backend]; intros.
  - unfold flush. walk.
  - unfold default_discard. walk.
  - unfold write_zeroes, for_each_chunk. walk.
  - apply read_segs_keeps, memory_read_keeps.
  - apply write_segs_keeps, memory_write_keeps.
Qed.

End Memory.

#[export] Instance null_geometry : StaticGeometry Null.NullBackend.
Proof.
  split; cbn [b_flush b_discard b_write_zeroes Backend.read_segs Backend.write_segs Null.backend]; intros.
  - unfold Null.flush. walk.
  - unfold default_discard. walk.
  - unfold Null.write_zeroes. walk.
  - apply read_segs_keeps. intros. unfold Null.read. walk.
  - apply write_segs_keeps. intros. unfold Null.write. walk.
Qed.

(** ** Files and the enum *)

Section File.
Import File.
Variable K : Kernel.

Abbreviation fgeo := (geo (B := FileBackend) (H := File.backend K)).

Lemma rwv_loop_keeps fuel round w base iovs idx done total bi :
  keeps (fun s : FileBackend * mem => fgeo s.1) (rwv_loop K fuel round w base iovs idx done total bi).
Proof.
  revert round iovs idx done. induction fuel as [|fuel IH]; intros round iovs idx done; cbn [rwv_loop]; walk;
    (apply moves_modify; intros [b m]; unfold same, transferred; by destruct w).
Qed.

Lemma rw_segs_keeps w a l n bi : keeps (fun s : FileBackend * mem => fgeo s.1) (rw_segs K w a l n bi).
Proof. pose proof rwv_loop_keeps. unfold rw_segs, rwv. walk. Qed.

Lemma discard_keeps l : keeps fgeo (discard K l).
Proof. induction l as [|r l IH]; cbn [discard]; walk. Qed.

Lemma fallocate_keeps modes off len : keeps fgeo (fallocate_chain K modes off len).
Proof. induction modes as [|m modes IH]; cbn [fallocate_chain]; walk. Qed.

Lemma zero_loop_keeps fuel round rem off : keeps fgeo (zero_loop K fuel round rem off).
Proof. revert round rem off. induction fuel as [|fuel IH]; intros round rem off; cbn [zero_loop]; walk. Qed.

#[export] Instance file_geometry : StaticGeometry FileBackend (H := File.backend K).
Proof.
  split; intros.
  - change (keeps fgeo (flush K)). unfold flush. walk.
  - apply discard_keeps.
  - change (keeps fgeo (write_zeroes K r)). pose proof fallocate_keeps. pose proof zero_loop_keeps. unfold write_zeroes. walk.
  - apply (rw_segs_keeps false).
  - apply (rw_segs_keeps true).
Qed.

Abbreviation ageo := (geo (B := AnyBackend) (H := any_backend K)).

Lemma any_op_keeps {A} n m f :
  keeps geo n -> keeps geo m -> keeps fgeo f -> keeps ageo (any_op (A := A) n m f).
Proof. intros Hn Hm Hf b. unfold same, any_op in *. destruct b as [b|b|b]; [specialize (Hn b); destruct (n b)|specialize (Hm b); destruct (m b)|specialize (Hf b); destruct (f b)]; done. Qed.

Lemma any_seg_keeps {A} n m f :
  keeps (fun x => geo x.1) n -> keeps (fun x => geo x.1) m -> keeps (fun x => fgeo x.1) f ->
  keeps (fun x => ageo x.1) (any_seg_op (A := A) n m f).
Proof.
  intros Hn Hm Hf [b mm]. unfold same, any_seg_op in *.
  destruct b as [b|b|b]; [specialize (Hn (b, mm)); destruct (n _) as [[]]|specialize (Hm (b, mm)); destruct (m _) as [[]]|
    specialize (Hf (b, mm)); destruct (f _) as [[]]]; done.
Qed.

#[export] Instance any_geometry : StaticGeometry AnyBackend (H := any_backend K).
Proof.
  split; intros.
  - apply any_op_keeps; [apply geo_flush..|]. apply (geo_flush (H := File.backend K)).
  - apply any_op_keeps; [apply geo_discard..|]. apply (geo_discard (H := File.backend K)).
  - apply any_op_keeps; [apply geo_zeroes..|]. apply (geo_zeroes (H := File.backend K)).
  - apply any_seg_keeps; [apply geo_read..|]. apply (geo_read (H := File.backend K)).
  - apply any_seg_keeps; [apply geo_write..|]. apply (geo_write (H := File.backend K)).
Qed.

End File.
