(* ===== verification/RecvFrame.v ===== *)
(** * What the receive path may touch

    [exec_view] and [resp_view] list the slots inside dispatch and the slots
    being answered, each with its command identifier; [answers] lists the
    responses of the send list.  The receive path leaves the first alone and
    extends the other two by the same entries ([rx_frame]); it changes nothing
    of the dispatch context but the memory and the queue head. *)

From S2P Require Import Prelude Digest Spec Pdu Pool SlotQ.
From S2P Require Import SlotQProofs Backend Dispatch BufRing TcpQueue Recv.
From S2P Require Import Frame.

(** ** Views of a slot array *)

Definition tagged (st : SlotState) (i : nat) (s : Slot Sqe) : list (nat * Z) :=
  if decide (state s = st) then [(i, sqe_cid (cmd s))] else [].

Fixpoint view (st : SlotState) (k : nat) (l : list (Slot Sqe)) : list (nat * Z) :=
  match l with [] => [] | s :: l => tagged st k s ++ view st (S k) l end.

Abbreviation exec_view a := (view Executing 0 (slots a)).
Abbreviation resp_view a := (view Responding 0 (slots a)).

Lemma view_insert st k i (l : list (Slot Sqe)) s s' :
  l !! i = Some s -> view st k (<[i := s']> l) ++ tagged st (k + i) s ≡ₚ view st k l ++ tagged st (k + i) s'.
Proof.
  revert k i. induction l as [|x l IH]; intros k [|i] H; cbn in H |- *; simplify_eq.
  - rewrite Nat.add_0_r. rewrite <- !app_assoc. rewrite (Permutation_app_comm (view st (S k) l)).
    rewrite (Permutation_app_comm (view st (S k) l)), !app_assoc. apply Permutation_app_tail, Permutation_app_comm.
  - rewrite <- !app_assoc. apply Permutation_app_head. specialize (IH (S k) i H).
    replace (k + S i)%nat with (S k + i)%nat by lia. exact IH.
Qed.

Lemma elem_of_view st k i c (l : list (Slot Sqe)) :
  (i, c) ∈ view st k l <-> exists j s, i = (k + j)%nat /\ l !! j = Some s /\ state s = st /\ c = sqe_cid (cmd s).
Proof.
  revert k. induction l as [|x l IH]; intros k; cbn [view].
  - split; [by intros ?%elem_of_nil|]. intros (j & s & _ & Hj & _). by rewrite lookup_nil in Hj.
  - rewrite elem_of_app, IH. unfold tagged. split.
    + intros [H|(j & s & -> & Hj & Hs)]; [|exists (S j), s; split; [lia|done]].
      case_decide; [|by apply elem_of_nil in H]. apply list_elem_of_singleton in H. simplify_eq. exists 0%nat, x. split; [lia|done].
    + intros ([|j] & s & -> & Hj & Hs & ->); cbn in Hj; simplify_eq.
      * left. rewrite decide_True by done. rewrite Nat.add_0_r. by left.
      * right. exists j, s. split; [lia|done].
Qed.

Lemma view_NoDup st k (l : list (Slot Sqe)) : NoDup (view st k l).*1.
Proof.
  revert k. induction l as [|x l IH]; intros k; cbn [view]; [constructor|]. rewrite fmap_app.
  apply list.NoDup_app. split; [|split; [|apply IH]]; unfold tagged; case_decide; cbn; try constructor; try constructor; try by intros ? ?%elem_of_nil.
  - by intros ?%elem_of_nil.
  - intros y Hy%list_elem_of_singleton Hv. subst y. apply list_elem_of_fmap in Hv as ([j c] & -> & Hj).
    apply elem_of_view in Hj as (j' & s & Hj & _). cbn in Hj. lia.
Qed.

(** What other tasks see of a slot. *)
Definition status (s : Slot Sqe) : option (bool * Z) :=
  match state s with Executing => Some (false, sqe_cid (cmd s)) | Responding => Some (true, sqe_cid (cmd s)) | _ => None end.

Lemma tagged_status st i s s' :
  st = Executing \/ st = Responding -> status s' = status s -> tagged st i s' = tagged st i s.
Proof.
  intros Hst H. unfold tagged, status in *.
  destruct (state s) eqn:E1, (state s') eqn:E2; simplify_eq; destruct Hst as [->| ->]; repeat case_decide; congruence.
Qed.

Lemma view_status st k i (l : list (Slot Sqe)) s s' :
  st = Executing \/ st = Responding -> l !! i = Some s -> status s' = status s -> view st k (<[i := s']> l) ≡ₚ view st k l.
Proof.
  intros Hst Hi Hs. pose proof (view_insert st k i l s s' Hi) as H. rewrite (tagged_status st (k + i) s s' Hst Hs) in H.
  by apply Permutation_app_inv_r in H.
Qed.

(** ** Slot arrays *)

Definition arr_frame (a a' : SlotArray Sqe) : Prop :=
  nslots a' = nslots a /\ exec_view a' ≡ₚ exec_view a /\ resp_view a' ≡ₚ resp_view a.

#[export] Instance arr_frame_preorder : PreOrder arr_frame.
Proof. split; [by split|]. intros x y z (H1 & H2 & H3) (H4 & H5 & H6). split; [congruence|]. split; by etrans. Qed.

Lemma same_slots_frame (a a' : SlotArray Sqe) : slots a' = slots a -> nslots a' = nslots a -> arr_frame a a'.
Proof. intros Hs Hn. unfold arr_frame. by rewrite Hs. Qed.

Lemma alter_frame (a : SlotArray Sqe) f i :
  (forall s, slots a !! i = Some s -> status (f s) = status s) -> arr_frame a (upd_slots (alter f i) a).
Proof.
  intros H. destruct (slots a !! i) as [s|] eqn:Hi.
  - split; [done|]. cbn. rewrite (alter_insert_at _ _ _ _ Hi). split; apply (view_status _ _ _ _ s); auto.
  - apply same_slots_frame; [|done]. cbn. apply list_eq. intros j. destruct (decide (i = j)) as [<-|].
    + by rewrite list_lookup_alter_eq, Hi.
    + by rewrite list_lookup_alter_ne.
Qed.

Lemma set_slot_frame tag f : (forall s, status (f s) = status s) -> moves arr_frame (set_slot tag f).
Proof. intros H. apply moves_modify. intros a. by apply alter_frame. Qed.

Lemma slot_frame tag : moves arr_frame (slot (C := Sqe) tag).
Proof. unfold slot. walk. Qed.
Lemma assert_state_frame tag st : moves arr_frame (debug_assert_state (C := Sqe) tag st).
Proof. pose proof slot_frame. unfold debug_assert_state. walk. Qed.
Lemma on_pool_frame {A} (m : M BufPool never A) : moves arr_frame (on_pool (C := Sqe) m).
Proof. intros a. unfold on_pool. destruct (m (pool a)). by apply same_slots_frame. Qed.

#[export] Hint Resolve slot_frame assert_state_frame on_pool_frame : frame.

(** An update behind the check of a state that other tasks do not look at. *)
Lemma checked_frame {A} tag st (m : M (SlotArray Sqe) never A) :
  (forall a s, slots a !! Z.to_nat tag = Some s -> state s = st -> arr_frame a (m a).1) ->
  moves arr_frame (_ ← debug_assert_state tag st; m).
Proof.
  intros H a. unfold debug_assert_state, slot, expect, assert. unfold mbind, M_bind, get, lift.
  destruct (slots a !! Z.to_nat tag) as [s|] eqn:Hs; [|done]. destruct (bool_decide _) eqn:Hd; [|done]. apply bool_decide_eq_true in Hd.
  by eapply H.
Qed.

Lemma set_data_frame tag d : moves arr_frame (set_data (C := Sqe) tag d).
Proof.
  unfold set_data. pose proof (set_slot_frame tag (SlotQ.with_data d) ltac:(done)). walk; apply moves_modify; intros; by apply same_slots_frame.
Qed.
Lemma set_data_len_frame tag n : moves arr_frame (set_data_len (C := Sqe) tag n).
Proof. unfold set_data_len. pose proof (set_slot_frame tag (with_data_len n) ltac:(done)). walk. Qed.
Lemma set_recv_offset_frame tag n : moves arr_frame (set_recv_offset (C := Sqe) tag n).
Proof. unfold set_recv_offset. pose proof (set_slot_frame tag (with_recv_offset n) ltac:(done)). walk. Qed.

Lemma lease_or_owned_frame tag n addr : moves arr_frame (lease_or_owned (C := Sqe) tag n addr).
Proof. pose proof set_data_frame. unfold lease_or_owned. walk. Qed.

Lemma stash_frame tag x : moves arr_frame (stash_cmd tag x).
Proof.
  apply checked_frame. intros a s Hs Hst. apply alter_frame. intros s' Hs'. rewrite Hs in Hs'. injection Hs' as <-.
  unfold status. cbn. by rewrite Hst.
Qed.

Lemma alter_alter {A} (f g : A -> A) i (l : list A) : alter f i (alter g i l) = alter (f ∘ g) i l.
Proof. revert i. induction l as [|x l IH]; intros [|i]; [done..|]. cbn. f_equal. apply IH. Qed.

Lemma submit_frame tag x : moves arr_frame (submit tag x).
Proof.
  apply checked_frame. intros a s Hs Hst. unfold set_slot, slot, expect. unfold mbind, M_bind, get, lift, modify.
  cbn [upd_slots slots]. rewrite !list_lookup_alter_eq, Hs. cbn [fmap option_fmap option_map].
  etrans; [|apply (same_slots_frame (upd_slots (alter (with_waker None ∘ with_state Ready ∘ with_cmd x) (Z.to_nat tag)) a))];
    [|cbn; by rewrite !alter_alter|done].
  apply alter_frame. intros s' Hs'. rewrite Hs in Hs'. injection Hs' as <-. unfold status. cbn. by rewrite Hst.
Qed.

Lemma claim_frame : moves arr_frame (claim_tag (C := Sqe)).
Proof.
  unfold claim_tag. apply moves_bind; [apply _|walk|]. intros a. destruct (free_tags a) as [|tag rest]; [walk|].
  apply moves_bind; [apply _|apply moves_modify; intros; by apply same_slots_frame|]. intros _.
  apply checked_frame. clear a. intros a s Hs Hst. unfold set_slot, mbind, M_bind, modify, mret, M_ret. cbn [fst].
  etrans; [|apply (same_slots_frame (upd_slots (alter (with_recv_offset 0 ∘ with_data_len 0 ∘ with_state Receiving) (Z.to_nat tag)) a))];
    [|cbn; by rewrite !alter_alter|done].
  apply alter_frame. intros s' Hs'. rewrite Hs in Hs'. injection Hs' as <-. unfold status. cbn. by rewrite Hst.
Qed.

Lemma await_tag_frame t : moves arr_frame (await_tag_poll (C := Sqe) t).
Proof.
  pose proof claim_frame. unfold await_tag_poll. walk. apply moves_modify. intros. by apply same_slots_frame.
Qed.

#[export] Hint Resolve set_data_frame set_data_len_frame set_recv_offset_frame lease_or_owned_frame stash_frame submit_frame : frame.
#[export] Hint Resolve await_tag_frame : frame.

(** ** Connections *)

(** The responses of the send list. *)
Definition answer (co : Completion) : nat * Z := (Z.to_nat (co_tag co), cqe_cid (co_cqe co)).

Fixpoint answers (l : list SendWork) : list (nat * Z) :=
  match l with
  | [] => []
  | Response co :: l => answer co :: answers l
  | R2t _ _ _ _ :: l => answers l
  end.

Lemma answers_app l l' : answers (l ++ l') = answers l ++ answers l'.
Proof. induction l as [|[co|] l IH]; cbn; [done| |done]. by rewrite IH. Qed.

Section Conn.
Context {B : Type}.
Implicit Types c : Conn B.

(** What the receive path reads of the dispatch context, and does not change. *)
Definition context (w : World B) : Registry.Registry * Subsystem.PortConfig * Role * list B * Z * Z :=
  (w_registry w, w_port w, w_role w, w_backends w, qc_qid (w_core w), sqsize (w_core w)).

Definition rx_frame c c' : Prop :=
  context (c_world c') = context (c_world c) /\ nslots (w_slots (c_world c')) = nslots (w_slots (c_world c)) /\
  exec_view (w_slots (c_world c')) ≡ₚ exec_view (w_slots (c_world c)) /\
  exists new, resp_view (w_slots (c_world c')) ≡ₚ resp_view (w_slots (c_world c)) ++ new /\
    answers (work (c_send c')) = answers (work (c_send c)) ++ new.

#[export] Instance rx_frame_preorder : PreOrder rx_frame.
Proof.
  split.
  - intros c. do 3 (split; [done|]). exists []. by rewrite !app_nil_r.
  - intros x y z (H1 & H2 & H3 & n1 & H4 & H5) (K1 & K2 & K3 & n2 & K4 & K5).
    split; [congruence|]. split; [congruence|]. split; [by etrans|]. exists (n1 ++ n2).
    split; [by rewrite K4, H4, app_assoc|by rewrite K5, H5, app_assoc].
Qed.

(** Nothing of the slots or of the send list changes. *)
Lemma quiet_frame c c' :
  context (c_world c') = context (c_world c) -> w_slots (c_world c') = w_slots (c_world c) ->
  c_send c' = c_send c -> rx_frame c c'.
Proof. intros H1 H2 H3. unfold rx_frame. rewrite H1, H2, H3. do 3 (split; [done|]). exists []. by rewrite !app_nil_r. Qed.

Lemma arr_rx_frame c a : arr_frame (w_slots (c_world c)) a -> rx_frame c (c_set_world (set_slots a (c_world c)) c).
Proof. intros (H1 & H2 & H3). do 3 (split; [done|]). exists []. by rewrite !app_nil_r. Qed.

Lemma on_ring_frame {E A} (m : M BufRing never A) : moves rx_frame (on_ring (B := B) (E := E) m).
Proof. intros c. unfold on_ring. destruct (c_ring c) as [r|]; [|done]. destruct (m r). by apply quiet_frame. Qed.

Lemma release_events_frame {E} evs : moves rx_frame (release_events (B := B) (E := E) evs).
Proof. pose proof (fun A => on_ring_frame (E := E) (A := A)). induction evs as [|[w|b] evs IH]; cbn [release_events]; walk. Qed.

Lemma on_queue_frame {E A} (m : M (SlotArray Sqe) never A) : moves arr_frame m -> moves rx_frame (on_queue (B := B) (E := E) m).
Proof.
  intros Hm. assert (moves rx_frame (on_world (B := B) (E := E) (on_slots m))).
  { intros c. specialize (Hm (w_slots (c_world c))). unfold on_world, on_slots. destruct (m _) as [a r]. by apply arr_rx_frame. }
  pose proof (release_events_frame (E := E)). unfold on_queue. walk.
Qed.

Lemma push_r2t_frame {E} tag cid off len : moves rx_frame (push_send (B := B) (E := E) (R2t tag cid off len)).
Proof.
  intros c. unfold push_send, push. cbn. do 3 (split; [by destruct (sl_waker (c_send c))|]). exists [].
  cbn. rewrite answers_app, !app_nil_r. done.
Qed.

Lemma traffic_frame {E} b : moves rx_frame (modify (S := Conn B) (E := E) (c_set_traffic b)).
Proof. intros c. by apply quiet_frame. Qed.

Hint Resolve on_ring_frame on_queue_frame push_r2t_frame traffic_frame : frame.

Lemma q_submit_frame {E} tag x : moves rx_frame (q_submit (B := B) (E := E) tag x).
Proof. unfold q_submit. walk. Qed.

Lemma solicit_frame {E} tag cid off len : moves rx_frame (solicit (B := B) (E := E) tag cid off len).
Proof. unfold solicit. walk. Qed.

Lemma q_slot_frame {E} tag : moves rx_frame (q_slot (B := B) (E := E) tag).
Proof. unfold q_slot. walk. Qed.
Hint Resolve q_submit_frame solicit_frame q_slot_frame : frame.

Lemma slot_write_frame {E} tag dest src : moves rx_frame (slot_write (B := B) (E := E) tag dest src).
Proof.
  unfold slot_write. apply moves_bind; [apply _|walk|]. intros s c. unfold on_world, mbind, M_bind, get, lift, modify.
  destruct (write_at _ _ _ _); by apply quiet_frame.
Qed.

Lemma advance_frame {E} : moves rx_frame (on_world (B := B) (E := E) (on_core advance_sqhd)).
Proof.
  assert (moves (same (fun q => (qc_qid q, sqsize q))) advance_sqhd) as H by (unfold advance_sqhd; walk).
  intros c. specialize (H (w_core (c_world c))). unfold on_world, on_core, same in *. destruct (advance_sqhd _) as [q r]. cbn in *.
  injection H as H1 H2. apply quiet_frame; [|done..]. unfold context. cbn. by rewrite H1, H2.
Qed.

(** A command still being received is answered. *)
Lemma complete_receiving_frame {E} tag cqe c s :
  slots (w_slots (c_world c)) !! Z.to_nat tag = Some s -> cqe_cid cqe = sqe_cid (cmd s) ->
  rx_frame c (complete_receiving (E := E) tag cqe c).1.
Proof.
  intros Hs Hc. unfold complete_receiving. unfold mbind, M_bind.
  destruct (on_queue (E := E) (respond_receiving tag) c) as [c1 r] eqn:Hq.
  assert (rx_frame c c1 /\ r <> Ok tt \/ r = Ok tt /\ state s = Receiving /\
    c1 = c_set_world (set_slots (upd_slots (alter (with_state Responding) (Z.to_nat tag)) (w_slots (c_world c))) (c_world c)) c) as Hcase.
  { revert Hq. unfold on_queue, on_world, on_slots, respond_receiving, debug_assert_state, slot, set_slot, expect, assert.
    unfold mbind, M_bind, get, lift, modify. rewrite Hs. destruct (bool_decide_reflect (state s = Receiving)) as [Hr|Hr].
    - cbn. rewrite drop_all. cbn. intros [= <- <-]. by right.
    - cbn. intros [= <- <-]. left. split; [|done]. by apply quiet_frame. }
  destruct Hcase as [[Hf Hr]|(-> & Hr & ->)].
  - destruct r as [[]| |]; [done|exact Hf..].
  - unfold push_send, push. cbn [fst]. assert (status (with_state Responding s) = Some (true, sqe_cid (cmd s))) by done.
    split; [by destruct (sl_waker _)|]. split; [done|]. cbn. rewrite (alter_insert_at _ _ _ _ Hs).
    assert (forall st s', tagged st (0 + Z.to_nat tag) s' = tagged st (Z.to_nat tag) s') as Ht by done.
    pose proof (view_insert Executing 0 (Z.to_nat tag) _ s (with_state Responding s) Hs) as H1.
    pose proof (view_insert Responding 0 (Z.to_nat tag) _ s (with_state Responding s) Hs) as H2.
    rewrite !Ht in H1, H2. unfold tagged in H1, H2. cbn in H1, H2. rewrite Hr in H1, H2.
    repeat (rewrite decide_False in H1 by done). rewrite decide_False, decide_True in H2 by done.
    rewrite !app_nil_r in H1. rewrite app_nil_r in H2. split; [exact H1|].
    exists [(Z.to_nat tag, sqe_cid (cmd s))]. split; [exact H2|]. rewrite answers_app. cbn. unfold answer. cbn. by rewrite Hc.
Qed.

Lemma fail_digest_frame tag : moves rx_frame (fail_digest (B := B) tag).
Proof.
  intros c. unfold fail_digest. unfold mbind at 1, M_bind at 1.
  destruct (q_slot (E := RecvEnd) tag c) as [c1 [s|e|]] eqn:Hq; try (pose proof (q_slot_frame (E := RecvEnd) tag c) as H; by rewrite Hq in H).
  assert (c1 = c /\ slots (w_slots (c_world c)) !! Z.to_nat tag = Some s) as [-> Hs].
  { revert Hq. unfold q_slot, on_queue, on_world, on_slots, slot, expect. unfold mbind, M_bind, get, lift.
    destruct (slots _ !! Z.to_nat tag) as [x|]; cbn; [|done]. rewrite drop_all. cbn. intros [= <- <-]. split; [by destruct c as [[]]|done]. }
  unfold mbind at 1, M_bind at 1. pose proof (advance_frame (E := RecvEnd) c) as Ha.
  destruct (on_world (E := RecvEnd) (on_core advance_sqhd) c) as [c2 [h|e|]] eqn:Hw; [|exact Ha..]. cbn in Ha.
  etrans; [exact Ha|]. unfold mbind, M_bind, get.
  assert (slots (w_slots (c_world c2)) !! Z.to_nat tag = Some s) as Hs2.
  { revert Hw. unfold on_world, on_core. destruct (advance_sqhd _) as [q r]. intros [= <- _]. exact Hs. }
  pose proof (complete_receiving_frame (E := RecvEnd) tag (Cqe_new 0 h (qc_qid (w_core (c_world c2))) (sqe_cid (cmd s))
    (status.dnr status.DATA_XFER_ERROR)) c2 s Hs2 eq_refl) as Hf.
  by destruct (complete_receiving _ _ c2) as [c3 [[]| |]].
Qed.

Lemma try_retain_frame {E} bid tag p n : moves rx_frame (try_retain_payload (B := B) (E := E) bid tag p n).
Proof. unfold try_retain_payload. walk. Qed.

Lemma finish_payload_frame tag k : moves rx_frame (finish_payload (B := B) tag k).
Proof. unfold finish_payload. walk. Qed.

Lemma from_pdu_frame {A} (m : M (Conn B) PduError A) : moves rx_frame m -> moves rx_frame (from_pdu m).
Proof. intros Hm c. specialize (Hm c). unfold from_pdu. by destruct (m c) as [? [?|?|]]. Qed.
Hint Resolve slot_write_frame fail_digest_frame try_retain_frame finish_payload_frame from_pdu_frame : frame.

Context {L : Crc32cLib}.

Lemma data_advance_frame d sl : moves rx_frame (DataPhase_advance (B := B) d sl).
Proof. unfold DataPhase_advance, payload_done. walk. Qed.
Lemma ddgst_advance_frame d sl : moves rx_frame (DdgstPhase_advance (B := B) d sl).
Proof. unfold DdgstPhase_advance. walk. Qed.

Lemma capsule_tagged_frame tag sqe len dd rc p : moves rx_frame (capsule_tagged (B := B) tag sqe len dd rc p).
Proof. unfold capsule_tagged. walk. Qed.
Hint Resolve data_advance_frame ddgst_advance_frame capsule_tagged_frame : frame.

Lemma handle_capsule_frame t k : moves rx_frame (handle_capsule_cmd (B := B) t k).
Proof. unfold handle_capsule_cmd. walk. Qed.
Hint Resolve handle_capsule_frame : frame.

Lemma handle_pdu_frame t pdu dd rc p : moves rx_frame (handle_pdu (B := B) t pdu dd rc p).
Proof. unfold handle_pdu, validate_h2c. walk. Qed.
Hint Resolve handle_pdu_frame : frame.

(** The receive loop, with its own state. *)
Definition rxs_frame (x x' : RecvSt B) : Prop := rx_frame (rx_conn x) (rx_conn x').

#[export] Instance rxs_frame_preorder : PreOrder rxs_frame.
Proof. split; [intros x; unfold rxs_frame; reflexivity|]. intros x y z H1 H2. unfold rxs_frame in *. by etrans. Qed.

Lemma on_conn_frame {A} (m : M (Conn B) RecvEnd A) : moves rx_frame m -> moves rxs_frame (on_conn m).
Proof. intros Hm x. specialize (Hm (rx_conn x)). unfold on_conn. by destruct (m (rx_conn x)). Qed.
Lemma on_decoder_frame {A} (m : M PduDecoder PduError A) : moves rxs_frame (on_decoder (B := B) m).
Proof. intros x. unfold on_decoder, rxs_frame. by destruct (m (rx_decoder x)). Qed.
Lemma set_phase_frame p : moves rxs_frame (set_phase (B := B) p).
Proof. intros x. unfold rxs_frame. reflexivity. Qed.
Hint Resolve on_conn_frame on_decoder_frame set_phase_frame : frame.

Lemma recv_round_frame t dd rc sl : moves rxs_frame (recv_round (B := B) t dd rc sl).
Proof. unfold recv_round, feed_header. walk. Qed.

Lemma recv_bytes_frame t dd rc sl : moves rxs_frame (recv_bytes (B := B) t dd rc sl).
Proof.
  unfold recv_bytes. generalize (length (sl_bytes sl)) as fuel. intros fuel. revert sl.
  pose proof recv_round_frame. induction fuel as [|fuel IH]; intros sl; cbn [recv_window]; walk.
Qed.

Lemma resume_capsule_frame t dd rc k sl : moves rxs_frame (resume_capsule (B := B) t dd rc k sl).
Proof. pose proof recv_bytes_frame. unfold resume_capsule. walk. Qed.

End Conn.
