(* ===== verification/Connection.v ===== *)
(** * [ioutgt-nvme-tcp/src/connection.rs]: the life of a queue connection

    From the handshake's [QueueConn] to the freed (or leaked) queue: setting up
    the queue and submitting the Connect command, a turn of a slot's task, the
    keep-alive watchdog and the traffic beacon, and teardown with its two
    quiesce gates.  Sleeps and the other tasks' progress between them are steps
    of the environment. *)

From S2P Require Import Prelude Spec Pool SlotQ Registry Subsystem.
From S2P Require Import Backend Fabrics Dispatch FabricsExec Admin Io.
From S2P Require Import BufRing TcpQueue Send Handshake.

(** ** Setup *)

(** What the queue thread provides. *)
Record Thread {B : Type} := {
  th_arena : Z;
  th_buf_index : option Z;
  th_registry : Registry;
  th_peer : str;
  th_backends : list B;
  th_mem : mem;
  th_now : Z;
  th_tid : Z;
  th_cpus : str;
  th_heap : Z;
}.
Arguments Thread : clear implicits.

Definition pool_bytes (q : QueueConn) (port : PortConfig) : Z :=
  if qn_qid q =? 0 then Z.max (qn_sqsize q) 1 * ADMIN_DATA_MAX else pc_queue_buf_bytes port.

Definition recv_buf_bytes (q : QueueConn) (port : PortConfig) : Z :=
  if qn_qid q =? 0 then 0 else pc_recv_buf_bytes port.

(** The pool registered as a fixed buffer, and the send arena in it. *)
Definition register_pool (idx : option Z) (sqsize : Z) : M BufPool never unit :=
  match idx with
  | Some i => _ ← modify (set_buf_index i); _ ← reserve_arena (2 * sqsize * ARENA_PER_ITEM); mret tt
  | None => mret tt
  end.

Section Life.
Context {B : Type} `{Backend B}.
Variable ring_index : Z -> option Z.

(** [run_queue], up to the receive loop. *)
Definition start_queue (q : QueueConn) (port : PortConfig) (th : Thread B) : res never (Conn B) :=
  a ← SlotArray_new (qn_sqsize q) (th_arena th) (pool_bytes q port) Sqe_zeroed;
  let '(p, r) := register_pool (th_buf_index th) (qn_sqsize q) (pool a) in
  _ ← r;
  role ← (if qn_qid q =? 0 then new_admin (th_now th) else mret new_io);
  let w := {| w_slots := set_pool p a; w_core := QueueCore_new (qn_qid q) (qn_sqsize q) (qn_sqhd_disabled q);
              w_port := port; w_registry := th_registry th; w_connect_data := qn_connect_data q; w_peer := th_peer th;
              w_role := role; w_backends := th_backends th; w_mem := th_mem th; w_now := th_now th;
              w_tid := th_tid th; w_cpus := th_cpus th; w_heap := th_heap th; w_woken := [] |} in
  let c := {| c_world := w; c_send := SendList_new; c_traffic := false; c_ring := None |} in
  let '(c, r) := (tag ← on_queue claim_tag; tag ← lift (expect tag); q_submit tag (qn_connect_sqe q)) c in
  _ ← r;
  mret c.

(** ** The tasks *)

(** A dispatch step with the ring buffers its slot operations give back. *)
Definition on_ctx {E A} (m : M (World B) never A) : M (Conn B) E A :=
  c ← get;
  let n := length (events (w_slots (c_world c))) in
  x ← on_world m;
  c ← get;
  _ ← release_events (drop n (events (w_slots (c_world c))));
  mret x.

(** The task of slot [tag]: waiting for a command, or inside its execution. *)
Inductive SlotTask := TaskIdle | TaskExec (k : Await).

Definition slot_task_turn (t : nat) (tag : Z) (st : SlotTask) : M (Conn B) never SlotTask :=
  p ← match st with
      | TaskIdle =>
          sqe ← on_queue (await_command_poll tag t);
          match sqe with
          | None => mret None
          | Some sqe => p ← on_ctx (execute ring_index t tag sqe); mret (Some p)
          end
      | TaskExec k => p ← on_ctx (resume ring_index t tag k); mret (Some p)
      end;
  match p with
  | None => mret TaskIdle
  | Some (Parked k) => mret (TaskExec k)
  | Some (Done o) => _ ← q_complete tag (out_cqe o) (out_data_len o); mret TaskIdle
  end.

(** Watchdog: the sleep of a round, and whether it shuts the socket down after it. *)
Definition watchdog_sleep (w : World B) : option Z :=
  match w_role w with Admin a => Some (keepalive_tick (ad_kato_ms a)) | IoQueue _ => None end.
Definition watchdog_wake : M (World B) never bool :=
  silent ← keepalive_expired;
  mret (match silent with Some _ => true | None => false end).

(** Beacon: the sleep of a round, and whether the task ends after it. *)
Definition beacon_sleep (w : World B) : option Z :=
  match w_role w with
  | IoQueue i => Some (if io_cntlid i =? 0 then KEEPALIVE_TICK_MIN else keepalive_tick (io_kato_ms i))
  | Admin _ => None
  end.
Definition beacon_wake : M (Conn B) never bool :=
  c ← get;
  match w_role (c_world c) with
  | Admin _ => mret true
  | IoQueue i =>
      match io_traffic i with
      | None => mret (negb (io_cntlid i =? 0))
      | Some f =>
          seen ← take_traffic;
          _ ← (if seen : bool then
                 modify (fun c => let r := w_registry (c_world c) in
                   c_set_world (set_registry {| cntlid_min := cntlid_min r; cntlid_max := cntlid_max r;
                     next_cntlid := next_cntlid r; controllers := controllers r;
                     flags := TrafficFlag_set f (flags r) |} (c_world c)) c)
               else mret tt);
          mret false
      end
  end.

(** ** Teardown *)

Definition QUIESCE_MS : Z := 10000.

(** A round of [quiesce]: over, or one more sleep. *)
Definition quiesce_round (done_ : bool) (waited : Z) (sleep_ok : bool) : option Z :=
  if done_ || (QUIESCE_MS <=? waited) then None
  else if sleep_ok then Some (waited + 2) else None.

Inductive TdPhase := TdDrain (waited : Z) | TdSend (waited : Z) | TdFreed | TdLeaked.

(** The connection, whether its send task has finished and its socket is shut
    down, and the fixed-buffer index given back. *)
Record Td := {
  td_conn : Conn B;
  td_send_done : bool;
  td_shutdown : bool;
  td_phase : TdPhase;
  td_unregistered : option Z;
}.

Definition exec_count_of (c : Conn B) : Z := executing (w_slots (c_world c)).

Definition run_never {S A} (m : M S never A) (s : S) : S := (m s).1.

Definition td_begin (c : Conn B) (send_done : bool) : Td :=
  {| td_conn := run_never (on_world (E := never) ConnCtx_close) c; td_send_done := send_done; td_shutdown := false;
     td_phase := TdDrain 0; td_unregistered := None |}.

Definition remove_controller (w : World B) : World B :=
  match w_role w with
  | Admin a => if ad_cntlid a =? 0 then w else set_registry (remove (ad_cntlid a) (w_registry w)).1 w
  | IoQueue _ => w
  end.

(** After both gates: leak, or free. *)
Definition td_finish (x : Td) : Td :=
  let c := td_conn x in
  if (0 <? exec_count_of c) || negb (td_send_done x) then
    {| td_conn := c_set_world (remove_controller (c_world c)) c; td_send_done := td_send_done x;
       td_shutdown := td_shutdown x; td_phase := TdLeaked; td_unregistered := None |}
  else
    let a := w_slots (c_world c) in
    let '(p, idx) := take_buf_index (pool a) in
    let c := c_set_world (set_slots (set_pool p a) (c_world c)) c in
    {| td_conn := c_set_world (remove_controller (c_world c)) c; td_send_done := true;
       td_shutdown := td_shutdown x; td_phase := TdFreed; td_unregistered := idx |}.

Definition td_set (phase : TdPhase) (x : Td) : Td :=
  {| td_conn := td_conn x; td_send_done := td_send_done x; td_shutdown := td_shutdown x; td_phase := phase;
     td_unregistered := td_unregistered x |}.

(** A round of the second gate. *)
Definition td_send_round (sleep_ok : bool) (waited : Z) (x : Td) : Td :=
  match quiesce_round (td_send_done x) waited sleep_ok with
  | Some waited => td_set (TdSend waited) x
  | None => td_finish x
  end.

(** One poll of [teardown]: it runs to its next sleep, or to its end.  Whether
    the sleeps of the first and of the second gate can be started. *)
Definition td_poll (sleep_drain sleep_send : bool) (x : Td) : Td :=
  match td_phase x with
  | TdDrain waited =>
      match quiesce_round (exec_count_of (td_conn x) =? 0) waited sleep_drain with
      | Some waited => td_set (TdDrain waited) x
      | None =>
          td_send_round sleep_send 0
            {| td_conn := run_never close_send (td_conn x); td_send_done := td_send_done x; td_shutdown := true;
               td_phase := TdSend 0; td_unregistered := None |}
      end
  | TdSend waited => td_send_round sleep_send waited x
  | TdFreed | TdLeaked => x
  end.

End Life.
Arguments Td : clear implicits.
