(* ===== verification/ConnectionProofs.v ===== *)
(** * A connection's beginning and its end

    [queue_starts]: the queue the handshake describes is set up with its Connect
    command ready.  Teardown runs beside the slot tasks and the send task:
    [td_trace] interleaves its polls with any of their steps, and the theorems
    hold for every trace.  [beacon_feeds_watchdog] joins the two halves of the
    traffic-based keep-alive, which run on different threads. *)

From S2P Require Import Prelude Spec Pool PoolProofs PoolSafety PoolData.
From S2P Require Import SlotQ SlotQProofs SlotQSafety Registry Subsystem Backend.
From S2P Require Import Dispatch BufRing TcpQueue Send Handshake ExecLaws.
From S2P Require Import ExecLaws ConnProofs RecvProofs Connection Frame RecvFrame.

(** ** The fixed-buffer index *)

Lemma alloc_keeps n : keeps pool_buf_index (alloc n).
Proof. unfold alloc, make_lease. walk. Qed.

Lemma drop_keeps d : keeps pool_buf_index (SlotData_drop d).
Proof. unfold SlotData_drop, free_segs. walk. Qed.

Lemma reserve_keeps n : keeps pool_buf_index (reserve_arena n).
Proof. unfold reserve_arena. walk. Qed.

Section Index.
Context {C : Type}.

(** The fixed-buffer index of the pool. *)
Definition idx (a : SlotArray C) : option Z := pool_buf_index (pool a).

Lemma on_pool_keeps {A} (m : M BufPool never A) : keeps pool_buf_index m -> keeps idx (on_pool m).
Proof. intros Hm a. specialize (Hm (pool a)). unfold on_pool, same in *. by destruct (m (pool a)). Qed.

Hint Resolve on_pool_keeps alloc_keeps drop_keeps reserve_keeps : frame.

Lemma set_slot_keeps t g : keeps idx (set_slot (C := C) t g).
Proof. unfold set_slot. walk. Qed.
Hint Resolve set_slot_keeps : frame.

Lemma assert_state_keeps t st : keeps idx (debug_assert_state (C := C) t st).
Proof. unfold debug_assert_state, slot. walk. Qed.

Lemma slot_keeps t : keeps idx (slot (C := C) t).
Proof. unfold slot. walk. Qed.
Hint Resolve slot_keeps assert_state_keeps : frame.

Lemma set_data_keeps t d : keeps idx (set_data (C := C) t d).
Proof. unfold set_data. walk. Qed.

Lemma alloc_await_keeps w n : keeps pool_buf_index (alloc_await_poll w n).
Proof. pose proof (alloc_keeps n). unfold alloc_await_poll. walk. Qed.

Lemma claim_keeps : keeps idx (claim_tag (C := C)).
Proof. unfold claim_tag. walk. Qed.
Hint Resolve set_data_keeps alloc_await_keeps claim_keeps : frame.

(** No operation of the slot engine gives the fixed buffer back. *)
Lemma op_keeps_index (o : sq_op (C := C)) : keeps idx (run_op o).
Proof.
  destruct o; cbn [run_op]; unfold await_tag_poll, stash_cmd, submit, await_command_poll, begin_respond, respond_receiving,
    release_tag, release_data, set_data_len, set_recv_offset, try_lease, lease_await_poll, lease_or_owned; walk.
Qed.

End Index.

(** ** Setup *)

(** What a queue needs: a size and an id of its width (the handshake has
    checked them), a decoded Connect command, and room for its pool in the
    address space. *)
Definition setup_ok {B} (q : QueueConn) (port : PortConfig) (th : Thread B) : Prop :=
  2 <= qn_sqsize q < 2 ^ 16 /\ in_u 16 (qn_qid q) /\ 0 <= th_arena th /\
  th_arena th + pages_for (pool_bytes q port) * PAGE < 2 ^ 64 /\ pages_for (pool_bytes q port) < 2 ^ 32 /\
  Sqe_wf (qn_connect_sqe q).

Lemma register_ok i n p (ds : list SlotData) rss :
  pool_part p ds rss [] [] -> pool_buf_index p = None ->
  exists p' res, register_pool i n p = (p', Ok tt) /\ pool_part p' ds rss [] res /\ pool_buf_index p' = i.
Proof.
  intros Hp Hi. destruct i as [i|]; cbn; [|by exists p, []].
  assert (pool_part (set_buf_index i p) ds rss [] []) as (Hwf & Hl & Hs & Hc).
  { destruct Hp as (Hwf & Hl & Hs & Hc). split; [done|]. split; [|done]. by eapply holds_same_all. }
  unfold mbind, M_bind, modify.
  destruct (reserve_arena_spec (set_buf_index i p) (2 * n * ARENA_PER_ITEM) Hwf)
    as [->|(p' & r & -> & [Hwf' Hc'] & Hr & _ & Hb & Hn & _ & Hbi & Ha)].
  - by exists (set_buf_index i p), [].
  - exists p', [r]. split; [done|]. split; [|by rewrite Hbi]. split; [done|]. split; [by eapply holds_same_all|].
    split; [by rewrite Ha|]. intros pg Hpg. rewrite Hn in Hpg. specialize (Hc pg Hpg). rewrite Hc' in Hc. cbn in *. lia.
Qed.

(** The array of a queue, before its first command. *)
Lemma fresh_array n addr bytes i :
  2 <= n < 2 ^ 16 -> 0 <= addr -> addr + pages_for bytes * PAGE < 2 ^ 64 -> pages_for bytes < 2 ^ 32 ->
  exists a p, SlotArray_new (E := never) n addr bytes Sqe_zeroed = Ok a /\ register_pool i n (pool a) = (p, Ok tt) /\
    arr_ok (set_pool p a) /\ pool_buf_index p = i /\ nslots a = n /\ slots a = replicate (Z.to_nat n) (Slot_new Sqe_zeroed) /\
    free_tags a = seqZ 0 n /\ events a = [] /\ tag_waiter a = None /\ executing a = 0.
Proof.
  intros Hn Ha Hb Hp. pose proof (pages_for_pos bytes).
  assert (exists a, SlotArray_new (E := never) n addr bytes Sqe_zeroed = Ok a /\ pool_buf_index (pool a) = None /\
    send_arena (pool a) = None /\ nslots a = n /\ slots a = replicate (Z.to_nat n) (Slot_new Sqe_zeroed) /\
    free_tags a = seqZ 0 n /\ events a = [] /\ tag_waiter a = None /\ executing a = 0) as (a & Hnew & Hi & Hs & Hr).
  { unfold SlotArray_new, BufPool_new, u32_try_from. rewrite decide_True by (unfold in_u; lia). eexists. by split_and!. }
  destruct (array_new_ok n addr bytes Sqe_zeroed a ltac:(unfold in_u; lia) Ha Hb Hnew) as (rss & res & Hok).
  pose proof (ok_pool _ _ _ Hok) as Hpp. assert (res = []) as -> by (destruct Hpp as (_ & _ & Hres & _); auto).
  destruct (register_ok i n _ _ _ Hpp Hi) as (p & res' & Hreg & Hpp' & Hidx).
  exists a, p. split; [done|]. split; [done|]. split; [|done]. eapply set_pool_ok; eauto.
Qed.

Section Start.
Context {B : Type} `{Backend B}.

(** The connection just before its first command. *)
Lemma start_conn_ok (c : Conn B) n :
  arr_ok (w_slots (c_world c)) -> core_ok (w_core (c_world c)) -> sqsize (w_core (c_world c)) = nslots (w_slots (c_world c)) ->
  slots (w_slots (c_world c)) = replicate n (Slot_new Sqe_zeroed) -> c_ring c = None ->
  work (c_send c) = [] -> conn_ok c.
Proof.
  intros Ha Hc Hs Hl Hr Hw. split; try done.
  - intros i s Hi. rewrite Hl in Hi. apply lookup_replicate in Hi as [-> _].
    split; [constructor|]. split; [done|]. split; [by vm_compute|]. split; [done|]. by intros [].
  - rewrite Hr. intros i s x Hi. rewrite Hl in Hi. by apply lookup_replicate in Hi as [-> _].
  - by rewrite Hw.
Qed.

(** Claiming the first tag and submitting the Connect command. *)
Lemma first_command (c : Conn B) s rest sqe :
  conn_ok c -> free_tags (w_slots (c_world c)) = 0 :: rest -> slots (w_slots (c_world c)) !! 0%nat = Some s ->
  state s = Free -> Sqe_wf sqe ->
  exists c', (tag ← on_queue (E := never) claim_tag; tag ← lift (expect tag); q_submit tag sqe) c = (c', Ok tt) /\
    conn_ok c' /\ slots (w_slots (c_world c')) = <[0%nat := ready sqe (with_recv_offset 0 (with_data_len 0 (with_state Receiving s)))]>
      (slots (w_slots (c_world c))) /\
    free_tags (w_slots (c_world c')) = rest /\ pool (w_slots (c_world c')) = pool (w_slots (c_world c)) /\ c_traffic c' = true /\
    context (c_world c') = context (c_world c) /\ c_send c' = c_send c.
Proof.
  intros Hc Hf Hs Hst Hw. set (s1 := with_recv_offset 0 (with_data_len 0 (with_state Receiving s))).
  destruct (await_tag_ok (E := never) c 0 Hc) as [(c' & _ & _ & He & _)|(i & s' & c1 & Hq & Hok & Hi & _ & Hc1)]; [by rewrite Hf in He|].
  assert (on_queue (E := never) claim_tag c = (c1, Ok (Some 0)) /\ i = 0%nat) as [Hcl ->].
  { pose proof (claim_tag_eq _ 0 rest s Hf Hs Hst) as Hct.
    assert (forall A (m : M _ never A) a x, m (w_slots (c_world c)) = (a, Ok x) -> events a = events (w_slots (c_world c)) ->
      on_queue (E := never) m c = (c_slots a c, Ok x)) as Hq'.
    { intros A m a x Hm Hev. apply (on_queue_quiet m c a x []); [done|by rewrite app_nil_r|constructor]. }
    erewrite Hq' in Hq; [|unfold await_tag_poll, mbind, M_bind; by rewrite Hct|done].
    injection Hq as Hc1' Hi'. assert (i = 0%nat) as -> by lia. split; [|done].
    rewrite (Hq' _ _ _ _ Hct eq_refl). by rewrite Hc1'. }
  rewrite Hs in Hi. injection Hi as <-.
  assert (slots (w_slots (c_world c1)) !! 0%nat = Some s1) as Hs1.
  { rewrite Hc1. cbn. apply list_lookup_insert_eq. by eapply lookup_lt_Some. }
  rewrite (bind_ok _ _ _ _ _ Hcl). change (lift (expect (Some 0))) with (lift (S := Conn B) (E := never) (Ok 0)).
  rewrite (bind_ok _ _ c1 c1 0) by done.
  change (q_submit (E := never) 0 sqe) with (q_submit (E := never) (Z.of_nat 0) sqe : M (Conn B) never unit).
  rewrite (q_submit_eq c1 0 s1 sqe Hs1 eq_refl). eexists. split; [done|].
  assert (recv_buf (ready sqe s1)) as Hrb by (apply ready_buf; [apply (ck_bufs _ _ Hok _ _ Hs1)|done|done]).
  split; [by eapply put_ok; [by apply traffic_ok|done..]|].
  rewrite Hc1. cbn. rewrite list_insert_insert_eq, Hf. done.
Qed.

(** The role of a fresh connection. *)
Definition role_of (q : QueueConn) (now : Z) : res never Role := if qn_qid q =? 0 then new_admin now else mret new_io.

Lemma start_queue_spec q port (th : Thread B) :
  setup_ok q port th ->
  exists c role, start_queue q port th = Ok c /\ role_of q (th_now th) = Ok role /\ conn_ok c /\
    slots (w_slots (c_world c)) = <[0%nat := ready (qn_connect_sqe q) (with_recv_offset 0 (with_data_len 0 (with_state Receiving (Slot_new Sqe_zeroed))))]>
      (replicate (Z.to_nat (qn_sqsize q)) (Slot_new Sqe_zeroed)) /\
    free_tags (w_slots (c_world c)) = seqZ 1 (qn_sqsize q - 1) /\ idx (w_slots (c_world c)) = th_buf_index th /\
    c_traffic c = true /\ work (c_send c) = [] /\
    context (c_world c) = (th_registry th, port, role, th_backends th, qn_qid q, qn_sqsize q).
Proof.
  intros (Hn & Hq & Ha & Hb & Hp & Hw).
  destruct (fresh_array (qn_sqsize q) (th_arena th) _ (th_buf_index th) Hn Ha Hb Hp)
    as (a & p & Hnew & Hreg & Hok & Hidx & Hns & Hsl & Hft & Hev & Htw & Hex).
  assert (exists role, role_of q (th_now th) = Ok role) as (role & Hrole)
    by (unfold role_of; destruct (qn_qid q =? 0); eexists; reflexivity).
  set (w := {| w_slots := set_pool p a; w_core := QueueCore_new (qn_qid q) (qn_sqsize q) (qn_sqhd_disabled q);
              w_port := port; w_registry := th_registry th; w_connect_data := qn_connect_data q; w_peer := th_peer th;
              w_role := role; w_backends := th_backends th; w_mem := th_mem th; w_now := th_now th;
              w_tid := th_tid th; w_cpus := th_cpus th; w_heap := th_heap th; w_woken := [] |}).
  set (c := {| c_world := w; c_send := SendList_new; c_traffic := false; c_ring := None |}).
  assert (conn_ok c) as Hc.
  { eapply start_conn_ok; try done. split; [done|]. unfold in_u in *. cbn. lia. }
  assert (slots (w_slots (c_world c)) !! 0%nat = Some (Slot_new Sqe_zeroed)) as H0.
  { cbn. rewrite Hsl. apply lookup_replicate. split; [done|lia]. }
  destruct (first_command c (Slot_new Sqe_zeroed) (seqZ 1 (qn_sqsize q - 1)) (qn_connect_sqe q) Hc) as (c' & Hrun & Hc' & Hs' & Hf' & Hp' & Ht' & Hx & Hsd);
    [cbn; rewrite Hft, seqZ_cons by lia; done|done|done|done|].
  exists c', role. unfold start_queue. rewrite Hnew. cbn [mbind res_bind]. rewrite Hreg. unfold role_of in Hrole. rewrite Hrole.
  cbn [mbind res_bind]. fold w. fold c. rewrite Hrun. split; [done|]. split; [done|]. split; [done|]. split; [rewrite Hs'; cbn; by rewrite Hsl|].
  split; [done|]. split; [unfold idx; by rewrite Hp'|]. split; [done|]. split; [by rewrite Hsd|]. by rewrite Hx.
Qed.

(** A queue starts.  The queue the handshake describes is set up without a
    panic, with or without a fixed buffer for its pool: the connection it runs on
    satisfies the invariant of the receive path, the send arena reserved in the
    pool overlaps no lease, tag 0 holds the Connect command ready for its task,
    every other slot is free, and the first command counts as traffic. *)
Theorem queue_starts q port (th : Thread B) :
  setup_ok q port th ->
  exists c s, start_queue q port th = Ok c /\ conn_ok c /\
    slots (w_slots (c_world c)) !! 0%nat = Some s /\ state s = Ready /\ cmd s = qn_connect_sqe q /\
    (forall i x, (0 < i)%nat -> slots (w_slots (c_world c)) !! i = Some x -> state x = Free) /\
    free_tags (w_slots (c_world c)) = seqZ 1 (qn_sqsize q - 1) /\ idx (w_slots (c_world c)) = th_buf_index th /\
    c_traffic c = true.
Proof.
  intros Hs. pose proof Hs as (Hn & _). destruct (start_queue_spec q port th Hs) as (c & role & He & _ & Hc & Hsl & Hf & Hi & Ht & _).
  eexists c, _. split; [done|]. split; [done|]. rewrite Hsl.
  split; [apply list_lookup_insert_eq; rewrite length_replicate; lia|]. do 2 (split; [done|]). split; [|done].
  intros i x Hpos Hx. rewrite list_lookup_insert_ne in Hx by lia. by apply lookup_replicate in Hx as [-> _].
Qed.

End Start.

(** ** Keep-alive across threads *)

Section KeepAlive.
Context {B : Type}.

(** C27. Traffic on an IO queue keeps its controller alive.  After a command was
    submitted on an IO queue, the next round of its beacon raises the flag it
    shares with the admin queue's thread, clears the queue's own mark and goes
    on; the next round of the watchdog on the admin queue then finds the host
    alive, however long the admin queue itself was silent: it does not close the
    connection, restarts the silence from now, and takes the flag back down.  A
    queue without traffic leaves the flag as it is. *)
Theorem beacon_feeds_watchdog (c : Conn B) i f :
  w_role (c_world c) = IoQueue i -> io_traffic i = Some f -> (f < length (flags (w_registry (c_world c))))%nat ->
  exists c', beacon_wake c = (c', Ok false) /\ c_traffic c' = false /\
    (c_traffic c = false -> w_registry (c_world c') = w_registry (c_world c)) /\
    forall (w : World B) a, c_traffic c = true -> w_registry w = w_registry (c_world c') ->
      w_role w = Admin a -> ad_traffic a = Some f -> ad_kato_ms a <> 0 ->
      exists w' a', watchdog_wake w = (w', Ok false) /\ w_role w' = Admin a' /\ ad_last_heard a' = w_now w /\
        ad_kato_ms a' = ad_kato_ms a /\ flags (w_registry w') !! f = Some false.
Proof.
  intros Hr Hf Hlt. unfold beacon_wake, take_traffic, mbind, M_bind, get, modify, mret, M_ret. rewrite Hr, Hf.
  destruct (c_traffic c) eqn:Ht.
  - eexists. split; [reflexivity|]. split; [done|]. split; [done|]. intros w a _ Hreg Hrole Hat Hk.
    unfold watchdog_wake, keepalive_expired, mbind, M_bind, get, modify, mret, M_ret, TrafficFlag_take. rewrite Hrole.
    rewrite (proj2 (Z.eqb_neq _ _) Hk), Hat, Hreg. cbn. unfold TrafficFlag_set.
    rewrite list_lookup_insert_eq by done. cbn. rewrite Hrole. eexists _, _. split; [reflexivity|]. cbn.
    split; [done|]. split; [done|]. split; [done|]. apply list_lookup_insert_eq. by rewrite !length_insert.
  - eexists. split; [reflexivity|]. split; [done|]. split; [done|]. by intros.
Qed.

End KeepAlive.

Section Teardown.
Context {B : Type}.
Implicit Types (x y : Td B) (c : Conn B).

Abbreviation arr c := (w_slots (c_world c)).

Definition td_with c (send_done : bool) x : Td B :=
  {| td_conn := c; td_send_done := send_done; td_shutdown := td_shutdown x; td_phase := td_phase x;
     td_unregistered := td_unregistered x |}.

(** A step of the other tasks, while they have not been aborted: an operation
    of the slot engine in the state it is written for, with any effect on the
    rest of the connection; or the end of the send task. *)
Inductive td_other : Td B -> Td B -> Prop :=
| other_slot x c' o :
    td_phase x <> TdFreed -> enabled (arr (td_conn x)) o -> run_op o (arr (td_conn x)) = (arr c', Ok tt) ->
    td_other x (td_with c' (td_send_done x) x)
| other_send x : td_phase x <> TdFreed -> td_other x (td_with (td_conn x) true x).

(** [n] polls of teardown. *)
Inductive td_trace : nat -> Td B -> Td B -> Prop :=
| tr_done x : td_trace 0 x x
| tr_other n x y z : td_trace n x y -> td_other y z -> td_trace n x z
| tr_poll n x y sd ss : td_trace n x y -> td_trace (S n) x (td_poll sd ss y).

Definition finished x : Prop := td_phase x = TdFreed \/ td_phase x = TdLeaked.

(** ** Rounds left *)

Definition rounds (waited : Z) : Z := Z.max 0 ((QUIESCE_MS + 1 - waited) / 2).

Definition polls_left x : Z :=
  match td_phase x with
  | TdDrain w => 1 + rounds w + QUIESCE_MS / 2
  | TdSend w => 1 + rounds w
  | TdFreed | TdLeaked => 0
  end.

Lemma quiesce_next b w ok w' : quiesce_round b w ok = Some w' -> w' = w + 2 /\ w < QUIESCE_MS /\ b = false.
Proof.
  unfold quiesce_round. destruct b; [done|]. cbn. destruct (QUIESCE_MS <=? w) eqn:Hw; [done|].
  destruct ok; [|done]. intros [= <-]. lia.
Qed.

Lemma rounds_next w : w < QUIESCE_MS -> rounds (w + 2) = rounds w - 1.
Proof.
  intros Hw. unfold rounds, QUIESCE_MS in *. replace (10000 + 1 - (w + 2)) with (10000 + 1 - w + (-1) * 2) by lia.
  rewrite Z.div_add by lia. assert (1 <= (10000 + 1 - w) / 2) by (apply Z.div_le_lower_bound; lia). lia.
Qed.

Lemma finish_phase x : td_phase (td_finish x) = if (0 <? exec_count_of (td_conn x)) || negb (td_send_done x) then TdLeaked else TdFreed.
Proof. unfold td_finish. by destruct (_ || _). Qed.

Lemma finish_done x : finished (td_finish x).
Proof. unfold finished. rewrite finish_phase. case_match; auto. Qed.

Lemma done_left x : finished x -> polls_left x = 0.
Proof. unfold polls_left. by intros [->| ->]. Qed.

Lemma rounds_pos w : 0 <= rounds w.
Proof. unfold rounds. lia. Qed.

Lemma send_round_left ss w x : polls_left (td_send_round ss w x) <= rounds w.
Proof.
  pose proof (rounds_pos w). unfold td_send_round. destruct (quiesce_round _ _ _) as [w'|] eqn:Hq.
  - apply quiesce_next in Hq as (-> & Hw & _). unfold polls_left. cbn. rewrite rounds_next by done. lia.
  - rewrite done_left by apply finish_done. lia.
Qed.

Lemma poll_left sd ss x : polls_left (td_poll sd ss x) <= Z.max 0 (polls_left x - 1).
Proof.
  unfold td_poll. destruct (td_phase x) as [w|w| |] eqn:Hp.
  - assert (polls_left x = 1 + rounds w + QUIESCE_MS / 2) as -> by (unfold polls_left; by rewrite Hp).
    pose proof (rounds_pos w). destruct (quiesce_round _ _ _) as [w'|] eqn:Hq.
    + apply quiesce_next in Hq as (-> & Hw & _). unfold polls_left. cbn [td_set td_phase]. rewrite rounds_next by done. lia.
    + etrans; [apply send_round_left|]. change (rounds 0) with (QUIESCE_MS / 2). lia.
  - etrans; [apply send_round_left|]. assert (polls_left x = 1 + rounds w) as -> by (unfold polls_left; by rewrite Hp). lia.
  - assert (polls_left x = 0) as -> by (unfold polls_left; by rewrite Hp). lia.
  - assert (polls_left x = 0) as -> by (unfold polls_left; by rewrite Hp). lia.
Qed.

Lemma trace_left n x y : td_trace n x y -> polls_left y <= Z.max 0 (polls_left x - Z.of_nat n).
Proof.
  induction 1 as [x|n x y z Ht IH Ho|n x y sd ss Ht IH].
  - lia.
  - by destruct Ho.
  - pose proof (poll_left sd ss y). lia.
Qed.

Lemma left_done x : polls_left x <= 0 -> finished x.
Proof.
  unfold polls_left, finished. destruct (td_phase x); auto; intros.
  - pose proof (rounds_pos waited). change (QUIESCE_MS / 2) with 5000 in *. lia.
  - pose proof (rounds_pos waited). lia.
Qed.

(** C23. Teardown ends.  However the tasks of the connection behave in between
    (a backend that never answers, a send that never completes, sleeps that
    cannot be started), after 10,001 polls of its 2 ms rounds, 5,000 sleeps for
    each gate, teardown has freed the queue or decided to leak it. *)
Theorem teardown_ends n c sd x : td_trace n (td_begin c sd) x -> 10001 <= Z.of_nat n -> finished x.
Proof.
  intros Ht Hn. apply left_done. apply trace_left in Ht. change (polls_left (td_begin c sd)) with 10001 in Ht. lia.
Qed.

(** ** What is freed, and when *)

(** The invariant: [i] is the fixed-buffer index the queue was started with. *)
Definition td_ok (i : option Z) x : Prop :=
  arr_ok (arr (td_conn x)) /\
  match td_phase x with
  | TdFreed => exec_count_of (td_conn x) = 0 /\ td_send_done x = true /\ td_unregistered x = i /\ idx (arr (td_conn x)) = None
  | _ => td_unregistered x = None /\ idx (arr (td_conn x)) = i
  end.

Lemma on_world_slots {E A} (m : M (World B) never A) c :
  keeps w_slots m -> arr (on_world (E := E) m c).1 = arr c.
Proof. intros Hm. specialize (Hm (c_world c)). unfold on_world. by destruct (m (c_world c)) as [w r]. Qed.

Lemma close_keeps : keeps (@w_slots B) ConnCtx_close.
Proof.
  intros w. unfold ConnCtx_close, modify_admin, mbind, M_bind, get, modify, mret, M_ret.
  destruct (w_role w) as [a|i] eqn:Hr; cbn; rewrite ?Hr; cbn; [done|]. by destruct (io_traffic i).
Qed.

Lemma remove_slots (w : World B) : w_slots (remove_controller w) = w_slots w.
Proof. unfold remove_controller. repeat case_match; done. Qed.

Lemma untouched_index (a : SlotArray Sqe) i : arr_ok a -> arr_ok (set_pool (set_buf_index_opt i (pool a)) a).
Proof.
  intros (rss & res & Ha). eapply set_pool_ok; [done|]. exists res. destruct (ok_pool _ _ _ Ha) as (Hwf & Hl & Hs & Hc).
  split; [done|]. split; [|done]. by eapply holds_same_all.
Qed.

Lemma finish_ok i x : arr_ok (arr (td_conn x)) -> idx (arr (td_conn x)) = i -> td_ok i (td_finish x).
Proof.
  intros Ha Hi. unfold td_ok. rewrite finish_phase. unfold td_finish.
  destruct ((0 <? exec_count_of (td_conn x)) || negb (td_send_done x)) eqn:Hq; cbn; rewrite remove_slots; [done|].
  apply orb_false_iff in Hq as [Hx Hs]. destruct Ha as (rss & res & Ha). pose proof (ok_exec _ _ _ Ha).
  split; [|split_and!; try done; unfold exec_count_of in *; cbn in *; rewrite ?remove_slots; cbn; lia].
  apply untouched_index. by exists rss, res.
Qed.

Lemma send_round_ok i ss w x :
  arr_ok (arr (td_conn x)) -> idx (arr (td_conn x)) = i -> td_unregistered x = None -> td_ok i (td_send_round ss w x).
Proof. intros Ha Hi Hu. unfold td_send_round. case_match; [by split|by apply finish_ok]. Qed.

Lemma poll_ok i sd ss x : td_ok i x -> td_ok i (td_poll sd ss x).
Proof.
  intros Hok. unfold td_poll. destruct (td_phase x) as [w|w| |] eqn:Hp; [| |done..];
    pose proof Hok as (Ha & Hx); rewrite Hp in Hx; destruct Hx as [Hu Hi].
  - case_match; [by split|]. by apply send_round_ok.
  - by apply send_round_ok.
Qed.

Lemma other_ok i x y : td_ok i x -> td_other x y -> td_ok i y.
Proof.
  intros (Ha & Hx) Ho. destruct Ho as [x c' o Hp He Hr|x Hp].
  - destruct (op_safe _ o Ha He) as (a' & Hr' & Ha'). rewrite Hr in Hr'. injection Hr' as <-.
    pose proof (op_keeps_index o (arr (td_conn x))) as Hk. rewrite Hr in Hk. cbn in Hk. split; [done|].
    cbn. rewrite Hk. by destruct (td_phase x).
  - split; [done|]. cbn. by destruct (td_phase x).
Qed.

Lemma trace_ok i n x y : td_trace n x y -> td_ok i x -> td_ok i y.
Proof.
  induction 1 as [x|n x y z Ht IH Ho|n x y sd ss Ht IH]; intros H; [done| |].
  - eapply (other_ok _ y); auto.
  - apply poll_ok. auto.
Qed.

Lemma exec_some (a : SlotArray Sqe) :
  arr_ok a -> 0 < executing a <-> exists i s, slots a !! i = Some s /\ state s = Executing.
Proof.
  intros (rss & res & Ha). rewrite (ok_exec _ _ _ Ha). split.
  - assert (forall l : list (Slot Sqe), (0 < exec_count l)%nat -> exists i s, l !! i = Some s /\ state s = Executing) as Hl.
    { induction l as [|s l IH]; cbn; [lia|]. unfold is_exec. case_decide as Hs; intros Hp; [by exists 0%nat, s|].
      destruct IH as (i & s' & Hi & Hs'); [lia|]. by exists (S i), s'. }
    intros Hp. apply Hl. lia.
  - intros (i & s & Hi & Hs). pose proof (exec_count_pos _ _ _ Hi Hs). lia.
Qed.

Lemma begin_ok c sd : conn_ok c -> td_ok (idx (arr c)) (td_begin c sd).
Proof. intros Hc. unfold td_ok. cbn. unfold run_never. rewrite on_world_slots by apply close_keeps. by destruct Hc. Qed.

(** C22. Teardown frees nothing that is in use.  In every run, the queue is freed
    only when no slot is inside dispatch (so no backend operation references slot
    memory) and the send task has finished, and only then, and exactly then, the
    fixed-buffer index the pool was registered under is given back; until then,
    and for ever when the queue is leaked, the index stays registered. *)
Theorem teardown_frees_quiet n c sd x :
  conn_ok c -> td_trace n (td_begin c sd) x ->
  match td_phase x with
  | TdFreed =>
      (forall i s, slots (arr (td_conn x)) !! i = Some s -> state s <> Executing) /\ td_send_done x = true /\
      td_unregistered x = idx (arr c) /\ idx (arr (td_conn x)) = None
  | _ => td_unregistered x = None /\ idx (arr (td_conn x)) = idx (arr c)
  end.
Proof.
  intros Hc Ht. pose proof (trace_ok _ _ _ _ Ht (begin_ok c sd Hc)) as (Ha & Hx). destruct (td_phase x); try done.
  destruct Hx as (He & Hs & Hu & Hi). split; [|done]. intros j s Hj Hst.
  assert (0 < exec_count_of (td_conn x)) by (apply exec_some; eauto). lia.
Qed.

(** ** The last poll *)

Lemma remove_gone (w : World B) :
  match w_role w with
  | Admin a => ad_cntlid a <> 0 -> controllers (w_registry (remove_controller w)) !! ad_cntlid a = None
  | IoQueue _ => remove_controller w = w
  end.
Proof.
  unfold remove_controller. destruct (w_role w) as [a|]; [|done]. intros Hn.
  rewrite (proj2 (Z.eqb_neq _ _) Hn). cbn. apply lookup_delete_eq.
Qed.

Lemma finish_gone x :
  match w_role (c_world (td_conn x)) with
  | Admin a => ad_cntlid a <> 0 -> controllers (w_registry (c_world (td_conn (td_finish x)))) !! ad_cntlid a = None
  | IoQueue _ => True
  end.
Proof.
  unfold td_finish. destruct (_ || _); cbn.
  - pose proof (remove_gone (c_world (td_conn x))). by destruct (w_role _).
  - set (w := set_slots _ _). pose proof (remove_gone w) as Hg. change (w_role w) with (w_role (c_world (td_conn x))) in Hg.
    by destruct (w_role _).
Qed.

(** A poll that ends teardown finishes what it finds, with the socket shut down. *)
Lemma poll_end i sd ss x :
  td_ok i x -> ~ finished x -> (forall w, td_phase x = TdSend w -> td_shutdown x = true) -> finished (td_poll sd ss x) ->
  exists y, td_poll sd ss x = td_finish y /\ td_shutdown y = true /\ arr (td_conn y) = arr (td_conn x) /\
    td_send_done y = td_send_done x /\ w_role (c_world (td_conn y)) = w_role (c_world (td_conn x)).
Proof.
  intros Hok Hn Hs. unfold td_poll. destruct (td_phase x) as [w|w| |] eqn:Hp; [| |by destruct Hn; left|by destruct Hn; right];
    unfold td_send_round; repeat (case_match; [by intros [?|?]|]); intros _; eexists; (split; [done|]); split_and!; eauto.
Qed.

Lemma trace_shutdown n x y :
  td_trace n x y -> (forall w, td_phase x = TdSend w -> td_shutdown x = true) -> forall w, td_phase y = TdSend w -> td_shutdown y = true.
Proof.
  induction 1 as [x|n x y z Ht IH Ho|n x y sd ss Ht IH]; intros H; [done| |].
  - destruct Ho; cbn; by apply IH.
  - specialize (IH H). intros w. unfold td_poll. destruct (td_phase y) as [v|v| |] eqn:Hp; [| |by rewrite Hp..];
      unfold td_send_round; repeat (case_match; [cbn; eauto; done|]); rewrite finish_phase; by case_match.
Qed.

(** How teardown ends.  The poll that ends it leaks the queue exactly when a
    slot is still inside dispatch or the send task has not finished at that
    moment, and frees it otherwise; the socket has been shut down by then, and
    the controller of an admin queue is out of the registry either way. *)
Theorem teardown_outcome n c sd0 x sd ss :
  conn_ok c -> td_trace n (td_begin c sd0) x -> ~ finished x -> finished (td_poll sd ss x) ->
  (td_phase (td_poll sd ss x) = TdLeaked <->
     (exists i s, slots (arr (td_conn x)) !! i = Some s /\ state s = Executing) \/ td_send_done x = false) /\
  td_shutdown (td_poll sd ss x) = true /\
  match w_role (c_world (td_conn x)) with
  | Admin a => ad_cntlid a <> 0 -> controllers (w_registry (c_world (td_conn (td_poll sd ss x)))) !! ad_cntlid a = None
  | IoQueue _ => True
  end.
Proof.
  intros Hc Ht Hn Hf. pose proof (trace_ok _ _ _ _ Ht (begin_ok c sd0 Hc)) as Hok.
  destruct (poll_end _ sd ss x Hok Hn (trace_shutdown _ _ _ Ht ltac:(done)) Hf) as (y & -> & Hs & Ha & Hd & Hr).
  split; [|split; [unfold td_finish; by case_match|rewrite <- Hr; apply finish_gone]].
  rewrite finish_phase. unfold exec_count_of. rewrite Ha, Hd, <- (exec_some (arr (td_conn x))) by apply Hok.
  destruct (Z.ltb_spec 0 (executing (arr (td_conn x)))); cbn; [naive_solver|].
  destruct (td_send_done x); cbn; naive_solver lia.
Qed.

End Teardown.
