(* ===== verification/TaskProofs.v ===== *)
(** * A turn of a slot's task

    [slot_turn_ok]: in a connection that satisfies its invariants, a turn of a
    slot's task (waiting for a command, executing one, or resuming one) ends
    without a panic, keeps the invariants, leaves the slots being received alone
    and, when the command completes, pushes exactly one response, with the
    command's identifier. *)

From S2P Require Import Prelude Spec Pool PoolProofs PoolSafety PoolData.
From S2P Require Import SlotQ SlotQProofs SlotQSafety Backend Digest Fabrics.
From S2P Require Import Dispatch FabricsExec Admin Io BufRing RingProofs.
From S2P Require Import TcpQueue Recv Connection SegIO ExecLaws.
From S2P Require Import AdminProofs IoProofs ExecSafety ConnProofs RecvProofs RecvSafe.
From S2P Require Import Frame RecvFrame.

(** ** Giving ring buffers back *)

Section Release.
Context {B : Type}.
Implicit Types (c : Conn B) (s : Slot Sqe).

Lemma release_ring {E} evs c : release_events (E := E) evs c = release_events (map ReleaseRing (ring_events evs)) c.
Proof.
  revert c. induction evs as [|[w|b] evs IH]; intros c; [done|exact (IH c)|]. cbn [ring_events omap list_omap map release_events].
  unfold mbind, M_bind. destruct (on_ring (release b) c) as [c1 [[]| |]]; [apply IH|done..].
Qed.

Lemma given_back_ring d : given_back d = map ReleaseRing (ring_of d).
Proof. unfold given_back, ring_of. by destruct (owner d). Qed.

Lemma ring_of_none d : ring_of d = [] -> forall b, owner d <> ORing b.
Proof. unfold ring_of. intros H b Hb. by rewrite Hb in H. Qed.

(** A slot's buffer is replaced by one that borrows nothing. *)
Lemma counts_drop (o : option BufRing) (l : list (Slot Sqe)) i s s' :
  ring_counts o l (fun _ => 0%nat) -> l !! i = Some s -> ring_of (data s') = [] ->
  ring_counts o (<[i := s']> l) (fun b => borrows b (data s)).
Proof.
  intros Hc Hi Hr. pose proof (ring_of_none _ Hr) as Hn.
  pose proof (counts_swap o l (fun _ => 0%nat) i s (data s') Hc Hi (fun b => eq_sym (borrows_other b _ Hn))) as H.
  specialize (H ltac:(intros b Hb; by destruct (Hn b))).
  replace (<[i := s']> l) with (<[i := s']> (<[i := SlotQ.with_data (data s') s]> l)) by apply list_insert_insert_eq.
  eapply counts_same; [exact H|apply list_lookup_insert_eq; by eapply lookup_lt_Some|done].
Qed.

(** Slot [i] becomes [s'] in the world [w'], and the events [evs] of the change
    give back what its old buffer borrowed. *)
Lemma settle_ok {E} c w' i s s' evs :
  conn_ok c -> slots (w_slots (c_world c)) !! i = Some s -> arr_ok (w_slots w') ->
  nslots (w_slots w') = nslots (w_slots (c_world c)) -> slots (w_slots w') = <[i := s']> (slots (w_slots (c_world c))) ->
  core_ok (w_core w') -> sqsize (w_core w') = sqsize (w_core (c_world c)) -> recv_buf s' ->
  (owner (data s') = owner (data s) /\ ring_events evs = [] \/ ring_of (data s') = [] /\ ring_events evs = ring_of (data s)) ->
  exists o, release_events (E := E) evs (c_set_world w' c) = (c_set_ring o (c_set_world w' c), Ok tt) /\
    conn_ok (c_set_ring o (c_set_world w' c)) /\ (is_Some o <-> is_Some (c_ring c)).
Proof.
  intros Hc Hi Ha Hn Hs Hq Hsz Hb Hev. pose proof Hc as [H1 H2 H3 H4 H5 H6].
  assert (forall ex, ring_counts (c_ring c) (slots (w_slots w')) ex -> conn_inv ex (c_set_world w' c)) as Hinv.
  { intros ex Hex. split; cbn; try done; [congruence|]. rewrite Hs. by eapply bufs_insert. }
  rewrite release_ring. destruct Hev as [[Ho ->]|[Hr ->]].
  - exists (c_ring c). split; [done|]. split; [|done]. apply Hinv. rewrite Hs. by eapply counts_same.
  - rewrite <- given_back_ring. apply (give_back_ok (c_set_world w' c) (data s)).
    + apply Hinv. rewrite Hs. by eapply counts_drop.
    + intros b Hb'. cbn. destruct (c_ring c) as [r|]; [|by destruct (H5 i s b Hi)]. split; [|done].
      destruct H5 as (_ & Hr' & _). by eapply Hr'.
Qed.

(** The segments of a leased buffer. *)
Lemma leased_segs (a : SlotArray Sqe) i s :
  arr_ok a -> slots a !! i = Some s -> leased (data s) -> segs_ok (segs (data s)) /\ owner (data s) <> OEmpty.
Proof.
  intros (rss & res & Ha) Hi [[Hp _]|(addr & n & ->)].
  - pose proof (ok_pool _ _ _ Ha) as (_ & Hl & _ & Hc).
    destruct (Forall2_lookup_l _ _ _ i (data s) Hl) as (rs & Hrs & Hh); [by rewrite list_lookup_fmap, Hi|].
    unfold slot_holds in Hh. rewrite Hp in Hh. destruct Hh as (Ho & Hsg & _ & _ & Hin). split; [|by rewrite Ho].
    rewrite Hsg. eapply runs_segs_ok; [done|]. intros pg. destruct (decide (0 <= pg < npages (pool a))) as [Hpg|Hpg].
    + specialize (Hc pg Hpg). pose proof (cover_concat_insert i rss rs [] pg Hrs) as Hx. cbn in Hx.
      pose proof (cover_nonneg (free (pool a)) pg). pose proof (cover_nonneg res pg).
      pose proof (cover_nonneg (concat (<[i := []]> rss)) pg). cbn in Hc. lia.
    + rewrite (cover_run_out _ _ _ Hin Hpg). lia.
  - split; [|done]. apply owned_page_buf.
Qed.

End Release.

(** ** Commands on a connection *)

Section Turn.
Context {B : Type} {BK : Backend B} {ST : Store B} {SG : StaticGeometry B}.
Context {L : Crc32cLib} {LL : Crc32cLaws L}.
Variable ring_index : Z -> option Z.
Implicit Types (c : Conn B) (w : World B).

Abbreviation arr c := (w_slots (c_world c)).

(** Both invariants of a connection: the transport's and the dispatcher's. *)
Definition both_ok c : Prop := conn_ok c /\ world_ok (c_world c).

(** Slot [i]'s buffer has no more segments than a buffer can have. *)
Definition short_slot (i : nat) c : Prop := forall s, slots (arr c) !! i = Some s -> (length (segs (data s)) <= MAX_SEGS)%nat.

(** A step of slot [i]'s task, as the other tasks see it. *)
Definition turn_frame (i : nat) c c' : Prop :=
  map geo (w_backends (c_world c')) = map geo (w_backends (c_world c)) /\
  is_admin (w_role (c_world c')) = is_admin (w_role (c_world c)) /\ nslots (arr c') = nslots (arr c) /\
  (is_Some (c_ring c') <-> is_Some (c_ring c)) /\
  (forall j s, j <> i -> slots (arr c) !! j = Some s -> slots (arr c') !! j = Some s) /\
  (short_slot i c -> short_slot i c') /\
  exists new, resp_view (arr c') ≡ₚ resp_view (arr c) ++ new /\
    answers (work (c_send c')) = answers (work (c_send c)) ++ new.

#[export] Instance turn_frame_preorder i : PreOrder (turn_frame i).
Proof.
  split.
  - intros c. do 6 (split; [done|]). exists []. by rewrite !app_nil_r.
  - intros x y z (H1 & H2 & H3 & H4 & H5 & HS & n1 & H6 & H7) (K1 & K2 & K3 & K4 & K5 & KS & n2 & K6 & K7).
    do 3 (split; [congruence|]). split; [by rewrite K4|]. split; [auto|]. split; [auto|]. exists (n1 ++ n2).
    split; [by rewrite K6, H6, app_assoc|by rewrite K7, H7, app_assoc].
Qed.

(** Slot [i] changes, and is not being answered before or after. *)
Lemma slot_turn_frame i c c' s s' :
  map geo (w_backends (c_world c')) = map geo (w_backends (c_world c)) ->
  is_admin (w_role (c_world c')) = is_admin (w_role (c_world c)) -> nslots (arr c') = nslots (arr c) ->
  (is_Some (c_ring c') <-> is_Some (c_ring c)) -> c_send c' = c_send c ->
  slots (arr c) !! i = Some s -> slots (arr c') = <[i := s']> (slots (arr c)) ->
  tagged Responding i s' = tagged Responding i s -> data s' = data s \/ leased (data s') -> turn_frame i c c'.
Proof.
  intros H1 H2 H3 H4 H5 Hi Hs Hst Hd. do 4 (split; [done|]). split; [|split].
  - intros j x Hj Hx. by rewrite Hs, list_lookup_insert_ne.
  - intros Hsh x. rewrite Hs, list_lookup_insert_eq by (by eapply lookup_lt_Some). intros [= <-].
    destruct Hd as [->|Hd]; [by apply Hsh|by apply leased_short].
  - exists []. rewrite H5, !app_nil_r. split; [|done]. rewrite Hs.
    pose proof (view_insert Responding 0 i _ s s' Hi) as Hv. cbn [Nat.add] in Hv. rewrite Hst in Hv. by apply Permutation_app_inv_r in Hv.
Qed.

(** Executing on slot [i]: the world moves within [touched], the slot keeps its
    command and state. *)
Lemma on_ctx_ok {E A} (m : M (World B) never A) c i s w' x :
  both_ok c -> slots (arr c) !! i = Some s -> state s = Executing ->
  moves (touched i) m -> m (c_world c) = (w', Ok x) -> world_ok w' ->
  exists c' s', on_ctx (E := E) m c = (c', Ok x) /\ both_ok c' /\ turn_frame i c c' /\
    c_world c' = w' /\ c_send c' = c_send c /\ slots (arr c') !! i = Some s' /\ state s' = Executing /\ cmd s' = cmd s.
Proof.
  intros [Hc Hw] Hi Hst Hm He Hok. specialize (Hm (c_world c)). rewrite He in Hm. cbn [fst] in Hm.
  destruct Hm as ((Hn & _ & _ & evs & Hev & Hbuf) & Hsz & Hqid & Hgeo & Hadm).
  assert (exists s', slots (w_slots w') = <[i := s']> (slots (arr c)) /\ state s' = Executing /\ cmd s' = cmd s /\ recv_buf s' /\ (data s' = data s \/ leased (data s')) /\
    (owner (data s') = owner (data s) /\ ring_events evs = [] \/ ring_of (data s') = [] /\ ring_events evs = ring_of (data s)))
    as (s' & Hs' & Hst' & Hcmd & Hrb & Hdl & Hring).
  { pose proof (ck_bufs _ _ Hc _ _ Hi) as Hb. destruct Hbuf as [(Hs & Hr)|(x0 & d & Hx0 & Hs & Hd & Hr)].
    - exists s. rewrite Hs, list_insert_id by done. split_and!; try done; by left.
    - rewrite Hi in Hx0. injection Hx0 as <-. exists (SlotQ.with_data d s).
      assert (slots (w_slots w') !! i = Some (SlotQ.with_data d s)) as Hi'
        by (rewrite Hs; apply list_lookup_insert_eq; by eapply lookup_lt_Some).
      destruct (leased_segs _ _ _ (wk_slots _ Hok) Hi' Hd) as [Hsg Hne]. cbn in Hsg, Hne.
      split; [done|]. split; [done|]. split; [done|]. split; [|split; [by right|]].
      + split; [done|]. split; [cbn; by rewrite Hst|]. apply shape_at_rest; cbn; [apply Hb|done|by rewrite Hst..].
      + right. by rewrite leased_ring. }
  destruct (settle_ok (E := E) c w' i s s' evs Hc Hi (wk_slots _ Hok) Hn Hs' (wk_core _ Hok) Hsz Hrb Hring) as (o & Hrel & Hok' & Ho).
  set (c' := c_set_ring o (c_set_world w' c)) in *. exists c', s'.
  assert (slots (arr c') !! i = Some s') as Hi' by (cbn; rewrite Hs'; apply list_lookup_insert_eq; by eapply lookup_lt_Some).
  split; [|split; [by split|split; [|done]]].
  - unfold on_ctx. rewrite get_bind. rewrite (bind_ok _ _ c (c_set_world w' c) x) by (unfold on_world; by rewrite He).
    rewrite get_bind. cbn [c_world c_set_world]. rewrite Hev, drop_app_length. by rewrite (bind_ok _ _ _ _ _ Hrel).
  - eapply (slot_turn_frame i c c' s s'); try done. unfold tagged. by rewrite Hst, Hst', Hcmd.
Qed.

(** A slot inside dispatch, or being answered. *)
Lemma busy_buf (s : Slot Sqe) st : recv_buf s -> st <> Receiving -> st <> Ready -> recv_buf (with_state st s).
Proof. intros (B1 & _ & B3 & B4 & _) H1 H2. split; [exact B1|]. split; [done|]. split; [exact B3|]. split; [exact B4|]. by intros []. Qed.

(** A task waits, or takes its command. *)
Lemma await_command_ok {E} c i s t :
  both_ok c -> slots (arr c) !! i = Some s -> state s <> Executing ->
  exists c' s', both_ok c' /\ turn_frame i c c' /\ c_send c' = c_send c /\ slots (arr c') !! i = Some s' /\ cmd s' = cmd s /\
    (state s <> Ready /\ on_queue (E := E) (await_command_poll (Z.of_nat i) t) c = (c', Ok None) /\ s' = with_waker (Some t) s \/
     on_queue (E := E) (await_command_poll (Z.of_nat i) t) c = (c', Ok (Some (cmd s))) /\ state s' = Executing /\ payload_ok s' /\
     room (B := B) command_room (c_world c') = room command_room (c_world c)).
Proof.
  intros [Hc Hw] Hi Hne. destruct (ck_slots _ _ Hc) as (rss & res & Ha). pose proof (ck_bufs _ _ Hc _ _ Hi) as Hb.
  destruct (op_safe (arr c) (OpAwaitCommand i t) (ck_slots _ _ Hc)) as (a' & Hrun & Ha'); [by exists s|].
  assert (forall s' r, await_command_poll (Z.of_nat i) t (arr c) = (a', Ok r) ->
      slots a' = <[i := s']> (slots (arr c)) -> nslots a' = nslots (arr c) -> events a' = events (arr c) ->
      data s' = data s -> cmd s' = cmd s -> tagged Responding i s' = tagged Responding i s -> recv_buf s' ->
      let c' := c_slots a' c in
      on_queue (E := E) (await_command_poll (Z.of_nat i) t) c = (c', Ok r) /\ both_ok c' /\ turn_frame i c c' /\
      slots (arr c') !! i = Some s') as Hgen.
  { intros s' r He Hs Hn Hev Hd Hcmd Htg Hrb c'. split; [apply (on_queue_quiet _ c a' r []); [done|by rewrite app_nil_r|constructor]|].
    split; [split|split].
    - eapply (array_step_ok _ c i s s'); try done. by rewrite Hd.
    - by apply world_ok_slots.
    - eapply (slot_turn_frame i c c' s s'); try done. by left.
    - cbn. rewrite Hs. apply list_lookup_insert_eq. by eapply lookup_lt_Some. }
  destruct (decide (state s = Ready)) as [Hr|Hr].
  - destruct (exec_range _ _ _ _ _ Ha Hi) as [Hx _].
    pose proof (await_command_ready (arr c) i s t Hi Hr ltac:(apply Hx; by rewrite Hr)) as He.
    cbn [run_op] in Hrun. unfold mbind, M_bind, mret, M_ret in Hrun. rewrite He in Hrun. injection Hrun as Ha1. subst a'.
    destruct (Hgen (with_state Executing s) (Some (cmd s)) He) as (Hq & Hok & Hfr & Hi'); try done.
    { unfold tagged. by rewrite Hr. }
    { apply busy_buf; [done|by cbn..]. }
    eexists _, _. split; [exact Hok|]. split; [exact Hfr|]. split; [done|]. split; [exact Hi'|]. split; [done|]. right.
    split; [done|]. split; [done|]. split; [|done]. destruct Hb as (_ & _ & _ & _ & Hp). exact (Hp (or_intror Hr)).
  - pose proof (await_command_park (arr c) i s t Hi Hr) as He.
    cbn [run_op] in Hrun. unfold mbind, M_bind, mret, M_ret in Hrun. rewrite He in Hrun. injection Hrun as Ha1. subst a'.
    destruct (Hgen (with_waker (Some t) s) None He) as (Hq & Hok & Hfr & Hi'); try done.
    eexists _, _. split; [exact Hok|]. split; [exact Hfr|]. split; [done|]. split; [exact Hi'|]. split; [done|]. by left.
Qed.

(** The completion of an executing command. *)
Lemma complete_ok {E} c i s o :
  both_ok c -> slots (arr c) !! i = Some s -> state s = Executing -> cqe_cid (out_cqe o) = sqe_cid (cmd s) ->
  exists c' s', q_complete (E := E) (Z.of_nat i) (out_cqe o) (out_data_len o) c = (c', Ok tt) /\ both_ok c' /\ turn_frame i c c' /\
    slots (arr c') !! i = Some s' /\ state s' = Responding /\
    work (c_send c') = work (c_send c) ++ [Response {| co_tag := Z.of_nat i; co_cqe := out_cqe o; co_data_len := out_data_len o |}].
Proof.
  intros [Hc Hw] Hi Hst Hcid. pose proof (ck_bufs _ _ Hc _ _ Hi) as Hb. destruct (ck_slots _ _ Hc) as (rss & res & Ha).
  destruct (exec_range _ _ _ _ _ Ha Hi) as [_ Hx].
  pose proof (begin_respond_eq (arr c) i s Hi Hst ltac:(by apply Hx)) as He.
  destruct (op_safe (arr c) (OpBeginRespond i) (ck_slots _ _ Hc)) as (a' & Hrun & Ha'); [by exists s|].
  cbn [run_op] in Hrun. rewrite He in Hrun. injection Hrun as Ha1.
  set (s' := with_state Responding s) in *. set (co := Response _).
  exists (pushed co (c_slots a' c)), s'. assert (slots a' = <[i := s']> (slots (arr c))) as Hs by (by subst a').
  assert (nslots a' = nslots (arr c)) as Hn by (by subst a').
  split; [|split; [split|split; [|split; [|split]]]].
  - unfold q_complete. rewrite (bind_ok _ _ c (c_slots a' c) tt); [apply push_send_eq|].
    apply (on_queue_quiet _ c a' tt []); [by rewrite <- Ha1|subst a'; by rewrite app_nil_r|constructor].
  - apply pushed_ok; [cbn; lia|]. eapply (array_step_ok _ c i s s'); try done.
    apply busy_buf; [done|by cbn..].
  - assert (world_ok (set_slots a' (c_world c))) as [] by (by apply world_ok_slots). by split.
  - do 4 (split; [by cbn|]). split; [intros j x Hj Hx'; cbn; by rewrite Hs, list_lookup_insert_ne|].
    split; [intros Hsh x; cbn; rewrite Hs, list_lookup_insert_eq by (by eapply lookup_lt_Some); intros [= <-]; exact (Hsh s Hi)|].
    exists [(i, sqe_cid (cmd s))]. cbn. rewrite answers_app. cbn. unfold answer. cbn. rewrite Nat2Z.id, Hcid. split; [|done].
    rewrite Hs. pose proof (view_insert Responding 0 i _ s s' Hi) as Hv. unfold tagged in Hv. cbn in Hv. rewrite Hst in Hv.
    rewrite decide_False, decide_True, app_nil_r in Hv by done. exact Hv.
  - cbn. rewrite Hs. apply list_lookup_insert_eq. by eapply lookup_lt_Some.
  - done.
  - done.
Qed.

(** Where a slot's task is, and what its slot looks like. *)
Definition task_slot c (i : nat) (st : SlotTask) : Prop :=
  exists s, slots (arr c) !! i = Some s /\
    match st with
    | TaskIdle => state s <> Executing
    | TaskExec k => state s = Executing /\ await_ok (c_world c) (sqe_cid (cmd s)) k
    end.

(** The response for command [cid] of slot [i] joins the send list. *)
Definition answered_with (i : nat) (cid : Z) c c' : Prop :=
  exists co, work (c_send c') = work (c_send c) ++ [Response co] /\ co_tag co = Z.of_nat i /\ cqe_cid (co_cqe co) = cid.

(** The end of a turn that executed: parked, or completed. *)
Lemma progress_ok w0 c i s cid p :
  both_ok c -> slots (arr c) !! i = Some s -> state s = Executing -> sqe_cid (cmd s) = cid ->
  answered w0 cid (c_world c) p ->
  exists c' st', (match p with
      | Parked k => mret (TaskExec k)
      | Done o => _ ← q_complete (Z.of_nat i) (out_cqe o) (out_data_len o); mret TaskIdle
      end : M (Conn B) never SlotTask) c = (c', Ok st') /\
    both_ok c' /\ turn_frame i c c' /\ task_slot c' i st' /\ (st' = TaskIdle -> answered_with i cid c c').
Proof.
  intros Hok Hi Hst Hcid (_ & Hp). destruct p as [o|k].
  - destruct Hp as [Hc _]. destruct (complete_ok (E := never) c i s o Hok Hi Hst) as (c' & s' & He & Hok' & Hfr & Hi' & Hst' & Hwk); [congruence|].
    exists c', TaskIdle. rewrite (bind_ok _ _ _ _ _ He). split; [done|]. split; [done|]. split; [done|].
    split; [exists s'; split; [done|]; by rewrite Hst'|]. intros _. by eexists.
  - exists c, (TaskExec k). split; [done|]. split; [done|]. split; [reflexivity|]. split; [exists s; by rewrite Hcid|done].
Qed.

Lemma slot_turn_ok c i t st s :
  both_ok c -> room command_room (c_world c) -> slots (arr c) !! i = Some s -> task_slot c i st ->
  exists c' st', slot_task_turn ring_index t (Z.of_nat i) st c = (c', Ok st') /\ both_ok c' /\ turn_frame i c c' /\
    task_slot c' i st' /\ (state s = Receiving -> exists v, slots (arr c') !! i = Some (with_waker v s)) /\
    (state s = Ready \/ state s = Executing -> st' = TaskIdle -> answered_with i (sqe_cid (cmd s)) c c').
Proof.
  intros Hok Hroom Hi (s0 & Hi0 & Hst). rewrite Hi in Hi0. injection Hi0 as <-. unfold slot_task_turn.
  assert (forall c1 s1 (m : M (World B) never Progress), both_ok c1 -> slots (arr c1) !! i = Some s1 -> state s1 = Executing ->
    moves (touched i) m -> runs m (c_world c1) (answered (c_world c1) (sqe_cid (cmd s1))) ->
    exists c2 st', (p ← on_ctx m; match p with
        | Parked k => mret (TaskExec k)
        | Done o => _ ← q_complete (Z.of_nat i) (out_cqe o) (out_data_len o); mret TaskIdle
        end : M (Conn B) never SlotTask) c1 = (c2, Ok st') /\ both_ok c2 /\ turn_frame i c1 c2 /\ task_slot c2 i st' /\
      (st' = TaskIdle -> answered_with i (sqe_cid (cmd s1)) c1 c2)) as Hrun.
  { intros c1 s1 m Hok1 Hi1 Hst1 Hm (w' & p & He & Hans).
    destruct (on_ctx_ok (E := never) m c1 i s1 w' p Hok1 Hi1 Hst1 Hm He (proj1 Hans)) as (c2 & s2 & Hq & Hok2 & Hfr & Hw & Hsd & Hi2 & Hst2 & Hcmd).
    rewrite (bind_ok _ _ _ _ _ Hq). rewrite <- Hw in Hans.
    destruct (progress_ok (c_world c1) c2 i s2 (sqe_cid (cmd s1)) p) as (c3 & st' & Hp & Hok3 & Hfr3 & Hts & Hans3); try done; [by rewrite Hcmd|].
    exists c3, st'. split; [exact Hp|]. split; [done|]. split; [by etrans|]. split; [done|]. unfold answered_with in *. by rewrite <- Hsd. }
  assert (forall c1 (m : M (World B) never Progress) r,
    (p ← on_ctx m; match p with Parked k => mret (TaskExec k) | Done o => _ ← q_complete (Z.of_nat i) (out_cqe o) (out_data_len o); mret TaskIdle
        end : M (Conn B) never SlotTask) c1 = r ->
    (p ← (p ← on_ctx m; mret (Some p)); match p with
        | None => mret TaskIdle | Some (Parked k) => mret (TaskExec k)
        | Some (Done o) => _ ← q_complete (Z.of_nat i) (out_cqe o) (out_data_len o); mret TaskIdle
        end : M (Conn B) never SlotTask) c1 = r) as Hflat.
  { intros c1 m r. unfold mbind, M_bind, mret, M_ret. by destruct (on_ctx m c1) as [? [?|?|]]. }
  destruct st as [|k].
  - destruct (await_command_ok (E := never) c i s t Hok Hi Hst)
      as (c1 & s1 & Hok1 & Hfr1 & Hsd1 & Hi1 & Hcmd & [(Hnr & Hq & ->)|(Hq & Hst1 & Hpay & Hrm)]).
    + exists c1, TaskIdle. unfold mbind, M_bind. rewrite Hq. split; [done|]. split; [done|]. split; [done|].
      split; [by exists (with_waker (Some t) s)|]. split; [intros _; by exists (Some t)|]. by intros [].
    + destruct (Hrun c1 s1 (execute ring_index t (Z.of_nat i) (cmd s)) Hok1 Hi1 Hst1) as (c2 & st' & He & Hok2 & Hfr2 & Hts & Hans).
      { apply execute_touched. }
      { rewrite Hcmd. apply (execute_answered _ _ _ _ s1); [apply Hok1|split; [lia|]; by rewrite Nat2Z.id|done| |].
        - by rewrite Hrm.
        - rewrite <- Hcmd. apply (ck_bufs _ _ (proj1 Hok1) _ _ Hi1). }
      exists c2, st'. split; [|split; [done|]; split; [by etrans|]; split; [done|]; split].
      * apply Hflat in He. revert He. unfold mbind, M_bind. by rewrite Hq.
      * intros Hr. exfalso. assert (state s = Ready) as Hrd; [|congruence].
        destruct (decide (state s = Ready)) as [|Hnr]; [done|]. exfalso. revert Hq.
        rewrite (on_queue_quiet _ c _ None [] (await_command_park (arr c) i s t Hi Hnr)); [done|cbn; by rewrite app_nil_r|constructor].
      * intros _ Hid. specialize (Hans Hid). unfold answered_with in *. by rewrite Hsd1, Hcmd in Hans.
  - destruct Hst as [Hst Hk]. destruct (Hrun c s (resume ring_index t (Z.of_nat i) k) Hok Hi Hst) as (c2 & st' & He & Hok2 & Hfr2 & Hts & Hans).
    { apply resume_touched. }
    { eapply resume_answered; [apply Hok|split; [lia|]; by rewrite Nat2Z.id|done|done]. }
    exists c2, st'. split; [by apply Hflat|]. split; [done|]. split; [done|]. split; [done|]. split; [congruence|by intros _].
Qed.

End Turn.
