(* ===== verification/System.v ===== *)
(** * A whole connection

    [Sys] is a queue connection with all its tasks: the receive task, with its
    receive ring in ring mode, one task per slot, and what the send task has taken
    off the send list and not yet released.  [sys_step] interleaves them freely, with the effects of the rest
    of the program on the shared parts of the dispatch context.  The invariant
    [sys_ok] joins those of the receive path, of the dispatcher and of the slot
    engine, and says that the responses in flight are exactly the slots being
    answered.  At the end, a connection on which the theorems apply. *)

From S2P Require Import Prelude Spec Pool PoolProofs PoolSafety PoolData.
From S2P Require Import SlotQ SlotQProofs SlotQSafety Backend Digest Dispatch.
From S2P Require Import BufRing RingProofs TcpQueue Recv Handshake Connection.
From S2P Require Import Registry Subsystem SegIO ExecLaws AdminProofs.
From S2P Require Import ExecSafety ConnProofs RecvProofs RecvSafe Frame.
From S2P Require Import RecvFrame TaskProofs ConnectionProofs BackendProofs Fabrics Admin.
From S2P Require Import Io ExecWitness RecvWitness Frame.

(** ** Releasing a slot *)

Lemma set_data_slots (a : SlotArray Sqe) i s d a' :
  slots a !! i = Some s -> set_data (Z.of_nat i) d a = (a', Ok tt) -> slots a' = <[i := SlotQ.with_data d s]> (slots a).
Proof.
  intros Hi. unfold set_data, slot, on_pool, set_slot, mbind, M_bind, get, lift, modify, expect. rewrite Nat2Z.id, Hi.
  destruct (SlotData_drop (data s) (pool a)) as [p [[woken ring]|e|]]; intros He; try done. injection He as <-. cbn.
  by apply alter_insert_at.
Qed.

Lemma release_slot_eq (a : SlotArray Sqe) i s a' :
  slots a !! i = Some s -> release_tag (Z.of_nat i) a = (a', Ok tt) ->
  slots a' = <[i := with_state Free (SlotQ.with_data SlotData_empty s)]> (slots a) /\
  exists evs, events a' = events a ++ evs /\ ring_events evs = ring_of (data s).
Proof.
  intros Hi. unfold release_tag, release_data, debug_assert_state, slot at 1, set_slot, expect, assert.
  unfold mbind, M_bind, get, lift, modify. rewrite Nat2Z.id, Hi. destruct (bool_decide _); [|done].
  destruct (set_data (Z.of_nat i) SlotData_empty a) as [a1 [[]|e|]] eqn:Hs; intros He; try done. injection He as <-. cbn.
  pose proof (set_data_slots a i s _ a1 Hi Hs) as Hsl. destruct (set_data_events a i s _ a1 Hi Hs) as (woken & Hev).
  split.
  - rewrite Hsl. rewrite (alter_insert_eq _ i (slots a)) by (by eapply lookup_lt_Some). done.
  - rewrite Hev. eexists. split; [by rewrite <- !app_assoc|]. rewrite !ring_events_app, ring_events_wakes, given_back_ring. cbn.
    assert (forall l, ring_events (map ReleaseRing l) = l) as -> by (induction l; [done|]; cbn; by f_equal).
    destruct (tag_waiter a1); cbn; by rewrite app_nil_r.
Qed.

Section System.
Context {B : Type} {BK : Backend B} {ST : Store B} {SG : StaticGeometry B}.
Context {L : Crc32cLib} {LL : Crc32cLaws L}.
Variable ring_index : Z -> option Z.
(** Whether data digests were negotiated. *)
Variable dd : bool.
Implicit Types c : Conn B.

Abbreviation arr c := (w_slots (c_world c)).

(** ** The tasks *)

Record Sys := { sy_rx : RxTask (B := B); sy_tasks : list SlotTask; sy_sent : list Completion }.

Definition rx_state (r : RxTask) : RecvSt B := match r with RxIdle x | RxWait x _ _ _ => x end.
Abbreviation sys_conn y := (rx_conn (rx_state (sy_rx y))).

Definition rx_put c (r : RxTask) : RxTask :=
  match r with RxIdle x => RxIdle (rx_with c x) | RxWait x rc k sl => RxWait (rx_with c x) rc k sl end.

Definition sys_with c (tasks : list SlotTask) (sent : list Completion) (y : Sys) : Sys :=
  {| sy_rx := rx_put c (sy_rx y); sy_tasks := tasks; sy_sent := sent |}.

(** What the rest of the program does to the dispatch context between two turns
    of the connection's tasks: the clock, other connections on the shared
    registry and backends, namespace changes (which may add backends), the
    keep-alive tasks. *)
Definition outside c c' : Prop :=
  arr c' = arr c /\ w_core (c_world c') = w_core (c_world c) /\ c_send c' = c_send c /\ c_ring c' = c_ring c /\
  is_admin (w_role (c_world c')) = is_admin (w_role (c_world c)) /\
  map geo (w_backends (c_world c)) `prefix_of` map geo (w_backends (c_world c')) /\ world_ok (c_world c').

(** What the reader of a connection in ring mode does to its ring between two
    windows: it is done with a buffer, has got [len] more bytes of one, or waits
    for a buffer to be provided. *)
Inductive ReaderOp := RdDone (bid : Z) | RdAdvance (bid len : Z) | RdWait (since : Z) (w : nat).

Definition reader_ring (op : ReaderOp) : M BufRing never unit :=
  match op with
  | RdDone bid => recv_done bid
  | RdAdvance bid len => recv_advance bid len
  | RdWait since w => _ ← wait_for_provide_poll since w; mret tt
  end.

(** The buffers are the ring's, and the kernel does not receive past their end. *)
Definition reader_valid (op : ReaderOp) (r : BufRing) : Prop :=
  match op with
  | RdDone bid => 0 <= bid < NBUFS
  | RdAdvance bid len => 0 <= bid < NBUFS /\ 0 <= len /\ roff r (Z.to_nat bid) + len <= br_buf_size r
  | RdWait _ _ => True
  end.

(** The first work item leaves the send list. *)
Definition taken c (sent : list Completion) : Conn B * list Completion :=
  let '(l, w) := try_next (c_send c) in
  (c_set_send l c, match w with Some (Response co) => co :: sent | _ => sent end).

Inductive sys_step (y : Sys) : Sys -> Prop :=
| ss_window x t rc sl x' w :
    sy_rx y = RxIdle x -> ring_ctx_ok (rx_conn x) rc -> recv_bytes t dd rc sl x = (x', Ok w) ->
    sys_step y {| sy_rx := rx_after rc x' w; sy_tasks := sy_tasks y; sy_sent := sy_sent y |}
| ss_retry x t rc k sl x' w :
    sy_rx y = RxWait x rc k sl -> resume_capsule t dd rc k sl x = (x', Ok w) ->
    sys_step y {| sy_rx := rx_after rc x' w; sy_tasks := sy_tasks y; sy_sent := sy_sent y |}
| ss_slot i t st c' st' :
    sy_tasks y !! i = Some st -> room command_room (c_world (sys_conn y)) ->
    slot_task_turn ring_index t (Z.of_nat i) st (sys_conn y) = (c', Ok st') ->
    sys_step y (sys_with c' (<[i := st']> (sy_tasks y)) (sy_sent y) y)
| ss_take c' sent : taken (sys_conn y) (sy_sent y) = (c', sent) -> sys_step y (sys_with c' (sy_tasks y) sent y)
| ss_release l1 co l2 c' :
    sy_sent y = l1 ++ co :: l2 -> on_queue (E := never) (release_tag (co_tag co)) (sys_conn y) = (c', Ok tt) ->
    sys_step y (sys_with c' (sy_tasks y) (l1 ++ l2) y)
| ss_reader x op r r' :
    sy_rx y = RxIdle x -> c_ring (rx_conn x) = Some r -> reader_valid op r -> reader_ring op r = (r', Ok tt) ->
    sys_step y (sys_with (c_set_ring (Some r') (rx_conn x)) (sy_tasks y) (sy_sent y) y)
| ss_outside c' : outside (sys_conn y) c' -> sys_step y (sys_with c' (sy_tasks y) (sy_sent y) y).

(** ** The invariant *)

Record sys_ok (y : Sys) : Prop := {
  sk_rx : task_ok (sy_rx y);
  sk_world : world_ok (c_world (sys_conn y));
  sk_tasks : length (sy_tasks y) = length (slots (arr (sys_conn y)));
  sk_slots : forall i st, sy_tasks y !! i = Some st -> task_slot (sys_conn y) i st;
  sk_sent : resp_view (arr (sys_conn y)) ≡ₚ answers (work (c_send (sys_conn y))) ++ map answer (sy_sent y);
  sk_tags : Forall (fun co => 0 <= co_tag co) (sy_sent y);
}.

(** ** Each kind of step keeps it *)

Lemma geo_lookup (l l' : list B) i b :
  map geo l `prefix_of` map geo l' -> l !! i = Some b -> exists b', l' !! i = Some b' /\ geo b' = geo b.
Proof.
  intros [more H] Hi. assert (map geo l' !! i = Some (geo b)) as Hm.
  { rewrite H. apply lookup_app_l_Some. change (map geo l) with (geo <$> l). by rewrite list_lookup_fmap, Hi. }
  change (map geo l') with (geo <$> l') in Hm. rewrite list_lookup_fmap in Hm.
  destruct (l' !! i) as [b'|]; [|done]. exists b'. split; [done|]. cbn in Hm. congruence.
Qed.

Lemma await_ok_mono (w w' : World B) cid k :
  map geo (w_backends w) `prefix_of` map geo (w_backends w') -> is_admin (w_role w') = is_admin (w_role w) ->
  await_ok w cid k -> await_ok w' cid k.
Proof.
  intros Hg Ha. destruct k as [i c rw len|c]; cbn.
  - intros (-> & Hs & Hl & b & Hb & Hd & Hr). split; [done|]. split; [done|]. split; [done|].
    destruct (geo_lookup _ _ _ _ Hg Hb) as (b' & Hb' & Hgeo). exists b'. injection Hgeo as H1 H2. by rewrite H1, H2.
  - intros (-> & a & Hr). split; [done|]. rewrite Hr in Ha. destruct (w_role w') as [a'|]; [by exists a'|done].
Qed.

(** Slot [i] is inside dispatch, with the same command, after as before. *)
Lemma task_slot_move c c' i st :
  length (slots (arr c')) = length (slots (arr c)) -> (forall cid, (i, cid) ∈ exec_view (arr c') <-> (i, cid) ∈ exec_view (arr c)) ->
  map geo (w_backends (c_world c)) `prefix_of` map geo (w_backends (c_world c')) ->
  is_admin (w_role (c_world c')) = is_admin (w_role (c_world c)) -> task_slot c i st -> task_slot c' i st.
Proof.
  intros Hl Hv Hg Ha (s & Hi & Hst). destruct (lookup_lt_is_Some_2 (slots (arr c')) i) as [s' Hi'].
  { rewrite Hl. by eapply lookup_lt_Some. }
  exists s'. split; [done|]. destruct st as [|k].
  - intros He. assert ((i, sqe_cid (cmd s')) ∈ exec_view (arr c)) as Hin by (apply Hv, elem_of_view; by exists i, s').
    apply elem_of_view in Hin as (j & s0 & -> & Hj & Hs0 & _). cbn in Hi. congruence.
  - destruct Hst as [He Hk]. assert ((i, sqe_cid (cmd s)) ∈ exec_view (arr c')) as Hin by (apply Hv, elem_of_view; by exists i, s).
    apply elem_of_view in Hin as (j & s0 & -> & Hj & Hs0 & Hc). cbn in Hi'. rewrite Hi' in Hj. injection Hj as <-.
    split; [done|]. rewrite <- Hc. by eapply await_ok_mono.
Qed.

Lemma slots_length c : conn_ok c -> Z.of_nat (length (slots (arr c))) = nslots (arr c).
Proof. intros Hc. destruct (ck_slots _ _ Hc) as (rss & res & Ha). by destruct (ok_n _ _ _ Ha). Qed.

Lemma sys_conn_ok y : sys_ok y -> conn_ok (sys_conn y).
Proof. intros Hy. pose proof (sk_rx _ Hy) as H. destruct (sy_rx y) as [x|x rc k sl]; cbn in H |- *; [apply H|apply H]. Qed.

Lemma rx_put_ok r c' : task_ok r -> others (rx_conn (rx_state r)) c' -> task_ok (rx_put c' r).
Proof.
  intros Hr Ho. destruct r as [x|x rc k sl]; cbn in *; [by apply rx_others|].
  destruct Hr as (Hx & Hp & Hrc & Hk). split; [by apply rx_others|]. split; [done|]. split; [|done].
  eapply ring_ctx_same; [apply Ho|done].
Qed.

Lemma rx_put_state r c' : rx_conn (rx_state (rx_put c' r)) = c'.
Proof. by destruct r. Qed.

(** The receive task. *)
Lemma rx_move_ok y r' x x' :
  sys_ok y -> rx_state (sy_rx y) = x -> rx_state r' = x' -> task_ok r' -> rxs_frame x x' ->
  sys_ok {| sy_rx := r'; sy_tasks := sy_tasks y; sy_sent := sy_sent y |}.
Proof.
  intros Hy Hx Hx' Hr (Hctx & Hn & He & new & Hrs & Han). pose proof (sys_conn_ok y Hy) as Hc.
  assert (conn_ok (rx_conn x')) as Hc' by (subst x'; destruct r'; apply Hr).
  pose proof (slots_length _ Hc) as L1. pose proof (slots_length _ Hc') as L2. rewrite Hx in *.
  injection Hctx as C1 C2 C3 C4 C5 C6. destruct Hy as [K1 K2 K3 K4 K5 K6]. rewrite Hx in *. split; cbn; rewrite ?Hx'; try done.
  - destruct K2 as [W1 W2 W3 W4 W5 W6 W7]. split; rewrite ?C1, ?C2, ?C3, ?C4, ?C5; try done; [apply (ck_core _ _ Hc')|apply (ck_slots _ _ Hc')].
  - lia.
  - intros i st Hi. eapply (task_slot_move (rx_conn x)); [lia| |by rewrite C4|by rewrite C3|by apply K4].
    intros cid. by rewrite He.
  - rewrite Hrs, K5, Han, <- !app_assoc. apply Permutation_app_head, Permutation_app_comm.
Qed.

(** A step that leaves the receive task alone. *)
Lemma put_ok_sys y c' tasks sent :
  sys_ok y -> others (sys_conn y) c' -> world_ok (c_world c') -> length tasks = length (slots (arr c')) ->
  (forall i st, tasks !! i = Some st -> task_slot c' i st) ->
  resp_view (arr c') ≡ₚ answers (work (c_send c')) ++ map answer sent -> Forall (fun co => 0 <= co_tag co) sent ->
  sys_ok (sys_with c' tasks sent y).
Proof.
  intros Hy Ho Hw Hl Ht Hr Hs. split; cbn; rewrite ?rx_put_state; try done. apply rx_put_ok; [apply Hy|done].
Qed.

Lemma same_others c c' : conn_ok c' -> (is_Some (c_ring c') <-> is_Some (c_ring c)) -> slots (arr c') = slots (arr c) -> others c c'.
Proof. intros Hc Hr Hs. split; [done|]. split; [done|]. intros i s Hi _. exists (waker s). rewrite Hs, Hi. by destruct s. Qed.

(** A slot's task. *)
Lemma slot_move_ok y i t st :
  sys_ok y -> sy_tasks y !! i = Some st -> room command_room (c_world (sys_conn y)) ->
  exists c' st', slot_task_turn ring_index t (Z.of_nat i) st (sys_conn y) = (c', Ok st') /\
    sys_ok (sys_with c' (<[i := st']> (sy_tasks y)) (sy_sent y) y).
Proof.
  intros Hy Hi Hroom. pose proof (sys_conn_ok y Hy) as Hc.
  pose proof (sk_slots _ Hy i st Hi) as Hts. pose proof Hts as (s & Hs & _).
  destruct (slot_turn_ok ring_index (sys_conn y) i t st s (conj Hc (sk_world _ Hy)) Hroom Hs Hts)
    as (c' & st' & He & [Hc' Hw'] & (Hg & Ha & Hn & Hio & Hsl & _ & new & Hrs & Han) & Hts' & Hrv & _).
  exists c', st'. split; [done|]. pose proof (slots_length _ Hc) as L1. pose proof (slots_length _ Hc') as L2.
  apply put_ok_sys; try done.
  - split; [done|]. split; [done|]. intros j x Hj Hx. destruct (decide (j = i)) as [->|Hne].
    + rewrite Hs in Hj. injection Hj as <-. by apply Hrv.
    + exists (waker x). rewrite (Hsl j x Hne Hj). by destruct x.
  - rewrite length_insert, (sk_tasks _ Hy). lia.
  - intros j st1 Hj. destruct (decide (j = i)) as [->|Hne].
    + rewrite list_lookup_insert_eq in Hj by (by eapply lookup_lt_Some). by injection Hj as <-.
    + rewrite list_lookup_insert_ne in Hj by done. pose proof (sk_slots _ Hy j st1 Hj) as (x & Hx & Hst).
      exists x. split; [by apply Hsl|]. destruct st1; [done|]. destruct Hst. split; [done|]. eapply (await_ok_mono (c_world (sys_conn y))); [by rewrite Hg|done|done].
  - rewrite Hrs, (sk_sent _ Hy), Han, <- !app_assoc. apply Permutation_app_head, Permutation_app_comm.
  - apply Hy.
Qed.

(** The send task takes work. *)
Lemma take_move_ok y c' sent :
  sys_ok y -> taken (sys_conn y) (sy_sent y) = (c', sent) -> sys_ok (sys_with c' (sy_tasks y) sent y).
Proof.
  intros Hy. pose proof (sys_conn_ok y Hy) as Hc. set (c := sys_conn y) in *. unfold taken, try_next.
  pose proof (ck_send _ _ Hc) as Hws. pose proof (sk_sent _ Hy) as Hsent. fold c in Hsent.
  assert (forall l, Forall work_ok (work l) -> conn_ok (c_set_send l c)) as Hcl by (intros l Hl; destruct Hc; by split).
  assert (forall l sent', Forall work_ok (work l) -> resp_view (arr c) ≡ₚ answers (work l) ++ map answer sent' ->
    Forall (fun co => 0 <= co_tag co) sent' -> sys_ok (sys_with (c_set_send l c) (sy_tasks y) sent' y)) as Hgen.
  { intros l sent' Hl Hp Hf. apply put_ok_sys; try done; [by apply same_others; [apply Hcl|..]|apply (sk_world _ Hy)|apply Hy|].
    intros i st Hi. by apply (sk_slots _ Hy). }
  destruct (work (c_send c)) as [|[co|tag cid off len] rest] eqn:Hwk; intros [= <- <-]; apply Hgen; cbn; try apply (sk_tags _ Hy); try done.
  - by rewrite Hwk.
  - by rewrite Hwk.
  - by apply list.Forall_cons in Hws as [_ ?].
  - rewrite Hsent. cbn. apply Permutation_middle.
  - apply list.Forall_cons in Hws as [? _]. apply list.Forall_cons. split; [done|apply (sk_tags _ Hy)].
  - by apply list.Forall_cons in Hws as [_ ?].
Qed.

(** The send task releases a slot. *)
Lemma release_move_ok y l1 co l2 :
  sys_ok y -> sy_sent y = l1 ++ co :: l2 ->
  exists c', on_queue (E := never) (release_tag (co_tag co)) (sys_conn y) = (c', Ok tt) /\
    sys_ok (sys_with c' (sy_tasks y) (l1 ++ l2) y).
Proof.
  intros Hy Hsy. pose proof (sys_conn_ok y Hy) as Hc. pose proof (sk_sent _ Hy) as Hsent. pose proof (sk_tags _ Hy) as Htags.
  rewrite Hsy in Hsent, Htags. apply list.Forall_app in Htags as [T1 [T2 T3]%list.Forall_cons].
  assert (answer co ∈ resp_view (arr (sys_conn y))) as Hin.
  { rewrite Hsent, map_app. cbn. rewrite !elem_of_app, elem_of_cons. auto. }
  unfold answer in Hin. apply elem_of_view in Hin as (i & s & Hi & Hs & Hst & Hcid). cbn in Hi.
  assert (co_tag co = Z.of_nat i) as -> by lia.
  destruct (ck_slots _ _ Hc) as (rss & res & Ha). destruct (release_ok _ rss res i s Ha Hs Hst)
    as (a' & s' & Hrel & Ha' & _ & _ & _ & _ & _ & Hn).
  destruct (release_slot_eq _ i s a' Hs Hrel) as (Hsl & evs & Hev & Hring).
  set (f := with_state Free (SlotQ.with_data SlotData_empty s)) in *. pose proof (ck_bufs _ _ Hc _ _ Hs) as Hb.
  destruct (settle_ok (E := never) (sys_conn y) (set_slots a' (c_world (sys_conn y))) i s f evs) as (o & Hre & Hok & Ho); try done.
  { apply (ck_core _ _ Hc). }
  { split; [constructor|]. split; [done|]. split; [apply Hb|]. split; [done|]. by intros []. }
  { by right. }
  set (c' := c_set_ring o _) in *. exists c'. split.
  - rewrite (on_queue_eq _ _ a' tt evs Hrel Hev). by rewrite (bind_ok _ _ _ _ _ Hre).
  - pose proof (slots_length _ Hc) as L1. pose proof (slots_length _ Hok) as L2.
    assert (slots (arr c') = <[i := f]> (slots (arr (sys_conn y)))) as Hsl' by exact Hsl.
    apply put_ok_sys; try done.
    + split; [done|]. split; [done|]. intros j x Hj Hx. exists (waker x). rewrite Hsl', list_lookup_insert_ne by congruence.
      rewrite Hj. by destruct x.
    + apply world_ok_slots; [apply Hy|done].
    + rewrite (sk_tasks _ Hy), Hsl', length_insert. done.
    + intros j st Hj. apply (task_slot_move (sys_conn y)); [by rewrite Hsl', length_insert| |done|done|by apply (sk_slots _ Hy)].
      intros cid. rewrite Hsl'. pose proof (view_insert Executing 0 i _ s f Hs) as Hv. unfold tagged in Hv. cbn in Hv. rewrite Hst in Hv.
      rewrite !decide_False, !app_nil_r in Hv by done. by rewrite Hv.
    + rewrite Hsl'. pose proof (view_insert Responding 0 i _ s f Hs) as Hv. unfold tagged in Hv. cbn in Hv. rewrite Hst in Hv.
      rewrite decide_True, decide_False, app_nil_r in Hv by done. rewrite Hsent in Hv.
      apply (Permutation_app_inv_r [(i, sqe_cid (cmd s))]). rewrite Hv, !map_app. cbn. rewrite <- !app_assoc.
      apply Permutation_app_head, Permutation_app_head. unfold answer at 1. rewrite Hi, Hcid. apply Permutation_cons_append.
    + by apply list.Forall_app.
Qed.

Lemma outside_move_ok y c' :
  sys_ok y -> outside (sys_conn y) c' -> sys_ok (sys_with c' (sy_tasks y) (sy_sent y) y).
Proof.
  intros Hy (Ha & Hq & Hs & Hr & Had & Hg & Hw). pose proof (sys_conn_ok y Hy) as Hc.
  assert (conn_ok c') as Hc' by (destruct Hc; split; rewrite ?Ha, ?Hq, ?Hs, ?Hr; done).
  apply put_ok_sys; try done.
  - apply same_others; [done|by rewrite Hr|by rewrite Ha].
  - rewrite Ha. apply Hy.
  - intros i st Hi. apply (task_slot_move (sys_conn y)); [by rewrite Ha|by rewrite Ha|done|done|by apply (sk_slots _ Hy)].
  - rewrite Ha, Hs. apply Hy.
  - apply Hy.
Qed.

(** The reader's calls keep the ring, and the borrows it counts. *)
Lemma reader_ring_ok op r : ring_wf r -> reader_valid op r ->
  exists r', reader_ring op r = (r', Ok tt) /\ ring_wf r' /\ br_pending r' = br_pending r.
Proof.
  intros Hwf Hv. pose proof (wf_len _ Hwf) as (L1 & L2 & L3 & L4).
  assert (forall bid, 0 <= bid < NBUFS -> exists b, (b < 2)%nat /\ bid = Z.of_nat b) as Hbid by (intros bid Hb; exists (Z.to_nat bid); unfold NBUFS in Hb; lia).
  destruct op as [bid|bid len|since w]; cbn [reader_ring].
  - destruct (Hbid bid Hv) as (b & Hb & ->). unfold recv_done. rewrite get_bind.
    rewrite (bind_ok _ _ _ r (pend r b)) by (unfold lift; by rewrite (cell_ok _ b 0)). destruct (Z.eqb_spec (pend r b) 0) as [H0|H0].
    + destruct (provide_wf r b Hwf Hb H0) as (r' & Hr & Hwf' & Hp & _). by exists r'.
    + eexists. split; [reflexivity|]. split; [|done]. apply wf_bufs; try done; [by rewrite length_insert|apply (wf_pend _ Hwf)|apply (wf_roff _ Hwf)].
  - destruct Hv as (Hb0 & Hl & Hs). destruct (Hbid bid Hb0) as (b & Hb & ->). rewrite Nat2Z.id in Hs.
    pose proof (wf_roff _ Hwf b) as Hro. pose proof (wf_size _ Hwf) as (Hsz & _).
    unfold recv_advance, recv_off. rewrite (bind_ok _ _ _ r (roff r b)) by (rewrite get_bind; unfold lift; by rewrite (cell_ok _ b 0)).
    rewrite (bind_ok _ _ _ r (roff r b + len)) by (unfold lift; rewrite checked_ok; [done|split; lia]). rewrite bix_nat by done.
    eexists. split; [reflexivity|]. split; [|done]. apply wf_bufs; try done; [by rewrite length_insert|apply (wf_pend _ Hwf)|].
    intros b'. rewrite nth_put by done. case_decide; [lia|apply (wf_roff _ Hwf)].
  - unfold wait_for_provide_poll, mbind, M_bind, get. destruct (negb _); eexists; (split; [reflexivity|]); [done|]. by destruct Hwf.
Qed.

Lemma reader_move_ok y x op r :
  sys_ok y -> sy_rx y = RxIdle x -> c_ring (rx_conn x) = Some r -> reader_valid op r ->
  exists r', reader_ring op r = (r', Ok tt) /\ sys_ok (sys_with (c_set_ring (Some r') (rx_conn x)) (sy_tasks y) (sy_sent y) y).
Proof.
  intros Hy Hx Hr Hv. pose proof (sys_conn_ok y Hy) as Hc. assert (sys_conn y = rx_conn x) as Hcx by (by rewrite Hx). rewrite Hcx in Hc.
  pose proof (ck_ring _ _ Hc) as Hrc. rewrite Hr in Hrc. destruct Hrc as (Hwf & Ho & Hp).
  destruct (reader_ring_ok op r Hwf Hv) as (r' & He & Hwf' & Hp'). exists r'. split; [done|].
  assert (conn_ok (c_set_ring (Some r') (rx_conn x))) as Hc'.
  { destruct Hc. split; try done. split; [done|]. split; [done|]. unfold pend. rewrite Hp'. exact Hp. }
  pose proof (sk_world _ Hy) as Hw. pose proof (sk_tasks _ Hy) as Hl. pose proof (sk_slots _ Hy) as Hs. pose proof (sk_sent _ Hy) as Hsent.
  rewrite Hcx in *. apply put_ok_sys; try done; [|apply Hy]. rewrite Hcx. apply same_others; [done| |done]. rewrite Hr. by split; eexists.
Qed.

Lemma sys_step_ok y z : sys_ok y -> sys_step y z -> sys_ok z.
Proof.
  intros Hy Hst. destruct Hst as [x t rc sl x' w Hx Hrc He|x t rc k sl x' w Hx He|i t st c' st' Hi Hroom He|c' sent He|l1 co l2 c' Hs He|x op r r' Hx Hr Hv He|c' Ho].
  - pose proof (sk_rx _ Hy) as Hr. rewrite Hx in Hr.
    eapply (rx_move_ok y _ x x' Hy); [by rewrite Hx|by destruct w| |].
    + eapply rx_step_ok; [by apply (rx_window t dd x rc sl x' w)|done].
    + pose proof (recv_bytes_frame t dd rc sl x) as Hf. by rewrite He in Hf.
  - pose proof (sk_rx _ Hy) as Hr. rewrite Hx in Hr.
    eapply (rx_move_ok y _ x x' Hy); [by rewrite Hx|by destruct w| |].
    + eapply rx_step_ok; [by apply (rx_poll t dd x rc k sl x' w)|done].
    + pose proof (resume_capsule_frame t dd rc k sl x) as Hf. by rewrite He in Hf.
  - destruct (slot_move_ok y i t st Hy Hi Hroom) as (c1 & st1 & He1 & Hok). rewrite He in He1. by simplify_eq.
  - by apply take_move_ok.
  - destruct (release_move_ok y l1 co l2 Hy Hs) as (c1 & He1 & Hok). rewrite He in He1. by simplify_eq.
  - destruct (reader_move_ok y x op r Hy Hx Hr Hv) as (r1 & He1 & Hok). rewrite He in He1. by simplify_eq.
  - by apply outside_move_ok.
Qed.

(** ** A connection from its start *)

(** All tasks wait; nothing has been sent. *)
Definition sys_start (hdr_digest : bool) c : Sys :=
  {| sy_rx := RxIdle (rx_start hdr_digest c); sy_tasks := replicate (length (slots (arr c))) TaskIdle; sy_sent := [] |}.

Lemma sys_start_ok hd c :
  conn_ok c -> world_ok (c_world c) -> work (c_send c) = [] ->
  (forall i s, slots (arr c) !! i = Some s -> state s <> Executing /\ state s <> Responding) -> sys_ok (sys_start hd c).
Proof.
  intros Hc Hw Hs Hst. split; cbn; try done.
  - by apply rx_start_ok.
  - by rewrite length_replicate.
  - intros i st Hi. apply lookup_replicate in Hi as [-> Hlt]. destruct (lookup_lt_is_Some_2 _ _ Hlt) as [s Hi].
    exists s. split; [done|]. by apply (Hst i).
  - rewrite Hs. cbn. destruct (resp_view (arr c)) as [|[i cid] l] eqn:Hv; [done|].
    assert ((i, cid) ∈ resp_view (arr c)) as Hin by (rewrite Hv; by left).
    apply elem_of_view in Hin as (j & s & _ & Hj & Hsr & _). by destruct (Hst j s Hj).
Qed.

(** What the thread that runs the queue provides. *)
Definition thread_ok (port : PortConfig) (th : Thread B) : Prop :=
  reg_ok (th_registry th) /\ Forall store_ok (th_backends th) /\ port_ok (length (th_backends th)) port.

(** The receive ring [drive_recv] builds: none for the admin queue, or when
    [recv_buf_bytes] is zero; [data], [reg] and [ring_ok] are the answers of the
    allocator and of the reactor. *)
Definition recv_ring (bytes data : Z) (reg : nat -> option Z) (ring_ok : bool) (pool : BgidPool) : res never (option BufRing) :=
  if 0 <? bytes then (for_connection bytes data reg ring_ok pool).2 else Ok None.

(** A ring of less than 8 GiB, in the address space; or none. *)
Definition ring_at (bytes : Z) (o : option BufRing) : Prop :=
  exists data reg ring_ok pool,
    0 <= data /\ ring_buf_size bytes < 2 ^ 32 /\ data + 2 * ring_buf_size bytes < 2 ^ 64 /\ recv_ring bytes data reg ring_ok pool = Ok o.

(** A connection that is reached from the queue the handshake set up, in classic
    or in ring mode. *)
Definition reached (q : QueueConn) (port : PortConfig) (th : Thread B) (hd : bool) (y : Sys) : Prop :=
  exists c o, start_queue q port th = Ok c /\ ring_at (recv_buf_bytes q port) o /\ rtc sys_step (sys_start hd (c_set_ring o c)) y.

(** A new ring is well formed, and nothing borrows from it. *)
Lemma ring_at_ok n r : ring_at n (Some r) -> ring_wf r /\ forall b, pend r b = 0.
Proof.
  intros (data & reg & ok & pool & Hd & Hs & Ha & He). unfold recv_ring in He. destruct (0 <? n); [|done].
  unfold for_connection in He. destruct (alloc_bgid pool) as [pool' [bgid|]]; [|done]. destruct (build bgid true true n data reg ok) as [r'|?|] eqn:Hb; [|done..].
  cbn in He. injection He as ->. assert (ok = true) as -> by (destruct ok; [done|]; unfold build, mbind, res_bind in Hb; by destruct (register_all _ _ _ _ _)).
  assert (0 < ring_buf_size n) by (unfold ring_buf_size, PAGE; lia).
  pose proof (build_inv bgid true true n data reg r Hd ltac:(lia) Ha Hb) as [Hc _]. split; [exact (ri_wf _ _ Hc)|exact (ri_held _ _ Hc)].
Qed.

Lemma conn_ring_ok n c o : conn_ok c -> (forall i s x, slots (arr c) !! i = Some s -> owner (data s) <> ORing x) -> ring_at n o -> conn_ok (c_set_ring o c).
Proof.
  intros Hc Hno Ho. destruct Hc as [K1 K2 K3 K4 _ K6]. split; try done. destruct o as [r|]; [|done].
  destruct (ring_at_ok n r Ho) as [Hwf Hp]. split; [done|]. split; [intros i s x Hi Hx; by destruct (Hno i s x Hi)|].
  intros b Hb. rewrite Hp. assert (forall l : list (Slot Sqe), (forall i s x, l !! i = Some s -> owner (data s) <> ORing x) -> held (Z.of_nat b) l = 0%nat) as H0.
  { induction l as [|s l IH]; intros Hl; [done|]. cbn. rewrite borrows_other; [|intros x; by apply (Hl 0%nat)]. apply IH. intros i. apply (Hl (S i)). }
  cbn. rewrite H0; [done|exact Hno].
Qed.

(** No task panics in this state, whatever it does next. *)
Definition no_panic (y : Sys) : Prop :=
  (forall t, never_panics t dd (sy_rx y)) /\
  (forall i t st, sy_tasks y !! i = Some st -> room command_room (c_world (sys_conn y)) ->
     (slot_task_turn ring_index t (Z.of_nat i) st (sys_conn y)).2 <> Panic) /\
  (forall co, co ∈ sy_sent y -> (on_queue (E := never) (release_tag (co_tag co)) (sys_conn y)).2 <> Panic) /\
  (forall x op r, sy_rx y = RxIdle x -> c_ring (rx_conn x) = Some r -> reader_valid op r -> (reader_ring op r).2 <> Panic).

Lemma sys_no_panic y : sys_ok y -> no_panic y.
Proof.
  intros Hy. split; [|split; [|split]].
  - intros t. pose proof (sk_rx _ Hy) as Hr. destruct (sy_rx y) as [x|x rc k sl]; cbn in *.
    + intros rc sl Hrc Hp. pose proof (recv_bytes_ok x t dd rc sl Hr Hrc) as H. unfold ends in H.
      destruct (recv_bytes t dd rc sl x) as [x' q]. cbn in Hp. by subst q.
    + destruct Hr as (Hx & Hph & Hrc & Hk). intros He. pose proof (resume_capsule_ok x t dd rc k sl Hx Hph Hrc Hk) as H.
      unfold ends in H. destruct (resume_capsule t dd rc k sl x) as [x' q]. cbn in He. by subst q.
  - intros i t st Hi Hroom. destruct (slot_move_ok y i t st Hy Hi Hroom) as (c' & st' & -> & _). done.
  - intros co Hco. apply list_elem_of_split in Hco as (l1 & l2 & Hs). destruct (release_move_ok y l1 co l2 Hy Hs) as (c' & -> & _). done.
  - intros x op r Hx Hr Hv. destruct (reader_move_ok y x op r Hy Hx Hr Hv) as (r' & -> & _). done.
Qed.

Lemma reached_ok q port th hd y :
  setup_ok q port th -> thread_ok port th -> reached q port th hd y -> sys_ok y.
Proof.
  intros Hs (Hreg & Hbe & Hport) (c & o & He & Ho & Hr). pose proof Hs as ((Hn & _) & Hq & _).
  destruct (start_queue_spec q port th Hs) as (c0 & role & He0 & Hrole & Hc & Hsl & _ & _ & _ & Hwk & Hctx).
  rewrite He in He0. injection He0 as <-. injection Hctx as C1 C2 C3 C4 C5 C6.
  assert (forall i s, slots (arr c) !! i = Some s -> state s <> Executing /\ state s <> Responding /\ owner (data s) = OEmpty) as Hfresh.
  { intros i s Hi. rewrite Hsl in Hi. destruct (decide (i = 0%nat)) as [->|].
    - rewrite list_lookup_insert_eq in Hi by (rewrite length_replicate; lia). by injection Hi as <-.
    - rewrite list_lookup_insert_ne in Hi by done. by apply lookup_replicate in Hi as [-> _]. }
  assert (conn_ok (c_set_ring o c)) as Hc1 by (eapply conn_ring_ok; [exact Hc| |exact Ho]; intros i s x Hi; destruct (Hfresh i s Hi) as (_ & _ & ->); done).
  assert (sys_ok (sys_start hd (c_set_ring o c))) as H0.
  { apply sys_start_ok; [done| |done|].
    - change (world_ok (c_world c)). split; [apply (ck_core _ _ Hc)|apply (ck_slots _ _ Hc)|by rewrite C1|by rewrite C4|by rewrite C2, C4| |];
        rewrite ?C3, ?C4, ?C5; revert Hrole; unfold role_of; destruct (Z.eqb_spec (qn_qid q) 0); intros [= <-]; cbn; try done.
    - intros i s Hi. destruct (Hfresh i s Hi) as (? & ? & _). by split. }
  clear He Hc Hc1 Hfresh Ho Hsl Hwk C1 C2 C3 C4 C5 C6. induction Hr as [|x y z Hst _ IH]; [done|]. apply IH. by eapply sys_step_ok.
Qed.

(** C1. A connection never panics.  From the queue the handshake set up, in classic
    or in ring mode (a ring below 8 GiB), however the receive task, the slot tasks,
    the send task and the rest of the program interleave, whatever bytes the peer
    sends, whatever the commands ask for and whatever error the stores give to any
    call (they keep [Store], that is, they do not panic themselves on a valid
    range), every state reached satisfies the invariants of the receive path, of
    the dispatcher and of the slot engine, and in every such state no task panics,
    whatever it does next (as long as no statistics counter is about to wrap).  Of
    the send task, this is taking work and releasing slots, in any order; its own
    loop is in [SenderProofs]. *)
Theorem connection_safe q port th hd y :
  setup_ok q port th -> thread_ok port th -> reached q port th hd y -> sys_ok y /\ no_panic y.
Proof. intros Hs Ht Hr. pose proof (reached_ok q port th hd y Hs Ht Hr) as Hy. split; [done|by apply sys_no_panic]. Qed.

(** C2. Every command is answered once.  In every state a connection reaches, the
    responses in flight (queued for the send task, or taken by it and not yet
    released) are exactly the slots being answered, one each, with the identifier
    of the slot's command; a slot is inside dispatch exactly when its task is
    inside a command; and the turn in which a task finishes a command appends
    that command's response, with its identifier, and nothing else to the send
    list, also when a store fails the command.  The system is that of the previous
    claim: classic or ring mode, any interleaving, any store that keeps [Store],
    the send task as taking work and releasing slots. *)
Theorem answered_once q port th hd y :
  setup_ok q port th -> thread_ok port th -> reached q port th hd y ->
  let c := sys_conn y in
  let in_flight := answers (work (c_send c)) ++ map answer (sy_sent y) in
  NoDup in_flight.*1 /\
  (forall i cid, (i, cid) ∈ in_flight <->
     exists s, slots (arr c) !! i = Some s /\ state s = Responding /\ cid = sqe_cid (cmd s)) /\
  (forall i st s, sy_tasks y !! i = Some st -> slots (arr c) !! i = Some s ->
     (state s = Executing <-> st <> TaskIdle) /\
     (forall t c', state s = Ready \/ state s = Executing -> room command_room (c_world c) ->
        slot_task_turn ring_index t (Z.of_nat i) st c = (c', Ok TaskIdle) -> answered_with i (sqe_cid (cmd s)) c c')).
Proof.
  intros Hs Ht Hr c in_flight. pose proof (reached_ok q port th hd y Hs Ht Hr) as Hy.
  pose proof (sk_sent _ Hy) as Hsent. fold c in Hsent. fold in_flight in Hsent. split; [|split].
  - rewrite <- Hsent. apply view_NoDup.
  - intros i cid. rewrite <- Hsent, elem_of_view. split; [intros (j & s & -> & H)|intros (s & H)]; eauto.
  - intros i st s Hi Hsl. pose proof (sk_slots _ Hy i st Hi) as Hts. pose proof Hts as (s0 & Hs0 & Hst).
    change (slots (arr c) !! i = Some s0) in Hs0. rewrite Hsl in Hs0. injection Hs0 as <-. split.
    + destruct st as [|k]; [done|]. by destruct Hst.
    + intros t c' Hrd Hroom He.
      destruct (slot_turn_ok ring_index c i t st s (conj (sys_conn_ok y Hy) (sk_world _ Hy)) Hroom Hsl Hts)
        as (c1 & st1 & He1 & _ & _ & _ & _ & Hans). rewrite He in He1. injection He1 as <- <-. by apply Hans.
Qed.

End System.

#[local] Existing Instances Castagnoli.lib Castagnoli.laws.

(** An admin queue of four entries, its pool registered at index 3. *)
Definition demo_queue : QueueConn :=
  {| qn_hdr_digest := false; qn_data_digest := false; qn_qid := 0; qn_sqsize := 4; qn_sqhd_disabled := false;
     qn_connect_sqe := connect_sqe; qn_connect_data := demo_connect |}.

Definition demo_thread : Thread Memory.MemoryBackend :=
  {| th_arena := 0x200000; th_buf_index := Some 3; th_registry := w_registry (demo_world 0 (Admin demo_ad)); th_peer := [];
     th_backends := w_backends (demo_world 0 (Admin demo_ad)); th_mem := fun _ => Byte.x00; th_now := 1000; th_tid := 7;
     th_cpus := []; th_heap := 0x40000000 |}.

Lemma demo_setup : setup_ok demo_queue demo_port demo_thread.
Proof. split; [by vm_compute|]. split; [by vm_compute|]. split; [by vm_compute|]. split; [by vm_compute|]. split; by vm_compute. Qed.

Lemma demo_thread_ok : thread_ok (ST := memory_store) demo_port demo_thread.
Proof. destruct (demo_world_ok 0 (Admin demo_ad)) as [_ _ H1 H2 H3 _ _]; [by vm_compute|done|]. by split_and!. Qed.

Definition demo_conn : Conn Memory.MemoryBackend :=
  match start_queue demo_queue demo_port demo_thread with Ok c => c | _ => rx_conn_of slots0 end.

Lemma demo_conn_eq : start_queue demo_queue demo_port demo_thread = Ok demo_conn.
Proof. by destruct (start_queue_spec demo_queue demo_port demo_thread demo_setup) as (c & _ & He & _); unfold demo_conn; rewrite He. Qed.

Lemma demo_conn_ok : conn_ok demo_conn.
Proof.
  destruct (start_queue_spec demo_queue demo_port demo_thread demo_setup) as (c & _ & He & _ & Hc & _).
  rewrite demo_conn_eq in He. by injection He as <-.
Qed.

(** ** Setup *)

Lemma queue_starts_witness : exists c, start_queue demo_queue demo_port demo_thread = Ok c /\ idx (w_slots (c_world c)) = Some 3.
Proof.
  destruct (queue_starts demo_queue demo_port demo_thread demo_setup) as (c & s & He & _ & _ & _ & _ & _ & _ & Hi & _).
  by exists c.
Defined.

(** ** The whole connection *)

(** The Connect command is executed and its response taken by the send task. *)
Definition demo_turn : Conn Memory.MemoryBackend * res never SlotTask := slot_task_turn no_ring 1 0 TaskIdle demo_conn.

Lemma demo_turn_done : demo_turn.2 = Ok TaskIdle /\ map answer (taken demo_turn.1 []).2 = [(0%nat, sqe_cid connect_sqe)].
Proof. by vm_compute. Qed.

Lemma demo_turn_eq : slot_task_turn no_ring 1 (Z.of_nat 0) TaskIdle demo_conn = (demo_turn.1, Ok TaskIdle).
Proof. destruct demo_turn_done as [<- _]. unfold demo_turn. apply surjective_pairing. Qed.

Definition demo_sys : Sys (B := Memory.MemoryBackend) :=
  let y := sys_with demo_turn.1 (<[0%nat := TaskIdle]> (sy_tasks (sys_start false demo_conn))) [] (sys_start false demo_conn) in
  sys_with (taken demo_turn.1 []).1 (sy_tasks y) (taken demo_turn.1 []).2 y.

Lemma demo_classic : c_set_ring None demo_conn = demo_conn.
Proof.
  assert (c_ring demo_conn = None) as Hr by (by vm_compute). revert Hr. generalize demo_conn. intros [w l t r]. cbn. by intros ->.
Qed.

Lemma demo_no_ring : ring_at (recv_buf_bytes demo_queue demo_port) None.
Proof. exists 0, (fun _ => None), false, None. split; [lia|]. split; [by vm_compute|]. split; by vm_compute. Qed.

Lemma demo_steps : rtc (sys_step (ST := memory_store) no_ring false) (sys_start false demo_conn) demo_sys.
Proof.
  eapply rtc_l; [|eapply rtc_l; [|apply rtc_refl]].
  - apply (ss_slot no_ring false (sys_start false demo_conn) 0 1 TaskIdle demo_turn.1 TaskIdle); [by vm_compute| |].
    + intros c. destruct c; by vm_compute.
    + apply demo_turn_eq.
  - apply ss_take. apply surjective_pairing.
Qed.

Lemma demo_reached : reached (ST := memory_store) no_ring false demo_queue demo_port demo_thread false demo_sys.
Proof. exists demo_conn, None. rewrite demo_classic. split; [apply demo_conn_eq|]. split; [exact demo_no_ring|exact demo_steps]. Qed.

(** An IO queue of the same host on a port with receive rings of 1 MiB; the
    kernel has received 512 bytes into the first buffer. *)
Definition ring_port : PortConfig :=
  {| pc_traddr := pc_traddr demo_port; pc_trsvcid := pc_trsvcid demo_port; pc_trtype := Tcp; pc_max_qid := 4; pc_io_queue_size := 128;
     pc_queue_buf_bytes := 65536; pc_recv_buf_bytes := 1048576; pc_poll := false; pc_subsystems := pc_subsystems demo_port |}.
Definition io_queue : QueueConn :=
  {| qn_hdr_digest := false; qn_data_digest := false; qn_qid := 1; qn_sqsize := 4; qn_sqhd_disabled := false;
     qn_connect_sqe := connect_sqe; qn_connect_data := demo_connect |}.

Lemma io_setup : setup_ok io_queue ring_port demo_thread.
Proof. split; [by vm_compute|]. split; [by vm_compute|]. split; [by vm_compute|]. split; [by vm_compute|]. split; by vm_compute. Qed.

Lemma io_thread_ok : thread_ok (ST := memory_store) ring_port demo_thread.
Proof. exact demo_thread_ok. Qed.

Definition io_conn : Conn Memory.MemoryBackend :=
  match start_queue io_queue ring_port demo_thread with Ok c => c | _ => rx_conn_of slots0 end.
Definition io_ring : BufRing :=
  match recv_ring 1048576 0x50000000 (fun i => Some (Z.of_nat i)) true None with
  | Ok (Some r) => r
  | _ => {| br_bgid := 0; br_bgid_owned := false; br_data := 0; br_buf_size := 0; br_entries := []; br_tail := 0; br_shared_tail := 0; br_pending := [];
            br_awaiting := []; br_recv_off := []; br_provide_gen := 0; br_provide_waker := None; br_buf_index := []; br_woken := [] |}
  end.
Definition ring_sys : Sys (B := Memory.MemoryBackend) :=
  let c := c_set_ring (Some io_ring) io_conn in
  sys_with (c_set_ring (Some (reader_ring (RdAdvance 0 512) io_ring).1) (rx_conn (rx_start false c))) (sy_tasks (sys_start false c)) (sy_sent (sys_start false c))
    (sys_start false c).

Lemma io_conn_eq : start_queue io_queue ring_port demo_thread = Ok io_conn.
Proof. by destruct (start_queue_spec io_queue ring_port demo_thread io_setup) as (c & _ & He & _); unfold io_conn; rewrite He. Qed.

Lemma io_ring_at : ring_at (recv_buf_bytes io_queue ring_port) (Some io_ring).
Proof. exists 0x50000000, (fun i => Some (Z.of_nat i)), true, None. split; [lia|]. split; [by vm_compute|]. split; by vm_compute. Qed.

Lemma io_received : reader_valid (RdAdvance 0 512) io_ring /\ reader_ring (RdAdvance 0 512) io_ring = ((reader_ring (RdAdvance 0 512) io_ring).1, Ok tt).
Proof. split; [split; [by vm_compute|]; split; by vm_compute|]. apply ran. by vm_compute. Qed.

Lemma ring_reached : reached (ST := memory_store) no_ring false io_queue ring_port demo_thread false ring_sys.
Proof.
  exists io_conn, (Some io_ring). split; [exact io_conn_eq|]. split; [exact io_ring_at|]. apply rtc_once. destruct io_received as [Hv He].
  exact (ss_reader no_ring false (sys_start false (c_set_ring (Some io_ring) io_conn)) (rx_start false (c_set_ring (Some io_ring) io_conn))
    (RdAdvance 0 512) io_ring _ eq_refl eq_refl Hv He).
Qed.

Lemma connection_safe_witness :
  no_panic no_ring false demo_sys /\ c_ring (rx_conn (rx_state (sy_rx ring_sys))) <> None /\ no_panic no_ring false ring_sys.
Proof.
  split; [apply (connection_safe no_ring false demo_queue demo_port demo_thread false demo_sys demo_setup demo_thread_ok demo_reached)|].
  split; [discriminate|]. apply (connection_safe no_ring false io_queue ring_port demo_thread false ring_sys io_setup io_thread_ok ring_reached).
Defined.

Lemma answered_once_witness :
  exists s, slots (w_slots (c_world (rx_conn (rx_state (sy_rx demo_sys))))) !! 0%nat = Some s /\ state s = Responding /\
    sqe_cid connect_sqe = sqe_cid (cmd s).
Proof.
  destruct (answered_once no_ring false demo_queue demo_port demo_thread false demo_sys demo_setup demo_thread_ok demo_reached)
    as (_ & H & _).
  apply (H 0%nat (sqe_cid connect_sqe)). vm_compute. left.
Defined.

(** ** Teardown *)

Fixpoint polls (n : nat) (x : Td Memory.MemoryBackend) : Td Memory.MemoryBackend :=
  match n with O => x | S n => td_poll true true (polls n x) end.

Lemma polls_trace n x : td_trace n x (polls n x).
Proof. induction n; cbn; by constructor. Qed.

Lemma teardown_ends_witness : finished (polls (Z.to_nat 10001) (td_begin demo_conn false)).
Proof. apply (teardown_ends (Z.to_nat 10001) demo_conn false _ (polls_trace _ _)). lia. Defined.

Lemma teardown_frees_quiet_witness : td_unregistered (polls 1 (td_begin demo_conn true)) = Some 3.
Proof.
  pose proof (teardown_frees_quiet 1 demo_conn true _ demo_conn_ok (polls_trace _ _)) as H.
  assert (td_phase (polls 1 (td_begin demo_conn true)) = TdFreed) as Hp by (by vm_compute).
  rewrite Hp in H. destruct H as (_ & _ & -> & _). by vm_compute.
Defined.

Lemma teardown_outcome_witness : td_phase (td_poll true true (td_begin demo_conn true)) <> TdLeaked.
Proof.
  destruct (teardown_outcome 0 demo_conn true (td_begin demo_conn true) true true demo_conn_ok (polls_trace 0 _)) as (H & _).
  - by intros [?|?].
  - left. by vm_compute.
  - intros Hl. destruct (proj1 H Hl) as [(i & s & Hi & Hs)|Hd]; [|discriminate Hd].
    assert (Forall (fun s => state s <> Executing) (slots (w_slots (c_world (td_conn (td_begin demo_conn true)))))) as Hall.
    { apply (bool_decide_eq_true _). by vm_compute. }
    rewrite Forall_lookup in Hall. by apply (Hall i s).
Defined.

(** ** Keep-alive *)

Definition busy_io : Conn Memory.MemoryBackend :=
  c_set_world (set_registry {| cntlid_min := 1; cntlid_max := 100; next_cntlid := 1; controllers := empty; flags := [false] |}
    (set_role (IoQueue {| io_cntlid := 1; io_subsys := None; io_ns_cache := NsCache_default; io_traffic := Some 0%nat;
                          io_kato_ms := 5000 |}) (c_world demo_conn))) demo_conn.

Lemma beacon_feeds_watchdog_witness : exists c', beacon_wake busy_io = (c', Ok false) /\ c_traffic c' = false.
Proof.
  destruct (beacon_feeds_watchdog busy_io _ 0 eq_refl eq_refl) as (c' & He & Ht & _); [vm_compute; lia|]. by exists c'.
Defined.
