(* ===== verification/CpuSet.v ===== *)
(** * [ioutgt-cpus/src/cpuset.rs]: sets of CPUs

    A growable vector of 64-bit words, the mask operations, iteration, and the
    kernel's cpulist text ("0-3,8"), read and printed.  CPU ids are [nat]; text
    is the list of its characters' code points.  Growing is not bounded by the
    memory of the machine. *)

From S2P Require Import Prelude FabricsExec.

Abbreviation text := (list Z).

Definition BITS_PER_WORD : nat := 64.

Record CpuSet := { words : list Z }.

Definition CpuSet_new : CpuSet := {| words := [] |}.

(** [1u64 << (cpu % BITS_PER_WORD)]. *)
Definition bit_of (cpu : nat) : Z := Z.shiftl 1 (Z.of_nat (cpu mod BITS_PER_WORD)).

(** [Vec::resize] to at least [n] words. *)
Definition grown (n : nat) (ws : list Z) : list Z := ws ++ replicate (n - length ws) 0.

Definition CpuSet_set (cpu : nat) (s : CpuSet) : CpuSet :=
  let word := (cpu / BITS_PER_WORD)%nat in
  let ws := if (length (words s) <=? word)%nat then grown (word + 1) (words s) else words s in
  {| words := alter (fun w => Z.lor w (bit_of cpu)) word ws |}.

(** [!] on a word. *)
Definition not64 (w : Z) : Z := wrap 64 (Z.lnot w).

Definition CpuSet_clear (cpu : nat) (s : CpuSet) : CpuSet :=
  {| words := alter (fun w => Z.land w (not64 (bit_of cpu))) (cpu / BITS_PER_WORD)%nat (words s) |}.

Definition CpuSet_test (s : CpuSet) (cpu : nat) : bool :=
  match words s !! (cpu / BITS_PER_WORD)%nat with
  | Some w => negb (Z.land w (bit_of cpu) =? 0)
  | None => false
  end.

(** The bits of a word, in ascending order. *)
Definition word_bits (w : Z) : list nat :=
  List.filter (fun b => negb (Z.land w (Z.shiftl 1 (Z.of_nat b)) =? 0)) (seq 0 BITS_PER_WORD).

Definition count_ones (w : Z) : nat := length (word_bits w).

Definition CpuSet_weight (s : CpuSet) : nat := sum_list (map count_ones (words s)).

Definition CpuSet_is_empty (s : CpuSet) : bool := forallb (fun w => w =? 0) (words s).

Definition CpuSet_iter (s : CpuSet) : list nat :=
  mjoin (imap (fun i w => map (fun b => (i * BITS_PER_WORD + b)%nat) (word_bits w)) (words s)).

Definition CpuSet_first (s : CpuSet) : option nat := head (CpuSet_iter s).

(** [u64::leading_zeros]: the width less the bit length. *)
Definition leading_zeros (w : Z) : nat := if w =? 0 then 64 else (63 - Z.to_nat (Z.log2 w))%nat.

Definition CpuSet_last (s : CpuSet) : option nat :=
  match List.find (fun iw => negb (snd iw =? 0)) (rev (imap pair (words s))) with
  | Some (i, w) => Some (i * BITS_PER_WORD + (BITS_PER_WORD - 1 - leading_zeros w))%nat
  | None => None
  end.

Definition CpuSet_and (s other : CpuSet) : CpuSet := {| words := zip_with Z.land (words s) (words other) |}.

Definition word_at (s : CpuSet) (i : nat) : Z := default 0 (words s !! i).

Definition CpuSet_or (s other : CpuSet) : CpuSet :=
  {| words := map (fun i => Z.lor (word_at s i) (word_at other i)) (seq 0 (length (words s) `max` length (words other))) |}.

Definition CpuSet_andnot (s other : CpuSet) : CpuSet :=
  {| words := imap (fun i a => Z.land a (not64 (word_at other i))) (words s) |}.

Definition CpuSet_intersects (s other : CpuSet) : bool :=
  existsb (fun ab => negb (Z.land (fst ab) (snd ab) =? 0)) (zip (words s) (words other)).

Definition from_iter (l : list nat) : CpuSet := fold_left (fun s cpu => CpuSet_set cpu s) l CpuSet_new.

(** ** Text *)

Inductive CpuListError := InvalidRange (part : text).

Definition comma : Z := 44.
Definition dash : Z := 45.
Definition plus : Z := 43.

Fixpoint trim_start (s : text) : text :=
  match s with c :: r => if is_whitespace c then trim_start r else s | [] => [] end.
(** [str::trim]. *)
Definition trim (s : text) : text := rev (trim_start (rev (trim_start s))).

(** [str::split] at a character. *)
Fixpoint split (sep : Z) (s : text) : list text :=
  match s with
  | [] => [[]]
  | c :: r =>
      if c =? sep then [] :: split sep r
      else match split sep r with p :: ps => (c :: p) :: ps | [] => [[c]] end
  end.

(** [str::split_once] at a character. *)
Fixpoint split_once (sep : Z) (s : text) : option (text * text) :=
  match s with
  | [] => None
  | c :: r => if c =? sep then Some ([], r) else '(a, b) ← split_once sep r; Some (c :: a, b)
  end.

(** [str::parse::<usize>]: an optional sign, at least one digit, no overflow. *)
Fixpoint parse_digits (acc : Z) (s : text) : option Z :=
  match s with
  | [] => Some acc
  | c :: r =>
      if (48 <=? c) && (c <=? 57) && (acc * 10 + (c - 48) <? 2 ^ 64) then parse_digits (acc * 10 + (c - 48)) r else None
  end.
Definition parse_usize (s : text) : option nat :=
  match s with
  | [] => None
  | c :: r => Z.to_nat <$> (if (c =? plus) && negb (bool_decide (r = [])) then parse_digits 0 r else parse_digits 0 s)
  end.

Definition from_part (part : text) (s : CpuSet) : res CpuListError CpuSet :=
  let '(lo, hi) := match split_once dash part with Some p => p | None => (part, part) end in
  lo ← ok_or (parse_usize lo) (InvalidRange part);
  hi ← ok_or (parse_usize hi) (InvalidRange part);
  if (hi <? lo)%nat then Err (InvalidRange part)
  else Ok (fold_left (fun s cpu => CpuSet_set cpu s) (seq lo (hi + 1 - lo)) s).

Fixpoint from_parts (parts : list text) (s : CpuSet) : res CpuListError CpuSet :=
  match parts with
  | [] => Ok s
  | p :: ps => s ← from_part p s; from_parts ps s
  end.

Definition from_cpulist (s : text) : res CpuListError CpuSet :=
  from_parts (List.filter (fun p => negb (bool_decide (p = []))) (split comma (trim s))) CpuSet_new.

(** A [usize] in decimal; twenty digits are enough for 64 bits. *)
Fixpoint decimal (fuel : nat) (n : Z) (acc : text) : text :=
  match fuel with
  | O => acc
  | S fuel =>
      let acc := 48 + n mod 10 :: acc in
      if n / 10 =? 0 then acc else decimal fuel (n / 10) acc
  end.
Definition print_usize (n : nat) : text := decimal 20 (Z.of_nat n) [].

(** The formatter: what is written, and whether nothing is yet. *)
Definition flush (f : text * bool) (lo hi : nat) : text * bool :=
  let '(out, fst_) := f in
  let sep := if fst_ : bool then [] else [comma] in
  (out ++ sep ++ (if (lo =? hi)%nat then print_usize lo else print_usize lo ++ [dash] ++ print_usize hi), false).

Definition fmt_step (st : (text * bool) * option (nat * nat)) (cpu : nat) : (text * bool) * option (nat * nat) :=
  let '(f, run) := st in
  match run with
  | Some (lo, hi) => if (cpu =? hi + 1)%nat then (f, Some (lo, cpu)) else (flush f lo hi, Some (cpu, cpu))
  | None => (f, Some (cpu, cpu))
  end.

(** [to_string]. *)
Definition CpuSet_fmt (s : CpuSet) : text :=
  let '(f, run) := fold_left fmt_step (CpuSet_iter s) (([], true), None) in
  fst (match run with Some (lo, hi) => flush f lo hi | None => f end).
