(* ===== verification/CpuSetProofs.v ===== *)
(** * CPU sets are finite sets, and their text can be read back

    Each operation on the words as membership; [iter] is the increasing list of
    the members; the cpulist written by the formatter is parsed to the same set. *)

From Stdlib Require Import Sorting.Sorted.
From S2P Require Import Prelude FabricsExec CpuSet.

(** ** Bits *)

Lemma land_bit w b : 0 <= b -> negb (Z.land w (Z.shiftl 1 b) =? 0) = Z.testbit w b.
Proof.
  intros Hb. rewrite Z.shiftl_mul_pow2, Z.mul_1_l by done. destruct (Z.testbit w b) eqn:Ht.
  - destruct (Z.eqb_spec (Z.land w (2 ^ b)) 0) as [He|]; [|done]. exfalso.
    assert (Z.testbit (Z.land w (2 ^ b)) b = false) as Hf by (rewrite He; apply Z.bits_0).
    rewrite Z.land_spec, Z.pow2_bits_true, Ht in Hf; done.
  - replace (Z.land w (2 ^ b)) with 0; [done|]. apply Z.bits_inj'. intros n Hn.
    rewrite Z.bits_0, Z.land_spec. destruct (decide (n = b)) as [->|Hne]; [by rewrite Ht|].
    by rewrite Z.pow2_bits_false, andb_false_r by done.
Qed.

Definition wf (s : CpuSet) : Prop := Forall (in_u 64) (words s).

Lemma test_spec s cpu : CpuSet_test s cpu = Z.testbit (word_at s (cpu / 64)) (Z.of_nat (cpu mod 64)).
Proof.
  unfold CpuSet_test, word_at, bit_of. change BITS_PER_WORD with 64%nat.
  destruct (words s !! (cpu / 64)%nat) as [w|]; cbn; [|by rewrite Z.bits_0]. apply land_bit. lia.
Qed.

Lemma cpu_split cpu : cpu = (cpu / 64 * 64 + cpu mod 64)%nat /\ (cpu mod 64 < 64)%nat.
Proof. pose proof (Nat.div_mod_eq cpu 64). pose proof (Nat.mod_upper_bound cpu 64). lia. Qed.

Lemma split_cpu i b : (b < 64)%nat -> ((i * 64 + b) / 64 = i /\ (i * 64 + b) mod 64 = b)%nat.
Proof.
  intros Hb. rewrite Nat.add_comm, Nat.div_add, Nat.Div0.mod_add, Nat.div_small, Nat.mod_small by lia. lia.
Qed.

Lemma word_in s i : wf s -> in_u 64 (word_at s i).
Proof.
  intros Hw. unfold word_at. destruct (words s !! i) as [w|] eqn:Hi; cbn; [|split; lia].
  eapply Forall_lookup_1 in Hi; [|exact Hw]. done.
Qed.

Lemma bits_u64 w : in_u 64 w <-> 0 <= w /\ forall b, 64 <= b -> Z.testbit w b = false.
Proof.
  split.
  - intros [H0 H1]. split; [done|]. intros b Hb. destruct (decide (w = 0)) as [->|]; [apply Z.bits_0|].
    apply Z.bits_above_log2; [done|]. apply Z.lt_le_trans with 64; [|done]. apply Z.log2_lt_pow2; lia.
  - intros [H0 Hb]. split; [done|]. destruct (decide (w = 0)) as [->|Hn]; [done|].
    apply Z.log2_lt_pow2; [lia|]. destruct (Z_lt_le_dec (Z.log2 w) 64) as [|Hl]; [done|].
    pose proof (Z.bit_log2 w ltac:(lia)) as Hx. by rewrite Hb in Hx.
Qed.

Lemma word_zero w : in_u 64 w -> (forall b, (b < 64)%nat -> Z.testbit w (Z.of_nat b) = false) -> w = 0.
Proof.
  intros Hw Hb. apply Z.bits_inj'. intros n Hn. rewrite Z.bits_0.
  destruct (Z_lt_le_dec n 64) as [Hl|Hl]; [|by apply bits_u64]. specialize (Hb (Z.to_nat n)).
  rewrite Z2Nat.id in Hb by done. apply Hb. lia.
Qed.

Lemma land_u64 v w : in_u 64 v -> in_u 64 (Z.land v w).
Proof.
  intros Hv. apply bits_u64 in Hv as [H0 H1]. apply bits_u64. split; [by apply Z.land_nonneg; left|].
  intros b Hb. by rewrite Z.land_spec, H1.
Qed.

Lemma lor_u64 v w : in_u 64 v -> in_u 64 w -> in_u 64 (Z.lor v w).
Proof.
  intros [V0 V1]%bits_u64 [W0 W1]%bits_u64. apply bits_u64. split; [by apply Z.lor_nonneg|].
  intros b Hb. by rewrite Z.lor_spec, V1, W1.
Qed.

Lemma bit_of_u64 cpu : in_u 64 (bit_of cpu).
Proof.
  unfold bit_of. change BITS_PER_WORD with 64%nat. destruct (cpu_split cpu) as [_ Hb].
  rewrite Z.shiftl_mul_pow2, Z.mul_1_l by lia. split; [lia|]. apply Z.pow_lt_mono_r; lia.
Qed.

Lemma not64_bit w b : 0 <= b < 64 -> Z.testbit (not64 w) b = negb (Z.testbit w b).
Proof. intros Hb. unfold not64, wrap. rewrite Z.mod_pow2_bits_low by lia. apply Z.lnot_spec. lia. Qed.

Lemma bit_of_spec cpu b : 0 <= b -> Z.testbit (bit_of cpu) b = (b =? Z.of_nat (cpu mod 64)).
Proof.
  intros Hb. unfold bit_of. change BITS_PER_WORD with 64%nat. rewrite Z.shiftl_mul_pow2, Z.mul_1_l by lia.
  rewrite Z.pow2_bits_eqb by lia. apply Z.eqb_sym.
Qed.

(** ** Membership after each operation *)

#[local] Arguments Nat.div : simpl never.
#[local] Arguments Nat.modulo : simpl never.

Lemma same_bit cpu c : (cpu / 64 = c / 64)%nat -> (Z.of_nat (c mod 64) =? Z.of_nat (cpu mod 64)) = bool_decide (c = cpu).
Proof.
  intros He. destruct (cpu_split cpu) as [H1 _], (cpu_split c) as [H2 _].
  case_bool_decide; [subst; apply Z.eqb_refl|]. apply Z.eqb_neq. intros Hx. apply Nat2Z.inj in Hx. lia.
Qed.

Lemma zeros_word n ws i : default 0 ((ws ++ replicate n 0) !! i) = default 0 (ws !! i).
Proof.
  destruct (decide (i < length ws)%nat) as [Hl|Hl]; [by rewrite lookup_app_l|].
  rewrite lookup_app_r, (lookup_ge_None_2 ws) by lia. destruct (replicate _ _ !! _) eqn:Hr; [|done].
  by apply lookup_replicate in Hr as [-> _].
Qed.

Lemma test_set cpu s c : CpuSet_test (CpuSet_set cpu s) c = bool_decide (c = cpu) || CpuSet_test s c.
Proof.
  rewrite !test_spec. unfold CpuSet_set, word_at. cbn [words]. change BITS_PER_WORD with 64%nat.
  set (ws := if (length (words s) <=? cpu / 64)%nat then grown (cpu / 64 + 1) (words s) else words s).
  assert (forall i, default 0 (ws !! i) = default 0 (words s !! i)) as Hws.
  { intros i. unfold ws. destruct (Nat.leb_spec (length (words s)) (cpu / 64)); [apply zeros_word|done]. }
  assert (cpu / 64 < length ws)%nat as Hlen.
  { unfold ws, grown. destruct (Nat.leb_spec (length (words s)) (cpu / 64)); [|lia]. rewrite length_app, length_replicate. lia. }
  destruct (decide (c / 64 = cpu / 64)%nat) as [He|He].
  - rewrite He, list_lookup_alter_eq, <- Hws. destruct (lookup_lt_is_Some_2 ws _ Hlen) as [w Hw]. rewrite Hw. cbn.
    rewrite Z.lor_spec, bit_of_spec, (same_bit cpu c) by lia. apply orb_comm.
  - rewrite list_lookup_alter_ne, Hws, bool_decide_false by congruence. done.
Qed.

Lemma test_clear cpu s c : CpuSet_test (CpuSet_clear cpu s) c = negb (bool_decide (c = cpu)) && CpuSet_test s c.
Proof.
  rewrite !test_spec. unfold CpuSet_clear, word_at. cbn [words]. change BITS_PER_WORD with 64%nat.
  destruct (decide (c / 64 = cpu / 64)%nat) as [He|He].
  - rewrite He, list_lookup_alter_eq. destruct (words s !! (cpu / 64)%nat) as [w|]; cbn; [|by rewrite Z.bits_0, andb_false_r].
    destruct (cpu_split c) as [_ Hb]. rewrite Z.land_spec, not64_bit, bit_of_spec, (same_bit cpu c) by lia. apply andb_comm.
  - rewrite list_lookup_alter_ne, bool_decide_false by congruence. done.
Qed.

Lemma test_and s t c : CpuSet_test (CpuSet_and s t) c = CpuSet_test s c && CpuSet_test t c.
Proof.
  rewrite !test_spec, <- Z.land_spec. f_equal. unfold word_at, CpuSet_and. cbn [words]. rewrite lookup_zip_with.
  destruct (words s !! _) as [v|], (words t !! _) as [w|]; cbn; by rewrite ?Z.land_0_r.
Qed.

Lemma test_or s t c : CpuSet_test (CpuSet_or s t) c = CpuSet_test s c || CpuSet_test t c.
Proof.
  rewrite !test_spec, <- Z.lor_spec. f_equal. unfold CpuSet_or, word_at at 1. cbn [words].
  change (map ?f ?l) with (f <$> l). rewrite list_lookup_fmap.
  destruct (decide (c / 64 < length (words s) `max` length (words t))%nat) as [Hl|Hl].
  - by rewrite lookup_seq_lt.
  - rewrite lookup_seq_ge by lia. unfold word_at. by rewrite !lookup_ge_None_2 by lia.
Qed.

Lemma test_andnot s t c : CpuSet_test (CpuSet_andnot s t) c = CpuSet_test s c && negb (CpuSet_test t c).
Proof.
  rewrite !test_spec. unfold word_at. unfold CpuSet_andnot at 1. cbn [words]. rewrite list_lookup_imap.
  destruct (words s !! (c / 64)%nat) as [w|]; cbn; [|by rewrite Z.bits_0].
  destruct (cpu_split c) as [_ Hb]. by rewrite Z.land_spec, not64_bit by lia.
Qed.

Lemma test_new c : CpuSet_test CpuSet_new c = false.
Proof. rewrite test_spec. unfold word_at. cbn [words CpuSet_new]. rewrite lookup_nil. apply Z.bits_0. Qed.

Create Rewrite HintDb cpus.
#[export] Hint Rewrite test_set test_clear test_and test_or test_andnot test_new : cpus.

(** ** Well-formed words *)

Lemma set_wf cpu s : wf s -> wf (CpuSet_set cpu s).
Proof.
  intros Hw. unfold wf, CpuSet_set. cbn [words]. apply Forall_alter.
  - destruct (_ <=? _)%nat; [|done]. apply list.Forall_app. split; [done|]. apply list.Forall_replicate. split; lia.
  - intros w _ Hin. apply lor_u64; [done|apply bit_of_u64].
Qed.

Lemma clear_wf cpu s : wf s -> wf (CpuSet_clear cpu s).
Proof.
  intros Hw. apply Forall_alter; [done|]. intros w _ Hin. by apply land_u64.
Qed.

Lemma and_wf s t : wf s -> wf (CpuSet_and s t).
Proof.
  intros Hs. unfold wf, CpuSet_and. cbn [words]. apply Forall_lookup. intros i w Hi.
  rewrite lookup_zip_with in Hi. destruct (words s !! i) as [a|] eqn:Ha; [|done].
  destruct (words t !! i) as [b|]; [|done]. injection Hi as <-.
  eapply Forall_lookup_1 in Ha; [|exact Hs]. by apply land_u64.
Qed.

Lemma or_wf s t : wf s -> wf t -> wf (CpuSet_or s t).
Proof. intros Hs Ht. apply Forall_forall. intros w (i & -> & _)%list_elem_of_In%list_elem_of_fmap. apply lor_u64; by apply word_in. Qed.

Lemma andnot_wf s t : wf s -> wf (CpuSet_andnot s t).
Proof.
  intros Hs. apply Forall_lookup. intros i w Hi. cbn in Hi. rewrite list_lookup_imap in Hi.
  destruct (words s !! i) as [a|] eqn:Ha; [|done]. injection Hi as <-.
  eapply Forall_lookup_1 in Ha; [|exact Hs]. by apply land_u64.
Qed.

Lemma cpu_new_wf : wf CpuSet_new.
Proof. constructor. Qed.

#[export] Hint Resolve set_wf clear_wf and_wf or_wf andnot_wf cpu_new_wf : ioutgt.

(** ** Iteration *)

Lemma elem_of_bits w b : b ∈ word_bits w <-> (b < 64)%nat /\ Z.testbit w (Z.of_nat b) = true.
Proof.
  unfold word_bits. rewrite list_elem_of_In, filter_In, land_bit, in_seq by lia. change BITS_PER_WORD with 64%nat. intuition lia.
Qed.

Lemma elem_of_map {A B} (f : A -> B) l y : y ∈ map f l <-> exists x, y = f x /\ x ∈ l.
Proof. rewrite list_elem_of_In, in_map_iff. setoid_rewrite list_elem_of_In. naive_solver. Qed.

Lemma elem_of_iter s c : c ∈ CpuSet_iter s <-> CpuSet_test s c = true.
Proof.
  unfold CpuSet_iter, BITS_PER_WORD. rewrite list_elem_of_join, test_spec. split.
  - intros (l & Hc & Hl). apply elem_of_lookup_imap in Hl as (i & w & -> & Hi).
    apply elem_of_map in Hc as (b & -> & (Hb & Ht)%elem_of_bits). destruct (split_cpu i b Hb) as [-> ->].
    unfold word_at. by rewrite Hi.
  - intros Ht. unfold word_at in Ht. destruct (cpu_split c) as [Hc Hb]. revert Hc Ht Hb.
    generalize (c mod 64)%nat as b. generalize (c / 64)%nat as i. intros i b -> Ht Hb.
    destruct (words s !! i) as [w|] eqn:Hi; cbn in Ht; [|by rewrite Z.bits_0 in Ht].
    exists (map (fun b => (i * 64 + b)%nat) (word_bits w)).
    split; [|apply elem_of_lookup_imap; by exists i, w]. apply elem_of_map. exists b. split; [done|]. by apply elem_of_bits.
Qed.

Lemma seq_sorted a n : StronglySorted lt (seq a n).
Proof.
  revert a. induction n as [|n IH]; intros a; cbn; constructor; [apply IH|]. apply List.Forall_forall. intros x Hx%in_seq. lia.
Qed.

Lemma filter_sorted (f : nat -> bool) l : StronglySorted lt l -> StronglySorted lt (List.filter f l).
Proof.
  induction 1 as [|x l Hl IH Hx]; cbn; [constructor|]. destruct (f x); [|done]. constructor; [done|].
  rewrite List.Forall_forall in Hx |- *. intros y [Hy _]%filter_In. by apply Hx.
Qed.

Lemma app_sorted (l k : list nat) :
  StronglySorted lt l -> StronglySorted lt k -> (forall x y, x ∈ l -> y ∈ k -> (x < y)%nat) -> StronglySorted lt (l ++ k).
Proof.
  induction 1 as [|x l Hl IH Hx]; cbn; intros Hk Hlt; [done|]. constructor.
  - apply IH; [done|]. intros a b Ha Hb. apply Hlt; [by right|done].
  - apply list.Forall_app. split; [done|]. apply list.Forall_forall. intros y Hy. apply Hlt; [by left|done].
Qed.

Lemma map_sorted (f : nat -> nat) l : (forall x y, (x < y)%nat -> (f x < f y)%nat) -> StronglySorted lt l -> StronglySorted lt (map f l).
Proof.
  intros Hf. induction 1 as [|x l Hl IH Hx]; cbn; constructor; [done|]. apply List.Forall_map. eapply Forall_impl; [|exact Hx]. auto.
Qed.

Lemma bits_sorted w : StronglySorted lt (word_bits w).
Proof. apply filter_sorted, seq_sorted. Qed.

Lemma bits_length w : length (word_bits w) = count_ones w.
Proof. exact eq_refl. Qed.

#[local] Opaque word_bits count_ones.

Lemma iter_from (k : nat) ws :
  let l := mjoin (imap (fun i w => map (fun b => ((k + i) * 64 + b)%nat) (word_bits w)) ws) in
  StronglySorted lt l /\ Forall (fun c => (k * 64 <= c)%nat) l /\ length l = sum_list (map count_ones ws).
Proof.
  revert k. induction ws as [|w ws IH]; intros k; cbn; [split_and!; constructor|].
  destruct (IH (S k)) as (Hs & Hf & Hl).
  rewrite (imap_ext _ (fun i w0 => map (fun b => ((S k + i) * 64 + b)%nat) (word_bits w0))) by (intros; cbn; apply map_ext; intros; lia).
  assert (Forall (fun c => (k * 64 <= c < S k * 64)%nat) (map (fun b => ((k + 0) * 64 + b)%nat) (word_bits w))) as Hw.
  { apply List.Forall_map, list.Forall_forall. intros b [Hb _]%elem_of_bits. lia. }
  split; [|split].
  - apply app_sorted; [apply map_sorted; [lia|apply bits_sorted]|done|]. intros x y Hx Hy.
    rewrite list.Forall_forall in Hw, Hf. specialize (Hw _ Hx). specialize (Hf _ Hy). lia.
  - apply list.Forall_app. split; [eapply Forall_impl; [|exact Hw]|eapply Forall_impl; [|exact Hf]]; cbn; intros; lia.
  - rewrite length_app, length_map, bits_length. f_equal. exact Hl.
Qed.

Lemma iter_sorted s : StronglySorted lt (CpuSet_iter s).
Proof. apply (iter_from 0 (words s)). Qed.

Lemma iter_length s : length (CpuSet_iter s) = CpuSet_weight s.
Proof. apply (iter_from 0 (words s)). Qed.

Lemma sorted_NoDup (l : list nat) : StronglySorted lt l -> NoDup l.
Proof. induction 1 as [|x l Hl IH Hx]; constructor; [|done]. intros Hin. rewrite list.Forall_forall in Hx. specialize (Hx _ Hin). lia. Qed.

Lemma iter_NoDup s : NoDup (CpuSet_iter s).
Proof. apply sorted_NoDup, iter_sorted. Qed.

(** Two ascending lists with the same members are equal. *)
Lemma sorted_unique (l k : list nat) :
  StronglySorted lt l -> StronglySorted lt k -> (forall x, x ∈ l <-> x ∈ k) -> l = k.
Proof.
  intros Hl. revert k. induction Hl as [|x l Hl IH Hx]; intros k Hk Heq.
  - destruct k as [|y k]; [done|]. exfalso. assert (y ∈ []) as H by (apply Heq; by left). by apply elem_of_nil in H.
  - destruct Hk as [|y k Hk Hy]; [exfalso; assert (x ∈ []) as H by (apply Heq; by left); by apply elem_of_nil in H|].
    rewrite list.Forall_forall in Hx, Hy.
    assert (x = y) as ->.
    { assert (x ∈ y :: k) as H1 by (apply Heq; by left). assert (y ∈ x :: l) as H2 by (apply Heq; by left).
      apply elem_of_cons in H1 as [->|H1]; [done|]. apply elem_of_cons in H2 as [->|H2]; [done|].
      specialize (Hy _ H1). specialize (Hx _ H2). lia. }
    f_equal. apply IH; [done|]. intros z. split; intros Hz.
    + assert (z ∈ y :: k) as H by (apply Heq; by right). apply elem_of_cons in H as [->|]; [|done]. specialize (Hx _ Hz). lia.
    + assert (z ∈ y :: l) as H by (apply Heq; by right). apply elem_of_cons in H as [->|]; [|done]. specialize (Hy _ Hz). lia.
Qed.

Lemma iter_ext s t : (forall c, CpuSet_test s c = CpuSet_test t c) -> CpuSet_iter s = CpuSet_iter t.
Proof. intros H. apply sorted_unique; [apply iter_sorted..|]. intros x. by rewrite !elem_of_iter, H. Qed.

Lemma test_word s c w : wf s -> words s !! (c / 64)%nat = Some w -> CpuSet_test s c = Z.testbit w (Z.of_nat (c mod 64)).
Proof. intros _ Hi. rewrite test_spec. unfold word_at. by rewrite Hi. Qed.

Lemma word_nonzero w : in_u 64 w -> w <> 0 -> exists b, (b < 64)%nat /\ Z.testbit w (Z.of_nat b) = true.
Proof.
  intros Hw Hn. exists (Z.to_nat (Z.log2 w)). pose proof (Z.log2_nonneg w). destruct Hw as [H0 H1].
  assert (Z.log2 w < 64) by (apply Z.log2_lt_pow2; lia). split; [lia|]. rewrite Z2Nat.id by done. apply Z.bit_log2. lia.
Qed.

Lemma is_empty_spec s : wf s -> CpuSet_is_empty s = true <-> forall c, CpuSet_test s c = false.
Proof.
  intros Hw. unfold CpuSet_is_empty. rewrite forallb_forall. split.
  - intros H c. rewrite test_spec. unfold word_at. destruct (words s !! (c / 64)%nat) as [w|] eqn:Hi; cbn; [|apply Z.bits_0].
    assert (w = 0) as -> by (apply Z.eqb_eq, H, list_elem_of_In; by eapply list_elem_of_lookup_2). apply Z.bits_0.
  - intros H w Hin%list_elem_of_In. apply list_elem_of_lookup in Hin as [i Hi]. apply Z.eqb_eq.
    apply word_zero; [by eapply Forall_lookup_1 in Hi|]. intros b Hb. specialize (H (i * 64 + b)%nat).
    rewrite test_spec in H. destruct (split_cpu i b Hb) as [-> ->] in H. unfold word_at in H. by rewrite Hi in H.
Qed.

Lemma intersects_spec s t : wf s -> CpuSet_intersects s t = true <-> exists c, CpuSet_test s c = true /\ CpuSet_test t c = true.
Proof.
  intros Hw. unfold CpuSet_intersects. rewrite existsb_exists. split.
  - intros ([v w] & Hin%list_elem_of_In & Hn). apply list_elem_of_lookup in Hin as [i Hi]. apply lookup_zip_Some in Hi as [Hv Hu].
    cbn in Hv, Hu, Hn. apply negb_true_iff, Z.eqb_neq in Hn. pose proof (Forall_lookup_1 _ _ _ _ Hw Hv) as Hin.
    destruct (word_nonzero (Z.land v w)) as (b & Hb & Ht); [by apply land_u64|done|].
    rewrite Z.land_spec in Ht. apply andb_true_iff in Ht as [H1 H2].
    exists (i * 64 + b)%nat. rewrite !test_spec. destruct (split_cpu i b Hb) as [-> ->]. unfold word_at. by rewrite Hv, Hu.
  - intros (c & Hs & Ht). rewrite test_spec in Hs, Ht. unfold word_at in *.
    destruct (words s !! (c / 64)%nat) as [v|] eqn:Hv; [|by rewrite Z.bits_0 in Hs].
    destruct (words t !! (c / 64)%nat) as [w|] eqn:Hu; [|by rewrite Z.bits_0 in Ht]. exists (v, w). split.
    + apply list_elem_of_In. eapply list_elem_of_lookup_2. apply lookup_zip_Some. by split.
    + apply negb_true_iff, Z.eqb_neq. intros He. cbn in *.
      assert (Z.testbit (Z.land v w) (Z.of_nat (c mod 64)) = true) as Hx by (by rewrite Z.land_spec, Hs, Ht).
      by rewrite He, Z.bits_0 in Hx.
Qed.

(** ** The ends *)

Lemma first_spec s :
  match CpuSet_first s with
  | Some c => CpuSet_test s c = true /\ forall d, CpuSet_test s d = true -> (c <= d)%nat
  | None => forall d, CpuSet_test s d = false
  end.
Proof.
  unfold CpuSet_first. pose proof (iter_sorted s) as Hs. destruct (CpuSet_iter s) as [|c l] eqn:Hi; cbn.
  - intros d. destruct (CpuSet_test s d) eqn:Hd; [|done]. apply elem_of_iter in Hd. rewrite Hi in Hd. by apply elem_of_nil in Hd.
  - split; [apply elem_of_iter; rewrite Hi; by left|]. intros d Hd%elem_of_iter. rewrite Hi in Hd.
    apply elem_of_cons in Hd as [->|Hd]; [done|]. apply StronglySorted_inv in Hs as [_ Hs]. rewrite list.Forall_forall in Hs.
    specialize (Hs _ Hd). lia.
Qed.

Lemma find_last ws :
  match List.find (fun iw : nat * Z => negb (snd iw =? 0)) (rev (imap pair ws)) with
  | Some (i, w) => ws !! i = Some w /\ w <> 0 /\ forall j, (i < j)%nat -> default 0 (ws !! j) = 0
  | None => forall j, default 0 (ws !! j) = 0
  end.
Proof.
  induction ws as [|w ws IH] using rev_ind; [cbn; intros j; by rewrite lookup_nil|].
  rewrite imap_app. cbn. rewrite rev_app_distr. cbn. rewrite Nat.add_0_r. destruct (Z.eqb_spec w 0) as [->|Hn]; cbn.
  - assert (forall j, default 0 ((ws ++ [0]) !! j) = default 0 (ws !! j)) as Hj by (intros j; apply (zeros_word 1)).
    destruct (List.find _ _) as [[i v]|].
    + destruct IH as (Hi & Hv & Hr). split; [by apply lookup_app_l_Some|]. split; [done|]. intros j Hlt. rewrite Hj. by apply Hr.
    + intros j. by rewrite Hj.
  - split; [by rewrite lookup_app_r, Nat.sub_diag by lia|]. split; [done|]. intros j Hlt.
    by rewrite lookup_ge_None_2 by (rewrite length_app; cbn; lia).
Qed.

Lemma log2_top w : in_u 64 w -> w <> 0 ->
  (BITS_PER_WORD - 1 - leading_zeros w)%nat = Z.to_nat (Z.log2 w) /\ (Z.to_nat (Z.log2 w) < 64)%nat.
Proof.
  intros [H0 H1] Hn. unfold leading_zeros, BITS_PER_WORD. destruct (Z.eqb_spec w 0); [done|]. pose proof (Z.log2_nonneg w).
  assert (Z.log2 w < 64) by (apply Z.log2_lt_pow2; lia). lia.
Qed.

Lemma last_spec s : wf s ->
  match CpuSet_last s with
  | Some c => CpuSet_test s c = true /\ forall d, CpuSet_test s d = true -> (d <= c)%nat
  | None => forall d, CpuSet_test s d = false
  end.
Proof.
  intros Hwf. unfold CpuSet_last. pose proof (find_last (words s)) as H. destruct (List.find _ _) as [[i w]|].
  - destruct H as (Hi & Hn & Hr). pose proof (Forall_lookup_1 _ _ _ _ Hwf Hi) as Hw. destruct (log2_top w Hw Hn) as [-> Hb].
    unfold BITS_PER_WORD. set (b := Z.to_nat (Z.log2 w)) in *. split.
    + rewrite test_spec. destruct (split_cpu i b Hb) as [-> ->]. unfold word_at. rewrite Hi. cbn. subst b.
      rewrite Z2Nat.id by apply Z.log2_nonneg. apply Z.bit_log2. destruct Hw. lia.
    + intros d Hd. rewrite test_spec in Hd. destruct (cpu_split d) as [Hc Hd'].
      destruct (decide (i < d / 64)%nat) as [Hlt|Hle]; [unfold word_at in Hd; rewrite (Hr _ Hlt), Z.bits_0 in Hd; done|].
      destruct (decide (d / 64 = i)%nat) as [He|Hne]; [|lia]. unfold word_at in Hd. rewrite He, Hi in Hd. cbn in Hd.
      assert (Z.of_nat (d mod 64) <= Z.log2 w); [|lia]. destruct (Z_lt_le_dec (Z.log2 w) (Z.of_nat (d mod 64))) as [Hl|]; [|done].
      rewrite Z.bits_above_log2 in Hd; [done|apply Hw|done].
  - intros d. rewrite test_spec. unfold word_at. rewrite H. apply Z.bits_0.
Qed.

(** ** Numbers *)

Definition digit (c : Z) : Prop := 48 <= c <= 57.

Lemma parse_digits_app a l acc v :
  parse_digits acc l = Some v -> parse_digits acc (l ++ a) = parse_digits v a.
Proof.
  revert acc. induction l as [|c l IH]; intros acc; cbn [parse_digits app]; [by intros [= ->]|].
  destruct (_ && _); [apply IH|done].
Qed.

Lemma parse_digit acc d : 0 <= d < 10 -> acc * 10 + d < 2 ^ 64 -> parse_digits acc [48 + d] = Some (acc * 10 + d).
Proof.
  intros Hd Hv. cbn [parse_digits]. replace (48 + d - 48) with d by lia.
  rewrite (proj2 (Z.leb_le 48 (48 + d))), (proj2 (Z.leb_le (48 + d) 57)), (proj2 (Z.ltb_lt _ _)) by lia. done.
Qed.

Lemma decimal_spec fuel n acc :
  0 <= n < 10 ^ Z.of_nat fuel -> n < 2 ^ 64 -> (0 < fuel)%nat ->
  exists ds, decimal fuel n acc = ds ++ acc /\ ds <> [] /\ Forall digit ds /\ parse_digits 0 ds = Some n.
Proof.
  revert n acc. induction fuel as [|fuel IH]; intros n acc Hn H64 Hf; [lia|]. cbn [decimal].
  pose proof (Z.mod_pos_bound n 10 ltac:(lia)) as Hm. pose proof (Z.div_mod n 10 ltac:(lia)) as Hdm.
  assert (digit (48 + n mod 10)) as Hdig by (unfold digit; lia). destruct (Z.eqb_spec (n / 10) 0) as [H0|H0].
  - exists [48 + n mod 10]. split; [done|]. split; [done|]. split; [by constructor|].
    rewrite parse_digit by lia. f_equal. lia.
  - assert (0 < fuel)%nat as Hf' by (destruct fuel; [cbn in Hn; exfalso; apply H0, Z.div_small; lia|lia]).
    destruct (IH (n / 10) (48 + n mod 10 :: acc)) as (ds & -> & Hne & Hds & Hp); [|lia|done|].
    { rewrite Nat2Z.inj_succ, Z.pow_succ_r in Hn by lia. split; [apply Z.div_pos; lia|]. apply Z.div_lt_upper_bound; lia. }
    exists (ds ++ [48 + n mod 10]). split; [by rewrite <- app_assoc|]. split; [by destruct ds|].
    split; [apply list.Forall_app; split; [done|by constructor]|].
    rewrite (parse_digits_app _ _ _ _ Hp), parse_digit by lia. f_equal. lia.
Qed.

Definition u64 (n : nat) : Prop := Z.of_nat n < 2 ^ 64.

Lemma print_usize_spec n :
  u64 n -> print_usize n <> [] /\ Forall digit (print_usize n) /\ parse_usize (print_usize n) = Some n.
Proof.
  intros Hn. unfold u64 in Hn. destruct (decimal_spec 20 (Z.of_nat n) []) as (ds & He & Hne & Hds & Hp); [|done|lia|].
  { split; [lia|]. eapply Z.lt_trans; [exact Hn|]. done. }
  unfold print_usize. rewrite He, app_nil_r. split; [done|]. split; [done|].
  destruct ds as [|c r]; [done|]. unfold parse_usize.
  assert ((c =? plus) = false) as -> by (apply list.Forall_cons in Hds as [H _]; apply Z.eqb_neq; unfold digit, plus in *; lia).
  cbn [andb]. rewrite Hp. cbn. by rewrite Nat2Z.id.
Qed.

(** ** Ranges *)

Abbreviation range := (nat * nat)%type.

Definition part_of (r : range) : text :=
  if (r.1 =? r.2)%nat then print_usize r.1 else print_usize r.1 ++ [dash] ++ print_usize r.2.

Definition range_ok (r : range) : Prop := (r.1 <= r.2)%nat /\ u64 r.2.

Lemma split_once_app sep a b : Forall (fun c => c <> sep) a -> split_once sep (a ++ sep :: b) = Some (a, b).
Proof.
  induction 1 as [|c a Hc Ha IH]; cbn; [by rewrite Z.eqb_refl|]. by rewrite (proj2 (Z.eqb_neq _ _) Hc), IH.
Qed.

Lemma split_once_none sep a : Forall (fun c => c <> sep) a -> split_once sep a = None.
Proof. induction 1 as [|c a Hc Ha IH]; cbn; [done|]. by rewrite (proj2 (Z.eqb_neq _ _) Hc), IH. Qed.

Lemma no_dash a : Forall digit a -> Forall (fun c => c <> dash) a.
Proof. apply Forall_impl. unfold digit, dash. lia. Qed.

Lemma from_part_of r s :
  range_ok r -> from_part (part_of r) s = Ok (fold_left (fun s cpu => CpuSet_set cpu s) (seq r.1 (r.2 + 1 - r.1)) s).
Proof.
  destruct r as [lo hi]. intros [Hle Hu]. cbn in Hle, Hu. unfold part_of, from_part. cbn [fst snd].
  assert (u64 lo) as Hul by (unfold u64 in *; lia).
  destruct (print_usize_spec lo Hul) as (_ & Dl & Pl), (print_usize_spec hi Hu) as (_ & Dh & Ph).
  destruct (Nat.eqb_spec lo hi) as [->|Hne].
  - rewrite split_once_none by (by apply no_dash). rewrite Pl. unfold ok_or, mbind, res_bind. by rewrite Nat.ltb_irrefl.
  - cbn [app]. rewrite split_once_app by (by apply no_dash). rewrite Pl, Ph.
    unfold ok_or, mbind, res_bind. by rewrite (proj2 (Nat.ltb_ge _ _)) by done.
Qed.

Lemma test_sets l s c : CpuSet_test (fold_left (fun s cpu => CpuSet_set cpu s) l s) c = bool_decide (c ∈ l) || CpuSet_test s c.
Proof.
  revert s. induction l as [|x l IH]; intros s; cbn; [by rewrite bool_decide_false by apply not_elem_of_nil|].
  rewrite IH, test_set. destruct (decide (c = x)) as [->|Hn].
  - rewrite (bool_decide_true (x = x)), (bool_decide_true (x ∈ x :: l)) by (done || by left). by rewrite orb_true_r.
  - rewrite (bool_decide_false (c = x)) by done. cbn. f_equal. apply bool_decide_ext. rewrite elem_of_cons. naive_solver.
Qed.

Definition covers (rs : list range) (c : nat) : Prop := exists r, r ∈ rs /\ (r.1 <= c <= r.2)%nat.

Lemma from_parts_of rs s :
  Forall range_ok rs ->
  exists s', from_parts (map part_of rs) s = Ok s' /\
    forall c, CpuSet_test s' c = true <-> covers rs c \/ CpuSet_test s c = true.
Proof.
  intros Hr. revert s. induction Hr as [|r rs Hr Hrs IH]; intros s; cbn.
  - exists s. split; [done|]. intros c. split; [by right|]. intros [(r & Hin & _)|?]; [by apply elem_of_nil in Hin|done].
  - rewrite from_part_of by done. cbn. destruct (IH (fold_left (fun s cpu => CpuSet_set cpu s) (seq r.1 (r.2 + 1 - r.1)) s)) as (s' & -> & Hs').
    exists s'. split; [done|]. intros c. rewrite Hs', test_sets, orb_true_iff, bool_decide_eq_true.
    rewrite list_elem_of_In, in_seq. destruct Hr as [Hle _]. unfold covers. setoid_rewrite elem_of_cons. split.
    + intros [(q & Hq & Hc)|[Hc|Hc]]; [left; eauto|left; exists r; split; [by left|lia]|by right].
    + intros [(q & [->|Hq] & Hc)|Hc]; [right; left; lia|left; eauto|by right; right].
Qed.

(** ** The formatter writes the maximal ranges *)

Fixpoint runs (cur : range) (l : list nat) : list range :=
  match l with
  | [] => [cur]
  | c :: l => if (c =? cur.2 + 1)%nat then runs (cur.1, c) l else cur :: runs (c, c) l
  end.

Fixpoint joined (ps : list text) : text :=
  match ps with [] => [] | [p] => p | p :: ps => p ++ comma :: joined ps end.

Lemma joined_cons p ps : ps <> [] -> joined (p :: ps) = p ++ comma :: joined ps.
Proof. by destruct ps. Qed.

Lemma runs_nonempty cur l : runs cur l <> [].
Proof. revert cur. induction l as [|c l IH]; intros cur; cbn; [done|]. by destruct (_ =? _)%nat. Qed.

Lemma fmt_fold l out fst_ cur :
  (let '(f, run) := fold_left fmt_step l ((out, fst_), Some cur) in
   fst (match run with Some (lo, hi) => flush f lo hi | None => f end)) =
  out ++ (if fst_ : bool then [] else [comma]) ++ joined (map part_of (runs cur l)).
Proof.
  revert out fst_ cur. induction l as [|c l IH]; intros out fst_ [lo hi]; cbn [fold_left runs fst snd]; [done|].
  cbn [fmt_step]. destruct (c =? hi + 1)%nat; [apply IH|].
  cbn [flush]. rewrite IH. cbn [map]. rewrite joined_cons by (intros H%map_eq_nil; by apply runs_nonempty in H).
  unfold part_of at 2. cbn [fst snd]. by rewrite <- !app_assoc.
Qed.

Lemma runs_cover cur l c :
  (cur.1 <= cur.2)%nat -> covers (runs cur l) c <-> (cur.1 <= c <= cur.2)%nat \/ c ∈ l.
Proof.
  unfold covers. revert cur. induction l as [|d l IH]; intros [lo hi] Hle; cbn in *.
  - split; [intros (r & ->%list_elem_of_singleton & H); by left|].
    intros [H|H%elem_of_nil]; [|done]. exists (lo, hi). split; [by left|done].
  - rewrite elem_of_cons. destruct (Nat.eqb_spec d (hi + 1)) as [->|Hne].
    + rewrite (IH (lo, hi + 1)%nat) by (cbn; lia). cbn. intuition lia.
    + setoid_rewrite elem_of_cons. specialize (IH (d, d) ltac:(done)). cbn in IH. split.
      * intros (r & [->|Hr] & H); [by left|]. right. assert (d <= c <= d \/ c ∈ l)%nat as [?|?] by (apply IH; eauto); [left; lia|by right].
      * intros [H|[->|H]]; [exists (lo, hi); auto| |].
        -- destruct (proj2 IH ltac:(left; lia)) as (r & Hr & Hc). eauto.
        -- destruct (proj2 IH ltac:(by right)) as (r & Hr & Hc). eauto.
Qed.

Lemma runs_ok cur l : range_ok cur -> Forall u64 l -> Forall range_ok (runs cur l).
Proof.
  revert cur. induction l as [|d l IH]; intros [lo hi] [Hle Hu] Hl; cbn in *; [by repeat constructor|].
  apply list.Forall_cons in Hl as [Hd Hl]. destruct (Nat.eqb_spec d (hi + 1)) as [->|Hne].
  - apply IH; [split; cbn; [lia|done]|done].
  - constructor; [done|]. by apply IH; [split|].
Qed.

(** ** Reading what the formatter wrote *)

Lemma split_joined ps : ps <> [] -> Forall (Forall (fun c => c <> comma)) ps -> split comma (joined ps) = ps.
Proof.
  assert (forall p q, Forall (fun c => c <> comma) p -> split comma (p ++ comma :: q) = p :: split comma q) as Hc.
  { intros p q. induction 1 as [|c p Hc Hp IH]; [done|]. cbn [split app]. by rewrite (proj2 (Z.eqb_neq _ _) Hc), IH. }
  assert (forall p, Forall (fun c => c <> comma) p -> split comma p = [p]) as Hn.
  { intros p. induction 1 as [|c p Hc' Hp IH]; [done|]. cbn [split]. by rewrite (proj2 (Z.eqb_neq _ _) Hc'), IH. }
  intros Hne Hps. induction Hps as [|p ps Hp Hps IH]; [done|]. destruct ps as [|q ps]; [by apply Hn|].
  rewrite joined_cons, Hc, IH by done. done.
Qed.

Lemma part_chars r : range_ok r -> part_of r <> [] /\ Forall (fun c => digit c \/ c = dash) (part_of r).
Proof.
  destruct r as [lo hi]. intros [Hle Hu]. cbn in *. assert (u64 lo) as Hul by (unfold u64 in *; lia).
  destruct (print_usize_spec lo Hul) as (Nl & Dl & _), (print_usize_spec hi Hu) as (_ & Dh & _). unfold part_of. cbn [fst snd].
  assert (forall l, Forall digit l -> Forall (fun c => digit c \/ c = dash) l) as Hd by (intros l; apply Forall_impl; auto).
  destruct (lo =? hi)%nat; [split; [done|by apply Hd]|]. split; [by destruct (print_usize lo)|].
  apply list.Forall_app. split; [by apply Hd|]. constructor; [by right|by apply Hd].
Qed.

Lemma trim_plain s : Forall (fun c => is_whitespace c = false) s -> trim s = s.
Proof.
  intros Hs. assert (forall l, Forall (fun c => is_whitespace c = false) l -> trim_start l = l) as Ht.
  { intros l [|c r Hc _]; cbn; [done|]. by rewrite Hc. }
  unfold trim. rewrite (Ht s) by done. rewrite Ht by (by apply List.Forall_rev). apply rev_involutive.
Qed.

Lemma joined_plain ps :
  Forall (fun p => Forall (fun c => digit c \/ c = dash) p) ps -> Forall (fun c => is_whitespace c = false) (joined ps).
Proof.
  assert (forall c, digit c \/ c = dash -> is_whitespace c = false) as Hw.
  { intros c Hc. assert (c ∈ seqZ 45 13) as Hin by (rewrite elem_of_seqZ; unfold digit, dash in Hc; lia).
    revert c Hc Hin. setoid_rewrite list_elem_of_In. cbn. intros c _ Hin.
    repeat (destruct Hin as [<-|Hin]; [done|]). done. }
  intros H. induction H as [|p ps Hp Hps IH]; [constructor|]. destruct ps as [|q ps]; [by apply (Forall_impl _ Hw)|].
  rewrite joined_cons by done. apply list.Forall_app. split; [by apply (Forall_impl _ Hw)|]. by constructor.
Qed.

(** A CPU set that is printed as a cpulist and read back is the same set: the
    parser accepts every text the formatter writes, whatever the set. *)
Theorem cpulist_roundtrip s :
  Forall u64 (CpuSet_iter s) ->
  exists s', from_cpulist (CpuSet_fmt s) = Ok s' /\ CpuSet_iter s' = CpuSet_iter s /\
    forall c, CpuSet_test s' c = CpuSet_test s c.
Proof.
  intros Hu. unfold CpuSet_fmt.
  assert (forall s', (forall c, CpuSet_test s' c = true <-> c ∈ CpuSet_iter s) ->
    CpuSet_iter s' = CpuSet_iter s /\ forall c, CpuSet_test s' c = CpuSet_test s c) as Hext.
  { intros s' H. assert (forall c, CpuSet_test s' c = CpuSet_test s c) as Ht; [|by split; [apply iter_ext|]].
    intros c. apply eq_true_iff_eq. by rewrite H, elem_of_iter. }
  destruct (CpuSet_iter s) as [|c l] eqn:Hi; [exists CpuSet_new; split; [done|]; apply Hext; intros c; rewrite test_new; split; [done|by intros ?%elem_of_nil]|].
  cbn [fold_left fmt_step]. rewrite fmt_fold. cbn [app]. apply list.Forall_cons in Hu as [Hc Hl].
  pose proof (runs_ok (c, c) l ltac:(by split) Hl) as Hok.
  assert (Forall (fun p => p <> [] /\ Forall (fun c => digit c \/ c = dash) p) (map part_of (runs (c, c) l))) as Hps.
  { apply List.Forall_map. eapply Forall_impl; [|exact Hok]. apply part_chars. }
  destruct (from_parts_of (runs (c, c) l) CpuSet_new Hok) as (s' & Hs' & Ht). exists s'. split.
  - unfold from_cpulist. rewrite trim_plain by (apply joined_plain; eapply Forall_impl; [|exact Hps]; by intros p []).
    rewrite split_joined.
    + rewrite (forallb_filter_id _ (map part_of _)); [done|]. apply forallb_forall. intros p Hp. rewrite List.Forall_forall in Hps.
      destruct (Hps p Hp) as [Hne _]. by rewrite bool_decide_false.
    + intros H%map_eq_nil. by apply runs_nonempty in H.
    + eapply Forall_impl; [|exact Hps]. intros p [_ Hp]. eapply Forall_impl; [|exact Hp]. unfold digit, dash, comma. intros x. lia.
  - apply Hext. intros d. rewrite Ht, test_new, runs_cover by done. cbn. rewrite elem_of_cons. intuition lia.
Qed.
