(* ===== verification/Spread.v ===== *)
(** * [ioutgt-cpus/src/topology.rs] and [spread.rs]: placing threads on CPUs

    The topology read from sysfs (the contents of its files are given), and the
    partition of the CPUs into pinning groups; with [io_thread_cpus] of
    [ioutgt-harness/src/lib.rs], which picks the CPU of each IO thread. *)

From S2P Require Import Prelude Pool FabricsExec CpuSet.

(** ** Topology *)

Record CpuTopology := {
  nr_cpu_ids : nat;
  possible : CpuSet;
  present : CpuSet;
  online : CpuSet;
  node_to_cpus : list CpuSet;
  sibling : list CpuSet;
  cluster : list CpuSet;
}.

(** What reading a file gives. *)
Inductive ReadResult := Contents (s : text) | NotFound | ReadFailed.

Inductive TopologyError := ReadError | ListError (e : CpuListError).

Definition read_cpulist (f : ReadResult) : res TopologyError CpuSet :=
  match f with Contents s => map_err ListError (from_cpulist s) | _ => Err ReadError end.

Definition read_cpulist_opt (f : ReadResult) : res TopologyError CpuSet :=
  match f with Contents s => map_err ListError (from_cpulist s) | NotFound => Ok CpuSet_new | ReadFailed => Err ReadError end.

(** An entry of the node directory: an error, or its name (when it is UTF-8) and
    its cpulist file. *)
Abbreviation DirEntry := (option (option text * ReadResult)).

(** The files of a sysfs tree: the three masks, the node directory (when it can
    be listed), and the two topology files of each CPU. *)
Record Sysfs := {
  sf_possible : ReadResult;
  sf_present : ReadResult;
  sf_online : ReadResult;
  sf_nodes : option (list DirEntry);
  sf_core_cpus : nat -> ReadResult;
  sf_cluster_cpus : nat -> ReadResult;
}.

(** [strip_prefix("node")], then [parse::<usize>]. *)
Definition node_id (name : option text) : option nat :=
  match name with
  | Some (110 :: 111 :: 100 :: 101 :: r) => parse_usize r
  | _ => None
  end.

Definition resized (n : nat) (l : list CpuSet) : list CpuSet :=
  if (length l <? n)%nat then l ++ replicate (n - length l) CpuSet_new else l.

Fixpoint read_nodes (entries : list DirEntry) (nodes : list CpuSet) : res TopologyError (list CpuSet) :=
  match entries with
  | [] => Ok nodes
  | None :: _ => Err ReadError
  | Some (name, file) :: es =>
      match node_id name with
      | None => read_nodes es nodes
      | Some id => cpus ← read_cpulist_opt file; read_nodes es (<[id := cpus]> (resized (id + 1) nodes))
      end
  end.

(** [masks[cpu] = m]. *)
Definition put_mask (cpu : nat) (m : CpuSet) (masks : list CpuSet) : res TopologyError (list CpuSet) :=
  if (cpu <? length masks)%nat then Ok (<[cpu := m]> masks) else Panic.

(** The sibling and cluster masks of the possible CPUs. *)
Fixpoint read_masks (fs : Sysfs) (cpus : list nat) (sib clus : list CpuSet) : res TopologyError (list CpuSet * list CpuSet) :=
  match cpus with
  | [] => Ok (sib, clus)
  | cpu :: cpus =>
      s ← read_cpulist_opt (sf_core_cpus fs cpu);
      sib ← put_mask cpu s sib;
      c ← read_cpulist_opt (sf_cluster_cpus fs cpu);
      clus ← put_mask cpu c clus;
      read_masks fs cpus sib clus
  end.

Definition union_of (l : list CpuSet) : CpuSet := fold_left CpuSet_or l CpuSet_new.

(** Possible CPUs that no node claims go to node 0. *)
Definition fold_unclaimed (possible : CpuSet) (nodes : list CpuSet) : list CpuSet :=
  let nodes := match nodes with [] => [CpuSet_new] | _ => nodes end in
  alter (fun n => CpuSet_or n (CpuSet_andnot possible (union_of nodes))) 0%nat nodes.

Definition from_sysfs_root (fs : Sysfs) : res TopologyError CpuTopology :=
  possible ← read_cpulist (sf_possible fs);
  present ← read_cpulist (sf_present fs);
  online ← read_cpulist (sf_online fs);
  let nr := match CpuSet_last possible with Some c => (c + 1)%nat | None => 0%nat end in
  nodes ← match sf_nodes fs with Some es => read_nodes es [] | None => Ok [] end;
  '(sibling, cluster) ← read_masks fs (CpuSet_iter possible) (replicate nr CpuSet_new) (replicate nr CpuSet_new);
  Ok {| nr_cpu_ids := nr; possible := possible; present := present; online := online;
        node_to_cpus := fold_unclaimed possible nodes; sibling := sibling; cluster := cluster |}.

(** ** Choosing *)

(** [Iterator::min_by_key]: the first of the smallest. *)
Fixpoint min_by {A} (lt : A -> A -> bool) (best : A) (l : list A) : A :=
  match l with [] => best | x :: l => min_by lt (if lt x best then x else best) l end.

Definition at_ (l : list nat) (i : nat) : nat := default 0%nat (l !! i).

(** ** Apportionment *)

(** A [usize] product. *)
Definition mul_usize (a b : nat) : res never nat :=
  if decide (Z.of_nat (a * b) < 2 ^ 64) then Ok (a * b)%nat else Panic.

Fixpoint apportion_floor (spare total : nat) (weights : list nat) : res never (list nat) :=
  match weights with
  | [] => Ok []
  | w :: ws => p ← mul_usize spare w; l ← apportion_floor spare total ws; Ok ((1 + p / total)%nat :: l)
  end.

(** Largest remainder first, then lowest index. *)
Definition rem_before (spare total : nat) (weights : list nat) (i j : nat) : bool :=
  let ri := (spare * at_ weights i mod total)%nat in
  let rj := (spare * at_ weights j mod total)%nat in
  (rj <? ri)%nat || (ri =? rj)%nat && (i <=? j)%nat.

Definition bump_all (idx : list nat) (l : list nat) : list nat := fold_left (fun l i => alter S i l) idx l.

Definition apportion (seats : nat) (weights : list nat) : res never (list nat) :=
  _ ← assert (length weights <=? seats)%nat;
  let spare := (seats - length weights)%nat in
  let total := sum_list weights in
  _ ← assert (bool_decide (weights = []) || negb (total =? 0)%nat);
  out ← apportion_floor spare total weights;
  let assigned := sum_list out in
  let order := sort_by (rem_before spare total weights) (seq 0 (length weights)) in
  _ ← assert (assigned <=? seats)%nat;
  Ok (bump_all (take (seats - assigned) order) out).

(** ** Fewer groups than nodes *)

(** Heaviest first, then lowest index. *)
Definition heavier (weights : list nat) (a b : nat) : bool :=
  (at_ weights b <? at_ weights a)%nat || (at_ weights a =? at_ weights b)%nat && (a <=? b)%nat.

(** The group with the least load, the first of those. *)
Definition lightest (loads : list nat) : nat :=
  min_by (fun a b => (at_ loads a <? at_ loads b)%nat || (at_ loads a =? at_ loads b)%nat && (a <? b)%nat)
    0%nat (seq 0 (length loads)).

Definition place_node (nodes : list CpuSet) (weights : list nat) (st : list CpuSet * list nat) (i : nat) : list CpuSet * list nat :=
  let g := lightest st.2 in
  (alter (fun s => CpuSet_or s (default CpuSet_new (nodes !! i))) g st.1, alter (Nat.add (at_ weights i)) g st.2).

Definition pack_whole_nodes (ngroups : nat) (nodes : list CpuSet) (weights : list nat) : list CpuSet :=
  let order := sort_by (heavier weights) (seq 0 (length nodes)) in
  fst (fold_left (place_node nodes weights) order (replicate ngroups CpuSet_new, replicate ngroups 0%nat)).

(** ** One node *)

Definition split_even (n k : nat) : list nat := map (fun i => (n / k + if i <? n mod k then 1 else 0)%nat) (seq 0 k).

Definition mask_of (masks : list CpuSet) (cpu : nat) : CpuSet := default CpuSet_new (masks !! cpu).

(** The order, the CPUs visited. *)
Abbreviation Walk := (list nat * CpuSet)%type.

Definition visit (st : Walk) (member : nat) : Walk := (st.1 ++ [member], CpuSet_set member st.2).

(** The SMT siblings of [c] in the cluster. *)
Definition visit_atom (topo : CpuTopology) (clus : CpuSet) (st : Walk) (c : nat) : Walk :=
  if CpuSet_test st.2 c then st
  else
    let atom := CpuSet_andnot (CpuSet_and (mask_of (sibling topo) c) clus) st.2 in
    let atom := if CpuSet_is_empty atom then CpuSet_set c atom else atom in
    fold_left visit (CpuSet_iter atom) st.

Definition visit_cluster (node : CpuSet) (topo : CpuTopology) (st : Walk) (cpu : nat) : Walk :=
  if CpuSet_test st.2 cpu then st
  else
    let clus := mask_of (cluster topo) cpu in
    let clus := if CpuSet_is_empty clus then mask_of (sibling topo) cpu else clus in
    let clus := CpuSet_andnot (CpuSet_and clus node) st.2 in
    let clus := if CpuSet_is_empty clus then CpuSet_set cpu clus else clus in
    fold_left (visit_atom topo clus) (CpuSet_iter clus) st.

Definition fill_order (node : CpuSet) (topo : CpuTopology) : list nat :=
  fst (fold_left (visit_cluster node topo) (CpuSet_iter node) ([], CpuSet_new)).

(** The groups of a node, and how many CPUs each has. *)
Abbreviation Groups := (list CpuSet * list nat)%type.

Definition add_cpu (st : Groups) (g cpu : nat) : Groups := (alter (CpuSet_set cpu) g st.1, alter S g st.2).

(** [while fill[g] == quota[g] { g += 1 }]: [None] is an index out of range. *)
Fixpoint skip_full (fuel : nat) (fill quota : list nat) (g : nat) : option nat :=
  match fuel with
  | O => None
  | S fuel =>
      f ← fill !! g; q ← quota !! g;
      if (f =? q)%nat then skip_full fuel fill quota (g + 1) else Some g
  end.

Fixpoint place_present (quota cpus : list nat) (g : nat) (st : Groups) : res never Groups :=
  match cpus with
  | [] => Ok st
  | cpu :: cpus =>
      g ← expect (skip_full (S (length quota)) st.2 quota g);
      place_present quota cpus g (add_cpu st g cpu)
  end.

Fixpoint place_absent (topo : CpuTopology) (quota cpus : list nat) (st : Groups) : res never Groups :=
  match cpus with
  | [] => Ok st
  | cpu :: cpus =>
      let sib := mask_of (sibling topo) cpu in
      let room := List.filter (fun j => (at_ st.2 j <? at_ quota j)%nat) (seq 0 (length quota)) in
      let with_sib := List.find (fun j => CpuSet_intersects (default CpuSet_new (st.1 !! j)) sib) room in
      j ← expect (match with_sib with Some j => Some j | None => head room end);
      place_absent topo quota cpus (add_cpu st j cpu)
  end.

Definition pack_node (node : CpuSet) (seats : nat) (topo : CpuTopology) : res never (list CpuSet) :=
  if (seats =? 0)%nat then Ok []
  else
    let order := fill_order node topo in
    let present := List.filter (CpuSet_test (present topo)) order in
    let absent := List.filter (fun c => negb (CpuSet_test (Spread.present topo) c)) order in
    st ← place_present (split_even (length present) seats) present 0
           (replicate seats CpuSet_new, replicate seats 0%nat);
    st ← place_absent topo (split_even (length order) seats) absent st;
    Ok st.1.

(** ** The whole machine *)

Fixpoint pack_nodes (topo : CpuTopology) (nodes : list (CpuSet * nat)) : res never (list CpuSet) :=
  match nodes with
  | [] => Ok []
  | (node, n) :: l => a ← pack_node node n topo; b ← pack_nodes topo l; Ok (a ++ b)
  end.

(** The nodes with a possible CPU. *)
Definition live_nodes (topo : CpuTopology) : list CpuSet :=
  List.filter (fun n => negb (CpuSet_is_empty n)) (map (fun n => CpuSet_and n (possible topo)) (node_to_cpus topo)).

(** Present CPUs of each node, or its possible ones where none is present. *)
Definition node_weights (topo : CpuTopology) : list nat :=
  let weights := map (fun n => CpuSet_weight (CpuSet_and n (present topo))) (live_nodes topo) in
  if forallb (Nat.eqb 0) weights then map CpuSet_weight (live_nodes topo) else weights.

Definition spread_cpus (ngroups : nat) (topo : CpuTopology) : res never (list CpuSet) :=
  if (ngroups =? 0)%nat then Ok []
  else
    let nodes := live_nodes topo in
    if bool_decide (nodes = []) then Ok (replicate ngroups CpuSet_new)
    else if (ngroups <? length nodes)%nat then Ok (pack_whole_nodes ngroups nodes (node_weights topo))
    else
      seats ← apportion ngroups (node_weights topo);
      pack_nodes topo (zip nodes seats).

(** ** [io_thread_cpus] *)

Definition star : text := [42].

(** The CPU an IO thread is pinned to, and the text of its group. *)
Definition thread_cpu (topo : CpuTopology) (group : option CpuSet) : option nat * text :=
  match group with
  | None => (None, star)
  | Some g =>
      let o := CpuSet_and g (online topo) in
      (CpuSet_first o, match CpuSet_first o with Some _ => CpuSet_fmt o | None => star end)
  end.

Definition io_thread_cpus (io_threads : nat) (topo : res TopologyError CpuTopology) : res never (list (option nat * text)) :=
  match topo with
  | Ok topo =>
      groups ← spread_cpus io_threads topo;
      Ok (map (fun i => thread_cpu topo (groups !! i)) (seq 0 io_threads))
  | Err _ => Ok (replicate io_threads (None, star))
  | Panic => Panic
  end.
