(* ===== verification/SpreadProofs.v ===== *)
(** * The CPU groups: a partition, local and even

    Seats handed out to nodes, whole nodes packed into groups, the fill order of
    a node, and the groups of one node filled in two passes. *)

From S2P Require Import Prelude Pool FabricsExec CpuSet CpuSetProofs Spread.

(** ** Lists of numbers *)

Lemma at_lookup l i x : l !! i = Some x -> at_ l i = x.
Proof. unfold at_. by intros ->. Qed.

Lemma sum_alter (f : nat -> nat) l i x :
  l !! i = Some x -> (sum_list (alter f i l) + x = sum_list l + f x)%nat.
Proof. revert i. induction l as [|y l IH]; intros [|i] Hi; try done; cbn in *; [simplify_eq; lia|]. specialize (IH i Hi). cbn in IH. lia. Qed.

Definition below (l k : list nat) : Prop := Forall2 le l k.

Lemma below_sum l k : below l k -> (sum_list l <= sum_list k)%nat.
Proof. induction 1; cbn; lia. Qed.

Lemma below_eq l k : below l k -> sum_list l = sum_list k -> l = k.
Proof. induction 1 as [|x y l k Hxy Hlk IH]; cbn; intros Hs; [done|]. pose proof (below_sum _ _ Hlk). f_equal; [lia|apply IH; lia]. Qed.

Lemma below_lt l k : below l k -> (sum_list l < sum_list k)%nat -> exists i x y, l !! i = Some x /\ k !! i = Some y /\ (x < y)%nat.
Proof.
  induction 1 as [|x y l k Hxy Hlk IH]; cbn; intros Hs; [lia|]. destruct (decide (x < y)%nat) as [Hlt|Hge]; [by exists 0%nat, x, y|].
  destruct IH as (i & a & b & ? & ? & ?); [lia|]. by exists (S i), a, b.
Qed.

Lemma below_alter l k i x y : below l k -> l !! i = Some x -> k !! i = Some y -> (x < y)%nat -> below (alter S i l) k.
Proof.
  intros H. revert i. induction H as [|a b l k Hab Hlk IH]; intros [|i] Hi Hk Hlt; try done; cbn in *; simplify_eq; constructor; try done.
  by apply (IH i).
Qed.

(** ** Even splitting *)

Lemma split_even_at n k i : (i < k)%nat -> split_even n k !! i = Some (n / k + if (i <? n mod k)%nat then 1 else 0)%nat.
Proof. intros Hi. unfold split_even. change (map ?f ?l) with (f <$> l). by rewrite list_lookup_fmap, lookup_seq_lt. Qed.

Lemma split_even_length n k : length (split_even n k) = k.
Proof. unfold split_even. by rewrite length_map, length_seq. Qed.

Lemma sum_indicator a b k : (b <= k)%nat -> sum_list (map (fun i => (a + if (i <? b)%nat then 1 else 0)%nat) (seq 0 k)) = (a * k + b)%nat.
Proof.
  revert b. induction k as [|k IH]; intros b Hb; [cbn; lia|]. rewrite seq_S, map_app, sum_list_with_app. cbn [map sum_list_with Nat.add]. unfold id at 2.
  destruct (Nat.ltb_spec k b) as [Hlt|Hge].
  - assert (b = S k) as -> by lia. rewrite (map_ext_in _ (fun i => (a + if (i <? k)%nat then 1 else 0)%nat)).
    + rewrite (IH k) by lia. lia.
    + intros i Hi%in_seq. rewrite !(proj2 (Nat.ltb_lt _ _)) by lia. done.
  - rewrite (IH b) by lia. lia.
Qed.

Lemma split_even_sum n k : (0 < k)%nat -> sum_list (split_even n k) = n.
Proof.
  intros Hk. unfold split_even. pose proof (Nat.mod_upper_bound n k ltac:(lia)). rewrite sum_indicator by lia.
  pose proof (Nat.div_mod_eq n k). lia.
Qed.

Lemma split_even_below n m k : (n <= m)%nat -> below (split_even n k) (split_even m k).
Proof.
  intros Hle. apply Forall2_same_length_lookup_2; [by rewrite !split_even_length|]. intros i x y Hx Hy.
  assert (i < k)%nat as Hi by (apply lookup_lt_Some in Hx; by rewrite split_even_length in Hx).
  rewrite split_even_at in Hx, Hy by done. injection Hx as <-. injection Hy as <-.
  pose proof (Nat.Div0.div_le_mono n m k Hle). destruct (decide (n / k = m / k)%nat) as [He|Hne].
  - rewrite He. pose proof (Nat.div_mod_eq n k) as Hn. pose proof (Nat.div_mod_eq m k) as Hm. rewrite He in Hn.
    destruct (Nat.ltb_spec i (n mod k)), (Nat.ltb_spec i (m mod k)); lia.
  - destruct (i <? n mod k)%nat, (i <? m mod k)%nat; lia.
Qed.

(** ** Apportionment *)

Lemma bump_all_spec idx l :
  NoDup idx -> Forall (fun i => (i < length l)%nat) idx ->
  length (bump_all idx l) = length l /\ sum_list (bump_all idx l) = (sum_list l + length idx)%nat /\ below l (bump_all idx l).
Proof.
  unfold bump_all. revert l. induction idx as [|i idx IH]; intros l Hnd Hf; cbn.
  - split; [done|]. split; [lia|]. unfold below. reflexivity.
  - apply list.NoDup_cons in Hnd as [_ Hnd]. apply list.Forall_cons in Hf as [Hi Hf].
    destruct (IH (alter S i l) Hnd) as (Hl & Hs & Hb); [by rewrite length_alter|].
    destruct (lookup_lt_is_Some_2 l i Hi) as [x Hx]. pose proof (sum_alter S l i x Hx). rewrite length_alter in Hl.
    split; [done|]. split; [lia|]. unfold below in *. etrans; [|exact Hb]. apply Forall2_same_length_lookup_2; [by rewrite length_alter|].
    intros j a b Ha Hb'. destruct (decide (i = j)) as [->|Hne].
    + rewrite list_lookup_alter_eq, Ha in Hb'. injection Hb' as <-. lia.
    + rewrite list_lookup_alter_ne, Ha in Hb' by done. by injection Hb' as <-.
Qed.

Lemma floor_spec spare total ws :
  (0 < total)%nat -> Forall (fun w => Z.of_nat (spare * w) < 2 ^ 64) ws ->
  exists out, apportion_floor spare total ws = Ok out /\ length out = length ws /\ Forall (fun n => (1 <= n)%nat) out /\
    (total * sum_list out <= total * length ws + spare * sum_list ws)%nat /\
    (spare * sum_list ws + length ws <= total * sum_list out)%nat.
Proof.
  intros Ht. induction 1 as [|w ws Hw Hws IH]; cbn; [exists []; split_and!; [done|done|constructor|cbn; lia..]|].
  unfold mul_usize at 1. rewrite decide_True by done. cbn. destruct IH as (out & -> & Hl & Hf & H1 & H2). cbn.
  exists (S (spare * w / total) :: out). split; [done|]. split; [by cbn; rewrite Hl|]. split; [constructor; [lia|done]|].
  pose proof (Nat.div_mod_eq (spare * w) total). pose proof (Nat.mod_upper_bound (spare * w) total ltac:(lia)). cbn. split; nia.
Qed.

Lemma apportion_spec seats ws :
  ws <> [] -> (length ws <= seats)%nat -> (0 < sum_list ws)%nat -> Z.of_nat (seats * sum_list ws) < 2 ^ 64 ->
  exists out, apportion seats ws = Ok out /\ length out = length ws /\ Forall (fun n => (1 <= n)%nat) out /\ sum_list out = seats.
Proof.
  intros Hne Hle Ht H64. unfold apportion. rewrite (proj2 (Nat.leb_le _ _)) by done. cbn [assert mbind res_bind].
  rewrite bool_decide_false, (proj2 (Nat.eqb_neq _ _)) by (done || lia). cbn [assert mbind res_bind orb negb].
  set (spare := (seats - length ws)%nat).
  destruct (floor_spec spare (sum_list ws) ws) as (out & -> & Hl & Hf & H1 & H2); [done| |].
  { apply list.Forall_forall. intros w Hw. assert (w <= sum_list ws)%nat.
    { clear -Hw. induction Hw; cbn; lia. } nia. }
  unfold mbind at 1, res_bind at 1. assert (sum_list out <= seats)%nat as Has by nia. rewrite (proj2 (Nat.leb_le _ _)) by done.
  cbn [assert mbind res_bind]. set (order := sort_by _ _).
  assert (order ≡ₚ seq 0 (length ws)) as Hp by apply sort_by_perm.
  assert (length order = length ws) as Hol by (by rewrite Hp, length_seq).
  assert (seats - sum_list out <= length ws)%nat as Hfew by nia.
  destruct (bump_all_spec (take (seats - sum_list out) order) out) as (Hbl & Hbs & Hbb).
  - assert (NoDup order) as Hnd by (rewrite Hp; apply NoDup_seq). rewrite <- (take_drop (seats - sum_list out) order) in Hnd.
    by apply list.NoDup_app in Hnd as [? _].
  - apply Forall_take, list.Forall_forall. intros i Hi. rewrite Hp in Hi. apply elem_of_seq in Hi. lia.
  - eexists. split; [done|]. split; [lia|]. rewrite Hbs, length_take, Hol. split; [|lia].
    apply Forall_lookup. intros i x Hx. destruct (lookup_lt_is_Some_2 out i) as [y Hy]; [apply lookup_lt_Some in Hx; lia|].
    pose proof (Forall2_lookup_lr _ _ _ _ _ _ Hbb Hy Hx). pose proof (Forall_lookup_1 _ _ _ _ Hf Hy). cbn in *. lia.
Qed.

(** ** Membership *)

Abbreviation mem s c := (CpuSet_test s c = true).

(** A mask that says anything about its CPU contains it. *)
Definition own_mask (masks : list CpuSet) (cpu : nat) : Prop :=
  wf (mask_of masks cpu) /\ (CpuSet_is_empty (mask_of masks cpu) = true \/ mem (mask_of masks cpu) cpu).

Lemma test_false s c : CpuSet_test s c = false <-> ~ mem s c.
Proof. destruct (CpuSet_test s c); naive_solver. Qed.

(** A set with a fallback member. *)
Definition or_self (cpu : nat) (s : CpuSet) : CpuSet := if CpuSet_is_empty s then CpuSet_set cpu s else s.

Lemma or_self_wf cpu s : wf s -> wf (or_self cpu s).
Proof. unfold or_self. destruct (CpuSet_is_empty s); auto with ioutgt. Qed.

Lemma or_self_mem cpu s c : wf s -> mem (or_self cpu s) c -> c = cpu \/ mem s c.
Proof.
  intros Hw. unfold or_self. destruct (CpuSet_is_empty s) eqn:He; [|by right].
  rewrite test_set, orb_true_iff, bool_decide_eq_true. naive_solver.
Qed.

(** The part of a mask outside [visited] still has its CPU. *)
Lemma or_self_own cpu m w v :
  wf m -> (CpuSet_is_empty m = true \/ mem m cpu) -> mem w cpu -> ~ mem v cpu ->
  mem (or_self cpu (CpuSet_andnot (CpuSet_and m w) v)) cpu.
Proof.
  intros Hw Hm Hin Hv. unfold or_self. destruct (CpuSet_is_empty (CpuSet_andnot _ _)) eqn:He; [by rewrite test_set, bool_decide_true|].
  destruct Hm as [Hm|Hm].
  - exfalso. rewrite is_empty_spec in Hm by done. apply not_true_iff_false in He. apply He. apply is_empty_spec.
    + auto with ioutgt.
    + intros c. by rewrite test_andnot, test_and, Hm.
  - rewrite test_andnot, test_and, Hm, Hin. by apply test_false in Hv as ->.
Qed.

(** ** The order of a node *)

Definition walk_ok (node : CpuSet) (st : Walk) : Prop :=
  NoDup st.1 /\ (forall c, mem st.2 c <-> c ∈ st.1) /\ (forall c, c ∈ st.1 -> mem node c).

(** [st'] continues the walk [st]. *)
Definition further (node : CpuSet) (st st' : Walk) : Prop := walk_ok node st' /\ st.1 ⊆ st'.1.

Lemma visit_all node l st :
  walk_ok node st -> NoDup l -> (forall c, c ∈ l -> mem node c /\ ~ mem st.2 c) ->
  walk_ok node (fold_left visit l st) /\ (fold_left visit l st).1 = st.1 ++ l.
Proof.
  revert st. induction l as [|x l IH]; intros st Hok Hnd Hl; cbn; [by rewrite app_nil_r|].
  apply list.NoDup_cons in Hnd as [Hx Hnd]. destruct Hok as (H1 & H2 & H3). destruct (Hl x) as [Hxn Hxv]; [by left|].
  destruct (IH (visit st x)) as [Hok' He]; [|done| |].
  - split; [|split]; cbn.
    + apply list.NoDup_app. split; [done|]. split; [|apply NoDup_singleton].
      intros c Hc ->%list_elem_of_singleton. by apply Hxv, H2.
    + intros c. rewrite test_set, orb_true_iff, bool_decide_eq_true, H2, elem_of_app, list_elem_of_singleton. naive_solver.
    + intros c [Hc| ->%list_elem_of_singleton]%elem_of_app; [by apply H3|done].
  - intros c Hc. destruct (Hl c) as [Hn Hv]; [by right|]. split; [done|]. cbn. rewrite test_set, orb_true_iff, bool_decide_eq_true.
    intros [->|?]; done.
  - split; [done|]. rewrite He. cbn. by rewrite <- app_assoc.
Qed.

Lemma visit_atom_ok topo node clus st c :
  walk_ok node st -> wf clus -> (forall d, mem clus d -> mem node d) -> mem clus c -> own_mask (sibling topo) c ->
  further node st (visit_atom topo clus st c) /\ c ∈ (visit_atom topo clus st c).1.
Proof.
  intros Hok Hw Hsub Hc [Hmw Hm]. unfold visit_atom. destruct (CpuSet_test st.2 c) eqn:Hv.
  - split; [by split|]. by apply Hok.
  - apply test_false in Hv. set (atom := CpuSet_andnot _ _).
    change (if CpuSet_is_empty atom then CpuSet_set c atom else atom) with (or_self c atom).
    assert (wf atom) as Haw by (unfold atom; auto with ioutgt).
    destruct (visit_all node (CpuSet_iter (or_self c atom)) st Hok) as [Hok' He]; [apply iter_NoDup| |].
    + intros d Hd%elem_of_iter. apply or_self_mem in Hd as [->|Hd]; [split; [by apply Hsub|done]| |done].
      unfold atom in Hd. rewrite test_andnot, test_and, !andb_true_iff, negb_true_iff, test_false in Hd.
      destruct Hd as [[_ Hd] Hdv]. split; [by apply Hsub|done].
    + split; [split; [done|rewrite He; by apply list_subseteq_app_l]|]. rewrite He. apply elem_of_app. right. apply elem_of_iter. by apply or_self_own.
Qed.

Lemma visit_atoms_ok topo node clus l st :
  walk_ok node st -> wf clus -> (forall d, mem clus d -> mem node d) -> (forall c, c ∈ l -> mem clus c /\ own_mask (sibling topo) c) ->
  further node st (fold_left (visit_atom topo clus) l st) /\ l ⊆ (fold_left (visit_atom topo clus) l st).1.
Proof.
  intros Hok Hw Hsub. revert st Hok. induction l as [|c l IH]; intros st Hok Hl; cbn; [split; [by split|apply list_subseteq_nil]|].
  destruct (Hl c) as [Hc Hm]; [by left|]. destruct (visit_atom_ok topo node clus st c) as [[Hok' Hsub'] Hin]; try done.
  destruct (IH (visit_atom topo clus st c) Hok') as [[Hok2 Hs2] Hl2]; [intros d Hd; apply Hl; by right|].
  split; [split; [done|by etrans]|]. by intros d [->|Hd]%elem_of_cons; [apply Hs2|apply Hl2].
Qed.

Lemma visit_cluster_ok node topo st cpu :
  walk_ok node st -> wf node -> mem node cpu -> (forall c, mem node c -> own_mask (sibling topo) c) -> own_mask (cluster topo) cpu ->
  further node st (visit_cluster node topo st cpu) /\ cpu ∈ (visit_cluster node topo st cpu).1.
Proof.
  intros Hok Hw Hin Hsib [Hcw Hc]. unfold visit_cluster. destruct (CpuSet_test st.2 cpu) eqn:Hv.
  - split; [by split|]. by apply Hok.
  - apply test_false in Hv. set (m := if CpuSet_is_empty (mask_of (cluster topo) cpu) then _ else _).
    change (if CpuSet_is_empty ?a then CpuSet_set cpu ?a else ?a) with (or_self cpu a).
    destruct (Hsib cpu Hin) as [Hsw Hs].
    assert (wf m /\ (CpuSet_is_empty m = true \/ mem m cpu)) as [Hmw Hm].
    { unfold m. destruct (CpuSet_is_empty (mask_of (cluster topo) cpu)) eqn:He; [done|]. split; [done|]. rewrite He. exact Hc. }
    set (clus := or_self cpu _). assert (mem clus cpu) as Hself by (by apply or_self_own).
    assert (forall d, mem clus d -> mem node d) as Hsub.
    { intros d Hd. apply or_self_mem in Hd as [->|Hd]; [done| |auto with ioutgt].
      rewrite test_andnot, test_and, !andb_true_iff in Hd. apply Hd. }
    destruct (visit_atoms_ok topo node clus (CpuSet_iter clus) st Hok) as [Hf Hl]; [apply or_self_wf; auto with ioutgt|done| |].
    + intros c Hc'%elem_of_iter. split; [done|]. by apply Hsib, Hsub.
    + split; [done|]. apply Hl, elem_of_iter. done.
Qed.

Lemma fill_order_spec node topo :
  wf node -> (forall c, mem node c -> own_mask (sibling topo) c /\ own_mask (cluster topo) c) ->
  fill_order node topo ≡ₚ CpuSet_iter node.
Proof.
  intros Hw Hm. unfold fill_order.
  assert (forall l st, walk_ok node st -> (forall c, c ∈ l -> mem node c) ->
    further node st (fold_left (visit_cluster node topo) l st) /\ l ⊆ (fold_left (visit_cluster node topo) l st).1) as Hloop.
  { induction l as [|c l IH]; intros st Hok Hl; cbn; [split; [by split|apply list_subseteq_nil]|].
    destruct (visit_cluster_ok node topo st c) as [[Hok' Hsub] Hin]; [done|done|apply Hl; by left|intros d Hd; by apply Hm|apply Hm, Hl; by left|].
    destruct (IH _ Hok') as [[Hok2 Hs2] Hl2]; [intros d Hd; apply Hl; by right|].
    split; [split; [done|by etrans]|]. by intros d [->|Hd]%elem_of_cons; [apply Hs2|apply Hl2]. }
  destruct (Hloop (CpuSet_iter node) ([], CpuSet_new)) as [[Hok _] Hl].
  - split; [constructor|]. split; cbn; intros c; [rewrite test_new; split; [done|]|]; by intros ?%elem_of_nil.
  - intros c. apply elem_of_iter.
  - apply NoDup_Permutation; [apply Hok|apply iter_NoDup|]. intros c. split; [intros Hc; by apply elem_of_iter, Hok|apply Hl].
Qed.

(** ** Weights *)

Lemma weight_ext s t : (forall c, CpuSet_test s c = CpuSet_test t c) -> CpuSet_weight s = CpuSet_weight t.
Proof. intros H. by rewrite <- !iter_length, (iter_ext s t). Qed.

Lemma iter_set c s : ~ mem s c -> CpuSet_iter (CpuSet_set c s) ≡ₚ c :: CpuSet_iter s.
Proof.
  intros Hc. apply NoDup_Permutation; [apply iter_NoDup|constructor; [by rewrite elem_of_iter|apply iter_NoDup]|].
  intros d. rewrite elem_of_cons, !elem_of_iter, test_set, orb_true_iff, bool_decide_eq_true. done.
Qed.

Lemma weight_set c s : ~ mem s c -> CpuSet_weight (CpuSet_set c s) = S (CpuSet_weight s).
Proof. intros Hc. by rewrite <- !iter_length, iter_set. Qed.

Lemma weight_new : CpuSet_weight CpuSet_new = 0%nat.
Proof. done. Qed.

#[local] Opaque CpuSet_set CpuSet_and CpuSet_or CpuSet_andnot CpuSet_weight CpuSet_test CpuSet_is_empty.

Lemma empty_weight s : wf s -> CpuSet_is_empty s = true <-> CpuSet_weight s = 0%nat.
Proof.
  intros Hw. rewrite is_empty_spec, <- iter_length by done. split.
  - intros H. destruct (CpuSet_iter s) as [|c l] eqn:Hi; [done|]. assert (mem s c) as Hc by (apply elem_of_iter; rewrite Hi; by left).
    by rewrite H in Hc.
  - intros H%nil_length_inv c. apply test_false. rewrite <- elem_of_iter, H. apply not_elem_of_nil.
Qed.

(** ** Groups that hold the CPUs [P], each once *)

Record holds (P : list nat) (gs : list CpuSet) : Prop := {
  h_wf : Forall wf gs;
  h_in : forall j g c, gs !! j = Some g -> mem g c -> c ∈ P;
  h_all : forall c, c ∈ P -> exists j g, gs !! j = Some g /\ mem g c;
  h_once : forall j k g h c, gs !! j = Some g -> gs !! k = Some h -> mem g c -> mem h c -> j = k;
}.

Lemma holds_nil n : holds [] (replicate n CpuSet_new).
Proof.
  split.
  - apply Forall_replicate, cpu_new_wf.
  - intros j g c [-> _]%lookup_replicate Hc. by rewrite test_new in Hc.
  - by intros c Hc%elem_of_nil.
  - intros j k g h c [-> _]%lookup_replicate _ Hc. by rewrite test_new in Hc.
Qed.

Lemma holds_add P gs j g c :
  holds P gs -> c ∉ P -> gs !! j = Some g -> holds (c :: P) (alter (CpuSet_set c) j gs).
Proof.
  intros [H1 H2 H3 H4] Hc Hj.
  assert (forall k h, alter (CpuSet_set c) j gs !! k = Some h ->
    exists g0, gs !! k = Some g0 /\ forall d, mem h d <-> (d = c /\ k = j) \/ mem g0 d) as Hlk.
  { intros k h Hk. destruct (decide (j = k)) as [->|Hne].
    - rewrite list_lookup_alter_eq, Hj in Hk. injection Hk as <-. exists g. split; [done|]. intros d.
      rewrite test_set, orb_true_iff, bool_decide_eq_true. naive_solver.
    - rewrite list_lookup_alter_ne in Hk by done. exists h. split; [done|]. intros d. naive_solver. }
  split.
  - apply Forall_alter; [done|]. intros x _ Hx. by apply set_wf.
  - intros k h d (g0 & Hg & Hm)%Hlk Hd. apply Hm in Hd as [[-> _]|Hd]; [by left|right; by eapply H2].
  - intros d [->|Hd]%elem_of_cons.
    + exists j, (CpuSet_set c g). rewrite list_lookup_alter_eq, Hj. split; [done|]. by rewrite test_set, bool_decide_true.
    + destruct (H3 d Hd) as (k & h & Hk & Hm). destruct (decide (j = k)) as [->|Hne].
      * exists k, (CpuSet_set c h). rewrite list_lookup_alter_eq, Hk. split; [done|]. by rewrite test_set, Hm, orb_true_r.
      * exists k, h. by rewrite list_lookup_alter_ne.
  - intros k l g1 g2 d (a & Ha & Hma)%Hlk (b & Hb & Hmb)%Hlk H5%Hma H6%Hmb.
    destruct H5 as [[-> ->]|H5], H6 as [[He ->]|H6]; [done| | |by eapply H4].
    + destruct Hc. by apply (H2 l b).
    + destruct Hc. subst d. by apply (H2 k a).
Qed.

(** How many CPUs of [s] each group has. *)
Definition counts (s : CpuSet) (gs : list CpuSet) : list nat := map (fun g => CpuSet_weight (CpuSet_and g s)) gs.

Definition sizes (gs : list CpuSet) : list nat := map CpuSet_weight gs.

Lemma alter_sizes c gs j g : gs !! j = Some g -> ~ mem g c -> sizes (alter (CpuSet_set c) j gs) = alter S j (sizes gs).
Proof.
  unfold sizes. revert j. induction gs as [|h gs IH]; intros [|j] Hj Hc; try done.
  - cbn in Hj. injection Hj as ->. cbn. f_equal. by apply weight_set.
  - cbn in *. f_equal. by apply IH.
Qed.

Lemma counts_other s c gs j : ~ mem s c -> counts s (alter (CpuSet_set c) j gs) = counts s gs.
Proof.
  intros Hc. unfold counts. revert j. induction gs as [|h gs IH]; intros [|j]; cbn; [done..| |f_equal; apply IH]. f_equal.
  apply weight_ext. intros d. rewrite !test_and, test_set. case_bool_decide as Hd; [|done]. subst d. apply test_false in Hc as ->.
  by rewrite !andb_false_r.
Qed.

(** The state of the packing loops: [P] is placed within the quotas. *)
Definition packed (P quota : list nat) (st : Groups) : Prop :=
  holds P st.1 /\ st.2 = sizes st.1 /\ below st.2 quota /\ sum_list st.2 = length P.

Lemma packed_add P quota st c j x y :
  packed P quota st -> c ∉ P -> st.2 !! j = Some x -> quota !! j = Some y -> (x < y)%nat -> packed (c :: P) quota (add_cpu st j c).
Proof.
  intros (Hh & Hs & Hb & Hsum) Hc Hx Hy Hlt. destruct st as [gs fill]. cbn in *. subst fill.
  assert (exists g, gs !! j = Some g) as [g Hg].
  { unfold sizes in Hx. change (map ?f ?l) with (f <$> l) in Hx. rewrite list_lookup_fmap in Hx. destruct (gs !! j); [eauto|done]. }
  assert (~ mem g c) as Hgc by (intros Hm; apply Hc; by eapply (h_in _ _ Hh)).
  split; [by eapply holds_add|]. split; [symmetry; by apply (alter_sizes c gs j g)|]. split; [by eapply below_alter|]. cbn.
  pose proof (sum_alter S _ _ _ Hx). lia.
Qed.

Lemma packed_full P quota st : packed P quota st -> length P = sum_list quota -> sizes st.1 = quota.
Proof. intros (_ & <- & Hb & Hs) Hl. apply below_eq; [done|lia]. Qed.

(** ** The present CPUs *)

Lemma skip_full_ok fuel fill quota g :
  below fill quota -> (length quota < fuel + g)%nat ->
  (exists j x y, (g <= j)%nat /\ fill !! j = Some x /\ quota !! j = Some y /\ (x < y)%nat) ->
  exists j x y, skip_full fuel fill quota g = Some j /\ (g <= j)%nat /\ fill !! j = Some x /\ quota !! j = Some y /\ (x < y)%nat /\
    forall i, (g <= i < j)%nat -> fill !! i = quota !! i.
Proof.
  intros Hb. revert g. induction fuel as [|fuel IH]; intros g Hf (j & x & y & Hgj & Hx & Hy & Hlt).
  - apply lookup_lt_Some in Hy. lia.
  - cbn [skip_full]. destruct (lookup_lt_is_Some_2 fill g) as [a Ha]; [apply lookup_lt_Some in Hx; lia|].
    destruct (lookup_lt_is_Some_2 quota g) as [b Hq]; [apply lookup_lt_Some in Hy; lia|]. rewrite Ha, Hq. cbn [mbind option_bind].
    destruct (Nat.eqb_spec a b) as [->|Hne].
    + destruct (IH (g + 1)%nat) as (k & x' & y' & He & Hgk & Hx' & Hy' & Hlt' & Hfull); [lia| |].
      * exists j, x, y. split; [|done]. destruct (decide (g = j)) as [->|]; [|lia]. simplify_eq. lia.
      * exists k, x', y'. split; [done|]. split; [lia|]. split; [done|]. split; [done|]. split; [done|].
        intros i Hi. destruct (decide (i = g)) as [->|]; [congruence|]. apply Hfull. lia.
    + exists g, a, b. pose proof (Forall2_lookup_lr _ _ _ _ _ _ Hb Ha Hq). split; [done|]. split; [lia|]. split; [done|]. split; [done|].
      split; [lia|]. intros i Hi. lia.
Qed.

Lemma place_present_ok quota cpus g st P :
  packed P quota st -> NoDup cpus -> (forall c, c ∈ cpus -> c ∉ P) -> (length cpus + length P <= sum_list quota)%nat ->
  (forall i, (i < g)%nat -> st.2 !! i = quota !! i) ->
  exists st', place_present quota cpus g st = Ok st' /\ packed (rev cpus ++ P) quota st'.
Proof.
  revert g st P. induction cpus as [|c cpus IH]; intros g st P Hp Hnd Hnew Hsum Hfull; cbn [place_present]; [by exists st|].
  apply list.NoDup_cons in Hnd as [Hc Hnd]. pose proof Hp as (_ & _ & Hb & Hs). cbn in Hsum.
  destruct (below_lt _ _ Hb) as (j0 & x0 & y0 & Hx0 & Hy0 & Hlt0); [lia|].
  destruct (skip_full_ok (S (length quota)) st.2 quota g Hb) as (j & x & y & -> & Hgj & Hx & Hy & Hlt & Hskip); [lia| |].
  { exists j0, x0, y0. split; [|done]. destruct (decide (j0 < g)%nat) as [Hl|]; [|lia]. rewrite (Hfull _ Hl) in Hx0. simplify_eq. lia. }
  cbn [expect mbind res_bind]. destruct (IH j (add_cpu st j c) (c :: P)) as (st' & He & Hp'); [|done| | | |].
  - eapply packed_add; try done. apply Hnew. by left.
  - intros d Hd [->|Hin]%elem_of_cons; [done|]. apply (Hnew d); [by right|done].
  - cbn. lia.
  - intros i Hi. cbn. rewrite list_lookup_alter_ne by lia. destruct (decide (i < g)%nat); [by apply Hfull|apply Hskip; lia].
  - exists st'. split; [done|]. cbn. by rewrite <- app_assoc.
Qed.

(** ** The others *)

Lemma place_absent_ok topo quota cpus st P s :
  packed P quota st -> NoDup cpus -> (forall c, c ∈ cpus -> c ∉ P /\ ~ mem s c) -> (length cpus + length P <= sum_list quota)%nat ->
  exists st', place_absent topo quota cpus st = Ok st' /\ packed (rev cpus ++ P) quota st' /\ counts s st'.1 = counts s st.1.
Proof.
  revert st P. induction cpus as [|c cpus IH]; intros st P Hp Hnd Hnew Hsum; cbn [place_absent]; [by exists st|].
  apply list.NoDup_cons in Hnd as [Hc Hnd]. pose proof Hp as (_ & _ & Hb & Hs). cbn in Hsum. set (room := List.filter _ _).
  destruct (below_lt _ _ Hb) as (j0 & x0 & y0 & Hx0 & Hy0 & Hlt0); [lia|].
  assert (forall j, j ∈ room -> exists x y, st.2 !! j = Some x /\ quota !! j = Some y /\ (x < y)%nat) as Hroom.
  { intros j Hj. apply list_elem_of_In, filter_In in Hj as [Hj Hlt]. apply in_seq in Hj. apply Nat.ltb_lt in Hlt.
    destruct (lookup_lt_is_Some_2 quota j) as [y Hy]; [lia|].
    destruct (lookup_lt_is_Some_2 st.2 j) as [x Hx]; [rewrite (Forall2_length Hb); lia|].
    exists x, y. by rewrite (at_lookup _ _ _ Hx), (at_lookup _ _ _ Hy) in Hlt. }
  assert (j0 ∈ room) as Hj0.
  { apply list_elem_of_In, filter_In. split; [apply in_seq; apply lookup_lt_Some in Hy0; lia|].
    apply Nat.ltb_lt. by rewrite (at_lookup _ _ _ Hx0), (at_lookup _ _ _ Hy0). }
  set (pick := match _ with Some j => Some j | None => head room end).
  assert (exists j, pick = Some j /\ j ∈ room) as (j & -> & Hj).
  { unfold pick. destruct (List.find _ _) as [j|] eqn:Hf; [apply find_some in Hf as [Hf _]; exists j; by rewrite list_elem_of_In|].
    destruct room as [|j r]; [by apply elem_of_nil in Hj0|]. exists j. split; [done|by left]. }
  destruct (Hroom j Hj) as (x & y & Hx & Hy & Hlt). cbn [expect mbind res_bind].
  destruct (IH (add_cpu st j c) (c :: P)) as (st' & He & Hp' & Hcnt); [|done| | |].
  - eapply packed_add; try done. apply Hnew. by left.
  - intros d Hd. destruct (Hnew d) as [H1 H2]; [by right|]. split; [|done]. by intros [->|Hin]%elem_of_cons.
  - cbn. lia.
  - exists st'. split; [done|]. split; [cbn; by rewrite <- app_assoc|]. rewrite Hcnt. cbn. apply counts_other, Hnew. by left.
Qed.

(** ** A node *)

(** The groups [gs] split the set [whole], evenly also for the CPUs of [s]. *)
Record splits (whole s : CpuSet) (gs : list CpuSet) : Prop := {
  sp_wf : Forall wf gs;
  sp_in : forall j g c, gs !! j = Some g -> mem g c -> mem whole c;
  sp_all : forall c, mem whole c -> exists j g, gs !! j = Some g /\ mem g c;
  sp_once : forall j k g h c, gs !! j = Some g -> gs !! k = Some h -> mem g c -> mem h c -> j = k;
  sp_sizes : sizes gs = split_even (CpuSet_weight whole) (length gs);
  sp_counts : counts s gs = split_even (CpuSet_weight (CpuSet_and whole s)) (length gs);
}.

Lemma holds_perm P Q gs : P ≡ₚ Q -> holds P gs -> holds Q gs.
Proof. intros Hp [H1 H2 H3 H4]. split; [done| | |done]; intros; [rewrite <- Hp; by eapply H2|apply H3; by rewrite Hp]. Qed.

Lemma below_new n quota : (n = length quota)%nat -> below (replicate n 0%nat) quota.
Proof. intros ->. induction quota; cbn; constructor; [lia|done]. Qed.

Lemma packed_new n quota : n = length quota -> packed [] quota (replicate n CpuSet_new, replicate n 0%nat).
Proof.
  intros Hn. split; [apply holds_nil|]. split; [|split; [by apply below_new|]]; cbn.
  - clear. induction n; cbn; [done|]. by f_equal.
  - clear. induction n; cbn; [done|]. done.
Qed.

Lemma elem_of_rev {A} (l : list A) x : x ∈ rev l <-> x ∈ l.
Proof. by rewrite !list_elem_of_In, <- in_rev. Qed.

(** A count of all the CPUs placed is a size. *)
Lemma counts_present P s gs : holds P gs -> (forall c, c ∈ P -> mem s c) -> counts s gs = sizes gs.
Proof.
  intros Hh Hs. unfold counts, sizes. apply map_ext_in. intros g Hg%list_elem_of_In. apply list_elem_of_lookup in Hg as [j Hj].
  apply weight_ext. intros c. rewrite test_and. destruct (CpuSet_test g c) eqn:Hc; [|done]. by rewrite (Hs c) by (by eapply (h_in _ _ Hh)).
Qed.

Lemma filter_and (s : CpuSet) l whole :
  NoDup l -> (forall c, c ∈ l <-> mem whole c) -> length (List.filter (CpuSet_test s) l) = CpuSet_weight (CpuSet_and whole s).
Proof.
  intros Hnd Hl. rewrite <- iter_length. apply Permutation_length, NoDup_Permutation; [|apply iter_NoDup|].
  - apply NoDup_ListNoDup, NoDup_filter, NoDup_ListNoDup, Hnd.
  - intros c. rewrite elem_of_iter, test_and, andb_true_iff, <- Hl, !list_elem_of_In, filter_In. done.
Qed.

Lemma packed_mono P quota quota' st : below quota quota' -> packed P quota st -> packed P quota' st.
Proof. intros Hq (H1 & H2 & H3 & H4). split; [done|]. split; [done|]. split; [|done]. unfold below in *. by etrans. Qed.

Lemma pack_node_ok node seats topo :
  wf node -> (forall c, mem node c -> own_mask (sibling topo) c /\ own_mask (cluster topo) c) -> (0 < seats)%nat ->
  exists gs, pack_node node seats topo = Ok gs /\ length gs = seats /\ splits node (present topo) gs.
Proof.
  intros Hw Hm Hs. unfold pack_node. rewrite (proj2 (Nat.eqb_neq _ _)) by lia.
  pose proof (fill_order_spec node topo Hw Hm) as Hp. set (order := fill_order node topo) in *.
  assert (NoDup order) as Hnd by (rewrite Hp; apply iter_NoDup).
  assert (forall c, c ∈ order <-> mem node c) as Hin by (intros c; rewrite Hp; apply elem_of_iter).
  assert (length order = CpuSet_weight node) as Hlen by (rewrite Hp; apply iter_length).
  set (pre := List.filter (CpuSet_test (present topo)) order). set (abs := List.filter _ order).
  assert (pre ++ abs ≡ₚ order) as Hsplit.
  { unfold pre, abs. clear. induction order as [|c l IH]; cbn; [done|]. destruct (CpuSet_test (present topo) c); cbn; [by rewrite IH|].
    by rewrite <- Permutation_middle, IH. }
  assert (length pre = CpuSet_weight (CpuSet_and node (present topo))) as Hpre by (by apply filter_and).
  rewrite <- Hsplit in Hnd. apply list.NoDup_app in Hnd as (Hnp & Hdisj & Hna).
  destruct (place_present_ok (split_even (length pre) seats) pre 0 (replicate seats CpuSet_new, replicate seats 0%nat) [])
    as (st1 & -> & Hp1); [apply packed_new; by rewrite split_even_length|done|by intros c _ ?%elem_of_nil| |by intros i Hi; lia|].
  { rewrite split_even_sum by done. cbn. lia. }
  rewrite app_nil_r in Hp1. unfold mbind at 1, res_bind at 1.
  assert (sizes st1.1 = split_even (length pre) seats) as Hsz.
  { apply (packed_full (rev pre)); [done|]. by rewrite split_even_sum, length_rev. }
  assert (length order = length pre + length abs)%nat as Hol by (by rewrite <- Hsplit, length_app).
  destruct (place_absent_ok topo (split_even (length order) seats) abs st1 (rev pre) (present topo)) as (st & -> & Hst & Hcnt).
  { eapply packed_mono; [|done]. apply split_even_below. lia. }
  { done. }
  { intros c Hc. split; [intros Hx; rewrite elem_of_rev in Hx; by apply (Hdisj c)|].
    apply list_elem_of_In, filter_In in Hc as [_ Hc]. by apply negb_true_iff, test_false in Hc. }
  { rewrite split_even_sum, length_rev by done. lia. }
  cbn [mbind res_bind]. exists st.1. split; [done|].
  assert (sizes st.1 = split_even (length order) seats) as Hsz2.
  { apply (packed_full (rev abs ++ rev pre)); [done|]. rewrite split_even_sum, length_app, !length_rev by done. lia. }
  assert (length st.1 = seats) as Hlg by (by rewrite <- (split_even_length (length order) seats), <- Hsz2; unfold sizes; rewrite length_map).
  split; [done|]. destruct Hst as (Hh & _). apply (holds_perm _ order) in Hh.
  2: { rewrite <- Hsplit, Permutation_app_comm. by rewrite <- !Permutation_rev. }
  destruct Hh as [H1 H2 H3 H4]. split; try done.
  - intros j g c Hj Hc. apply Hin. by eapply H2.
  - intros c Hc%Hin. by apply H3.
  - by rewrite Hsz2, Hlg, Hlen.
  - rewrite Hcnt, Hlg, <- Hpre, (counts_present (rev pre)); [done|apply Hp1|].
    intros c Hc. rewrite elem_of_rev in Hc. apply list_elem_of_In, filter_In in Hc. apply Hc.
Qed.

(** ** Every node by itself *)

(** The groups [gs] with the index of the node each is in. *)
Record placed (nodes : list CpuSet) (s : CpuSet) (gs : list CpuSet) (home : list nat) : Prop := {
  pl_len : length home = length gs;
  pl_wf : Forall wf gs;
  pl_home : forall i, (exists j, home !! j = Some i) <-> (i < length nodes)%nat;
  pl_in : forall j g i node c, gs !! j = Some g -> home !! j = Some i -> nodes !! i = Some node -> mem g c -> mem node c;
  pl_all : forall i node c, nodes !! i = Some node -> mem node c -> exists j g, gs !! j = Some g /\ home !! j = Some i /\ mem g c;
  pl_once : forall i j k g h c, home !! j = Some i -> home !! k = Some i -> gs !! j = Some g -> gs !! k = Some h ->
    mem g c -> mem h c -> j = k;
  pl_even : forall i j k g h, home !! j = Some i -> home !! k = Some i -> gs !! j = Some g -> gs !! k = Some h ->
    (CpuSet_weight g <= CpuSet_weight h + 1)%nat /\
    (CpuSet_weight (CpuSet_and g s) <= CpuSet_weight (CpuSet_and h s) + 1)%nat;
}.

Lemma split_even_near n k i j x y : split_even n k !! i = Some x -> split_even n k !! j = Some y -> (x <= y + 1)%nat.
Proof.
  intros Hx Hy. pose proof (lookup_lt_Some _ _ _ Hx) as Hi. pose proof (lookup_lt_Some _ _ _ Hy) as Hj.
  rewrite split_even_length in Hi, Hj. rewrite split_even_at in Hx, Hy by done. injection Hx as <-. injection Hy as <-.
  destruct (i <? _)%nat, (j <? _)%nat; lia.
Qed.

Lemma splits_even whole s gs j k g h :
  splits whole s gs -> gs !! j = Some g -> gs !! k = Some h ->
  (CpuSet_weight g <= CpuSet_weight h + 1)%nat /\ (CpuSet_weight (CpuSet_and g s) <= CpuSet_weight (CpuSet_and h s) + 1)%nat.
Proof.
  intros Hs Hj Hk.
  assert (forall f n, map f gs = split_even n (length gs) -> (f g <= f h + 1)%nat) as Hgen.
  { intros f n Hf. apply (split_even_near n (length gs) j k); rewrite <- Hf; change (map ?a ?b) with (a <$> b);
      rewrite list_lookup_fmap; [by rewrite Hj|by rewrite Hk]. }
  split; [by eapply Hgen, (sp_sizes _ _ _ Hs)|]. by eapply (Hgen (fun g => CpuSet_weight (CpuSet_and g s))), (sp_counts _ _ _ Hs).
Qed.

(** The groups of a first node, in front of those of the others. *)
Lemma placed_cons node nodes s a b home :
  (0 < length a)%nat -> splits node s a -> placed nodes s b home -> placed (node :: nodes) s (a ++ b) (replicate (length a) 0%nat ++ map S home).
Proof.
  intros Hne Ha Hb.
  assert (forall j i, (replicate (length a) 0%nat ++ map S home) !! j = Some i ->
    (i = 0%nat /\ (j < length a)%nat) \/ exists i', i = S i' /\ (length a <= j)%nat /\ home !! (j - length a)%nat = Some i') as Hh.
  { intros j i [Hj|[Hlen Hj]]%lookup_app_Some; [apply lookup_replicate in Hj as [-> ?]; by left|]. rewrite length_replicate in Hlen, Hj.
    change (map S home) with (S <$> home) in Hj. rewrite list_lookup_fmap in Hj. destruct (home !! _) as [i'|] eqn:Hi; [|done].
    injection Hj as <-. right. by exists i'. }
  assert (forall j g, (j < length a)%nat -> (a ++ b) !! j = Some g -> a !! j = Some g) as La by (intros j g Hl; by rewrite lookup_app_l).
  assert (forall j g, (length a <= j)%nat -> (a ++ b) !! j = Some g -> b !! (j - length a)%nat = Some g) as Lb by (intros j g Hl; by rewrite lookup_app_r).
  assert (forall j i, home !! j = Some i -> (replicate (length a) 0%nat ++ map S home) !! (length a + j)%nat = Some (S i)) as Hup.
  { intros j i Hj. rewrite lookup_app_r; rewrite length_replicate; [|lia]. replace (length a + j - length a)%nat with j by lia.
    change (map S home) with (S <$> home). by rewrite list_lookup_fmap, Hj. }
  assert (forall j, (j < length a)%nat -> (replicate (length a) 0%nat ++ map S home) !! j = Some 0%nat) as Hlow.
  { intros j Hj. rewrite lookup_app_l by (by rewrite length_replicate). by apply lookup_replicate. }
  destruct Hb as [B1 B2 B3 B4 B5 B6 B7]. split.
  - by rewrite !length_app, length_replicate, length_map, B1.
  - apply list.Forall_app. split; [apply Ha|done].
  - intros i. split.
    + intros [j [[-> _]|(i' & -> & _ & Hj)]%Hh]; cbn; [lia|].
      assert (i' < length nodes)%nat by (apply B3; eauto). lia.
    + cbn. intros Hi. destruct i as [|i]; [exists 0%nat; by apply Hlow|]. destruct (proj2 (B3 i)) as [j Hj]; [lia|]. eauto.
  - intros j g i n c Hg [[-> Hj]|(i' & -> & Hj & Hi)]%Hh Hn Hc; cbn in Hn.
    + injection Hn as <-. by eapply (sp_in _ _ _ Ha), Hc; apply La.
    + eapply B4; [by apply Lb|exact Hi|done|done].
  - intros i n c Hn Hc. destruct i as [|i]; cbn in Hn.
    + injection Hn as <-. destruct (sp_all _ _ _ Ha c Hc) as (j & g & Hj & Hm). exists j, g. pose proof (lookup_lt_Some _ _ _ Hj).
      split; [by rewrite lookup_app_l|]. split; [by apply Hlow|done].
    + destruct (B5 i n c Hn Hc) as (j & g & Hj & Hi & Hm). exists (length a + j)%nat, g. split; [|split; [by apply Hup|done]].
      rewrite lookup_app_r by lia. by replace (length a + j - length a)%nat with j by lia.
  - intros i j k g h c [[-> Hj]|(i' & -> & Hj & Hi)]%Hh [[He Hk]|(i2 & He & Hk & Hi2)]%Hh Hg Hh' Hc Hc'; try lia.
    + eapply (sp_once _ _ _ Ha); [exact (La _ _ Hj Hg)|exact (La _ _ Hk Hh')|done|done].
    + injection He as <-. assert (j - length a = k - length a)%nat; [|lia]. by eapply B6; [exact Hi|exact Hi2|exact (Lb _ _ Hj Hg)|exact (Lb _ _ Hk Hh')|..].
  - intros i j k g h [[-> Hj]|(i' & -> & Hj & Hi)]%Hh [[He Hk]|(i2 & He & Hk & Hi2)]%Hh Hg Hh'; try lia.
    + eapply splits_even; [exact Ha|exact (La _ _ Hj Hg)|exact (La _ _ Hk Hh')].
    + injection He as <-. eapply B7; [exact Hi|exact Hi2|exact (Lb _ _ Hj Hg)|exact (Lb _ _ Hk Hh')].
Qed.

Lemma pack_nodes_ok topo nodes seats :
  length seats = length nodes -> Forall (fun n => (1 <= n)%nat) seats -> Forall wf nodes ->
  (forall n c, n ∈ nodes -> mem n c -> own_mask (sibling topo) c /\ own_mask (cluster topo) c) ->
  exists gs home, pack_nodes topo (zip nodes seats) = Ok gs /\ length gs = sum_list seats /\ placed nodes (present topo) gs home.
Proof.
  revert seats. induction nodes as [|node nodes IH]; intros [|n seats] Hl Hs Hw Hm; try done.
  - exists [], []. split; [done|]. split; [done|]. split; try done. intros i. cbn. split; [by intros [j ?]|lia].
  - apply list.Forall_cons in Hs as [Hn Hs]. apply list.Forall_cons in Hw as [Hwn Hw]. cbn [zip zip_with pack_nodes].
    destruct (pack_node_ok node n topo Hwn) as (a & -> & Hla & Ha); [intros c; apply Hm; by left|lia|].
    destruct (IH seats) as (b & home & -> & Hlb & Hb); [by injection Hl|done|done|intros m c Hin; apply Hm; by right|].
    cbn. exists (a ++ b), (replicate (length a) 0%nat ++ map S home). split; [done|]. split; [rewrite length_app; cbn; lia|].
    apply placed_cons; [lia|done|done].
Qed.
