(* ===== verification/Placement.v ===== *)
(** * Placing the IO threads

    The groups of [spread_cpus] partition the machine, stay in a node and are
    even; threads are pinned to different online CPUs; and the witnesses, on a
    machine of two nodes whose files are spelled out. *)

From S2P Require Import Prelude Pool FabricsExec CpuSet CpuSetProofs.
From S2P Require Import Spread SpreadProofs.

#[local] Opaque CpuSet_set CpuSet_and CpuSet_or CpuSet_andnot CpuSet_weight CpuSet_test CpuSet_is_empty CpuSet_iter.

Definition subset (s t : CpuSet) : Prop := forall c, mem s c -> mem t c.

(** No CPU is in two sets of the list. *)
Definition apart (l : list CpuSet) : Prop :=
  forall i j s t c, l !! i = Some s -> l !! j = Some t -> mem s c -> mem t c -> i = j.

Lemma apart_cons s l : apart (s :: l) <-> apart l /\ forall t c, t ∈ l -> mem s c -> ~ mem t c.
Proof.
  split.
  - intros H. split; [intros i j t u c Hi Hj Ht Hu; specialize (H (S i) (S j) t u c Hi Hj Ht Hu); lia|].
    intros t c [j Hj]%list_elem_of_lookup Hs Ht. by specialize (H 0%nat (S j) s t c eq_refl Hj Hs Ht).
  - intros [H H0] [|i] [|j] t u c Hi Hj Ht Hu; cbn in *; [done| | |f_equal; by eapply H].
    + injection Hi as <-. by apply list_elem_of_lookup_2, (H0 _ c) in Hj.
    + injection Hj as <-. by apply list_elem_of_lookup_2, (H0 _ c) in Hi.
Qed.

Lemma apart_filter (f : CpuSet -> bool) l : apart l -> apart (List.filter f l).
Proof.
  induction l as [|s l IH]; cbn; [done|]. intros [Hl Hs]%apart_cons. destruct (f s); [|by apply IH]. apply apart_cons. split; [by apply IH|].
  intros t c Ht. apply Hs. apply list_elem_of_In, filter_In in Ht as [Ht _]. by apply list_elem_of_In.
Qed.

(** ** Whole nodes *)

(** The nodes [P] are placed whole. *)
Record whole (nodes : list CpuSet) (P : list nat) (gs : list CpuSet) : Prop := {
  wh_in : forall j g c, gs !! j = Some g -> mem g c -> exists i n, i ∈ P /\ nodes !! i = Some n /\ mem n c /\ subset n g;
  wh_all : forall i n, i ∈ P -> nodes !! i = Some n -> exists j g, gs !! j = Some g /\ subset n g;
  wh_apart : apart gs;
}.

Lemma whole_nil nodes n : whole nodes [] (replicate n CpuSet_new).
Proof.
  split.
  - intros j g c [-> _]%lookup_replicate Hc. by rewrite test_new in Hc.
  - by intros i m Hi%elem_of_nil.
  - intros i j s t c [-> _]%lookup_replicate _ Hc. by rewrite test_new in Hc.
Qed.

Lemma whole_add nodes P gs i n k g :
  apart nodes -> whole nodes P gs -> i ∉ P -> nodes !! i = Some n -> gs !! k = Some g ->
  whole nodes (i :: P) (alter (fun s => CpuSet_or s n) k gs).
Proof.
  intros Hap [H1 H2 H3] Hi Hn Hk. set (gs' := alter _ k gs).
  assert (forall j h, gs' !! j = Some h -> exists h0, gs !! j = Some h0 /\ forall d, mem h d <-> (mem n d /\ j = k) \/ mem h0 d) as Hlk.
  { intros j h Hj. unfold gs' in Hj. destruct (decide (k = j)) as [->|Hne].
    - rewrite list_lookup_alter_eq, Hk in Hj. injection Hj as <-. exists g. split; [done|]. intros d.
      rewrite test_or, orb_true_iff. split; [intros [?|?]; auto|]. by intros [[? _]|?]; auto.
    - rewrite list_lookup_alter_ne in Hj by done. exists h. split; [done|]. intros d. split; [by right|]. by intros [[_ ->]|?]. }
  assert (forall j h0, gs !! j = Some h0 -> exists h, gs' !! j = Some h /\ subset h0 h) as Hup.
  { intros j h0 Hj. unfold gs'. destruct (decide (k = j)) as [->|Hne].
    - rewrite list_lookup_alter_eq, Hj. eexists. split; [done|]. intros d Hd. by rewrite test_or, Hd.
    - rewrite list_lookup_alter_ne by done. exists h0. split; [done|by intros d]. }
  split.
  - intros j h c Hj Hc. destruct (Hlk j h Hj) as (h0 & Hj0 & Hm). destruct (proj1 (Hm c) Hc) as [[Hnc ->]|Hc0].
    + exists i, n. split; [by left|]. split; [done|]. split; [done|]. intros d Hd. apply Hm. by left.
    + destruct (H1 j h0 c Hj0 Hc0) as (i' & n' & Hi' & Hn' & Hc' & Hs'). exists i', n'. split; [by right|]. split; [done|].
      split; [done|]. intros d Hd. apply Hm. right. by apply Hs'.
  - intros i' n' [->|Hi']%elem_of_cons Hn'.
    + rewrite Hn in Hn'. injection Hn' as <-. exists k, (CpuSet_or g n). unfold gs'. rewrite list_lookup_alter_eq, Hk. split; [done|].
      intros d Hd. by rewrite test_or, Hd, orb_true_r.
    + destruct (H2 i' n' Hi' Hn') as (j & h0 & Hj & Hs). destruct (Hup j h0 Hj) as (h & Hj' & Hs'). exists j, h. split; [done|].
      intros d Hd. by apply Hs', Hs.
  - assert (forall j h0 c, gs !! j = Some h0 -> mem h0 c -> ~ mem n c) as Hno.
    { intros j h0 c Hj Hc Hnc. destruct (H1 j h0 c Hj Hc) as (i' & n' & Hi' & Hn' & Hc' & _).
      assert (i = i') as -> by (by eapply Hap). done. }
    intros j1 j2 s t c Hj1 Hj2 Hs Ht. destruct (Hlk j1 s Hj1) as (s0 & Hs0 & Hms), (Hlk j2 t Hj2) as (t0 & Ht0 & Hmt).
    apply Hms in Hs. apply Hmt in Ht. destruct Hs as [[Hs ->]|Hs], Ht as [[Ht ->]|Ht]; [done| | |by eapply H3].
    + by destruct (Hno j2 t0 c Ht0 Ht).
    + by destruct (Hno j1 s0 c Hs0 Hs).
Qed.

Lemma min_by_in {A} (lt : A -> A -> bool) best l : min_by lt best l ∈ best :: l.
Proof.
  revert best. induction l as [|x l IH]; intros best; cbn; [by left|]. specialize (IH (if lt x best then x else best)).
  apply elem_of_cons in IH as [IH|IH]; [|by right; right]. rewrite IH. destruct (lt x best); [by right; left|by left].
Qed.

Lemma lightest_lt loads : (0 < length loads)%nat -> (lightest loads < length loads)%nat.
Proof.
  intros Hl. unfold lightest. match goal with |- (min_by ?f _ ?l < _)%nat => pose proof (min_by_in f 0%nat l) as H end.
  apply elem_of_cons in H as [->|[_ H]%elem_of_seq]; [done|lia].
Qed.

Lemma place_nodes_ok nodes weights order st P :
  apart nodes -> NoDup order -> (forall i, i ∈ order -> i ∉ P /\ (i < length nodes)%nat) ->
  length st.2 = length st.1 -> (0 < length st.1)%nat -> whole nodes P st.1 ->
  whole nodes (rev order ++ P) (fold_left (place_node nodes weights) order st).1 /\
  length (fold_left (place_node nodes weights) order st).1 = length st.1.
Proof.
  intros Hap. revert st P. induction order as [|i order IH]; intros st P Hnd Hin Hl Hpos Hw; cbn; [done|].
  apply list.NoDup_cons in Hnd as [Hi Hnd]. destruct (Hin i) as [HiP Hlt]; [by left|].
  destruct (lookup_lt_is_Some_2 nodes i Hlt) as [n Hn]. pose proof (lightest_lt st.2 ltac:(lia)) as Hg.
  destruct (lookup_lt_is_Some_2 st.1 (lightest st.2)) as [g Hg']; [lia|].
  destruct (IH (place_node nodes weights st i) (i :: P)) as [Hw' Hl'].
  - done.
  - intros j Hj. destruct (Hin j) as [HjP Hjl]; [by right|]. split; [|done]. by intros [->|?]%elem_of_cons.
  - cbn. by rewrite !length_alter.
  - cbn. by rewrite length_alter.
  - cbn. rewrite Hn. cbn. by eapply whole_add.
  - rewrite <- app_assoc. split; [done|]. rewrite Hl'. cbn. apply length_alter.
Qed.

Lemma pack_whole_ok ngroups nodes weights :
  apart nodes -> (0 < ngroups)%nat ->
  whole nodes (rev (sort_by (heavier weights) (seq 0 (length nodes)))) (pack_whole_nodes ngroups nodes weights) /\
  length (pack_whole_nodes ngroups nodes weights) = ngroups.
Proof.
  intros Hap Hn. unfold pack_whole_nodes. set (order := sort_by _ _). assert (order ≡ₚ seq 0 (length nodes)) as Hp by apply sort_by_perm.
  destruct (place_nodes_ok nodes weights order (replicate ngroups CpuSet_new, replicate ngroups 0%nat) []) as [Hw Hl]; cbn.
  - done.
  - rewrite Hp. apply NoDup_seq.
  - intros i Hi. rewrite Hp in Hi. apply elem_of_seq in Hi. split; [apply not_elem_of_nil|lia].
  - by rewrite !length_replicate.
  - by rewrite length_replicate.
  - apply whole_nil.
  - rewrite app_nil_r in Hw. split; [done|]. rewrite Hl. apply length_replicate.
Qed.

(** ** A topology *)

(** What the kernel's topology files promise: the nodes of a CPU are one, every
    possible CPU has one, and a CPU's masks are empty or contain it. *)
Record topo_ok (topo : CpuTopology) : Prop := {
  tk_nodes : Forall wf (node_to_cpus topo);
  tk_possible : wf (possible topo);
  tk_apart : apart (node_to_cpus topo);
  tk_cover : forall c, mem (possible topo) c -> exists n, n ∈ node_to_cpus topo /\ mem n c;
  tk_masks : forall c, mem (possible topo) c -> own_mask (sibling topo) c /\ own_mask (cluster topo) c;
}.

Lemma live_node topo n : n ∈ live_nodes topo <-> CpuSet_is_empty n = false /\ exists m, m ∈ node_to_cpus topo /\ n = CpuSet_and m (possible topo).
Proof.
  unfold live_nodes. rewrite list_elem_of_In, filter_In, in_map_iff, negb_true_iff. setoid_rewrite list_elem_of_In. naive_solver.
Qed.

Lemma live_ok topo :
  topo_ok topo ->
  Forall wf (live_nodes topo) /\ apart (live_nodes topo) /\
  (forall n c, n ∈ live_nodes topo -> mem n c -> mem (possible topo) c) /\
  (forall c, mem (possible topo) c -> exists n, n ∈ live_nodes topo /\ mem n c).
Proof.
  intros [H1 H2 H3 H4 H5].
  assert (forall m, m ∈ node_to_cpus topo -> wf (CpuSet_and m (possible topo))) as Hwf.
  { intros m Hm. rewrite list.Forall_forall in H1. apply and_wf. by apply H1. }
  split; [|split; [|split]].
  - apply list.Forall_forall. intros n (_ & m & Hm & ->)%live_node. by apply Hwf.
  - apply apart_filter. intros i j s t c Hi Hj Hs Ht. change (map ?f ?l) with (f <$> l) in Hi, Hj.
    rewrite list_lookup_fmap in Hi, Hj. destruct (node_to_cpus topo !! i) as [a|] eqn:Ha; [|done].
    destruct (node_to_cpus topo !! j) as [b|] eqn:Hb; [|done]. injection Hi as <-. injection Hj as <-.
    rewrite test_and, andb_true_iff in Hs, Ht. by eapply H3; [exact Ha|exact Hb|apply Hs|apply Ht].
  - intros n c (_ & m & _ & ->)%live_node. rewrite test_and, andb_true_iff. by intros [].
  - intros c Hc. destruct (H4 c Hc) as (m & Hm & Hmc). exists (CpuSet_and m (possible topo)).
    assert (mem (CpuSet_and m (possible topo)) c) as Hin by (by rewrite test_and, Hmc, Hc). split; [|done].
    apply live_node. split; [|by exists m]. apply not_true_iff_false. intros He. rewrite is_empty_spec in He by (by apply Hwf).
    by rewrite He in Hin.
Qed.

Lemma node_weights_ok topo :
  Forall wf (live_nodes topo) -> live_nodes topo <> [] ->
  length (node_weights topo) = length (live_nodes topo) /\ (0 < sum_list (node_weights topo))%nat.
Proof.
  intros Hw Hne.
  assert (forall l : list nat, forallb (Nat.eqb 0) l = false -> (0 < sum_list l)%nat) as Hpos.
  { induction l as [|x l IH]; cbn; [done|]. destruct x; cbn; [apply IH|lia]. }
  unfold node_weights. destruct (forallb _ _) eqn:Hf; [|rewrite length_map; split; [done|by apply Hpos]].
  rewrite length_map. split; [done|]. destruct (live_nodes topo) as [|n l] eqn:Hl; [done|].
  assert (n ∈ live_nodes topo) as Hin by (rewrite Hl; by left). apply live_node in Hin as [He _].
  apply list.Forall_cons in Hw as [Hwn _]. apply not_true_iff_false in He. rewrite empty_weight in He by done. cbn. lia.
Qed.

(** ** The partition *)

(** The groups, with the node of each where there are enough of them. *)
Lemma spread_ok ngroups topo :
  topo_ok topo -> (0 < ngroups)%nat -> Z.of_nat (ngroups * sum_list (node_weights topo)) < 2 ^ 64 ->
  exists gs, spread_cpus ngroups topo = Ok gs /\ length gs = ngroups /\
    ((length (live_nodes topo) <= ngroups)%nat /\ live_nodes topo <> [] /\ (exists home, placed (live_nodes topo) (present topo) gs home) \/
     (ngroups < length (live_nodes topo))%nat /\ (exists P, P ≡ₚ seq 0 (length (live_nodes topo)) /\ whole (live_nodes topo) P gs) \/
     live_nodes topo = [] /\ gs = replicate ngroups CpuSet_new).
Proof.
  intros Ht Hn H64. destruct (live_ok topo Ht) as (Hw & Hap & Hsub & Hcov). unfold spread_cpus.
  rewrite (proj2 (Nat.eqb_neq _ _)) by lia. case_bool_decide as Hnil.
  { eexists. split; [done|]. rewrite length_replicate. split; [done|]. by right; right. }
  destruct (node_weights_ok topo Hw Hnil) as [Hwl Hws]. destruct (Nat.ltb_spec ngroups (length (live_nodes topo))) as [Hlt|Hge].
  - destruct (pack_whole_ok ngroups (live_nodes topo) (node_weights topo) Hap Hn) as [Hwh Hl]. eexists. split; [done|]. split; [done|].
    right; left. split; [done|]. eexists. split; [|exact Hwh]. by rewrite <- Permutation_rev, sort_by_perm.
  - destruct (apportion_spec ngroups (node_weights topo)) as (seats & -> & Hsl & Hs1 & Hss); [|lia|done|done|].
    { intros H. rewrite H in Hws. cbn in Hws. lia. }
    cbn [mbind res_bind].
    destruct (pack_nodes_ok topo (live_nodes topo) seats) as (gs & home & -> & Hl & Hp); [lia|done|done| |].
    { intros n c Hin Hc. by eapply (tk_masks _ Ht), Hsub. }
    exists gs. split; [done|]. split; [lia|]. left. split; [done|]. split; [done|]. by exists home.
Qed.

Lemma placed_apart nodes s gs home : apart nodes -> placed nodes s gs home -> apart gs.
Proof.
  intros Hap Hp j k g h c Hj Hk Hg Hh.
  assert (forall j g, gs !! j = Some g -> exists i n, home !! j = Some i /\ nodes !! i = Some n) as Hhome.
  { intros j0 g0 Hj0. destruct (lookup_lt_is_Some_2 home j0) as [i Hi]; [rewrite (pl_len _ _ _ _ Hp); by eapply lookup_lt_Some|].
    destruct (lookup_lt_is_Some_2 nodes i) as [n Hn]; [apply (pl_home _ _ _ _ Hp); eauto|]. eauto. }
  destruct (Hhome j g Hj) as (i1 & n1 & Hi1 & Hn1), (Hhome k h Hk) as (i2 & n2 & Hi2 & Hn2).
  assert (i1 = i2) as ->; [|exact (pl_once _ _ _ _ Hp i2 j k g h c Hi1 Hi2 Hj Hk Hg Hh)].
  apply (Hap i1 i2 n1 n2 c Hn1 Hn2); [exact (pl_in _ _ _ _ Hp j g i1 n1 c Hj Hi1 Hn1 Hg)|exact (pl_in _ _ _ _ Hp k h i2 n2 c Hk Hi2 Hn2 Hh)].
Qed.

Lemma spread_groups ngroups topo :
  topo_ok topo -> (0 < ngroups)%nat -> Z.of_nat (ngroups * sum_list (node_weights topo)) < 2 ^ 64 ->
  exists gs, spread_cpus ngroups topo = Ok gs /\ apart gs /\ forall j g c, gs !! j = Some g -> mem g c -> mem (possible topo) c.
Proof.
  intros Ht Hn H64. destruct (live_ok topo Ht) as (_ & Hap & Hsub & _).
  destruct (spread_ok ngroups topo Ht Hn H64) as (gs & He & Hl & Hcase). exists gs. split; [done|].
  destruct Hcase as [(Hle & Hne & home & Hp)|[(Hlt & P & HP & Hwh)|[Hnil ->]]].
  - split; [by eapply placed_apart|]. intros j g c Hj Hc.
    destruct (lookup_lt_is_Some_2 home j) as [i Hi]; [rewrite (pl_len _ _ _ _ Hp); by eapply lookup_lt_Some|].
    destruct (lookup_lt_is_Some_2 (live_nodes topo) i) as [n Hn']; [apply (pl_home _ _ _ _ Hp); eauto|].
    eapply (Hsub n); [by eapply list_elem_of_lookup_2|]. by eapply (pl_in _ _ _ _ Hp).
  - split; [apply Hwh|]. intros j g c Hj Hc. destruct (wh_in _ _ _ Hwh j g c Hj Hc) as (i & n & _ & Hi & Hnc & _).
    by eapply Hsub; [eapply list_elem_of_lookup_2|].
  - split.
    + intros i j s t c [-> _]%lookup_replicate _ Hc. by rewrite test_new in Hc.
    + intros j g c [-> _]%lookup_replicate Hc. by rewrite test_new in Hc.
Qed.

(** The groups are [ngroups] disjoint sets whose union is the possible CPUs. *)
Definition partitions (topo : CpuTopology) (gs : list CpuSet) : Prop :=
  apart gs /\ forall c, mem (possible topo) c <-> exists j g, gs !! j = Some g /\ mem g c.

(** C30. The pinning groups partition the machine.  On every topology the kernel's
    files describe, exactly the requested number of groups comes back, pairwise
    disjoint, together all possible CPUs, and nothing panics; with at least as
    many groups as populated NUMA nodes every group stays inside one node, and
    with fewer every node stays whole in one group. *)
Theorem spread_partition ngroups topo :
  topo_ok topo -> (0 < ngroups)%nat -> Z.of_nat (ngroups * sum_list (node_weights topo)) < 2 ^ 64 ->
  exists gs, spread_cpus ngroups topo = Ok gs /\ length gs = ngroups /\ partitions topo gs /\
    ((length (live_nodes topo) <= ngroups)%nat -> live_nodes topo <> [] ->
       forall j g, gs !! j = Some g -> exists n, n ∈ live_nodes topo /\ subset g n) /\
    ((ngroups < length (live_nodes topo))%nat -> forall n, n ∈ live_nodes topo -> exists j g, gs !! j = Some g /\ subset n g).
Proof.
  intros Ht Hn H64. destruct (live_ok topo Ht) as (Hw & Hap & Hsub & Hcov).
  destruct (spread_ok ngroups topo Ht Hn H64) as (gs & He & Hl & Hcase), (spread_groups ngroups topo Ht Hn H64) as (gs' & He' & Hag & Hpos).
  rewrite He in He'. injection He' as <-. exists gs. split; [done|]. split; [done|].
  assert (forall Q : Prop, Q -> (forall c, mem (possible topo) c -> exists j g, gs !! j = Some g /\ mem g c) -> partitions topo gs /\ Q) as Hpart.
  { intros Q HQ Hall. split; [|done]. split; [done|]. intros c. split; [apply Hall|]. intros (j & g & Hj & Hc). by eapply Hpos. }
  destruct Hcase as [(Hle & _ & home & Hp)|[(Hlt & P & HP & Hwh)|[Hnil ->]]]; apply Hpart.
  - split; [|intros; lia]. intros _ _ j g Hj.
    destruct (lookup_lt_is_Some_2 home j) as [i Hi]; [rewrite (pl_len _ _ _ _ Hp); by eapply lookup_lt_Some|].
    destruct (lookup_lt_is_Some_2 (live_nodes topo) i) as [n Hn']; [apply (pl_home _ _ _ _ Hp); eauto|].
    exists n. split; [by eapply list_elem_of_lookup_2|]. intros c Hc. by eapply (pl_in _ _ _ _ Hp).
  - intros c (n & [i Hi]%list_elem_of_lookup & Hc)%Hcov. destruct (pl_all _ _ _ _ Hp i n c Hi Hc) as (j & g & Hj & _ & Hg). eauto.
  - split; [intros; lia|]. intros _ n [i Hi]%list_elem_of_lookup. apply (wh_all _ _ _ Hwh i n); [|done]. rewrite HP. apply elem_of_seq.
    apply lookup_lt_Some in Hi. lia.
  - intros c (n & [i Hi]%list_elem_of_lookup & Hc)%Hcov. destruct (wh_all _ _ _ Hwh i n) as (j & g & Hj & Hs); [|done|].
    { rewrite HP. apply elem_of_seq. apply lookup_lt_Some in Hi. lia. } exists j, g. split; [done|by apply Hs].
  - rewrite Hnil. split; [done|intros; cbn in *; lia].
  - intros c (n & Hn' & _)%Hcov. rewrite Hnil in Hn'. by apply elem_of_nil in Hn'.
Qed.

(** The groups are even.  With at least as many groups as populated nodes, each
    group belongs to one node, each node has a group, and two groups of a node
    differ by at most one CPU and by at most one present CPU. *)
Theorem spread_even ngroups topo gs :
  topo_ok topo -> (0 < ngroups)%nat -> Z.of_nat (ngroups * sum_list (node_weights topo)) < 2 ^ 64 ->
  (length (live_nodes topo) <= ngroups)%nat -> live_nodes topo <> [] -> spread_cpus ngroups topo = Ok gs ->
  exists home : list nat, length home = length gs /\
    (forall i, (i < length (live_nodes topo))%nat <-> exists j, home !! j = Some i) /\
    (forall i j g n, gs !! j = Some g -> home !! j = Some i -> live_nodes topo !! i = Some n -> subset g n) /\
    (forall i j k g h, home !! j = Some i -> home !! k = Some i -> gs !! j = Some g -> gs !! k = Some h ->
       (CpuSet_weight g <= CpuSet_weight h + 1)%nat /\
       (CpuSet_weight (CpuSet_and g (present topo)) <= CpuSet_weight (CpuSet_and h (present topo)) + 1)%nat).
Proof.
  intros Ht Hn H64 Hle Hne He. destruct (spread_ok ngroups topo Ht Hn H64) as (gs' & He' & _ & Hcase). rewrite He in He'. injection He' as <-.
  destruct Hcase as [(_ & _ & home & Hp)|[(Hlt & _)|[? _]]]; [|lia|done]. exists home. split; [apply Hp|]. split; [|split].
  - intros i. symmetry. apply (pl_home _ _ _ _ Hp).
  - intros i j g n Hj Hi Hi' c Hc. by eapply (pl_in _ _ _ _ Hp).
  - apply (pl_even _ _ _ _ Hp).
Qed.

(** ** The topology files *)

Lemma sets_wf l s : wf s -> wf (fold_left (fun s cpu => CpuSet_set cpu s) l s).
Proof. revert s. induction l as [|c l IH]; intros s Hs; cbn; [done|]. by apply IH, set_wf. Qed.

Lemma from_part_spec p s :
  (exists e, from_part p s = Err e) \/ exists l, from_part p s = Ok (fold_left (fun s cpu => CpuSet_set cpu s) l s).
Proof.
  unfold from_part. destruct (match split_once dash p with Some q => q | None => (p, p) end) as [lo hi].
  unfold ok_or, mbind, res_bind. destruct (parse_usize lo) as [a|]; [|by left; eexists].
  destruct (parse_usize hi) as [b|]; [|by left; eexists]. destruct (b <? a)%nat; [by left; eexists|by right; eexists].
Qed.

Lemma from_parts_ok ps s : wf s -> match from_parts ps s with Ok s' => wf s' | Err _ => True | Panic => False end.
Proof.
  revert s. induction ps as [|p ps IH]; intros s Hs; cbn [from_parts]; [done|].
  destruct (from_part_spec p s) as [[e ->]|[l ->]]; cbn; [done|]. by apply IH, sets_wf.
Qed.

Lemma read_opt_ok f : match read_cpulist_opt f with Ok s => wf s | Err _ => True | Panic => False end.
Proof.
  destruct f as [t| |]; cbn; [|apply cpu_new_wf|done]. unfold from_cpulist.
  pose proof (from_parts_ok (List.filter (fun p => negb (bool_decide (p = []))) (split comma (trim t))) CpuSet_new cpu_new_wf) as H.
  by destruct (from_parts _ _).
Qed.

Lemma read_ok f : match read_cpulist f with Ok s => wf s | Err _ => True | Panic => False end.
Proof. pose proof (read_opt_ok f) as H. by destruct f. Qed.

Lemma read_nodes_ok es nodes : Forall wf nodes -> match read_nodes es nodes with Ok l => Forall wf l | Err _ => True | Panic => False end.
Proof.
  revert nodes. induction es as [|[[name f]|] es IH]; intros nodes Hw; cbn [read_nodes]; [done| |done].
  destruct (node_id name) as [id|]; [|by apply IH]. pose proof (read_opt_ok f) as Hr. destruct (read_cpulist_opt f) as [s|e|]; cbn; [|done|done].
  apply IH. apply Forall_insert; [|done]. unfold resized. destruct (_ <? _)%nat; [|done].
  apply list.Forall_app. split; [done|]. apply Forall_replicate, cpu_new_wf.
Qed.

Lemma union_of_mem l c : mem (union_of l) c <-> exists n, n ∈ l /\ mem n c.
Proof.
  unfold union_of. assert (forall s, mem (fold_left CpuSet_or l s) c <-> mem s c \/ exists n, n ∈ l /\ mem n c) as H.
  { induction l as [|n l IH]; intros s; cbn.
    - split; [by left|]. intros [?|(n & ?%elem_of_nil & _)]; done.
    - rewrite IH, test_or, orb_true_iff. setoid_rewrite elem_of_cons. split.
      + intros [[?|?]|(m & ? & ?)]; [by left|right; eauto|right; eauto].
      + intros [?|(m & [->|?] & ?)]; [by left; left|by left; right|right; eauto]. }
  rewrite H, test_new. split; [by intros [?|?]|by right].
Qed.

Lemma fold_unclaimed_ok p nodes :
  wf p -> Forall wf nodes -> apart nodes ->
  Forall wf (fold_unclaimed p nodes) /\ apart (fold_unclaimed p nodes) /\
  forall c, mem p c -> exists n, n ∈ fold_unclaimed p nodes /\ mem n c.
Proof.
  intros Hp Hw Hap. unfold fold_unclaimed. set (l := match nodes with [] => [CpuSet_new] | _ => nodes end).
  assert (exists n0 r, l = n0 :: r /\ Forall wf l /\ apart l) as (n0 & r & Hl & Hwl & Hal).
  { destruct nodes as [|n0 r]; [exists CpuSet_new, []|by exists n0, r]. split; [done|]. split; [constructor; [apply cpu_new_wf|constructor]|].
    apply apart_cons. split; [by intros i j s t c Hi|]. by intros t c ?%elem_of_nil. }
  rewrite Hl in *. cbn. set (rest := CpuSet_andnot p (union_of (n0 :: r))).
  assert (forall c, mem rest c <-> mem p c /\ ~ exists n, n ∈ n0 :: r /\ mem n c) as Hrest.
  { intros c. unfold rest. by rewrite test_andnot, andb_true_iff, negb_true_iff, test_false, union_of_mem. }
  apply list.Forall_cons in Hwl as [Hw0 Hwr]. apply apart_cons in Hal as [Har Ha0]. split; [|split].
  - constructor; [|done]. apply or_wf; [done|]. by apply andnot_wf.
  - apply apart_cons. split; [done|]. intros t c Ht Hc Htc. rewrite test_or, orb_true_iff in Hc.
    destruct Hc as [Hc|Hc]; [by apply (Ha0 t c)|]. apply Hrest in Hc as [_ Hc]. apply Hc. exists t. split; [by right|done].
  - intros c Hc. destruct (CpuSet_test (union_of (n0 :: r)) c) eqn:Hu.
    + apply union_of_mem in Hu as (n & [->|Hn]%elem_of_cons & Hm); [|exists n; split; [by right|done]].
      eexists. split; [by left|]. by rewrite test_or, Hm.
    + eexists. split; [by left|]. rewrite test_or, orb_true_iff. right. apply Hrest. split; [done|]. rewrite <- union_of_mem. by apply test_false.
Qed.

Lemma put_mask_ok cpu m masks : (cpu < length masks)%nat -> put_mask cpu m masks = Ok (<[cpu := m]> masks).
Proof. intros H. unfold put_mask. by rewrite (proj2 (Nat.ltb_lt _ _)). Qed.

(** The masks read: those of the CPUs asked for, the others as they were. *)
Lemma read_masks_ok fs cpus sib clus n :
  length sib = n -> length clus = n -> Forall (fun c => (c < n)%nat) cpus ->
  match read_masks fs cpus sib clus with
  | Ok (sib', clus') =>
      (forall c, (c ∈ cpus /\ read_cpulist_opt (sf_core_cpus fs c) = Ok (mask_of sib' c)) \/ mask_of sib' c = mask_of sib c) /\
      (forall c, (c ∈ cpus /\ read_cpulist_opt (sf_cluster_cpus fs c) = Ok (mask_of clus' c)) \/ mask_of clus' c = mask_of clus c)
  | Err _ => True
  | Panic => False
  end.
Proof.
  revert sib clus. induction cpus as [|cpu cpus IH]; intros sib clus Hs Hc Hf; cbn [read_masks]; [by split; right|].
  apply list.Forall_cons in Hf as [Hcpu Hf].
  pose proof (read_opt_ok (sf_core_cpus fs cpu)) as R1. destruct (read_cpulist_opt (sf_core_cpus fs cpu)) as [s|e|] eqn:E1; cbn [mbind res_bind]; try done.
  rewrite put_mask_ok by lia. cbn [mbind res_bind].
  pose proof (read_opt_ok (sf_cluster_cpus fs cpu)) as R2. destruct (read_cpulist_opt (sf_cluster_cpus fs cpu)) as [t|e|] eqn:E2; cbn [mbind res_bind]; try done.
  rewrite put_mask_ok by lia. cbn [mbind res_bind].
  specialize (IH (<[cpu:=s]> sib) (<[cpu:=t]> clus)). rewrite !length_insert in IH. specialize (IH Hs Hc Hf).
  destruct (read_masks _ _ _ _) as [[sib' clus']|e|]; [|done..]. destruct IH as [I1 I2].
  assert (forall (masks : list CpuSet) m c, length masks = n -> mask_of (<[cpu:=m]> masks) c = if decide (c = cpu) then m else mask_of masks c) as Hput.
  { intros masks m c Hl. unfold mask_of. destruct (decide (c = cpu)) as [->|Hne]; [by rewrite list_lookup_insert_eq by lia|].
    by rewrite list_lookup_insert_ne by done. }
  split; intros c.
  - destruct (I1 c) as [[Hin He]|He]; [left; split; [by right|done]|]. rewrite Hput in He by done. destruct (decide (c = cpu)) as [->|]; [|by right].
    left. split; [by left|]. by rewrite He.
  - destruct (I2 c) as [[Hin He]|He]; [left; split; [by right|done]|]. rewrite Hput in He by done. destruct (decide (c = cpu)) as [->|]; [|by right].
    left. split; [by left|]. by rewrite He.
Qed.

(** What the kernel documents of the files: a CPU is in the list of one node, and
    the sibling and cluster lists of a CPU are empty or contain it. *)
Record files_ok (fs : Sysfs) : Prop := {
  fo_nodes : forall es nodes, sf_nodes fs = Some es -> read_nodes es [] = Ok nodes -> apart nodes;
  fo_core : forall c m, read_cpulist_opt (sf_core_cpus fs c) = Ok m -> CpuSet_is_empty m = true \/ mem m c;
  fo_cluster : forall c m, read_cpulist_opt (sf_cluster_cpus fs c) = Ok m -> CpuSet_is_empty m = true \/ mem m c;
}.

Lemma new_empty : CpuSet_is_empty CpuSet_new = true.
Proof. apply is_empty_spec; [apply cpu_new_wf|apply test_new]. Qed.

Lemma sysfs_ok fs : files_ok fs -> match from_sysfs_root fs with Ok topo => topo_ok topo | Err _ => True | Panic => False end.
Proof.
  intros [F1 F2 F3]. unfold from_sysfs_root.
  pose proof (read_ok (sf_possible fs)) as Hp. destruct (read_cpulist (sf_possible fs)) as [pos|e|]; cbn [mbind res_bind]; try done.
  pose proof (read_ok (sf_present fs)) as Hpr. destruct (read_cpulist (sf_present fs)) as [pre|e|]; cbn [mbind res_bind]; try done.
  pose proof (read_ok (sf_online fs)) as Hon. destruct (read_cpulist (sf_online fs)) as [onl|e|]; cbn [mbind res_bind]; try done.
  set (nr := match CpuSet_last pos with Some c => (c + 1)%nat | None => 0%nat end). set (rn := match sf_nodes fs with Some es => _ | None => _ end).
  assert (match rn with Ok nodes => Forall wf nodes /\ apart nodes | Err _ => True | Panic => False end) as Hrn.
  { unfold rn. destruct (sf_nodes fs) as [es|] eqn:Hes.
    - pose proof (read_nodes_ok es [] ltac:(constructor)) as H. destruct (read_nodes es []) as [nodes|e|] eqn:Hn; try done. split; [done|by eapply F1].
    - split; [constructor|]. by intros i j s t c Hi. }
  destruct rn as [nodes|e|]; cbn [mbind res_bind]; try done. destruct Hrn as [Hnw Hna].
  pose proof (read_masks_ok fs (CpuSet_iter pos) (replicate nr CpuSet_new) (replicate nr CpuSet_new) nr) as Hm.
  rewrite !length_replicate in Hm. specialize (Hm eq_refl eq_refl).
  assert (Forall (fun c => (c < nr)%nat) (CpuSet_iter pos)) as Hlt.
  { apply list.Forall_forall. intros c Hc%elem_of_iter. pose proof (last_spec pos Hp) as Hl. unfold nr.
    destruct (CpuSet_last pos) as [m|]; [destruct Hl as [_ Hl]; specialize (Hl c Hc); lia|]. by rewrite Hl in Hc. }
  specialize (Hm Hlt). destruct (read_masks _ _ _ _) as [[sib clus]|e|]; cbn [mbind res_bind]; try done. destruct Hm as [M1 M2].
  destruct (fold_unclaimed_ok pos nodes Hp Hnw Hna) as (Hfw & Hfa & Hfc).
  assert (forall c, mask_of (replicate nr CpuSet_new) c = CpuSet_new) as Hnone.
  { intros c. unfold mask_of. destruct (replicate nr CpuSet_new !! c) as [m|] eqn:Hc; [|done]. by apply lookup_replicate in Hc as [-> _]. }
  split; cbn; try done. intros c Hc. split.
  - destruct (M1 c) as [[_ H]|H]; unfold own_mask; [|rewrite H, Hnone; split; [apply cpu_new_wf|left; apply new_empty]].
    split; [|by apply F2]. pose proof (read_opt_ok (sf_core_cpus fs c)) as R. by rewrite H in R.
  - destruct (M2 c) as [[_ H]|H]; unfold own_mask; [|rewrite H, Hnone; split; [apply cpu_new_wf|left; apply new_empty]].
    split; [|by apply F3]. pose proof (read_opt_ok (sf_cluster_cpus fs c)) as R. by rewrite H in R.
Qed.

(** Threads are pinned apart.  Whatever the topology files hold, every IO thread
    gets an entry; when the files are as the kernel documents them, the CPU a
    thread is pinned to is online and possible, and no two threads share one. *)
Theorem threads_pinned_apart io_threads fs :
  files_ok fs -> (0 < io_threads)%nat ->
  (forall topo, from_sysfs_root fs = Ok topo -> Z.of_nat (io_threads * sum_list (node_weights topo)) < 2 ^ 64) ->
  exists l, io_thread_cpus io_threads (from_sysfs_root fs) = Ok l /\ length l = io_threads /\
    (forall i c t, l !! i = Some (Some c, t) ->
       exists topo, from_sysfs_root fs = Ok topo /\ mem (online topo) c /\ mem (possible topo) c) /\
    (forall i j c t u, l !! i = Some (Some c, t) -> l !! j = Some (Some c, u) -> i = j).
Proof.
  intros Hf Hn H64. pose proof (sysfs_ok fs Hf) as Ht. destruct (from_sysfs_root fs) as [topo|e|]; [|cbn|done].
  2: { eexists. split; [done|]. rewrite length_replicate. split; [done|]. split; [intros i c t|intros i j c t u]; by intros [[=] _]%lookup_replicate. }
  destruct (spread_groups io_threads topo Ht Hn (H64 topo eq_refl)) as (gs & He & Hag & Hpos).
  unfold io_thread_cpus. rewrite He. cbn. eexists. split; [done|]. rewrite length_map, length_seq. split; [done|].
  assert (forall i c t, map (fun i => thread_cpu topo (gs !! i)) (seq 0 io_threads) !! i = Some (Some c, t) ->
    exists g, gs !! i = Some g /\ mem g c /\ mem (online topo) c) as Hlk.
  { intros i c t Hi. change (map ?f ?l) with (f <$> l) in Hi. rewrite list_lookup_fmap in Hi. destruct (seq 0 io_threads !! i) as [k|] eqn:Hk; [|done].
    apply lookup_seq in Hk as [-> _]. cbn in Hi. destruct (gs !! i) as [g|] eqn:Hg; cbn in Hi; [|done]. exists g. split; [done|].
    pose proof (first_spec (CpuSet_and g (online topo))) as Hs. injection Hi as Hc _. rewrite Hc in Hs. destruct Hs as [Hs _].
    by rewrite test_and, andb_true_iff in Hs. }
  split.
  - intros i c t (g & Hg & Hc & Ho)%Hlk. exists topo. split; [done|]. split; [done|]. by eapply Hpos.
  - intros i j c t u (g & Hg & Hc & _)%Hlk (h & Hh & Hd & _)%Hlk. by eapply Hag.
Qed.

Definition txt (s : string) : text := map byte.unsigned (ascii_bytes s).

(** CPUs 0-7 possible, 0-5 present, 0-4 online; node 0 has 0-2, node 2 has 3-5. *)
Definition demo_sysfs : Sysfs :=
  {| sf_possible := Contents (txt "0-7"); sf_present := Contents (txt "0-5"); sf_online := Contents (txt "0-4");
     sf_nodes := Some [Some (Some (txt "node2"), Contents (txt "3-5")); Some (Some (txt "has_cpu"), NotFound);
                       Some (Some (txt "node0"), Contents (txt "0-2"))];
     sf_core_cpus := fun c => match c with 0%nat | 1%nat => Contents (txt "0-1") | 2%nat => Contents (txt "2")
                              | 3%nat | 4%nat => Contents (txt "3-4") | _ => NotFound end;
     sf_cluster_cpus := fun _ => NotFound |}.

Fixpoint apartb (l : list CpuSet) : bool :=
  match l with [] => true | s :: l => forallb (fun t => negb (CpuSet_intersects s t)) l && apartb l end.

Lemma apartb_ok l : Forall wf l -> apartb l = true -> apart l.
Proof.
  induction 1 as [|s l Hs Hl IH]; cbn; [by intros _ i j x y c Hi|]. intros [Hf Ha]%andb_true_iff. apply apart_cons. split; [by apply IH|].
  intros t c Ht Hc Htc. rewrite forallb_forall in Hf. apply list_elem_of_In, Hf, negb_true_iff, not_true_iff_false in Ht. apply Ht.
  apply intersects_spec; [done|]. by exists c.
Qed.

Lemma demo_files_ok : files_ok demo_sysfs.
Proof.
  split.
  - intros es nodes Hes Hn. pose proof (read_nodes_ok es [] ltac:(constructor)) as Hw. rewrite Hn in Hw. apply apartb_ok; [done|].
    injection Hes as <-. revert Hn. vm_compute. by intros [= <-].
  - intros c m. do 5 (destruct c as [|c]; [vm_compute; intros [= <-]; by right|]). intros [= <-]. by left.
  - intros c m [= <-]. by left.
Qed.

Definition demo_topo : CpuTopology :=
  match from_sysfs_root demo_sysfs with
  | Ok t => t
  | _ => {| nr_cpu_ids := 0; possible := CpuSet_new; present := CpuSet_new; online := CpuSet_new; node_to_cpus := []; sibling := []; cluster := [] |}
  end.

Lemma demo_topo_eq : from_sysfs_root demo_sysfs = Ok demo_topo.
Proof. by vm_compute. Qed.

Lemma demo_topo_ok : topo_ok demo_topo.
Proof. pose proof (sysfs_ok demo_sysfs demo_files_ok) as H. by rewrite demo_topo_eq in H. Qed.

Lemma demo_fits : Z.of_nat (3 * sum_list (node_weights demo_topo)) < 2 ^ 64.
Proof. vm_compute. reflexivity. Qed.

Lemma cpulist_roundtrip_witness :
  exists s', from_cpulist (CpuSet_fmt (possible demo_topo)) = Ok s' /\ CpuSet_iter s' = seq 0 8.
Proof.
  destruct (cpulist_roundtrip (possible demo_topo)) as (s' & He & Hi & _).
  - apply (bool_decide_eq_true _). by vm_compute.
  - exists s'. split; [exact He|]. rewrite Hi. vm_compute. reflexivity.
Defined.

Lemma spread_partition_witness : exists gs, spread_cpus 3 demo_topo = Ok gs /\ length gs = 3%nat /\ partitions demo_topo gs.
Proof.
  destruct (spread_partition 3 demo_topo demo_topo_ok) as (gs & H1 & H2 & H3 & _); [lia|exact demo_fits|]. exact (ex_intro _ gs (conj H1 (conj H2 H3))).
Defined.

Definition demo_groups : list CpuSet := match spread_cpus 3 demo_topo with Ok gs => gs | _ => [] end.

Lemma spread_even_witness : exists home : list nat, length home = 3%nat.
Proof.
  destruct (spread_even 3 demo_topo demo_groups demo_topo_ok) as (home & Hl & _).
  - lia.
  - exact demo_fits.
  - apply Nat.leb_le. by vm_compute.
  - by vm_compute.
  - by vm_compute.
  - exists home. rewrite Hl. by vm_compute.
Defined.

Lemma threads_pinned_apart_witness : exists l, io_thread_cpus 3 (from_sysfs_root demo_sysfs) = Ok l /\ length l = 3%nat.
Proof.
  destruct (threads_pinned_apart 3 demo_sysfs demo_files_ok) as (l & He & Hl & _).
  - lia.
  - intros topo Ht. rewrite demo_topo_eq in Ht. injection Ht as <-. exact demo_fits.
  - exact (ex_intro _ l (conj He Hl)).
Defined.
