(* ===== verification/Control.v ===== *)
(** * [ioutgt-control]: the target's configuration and its control API

    [config.rs] (the target model and its validation), [nvmet.rs] (the nvmetcli
    schema, from the document serde parsed to one target per port), the request
    handlers of [server.rs], and from [ioutgt-harness/src/lib.rs] the port built
    from a configuration and the controller ids given to each port process.
    What opening a file or block device gives is an argument. *)

From S2P Require Import Prelude Pool Registry Subsystem Backend File.

(** ** [config.rs] *)

Inductive BackendConfig :=
| CfgMemory (size_mb : Z)
| CfgNull (size_mb : Z)
| CfgFile (path : str).

Record NamespaceConfig := { nc_nsid : Z; nc_backend : BackendConfig; nc_uuid : option bytes }.

Record SubsystemConfig := {
  sc_nqn : str;
  sc_serial : str;
  sc_model : str;
  sc_allow_any_host : bool;
  sc_allowed_hosts : list str;
  sc_namespaces : list NamespaceConfig;
}.

Definition default_serial : str := ascii_bytes "IOUTGT0001".
Definition default_model : str := ascii_bytes "ioutgt".

Inductive ConfigError :=
| NoSubsystem
| BadNqn (nqn : str)
| ReservedNsid (nqn : str) (nsid : Z)
| DuplicateNsid (nqn : str) (nsid : Z)
| ZeroSize (nqn : str) (nsid : Z)
| NoPort
| DuplicatePortid
| BadTraddr (s : str)
| BadTrsvcid (s : str)
| UndefinedSubsystem (nqn : str)
| NoDevicePath (nqn : str) (nsid : Z)
| BadUuid (nqn : str) (nsid : Z) (text : str).

Definition zero_size (b : BackendConfig) : bool :=
  match b with CfgMemory n | CfgNull n => n =? 0 | CfgFile _ => false end.

Fixpoint validate_namespaces (nqn : str) (seen : list Z) (l : list NamespaceConfig) : res ConfigError unit :=
  match l with
  | [] => Ok tt
  | ns :: l =>
      if (nc_nsid ns =? 0) || (nc_nsid ns =? 2 ^ 32 - 1) then Err (ReservedNsid nqn (nc_nsid ns))
      else if bool_decide (nc_nsid ns ∈ seen) then Err (DuplicateNsid nqn (nc_nsid ns))
      else if zero_size (nc_backend ns) then Err (ZeroSize nqn (nc_nsid ns))
      else validate_namespaces nqn (nc_nsid ns :: seen) l
  end.

Fixpoint validate_each (l : list SubsystemConfig) : res ConfigError unit :=
  match l with
  | [] => Ok tt
  | s :: l =>
      if (length (sc_nqn s) =? 0)%nat || (223 <? length (sc_nqn s))%nat then Err (BadNqn (sc_nqn s))
      else _ ← validate_namespaces (sc_nqn s) [] (sc_namespaces s); validate_each l
  end.

Definition validate_subsystems (l : list SubsystemConfig) : res ConfigError unit :=
  if bool_decide (l = []) then Err NoSubsystem else validate_each l.

(** ** Addresses: [str::parse] for [IpAddr] and [u16] *)

Inductive IpAddr := V4 (octets : list Z) | V6 (groups : list Z).

(** A parser of the standard library: a value and the text behind it. *)
Definition Parse (A : Type) : Type := list Z -> option (A * list Z).

Definition char (c : Z) : Parse unit := fun s => match s with d :: r => if d =? c then Some (tt, r) else None | [] => None end.

Definition to_digit (radix c : Z) : option Z :=
  let d := if (48 <=? c) && (c <=? 57) then c - 48
           else if (97 <=? c) && (c <=? 122) then c - 87
           else if (65 <=? c) && (c <=? 90) then c - 55 else radix in
  if d <? radix then Some d else None.

(** The leading digits: their value, how many, and the rest. *)
Fixpoint digits (radix acc : Z) (n : nat) (s : list Z) : Z * nat * list Z :=
  match s with
  | c :: r => match to_digit radix c with Some d => digits radix (acc * radix + d) (S n) r | None => (acc, n, s) end
  | [] => (acc, n, s)
  end.

Definition read_number (radix : Z) (max_digits : nat) (allow_zero_prefix : bool) (bound : Z) : Parse Z := fun s =>
  let '(v, n, r) := digits radix 0 0 s in
  if (max_digits <? n)%nat || (n =? 0)%nat then None
  else if negb allow_zero_prefix && bool_decide (head s = Some 48) && (1 <? n)%nat then None
  else if v <? bound then Some (v, r) else None.

Definition read_separator {A} (sep : Z) (index : nat) (p : Parse A) : Parse A := fun s =>
  match index with O => p s | S _ => '(_, s) ← char sep s; p s end.

Fixpoint read_octets (n i : nat) (s : list Z) : option (list Z * list Z) :=
  match n with
  | O => Some ([], s)
  | S n =>
      '(v, s) ← read_separator 46 i (read_number 10 3 false 256) s;
      '(vs, s) ← read_octets n (S i) s;
      Some (v :: vs, s)
  end.
Definition read_ipv4_addr : Parse (list Z) := read_octets 4 0.

(** Up to [n] groups from index [i]: the groups, and whether an IPv4 address
    ended them. *)
Fixpoint read_groups (n i : nat) (s : list Z) : list Z * bool * list Z :=
  match n with
  | O => ([], false, s)
  | S n' =>
      let v4 := if (1 <? n)%nat then read_separator 58 i read_ipv4_addr s else None in
      match v4 with
      | Some ([a; b; c; d], s) => ([a * 256 + b; c * 256 + d], true, s)
      | _ =>
          match read_separator 58 i (read_number 16 4 true 65536) s with
          | Some (g, s) => let '(gs, v4, s) := read_groups n' (S i) s in (g :: gs, v4, s)
          | None => ([], false, s)
          end
      end
  end.

Definition read_ipv6_addr : Parse (list Z) := fun s =>
  let '(head, v4, s) := read_groups 8 0 s in
  if (length head =? 8)%nat then Some (head, s)
  else if (v4 : bool) then None
  else
    '(_, s) ← char 58 s; '(_, s) ← char 58 s;
    let '(tail, _, s) := read_groups (8 - (length head + 1)) 0 s in
    Some (head ++ replicate (8 - length head - length tail) 0 ++ tail, s).

Definition parse_ip (s : str) : option IpAddr :=
  let s := map byte.unsigned s in
  match read_ipv4_addr s with
  | Some (v, []) => Some (V4 v)
  | Some (_, _ :: _) => None
  | None => match read_ipv6_addr s with Some (v, []) => Some (V6 v) | _ => None end
  end.

Fixpoint parse_u16_digits (acc : Z) (s : list Z) : option Z :=
  match s with
  | [] => Some acc
  | c :: r => if (48 <=? c) && (c <=? 57) && (acc * 10 + (c - 48) <? 2 ^ 16) then parse_u16_digits (acc * 10 + (c - 48)) r else None
  end.
Definition parse_u16 (s : str) : option Z :=
  match map byte.unsigned s with
  | [] => None
  | c :: r => if (c =? 43) && negb (bool_decide (r = [])) then parse_u16_digits 0 r else parse_u16_digits 0 (c :: r)
  end.

(** ** [nvmet.rs] *)

Record NvPort := { np_traddr : str; np_trsvcid : str; np_trtype : str; np_portid : Z; np_subsystems : list str }.

Record NvNamespace := { nn_nsid : Z; nn_device : gmap str str; nn_enable : Z }.

Record NvSubsystem := {
  nv_nqn : str;
  nv_attr : gmap str str;
  nv_allowed_hosts : list str;
  nv_namespaces : list NvNamespace;
}.

Record NvmetConfig := { nv_ports : list NvPort; nv_subsystems : list NvSubsystem }.

Record NvmetTarget := { nt_portid : Z; nt_listen : IpAddr * Z; nt_subsystems : list SubsystemConfig }.

(** The namespaces that are enabled, in order. *)
Fixpoint config_namespaces (nqn : str) (l : list NvNamespace) : res ConfigError (list NamespaceConfig) :=
  match l with
  | [] => Ok []
  | ns :: l =>
      if nn_enable ns =? 0 then config_namespaces nqn l
      else
        path ← ok_or (nn_device ns !! ascii_bytes "path") (NoDevicePath nqn (nn_nsid ns));
        uuid ← match nn_device ns !! ascii_bytes "uuid" with
               | Some t => u ← parse_uuid t; u ← ok_or u (BadUuid nqn (nn_nsid ns) t); Ok (Some u)
               | None => Ok None
               end;
        rest ← config_namespaces nqn l;
        Ok ({| nc_nsid := nn_nsid ns; nc_backend := CfgFile path; nc_uuid := uuid |} :: rest)
  end.

Definition to_config (s : NvSubsystem) : res ConfigError SubsystemConfig :=
  namespaces ← config_namespaces (nv_nqn s) (nv_namespaces s);
  Ok {| sc_nqn := nv_nqn s;
        sc_serial := default default_serial (nv_attr s !! ascii_bytes "serial");
        sc_model := default default_model (nv_attr s !! ascii_bytes "model");
        sc_allow_any_host := bool_decide (nv_attr s !! ascii_bytes "allow_any_host" = Some (ascii_bytes "1"));
        sc_allowed_hosts := nv_allowed_hosts s;
        sc_namespaces := namespaces |}.

Fixpoint exported (subsystems : list NvSubsystem) (nqns : list str) : res ConfigError (list SubsystemConfig) :=
  match nqns with
  | [] => Ok []
  | nqn :: nqns =>
      s ← ok_or (List.find (fun s => bool_decide (nv_nqn s = nqn)) subsystems) (UndefinedSubsystem nqn);
      c ← to_config s;
      rest ← exported subsystems nqns;
      Ok (c :: rest)
  end.

Definition port_target (config : NvmetConfig) (p : NvPort) : res ConfigError NvmetTarget :=
  ip ← ok_or (parse_ip (np_traddr p)) (BadTraddr (np_traddr p));
  svc ← ok_or (parse_u16 (np_trsvcid p)) (BadTrsvcid (np_trsvcid p));
  subsystems ← exported (nv_subsystems config) (np_subsystems p);
  _ ← validate_subsystems subsystems;
  Ok {| nt_portid := np_portid p; nt_listen := (ip, svc); nt_subsystems := subsystems |}.

Fixpoint port_targets (config : NvmetConfig) (ports : list NvPort) : res ConfigError (list NvmetTarget) :=
  match ports with
  | [] => Ok []
  | p :: ps => t ← port_target config p; ts ← port_targets config ps; Ok (t :: ts)
  end.

Definition trtype_name (t : TransportType) : str :=
  match t with Tcp => ascii_bytes "tcp" | Rdma => ascii_bytes "rdma" end.

(** [windows(2).any(|w| w[0].portid == w[1].portid)]. *)
Fixpoint repeats (l : list Z) : bool :=
  match l with a :: ((b :: _) as r) => (a =? b) || repeats r | _ => false end.

(** [from_str], on the parsed document. *)
Definition from_config (config : NvmetConfig) (trtype : TransportType) : res ConfigError (list NvmetTarget) :=
  let ports := List.filter (fun p => bool_decide (np_trtype p = trtype_name trtype)) (nv_ports config) in
  if bool_decide (ports = []) then Err NoPort
  else
    let ports := sort_by (fun a b => np_portid a <=? np_portid b) ports in
    if repeats (map np_portid ports) then Err DuplicatePortid
    else port_targets config ports.

(** ** [apply_file]: the controller ids of port process [index] of [ports] *)

Definition cntlid_range {E} (index ports : Z) : res E (Z * Z) :=
  _ ← assert (negb (ports =? 0));
  let slice := CNTLID_MAX / ports in
  p ← checked 16 (index * slice);
  min ← checked 16 (1 + p);
  next ← checked 16 (index + 1);
  max ← (if next =? ports then Ok CNTLID_MAX else m ← checked 16 (min + slice); checked 16 (m - 1));
  Ok (min, max).

(** ** Backends and the served port *)

Section Build.
(** [FileBackend::open] on a path, with the receive ring on or off. *)
Variable open_file : str -> bool -> res File.OpenError File.FileBackend.

Definition BLOCK_SHIFT : Z := 9.

Definition build_backend (config : BackendConfig) (ring_enabled : bool) : res File.OpenError AnyBackend :=
  match config with
  | CfgMemory n => Ok (AMemory (Memory.new (wrap 64 (Z.shiftl n 20)) BLOCK_SHIFT))
  | CfgNull n => Ok (ANull (Null.new (wrap 64 (Z.shiftl n 20)) BLOCK_SHIFT))
  | CfgFile path => b ← open_file path ring_enabled; Ok (AFile b)
  end.

Record TargetConfig := {
  tc_io_threads : Z;
  tc_io_queue_size : Z;
  tc_queue_buf_bytes : Z;
  tc_recv_buf_bytes : Z;
  tc_poll : bool;
  tc_subsystems : list SubsystemConfig;
}.

(** The namespaces of a subsystem; backends are numbered as they are built. *)
Fixpoint build_namespaces (nqn : str) (ring : bool) (l : list NamespaceConfig) (bs : list AnyBackend) (t : NsMap) :
    res File.OpenError (list AnyBackend * NsMap) :=
  match l with
  | [] => Ok (bs, t)
  | ns :: l =>
      b ← build_backend (nc_backend ns) ring;
      let uuid := match nc_uuid ns with Some u => u | None => namespace_uuid nqn (nc_nsid ns) end in
      build_namespaces nqn ring l (bs ++ [b])
        (<[nc_nsid ns := {| ns_nsid := nc_nsid ns; ns_backend := length bs; ns_uuid := uuid |}]> t)
  end.

Fixpoint build_subsystems (ring : bool) (l : list SubsystemConfig) (bs : list AnyBackend) (m : gmap str Subsystem) :
    res File.OpenError (list AnyBackend * gmap str Subsystem) :=
  match l with
  | [] => Ok (bs, m)
  | s :: l =>
      '(bs, t) ← build_namespaces (sc_nqn s) ring (sc_namespaces s) bs ∅;
      build_subsystems ring l bs
        (<[sc_nqn s := Subsystem_new (sc_nqn s) (sc_serial s) (sc_model s) (sc_allow_any_host s) (sc_allowed_hosts s) t]> m)
  end.

(** [u16::try_from(io_threads.max(1)).unwrap_or(1)]. *)
Definition max_qid_of (io_threads : Z) : Z :=
  let n := Z.max io_threads 1 in if n <? 2 ^ 16 then n else 1.

(** The bound address is given as text. *)
Definition build_port (config : TargetConfig) (ip service : str) (trtype : TransportType) :
    res File.OpenError (list AnyBackend * PortConfig) :=
  '(bs, m) ← build_subsystems (0 <? tc_recv_buf_bytes config) (tc_subsystems config) [] ∅;
  Ok (bs, {| pc_traddr := ip; pc_trsvcid := service; pc_trtype := trtype; pc_max_qid := max_qid_of (tc_io_threads config);
             pc_io_queue_size := tc_io_queue_size config; pc_queue_buf_bytes := tc_queue_buf_bytes config;
             pc_recv_buf_bytes := tc_recv_buf_bytes config; pc_poll := tc_poll config; pc_subsystems := m |}).

(** ** [server.rs] *)

Inductive Request :=
| AddNamespace (subsysnqn : option str) (nsid : Z) (backend : BackendConfig)
| RemoveNamespace (subsysnqn : option str) (nsid : Z)
| ListNamespace (subsysnqn : option str)
| GetStats (clear : bool)
| ListController.

Inductive CtlError :=
| UnknownSubsystem (nqn : str)
| SubsysnqnRequired
| NsidReserved
| OpenFailed (e : File.OpenError)
| Refused (e : NsError).

(** [ns_json]: nsid, blocks, block shift. *)
Abbreviation NsRow := (Z * Z * Z)%type.

Record QueueRow := { qr_qid : Z; qr_depth : Z; qr_tid : Z; qr_group : str; qr_peer : str }.

Record ControllerRow := {
  cr_entry : ControllerEntry;
  cr_queues : list QueueRow;
  cr_namespaces : list NsRow;
}.

Inductive Data :=
| Namespaces (l : list NsRow)
| StatsOf (controllers : nat) (info : list ControllerEntry) (subsystems : list (str * nat)) (clear : bool)
| Controllers (ports : list (str * list NsRow)) (l : list ControllerRow).

Inductive Response := ROk (data : option Data) | RErr (e : CtlError).

(** The port, the registry, the backends; how often an event nudge was sent; the
    CPU group of each IO thread. *)
Record CtlState := {
  ct_port : PortConfig;
  ct_registry : Registry;
  ct_backends : list AnyBackend;
  ct_nudges : nat;
  ct_groups : list str;
}.

Definition ct_set (port : PortConfig) (bs : list AnyBackend) (nudges : nat) (c : CtlState) : CtlState :=
  {| ct_port := port; ct_registry := ct_registry c; ct_backends := bs; ct_nudges := nudges; ct_groups := ct_groups c |}.

(** The subsystems of a port in key order. *)
Definition port_entries (p : PortConfig) : list (str * Subsystem) :=
  sorting.merge_sort str_le (map_to_list (pc_subsystems p)).

(** The key of the subsystem a request names. *)
Definition resolve (c : CtlState) (subsysnqn : option str) : sum (str * Subsystem) Response :=
  match subsysnqn with
  | Some nqn => match pc_subsystems (ct_port c) !! nqn with Some s => inl (nqn, s) | None => inr (RErr (UnknownSubsystem nqn)) end
  | None => match port_entries (ct_port c) with [e] => inl e | _ => inr (RErr SubsysnqnRequired) end
  end.

Definition set_subsystem (nqn : str) (s : Subsystem) (p : PortConfig) : PortConfig :=
  {| pc_traddr := pc_traddr p; pc_trsvcid := pc_trsvcid p; pc_trtype := pc_trtype p; pc_max_qid := pc_max_qid p;
     pc_io_queue_size := pc_io_queue_size p; pc_queue_buf_bytes := pc_queue_buf_bytes p;
     pc_recv_buf_bytes := pc_recv_buf_bytes p; pc_poll := pc_poll p; pc_subsystems := <[nqn := s]> (pc_subsystems p) |}.

Variable K : File.Kernel.

Definition ns_json (bs : list AnyBackend) (ns : Namespace) : option NsRow :=
  b ← bs !! ns_backend ns;
  Some (ns_nsid ns, @nr_blocks _ (any_backend K) b, @block_shift _ (any_backend K) b).

Definition ns_rows (bs : list AnyBackend) (s : Subsystem) : list NsRow :=
  omap (fun e => ns_json bs (snd e)) (btree_entries (ss_namespaces s)).

(** A namespace table change, its event nudge, and the response. *)
Definition apply_change (nqn : str) (s : Subsystem) (ch : NsChange) (bs : list AnyBackend) (c : CtlState) : CtlState * res never Response :=
  match change_namespaces ch s with
  | (s', Ok _) => (ct_set (set_subsystem nqn s' (ct_port c)) bs (S (ct_nudges c)) c, Ok (ROk None))
  | (_, Err e) => (c, Ok (RErr (Refused e)))
  | (_, Panic) => (c, Panic)
  end.

(** The group of the thread that serves queue [qid]. *)
Definition group_of (groups : list str) (qid : Z) : str :=
  let n := Z.of_nat (length groups) in
  if (qid =? 0) || (n =? 0) then ascii_bytes "*" else default [] (groups !! Z.to_nat ((qid - 1) mod n)).

Definition queue_row (groups : list str) (q : QueueInfo) : QueueRow :=
  {| qr_qid := qi_qid q; qr_depth := qi_sqsize q; qr_tid := qi_tid q; qr_group := group_of groups (qi_qid q); qr_peer := qi_peer q |}.

Definition controller_row (c : CtlState) (e : ControllerEntry) : ControllerRow :=
  {| cr_entry := e; cr_queues := map (queue_row (ct_groups c)) (ce_queues e);
     cr_namespaces := match pc_subsystems (ct_port c) !! ce_subsys_nqn e with Some s => ns_rows (ct_backends c) s | None => [] end |}.

Definition handle (request : Request) (c : CtlState) : CtlState * res never Response :=
  match request with
  | AddNamespace subsysnqn nsid backend =>
      match resolve c subsysnqn with
      | inr r => (c, Ok r)
      | inl (nqn, s) =>
          if (nsid =? 0) || (nsid =? 2 ^ 32 - 1) then (c, Ok (RErr NsidReserved))
          else match build_backend backend (0 <? pc_recv_buf_bytes (ct_port c)) with
               | Ok b =>
                   let ns := {| ns_nsid := nsid; ns_backend := length (ct_backends c); ns_uuid := namespace_uuid (ss_nqn s) nsid |} in
                   apply_change nqn s (NsAdd ns) (ct_backends c ++ [b]) c
               | Err e => (c, Ok (RErr (OpenFailed e)))
               | Panic => (c, Panic)
               end
      end
  | RemoveNamespace subsysnqn nsid =>
      match resolve c subsysnqn with
      | inr r => (c, Ok r)
      | inl (nqn, s) => apply_change nqn s (NsRemove nsid) (ct_backends c) c
      end
  | ListNamespace subsysnqn =>
      match resolve c subsysnqn with
      | inr r => (c, Ok r)
      | inl (_, s) => (c, Ok (ROk (Some (Namespaces (ns_rows (ct_backends c) s)))))
      end
  | GetStats clear =>
      (c, Ok (ROk (Some (StatsOf (size (controllers (ct_registry c))) (Registry_snapshot (ct_registry c))
             (map (fun e => (ss_nqn (snd e), size (ss_namespaces (snd e)))) (port_entries (ct_port c))) clear))))
  | ListController =>
      (c, Ok (ROk (Some (Controllers (map (fun e => (ss_nqn (snd e), ns_rows (ct_backends c) (snd e))) (port_entries (ct_port c)))
             (map (controller_row c) (Registry_snapshot (ct_registry c)))))))
  end.

End Build.
