(* ===== verification/ControlPlane.v ===== *)
(** * The configuration and the control API

    What a document loads into, what the port built from it serves, and that
    every request of the control API is, for the connections that share the
    port, a step they allow; the controller-id slices of the port processes;
    and the witnesses, on a document of two ports. *)

From Stdlib Require Import Sorting.Sorted.
From S2P Require Import Prelude Spec Pool Registry Subsystem SubsystemProofs.
From S2P Require Import Backend BackendProofs File FileLaws Control SlotQ.
From S2P Require Import Dispatch TcpQueue ExecLaws Frame.
From S2P Require Import Frame ConnProofs System.

(** ** Validation *)

(** What a validated subsystem satisfies. *)
Definition subsystem_valid (s : SubsystemConfig) : Prop :=
  (1 <= length (sc_nqn s) <= 223)%nat /\ NoDup (map nc_nsid (sc_namespaces s)) /\
  Forall (fun ns => nc_nsid ns <> 0 /\ nc_nsid ns <> 2 ^ 32 - 1 /\ zero_size (nc_backend ns) = false) (sc_namespaces s).

Lemma validate_namespaces_ok nqn seen l :
  validate_namespaces nqn seen l = Ok tt <->
  NoDup (map nc_nsid l) /\ (forall ns, ns ∈ l -> nc_nsid ns ∉ seen) /\
  Forall (fun ns => nc_nsid ns <> 0 /\ nc_nsid ns <> 2 ^ 32 - 1 /\ zero_size (nc_backend ns) = false) l.
Proof.
  revert seen. induction l as [|ns l IH]; intros seen; cbn [validate_namespaces map].
  - split; [|done]. intros _. split; [constructor|]. split; [by intros ns ?%elem_of_nil|constructor].
  - rewrite list.NoDup_cons, list.Forall_cons. setoid_rewrite elem_of_cons.
    assert ((nc_nsid ns ∈ map nc_nsid l) <-> exists m, m ∈ l /\ nc_nsid m = nc_nsid ns) as Hin.
    { rewrite list_elem_of_In, in_map_iff. setoid_rewrite list_elem_of_In. naive_solver. }
    destruct (Z.eqb_spec (nc_nsid ns) 0) as [H0|H0]; [cbn; split; [done|]; tauto|].
    destruct (Z.eqb_spec (nc_nsid ns) (2 ^ 32 - 1)) as [H1|H1]; [cbn [orb]; split; [done|]; tauto|]. cbn [orb].
    case_bool_decide as Hs; [split; [done|]; intros (_ & Hn & _); destruct (Hn ns); auto|].
    destruct (zero_size (nc_backend ns)) eqn:Hz; [split; [done|]; intuition congruence|]. rewrite IH, Hin. split.
    + intros (N1 & N2 & N3). split_and!; try done.
      * intros (m & Hm & He). apply (N2 m Hm). rewrite He. by left.
      * intros m [->|Hm]; [done|]. intros Hx. apply (N2 m Hm). by right.
    + intros ([N1 N2] & N3 & _ & N4). split_and!; try done. intros m Hm [He|He]%elem_of_cons; [apply N1; eauto|]. by apply (N3 m); auto.
Qed.

Lemma validate_subsystems_ok l : validate_subsystems l = Ok tt <-> l <> [] /\ Forall subsystem_valid l.
Proof.
  unfold validate_subsystems. case_bool_decide as Hl; [naive_solver|].
  transitivity (Forall subsystem_valid l); [|naive_solver]. clear Hl. induction l as [|s l IH]; cbn [validate_each]; [by split|].
  rewrite list.Forall_cons, <- IH. unfold subsystem_valid at 1. pose proof (validate_namespaces_ok (sc_nqn s) [] (sc_namespaces s)) as Hn.
  destruct (Nat.eqb_spec (length (sc_nqn s)) 0) as [H0|H0]; [split; [done|intuition lia]|].
  destruct (Nat.ltb_spec 223 (length (sc_nqn s))) as [H1|H1]; [split; [done|intuition lia]|]. cbn [orb].
  assert (forall ns, ns ∈ sc_namespaces s -> nc_nsid ns ∉ []) as Hnil by (intros; apply not_elem_of_nil).
  destruct (validate_namespaces (sc_nqn s) [] (sc_namespaces s)) as [[]|e|]; cbn [mbind res_bind].
  - split; [intros H; split; [|done]; destruct Hn as [(? & ? & ?) _]; [done|]; split_and!; try done; lia|tauto].
  - split; [done|]. intros ((_ & N1 & N2) & _). assert (Err e = Ok tt) as H by (by apply Hn). done.
  - split; [done|]. intros ((_ & N1 & N2) & _). assert (Panic (E := ConfigError) (A := unit) = Ok tt) as H by (by apply Hn). done.
Qed.

(** ** Loading *)

(** [r] succeeds only with values that satisfy [P]. *)
Definition gives {E A} (P : A -> Prop) (r : res E A) : Prop := match r with Ok a => P a | _ => True end.

Lemma gives_bind {E A B} (P : A -> Prop) (Q : B -> Prop) (m : res E A) (k : A -> res E B) :
  gives P m -> (forall a, P a -> gives Q (k a)) -> gives Q (mbind k m).
Proof. destruct m as [a|e|]; cbn; auto. Qed.

Lemma gives_ok {E A} (P : A -> Prop) (r : res E A) a : gives P r -> r = Ok a -> P a.
Proof. by intros H ->. Qed.

Lemma parse_uuid_length {E} t : gives (fun u : option bytes => match u with Some b => length b = 16%nat | None => True end) (parse_uuid (E := E) t).
Proof.
  unfold parse_uuid. destruct (_ || _); [done|]. destruct (forallb _ _); [|done]. destruct (from_str_radix_16 _); [|done]. cbn.
  unfold to_be_bytes. by rewrite length_rev, length_le_split.
Qed.

(** A namespace of a loaded configuration. *)
Definition loaded_ns (ns : NvNamespace) (c : NamespaceConfig) : Prop :=
  nc_nsid c = nn_nsid ns /\ (exists path, nn_device ns !! ascii_bytes "path" = Some path /\ nc_backend c = CfgFile path) /\
  match nn_device ns !! ascii_bytes "uuid" with
  | Some t => exists u, parse_uuid (E := ConfigError) t = Ok (Some u) /\ nc_uuid c = Some u
  | None => nc_uuid c = None
  end.

Lemma config_namespaces_ok nqn l :
  gives (Forall2 loaded_ns (List.filter (fun ns => negb (nn_enable ns =? 0)) l)) (config_namespaces nqn l).
Proof.
  induction l as [|ns l IH]; cbn [config_namespaces List.filter]; [constructor|]. destruct (nn_enable ns =? 0); cbn [negb]; [done|].
  destruct (nn_device ns !! ascii_bytes "path") as [path|] eqn:Hp; [|done]. cbn [ok_or mbind res_bind].
  apply (gives_bind (fun u => match nn_device ns !! ascii_bytes "uuid" with
           | Some t => exists v, parse_uuid (E := ConfigError) t = Ok (Some v) /\ u = Some v | None => u = None end)).
  - destruct (nn_device ns !! ascii_bytes "uuid") as [t|]; [|done]. destruct (parse_uuid t) as [[v|]|e|]; cbn; try done. by exists v.
  - intros u Hu. eapply gives_bind; [exact IH|]. intros rest Hr. constructor; [|done]. split; [done|]. split; [by exists path|].
    by destruct (nn_device ns !! ascii_bytes "uuid").
Qed.

(** A subsystem of a loaded configuration. *)
Definition loaded (config : NvmetConfig) (nqn : str) (c : SubsystemConfig) : Prop :=
  exists s, s ∈ nv_subsystems config /\ nv_nqn s = nqn /\ sc_nqn c = nqn /\ sc_allowed_hosts c = nv_allowed_hosts s /\
    (sc_allow_any_host c = true <-> nv_attr s !! ascii_bytes "allow_any_host" = Some (ascii_bytes "1")) /\
    Forall2 loaded_ns (List.filter (fun ns => negb (nn_enable ns =? 0)) (nv_namespaces s)) (sc_namespaces c).

Lemma exported_ok config nqns : gives (Forall2 (loaded config) nqns) (exported (nv_subsystems config) nqns).
Proof.
  induction nqns as [|nqn nqns IH]; cbn [exported]; [constructor|].
  destruct (List.find _ _) as [s|] eqn:Hf; [|done]. apply find_some in Hf as [Hin Hn]. apply bool_decide_eq_true in Hn. cbn [ok_or mbind res_bind].
  apply (gives_bind (loaded config nqn)).
  - unfold to_config. eapply gives_bind; [apply config_namespaces_ok|]. intros l Hl. exists s. cbn.
    split; [by apply list_elem_of_In|]. split; [done|]. split; [done|]. split; [done|]. split; [apply bool_decide_eq_true|done].
  - intros c Hc. eapply gives_bind; [exact IH|]. intros rest Hr. by constructor.
Qed.

(** What a target of port [p] is. *)
Definition target_of (config : NvmetConfig) (p : NvPort) (t : NvmetTarget) : Prop :=
  nt_portid t = np_portid p /\ parse_ip (np_traddr p) = Some (nt_listen t).1 /\ parse_u16 (np_trsvcid p) = Some (nt_listen t).2 /\
  nt_subsystems t <> [] /\ Forall subsystem_valid (nt_subsystems t) /\ Forall2 (loaded config) (np_subsystems p) (nt_subsystems t).

Lemma port_target_ok config p : gives (target_of config p) (port_target config p).
Proof.
  unfold port_target. destruct (parse_ip (np_traddr p)) as [ip|] eqn:Hip; [|done]. cbn [ok_or mbind res_bind].
  destruct (parse_u16 (np_trsvcid p)) as [svc|] eqn:Hs; [|done]. cbn [ok_or mbind res_bind].
  eapply gives_bind; [apply exported_ok|]. intros l Hl. destruct (validate_subsystems l) as [[]|e|] eqn:Hv; cbn; try done.
  apply validate_subsystems_ok in Hv as [Hne Hv]. done.
Qed.

Lemma port_targets_ok config ps : gives (Forall2 (target_of config) ps) (port_targets config ps).
Proof.
  induction ps as [|p ps IH]; cbn [port_targets]; [constructor|]. eapply gives_bind; [apply port_target_ok|].
  intros t Ht. eapply gives_bind; [exact IH|]. intros ts Hts. by constructor.
Qed.

(** Sorted by a key without repeats: strictly increasing. *)
Lemma sort_sorted (key : NvPort -> Z) l : StronglySorted (fun a b => key a <= key b) (sort_by (fun a b => key a <=? key b) l).
Proof.
  unfold sort_by. induction l as [|x l IH]; cbn; [constructor|]. set (s := foldr _ _ l) in *. clearbody s.
  induction IH as [|y s Hs IH' Hy]; cbn; [repeat constructor|]. destruct (Z.leb_spec (key x) (key y)).
  - constructor; [by constructor|]. constructor; [lia|]. eapply Forall_impl; [|exact Hy]. cbn. lia.
  - constructor; [done|]. rewrite insert_by_perm. constructor; [lia|done].
Qed.

Lemma strictly_increasing l : StronglySorted Z.le l -> repeats l = false -> StronglySorted Z.lt l.
Proof.
  induction 1 as [|x l Hl IH Hx]; intros Hr; [constructor|]. destruct l as [|y l]; [repeat constructor|].
  cbn [repeats] in Hr. apply orb_false_iff in Hr as [Hxy Hr]. apply Z.eqb_neq in Hxy. specialize (IH Hr). constructor; [done|].
  apply list.Forall_cons in Hx as [Hx _]. apply StronglySorted_inv in IH as [_ IH]. constructor; [lia|].
  eapply Forall_impl; [|exact IH]. cbn. lia.
Qed.

(** A configuration file loads into exactly its ports.  When a document is
    accepted, there is one target per port of the wanted transport, in strictly
    increasing port id; each listens on the port's address, exports exactly the
    subsystems the port links, with their host lists and their enabled
    namespaces only, and passes validation (NQN length, distinct and unreserved
    namespace ids, no empty store). *)
Theorem config_loads config trtype targets :
  from_config config trtype = Ok targets ->
  targets <> [] /\ StronglySorted Z.lt (map nt_portid targets) /\
  exists ports, ports ≡ₚ List.filter (fun p => bool_decide (np_trtype p = trtype_name trtype)) (nv_ports config) /\
    Forall2 (target_of config) ports targets.
Proof.
  unfold from_config. set (ps := List.filter _ _). case_bool_decide as Hne; [done|]. set (ports := sort_by _ ps).
  destruct (repeats (map np_portid ports)) eqn:Hr; [done|]. intros He. pose proof (gives_ok _ _ _ (port_targets_ok config ports) He) as Ht.
  assert (ports ≡ₚ ps) as Hp by apply sort_by_perm. split; [|split; [|by exists ports]].
  - intros ->. apply Forall2_nil_inv_r in Ht. rewrite Ht in Hp. by apply Permutation_nil in Hp.
  - assert (map nt_portid targets = map np_portid ports) as ->.
    { clear -Ht. induction Ht as [|p t l ts [Hid _] _ IH]; cbn; [done|]. by rewrite Hid, IH. }
    apply strictly_increasing; [|done]. pose proof (sort_sorted np_portid ps) as Hs. fold ports in Hs. clearbody ports.
    clear -Hs. induction Hs as [|x l Hl IH Hx]; cbn; constructor; [done|]. by apply List.Forall_map.
Qed.

(** ** The served port *)

Section Served.
Variable open_file : str -> bool -> res File.OpenError File.FileBackend.

(** The namespace that entry [c], with backend [i], becomes. *)
Definition ns_of (nqn : str) (i : nat) (c : NamespaceConfig) : Namespace :=
  {| ns_nsid := nc_nsid c; ns_backend := i; ns_uuid := match nc_uuid c with Some u => u | None => namespace_uuid nqn (nc_nsid c) end |}.

Lemma build_namespaces_ok nqn ring l bs t :
  NoDup (map nc_nsid l) ->
  gives (fun '(bs', t') => exists new, bs' = bs ++ new /\ Forall2 (fun c b => build_backend open_file (nc_backend c) ring = Ok b) l new /\
      (forall i c, l !! i = Some c -> t' !! nc_nsid c = Some (ns_of nqn (length bs + i) c)) /\
      forall k, k ∉ map nc_nsid l -> t' !! k = t !! k)
    (build_namespaces open_file nqn ring l bs t).
Proof.
  revert bs t. induction l as [|c l IH]; intros bs t Hnd; cbn [build_namespaces].
  - exists []. rewrite app_nil_r. split; [done|]. split; [constructor|]. by split.
  - cbn [map] in Hnd. apply list.NoDup_cons in Hnd as [Hc Hnd].
    destruct (build_backend open_file (nc_backend c) ring) as [b|e|] eqn:Hb; cbn [mbind res_bind]; try done.
    specialize (IH (bs ++ [b]) (<[nc_nsid c := ns_of nqn (length bs) c]> t) Hnd). fold (ns_of nqn (length bs) c).
    destruct (build_namespaces _ _ _ _ _ _) as [[bs' t']|e|]; try done. destruct IH as (new & -> & Hf & Ht & Ho).
    exists (b :: new). rewrite <- app_assoc. split; [done|]. split; [by constructor|]. split.
    + intros [|i] d Hd; cbn in Hd.
      * injection Hd as <-. rewrite Ho by done. rewrite lookup_insert_eq, Nat.add_0_r. done.
      * rewrite (Ht i d Hd), length_app. cbn. f_equal. f_equal. lia.
    + intros k [Hk Hkl]%not_elem_of_cons. rewrite Ho by done. by rewrite lookup_insert_ne.
Qed.

(** Subsystem [su] serves entry [s]: its attributes, and exactly its namespaces,
    each on the backend built for it. *)
Definition served (ring : bool) (bs : list AnyBackend) (s : SubsystemConfig) (su : Subsystem) : Prop :=
  ss_nqn su = sc_nqn s /\ allow_any_host su = sc_allow_any_host s /\ allowed_hosts su = sc_allowed_hosts s /\ ss_generation su = 1 /\
  (exists base : nat, forall i c, sc_namespaces s !! i = Some c ->
     ss_namespaces su !! nc_nsid c = Some (ns_of (sc_nqn s) (base + i) c) /\
     exists b, bs !! (base + i)%nat = Some b /\ build_backend open_file (nc_backend c) ring = Ok b) /\
  forall k, k ∉ map nc_nsid (sc_namespaces s) -> ss_namespaces su !! k = None.

Lemma served_more ring bs new s su : served ring bs s su -> served ring (bs ++ new) s su.
Proof.
  intros (H1 & H2 & H3 & H4 & (base & H5) & H6). split_and!; try done. exists base. intros i c Hi.
  destruct (H5 i c Hi) as (Hn & b & Hb & He). split; [done|]. exists b. split; [by apply lookup_app_l_Some|done].
Qed.

Lemma build_subsystems_ok ring l bs m :
  Forall subsystem_valid l ->
  gives (fun '(bs', m') => (exists new, bs' = bs ++ new /\
        Forall (fun b => exists s c, s ∈ l /\ c ∈ sc_namespaces s /\ build_backend open_file (nc_backend c) ring = Ok b) new) /\
      (forall nqn, is_Some (m !! nqn) \/ (exists s, s ∈ l /\ sc_nqn s = nqn) -> is_Some (m' !! nqn)) /\
      forall nqn su, m' !! nqn = Some su -> m !! nqn = Some su \/ exists s, s ∈ l /\ sc_nqn s = nqn /\ served ring bs' s su)
    (build_subsystems open_file ring l bs m).
Proof.
  intros Hv. revert bs m. induction Hv as [|s l (_ & Hnd & _) Hl IH]; intros bs m; cbn [build_subsystems].
  - split; [exists []; rewrite app_nil_r; by split|]. split; [by intros nqn [?|(s & ?%elem_of_nil & _)]|]. by left.
  - eapply gives_bind; [by apply build_namespaces_ok|]. intros [bs1 t] (new & -> & Hf & Ht & Ho). cbn beta iota.
    set (su := Subsystem_new _ _ _ _ _ t). specialize (IH (bs ++ new) (<[sc_nqn s := su]> m)).
    destruct (build_subsystems _ _ _ _ _) as [[bs' m']|e|]; try done. destruct IH as ((new' & -> & Hnew) & Hsome & Hall).
    assert (served ring ((bs ++ new) ++ new') s su) as Hserved.
    { apply served_more. split_and!; try done.
      exists (length bs). intros i c Hi. split; [by apply Ht|]. destruct (Forall2_lookup_l _ _ _ _ _ Hf Hi) as (b & Hb & He).
        exists b. split; [|done]. rewrite lookup_app_r by lia. by replace (length bs + i - length bs)%nat with i by lia. }
    split; [|split].
    + exists (new ++ new'). split; [by rewrite app_assoc|]. apply list.Forall_app. split.
      * apply Forall_lookup. intros i b Hb. destruct (Forall2_lookup_r _ _ _ _ _ Hf Hb) as (c & Hc & He).
        exists s, c. split; [by left|]. split; [by eapply list_elem_of_lookup_2|done].
      * eapply Forall_impl; [|exact Hnew]. intros b (s' & c & Hs' & Hc). exists s', c. split; [by right|done].
    + intros nqn Hn. apply Hsome. destruct (decide (nqn = sc_nqn s)) as [->|Hne]; [left; rewrite lookup_insert_eq; by eexists|].
      rewrite lookup_insert_ne by done. destruct Hn as [Hn|(s' & [->|Hs']%elem_of_cons & Hn)]; [by left|done|right; eauto].
    + intros nqn su' Hm. destruct (Hall nqn su' Hm) as [H|(s' & Hs' & Hn & Hsv)]; [|right; exists s'; split; [by right|done]].
      destruct (decide (nqn = sc_nqn s)) as [->|Hne].
      * rewrite lookup_insert_eq in H. injection H as <-. right. exists s. split; [by left|done].
      * rewrite lookup_insert_ne in H by done. by left.
Qed.

(** C31. The port serves its configuration.  For every validated list of subsystems
    whose stores open, the served port has exactly the configured subsystems; a
    subsystem has the host list of its entry and exactly its namespaces, each on
    the store opened for it and with the configured identity or the derived one. *)
Theorem port_serves_config config ip service trtype bs port :
  Forall subsystem_valid (tc_subsystems config) ->
  build_port open_file config ip service trtype = Ok (bs, port) ->
  (forall nqn, is_Some (pc_subsystems port !! nqn) <-> exists s, s ∈ tc_subsystems config /\ sc_nqn s = nqn) /\
  (forall nqn su, pc_subsystems port !! nqn = Some su ->
     exists s, s ∈ tc_subsystems config /\ sc_nqn s = nqn /\ served (0 <? tc_recv_buf_bytes config) bs s su) /\
  1 <= pc_max_qid port < 2 ^ 16.
Proof.
  intros Hv. unfold build_port. pose proof (build_subsystems_ok (0 <? tc_recv_buf_bytes config) (tc_subsystems config) [] ∅ Hv) as Hb.
  destruct (build_subsystems _ _ _ _ _) as [[bs' m]|e|]; cbn [mbind res_bind]; try done. intros [= <- <-]. destruct Hb as (_ & Hsome & Hall). cbn.
  assert (forall nqn su, m !! nqn = Some su -> exists s, s ∈ tc_subsystems config /\ sc_nqn s = nqn /\ served (0 <? tc_recv_buf_bytes config) bs' s su) as H.
  { intros nqn su Hm. destruct (Hall nqn su Hm) as [He|?]; [by rewrite lookup_empty in He|done]. }
  split; [|split; [done|]].
  - intros nqn. split; [intros [su Hm]; destruct (H nqn su Hm) as (s & ? & ? & _); eauto|]. intros He. apply Hsome. by right.
  - unfold max_qid_of. destruct (Z.ltb_spec (Z.max (tc_io_threads config) 1) (2 ^ 16)); lia.
Qed.

(** ** What a connection needs of the port and the stores *)

Variable K : File.Kernel.
Hypothesis Hk : k_fair K.
Existing Instance any_backend.
Abbreviation AL := (any_store K Hk).
Abbreviation good := (store_ok (Store := AL)).

(** A file that opens is one the command layer can use ([open_ok]). *)
Definition opens_ok : Prop := forall path ring b, open_file path ring = Ok b -> file_ok b.

Lemma null_new_ok n : null_ok (Null.new (wrap 64 n) BLOCK_SHIFT).
Proof.
  pose proof (in_u_wrap 64 n ltac:(lia)) as [H1 H2]. unfold null_ok, BLOCK_SHIFT. cbn. rewrite Z.shiftr_div_pow2 by lia.
  pose proof (Z.div_pos (wrap 64 n) (2 ^ 9) H1 ltac:(lia)). pose proof (Z.mul_div_le (wrap 64 n) (2 ^ 9) ltac:(lia)). lia.
Qed.

Lemma built_ok c ring b : opens_ok -> build_backend open_file c ring = Ok b -> good b.
Proof.
  intros Ho. destruct c as [n|n|path]; cbn.
  - intros [= <-]. split; [|cbn; unfold BLOCK_SHIFT; lia]. apply new_mem_ok; [unfold BLOCK_SHIFT; lia|]. apply in_u_wrap. lia.
  - intros [= <-]. apply null_new_ok.
  - destruct (open_file path ring) as [f|e|] eqn:Hf; cbn; try done. intros [= <-]. by apply Ho in Hf.
Qed.

(** Entries as their types allow them. *)
Definition entry_typed (c : NamespaceConfig) : Prop :=
  in_u 32 (nc_nsid c) /\ match nc_uuid c with Some u => length u = 16%nat | None => True end.

Lemma uuid_length nqn nsid : length (namespace_uuid nqn nsid) = 16%nat.
Proof. unfold namespace_uuid, to_be_bytes. by rewrite !length_app, !length_rev, !length_le_split. Qed.

(** The served port is one a connection can run on. *)
Lemma build_port_thread config ip service trtype bs port :
  opens_ok -> Forall subsystem_valid (tc_subsystems config) ->
  Forall (fun s => Forall entry_typed (sc_namespaces s)) (tc_subsystems config) ->
  build_port open_file config ip service trtype = Ok (bs, port) -> Forall good bs /\ port_ok (length bs) port.
Proof.
  intros Ho Hv Hty. unfold build_port. pose proof (build_subsystems_ok (0 <? tc_recv_buf_bytes config) (tc_subsystems config) [] ∅ Hv) as Hb.
  destruct (build_subsystems _ _ _ _ _) as [[bs' m]|e|]; cbn [mbind res_bind]; try done. intros [= <- <-].
  destruct Hb as ((new & -> & Hnew) & _ & Hall). rewrite list.Forall_forall in Hty. split.
  - eapply Forall_impl; [|exact Hnew]. intros b (s & c & Hs & Hc & Hb). apply Hty in Hs. rewrite list.Forall_forall in Hs.
    by eapply built_ok.
  - split; [unfold max_qid_of; cbn; destruct (Z.ltb_spec (Z.max (tc_io_threads config) 1) (2 ^ 16)); unfold in_u; lia|].
    cbn. intros nqn su Hm. destruct (Hall nqn su Hm) as [He|(s & Hs & _ & Hsv)]; [by rewrite lookup_empty in He|].
    destruct Hsv as (_ & _ & _ & _ & (base & Hns) & Hno). intros k ns Hk'.
    destruct (decide (k ∈ map nc_nsid (sc_namespaces s))) as [Hin|Hin]; [|by rewrite Hno in Hk'].
    apply list_elem_of_In, in_map_iff in Hin as (c & <- & Hc%list_elem_of_In). apply Hty in Hs. rewrite list.Forall_forall in Hs.
    destruct (Hs c Hc) as (Hu & Hl). apply list_elem_of_lookup in Hc as [i Hi]. destruct (Hns i c Hi) as (He & b & Hb & _).
    rewrite He in Hk'. injection Hk' as <-. split; [done|]. cbn. split; [by eapply lookup_lt_Some|].
    destruct (nc_uuid c); [done|apply uuid_length].
Qed.

(** ** Requests *)

(** A connection's context after the control plane changed what it shares. *)
Definition with_shared (c : CtlState) (w : World AnyBackend) : World AnyBackend :=
  {| w_slots := w_slots w; w_core := w_core w; w_port := ct_port c; w_registry := w_registry w; w_connect_data := w_connect_data w;
     w_peer := w_peer w; w_role := w_role w; w_backends := ct_backends c; w_mem := w_mem w; w_now := w_now w; w_tid := w_tid w;
     w_cpus := w_cpus w; w_heap := w_heap w; w_woken := w_woken w |}.

Definition shares (c : CtlState) (w : World AnyBackend) : Prop := w_port w = ct_port c /\ w_backends w = ct_backends c.

Definition request_typed (r : Request) : Prop :=
  match r with AddNamespace _ nsid _ => in_u 32 nsid | RemoveNamespace _ nsid => in_u 32 nsid | _ => True end.

(** The subsystem a request selects. *)
Definition selected (c : CtlState) (subsysnqn : option str) (nqn : str) (s : Subsystem) : Prop :=
  pc_subsystems (ct_port c) !! nqn = Some s /\ match subsysnqn with Some q => q = nqn | None => size (pc_subsystems (ct_port c)) = 1%nat end.

Lemma resolve_spec c o :
  match resolve c o with
  | inl (nqn, s) => selected c o nqn s
  | inr r => (exists e, r = RErr e) /\ forall nqn s, ~ selected c o nqn s
  end.
Proof.
  unfold resolve, selected. destruct o as [q|].
  - destruct (pc_subsystems (ct_port c) !! q) as [s|] eqn:Hq; [done|]. split; [by eexists|]. intros nqn s [Hs <-]. congruence.
  - assert (port_entries (ct_port c) ≡ₚ map_to_list (pc_subsystems (ct_port c))) as Hp by apply sorting.merge_sort_Permutation.
    assert (length (port_entries (ct_port c)) = size (pc_subsystems (ct_port c))) as Hl by (by rewrite Hp, length_map_to_list).
    destruct (port_entries (ct_port c)) as [|[nqn s] [|e l]]; cbn in Hl.
    + split; [by eexists|]. intros nqn s [_ H]. lia.
    + split; [|done]. apply elem_of_map_to_list. rewrite <- Hp. by left.
    + split; [by eexists|]. intros nqn' s' [_ H]. lia.
Qed.

Lemma change_spec ch s :
  change_namespaces ch s =
  match changed_table ch (ss_namespaces s) with
  | Ok t => (bump (swap_table t s), Ok tt)
  | Err e => (s, Err e)
  | Panic => (s, Panic)
  end.
Proof. unfold change_namespaces, mbind, M_bind, get, lift, modify. by destruct (changed_table ch (ss_namespaces s)). Qed.

(** What a change does when it is accepted. *)
Definition changed (ch : NsChange) (nqn : str) (s : Subsystem) (c c' : CtlState) : Prop :=
  exists t, changed_table ch (ss_namespaces s) = Ok t /\ pc_subsystems (ct_port c') = <[nqn := bump (swap_table t s)]> (pc_subsystems (ct_port c)) /\
    ct_nudges c' = S (ct_nudges c).

Lemma apply_change_spec nqn s ch bs c :
  (exists c', apply_change nqn s ch bs c = (c', Ok (ROk None)) /\ changed ch nqn s c c' /\ ct_backends c' = bs /\
     pc_max_qid (ct_port c') = pc_max_qid (ct_port c)) \/
  exists e, apply_change nqn s ch bs c = (c, Ok (RErr (Refused e))).
Proof.
  unfold apply_change. rewrite change_spec. destruct (changed_table ch (ss_namespaces s)) as [t|e|] eqn:Ht; [left|right; by eexists|].
  - eexists. split; [done|]. split; [|done]. by exists t.
  - exfalso. destruct ch as [ns|nsid]; cbn in Ht; by case_decide.
Qed.

Lemma table_ok_mono n m t : (n <= m)%nat -> table_ok n t -> table_ok m t.
Proof. intros Hle H k ns Hk'. destruct (H k ns Hk') as (? & ? & ?). split_and!; try done. lia. Qed.

Lemma changed_port_ok n m ch nqn s c c' :
  (n <= m)%nat -> port_ok n (ct_port c) -> pc_subsystems (ct_port c) !! nqn = Some s -> changed ch nqn s c c' ->
  pc_max_qid (ct_port c') = pc_max_qid (ct_port c) ->
  match ch with NsAdd ns => in_u 32 (ns_nsid ns) /\ (ns_backend ns < m)%nat /\ length (ns_uuid ns) = 16%nat | NsRemove _ => True end ->
  port_ok m (ct_port c').
Proof.
  intros Hle [Hq Hp] Hs (t & Ht & Hm & _) Hmq Hch. split; [by rewrite Hmq|]. intros q su. rewrite Hm.
  destruct (decide (q = nqn)) as [->|Hne]; [|rewrite lookup_insert_ne by done; intros H; eapply table_ok_mono; [done|by eapply Hp]].
  rewrite lookup_insert_eq. intros [= <-]. cbn. pose proof (table_ok_mono n m _ Hle (Hp _ _ Hs)) as Ho. intros k ns Hk'.
  destruct ch as [x|nsid]; cbn in Ht; case_decide; simplify_eq.
  - destruct (decide (k = ns_nsid x)) as [->|Hne]; [rewrite lookup_insert_eq in Hk'; by injection Hk' as <-|].
    rewrite lookup_insert_ne in Hk' by done. by apply Ho.
  - apply lookup_delete_Some in Hk' as [_ Hk']. by apply Ho.
Qed.

(** The effect of a request on the connections. *)
Definition seen_by (c c' : CtlState) : Prop :=
  forall cn : Conn AnyBackend, shares c (c_world cn) -> world_ok (ST := AL) (c_world cn) ->
    outside (ST := AL) cn (c_set_world (with_shared c' (c_world cn)) cn).

Lemma shared_outside c c' more :
  ct_backends c' = ct_backends c ++ more -> Forall good more ->
  (forall n, port_ok n (ct_port c) -> n = length (ct_backends c) -> port_ok (length (ct_backends c')) (ct_port c')) -> seen_by c c'.
Proof.
  intros Hb Hm Hport cn [Hp Hs] [W1 W2 W3 W4 W5 W6 W7]. rewrite Hp, Hs in *. split_and!; try done; cbn.
  - rewrite Hs, Hb, map_app. by eexists.
  - split; cbn; try done.
    + rewrite Hb. by apply list.Forall_app.
    + by eapply Hport.
    + unfold role_ok in *. destruct (w_role (c_world cn)); [done|]. intros t Ht. eapply table_ok_mono; [|by apply W6].
      rewrite Hb, length_app. lia.
Qed.

(** Every request, whatever opens files. *)
Lemma request_safe request c :
  opens_ok -> (forall path ring, open_file path ring <> Panic) -> request_typed request ->
  exists c' r, handle open_file K request c = (c', Ok r) /\ seen_by c c' /\
    (forall e, r = RErr e -> c' = c) /\
    match request with
    | AddNamespace o nsid b => r = ROk None -> exists nqn s, selected c o nqn s /\
        changed (NsAdd {| ns_nsid := nsid; ns_backend := length (ct_backends c); ns_uuid := namespace_uuid (ss_nqn s) nsid |}) nqn s c c'
    | RemoveNamespace o nsid => r = ROk None -> exists nqn s, selected c o nqn s /\ changed (NsRemove nsid) nqn s c c'
    | _ => c' = c
    end.
Proof.
  intros Ho Hnp Hty.
  assert (seen_by c c) as Hsame.
  { apply (shared_outside c c []); [by rewrite app_nil_r|constructor|]. intros n Hn ->. done. }
  assert (forall r, exists c' r', (c, Ok (E := never) r) = (c', Ok r') /\ seen_by c c' /\ (forall e, r' = RErr e -> c' = c) /\ c' = c /\ r' = r) as Hstay
    by (intros r; exists c, r; by split_and!).
  destruct request as [o nsid b|o nsid|o|clear|]; cbn [handle].
  - pose proof (resolve_spec c o) as Hr. destruct (resolve c o) as [[nqn s]|r].
    2: { destruct Hr as [[e ->] _]. exists c, (RErr e). by split_and!. }
    destruct (_ || _); [exists c, (RErr NsidReserved); by split_and!|]. rename Hty into Hu.
    destruct (build_backend open_file b _) as [be|e|] eqn:Hb.
    2: { exists c, (RErr (OpenFailed e)). by split_and!. }
    2: { exfalso. destruct b as [n|n|path]; cbn in Hb; try done. pose proof (Hnp path (0 <? pc_recv_buf_bytes (ct_port c))) as H.
         by destruct (open_file path (0 <? pc_recv_buf_bytes (ct_port c))). }
    set (ns := {| ns_nsid := nsid |}).
    destruct (apply_change_spec nqn s (NsAdd ns) (ct_backends c ++ [be]) c) as [(c' & -> & Hch & Hbs & Hq)|[e ->]].
    2: { exists c, (RErr (Refused e)). by split_and!. }
    exists c', (ROk None). split; [done|]. split; [|split; [done|by intros _; exists nqn, s]].
    eapply shared_outside; [exact Hbs|constructor; [by eapply built_ok|constructor]|]. intros n Hp ->.
    rewrite Hbs, length_app. eapply changed_port_ok; [|exact Hp|apply Hr|exact Hch|done|]; [cbn; lia|]. cbn.
    split; [done|]. split; [lia|apply uuid_length].
  - pose proof (resolve_spec c o) as Hr. destruct (resolve c o) as [[nqn s]|r].
    2: { destruct Hr as [[e ->] _]. exists c, (RErr e). by split_and!. }
    destruct (apply_change_spec nqn s (NsRemove nsid) (ct_backends c) c) as [(c' & -> & Hch & Hbs & Hq)|[e ->]].
    2: { exists c, (RErr (Refused e)). by split_and!. }
    exists c', (ROk None). split; [done|]. split; [|split; [done|by intros _; exists nqn, s]].
    apply (shared_outside c c' []); [by rewrite app_nil_r|constructor|]. intros n Hp ->. rewrite Hbs.
    eapply changed_port_ok; [done|exact Hp|apply Hr|exact Hch|done|done].
  - destruct (resolve c o) as [[nqn s]|r]; edestruct Hstay as (c' & r' & He & H1 & H2 & -> & ->); exists c; eexists; (split; [exact He|done]).
  - edestruct Hstay as (c' & r' & He & H1 & H2 & -> & ->); exists c; eexists; (split; [exact He|done]).
  - edestruct Hstay as (c' & r' & He & H1 & H2 & -> & ->); exists c; eexists; (split; [exact He|done]).
Qed.

End Served.

(** The control API runs against the files of the system: [probe] is what the
    system answers when a path is opened, [contents] what the file holds. *)
Section Requests.
Variable probe : str -> File.Probe.
Variable contents : str -> Z -> Byte.byte.

Definition open_path (path : str) (ring : bool) : res File.OpenError File.FileBackend :=
  File.open path ring (probe path) (contents path).

(** C29. The control API is safe while the target runs.  Every request (adding a
    memory, null or file namespace, removing one, listing, statistics) is answered
    without a panic, whether or not a file opens and whatever the kernel then
    does with it, and is, for every connection that shares the port, one of the
    steps the connection's theorems allow; a refused request changes nothing; an
    accepted one installs the table with the namespace added (on a store of its
    own, under its derived identity) or removed, advances the generation that
    the IO queues' caches check, and sends one event nudge.  Assumed: the
    namespace id is a [u32], what the system answers to the probes of [open] is in
    its types with alignments of at most 2 GiB, and no transfer reports more bytes
    than it was given. *)
Theorem control_request_safe K (Hk : k_fair K) request c :
  (forall path, probe_typed (probe path)) -> request_typed request ->
  exists c' r, handle open_path K request c = (c', Ok r) /\ seen_by K Hk c c' /\
    (forall e, r = RErr e -> c' = c) /\
    match request with
    | AddNamespace o nsid b => r = ROk None -> exists nqn s, selected c o nqn s /\
        changed (NsAdd {| ns_nsid := nsid; ns_backend := length (ct_backends c); ns_uuid := namespace_uuid (ss_nqn s) nsid |}) nqn s c c'
    | RemoveNamespace o nsid => r = ROk None -> exists nqn s, selected c o nqn s /\ changed (NsRemove nsid) nqn s c c'
    | _ => c' = c
    end.
Proof.
  intros Hp Hty. apply request_safe; [| |done].
  - intros path ring b Ho. pose proof (open_ok path ring (probe path) (contents path) (Hp path)) as H. unfold open_path in Ho. by rewrite Ho in H.
  - intros path ring Ho. pose proof (open_ok path ring (probe path) (contents path) (Hp path)) as H. unfold open_path in Ho. by rewrite Ho in H.
Qed.

End Requests.

(** ** Controller ids of the port processes *)

Lemma range_ok_spec index ports :
  1 <= ports <= CNTLID_MAX -> 0 <= index < ports ->
  exists lo hi, cntlid_range (E := never) index ports = Ok (lo, hi) /\ 1 <= lo <= hi /\ hi <= CNTLID_MAX /\
    lo = 1 + index * (CNTLID_MAX / ports) /\ (index + 1 < ports -> hi = (index + 1) * (CNTLID_MAX / ports)).
Proof.
  intros Hp Hi. unfold cntlid_range. set (slice := CNTLID_MAX / ports).
  assert (1 <= slice) as Hs by (apply Z.div_le_lower_bound; lia).
  assert (ports * slice <= CNTLID_MAX) as Hm by (apply Z.mul_div_le; lia).
  assert ((index + 1) * slice <= CNTLID_MAX) as Hx by (eapply Z.le_trans; [apply Z.mul_le_mono_nonneg_r with (m := ports); lia|done]).
  assert (CNTLID_MAX = 65519) as HM by done.
  assert (forall z, 0 <= z <= 65535 -> checked (E := never) 16 z = Ok z) as Hc by (intros; apply checked_ok; unfold in_u; lia).
  rewrite (proj2 (Z.eqb_neq ports 0)) by lia. cbn [negb assert mbind res_bind].
  rewrite Hc by nia. cbn [mbind res_bind]. rewrite Hc by nia. cbn [mbind res_bind]. rewrite Hc by lia. cbn [mbind res_bind].
  destruct (Z.eqb_spec (index + 1) ports) as [He|He]; cbn [mbind res_bind].
  - exists (1 + index * slice), CNTLID_MAX. split_and!; try done; nia.
  - rewrite Hc by nia. cbn [mbind res_bind]. rewrite Hc by nia. cbn [mbind res_bind].
    exists (1 + index * slice), (1 + index * slice + slice - 1). split_and!; try done; nia.
Qed.

(** A registry that started on a slice stays on it. *)
Inductive reg_from (lo hi : Z) : Registry -> Prop :=
| from_new r : Registry_new (E := never) lo hi = Ok r -> reg_from lo hi r
| from_step r r' : reg_from lo hi r -> reg_step r r' -> reg_from lo hi r'.

Definition slice_of (r : Registry) : Z * Z := (cntlid_min r, cntlid_max r).

Lemma step_slice r r' : reg_step r r' -> slice_of r' = slice_of r.
Proof.
  assert (forall entry span start offset n, keeps slice_of (allocate_loop entry span start offset n)) as Hloop.
  { intros entry span start offset n. revert offset. induction n as [|n IH]; intros offset; cbn [allocate_loop]; walk. }
  destruct 1 as [r s h m k q d r' o _ He|r c h q r' o _ He|r c]; [| |done].
  - assert (keeps slice_of (allocate s h m k q d)) as Ha by (unfold allocate; walk). specialize (Ha r). by rewrite He in Ha.
  - assert (keeps slice_of (install_io_queue c h q)) as Ha by (unfold install_io_queue; walk). specialize (Ha r). by rewrite He in Ha.
Qed.

Lemma from_reachable lo hi r : reg_from lo hi r -> reg_reachable r /\ slice_of r = (lo, hi).
Proof.
  induction 1 as [r He|r r' _ [Hr Hs] Hst].
  - split; [by econstructor|]. revert He. unfold Registry_new, assert. destruct (_ && _); [|done]. by intros [= <-].
  - split; [by eapply reg_next|]. by rewrite (step_slice _ _ Hst).
Qed.

(** C32. Port processes never share a controller id.  For every number of ports the
    id space allows, each process gets a non-empty slice of it on which its
    registry starts, and however the registries of two processes evolve, no id
    is in both. *)
Theorem port_cntlids_disjoint ports i j :
  1 <= ports <= CNTLID_MAX -> 0 <= i < ports -> 0 <= j < ports -> i <> j ->
  exists lo hi lo' hi', cntlid_range (E := never) i ports = Ok (lo, hi) /\ cntlid_range (E := never) j ports = Ok (lo', hi') /\
    (exists r, Registry_new (E := never) lo hi = Ok r) /\
    forall r r' k, reg_from lo hi r -> reg_from lo' hi' r' -> is_Some (controllers r !! k) -> controllers r' !! k = None.
Proof.
  intros Hp Hi Hj Hne. destruct (range_ok_spec i ports Hp Hi) as (lo & hi & He & Hlo & Hhi & Elo & Ehi).
  destruct (range_ok_spec j ports Hp Hj) as (lo' & hi' & He' & Hlo' & Hhi' & Elo' & Ehi'). exists lo, hi, lo', hi'.
  split; [done|]. split; [done|]. split.
  - unfold Registry_new, assert. rewrite !(proj2 (Z.leb_le _ _)) by lia. cbn. by eexists.
  - intros r r' k (Hr & Hs)%from_reachable (Hr' & Hs')%from_reachable [e Hk']. destruct (controllers r' !! k) as [e'|] eqn:Hk2; [|done]. exfalso.
    apply reg_reachable_ok in Hr as (_ & _ & Hf & _). apply reg_reachable_ok in Hr' as (_ & _ & Hf' & _).
    destruct (Hf k e Hk') as (_ & Hin & _), (Hf' k e' Hk2) as (_ & Hin' & _). injection Hs as S1 S2. injection Hs' as S1' S2'. rewrite S1, S2 in Hin. rewrite S1', S2' in Hin'.
    assert (1 <= CNTLID_MAX / ports) by (apply Z.div_le_lower_bound; lia).
    destruct (Z_lt_le_dec i j); [rewrite Ehi in Hin by lia; nia|rewrite Ehi' in Hin' by lia; nia].
Qed.

Definition bs (s : string) : str := ascii_bytes s.

(** Two TCP ports and one RDMA port; the second namespace of [nqn.a] is disabled. *)
Definition demo_doc : NvmetConfig :=
  {| nv_ports :=
       [{| np_traddr := bs "10.0.0.7"; np_trsvcid := bs "4420"; np_trtype := bs "tcp"; np_portid := 5; np_subsystems := [bs "nqn.a"; bs "nqn.b"] |};
        {| np_traddr := bs "10.0.0.8"; np_trsvcid := bs "4420"; np_trtype := bs "rdma"; np_portid := 1; np_subsystems := [bs "nqn.a"] |};
        {| np_traddr := bs "::1"; np_trsvcid := bs "4421"; np_trtype := bs "tcp"; np_portid := 2; np_subsystems := [bs "nqn.b"] |}];
     nv_subsystems :=
       [{| nv_nqn := bs "nqn.a"; nv_attr := {[ bs "allow_any_host" := bs "1" ]}; nv_allowed_hosts := [];
           nv_namespaces := [{| nn_nsid := 1; nn_device := {[ bs "path" := bs "/dev/sda" ]}; nn_enable := 1 |};
                             {| nn_nsid := 1; nn_device := ∅; nn_enable := 0 |}] |};
        {| nv_nqn := bs "nqn.b"; nv_attr := ∅; nv_allowed_hosts := [bs "host"]; nv_namespaces := [] |}] |}.

Definition demo_targets : list NvmetTarget := match from_config demo_doc Tcp with Ok l => l | _ => [] end.

Lemma demo_loads : from_config demo_doc Tcp = Ok demo_targets.
Proof. vm_compute. reflexivity. Qed.

Lemma config_loads_witness : demo_targets <> [] /\ map nt_portid demo_targets = [2; 5].
Proof. destruct (config_loads demo_doc Tcp demo_targets demo_loads) as [H _]. split; [exact H|vm_compute; reflexivity]. Defined.

(** Every path opens as a small store for direct IO. *)
Definition demo_direct : File.FileBackend :=
  {| File.f_kind := File.Regular; File.f_shift := 9; File.f_blocks := 16; File.f_direct := true; File.f_dontcache := true;
     File.f_topology := Topology_default; File.f_disk := fun _ => Byte.x00 |}.
Definition demo_open (path : str) (ring : bool) : res File.OpenError File.FileBackend := Ok demo_direct.

Definition demo_target_config : TargetConfig :=
  {| tc_io_threads := 4; tc_io_queue_size := 128; tc_queue_buf_bytes := 0x100000; tc_recv_buf_bytes := 0; tc_poll := false;
     tc_subsystems := match demo_targets with [_; t] => nt_subsystems t | _ => [] end |}.

Definition demo_built : list AnyBackend * PortConfig :=
  match build_port demo_open demo_target_config (bs "10.0.0.7") (bs "4420") Tcp with
  | Ok x => x
  | _ => ([], {| pc_traddr := []; pc_trsvcid := []; pc_trtype := Tcp; pc_max_qid := 0; pc_io_queue_size := 0; pc_queue_buf_bytes := 0;
                 pc_recv_buf_bytes := 0; pc_poll := false; pc_subsystems := ∅ |})
  end.

Lemma demo_valid : Forall subsystem_valid (tc_subsystems demo_target_config).
Proof. apply (validate_subsystems_ok (tc_subsystems demo_target_config)). vm_compute. reflexivity. Qed.

Lemma port_serves_config_witness : is_Some (pc_subsystems demo_built.2 !! bs "nqn.a") /\ pc_max_qid demo_built.2 = 4.
Proof.
  destruct (port_serves_config demo_open demo_target_config (bs "10.0.0.7") (bs "4420") Tcp demo_built.1 demo_built.2 demo_valid) as (H & _).
  - vm_compute. reflexivity.
  - split; [|vm_compute; reflexivity]. apply H. exists (default (Build_SubsystemConfig [] [] [] false [] []) (head (tc_subsystems demo_target_config))).
    split; [|vm_compute; reflexivity]. vm_compute. left.
Defined.

Definition demo_ctl : CtlState :=
  {| ct_port := demo_built.2; ct_registry := {| cntlid_min := 1; cntlid_max := 10; next_cntlid := 1; controllers := ∅; flags := [] |};
     ct_backends := demo_built.1; ct_nudges := 0; ct_groups := [] |}.

(** A file system without direct IO: every path is a megabyte, opened buffered. *)
Definition buffered_probe : File.Probe := {|
  File.pb_open_direct := Err File.EINVAL; File.pb_open_plain := Ok tt;
  File.pb_fstat := Ok {| File.st_kind := Some File.Regular; File.st_size := 1048576; File.st_blksize := 4096 |};
  File.pb_dioalign := (0, 0); File.pb_size64 := Err 25; File.pb_ssz := Err 25; File.pb_topology := Topology_default |}.

Lemma buffered_typed : probe_typed buffered_probe.
Proof. split; cbn; try done. intros st [= <-]. cbn. lia. Qed.

(** A file namespace is added to the named subsystem. *)
Lemma control_request_safe_witness :
  exists c', handle (open_path (fun _ => buffered_probe) (fun _ _ => Byte.x00)) demo_kernel
      (AddNamespace (Some (bs "nqn.b")) 3 (CfgFile (bs "/srv/disk"))) demo_ctl = (c', Ok (ROk None)) /\
    ct_nudges c' = 1%nat.
Proof.
  destruct (control_request_safe (fun _ => buffered_probe) (fun _ _ => Byte.x00) demo_kernel demo_fair
    (AddNamespace (Some (bs "nqn.b")) 3 (CfgFile (bs "/srv/disk"))) demo_ctl) as (c' & r & He & _ & _ & Hch).
  - intros path. apply buffered_typed.
  - cbn. unfold in_u. lia.
  - assert (r = ROk None) as -> by (apply (f_equal snd) in He; vm_compute in He; by injection He).
    exists c'. split; [exact He|]. destruct (Hch eq_refl) as (nqn & s & _ & t & _ & _ & ->). reflexivity.
Defined.

Lemma port_cntlids_disjoint_witness :
  exists lo hi lo' hi', cntlid_range (E := never) 0 3 = Ok (lo, hi) /\ cntlid_range (E := never) 2 3 = Ok (lo', hi') /\ hi < lo'.
Proof.
  destruct (port_cntlids_disjoint 3 0 2) as (lo & hi & lo' & hi' & H1 & H2 & _); try (unfold CNTLID_MAX; lia).
  exists lo, hi, lo', hi'. split; [exact H1|]. split; [exact H2|]. vm_compute in H1, H2. injection H1 as <- <-. injection H2 as <- <-. lia.
Defined.

(** The control API accepts an empty store, which validation of a configuration
    refuses; and a size of 2^44 MiB and more loses its high bits. *)
Example empty_store_accepted :
  validate_namespaces (bs "nqn.a") [] [{| nc_nsid := 3; nc_backend := CfgMemory 0; nc_uuid := None |}] = Err (ZeroSize (bs "nqn.a") 3) /\
  (handle demo_open demo_kernel (AddNamespace (Some (bs "nqn.b")) 3 (CfgMemory 0)) demo_ctl).2 = Ok (ROk None) /\
  build_backend demo_open (CfgMemory (2 ^ 44)) false = build_backend demo_open (CfgMemory 0) false.
Proof. vm_compute. split_and!; reflexivity. Qed.
