(* ===== verification/Harness.v ===== *)
(** * [ioutgt-harness/src/lib.rs]: connections and the queue-thread pool

    The control loop with its lazily spawned pool of queue threads: accepting
    and admitting connections ([ioutgt-core/src/permit.rs]), routing each to a
    thread's mailbox ([ioutgt-uring/src/mailbox.rs]), tearing the pool down when
    it has been idle, and the threads' loops with their statistics.  The control
    thread and the queue threads take turns in any order; what the operating
    system, the handshakes and the connections do is given by the arguments of
    the steps.  Connections are numbers. *)

From S2P Require Import Prelude Pool SlotQ Dispatch.

(** ** Messages *)

Inductive IoMsg := IoConn (c : nat) | IoStats (clear : bool) | IoShutdown.
Inductive AdminMsg := AdmConn (c : nat) | AdmNsChanged | AdmStats (clear : bool) | AdmShutdown.

#[export] Instance IoMsg_eq_dec : EqDecision IoMsg.
Proof. solve_decision. Defined.
#[export] Instance AdminMsg_eq_dec : EqDecision AdminMsg.
Proof. solve_decision. Defined.

(** ** A queue thread *)

(** The mailbox; whether the loop runs; the connections it serves; the statistics
    of its queues and of those that are gone; the connections to nudge. *)
Record QueueThread {Msg : Type} := {
  qt_mailbox : list Msg;
  qt_up : bool;
  qt_conns : list nat;
  qt_queues : list (nat * QueueStats);
  qt_retired : QueueStats;
  qt_live : list nat;
}.
Arguments QueueThread : clear implicits.

Section Thread.
Context {Msg : Type}.
Implicit Type t : QueueThread Msg.

(** A thread whose spawn succeeds or fails. *)
Definition new_thread (started : bool) : QueueThread Msg :=
  {| qt_mailbox := []; qt_up := started; qt_conns := []; qt_queues := []; qt_retired := QueueStats_new 0; qt_live := [] |}.

(** [MailboxSender::send]. *)
Definition send (m : Msg) t : QueueThread Msg :=
  {| qt_mailbox := qt_mailbox t ++ [m]; qt_up := qt_up t; qt_conns := qt_conns t; qt_queues := qt_queues t; qt_retired := qt_retired t; qt_live := qt_live t |}.

(** [Mailbox::try_recv]. *)
Definition pop t : option (Msg * QueueThread Msg) :=
  match qt_mailbox t with
  | [] => None
  | m :: r => Some (m, {| qt_mailbox := r; qt_up := qt_up t; qt_conns := qt_conns t; qt_queues := qt_queues t;
                          qt_retired := qt_retired t; qt_live := qt_live t |})
  end.

Definition set_conns (l : list nat) t : QueueThread Msg :=
  {| qt_mailbox := qt_mailbox t; qt_up := qt_up t; qt_conns := l; qt_queues := qt_queues t; qt_retired := qt_retired t; qt_live := qt_live t |}.
Definition set_qstats (q : list (nat * QueueStats)) (r : QueueStats) t : QueueThread Msg :=
  {| qt_mailbox := qt_mailbox t; qt_up := qt_up t; qt_conns := qt_conns t; qt_queues := q; qt_retired := r; qt_live := qt_live t |}.
Definition set_live (l : list nat) t : QueueThread Msg :=
  {| qt_mailbox := qt_mailbox t; qt_up := qt_up t; qt_conns := qt_conns t; qt_queues := qt_queues t; qt_retired := qt_retired t; qt_live := l |}.

(** The loop returns: the runtime and its tasks are dropped. *)
Definition exit_loop t : QueueThread Msg :=
  {| qt_mailbox := qt_mailbox t; qt_up := false; qt_conns := []; qt_queues := []; qt_retired := QueueStats_new 0; qt_live := [] |}.

(** [Rc::strong_count(stats) > 1] is [alive]. *)
Fixpoint prune_queues (alive : nat -> bool) (l : list (nat * QueueStats)) (retired : QueueStats) : res never (list (nat * QueueStats) * QueueStats) :=
  match l with
  | [] => Ok ([], retired)
  | (c, s) :: l =>
      if alive c then '(l, r) ← prune_queues alive l retired; Ok ((c, s) :: l, r)
      else r ← absorb retired (snapshot s); prune_queues alive l r
  end.

Definition prune_dead_queues (alive : nat -> bool) t : res never (QueueThread Msg) :=
  '(l, r) ← prune_queues alive (qt_queues t) (qt_retired t);
  Ok (set_qstats l r t).

Definition clear_thread_stats t : QueueThread Msg :=
  set_qstats (map (fun e => (e.1, reset e.2)) (qt_queues t)) (QueueStats_new 0) t.

(** [thread_stats_json]: the queues and the accumulator (ring counters apart). *)
Definition StatsReply : Type := list QueueStats * QueueStats.
Definition thread_stats t : StatsReply := (map (fun e => snapshot e.2) (qt_queues t), qt_retired t).
Definition zeroed_stats : StatsReply := ([], QueueStats_new 0).

Definition reply_thread_stats (alive : nat -> bool) (clear : bool) t : res never (QueueThread Msg * StatsReply) :=
  t ← prune_dead_queues alive t;
  Ok (if clear then clear_thread_stats t else t, thread_stats t).

(** [on_ctx] of connection [c]: its statistics are listed. *)
Definition on_ctx_stats (c : nat) (qid : Z) t : QueueThread Msg := set_qstats (qt_queues t ++ [(c, QueueStats_new qid)]) (qt_retired t) t.

(** [run_queue] of the [k]-th connection returns. *)
Definition conn_ends (k : nat) t : QueueThread Msg := set_conns (base.delete k (qt_conns t)) t.
End Thread.

(** A turn of an IO thread's loop. *)
Definition io_turn (alive : nat -> bool) (t : QueueThread IoMsg) : res never (QueueThread IoMsg * option StatsReply) :=
  if negb (qt_up t) then Ok (t, None)
  else match pop t with
       | None => Ok (t, None)
       | Some (IoConn c, t) => t ← prune_dead_queues alive t; Ok (set_conns (qt_conns t ++ [c]) t, None)
       | Some (IoStats clear, t) => '(t, r) ← reply_thread_stats alive clear t; Ok (t, Some r)
       | Some (IoShutdown, t) => Ok (exit_loop t, None)
       end.

(** A turn of the admin thread's loop: also the connections it nudges. *)
Definition admin_turn (alive : nat -> bool) (t : QueueThread AdminMsg) : res never (QueueThread AdminMsg * option StatsReply * list nat) :=
  if negb (qt_up t) then Ok (t, None, [])
  else match pop t with
       | None => Ok (t, None, [])
       | Some (AdmConn c, t) =>
           t ← prune_dead_queues alive t;
           Ok (set_conns (qt_conns t ++ [c]) (set_live (List.filter alive (qt_live t)) t), None, [])
       | Some (AdmNsChanged, t) =>
           let l := List.filter alive (qt_live t) in Ok (set_live l t, None, l)
       | Some (AdmStats clear, t) => '(t, r) ← reply_thread_stats alive clear t; Ok (t, Some r, [])
       | Some (AdmShutdown, t) => Ok (exit_loop t, None, [])
       end.

(** [on_ctx] on the admin thread also keeps the nudge. *)
Definition admin_ctx (c : nat) (t : QueueThread AdminMsg) : QueueThread AdminMsg :=
  let t := on_ctx_stats c 0 t in set_live (qt_live t ++ [c]) t.

(** ** The control thread *)

Definition MAX_CONNECTIONS : Z := 256.

Record QueuePool := { p_admin : QueueThread AdminMsg; p_io : list (QueueThread IoMsg) }.

(** All pools ever spawned; the one whose senders are held; the connection counter;
    when the pool was first seen idle; the handshakes in flight, each with the
    pool whose senders it has. *)
Record Harness := {
  h_pools : list QueuePool;
  h_senders : option nat;
  h_active : Z;
  h_idle_since : option Z;
  h_handshakes : list (nat * nat);
}.

Definition Harness_new : Harness :=
  {| h_pools := []; h_senders := None; h_active := 0; h_idle_since := None; h_handshakes := [] |}.

Definition h_set_pools (pools : list QueuePool) (senders : option nat) (h : Harness) : Harness :=
  {| h_pools := pools; h_senders := senders; h_active := h_active h; h_idle_since := h_idle_since h; h_handshakes := h_handshakes h |}.
Definition h_set_idle (since : option Z) (h : Harness) : Harness :=
  {| h_pools := h_pools h; h_senders := h_senders h; h_active := h_active h; h_idle_since := since; h_handshakes := h_handshakes h |}.
Definition h_set_conns (active : Z) (hs : list (nat * nat)) (h : Harness) : Harness :=
  {| h_pools := h_pools h; h_senders := h_senders h; h_active := active; h_idle_since := h_idle_since h; h_handshakes := hs |}.

(** [build_pool] with the outcome of each spawn: [None] when a mailbox cannot be
    made. *)
Definition build_pool (spawned : option (bool * list bool)) : option QueuePool :=
  '(a, ios) ← spawned; Some {| p_admin := new_thread a; p_io := map new_thread ios |}.

Definition ensure_pool_up (spawned : option (bool * list bool)) (h : Harness) : Harness :=
  match h_senders h with
  | Some _ => h
  | None =>
      match build_pool spawned with
      | Some p => h_set_pools (h_pools h ++ [p]) (Some (length (h_pools h))) h
      | None => h
      end
  end.

Definition shutdown_pool (p : QueuePool) : QueuePool :=
  {| p_admin := send AdmShutdown (p_admin p); p_io := map (send IoShutdown) (p_io p) |}.

Definition teardown_pool (h : Harness) : Harness :=
  match h_senders h with
  | None => h
  | Some i => h_set_pools (alter shutdown_pool i (h_pools h)) None h
  end.

(** [ConnPermit::drop]. *)
Definition permit_drop (active : Z) : Z := wrap 64 (active - 1).

(** A tick of the idle timer at time [now]. *)
Definition maybe_teardown (grace : option Z) (now : Z) (h : Harness) : Harness :=
  match grace with
  | None => h
  | Some grace =>
      if match h_senders h with Some _ => h_active h =? 0 | None => false end then
        let since := match h_idle_since h with Some s => s | None => now end in
        if grace <=? now - since then h_set_idle None (teardown_pool (h_set_idle (Some since) h))
        else h_set_idle (Some since) h
      else h_set_idle None h
  end.

(** An accepted connection, or an accept error. *)
Definition handle_accept (spawned : option (bool * list bool)) (accepted : option nat) (h : Harness) : Harness :=
  match accepted with
  | None => h
  | Some c =>
      let h := ensure_pool_up spawned h in
      match h_senders h with
      | None => h
      | Some p =>
          let count := h_active h + 1 in
          if MAX_CONNECTIONS <? count then h_set_conns (permit_drop (wrap 64 count)) (h_handshakes h) h
          else h_set_conns (wrap 64 count) (h_handshakes h ++ [(c, p)]) h
      end
  end.

(** The accept arm of [control_loop]: a connection restarts the idle clock. *)
Definition on_accept (spawned : option (bool * list bool)) (accepted : option nat) (h : Harness) : Harness :=
  handle_accept spawned accepted (match accepted with Some _ => h_set_idle None h | None => h end).

(** Where a connection of queue [qid] goes. *)
Definition route (qid : Z) (c : nat) (p : QueuePool) : option QueuePool :=
  if qid =? 0 then Some {| p_admin := send (AdmConn c) (p_admin p); p_io := p_io p |}
  else match p_io p with
       | [] => None
       | _ => Some {| p_admin := p_admin p; p_io := alter (send (IoConn c)) (Z.to_nat ((qid - 1) mod Z.of_nat (length (p_io p)))) (p_io p) |}
       end.

(** The [k]-th handshake in flight ends: with an error, or with a queue id. *)
Definition handshake_ends (k : nat) (result : option Z) (h : Harness) : Harness :=
  match h_handshakes h !! k with
  | None => h
  | Some (c, p) =>
      let h' := h_set_conns (h_active h) (base.delete k (h_handshakes h)) h in
      let dropped := h_set_conns (permit_drop (h_active h)) (h_handshakes h') h' in
      match result with
      | None => dropped
      | Some qid =>
          match h_pools h !! p with
          | Some pool =>
              match route qid c pool with
              | Some pool => h_set_pools (<[p := pool]> (h_pools h')) (h_senders h') h'
              | None => dropped
              end
          | None => dropped
          end
      end
  end.

(** [notify_ns_changed] and the statistics requests of the control API. *)
Definition notify_ns_changed (h : Harness) : Harness :=
  match h_senders h with
  | Some i => h_set_pools (alter (fun p => {| p_admin := send AdmNsChanged (p_admin p); p_io := p_io p |}) i (h_pools h)) (h_senders h) h
  | None => h
  end.

(** A request to the admin thread ([None]) or to IO thread [i]; what is answered
    at once when there is no thread to ask. *)
Definition request_stats (thread : option nat) (clear : bool) (h : Harness) : Harness * option StatsReply :=
  match h_senders h with
  | None => (h, Some zeroed_stats)
  | Some g =>
      match thread with
      | None => (h_set_pools (alter (fun p => {| p_admin := send (AdmStats clear) (p_admin p); p_io := p_io p |}) g (h_pools h)) (h_senders h) h, None)
      | Some i =>
          match h_pools h !! g with
          | Some p =>
              if (i <? length (p_io p))%nat
              then (h_set_pools (<[g := {| p_admin := p_admin p; p_io := alter (send (IoStats clear)) i (p_io p) |}]> (h_pools h)) (h_senders h) h, None)
              else (h, Some zeroed_stats)
          | None => (h, Some zeroed_stats)
          end
      end
  end.

(** ** The whole process *)

(** The permits of the connections a thread drops when its loop returns. *)
Fixpoint drop_permits (n : nat) (active : Z) : Z := match n with O => active | S n => drop_permits n (permit_drop active) end.

Definition dropped {Msg} (t t' : QueueThread Msg) : nat := if qt_up t && negb (qt_up t') then length (qt_conns t) else 0.

Definition put_io (g i : nat) (p : QueuePool) (t : QueueThread IoMsg) (active : Z) (h : Harness) : Harness :=
  h_set_conns active (h_handshakes h) (h_set_pools (<[g := {| p_admin := p_admin p; p_io := <[i := t]> (p_io p) |}]> (h_pools h)) (h_senders h) h).
Definition put_admin (g : nat) (p : QueuePool) (t : QueueThread AdminMsg) (active : Z) (h : Harness) : Harness :=
  h_set_conns active (h_handshakes h) (h_set_pools (<[g := {| p_admin := t; p_io := p_io p |}]> (h_pools h)) (h_senders h) h).

(** What a thread does between two control-thread steps: a turn of its loop, the
    context of a connection, a connection that ends, a mailbox that fails, work
    on a queue's counters. *)
Inductive thread_step {Msg R : Type} (turn : (nat -> bool) -> QueueThread Msg -> res never R) (fst_ : R -> QueueThread Msg)
    (ctx : nat -> QueueThread Msg -> QueueThread Msg) (t : QueueThread Msg) : QueueThread Msg -> nat -> Prop :=
| ts_turn alive r : turn alive t = Ok r -> thread_step turn fst_ ctx t (fst_ r) (dropped t (fst_ r))
| ts_ctx c : c ∈ qt_conns t -> qt_up t = true -> thread_step turn fst_ ctx t (ctx c t) 0
| ts_ends k : (k < length (qt_conns t))%nat -> qt_up t = true -> thread_step turn fst_ ctx t (conn_ends k t) 1
| ts_fails : qt_up t = true -> thread_step turn fst_ ctx t (exit_loop t) (length (qt_conns t))
| ts_work q : map fst q = map fst (qt_queues t) -> thread_step turn fst_ ctx t (set_qstats q (qt_retired t) t) 0.

Definition io_step : QueueThread IoMsg -> QueueThread IoMsg -> nat -> Prop :=
  thread_step io_turn fst (fun c => on_ctx_stats c 1).
Definition admin_step : QueueThread AdminMsg -> QueueThread AdminMsg -> nat -> Prop :=
  thread_step admin_turn (fun r => r.1.1) admin_ctx.

Inductive h_step (grace : option Z) (h : Harness) : Harness -> Prop :=
| hs_accept spawned accepted : h_step grace h (on_accept spawned accepted h)
| hs_handshake k result : h_step grace h (handshake_ends k result h)
| hs_tick now : h_step grace h (maybe_teardown grace now h)
| hs_nudge : h_step grace h (notify_ns_changed h)
| hs_stats thread clear : h_step grace h (request_stats thread clear h).1
| hs_io g p i t t' n : h_pools h !! g = Some p -> p_io p !! i = Some t -> io_step t t' n ->
    h_step grace h (put_io g i p t' (drop_permits n (h_active h)) h)
| hs_admin g p t' n : h_pools h !! g = Some p -> admin_step (p_admin p) t' n ->
    h_step grace h (put_admin g p t' (drop_permits n (h_active h)) h).

Inductive h_reachable (grace : option Z) : Harness -> Prop :=
| hr_new : h_reachable grace Harness_new
| hr_step h h' : h_reachable grace h -> h_step grace h h' -> h_reachable grace h'.
