(* ===== verification/HarnessProofs.v ===== *)
(** * The control loop never loses or leaks a connection

    Connections are counted exactly and never handed to a pool that is stopping;
    an idle pool is taken down and its threads stop; statistics add up.  Also what
    happens when a queue thread is not there: the connections sent to it stay. *)

From S2P Require Import Prelude Pool SlotQ Dispatch Harness.

(** ** Connections a thread holds *)

Fixpoint io_queued (l : list IoMsg) : list nat :=
  match l with [] => [] | IoConn c :: l => c :: io_queued l | _ :: l => io_queued l end.
Fixpoint adm_queued (l : list AdminMsg) : list nat :=
  match l with [] => [] | AdmConn c :: l => c :: adm_queued l | _ :: l => adm_queued l end.

Definition io_load (t : QueueThread IoMsg) : nat := length (io_queued (qt_mailbox t)) + length (qt_conns t).
Definition adm_load (t : QueueThread AdminMsg) : nat := length (adm_queued (qt_mailbox t)) + length (qt_conns t).

Definition pool_load (p : QueuePool) : nat := adm_load (p_admin p) + sum_list (map io_load (p_io p)).

(** No thread of the pool has been told to stop. *)
Definition unstopped (p : QueuePool) : Prop :=
  AdmShutdown ∉ qt_mailbox (p_admin p) /\ Forall (fun t => IoShutdown ∉ qt_mailbox t) (p_io p).

(** The connections of the process: in a handshake, queued, or served. *)
Definition conns_of (h : Harness) : nat := length (h_handshakes h) + sum_list (map pool_load (h_pools h)).

Record h_ok (h : Harness) : Prop := {
  ho_count : h_active h = Z.of_nat (conns_of h);
  ho_max : h_active h <= MAX_CONNECTIONS;
  ho_current : forall g, h_senders h = Some g -> exists p, h_pools h !! g = Some p /\ unstopped p;
  ho_old : forall g p, h_pools h !! g = Some p -> h_senders h <> Some g -> pool_load p = 0%nat;
  ho_handshakes : forall c g, (c, g) ∈ h_handshakes h -> h_senders h = Some g;
}.

(** ** Sums *)

Lemma sum_alter_map {A} (f : A -> nat) (g : A -> A) l i x :
  l !! i = Some x -> (sum_list (map f (alter g i l)) + f x = sum_list (map f l) + f (g x))%nat.
Proof.
  revert i. induction l as [|y l IH]; intros [|i] Hi; try done.
  - cbn in Hi. injection Hi as ->. cbn. lia.
  - cbn in Hi. specialize (IH i Hi). cbn [alter list_alter map sum_list_with]. unfold id at 1 3. lia.
Qed.

Lemma sum_insert_map {A} (f : A -> nat) l i x y :
  l !! i = Some x -> (sum_list (map f (<[i := y]> l)) + f x = sum_list (map f l) + f y)%nat.
Proof. intros Hi. rewrite list_insert_alter. exact (sum_alter_map f (fun _ => y) l i x Hi). Qed.

Lemma sum_map_ext {A} (f : A -> nat) (g : A -> A) l : (forall x, f (g x) = f x) -> sum_list (map f (map g l)) = sum_list (map f l).
Proof. intros H. rewrite map_map. f_equal. by apply map_ext. Qed.

Lemma sum_ge_map {A} (f : A -> nat) l i x : l !! i = Some x -> (f x <= sum_list (map f l))%nat.
Proof. revert i. induction l as [|y l IH]; intros [|i] Hi; try done; cbn in Hi |- *; [injection Hi as ->; lia | specialize (IH i Hi); lia]. Qed.

Lemma drop_permits_sub n : forall a, Z.of_nat n <= a < 2 ^ 64 -> drop_permits n a = a - Z.of_nat n.
Proof.
  induction n as [|n IH]; intros a Ha; [cbn; lia|]. cbn [drop_permits]. unfold permit_drop.
  rewrite wrap_small by (unfold in_u; lia). rewrite IH by lia. lia.
Qed.

(** ** A step of a thread *)

(** What every step of a thread respects: the connections it drops leave its load,
    and it is not told to stop by itself. *)
Definition keeps {Msg} (load : QueueThread Msg -> nat) (stop : Msg) (t t' : QueueThread Msg) (n : nat) : Prop :=
  (load t' + n = load t)%nat /\ (stop ∉ qt_mailbox t -> stop ∉ qt_mailbox t').

Lemma prune_dead_same {Msg} alive (t t' : QueueThread Msg) :
  prune_dead_queues alive t = Ok t' ->
  qt_mailbox t' = qt_mailbox t /\ qt_conns t' = qt_conns t /\ qt_up t' = qt_up t /\ qt_live t' = qt_live t.
Proof. unfold prune_dead_queues. destruct (prune_queues _ _ _) as [[l r]| |]; cbn; intros E; simplify_eq; done. Qed.

Lemma reply_same {Msg} alive clear (t t' : QueueThread Msg) r :
  reply_thread_stats alive clear t = Ok (t', r) ->
  qt_mailbox t' = qt_mailbox t /\ qt_conns t' = qt_conns t /\ qt_up t' = qt_up t.
Proof.
  unfold reply_thread_stats. destruct (prune_dead_queues alive t) as [u| |] eqn:E; try done.
  apply prune_dead_same in E as (E1 & E2 & E3 & E4). intros E. injection E as <- <-. by destruct clear.
Qed.

Lemma pop_inv {Msg} (t : QueueThread Msg) m u :
  pop t = Some (m, u) -> qt_mailbox t = m :: qt_mailbox u /\ qt_conns u = qt_conns t /\ qt_up u = qt_up t.
Proof. unfold pop. destruct (qt_mailbox t) eqn:E; intros H; cbn in H; simplify_eq; done. Qed.

Lemma dropped_same {Msg} (t t' : QueueThread Msg) : qt_up t' = qt_up t -> dropped t t' = 0%nat.
Proof. unfold dropped. intros ->. by destruct (qt_up t). Qed.

Lemma common_keeps {Msg R} (load : QueueThread Msg -> nat) (queued : list Msg -> nat) (stop : Msg)
    (turn : (nat -> bool) -> QueueThread Msg -> res never R) fst_ ctx t t' n :
  (forall t, load t = queued (qt_mailbox t) + length (qt_conns t))%nat ->
  (forall alive r, turn alive t = Ok r -> keeps load stop t (fst_ r) (dropped t (fst_ r))) ->
  (forall c, qt_mailbox (ctx c t) = qt_mailbox t /\ qt_conns (ctx c t) = qt_conns t) ->
  thread_step turn fst_ ctx t t' n -> keeps load stop t t' n.
Proof.
  intros Hload Hturn Hctx H. destruct H as [alive r E|c _ _|k Hk _|_|q _]; [by apply Hturn in E| ..];
    unfold keeps; rewrite !Hload.
  - destruct (Hctx c) as [-> ->]. split; [lia|done].
  - cbn. rewrite length_delete by (by apply lookup_lt_is_Some). split; [lia|done].
  - cbn. split; [lia|done].
  - cbn. split; [lia|done].
Qed.

(** What is not in a mailbox is not in what is left of it. *)
Ltac stays := let Hn := fresh in intros Hn; rewrite list.not_elem_of_cons in Hn; destruct Hn.

Lemma io_turn_keeps alive t r : io_turn alive t = Ok r -> keeps io_load IoShutdown t r.1 (dropped t r.1).
Proof.
  unfold io_turn. destruct (qt_up t) eqn:Eu; cbn [negb].
  2:{ intros H. injection H as <-. rewrite dropped_same by done. split; [cbn; lia|done]. }
  destruct (pop t) as [[m u]|] eqn:Ep.
  2:{ intros H. injection H as <-. rewrite dropped_same by done. split; [cbn; lia|done]. }
  apply pop_inv in Ep as (Em & Ec & Euu). unfold keeps, io_load.
  destruct m as [c|clear|].
  - destruct (prune_dead_queues alive u) as [v| |] eqn:E; intros H; cbn in H; try discriminate H; injection H as <-.
    apply prune_dead_same in E as (E1 & E2 & E3 & E4). rewrite dropped_same by (cbn; congruence).
    cbn [fst set_conns qt_mailbox qt_conns]. rewrite E1, E2, Ec, Em. rewrite length_app.
    split; [cbn; lia|]. by stays.
  - destruct (reply_thread_stats alive clear u) as [[v r']| |] eqn:E; intros H; cbn in H; try discriminate H; injection H as <-.
    apply reply_same in E as (E1 & E2 & E3). rewrite dropped_same by (cbn; congruence).
    cbn [fst]. rewrite E1, E2, Ec, Em. split; [cbn; lia|]. by stays.
  - intros H. injection H as <-. unfold dropped. rewrite Eu. cbn. rewrite Em. split; [cbn; lia|]. by stays.
Qed.

Lemma admin_turn_keeps alive t r : admin_turn alive t = Ok r -> keeps adm_load AdmShutdown t r.1.1 (dropped t r.1.1).
Proof.
  unfold admin_turn. destruct (qt_up t) eqn:Eu; cbn [negb].
  2:{ intros H. injection H as <-. rewrite dropped_same by done. split; [cbn; lia|done]. }
  destruct (pop t) as [[m u]|] eqn:Ep.
  2:{ intros H. injection H as <-. rewrite dropped_same by done. split; [cbn; lia|done]. }
  apply pop_inv in Ep as (Em & Ec & Euu). unfold keeps, adm_load.
  destruct m as [c| |clear|].
  - destruct (prune_dead_queues alive u) as [v| |] eqn:E; intros H; cbn in H; try discriminate H; injection H as <-.
    apply prune_dead_same in E as (E1 & E2 & E3 & E4). rewrite dropped_same by (cbn; congruence).
    cbn [fst set_conns set_live qt_mailbox qt_conns]. rewrite E1, E2, Ec, Em. rewrite length_app.
    split; [cbn; lia|]. by stays.
  - intros H. injection H as <-. rewrite dropped_same by (cbn; congruence).
    cbn [fst set_live qt_mailbox qt_conns]. rewrite Ec, Em. split; [cbn; lia|]. by stays.
  - destruct (reply_thread_stats alive clear u) as [[v r']| |] eqn:E; intros H; cbn in H; try discriminate H; injection H as <-.
    apply reply_same in E as (E1 & E2 & E3). rewrite dropped_same by (cbn; congruence).
    cbn [fst]. rewrite E1, E2, Ec, Em. split; [cbn; lia|]. by stays.
  - intros H. injection H as <-. unfold dropped. rewrite Eu. cbn. rewrite Em. split; [cbn; lia|]. by stays.
Qed.

Lemma io_step_keeps t t' n : io_step t t' n -> keeps io_load IoShutdown t t' n.
Proof.
  apply (common_keeps io_load (fun l => length (io_queued l))); [done| |done].
  intros alive r. apply io_turn_keeps.
Qed.

Lemma admin_step_keeps t t' n : admin_step t t' n -> keeps adm_load AdmShutdown t t' n.
Proof.
  apply (common_keeps adm_load (fun l => length (adm_queued l))); [done| |done].
  intros alive r. apply admin_turn_keeps.
Qed.

(** ** Steps of the process *)

(** Pool [g] changes from [p] to [p'], the counter to [a], the handshakes to [hs]. *)
Lemma h_ok_put h g p p' a hs :
  h_ok h -> h_pools h !! g = Some p ->
  a + Z.of_nat (pool_load p + length (h_handshakes h)) = h_active h + Z.of_nat (pool_load p' + length hs) ->
  a <= MAX_CONNECTIONS -> (unstopped p -> unstopped p') ->
  (forall c g', (c, g') ∈ hs -> h_senders h = Some g') ->
  (pool_load p = 0%nat -> h_senders h <> Some g -> pool_load p' = 0%nat) ->
  h_ok (h_set_conns a hs (h_set_pools (<[g := p']> (h_pools h)) (h_senders h) h)).
Proof.
  intros Hok Hg Ha Hm Hu Hh Ho. destruct Hok. split; cbn.
  - pose proof (sum_insert_map pool_load _ _ _ p' Hg). unfold conns_of in *. cbn. lia.
  - done.
  - intros g' Hs. destruct (ho_current0 g' Hs) as (q & Hq & Huq).
    destruct (decide (g = g')) as [<-|Hne].
    + exists p'. rewrite list_lookup_insert_eq by (by eapply lookup_lt_Some). naive_solver.
    + exists q. rewrite list_lookup_insert_ne by done. done.
  - intros g' q Hq Hs. destruct (decide (g = g')) as [<-|Hne].
    + rewrite list_lookup_insert_eq in Hq by (by eapply lookup_lt_Some). injection Hq as <-. eauto.
    + rewrite list_lookup_insert_ne in Hq by done. eauto.
  - done.
Qed.

Lemma h_ok_idle h i : h_ok h -> h_ok (h_set_idle i h).
Proof. intros []. by split. Qed.

Lemma pool_load_le h g p : h_ok h -> h_pools h !! g = Some p -> Z.of_nat (pool_load p) <= h_active h.
Proof. intros Hok Hg. rewrite (ho_count _ Hok). unfold conns_of. pose proof (sum_ge_map pool_load _ _ _ Hg). lia. Qed.

Lemma active_small h : h_ok h -> 0 <= h_active h <= 256.
Proof. intros Hok. pose proof (ho_max _ Hok). rewrite (ho_count _ Hok) in *. unfold MAX_CONNECTIONS in *. lia. Qed.

(** A thread of pool [g] takes a step that drops [n] connections. *)
Lemma h_ok_thread h g p p' n :
  h_ok h -> h_pools h !! g = Some p -> (pool_load p' + n = pool_load p)%nat -> (unstopped p -> unstopped p') ->
  h_ok (h_set_conns (drop_permits n (h_active h)) (h_handshakes h) (h_set_pools (<[g := p']> (h_pools h)) (h_senders h) h)).
Proof.
  intros Hok Hg Hl Hu. pose proof (pool_load_le _ _ _ Hok Hg). pose proof (active_small _ Hok).
  rewrite drop_permits_sub by lia.
  apply (h_ok_put h g p p'); [done|done|lia|unfold MAX_CONNECTIONS; lia|done|apply (ho_handshakes _ Hok)|lia].
Qed.

Lemma alter_as_insert {A} (f : A -> A) (l : list A) i x : l !! i = Some x -> alter f i l = <[i := f x]> l.
Proof. intros Hi. rewrite list_insert_alter. apply list_alter_ext; [|done]. intros y Hy. congruence. Qed.

(** A message that is no connection and no order to stop goes to the current pool. *)
Lemma h_ok_message h g f :
  h_ok h -> h_senders h = Some g -> (forall p, pool_load (f p) = pool_load p) -> (forall p, unstopped p -> unstopped (f p)) ->
  h_ok (h_set_pools (alter f g (h_pools h)) (h_senders h) h).
Proof.
  intros Hok Hs Hl Hu. destruct (ho_current _ Hok g Hs) as (p & Hp & _).
  rewrite (alter_as_insert _ _ _ _ Hp).
  refine (h_ok_thread h g p (f p) 0 Hok Hp _ (Hu p)). rewrite Hl. lia.
Qed.

Lemma send_adm_stop m p : m <> AdmShutdown -> unstopped p ->
  unstopped {| p_admin := send m (p_admin p); p_io := p_io p |}.
Proof. intros Hm [H1 H2]. split; [|done]. cbn. rewrite list.elem_of_app, list_elem_of_singleton. naive_solver. Qed.

Lemma send_io_stop m i p : m <> IoShutdown -> unstopped p ->
  unstopped {| p_admin := p_admin p; p_io := alter (send m) i (p_io p) |}.
Proof.
  intros Hm [H1 H2]. split; [done|]. cbn. apply Forall_alter; [done|]. intros t Ht Hn. cbn.
  rewrite list.elem_of_app, list_elem_of_singleton. naive_solver.
Qed.

Lemma adm_queued_app l l' : adm_queued (l ++ l') = adm_queued l ++ adm_queued l'.
Proof. induction l as [|[] l IH]; cbn; by rewrite ?IH. Qed.
Lemma io_queued_app l l' : io_queued (l ++ l') = io_queued l ++ io_queued l'.
Proof. induction l as [|[] l IH]; cbn; by rewrite ?IH. Qed.

Lemma adm_load_send m t : adm_load (send m t) = (adm_load t + length (adm_queued [m]))%nat.
Proof. unfold adm_load. cbn [send qt_mailbox qt_conns]. rewrite adm_queued_app, length_app. lia. Qed.
Lemma io_load_send m t : io_load (send m t) = (io_load t + length (io_queued [m]))%nat.
Proof. unfold io_load. cbn [send qt_mailbox qt_conns]. rewrite io_queued_app, length_app. lia. Qed.

Lemma pool_load_send_adm m p :
  pool_load {| p_admin := send m (p_admin p); p_io := p_io p |} = (pool_load p + length (adm_queued [m]))%nat.
Proof. unfold pool_load. cbn [p_admin p_io]. rewrite adm_load_send. lia. Qed.

Lemma pool_load_send_io m i p : (i < length (p_io p))%nat ->
  pool_load {| p_admin := p_admin p; p_io := alter (send m) i (p_io p) |} = (pool_load p + length (io_queued [m]))%nat.
Proof.
  intros [t Ht]%lookup_lt_is_Some. unfold pool_load. cbn [p_admin p_io].
  pose proof (sum_alter_map io_load (send m) _ _ _ Ht). rewrite io_load_send in *. lia.
Qed.

Lemma pool_load_shutdown p : pool_load (shutdown_pool p) = pool_load p.
Proof.
  unfold pool_load. cbn [p_admin p_io shutdown_pool]. rewrite adm_load_send. rewrite sum_map_ext; [cbn; lia|].
  intros t. rewrite io_load_send. cbn. lia.
Qed.

Lemma unstopped_new a ios : unstopped {| p_admin := new_thread a; p_io := map new_thread ios |}.
Proof. split; [apply list.not_elem_of_nil|]. cbn. apply Forall_map. apply Forall_true. intros b. apply list.not_elem_of_nil. Qed.

Lemma new_load a ios : pool_load {| p_admin := new_thread a; p_io := map new_thread ios |} = 0%nat.
Proof. unfold pool_load. cbn. induction ios as [|b ios IH]; [done|]. cbn. exact IH. Qed.

Lemma h_ok_ensure spawned h : h_ok h -> h_ok (ensure_pool_up spawned h).
Proof.
  intros Hok. unfold ensure_pool_up. destruct (h_senders h) as [g|] eqn:Es; [done|].
  destruct spawned as [[a ios]|]; [|done]. cbn [build_pool mbind option_bind].
  destruct Hok. split; cbn -[new_thread].
  - rewrite ho_count0. unfold conns_of. cbn -[new_thread pool_load]. rewrite map_app, sum_list_with_app.
    cbn -[new_thread pool_load]. rewrite new_load. unfold id. lia.
  - done.
  - intros g [= <-]. exists {| p_admin := new_thread a; p_io := map new_thread ios |}.
    split; [|apply unstopped_new]. by apply list_lookup_middle.
  - intros g p Hg Hne. apply lookup_app_Some in Hg as [Hg|[Hle Hg]]; [eapply ho_old0; [done|congruence]|].
    apply list_lookup_singleton_Some in Hg as [Hz _]. exfalso. apply Hne. f_equal. lia.
  - intros c g Hin. specialize (ho_handshakes0 c g Hin). congruence.
Qed.

Lemma h_ok_accept spawned accepted h : h_ok h -> h_ok (on_accept spawned accepted h).
Proof.
  intros Hok. unfold on_accept, handle_accept. destruct accepted as [c|]; [|done].
  pose proof (h_ok_ensure spawned _ (h_ok_idle _ None Hok)) as Hok'.
  destruct (h_senders (ensure_pool_up _ _)) as [p|] eqn:Es; [|done].
  remember (ensure_pool_up spawned (h_set_idle None h)) as h' eqn:Eh. clear Eh h Hok.
  pose proof (active_small _ Hok') as Ha. rewrite (wrap_small 64) by (unfold in_u; lia).
  destruct (Z.ltb_spec MAX_CONNECTIONS (h_active h' + 1)) as [Hlt|Hle].
  - unfold permit_drop. rewrite wrap_small by (unfold in_u; lia). replace (h_active h' + 1 - 1) with (h_active h') by lia.
    destruct Hok'. by split.
  - destruct Hok'. split; cbn; try done.
    + rewrite ho_count0. unfold conns_of. cbn. rewrite length_app. cbn. lia.
    + intros c' g Hin. apply list.elem_of_app in Hin as [Hin|Hin]; [eauto|].
      apply list_elem_of_singleton in Hin. congruence.
Qed.

Lemma route_load qid c p p' : route qid c p = Some p' ->
  pool_load p' = S (pool_load p) /\ (unstopped p -> unstopped p').
Proof.
  unfold route. destruct (qid =? 0).
  - intros [= <-]. rewrite pool_load_send_adm. split; [cbn; lia|]. by apply send_adm_stop.
  - destruct (p_io p) as [|t l] eqn:E; [done|]. intros [= <-]. rewrite <- E. split; [|by apply send_io_stop].
    rewrite pool_load_send_io; [cbn; lia|].
    rewrite E. cbn [length]. pose proof (Z.mod_pos_bound (qid - 1) (Z.of_nat (S (length l))) ltac:(lia)). lia.
Qed.

Lemma h_ok_unadmit h k : h_ok h -> (k < length (h_handshakes h))%nat ->
  h_ok (h_set_conns (permit_drop (h_active h)) (base.delete k (h_handshakes h)) h).
Proof.
  intros Hok Hk. pose proof (active_small _ Hok). pose proof (ho_count _ Hok) as Hc. unfold conns_of in Hc.
  unfold permit_drop. rewrite wrap_small by (unfold in_u; lia).
  pose proof (length_delete (h_handshakes h) k ltac:(by apply lookup_lt_is_Some)).
  destruct Hok. split; cbn; try done.
  - unfold conns_of. cbn. lia.
  - lia.
  - intros c g Hin. apply (sublist_subseteq _ _ (sublist_delete (h_handshakes h) k)) in Hin. eauto.
Qed.

Lemma h_ok_handshake k result h : h_ok h -> h_ok (handshake_ends k result h).
Proof.
  intros Hok. unfold handshake_ends. destruct (h_handshakes h !! k) as [[c p]|] eqn:Ek; [|done].
  pose proof (lookup_lt_Some _ _ _ Ek) as Hk. pose proof (h_ok_unadmit h k Hok Hk) as Hdrop.
  destruct result as [qid|]; [|done].
  destruct (h_pools h !! p) as [pool|] eqn:Ep; [|done].
  destruct (route qid c pool) as [pool'|] eqn:Er; [|done].
  destruct (route_load _ _ _ _ Er) as [Hl Hu].
  pose proof (length_delete (h_handshakes h) k ltac:(by apply lookup_lt_is_Some)).
  remember (base.delete k (h_handshakes h)) as hs eqn:Ehs.
  refine (h_ok_put h p pool pool' (h_active h) hs Hok Ep _ (ho_max _ Hok) Hu (ho_handshakes _ Hdrop) _); [lia|].
  intros _ Hne. exfalso. apply Hne. eapply (ho_handshakes _ Hok). by eapply list_elem_of_lookup_2.
Qed.

Lemma h_ok_teardown h : h_ok h -> h_active h = 0 -> h_ok (teardown_pool h).
Proof.
  intros Hok Hz. unfold teardown_pool. destruct (h_senders h) as [g|] eqn:Es; [|done].
  destruct (ho_current _ Hok g Es) as (p & Hp & _). pose proof (pool_load_le _ _ _ Hok Hp) as Hl.
  pose proof (ho_count _ Hok) as Hc. unfold conns_of in Hc.
  rewrite (alter_as_insert _ _ _ _ Hp).
  pose proof (sum_insert_map pool_load _ _ _ (shutdown_pool p) Hp) as Hs. rewrite pool_load_shutdown in Hs.
  destruct Hok. split; cbn -[shutdown_pool]; try done.
  - unfold conns_of. cbn -[shutdown_pool]. lia.
  - intros g' q Hq _. destruct (decide (g = g')) as [<-|Hne].
    + rewrite list_lookup_insert_eq in Hq by (by eapply lookup_lt_Some). injection Hq as <-. rewrite pool_load_shutdown. lia.
    + rewrite list_lookup_insert_ne in Hq by done. eapply ho_old0; [done|congruence].
  - intros c g' Hin. exfalso. destruct (h_handshakes h); [by apply list.elem_of_nil in Hin|cbn in Hc; lia].
Qed.

Lemma h_ok_tick grace now h : h_ok h -> h_ok (maybe_teardown grace now h).
Proof.
  intros Hok. unfold maybe_teardown. destruct grace as [grace|]; [|done].
  destruct (h_senders h); [|by apply h_ok_idle].
  destruct (Z.eqb_spec (h_active h) 0) as [Hz|_]; [|by apply h_ok_idle].
  destruct (grace <=? _); [|by apply h_ok_idle].
  apply h_ok_idle, h_ok_teardown; [by apply h_ok_idle|done].
Qed.

Lemma h_ok_stats thread clear h : h_ok h -> h_ok (request_stats thread clear h).1.
Proof.
  intros Hok. unfold request_stats. destruct (h_senders h) as [g|] eqn:Es; [|done]. rewrite <- Es.
  destruct thread as [i|].
  - destruct (h_pools h !! g) as [p|] eqn:Ep; [|done].
    destruct (Nat.ltb_spec i (length (p_io p))) as [Hi|_]; [|done].
    refine (h_ok_thread h g p _ 0 Hok Ep _ (send_io_stop (IoStats clear) i p ltac:(done))).
    rewrite pool_load_send_io by done. cbn. lia.
  - apply h_ok_message; [done|done| |].
    + intros p. rewrite pool_load_send_adm. cbn. lia.
    + intros p. by apply send_adm_stop.
Qed.

Lemma h_ok_nudge h : h_ok h -> h_ok (notify_ns_changed h).
Proof.
  intros Hok. unfold notify_ns_changed. destruct (h_senders h) as [g|] eqn:Es; [|done]. rewrite <- Es.
  apply h_ok_message; [done|done| |].
  - intros p. rewrite pool_load_send_adm. cbn. lia.
  - intros p. by apply send_adm_stop.
Qed.

Lemma h_ok_step grace h h' : h_ok h -> h_step grace h h' -> h_ok h'.
Proof.
  intros Hok H. destruct H as [spawned accepted|k result|now| |thread clear|g p i t t' n Hg Hi Hst|g p t' n Hg Hst].
  - by apply h_ok_accept.
  - by apply h_ok_handshake.
  - by apply h_ok_tick.
  - by apply h_ok_nudge.
  - by apply h_ok_stats.
  - apply io_step_keeps in Hst as [Hl Hs]. apply (h_ok_thread h g p); [done|done| |].
    + unfold pool_load. cbn [p_admin p_io]. pose proof (sum_insert_map io_load _ _ _ t' Hi). lia.
    + intros [H1 H2]. split; [done|]. cbn. apply Forall_insert; [done|].
      apply Hs. by eapply (Forall_lookup_1 _ _ _ _ H2).
  - apply admin_step_keeps in Hst as [Hl Hs]. apply (h_ok_thread h g p); [done|done| |].
    + unfold pool_load. cbn [p_admin p_io]. lia.
    + intros [H1 H2]. split; [|done]. by apply Hs.
Qed.

Lemma h_reachable_ok grace h : h_reachable grace h -> h_ok h.
Proof.
  induction 1 as [|h h' _ IH Hs]; [|by eapply h_ok_step].
  split; cbn; try done. intros c g Hin. by apply list.elem_of_nil in Hin.
Qed.

(** ** Totals *)

(** The total of a counter over a thread's life. *)
Definition total {Msg} (k : Counter) (t : QueueThread Msg) : Z :=
  counter k (qt_retired t) + foldr (fun e n => counter k e.2 + n) 0 (qt_queues t).

(** The counters are counts, and their totals fit a machine word. *)
Definition stats_fit {Msg} (t : QueueThread Msg) : Prop :=
  forall k, 0 <= counter k (qt_retired t) /\ Forall (fun e => 0 <= counter k e.2) (qt_queues t) /\ total k t < 2 ^ 64.

Lemma absorb_counters (s o : QueueStats) :
  (forall k, 0 <= counter k s + counter k o < 2 ^ 64) ->
  exists r, absorb (E := never) s o = Ok r /\ forall k, counter k r = counter k s + counter k o.
Proof.
  intros H. unfold absorb.
  pose proof (H ReadCmds). pose proof (H WriteCmds). pose proof (H FlushCmds). pose proof (H OtherCmds).
  pose proof (H ReadBytes). pose proof (H WriteBytes). pose proof (H Errors). cbn in *.
  rewrite !checked_ok by (unfold in_u; lia). cbn. eexists. split; [done|]. by intros [].
Qed.

Definition sum_of (k : Counter) (l : list (nat * QueueStats)) : Z := foldr (fun e n => counter k e.2 + n) 0 l.

Lemma sum_of_nonneg k l : Forall (fun e => 0 <= counter k e.2) l -> 0 <= sum_of k l.
Proof. unfold sum_of. induction 1; cbn; lia. Qed.

Lemma prune_queues_ok alive l : forall retired,
  (forall k, 0 <= counter k retired /\ Forall (fun e => 0 <= counter k e.2) l /\ counter k retired + sum_of k l < 2 ^ 64) ->
  exists r, prune_queues alive l retired = Ok (List.filter (fun e => alive e.1) l, r) /\
    forall k, 0 <= counter k r /\ counter k r + sum_of k (List.filter (fun e => alive e.1) l) = counter k retired + sum_of k l.
Proof.
  induction l as [|[c s] l IH]; intros retired H; [exists retired; naive_solver|].
  assert (Hl : forall k, 0 <= counter k s /\ Forall (fun e => 0 <= counter k e.2) l /\ 0 <= sum_of k l).
  { intros k. destruct (H k) as (_ & Hf & _). apply list.Forall_cons in Hf as [Hs Hf]. eauto using sum_of_nonneg. }
  cbn [prune_queues List.filter fst]. unfold sum_of in *. cbn [foldr snd] in H. destruct (alive c).
  - destruct (IH retired) as (r & -> & Hr).
    { intros k. specialize (H k). specialize (Hl k). repeat split; [lia|naive_solver|lia]. }
    exists r. split; [done|]. intros k. specialize (Hr k). cbn [foldr snd]. lia.
  - destruct (absorb_counters retired (snapshot s)) as (r & -> & Hr).
    { intros k. specialize (H k). specialize (Hl k). unfold snapshot. lia. }
    cbn [mbind res_bind]. destruct (IH r) as (r' & -> & Hr').
    { intros k. specialize (H k). specialize (Hl k). specialize (Hr k). unfold snapshot in Hr. repeat split; [lia|naive_solver|lia]. }
    exists r'. split; [done|]. intros k. specialize (Hr k). specialize (Hr' k). unfold snapshot in Hr. cbn [foldr snd]. lia.
Qed.

Section Totals.
Context {Msg : Type}.
Implicit Type t : QueueThread Msg.

Lemma prune_dead_ok alive t : stats_fit t -> exists t', prune_dead_queues alive t = Ok t' /\
  qt_queues t' = List.filter (fun e => alive e.1) (qt_queues t) /\ (forall k, total k t' = total k t) /\ stats_fit t'.
Proof.
  intros H. unfold prune_dead_queues. destruct (prune_queues_ok alive (qt_queues t) (qt_retired t) H) as (r & -> & Hr).
  eexists. split; [reflexivity|]. split; [done|].
  assert (Ht : forall k, total k (set_qstats (List.filter (fun e => alive e.1) (qt_queues t)) r t) = total k t) by (intros k; apply Hr).
  split; [exact Ht|]. intros k. rewrite Ht. destruct (H k) as (_ & Hf & Hlt).
  split; [apply Hr|]. split; [|done]. cbn. rewrite List.Forall_forall in *. intros e He. apply filter_In in He as [He _]. by apply Hf.
Qed.

Lemma clear_total k t : total k (clear_thread_stats t) = 0.
Proof.
  unfold total, clear_thread_stats. cbn [set_qstats qt_retired qt_queues].
  induction (qt_queues t) as [|e l IH]; destruct k; cbn in *; done.
Qed.

Lemma clear_fit t : stats_fit (clear_thread_stats t).
Proof.
  intros k. rewrite clear_total. split; [by destruct k|]. split; [|done].
  cbn. apply Forall_map. apply Forall_true. intros e. by destruct k.
Qed.

(** The total of a statistics reply. *)
Definition reply_total (k : Counter) (r : StatsReply) : Z := counter k r.2 + foldr (fun s n => counter k s + n) 0 r.1.

Lemma thread_stats_total k t : reply_total k (thread_stats t) = total k t.
Proof. unfold reply_total, thread_stats, total. cbn. f_equal. by induction (qt_queues t) as [|e l IH]; cbn; [|rewrite IH]. Qed.

Lemma reply_ok alive clear t : stats_fit t -> exists t' r, reply_thread_stats alive clear t = Ok (t', r) /\
  (forall k, reply_total k r = total k t) /\ (forall k, total k t' = if clear then 0 else total k t) /\ stats_fit t'.
Proof.
  intros H. unfold reply_thread_stats. destruct (prune_dead_ok alive t H) as (u & -> & _ & Ht & Hfit).
  cbn [mbind res_bind]. do 2 eexists. split; [reflexivity|]. split; [|split].
  - intros k. by rewrite thread_stats_total.
  - intros k. destruct clear; [apply clear_total|apply Ht].
  - destruct clear; [apply clear_fit|done].
Qed.
End Totals.

(** ** Turns in a row *)

(** [alive i] says which connections live at the [i]-th turn. *)

Fixpoint io_turns (alive : nat -> nat -> bool) (n : nat) (t : QueueThread IoMsg) : res never (QueueThread IoMsg) :=
  match n with O => Ok t | S n => '(t, _) ← io_turn (alive 0%nat) t; io_turns (fun i => alive (S i)) n t end.
Fixpoint admin_turns (alive : nat -> nat -> bool) (n : nat) (t : QueueThread AdminMsg) : res never (QueueThread AdminMsg) :=
  match n with O => Ok t | S n => '(t, _, _) ← admin_turn (alive 0%nat) t; admin_turns (fun i => alive (S i)) n t end.

(** What the message a turn takes does to the totals. *)
Definition total_after {Msg} (is_clear : Msg -> bool) (k : Counter) (t : QueueThread Msg) : Z :=
  match qt_mailbox t with m :: _ => if is_clear m then 0 else total k t | [] => total k t end.

Definition io_clears (m : IoMsg) : bool := match m with IoStats clear => clear | _ => false end.

Lemma pop_total {Msg} (t u : QueueThread Msg) m :
  pop t = Some (m, u) -> (forall k, total k u = total k t) /\ (stats_fit t -> stats_fit u).
Proof. unfold pop. destruct (qt_mailbox t); intros H; [done|]. injection H as <- <-. done. Qed.

Lemma io_turn_ok alive t : stats_fit t -> qt_up t = true ->
  exists t' r, io_turn alive t = Ok (t', r) /\ qt_mailbox t' = tail (qt_mailbox t) /\
    if match qt_mailbox t with IoShutdown :: _ => true | _ => false end then qt_up t' = false
    else qt_up t' = true /\ stats_fit t' /\
         forall k, total k t' = total_after io_clears k t /\ match r with Some r => reply_total k r = total k t | None => True end.
Proof.
  intros Hfit Hup. unfold io_turn. rewrite Hup. cbn [negb].
  destruct (pop t) as [[m u]|] eqn:Ep.
  2:{ unfold total_after, pop in *. destruct (qt_mailbox t) eqn:Em; [|done]. exists t, None. rewrite Em. done. }
  destruct (pop_total _ _ _ Ep) as [Ht Hu]. specialize (Hu Hfit).
  apply pop_inv in Ep as (Em & Ec & Euu). rewrite Hup in Euu. unfold total_after. rewrite Em. cbn [tail].
  destruct m as [c|clear|]; cbn [io_clears].
  - destruct (prune_dead_ok alive u Hu) as (v & Hv & _ & Hvt & Hvf). rewrite Hv. cbn [mbind res_bind].
    apply prune_dead_same in Hv as (E1 & _ & E3 & _). do 2 eexists. split; [reflexivity|].
    split; [exact E1|]. split; [cbn; congruence|]. split; [exact Hvf|]. intros k. rewrite <- Ht. split; [apply Hvt|done].
  - destruct (reply_ok alive clear u Hu) as (v & r & Hv & Hr & Hvt & Hvf). rewrite Hv. cbn [mbind res_bind].
    apply reply_same in Hv as (E1 & _ & E3). do 2 eexists. split; [reflexivity|].
    split; [exact E1|]. split; [congruence|]. split; [exact Hvf|]. intros k. rewrite <- Ht. split; [apply Hvt|apply Hr].
  - do 2 eexists. split; [reflexivity|]. done.
Qed.

Lemma admin_turn_ok alive t : stats_fit t -> qt_up t = true ->
  exists t' r l, admin_turn alive t = Ok (t', r, l) /\ qt_mailbox t' = tail (qt_mailbox t) /\
    if match qt_mailbox t with AdmShutdown :: _ => true | _ => false end then qt_up t' = false
    else qt_up t' = true /\ stats_fit t'.
Proof.
  intros Hfit Hup. unfold admin_turn. rewrite Hup. cbn [negb].
  destruct (pop t) as [[m u]|] eqn:Ep.
  2:{ unfold pop in *. destruct (qt_mailbox t) eqn:Em; [|done]. exists t, None, []. rewrite Em. done. }
  destruct (pop_total _ _ _ Ep) as [Ht Hu]. specialize (Hu Hfit).
  apply pop_inv in Ep as (Em & Ec & Euu). rewrite Hup in Euu. rewrite Em. cbn [tail].
  destruct m as [c| |clear|].
  - destruct (prune_dead_ok alive u Hu) as (v & Hv & _ & Hvt & Hvf). rewrite Hv. cbn [mbind res_bind].
    apply prune_dead_same in Hv as (E1 & _ & E3 & _). do 3 eexists. split; [reflexivity|].
    split; [exact E1|]. split; [cbn; congruence|exact Hvf].
  - do 3 eexists. split; [reflexivity|]. split; [done|]. split; [exact Euu|exact Hu].
  - destruct (reply_ok alive clear u Hu) as (v & r & Hv & Hr & Hvt & Hvf). rewrite Hv. cbn [mbind res_bind].
    apply reply_same in Hv as (E1 & _ & E3). do 3 eexists. split; [reflexivity|].
    split; [exact E1|]. split; [congruence|exact Hvf].
  - do 3 eexists. split; [reflexivity|]. done.
Qed.

(** A thread told to stop does, within its mailbox. *)
Lemma io_stops l : forall alive t, qt_mailbox t = l -> IoShutdown ∈ l -> stats_fit t -> qt_up t = true ->
  exists n t', (n <= length l)%nat /\ io_turns alive n t = Ok t' /\ qt_up t' = false.
Proof.
  induction l as [|m l IH]; intros alive t Hm Hin Hfit Hup; [by apply list.elem_of_nil in Hin|].
  destruct (io_turn_ok (alive 0%nat) t Hfit Hup) as (u & r & Hu & Hmu & H). rewrite Hm in H, Hmu. cbn [tail] in Hmu.
  destruct (decide (m = IoShutdown)) as [->|Hne].
  { exists 1%nat, u. cbn [io_turns]. rewrite Hu. cbn. split; [lia|done]. }
  assert (Hin' : IoShutdown ∈ l) by (apply list.elem_of_cons in Hin as [?|?]; [congruence|done]).
  assert (Hu' : qt_up u = true /\ stats_fit u) by (destruct m; [exact (conj (proj1 H) (proj1 (proj2 H)))..|congruence]).
  destruct (IH (fun i => alive (S i)) u Hmu Hin' (proj2 Hu') (proj1 Hu')) as (n & t' & Hn & Hts & Hdn).
  exists (S n), t'. cbn [io_turns length]. rewrite Hu. split; [lia|done].
Qed.

Lemma admin_stops l : forall alive t, qt_mailbox t = l -> AdmShutdown ∈ l -> stats_fit t -> qt_up t = true ->
  exists n t', (n <= length l)%nat /\ admin_turns alive n t = Ok t' /\ qt_up t' = false.
Proof.
  induction l as [|m l IH]; intros alive t Hm Hin Hfit Hup; [by apply list.elem_of_nil in Hin|].
  destruct (admin_turn_ok (alive 0%nat) t Hfit Hup) as (u & r & nudged & Hu & Hmu & H). rewrite Hm in H, Hmu. cbn [tail] in Hmu.
  destruct (decide (m = AdmShutdown)) as [->|Hne].
  { exists 1%nat, u. cbn [admin_turns]. rewrite Hu. cbn. split; [lia|done]. }
  assert (Hin' : AdmShutdown ∈ l) by (apply list.elem_of_cons in Hin as [?|?]; [congruence|done]).
  assert (Hu' : qt_up u = true /\ stats_fit u) by (destruct m; [exact H..|congruence]).
  destruct (IH (fun i => alive (S i)) u Hmu Hin' (proj2 Hu') (proj1 Hu')) as (n & t' & Hn & Hts & Hdn).
  exists (S n), t'. cbn [admin_turns length]. rewrite Hu. split; [lia|done].
Qed.

(** ** The pool *)

(** C28. Every connection is accounted for, whatever order the control thread and the
    queue threads take their steps in, whichever threads fail and whenever: the
    counter behind the connection limit is exactly the number of connections in a
    handshake, waiting in a mailbox or being served, and never exceeds the limit; a
    connection is only ever handed to the pool whose senders are held, which exists
    and was never told to stop; pools that were taken down hold no connection. *)
Theorem connections_accounted grace h : h_reachable grace h ->
  h_active h = Z.of_nat (conns_of h) /\ 0 <= h_active h <= MAX_CONNECTIONS /\
  (forall c g, (c, g) ∈ h_handshakes h -> h_senders h = Some g) /\
  (forall g, h_senders h = Some g -> exists p, h_pools h !! g = Some p /\ unstopped p) /\
  (forall g p, h_pools h !! g = Some p -> h_senders h <> Some g -> pool_load p = 0%nat).
Proof. intros Hok%h_reachable_ok. pose proof (active_small _ Hok). destruct Hok. by repeat split; try lia. Qed.

(** Statistics add up over a thread's life: as long as the totals fit a machine
    word, a turn of an IO thread's loop succeeds, and unless it ends the loop it
    keeps the total of every counter over the listed queues and those that are gone,
    except that a clearing request zeroes it; a reply carries the totals from before
    the clearing, so nothing counted is lost or reported twice. *)
Theorem stats_totals_kept alive t : stats_fit t -> qt_up t = true -> (forall r, qt_mailbox t <> IoShutdown :: r) ->
  exists t' r, io_turn alive t = Ok (t', r) /\ qt_up t' = true /\ stats_fit t' /\
    forall k, total k t' = total_after io_clears k t /\ match r with Some r => reply_total k r = total k t | None => True end.
Proof.
  intros Hfit Hup Hm. destruct (io_turn_ok alive t Hfit Hup) as (t' & r & Ht & _ & H). exists t', r. split; [done|].
  destruct (qt_mailbox t) as [|[] l] eqn:E; try exact H. by destruct (Hm l).
Qed.

Lemma shutdown_elem_adm p : AdmShutdown ∈ qt_mailbox (p_admin (shutdown_pool p)).
Proof. cbn. apply list.elem_of_app. right. by apply list_elem_of_singleton. Qed.

Lemma shutdown_elem_io p i t : p_io (shutdown_pool p) !! i = Some t -> IoShutdown ∈ qt_mailbox t.
Proof.
  cbn. intros Hi. apply list_lookup_fmap_Some in Hi as (u & -> & _). cbn. apply list.elem_of_app. right. by apply list_elem_of_singleton.
Qed.

(** An idle pool is given back: when it has no connection, a tick starts the clock
    and a tick after the grace period takes the pool down; each of its threads that
    runs then leaves its loop after at most as many turns as it has messages. *)
Theorem idle_pool_reclaimed grace g h t0 t1 :
  h_reachable (Some grace) h -> h_senders h = Some g -> conns_of h = 0%nat -> h_idle_since h = None ->
  0 < grace -> t0 + grace <= t1 ->
  let h' := maybe_teardown (Some grace) t1 (maybe_teardown (Some grace) t0 h) in
  h_senders h' = None /\ h_idle_since h' = None /\ exists p, h_pools h' !! g = Some p /\
    (forall alive, stats_fit (p_admin p) -> qt_up (p_admin p) = true ->
       exists n t', (n <= length (qt_mailbox (p_admin p)))%nat /\ admin_turns alive n (p_admin p) = Ok t' /\ qt_up t' = false) /\
    (forall i t alive, p_io p !! i = Some t -> stats_fit t -> qt_up t = true ->
       exists n t', (n <= length (qt_mailbox t))%nat /\ io_turns alive n t = Ok t' /\ qt_up t' = false).
Proof.
  intros Hok%h_reachable_ok Hs Hc Hidle Hg Ht h'. pose proof (ho_count _ Hok) as Ha. rewrite Hc in Ha. cbn in Ha.
  destruct (ho_current _ Hok g Hs) as (p & Hp & _).
  assert (H0 : maybe_teardown (Some grace) t0 h = h_set_idle (Some t0) h).
  { unfold maybe_teardown. rewrite Hs, Ha, Hidle, Z.eqb_refl. by destruct (Z.leb_spec grace (t0 - t0)) as [?|_]; [lia|]. }
  assert (Hh' : h' = h_set_idle None (teardown_pool (h_set_idle (Some t0) h))).
  { subst h'. rewrite H0. unfold maybe_teardown. cbn [h_set_idle h_senders h_active h_idle_since]. rewrite Hs, Ha, Z.eqb_refl.
    by destruct (Z.leb_spec grace (t1 - t0)) as [_|?]; [|lia]. }
  rewrite Hh'. unfold teardown_pool. cbn [h_set_idle h_senders]. rewrite Hs. cbn [h_set_pools h_set_idle h_senders h_idle_since h_pools].
  split; [done|]. split; [done|]. exists (shutdown_pool p). split; [by rewrite list_lookup_alter_eq, Hp|]. split.
  - intros alive Hfit Hup. eapply admin_stops; [done|apply shutdown_elem_adm|done|done].
  - intros i t alive Hi Hfit Hup. eapply io_stops; [done|by eapply shutdown_elem_io|done|done].
Qed.

(** ** A queue thread that is not there *)

(** IO thread [i] does not run and a connection waits in its mailbox. *)
Definition stuck_pool (i : nat) (p : QueuePool) : Prop :=
  exists t, p_io p !! i = Some t /\ qt_up t = false /\ io_queued (qt_mailbox t) <> [].

Definition stuck (g i : nat) (h : Harness) : Prop :=
  h_senders h = Some g /\ exists p, h_pools h !! g = Some p /\ stuck_pool i p.

Lemma stuck_send_io i m j a io :
  stuck_pool i {| p_admin := a; p_io := io |} -> stuck_pool i {| p_admin := a; p_io := alter (send m) j io |}.
Proof.
  intros (t & Hi & Hu & Hq). cbn in Hi. destruct (decide (j = i)) as [->|Hne].
  - exists (send m t). cbn. rewrite list_lookup_alter_eq, Hi. split; [done|]. split; [done|].
    rewrite io_queued_app. by destruct (io_queued (qt_mailbox t)).
  - exists t. cbn. rewrite list_lookup_alter_ne by done. done.
Qed.

Lemma stuck_put g i h g' p p' a hs idle : stuck g i h -> h_pools h !! g' = Some p -> (stuck_pool i p -> stuck_pool i p') ->
  stuck g i {| h_pools := <[g' := p']> (h_pools h); h_senders := h_senders h; h_active := a; h_idle_since := idle; h_handshakes := hs |}.
Proof.
  intros (Hs & q & Hq & Hst) Hp Himp. split; [done|]. cbn. destruct (decide (g' = g)) as [->|Hne].
  - exists p'. rewrite list_lookup_insert_eq by (by eapply lookup_lt_Some). split; [done|]. apply Himp. congruence.
  - exists q. rewrite list_lookup_insert_ne by done. done.
Qed.

Lemma stuck_active g i h : h_ok h -> stuck g i h -> h_active h <> 0.
Proof.
  intros Hok (Hs & p & Hp & t & Ht & _ & Hq). pose proof (pool_load_le _ _ _ Hok Hp) as Hl.
  pose proof (sum_ge_map io_load _ _ _ Ht) as Hi. unfold pool_load, io_load in *.
  destruct (io_queued (qt_mailbox t)); [done|]. cbn [length] in Hi. lia.
Qed.

Lemma stuck_io_step g i h g' p j t t' n a : stuck g i h -> h_pools h !! g' = Some p -> p_io p !! j = Some t -> io_step t t' n ->
  stuck g i (put_io g' j p t' a h).
Proof.
  intros Hst Hp Hj Hstep. refine (stuck_put g i h _ p _ _ _ _ Hst Hp _). intros (u & Hu & Hup & Hq). cbn in *.
  destruct (decide (j = i)) as [->|Hne]; [|exists u; cbn; rewrite list_lookup_insert_ne by done; done].
  assert (u = t) as -> by congruence. exists t'. cbn. rewrite list_lookup_insert_eq by (by eapply lookup_lt_Some).
  split; [done|]. destruct Hstep as [alive r E|c _ Hup'|k _ Hup'|Hup'|q _]; try congruence; [|done].
  unfold io_turn in E. rewrite Hup in E. injection E as <-. done.
Qed.

(** A connection sent to a thread that does not run stays there for ever: no step of
    the process moves it, ends it or takes its pool down, so the thread is not
    started again either. *)
Theorem dead_thread_strands grace g i h h' : h_ok h -> stuck g i h -> h_step grace h h' -> stuck g i h'.
Proof.
  intros Hok Hst H. pose proof (stuck_active _ _ _ Hok Hst) as Ha. pose proof Hst as (Hs & q & Hq & Hsq).
  destruct H as [spawned accepted|k result|now| |thread clear|g' p j t t' n Hp Hj Hstep|g' p t' n Hp Hstep].
  - unfold on_accept, handle_accept. destruct accepted as [c|]; [|done].
    unfold ensure_pool_up. cbn [h_set_idle h_senders]. rewrite Hs. cbn [h_set_idle h_senders]. rewrite Hs.
    destruct (_ <? _); split; eauto.
  - unfold handshake_ends. destruct (h_handshakes h !! k) as [[c p]|]; [|done].
    destruct result as [qid|]; [|split; eauto]. destruct (h_pools h !! p) as [pool|] eqn:Ep; [|split; eauto].
    destruct (route qid c pool) as [pool'|] eqn:Er; [|split; eauto].
    refine (stuck_put g i h p pool _ _ _ _ Hst Ep _). unfold route in Er. destruct (qid =? 0); [by injection Er as <-|].
    destruct (p_io pool) as [|t0 l] eqn:E; [done|]. injection Er as <-. intros Hst'. rewrite <- E.
    apply stuck_send_io. by destruct pool.
  - unfold maybe_teardown. destruct grace as [gr|]; [|done]. rewrite Hs.
    destruct (Z.eqb_spec (h_active h) 0) as [?|_]; [done|]. split; eauto.
  - unfold notify_ns_changed. rewrite Hs, (alter_as_insert _ _ _ _ Hq), <- Hs. by refine (stuck_put g i h g q _ _ _ _ Hst Hq _).
  - unfold request_stats. rewrite Hs, <- Hs. destruct thread as [j|].
    + rewrite Hq. destruct (_ <? _)%nat; [|done]. refine (stuck_put g i h g q _ _ _ _ Hst Hq _). intros Hst'. apply stuck_send_io. by destruct q.
    + rewrite (alter_as_insert _ _ _ _ Hq). by refine (stuck_put g i h g q _ _ _ _ Hst Hq _).
  - by eapply stuck_io_step.
  - by refine (stuck_put g i h g' p _ _ _ _ Hst Hp _).
Qed.

(** Such a state is reached by one failed spawn and one connection. *)
Definition lone_state : Harness :=
  handshake_ends 0 (Some 1) (on_accept (Some (true, [false])) (Some 7%nat) Harness_new).

Lemma lone_reachable grace : h_reachable grace lone_state.
Proof. eapply hr_step; [eapply hr_step; [apply hr_new|]|]; constructor. Qed.

Example lone_stuck : stuck 0 0 lone_state.
Proof. split; [done|]. eexists. split; [reflexivity|]. eexists. split; [reflexivity|]. done. Qed.

(** ** Witnesses *)

(** A connection accepted, routed, taken by its thread and ended. *)
Definition served_state : Harness :=
  handshake_ends 0 (Some 2) (on_accept (Some (true, [true; true])) (Some 7%nat) Harness_new).

Lemma served_reachable grace : h_reachable grace served_state.
Proof. eapply hr_step; [eapply hr_step; [apply hr_new|]|]; constructor. Qed.

Lemma connections_accounted_witness :
  h_active served_state = 1 /\ conns_of served_state = 1%nat /\ h_active served_state = Z.of_nat (conns_of served_state).
Proof.
  split; [reflexivity|]. split; [reflexivity|].
  exact (proj1 (connections_accounted (Some 30) served_state (served_reachable (Some 30)))).
Defined.

Definition idle_state : Harness := handshake_ends 0 None (on_accept (Some (true, [true])) (Some 7%nat) Harness_new).

Lemma idle_reachable grace : h_reachable grace idle_state.
Proof. eapply hr_step; [eapply hr_step; [apply hr_new|]|]; constructor. Qed.

Lemma idle_pool_reclaimed_witness :
  h_senders (maybe_teardown (Some 30) 131 (maybe_teardown (Some 30) 100 idle_state)) = None.
Proof.
  refine (proj1 (idle_pool_reclaimed 30 0 idle_state 100 131 (idle_reachable _) _ _ _ _ _)); [reflexivity|reflexivity|reflexivity|lia|lia].
Defined.

(** A thread with one live and one finished queue, asked for its statistics. *)
Definition busy_thread : QueueThread IoMsg :=
  {| qt_mailbox := [IoStats true]; qt_up := true; qt_conns := [1%nat];
     qt_queues := [(1%nat, set_counter ReadCmds 5 (QueueStats_new 1)); (2%nat, set_counter ReadCmds 7 (QueueStats_new 2))];
     qt_retired := QueueStats_new 0; qt_live := [] |}.

Lemma stats_totals_kept_witness : total ReadCmds busy_thread = 12 /\
  exists t' r, io_turn (fun c => (c =? 1)%nat) busy_thread = Ok (t', r) /\ total ReadCmds t' = 0.
Proof.
  split; [reflexivity|].
  destruct (stats_totals_kept (fun c => (c =? 1)%nat) busy_thread) as (t' & r & Hr & _ & _ & Hk).
  - intros k. destruct k; (split; [vm_compute; discriminate|]; split; [repeat constructor; vm_compute; discriminate | vm_compute; reflexivity]).
  - reflexivity.
  - intros r. discriminate.
  - exists t', r. split; [exact Hr|]. exact (proj1 (Hk ReadCmds)).
Defined.
