(* ===== verification/RdmaWire.v ===== *)
(** * NVMe/RDMA: descriptors, connection records, work requests, counters

    ioutgt-nvme-rdma/src/sgl.rs (the SGL descriptors of a capsule), cmproto.rs
    (the private data of the connection manager), wr.rs (work-request ids and
    the single-entry work requests of a transfer) and stats.rs (the counters).
    A work request is what is handed to the verbs library. *)

From S2P Require Import Prelude Spec Pool SlotQ Dispatch.

(** ** [sgl.rs] *)

Definition SGL_TYPE_OFFSET : nat := 24 + 15.
Definition KEYED_SGL_TYPE_HI : Z := 0x4.
Definition INLINE_SGL_TYPE : Z := 0x01.
Definition SGL_SUBTYPE_MASK : Z := 0x0f.
Definition SGL_FMT_INVALIDATE : Z := 0x0f.

(** [status::SGL_INVALID_TYPE]. *)
Definition SGL_INVALID_TYPE : Z := 0x11.

(** [sqe.as_bytes()[SGL_TYPE_OFFSET]]. *)
Definition type_byte (sqe : Sqe) : Z := field (Sqe_bytes sqe) SGL_TYPE_OFFSET 1.

Definition parse_inline_sgl (sqe : Sqe) : Z * Z :=
  let b := Sqe_bytes sqe in (field b 24 8, field b 32 4).

Record KeyedSgl := { ks_addr : Z; ks_len : Z; ks_rkey : Z }.

Definition parse_keyed_sgl (sqe : Sqe) : KeyedSgl :=
  let d := bytes_at (Sqe_bytes sqe) 24 16 in
  {| ks_addr := field d 0 8;
     ks_len := Z.lor (Z.lor (field d 8 1) (Z.shiftl (field d 9 1) 8)) (Z.shiftl (field d 10 1) 16);
     ks_rkey := field d 11 4 |}.

Definition invalidate_rkey_for (cmd : Sqe) : option Z :=
  let b := type_byte cmd in
  if (Z.shiftr b 4 =? KEYED_SGL_TYPE_HI) && (Z.land b SGL_SUBTYPE_MASK =? SGL_FMT_INVALIDATE)
  then Some (ks_rkey (parse_keyed_sgl cmd)) else None.

Definition host_data_in (role : Role) (opcode : Z) : bool :=
  match role with
  | IoQueue _ => (opcode =? io_opcode.WRITE) || (opcode =? io_opcode.DSM)
  | Admin _ => false
  end.

Definition staged_len (sqe : Sqe) : Z := Z.min (ks_len (parse_keyed_sgl sqe)) MDTS_BYTES.

(** ** [cmproto.rs] *)

Definition CM_FMT_1_0 : Z := 0.

Record CmReq := { cr_recfmt : Z; cr_qid : Z; cr_hrqsize : Z; cr_hsqsize : Z; cr_cntlid : Z }.
Record CmRep := { cp_recfmt : Z; cp_crqsize : Z }.
Record CmRej := { cj_recfmt : Z; cj_sts : Z }.

Inductive CmError := InvalidData (len need : nat).

Definition CmReq_parse (d : bytes) : res CmError CmReq :=
  if (length d <? 32)%nat then Err (InvalidData (length d) 32)
  else Ok {| cr_recfmt := field d 0 2; cr_qid := field d 2 2; cr_hrqsize := field d 4 2;
             cr_hsqsize := field d 6 2; cr_cntlid := field d 8 2 |}.

Definition CmReq_to_bytes (r : CmReq) : bytes :=
  le_split 2 (cr_recfmt r) ++ le_split 2 (cr_qid r) ++ le_split 2 (cr_hrqsize r) ++
  le_split 2 (cr_hsqsize r) ++ le_split 2 (cr_cntlid r) ++ zeroes 22.

Definition CmRep_parse (d : bytes) : res CmError CmRep :=
  if (length d <? 32)%nat then Err (InvalidData (length d) 32)
  else Ok {| cp_recfmt := field d 0 2; cp_crqsize := field d 2 2 |}.

Definition CmRep_to_bytes (r : CmRep) : bytes := le_split 2 (cp_recfmt r) ++ le_split 2 (cp_crqsize r) ++ zeroes 28.

Definition CmRej_new (sts : Z) : CmRej := {| cj_recfmt := CM_FMT_1_0; cj_sts := sts |}.
Definition CmRej_to_bytes (r : CmRej) : bytes := le_split 2 (cj_recfmt r) ++ le_split 2 (cj_sts r).

(** ** [wr.rs] *)

Inductive WrKind := KRecv | KSend | KWrite | KRead.

#[export] Instance WrKind_eq_dec : EqDecision WrKind.
Proof. solve_decision. Defined.

Definition code (k : WrKind) : Z := match k with KRecv => 1 | KSend => 2 | KWrite => 3 | KRead => 4 end.

Definition from_id (id : Z) : option WrKind :=
  let b := Z.land (Z.shiftr id 40) 0xff in
  if b =? 1 then Some KRecv else if b =? 2 then Some KSend else if b =? 3 then Some KWrite
  else if b =? 4 then Some KRead else None.

Record WrId := { wi_kind : WrKind; wi_low : Z }.

Definition encode (w : WrId) : Z := Z.lor (Z.shiftl (code (wi_kind w)) 40) (wi_low w).
Definition decode (id : Z) : option WrId :=
  k ← from_id id; Some {| wi_kind := k; wi_low := Z.land id 0xffffffff |}.

Definition wr_id_of (k : WrKind) (low : Z) : Z := encode {| wi_kind := k; wi_low := low |}.

(** An [ibv_sge]. *)
Record Sge := { sge_addr : Z; sge_len : Z; sge_lkey : Z }.

(** A posted send work request with its one entry. *)
Inductive WrOp := OpRead (rkey remote : Z) | OpWrite (rkey remote : Z) | OpSend | OpSendInv (rkey : Z).
Record Wr := { wr_id : Z; wr_op : WrOp; wr_signaled : bool; wr_solicited : bool; wr_sge : Sge }.

(** The [MAX_SEGS] entries of the scratch array are enough: an index past them
    panics. *)
Fixpoint fill_sges (l : list Seg) (remaining lkey : Z) (room : nat) : res never (list Sge) :=
  match l with
  | [] => Ok []
  | seg :: l =>
      if remaining =? 0 then Ok []
      else match room with
           | O => Panic
           | S room =>
               let take := Z.min remaining (seg_len seg) in
               r ← fill_sges l (remaining - take) lkey room;
               Ok ({| sge_addr := ptr seg; sge_len := wrap 32 take; sge_lkey := lkey |} :: r)
           end
  end.

Inductive SgeOp := SgeRead | SgeWrite.

Fixpoint post_sge_runs (id : Z) (op : SgeOp) (rkey remote : Z) (sges : list Sge) : res never (list Wr) :=
  match sges with
  | [] => Ok []
  | sge :: l =>
      next ← checked 64 (remote + sge_len sge);
      r ← post_sge_runs id op rkey next l;
      Ok ({| wr_id := id; wr_op := match op with SgeRead => OpRead rkey remote | SgeWrite => OpWrite rkey remote end;
             wr_signaled := bool_decide (l = []); wr_solicited := false; wr_sge := sge |} :: r)
  end.

(** ** [stats.rs] *)

Record WrClass := { wc_posted : Z; wc_done : Z; wc_inflight : Z }.
Definition WrClass_default : WrClass := {| wc_posted := 0; wc_done := 0; wc_inflight := 0 |}.

(** [i64] arithmetic of the checked build. *)
Definition checked_i64 (z : Z) : res never Z := if decide (- 2 ^ 63 <= z < 2 ^ 63) then Ok z else Panic.

(** [n as i64]. *)
Definition as_i64 (n : Z) : Z := if n <? 2 ^ 63 then n else n - 2 ^ 64.

Definition post_n (n : Z) (c : WrClass) : res never WrClass :=
  p ← checked 64 (wc_posted c + n);
  i ← checked_i64 (wc_inflight c + as_i64 n);
  Ok {| wc_posted := p; wc_done := wc_done c; wc_inflight := i |}.

Definition wc_complete (c : WrClass) : res never WrClass :=
  d ← checked 64 (wc_done c + 1);
  i ← checked_i64 (wc_inflight c - 1);
  Ok {| wc_posted := wc_posted c; wc_done := d; wc_inflight := i |}.

Definition bucket (n : Z) : option nat :=
  if n =? 0 then None else if n =? 1 then Some 0%nat else if n =? 2 then Some 1%nat else if n <=? 4 then Some 2%nat
  else if n <=? 8 then Some 3%nat else if n <=? 16 then Some 4%nat else Some 5%nat.

Definition record (n : Z) (h : list Z) : res never (list Z) :=
  match bucket n with
  | None => Ok h
  | Some i => v ← expect (h !! i); v ← checked 64 (v + 1); Ok (<[i := v]> h)
  end.

Inductive Hist := ReadDb | RespDb | RecvDb | PollHist.

#[export] Instance Hist_eq_dec : EqDecision Hist.
Proof. solve_decision. Defined.

Record RdmaWrStats := {
  ws_class : WrKind -> WrClass;
  ws_poll_batches : Z;
  ws_sq_doorbells : Z;
  ws_hist : Hist -> list Z;
}.

Definition RdmaWrStats_default : RdmaWrStats :=
  {| ws_class := fun _ => WrClass_default; ws_poll_batches := 0; ws_sq_doorbells := 0; ws_hist := fun _ => replicate 6 0 |}.

(** What the queue counts. *)
Inductive WrEvent :=
| EvPost (k : WrKind) (n : Z)
| EvDone (k : WrKind)
| EvDoorbell
| EvPoll
| EvHist (h : Hist) (n : Z).

Definition count_event (e : WrEvent) (s : RdmaWrStats) : res never RdmaWrStats :=
  let set_class k c := {| ws_class := fun j => if decide (j = k) then c else ws_class s j; ws_poll_batches := ws_poll_batches s;
                          ws_sq_doorbells := ws_sq_doorbells s; ws_hist := ws_hist s |} in
  match e with
  | EvPost k n => c ← post_n n (ws_class s k); Ok (set_class k c)
  | EvDone k => c ← wc_complete (ws_class s k); Ok (set_class k c)
  | EvDoorbell => d ← checked 64 (ws_sq_doorbells s + 1);
      Ok {| ws_class := ws_class s; ws_poll_batches := ws_poll_batches s; ws_sq_doorbells := d; ws_hist := ws_hist s |}
  | EvPoll => d ← checked 64 (ws_poll_batches s + 1);
      Ok {| ws_class := ws_class s; ws_poll_batches := d; ws_sq_doorbells := ws_sq_doorbells s; ws_hist := ws_hist s |}
  | EvHist h n => v ← record n (ws_hist s h);
      Ok {| ws_class := ws_class s; ws_poll_batches := ws_poll_batches s; ws_sq_doorbells := ws_sq_doorbells s;
            ws_hist := fun j => if decide (j = h) then v else ws_hist s j |}
  end.

Fixpoint count_events (l : list WrEvent) (s : RdmaWrStats) : res never RdmaWrStats :=
  match l with [] => Ok s | e :: l => s ← count_event e s; count_events l s end.

(** [snapshot], without the key names: the classes in order, the scalars, the
    histograms. *)
Definition class_values (c : WrClass) : list Z := [wc_posted c; wc_done c; Z.max (wc_inflight c) 0].
Definition wr_snapshot (s : RdmaWrStats) : list Z :=
  class_values (ws_class s KRead) ++ class_values (ws_class s KWrite) ++ class_values (ws_class s KSend) ++ class_values (ws_class s KRecv) ++
  [ws_poll_batches s; ws_sq_doorbells s] ++ ws_hist s ReadDb ++ ws_hist s RespDb ++ ws_hist s RecvDb ++ ws_hist s PollHist.

(** [reset]: the gauges stay. *)
Definition wr_reset (s : RdmaWrStats) : RdmaWrStats :=
  {| ws_class := fun k => {| wc_posted := 0; wc_done := 0; wc_inflight := wc_inflight (ws_class s k) |};
     ws_poll_batches := 0; ws_sq_doorbells := 0; ws_hist := fun h => map (fun _ => 0) (ws_hist s h) |}.
