(* ===== verification/RdmaQueue.v ===== *)
(** * [ioutgt-nvme-rdma/src/target.rs]: the queue of an RDMA connection

    The queue with its registered buffers and deferred work, the handlers of its
    completions, and the reap loop.  What the verbs library and the adapter hold
    is the record [Nic]: posted receives and work requests, the completions not
    yet polled, whether the completion queue is armed, and the return codes of
    the calls to come.  Until the Connect command is dispatched the queue has no
    dispatch context, so the queue is relative to the type [N] of what holds its
    slots: the bare [Nvme] first, then the [World]. *)

From S2P Require Import Prelude Spec Pool SlotQ Registry Subsystem.
From S2P Require Import Backend Fabrics Dispatch FabricsExec Admin Io.
From S2P Require Import TcpQueue Connection RdmaWire.

Definition SQE_LEN : nat := 64.
Definition ICD_LEN : nat := Z.to_nat RDMA_INLINE_DATA_SIZE.
Definition CAPSULE_LEN : nat := SQE_LEN + ICD_LEN.
Definition CQE_LEN : nat := 16.

Inductive RdmaError :=
| Os (rc : Z)
| ShortCapsule
| ShortConnectData
| CommandOverflow
| NoTag
| BootstrapStatus (status : Z)
| TimerError.

Record RdmaResp := { rr_tag : Z; rr_cmd : Sqe; rr_outcome : Outcome }.
Record PendingRead := { pr_tag : Z; pr_len : Z; pr_rkey : Z; pr_addr : Z }.

(** A posted receive. *)
Record RecvWr := { rw_id : Z; rw_addr : Z; rw_len : Z; rw_lkey : Z }.

Record Nic := {
  n_rq : list RecvWr;
  n_sq : list Wr;
  n_cq : list (Z * Z);
  n_armed : bool;
  n_rcs : list Z;
}.

(** Addresses and local keys of the registered regions. *)
Record Regions := {
  pool_lkey : Z;
  recv_addr : Z; recv_lkey : Z;
  resp_addr : Z; resp_lkey : Z;
  cdata_addr : Z; cdata_lkey : Z;
}.

Record RdmaQueue {N : Type} := {
  rq_nvme : N;
  rq_nic : Nic;
  rq_regions : Regions;
  rq_recv_buf : bytes;
  rq_resp_buf : bytes;
  rq_cdata_buf : bytes;
  rq_nslots : Z;
  rq_inflight : list Z;
  rq_responses : SendList RdmaResp;
  rq_pending_read : list Sqe;
  rq_wr : list WrEvent;
  rq_read_batch : list PendingRead;
  rq_staged : list (Z * Z);
  rq_probe_waker : option nat;
  rq_woken : list nat;
  rq_parked : list (Sqe * option Z);
  rq_pool_wait : list (Z * Sqe * option Z);
  rq_watchdog_tick : Z;
}.
Arguments RdmaQueue : clear implicits.

Section Queue.
Context {N : Type}.
Variable on_arr : forall A, M (SlotArray Sqe) never A -> M N never A.
Arguments on_arr {A} _.
Implicit Type q : RdmaQueue N.

Abbreviation MQ A := (M (RdmaQueue N) RdmaError A).

Definition set_nvme {N'} (n : N') q : RdmaQueue N' :=
  {| rq_nvme := n; rq_nic := rq_nic q; rq_regions := rq_regions q; rq_recv_buf := rq_recv_buf q; rq_resp_buf := rq_resp_buf q;
     rq_cdata_buf := rq_cdata_buf q; rq_nslots := rq_nslots q; rq_inflight := rq_inflight q; rq_responses := rq_responses q;
     rq_pending_read := rq_pending_read q; rq_wr := rq_wr q; rq_read_batch := rq_read_batch q; rq_staged := rq_staged q;
     rq_probe_waker := rq_probe_waker q; rq_woken := rq_woken q; rq_parked := rq_parked q; rq_pool_wait := rq_pool_wait q;
     rq_watchdog_tick := rq_watchdog_tick q |}.
Definition set_nic (n : Nic) q : RdmaQueue N :=
  {| rq_nvme := rq_nvme q; rq_nic := n; rq_regions := rq_regions q; rq_recv_buf := rq_recv_buf q; rq_resp_buf := rq_resp_buf q;
     rq_cdata_buf := rq_cdata_buf q; rq_nslots := rq_nslots q; rq_inflight := rq_inflight q; rq_responses := rq_responses q;
     rq_pending_read := rq_pending_read q; rq_wr := rq_wr q; rq_read_batch := rq_read_batch q; rq_staged := rq_staged q;
     rq_probe_waker := rq_probe_waker q; rq_woken := rq_woken q; rq_parked := rq_parked q; rq_pool_wait := rq_pool_wait q;
     rq_watchdog_tick := rq_watchdog_tick q |}.
Definition set_bufs (recv resp cdata : bytes) q : RdmaQueue N :=
  {| rq_nvme := rq_nvme q; rq_nic := rq_nic q; rq_regions := rq_regions q; rq_recv_buf := recv; rq_resp_buf := resp;
     rq_cdata_buf := cdata; rq_nslots := rq_nslots q; rq_inflight := rq_inflight q; rq_responses := rq_responses q;
     rq_pending_read := rq_pending_read q; rq_wr := rq_wr q; rq_read_batch := rq_read_batch q; rq_staged := rq_staged q;
     rq_probe_waker := rq_probe_waker q; rq_woken := rq_woken q; rq_parked := rq_parked q; rq_pool_wait := rq_pool_wait q;
     rq_watchdog_tick := rq_watchdog_tick q |}.
(** Response counts, responses, stashed commands, collected reads. *)
Definition set_work (inflight : list Z) (resp : SendList RdmaResp) (pending : list Sqe) (batch : list PendingRead) q : RdmaQueue N :=
  {| rq_nvme := rq_nvme q; rq_nic := rq_nic q; rq_regions := rq_regions q; rq_recv_buf := rq_recv_buf q; rq_resp_buf := rq_resp_buf q;
     rq_cdata_buf := rq_cdata_buf q; rq_nslots := rq_nslots q; rq_inflight := inflight; rq_responses := resp;
     rq_pending_read := pending; rq_wr := rq_wr q; rq_read_batch := batch; rq_staged := rq_staged q;
     rq_probe_waker := rq_probe_waker q; rq_woken := rq_woken q; rq_parked := rq_parked q; rq_pool_wait := rq_pool_wait q;
     rq_watchdog_tick := rq_watchdog_tick q |}.
(** Parked commands, commands that wait for pages. *)
Definition set_deferred (parked : list (Sqe * option Z)) (wait : list (Z * Sqe * option Z)) q : RdmaQueue N :=
  {| rq_nvme := rq_nvme q; rq_nic := rq_nic q; rq_regions := rq_regions q; rq_recv_buf := rq_recv_buf q; rq_resp_buf := rq_resp_buf q;
     rq_cdata_buf := rq_cdata_buf q; rq_nslots := rq_nslots q; rq_inflight := rq_inflight q; rq_responses := rq_responses q;
     rq_pending_read := rq_pending_read q; rq_wr := rq_wr q; rq_read_batch := rq_read_batch q; rq_staged := rq_staged q;
     rq_probe_waker := rq_probe_waker q; rq_woken := rq_woken q; rq_parked := parked; rq_pool_wait := wait;
     rq_watchdog_tick := rq_watchdog_tick q |}.
(** Counters, staged completions with their waker, who was woken, the tick. *)
Definition set_side (wr : list WrEvent) (staged : list (Z * Z)) (waker : option nat) (woken : list nat) (tick : Z) q : RdmaQueue N :=
  {| rq_nvme := rq_nvme q; rq_nic := rq_nic q; rq_regions := rq_regions q; rq_recv_buf := rq_recv_buf q; rq_resp_buf := rq_resp_buf q;
     rq_cdata_buf := rq_cdata_buf q; rq_nslots := rq_nslots q; rq_inflight := rq_inflight q; rq_responses := rq_responses q;
     rq_pending_read := rq_pending_read q; rq_wr := wr; rq_read_batch := rq_read_batch q; rq_staged := staged;
     rq_probe_waker := waker; rq_woken := woken; rq_parked := rq_parked q; rq_pool_wait := rq_pool_wait q;
     rq_watchdog_tick := tick |}.

Definition on_nvme {A} (m : M N never A) : MQ A := fun q =>
  let '(n, r) := m (rq_nvme q) in (set_nvme n q, no_err r).
Definition q_slots {A} (m : M (SlotArray Sqe) never A) : MQ A := on_nvme (on_arr m).

(** A counter. *)
Definition note (e : WrEvent) : MQ unit :=
  modify (fun q => set_side (rq_wr q ++ [e]) (rq_staged q) (rq_probe_waker q) (rq_woken q) (rq_watchdog_tick q) q).

Definition nic_set (rq : list RecvWr) (sq : list Wr) (cq : list (Z * Z)) (armed : bool) (rcs : list Z) : Nic :=
  {| n_rq := rq; n_sq := sq; n_cq := cq; n_armed := armed; n_rcs := rcs |}.

(** A call of the verbs library that hands over [rq] and [sq], all or nothing. *)
Definition verb (rq : list RecvWr) (sq : list Wr) : MQ unit :=
  q ← get;
  let n := rq_nic q in
  match n_rcs n with
  | rc :: rcs =>
      if rc =? 0 then modify (set_nic (nic_set (n_rq n ++ rq) (n_sq n ++ sq) (n_cq n) (n_armed n) rcs))
      else _ ← modify (set_nic (nic_set (n_rq n) (n_sq n) (n_cq n) (n_armed n) rcs)); fail (Os rc)
  | [] => modify (set_nic (nic_set (n_rq n ++ rq) (n_sq n ++ sq) (n_cq n) (n_armed n) []))
  end.

(** [cq::arm]. *)
Definition arm : MQ unit :=
  _ ← verb [] [];
  modify (fun q => let n := rq_nic q in set_nic (nic_set (n_rq n) (n_sq n) (n_cq n) true (n_rcs n)) q).

(** ** Posting *)

Definition recv_slice (idx : Z) : MQ bytes :=
  q ← get;
  let off := (Z.to_nat idx * CAPSULE_LEN)%nat in
  _ ← lift (assert (off + CAPSULE_LEN <=? length (rq_recv_buf q))%nat);
  mret (bytes_at (rq_recv_buf q) off CAPSULE_LEN).

Definition recv_wr (r : Regions) (idx : Z) : RecvWr :=
  {| rw_id := wr_id_of KRecv idx; rw_addr := recv_addr r + idx * Z.of_nat CAPSULE_LEN; rw_len := Z.of_nat CAPSULE_LEN; rw_lkey := recv_lkey r |}.

Definition post_recv (idx : Z) : MQ unit :=
  q ← get;
  _ ← verb [recv_wr (rq_regions q) idx] [];
  _ ← note (EvPost KRecv 1);
  note (EvHist RecvDb 1).

Definition post_read_cdata (src : KeyedSgl) (len : Z) : MQ unit :=
  q ← get;
  let g := rq_regions q in
  _ ← verb [] [{| wr_id := wr_id_of KRead 0; wr_op := OpRead (ks_rkey src) (ks_addr src); wr_signaled := true; wr_solicited := false;
                  wr_sge := {| sge_addr := cdata_addr g; sge_len := wrap 32 len; sge_lkey := cdata_lkey g |} |}];
  _ ← note (EvPost KRead 1);
  note EvDoorbell.

(** The data transfer of slot [tag]. *)
Definition transfer_wrs (kind : WrKind) (op : SgeOp) (tag len rkey addr : Z) : MQ (list Wr) :=
  q ← get;
  s ← q_slots (slot tag);
  sges ← lift (no_err (fill_sges (segs (data s)) len (pool_lkey (rq_regions q)) MAX_SEGS));
  lift (no_err (post_sge_runs (wr_id_of kind tag) op rkey addr sges)).

Fixpoint read_wrs (l : list PendingRead) : MQ (list Wr) :=
  match l with
  | [] => mret []
  | pr :: l =>
      a ← transfer_wrs KRead SgeRead (pr_tag pr) (pr_len pr) (pr_rkey pr) (pr_addr pr);
      b ← read_wrs l;
      mret (a ++ b)
  end.

Definition post_reads_batch : MQ unit :=
  q ← get;
  match rq_read_batch q with
  | [] => mret tt
  | batch =>
      wrs ← read_wrs batch;
      _ ← verb [] wrs;
      let reads := Z.of_nat (length wrs) in
      _ ← note (EvPost KRead reads);
      _ ← note EvDoorbell;
      _ ← note (EvHist ReadDb reads);
      modify (fun q => set_work (rq_inflight q) (rq_responses q) (rq_pending_read q) [] q)
  end.

(** The response of a command: its work requests, staging its CQE. *)
Definition response_wrs (r : RdmaResp) : MQ (list Wr * list Wr) :=
  let tag := rr_tag r in
  let o := rr_outcome r in
  let sends := 0 <? out_data_len o in
  writes ← (if sends
            then let dst := parse_keyed_sgl (rr_cmd r) in
                 transfer_wrs KWrite SgeWrite tag (out_data_len o) (ks_rkey dst) (ks_addr dst)
            else mret []);
  q ← get;
  let off := (Z.to_nat tag * CQE_LEN)%nat in
  buf ← lift (copy_into (rq_resp_buf q) off (Cqe_bytes (out_cqe o)));
  _ ← modify (set_bufs (rq_recv_buf q) buf (rq_cdata_buf q));
  let g := rq_regions q in
  let send := {| wr_id := wr_id_of KSend tag;
                 wr_op := match invalidate_rkey_for (rr_cmd r) with Some rkey => OpSendInv rkey | None => OpSend end;
                 wr_signaled := true; wr_solicited := true;
                 wr_sge := {| sge_addr := resp_addr g + tag * Z.of_nat CQE_LEN; sge_len := Z.of_nat CQE_LEN; sge_lkey := resp_lkey g |} |} in
  _ ← lift (assert (Z.to_nat tag <? length (rq_inflight q))%nat);
  _ ← modify (fun q => set_work (<[Z.to_nat tag := if sends then 2 else 1]> (rq_inflight q)) (rq_responses q) (rq_pending_read q) (rq_read_batch q) q);
  mret (writes, [send]).

Fixpoint responses_wrs (l : list RdmaResp) : MQ (list Wr * Z * Z) :=
  match l with
  | [] => mret ([], 0, 0)
  | r :: l =>
      p ← response_wrs r;
      rest ← responses_wrs l;
      let '(wrs, writes, sends) := rest in
      mret (p.1 ++ p.2 ++ wrs, Z.of_nat (length p.1) + writes, Z.of_nat (length p.2) + sends)
  end.

Definition post_responses_batch (batch : list RdmaResp) : MQ unit :=
  match batch with
  | [] => mret tt
  | _ =>
      p ← responses_wrs batch;
      let '(wrs, writes, sends) := p in
      _ ← verb [] wrs;
      _ ← note (EvPost KWrite writes);
      _ ← note (EvPost KSend sends);
      _ ← note EvDoorbell;
      note (EvHist RespDb (writes + sends))
  end.

(** ** Completions *)

(** [drain_into]. *)
Definition drain : MQ (list (Z * Z)) :=
  q ← get;
  let n := rq_nic q in
  _ ← modify (fun q => set_nic (nic_set (n_rq n) (n_sq n) [] (n_armed n) (n_rcs n))
                         (set_side (rq_wr q) [] (rq_probe_waker q) (rq_woken q) (rq_watchdog_tick q) q));
  mret (rq_staged q ++ n_cq n).

Definition on_response_done (tag : Z) : MQ unit :=
  q ← get;
  n ← lift (expect (rq_inflight q !! Z.to_nat tag));
  let n := Z.max 0 (n - 1) in
  _ ← modify (fun q => set_work (<[Z.to_nat tag := n]> (rq_inflight q)) (rq_responses q) (rq_pending_read q) (rq_read_batch q) q);
  if n =? 0 then q_slots (release_tag (wrap 16 tag)) else mret tt.

Definition service_response (kind : WrKind) (low : Z) : MQ bool :=
  match kind with
  | KSend | KWrite => _ ← note (EvDone kind); _ ← on_response_done low; mret true
  | KRecv | KRead => mret false
  end.

(** A round of [await_bootstrap] over the drained completions: the low bits of
    the one awaited, if it is among them; the rest is dropped. *)
Fixpoint bootstrap_scan (kind : WrKind) (comps : list (Z * Z)) : MQ (option Z) :=
  match comps with
  | [] => mret None
  | (id, status) :: comps =>
      if negb (status =? 0) then fail (BootstrapStatus status)
      else match decode id with
           | None => bootstrap_scan kind comps
           | Some w =>
               if decide (wi_kind w = kind) then
                 _ ← note (EvDone (match kind with KRecv => KRecv | _ => KRead end));
                 mret (Some (wi_low w))
               else _ ← service_response (wi_kind w) (wi_low w); bootstrap_scan kind comps
           end
  end.

Fixpoint prime_loop (n : nat) (idx : Z) : MQ unit :=
  match n with O => mret tt | S n => _ ← post_recv idx; prime_loop n (idx + 1) end.

Definition prime : MQ unit := q ← get; _ ← prime_loop (Z.to_nat (rq_nslots q)) 0; arm.

End Queue.

(** ** Setting up *)

(** The slots and the core of a queue without a dispatch context. *)
Record Nvme := { nv_slots : SlotArray Sqe; nv_core : QueueCore }.

Definition nv_on {A} (m : M (SlotArray Sqe) never A) : M Nvme never A := fun n =>
  let '(a, r) := m (nv_slots n) in ({| nv_slots := a; nv_core := nv_core n |}, r).

Definition ADMIN_QUEUE_DEPTH : Z := 32.

(** The queue size of [run_conn]. *)
Definition clamp_sqsize (qid hsqsize io_queue_size : Z) : Z :=
  let cap := if qid =? 0 then ADMIN_QUEUE_DEPTH else Z.max io_queue_size 1 in
  let n := Z.min (Z.max (hsqsize + 1) 1) cap in
  if n <? 2 ^ 16 then n else 1.

(** The send-queue and completion-queue depths of [build_conn_resources]. *)
Definition sq_depth {E} (sqsize pool_bytes : Z) : res E Z :=
  let grains := let n := pool_bytes / PAGE in if n <? 2 ^ 32 then n else 2 ^ 32 - 1 in
  twice ← checked 32 (2 * Z.max grains 1);
  let n := Z.min (twice + (sqsize + 16)) (2 ^ 32 - 1) in
  _ ← assert (sqsize * 2 + 8 <=? 16384);
  mret (Z.min (Z.max n (sqsize * 2 + 8)) 16384).
Definition cq_depth (sq_wrs sqsize : Z) : Z := sq_wrs + sqsize + 24.

(** [RdmaQueue::new]: the pool registered where [idx] says. *)
Definition RdmaQueue_new (qid sqsize : Z) (sqhd_disabled : bool) (g : Regions) (nic : Nic) (arena : Z) (idx : option Z)
    (queue_buf_bytes : Z) : res never (RdmaQueue Nvme) :=
  let pool_bytes := if qid =? 0 then Z.max sqsize 1 * ADMIN_DATA_MAX else queue_buf_bytes in
  a ← SlotArray_new sqsize arena pool_bytes Sqe_zeroed;
  let p := match idx with Some i => set_buf_index i (pool a) | None => pool a end in
  mret {| rq_nvme := {| nv_slots := set_pool p a; nv_core := QueueCore_new qid sqsize sqhd_disabled |};
          rq_nic := nic; rq_regions := g; rq_recv_buf := zeroes (Z.to_nat sqsize * CAPSULE_LEN);
          rq_resp_buf := zeroes (Z.to_nat sqsize * CQE_LEN); rq_cdata_buf := zeroes ICD_LEN; rq_nslots := sqsize;
          rq_inflight := replicate (Z.to_nat sqsize) 0; rq_responses := SendList_new;
          rq_pending_read := replicate (Z.to_nat sqsize) Sqe_zeroed; rq_wr := []; rq_read_batch := []; rq_staged := [];
          rq_probe_waker := None; rq_woken := []; rq_parked := []; rq_pool_wait := []; rq_watchdog_tick := 0 |}.

(** [bootstrap], from the capsule in buffer [idx]: the command with its data, or
    the command whose data is being read. *)
Definition boot_capsule (idx : Z) : M (RdmaQueue Nvme) RdmaError (Sqe * option ConnectData) :=
  s ← recv_slice idx;
  sqe ← lift (match read_from_bytes SQE_LEN Sqe_view (take SQE_LEN s) with Some x => Ok x | None => Err ShortCapsule end);
  cd ← (if Z.shiftr (field s SGL_TYPE_OFFSET 1) 4 =? KEYED_SGL_TYPE_HI then mret None
        else lift (match read_from_bytes 1024 ConnectData_view (bytes_at s SQE_LEN 1024) with
                   | Some x => Ok (Some x) | None => Err ShortConnectData end));
  _ ← post_recv idx;
  _ ← match cd with
      | Some _ => mret tt
      | None => let sgl := parse_keyed_sgl sqe in post_read_cdata sgl (Z.min (ks_len sgl) (Z.of_nat ICD_LEN))
      end;
  mret (sqe, cd).

(** The connect data that was read. *)
Definition boot_data : M (RdmaQueue Nvme) RdmaError ConnectData :=
  q ← get;
  lift (match read_from_bytes 1024 ConnectData_view (take 1024 (rq_cdata_buf q)) with
        | Some x => Ok x | None => Err ShortConnectData end).

(** [bootstrap] up to the dispatch context: waiting for the capsule, for its
    data, or done. *)
Inductive Boot := BtCapsule | BtData (sqe : Sqe) | BtConnect (sqe : Sqe) (cd : ConnectData).

(** A wake of [await_bootstrap], and what follows it. *)
Definition boot_poll (b : Boot) : M (RdmaQueue Nvme) RdmaError Boot :=
  match b with
  | BtCapsule =>
      comps ← drain;
      idx ← bootstrap_scan (@nv_on) KRecv comps;
      match idx with
      | None => mret b
      | Some idx =>
          p ← boot_capsule idx;
          mret (match p.2 with Some cd => BtConnect p.1 cd | None => BtData p.1 end)
      end
  | BtData sqe =>
      comps ← drain;
      low ← bootstrap_scan (@nv_on) KRead comps;
      match low with
      | None => mret b
      | Some _ => cd ← boot_data; mret (BtConnect sqe cd)
      end
  | BtConnect _ _ => mret b
  end.

Section Dispatched.
Context {B : Type} `{Backend B}.
Variable ring_index : Z -> option Z.

Abbreviation RQ := (RdmaQueue (World B)).
Abbreviation MR A := (M (RdmaQueue (World B)) RdmaError A).
Abbreviation slots_do m := (q_slots (@on_slots B) m).

Definition push_response (r : RdmaResp) : MR unit :=
  modify (fun q : RQ => let '(l, woken) := push r (rq_responses q) in
    set_side (rq_wr q) (rq_staged q) (rq_probe_waker q) (rq_woken q ++ option_list woken) (rq_watchdog_tick q)
      (set_work (rq_inflight q) l (rq_pending_read q) (rq_read_batch q) q)).

(** The dispatch context of [bootstrap]. *)
Definition boot_world (n : Nvme) (port : PortConfig) (th : Thread B) (cd : ConnectData) : res never (World B) :=
  role ← (if qc_qid (nv_core n) =? 0 then new_admin (th_now th) else mret new_io);
  mret {| w_slots := nv_slots n; w_core := nv_core n; w_port := port; w_registry := th_registry th; w_connect_data := cd;
          w_peer := th_peer th; w_role := role; w_backends := th_backends th; w_mem := th_mem th; w_now := th_now th;
          w_tid := th_tid th; w_cpus := th_cpus th; w_heap := th_heap th; w_woken := [] |}.

(** The Connect command dispatched by [bootstrap] itself: a command that parks
    would hold it up ([None]). *)
Definition boot_dispatch (t : nat) (sqe : Sqe) : MR (option unit) :=
  tag ← slots_do claim_tag;
  match tag with
  | None => fail NoTag
  | Some tag =>
      _ ← slots_do (submit tag sqe);
      cmd ← slots_do (await_command_poll tag t);
      match cmd with
      | None => mret None
      | Some cmd =>
          p ← on_nvme (execute ring_index t tag cmd);
          match p with
          | Parked _ => mret None
          | Done o =>
              _ ← slots_do (begin_respond tag);
              _ ← post_responses_batch (@on_slots B) [{| rr_tag := tag; rr_cmd := cmd; rr_outcome := o |}];
              mret (Some tt)
          end
      end
  end.

(** ** Commands *)

Definition fail_recv (tag : Z) (sqe : Sqe) (code : Z) : MR unit :=
  _ ← slots_do (respond_receiving tag);
  o ← on_nvme (complete 0 (sqe_cid sqe) code);
  push_response {| rr_tag := tag; rr_cmd := sqe; rr_outcome := o |}.

(** The copy loop of [try_stage_inline]. *)
Fixpoint copy_segs (m : mem) (l : list Seg) (src : bytes) (copied : nat) : mem :=
  match l with
  | [] => m
  | seg :: l =>
      if (copied =? length src)%nat then m
      else
        let take_ := Z.to_nat (Z.min (Z.of_nat (length src - copied)) (seg_len seg)) in
        copy_segs (mem_write m (ptr seg) (bytes_at src copied take_)) l src (copied + take_)
  end.

Definition try_stage_inline (tag : Z) (sqe : Sqe) (idx off len : Z) : MR bool :=
  ok ← slots_do (try_lease tag len);
  if negb ok then mret false
  else
    _ ← slots_do (set_data_len tag (wrap 32 len));
    s ← recv_slice idx;
    let lo := (SQE_LEN + Z.to_nat off)%nat in
    _ ← lift (assert (lo + Z.to_nat len <=? length s)%nat);
    let src := bytes_at s lo (Z.to_nat len) in
    sl ← slots_do (slot tag);
    _ ← on_nvme (modify (fun w : World B => set_store (w_backends w) (copy_segs (w_mem w) (segs (data sl)) src 0) w));
    _ ← slots_do (submit tag sqe);
    _ ← post_recv idx;
    mret true.

Definition try_stage_write (tag : Z) (sqe : Sqe) (len : Z) : MR bool :=
  ok ← slots_do (try_lease tag len);
  if negb ok then mret false
  else
    _ ← slots_do (set_data_len tag (wrap 32 len));
    let sgl := parse_keyed_sgl sqe in
    q ← get;
    _ ← lift (assert (Z.to_nat tag <? length (rq_pending_read q))%nat);
    _ ← modify (fun q : RQ => set_work (rq_inflight q) (rq_responses q) (<[Z.to_nat tag := sqe]> (rq_pending_read q))
          (rq_read_batch q ++ [{| pr_tag := tag; pr_len := wrap 32 len; pr_rkey := ks_rkey sgl; pr_addr := ks_addr sgl |}]) q);
    mret true.

Definition wait_for_pages (tag : Z) (sqe : Sqe) (idx : option Z) : MR unit :=
  modify (fun q : RQ => set_deferred (rq_parked q) (rq_pool_wait q ++ [(tag, sqe, idx)]) q).

Definition route_cmd (tag : Z) (sqe : Sqe) (inline_idx : option Z) : MR unit :=
  q ← get;
  if negb (host_data_in (w_role (rq_nvme q)) (sqe_opcode sqe)) then slots_do (submit tag sqe)
  else match inline_idx with
  | Some idx =>
      let '(off, len) := parse_inline_sgl sqe in
      if negb (type_byte sqe =? INLINE_SGL_TYPE) then
        _ ← fail_recv tag sqe (status.dnr SGL_INVALID_TYPE); post_recv idx
      else if (len =? 0) || (Z.of_nat ICD_LEN <? Z.min (off + len) (2 ^ 64 - 1)) then
        _ ← fail_recv tag sqe (status.dnr status.DATA_SGL_LEN_INVALID); post_recv idx
      else
        staged ← try_stage_inline tag sqe idx off len;
        if staged : bool then mret tt else wait_for_pages tag sqe (Some idx)
  | None =>
      let len := staged_len sqe in
      if len =? 0 then fail_recv tag sqe (status.dnr status.DATA_SGL_LEN_INVALID)
      else
        staged ← try_stage_write tag sqe len;
        if staged : bool then mret tt else wait_for_pages tag sqe None
  end.

Definition handle_recv (idx : Z) : MR unit :=
  s ← recv_slice idx;
  sqe ← lift (match read_from_bytes SQE_LEN Sqe_view (take SQE_LEN s) with Some x => Ok x | None => Err ShortCapsule end);
  q ← get;
  let inline_idx := if host_data_in (w_role (rq_nvme q)) (sqe_opcode sqe) && negb (Z.shiftr (type_byte sqe) 4 =? KEYED_SGL_TYPE_HI)
                    then Some idx else None in
  _ ← match inline_idx with None => post_recv idx | Some _ => mret tt end;
  tag ← slots_do claim_tag;
  match tag with
  | None =>
      q ← get;
      if rq_nslots q <=? Z.of_nat (length (rq_parked q)) then fail CommandOverflow
      else modify (fun q : RQ => set_deferred (rq_parked q ++ [(sqe, inline_idx)]) (rq_pool_wait q) q)
  | Some tag => route_cmd tag sqe inline_idx
  end.

Definition submit_pending (tag : Z) : MR unit :=
  q ← get;
  sqe ← lift (expect (rq_pending_read q !! Z.to_nat tag));
  slots_do (submit tag sqe).

(** ** Deferred work *)

Fixpoint retry_pool (l : list (Z * Sqe * option Z)) : MR unit :=
  match l with
  | [] => mret tt
  | (tag, sqe, idx) :: l =>
      staged ← match idx with
               | Some idx => let '(off, len) := parse_inline_sgl sqe in try_stage_inline tag sqe idx off len
               | None => try_stage_write tag sqe (staged_len sqe)
               end;
      if staged : bool
      then _ ← modify (fun q : RQ => set_deferred (rq_parked q) (tail (rq_pool_wait q)) q); retry_pool l
      else mret tt
  end.

Fixpoint unpark (l : list (Sqe * option Z)) : MR unit :=
  match l with
  | [] => mret tt
  | (sqe, idx) :: l =>
      tag ← slots_do claim_tag;
      match tag with
      | None => mret tt
      | Some tag =>
          _ ← modify (fun q : RQ => set_deferred (tail (rq_parked q)) (rq_pool_wait q) q);
          _ ← route_cmd tag sqe idx;
          unpark l
      end
  end.

Definition drain_deferred : MR unit :=
  q ← get;
  _ ← retry_pool (rq_pool_wait q);
  q ← get;
  _ ← unpark (rq_parked q);
  post_reads_batch (@on_slots B).

(** ** The reap loop *)

(** The completions of a poll: [true] when one failed. *)
Fixpoint dispatch_cqes (comps : list (Z * Z)) : MR bool :=
  match comps with
  | [] => mret false
  | (id, status) :: comps =>
      if negb (status =? 0) then mret true
      else match decode id with
           | None => dispatch_cqes comps
           | Some w =>
               _ ← match wi_kind w with
                   | KRecv => _ ← note (EvDone KRecv); handle_recv (wi_low w)
                   | KRead => _ ← note (EvDone KRead); submit_pending (wrap 16 (wi_low w))
                   | k => _ ← service_response (@on_slots B) k (wi_low w); mret tt
                   end;
               dispatch_cqes comps
           end
  end.

Definition process_cqes : MR bool :=
  comps ← drain;
  _ ← (if bool_decide (comps = []) then mret tt
       else _ ← note EvPoll; note (EvHist PollHist (Z.of_nat (length comps))));
  stop ← dispatch_cqes comps;
  if stop : bool then mret true
  else _ ← drain_deferred; mret false.

(** [watchdog]. *)
Definition rdma_watchdog : MR bool :=
  _ ← modify (fun q : RQ => set_side (rq_wr q) (rq_staged q) (rq_probe_waker q) (rq_woken q) (wrap 32 (rq_watchdog_tick q + 1)) q);
  q ← get;
  if negb (rq_watchdog_tick q mod 2 =? 0) then mret false
  else match w_role (rq_nvme q) with
       | Admin _ => silent ← on_nvme keepalive_expired; mret (match silent with Some _ => true | None => false end)
       | IoQueue i => mret (negb (io_cntlid i =? 0) && negb (contains (w_registry (rq_nvme q)) (io_cntlid i)))
       end.

(** [timer]: the next timer could be set. *)
Definition backstop_tick (timer : bool) : MR bool :=
  _ ← arm;
  stop ← process_cqes;
  if negb timer then fail TimerError
  else if stop : bool then mret true else rdma_watchdog.

(** The responses arm: one response was taken; the others that are ready join it. *)
Definition take_response : MR (option RdmaResp) := fun q : RQ =>
  let '(l, r) := try_next (rq_responses q) in
  (set_work (rq_inflight q) l (rq_pending_read q) (rq_read_batch q) q, Ok r).

Definition take_responses : MR (list RdmaResp) := fun q : RQ =>
  let l := rq_responses q in
  (set_work (rq_inflight q) {| work := []; sl_waker := sl_waker l; closed := closed l |} (rq_pending_read q) (rq_read_batch q) q, Ok (work l)).

Definition post_ready (first : RdmaResp) : MR bool :=
  rest ← take_responses;
  _ ← post_responses_batch (@on_slots B) (first :: rest);
  mret false.

(** ** Slot tasks *)

Inductive RTask := RIdle | RExec (cmd : Sqe) (k : Await).

Definition rdma_task_turn (t : nat) (tag : Z) (st : RTask) : MR RTask :=
  p ← match st with
      | RIdle =>
          sqe ← slots_do (await_command_poll tag t);
          match sqe with
          | None => mret None
          | Some sqe => p ← on_nvme (execute ring_index t tag sqe); mret (Some (sqe, p))
          end
      | RExec cmd k => p ← on_nvme (resume ring_index t tag k); mret (Some (cmd, p))
      end;
  match p with
  | None => mret RIdle
  | Some (cmd, Parked k) => mret (RExec cmd k)
  | Some (cmd, Done o) =>
      _ ← slots_do (begin_respond tag);
      _ ← push_response {| rr_tag := tag; rr_cmd := cmd; rr_outcome := o |};
      mret RIdle
  end.

(** ** The park probe *)

(** [ProbeShared::staged_ready], polled by task [t]. *)
Definition staged_ready (t : nat) : MR bool :=
  q ← get;
  match rq_staged q with
  | [] => _ ← modify (fun q : RQ => set_side (rq_wr q) (rq_staged q) (Some t) (rq_woken q) (rq_watchdog_tick q) q); mret false
  | _ => mret true
  end.

(** Runs before the thread sleeps; [late] has completed between the first poll
    and the second.  [true]: do not sleep. *)
Definition park_probe (poll : bool) (late : list (Z * Z)) (q : RQ) : RQ * bool :=
  let n := rq_nic q in
  let staged := rq_staged q ++ n_cq n in
  let q := set_nic (nic_set (n_rq n) (n_sq n) [] (n_armed n) (n_rcs n))
             (set_side (rq_wr q) staged (rq_probe_waker q) (rq_woken q) (rq_watchdog_tick q) q) in
  let unpolled (q : RQ) := let n := rq_nic q in set_nic (nic_set (n_rq n) (n_sq n) late (n_armed n) (n_rcs n)) q in
  let finish (q : RQ) :=
    match rq_staged q with
    | [] => (q, false)
    | _ => (set_side (rq_wr q) (rq_staged q) None (rq_woken q ++ option_list (rq_probe_waker q)) (rq_watchdog_tick q) q, true)
    end in
  if bool_decide (staged = []) && (negb poll || idle (w_slots (rq_nvme q))) then
    match arm q with
    | (q, Ok _) => finish (set_side (rq_wr q) (rq_staged q ++ late) (rq_probe_waker q) (rq_woken q) (rq_watchdog_tick q) q)
    | (q, _) => (unpolled q, true)
    end
  else finish (unpolled q).

(** Whether the reactor spins instead, [grace] since the last completion left. *)
Definition spin (poll grace : bool) (q : RQ) : bool := poll && (negb (idle (w_slots (rq_nvme q))) || grace).

(** ** Teardown *)

Inductive RtPhase := RtDrain (waited : Z) | RtFreed | RtLeaked.
Record Rt := { rt_queue : RQ; rt_phase : RtPhase; rt_unregistered : option Z }.

Definition rt_begin (q : RQ) : Rt :=
  {| rt_queue := set_nvme (remove_controller (ConnCtx_close (rq_nvme q)).1) q; rt_phase := RtDrain 0; rt_unregistered := None |}.

Definition rt_poll (sleep_ok : bool) (x : Rt) : Rt :=
  match rt_phase x with
  | RtDrain waited =>
      let q := rt_queue x in
      let a := w_slots (rq_nvme q) in
      let busy := 0 <? executing a in
      if busy && (waited <? 10000) && sleep_ok
      then {| rt_queue := q; rt_phase := RtDrain (waited + 2); rt_unregistered := None |}
      else if busy then {| rt_queue := q; rt_phase := RtLeaked; rt_unregistered := None |}
      else
        let '(p, idx) := take_buf_index (pool a) in
        {| rt_queue := set_nvme (set_slots (set_pool p a) (rq_nvme q)) q; rt_phase := RtFreed; rt_unregistered := idx |}
  | RtFreed | RtLeaked => x
  end.

End Dispatched.
