(* ===== verification/RdmaData.v ===== *)
(** * NVMe/RDMA: what is encoded and moved, and the invariant of a queue

    Work-request ids and the connection manager's private data are read back as
    they were written.  [exec_wr] is what the adapter does for a one-sided work
    request; executing the work requests built for a transfer moves exactly the
    command's bytes, between the host's memory and the slot's segments, and only
    the last of them raises a completion.  The copy of in-capsule data fills the
    slot's segments with the capsule's payload.

    [acct]: every capsule buffer, work request and response of a queue is
    accounted for.  The slots satisfy the invariants of the slot engine and of
    the dispatcher ([conn_of] sees the queue as a connection without a receive
    ring); a capsule buffer is posted, completed or held by a deferred command,
    never two of these; a slot whose data is being read is still receiving; the
    slots being answered are exactly the responses queued, in hand or posted, and
    a posted response counts the completions it is owed.  [out] lists the work
    requests that are owed a completion.  Each handler keeps [acct], whatever the
    verbs library returns. *)

From S2P Require Import Prelude Spec Pool PoolProofs PoolSafety PoolData.
From S2P Require Import Backend BackendProofs SegIO SlotQ RdmaWire RdmaQueue.
From S2P Require Import SlotQProofs SlotQSafety Registry Subsystem Fabrics Dispatch.
From S2P Require Import FabricsExec Admin Io TcpQueue Connection ExecLaws.
From S2P Require Import AdminProofs ConnProofs Frame RecvFrame TaskProofs.
From S2P Require Import System.

(** ** Identifiers *)

Lemma encode_add k low : in_u 32 low -> wr_id_of k low = code k * 2 ^ 40 + low.
Proof.
  intros H. unfold wr_id_of, encode. cbn [wi_kind wi_low]. rewrite Z.shiftl_mul_pow2 by lia.
  assert (Z.land (code k * 2 ^ 40) low = 0) as Hd.
  { apply Z.bits_inj'. intros n Hn. rewrite Z.land_spec, Z.bits_0. destruct (Z.ltb_spec n 40); [by rewrite Z.mul_pow2_bits_low by lia|].
    rewrite (Z.bits_above_log2 low); [apply andb_false_r|apply H|]. destruct (Z.eq_dec low 0) as [->|]; [cbn; lia|].
    apply Z.log2_lt_pow2; [unfold in_u in H; lia|]. eapply Z.lt_le_trans; [apply H|apply Z.pow_le_mono_r; lia]. }
  by rewrite Z.add_nocarry_lxor, Z.lxor_lor.
Qed.

Lemma wr_id_decode k low : in_u 32 low -> decode (wr_id_of k low) = Some {| wi_kind := k; wi_low := low |}.
Proof.
  intros H. unfold decode, from_id. rewrite encode_add by done.
  assert (Z.shiftr (code k * 2 ^ 40 + low) 40 = code k) as ->.
  { rewrite Z.shiftr_div_pow2 by lia. rewrite Z.div_add_l by lia. rewrite Z.div_small; [lia|]. unfold in_u in H. lia. }
  assert (Z.land (code k * 2 ^ 40 + low) 0xffffffff = low) as ->.
  { change 0xffffffff with (Z.ones 32). rewrite Z.land_ones by lia.
    replace (code k * 2 ^ 40 + low) with (low + code k * 2 ^ 8 * 2 ^ 32) by lia. rewrite Z.mod_add by lia. by apply Z.mod_small. }
  by destruct k.
Qed.

Lemma cm_req_parse_bytes r :
  in_u 16 (cr_recfmt r) -> in_u 16 (cr_qid r) -> in_u 16 (cr_hrqsize r) -> in_u 16 (cr_hsqsize r) -> in_u 16 (cr_cntlid r) ->
  CmReq_parse (CmReq_to_bytes r) = Ok r.
Proof.
  intros. destruct r as [a b c d e]. cbn in *. unfold CmReq_parse, CmReq_to_bytes. cbn [cr_recfmt cr_qid cr_hrqsize cr_hsqsize cr_cntlid].
  cbn [length Nat.ltb Nat.leb]. f_equal. f_equal; field_ok.
Qed.

Lemma cm_rep_parse_bytes r : in_u 16 (cp_recfmt r) -> in_u 16 (cp_crqsize r) -> CmRep_parse (CmRep_to_bytes r) = Ok r.
Proof.
  intros. destruct r as [a b]. cbn in *. unfold CmRep_parse, CmRep_to_bytes. cbn [cp_recfmt cp_crqsize]. f_equal. f_equal; field_ok.
Qed.

(** ** Transfers *)

(** The work requests of a transfer are single, in order, and cover the first
    [len] bytes of the segments. *)
Lemma fill_sges_ok l len lkey room :
  (length l <= room)%nat -> segs_ok l -> 0 <= len ->
  exists sges, fill_sges l len lkey room = Ok sges /\ (length sges <= length l)%nat /\ (0 < len -> l <> [] -> sges <> []) /\
    Forall (fun s => in_u 32 (sge_len s)) sges.
Proof.
  revert len room. induction l as [|s l IH]; intros len room Hr Hs Hl; cbn [fill_sges].
  { exists []. repeat split; try done; lia. }
  destruct (Z.eqb_spec len 0) as [->|Hne].
  { exists []. split; [done|]. split; [cbn; lia|]. split; [lia|constructor]. }
  destruct room as [|room]; [cbn in Hr; lia|]. destruct Hs as (H0 & _ & Hs).
  destruct (IH (len - Z.min len (seg_len s)) room) as (r & He & Hn & _ & Hf); [cbn in Hr; lia|done|lia|].
  cbn zeta. rewrite He. cbn [mbind res_bind]. eexists. split; [reflexivity|]. split; [cbn; lia|]. split; [done|].
  constructor; [|done]. cbn. apply in_u_wrap. lia.
Qed.

Lemma post_sge_runs_ok id op rkey remote sges :
  0 <= remote -> Forall (fun s => in_u 32 (sge_len s)) sges -> remote + 2 ^ 32 * Z.of_nat (length sges) < 2 ^ 64 ->
  exists wrs, post_sge_runs id op rkey remote sges = Ok wrs /\ length wrs = length sges /\
    Forall (fun w => wr_id w = id) wrs /\
    (sges = [] /\ wrs = [] \/ exists ws w, wrs = ws ++ [w] /\ wr_signaled w = true /\ Forall (fun w => wr_signaled w = false) ws).
Proof.
  revert remote. induction sges as [|s sges IH]; intros remote H0 Hf Hb; cbn [post_sge_runs].
  { exists []. repeat split; try done. by left. }
  apply list.Forall_cons in Hf as [Hs Hf]. cbn [length] in Hb. unfold in_u in Hs.
  rewrite checked_ok by (unfold in_u; lia). cbn [mbind res_bind].
  destruct (IH (remote + sge_len s)) as (r & He & Hn & Hid & Hsig); [lia|done|lia|]. rewrite He. cbn [mbind res_bind].
  eexists. split; [reflexivity|]. split; [cbn; lia|]. split; [by constructor|]. right.
  destruct Hsig as [[-> ->]|(ws & w & -> & Hw & Hws)].
  - eexists [], _. split; [reflexivity|]. done.
  - eexists (_ :: ws), w. split; [reflexivity|]. split; [done|]. constructor; [|done]. cbn. apply bool_decide_false. intros ->.
    rewrite length_app in Hn. cbn in Hn. lia.
Qed.

(** What the adapter does: the memory of the host, one per remote key, and the
    target's. *)
Definition exec_wr (s : (Z -> mem) * mem) (w : Wr) : (Z -> mem) * mem :=
  let '(host, m) := s in
  match wr_op w with
  | OpRead rkey remote => (host, mem_write m (sge_addr (wr_sge w)) (mem_read (host rkey) remote (sge_len (wr_sge w))))
  | OpWrite rkey remote =>
      (fun k => if decide (k = rkey) then mem_write (host rkey) remote (mem_read m (sge_addr (wr_sge w)) (sge_len (wr_sge w))) else host k, m)
  | OpSend | OpSendInv _ => s
  end.

Lemma rdma_read_runs l : forall len lkey room id rkey addr sges wrs host m,
  segs_ok l -> (length l <= room)%nat -> 0 <= len <= seg_total l -> len < 2 ^ 32 -> 0 <= addr ->
  fill_sges l len lkey room = Ok sges -> post_sge_runs id SgeRead rkey addr sges = Ok wrs ->
  exists m', foldl exec_wr (host, m) wrs = (host, m') /\
    flat m' l = mem_read (host rkey) addr len ++ drop (Z.to_nat len) (flat m l) /\
    (forall x, (forall s, s ∈ l -> ~ in_seg s x) -> m' x = m x).
Proof.
  induction l as [|s l IH]; intros len lkey room id rkey addr sges wrs host m Hs Hr Hl H32 Ha Hf Hp; cbn [fill_sges] in Hf.
  { injection Hf as <-. injection Hp as <-. cbn in Hl. replace len with 0 by lia. by exists m. }
  destruct (Z.eqb_spec len 0) as [->|Hne].
  { injection Hf as <-. injection Hp as <-. exists m. change (Z.to_nat 0) with 0%nat. rewrite drop_0. by cbn. }
  destruct room as [|room]; [cbn in Hr; lia|]. destruct Hs as (H0 & Hdis & Hs). cbn [seg_total] in Hl. cbn zeta in Hf.
  rewrite list.Forall_forall in Hdis.
  pose proof (seg_total_nonneg l Hs) as Ht0. set (n := Z.min len (seg_len s)) in *.
  destruct (fill_sges l (len - n) lkey room) as [sg| |] eqn:Hf1; try done. injection Hf as <-. cbn [post_sge_runs sge_len] in Hp.
  rewrite (wrap_small 32 n) in Hp by (unfold in_u; lia).
  destruct (checked 64 (addr + n)) as [a| |] eqn:Hck; try done. unfold checked in Hck. case_decide; [|done]. injection Hck as <-.
  cbn [mbind res_bind] in Hp. destruct (post_sge_runs id SgeRead rkey (addr + n) sg) as [r| |] eqn:Hp1; try done. injection Hp as <-.
  set (m1 := mem_write m (ptr s) (mem_read (host rkey) addr n)).
  destruct (IH (len - n) lkey room id rkey (addr + n) sg r host m1) as (m' & Hx & Hfl & Hout); try done; try lia; [cbn in Hr; lia|].
  exists m'. split; [exact Hx|]. pose proof (mem_read_length (host rkey) addr n ltac:(lia)) as Hpl.
  assert (forall x, ~ in_seg s x -> m1 x = m x) as Hm1.
  { intros x Hx'. apply mem_write_outside. unfold in_seg in Hx'. lia. }
  split.
  - change (flat m' (s :: l)) with (mem_read m' (ptr s) (seg_len s) ++ flat m' l).
    change (flat m (s :: l)) with (mem_read m (ptr s) (seg_len s) ++ flat m l). rewrite Hfl.
    rewrite (mem_read_ext m' m1) by (intros x Hx'; apply Hout; intros s' Hs' Hin; by apply (Hdis s' Hs' x)).
    rewrite (flat_ext m1 m l) by (intros s' x Hs' Hx'; apply Hm1; intros Hin; by apply (Hdis s' Hs' x)).
    pose proof (mem_read_write_mid m (ptr s) (seg_len s) 0 (mem_read (host rkey) addr n) ltac:(lia) ltac:(lia)) as Hmid.
    rewrite Z.add_0_r in Hmid. unfold m1. rewrite Hmid. cbn [Nat.add Z.to_nat]. rewrite take_0. cbn [app].
    rewrite (mem_read_split (host rkey) addr len n) by lia. rewrite <- !app_assoc. f_equal.
    pose proof (mem_read_length m (ptr s) (seg_len s) ltac:(lia)) as Hsl.
    destruct (decide (len <= seg_len s)).
    + assert (len - n = 0) as -> by lia. change (Z.to_nat 0) with 0%nat. change (mem_read (host rkey) (addr + n) 0) with (@nil Byte.byte). cbn [app].
      rewrite drop_0, (drop_app_le _ (flat m l)) by lia. by replace (length (mem_read (host rkey) addr n)) with (Z.to_nat len) by lia.
    + rewrite drop_ge by lia. cbn [app]. rewrite (drop_app_ge _ (flat m l)) by lia. f_equal. f_equal. lia.
  - intros x Hx'. rewrite Hout by (intros s' Hs'; apply Hx'; by right). apply Hm1, Hx'. by left.
Qed.

Lemma rdma_write_runs l : forall len lkey room id rkey addr sges wrs host m,
  segs_ok l -> (length l <= room)%nat -> 0 <= len <= seg_total l -> len < 2 ^ 32 -> 0 <= addr ->
  fill_sges l len lkey room = Ok sges -> post_sge_runs id SgeWrite rkey addr sges = Ok wrs ->
  exists host', foldl exec_wr (host, m) wrs = (host', m) /\
    (forall x, host' rkey x = mem_write (host rkey) addr (take (Z.to_nat len) (flat m l)) x) /\ (forall k, k <> rkey -> host' k = host k).
Proof.
  induction l as [|s l IH]; intros len lkey room id rkey addr sges wrs host m Hs Hr Hl H32 Ha Hf Hp; cbn [fill_sges] in Hf.
  { injection Hf as <-. injection Hp as <-. exists host. split; [done|]. split; [|done]. intros x. cbn. rewrite take_nil, mem_write_nil. done. }
  destruct (Z.eqb_spec len 0) as [->|Hne].
  { injection Hf as <-. injection Hp as <-. exists host. split; [done|]. split; [|done]. intros x. change (Z.to_nat 0) with 0%nat. by rewrite take_0, mem_write_nil. }
  destruct room as [|room]; [cbn in Hr; lia|]. destruct Hs as (H0 & _ & Hs). cbn [seg_total] in Hl. cbn zeta in Hf.
  pose proof (seg_total_nonneg l Hs) as Ht0. set (n := Z.min len (seg_len s)) in *.
  destruct (fill_sges l (len - n) lkey room) as [sg| |] eqn:Hf1; try done. injection Hf as <-. cbn [post_sge_runs sge_len] in Hp.
  rewrite (wrap_small 32 n) in Hp by (unfold in_u; lia).
  destruct (checked 64 (addr + n)) as [a| |] eqn:Hck; try done. unfold checked in Hck. case_decide; [|done]. injection Hck as <-.
  cbn [mbind res_bind] in Hp. destruct (post_sge_runs id SgeWrite rkey (addr + n) sg) as [r| |] eqn:Hp1; try done. injection Hp as <-.
  pose proof (mem_read_length m (ptr s) n ltac:(lia)) as Hpl.
  set (h1 := fun k => if decide (k = rkey) then mem_write (host rkey) addr (mem_read m (ptr s) n) else host k).
  destruct (IH (len - n) lkey room id rkey (addr + n) sg r h1 m) as (h' & Hx & Hw & Hk); try done; try lia; [cbn in Hr; lia|].
  exists h'. split; [exact Hx|]. split.
  - intros x. rewrite Hw. unfold h1. rewrite decide_True by done. rewrite <- Hpl at 2. rewrite mem_write_app. f_equal.
    change (flat m (s :: l)) with (mem_read m (ptr s) (seg_len s) ++ flat m l).
    pose proof (mem_read_length m (ptr s) (seg_len s) ltac:(lia)) as Hsl.
    destruct (decide (len <= seg_len s)).
    + assert (len - n = 0) as -> by lia. change (Z.to_nat 0) with 0%nat. rewrite take_0, app_nil_r, take_app_le by lia.
      replace n with len by lia. symmetry. apply take_mem_read. lia.
    + rewrite take_app_ge by lia. replace n with (seg_len s) by lia. f_equal. f_equal. lia.
  - intros k Hne'. rewrite Hk by done. unfold h1. by rewrite decide_False.
Qed.

(** ** In-capsule data *)

Lemma copy_segs_flat l : forall m src copied,
  segs_ok l -> (copied <= length src)%nat -> Z.of_nat (length src - copied) <= seg_total l ->
  flat (copy_segs m l src copied) l = drop copied src ++ drop (length src - copied) (flat m l) /\
  (forall x, (forall s, s ∈ l -> ~ in_seg s x) -> copy_segs m l src copied x = m x).
Proof.
  induction l as [|s l IH]; intros m src copied Hs Hc Hl; cbn [copy_segs].
  { cbn in Hl. split; [|done]. cbn. by rewrite drop_ge, drop_nil by lia. }
  destruct Hs as (H0 & Hdis & Hs). rewrite list.Forall_forall in Hdis. cbn [seg_total] in Hl.
  destruct (Nat.eqb_spec copied (length src)) as [->|Hne].
  { rewrite drop_all, Nat.sub_diag, drop_0. by cbn. }
  set (n := Z.to_nat (Z.min (Z.of_nat (length src - copied)) (seg_len s))).
  pose proof (seg_total_nonneg l Hs) as Ht0. set (piece := bytes_at src copied n).
  assert (length piece = n) as Hpl by (unfold piece, bytes_at; rewrite length_take, length_drop; lia).
  set (m1 := mem_write m (ptr s) piece).
  destruct (IH m1 src (copied + n)%nat Hs) as (Hfl & Hout); [lia|lia|].
  assert (forall x, ~ in_seg s x -> m1 x = m x) as Hm1 by (intros x Hx'; apply mem_write_outside; unfold in_seg in Hx'; lia).
  split.
  - set (m' := copy_segs m1 l src (copied + n)) in *.
    change (flat m' (s :: l)) with (mem_read m' (ptr s) (seg_len s) ++ flat m' l).
    change (flat m (s :: l)) with (mem_read m (ptr s) (seg_len s) ++ flat m l). rewrite Hfl.
    rewrite (mem_read_ext m' m1) by (intros x Hx'; apply Hout; intros s' Hs' Hin; by apply (Hdis s' Hs' x)).
    rewrite (flat_ext m1 m l) by (intros s' x Hs' Hx'; apply Hm1; intros Hin; by apply (Hdis s' Hs' x)).
    pose proof (mem_read_write_mid m (ptr s) (seg_len s) 0 piece ltac:(lia) ltac:(lia)) as Hmid.
    rewrite Z.add_0_r in Hmid. unfold m1. rewrite Hmid. cbn [Nat.add Z.to_nat]. rewrite take_0, Hpl. cbn [app].
    pose proof (mem_read_length m (ptr s) (seg_len s) ltac:(lia)) as Hsl.
    assert (drop copied src = piece ++ drop (copied + n) src) as ->
      by (unfold piece, bytes_at; rewrite <- drop_drop; symmetry; apply take_drop).
    rewrite <- !app_assoc. f_equal.
    destruct (decide (n = length src - copied)%nat) as [He|].
    + rewrite (drop_ge src) by lia. replace (length src - (copied + n))%nat with 0%nat by lia. rewrite drop_0. cbn [app].
      rewrite drop_app_le by lia. by rewrite He.
    + rewrite (drop_ge (mem_read m _ _)) by lia. cbn [app]. rewrite (drop_app_ge _ (flat m l)) by lia. f_equal. f_equal. lia.
  - intros x Hx'. rewrite Hout by (intros s' Hs'; apply Hx'; by right). apply Hm1, Hx'. by left.
Qed.

(** ** Work-request ids *)

Definition low_of (k : WrKind) (id : Z) : option Z :=
  w ← decode id; if decide (wi_kind w = k) then Some (wi_low w) else None.
Definition lows (k : WrKind) (ids : list Z) : list Z := omap (low_of k) ids.

Lemma lows_app k a b : lows k (a ++ b) = lows k a ++ lows k b.
Proof. apply omap_app. Qed.

Lemma lows_id k k' low : in_u 32 low -> lows k [wr_id_of k' low] = if decide (k' = k) then [low] else [].
Proof. intros H. unfold lows, low_of. cbn. rewrite wr_id_decode by done. cbn. by case_decide. Qed.

Lemma lows_of k k' id low : low_of k id = Some low -> lows k' [id] = if decide (k = k') then [low] else [].
Proof.
  unfold lows, low_of. cbn. destruct (decode id) as [w|]; [|done]. cbn. case_decide as Hk; [|done]. intros [= <-]. subst k.
  by case_decide.
Qed.

Lemma lows_cons k id ids : lows k (id :: ids) = lows k [id] ++ lows k ids.
Proof. apply (lows_app k [id]). Qed.

#[export] Instance lows_perm k : Proper (Permutation ==> Permutation) (lows k).
Proof. intros a b H. unfold lows. by rewrite H. Qed.

(** Commands of the host whose data address does not reach the end of the
    address space. *)
Definition cmd_fits (x : Sqe) : Prop := Sqe_wf x /\ ks_addr (parse_keyed_sgl x) + 2 ^ 37 < 2 ^ 64.

Lemma ks_addr_nonneg x : 0 <= ks_addr (parse_keyed_sgl x).
Proof. apply le_combine_bound. Qed.

Lemma staged_len_range x : 0 <= staged_len x <= MDTS_BYTES.
Proof.
  unfold staged_len, parse_keyed_sgl, MDTS_BYTES. cbn [ks_len].
  assert (forall a b, 0 <= field a b 1) as H by (intros; apply le_combine_bound).
  assert (0 <= Z.lor (Z.lor (field (bytes_at (Sqe_bytes x) 24 16) 8 1) (Z.shiftl (field (bytes_at (Sqe_bytes x) 24 16) 9 1) 8))
    (Z.shiftl (field (bytes_at (Sqe_bytes x) 24 16) 10 1) 16)); [|lia].
  apply Z.lor_nonneg. rewrite Z.lor_nonneg, !Z.shiftl_nonneg. by split_and!.
Qed.

(** The command in capsule buffer [idx]. *)
Definition capsule_at (buf : bytes) (idx : Z) : Sqe :=
  Sqe_view (take SQE_LEN (bytes_at buf (Z.to_nat idx * CAPSULE_LEN) CAPSULE_LEN)).

Section Proofs.
Context {B : Type} {BK : Backend B} {ST : Store B}.
Abbreviation RQ := (RdmaQueue (World B)).
Implicit Types (q : RQ) (s : Slot Sqe).

Abbreviation arr q := (w_slots (rq_nvme q)).
Abbreviation slots_do m := (q_slots (@on_slots B) m).

(** ** The queue as a connection *)

Definition resp_work (r : RdmaResp) : SendWork :=
  Response {| co_tag := rr_tag r; co_cqe := out_cqe (rr_outcome r); co_data_len := out_data_len (rr_outcome r) |}.

Definition conn_of q : Conn B :=
  {| c_world := rq_nvme q; c_send := {| work := map resp_work (work (rq_responses q)); sl_waker := None; closed := false |};
     c_traffic := false; c_ring := None |}.

Definition base q : Prop := both_ok (conn_of q).

(** Slot array [a] in place of the queue's. *)
Definition q_arr (a : SlotArray Sqe) q : RQ := set_nvme (set_slots a (rq_nvme q)) q.

Lemma slots_do_eq {A} (m : M (SlotArray Sqe) never A) q a x : m (arr q) = (a, Ok x) -> slots_do m q = (q_arr a q, Ok x).
Proof. intros H. unfold q_slots, on_nvme, on_slots. by rewrite H. Qed.

Lemma q_arr_same q : q_arr (arr q) q = q.
Proof. by destruct q as [[]]. Qed.

(** The invariant of the connection when only slot [i] changes. *)
Lemma base_arr q a : base q -> conn_ok (c_slots a (conn_of q)) -> base (q_arr a q).
Proof. intros [_ Hw] Hc. split; [exact Hc|]. apply world_ok_slots; [done|]. apply (ck_slots _ _ Hc). Qed.

(** ** What the handlers leave to the slot tasks *)

(** The queue's kind, with the keep-alive timeout of an admin queue. *)
Definition kato_of (r : Role) : option Z := match r with Admin a => Some (ad_kato_ms a) | IoQueue _ => None end.

Lemma kato_admin r r' : kato_of r' = kato_of r -> is_admin r' = is_admin r.
Proof. by destruct r, r'. Qed.

Definition calm q0 q : Prop :=
  length (slots (arr q)) = length (slots (arr q0)) /\ w_backends (rq_nvme q) = w_backends (rq_nvme q0) /\
  kato_of (w_role (rq_nvme q)) = kato_of (w_role (rq_nvme q0)) /\
  forall i s, state s = Executing -> slots (arr q0) !! i = Some s <-> slots (arr q) !! i = Some s.

#[export] Instance calm_preorder : PreOrder calm.
Proof.
  split; [by intros q|]. intros x y z (H1 & H2 & H3 & H4) (K1 & K2 & K3 & K4).
  do 3 (split; [congruence|]). intros i s Hs. rewrite (H4 i s Hs). by apply K4.
Qed.

Lemma calm_same q q' :
  slots (arr q') = slots (arr q) -> w_backends (rq_nvme q') = w_backends (rq_nvme q) ->
  kato_of (w_role (rq_nvme q')) = kato_of (w_role (rq_nvme q)) -> calm q q'.
Proof. intros H1 H2 H3. split; [by rewrite H1|]. do 2 (split; [done|]). intros. by rewrite H1. Qed.

Lemma calm_slot q q' i s s' :
  slots (arr q') = <[i := s']> (slots (arr q)) -> w_backends (rq_nvme q') = w_backends (rq_nvme q) ->
  kato_of (w_role (rq_nvme q')) = kato_of (w_role (rq_nvme q)) ->
  slots (arr q) !! i = Some s -> state s <> Executing -> state s' <> Executing -> calm q q'.
Proof.
  intros H1 H2 H3 Hi Hs Hs'. split; [by rewrite H1, length_insert|]. do 2 (split; [done|]). intros j x Hx. rewrite H1.
  destruct (decide (i = j)) as [<-|]; [|by rewrite list_lookup_insert_ne].
  rewrite list_lookup_insert_eq by (by eapply lookup_lt_Some). rewrite Hi. split; congruence.
Qed.

(** ** The invariant *)

Definition receiving q (t : Z) : Prop := 0 <= t /\ exists s, slots (arr q) !! Z.to_nat t = Some s /\ state s = Receiving.

(** A command that waits for pages: its in-capsule bounds are checked, its
    length is not zero. *)
Definition wait_ok (x : Z * Sqe * option Z) : Prop :=
  let '(_, sqe, idx) := x in
  cmd_fits sqe /\
  match idx with
  | Some _ => let '(off, len) := parse_inline_sgl sqe in 0 <= off /\ 0 < len /\ off + len <= Z.of_nat ICD_LEN
  | None => 0 < staged_len sqe
  end.

Definition read_ok (pr : PendingRead) : Prop := 0 <= pr_len pr <= MDTS_BYTES /\ 0 <= pr_addr pr /\ pr_addr pr + 2 ^ 37 < 2 ^ 64.

Definition resp_ok (r : RdmaResp) : Prop :=
  0 <= rr_tag r /\ cmd_fits (rr_cmd r) /\ cqe_cid (out_cqe (rr_outcome r)) = sqe_cid (rr_cmd r).

(** The completions owed to the response of slot [t]. *)
Definition due (ids : list Z) (t : Z) : Z := Z.of_nat (count_occ Z.eq_dec (lows KWrite ids ++ lows KSend ids) t).

(** One more is counted than will come: there is data to send and no buffer. *)
Definition lost (r : RdmaResp) s : Z := if decide (0 < out_data_len (rr_outcome r) /\ segs (data s) = []) then 1 else 0.

Abbreviation Waits := (list (Z * Sqe * option Z)).
Definition held_bufs (wait : Waits) q : list Z := omap snd (rq_parked q) ++ omap snd wait.
Definition recv_bufs (ids : list Z) (wait : Waits) q : list Z := lows KRecv ids ++ held_bufs wait q.
Definition read_tags (ids : list Z) (wait : Waits) q : list Z := lows KRead ids ++ map pr_tag (rq_read_batch q) ++ map (fun x => x.1.1) wait.

Definition sizes q : Prop :=
  rq_nslots q = nslots (arr q) /\ let n := Z.to_nat (rq_nslots q) in
  length (rq_recv_buf q) = (n * CAPSULE_LEN)%nat /\ length (rq_resp_buf q) = (n * CQE_LEN)%nat /\
  length (rq_inflight q) = n /\ length (rq_pending_read q) = n.

Definition fits (wait : Waits) q : Prop :=
  (forall i s, slots (arr q) !! i = Some s -> cmd_fits (cmd s)) /\
  (forall idx, 0 <= idx < rq_nslots q -> cmd_fits (capsule_at (rq_recv_buf q) idx)) /\
  Forall cmd_fits (rq_pending_read q) /\ Forall (fun x => cmd_fits x.1) (rq_parked q) /\
  Forall wait_ok wait /\ Forall read_ok (rq_read_batch q).

(** A command that waits for pages has no data yet. *)
Definition waiting q (x : Z * Sqe * option Z) : Prop := exists s, slots (arr q) !! Z.to_nat x.1.1 = Some s /\ data_len s = 0.

(** A posted response. *)
Definition posted (ids : list Z) q (r : RdmaResp) : Prop :=
  exists s n, slots (arr q) !! Z.to_nat (rr_tag r) = Some s /\ rq_inflight q !! Z.to_nat (rr_tag r) = Some n /\
    n = due ids (rr_tag r) + lost r s /\ 1 <= n.

(** Its completion entry is in the registered buffer. *)
Definition staged_cqe q (r : RdmaResp) : Prop :=
  bytes_at (rq_resp_buf q) (Z.to_nat (rr_tag r) * CQE_LEN) CQE_LEN = Cqe_bytes (out_cqe (rr_outcome r)).

(** [ids] are owed a completion, [wait] the commands waiting for pages, [hand] are the responses the reap loop has in
    hand, [sent] those it has posted. *)
Record acct q0 (ids : list Z) (wait : Waits) (hand sent : list RdmaResp) q : Prop := {
  rk_base : base q;
  rk_calm : calm q0 q;
  rk_short : forall i, short_slot i (conn_of q);
  rk_sizes : sizes q;
  rk_fits : fits wait q;
  rk_wait : Forall (waiting q) wait;
  rk_recvs : NoDup (recv_bufs ids wait q);
  rk_range : Forall (fun x => 0 <= x < rq_nslots q) (recv_bufs ids wait q);
  rk_reads : NoDup (read_tags ids wait q);
  rk_reading : Forall (receiving q) (read_tags ids wait q);
  rk_resp : (resp_view (arr q)).*1 ≡ₚ map (fun r => Z.to_nat (rr_tag r)) (work (rq_responses q) ++ hand ++ sent);
  rk_resps : Forall resp_ok (work (rq_responses q) ++ hand ++ sent);
  rk_sent : Forall (posted ids q) sent;
  rk_due : forall t, t ∈ lows KWrite ids ++ lows KSend ids -> t ∈ map rr_tag sent;
  rk_cqes : Forall (staged_cqe q) sent;
}.

(** The ids owed by the adapter and in the completions already polled: a
    completion that failed ends the loop, and owes nothing. *)
Definition done_ids (comps : list (Z * Z)) : list Z := omap (fun c => if c.2 =? 0 then Some c.1 else None) comps.
Definition owed (n : Nic) : list Z :=
  map rw_id (n_rq n) ++ map wr_id (filter (fun w => wr_signaled w = true) (n_sq n)) ++ done_ids (n_cq n).
Definition out {N} (comps : list (Z * Z)) (q : RdmaQueue N) : list Z := done_ids comps ++ done_ids (rq_staged q) ++ owed (rq_nic q).

Lemma done_ids_app a b : done_ids (a ++ b) = done_ids a ++ done_ids b.
Proof. apply omap_app. Qed.

(** What an error leaves: the slots in order, the tasks undisturbed. *)
Definition broken q0 q : Prop := base q /\ calm q0 q.

Lemma acct_broken q0 ids wait hand sent q : acct q0 ids wait hand sent q -> broken q0 q.
Proof. intros []. by split. Qed.

Lemma due_lows ids ids' t : (forall k, lows k ids ≡ₚ lows k ids') -> due ids t = due ids' t.
Proof. intros Hp. unfold due. f_equal. apply (Permutation_count_occ Z.eq_dec). by rewrite !Hp. Qed.

Lemma acct_lows q0 ids ids' wait hand sent q :
  (forall k, lows k ids ≡ₚ lows k ids') -> acct q0 ids wait hand sent q -> acct q0 ids' wait hand sent q.
Proof.
  intros Hp []. split; try done.
  - unfold recv_bufs. by rewrite <- Hp.
  - unfold recv_bufs. by rewrite <- Hp.
  - unfold read_tags. by rewrite <- Hp.
  - unfold read_tags. by rewrite <- Hp.
  - eapply list.Forall_impl; [exact rk_sent0|]. intros r (s & n & H1 & H2 & H3 & H4). exists s, n. by rewrite <- (due_lows ids ids').
  - intros t Ht. apply rk_due0. by rewrite !Hp.
Qed.

Lemma acct_perm q0 ids ids' wait hand sent q : ids ≡ₚ ids' -> acct q0 ids wait hand sent q -> acct q0 ids' wait hand sent q.
Proof. intros Hp. apply acct_lows. intros k. by rewrite Hp. Qed.

(** Fields the invariant does not speak about. *)
Lemma acct_nic q0 ids wait hand sent n q : acct q0 ids wait hand sent q -> acct q0 ids wait hand sent (set_nic n q).
Proof. intros []. by split. Qed.

Lemma acct_side q0 ids wait hand sent wr st wk wo t q : acct q0 ids wait hand sent q -> acct q0 ids wait hand sent (set_side wr st wk wo t q).
Proof. intros []. by split. Qed.

Lemma calm_nic q n : calm q (set_nic n q).
Proof. by apply calm_same. Qed.

(** A completion that is no response's is taken. *)
Lemma acct_forget q0 x ids wait hand sent q :
  lows KWrite [x] = [] -> lows KSend [x] = [] -> acct q0 (x :: ids) wait hand sent q -> acct q0 ids wait hand sent q.
Proof.
  intros Hw Hs []. assert (forall k, lows k (x :: ids) = lows k [x] ++ lows k ids) as Hl by (intros k; apply (lows_app k [x])).
  unfold recv_bufs, read_tags in *. rewrite Hl in rk_recvs0, rk_range0, rk_reads0, rk_reading0. rewrite <- app_assoc in *.
  apply list.NoDup_app in rk_recvs0 as (_ & _ & N1). apply list.NoDup_app in rk_reads0 as (_ & _ & N2).
  apply list.Forall_app in rk_range0 as [_ N3], rk_reading0 as [_ N4]. split; try done.
  - eapply list.Forall_impl; [exact rk_sent0|]. intros r (s & n & H1 & H2 & H3 & H4). exists s, n. split_and!; try done.
    rewrite H3. f_equal. unfold due. by rewrite (Hl KWrite), (Hl KSend), Hw, Hs.
  - intros t. specialize (rk_due0 t). by rewrite (Hl KWrite), (Hl KSend), Hw, Hs in rk_due0.
Qed.

(** The slots of the responses. *)
Lemma answering q0 ids wait hand sent q r :
  acct q0 ids wait hand sent q -> r ∈ work (rq_responses q) ++ hand ++ sent ->
  exists s, slots (arr q) !! Z.to_nat (rr_tag r) = Some s /\ state s = Responding.
Proof.
  intros Ha Hr. assert (Z.to_nat (rr_tag r) ∈ (resp_view (arr q)).*1) as Hin.
  { rewrite (rk_resp _ _ _ _ _ _ Ha). apply (proj2 (list_elem_of_fmap (fun r => Z.to_nat (rr_tag r)) _ _)). by exists r. }
  apply list_elem_of_fmap in Hin as ([j cid] & Heq & Hin). apply elem_of_view in Hin as (i & s & Hi & Hs & Hst & _). cbn in *.
  exists s. by rewrite Heq, Hi.
Qed.

(** What a slot operation leaves alone. *)
Definition store q := (rq_recv_buf q, rq_resp_buf q, rq_nslots q, rq_pending_read q, rq_read_batch q, rq_parked q).

(** One slot moves, and the responses with it. *)
Lemma acct_core q0 q0' ids ids' wait hand sent sent' q q' i s s' :
  acct q0 ids wait hand sent q -> store q' = store q -> length (rq_inflight q') = length (rq_inflight q) ->
  lows KRecv ids' = lows KRecv ids -> lows KRead ids' = lows KRead ids ->
  slots (arr q) !! i = Some s ->
  slots (arr q') = <[i := s']> (slots (arr q)) -> nslots (arr q') = nslots (arr q) -> base q' -> calm q0' q' ->
  (length (segs (data s')) <= MAX_SEGS)%nat -> cmd_fits (cmd s') ->
  (state s = Receiving -> state s' = Receiving \/ Z.of_nat i ∉ read_tags ids wait q) ->
  (state s = Receiving -> data_len s' = data_len s \/ Z.of_nat i ∉ map (fun x => x.1.1) wait) ->
  (resp_view (arr q')).*1 ≡ₚ map (fun r => Z.to_nat (rr_tag r)) (work (rq_responses q') ++ hand ++ sent') ->
  Forall resp_ok (work (rq_responses q') ++ hand ++ sent') ->
  Forall (posted ids' q') sent' -> (forall t, t ∈ lows KWrite ids' ++ lows KSend ids' -> t ∈ map rr_tag sent') -> Forall (staged_cqe q) sent' ->
  acct q0' ids' wait hand sent' q'.
Proof.
  intros Ha Hst Hlen Hl1 Hl2 Hi Hsl Hn Hb Hcalm Hsh Hcf Hrd Hdl Hv Hro Hpo Hdu Hcq.
  pose proof Ha as [A1 A2 A3 A4 A5 AW A6 A7 A8 A9 A10 A11 A12 A13 A14]. injection Hst as S1 S2 S3 S5 S6 S7.
  assert (forall j x, slots (arr q') !! j = Some x -> x = s' \/ slots (arr q) !! j = Some x) as Hcase.
  { intros j x. rewrite Hsl. destruct (decide (i = j)) as [<-|]; [|rewrite list_lookup_insert_ne by done; by right].
    rewrite list_lookup_insert_eq by (by eapply lookup_lt_Some). intros [= <-]. by left. }
  assert (read_tags ids' wait q' = read_tags ids wait q) as Hrt by (unfold read_tags; by rewrite S6, Hl2).
  assert (recv_bufs ids' wait q' = recv_bufs ids wait q) as Hrb by (unfold recv_bufs, held_bufs; by rewrite S7, Hl1).
  split; try done.
  - intros j x Hj. cbn in Hj. destruct (Hcase j x Hj) as [->|Hj']; [done|]. by apply (A3 j x).
  - unfold sizes in *. rewrite S1, S2, S3, S5, Hlen. destruct A4 as [H1 H2]. split; [congruence|exact H2].
  - unfold fits in *. rewrite S1, S3, S5, S6, S7. destruct A5 as [H1 H2]. split; [|exact H2].
    intros j x Hj. destruct (Hcase j x Hj) as [->|Hj']; [done|]. by apply (H1 j).
  - rewrite list.Forall_forall in AW. rewrite list.Forall_forall. intros x Hin. destruct (AW x Hin) as (y & Hy1 & Hy2). unfold waiting. rewrite Hsl.
    destruct (decide (i = Z.to_nat x.1.1)) as [He|]; [|exists y; by rewrite list_lookup_insert_ne].
    rewrite <- He in Hy1 |- *. rewrite Hi in Hy1. injection Hy1 as <-. exists s'. rewrite list_lookup_insert_eq by (by eapply lookup_lt_Some). split; [done|].
    assert (x.1.1 ∈ map (fun x => x.1.1) wait) as Hm by (apply (proj2 (list_elem_of_fmap (fun x => x.1.1) _ _)); by exists x).
    rewrite list.Forall_forall in A9. destruct (A9 x.1.1) as (H0 & z & Hz1 & Hz2); [unfold read_tags; rewrite !elem_of_app; by right; right|].
    rewrite <- He, Hi in Hz1. injection Hz1 as <-. destruct (Hdl Hz2) as [->|Hni]; [done|]. destruct Hni. by rewrite He, Z2Nat.id by lia.
  - by rewrite Hrb.
  - by rewrite Hrb, S3.
  - by rewrite Hrt.
  - rewrite Hrt. rewrite list.Forall_forall in A9. rewrite list.Forall_forall. intros t Ht. destruct (A9 t Ht) as (H0 & x & Hx1 & Hx2). split; [done|]. rewrite Hsl.
    destruct (decide (i = Z.to_nat t)) as [->|]; [|exists x; by rewrite list_lookup_insert_ne].
    rewrite Hi in Hx1. injection Hx1 as <-. exists s'. rewrite list_lookup_insert_eq by (by eapply lookup_lt_Some). split; [done|].
    destruct (Hrd Hx2) as [|Hni]; [done|]. destruct Hni. by rewrite Z2Nat.id by lia.
  - unfold staged_cqe in *. by rewrite S2.
Qed.

Lemma acct_slot q0 q0' ids wait hand sent q q' i s s' :
  acct q0 ids wait hand sent q -> store q' = store q -> rq_inflight q' = rq_inflight q -> slots (arr q) !! i = Some s ->
  slots (arr q') = <[i := s']> (slots (arr q)) -> nslots (arr q') = nslots (arr q) -> base q' -> calm q0' q' ->
  (length (segs (data s')) <= MAX_SEGS)%nat -> cmd_fits (cmd s') ->
  (state s = Receiving -> state s' = Receiving \/ Z.of_nat i ∉ read_tags ids wait q) ->
  (state s = Receiving -> data_len s' = data_len s \/ Z.of_nat i ∉ map (fun x => x.1.1) wait) ->
  (state s = Responding -> segs (data s') = segs (data s)) ->
  (resp_view (arr q')).*1 ≡ₚ map (fun r => Z.to_nat (rr_tag r)) (work (rq_responses q') ++ hand ++ sent) ->
  Forall resp_ok (work (rq_responses q')) ->
  acct q0' ids wait hand sent q'.
Proof.
  intros Ha Hst Hfl Hi Hsl Hn Hb Hcalm Hsh Hcf Hrd Hdl Hsg Hv Hro. pose proof Ha as [A1 A2 A3 A4 A5 AW A6 A7 A8 A9 A10 A11 A12 A13 A14].
  eapply (acct_core q0 q0' ids ids wait hand sent sent q q' i s s'); try done.
  - by rewrite Hfl.
  - apply list.Forall_app in A11 as [_ H]. by apply list.Forall_app.
  - rewrite list.Forall_forall in A12. rewrite list.Forall_forall. intros r Hin. destruct (A12 r Hin) as (x & n & H1 & H2 & H3 & H4).
    unfold posted. rewrite Hfl, Hsl. destruct (decide (i = Z.to_nat (rr_tag r))) as [He|]; [|exists x, n; by rewrite list_lookup_insert_ne].
    destruct (answering _ _ _ _ _ _ r Ha) as (y & Hy & Hys); [rewrite !elem_of_app; by right; right|].
    rewrite <- He in *. rewrite Hi in Hy, H1. injection Hy as <-. injection H1 as <-. exists s', n.
    rewrite list_lookup_insert_eq by (by eapply lookup_lt_Some). split_and!; try done. rewrite H3. unfold lost. by rewrite (Hsg Hys).
Qed.

(** A slot moves that is neither executing nor being answered. *)
Lemma acct_move q0 ids wait hand sent q a i s s' :
  acct q0 ids wait hand sent q -> slots (arr q) !! i = Some s -> slots a = <[i := s']> (slots (arr q)) ->
  nslots a = nslots (arr q) -> conn_ok (c_slots a (conn_of q)) ->
  state s <> Executing -> state s' <> Executing -> state s <> Responding -> state s' <> Responding ->
  (length (segs (data s')) <= MAX_SEGS)%nat -> cmd_fits (cmd s') ->
  (state s = Receiving -> state s' = Receiving \/ Z.of_nat i ∉ read_tags ids wait q) ->
  (state s = Receiving -> data_len s' = data_len s \/ Z.of_nat i ∉ map (fun x => x.1.1) wait) ->
  acct q0 ids wait hand sent (q_arr a q).
Proof.
  intros Ha Hi Hsl Hn Hc Hx Hx' Hr Hr' Hsh Hcf Hrd Hdl. pose proof Ha as [A1 A2 A3 A4 A5 AW A6 A7 A8 A9 A10 A11 A12 A13 A14].
  eapply (acct_slot q0 q0 ids wait hand sent q (q_arr a q) i s s'); try done.
  - by apply base_arr.
  - etrans; [exact A2|]. by eapply (calm_slot q _ i s s').
  - cbn. rewrite Hsl. pose proof (view_insert Responding 0 i _ s s' Hi) as Hv. unfold tagged in Hv. cbn in Hv.
    rewrite !decide_False, !app_nil_r in Hv by done. by rewrite Hv.
  - by apply list.Forall_app in A11 as [H _].
Qed.

(** The slot's response is queued. *)
Lemma acct_answered q0 q0' ids wait hand sent q q' i s s' r :
  acct q0 ids wait hand sent q -> store q' = store q -> rq_inflight q' = rq_inflight q -> slots (arr q) !! i = Some s ->
  slots (arr q') = <[i := s']> (slots (arr q)) -> nslots (arr q') = nslots (arr q) -> base q' -> calm q0' q' ->
  (length (segs (data s')) <= MAX_SEGS)%nat -> cmd_fits (cmd s') ->
  Z.of_nat i ∉ read_tags ids wait q -> state s <> Responding -> state s' = Responding ->
  work (rq_responses q') = work (rq_responses q) ++ [r] -> rr_tag r = Z.of_nat i -> resp_ok r ->
  acct q0' ids wait hand sent q'.
Proof.
  intros Ha Hst Hfl Hi Hsl Hn Hb Hc Hsh Hcf Hni Hs Hs' Hw Ht Hr. eapply (acct_slot q0 q0' ids wait hand sent q q' i s s'); try done.
  - intros _. by right.
  - intros _. right. intros Hin. apply Hni. unfold read_tags. rewrite !elem_of_app. by right; right.
  - rewrite Hsl, Hw. pose proof (view_insert Responding 0 i _ s s' Hi) as Hv. unfold tagged in Hv. cbn in Hv.
    rewrite decide_False, decide_True, app_nil_r in Hv by done. rewrite Hv, fmap_app, (rk_resp _ _ _ _ _ _ Ha), !map_app. cbn. rewrite Ht, Nat2Z.id.
    solve_Permutation.
  - rewrite Hw. apply list.Forall_app. pose proof (rk_resps _ _ _ _ _ _ Ha) as Hrs. apply list.Forall_app in Hrs as [Hrs _]. split; [done|]. by apply list.Forall_singleton.
Qed.

(** ** Posting *)

Definition deferred q : list (Sqe * option Z) * list (Z * Sqe * option Z) := (rq_parked q, rq_pool_wait q).

(** The outcome of a step from [q], [comps] not yet dispatched. *)
Definition kept q0 (x : list Z) (comps : list (Z * Z)) (wait : Waits) (hand sent : list RdmaResp) q q' : Prop :=
  acct q0 (x ++ out comps q') wait hand sent q' /\ deferred q' = deferred q.

Lemma verb_ends {N} rq sq (q : RdmaQueue N) (Q : RdmaQueue N -> unit -> Prop) (R : RdmaQueue N -> RdmaError -> Prop) :
  (forall rcs, let n := rq_nic q in Q (set_nic (nic_set (n_rq n ++ rq) (n_sq n ++ sq) (n_cq n) (n_armed n) rcs) q) tt) ->
  (forall n e, R (set_nic n q) e) -> ends (verb rq sq) q Q R.
Proof.
  intros HQ HR. unfold verb. apply ends_get. cbn zeta. destruct (n_rcs (rq_nic q)) as [|rc rcs]; [apply HQ|].
  case_match; [apply HQ|]. apply HR.
Qed.

Lemma owed_posted rq sq n rcs :
  owed (nic_set (n_rq n ++ rq) (n_sq n ++ sq) (n_cq n) (n_armed n) rcs) ≡ₚ
  map rw_id rq ++ map wr_id (filter (fun w => wr_signaled w = true) sq) ++ owed n.
Proof.
  unfold owed. cbn. rewrite !map_app, list.filter_app, map_app. solve_Permutation.
Qed.

(** Work requests handed over leave the hand [x]. *)
Lemma posted_acct q0 x rq sq comps wait hand sent q rcs :
  let n := rq_nic q in
  let q' := set_nic (nic_set (n_rq n ++ rq) (n_sq n ++ sq) (n_cq n) (n_armed n) rcs) q in
  acct q0 (map rw_id rq ++ map wr_id (filter (fun w => wr_signaled w = true) sq) ++ x ++ out comps q) wait hand sent q ->
  acct q0 (x ++ out comps q') wait hand sent q'.
Proof.
  intros n q' H. apply acct_nic. eapply acct_perm; [|exact H]. unfold out, q'. cbn [rq_staged set_nic rq_nic].
  rewrite owed_posted. fold n. solve_Permutation.
Qed.

Lemma post_recv_ok q0 x comps wait hand sent q idx :
  acct q0 (wr_id_of KRecv idx :: x ++ out comps q) wait hand sent q ->
  ends (post_recv idx) q (fun q' _ => kept q0 x comps wait hand sent q q' /\ rq_nvme q' = rq_nvme q) (fun q' _ => broken q0 q').
Proof.
  intros H. unfold post_recv. apply ends_get. apply ends_bind. apply verb_ends.
  - intros rcs n. split; [|done]. split; [|done]. apply acct_side, acct_side.
    apply (posted_acct q0 x [recv_wr (rq_regions q) idx] [] comps wait hand sent q rcs). exact H.
  - intros n _. apply acct_broken in H as [H1 H2]. split; [done|]. etrans; [exact H2|]. apply calm_nic.
Qed.

(** ** Slots being received *)

Lemma try_lease_conn (c : Conn B) i s n :
  conn_ok c -> c_ring c = None -> slots (w_slots (c_world c)) !! i = Some s -> state s = Receiving -> 1 <= n -> data_len s <= n ->
  try_lease (Z.of_nat i) n (w_slots (c_world c)) = (w_slots (c_world c), Ok false) \/
  exists d a, try_lease (Z.of_nat i) n (w_slots (c_world c)) = (a, Ok true) /\ conn_ok (c_slots a c) /\
    slots a = <[i := SlotQ.with_data d s]> (slots (w_slots (c_world c))) /\ nslots a = nslots (w_slots (c_world c)) /\
    page_buf d n /\ is_pool d = true.
Proof.
  intros Hc Hring Hi Hs Hn Hl. pose proof Hc as [(rss & res & Ha) _ _ Hb _ _]. pose proof (ok_pool _ _ _ Ha) as Hp. pose proof Hp as (Hwf & _).
  set (a := w_slots (c_world c)) in *. unfold try_lease, on_pool, mbind, M_bind.
  destruct (alloc_part _ _ _ _ n Hp) as [He|(p' & d & rs & He & Hip & Hls & Hp' & _)]; rewrite He.
  { left. by destruct a. }
  right. exists d. assert (slot_holds p' d rs) as Hh by (unfold slot_holds; by rewrite Hip).
  destruct (set_data_ok a rss rs res i s d p' Ha Hi ltac:(congruence) Hp' Hh) as (a' & Hset & Ha' & Hsl & _ & _ & _ & Hns).
  pose proof (alloc_len _ _ _ _ Hwf He) as Hlen. pose proof (pages_for_bytes n).
  destruct (lease_page_buf _ _ _ _ _ _ Hp' Hls (alloc_length _ _ _ _ He)) as (P1 & P2 & _ & P4 & P5).
  assert (page_buf d n) as Hpb by (split_and!; try done; lia).
  assert (owner d = OPool) as Hod by (unfold is_pool in Hip; by destruct (owner d)).
  exists a'. rewrite Hset. split; [done|]. split; [|by split_and!].
  destruct (install_buf (E := never) c i s d (fun a => set_data (Z.of_nat i) d (set_pool p' a)) a' (fun _ => 0%nat)) as (o & _ & Hok & Hio); try done.
  - exact (set_data_events (set_pool p' a) i s d a' Hi Hset).
  - by exists (<[i := rs]> rss), res.
  - destruct (Hb _ _ Hi) as (_ & Hr & Hw & _). destruct (Hr Hs) as (H1 & H2 & H3).
    split; [done|]. split; [intros _; cbn; lia|]. split; [done|]. split; [cbn; by rewrite Hod|].
    intros _. split; [cbn; lia|]. split; [done|]. split; [done|]. by left.
  - intros b. by rewrite borrows_other by (rewrite Hod; done).
  - intros b. by rewrite Hod.
  - rewrite Hring in Hio. destruct o as [r|]; [by destruct (proj1 Hio (ex_intro _ r eq_refl))|].
    revert Hok. by destruct c; cbn in *; subst.
Qed.

Definition sized (n : Z) (d : SlotData) s : Slot Sqe := with_data_len n (SlotQ.with_data d s).

(** The lease and the length of a command with data. *)
Lemma lease_step q0 ids wait hand sent q i s n :
  acct q0 ids wait hand sent q -> slots (arr q) !! i = Some s -> state s = Receiving -> 1 <= n <= MDTS_BYTES ->
  data_len s = 0 -> Z.of_nat i ∉ map (fun x => x.1.1) wait ->
  slots_do (try_lease (Z.of_nat i) n) q = (q, Ok false) \/
  exists d a1 a2, slots_do (try_lease (Z.of_nat i) n) q = (q_arr a1 q, Ok true) /\
    slots_do (set_data_len (Z.of_nat i) (wrap 32 n)) (q_arr a1 q) = (q_arr a2 q, Ok tt) /\
    acct q0 ids wait hand sent (q_arr a2 q) /\ slots a2 = <[i := sized n d s]> (slots (arr q)) /\ page_buf d n /\ is_pool d = true.
Proof.
  intros Ha Hi Hs Hn Hd Hni. pose proof (proj1 (rk_base _ _ _ _ _ _ Ha)) as Hc. unfold MDTS_BYTES in Hn.
  destruct (try_lease_conn (conn_of q) i s n Hc eq_refl Hi Hs) as [He|(d & a1 & He & Hc1 & Hsl & Hns & Hpb & Hp)]; [lia|lia| |].
  { left. apply slots_do_eq in He. by change (w_slots (c_world (conn_of q))) with (arr q) in He; rewrite q_arr_same in He. }
  right. rewrite wrap_small by (unfold in_u; lia).
  assert (slots a1 !! i = Some (SlotQ.with_data d s)) as Hi1 by (rewrite Hsl; apply list_lookup_insert_eq; by eapply lookup_lt_Some).
  pose proof (touch_eq (E := never) (c_slots a1 (conn_of q)) i _ (with_data_len n) Hi1) as Ht.
  set (a2 := moved a1 i (sized n d s) (free_tags a1) (executing a1) (tag_waiter a1) (events a1)).
  exists d, a1, a2. split; [by apply slots_do_eq|]. split.
  { rewrite (slots_do_eq _ _ a2 tt); [done|]. unfold set_data_len, slot, set_slot, mbind, M_bind, get, lift, modify, expect.
    cbn. rewrite Nat2Z.id, Hi1. unfold upd_slots, a2, moved. cbn. by rewrite (alter_insert_at _ _ _ _ Hi1). }
  assert (slots a2 = <[i := sized n d s]> (slots (arr q))) as Hs2 by (unfold a2, moved; cbn; by rewrite Hsl, list_insert_insert_eq).
  split; [|by split_and!]. pose proof (ck_bufs _ _ Hc _ _ Hi) as (_ & Hr & Hw & _). destruct (Hr Hs) as (R1 & _).
  pose proof Hpb as (P1 & P2 & P3 & P4 & P5).
  assert (conn_ok (c_slots a2 (conn_of q))) as Hc2.
  { pose proof (put_ok (fun _ => 0%nat) (c_slots a1 (conn_of q)) i (SlotQ.with_data d s) (sized n d s) []) as Hput.
    unfold put_slot in Hput. cbn in Hput. rewrite app_nil_r in Hput. apply Hput; try done; [by rewrite Hs..|].
    assert (owner d <> OEmpty) by (unfold is_pool in Hp; by destruct (owner d)).
    split; [done|]. split; [intros _; cbn; unfold MDTS_BYTES; lia|]. split; [done|]. split; [by intros|]. intros _. split; [cbn; lia|]. split; [done|]. split; [done|]. by left. }
  eapply (acct_move _ _ _ _ _ q a2 i s (sized n d s)); try done; try by rewrite Hs.
  - cbn. by rewrite Hs.
  - cbn. by rewrite Hs.
  - by apply (rk_fits _ _ _ _ _ _ Ha) in Hi.
  - intros _. by left.
  - intros _. by right.
Qed.

Lemma submit_step q0 ids wait hand sent q i s x :
  acct q0 ids wait hand sent q -> slots (arr q) !! i = Some s -> state s = Receiving -> cmd_fits x ->
  Z.of_nat i ∉ read_tags ids wait q ->
  exists a, slots_do (submit (Z.of_nat i) x) q = (q_arr a q, Ok tt) /\ acct q0 ids wait hand sent (q_arr a q) /\
    slots a = <[i := ready x s]> (slots (arr q)).
Proof.
  intros Ha Hi Hs Hx Hni. pose proof (proj1 (rk_base _ _ _ _ _ _ Ha)) as Hc.
  eexists. split; [apply slots_do_eq; by apply (submit_eq (arr q) i s x)|]. split; [|done].
  pose proof (ck_bufs _ _ Hc _ _ Hi) as (B1 & B2 & B3 & B4 & B5).
  eapply (acct_move _ _ _ _ _ q _ i s (ready x s)); try done; try by rewrite Hs.
  - apply (put_ok (fun _ => 0%nat) (conn_of q) i s (ready x s) (wake (waker s))); try done.
    split; [done|]. split; [done|]. split; [apply Hx|]. split; [done|]. intros _. apply B5. by left.
  - by apply (rk_short _ _ _ _ _ _ Ha i s).
  - intros _. by right.
  - intros _. by left.
Qed.

Lemma free_not_reading q0 ids wait hand sent q i s :
  acct q0 ids wait hand sent q -> slots (arr q) !! i = Some s -> state s <> Receiving -> Z.of_nat i ∉ read_tags ids wait q.
Proof.
  intros Ha Hi Hs Hin. pose proof (rk_reading _ _ _ _ _ _ Ha) as Hr. rewrite list.Forall_forall in Hr.
  destruct (Hr _ Hin) as (_ & x & Hx & Hxs). rewrite Nat2Z.id, Hi in Hx. by injection Hx as <-.
Qed.

Lemma claim_step q0 ids wait hand sent q :
  acct q0 ids wait hand sent q ->
  slots_do claim_tag q = (q, Ok None) \/
  exists i s a, slots_do claim_tag q = (q_arr a q, Ok (Some (Z.of_nat i))) /\ acct q0 ids wait hand sent (q_arr a q) /\
    slots a !! i = Some s /\ state s = Receiving /\ data_len s = 0 /\ Z.of_nat i ∉ read_tags ids wait q.
Proof.
  intros Ha. pose proof (proj1 (rk_base _ _ _ _ _ _ Ha)) as Hc.
  destruct (claim_conn_ok (conn_of q) Hc) as [[_ He]|(i & s & Hi & Hst & He & Hok)].
  { left. apply slots_do_eq in He. by change (w_slots (c_world (conn_of q))) with (arr q) in He; rewrite q_arr_same in He. }
  right. eexists i, _, _. split; [by apply slots_do_eq|]. pose proof (free_not_reading _ _ _ _ _ q i s Ha Hi ltac:(by rewrite Hst)) as Hni.
  split; [|split; [cbn; apply list_lookup_insert_eq; by eapply lookup_lt_Some|done]].
  eapply (acct_move _ _ _ _ _ q _ i s); try done; try by rewrite Hst.
  - by apply (rk_short _ _ _ _ _ _ Ha i s).
  - by apply (rk_fits _ _ _ _ _ _ Ha) in Hi.
Qed.

(** The response [r] joins the list. *)
Lemma base_resp q q' r :
  both_ok (c_set_world (rq_nvme q') (conn_of q)) -> work (rq_responses q') = work (rq_responses q) ++ [r] -> 0 <= rr_tag r -> base q'.
Proof.
  intros [[H1 H2 H3 H4 H5 H6] Hw] He Hr. split; [|exact Hw]. split; try done. cbn. rewrite He, map_app. apply list.Forall_app. split; [exact H6|].
  by apply list.Forall_singleton.
Qed.

Lemma fail_recv_ok q0 x comps wait hand sent q i s sqe code :
  acct q0 (x ++ out comps q) wait hand sent q -> slots (arr q) !! i = Some s -> state s = Receiving -> cmd_fits sqe ->
  Z.of_nat i ∉ read_tags (x ++ out comps q) wait q ->
  ends (fail_recv (Z.of_nat i) sqe code) q (fun q' _ => kept q0 x comps wait hand sent q q') (fun _ _ => False).
Proof.
  intros Ha Hi Hs Hf Hni. pose proof (rk_base _ _ _ _ _ _ Ha) as [Hc Hw]. unfold fail_recv.
  pose proof (ck_bufs _ _ Hc _ _ Hi) as (B1 & B2 & B3 & B4 & B5). set (s' := with_state Responding s).
  eapply ends_step; [apply slots_do_eq; by apply (respond_receiving_eq (arr q) i s)|].
  match goal with |- ends _ (q_arr ?b q) _ _ => set (a := b) end.
  assert (conn_ok (c_slots a (conn_of q))) as Hc1.
  { pose proof (put_ok (fun _ => 0%nat) (conn_of q) i s s' []) as Hput. unfold put_slot in Hput. cbn in Hput. rewrite app_nil_r in Hput.
    apply Hput; try done. split; [done|]. split; [done|]. split; [exact B3|]. split; [exact B4|]. by intros []. }
  pose proof (base_arr q a (rk_base _ _ _ _ _ _ Ha) Hc1) as [Hb1 Hw1].
  destruct (complete_runs (rq_nvme (q_arr a q)) 0 (sqe_cid sqe) code Hw1) as (w' & o & He & (Hcore & Hw2 & Hsz) & Hrep).
  eapply ends_step; [unfold on_nvme; rewrite He; reflexivity|].
  assert (sqsize (w_core w') = sqsize (w_core (rq_nvme q))) as Hsq.
  { pose proof (complete_touched 0 0 (sqe_cid sqe) code (rq_nvme (q_arr a q))) as (_ & Hsq & _). by rewrite He in Hsq. }
  set (r := {| rr_tag := Z.of_nat i; rr_cmd := sqe; rr_outcome := o |}).
  assert (resp_ok r) as Hr by (split; [cbn; lia|]; split; [done|]; cbn; destruct Hrep as (Hcid & _); exact Hcid).
  unfold push_response, modify, ends. cbn. split; [|done].
  eapply (acct_answered q0 q0 _ wait hand sent q _ i s s' r); try done; try by rewrite Hs.
  - cbn. by rewrite Hcore.
  - cbn. by rewrite Hcore.
  - eapply (base_resp q _ r); [|done|cbn; lia]. split; [|exact Hw2]. cbn. rewrite Hcore.
    exact (core_ok_conn _ (w_core w') (c_slots a (conn_of q)) Hc1 (wk_core _ Hw2) Hsq).
  - etrans; [apply (rk_calm _ _ _ _ _ _ Ha)|]. eapply (calm_slot q _ i s s'); try done; try (cbn; by rewrite Hcore). by rewrite Hs.
  - by apply (rk_short _ _ _ _ _ _ Ha i s).
  - by apply (rk_fits _ _ _ _ _ _ Ha) in Hi.
Qed.

(** ** Response completions *)

Lemma tags_distinct q0 ids wait hand sent q :
  acct q0 ids wait hand sent q -> NoDup (map (fun r => Z.to_nat (rr_tag r)) (work (rq_responses q) ++ hand ++ sent)).
Proof. intros Ha. rewrite <- (rk_resp _ _ _ _ _ _ Ha). apply view_NoDup. Qed.

Lemma sent_distinct q0 ids wait hand l1 r l2 q r' :
  acct q0 ids wait hand (l1 ++ r :: l2) q -> r' ∈ l1 ++ l2 -> Z.to_nat (rr_tag r') <> Z.to_nat (rr_tag r).
Proof.
  intros Ha Hin He. pose proof (tags_distinct _ _ _ _ _ _ Ha) as Hn.
  assert (work (rq_responses q) ++ hand ++ l1 ++ r :: l2 ≡ₚ r :: work (rq_responses q) ++ hand ++ l1 ++ l2) as Hp by solve_Permutation.
  rewrite Hp in Hn. cbn in Hn. apply list.NoDup_cons in Hn as [Hn _]. apply Hn. rewrite <- He.
  apply (proj2 (list_elem_of_fmap (fun r => Z.to_nat (rr_tag r)) _ _)). exists r'. split; [done|]. rewrite !elem_of_app in *. tauto.
Qed.

Lemma due_cons k id ids t u :
  (k = KWrite \/ k = KSend) -> low_of k id = Some t -> due (id :: ids) u = due ids u + (if decide (u = t) then 1 else 0).
Proof.
  intros Hk Hl. unfold due. rewrite !(lows_cons _ id ids), !(lows_of k _ id t Hl), !count_occ_app.
  destruct Hk as [->| ->]; repeat (case_decide; try done); cbn; destruct (Z.eq_dec t u); subst; try done; lia.
Qed.

(** A completion of the response of slot [t]; the last one releases the slot. *)
Lemma response_done_ok q0 x comps wait hand sent q k id t :
  (k = KWrite \/ k = KSend) -> low_of k id = Some t -> acct q0 (id :: x ++ out comps q) wait hand sent q ->
  ends (on_response_done (@on_slots B) t) q (fun q' _ => exists sent', kept q0 x comps wait hand sent' q q') (fun _ _ => False).
Proof.
  intros Hk Hl Ha. pose proof Ha as [A1 A2 A3 A4 A5 AW A6 A7 A8 A9 A10 A11 A12 A13 A14]. set (ids := x ++ out comps q) in *.
  assert (forall u, u ∈ lows KWrite ids ++ lows KSend ids \/ u = t -> u ∈ map rr_tag sent) as Hdu.
  { intros u Hu. apply A13. rewrite !(lows_cons _ id ids), !(lows_of k _ id t Hl). rewrite !elem_of_app in *.
    destruct Hk as [->| ->]; repeat (case_decide; try done); rewrite list_elem_of_singleton; tauto. }
  destruct (proj1 (list_elem_of_fmap rr_tag sent t) (Hdu t (or_intror eq_refl))) as (r & Hrt & Hr).
  apply list_elem_of_split in Hr as (l1 & l2 & ->). subst t. set (t := rr_tag r) in *.
  assert (posted (id :: ids) q r) as (s & n & P1 & P2 & P3 & P4) by (rewrite list.Forall_forall in A12; apply A12; rewrite elem_of_app; right; left).
  fold t in P1, P2, P3. rewrite (due_cons k id ids t t Hk Hl), decide_True in P3 by done.
  destruct (answering _ _ _ _ _ _ r Ha) as (s0 & Hs0 & Hst); [rewrite !elem_of_app; right; right; right; left|]. fold t in Hs0. rewrite P1 in Hs0. injection Hs0 as <-.
  assert (resp_ok r) as (Ht0 & _) by (rewrite list.Forall_forall in A11; apply A11; rewrite !elem_of_app; right; right; right; left). fold t in Ht0.
  assert (forall k', lows k' (id :: ids) = lows k' [id] ++ lows k' ids) as Hlc by (intros; apply lows_cons).
  assert (lows KRecv ids = lows KRecv (id :: ids) /\ lows KRead ids = lows KRead (id :: ids)) as [Hl1 Hl2].
  { rewrite !Hlc, !(lows_of k _ id t Hl). by destruct Hk as [->| ->]. }
  assert (0 <= due ids t) as Hd0 by (unfold due; lia). assert (0 <= lost r s) as Hlo by (unfold lost; case_decide; lia).
  assert (forall inf a, (forall j, j <> Z.to_nat t -> inf !! j = rq_inflight q !! j) -> (forall j, j <> Z.to_nat t -> slots a !! j = slots (arr q) !! j) ->
    Forall (posted ids (q_arr a (set_work inf (rq_responses q) (rq_pending_read q) (rq_read_batch q) q))) (l1 ++ l2)) as Hoth.
  { intros inf a Hinf Hsl. rewrite list.Forall_forall. intros r' Hr'. pose proof (sent_distinct _ _ _ _ _ _ _ _ r' Ha Hr') as Hne. fold t in Hne.
    rewrite list.Forall_forall in A12. destruct (A12 r') as (s' & n' & Q1 & Q2 & Q3 & Q4); [rewrite elem_of_app in *; destruct Hr'; [by left|by right; right]|].
    exists s', n'. cbn. rewrite Hinf, Hsl by done. rewrite (due_cons k id ids t _ Hk Hl), decide_False in Q3 by (intros He; by rewrite He in Hne). split_and!; try done. lia. }
  unfold on_response_done. apply ends_get. eapply ends_step; [unfold lift, expect; rewrite P2; reflexivity|]. cbn zeta.
  rewrite (Z.max_r 0 (n - 1)) by lia. set (inf := <[Z.to_nat t := n - 1]> (rq_inflight q)).
  eapply ends_step; [reflexivity|]. set (q1 := set_work inf (rq_responses q) (rq_pending_read q) (rq_read_batch q) q).
  assert (forall j, j <> Z.to_nat t -> inf !! j = rq_inflight q !! j) as Hinf by (intros; unfold inf; by rewrite list_lookup_insert_ne).
  destruct (Z.eqb_spec (n - 1) 0) as [Hz|Hz].
  - destruct (ck_slots _ _ (proj1 A1)) as (rss & res & Hok). pose proof Hok as [[Hn16 Hlen] _ _ _ _ _ _ _].
    pose proof (lookup_lt_Some _ _ _ P1) as Hlt. unfold in_u in Hn16. cbn in Hn16, Hlen.
    assert (wrap 16 t = Z.of_nat (Z.to_nat t)) as -> by (rewrite wrap_small; unfold in_u; lia). set (i := Z.to_nat t) in *.
    destruct (release_ok _ _ _ i s Hok P1 Hst) as (a' & s' & He & Ha' & _ & _ & _ & _ & _ & Hns).
    destruct (release_slot_eq (arr q) i s a' P1 He) as (Hsl & evs & Hev & Hring). set (s1 := with_state Free _) in Hsl.
    assert (ring_of (data s) = []) as Hro by (unfold ring_of; destruct (owner (data s)) eqn:Hw; try done; by destruct (ck_ring _ _ (proj1 A1) i s bid)).
    assert (conn_ok (c_slots a' (conn_of q))) as Hc1.
    { destruct (settle_ok (E := never) (conn_of q) (set_slots a' (rq_nvme q)) i s s1 evs (proj1 A1) P1 Ha' Hns Hsl) as (o & _ & Hck & Hio); try done.
      - apply (ck_core _ _ (proj1 A1)).
      - pose proof (ck_bufs _ _ (proj1 A1) _ _ P1) as (_ & _ & Hwf & _). split; [done|]. split; [done|]. split; [done|]. split; [done|]. by intros [].
      - right. by rewrite Hring.
      - destruct o as [ring|]; [by destruct (proj1 Hio (ex_intro _ ring eq_refl)) as [? ?]|exact Hck]. }
    eapply ends_eq; [apply (slots_do_eq _ q1 a' tt He)|]. exists (l1 ++ l2). split; [|done].
    eapply (acct_core q0 q0 (id :: ids) ids wait hand (l1 ++ r :: l2) (l1 ++ l2) q (q_arr a' q1) i s s1); try done; try by rewrite Hst.
    + apply length_insert.
    + exact (base_arr q a' A1 Hc1).
    + etrans; [exact A2|]. eapply (calm_slot q _ i s s1); try done. by rewrite Hst.
    + vm_compute. lia.
    + by apply A5 in P1.
    + cbn. rewrite Hsl. pose proof (view_insert Responding 0 i _ s s1 P1) as Hv. unfold tagged in Hv. cbn in Hv.
      rewrite decide_True, decide_False, app_nil_r in Hv by done. apply (fmap_Permutation fst) in Hv. rewrite fmap_app, A10 in Hv. cbn in Hv.
      apply (Permutation_app_inv_r [i]). rewrite Hv, !map_app. cbn. fold t. fold i. solve_Permutation.
    + rewrite !list.Forall_app, list.Forall_cons in *. tauto.
    + apply Hoth; [exact Hinf|]. intros j Hj. rewrite Hsl. by rewrite list_lookup_insert_ne.
    + intros u Hu. assert (u <> t) as Hne.
      { intros ->. assert (due ids t = 0) as Hd by lia. unfold due in Hd. apply (count_occ_not_In Z.eq_dec (lows KWrite ids ++ lows KSend ids) t); [lia|by apply list_elem_of_In]. }
      specialize (Hdu u (or_introl Hu)). rewrite map_app in *. cbn in Hdu. rewrite elem_of_app, elem_of_cons in Hdu. rewrite elem_of_app. fold t in Hdu. tauto.
    + rewrite !list.Forall_app, list.Forall_cons in A14. apply list.Forall_app. tauto.
  - apply ends_ret. exists (l1 ++ r :: l2). split; [|done].
    assert (q_arr (arr q) q1 = q1) as Hq1 by (unfold q1; by destruct q as [[]]).
    eapply (acct_core q0 q0 (id :: ids) ids wait hand (l1 ++ r :: l2) (l1 ++ r :: l2) q q1 (Z.to_nat t) s s); try done; try by rewrite Hst.
    + apply length_insert.
    + cbn. by rewrite list_insert_id.
    + by apply A3 in P1.
    + by apply A5 in P1.
    + specialize (Hoth inf (arr q) Hinf (fun _ _ => eq_refl)). fold q1 in Hoth. rewrite Hq1 in Hoth. rewrite !list.Forall_app, list.Forall_cons in *. split; [tauto|]. split; [|tauto].
      exists s, (n - 1). cbn. fold t. unfold inf. rewrite list_lookup_insert_eq by (by eapply lookup_lt_Some). split_and!; try done; lia.
    + intros u Hu. apply Hdu. by left.
Qed.

(** ** Staging *)

Lemma acct_mem q0 ids wait hand sent q m :
  acct q0 ids wait hand sent q -> acct q0 ids wait hand sent (set_nvme (set_store (w_backends (rq_nvme q)) m (rq_nvme q)) q).
Proof. intros [[H1 H2] ??????????????]. split; try done. split; [by destruct H1|by destruct H2]. Qed.

Lemma recv_slice_eq q0 ids wait hand sent q idx :
  acct q0 ids wait hand sent q -> 0 <= idx < rq_nslots q ->
  recv_slice (N := World B) idx q = (q, Ok (bytes_at (rq_recv_buf q) (Z.to_nat idx * CAPSULE_LEN) CAPSULE_LEN)) /\
  length (bytes_at (rq_recv_buf q) (Z.to_nat idx * CAPSULE_LEN) CAPSULE_LEN) = CAPSULE_LEN.
Proof.
  intros Ha Hi. destruct (rk_sizes _ _ _ _ _ _ Ha) as (_ & Hl & _). remember CAPSULE_LEN as C. assert (Z.to_nat idx * C + C <= length (rq_recv_buf q))%nat as Hle by nia.
  split; [|unfold bytes_at; rewrite length_take, length_drop; lia].
  unfold recv_slice. rewrite get_bind. rewrite <- HeqC. unfold assert. apply Nat.leb_le in Hle. cbv zeta. rewrite Hle. done.
Qed.

(** The capsule buffer in hand names a buffer. *)
Lemma hand_range q0 idx ids wait hand sent q :
  acct q0 (wr_id_of KRecv idx :: ids) wait hand sent q -> in_u 32 idx -> 0 <= idx < rq_nslots q.
Proof.
  intros Ha Hu. pose proof (rk_range _ _ _ _ _ _ Ha) as Hr. unfold recv_bufs in Hr. rewrite lows_cons, lows_id, decide_True in Hr by done.
  cbn in Hr. by apply list.Forall_cons in Hr as [Hr _].
Qed.

Lemma read_tags_recv idx ids wait q : in_u 32 idx -> read_tags (wr_id_of KRecv idx :: ids) wait q = read_tags ids wait q.
Proof. intros Hu. unfold read_tags. by rewrite lows_cons, lows_id, decide_False by done. Qed.

(** The payload of capsule buffer [idx]. *)
Definition payload_at q (idx off len : Z) : bytes :=
  bytes_at (rq_recv_buf q) (Z.to_nat idx * CAPSULE_LEN + SQE_LEN + Z.to_nat off) (Z.to_nat len).

Lemma stage_inline_ok q0 x comps wait hand sent q i s sqe idx off len :
  acct q0 (wr_id_of KRecv idx :: x ++ out comps q) wait hand sent q -> in_u 32 idx ->
  slots (arr q) !! i = Some s -> state s = Receiving -> data_len s = 0 -> Z.of_nat i ∉ read_tags (x ++ out comps q) wait q ->
  cmd_fits sqe -> 0 <= off -> 0 < len -> off + len <= Z.of_nat ICD_LEN ->
  ends (try_stage_inline (Z.of_nat i) sqe idx off len) q
    (fun q' b => if b : bool
       then kept q0 x comps wait hand sent q q' /\ exists s', slots (arr q') !! i = Some s' /\ state s' = Ready /\ cmd s' = sqe /\
         data_len s' = len /\ take (Z.to_nat len) (flat (w_mem (rq_nvme q')) (segs (data s'))) = payload_at q idx off len
       else q' = q) (fun q' _ => broken q0 q').
Proof.
  intros Ha Hu Hi Hs Hd Hni Hf Ho Hl Hb. pose proof (hand_range _ _ _ _ _ _ _ Ha Hu) as Hidx.
  assert (Z.of_nat ICD_LEN <= MDTS_BYTES) as Hicd by (by vm_compute).
  assert (Z.of_nat i ∉ map (fun x => x.1.1) wait) as Hnw.
  { intros Hin. apply Hni. unfold read_tags. rewrite !elem_of_app. by right; right. }
  unfold try_stage_inline.
  destruct (lease_step q0 _ wait hand sent q i s len Ha Hi Hs ltac:(lia) Hd Hnw) as [He|(d & a1 & a2 & He1 & He2 & Ha2 & Hs2 & Hpb & _)].
  { eapply ends_step; [exact He|]. by apply ends_ret. }
  eapply ends_step; [exact He1|]. cbn [negb]. eapply ends_step; [exact He2|].
  destruct (recv_slice_eq _ _ _ _ _ (q_arr a2 q) idx Ha2 Hidx) as [Hrs Hrl]. eapply ends_step; [exact Hrs|]. cbv zeta.
  assert (SQE_LEN + Z.to_nat off + Z.to_nat len <= CAPSULE_LEN)%nat as Hfit by (unfold CAPSULE_LEN; lia).
  eapply ends_step; [unfold lift, assert; rewrite Hrl, (proj2 (Nat.leb_le _ _) Hfit); reflexivity|].
  set (src := bytes_at _ _ (Z.to_nat len)).
  assert (src = payload_at q idx off len) as Hsrc.
  { unfold src, payload_at, bytes_at. change (rq_recv_buf (q_arr a2 q)) with (rq_recv_buf q). rewrite skipn_firstn_comm, drop_drop, take_take. f_equal; [lia|]. f_equal. lia. }
  set (s1 := sized len d s) in *.
  assert (slots a2 !! i = Some s1) as Hi2 by (rewrite Hs2; apply list_lookup_insert_eq; by eapply lookup_lt_Some).
  eapply ends_step; [rewrite (slots_do_eq _ _ a2 s1); [reflexivity|]; unfold slot, mbind, M_bind, get, lift, expect; cbn; by rewrite Nat2Z.id, Hi2|].
  eapply ends_step; [reflexivity|]. match goal with |- ends _ ?x _ _ => set (q2 := x) end.
  set (m := copy_segs (w_mem (rq_nvme q)) (segs d) src 0).
  assert (acct q0 (wr_id_of KRecv idx :: x ++ out comps q) wait hand sent q2) as Ha3 by exact (acct_mem _ _ _ _ _ _ m Ha2).
  destruct (submit_step _ _ _ _ _ q2 i s1 sqe Ha3 Hi2) as (a3 & He3 & Ha4 & Hs3); [done|done|by rewrite read_tags_recv|].
  eapply ends_step; [exact He3|]. apply ends_bind. eapply ends_mono; [apply (post_recv_ok q0 x comps wait hand sent (q_arr a3 q2) idx Ha4)| |done].
  intros q' _ [[Hk Hdf] Hnv]. apply ends_ret. split; [by split|]. exists (ready sqe s1). rewrite Hnv. cbn.
  split; [rewrite Hs3; apply list_lookup_insert_eq; by eapply lookup_lt_Some|]. do 3 (split; [done|]). rewrite <- Hsrc.
  assert (length src = Z.to_nat len) as Hsl by (rewrite Hsrc; unfold payload_at, bytes_at; rewrite length_take, length_drop;
    destruct (rk_sizes _ _ _ _ _ _ Ha) as (_ & Hlen & _); remember CAPSULE_LEN; nia).
  destruct Hpb as (P1 & P2 & P3 & _).
  destruct (copy_segs_flat (segs d) (w_mem (rq_nvme q)) src 0 P1) as [Hfl _]; [lia|lia|]. fold m in Hfl.
  change (take (Z.to_nat len) (flat m (segs d)) = src). rewrite Hfl, drop_0. by rewrite take_app_length'.
Qed.

Lemma NoDup_snoc {A} (l : list A) x k : NoDup (l ++ k) -> x ∉ l ++ k -> NoDup (l ++ x :: k).
Proof. intros Hn Hx. assert (l ++ x :: k ≡ₚ x :: l ++ k) as -> by solve_Permutation. by apply list.NoDup_cons. Qed.

(** A command's data is to be read. *)
Lemma acct_batch q0 ids wait hand sent q t sqe pr :
  acct q0 ids wait hand sent q -> receiving q t -> t ∉ read_tags ids wait q -> cmd_fits sqe -> read_ok pr -> pr_tag pr = t ->
  acct q0 ids wait hand sent
    (set_work (rq_inflight q) (rq_responses q) (<[Z.to_nat t := sqe]> (rq_pending_read q)) (rq_read_batch q ++ [pr]) q).
Proof.
  intros [A1 A2 A3 A4 A5 AW A6 A7 A8 A9 A10 A11 A12 A13 A14] Hr Hni Hf Hp Ht.
  assert (read_tags ids wait (set_work (rq_inflight q) (rq_responses q) (<[Z.to_nat t := sqe]> (rq_pending_read q)) (rq_read_batch q ++ [pr]) q)
    ≡ₚ t :: read_tags ids wait q) as Hrt by (unfold read_tags; cbn; rewrite map_app; cbn; rewrite Ht; solve_Permutation).
  split; try done.
  - unfold sizes in *. cbn. by rewrite length_insert.
  - destruct A5 as (F1 & F2 & F3 & F4 & F5 & F6). split; [exact F1|]. split; [exact F2|]. cbn. split; [by apply list.Forall_insert|].
    split; [done|]. split; [done|]. apply list.Forall_app. split; [done|]. by apply list.Forall_singleton.
  - rewrite Hrt. by apply list.NoDup_cons.
  - rewrite Hrt. by apply list.Forall_cons.
Qed.

Lemma stage_write_ok q0 x comps wait hand sent q i s sqe :
  acct q0 (x ++ out comps q) wait hand sent q -> slots (arr q) !! i = Some s -> state s = Receiving -> data_len s = 0 ->
  Z.of_nat i ∉ read_tags (x ++ out comps q) wait q -> cmd_fits sqe -> 0 < staged_len sqe ->
  ends (try_stage_write (Z.of_nat i) sqe (staged_len sqe)) q
    (fun q' b => if b : bool then kept q0 x comps wait hand sent q q' else q' = q) (fun q' _ => broken q0 q').
Proof.
  intros Ha Hi Hs Hd Hni Hf Hl. pose proof (staged_len_range sqe) as Hlr.
  assert (Z.of_nat i ∉ map (fun x => x.1.1) wait) as Hnw.
  { intros Hin. apply Hni. unfold read_tags. rewrite !elem_of_app. by right; right. }
  unfold try_stage_write.
  destruct (lease_step q0 _ wait hand sent q i s (staged_len sqe) Ha Hi Hs ltac:(lia) Hd Hnw) as [He|(d & a1 & a2 & He1 & He2 & Ha2 & Hs2 & Hpb & _)].
  { eapply ends_step; [exact He|]. by apply ends_ret. }
  eapply ends_step; [exact He1|]. cbn [negb]. eapply ends_step; [exact He2|]. cbv zeta. apply ends_get.
  pose proof (rk_sizes _ _ _ _ _ _ Ha2) as (Hn & _ & _ & _ & Hpl). destruct (ck_slots _ _ (proj1 (rk_base _ _ _ _ _ _ Ha))) as (rss & res & [[_ Hlen] _ _ _ _ _ _ _]).
  pose proof (lookup_lt_Some _ _ _ Hi) as Hlt. cbn in Hlen, Hn, Hpl.
  assert (nslots a2 = nslots (arr q)) as Hns by (destruct (rk_sizes _ _ _ _ _ _ Ha) as (Hn' & _); congruence).
  assert (Z.to_nat (Z.of_nat i) < length (rq_pending_read (q_arr a2 q)))%nat as Hplt by (cbn; lia).
  eapply ends_step; [unfold lift, assert; rewrite (proj2 (Nat.ltb_lt _ _) Hplt); reflexivity|].
  eapply ends_step; [reflexivity|]. apply ends_ret. split; [|done].
  apply (acct_batch q0 _ wait hand sent (q_arr a2 q) (Z.of_nat i) sqe); try done.
  - split; [lia|]. exists (sized (staged_len sqe) d s). rewrite Nat2Z.id. cbn. rewrite Hs2. split; [|done]. apply list_lookup_insert_eq. by eapply lookup_lt_Some.
  - split; [cbn; rewrite wrap_small; unfold in_u, MDTS_BYTES in *; lia|]. split; [apply ks_addr_nonneg|apply Hf].
Qed.

(** A command joins those that wait for pages, with its capsule buffer. *)
Definition hold (idx : option Z) : list Z := match idx with Some i => [wr_id_of KRecv i] | None => [] end.

Lemma acct_wait q0 ids wait hand sent q i s sqe idx :
  acct q0 (hold idx ++ ids) wait hand sent q -> (forall j, idx = Some j -> in_u 32 j) ->
  slots (arr q) !! i = Some s -> state s = Receiving -> data_len s = 0 ->
  Z.of_nat i ∉ read_tags ids wait q -> wait_ok (Z.of_nat i, sqe, idx) ->
  acct q0 ids (wait ++ [(Z.of_nat i, sqe, idx)]) hand sent q.
Proof.
  intros [A1 A2 A3 A4 A5 AW A6 A7 A8 A9 A10 A11 A12 A13 A14] Hu Hi Hs Hd Hni Hw.
  assert (forall k, lows k (hold idx) = if decide (k = KRecv) then option_list idx else []) as Hlh.
  { intros k. destruct idx as [j|]; [|by case_decide]. cbn [hold]. rewrite lows_id by auto. by repeat case_decide; subst. }
  assert (recv_bufs ids (wait ++ [(Z.of_nat i, sqe, idx)]) q ≡ₚ recv_bufs (hold idx ++ ids) wait q) as Hrb.
  { unfold recv_bufs, held_bufs. rewrite lows_app, Hlh, decide_True, omap_app by done. cbn. destruct idx; cbn; solve_Permutation. }
  assert (read_tags ids (wait ++ [(Z.of_nat i, sqe, idx)]) q ≡ₚ Z.of_nat i :: read_tags (hold idx ++ ids) wait q) as Hrt.
  { unfold read_tags. rewrite lows_app, Hlh, decide_False, map_app by done. cbn. solve_Permutation. }
  assert (read_tags (hold idx ++ ids) wait q = read_tags ids wait q) as Hrt'.
  { unfold read_tags. by rewrite lows_app, Hlh, decide_False by done. }
  split; try done.
  - destruct A5 as (F1 & F2 & F3 & F4 & F5 & F6). split_and!; try done. apply list.Forall_app. split; [done|]. by apply list.Forall_singleton.
  - apply list.Forall_app. split; [done|]. apply list.Forall_singleton. exists s. cbn. by rewrite Nat2Z.id.
  - by rewrite Hrb.
  - by rewrite Hrb.
  - rewrite Hrt. apply list.NoDup_cons. split; [by rewrite Hrt'|done].
  - rewrite Hrt. apply list.Forall_cons. split; [|done]. split; [lia|]. exists s. by rewrite Nat2Z.id.
  - eapply list.Forall_impl; [exact A12|]. intros r (y & n & P1 & P2 & P3 & P4). exists y, n. split_and!; try done. rewrite P3. unfold due.
    by rewrite !lows_app, !Hlh.
  - intros t Ht. apply A13. by rewrite !lows_app, !Hlh.
Qed.

Lemma acct_waits q0 ids wait hand sent q l : acct q0 ids wait hand sent q -> acct q0 ids wait hand sent (set_deferred (rq_parked q) l q).
Proof. intros []. by split. Qed.

End Proofs.
