(* ===== verification/RdmaReap.v ===== *)
(** * The reap loop of an RDMA queue keeps its invariant

    From the handlers of [RdmaData] to the two arms of the loop: a poll of the
    completion queue with the deferred work it unblocks ([process_cqes_ok]), and
    the posting of the responses that are ready ([post_ready_ok]).  Neither
    panics; an error leaves the slots consistent, for the teardown. *)

From S2P Require Import Prelude Spec Pool PoolProofs PoolSafety PoolData.
From S2P Require Import SlotQ SlotQProofs SlotQSafety Registry Subsystem Backend.
From S2P Require Import Fabrics Dispatch FabricsExec Admin Io TcpQueue.
From S2P Require Import Connection SegIO ExecLaws AdminProofs ConnProofs.
From S2P Require Import RdmaWire RdmaQueue RdmaData Frame RecvFrame TaskProofs.
From S2P Require Import System FabricsProofs ControlProofs RdmaData.

Section Reap.
Context {B : Type} {BK : Backend B} {ST : Store B}.
Abbreviation RQ := (RdmaQueue (World B)).
Implicit Types (q : RQ) (s : Slot Sqe).

Abbreviation arr q := (w_slots (rq_nvme q)).
Abbreviation slots_do m := (q_slots (@on_slots B) m).

(** ** Routing *)

(** The queue after a handler. *)
Definition settled q0 (x : list Z) (comps : list (Z * Z)) (hand sent : list RdmaResp) q : Prop :=
  acct q0 (x ++ out comps q) (rq_pool_wait q) hand sent q.

Lemma kept_settled q0 x comps hand sent q q' :
  kept q0 x comps (rq_pool_wait q) hand sent q q' -> settled q0 x comps hand sent q' /\ rq_parked q' = rq_parked q.
Proof. intros [H Hd]. injection Hd as H1 H2. unfold settled. by rewrite H2. Qed.

Lemma inline_range sqe : let '(off, len) := parse_inline_sgl sqe in 0 <= off /\ 0 <= len.
Proof. cbn. split; apply le_combine_bound. Qed.

(** A slot claimed for a command. *)
Definition claimed (ids : list Z) q (i : nat) s : Prop :=
  slots (arr q) !! i = Some s /\ state s = Receiving /\ data_len s = 0 /\ Z.of_nat i ∉ read_tags ids (rq_pool_wait q) q.

Lemma wait_for_pages_ok q0 x comps hand sent q i s sqe idx :
  acct q0 (hold idx ++ x ++ out comps q) (rq_pool_wait q) hand sent q -> (forall j, idx = Some j -> in_u 32 j) ->
  claimed (x ++ out comps q) q i s -> wait_ok (Z.of_nat i, sqe, idx) ->
  ends (wait_for_pages (Z.of_nat i) sqe idx) q (fun q' _ => settled q0 x comps hand sent q' /\ rq_parked q' = rq_parked q) (fun q' _ => broken q0 q').
Proof.
  intros Ha Hu (Hi & Hs & Hd & Hni) Hw. unfold wait_for_pages, modify, ends. split; [|done]. unfold settled. apply acct_waits.
  by eapply acct_wait.
Qed.

Lemma route_ok q0 x comps hand sent q i s sqe idx :
  acct q0 (hold idx ++ x ++ out comps q) (rq_pool_wait q) hand sent q -> (forall j, idx = Some j -> in_u 32 j) ->
  claimed (x ++ out comps q) q i s -> cmd_fits sqe ->
  ends (route_cmd (Z.of_nat i) sqe idx) q (fun q' _ => settled q0 x comps hand sent q' /\ rq_parked q' = rq_parked q) (fun q' _ => broken q0 q').
Proof.
  intros Ha Hu Hcl Hf. pose proof Hcl as (Hi & Hs & Hd & Hni). unfold route_cmd. apply ends_get.
  destruct (host_data_in _ _); cbn [negb]; [destruct idx as [idx|]|].
  - cbn [hold app] in Ha. specialize (Hu idx eq_refl). pose proof (inline_range sqe) as Hr. destruct (parse_inline_sgl sqe) as [off len] eqn:Hp.
    assert (forall code, ends (fail_recv (Z.of_nat i) sqe code) q (fun q1 _ => ends (post_recv idx) q1
      (fun q' _ => settled q0 x comps hand sent q' /\ rq_parked q' = rq_parked q) (fun q' _ => broken q0 q')) (fun q' _ => broken q0 q')) as Hfail.
    { intros code. eapply ends_mono; [apply (fail_recv_ok q0 (wr_id_of KRecv idx :: x) comps (rq_pool_wait q) hand sent q i s sqe code Ha Hi Hs Hf)| |done].
      - cbn [app]. by rewrite read_tags_recv.
      - intros q1 _ [H1 Hdf]. injection Hdf as D1 D2. eapply ends_mono; [apply (post_recv_ok q0 x comps _ hand sent q1 idx H1)| |done].
        intros q' _ [[Hk Hdf'] _]. injection Hdf' as E1 E2. unfold settled. rewrite E2, D2. split; [exact Hk|congruence]. }
    destruct (negb (type_byte sqe =? INLINE_SGL_TYPE)); [by apply ends_bind|].
    destruct ((len =? 0) || (Z.of_nat ICD_LEN <? Z.min (off + len) (2 ^ 64 - 1))) eqn:Hc; [by apply ends_bind|].
    zbool. assert (Z.of_nat ICD_LEN < 2 ^ 64 - 1) as Hicd by (by vm_compute).
    apply ends_bind. eapply ends_mono; [apply (stage_inline_ok q0 x comps (rq_pool_wait q) hand sent q i s sqe idx off len Ha); try done; lia| |done].
    intros q1 [] Hq1; [apply ends_ret, kept_settled; apply Hq1|]. subst q1.
    eapply (wait_for_pages_ok _ _ _ _ _ q i s sqe (Some idx)); try done; [by intros j [= <-]|]. split; [done|]. rewrite Hp. lia.
  - cbv zeta. destruct (staged_len sqe =? 0) eqn:Hz.
    + eapply ends_mono; [apply (fail_recv_ok q0 x comps (rq_pool_wait q) hand sent q i s sqe _ Ha Hi Hs Hf Hni)| |done].
      intros q' [] Hk. by apply kept_settled.
    + zbool. pose proof (staged_len_range sqe). apply ends_bind.
      eapply ends_mono; [apply (stage_write_ok q0 x comps (rq_pool_wait q) hand sent q i s sqe Ha); try done; lia| |done].
      intros q1 [] Hq1; [by apply ends_ret, kept_settled|]. subst q1. eapply (wait_for_pages_ok _ _ _ _ _ q i s sqe None); try done.
      split; [done|lia].
  - assert (acct q0 (x ++ out comps q) (rq_pool_wait q) hand sent q) as Ha'.
    { destruct idx as [idx|]; [|exact Ha]. specialize (Hu idx eq_refl). eapply acct_forget; [| |exact Ha]; by rewrite lows_id. }
    destruct (submit_step _ _ _ _ _ q i s sqe Ha' Hi Hs Hf Hni) as (a & He & Ha2 & _). eapply ends_eq; [exact He|]. by split.
Qed.

(** ** A capsule *)

Lemma acct_parked q0 ids wait hand sent q sqe idx :
  acct q0 (hold idx ++ ids) wait hand sent q -> (forall j, idx = Some j -> in_u 32 j) -> cmd_fits sqe ->
  acct q0 ids wait hand sent (set_deferred (rq_parked q ++ [(sqe, idx)]) (rq_pool_wait q) q).
Proof.
  intros [A1 A2 A3 A4 A5 AW A6 A7 A8 A9 A10 A11 A12 A13 A14] Hu Hf. set (q' := set_deferred _ _ q).
  assert (forall k, lows k (hold idx) = if decide (k = KRecv) then option_list idx else []) as Hlh.
  { intros k. destruct idx as [j|]; [|by case_decide]. cbn [hold]. rewrite lows_id by auto. by repeat case_decide; subst. }
  assert (recv_bufs ids wait q' ≡ₚ recv_bufs (hold idx ++ ids) wait q) as Hrb.
  { unfold recv_bufs, held_bufs. cbn. rewrite lows_app, Hlh, decide_True, omap_app by done. cbn. destruct idx; cbn; solve_Permutation. }
  assert (read_tags (hold idx ++ ids) wait q = read_tags ids wait q') as Hrt.
  { unfold read_tags. by rewrite lows_app, Hlh, decide_False by done. }
  split; try done.
  - destruct A5 as (F1 & F2 & F3 & F4 & F5 & F6). split_and!; try done. cbn. apply list.Forall_app. split; [done|]. by apply list.Forall_singleton.
  - by rewrite Hrb.
  - by rewrite Hrb.
  - by rewrite <- Hrt.
  - by rewrite <- Hrt.
  - eapply list.Forall_impl; [exact A12|]. intros r (y & n & P1 & P2 & P3 & P4). exists y, n. split_and!; try done. rewrite P3. unfold due.
    by rewrite !lows_app, !Hlh.
  - intros t Ht. apply A13. by rewrite !lows_app, !Hlh.
Qed.

Lemma capsule_parsed q idx :
  length (bytes_at (rq_recv_buf q) (Z.to_nat idx * CAPSULE_LEN) CAPSULE_LEN) = CAPSULE_LEN ->
  read_from_bytes SQE_LEN Sqe_view (take SQE_LEN (bytes_at (rq_recv_buf q) (Z.to_nat idx * CAPSULE_LEN) CAPSULE_LEN)) =
    Some (capsule_at (rq_recv_buf q) idx).
Proof.
  intros H. unfold read_from_bytes. rewrite decide_True; [done|]. rewrite length_take, H. by vm_compute.
Qed.

Lemma handle_recv_ok q0 x comps hand sent q id idx :
  low_of KRecv id = Some idx -> acct q0 (id :: x ++ out comps q) (rq_pool_wait q) hand sent q ->
  ends (handle_recv idx) q (fun q' _ => settled q0 x comps hand sent q') (fun q' _ => broken q0 q').
Proof.
  intros Hl Ha0. assert (0 <= idx < rq_nslots q) as Hidx.
  { pose proof (rk_range _ _ _ _ _ _ Ha0) as Hr. unfold recv_bufs in Hr. rewrite lows_cons, (lows_of _ _ _ _ Hl), decide_True in Hr by done.
    cbn in Hr. by apply list.Forall_cons in Hr as [Hr _]. }
  assert (in_u 32 idx) as Hu.
  { destruct (ck_slots _ _ (proj1 (rk_base _ _ _ _ _ _ Ha0))) as (rss & res & [[Hn _] _ _ _ _ _ _ _]).
    destruct (rk_sizes _ _ _ _ _ _ Ha0) as [Hns _]. cbn in Hn. rewrite <- Hns in Hn. unfold in_u in *. lia. }
  assert (acct q0 (wr_id_of KRecv idx :: x ++ out comps q) (rq_pool_wait q) hand sent q) as Ha.
  { eapply acct_lows; [|exact Ha0]. intros k. rewrite !(lows_cons k _ (x ++ out comps q)), lows_id, (lows_of _ _ _ _ Hl) by done. done. }
  clear Ha0. destruct (recv_slice_eq _ _ _ _ _ q idx Ha Hidx) as [Hrs Hrl]. unfold handle_recv. eapply ends_step; [exact Hrs|].
  set (sqe := capsule_at (rq_recv_buf q) idx). assert (cmd_fits sqe) as Hf by (by apply (rk_fits _ _ _ _ _ _ Ha)).
  eapply ends_step; [unfold lift; rewrite (capsule_parsed q idx Hrl); reflexivity|]. fold sqe. apply ends_get. cbv zeta.
  set (inl := if _ && _ then Some idx else None). assert (forall j, inl = Some j -> in_u 32 j) as Huj by (unfold inl; case_match; [by intros j [= <-]|done]).
  assert (ends (match inl with None => post_recv idx | Some _ => mret tt end) q
    (fun q1 _ => acct q0 (hold inl ++ x ++ out comps q1) (rq_pool_wait q1) hand sent q1) (fun q' _ => broken q0 q')) as Hpost.
  { unfold inl. destruct (_ && _); [by apply ends_ret|]. eapply ends_mono; [apply (post_recv_ok q0 x comps _ hand sent q idx Ha)| |done].
    intros q' _ [Hk _]. by apply kept_settled in Hk as [Hk _]. }
  apply ends_bind. eapply ends_mono; [exact Hpost| |done]. intros q1 [] Ha1. clear Hpost Ha Hrs Hrl Hidx.
  destruct (claim_step _ _ _ _ _ q1 Ha1) as [He|(i & s & a & He & Ha2 & Hi & Hs & Hd & Hni)]; (eapply ends_step; [exact He|]).
  - apply ends_get. case_match; [apply ends_fail; by eapply acct_broken|]. unfold modify, ends, settled. by apply acct_parked.
  - eapply ends_mono; [apply (route_ok q0 x comps hand sent (q_arr a q1) i s sqe inl); try done| |done].
    + split_and!; try done. change (rq_pool_wait (q_arr a q1)) with (rq_pool_wait q1). destruct inl as [j|]; [|exact Hni]. cbn [hold app] in Hni.
      rewrite read_tags_recv in Hni by (by apply Huj). exact Hni.
    + by intros q' _ [H _].
Qed.

(** ** Deferred commands *)

(** The capsule buffer of a deferred command comes into hand. *)
Lemma acct_held q0 ids ids' wait wait' hand sent q q' :
  acct q0 ids wait hand sent q -> calm q q' -> base q' -> (forall i, short_slot i (conn_of q')) -> sizes q' -> fits wait' q' ->
  Forall (waiting q') wait' -> recv_bufs ids' wait' q' ≡ₚ recv_bufs ids wait q -> rq_nslots q' = rq_nslots q ->
  (exists gone, read_tags ids wait q ≡ₚ gone ++ read_tags ids' wait' q') -> slots (arr q') = slots (arr q) ->
  rq_responses q' = rq_responses q -> rq_inflight q' = rq_inflight q -> rq_resp_buf q' = rq_resp_buf q ->
  lows KWrite ids' = lows KWrite ids -> lows KSend ids' = lows KSend ids ->
  acct q0 ids' wait' hand sent q'.
Proof.
  intros [A1 A2 A3 A4 A5 AW A6 A7 A8 A9 A10 A11 A12 A13 A14] H1 H2 H3 H4 H5 H6 Hrb Hn (gone & Hrt) Hsl Hre Hin Hbuf Hw Hs. split; try done.
  - by etrans.
  - by rewrite Hrb.
  - by rewrite Hrb, Hn.
  - rewrite Hrt in A8. by apply list.NoDup_app in A8 as (_ & _ & H).
  - rewrite Hrt in A9. apply list.Forall_app in A9 as [_ H]. eapply list.Forall_impl; [exact H|]. unfold receiving. by rewrite Hsl.
  - by rewrite Hsl, Hre.
  - by rewrite Hre.
  - eapply list.Forall_impl; [exact A12|]. intros r. unfold posted, due. by rewrite Hsl, Hin, Hw, Hs.
  - by rewrite Hw, Hs.
  - unfold staged_cqe in *. by rewrite Hbuf.
Qed.

Lemma hold_lows k idx : (forall j, idx = Some j -> in_u 32 j) -> lows k (hold idx) = if decide (k = KRecv) then option_list idx else [].
Proof. intros Hu. destruct idx as [j|]; [|by case_decide]. cbn [hold]. rewrite lows_id by auto. by repeat case_decide; subst. Qed.

(** A buffer index fits a work-request id. *)
Lemma buf_u32 q0 ids wait hand sent q j : acct q0 ids wait hand sent q -> j ∈ recv_bufs ids wait q -> in_u 32 j.
Proof.
  intros Ha Hj. pose proof (rk_range _ _ _ _ _ _ Ha) as Hr. rewrite list.Forall_forall in Hr. specialize (Hr j Hj).
  destruct (ck_slots _ _ (proj1 (rk_base _ _ _ _ _ _ Ha))) as (rss & res & [[Hn _] _ _ _ _ _ _ _]).
  destruct (rk_sizes _ _ _ _ _ _ Ha) as [Hns _]. cbn in Hn. rewrite <- Hns in Hn. unfold in_u in *. lia.
Qed.

Lemma acct_unwait q0 ids t sqe idx wait hand sent q :
  acct q0 ids ((t, sqe, idx) :: wait) hand sent q ->
  acct q0 (hold idx ++ ids) wait hand sent q /\ wait_ok (t, sqe, idx) /\ (forall j, idx = Some j -> in_u 32 j) /\
  exists i s, t = Z.of_nat i /\ slots (arr q) !! i = Some s /\ state s = Receiving /\ data_len s = 0 /\ t ∉ read_tags ids wait q.
Proof.
  intros Ha. assert (forall j, idx = Some j -> in_u 32 j) as Hu.
  { intros j ->. eapply buf_u32; [exact Ha|]. unfold recv_bufs, held_bufs. rewrite !elem_of_app. right; right. cbn. left. }
  pose proof Ha as [A1 A2 A3 A4 A5 AW A6 A7 A8 A9 A10 A11 A12 A13 A14].
  assert (read_tags ids ((t, sqe, idx) :: wait) q ≡ₚ [t] ++ read_tags ids wait q) as Hrt by (unfold read_tags; cbn; solve_Permutation).
  destruct A5 as (F1 & F2 & F3 & F4 & F5 & F6). apply list.Forall_cons in F5 as [F5 F5']. apply list.Forall_cons in AW as [AW AW'].
  split; [|split; [done|split; [done|]]].
  - eapply acct_held; [exact Ha|reflexivity|done..| | |exists [t]| | | | | |]; try done.
    + unfold recv_bufs, held_bufs. rewrite lows_app, hold_lows, decide_True by done. cbn. destruct idx; cbn; solve_Permutation.
    + rewrite Hrt. unfold read_tags. by rewrite lows_app, hold_lows.
    + by rewrite lows_app, hold_lows.
    + by rewrite lows_app, hold_lows.
  - rewrite Hrt in A8, A9. cbn in A8, A9. apply list.NoDup_cons in A8 as [Hni _]. apply list.Forall_cons in A9 as [(H0 & s & Hs1 & Hs2) _].
    destruct AW as (s' & Hs' & Hd). cbn in Hs'. rewrite Hs1 in Hs'. injection Hs' as <-. exists (Z.to_nat t), s. rewrite Z2Nat.id by lia. by split_and!.
Qed.

Lemma acct_unpark q0 ids wait hand sent q sqe idx l :
  acct q0 ids wait hand sent q -> rq_parked q = (sqe, idx) :: l ->
  acct q0 (hold idx ++ ids) wait hand sent (set_deferred l (rq_pool_wait q) q) /\ cmd_fits sqe /\ (forall j, idx = Some j -> in_u 32 j).
Proof.
  intros Ha Hpk. assert (forall j, idx = Some j -> in_u 32 j) as Hu.
  { intros j ->. eapply buf_u32; [exact Ha|]. unfold recv_bufs, held_bufs. rewrite !elem_of_app, Hpk. right; left. cbn. left. }
  pose proof Ha as [A1 A2 A3 A4 A5 AW A6 A7 A8 A9 A10 A11 A12 A13 A14]. destruct A5 as (F1 & F2 & F3 & F4 & F5 & F6). rewrite Hpk in F4.
  apply list.Forall_cons in F4 as [F4 F4']. split; [|by split].
  eapply acct_held; [exact Ha|by apply calm_same|done..| | |exists []| | | | | |]; try done.
  - unfold recv_bufs, held_bufs. cbn. rewrite Hpk, lows_app, hold_lows, decide_True by done. cbn. destruct idx; cbn; solve_Permutation.
  - unfold read_tags. by rewrite lows_app, hold_lows.
  - by rewrite lows_app, hold_lows.
  - by rewrite lows_app, hold_lows.
Qed.

Lemma retry_pool_ok q0 x comps hand sent l : forall q,
  settled q0 x comps hand sent q -> rq_pool_wait q = l ->
  ends (retry_pool l) q (fun q' _ => settled q0 x comps hand sent q') (fun q' _ => broken q0 q').
Proof.
  induction l as [|[[t sqe] idx] l IH]; intros q Ha Hl; cbn [retry_pool]; [by apply ends_ret|].
  pose proof Ha as Ha0. unfold settled in Ha. rewrite Hl in Ha.
  destruct (acct_unwait _ _ _ _ _ _ _ _ _ Ha) as (Ha1 & (Hf & Hw) & Hu & i & s & -> & Hi & Hs & Hd & Hni).
  assert (forall q1 (b : bool), (if b then kept q0 x comps l hand sent q q1 else q1 = q) ->
    ends (if b then _ ← modify (fun q : RQ => set_deferred (rq_parked q) (tail (rq_pool_wait q)) q); retry_pool l else mret tt) q1
      (fun q' _ => settled q0 x comps hand sent q') (fun q' _ => broken q0 q')) as Hnext.
  { intros q1 [] Hq1; [|subst q1; by apply ends_ret]. destruct Hq1 as [Hk Hdf]. injection Hdf as D1 D2. eapply ends_step; [reflexivity|].
    apply IH; [|cbn; by rewrite D2, Hl]. unfold settled. cbn. rewrite D2, Hl. cbn. by apply acct_waits. }
  apply ends_bind. destruct idx as [idx|].
  - cbn [hold app] in Ha1. destruct (parse_inline_sgl sqe) as [off len] eqn:Hp. destruct Hw as (W1 & W2 & W3).
    eapply ends_mono; [apply (stage_inline_ok q0 x comps l hand sent q i s sqe idx off len Ha1); try done; by apply Hu| |done].
    intros q1 b Hq1. apply Hnext. by destruct b; [apply Hq1|].
  - eapply ends_mono; [by apply (stage_write_ok q0 x comps l hand sent q i s sqe Ha1)| |done]. intros q1 b Hq1. by apply Hnext.
Qed.

Lemma unpark_ok q0 x comps hand sent l : forall q,
  settled q0 x comps hand sent q -> rq_parked q = l ->
  ends (unpark l) q (fun q' _ => settled q0 x comps hand sent q') (fun q' _ => broken q0 q').
Proof.
  induction l as [|[sqe idx] l IH]; intros q Ha Hl; cbn [unpark]; [by apply ends_ret|].
  destruct (claim_step _ _ _ _ _ q Ha) as [He|(i & s & a & He & Ha1 & Hi & Hs & Hd & Hni)]; (eapply ends_step; [exact He|]); [by apply ends_ret|].
  eapply ends_step; [reflexivity|]. destruct (acct_unpark _ _ _ _ _ (q_arr a q) sqe idx l Ha1 Hl) as (Ha2 & Hf & Hu).
  cbn [rq_parked q_arr set_nvme] in *. rewrite Hl. cbn [tail]. set (q1 := set_deferred l _ _) in *.
  apply ends_bind. eapply ends_mono; [apply (route_ok q0 x comps hand sent q1 i s sqe idx); try done|intros q2 [] [Hq2 Hp]; by apply IH; rewrite ?Hp|done].
Qed.

(** ** Transfers *)

Lemma filter_all {A} (P : A -> Prop) `{forall x, Decision (P x)} l : Forall (fun x => ~ P x) l -> filter P l = [].
Proof. induction 1 as [|x l Hx _ IH]; [done|]. rewrite filter_cons_False by done. exact IH. Qed.

Abbreviation signaled_ids wrs := (map wr_id (filter (fun w => wr_signaled w = true) wrs)).

(** A slot whose buffer the adapter may be given. *)
Definition usable s : Prop := (length (segs (data s)) <= MAX_SEGS)%nat /\ segs_ok (segs (data s)).

Lemma slot_usable q0 ids wait hand sent q i s : acct q0 ids wait hand sent q -> slots (arr q) !! i = Some s -> usable s.
Proof. intros Ha Hi. split; [by apply (rk_short _ _ _ _ _ _ Ha i s)|]. exact (proj1 (ck_bufs _ _ (proj1 (rk_base _ _ _ _ _ _ Ha)) i s Hi)). Qed.

(** The work requests of a transfer; one completion, if anything is moved. *)
Lemma transfer_ok q kind op t len rkey addr s :
  slots (arr q) !! Z.to_nat t = Some s -> usable s -> 0 <= len -> 0 <= addr -> addr + 2 ^ 37 < 2 ^ 64 ->
  exists sges wrs, transfer_wrs (@on_slots B) kind op t len rkey addr q = (q, Ok wrs) /\
    fill_sges (segs (data s)) len (pool_lkey (rq_regions q)) MAX_SEGS = Ok sges /\
    post_sge_runs (wr_id_of kind t) op rkey addr sges = Ok wrs /\
    signaled_ids wrs = if decide (0 < len /\ segs (data s) <> []) then [wr_id_of kind t] else [].
Proof.
  intros Hs (Hsh & Hsg) Hl Ha Hb.
  destruct (fill_sges_ok (segs (data s)) len (pool_lkey (rq_regions q)) MAX_SEGS Hsh Hsg Hl) as (sges & Hf & Hn & Hne & H32).
  destruct (post_sge_runs_ok (wr_id_of kind t) op rkey addr sges Ha H32) as (wrs & Hp & Hlen & Hid & Hsig).
  { assert (length sges <= 32)%nat by (etrans; [exact Hn|exact Hsh]). lia. }
  exists sges, wrs. split; [|split; [done|split; [done|]]].
  - unfold transfer_wrs. rewrite get_bind. rewrite (bind_ok _ _ q q s).
    + unfold mbind, M_bind, lift. rewrite Hf. cbn. by rewrite Hp.
    + rewrite (slots_do_eq _ q (arr q) s); [by rewrite q_arr_same|]. unfold slot, mbind, M_bind, get, lift, expect. by rewrite Hs.
  - destruct Hsig as [[-> ->]|(ws & w & -> & Hw & Hws)].
    + case_decide as Hd; [|done]. by destruct (Hne (proj1 Hd) (proj2 Hd)).
    + rewrite list.filter_app, (filter_all _ ws), filter_cons_True; [|done|eapply list.Forall_impl; [exact Hws|]; intros y Hy; cbv beta in *; congruence].
      apply list.Forall_app in Hid as [_ Hid]. rewrite list.Forall_singleton in Hid. cbv beta in Hid. cbn [app map]. rewrite Hid. rewrite decide_True; [done|].
      assert (sges <> []) as Hse by (intros ->; rewrite length_app in Hlen; cbn in Hlen; lia).
      split; [|intros Hnil; rewrite Hnil in Hf; cbn in Hf; by injection Hf as <-].
      destruct (Z.eq_dec len 0) as [->|]; [|lia]. destruct Hse. destruct (segs (data s)); cbn in Hf; by injection Hf as <-.
Qed.

Lemma read_wrs_ok q0 ids wait hand sent q l :
  acct q0 ids wait hand sent q -> Forall read_ok l -> Forall (receiving q) (map pr_tag l) ->
  exists wrs gone, read_wrs (@on_slots B) l q = (q, Ok wrs) /\ map pr_tag l ≡ₚ gone ++ lows KRead (signaled_ids wrs) /\
    forall k, k <> KRead -> lows k (signaled_ids wrs) = [].
Proof.
  intros Ha. induction l as [|pr l IH]; intros Hok Hr; cbn [read_wrs].
  { exists [], []. done. }
  apply list.Forall_cons in Hok as [(L & A1 & A2) Hok]. cbn in Hr. apply list.Forall_cons in Hr as [(H0 & s & Hs & Hst) Hr].
  destruct (transfer_ok q KRead SgeRead (pr_tag pr) (pr_len pr) (pr_rkey pr) (pr_addr pr) s Hs) as (sges & wrs & Ht & _ & _ & Hsig); [by eapply slot_usable|lia..|].
  destruct (IH Hok Hr) as (wrs' & gone & He & Hp & Hk). assert (in_u 32 (pr_tag pr)) as Hu.
  { destruct (ck_slots _ _ (proj1 (rk_base _ _ _ _ _ _ Ha))) as (rss & res & [[Hn Hln] _ _ _ _ _ _ _]). apply lookup_lt_Some in Hs. cbn in Hln, Hn. unfold in_u in *. lia. }
  rewrite (bind_ok _ _ _ _ _ Ht), (bind_ok _ _ _ _ _ He). eexists _, (if decide (0 < pr_len pr /\ segs (data s) <> []) then gone else pr_tag pr :: gone).
  split; [reflexivity|]. rewrite list.filter_app, map_app, Hsig. split; [|intros k Hne; rewrite lows_app, (Hk k Hne); case_decide; [by rewrite lows_id, decide_False by (done || congruence)|done]].
  cbn [map]. rewrite lows_app, Hp. case_decide; [rewrite lows_id, decide_True by done|cbn]; solve_Permutation.
Qed.

Lemma post_reads_ok q0 x comps hand sent q :
  settled q0 x comps hand sent q ->
  ends (post_reads_batch (@on_slots B)) q (fun q' _ => settled q0 x comps hand sent q') (fun q' _ => broken q0 q').
Proof.
  intros Ha. unfold post_reads_batch. apply ends_get. destruct (rq_read_batch q) as [|pr l] eqn:Hb; [by apply ends_ret|]. rewrite <- Hb.
  destruct (read_wrs_ok q0 _ _ _ _ q (rq_read_batch q) Ha) as (wrs & gone & He & Hp & Hk).
  { apply (rk_fits _ _ _ _ _ _ Ha). }
  { pose proof (rk_reading _ _ _ _ _ _ Ha) as Hr. unfold read_tags in Hr. rewrite !list.Forall_app in Hr. tauto. }
  eapply ends_step; [exact He|]. apply ends_bind. apply verb_ends.
  - intros rcs n. cbv zeta. unfold note, modify, ends, mbind, M_bind. unfold settled. cbn [rq_pool_wait set_side set_nic set_work].
    set (q1 := set_work (rq_inflight q) (rq_responses q) (rq_pending_read q) [] q).
    assert (acct q0 (signaled_ids wrs ++ x ++ out comps q) (rq_pool_wait q) hand sent q1) as Ha1.
    { pose proof Ha as [A1 A2 A3 A4 A5 AW A6 A7 A8 A9 A10 A11 A12 A13 A14]. destruct A5 as (F1 & F2 & F3 & F4 & F5 & F6).
      eapply acct_held; [exact Ha|by apply calm_same|done..| | |exists gone| | | | | |]; try done.
      - unfold recv_bufs. by rewrite lows_app, (Hk KRecv).
      - unfold read_tags. unfold q1 at 1. cbn [rq_read_batch set_work map app]. rewrite Hp, !lows_app. solve_Permutation.
      - by rewrite lows_app, (Hk KWrite).
      - by rewrite lows_app, (Hk KSend). }
    apply (posted_acct q0 x [] wrs comps (rq_pool_wait q) hand sent q1 rcs) in Ha1. revert Ha1. unfold q1, out. cbn.
    intros [A1 A2 A3 A4 A5 AW A6 A7 A8 A9 A10 A11 A12 A13 A14]. by split.
  - intros n _. apply acct_broken in Ha as [H1 H2]. split; [done|]. etrans; [exact H2|]. apply calm_nic.
Qed.

Lemma drain_deferred_ok q0 x comps hand sent q :
  settled q0 x comps hand sent q ->
  ends drain_deferred q (fun q' _ => settled q0 x comps hand sent q') (fun q' _ => broken q0 q').
Proof.
  intros Ha. unfold drain_deferred. apply ends_get. apply ends_bind. eapply ends_mono; [by apply retry_pool_ok| |done]. intros q1 [] Ha1.
  apply ends_get. apply ends_bind. eapply ends_mono; [by apply unpark_ok| |done]. intros q2 [] Ha2. by apply post_reads_ok.
Qed.

(** ** Responses *)

Lemma hand_not_due q0 ids wait r hand sent q :
  acct q0 ids wait (r :: hand) sent q -> due ids (rr_tag r) = 0 /\ rr_tag r ∉ map rr_tag sent /\
  (forall r', r' ∈ sent -> Z.to_nat (rr_tag r') <> Z.to_nat (rr_tag r)).
Proof.
  intros Ha. pose proof (tags_distinct _ _ _ _ _ _ Ha) as Hn.
  assert (work (rq_responses q) ++ (r :: hand) ++ sent ≡ₚ r :: work (rq_responses q) ++ hand ++ sent) as Hp by solve_Permutation.
  rewrite Hp in Hn. cbn in Hn. apply list.NoDup_cons in Hn as [Hn _].
  assert (forall r', r' ∈ sent -> Z.to_nat (rr_tag r') <> Z.to_nat (rr_tag r)) as Hne.
  { intros r' Hr' He. apply Hn. rewrite <- He. apply (proj2 (list_elem_of_fmap (fun r => Z.to_nat (rr_tag r)) _ _)). exists r'. split; [done|].
    rewrite !elem_of_app. by right; right. }
  assert (rr_tag r ∉ map rr_tag sent) as Hni.
  { intros Hin. apply (proj1 (list_elem_of_fmap rr_tag _ _)) in Hin as (r' & He & Hr'). by apply (Hne r' Hr'); rewrite He. }
  split; [|done]. unfold due. destruct (count_occ Z.eq_dec (lows KWrite ids ++ lows KSend ids) (rr_tag r)) eqn:Hc; [done|].
  destruct Hni. apply (rk_due _ _ _ _ _ _ Ha). apply list_elem_of_In, (count_occ_In Z.eq_dec). lia.
Qed.

(** What the work requests of a response are owed. *)
Definition resp_ids (r : RdmaResp) s : list Z :=
  (if decide (0 < out_data_len (rr_outcome r) /\ segs (data s) <> []) then [wr_id_of KWrite (rr_tag r)] else []) ++ [wr_id_of KSend (rr_tag r)].

(** Writing the head of cell [i] of a buffer of cells of [k] bytes. *)
Definition put_cell (buf : bytes) (k i : nat) (src : bytes) : bytes := take (i * k) buf ++ src ++ drop (i * k + length src) buf.

Lemma put_cell_length buf k i src : (i * k + length src <= length buf)%nat -> length (put_cell buf k i src) = length buf.
Proof. intros. unfold put_cell. rewrite !length_app, length_take, length_drop. lia. Qed.

Lemma put_cell_same buf k i src : (i * k + k <= length buf)%nat -> length src = k -> bytes_at (put_cell buf k i src) (i * k) k = src.
Proof.
  intros Hl Hs. unfold put_cell, bytes_at. rewrite drop_app_length' by (rewrite length_take; lia). by rewrite take_app_length'.
Qed.

Lemma put_cell_other buf k i j src :
  (i * k + k <= length buf)%nat -> (length src <= k)%nat -> j <> i -> bytes_at (put_cell buf k i src) (j * k) k = bytes_at buf (j * k) k.
Proof.
  intros Hl Hs Hne. unfold put_cell, bytes_at. destruct (decide (j < i)%nat) as [Hlt|].
  - assert (j * k + k <= i * k)%nat by nia. rewrite drop_app_le, take_app_le by (rewrite ?length_drop, ?length_take; lia).
    rewrite skipn_firstn_comm, take_take. f_equal. lia.
  - assert (i * k + k <= j * k)%nat by nia. rewrite drop_app_ge by (rewrite length_take; lia). rewrite length_take, drop_app_ge by lia.
    rewrite drop_drop. do 2 f_equal. lia.
Qed.

(** The response of slot [i] becomes a posted one. *)
Lemma acct_posted q0 ids wait r hand sent q s :
  let buf := put_cell (rq_resp_buf q) CQE_LEN (Z.to_nat (rr_tag r)) (Cqe_bytes (out_cqe (rr_outcome r))) in
  acct q0 ids wait (r :: hand) sent q -> slots (arr q) !! Z.to_nat (rr_tag r) = Some s ->
  acct q0 (resp_ids r s ++ ids) wait hand (r :: sent)
    (set_work (<[Z.to_nat (rr_tag r) := if 0 <? out_data_len (rr_outcome r) then 2 else 1]> (rq_inflight q)) (rq_responses q) (rq_pending_read q)
       (rq_read_batch q) (set_bufs (rq_recv_buf q) buf (rq_cdata_buf q) q)).
Proof.
  intros buf Ha Hs. destruct (hand_not_due _ _ _ _ _ _ _ Ha) as (Hd & Hni & Hne). pose proof Ha as [A1 A2 A3 A4 A5 AW A6 A7 A8 A9 A10 A11 A12 A13 A14].
  pose proof A4 as (Z1 & Z2 & Z3 & Z4 & Z5). set (t := rr_tag r) in *.
  assert (0 <= t /\ in_u 32 t /\ (Z.to_nat t < length (rq_inflight q))%nat) as (Ht0 & Hu & Hlt).
  { destruct (ck_slots _ _ (proj1 A1)) as (rss & res & [[Hn Hln] _ _ _ _ _ _ _]). apply lookup_lt_Some in Hs. cbn in Hln, Hn.
    assert (0 <= t) by (rewrite list.Forall_forall in A11; apply (A11 r); rewrite !elem_of_app; right; left; left). unfold in_u in *. lia. }
  assert (length (Cqe_bytes (out_cqe (rr_outcome r))) = CQE_LEN) as Hcl by (by vm_compute).
  assert (Z.to_nat t * CQE_LEN + CQE_LEN <= length (rq_resp_buf q))%nat as Hfit by (rewrite Z3; remember CQE_LEN; nia).
  assert (length buf = length (rq_resp_buf q)) as Hb by (apply put_cell_length; by rewrite Hcl).
  assert (forall k, lows k (resp_ids r s) = match k with
    | KWrite => if decide (0 < out_data_len (rr_outcome r) /\ segs (data s) <> []) then [t] else [] | KSend => [t] | _ => [] end) as Hl.
  { intros k. unfold resp_ids. fold t. rewrite lows_app, lows_id by done. destruct k; case_decide; rewrite ?lows_id by done; done. }
  assert (forall u, due (resp_ids r s ++ ids) u = due ids u + (if decide (u = t) then 2 - lost r s - (if 0 <? out_data_len (rr_outcome r) then 0 else 1) else 0)) as Hdue.
  { intros u. unfold due. rewrite !lows_app, !Hl, !count_occ_app. unfold lost.
    destruct (Z.ltb_spec 0 (out_data_len (rr_outcome r))); repeat case_decide; subst; cbn; repeat destruct (Z.eq_dec _ _); subst; try done; try lia;
      exfalso; intuition lia. }
  split; try done.
  - unfold sizes. cbn. rewrite Hb, length_insert. by split_and!.
  - unfold recv_bufs. by rewrite lows_app, Hl.
  - unfold recv_bufs. by rewrite lows_app, Hl.
  - unfold read_tags. by rewrite lows_app, Hl.
  - unfold read_tags. by rewrite lows_app, Hl.
  - cbn. rewrite A10. rewrite !map_app. cbn. solve_Permutation.
  - cbn. rewrite !list.Forall_app, !list.Forall_cons in *. tauto.
  - apply list.Forall_cons. split.
    + exists s. eexists. cbn. fold t. split; [done|]. split; [by apply list_lookup_insert_eq|]. rewrite Hdue, decide_True, Hd by done.
      unfold lost. destruct (Z.ltb_spec 0 (out_data_len (rr_outcome r))); case_decide; lia.
    + rewrite list.Forall_forall in A12. rewrite list.Forall_forall. intros r' Hr'. destruct (A12 r' Hr') as (y & n & P1 & P2 & P3 & P4).
      exists y, n. cbn. fold t. rewrite list_lookup_insert_ne by (specialize (Hne r' Hr'); congruence). split_and!; try done.
      rewrite Hdue, decide_False; [lia|]. intros He. apply (Hne r' Hr'). by rewrite He.
  - intros u. rewrite !lows_app, !Hl, !elem_of_app. cbn [map]. fold t. specialize (A13 u). rewrite elem_of_app in A13.
    case_decide; rewrite ?elem_of_cons, ?elem_of_nil; tauto.
  - apply list.Forall_cons. split; [by apply put_cell_same|]. rewrite list.Forall_forall in A14. rewrite list.Forall_forall. intros r' Hr'.
    etrans; [|exact (A14 r' Hr')]. apply put_cell_other; [done|by rewrite Hcl|by apply Hne].
Qed.

Lemma response_wrs_ok q0 ids wait r hand sent q :
  acct q0 ids wait (r :: hand) sent q ->
  exists q' ws sends, response_wrs (@on_slots B) r q = (q', Ok (ws, sends)) /\ rq_nic q' = rq_nic q /\ rq_staged q' = rq_staged q /\
    deferred q' = deferred q /\ acct q0 (signaled_ids (ws ++ sends) ++ ids) wait hand (r :: sent) q'.
Proof.
  intros Ha. destruct (answering _ _ _ _ _ _ r Ha) as (s & Hs & Hst); [rewrite !elem_of_app; right; left; left|].
  pose proof (slot_usable _ _ _ _ _ q _ _ Ha Hs) as Hus. set (t := rr_tag r) in *.
  assert (resp_ok r) as (Ht0 & Hcf & _).
  { pose proof (rk_resps _ _ _ _ _ _ Ha) as Hr. rewrite list.Forall_forall in Hr. apply Hr. rewrite !elem_of_app. right; left; left. }
  fold t in Ht0. pose proof (rk_sizes _ _ _ _ _ _ Ha) as (Z1 & Z2 & Z3 & Z4 & Z5).
  assert (Z.to_nat t < length (rq_inflight q))%nat as Hlt.
  { destruct (ck_slots _ _ (proj1 (rk_base _ _ _ _ _ _ Ha))) as (rss & res & [[Hn Hln] _ _ _ _ _ _ _]). apply lookup_lt_Some in Hs. cbn in Hln. lia. }
  assert (exists ws, (if 0 <? out_data_len (rr_outcome r)
      then let dst := parse_keyed_sgl (rr_cmd r) in transfer_wrs (@on_slots B) KWrite SgeWrite t (out_data_len (rr_outcome r)) (ks_rkey dst) (ks_addr dst)
      else mret []) q = (q, Ok ws) /\
    signaled_ids ws = if decide (0 < out_data_len (rr_outcome r) /\ segs (data s) <> []) then [wr_id_of KWrite t] else []) as (ws & Hw & Hsig).
  { destruct (Z.ltb_spec 0 (out_data_len (rr_outcome r))); [|exists []; split; [done|]; rewrite decide_False; [done|lia]]. cbv zeta.
    destruct (transfer_ok q KWrite SgeWrite t (out_data_len (rr_outcome r)) (ks_rkey (parse_keyed_sgl (rr_cmd r))) (ks_addr (parse_keyed_sgl (rr_cmd r))) s Hs Hus)
      as (sges & ws & Ht & _ & _ & Hsig); [lia|apply ks_addr_nonneg|apply Hcf|]. by exists ws. }
  assert (length (Cqe_bytes (out_cqe (rr_outcome r))) = CQE_LEN) as Hcl by (by vm_compute).
  pose proof (copy_into_ok (E := RdmaError) (rq_resp_buf q) (Z.to_nat t * CQE_LEN) (Cqe_bytes (out_cqe (rr_outcome r)))) as Hcp.
  rewrite Hcl in Hcp. specialize (Hcp ltac:(rewrite Z3; remember CQE_LEN; nia)). 
  pose proof (acct_posted q0 ids wait r hand sent q s Ha Hs) as Hacc. cbv zeta in Hacc. unfold put_cell in Hacc. rewrite Hcl in Hacc. fold t in Hacc.
  set (buf := take _ _ ++ _) in Hcp, Hacc.
  unfold response_wrs. fold t. cbv zeta. eexists _, ws, _. split.
  - rewrite (bind_ok _ _ _ _ _ Hw), get_bind. rewrite (bind_ok _ _ q q buf) by (unfold lift; by rewrite Hcp).
    unfold mbind, M_bind, modify, lift, assert. rewrite (proj2 (Nat.ltb_lt _ _) Hlt). reflexivity.
  - do 3 (split; [done|]). rewrite list.filter_app, map_app, Hsig, filter_cons_True by done. exact Hacc.
Qed.

Lemma responses_wrs_ok q0 wait l : forall ids sent q,
  acct q0 ids wait l sent q ->
  exists q' wrs n m, responses_wrs (@on_slots B) l q = (q', Ok (wrs, n, m)) /\ rq_nic q' = rq_nic q /\ rq_staged q' = rq_staged q /\
    deferred q' = deferred q /\ acct q0 (signaled_ids wrs ++ ids) wait [] (rev l ++ sent) q'.
Proof.
  induction l as [|r l IH]; intros ids sent q Ha; cbn [responses_wrs].
  { exists q, [], 0, 0. by split_and!. }
  destruct (response_wrs_ok _ _ _ _ _ _ _ Ha) as (q1 & ws & sends & He & N1 & S1 & D1 & Ha1).
  destruct (IH _ _ _ Ha1) as (q2 & wrs & n & m & He2 & N2 & S2 & D2 & Ha2).
  eexists q2, _, _, _. rewrite (bind_ok _ _ _ _ _ He), (bind_ok _ _ _ _ _ He2). split; [reflexivity|]. do 3 (split; [congruence|]).
  cbn [fst snd rev]. rewrite <- app_assoc. eapply acct_perm; [|exact Ha2]. rewrite !list.filter_app, !map_app. solve_Permutation.
Qed.

Lemma post_responses_ok q0 x comps l sent q :
  settled q0 x comps l sent q ->
  ends (post_responses_batch (@on_slots B) l) q (fun q' _ => exists sent', settled q0 x comps [] sent' q') (fun q' _ => broken q0 q').
Proof.
  intros Ha. unfold post_responses_batch. destruct l as [|r l]; [apply ends_ret; by exists sent|].
  destruct (responses_wrs_ok _ _ _ _ _ _ Ha) as (q1 & wrs & n & m & He & N1 & S1 & D1 & Ha1). injection D1 as D1 D2.
  eapply ends_step; [exact He|]. cbv beta iota. apply ends_bind. apply verb_ends.
  - intros rcs nic. unfold note, modify, ends, mbind, M_bind. exists (rev (r :: l) ++ sent). unfold settled. cbn [rq_pool_wait set_side set_nic].
    do 4 apply acct_side. rewrite D2. apply (posted_acct q0 x [] wrs comps (rq_pool_wait q) [] _ q1 rcs). unfold out in *. rewrite N1, S1. exact Ha1.
  - intros nic _. apply acct_broken in Ha1 as [H1 H2]. split; [done|]. etrans; [exact H2|]. apply calm_nic.
Qed.

(** ** A poll *)

Lemma note_ok q0 x comps hand sent q e :
  settled q0 x comps hand sent q -> exists q', note (N := World B) e q = (q', Ok tt) /\ settled q0 x comps hand sent q' /\ rq_nvme q' = rq_nvme q.
Proof. intros H. eexists. split; [reflexivity|]. split; [by apply acct_side|done]. Qed.

Lemma read_done_ok q0 x comps hand sent q id t :
  low_of KRead id = Some t -> acct q0 (id :: x ++ out comps q) (rq_pool_wait q) hand sent q ->
  ends (submit_pending (wrap 16 t)) q (fun q' _ => settled q0 x comps hand sent q') (fun q' _ => broken q0 q').
Proof.
  intros Hl Ha. pose proof Ha as [A1 A2 A3 A4 A5 AW A6 A7 A8 A9 A10 A11 A12 A13 A14].
  assert (read_tags (id :: x ++ out comps q) (rq_pool_wait q) q = t :: read_tags (x ++ out comps q) (rq_pool_wait q) q) as Hrt.
  { unfold read_tags. by rewrite lows_cons, (lows_of _ _ _ _ Hl), decide_True. }
  rewrite Hrt in A8, A9. apply list.NoDup_cons in A8 as [Hni _]. apply list.Forall_cons in A9 as [(H0 & s & Hs & Hst) _].
  assert (settled q0 x comps hand sent q) as Ha' by (eapply acct_forget; [| |exact Ha]; by rewrite (lows_of _ _ _ _ Hl)).
  destruct (ck_slots _ _ (proj1 A1)) as (rss & res & [[Hn Hln] _ _ _ _ _ _ _]). pose proof (lookup_lt_Some _ _ _ Hs) as Hlt. cbn in Hln, Hn.
  rewrite wrap_small by (unfold in_u in *; lia). destruct A4 as (Z1 & _ & _ & _ & Z5). destruct A5 as (_ & _ & F3 & _).
  destruct (lookup_lt_is_Some_2 (rq_pending_read q) (Z.to_nat t)) as [sqe Hsq]; [lia|].
  unfold submit_pending. apply ends_get. eapply ends_step; [unfold lift, expect; rewrite Hsq; reflexivity|].
  rewrite <- (Z2Nat.id t) by lia. rewrite <- (Z2Nat.id t) in Hni by lia.
  destruct (submit_step _ _ _ _ _ q (Z.to_nat t) s sqe Ha' Hs Hst) as (a & He & Ha2 & _); [by eapply list.Forall_lookup_1|done|].
  eapply ends_eq; [exact He|exact Ha2].
Qed.

Lemma dispatch_ok q0 x hand comps : forall q sent,
  settled q0 x comps hand sent q ->
  ends (dispatch_cqes comps) q (fun q' stop => if stop : bool then broken q0 q' else exists sent', settled q0 x [] hand sent' q') (fun q' _ => broken q0 q').
Proof.
  induction comps as [|[id st] comps IH]; intros q sent Ha; cbn [dispatch_cqes]; [apply ends_ret; by exists sent|].
  destruct (Z.eqb_spec st 0) as [->|Hst]; cbn [negb]; [|apply ends_ret; by eapply acct_broken].
  assert (acct q0 (id :: x ++ out comps q) (rq_pool_wait q) hand sent q) as Ha1.
  { eapply acct_perm; [|exact Ha]. unfold out. cbn. solve_Permutation. }
  assert (forall k, low_of k id = match decode id with Some w => if decide (wi_kind w = k) then Some (wi_low w) else None | None => None end) as Hlo.
  { intros k. unfold low_of. by destruct (decode id). }
  destruct (decode id) as [w|].
  2:{ apply (IH q sent). eapply acct_lows; [|exact Ha1]. intros k. rewrite (lows_cons k). unfold lows at 1. cbn. by rewrite (Hlo k). }
  specialize (Hlo (wi_kind w)). rewrite decide_True in Hlo by done.
  assert (forall e q1, note (N := World B) e q = (q1, Ok tt) -> acct q0 (id :: x ++ out comps q1) (rq_pool_wait q1) hand sent q1) as Hnote.
  { intros e q1 [= <-]. by apply acct_side. }
  apply ends_bind. destruct (wi_kind w) eqn:Hk.
  - eapply ends_step; [reflexivity|]. eapply ends_mono; [apply (handle_recv_ok q0 x comps hand sent _ id); [done|exact (Hnote _ _ eq_refl)]|by intros q1 []; apply IH|done].
  - unfold service_response. apply ends_bind. eapply ends_step; [reflexivity|]. apply ends_bind.
    eapply ends_mono; [apply (response_done_ok q0 x comps (rq_pool_wait q) hand sent _ KSend id); [by right|done|exact (Hnote _ _ eq_refl)]| |done].
    intros q1 [] (sent' & Hq1). do 2 apply ends_ret. apply (IH q1 sent'). exact (proj1 (kept_settled _ _ _ _ _ _ _ Hq1)).
  - unfold service_response. apply ends_bind. eapply ends_step; [reflexivity|]. apply ends_bind.
    eapply ends_mono; [apply (response_done_ok q0 x comps (rq_pool_wait q) hand sent _ KWrite id); [by left|done|exact (Hnote _ _ eq_refl)]| |done].
    intros q1 [] (sent' & Hq1). do 2 apply ends_ret. apply (IH q1 sent'). exact (proj1 (kept_settled _ _ _ _ _ _ _ Hq1)).
  - eapply ends_step; [reflexivity|]. eapply ends_mono; [apply (read_done_ok q0 x comps hand sent _ id); [done|exact (Hnote _ _ eq_refl)]|by intros q1 []; apply IH|done].
Qed.

(** The outcome of a round of the loop: it goes on, or ends. *)
Definition round_ok q0 (hand : list RdmaResp) q (stop : bool) : Prop :=
  if stop then broken q0 q else exists sent, settled q0 [] [] hand sent q.

Lemma process_cqes_ok q0 hand sent q :
  settled q0 [] [] hand sent q -> ends process_cqes q (round_ok q0 hand) (fun q' _ => broken q0 q').
Proof.
  intros Ha. unfold process_cqes, drain. apply ends_bind. apply ends_get. eapply ends_step; [reflexivity|]. apply ends_ret.
  set (comps := rq_staged q ++ n_cq (rq_nic q)). match goal with |- ends _ ?x _ _ => set (q1 := x) end.
  assert (settled q0 [] comps hand sent q1) as Ha1.
  { unfold settled, q1. cbn [rq_pool_wait set_nic set_side]. apply acct_nic, acct_side. eapply acct_perm; [|exact Ha].
    unfold out, owed, comps. cbn. rewrite !done_ids_app. solve_Permutation. }
  assert (ends (if bool_decide (comps = []) then mret tt else _ ← note EvPoll; note (EvHist PollHist (Z.of_nat (length comps)))) q1
    (fun q2 _ => settled q0 [] comps hand sent q2) (fun q' _ => broken q0 q')) as Hn.
  { case_bool_decide; [by apply ends_ret|]. unfold ends, mbind, M_bind, note, modify. by do 2 apply acct_side. }
  apply ends_bind. eapply ends_mono; [exact Hn| |done]. intros q2 [] Ha2.
  apply ends_bind. eapply ends_mono; [apply (dispatch_ok q0 [] hand comps q2 sent Ha2)| |done].
  intros q3 [] Hq3; [by apply ends_ret|]. destruct Hq3 as (sent' & Hq3). apply ends_bind.
  eapply ends_mono; [apply (drain_deferred_ok q0 [] [] hand sent' q3 Hq3)| |done]. intros q4 [] Hq4. apply ends_ret. by exists sent'.
Qed.

(** ** The watchdog and the backstop *)

(** The keep-alive timeout of the Connect command. *)
Definition kato_ok (w : World B) : Prop := match w_role w with Admin a => in_u 32 (ad_kato_ms a) | IoQueue _ => True end.

Lemma kato_calm q q' : calm q q' -> kato_ok (rq_nvme q) -> kato_ok (rq_nvme q').
Proof. intros (_ & _ & Hk & _). unfold kato_ok. by destruct (w_role (rq_nvme q)), (w_role (rq_nvme q')); cbn in Hk; try done; injection Hk as ->. Qed.

Lemma keepalive_ends (w : World B) :
  world_ok w -> kato_ok w ->
  exists w' r, keepalive_expired w = (w', Ok r) /\ world_ok w' /\ w_slots w' = w_slots w /\ w_core w' = w_core w /\ w_backends w' = w_backends w /\
    kato_of (w_role w') = kato_of (w_role w).
Proof.
  intros Hw Hk. unfold keepalive_expired. rewrite get_bind. unfold kato_ok in Hk. destruct (w_role w) as [a|io] eqn:Hr; [|exists w, None; by rewrite Hr].
  cbv zeta. destruct (ad_kato_ms a =? 0); [exists w, None; by rewrite Hr|].
  assert (forall w1 (h : bool), world_ok w1 -> w_slots w1 = w_slots w -> w_core w1 = w_core w -> w_backends w1 = w_backends w -> w_role w1 = w_role w ->
    exists w' r, (if h then _ ← modify_admin (ad_set_last_heard (w_now w)); mret None
      else limit ← lift (checked 64 (ad_kato_ms a * 2 + keepalive_tick (ad_kato_ms a)));
           mret (if limit <? Z.min (Z.max 0 (w_now w - ad_last_heard a)) (2 ^ 64 - 1) then Some (Z.min (Z.max 0 (w_now w - ad_last_heard a)) (2 ^ 64 - 1)) else None)) w1
      = (w', Ok r) /\ world_ok w' /\ w_slots w' = w_slots w /\ w_core w' = w_core w /\ w_backends w' = w_backends w /\
      kato_of (w_role w') = kato_of (w_role w)) as Hend.
  { intros w1 [] H1 H2 H3 H4 H5.
    - destruct (modify_admin_runs w1 (ad_set_last_heard (w_now w)) H1) as (w2 & [] & He & K1 & K2 & _ & K3 & K4 & _ & _ & K5).
      exists w2, None. rewrite (bind_ok _ _ _ _ _ He). split; [done|]. split; [done|]. split; [congruence|]. split; [congruence|]. split; [congruence|].
      rewrite K5, H5, Hr. done.
    - eexists w1, _. rewrite checked_ok by (pose proof (keepalive_tick_bounds (ad_kato_ms a)); unfold in_u, KEEPALIVE_TICK_MIN, KEEPALIVE_TICK_MAX in *; lia).
      split; [reflexivity|]. split_and!; try done. by rewrite H5. }
  destruct (ad_traffic a) as [f|]; [|destruct (Hend w false) as (w' & r & He & Hrest); try done; exists w', r; rewrite Hr in Hrest; exact (conj He Hrest)].
  set (r0 := w_registry w). set (r1 := {| cntlid_min := cntlid_min r0; cntlid_max := cntlid_max r0; next_cntlid := next_cntlid r0;
    controllers := controllers r0; flags := <[f := false]> (flags r0) |}).
  assert (reg_ok r1) as Hreg.
  { destruct (wk_registry _ Hw) as (R1 & R2 & R3 & R4). split; [done|]. split; [done|]. split; [|done]. intros k e He. specialize (R3 k e He).
    unfold entry_ok in *. unfold r1. cbn. by rewrite length_insert. }
  destruct (Hend (set_registry r1 w) (default false (flags (w_registry w) !! f))) as (w' & r & He & Hrest); try done.
  { by apply world_ok_registry. }
  exists w', r. rewrite Hr in Hrest. exact (conj He Hrest).
Qed.

Lemma acct_world q0 ids wait hand sent q w' :
  acct q0 ids wait hand sent q -> world_ok w' -> w_slots w' = arr q -> w_core w' = w_core (rq_nvme q) ->
  w_backends w' = w_backends (rq_nvme q) -> kato_of (w_role w') = kato_of (w_role (rq_nvme q)) ->
  acct q0 ids wait hand sent (set_nvme w' q).
Proof.
  intros Ha Hw Hs Hc Hb Hr. pose proof Ha as [[C1 C2] A2 A3 A4 A5 AW A6 A7 A8 A9 A10 A11 A12 A13 A14].
  split; try done; try (unfold sizes, fits, waiting, receiving, posted in *; cbn; by rewrite ?Hs).
  - split; [|exact Hw]. destruct C1 as [H1 H2 H3 H4 H5 H6]. split; cbn; rewrite ?Hs, ?Hc; done.
  - etrans; [exact A2|]. apply calm_same; cbn; by rewrite ?Hs.
  - intros i x. cbn. rewrite Hs. apply A3.
Qed.

Lemma watchdog_ok q0 hand sent q :
  settled q0 [] [] hand sent q -> kato_ok (rq_nvme q) -> ends rdma_watchdog q (fun q' _ => settled q0 [] [] hand sent q') (fun _ _ => False).
Proof.
  intros Ha Hk. unfold rdma_watchdog. eapply ends_step; [reflexivity|]. match goal with |- ends _ ?x _ _ => set (q1 := x) end.
  assert (settled q0 [] [] hand sent q1) as Ha1 by (by apply acct_side). apply ends_get.
  destruct (negb _); [by apply ends_ret|]. destruct (w_role (rq_nvme q1)) as [a|io] eqn:Hr; [|by apply ends_ret].
  destruct (keepalive_ends (rq_nvme q1)) as (w' & r & He & W1 & W2 & W3 & W4 & W5); [apply (rk_base _ _ _ _ _ _ Ha1)|done|].
  eapply ends_step; [unfold on_nvme; rewrite He; reflexivity|]. apply ends_ret. by apply acct_world.
Qed.

Lemma backstop_ok q0 hand sent q timer :
  settled q0 [] [] hand sent q -> kato_ok (rq_nvme q0) ->
  ends (backstop_tick timer) q (fun q' stop => if stop : bool then broken q0 q' else exists sent', settled q0 [] [] hand sent' q') (fun q' _ => broken q0 q').
Proof.
  intros Ha Hk. unfold backstop_tick, arm. apply ends_bind. apply ends_bind. apply verb_ends.
  - intros rcs n. unfold modify at 1, ends at 1. cbv beta iota. apply ends_bind.
    match goal with |- ends _ ?x _ _ => set (q1 := x) end.
    assert (settled q0 [] [] hand sent q1) as Ha1.
    { unfold settled, q1. cbn [rq_pool_wait set_nic]. apply acct_nic, acct_nic. revert Ha. unfold settled, out, owed. cbn. by rewrite !app_nil_r. }
    eapply ends_mono; [apply (process_cqes_ok q0 hand sent q1 Ha1)| |done]. intros q2 stop Hq2. destruct timer; cbn [negb].
    2:{ apply ends_fail. destruct stop; [exact Hq2|]. destruct Hq2 as (sent' & Hq2). by eapply acct_broken. }
    destruct stop; [by apply ends_ret|]. destruct Hq2 as (sent' & Hq2).
    eapply ends_mono; [apply (watchdog_ok q0 hand sent' q2 Hq2)| |done]; [by eapply kato_calm; [apply (rk_calm _ _ _ _ _ _ Hq2)|]|].
    intros q3 [] Hq3; [by eapply acct_broken|by exists sent'].
  - intros n _. apply acct_broken in Ha as [H1 H2]. split; [done|]. etrans; [exact H2|]. apply calm_nic.
Qed.

(** ** The responses arm *)

Lemma take_first_ok q0 sent q q' r :
  settled q0 [] [] [] sent q -> take_response q = (q', Ok (Some r)) -> settled q0 [] [] [r] sent q'.
Proof.
  intros [A1 A2 A3 A4 A5 AW A6 A7 A8 A9 A10 A11 A12 A13 A14]. unfold take_response, try_next. destruct (work (rq_responses q)) as [|r0 rest] eqn:Hw; [done|].
  intros [= <- <-]. unfold settled, out. cbn. cbn in *. split; try done.
  - destruct A1 as [[H1 H2 H3 H4 H5 H6] Hwd]. split; [|exact Hwd]. split; try done. cbn in *. rewrite Hw in H6. by apply list.Forall_cons in H6 as [_ H6].
  - cbn. rewrite A10. cbn. rewrite !map_app. cbn. solve_Permutation.
  - cbn in *. rewrite !list.Forall_cons, !list.Forall_app in *. rewrite list.Forall_cons. tauto.
Qed.

Lemma post_ready_ok q0 r sent q :
  settled q0 [] [] [r] sent q -> ends (post_ready r) q (round_ok q0 []) (fun q' _ => broken q0 q').
Proof.
  intros [A1 A2 A3 A4 A5 AW A6 A7 A8 A9 A10 A11 A12 A13 A14]. unfold post_ready. eapply ends_step; [reflexivity|].
  match goal with |- ends _ ?x _ _ => set (q1 := x) end. set (rest := work (rq_responses q)).
  assert (settled q0 [] [] (r :: rest) sent q1) as Ha.
  { unfold settled, out in *. cbn in *. split; try done.
    - destruct A1 as [[H1 H2 H3 H4 H5 H6] Hwd]. split; [|exact Hwd]. by split.
    - cbn. rewrite A10. fold rest. rewrite !map_app. cbn. solve_Permutation.
    - cbn in *. fold rest in A11. rewrite !list.Forall_app, !list.Forall_cons in *. rewrite !list.Forall_app. tauto. }
  apply ends_bind. eapply ends_mono; [apply (post_responses_ok q0 [] [] (r :: rest) sent q1 Ha)| |done]. intros q2 [] (sent' & Hq2).
  apply ends_ret. by exists sent'.
Qed.

End Reap.
