(* ===== verification/RdmaSystem.v ===== *)
(** * A whole RDMA queue

    [RSys] is a queue with its reap loop, one task per slot, and the adapter:
    the work requests it holds and the host's memory it reads and writes.
    [rsys_step] interleaves them freely, with failing calls and failing work
    requests, and the effects of the rest of the program.  The invariant joins
    [acct] with the state of the tasks.  [RBoot] is the queue before its Connect
    command has been executed, and [rreached] what the queue [run_conn] makes can
    come to. *)

From S2P Require Import Prelude Spec Pool PoolProofs PoolSafety PoolData.
From S2P Require Import SlotQ SlotQProofs SlotQSafety Registry Subsystem Backend.
From S2P Require Import Fabrics Dispatch FabricsExec Admin Io TcpQueue.
From S2P Require Import Connection SegIO ExecLaws AdminProofs ConnProofs.
From S2P Require Import RdmaWire RdmaQueue RdmaData Frame RecvFrame TaskProofs.
From S2P Require Import ExecSafety IoProofs ConnectionProofs System RdmaData RdmaReap.

Section Tasks.
Context {B : Type} {BK : Backend B} {ST : Store B} {SG : StaticGeometry B}.
Variable ring_index : Z -> option Z.
Abbreviation RQ := (RdmaQueue (World B)).
Implicit Types (q : RQ) (s : Slot Sqe).

Abbreviation arr q := (w_slots (rq_nvme q)).
Abbreviation slots_do m := (q_slots (@on_slots B) m).

(** ** A turn of a slot's task *)

(** Where a slot's task is, and what its slot looks like. *)
Definition rtask_ok q (i : nat) (st : RTask) : Prop :=
  exists s, slots (arr q) !! i = Some s /\
    match st with
    | RIdle => state s <> Executing
    | RExec cmd_ k => state s = Executing /\ cmd s = cmd_ /\ await_ok (rq_nvme q) (sqe_cid cmd_) k
    end.

(** Slot [i] goes from [s] to [s'], and nothing else that the loop looks at. *)
Definition turned (i : nat) s s' q q' : Prop :=
  base q' /\ slots (arr q') = <[i := s']> (slots (arr q)) /\ nslots (arr q') = nslots (arr q) /\
  map geo (w_backends (rq_nvme q')) = map geo (w_backends (rq_nvme q)) /\
  is_admin (w_role (rq_nvme q')) = is_admin (w_role (rq_nvme q)) /\
  (store q', rq_inflight q', rq_nic q', rq_staged q', rq_pool_wait q') = (store q, rq_inflight q, rq_nic q, rq_staged q, rq_pool_wait q) /\
  ((length (segs (data s)) <= MAX_SEGS)%nat -> (length (segs (data s')) <= MAX_SEGS)%nat) /\ cmd s' = cmd s.

Lemma turned_trans i s s1 s2 q q1 q2 :
  turned i s s1 q q1 -> turned i s1 s2 q1 q2 -> turned i s s2 q q2.
Proof.
  intros (H1 & H2 & H3 & H4 & H5 & H6 & H7 & H8) (K1 & K2 & K3 & K4 & K5 & K6 & K7 & K8).
  split; [done|]. split; [by rewrite K2, H2, list_insert_insert_eq|]. do 4 (split; [congruence|]). split; [auto|congruence].
Qed.

(** An operation of the slot engine that keeps the slot's buffer. *)
Lemma op_turned q i s s' op a :
  base q -> slots (arr q) !! i = Some s -> enabled (arr q) op -> run_op op (arr q) = (a, Ok tt) ->
  slots a = <[i := s']> (slots (arr q)) -> nslots a = nslots (arr q) -> data s' = data s -> cmd s' = cmd s -> recv_buf s' ->
  turned i s s' q (q_arr a q).
Proof.
  intros Hb Hi Hen Hr Hsl Hn Hd Hc Hrb. pose proof Hb as [Hok _]. destruct (op_safe (arr q) op (ck_slots _ _ Hok) Hen) as (a' & Hr' & Ha').
  rewrite Hr in Hr'. injection Hr' as <-. split.
  - apply base_arr; [done|]. eapply (array_step_ok _ (conn_of q) i s s'); try done. by rewrite Hd.
  - by rewrite Hd.
Qed.

(** Executing a step of the slot's command. *)
Lemma exec_turned q i s (m : M (World B) never Progress) w' (x : Progress) cid :
  base q -> slots (arr q) !! i = Some s -> state s = Executing -> moves (touched i) m -> m (rq_nvme q) = (w', Ok x) ->
  answered (rq_nvme q) cid w' x ->
  exists s', turned i s s' q (set_nvme w' q) /\ state s' = Executing.
Proof.
  intros Hb Hi Hs Hm He [Hw _].
  destruct (on_ctx_ok (E := never) m (conn_of q) i s w' x Hb Hi Hs Hm He Hw) as (c' & s' & _ & [Hc' Hw'] & Hfr & Hcw & Hcs & Hi' & Hs' & Hcmd).
  destruct Hfr as (F1 & F2 & F3 & F4 & F5 & F6 & _). rewrite Hcw in *. exists s'. split; [|done].
  assert (slots (w_slots w') = <[i := s']> (slots (arr q))) as Hsl.
  { specialize (Hm (rq_nvme q)). rewrite He in Hm. destruct Hm as ((_ & _ & _ & evs & _ & [[Hsl _]|(y & d & Hy & Hsl & _)]) & _).
    - cbn in Hsl. rewrite Hsl in Hi' |- *. rewrite Hi in Hi'. injection Hi' as <-. by rewrite list_insert_id.
    - cbn in Hsl. rewrite Hsl in Hi' |- *. rewrite list_lookup_insert_eq in Hi' by (by eapply lookup_lt_Some). injection Hi' as <-. done. }
  split; [|do 5 (split; [done|]); split; [|done]].
  - split; [|exact Hw]. destruct Hc' as [H1 H2 H3 H4 H5 H6]. rewrite Hcw, Hcs in *. split; try done.
    destruct (c_ring c') as [ring|]; [|exact H5]. by destruct (proj1 F4 (ex_intro _ ring eq_refl)).
  - intros Hsh. apply (F6 (fun y Hy => ltac:(cbn in Hy; rewrite Hi in Hy; by injection Hy as <-)) s'). by rewrite Hcw.
Qed.

Lemma begin_turned q i s :
  base q -> slots (arr q) !! i = Some s -> state s = Executing ->
  exists a, slots_do (begin_respond (Z.of_nat i)) q = (q_arr a q, Ok tt) /\ turned i s (with_state Responding s) q (q_arr a q).
Proof.
  intros Hb Hi Hs. pose proof Hb as [Hc _]. destruct (ck_slots _ _ Hc) as (rss & res & Ha). destruct (exec_range _ _ _ _ _ Ha Hi) as [_ Hx].
  pose proof (begin_respond_eq (arr q) i s Hi Hs ltac:(by apply Hx)) as He. eexists. split; [by apply slots_do_eq|].
  eapply (op_turned q i s _ (OpBeginRespond i)); try done; [by exists s|].
  apply busy_buf; [exact (ck_bufs _ _ Hc i s Hi)|done..].
Qed.

(** The response of the command of slot [i]. *)
Definition response_of (i : nat) (cmd_ : Sqe) (r : RdmaResp) : Prop :=
  rr_tag r = Z.of_nat i /\ rr_cmd r = cmd_ /\ cqe_cid (out_cqe (rr_outcome r)) = sqe_cid cmd_.

(** The end of a turn that executed: parked, or answered. *)
Definition turn_end (i : nat) s q q' (st : RTask) : Prop :=
  exists s', turned i s s' q q' /\ rtask_ok q' i st /\
    match st with
    | RExec _ _ => state s' = Executing /\ rq_responses q' = rq_responses q
    | RIdle => state s' = Responding /\ exists r, response_of i (cmd s) r /\ work (rq_responses q') = work (rq_responses q) ++ [r]
    end.

Lemma execute_turn q i s m :
  base q -> slots (arr q) !! i = Some s -> state s = Executing -> moves (touched i) m ->
  runs m (rq_nvme q) (answered (rq_nvme q) (sqe_cid (cmd s))) ->
  exists q' st', (p ← on_nvme m; match p with
      | Parked k => mret (RExec (cmd s) k)
      | Done o => _ ← slots_do (begin_respond (Z.of_nat i)); _ ← push_response {| rr_tag := Z.of_nat i; rr_cmd := cmd s; rr_outcome := o |}; mret RIdle
      end) q = (q', Ok st') /\ turn_end i s q q' st'.
Proof.
  intros Hb Hi Hs Hm (w' & p & He & Hans).
  destruct (exec_turned q i s m w' p _ Hb Hi Hs Hm He Hans) as (s1 & Ht1 & Hs1). set (q1 := set_nvme w' q) in *.
  assert (slots (arr q1) !! i = Some s1) as Hi1 by (destruct Ht1 as (_ & -> & _); apply list_lookup_insert_eq; by eapply lookup_lt_Some).
  assert (cmd s1 = cmd s) as Hc1 by apply Ht1. rewrite (bind_ok _ _ q q1 p) by (unfold on_nvme; by rewrite He). destruct Hans as [_ Hp]. destruct p as [o|k].
  - destruct (begin_turned q1 i s1 (proj1 Ht1) Hi1 Hs1) as (a & Hbr & Ht2). rewrite (bind_ok _ _ _ _ _ Hbr). set (q2 := q_arr a q1) in *.
    set (r := {| rr_tag := Z.of_nat i; rr_cmd := cmd s; rr_outcome := o |}). eexists _, RIdle. split; [reflexivity|].
    match goal with |- turn_end i s q ?x _ => set (q3 := x) end.
    assert (turned i s (with_state Responding s1) q q2) as Ht by (by eapply turned_trans). destruct Ht as (T1 & T2 & T3 & T4 & T5 & T6 & T7 & T8).
    assert (slots (arr q3) !! i = Some (with_state Responding s1)) as Hi3 by (cbn; cbn in T2; rewrite T2; apply list_lookup_insert_eq; by eapply lookup_lt_Some).
    exists (with_state Responding s1). split; [|split; [by exists (with_state Responding s1)|]].
    + split; [|done]. eapply (base_resp q2 q3 r); [exact T1|done|cbn; lia].
    + split; [done|]. exists r. split; [|done]. split; [done|]. split; [done|]. apply Hp.
  - eexists _, (RExec (cmd s) k). split; [reflexivity|]. exists s1. split; [done|]. split; [|done]. exists s1. by rewrite Hc1.
Qed.

Lemma idle_turn q i s t :
  base q -> slots (arr q) !! i = Some s -> state s <> Ready -> state s <> Executing ->
  exists q', rdma_task_turn ring_index t (Z.of_nat i) RIdle q = (q', Ok RIdle) /\ turned i s (with_waker (Some t) s) q q' /\ rq_responses q' = rq_responses q.
Proof.
  intros Hb Hi Hr Hx. pose proof Hb as [Hc _]. pose proof (await_command_park (arr q) i s t Hi Hr) as He. eexists. unfold rdma_task_turn, mbind, M_bind.
  rewrite (slots_do_eq _ _ _ _ He). split; [reflexivity|]. split; [|done].
  eapply (op_turned q i s _ (OpAwaitCommand i t)); try done; [by exists s| |exact (ck_bufs _ _ Hc i s Hi)].
  cbn. unfold mbind, M_bind. by rewrite He.
Qed.

Lemma task_turn_ok q i s t st :
  base q -> room command_room (rq_nvme q) -> slots (arr q) !! i = Some s -> rtask_ok q i st ->
  exists q' st', rdma_task_turn ring_index t (Z.of_nat i) st q = (q', Ok st') /\
    (st = RIdle /\ st' = RIdle /\ state s <> Ready /\ state s <> Executing /\ turned i s (with_waker (Some t) s) q q' /\ rq_responses q' = rq_responses q \/
     (state s = Ready \/ state s = Executing) /\ turn_end i s q q' st').
Proof.
  intros Hb Hroom Hi (s0 & Hi0 & Hst). rewrite Hi in Hi0. injection Hi0 as <-. pose proof Hb as [Hc Hw]. unfold rdma_task_turn.
  destruct st as [|cmd_ k].
  - destruct (decide (state s = Ready)) as [Hr|Hr].
    2:{ destruct (idle_turn q i s t Hb Hi Hr Hst) as (q' & He & Ht & Hre). exists q', RIdle. split; [exact He|]. left. by split_and!. }
    destruct (ck_slots _ _ Hc) as (rss & res & Ha). destruct (exec_range _ _ _ _ _ Ha Hi) as [Hx _].
    pose proof (await_command_ready (arr q) i s t Hi Hr ltac:(apply Hx; by rewrite Hr)) as He. set (s1 := with_state Executing s) in *.
    set (a := moved _ _ _ _ _ _ _) in He. assert (turned i s s1 q (q_arr a q)) as Ht.
    { eapply (op_turned q i s _ (OpAwaitCommand i t)); try done; [by exists s| |]; [cbn; unfold mbind, M_bind; by rewrite He|].
      apply busy_buf; [exact (ck_bufs _ _ Hc i s Hi)|done..]. }
    assert (slots (arr (q_arr a q)) !! i = Some s1) as Hi1 by (cbn; apply list_lookup_insert_eq; by eapply lookup_lt_Some).
    pose proof (ck_bufs _ _ Hc _ _ Hi) as (_ & _ & Hwf & _ & Hpay).
    destruct (execute_turn (q_arr a q) i s1 (execute ring_index t (Z.of_nat i) (cmd s)) (proj1 Ht) Hi1 eq_refl) as (q' & st' & Hex & Hend).
    { apply execute_touched. }
    { apply (execute_answered _ _ _ _ s1); [apply (proj1 Ht)|split; [lia|]; by rewrite Nat2Z.id|apply Hpay; by right|exact Hroom|exact Hwf]. }
    exists q', st'. split.
    + unfold mbind, M_bind in Hex |- *. rewrite (slots_do_eq _ _ _ _ He). destruct (on_nvme _ (q_arr a q)) as [q2 [[o|k]| |]]; exact Hex.
    + right. split; [by left|]. destruct Hend as (s' & T & Hrest). exists s'. split; [by eapply turned_trans|exact Hrest].
  - destruct Hst as (Hs & <- & Hk). destruct (execute_turn q i s (resume ring_index t (Z.of_nat i) k) Hb Hi Hs) as (q' & st' & Hex & Hend).
    { apply resume_touched. }
    { eapply resume_answered; [done|split; [lia|]; by rewrite Nat2Z.id|done|done]. }
    exists q', st'. split; [|right; split; [by right|exact Hend]]. unfold mbind, M_bind in Hex |- *.
    destruct (on_nvme _ q) as [q2 [[o|k2]| |]]; exact Hex.
Qed.

End Tasks.

Section System.
Context {B : Type} {BK : Backend B} {ST : Store B} {SG : StaticGeometry B}.
Variable ring_index : Z -> option Z.
Abbreviation RQ := (RdmaQueue (World B)).
Implicit Types (q : RQ) (s : Slot Sqe).

Abbreviation arr q := (w_slots (rq_nvme q)).

(** ** The adapter *)

(** A capsule of the host, in the buffer of the first receive: its data does not
    reach the end of the address space. *)
Definition capsule_ok (buf : bytes) (idx : Z) : Prop := ks_addr (parse_keyed_sgl (capsule_at buf idx)) + 2 ^ 37 < 2 ^ 64.

(** A completion is raised. *)
Definition nic_done (rq : list RecvWr) (sq : list Wr) (comps : list (Z * Z)) (n : Nic) : Nic :=
  nic_set rq sq (n_cq n ++ comps) (n_armed n) (n_rcs n).

(** The queue, the tasks of its slots, the response the reap loop has taken, the
    host's memory, whether the connection has failed, and whether the loop runs. *)
Record RSys := {
  ry_q : RQ;
  ry_tasks : list RTask;
  ry_first : option RdmaResp;
  ry_host : Z -> mem;
  ry_dead : bool;
  ry_live : bool;
}.

Definition ry_put q (y : RSys) : RSys :=
  {| ry_q := q; ry_tasks := ry_tasks y; ry_first := ry_first y; ry_host := ry_host y; ry_dead := ry_dead y; ry_live := ry_live y |}.

(** What the adapter does: a capsule arrives, the first work request is carried
    out, the connection fails (nothing is carried out any more), or the verbs
    library will return these codes. *)
Inductive nic_step (y : RSys) : RSys -> Prop :=
| nc_recv idx rest cap :
    let q := ry_q y in let n := rq_nic q in
    let buf := put_cell (rq_recv_buf q) CAPSULE_LEN (Z.to_nat idx) cap in
    ry_dead y = false -> in_u 32 idx -> n_rq n = recv_wr (rq_regions q) idx :: rest -> (length cap <= CAPSULE_LEN)%nat -> capsule_ok buf idx ->
    nic_step y (ry_put (set_nic (nic_done rest (n_sq n) [(wr_id_of KRecv idx, 0)] n) (set_bufs buf (rq_resp_buf q) (rq_cdata_buf q) q)) y)
| nc_send w rest host' m' :
    let q := ry_q y in let n := rq_nic q in
    ry_dead y = false -> n_sq n = w :: rest -> exec_wr (ry_host y, w_mem (rq_nvme q)) w = (host', m') ->
    nic_step y {| ry_q := set_nic (nic_done (n_rq n) rest (if wr_signaled w then [(wr_id w, 0)] else []) n)
                            (set_nvme (set_store (w_backends (rq_nvme q)) m' (rq_nvme q)) q);
                  ry_tasks := ry_tasks y; ry_first := ry_first y; ry_host := host'; ry_dead := false; ry_live := ry_live y |}
| nc_fail id st :
    let q := ry_q y in let n := rq_nic q in
    st <> 0 ->
    nic_step y {| ry_q := set_nic (nic_done (n_rq n) (n_sq n) [(id, st)] n) q; ry_tasks := ry_tasks y; ry_first := ry_first y;
                  ry_host := ry_host y; ry_dead := true; ry_live := ry_live y |}
| nc_codes rcs :
    let q := ry_q y in let n := rq_nic q in
    nic_step y (ry_put (set_nic (nic_set (n_rq n) (n_sq n) (n_cq n) (n_armed n) rcs) q) y).

(** ** The loop and the tasks *)

(** After a round of the loop that ended with [r]. *)
Definition ry_after q (r : res RdmaError bool) (y : RSys) : RSys :=
  {| ry_q := q; ry_tasks := ry_tasks y; ry_first := None; ry_host := ry_host y; ry_dead := ry_dead y;
     ry_live := match r with Ok false => true | _ => false end |}.

(** What the rest of the program does to the dispatch context. *)
Definition routside q w' : Prop := outside (conn_of q) (c_set_world w' (conn_of q)).

Inductive rsys_step (y : RSys) : RSys -> Prop :=
| rs_nic y' : nic_step y y' -> rsys_step y y'
| rs_poll q' r :
    ry_live y = true -> ry_first y = None -> process_cqes (ry_q y) = (q', r) -> r <> Panic -> rsys_step y (ry_after q' r y)
| rs_backstop timer q' r :
    ry_live y = true -> ry_first y = None -> kato_ok (rq_nvme (ry_q y)) -> backstop_tick timer (ry_q y) = (q', r) -> r <> Panic ->
    rsys_step y (ry_after q' r y)
| rs_take q' x :
    ry_live y = true -> ry_first y = None -> take_response (ry_q y) = (q', Ok (Some x)) ->
    rsys_step y {| ry_q := q'; ry_tasks := ry_tasks y; ry_first := Some x; ry_host := ry_host y; ry_dead := ry_dead y; ry_live := true |}
| rs_post x q' r :
    ry_live y = true -> ry_first y = Some x -> post_ready x (ry_q y) = (q', r) -> r <> Panic -> rsys_step y (ry_after q' r y)
| rs_probe poll :
    ry_live y = true -> rsys_step y (ry_put (park_probe poll [] (ry_q y)).1 y)
| rs_wait t :
    ry_live y = true -> rsys_step y (ry_put (staged_ready t (ry_q y)).1 y)
| rs_stop : ry_live y = true -> ry_first y = None -> rsys_step y (ry_after (ry_q y) (Ok true) y)
| rs_task i t st q' st' :
    ry_tasks y !! i = Some st -> room command_room (rq_nvme (ry_q y)) ->
    rdma_task_turn ring_index t (Z.of_nat i) st (ry_q y) = (q', Ok st') ->
    rsys_step y {| ry_q := q'; ry_tasks := <[i := st']> (ry_tasks y); ry_first := ry_first y; ry_host := ry_host y; ry_dead := ry_dead y;
                   ry_live := ry_live y |}
| rs_outside w' : routside (ry_q y) w' -> rsys_step y (ry_put (set_nvme w' (ry_q y)) y).

(** ** The invariant *)

Definition rtasks_ok q (tasks : list RTask) : Prop :=
  length tasks = length (slots (arr q)) /\ forall i st, tasks !! i = Some st -> rtask_ok q i st.

(** The responses the loop has in hand. *)
Abbreviation in_hand y := (option_list (ry_first y)).

Definition rsys_ok (y : RSys) : Prop :=
  let q := ry_q y in
  rtasks_ok q (ry_tasks y) /\
  if ry_live y then exists sent, settled q [] [] (in_hand y) sent q else base q.

(** ** Each kind of step keeps it *)

Lemma rebase q0 q1 ids wait hand sent q : calm q1 q -> acct q0 ids wait hand sent q -> acct q1 ids wait hand sent q.
Proof. intros Hc []. by split. Qed.

Lemma tasks_move q q' tasks :
  length (slots (arr q')) = length (slots (arr q)) ->
  (forall i s, state s = Executing -> slots (arr q) !! i = Some s <-> slots (arr q') !! i = Some s) ->
  map geo (w_backends (rq_nvme q)) `prefix_of` map geo (w_backends (rq_nvme q')) ->
  is_admin (w_role (rq_nvme q')) = is_admin (w_role (rq_nvme q)) -> rtasks_ok q tasks -> rtasks_ok q' tasks.
Proof.
  intros Hl He Hg Ha [Hlen Ht]. split; [congruence|]. intros i st Hi. destruct (Ht i st Hi) as (s & Hs & Hst). destruct st as [|cmd_ k].
  - destruct (lookup_lt_is_Some_2 (slots (arr q')) i) as [s' Hs']; [rewrite Hl; by eapply lookup_lt_Some|]. exists s'. split; [done|].
    intros Hx. apply Hst. apply (He i s' Hx) in Hs'. rewrite Hs in Hs'. by injection Hs' as ->.
  - destruct Hst as (Hx & Hc & Hk). exists s. split; [by apply He|]. split; [done|]. split; [done|]. by eapply await_ok_mono.
Qed.

Lemma tasks_calm q q' tasks : calm q q' -> rtasks_ok q tasks -> rtasks_ok q' tasks.
Proof. intros (H1 & H2 & H3 & H4). apply tasks_move; try done; [by rewrite H2|by apply kato_admin]. Qed.

(** A round of the loop. *)
Lemma round_sys y q' r (m : M RQ RdmaError bool) :
  rsys_ok y -> ends m (ry_q y) (round_ok (ry_q y) []) (fun q' _ => broken (ry_q y) q') -> m (ry_q y) = (q', r) -> r <> Panic ->
  rsys_ok (ry_after q' r y).
Proof.
  intros [Ht _] He Hm Hr. unfold ends in He. rewrite Hm in He.
  assert (forall live, ry_live (ry_after q' r y) = live -> calm (ry_q y) q' -> (if live then exists sent, settled (ry_q y) [] [] [] sent q' else base q') ->
    rsys_ok (ry_after q' r y)) as Hend.
  { intros live Hl Hc Hb. split; [by eapply tasks_calm|]. rewrite Hl. destruct live; [|exact Hb]. destruct Hb as (sent & Hb). exists sent. by eapply rebase. }
  destruct r as [[]|e|]; [| | |done].
  - destruct He as [Hb Hc]. by apply (Hend false).
  - destruct He as (sent & He). apply (Hend true); [done|apply (rk_calm _ _ _ _ _ _ He)|by exists sent].
  - destruct He as [Hb Hc]. by apply (Hend false).
Qed.

(** A turn of slot [i]'s task, for the loop. *)
Lemma turn_settled q q' i s s' hand sent :
  settled q [] [] hand sent q -> slots (arr q) !! i = Some s -> turned i s s' q q' ->
  state s' = state s /\ data s' = data s /\ data_len s' = data_len s /\ rq_responses q' = rq_responses q \/
  (state s = Ready \/ state s = Executing) /\
    (state s' = Executing /\ rq_responses q' = rq_responses q \/
     state s' = Responding /\ exists r, response_of i (cmd s) r /\ work (rq_responses q') = work (rq_responses q) ++ [r]) ->
  settled q' [] [] hand sent q'.
Proof.
  intros Ha Hi (T1 & T2 & T3 & T4 & T5 & T6 & T7 & T8) Hcase. injection T6 as S1 S2 S3 S4 S5 S6 S7 S8 S9 S10.
  unfold settled, out. rewrite S10, S9, S8. change (acct q' ([] ++ out [] q) (rq_pool_wait q) hand sent q').
  assert (store q' = store q) as Hst by (unfold store; congruence).
  pose proof (T7 (rk_short _ _ _ _ _ _ Ha i s Hi)) as Hsh. pose proof (proj1 (rk_fits _ _ _ _ _ _ Ha) i s Hi) as Hcf. rewrite <- T8 in Hcf.
  pose proof (view_insert Responding 0 i _ s s' Hi) as Hv. unfold tagged in Hv. cbn [Nat.add] in Hv. rewrite <- T2 in Hv.
  pose proof (rk_resps _ _ _ _ _ _ Ha) as Hrs. apply list.Forall_app in Hrs as [Hrs _].
  destruct Hcase as [(C1 & C2 & C3 & C4)|[Hs [[Hs' C4]|(Hs' & r & (R1 & R2 & R3) & C4)]]].
  - eapply (acct_slot q q' _ _ hand sent q q' i s s'); try done; try (by rewrite C4); try (intros _; by left); try (intros _; by rewrite C2); [intros Hr; left; congruence|].
    rewrite C4, <- (rk_resp _ _ _ _ _ _ Ha). rewrite C1, T8 in Hv. by apply Permutation_app_inv_r in Hv as ->.
  - assert (state s <> Receiving /\ state s <> Responding) as [N1 N2] by (by destruct Hs as [Hs|Hs]; rewrite Hs).
    eapply (acct_slot q q' _ _ hand sent q q' i s s'); try done; try (by rewrite C4).
    rewrite C4, <- (rk_resp _ _ _ _ _ _ Ha). rewrite !decide_False, !app_nil_r in Hv by (done || by rewrite Hs'). by rewrite Hv.
  - assert (state s <> Receiving /\ state s <> Responding) as [N1 N2] by (by destruct Hs as [Hs|Hs]; rewrite Hs).
    eapply (acct_answered q q' _ _ hand sent q q' i s s' r); try done; [by eapply free_not_reading|].
    split; [rewrite R1; lia|]. rewrite R2. split; [by rewrite <- T8|]. by rewrite R3.
Qed.

Lemma turn_tasks q q' i s s' tasks st' :
  rtasks_ok q tasks -> turned i s s' q q' -> rtask_ok q' i st' -> rtasks_ok q' (<[i := st']> tasks).
Proof.
  intros [Hlen Ht] (T1 & T2 & T3 & T4 & T5 & T6 & T7 & T8) Hi. split; [by rewrite length_insert, T2, length_insert|].
  intros j st Hj. destruct (decide (i = j)) as [<-|Hne].
  - destruct (decide (i < length tasks)%nat); [|rewrite list_insert_ge in Hj by lia; apply lookup_lt_Some in Hj; lia].
    rewrite list_lookup_insert_eq in Hj by done. by injection Hj as <-.
  - rewrite list_lookup_insert_ne in Hj by done. destruct (Ht j st Hj) as (y & Hy & Hst). exists y. rewrite T2, list_lookup_insert_ne by done. split; [done|].
    destruct st as [|cmd_ k]; [done|]. destruct Hst as (H1 & H2 & H3). split; [done|]. split; [done|]. eapply await_ok_mono; [|exact T5|exact H3]. by rewrite T4.
Qed.

Lemma task_sys y i t st :
  rsys_ok y -> ry_tasks y !! i = Some st -> room command_room (rq_nvme (ry_q y)) ->
  exists q' st', rdma_task_turn ring_index t (Z.of_nat i) st (ry_q y) = (q', Ok st') /\
    rsys_ok {| ry_q := q'; ry_tasks := <[i := st']> (ry_tasks y); ry_first := ry_first y; ry_host := ry_host y; ry_dead := ry_dead y; ry_live := ry_live y |}.
Proof.
  intros [Ht Hl] Hi Hroom. destruct (proj2 Ht i st Hi) as (s & Hs & Hst).
  assert (base (ry_q y)) as Hb by (destruct (ry_live y); [destruct Hl as (sent & Hl); apply (rk_base _ _ _ _ _ _ Hl)|exact Hl]).
  destruct (task_turn_ok ring_index (ry_q y) i s t st Hb Hroom Hs (proj2 Ht i st Hi)) as (q' & st' & He & Hcase). exists q', st'. split; [exact He|].
  assert (exists s', turned i s s' (ry_q y) q' /\ rtask_ok q' i st' /\
    (state s' = state s /\ data s' = data s /\ data_len s' = data_len s /\ rq_responses q' = rq_responses (ry_q y) \/
     (state s = Ready \/ state s = Executing) /\
     (state s' = Executing /\ rq_responses q' = rq_responses (ry_q y) \/
      state s' = Responding /\ exists r, response_of i (cmd s) r /\ work (rq_responses q') = work (rq_responses (ry_q y)) ++ [r]))) as (s' & Htu & Hrt & Hc).
  { destruct Hcase as [(-> & -> & Hnr & Hnx & Htu & Hre)|(Hs' & s' & Htu & Hrt & Hm)].
    - exists (with_waker (Some t) s). split; [done|]. split; [|by left]. exists (with_waker (Some t) s). split; [|done].
      destruct Htu as (_ & -> & _). apply list_lookup_insert_eq. by eapply lookup_lt_Some.
    - exists s'. split; [done|]. split; [done|]. right. split; [done|]. by destruct st'; [right|left]. }
  split; [by eapply turn_tasks|]. cbn. destruct (ry_live y); [|apply Htu]. destruct Hl as (sent & Hl). exists sent. by eapply turn_settled.
Qed.

(** The adapter. *)
Lemma capsule_other buf i j cap :
  (Z.to_nat i * CAPSULE_LEN + CAPSULE_LEN <= length buf)%nat -> (length cap <= CAPSULE_LEN)%nat -> 0 <= i -> 0 <= j -> j <> i ->
  capsule_at (put_cell buf CAPSULE_LEN (Z.to_nat i) cap) j = capsule_at buf j.
Proof. intros. unfold capsule_at. by rewrite put_cell_other by lia. Qed.

Lemma nic_sys y y' : rsys_ok y -> nic_step y y' -> rsys_ok y'.
Proof.
  intros [Ht Hl] Hst. destruct Hst as [idx rest cap q n buf Hd Hu Hrq Hcap Hfit|w rest host' m' q n Hd Hsq Hex|id st q n Hne|rcs q n];
    (split; [exact Ht|]); cbn; (destruct (ry_live y); [destruct Hl as (sent & Hl); exists sent; unfold settled|]).
  - set (q' := set_nic _ _). assert (out [] q' ≡ₚ out [] q) as Hout.
    { unfold out, owed, q'. cbn. fold n. rewrite Hrq, done_ids_app. cbn. solve_Permutation. }
    apply (rebase q); [by apply calm_same|]. eapply acct_perm; [cbn [app]; symmetry; exact Hout|]. apply acct_nic.
    assert (0 <= idx < rq_nslots q) as Hidx.
    { eapply (hand_range q); [|exact Hu]. eapply acct_perm; [|exact Hl]. unfold out, owed. fold q n. rewrite Hrq. cbn.
      assert (forall l k, l ++ (wr_id_of KRecv idx :: k) ≡ₚ wr_id_of KRecv idx :: l ++ k) as Hm by (intros; solve_Permutation). apply Hm. }
    destruct Hl as [A1 A2 A3 A4 A5 AW A6 A7 A8 A9 A10 A11 A12 A13 A14]. pose proof A4 as (Z1 & Z2 & Z3).
    assert (Z.to_nat idx * CAPSULE_LEN + CAPSULE_LEN <= length (rq_recv_buf q))%nat as Hroom by (fold q in Z2; rewrite Z2; remember CAPSULE_LEN; nia).
    split; try done.
    + split; [done|]. cbn. split; [|done]. unfold buf. rewrite put_cell_length by lia. done.
    + destruct A5 as (F1 & F2 & F3). split; [done|]. split; [|done]. intros j Hj. cbn in Hj |- *. destruct (decide (j = idx)) as [->|].
      * split; [|exact Hfit]. apply Sqe_view_wf. unfold bytes_at. rewrite !length_take, length_drop. unfold buf. rewrite put_cell_length by lia.
        assert (SQE_LEN <= CAPSULE_LEN)%nat by (vm_compute; lia). unfold SQE_LEN in *. lia.
      * unfold buf. rewrite capsule_other by (done || lia). by apply F2.
  - exact Hl.
  - apply (rebase q); [by apply calm_same|]. apply acct_nic, acct_mem. eapply acct_perm; [|exact Hl]. cbn [app]. unfold n, q in *. unfold out, owed. cbn.
    rewrite Hsq, done_ids_app. destruct (wr_signaled w) eqn:Hw; [rewrite filter_cons_True by done|rewrite filter_cons_False by congruence]; cbn; solve_Permutation.
  - destruct Hl as [[] []]. by split.
  - apply (rebase q); [by apply calm_same|]. apply acct_nic. eapply acct_perm; [|exact Hl]. cbn [app]. unfold out, owed. cbn. fold n.
    rewrite done_ids_app. assert (done_ids [(id, st)] = []) as -> by (cbn; by destruct (Z.eqb_spec st 0)). by rewrite app_nil_r.
  - exact Hl.
  - apply (rebase q); [by apply calm_same|]. by apply acct_nic.
  - exact Hl.
Qed.

(** The probe moves completions, and nothing the invariant speaks about. *)
Definition probed q q' : Prop :=
  exists n wr st wk wo t, q' = set_nic n (set_side wr st wk wo t q) /\ done_ids st ++ owed n ≡ₚ done_ids (rq_staged q) ++ owed (rq_nic q).

Lemma probe_moves poll q : probed q (park_probe poll [] q).1.
Proof.
  assert (forall ar rcs wk wo, let n := rq_nic q in
    probed q (set_nic (nic_set (n_rq n) (n_sq n) [] ar rcs) (set_side (rq_wr q) (rq_staged q ++ n_cq n) wk wo (rq_watchdog_tick q) q))) as H.
  { intros. eexists _, _, _, _, _, _. split; [reflexivity|]. unfold owed. cbn. rewrite done_ids_app. solve_Permutation. }
  assert (forall (P : RQ -> Prop) (l : list (Z * Z)) (x y : RQ * bool), P x.1 -> P y.1 -> P (match l with [] => x | _ => y end).1) as Hm
    by (by intros P [] x y).
  unfold park_probe, arm, verb, mbind, M_bind, modify, get, fail. unfold set_nic, set_side, nic_set in *. cbn in *.
  destruct (bool_decide _ && _).
  - destruct (n_rcs (rq_nic q)) as [|rc rcs]; [|destruct (rc =? 0)]; cbn; rewrite ?app_nil_r; try apply Hm; apply H.
  - cbn. apply Hm; apply H.
Qed.

Lemma probe_sys y poll : rsys_ok y -> ry_live y = true -> rsys_ok (ry_put (park_probe poll [] (ry_q y)).1 y).
Proof.
  intros [Ht Hl] Hlive. rewrite Hlive in Hl. destruct Hl as (sent & Hl). destruct (probe_moves poll (ry_q y)) as (n & wr & st & wk & wo & t & He & Hp).
  unfold rsys_ok. cbn. rewrite He, Hlive. split; [exact Ht|]. exists sent. unfold settled. apply (rebase (ry_q y)); [by apply calm_same|].
  apply acct_nic, acct_side. eapply acct_perm; [|exact Hl]. unfold out. cbn. by rewrite Hp.
Qed.

Lemma outside_sys y w' : rsys_ok y -> routside (ry_q y) w' -> rsys_ok (ry_put (set_nvme w' (ry_q y)) y).
Proof.
  intros [Ht Hl] (O1 & O2 & _ & _ & O3 & O4 & O5). cbn in O1, O2, O3, O4. set (q := ry_q y) in *. set (q' := set_nvme w' q).
  assert (base q -> base q') as Hb.
  { intros [[H1 H2 H3 H4 H5 H6] _]. split; [|exact O5]. split; cbn in *; rewrite ?O1, ?O2; done. }
  split; [apply (tasks_move q); cbn; rewrite ?O1; try done|]. cbn. destruct (ry_live y); [|by apply Hb]. destruct Hl as (sent & Hl). exists sent.
  pose proof Hl as [A1 A2 A3 A4 A5 AW A6 A7 A8 A9 A10 A11 A12 A13 A14]. unfold settled. fold q'. change (out [] q') with (out [] q).
  change (rq_pool_wait q') with (rq_pool_wait q).
  split; try done; try (unfold sizes, fits, waiting, receiving, posted in *; cbn; by rewrite ?O1).
  - by apply Hb.
  - intros i x. cbn. rewrite O1. apply A3.
Qed.

Lemma rsys_step_ok y y' : rsys_ok y -> rsys_step y y' -> rsys_ok y'.
Proof.
  intros Hy Hst. pose proof Hy as [Ht Hl].
  destruct Hst as [y' Hn|q' r Hlv Hf He Hr|timer q' r Hlv Hf Hk He Hr|q' x Hlv Hf He|x q' r Hlv Hf He Hr|poll Hlv|t Hlv|Hlv Hf|i t st q' st' Hi Hroom He|w' Ho].
  - by eapply nic_sys.
  - rewrite Hlv, Hf in Hl. destruct Hl as (sent & Hl). eapply round_sys; [done|by eapply process_cqes_ok|done|done].
  - rewrite Hlv, Hf in Hl. destruct Hl as (sent & Hl). eapply round_sys; [done|by eapply backstop_ok|done|done].
  - rewrite Hlv, Hf in Hl. destruct Hl as (sent & Hl). pose proof (take_first_ok _ _ _ _ _ Hl He) as H1. pose proof (rk_calm _ _ _ _ _ _ H1) as Hc.
    split; [by eapply tasks_calm|]. exists sent. by eapply rebase.
  - rewrite Hlv, Hf in Hl. destruct Hl as (sent & Hl). eapply round_sys; [done|by eapply post_ready_ok|done|done].
  - by apply probe_sys.
  - rewrite Hlv in Hl. destruct Hl as (sent & Hl). unfold staged_ready, mbind, M_bind, get, modify, mret, M_ret.
    destruct (rq_staged (ry_q y)) eqn:Hst; cbn [fst]; [|by destruct y].
    split; [exact Ht|]. cbn. rewrite Hlv. exists sent. apply (rebase (ry_q y)); [by apply calm_same|]. apply acct_side. unfold settled, out in Hl. exact Hl.
  - rewrite Hlv in Hl. destruct Hl as (sent & Hl). split; [exact Ht|]. apply (rk_base _ _ _ _ _ _ Hl).
  - destruct (task_sys y i t st Hy Hi Hroom) as (q1 & st1 & He1 & Hok). rewrite He in He1. by injection He1 as -> ->.
  - by apply outside_sys.
Qed.

(** No part panics in this state, whatever it does next. *)
Definition rno_panic (y : RSys) : Prop :=
  (ry_live y = true -> ry_first y = None ->
     (process_cqes (ry_q y)).2 <> Panic /\ forall timer, kato_ok (rq_nvme (ry_q y)) -> (backstop_tick timer (ry_q y)).2 <> Panic) /\
  (forall x, ry_live y = true -> ry_first y = Some x -> (post_ready x (ry_q y)).2 <> Panic) /\
  (forall i t st, ry_tasks y !! i = Some st -> room command_room (rq_nvme (ry_q y)) ->
     (rdma_task_turn ring_index t (Z.of_nat i) st (ry_q y)).2 <> Panic).

Lemma ends_no_panic {S E A} (m : M S E A) (x : S) Q R : ends m x Q R -> (m x).2 <> Panic.
Proof. unfold ends. by destruct (m x) as [x' [a|e|]]. Qed.

Lemma rsys_no_panic y : rsys_ok y -> rno_panic y.
Proof.
  intros Hy. pose proof Hy as [Ht Hl]. split; [|split].
  - intros Hlv Hf. rewrite Hlv, Hf in Hl. destruct Hl as (sent & Hl).
    split; [by eapply ends_no_panic, process_cqes_ok|]. intros timer Hk. by eapply ends_no_panic, backstop_ok.
  - intros x Hlv Hf. rewrite Hlv, Hf in Hl. destruct Hl as (sent & Hl). by eapply ends_no_panic, post_ready_ok.
  - intros i t st Hi Hroom. destruct (task_sys y i t st Hy Hi Hroom) as (q' & st' & -> & _). done.
Qed.

End System.

Section Bootstrap.
Context {B : Type} {BK : Backend B} {ST : Store B} {SG : StaticGeometry B}.
Variable ring_index : Z -> option Z.
Abbreviation BQ := (RdmaQueue Nvme).
Implicit Types (q : BQ) (b : Boot).

(** ** The queue before its Connect command *)

(** [q0], the queue as it was made, with the adapter, the receive buffers, the
    connect data and the counters moved on. *)
Definition boot_of (q0 : BQ) (n : Nic) (recv cdata : bytes) (wr : list WrEvent) : BQ :=
  set_nic n (set_bufs recv (rq_resp_buf q0) cdata (set_side wr [] (rq_probe_waker q0) (rq_woken q0) (rq_watchdog_tick q0) q0)).

(** What is owed a completion: receives, each of its own buffer, and at most one
    read, which is the one of the connect data. *)
Definition boot_ids (nslots : Z) (reading : bool) (ids : list Z) : Prop :=
  NoDup (lows KRecv ids) /\ Forall (fun x => 0 <= x < nslots) (lows KRecv ids) /\
  lows KWrite ids = [] /\ lows KSend ids = [] /\ (length (lows KRead ids) <= if reading then 1 else 0)%nat.

Definition reading b : bool := match b with BtData _ => true | _ => false end.

Definition boot_cmd b : Prop := match b with BtCapsule => True | BtData x | BtConnect x _ => cmd_fits x end.

Definition boot_ok (q0 : BQ) (b : Boot) (q : BQ) : Prop :=
  exists n recv cdata wr, q = boot_of q0 n recv cdata wr /\ length recv = length (rq_recv_buf q0) /\ length cdata = ICD_LEN /\
    (forall idx, 0 <= idx < rq_nslots q0 -> cmd_fits (capsule_at recv idx)) /\ boot_ids (rq_nslots q0) (reading b) (owed n) /\ boot_cmd b.

(** What the adapter does meanwhile: a capsule arrives, the connect data is read,
    a completion fails, the verbs library will return these codes. *)
Inductive boot_nic q : BQ -> Prop :=
| bn_recv idx rest cap :
    let n := rq_nic q in let buf := put_cell (rq_recv_buf q) CAPSULE_LEN (Z.to_nat idx) cap in
    in_u 32 idx -> n_rq n = recv_wr (rq_regions q) idx :: rest -> (length cap <= CAPSULE_LEN)%nat -> capsule_ok buf idx ->
    boot_nic q (set_nic (nic_done rest (n_sq n) [(wr_id_of KRecv idx, 0)] n) (set_bufs buf (rq_resp_buf q) (rq_cdata_buf q) q))
| bn_read w rest data :
    let n := rq_nic q in
    n_sq n = w :: rest -> length data = Z.to_nat (sge_len (wr_sge w)) ->
    boot_nic q (set_nic (nic_done (n_rq n) rest (if wr_signaled w then [(wr_id w, 0)] else []) n)
                  (set_bufs (rq_recv_buf q) (rq_resp_buf q) (take ICD_LEN (data ++ drop (length data) (rq_cdata_buf q))) q))
| bn_fail id st :
    let n := rq_nic q in st <> 0 -> boot_nic q (set_nic (nic_done (n_rq n) (n_sq n) [(id, st)] n) q)
| bn_codes rcs :
    let n := rq_nic q in boot_nic q (set_nic (nic_set (n_rq n) (n_sq n) (n_cq n) (n_armed n) rcs) q).

Lemma boot_ids_perm n r ids ids' : ids ≡ₚ ids' -> boot_ids n r ids -> boot_ids n r ids'.
Proof.
  intros Hp (H1 & H2 & H3 & H4 & H5). assert (forall k, lows k ids = [] -> lows k ids' = []) as Hn.
  { intros k Hk. apply Permutation_nil_r. by rewrite <- Hk, Hp. }
  split; [by rewrite <- Hp|]. split; [by rewrite <- Hp|]. split; [auto|]. split; [auto|]. by rewrite <- Hp.
Qed.

(** Completions may be forgotten. *)
Lemma boot_ids_drop n r ids ids' : boot_ids n r (ids ++ ids') -> boot_ids n r ids'.
Proof.
  unfold boot_ids. rewrite !lows_app. intros (H1 & H2 & H3 & H4 & H5). apply list.NoDup_app in H1 as (_ & _ & H1).
  apply list.Forall_app in H2 as [_ H2]. apply app_eq_nil in H3 as [_ H3], H4 as [_ H4]. rewrite length_app in H5. by split_and!; try lia.
Qed.

#[local] Opaque CAPSULE_LEN ICD_LEN.

Lemma boot_nic_ok q0 b q q' : boot_ok q0 b q -> 0 <= rq_nslots q0 ->
  length (rq_recv_buf q0) = (Z.to_nat (rq_nslots q0) * CAPSULE_LEN)%nat -> boot_nic q q' -> boot_ok q0 b q'.
Proof.
  intros (n & recv & cdata & wr & -> & Hr & Hc & Hf & Hi & Hb) Hn0 Hlen Hst.
  destruct Hst as [idx rest cap n' buf Hu Hrq Hcap Hfit|w rest data n' Hsq Hd|id st n' Hne|rcs n']; cbn in *.
  - assert (boot_ids (rq_nslots q0) (reading b) (owed (nic_done rest (n_sq n) [(wr_id_of KRecv idx, 0)] n))) as Hids.
    { eapply boot_ids_perm; [|exact Hi]. unfold owed. rewrite Hrq. cbn. rewrite done_ids_app. cbn. solve_Permutation. }
    assert (0 <= idx < rq_nslots q0) as Hidx.
    { destruct Hi as (_ & Hi & _). unfold owed in Hi. rewrite Hrq in Hi. cbn [map app recv_wr rw_id] in Hi. rewrite lows_cons, lows_id, decide_True in Hi by done.
      by apply list.Forall_cons in Hi as [Hi _]. }
    assert (Z.to_nat idx * CAPSULE_LEN + CAPSULE_LEN <= length recv)%nat as Hroom by (rewrite Hr, Hlen; nia).
    eexists _, buf, cdata, wr. split; [reflexivity|]. split; [unfold buf; rewrite put_cell_length by lia; done|]. split; [done|].
    split; [|done]. intros j Hj. destruct (decide (j = idx)) as [->|].
    + split; [|exact Hfit]. apply Sqe_view_wf. unfold bytes_at. rewrite !length_take, length_drop. unfold buf. rewrite put_cell_length by lia.
      assert (SQE_LEN <= CAPSULE_LEN)%nat by (vm_compute; lia). unfold SQE_LEN in *. lia.
    + unfold buf. rewrite capsule_other by (done || lia). by apply Hf.
  - eexists _, recv, (take ICD_LEN (data ++ drop (length data) cdata)), wr. split; [reflexivity|]. split; [done|].
    split; [rewrite length_take, length_app, length_drop, Hc; lia|]. split; [done|]. split; [|done].
    eapply boot_ids_perm; [|exact Hi]. unfold owed. cbn. rewrite Hsq, done_ids_app.
    destruct (wr_signaled w) eqn:Hw; [rewrite filter_cons_True by done|rewrite filter_cons_False by congruence]; cbn; solve_Permutation.
  - eexists _, recv, cdata, wr. split; [reflexivity|]. do 3 (split; [done|]). split; [|done]. unfold owed in *. cbn.
    rewrite done_ids_app. assert (done_ids [(id, st)] = []) as -> by (cbn; by destruct (Z.eqb_spec st 0)). by rewrite app_nil_r.
  - eexists _, recv, cdata, wr. by split.
Qed.

(** A poll looks at each completion until the one it waits for. *)
Lemma scan_ok kind comps : forall q,
  lows KWrite (done_ids comps) = [] -> lows KSend (done_ids comps) = [] ->
  ends (bootstrap_scan (@nv_on) kind comps) q
    (fun q' r => (exists wr, q' = set_side wr (rq_staged q) (rq_probe_waker q) (rq_woken q) (rq_watchdog_tick q) q) /\
                 forall low, r = Some low -> low ∈ lows kind (done_ids comps)) (fun _ _ => True).
Proof.
  induction comps as [|[id st] comps IH]; intros q Hw Hs; cbn [bootstrap_scan].
  { apply ends_ret. split; [|done]. exists (rq_wr q). by destruct q. }
  destruct (Z.eqb_spec st 0) as [->|Hst]; cbn [negb]; [|by apply ends_fail]. change (done_ids ((id, 0) :: comps)) with (id :: done_ids comps) in *.
  rewrite lows_cons in Hw, Hs. apply app_eq_nil in Hw as [Hw1 Hw], Hs as [Hs1 Hs]. specialize (IH q Hw Hs).
  assert (forall low, low ∈ lows kind (done_ids comps) -> low ∈ lows kind (id :: done_ids comps)) as Hmono
    by (intros low Hl; rewrite lows_cons; apply elem_of_app; by right).
  assert (ends (bootstrap_scan (@nv_on) kind comps) q (fun q' r =>
    (exists wr, q' = set_side wr (rq_staged q) (rq_probe_waker q) (rq_woken q) (rq_watchdog_tick q) q) /\
    forall low, r = Some low -> low ∈ lows kind (id :: done_ids comps)) (fun _ _ => True)) as Hrest.
  { eapply ends_mono; [exact IH| |done]. intros q' r [H1 H2]. split; [done|]. intros low Hl. by apply Hmono, H2. }
  destruct (decode id) as [w|] eqn:Hd; [|exact Hrest].
  assert (low_of (wi_kind w) id = Some (wi_low w)) as Hlow by (unfold low_of; rewrite Hd; cbn; by rewrite decide_True).
  case_decide as Hk.
  - eapply ends_step; [reflexivity|]. apply ends_ret. split; [by eexists|]. intros low [= <-]. rewrite lows_cons, <- Hk, (lows_of _ _ _ _ Hlow), decide_True by done.
    by left.
  - rewrite (lows_of _ KWrite _ _ Hlow) in Hw1. rewrite (lows_of _ KSend _ _ Hlow) in Hs1. destruct (wi_kind w); cbn [service_response]; try done; (eapply ends_step; [reflexivity|]; exact Hrest).
Qed.

(** A completion of a drained batch is not owed again. *)
Lemma boot_ids_take n ids ids' idx :
  boot_ids n false (ids ++ ids') -> idx ∈ lows KRecv ids -> in_u 32 idx -> boot_ids n false (wr_id_of KRecv idx :: ids').
Proof.
  intros H Hin Hu. pose proof (boot_ids_drop _ _ _ _ H) as (H1 & H2 & H3 & H4 & H5). destruct H as (N1 & N2 & _).
  rewrite lows_app in N1, N2. apply list.NoDup_app in N1 as (_ & N1 & _). apply list.Forall_app in N2 as [N2 _]. rewrite list.Forall_forall in N2.
  unfold boot_ids. rewrite !(lows_cons _ _ ids'), !lows_id by done. cbn. split_and!; try done; [apply list.NoDup_cons; auto|constructor; auto].
Qed.

Lemma boot_ids_read n ids ids' low : boot_ids n true (ids ++ ids') -> low ∈ lows KRead ids -> boot_ids n false ids'.
Proof.
  intros H Hin. pose proof (boot_ids_drop _ _ _ _ H) as (H1 & H2 & H3 & H4 & _). destruct H as (_ & _ & _ & _ & H5).
  rewrite lows_app, length_app in H5. destruct (lows KRead ids) as [|x l]; [by apply not_elem_of_nil in Hin|]. split_and!; try done. cbn in H5. lia.
Qed.

Lemma boot_sizes q0 n recv cdata wr idx :
  0 <= idx < rq_nslots q0 -> length recv = length (rq_recv_buf q0) -> length (rq_recv_buf q0) = (Z.to_nat (rq_nslots q0) * CAPSULE_LEN)%nat ->
  recv_slice idx (boot_of q0 n recv cdata wr) = (boot_of q0 n recv cdata wr, Ok (bytes_at recv (Z.to_nat idx * CAPSULE_LEN) CAPSULE_LEN)) /\
  length (bytes_at recv (Z.to_nat idx * CAPSULE_LEN) CAPSULE_LEN) = CAPSULE_LEN.
Proof.
  intros Hi Hr Hl. assert (Z.to_nat idx * CAPSULE_LEN + CAPSULE_LEN <= length recv)%nat as Hroom by (rewrite Hr, Hl; nia). split.
  - unfold recv_slice, mbind, M_bind, get, lift, assert. cbn [boot_of set_nic set_bufs rq_recv_buf].
    rewrite (proj2 (Nat.leb_le _ _)) by done. done.
  - unfold bytes_at. rewrite length_take, length_drop. lia.
Qed.

(** The sizes [RdmaQueue::new] chose. *)
Definition boot_made (q0 : BQ) : Prop :=
  0 < rq_nslots q0 < 2 ^ 16 /\ length (rq_recv_buf q0) = (Z.to_nat (rq_nslots q0) * CAPSULE_LEN)%nat.

Lemma boot_recv_ok q0 n recv cdata wr idx (Q : BQ -> unit -> Prop) :
  (forall rcs wr', Q (boot_of q0 (nic_set (n_rq n ++ [recv_wr (rq_regions q0) idx]) (n_sq n) (n_cq n) (n_armed n) rcs) recv cdata wr') tt) ->
  ends (post_recv idx) (boot_of q0 n recv cdata wr) Q (fun _ _ => True).
Proof.
  intros HQ. unfold post_recv. apply ends_get. apply ends_bind, verb_ends; [|done]. intros rcs n'.
  pose proof (HQ rcs (wr ++ [EvPost KRecv 1] ++ [EvHist RecvDb 1])) as H. rewrite app_assoc in H. subst n'. cbn [boot_of set_nic set_bufs set_side rq_nic rq_regions].
  rewrite (app_nil_r (n_sq n)). exact H.
Qed.

Lemma boot_drain q0 n recv cdata wr :
  drain (boot_of q0 n recv cdata wr) = (boot_of q0 (nic_set (n_rq n) (n_sq n) [] (n_armed n) (n_rcs n)) recv cdata wr, Ok (n_cq n)).
Proof. reflexivity. Qed.

Lemma owed_drained n : owed n ≡ₚ done_ids (n_cq n) ++ owed (nic_set (n_rq n) (n_sq n) [] (n_armed n) (n_rcs n)).
Proof. unfold owed. cbn. solve_Permutation. Qed.

(** The Connect capsule: its buffer is posted again, and its data read if it is
    not in the capsule. *)
Lemma boot_capsule_ok q0 n recv cdata wr idx :
  boot_made q0 -> 0 <= idx < rq_nslots q0 -> length recv = length (rq_recv_buf q0) -> length cdata = ICD_LEN ->
  (forall idx, 0 <= idx < rq_nslots q0 -> cmd_fits (capsule_at recv idx)) -> boot_ids (rq_nslots q0) false (wr_id_of KRecv idx :: owed n) ->
  ends (boot_capsule idx) (boot_of q0 n recv cdata wr)
    (fun q' p => boot_ok q0 (match p.2 with Some cd => BtConnect p.1 cd | None => BtData p.1 end) q') (fun _ _ => True).
Proof.
  intros [Hn Hl] Hidx Hr Hc Hf Hids. unfold boot_capsule. destruct (boot_sizes q0 n recv cdata wr idx Hidx Hr Hl) as [He Hlen].
  eapply ends_step; [exact He|]. set (s := bytes_at recv _ _) in *.
  assert (read_from_bytes SQE_LEN Sqe_view (take SQE_LEN s) = Some (capsule_at recv idx)) as ->.
  { unfold read_from_bytes. rewrite decide_True; [done|]. rewrite length_take, Hlen. by vm_compute. }
  eapply ends_step; [reflexivity|]. set (sqe := capsule_at recv idx). pose proof (Hf idx Hidx) as Hfit.
  assert (forall cd, ends (_ ← post_recv idx; _ ← match cd with
      | Some _ => mret tt
      | None => let sgl := parse_keyed_sgl sqe in post_read_cdata sgl (Z.min (ks_len sgl) (Z.of_nat ICD_LEN)) end; mret (sqe, cd))
    (boot_of q0 n recv cdata wr)
    (fun q' p => boot_ok q0 (match p.2 with Some cd => BtConnect p.1 cd | None => BtData p.1 end) q') (fun _ _ => True)) as Hgo.
  { intros cd. apply ends_bind, boot_recv_ok. intros rcs wr'. set (n1 := nic_set _ _ _ _ rcs).
    assert (boot_ids (rq_nslots q0) false (owed n1)) as H1.
    { eapply boot_ids_perm; [|exact Hids]. unfold n1. pose proof (owed_posted [recv_wr (rq_regions q0) idx] [] n rcs) as Hp. rewrite app_nil_r in Hp. by rewrite Hp. }
    destruct cd as [cd|].
    - eapply ends_step; [reflexivity|]. apply ends_ret. exists n1, recv, cdata, wr'. by split_and!.
    - cbn zeta. apply ends_bind. unfold post_read_cdata. apply ends_get. apply ends_bind, verb_ends; [|done]. intros rcs2 n2.
      eapply ends_step; [reflexivity|]. apply ends_ret. eexists _, recv, cdata, _. split; [reflexivity|]. do 3 (split; [done|]). split; [|done].
      eapply boot_ids_perm; [symmetry; apply owed_posted|]. change (boot_ids (rq_nslots q0) true (wr_id_of KRead 0 :: owed n1)). destruct H1 as (I1 & I2 & I3 & I4 & I5). unfold boot_ids.
      rewrite !(lows_cons _ _ (owed n1)), !lows_id by (unfold in_u; lia). cbn [decide app length WrKind_eq_dec]. split_and!; try done. simpl. lia. }
  destruct (Z.shiftr _ _ =? _); [eapply ends_step; [reflexivity|]; apply (Hgo None)|].
  destruct (read_from_bytes 1024 _ _) as [cd|]; [eapply ends_step; [reflexivity|]; apply (Hgo (Some cd))|]. apply ends_bind. by apply ends_fail.
Qed.

Lemma boot_poll_ok q0 b q : boot_made q0 -> boot_ok q0 b q -> ends (boot_poll b) q (fun q' b' => boot_ok q0 b' q') (fun _ _ => True).
Proof.
  intros Hm Hb. pose proof Hm as [Hn Hl]. pose proof Hb as (n & recv & cdata & wr & -> & Hr & Hc & Hf & Hi & Hcmd).
  assert (forall kind f, (forall wr' low, (forall x, low = Some x -> x ∈ lows kind (done_ids (n_cq n))) ->
      ends (f low) (boot_of q0 (nic_set (n_rq n) (n_sq n) [] (n_armed n) (n_rcs n)) recv cdata wr') (fun q' b' => boot_ok q0 b' q') (fun _ _ => True)) ->
    ends (comps ← drain; low ← bootstrap_scan (@nv_on) kind comps; f low) (boot_of q0 n recv cdata wr) (fun q' b' => boot_ok q0 b' q') (fun _ _ => True)) as Hscan.
  { intros kind f Hfk. eapply ends_step; [apply boot_drain|]. apply ends_bind. eapply ends_mono; [apply scan_ok| |done].
    - destruct Hi as (_ & _ & Hi & _). apply Permutation_nil_r. unfold owed in Hi. rewrite !lows_app in Hi. apply app_eq_nil in Hi as [_ Hi].
      apply app_eq_nil in Hi as [_ Hi]. by rewrite Hi.
    - destruct Hi as (_ & _ & _ & Hi & _). apply Permutation_nil_r. unfold owed in Hi. rewrite !lows_app in Hi. apply app_eq_nil in Hi as [_ Hi].
      apply app_eq_nil in Hi as [_ Hi]. by rewrite Hi.
    - intros q' low [[wr' ->] Hlow]. apply (Hfk wr' low Hlow). }
  pose proof (boot_ids_perm _ _ _ _ (owed_drained n) Hi) as Hi1.
  destruct b as [|sqe|sqe cd]; cbn [boot_poll reading] in *; [| |by apply ends_ret]; apply Hscan; intros wr' [low|] Hlow.
  - specialize (Hlow low eq_refl). assert (0 <= low < rq_nslots q0) as Hidx.
    { destruct Hi1 as (_ & Hi1 & _). rewrite lows_app in Hi1. apply list.Forall_app in Hi1 as [Hi1 _]. rewrite list.Forall_forall in Hi1. by apply Hi1. }
    apply ends_bind. eapply ends_mono; [apply boot_capsule_ok; try done; eapply boot_ids_take; [exact Hi1|done|unfold in_u; lia]| |done].
    intros q' p H. by apply ends_ret.
  - apply ends_ret. eexists _, recv, cdata, wr'. split_and!; try done; by eapply boot_ids_drop.
  - specialize (Hlow low eq_refl). apply ends_bind. unfold boot_data. apply ends_get. destruct (read_from_bytes _ _ _) as [cd|]; [|done].
    eexists _, recv, cdata, wr'. split_and!; try done. by eapply boot_ids_read.
  - apply ends_ret. eexists _, recv, cdata, wr'. split_and!; try done; by eapply boot_ids_drop.
Qed.

(** ** Making and priming the queue *)

Definition conn_pool_bytes (qid sqsize queue_buf_bytes : Z) : Z :=
  if qid =? 0 then Z.max sqsize 1 * ADMIN_DATA_MAX else queue_buf_bytes.

Definition rsetup_ok (qid sqsize arena queue_buf_bytes : Z) : Prop :=
  let n := pages_for (conn_pool_bytes qid sqsize queue_buf_bytes) in
  in_u 16 qid /\ 0 < sqsize < 2 ^ 16 /\ 0 <= arena /\ arena + n * PAGE < 2 ^ 64 /\ n < 2 ^ 32.

(** The adapter before the first call. *)
Definition fresh_nic (n : Nic) : Prop := n_rq n = [] /\ n_sq n = [] /\ n_cq n = [].

(** A queue just made. *)
Record made (qid sqsize : Z) (nic : Nic) q0 : Prop := {
  md_boot : boot_made q0;
  md_size : rq_nslots q0 = sqsize;
  md_arr : arr_ok (nv_slots (rq_nvme q0));
  md_slots : slots (nv_slots (rq_nvme q0)) = replicate (Z.to_nat sqsize) (Slot_new Sqe_zeroed);
  md_nslots : nslots (nv_slots (rq_nvme q0)) = sqsize;
  md_core : exists dis, nv_core (rq_nvme q0) = QueueCore_new qid sqsize dis;
  md_nic : rq_nic q0 = nic;
  md_bufs : rq_recv_buf q0 = zeroes (Z.to_nat sqsize * CAPSULE_LEN) /\ length (rq_resp_buf q0) = (Z.to_nat sqsize * CQE_LEN)%nat /\
    length (rq_cdata_buf q0) = ICD_LEN;
  md_work : length (rq_inflight q0) = Z.to_nat sqsize /\ rq_responses q0 = SendList_new /\ rq_pending_read q0 = replicate (Z.to_nat sqsize) Sqe_zeroed;
  md_rest : rq_staged q0 = [] /\ rq_read_batch q0 = [] /\ rq_parked q0 = [] /\ rq_pool_wait q0 = [];
}.

Lemma rdma_new_ok qid sqsize dis g nic arena idx queue_buf_bytes :
  rsetup_ok qid sqsize arena queue_buf_bytes ->
  exists q0, RdmaQueue_new qid sqsize dis g nic arena idx queue_buf_bytes = Ok q0 /\ made qid sqsize nic q0.
Proof.
  intros (Hq & Hn & Ha & Hb & Hp). unfold RdmaQueue_new. fold (conn_pool_bytes qid sqsize queue_buf_bytes). set (n := conn_pool_bytes _ _ _) in *.
  pose proof (pages_for_pos n).
  assert (exists a, SlotArray_new (E := never) sqsize arena n Sqe_zeroed = Ok a /\ nslots a = sqsize /\
    slots a = replicate (Z.to_nat sqsize) (Slot_new Sqe_zeroed)) as (a & Hnew & Hns & Hsl).
  { unfold SlotArray_new, BufPool_new, u32_try_from. rewrite decide_True by (unfold in_u; lia). eexists. by split_and!. }
  destruct (array_new_ok sqsize arena n Sqe_zeroed a ltac:(unfold in_u; lia) Ha Hb Hnew) as (rss & res & Hok).
  rewrite Hnew. cbn [mbind res_bind]. eexists. split; [reflexivity|]. split; cbn; rewrite ?length_replicate; try done.
  - split; [done|]. apply length_replicate.
  - pose proof (ok_pool _ _ _ Hok) as Hpp. eapply set_pool_ok; [exact Hok|]. exists res. destruct idx; [|done].
    destruct Hpp as (Hwf & Hl & Hs & Hc). split; [done|]. split; [|done]. by eapply holds_same_all.
  - by exists dis.
  - split; [done|]. split; apply length_replicate.
Qed.

Lemma boot_of_self q0 : rq_staged q0 = [] -> boot_of q0 (rq_nic q0) (rq_recv_buf q0) (rq_cdata_buf q0) (rq_wr q0) = q0.
Proof. unfold boot_of, set_nic, set_bufs, set_side. destruct q0; cbn. by intros ->. Qed.

Lemma zero_capsule n idx : 0 <= idx < Z.of_nat n -> cmd_fits (capsule_at (zeroes (n * CAPSULE_LEN)) idx).
Proof.
  intros Hi. assert (take SQE_LEN (bytes_at (zeroes (n * CAPSULE_LEN)) (Z.to_nat idx * CAPSULE_LEN) CAPSULE_LEN) = zeroes SQE_LEN) as He.
  { unfold bytes_at, zeroes. rewrite drop_replicate, !take_replicate. f_equal. assert (SQE_LEN <= CAPSULE_LEN)%nat by (vm_compute; lia).
    assert (Z.to_nat idx * CAPSULE_LEN + CAPSULE_LEN <= n * CAPSULE_LEN)%nat by nia. lia. }
  unfold capsule_at. rewrite He. split; [by vm_compute|]. by vm_compute.
Qed.

Lemma prime_loop_ok q0 recv cdata k : forall idx n wr,
  boot_ids (rq_nslots q0) false (owed n) -> Forall (fun x => x < idx) (lows KRecv (owed n)) -> 0 <= idx -> idx + Z.of_nat k <= rq_nslots q0 ->
  rq_nslots q0 < 2 ^ 16 ->
  ends (prime_loop k idx) (boot_of q0 n recv cdata wr)
    (fun q' _ => exists n' wr', q' = boot_of q0 n' recv cdata wr' /\ boot_ids (rq_nslots q0) false (owed n')) (fun _ _ => True).
Proof.
  induction k as [|k IH]; intros idx n wr Hi Hlt H0 Hk Hmax; cbn [prime_loop]; [apply ends_ret; by exists n, wr|].
  apply ends_bind, boot_recv_ok. intros rcs wr'. set (n1 := nic_set _ _ _ _ rcs). assert (in_u 32 idx) as Hu by (unfold in_u; lia).
  assert (owed n1 ≡ₚ wr_id_of KRecv idx :: owed n) as Hp.
  { unfold n1. pose proof (owed_posted [recv_wr (rq_regions q0) idx] [] n rcs) as Hp. rewrite app_nil_r in Hp. by rewrite Hp. }
  apply IH; try lia.
  - apply (boot_ids_perm _ _ (wr_id_of KRecv idx :: owed n)); [by rewrite Hp|]. destruct Hi as (I1 & I2 & I3 & I4 & I5). unfold boot_ids. rewrite !(lows_cons _ _ (owed n)), !lows_id by done. cbn.
    split_and!; try done; [|constructor; [lia|done]]. apply list.NoDup_cons. split; [|done]. intros Hin. rewrite list.Forall_forall in Hlt. specialize (Hlt _ Hin). lia.
  - rewrite Hp, lows_cons, lows_id, decide_True by done. constructor; [lia|]. eapply list.Forall_impl; [exact Hlt|]. cbn. lia.
Qed.

Lemma prime_ok qid sqsize nic q0 : made qid sqsize nic q0 -> fresh_nic nic -> ends prime q0 (fun q' _ => boot_ok q0 BtCapsule q') (fun _ _ => True).
Proof.
  intros Hm (N1 & N2 & N3). pose proof Hm as [[Hn Hl] Hs _ _ _ _ Hnic (Hz & _ & Hc) _ (Hst & _)]. unfold prime. apply ends_get.
  assert (owed nic = []) as Ho by (unfold owed; by rewrite N1, N2, N3).
  rewrite <- (boot_of_self q0 Hst) at 2. apply ends_bind. eapply ends_mono; [apply prime_loop_ok; rewrite ?Hnic, ?Ho; [by repeat constructor|constructor|lia..]| |done].
  intros q' [] (n & wr & -> & Hi). unfold arm. apply ends_bind, verb_ends; [|done]. intros rcs n'. unfold modify, ends.
  eexists _, _, _, _. split; [reflexivity|]. do 2 (split; [done|]). split; [|split; [|done]].
  - rewrite Hz. intros idx Hidx. apply zero_capsule. lia.
  - subst n'. unfold owed in *. cbn. by rewrite !app_nil_r.
Qed.

(** ** The Connect command *)

(** The dispatch context: its queue satisfies the invariant of the reap loop. *)
Lemma boot_world_ok qid sqsize nic q0 q sqe cd port (th : Thread B) :
  made qid sqsize nic q0 -> in_u 16 qid -> thread_ok port th -> boot_ok q0 (BtConnect sqe cd) q ->
  exists w, boot_world (rq_nvme q) port th cd = Ok w /\ settled (set_nvme w q) [] [] [] [] (set_nvme w q) /\ w_core w = nv_core (rq_nvme q0) /\
    (forall i s, slots (w_slots w) !! i = Some s -> state s = Free).
Proof.
  intros Hm Hq (Hreg & Hbe & Hport) (n & recv & cdata & wr & -> & Hr & Hc & Hf & Hi & Hcmd).
  destruct Hm as [[Hn Hl] Hs Ha Hsl Hns [dis Hco] _ (Hz & Hrb & _) (Hin & Hre & Hpr) (Hst & Hba & Hpk & Hpw)]. rewrite Hs in Hn, Hl.
  unfold boot_world. cbn [boot_of set_nic set_bufs set_side rq_nvme]. rewrite Hco. cbn [qc_qid QueueCore_new].
  assert (exists role, (if qid =? 0 then new_admin (E := never) (th_now th) else mret new_io) = Ok role /\ role_ok (length (th_backends th)) role /\
    match role with Admin _ => qid = 0 | IoQueue _ => True end) as (role & Hrole & Hrok & Hrq).
  { destruct (Z.eqb_spec qid 0) as [->|]; eexists; (split; [reflexivity|]); by cbn. }
  rewrite Hrole. cbn [mbind res_bind]. eexists. split; [reflexivity|].
  match goal with |- settled (set_nvme ?x ?y) _ _ _ _ _ /\ _ => set (w := x); set (q := set_nvme w y) end.
  assert (forall i s, slots (w_slots w) !! i = Some s -> s = Slot_new Sqe_zeroed) as Hfresh.
  { intros i s. cbn. rewrite Hsl. by intros [-> _]%lookup_replicate. }
  split; [|split; [done|]; intros i s Hs'; by rewrite (Hfresh i s Hs')].
  assert (core_ok (w_core w)) as Hcore by (split; [done|]; unfold in_u; cbn; lia).
  assert (out [] q = owed n) as Hout by reflexivity. unfold settled. rewrite Hout. cbn [app]. destruct Hi as (I1 & I2 & I3 & I4 & I5).
  apply Nat.le_0_r, nil_length_inv in I5. change (rq_pool_wait q) with (rq_pool_wait q0). rewrite Hpw.
  assert (resp_view (w_slots w) = []) as Hrv.
  { destruct (resp_view (w_slots w)) as [|[i cid] l] eqn:Hv; [done|]. assert ((i, cid) ∈ resp_view (w_slots w)) as Hin' by (rewrite Hv; by left).
    apply elem_of_view in Hin' as (j & s & _ & Hj & Hsr & _). by rewrite (Hfresh j s Hj) in Hsr. }
  split.
  - split; [|by split]. eapply (start_conn_ok (conn_of q) (Z.to_nat sqsize)); try done. cbn. by rewrite Hre.
  - done.
  - intros i s Hs'. rewrite (Hfresh i s Hs'). apply Nat.le_0_l.
  - split; [cbn; congruence|]. cbn. rewrite Hs, Hpr, length_replicate. split_and!; congruence.
  - split; [intros i s Hs'; by rewrite (Hfresh i s Hs')|]. split; [exact Hf|]. cbn. rewrite Hpr, Hpk, Hba.
    split; [apply Forall_replicate; by vm_compute|]. by split_and!; constructor.
  - constructor.
  - unfold recv_bufs, held_bufs. cbn. by rewrite Hpk, app_nil_r.
  - unfold recv_bufs, held_bufs. cbn. by rewrite Hpk, app_nil_r.
  - unfold read_tags. cbn. rewrite Hba, I5. constructor.
  - unfold read_tags. cbn. rewrite Hba, I5. constructor.
  - change (w_slots (rq_nvme q)) with (w_slots w). rewrite Hrv. cbn. by rewrite Hre.
  - cbn. rewrite Hre. constructor.
  - constructor.
  - rewrite I3, I4. intros t Ht. by apply not_elem_of_nil in Ht.
  - constructor.
Qed.

(** The queue when the reap loop starts. *)
Definition rsys_start (host : Z -> mem) (q : RdmaQueue (World B)) : RSys :=
  {| ry_q := q; ry_tasks := replicate (length (slots (w_slots (rq_nvme q)))) RIdle; ry_first := None; ry_host := host; ry_dead := false;
     ry_live := true |}.

Lemma idle_tasks (q : RdmaQueue (World B)) :
  (forall i s, slots (w_slots (rq_nvme q)) !! i = Some s -> state s <> Executing) ->
  rtasks_ok q (replicate (length (slots (w_slots (rq_nvme q)))) RIdle).
Proof.
  intros H. split; [apply length_replicate|]. intros i st [-> Hlt]%lookup_replicate. destruct (lookup_lt_is_Some_2 _ _ Hlt) as [s Hs].
  exists s. split; [done|]. by apply (H i).
Qed.

(** Posting the response itself, where a slot's task would queue it. *)
Lemma posted_response (q q2 : RdmaQueue (World B)) r sent :
  q = (push_response r q2).1 -> rq_responses q2 = SendList_new -> settled q [] [] [] sent q -> settled q2 [] [] [r] sent q2.
Proof.
  intros -> Hr Hs. set (q3 := set_side (rq_wr q2) (rq_staged q2) (rq_probe_waker q2) (rq_woken q2 ++ []) (rq_watchdog_tick q2) q2).
  assert (take_response (push_response r q2).1 = (q3, Ok (Some r))) as He by (destruct q2; cbn in Hr; by subst).
  pose proof (take_first_ok _ _ _ _ _ Hs He) as H. apply (rebase (push_response r q2).1).
  { by apply calm_same; destruct q2. }
  apply (acct_side _ _ _ _ _ (rq_wr q2) (rq_staged q2) (rq_probe_waker q2) (rq_woken q2) (rq_watchdog_tick q2)) in H. by destruct q2.
Qed.

Lemma on_nvme_responses {A} (m : M (World B) never A) (q q' : RdmaQueue (World B)) r : on_nvme m q = (q', r) -> rq_responses q' = rq_responses q.
Proof. unfold on_nvme. destruct (m _). by intros [= <- <-]. Qed.

(** [bootstrap] dispatches the Connect command: the queue it hands to the reap
    loop satisfies its invariant. *)
Lemma boot_turn t i (q : RdmaQueue (World B)) s :
  settled q [] [] [] [] q -> slots (w_slots (rq_nvme q)) !! i = Some s -> state s = Ready -> room command_room (rq_nvme q) ->
  rq_responses q = SendList_new -> (forall i s, slots (w_slots (rq_nvme q)) !! i = Some s -> state s <> Executing) ->
  ends (cmd ← q_slots (@on_slots B) (await_command_poll (Z.of_nat i) t);
        match cmd with
        | None => mret None
        | Some cmd =>
            p ← on_nvme (execute ring_index t (Z.of_nat i) cmd);
            match p with
            | Parked _ => mret None
            | Done o =>
                _ ← q_slots (@on_slots B) (begin_respond (Z.of_nat i));
                _ ← post_responses_batch (@on_slots B) [{| rr_tag := Z.of_nat i; rr_cmd := cmd; rr_outcome := o |}];
                mret (Some tt)
            end
        end) q (fun (q' : RdmaQueue (World B)) r => r = Some tt -> forall host, rsys_ok (rsys_start host q')) (fun _ _ => True).
Proof.
  intros Ha Hi Hs Hroom Hre Hx. pose proof (rk_base _ _ _ _ _ _ Ha) as Hb. assert (rtask_ok q i RIdle) as Hrt by (exists s; by rewrite Hs).
  destruct (task_turn_ok ring_index q i s t RIdle Hb Hroom Hi Hrt) as (q' & st' & He & [(_ & _ & Hn & _)|[_ (s' & Htu & Hrt' & Hend)]]); [done|].
  assert (st' = RIdle -> settled q' [] [] [] [] q' /\ rtasks_ok q' (<[i := RIdle]> (replicate (length (slots (w_slots (rq_nvme q)))) RIdle))) as Hfin.
  { intros ->. split; [|eapply turn_tasks; [by apply idle_tasks|exact Htu|exact Hrt']]. eapply turn_settled; [exact Ha|exact Hi|exact Htu|].
    right. split; [by left|]. by right. }
  revert He. unfold rdma_task_turn, ends, mbind, M_bind, mret, M_ret.
  destruct (q_slots (@on_slots B) (await_command_poll (Z.of_nat i) t) q) as [q1 [[cmd_|]|e|]] eqn:He1; try done.
  destruct (on_nvme (execute ring_index t (Z.of_nat i) cmd_) q1) as [q2 [[o|k]|e|]] eqn:He2; cbv beta iota; try done.
  destruct (q_slots (@on_slots B) (begin_respond (Z.of_nat i)) q2) as [q3 [[]|e|]] eqn:He3; try done.
  apply on_nvme_responses in He1, He2, He3. rewrite He2, He1, Hre in He3.
  set (r := {| rr_tag := Z.of_nat i; rr_cmd := cmd_; rr_outcome := o |}). intros He.
  assert (q' = (push_response r q3).1 /\ st' = RIdle) as [Hq ->] by (by injection He as <- <-).
  destruct (Hfin eq_refl) as [Hset Htask]. pose proof (posted_response q' q3 r [] Hq He3 Hset) as Hp.
  pose proof (post_responses_ok _ _ _ _ _ _ Hp) as Hend2. unfold ends in Hend2.
  destruct (post_responses_batch (@on_slots B) [r] q3) as [q4 [[]|e|]]; try done. destruct Hend2 as (sent & Hend2). intros _ host.
  pose proof (rk_calm _ _ _ _ _ _ Hend2) as Hc. split; [|exists sent; by eapply rebase]. cbn. apply idle_tasks. intros j x Hj Hjx.
  apply Hc in Hj; [|done]. rewrite list_insert_id in Htask by (apply lookup_replicate; split; [done|by eapply lookup_lt_Some]).
  destruct Htask as [Hlen Htask]. assert (slots (w_slots (rq_nvme q')) = slots (w_slots (rq_nvme q3))) as Hsame by (rewrite Hq; by destruct q3).
  destruct (Htask j RIdle) as (y & Hy & Hyx).
  { apply lookup_replicate. split; [done|]. rewrite length_replicate in Hlen. rewrite Hlen, Hsame. by eapply lookup_lt_Some. }
  rewrite Hsame, Hj in Hy. injection Hy as <-. done.
Qed.

Lemma boot_connect_ok qid sqsize nic q0 q sqe cd port (th : Thread B) t :
  made qid sqsize nic q0 -> in_u 16 qid -> thread_ok port th -> boot_ok q0 (BtConnect sqe cd) q ->
  exists w, boot_world (rq_nvme q) port th cd = Ok w /\
    ends (boot_dispatch ring_index t sqe) (set_nvme w q)
      (fun (q' : RdmaQueue (World B)) r => r = Some tt -> forall host, rsys_ok (rsys_start host q')) (fun _ _ => True).
Proof.
  intros Hm Hq Ht Hb. destruct (boot_world_ok _ _ _ _ _ _ _ _ _ Hm Hq Ht Hb) as (w & Hw & Hs & Hcore & Hfree). exists w. split; [exact Hw|].
  set (q1 := set_nvme w q) in *. unfold boot_dispatch.
  destruct (claim_step _ _ _ _ _ q1 Hs) as [He|(i & s & a & He & Ha & Hi & Hst & Hd & Hni)]; (eapply ends_step; [exact He|]); [by apply ends_fail|].
  destruct Hb as (n & recv & cdata & wr & Hqe & _ & _ & _ & _ & Hfit).
  destruct (submit_step _ _ _ _ _ (q_arr a q1) i s sqe Ha Hi Hst Hfit Hni) as (a2 & He2 & Ha2 & Hsl). eapply ends_step; [exact He2|].
  set (q2 := q_arr a2 (q_arr a q1)) in *. apply (boot_turn t i q2 (ready sqe s)).
  - apply (rebase q1); [done|]. exact Ha2.
  - cbn. rewrite Hsl. apply list_lookup_insert_eq. by eapply lookup_lt_Some.
  - done.
  - destruct (md_core _ _ _ _ Hm) as [dis Hco]. intros c. cbn. rewrite Hcore, Hco. by destruct c; vm_compute.
  - destruct (md_work _ _ _ _ Hm) as (_ & Hre & _). subst q. exact Hre.
  - intros j x Hj Hjx. apply (rk_calm _ _ _ _ _ _ Ha2) in Hj; [|done]. by rewrite (Hfree j x Hj) in Hjx.
Qed.

(** ** A queue from its start *)

(** Setting up, with its reap loop running, or ended before that (a Connect
    command that would wait for an event holds the queue there for good). *)
Inductive RState := RBoot q b | RRun (y : RSys (B := B)) | RGone.

Inductive rdma_step (port : PortConfig) : RState -> RState -> Prop :=
| rd_nic q q' b : boot_nic q q' -> rdma_step port (RBoot q b) (RBoot q' b)
| rd_poll q b q' r :
    boot_poll b q = (q', r) -> r <> Panic -> rdma_step port (RBoot q b) (match r with Ok b' => RBoot q' b' | _ => RGone end)
| rd_connect q sqe cd (th : Thread B) w t host (q' : RdmaQueue (World B)) r :
    thread_ok port th -> boot_world (rq_nvme q) port th cd = Ok w -> boot_dispatch ring_index t sqe (set_nvme w q) = (q', r) -> r <> Panic ->
    rdma_step port (RBoot q (BtConnect sqe cd)) (match r with Ok (Some _) => RRun (rsys_start host q') | _ => RGone end)
| rd_run y y' : rsys_step ring_index y y' -> rdma_step port (RRun y) (RRun y').

(** What [run_conn] makes the queue from. *)
Record RSetup := {
  st_qid : Z; st_sqsize : Z; st_sqhd_disabled : bool; st_regions : Regions; st_nic : Nic; st_arena : Z; st_index : option Z; st_bytes : Z;
}.
Definition make (u : RSetup) : res never BQ :=
  RdmaQueue_new (st_qid u) (st_sqsize u) (st_sqhd_disabled u) (st_regions u) (st_nic u) (st_arena u) (st_index u) (st_bytes u).
Definition setup_rdma (u : RSetup) : Prop := rsetup_ok (st_qid u) (st_sqsize u) (st_arena u) (st_bytes u) /\ fresh_nic (st_nic u).

Definition rreached (u : RSetup) (port : PortConfig) (x : RState) : Prop :=
  exists q0 q1, make u = Ok q0 /\ prime q0 = (q1, Ok tt) /\ rtc (rdma_step port) (RBoot q1 BtCapsule) x.

Definition rstate_ok (q0 : BQ) (x : RState) : Prop :=
  match x with RBoot q b => boot_ok q0 b q | RRun y => rsys_ok y | RGone => True end.

(** Nothing that can run next panics. *)
Definition rstate_no_panic (port : PortConfig) (x : RState) : Prop :=
  match x with
  | RBoot q b =>
      (boot_poll b q).2 <> Panic /\
      forall sqe cd (th : Thread B) t, b = BtConnect sqe cd -> thread_ok port th ->
        exists w, boot_world (rq_nvme q) port th cd = Ok w /\ (boot_dispatch ring_index t sqe (set_nvme w q)).2 <> Panic
  | RRun y => rno_panic ring_index y
  | RGone => True
  end.

Lemma rdma_step_ok u port q0 x x' :
  setup_rdma u -> made (st_qid u) (st_sqsize u) (st_nic u) q0 -> rstate_ok q0 x -> rdma_step port x x' -> rstate_ok q0 x'.
Proof.
  intros [Hu _] Hm Hx Hst. pose proof (md_boot _ _ _ _ Hm) as Hmb.
  destruct Hst as [q q' b Hn|q b q' r He Hr|q sqe cd th w t host q' r Hth Hw He Hr|y y' Hy]; cbn in Hx.
  - destruct Hmb as [Hn0 Hl]. eapply boot_nic_ok; [exact Hx|lia|done|done].
  - pose proof (boot_poll_ok q0 b q Hmb Hx) as Hp. unfold ends in Hp. rewrite He in Hp. by destruct r.
  - destruct (boot_connect_ok _ _ _ _ _ _ _ _ _ t Hm (proj1 Hu) Hth Hx) as (w' & Hw' & Hp). rewrite Hw in Hw'. injection Hw' as <-.
    unfold ends in Hp. rewrite He in Hp. destruct r as [[[]|]|e|]; try done. by apply Hp.
  - by eapply rsys_step_ok.
Qed.

Lemma rstate_safe u port q0 x :
  setup_rdma u -> made (st_qid u) (st_sqsize u) (st_nic u) q0 -> rstate_ok q0 x -> rstate_no_panic port x.
Proof.
  intros [Hu _] Hm Hx. destruct x as [q b|y|]; cbn in *; [|by apply rsys_no_panic|done]. split.
  - eapply ends_no_panic, boot_poll_ok; [apply Hm|exact Hx].
  - intros sqe cd th t -> Hth. destruct (boot_connect_ok _ _ _ _ _ _ _ _ _ t Hm (proj1 Hu) Hth Hx) as (w & Hw & Hp). exists w. split; [done|].
    by eapply ends_no_panic.
Qed.

Lemma rreached_ok u port x :
  setup_rdma u -> rreached u port x -> exists q0, made (st_qid u) (st_sqsize u) (st_nic u) q0 /\ rstate_ok q0 x.
Proof.
  intros Hu (q0 & q1 & Hnew & Hp & Hr). pose proof Hu as [Hsz Hf].
  destruct (rdma_new_ok (st_qid u) (st_sqsize u) (st_sqhd_disabled u) (st_regions u) (st_nic u) (st_arena u) (st_index u) (st_bytes u) Hsz) as (q & He & Hm).
  unfold make in Hnew. rewrite Hnew in He. injection He as <-. exists q0. split; [done|].
  pose proof (prime_ok _ _ _ _ Hm Hf) as H1. unfold ends in H1. rewrite Hp in H1.
  assert (rstate_ok q0 (RBoot q1 BtCapsule)) as H0 by done. clear Hp H1. induction Hr as [|a b c Hst _ IH]; [done|]. apply IH. by eapply rdma_step_ok.
Qed.

(** C3. An RDMA queue never panics.  The queue [run_conn] makes is set up without
    a panic; from there, however completions, failing calls of the verbs library,
    failing work requests, the reap loop, the slot tasks and the rest of the
    program interleave, whatever the capsules of the host hold (as long as their
    data does not reach the end of the address space) and whatever error the
    stores give to any call (they keep [Store], that is, they do not panic
    themselves on a valid range), every state reached
    satisfies the invariant of the queue, and nothing that can run next panics:
    no slot is submitted, answered or released out of turn, no buffer index is
    out of range, no sum overflows. *)
Theorem rdma_queue_safe u port x :
  setup_rdma u ->
  (exists q0, make u = Ok q0 /\ (prime q0).2 <> Panic) /\
  (rreached u port x -> rstate_no_panic port x /\ forall y, x = RRun y -> rsys_ok y).
Proof.
  intros Hu. pose proof Hu as [Hsz Hf]. split.
  - destruct (rdma_new_ok (st_qid u) (st_sqsize u) (st_sqhd_disabled u) (st_regions u) (st_nic u) (st_arena u) (st_index u) (st_bytes u) Hsz) as (q & He & Hm).
    exists q. split; [done|]. by eapply ends_no_panic, prime_ok.
  - intros Hr. destruct (rreached_ok u port x Hu Hr) as (q0 & Hm & Hx). split; [by eapply rstate_safe|]. by intros y ->.
Qed.

End Bootstrap.
