(* ===== verification/RdmaSpec.v ===== *)
(** * NVMe/RDMA: what the queue promises

    The theorems about the queue that the rest of the development speaks of:
    every capsule buffer, read and response is accounted for; data moves between
    the host and the slot exactly; the thread never sleeps on completions it
    would not be told of; the teardown ends, and frees the buffers only when no
    command uses them; the identifiers and the private data of the connection
    manager survive their encoding; the depths of the hardware queues. *)

From S2P Require Import Prelude Spec Pool PoolProofs PoolSafety PoolData.
From S2P Require Import SlotQ SlotQProofs SlotQSafety Registry Subsystem Backend.
From S2P Require Import BackendProofs Fabrics Dispatch FabricsExec Admin Io.
From S2P Require Import TcpQueue Connection SegIO ExecLaws AdminProofs.
From S2P Require Import ConnProofs RdmaWire RdmaQueue RdmaData Frame RecvFrame.
From S2P Require Import TaskProofs ExecSafety IoProofs ConnectionProofs System RdmaData.
From S2P Require Import RdmaReap RdmaSystem ExecWitness Frame.

Abbreviation signaled_ids wrs := (map wr_id (filter (fun w => wr_signaled w = true) wrs)).

Section Queue.
Context {B : Type} {BK : Backend B} {ST : Store B} {SG : StaticGeometry B}.
Abbreviation RQ := (RdmaQueue (World B)).
Implicit Type q : RQ.

Abbreviation arr q := (w_slots (rq_nvme q)).



(** C25. The thread never sleeps on a completion.  The probe keeps every
    completion, in order, those that arrive while it runs included.  When it
    lets the thread sleep, nothing is staged, and either nothing is pending and
    the completion queue is armed, so that the next completion wakes the thread,
    or the reactor spins, because a command is in flight in poll mode.  When it
    keeps the thread awake with completions staged, the reap loop has been
    woken. *)
Theorem park_probe_safe poll late q :
  let '(q', awake) := park_probe poll late q in
  rq_staged q' ++ n_cq (rq_nic q') = rq_staged q ++ n_cq (rq_nic q) ++ late /\
  (awake = false -> rq_staged q' = [] /\
     (n_cq (rq_nic q') = [] /\ n_armed (rq_nic q') = true \/ forall grace, spin poll grace q' = true)) /\
  (awake = true -> rq_staged q' <> [] -> rq_probe_waker q' = None /\ forall t, rq_probe_waker q = Some t -> t ∈ rq_woken q') /\
  (n_rq (rq_nic q'), n_sq (rq_nic q'), rq_nvme q', rq_responses q') = (n_rq (rq_nic q), n_sq (rq_nic q), rq_nvme q, rq_responses q).
Proof.
  destruct q as [w [rq sq cq ar rcs] g rb sb cb ns fl rs pr wr rd st wk wo pk pw tick]. unfold park_probe, arm, verb, spin, mbind, M_bind, get, modify, fail. cbn.
  assert (forall l : list nat, forall t, wk = Some t -> t ∈ l ++ option_list wk) as Hw by (intros l t ->; apply elem_of_app; right; by left).
  destruct st as [|c st], cq as [|c' cq]; cbn.
  2-4: by rewrite ?app_nil_r, <- ?app_assoc; split_and!; try done; intros _ _; split; [done|apply Hw].
  destruct (negb poll || idle (w_slots w)) eqn:Hp.
  - destruct rcs as [|rc rcs]; [|destruct (rc =? 0)]; destruct late as [|c late]; cbn; rewrite ?app_nil_r; split_and!; try done;
      solve [by intros _; split; [done|left]|intros _ _; split; [done|apply Hw]].
  - apply orb_false_elim in Hp as [Hp1 Hp2]. apply negb_false_iff in Hp1. cbn. rewrite Hp1, Hp2. split_and!; try done. intros _. split; [done|by right].
Qed.

(** ** Teardown *)

(** A wake of the teardown, after the slot tasks and the rest of the program have
    done [f] to the queue. *)
Definition rt_round (x : Rt) (e : (RQ -> RQ) * bool) : Rt :=
  rt_poll e.2 {| rt_queue := match rt_phase x with RtDrain _ => e.1 (rt_queue x) | _ => rt_queue x end;
                 rt_phase := rt_phase x; rt_unregistered := rt_unregistered x |}.

Definition rt_left (x : Rt (B := B)) : nat := match rt_phase x with RtDrain w => S (Z.to_nat (10001 - w) / 2) | _ => 0%nat end.

Lemma rt_round_left x e : (rt_left (rt_round x e) <= pred (rt_left x))%nat.
Proof.
  destruct x as [q [w| |] n]; [|cbn; lia|cbn; lia]. unfold rt_round, rt_poll, rt_left. cbn [rt_phase rt_queue].
  destruct (0 <? executing _); cbn [andb]; [|cbn; lia]. destruct (Z.ltb_spec w 10000); cbn [andb]; [|cbn; lia].
  destruct (e.2); cbn [rt_phase]; [|lia]. replace (Z.to_nat (10001 - w)) with (Z.to_nat (10001 - (w + 2)) + 1 * 2)%nat by lia. rewrite Nat.div_add by done. lia.
Qed.

(** C24. The teardown of an RDMA queue ends, and frees only what is not in use.
    Whatever the slot tasks and the rest of the program do meanwhile, and
    whether or not the timer works, it ends within 5001 wakes.  It gives the
    queue's buffers up, and the fixed-buffer index of their pool back, only
    when no command is executing; otherwise it leaves both where they are. *)
Theorem rdma_teardown_ends (es : list ((RQ -> RQ) * bool)) q :
  let x := foldl rt_round (rt_begin q) es in
  ((5001 <= length es)%nat -> rt_phase x = RtFreed \/ rt_phase x = RtLeaked) /\
  (rt_phase x = RtFreed -> executing (arr (rt_queue x)) <= 0 /\ pool_buf_index (pool (arr (rt_queue x))) = None) /\
  (rt_phase x <> RtFreed -> rt_unregistered x = None) /\
  (rt_phase x = RtLeaked -> 0 < executing (arr (rt_queue x))).
Proof.
  intros x. assert (forall es x0, (rt_left (foldl rt_round x0 es) <= rt_left x0 - length es)%nat) as Hleft.
  { clear. intros es. induction es as [|e es IH]; intros x0; cbn; [lia|]. specialize (IH (rt_round x0 e)). pose proof (rt_round_left x0 e). lia. }
  split.
  - intros Hl. specialize (Hleft es (rt_begin q)). fold x in Hleft. change (rt_left (rt_begin q)) with 5001%nat in Hleft.
    unfold rt_left in Hleft. destruct (rt_phase x); [lia|by left|by right].
  - subst x. assert (forall x0, let P y := (rt_phase y = RtFreed -> executing (arr (rt_queue y)) <= 0 /\ pool_buf_index (pool (arr (rt_queue y))) = None) /\
      (rt_phase y <> RtFreed -> rt_unregistered y = None) /\ (rt_phase y = RtLeaked -> 0 < executing (arr (rt_queue y))) in
      P x0 -> P (foldl rt_round x0 es)) as Hinv; [|apply Hinv; done].
    clear. intros x0 P. revert x0. induction es as [|e es IH]; intros x0 Hx; [exact Hx|]. cbn [foldl]. apply IH. clear IH.
    destruct x0 as [q [w| |] n]; [|exact Hx|exact Hx]. unfold rt_round, rt_poll. cbn [rt_phase rt_queue].
    destruct (Z.ltb_spec 0 (executing (arr (e.1 q)))) as [Hb|Hb]; cbn [andb]; [|done].
    by destruct ((w <? 10000) && e.2).
Qed.

End Queue.

(** ** Depths *)

(** The queue [run_conn] builds is no deeper than the host's nor than what is
    advertised, and for a port within the advertised maximum its send queue holds
    at least two work requests per command, and its completion queue the
    completion of every work request of both queues. *)
Theorem rdma_depths qid hsqsize io_queue_size pool_bytes :
  in_u 16 hsqsize -> 2 <= io_queue_size <= 256 -> 0 <= pool_bytes < 2 ^ 42 ->
  let n := clamp_sqsize qid hsqsize io_queue_size in
  1 <= n <= hsqsize + 1 /\ n <= (if qid =? 0 then ADMIN_QUEUE_DEPTH else io_queue_size) /\
  exists d, sq_depth (E := never) n pool_bytes = Ok d /\ 2 * n + 8 <= d <= 16384 /\ d + (n + 8) <= cq_depth d n < 2 ^ 32.
Proof.
  intros Hh Hq Hp. unfold in_u in Hh. unfold clamp_sqsize, ADMIN_QUEUE_DEPTH. set (cap := if qid =? 0 then 32 else io_queue_size).
  replace (if qid =? 0 then 32 else Z.max io_queue_size 1) with cap by (unfold cap; destruct (qid =? 0); lia).
  assert (2 <= cap <= 256) as Hcap by (unfold cap; destruct (qid =? 0); lia). cbn zeta. rewrite (proj2 (Z.ltb_lt _ _)) by lia.
  set (n := Z.min _ cap). assert (1 <= n <= 256 /\ n <= hsqsize + 1 /\ n <= cap) as (Hn & Hn1 & Hn2) by (unfold n; lia).
  split; [lia|]. split; [done|]. unfold sq_depth, cq_depth. assert (0 <= pool_bytes / PAGE < 2 ^ 30).
  { unfold PAGE. split; [apply Z.div_pos; lia|]. apply Z.div_lt_upper_bound; lia. }
  rewrite (proj2 (Z.ltb_lt _ (2 ^ 32))) by lia. rewrite checked_ok by (unfold in_u; lia). cbn [mbind res_bind].
  rewrite (proj2 (Z.leb_le _ _)) by lia. cbn [assert mbind res_bind]. eexists. split; [reflexivity|]. lia.
Qed.

(** ** What modelling showed *)

(** A command whose data ends where the address space does overflows the sum of
    the remote address, although the transfer itself fits. *)
Example remote_sum_overflows :
  post_sge_runs (wr_id_of KRead 0) SgeRead 7 (2 ^ 64 - 4096) [{| sge_addr := 0x1000; sge_len := 4096; sge_lkey := 1 |}] = Panic.
Proof. reflexivity. Qed.

(** A read of two runs counts two work requests posted, and one completed. *)
Example read_gauge_drifts :
  exists s, count_events [EvPost KRead 2; EvDone KRead] RdmaWrStats_default = Ok s /\ wc_inflight (ws_class s KRead) = 1.
Proof. eexists. split; [reflexivity|]. done. Qed.

(** ** Witnesses *)

(** An admin queue of four entries, whose Connect command carries its data in the
    capsule. *)
Definition demo_regions : Regions :=
  {| pool_lkey := 1; recv_addr := 0x10000; recv_lkey := 2; resp_addr := 0x80000; resp_lkey := 3; cdata_addr := 0x90000; cdata_lkey := 4 |}.
Definition demo_nic : Nic := {| n_rq := []; n_sq := []; n_cq := []; n_armed := false; n_rcs := [] |}.
Definition demo_rdma : RSetup :=
  {| st_qid := 0; st_sqsize := 4; st_sqhd_disabled := false; st_regions := demo_regions; st_nic := demo_nic; st_arena := 0x200000; st_index := Some 3;
     st_bytes := 0 |}.

Lemma demo_rdma_setup : setup_rdma demo_rdma.
Proof. by repeat split; vm_compute. Qed.

Definition demo_capsule : bytes := Sqe_bytes connect_sqe ++ ConnectData_bytes demo_connect.

Definition value_or {E A} (d : A) (r : res E A) : A := match r with Ok x => x | _ => d end.

Lemma value_or_eq {E A} (d : A) (r : res E A) : (if r is Ok _ then true else false) = true -> r = Ok (value_or d r).
Proof. by destruct r. Qed.

Definition blank_queue : RdmaQueue Nvme :=
  {| rq_nvme := {| nv_slots := slots1; nv_core := QueueCore_new 0 4 false |}; rq_nic := demo_nic; rq_regions := demo_regions; rq_recv_buf := [];
     rq_resp_buf := []; rq_cdata_buf := []; rq_nslots := 0; rq_inflight := []; rq_responses := SendList_new; rq_pending_read := []; rq_wr := [];
     rq_read_batch := []; rq_staged := []; rq_probe_waker := None; rq_woken := []; rq_parked := []; rq_pool_wait := []; rq_watchdog_tick := 0 |}.

Definition demo_q0 : RdmaQueue Nvme := value_or blank_queue (make demo_rdma).
Definition demo_q1 : RdmaQueue Nvme := (prime demo_q0).1.
(** The capsule has arrived. *)
Definition demo_q2 : RdmaQueue Nvme :=
  let n := rq_nic demo_q1 in
  set_nic (nic_done (tail (n_rq n)) (n_sq n) [(wr_id_of KRecv 0, 0)] n)
    (set_bufs (put_cell (rq_recv_buf demo_q1) CAPSULE_LEN (Z.to_nat 0) demo_capsule) (rq_resp_buf demo_q1) (rq_cdata_buf demo_q1) demo_q1).
Definition demo_p3 : RdmaQueue Nvme * res RdmaError Boot := boot_poll BtCapsule demo_q2.
Definition demo_world3 : World Memory.MemoryBackend :=
  value_or (demo_world 0 (Admin demo_ad)) (boot_world (rq_nvme demo_p3.1) demo_port demo_thread demo_connect).
Definition demo_p4 : RdmaQueue (World Memory.MemoryBackend) * res RdmaError (option unit) :=
  boot_dispatch no_ring 1 connect_sqe (set_nvme demo_world3 demo_p3.1).
Definition demo_rsys : RSys := rsys_start (fun _ _ => Byte.x00) demo_p4.1.

Lemma demo_p3_ok : demo_p3.2 = Ok (BtConnect connect_sqe demo_connect).
Proof. by vm_compute. Qed.

Lemma demo_p3_eq : boot_poll BtCapsule demo_q2 = (demo_p3.1, Ok (BtConnect connect_sqe demo_connect)).
Proof. rewrite <- (ran demo_p3 _ demo_p3_ok). unfold demo_p3. reflexivity. Qed.

(** The Connect command succeeds, and its response is posted. *)
Lemma demo_p4_ok : demo_p4.2 = Ok (Some tt) /\ map wr_id (n_sq (rq_nic demo_p4.1)) = [wr_id_of KSend 0].
Proof. by vm_compute. Qed.

Lemma demo_p4_eq : boot_dispatch no_ring 1 connect_sqe (set_nvme demo_world3 demo_p3.1) = (demo_p4.1, Ok (Some tt)).
Proof. rewrite <- (ran demo_p4 _ (proj1 demo_p4_ok)). unfold demo_p4. reflexivity. Qed.

Lemma demo_world3_eq : boot_world (rq_nvme demo_p3.1) demo_port demo_thread demo_connect = Ok demo_world3.
Proof. unfold demo_world3. apply value_or_eq. by vm_compute. Qed.

Lemma demo_rreached : rreached (ST := memory_store) no_ring demo_rdma demo_port (RRun demo_rsys).
Proof.
  exists demo_q0, demo_q1. split; [apply value_or_eq; by vm_compute|]. split.
  { unfold demo_q1. apply ran. by vm_compute. }
  apply (rtc_l _ _ (RBoot demo_q2 BtCapsule)).
  { apply rd_nic. apply (bn_recv demo_q1 0 (tail (n_rq (rq_nic demo_q1))) demo_capsule); [by vm_compute..|vm_compute; lia|by vm_compute]. }
  apply (rtc_l _ _ (RBoot demo_p3.1 (BtConnect connect_sqe demo_connect))).
  { exact (rd_poll no_ring demo_port demo_q2 BtCapsule demo_p3.1 (Ok (BtConnect connect_sqe demo_connect)) demo_p3_eq ltac:(done)). }
  apply rtc_once.
  exact (rd_connect no_ring demo_port demo_p3.1 connect_sqe demo_connect demo_thread demo_world3 1 (fun _ _ => Byte.x00) demo_p4.1 (Ok (Some tt))
    demo_thread_ok demo_world3_eq demo_p4_eq ltac:(done)).
Qed.

Lemma rdma_queue_safe_witness :
  rstate_no_panic (ST := memory_store) no_ring demo_port (RRun demo_rsys) /\ rsys_ok (ST := memory_store) demo_rsys.
Proof.
  destruct (rdma_queue_safe no_ring demo_rdma demo_port (RRun demo_rsys) demo_rdma_setup) as [_ H]. destruct (H demo_rreached) as [H1 H2].
  split; [exact H1|by apply H2].
Defined.

Lemma demo_answering : state <$> slots (w_slots (rq_nvme (ry_q demo_rsys))) !! 0%nat = Some Responding.
Proof. by vm_compute. Qed.


(** Slot 0 of this queue has a buffer of a page, leased for 512 bytes. *)
Definition demo_leased : RdmaQueue (World Memory.MemoryBackend) := set_nvme (demo_world 0 (Admin demo_ad)) blank_queue.
Definition demo_slot : Slot Sqe := nth 0 (slots slots1) (Slot_new Sqe_zeroed).

