(* ===== verification/RdmaCm.v ===== *)
(** * [ioutgt-nvme-rdma/src/cm.rs] and [listener.rs]: the connection manager

    A CM identifier is its address.  What librdmacm and the reference counts hold
    is the record [Cm]: the clones of each identifier that was adopted, the events
    retrieved and not acknowledged, and the calls made.  The events are arguments.
    [rdma_destroy_id] waits until the events reported for its identifier are
    acknowledged (rdma_destroy_id(3)): destroying one whose event is in hand is
    [Blocked]. *)

From S2P Require Import Prelude Spec ExecLaws RdmaWire.

(** ** Events *)

Inductive EventType :=
| AddressResolved | AddressError | RouteResolved | ConnectRequest | ConnectResponse | EvRejected | Established | Disconnected | DeviceRemoval
| EvOther (v : Z).

#[export] Instance EventType_eq_dec : EqDecision EventType.
Proof. solve_decision. Defined.

(** [From<u32>], with the numbers of [rdma_cm_event_type]. *)
Definition EventType_from (v : Z) : EventType :=
  if v =? 0 then AddressResolved else if v =? 1 then AddressError else if v =? 2 then RouteResolved else if v =? 4 then ConnectRequest
  else if v =? 5 then ConnectResponse else if v =? 8 then EvRejected else if v =? 9 then Established else if v =? 10 then Disconnected
  else if v =? 11 then DeviceRemoval else EvOther v.

(** [rdma_cm_event]: its number, type, identifier (0: null), the identifier it
    was reported for (a connect request: the listening one), and private data. *)
Record Event := { ev_seq : nat; ev_type : Z; ev_id : Z; ev_ctx : Z; ev_data : bytes }.

Definition event_type (e : Event) : EventType := EventType_from (ev_type e).

Definition private_data (e : Event) : bytes :=
  match event_type e with ConnectRequest | ConnectResponse => ev_data e | _ => [] end.

Inductive CmCall := CReject (id : Z) (reason : bytes) | CDisconnect (id : Z) | CDestroy (id : Z).

Record Cm := { cm_refs : gmap Z nat; cm_unacked : list (nat * Z); cm_acked : list nat; cm_calls : list CmCall }.

Inductive LError := NullEvent | Hangup | Errno (e : Z) | Blocked (id : Z) | TooLong.

(** ** The listener *)

(** The stop signal is the number it was made under. *)
Record ConnSlot := { cs_id : Z; cs_stop : nat }.
Record RdmaRaw := { rr_id : Z; rr_qid : Z; rr_hsqsize : Z; rr_stop : nat }.

Record RdmaListener := { rl_conns : list ConnSlot; rl_cm : Cm; rl_next : nat; rl_fired : list nat }.

Abbreviation ML A := (M RdmaListener LError A).

Definition rl_set_cm (c : Cm) (l : RdmaListener) : RdmaListener :=
  {| rl_conns := rl_conns l; rl_cm := c; rl_next := rl_next l; rl_fired := rl_fired l |}.
Definition rl_set_conns (conns : list ConnSlot) (next : nat) (fired : list nat) (l : RdmaListener) : RdmaListener :=
  {| rl_conns := conns; rl_cm := rl_cm l; rl_next := next; rl_fired := fired |}.

Definition cm_set (refs : gmap Z nat) (calls : list CmCall) (c : Cm) : Cm :=
  {| cm_refs := refs; cm_unacked := cm_unacked c; cm_acked := cm_acked c; cm_calls := calls |}.
Definition cm_call (x : CmCall) : ML unit := modify (fun l => rl_set_cm (cm_set (cm_refs (rl_cm l)) (cm_calls (rl_cm l) ++ [x]) (rl_cm l)) l).

(** [rdma_get_cm_event] returned the event. *)
Definition retrieve (e : Event) : ML unit := modify (fun l => let c := rl_cm l in
  rl_set_cm {| cm_refs := cm_refs c; cm_unacked := cm_unacked c ++ [(ev_seq e, ev_ctx e)]; cm_acked := cm_acked c; cm_calls := cm_calls c |} l).
Definition ack (e : Event) : ML unit := modify (fun l => let c := rl_cm l in
  rl_set_cm {| cm_refs := cm_refs c; cm_unacked := filter (fun x => x.1 <> ev_seq e) (cm_unacked c); cm_acked := cm_acked c ++ [ev_seq e];
               cm_calls := cm_calls c |} l).

(** Clones of an identifier, and their drop. *)
Definition clone_id (id : Z) : ML unit := modify (fun l => let c := rl_cm l in
  rl_set_cm (cm_set (<[id := S (default 0%nat (cm_refs c !! id))]> (cm_refs c)) (cm_calls c) c) l).
Definition drop_id (id : Z) : ML unit :=
  l ← get;
  let c := rl_cm l in
  match cm_refs c !! id with
  | Some (S (S n)) => modify (rl_set_cm (cm_set (<[id := S n]> (cm_refs c)) (cm_calls c) c))
  | _ =>
      if existsb (fun x => x.2 =? id) (cm_unacked c) then fail (Blocked id)
      else modify (rl_set_cm (cm_set (delete id (cm_refs c)) (cm_calls c ++ [CDestroy id]) c))
  end.

Definition adopt (e : Event) : ML (option Z) :=
  _ ← lift (assert (match event_type e with ConnectRequest => true | _ => false end));
  if ev_id e =? 0 then mret None else _ ← clone_id (ev_id e); mret (Some (ev_id e)).

(** [let _ =]. *)
Definition ignore (m : ML unit) : ML unit := fun l => match m l with (l, Err _) => (l, Ok tt) | p => p end.

Definition reject (id : Z) (reason : bytes) : ML unit :=
  if (255 <? length reason)%nat then fail TooLong else cm_call (CReject id reason).

Definition INVALID_LEN : Z := 1.
Definition INVALID_RECFMT : Z := 2.

(** What a connect request asks for, or the reason it is refused. *)
Definition request_status (d : bytes) : Z + CmReq :=
  match CmReq_parse d with
  | Ok req => if negb (cr_recfmt req =? CM_FMT_1_0) then inl INVALID_RECFMT else inr req
  | _ => inl INVALID_LEN
  end.

Fixpoint position (id : Z) (l : list ConnSlot) : option nat :=
  match l with [] => None | s :: l => if cs_id s =? id then Some 0%nat else S <$> position id l end.

(** The connection of [raw] is gone: its slot is dropped at the end. *)
Definition stop_conn (raw : Z) : ML unit :=
  l ← get;
  match position raw (rl_conns l) with
  | Some pos =>
      slot ← lift (expect (rl_conns l !! pos));
      _ ← modify (rl_set_conns (swap_remove pos (rl_conns l)) (rl_next l) (rl_fired l));
      _ ← cm_call (CDisconnect (cs_id slot));
      _ ← modify (fun l => rl_set_conns (rl_conns l) (rl_next l) (rl_fired l ++ [cs_stop slot]) l);
      drop_id (cs_id slot)
  | None => mret tt
  end.

(** A turn of the loop of [accept]: the connection accepted, if one was. *)
Definition on_event (e : Event) : ML (option RdmaRaw) :=
  match event_type e with
  | ConnectRequest =>
      let sts := request_status (private_data e) in
      id ← adopt e;
      match sts, id with
      | inr req, Some id =>
          l ← get;
          let stop := rl_next l in
          _ ← clone_id id;
          _ ← modify (fun l => rl_set_conns (rl_conns l ++ [{| cs_id := id; cs_stop := stop |}]) (S stop) (rl_fired l) l);
          _ ← ack e;
          mret (Some {| rr_id := id; rr_qid := cr_qid req; rr_hsqsize := cr_hsqsize req; rr_stop := stop |})
      | inl sts, id =>
          _ ← match id with
              | Some id => _ ← ignore (reject id (CmRej_to_bytes (CmRej_new sts))); drop_id id
              | None => mret tt
              end;
          _ ← ack e; mret None
      | inr _, None => _ ← ack e; mret None
      end
  | Disconnected =>
      _ ← stop_conn (ev_id e);
      _ ← ack e; mret None
  | _ => _ ← ack e; mret None
  end.

Definition POLLIN : Z := 1.
Definition ERR_HUP : Z := Z.lor 8 16.
Definition EAGAIN : Z := 11.

(** What [rdma_get_cm_event] returned; after [EAGAIN], what the wait on the
    channel did. *)
Inductive Answer := Got (e : option Event) | NoEvent (errno : Z) (poll : res Z Z).

(** [next_event], a turn of its loop: the event, or again. *)
Definition next_event (a : Answer) : ML (option Event) :=
  match a with
  | Got (Some e) => _ ← retrieve e; mret (Some e)
  | Got None => fail NullEvent
  | NoEvent errno poll =>
      if negb (errno =? EAGAIN) then fail (Errno errno)
      else match poll with
           | Ok revents => if (Z.land revents POLLIN =? 0) && negb (Z.land revents ERR_HUP =? 0) then fail Hangup else mret None
           | Err e => fail (Errno e)
           | Panic => panic
           end
  end.

(** [accept] on the answers that come: the connection and what is left of them. *)
Fixpoint accept (l : list Answer) : ML (option (RdmaRaw * list Answer)) :=
  match l with
  | [] => mret None
  | a :: l =>
      e ← next_event a;
      match e with
      | None => accept l
      | Some e => raw ← on_event e; match raw with Some raw => mret (Some (raw, l)) | None => accept l end
      end
  end.

Definition RdmaListener_new : RdmaListener :=
  {| rl_conns := []; rl_cm := {| cm_refs := ∅; cm_unacked := []; cm_acked := []; cm_calls := [] |}; rl_next := 0; rl_fired := [] |}.

(** [bind]: the retries of [rdma_bind_addr] (what it returned, each time). *)
Definition BIND_ATTEMPTS : nat := 120.
Fixpoint bind_retries (attempt : nat) (answers : list (option Z)) : option (Z + unit) :=
  match answers with
  | [] => None
  | None :: _ => Some (inr tt)
  | Some e :: l => if (attempt <? BIND_ATTEMPTS)%nat then bind_retries (S attempt) l else Some (inl e)
  end.

(** ** Clones *)

#[local] Notation occ l id := (count_occ Z.eq_dec l id).

Definition refs_ok (refs : gmap Z nat) (ids : list Z) : Prop := forall id, refs !! id = match occ ids id with O => None | n => Some n end.

Lemma occ_perm l l' id : l ≡ₚ l' -> occ l id = occ l' id.
Proof. intros H. by apply Permutation_count_occ. Qed.

Lemma refs_perm refs ids ids' : ids ≡ₚ ids' -> refs_ok refs ids -> refs_ok refs ids'.
Proof. intros Hp H id. by rewrite (H id), (occ_perm _ _ id Hp). Qed.

Lemma refs_live refs ids id : refs_ok refs ids -> is_Some (refs !! id) <-> id ∈ ids.
Proof.
  intros H. rewrite (H id), list_elem_of_In, (count_occ_In Z.eq_dec). destruct (occ ids id); split; intros Hx; [by destruct Hx|lia|lia|by eexists].
Qed.

Lemma refs_clone refs ids id : refs_ok refs ids -> refs_ok (<[id := S (default 0%nat (refs !! id))]> refs) (id :: ids).
Proof.
  intros H j. destruct (decide (j = id)) as [->|Hne].
  - rewrite lookup_insert_eq, count_occ_cons_eq by done. f_equal. f_equal. rewrite (H id). by destruct (occ ids id).
  - rewrite lookup_insert_ne, count_occ_cons_neq by done. apply H.
Qed.

Definition destroyed (calls : list CmCall) : list Z := omap (fun c => match c with CDestroy id => Some id | _ => None end) calls.

Lemma destroyed_app a b : destroyed (a ++ b) = destroyed a ++ destroyed b.
Proof. apply omap_app. Qed.

(** The last clone's drop destroys, once the events in hand are not its own. *)
Lemma drop_id_ok id ids l :
  refs_ok (cm_refs (rl_cm l)) (id :: ids) -> (id ∉ ids -> Forall (fun x => x.2 <> id) (cm_unacked (rl_cm l))) ->
  exists refs, refs_ok refs ids /\
    drop_id id l = (rl_set_cm (cm_set refs (cm_calls (rl_cm l) ++ if decide (id ∈ ids) then [] else [CDestroy id]) (rl_cm l)) l, Ok tt).
Proof.
  intros H Hun. pose proof (H id) as Hid. rewrite count_occ_cons_eq in Hid by done. unfold drop_id. rewrite get_bind. cbn zeta. rewrite Hid.
  destruct (occ ids id) as [|n] eqn:Ho.
  - assert (id ∉ ids) as Hni by (rewrite list_elem_of_In; by apply (count_occ_not_In Z.eq_dec)). rewrite decide_False by done.
    replace (existsb _ _) with false; [eexists; split; [|reflexivity]|].
    + intros j. destruct (decide (j = id)) as [->|Hne]; [by rewrite lookup_delete_eq, Ho|]. rewrite lookup_delete_ne, (H j), count_occ_cons_neq by done. done.
    + symmetry. apply not_true_is_false. intros He. apply existsb_exists in He as (x & Hx & Heq). specialize (Hun Hni). rewrite list.Forall_forall in Hun.
      apply (Hun x); [by apply list_elem_of_In|by apply Z.eqb_eq].
  - assert (id ∈ ids) as Hin by (rewrite list_elem_of_In; apply (count_occ_In Z.eq_dec); lia). rewrite decide_True, app_nil_r by done. eexists. split; [|reflexivity].
    intros j. destruct (decide (j = id)) as [->|Hne]; [by rewrite lookup_insert_eq, Ho|]. rewrite lookup_insert_ne, (H j), count_occ_cons_neq by done. done.
Qed.

(** ** The table *)

Lemma position_Some id l i : position id l = Some i -> exists a s b, l = a ++ s :: b /\ length a = i /\ cs_id s = id.
Proof.
  revert i. induction l as [|s l IH]; intros i; cbn; [done|]. destruct (Z.eqb_spec (cs_id s) id) as [He|_]; [intros [= <-]; by exists [], s, l|].
  intros (j & Hj & Hi)%fmap_Some. destruct (IH j Hj) as (a & x & b & -> & <- & Hx). exists (s :: a), x, b. by subst.
Qed.
Lemma position_None id l : position id l = None -> id ∉ map cs_id l.
Proof.
  induction l as [|s l IH]; cbn; [intros _; apply not_elem_of_nil|]. destruct (Z.eqb_spec (cs_id s) id) as [|Hne]; [done|].
  intros H%fmap_None. rewrite not_elem_of_cons. split; [congruence|by apply IH].
Qed.

Lemma swap_remove_middle {A} (a b : list A) x : swap_remove (length a) (a ++ x :: b) ≡ₚ a ++ b.
Proof. apply (Permutation_cons_inv (a := x)). rewrite <- swap_remove_perm by (by apply list_lookup_middle). symmetry. apply Permutation_middle. Qed.

(** ** The system *)

(** The listener, the connections held by the rest of the program, all that were
    accepted, and the identifiers that were adopted. *)
Record LSys := { ls_l : RdmaListener; ls_held : list RdmaRaw; ls_all : list RdmaRaw; ls_adopted : list Z }.

Definition ls_cm (s : LSys) : Cm := rl_cm (ls_l s).
Definition ls_conns (s : LSys) : list ConnSlot := rl_conns (ls_l s).
Definition ls_ids (s : LSys) : list Z := map cs_id (ls_conns s) ++ map rr_id (ls_held s).

(** A turn: the next event, and what is done with it. *)
Definition turn (e : Event) : ML (option RdmaRaw) := _ ← retrieve e; on_event e.

Definition adopts (e : Event) : list Z := match event_type e with ConnectRequest => if ev_id e =? 0 then [] else [ev_id e] | _ => [] end.

(** Events are numbered; a connect request brings a new identifier. *)
Definition arrives (s : LSys) (e : Event) : Prop :=
  ev_seq e = length (cm_acked (ls_cm s)) /\
  match event_type e with ConnectRequest => ev_id e ∉ ls_ids s /\ ev_ctx e <> ev_id e | _ => ev_ctx e = ev_id e end.

Definition after (l : RdmaListener) (r : option RdmaRaw) (ids : list Z) (s : LSys) : LSys :=
  {| ls_l := l; ls_held := ls_held s ++ option_list r; ls_all := ls_all s ++ option_list r; ls_adopted := ls_adopted s ++ ids |}.

Inductive lstep (s : LSys) : LSys -> Prop :=
| LS_turn e l r : arrives s e -> turn e (ls_l s) = (l, Ok r) -> lstep s (after l r (adopts e) s)
| LS_drop a raw b l :
    ls_held s = a ++ raw :: b -> drop_id (rr_id raw) (ls_l s) = (l, Ok tt) ->
    lstep s {| ls_l := l; ls_held := a ++ b; ls_all := ls_all s; ls_adopted := ls_adopted s |}.

Definition ls_init : LSys := {| ls_l := RdmaListener_new; ls_held := []; ls_all := []; ls_adopted := [] |}.

(** Destroyed, and live. *)
Definition balance (adopted ids : list Z) (calls : list CmCall) : Prop :=
  forall id, occ adopted id = (occ (destroyed calls) id + if decide (id ∈ ids) then 1 else 0)%nat.

Record linv (s : LSys) : Prop := {
  li_unacked : cm_unacked (ls_cm s) = [];
  li_acked : cm_acked (ls_cm s) = seq 0 (length (cm_acked (ls_cm s)));
  li_refs : refs_ok (cm_refs (ls_cm s)) (ls_ids s);
  li_conns : NoDup (map cs_id (ls_conns s));
  li_held : NoDup (map rr_id (ls_held s));
  li_stops : map rr_stop (ls_all s) = seq 0 (rl_next (ls_l s));
  li_fired : map cs_stop (ls_conns s) ++ rl_fired (ls_l s) ≡ₚ seq 0 (rl_next (ls_l s));
  li_slots : Forall (fun c => exists raw, raw ∈ ls_all s /\ rr_id raw = cs_id c /\ rr_stop raw = cs_stop c) (ls_conns s);
  li_balance : balance (ls_adopted s) (ls_ids s) (cm_calls (ls_cm s));
}.

Lemma balance_perm adopted ids ids' calls : ids ≡ₚ ids' -> balance adopted ids calls -> balance adopted ids' calls.
Proof. intros Hp H id. rewrite (H id). f_equal. assert (id ∈ ids <-> id ∈ ids') by (by rewrite Hp). repeat case_decide; tauto. Qed.

(** A clone is dropped: the identifier is destroyed with the last. *)
Lemma balance_drop adopted id ids calls : balance adopted (id :: ids) calls -> balance adopted ids (calls ++ if decide (id ∈ ids) then [] else [CDestroy id]).
Proof.
  intros H j. rewrite (H j), destroyed_app, count_occ_app. destruct (decide (id ∈ ids)) as [Hin|Hni]; cbn [destroyed omap list_omap count_occ].
  - assert (j ∈ id :: ids <-> j ∈ ids) by (rewrite elem_of_cons; split; [intros [->|]; done|by right]). repeat case_decide; try lia; tauto.
  - destruct (Z.eq_dec id j) as [->|Hne]; [rewrite decide_True, (decide_False (P := j ∈ ids)) by (done || by left); lia|].
    assert (j ∈ id :: ids <-> j ∈ ids) by (rewrite elem_of_cons; split; [intros [->|]; done|by right]). repeat case_decide; try lia; tauto.
Qed.

Lemma balance_same adopted ids calls c : destroyed [c] = [] -> balance adopted ids calls -> balance adopted ids (calls ++ [c]).
Proof. intros Hc H id. rewrite (H id), destroyed_app, Hc, app_nil_r. done. Qed.

Lemma balance_adopt adopted ids calls id : id ∉ ids -> balance adopted ids calls -> balance (adopted ++ [id]) (id :: ids) calls.
Proof.
  intros Hni H j. rewrite count_occ_app, (H j). cbn. destruct (Z.eq_dec id j) as [->|Hne].
  - rewrite (decide_False (P := j ∈ ids)), decide_True by (done || by left). lia.
  - assert (j ∈ id :: ids <-> j ∈ ids) by (rewrite elem_of_cons; split; [intros [->|]; done|by right]). repeat case_decide; try lia; tauto.
Qed.

(** The event in hand is acknowledged last. *)
Lemma acked_filter e : filter (fun x : nat * Z => x.1 <> ev_seq e) [(ev_seq e, ev_ctx e)] = [].
Proof. rewrite filter_cons_False by (cbn; tauto). done. Qed.

Definition mk (conns : list ConnSlot) (next : nat) (fired : list nat) (refs : gmap Z nat) (unacked : list (nat * Z)) (acked : list nat) (calls : list CmCall) : RdmaListener :=
  {| rl_conns := conns; rl_cm := {| cm_refs := refs; cm_unacked := unacked; cm_acked := acked; cm_calls := calls |}; rl_next := next; rl_fired := fired |}.

Lemma ack_mk e conns next fired refs acked calls :
  ack e (mk conns next fired refs [(ev_seq e, ev_ctx e)] acked calls) = (mk conns next fired refs [] (acked ++ [ev_seq e]) calls, Ok tt).
Proof. unfold ack, modify, mk, rl_set_cm. cbn [rl_cm cm_unacked]. by rewrite acked_filter. Qed.

Lemma linv_mk s e conns next fired refs calls held all adopted :
  linv s -> arrives s e ->
  refs_ok refs (map cs_id conns ++ map rr_id held) -> NoDup (map cs_id conns) -> NoDup (map rr_id held) -> map rr_stop all = seq 0 next ->
  map cs_stop conns ++ fired ≡ₚ seq 0 next ->
  Forall (fun c => exists raw, raw ∈ all /\ rr_id raw = cs_id c /\ rr_stop raw = cs_stop c) conns ->
  balance adopted (map cs_id conns ++ map rr_id held) calls ->
  linv {| ls_l := mk conns next fired refs [] (cm_acked (ls_cm s) ++ [ev_seq e]) calls; ls_held := held; ls_all := all; ls_adopted := adopted |}.
Proof.
  intros [] [Hseq _] H1 H2 H3 H4 H5 H6 H7. split; try done. cbn. rewrite length_app. cbn [length]. rewrite Nat.add_1_r, seq_S, <- li_acked0, Hseq. done.
Qed.

(** The disconnect of a connection that the rest of the program no longer
    holds. *)
Definition orphaned (s : LSys) (e : Event) : Prop := event_type e = Disconnected /\ ev_id e ∈ map cs_id (ls_conns s) /\ ev_id e ∉ map rr_id (ls_held s).

Lemma blocked_drop id ids conns next fired refs n acked calls :
  refs_ok refs (id :: ids) -> id ∉ ids -> drop_id id (mk conns next fired refs [(n, id)] acked calls) = (mk conns next fired refs [(n, id)] acked calls, Err (Blocked id)).
Proof.
  intros H Hni. unfold drop_id. rewrite get_bind. cbn. pose proof (H id) as Hid. rewrite count_occ_cons_eq in Hid by done.
  rewrite list_elem_of_In in Hni. apply (count_occ_not_In Z.eq_dec) in Hni. rewrite Hni in Hid. rewrite Hid, Z.eqb_refl. done.
Qed.

Section Turn.
Context {s : LSys} {e : Event}.
Hypothesis Hi : linv s.
Hypothesis Ha : arrives s e.

Let l0 := mk (ls_conns s) (rl_next (ls_l s)) (rl_fired (ls_l s)) (cm_refs (ls_cm s)) [(ev_seq e, ev_ctx e)] (cm_acked (ls_cm s)) (cm_calls (ls_cm s)).

Lemma turn_retrieved : turn e (ls_l s) = on_event e l0.
Proof.
  unfold turn. rewrite (bind_ok _ _ _ l0 tt); [done|]. unfold retrieve, modify, l0, mk, rl_set_cm. pose proof (li_unacked s Hi) as Hu. unfold ls_cm in *.
  rewrite Hu. done.
Qed.

(** Any other event. *)
Lemma turn_other : event_type e <> ConnectRequest -> event_type e <> Disconnected ->
  exists l, turn e (ls_l s) = (l, Ok None) /\ linv (after l None (adopts e) s).
Proof.
  intros H1 H2. rewrite turn_retrieved. assert (adopts e = []) as Had by (unfold adopts; by destruct (event_type e)).
  exists (mk (ls_conns s) (rl_next (ls_l s)) (rl_fired (ls_l s)) (cm_refs (ls_cm s)) [] (cm_acked (ls_cm s) ++ [ev_seq e]) (cm_calls (ls_cm s))). split.
  - unfold on_event, l0. destruct (event_type e); try done; by rewrite (bind_ok _ _ _ _ _ (ack_mk e _ _ _ _ _ _)).
  - unfold after. cbn [option_list]. rewrite Had, !app_nil_r. apply linv_mk; try done; apply Hi.
Qed.

Lemma turn_disconnected : event_type e = Disconnected ->
  (orphaned s e /\ (turn e (ls_l s)).2 = Err (Blocked (ev_id e))) \/
  (~ orphaned s e /\ exists l, turn e (ls_l s) = (l, Ok None) /\ linv (after l None (adopts e) s) /\ ev_id e ∉ map cs_id (rl_conns l) /\
    forall c, c ∈ ls_conns s -> cs_id c = ev_id e -> rl_fired l = rl_fired (ls_l s) ++ [cs_stop c]).
Proof.
  intros Ht. rewrite turn_retrieved. destruct Ha as [Hseq Hctx]. rewrite Ht in Hctx. assert (adopts e = []) as Had by (unfold adopts; by rewrite Ht).
  unfold on_event. rewrite Ht. destruct (position (ev_id e) (ls_conns s)) as [pos|] eqn:Hpos.
  - pose proof Hpos as (a & c & b & Hc & Hpa & Hcid)%position_Some. pose proof (swap_remove_middle a b c) as Hsw. rewrite <- Hc, Hpa in Hsw.
    set (conns := swap_remove pos (ls_conns s)) in *.
    set (l1 := mk conns (rl_next (ls_l s)) (rl_fired (ls_l s) ++ [cs_stop c]) (cm_refs (ls_cm s)) [(ev_seq e, ev_ctx e)] (cm_acked (ls_cm s)) (cm_calls (ls_cm s) ++ [CDisconnect (ev_id e)])).
    assert (stop_conn (ev_id e) l0 = drop_id (ev_id e) l1) as Hstop.
    { unfold stop_conn. rewrite get_bind. cbn [l0 mk rl_conns]. rewrite Hpos. rewrite (bind_ok _ _ _ l0 c); [|unfold lift; rewrite Hc, list_lookup_middle by done; done].
      rewrite Hcid. done. }
    assert (ls_ids s ≡ₚ ev_id e :: map cs_id conns ++ map rr_id (ls_held s)) as Hids.
    { unfold ls_ids. rewrite Hsw, Hc, !map_app. cbn. rewrite Hcid. solve_Permutation. }
    assert (ev_id e ∉ map cs_id conns /\ NoDup (map cs_id conns)) as [Hni Hnd].
    { pose proof (li_conns s Hi) as Hn. rewrite Hc, map_app in Hn. cbn in Hn. rewrite Hcid in Hn. rewrite <- Permutation_middle in Hn. apply list.NoDup_cons in Hn.
      by rewrite Hsw, map_app. }
    pose proof (refs_perm _ _ _ Hids (li_refs s Hi)) as Hrefs.
    assert (ev_id e ∈ map cs_id (ls_conns s)) as Hin by (rewrite Hc, map_app; apply elem_of_app; right; cbn; rewrite Hcid; by left).
    destruct (decide (ev_id e ∈ map rr_id (ls_held s))) as [Hh|Hh].
    + right. split; [intros (_ & _ & ?); done|]. destruct (drop_id_ok (ev_id e) _ l1 Hrefs) as (refs & Hr & Hd).
      { intros Hn. exfalso. apply Hn. apply elem_of_app. by right. }
      rewrite decide_True, app_nil_r in Hd by (apply elem_of_app; by right). rewrite <- Hstop in Hd. rewrite (bind_ok _ _ _ _ _ Hd).
      eexists (mk conns (rl_next (ls_l s)) (rl_fired (ls_l s) ++ [cs_stop c]) refs [] (cm_acked (ls_cm s) ++ [ev_seq e]) (cm_calls (ls_cm s) ++ [CDisconnect (ev_id e)])).
      split; [exact (bind_ok _ (fun _ => mret None) _ _ _ (ack_mk e conns (rl_next (ls_l s)) (rl_fired (ls_l s) ++ [cs_stop c]) refs (cm_acked (ls_cm s)) (cm_calls (ls_cm s) ++ [CDisconnect (ev_id e)])))|].
      split; [|split; [done|]].
      * unfold after. cbn [option_list]. rewrite Had, !app_nil_r. apply linv_mk; try done; try apply Hi.
        -- rewrite <- (li_fired s Hi), Hsw, Hc, !map_app. cbn. solve_Permutation.
        -- rewrite Hsw. pose proof (li_slots s Hi) as Hs. rewrite Hc in Hs. apply list.Forall_app in Hs as [Hs1 Hs2]. apply list.Forall_cons in Hs2 as [_ Hs2]. apply list.Forall_app. by split.
        -- apply balance_same; [done|]. pose proof (balance_drop _ _ _ _ (balance_perm _ _ _ _ Hids (li_balance s Hi))) as Hb.
           by rewrite decide_True, app_nil_r in Hb by (apply elem_of_app; by right).
      * intros c' Hc' Hid'. cbn. f_equal. f_equal. rewrite Hc in Hc'. apply elem_of_app in Hc' as [Hc'|Hc']; [|apply elem_of_cons in Hc' as [->|Hc']; [done|]];
          exfalso; apply Hni; rewrite Hsw, map_app; apply elem_of_app; [left|right]; rewrite <- Hid'; apply (proj2 (list_elem_of_fmap cs_id _ _)); by exists c'.
    + left. split; [done|]. unfold mbind, M_bind. rewrite Hstop. unfold l1. rewrite Hctx, (blocked_drop (ev_id e) (map cs_id conns ++ map rr_id (ls_held s))); [done|done|].
      rewrite elem_of_app. tauto.
  - right. pose proof (position_None _ _ Hpos) as Hni. split; [intros (_ & ? & _); done|].
    exists (mk (ls_conns s) (rl_next (ls_l s)) (rl_fired (ls_l s)) (cm_refs (ls_cm s)) [] (cm_acked (ls_cm s) ++ [ev_seq e]) (cm_calls (ls_cm s))). split; [|split; [|split; [done|]]].
    + rewrite (bind_ok _ _ _ l0 tt); [unfold l0; by rewrite (bind_ok _ _ _ _ _ (ack_mk e _ _ _ _ _ _))|]. unfold stop_conn. rewrite get_bind. cbn [l0 mk rl_conns]. by rewrite Hpos.
    + unfold after. cbn [option_list]. rewrite Had, !app_nil_r. apply linv_mk; try done; apply Hi.
    + intros c Hc Hid. exfalso. apply Hni. rewrite <- Hid. apply (proj2 (list_elem_of_fmap cs_id _ _)). by exists c.
Qed.

(** The answer to a connect request. *)
Definition answer (id : Z) (stop : nat) (d : bytes) : option RdmaRaw * list CmCall :=
  match request_status d with
  | inr req => (if id =? 0 then None else Some {| rr_id := id; rr_qid := cr_qid req; rr_hsqsize := cr_hsqsize req; rr_stop := stop |}, [])
  | inl sts => (None, if id =? 0 then [] else [CReject id (CmRej_to_bytes (CmRej_new sts)); CDestroy id])
  end.

Lemma reject_bytes sts : length (CmRej_to_bytes (CmRej_new sts)) = 4%nat.
Proof. unfold CmRej_to_bytes. by rewrite length_app, !length_le_split. Qed.

Lemma turn_request : event_type e = ConnectRequest ->
  let '(r, calls) := answer (ev_id e) (rl_next (ls_l s)) (ev_data e) in
  exists l, turn e (ls_l s) = (l, Ok r) /\ linv (after l r (adopts e) s) /\ cm_calls (rl_cm l) = cm_calls (ls_cm s) ++ calls.
Proof.
  intros Ht. rewrite turn_retrieved. destruct Ha as [Hseq Hctx]. rewrite Ht in Hctx. destruct Hctx as [Hnew Hctx].
  unfold on_event, answer, adopts, private_data. rewrite Ht. cbn zeta. unfold adopt. rewrite Ht. destruct (Z.eqb_spec (ev_id e) 0) as [H0|H0].
  { destruct (request_status (ev_data e));
      exists (mk (ls_conns s) (rl_next (ls_l s)) (rl_fired (ls_l s)) (cm_refs (ls_cm s)) [] (cm_acked (ls_cm s) ++ [ev_seq e]) (cm_calls (ls_cm s)));
      (split; [unfold l0; exact (bind_ok _ (fun _ => mret None) _ _ _ (ack_mk e _ _ _ _ _ _))|]; split; [|by rewrite app_nil_r]);
      unfold after; cbn [option_list]; rewrite !app_nil_r; apply linv_mk; try done; apply Hi. }
  pose proof (refs_clone _ _ (ev_id e) (li_refs s Hi)) as Hr1. set (refs1 := <[ev_id e := _]> (cm_refs (ls_cm s))) in *.
  set (l1 := mk (ls_conns s) (rl_next (ls_l s)) (rl_fired (ls_l s)) refs1 [(ev_seq e, ev_ctx e)] (cm_acked (ls_cm s)) (cm_calls (ls_cm s))).
  match goal with |- context [mbind ?g ?m l0] => assert (forall A (f : option Z -> ML A), mbind f m l0 = f (Some (ev_id e)) l1) as Hm by done end.
  destruct (request_status (ev_data e)) as [sts|req]; rewrite Hm.
  - set (calls := cm_calls (ls_cm s) ++ [CReject (ev_id e) (CmRej_to_bytes (CmRej_new sts))]).
    set (l2 := mk (ls_conns s) (rl_next (ls_l s)) (rl_fired (ls_l s)) refs1 [(ev_seq e, ev_ctx e)] (cm_acked (ls_cm s)) calls).
    destruct (drop_id_ok (ev_id e) (ls_ids s) l2 Hr1) as (refs2 & Hr2 & Hd); [by repeat constructor|]. rewrite decide_False in Hd by done.
    assert ((_ ← ignore (reject (ev_id e) (CmRej_to_bytes (CmRej_new sts))); drop_id (ev_id e)) l1 = drop_id (ev_id e) l2) as Hrej.
    { unfold mbind, M_bind, ignore, reject. rewrite reject_bytes. done. }
    rewrite Hd in Hrej. rewrite (bind_ok _ _ _ _ _ Hrej).
    exists (mk (ls_conns s) (rl_next (ls_l s)) (rl_fired (ls_l s)) refs2 [] (cm_acked (ls_cm s) ++ [ev_seq e]) (calls ++ [CDestroy (ev_id e)])).
    split; [exact (bind_ok _ (fun _ => mret None) _ _ _ (ack_mk e _ _ _ refs2 (cm_acked (ls_cm s)) (calls ++ [CDestroy (ev_id e)])))|]. split; [|cbn; unfold calls; by rewrite <- app_assoc].
    unfold after. cbn [option_list]. rewrite !app_nil_r. apply linv_mk; try done; try apply Hi. fold (ls_ids s).
    pose proof (balance_adopt _ _ _ _ Hnew (li_balance s Hi)) as Hb. apply (balance_same _ _ _ (CReject (ev_id e) (CmRej_to_bytes (CmRej_new sts))) eq_refl) in Hb.
    apply balance_drop in Hb. by rewrite decide_False in Hb by done.
  - set (slot := {| cs_id := ev_id e; cs_stop := rl_next (ls_l s) |}). set (raw := {| rr_id := ev_id e; rr_qid := cr_qid req; rr_hsqsize := cr_hsqsize req; rr_stop := rl_next (ls_l s) |}).
    pose proof (refs_clone _ _ (ev_id e) Hr1) as Hr2. set (refs2 := <[ev_id e := _]> refs1) in *.
    exists (mk (ls_conns s ++ [slot]) (S (rl_next (ls_l s))) (rl_fired (ls_l s)) refs2 [] (cm_acked (ls_cm s) ++ [ev_seq e]) (cm_calls (ls_cm s))). split; [|split].
    + exact (bind_ok _ (fun _ => mret (Some raw)) _ _ _ (ack_mk e (ls_conns s ++ [slot]) (S (rl_next (ls_l s))) (rl_fired (ls_l s)) refs2 (cm_acked (ls_cm s)) (cm_calls (ls_cm s)))).
    + assert (map cs_id (ls_conns s ++ [slot]) ++ map rr_id (ls_held s ++ [raw]) ≡ₚ ev_id e :: ev_id e :: ls_ids s) as Hp.
      { unfold ls_ids. rewrite !map_app. cbn. solve_Permutation. }
      pose proof Hnew as Hn. unfold ls_ids in Hn. rewrite not_elem_of_app in Hn. destruct Hn as [Hn1 Hn2].
      assert (forall l, NoDup l -> ev_id e ∉ l -> NoDup (l ++ [ev_id e])) as Hnd.
      { intros l Hl Hnl. rewrite <- Permutation_cons_append. by apply list.NoDup_cons. }
      unfold after. cbn [option_list]. apply linv_mk; try done.
      * eapply refs_perm; [symmetry; exact Hp|done].
      * rewrite map_app. apply Hnd; [apply Hi|done].
      * rewrite map_app. apply Hnd; [apply Hi|done].
      * rewrite map_app, (li_stops s Hi), seq_S. done.
      * rewrite map_app, seq_S, <- (li_fired s Hi). cbn. solve_Permutation.
      * apply list.Forall_app. split; [|repeat constructor; exists raw; split; [apply elem_of_app; right; by left|done]].
        eapply list.Forall_impl; [exact (li_slots s Hi)|]. intros c (x & Hx & Hx'). exists x. split; [apply elem_of_app; by left|done].
      * eapply balance_perm; [symmetry; exact Hp|]. pose proof (balance_adopt _ _ _ _ Hnew (li_balance s Hi)) as Hb. intros id. rewrite (Hb id). f_equal.
        assert (id ∈ ev_id e :: ev_id e :: ls_ids s <-> id ∈ ev_id e :: ls_ids s) by (rewrite !elem_of_cons; tauto). repeat case_decide; tauto.
    + cbn. by rewrite app_nil_r.
Qed.

End Turn.

Lemma lstep_ok s s' : linv s -> lstep s s' -> linv s'.
Proof.
  intros Hi [e l r Ha Ht|a raw b l Hh Hd].
  - destruct (decide (event_type e = ConnectRequest)) as [Hc|Hc]; [|destruct (decide (event_type e = Disconnected)) as [Hdc|Hdc]].
    + pose proof (turn_request Hi Ha Hc) as H. destruct (answer _ _ _) as [r' calls]. destruct H as (l' & He & H & _). rewrite He in Ht. by injection Ht as <- <-.
    + destruct (turn_disconnected Hi Ha Hdc) as [[_ He]|(_ & l' & He & H & _)]; [by rewrite Ht in He|]. rewrite He in Ht. by injection Ht as <- <-.
    + destruct (turn_other Hi Ha Hc Hdc) as (l' & He & H). rewrite He in Ht. by injection Ht as <- <-.
  - assert (ls_ids s ≡ₚ rr_id raw :: map cs_id (ls_conns s) ++ map rr_id (a ++ b)) as Hp by (unfold ls_ids; rewrite Hh, !map_app; cbn; solve_Permutation).
    destruct (drop_id_ok (rr_id raw) _ (ls_l s) (refs_perm _ _ _ Hp (li_refs s Hi))) as (refs & Hr & He); [intros _; pose proof (li_unacked s Hi) as Hu; unfold ls_cm in Hu; by rewrite Hu|].
    rewrite He in Hd. injection Hd as <-. pose proof (balance_drop _ _ _ _ (balance_perm _ _ _ _ Hp (li_balance s Hi))) as Hb. destruct Hi. split; try done.
    cbn. rewrite Hh, map_app in li_held0. cbn in li_held0. rewrite <- Permutation_middle in li_held0. apply list.NoDup_cons in li_held0 as [_ ?]. by rewrite map_app.
Qed.

Inductive lreached : LSys -> Prop :=
| lr_init : lreached ls_init
| lr_step s s' : lreached s -> lstep s s' -> lreached s'.

Lemma ls_init_ok : linv ls_init.
Proof.
  split; cbn; try done; try constructor.
Qed.

Lemma lreached_ok s : lreached s -> linv s.
Proof. induction 1 as [|s s' _ IH Hs]; [apply ls_init_ok|by eapply lstep_ok]. Qed.

(** C26. The listener of the connection manager: every event was acknowledged
    once; every connection that was accepted is in the table, under its
    identifier, until its disconnect comes, which fires its stop signal once; an
    identifier is live while the table or the rest of the program has it, and was
    destroyed once for each time it was adopted and given up.  A connect request
    is accepted, or rejected with the reason and its identifier destroyed; a turn
    ends, but for the disconnect of a connection the rest of the program has
    dropped before, whose identifier is destroyed with the event in hand. *)
Theorem rdma_listener_accounts s : lreached s ->
  let cm := ls_cm s in
  cm_unacked cm = [] /\ NoDup (cm_acked cm) /\
  map cs_stop (ls_conns s) ++ rl_fired (ls_l s) ≡ₚ map rr_stop (ls_all s) /\ NoDup (map rr_stop (ls_all s)) /\
  Forall (fun c => exists raw, raw ∈ ls_all s /\ rr_id raw = cs_id c /\ rr_stop raw = cs_stop c) (ls_conns s) /\ NoDup (map cs_id (ls_conns s)) /\
  (forall id, is_Some (cm_refs cm !! id) <-> id ∈ ls_ids s) /\
  (forall id, occ (ls_adopted s) id = (occ (destroyed (cm_calls cm)) id + if decide (id ∈ ls_ids s) then 1 else 0)%nat) /\
  forall e, arrives s e ->
    match event_type e with
    | ConnectRequest => exists l, turn e (ls_l s) = (l, Ok (answer (ev_id e) (rl_next (ls_l s)) (ev_data e)).1) /\
        cm_calls (rl_cm l) = cm_calls cm ++ (answer (ev_id e) (rl_next (ls_l s)) (ev_data e)).2
    | Disconnected =>
        if decide (ev_id e ∈ map cs_id (ls_conns s) /\ ev_id e ∉ map rr_id (ls_held s)) then (turn e (ls_l s)).2 = Err (Blocked (ev_id e))
        else exists l, turn e (ls_l s) = (l, Ok None) /\ ev_id e ∉ map cs_id (rl_conns l) /\
          forall c, c ∈ ls_conns s -> cs_id c = ev_id e -> rl_fired l = rl_fired (ls_l s) ++ [cs_stop c]
    | _ => exists l, turn e (ls_l s) = (l, Ok None)
    end.
Proof.
  intros Hr cm. subst cm. pose proof (lreached_ok s Hr) as Hi. split; [apply Hi|]. split; [rewrite (li_acked s Hi); apply NoDup_seq|].
  split; [rewrite (li_stops s Hi); apply Hi|]. split; [rewrite (li_stops s Hi); apply NoDup_seq|]. split; [apply Hi|]. split; [apply Hi|].
  split; [intros id; apply refs_live, Hi|]. split; [apply Hi|]. intros e Ha.
  destruct (decide (event_type e = ConnectRequest)) as [Hc|Hc]; [|destruct (decide (event_type e = Disconnected)) as [Hd|Hd]].
  - rewrite Hc. pose proof (turn_request Hi Ha Hc) as H. destruct (answer _ _ _) as [r calls]. destruct H as (l & He & _ & Hl). by exists l.
  - rewrite Hd. destruct (turn_disconnected Hi Ha Hd) as [[(_ & H1 & H2) He]|(Hno & l & He & _ & H)]; [by rewrite decide_True|].
    rewrite decide_False by (intros [H1 H2]; by apply Hno). by exists l.
  - destruct (turn_other Hi Ha Hc Hd) as (l & He & _). destruct (event_type e); try done; by exists l.
Qed.

(** [accept] is turns, up to the first connection. *)
Lemma accept_turns e answers l : accept (Got (Some e) :: answers) l =
  (r ← turn e; match r with Some raw => mret (Some (raw, answers)) | None => accept answers end) l.
Proof. cbn [accept next_event]. unfold turn, mbind, M_bind. cbn. by destruct (on_event e _) as [l' [r|?|]]. Qed.

(** [bind] ends: at the latest the failure after 120 retries is returned. *)
Lemma bind_ends answers : (BIND_ATTEMPTS < length answers)%nat -> is_Some (bind_retries 0 answers).
Proof.
  assert (forall a l, (BIND_ATTEMPTS < a + length l)%nat -> (a <= BIND_ATTEMPTS)%nat -> is_Some (bind_retries a l)) as H.
  { intros a l. revert a. induction l as [|[e|] l IH]; cbn [length bind_retries]; intros a Ha Hb; [lia| |by eexists]. destruct (Nat.ltb_spec a BIND_ATTEMPTS); [apply IH; lia|by eexists]. }
  intros Hl. apply H; lia.
Qed.

(** A host connects. *)
Definition demo_request : Event :=
  {| ev_seq := 0; ev_type := 4; ev_id := 0x1000; ev_ctx := 0x10; ev_data := CmReq_to_bytes {| cr_recfmt := 0; cr_qid := 1; cr_hrqsize := 128; cr_hsqsize := 127; cr_cntlid := 0xffff |} |}.
Definition demo_ls1 : LSys := after (turn demo_request RdmaListener_new).1 (answer 0x1000 0 (ev_data demo_request)).1 [0x1000] ls_init.
(** Its queue ends. *)
Definition demo_ls2 : LSys := {| ls_l := (drop_id 0x1000 (ls_l demo_ls1)).1; ls_held := []; ls_all := ls_all demo_ls1; ls_adopted := [0x1000] |}.
Definition demo_disconnect : Event := {| ev_seq := 1; ev_type := 10; ev_id := 0x1000; ev_ctx := 0x1000; ev_data := [] |}.

Lemma demo_ls1_reached : lreached demo_ls1.
Proof.
  eapply lr_step; [apply lr_init|]. apply (LS_turn ls_init demo_request); [|apply ran; by vm_compute]. split; [done|]. split; [apply not_elem_of_nil|done].
Qed.

Lemma demo_ls2_reached : lreached demo_ls2.
Proof.
  eapply lr_step; [exact demo_ls1_reached|]. eapply (LS_drop demo_ls1 [] _ []); [by vm_compute|]. apply ran. by vm_compute.
Qed.

Lemma rdma_listener_accounts_witness : lreached demo_ls1 /\ exists l, turn demo_disconnect (ls_l demo_ls1) = (l, Ok None).
Proof.
  split; [exact demo_ls1_reached|]. pose proof (rdma_listener_accounts demo_ls1 demo_ls1_reached) as (_ & _ & _ & _ & _ & _ & _ & _ & H).
  specialize (H demo_disconnect ltac:(by vm_compute)). destruct (decide _) as [[_ Hn]|_] in H; [exfalso; apply Hn; vm_compute; by left|].
  destruct H as (l & H & _). exists l. exact H.
Defined.

(** The queue has ended, then the disconnect comes: the thread of the connection
    manager waits for itself. *)
Example disconnect_after_end_blocks : lreached demo_ls2 /\ arrives demo_ls2 demo_disconnect /\ (turn demo_disconnect (ls_l demo_ls2)).2 = Err (Blocked 0x1000).
Proof. split; [exact demo_ls2_reached|]. split; by vm_compute. Qed.
