(* ===== verification/Reactor.v ===== *)
(** * [ioutgt-uring/src/reactor.rs], [op.rs] and [cqe.rs]: the reactor of a thread

    The submission ring, the operations the kernel holds and the completion ring
    stand for the io-uring crate and the kernel: a call of [io_uring_enter] gives
    the kernel a prefix of the submission ring and returns what its [Enter]
    argument says.  The slab is a map; the key of a new entry is an argument (the
    slab crate returns one that is vacant).  A boxed buffer is its address and
    length, a probe the identifier it was registered under; what probes and spin
    predicates return are arguments.  Wakers are numbers, and waking is
    recorded. *)

From S2P Require Import Prelude SlotQ.

(** ** Completions *)

Record CqeResult := { cq_result : Z; cq_flags : Z }.

Inductive IoError := OsError (errno : Z) | SqRingFull | BufferTooLarge | NoBuffer.

(** [io]; the negation is checked. *)
Definition io (r : CqeResult) : res IoError Z :=
  if cq_result r <? 0
  then if cq_result r =? - 2 ^ 31 then Panic else Err (OsError (- cq_result r))
  else Ok (wrap 32 (cq_result r)).

(** [IORING_CQE_F_MORE]. *)
Definition more (r : CqeResult) : bool := Z.testbit (cq_flags r) 1.

(** ** Operations *)

(** A boxed slice. *)
Record Buf := { b_addr : Z; b_len : Z }.

Record MsgResources := { ms_addr : Z; ms_bufs : Buf * Buf; ms_iovecs : list (Z * Z) }.

Definition new_send (addr : Z) (header payload : Buf) : MsgResources :=
  {| ms_addr := addr; ms_bufs := (header, payload); ms_iovecs := [(b_addr header, b_len header); (b_addr payload, b_len payload)] |}.

Inductive Resources :=
| ResNone
| ResBuffer (b : Buf)
| ResTimespec (addr sec nsec : Z)
| ResMsg (m : MsgResources).

Definition into_buffer {E} (r : Resources) : res E Buf := match r with ResBuffer b => Ok b | _ => Panic end.
Definition into_msg {E} (r : Resources) : res E MsgResources := match r with ResMsg m => Ok m | _ => Panic end.

Inductive BackendFd := FdRaw (fd : Z) | FdFixed (idx : Z).

(** What a submission entry asks for. *)
Inductive Opcode :=
| SqRead (f : BackendFd) (ptr len off : Z)
| SqWrite (f : BackendFd) (ptr len off : Z)
| SqReadv (f : BackendFd) (iov n off flags : Z)
| SqWritev (f : BackendFd) (iov n off flags : Z)
| SqReadvFixed (f : BackendFd) (iov n off buf_index flags : Z)
| SqWritevFixed (f : BackendFd) (iov n off buf_index flags : Z)
| SqRecv (fd ptr len : Z)
| SqSend (fd ptr len : Z)
| SqRecvMsg (fd msg flags : Z)
| SqSendMsg (fd msg : Z)
| SqSendMsgZc (fd msg ioprio : Z)
| SqSendZc (fd iov n buf_index flags : Z)
| SqRecvMulti (fd bgid : Z)
| SqAccept (fd : Z)
| SqAcceptMulti (fd : Z)
| SqPollAdd (fd events : Z) (multi : bool)
| SqTimeout (ts : Z)
| SqFsync (f : BackendFd) (datasync : bool)
| SqFallocate (f : BackendFd) (mode off len : Z)
| SqUringCmd (f : BackendFd) (cmd_op : Z) (cmd : bytes) (addr : Z)
| SqAsyncCancel (key : Z).

Record Entry := { en_op : Opcode; en_key : Z }.

Record OpEntry := {
  oe_first : option CqeResult;
  oe_overflow : list CqeResult;
  oe_waker : option nat;
  oe_terminated : bool;
  oe_orphaned : bool;
  oe_resources : Resources;
}.

Definition OpEntry_new (r : Resources) : OpEntry :=
  {| oe_first := None; oe_overflow := []; oe_waker := None; oe_terminated := false; oe_orphaned := false; oe_resources := r |}.

Definition oe_results (first : option CqeResult) (overflow : list CqeResult) (e : OpEntry) : OpEntry :=
  {| oe_first := first; oe_overflow := overflow; oe_waker := oe_waker e; oe_terminated := oe_terminated e; oe_orphaned := oe_orphaned e;
     oe_resources := oe_resources e |}.
Definition oe_state (waker : option nat) (terminated orphaned : bool) (e : OpEntry) : OpEntry :=
  {| oe_first := oe_first e; oe_overflow := oe_overflow e; oe_waker := waker; oe_terminated := terminated; oe_orphaned := orphaned;
     oe_resources := oe_resources e |}.

Definition push_result (r : CqeResult) (e : OpEntry) : OpEntry :=
  match oe_first e, oe_overflow e with
  | None, [] => oe_results (Some r) [] e
  | f, l => oe_results f (l ++ [r]) e
  end.
Definition pop_result (e : OpEntry) : OpEntry * option CqeResult :=
  match oe_first e with
  | Some r => (oe_results None (oe_overflow e) e, Some r)
  | None => match oe_overflow e with [] => (e, None) | r :: l => (oe_results None l e, Some r) end
  end.
Definition has_result (e : OpEntry) : bool :=
  match oe_first e, oe_overflow e with None, [] => false | _, _ => true end.

Definition IGNORE_USER_DATA : Z := 2 ^ 64 - 1.

(** ** The reactor *)

Inductive SqeClass := ClOther | ClSend | ClRecv | ClRead | ClWrite.

Record StatCells := {
  st_parks : Z; st_sqes : Z; st_send : Z; st_recv : Z; st_read : Z; st_write : Z; st_cqes : Z; st_hist : list Z; st_last_rw : Z;
}.

Definition StatCells_default : StatCells :=
  {| st_parks := 0; st_sqes := 0; st_send := 0; st_recv := 0; st_read := 0; st_write := 0; st_cqes := 0; st_hist := replicate 6 0; st_last_rw := 0 |}.

Record Reactor := {
  (** The rings, and the operations the kernel holds. *)
  r_sq : list Entry;
  r_sq_entries : nat;
  r_kernel : list Entry;
  r_cq : list (Z * CqeResult);
  r_slab : gmap Z OpEntry;
  r_stats : StatCells;
  (** Identifier, and whether it has a spin predicate. *)
  r_probes : list (Z * bool);
  r_next_probe_id : Z;
  r_free_bufs : list Z;
  r_fixed_supported : bool;
  r_free_files : list Z;
  r_files_supported : bool;
  r_file_cache : list (Z * option Z);
  r_woken : list nat;
}.

Definition r_set_ring (sq kernel : list Entry) (cq : list (Z * CqeResult)) (r : Reactor) : Reactor :=
  {| r_sq := sq; r_sq_entries := r_sq_entries r; r_kernel := kernel; r_cq := cq; r_slab := r_slab r; r_stats := r_stats r; r_probes := r_probes r;
     r_next_probe_id := r_next_probe_id r; r_free_bufs := r_free_bufs r; r_fixed_supported := r_fixed_supported r; r_free_files := r_free_files r;
     r_files_supported := r_files_supported r; r_file_cache := r_file_cache r; r_woken := r_woken r |}.
Definition r_set_slab (slab : gmap Z OpEntry) (woken : list nat) (r : Reactor) : Reactor :=
  {| r_sq := r_sq r; r_sq_entries := r_sq_entries r; r_kernel := r_kernel r; r_cq := r_cq r; r_slab := slab; r_stats := r_stats r; r_probes := r_probes r;
     r_next_probe_id := r_next_probe_id r; r_free_bufs := r_free_bufs r; r_fixed_supported := r_fixed_supported r; r_free_files := r_free_files r;
     r_files_supported := r_files_supported r; r_file_cache := r_file_cache r; r_woken := woken |}.
Definition r_set_stats (s : StatCells) (r : Reactor) : Reactor :=
  {| r_sq := r_sq r; r_sq_entries := r_sq_entries r; r_kernel := r_kernel r; r_cq := r_cq r; r_slab := r_slab r; r_stats := s; r_probes := r_probes r;
     r_next_probe_id := r_next_probe_id r; r_free_bufs := r_free_bufs r; r_fixed_supported := r_fixed_supported r; r_free_files := r_free_files r;
     r_files_supported := r_files_supported r; r_file_cache := r_file_cache r; r_woken := r_woken r |}.
Definition r_set_probes (probes : list (Z * bool)) (next : Z) (r : Reactor) : Reactor :=
  {| r_sq := r_sq r; r_sq_entries := r_sq_entries r; r_kernel := r_kernel r; r_cq := r_cq r; r_slab := r_slab r; r_stats := r_stats r; r_probes := probes;
     r_next_probe_id := next; r_free_bufs := r_free_bufs r; r_fixed_supported := r_fixed_supported r; r_free_files := r_free_files r;
     r_files_supported := r_files_supported r; r_file_cache := r_file_cache r; r_woken := r_woken r |}.
Definition r_set_tables (bufs files : list Z) (cache : list (Z * option Z)) (r : Reactor) : Reactor :=
  {| r_sq := r_sq r; r_sq_entries := r_sq_entries r; r_kernel := r_kernel r; r_cq := r_cq r; r_slab := r_slab r; r_stats := r_stats r; r_probes := r_probes r;
     r_next_probe_id := r_next_probe_id r; r_free_bufs := bufs; r_fixed_supported := r_fixed_supported r; r_free_files := files;
     r_files_supported := r_files_supported r; r_file_cache := cache; r_woken := r_woken r |}.

Abbreviation MU A := (M Reactor IoError A).

Definition MAX_REG_BUFS : Z := 64.
Definition MAX_REG_FILES : Z := 64.

(** [Reactor::init], once the ring is built: what the kernel supports. *)
Definition Reactor_init (sq_entries : nat) (fixed_supported files_supported : bool) : Reactor :=
  {| r_sq := []; r_sq_entries := sq_entries; r_kernel := []; r_cq := []; r_slab := ∅; r_stats := StatCells_default; r_probes := []; r_next_probe_id := 0;
     r_free_bufs := if fixed_supported then rev (seqZ 0 MAX_REG_BUFS) else []; r_fixed_supported := fixed_supported;
     r_free_files := if files_supported then rev (seqZ 0 MAX_REG_FILES) else []; r_files_supported := files_supported;
     r_file_cache := []; r_woken := [] |}.

(** ** Counters *)

Definition st_set (parks sqes cqes : Z) (hist : list Z) (last_rw : Z) (s : StatCells) : StatCells :=
  {| st_parks := parks; st_sqes := sqes; st_send := st_send s; st_recv := st_recv s; st_read := st_read s; st_write := st_write s;
     st_cqes := cqes; st_hist := hist; st_last_rw := last_rw |}.

Definition hist_index (batch : Z) : option nat :=
  if batch =? 0 then None else if batch =? 1 then Some 0%nat else if batch =? 2 then Some 1%nat else if batch <=? 4 then Some 2%nat
  else if batch <=? 8 then Some 3%nat else if batch <=? 16 then Some 4%nat else Some 5%nat.

Definition note_submit (s : StatCells) : res IoError StatCells :=
  rw ← checked 64 (st_read s + st_write s);
  batch ← checked 64 (rw - st_last_rw s);
  let s := st_set (st_parks s) (st_sqes s) (st_cqes s) (st_hist s) rw s in
  match hist_index batch with
  | None => Ok s
  | Some i => v ← expect (st_hist s !! i); v ← checked 64 (v + 1); Ok (st_set (st_parks s) (st_sqes s) (st_cqes s) (<[i := v]> (st_hist s)) (st_last_rw s) s)
  end.

Definition bump_class (c : SqeClass) (s : StatCells) : res IoError StatCells :=
  let put send recv read write := Ok {| st_parks := st_parks s; st_sqes := st_sqes s; st_send := send; st_recv := recv; st_read := read; st_write := write;
                                         st_cqes := st_cqes s; st_hist := st_hist s; st_last_rw := st_last_rw s |} in
  match c with
  | ClSend => v ← checked 64 (st_send s + 1); put v (st_recv s) (st_read s) (st_write s)
  | ClRecv => v ← checked 64 (st_recv s + 1); put (st_send s) v (st_read s) (st_write s)
  | ClRead => v ← checked 64 (st_read s + 1); put (st_send s) (st_recv s) v (st_write s)
  | ClWrite => v ← checked 64 (st_write s + 1); put (st_send s) (st_recv s) (st_read s) v
  | ClOther => Ok s
  end.

(** Counting on the reactor. *)
Definition stat (f : StatCells -> res IoError StatCells) : MU unit :=
  r ← get; s ← lift (f (r_stats r)); modify (r_set_stats s).

Definition count_sqe (c : SqeClass) : MU unit :=
  _ ← stat (fun s => v ← checked 64 (st_sqes s + 1); Ok (st_set (st_parks s) v (st_cqes s) (st_hist s) (st_last_rw s) s));
  stat (bump_class c).

Definition reset_stats : MU unit := modify (r_set_stats StatCells_default).

(** ** Submission *)

(** What a call of [io_uring_enter] returns, and how many entries it took. *)
Record Enter := { ent_errno : option Z; ent_taken : nat }.

Definition enter (a : Enter) : MU unit :=
  r ← get;
  _ ← modify (r_set_ring (drop (ent_taken a) (r_sq r)) (r_kernel r ++ take (ent_taken a) (r_sq r)) (r_cq r));
  match ent_errno a with Some e => fail (OsError e) | None => mret tt end.

(** [submission().push]: [false] when the ring is full. *)
Definition sq_push (e : Entry) : MU bool :=
  r ← get;
  if (length (r_sq r) <? r_sq_entries r)%nat
  then _ ← modify (r_set_ring (r_sq r ++ [e]) (r_kernel r) (r_cq r)); mret true
  else mret false.

Definition push_sqe (a : Enter) (e : Entry) (c : SqeClass) : MU unit :=
  ok ← sq_push e;
  if ok : bool then count_sqe c
  else
    _ ← stat note_submit;
    _ ← enter a;
    ok ← sq_push e;
    if ok : bool then count_sqe c else fail SqRingFull.

Definition slab_set (f : gmap Z OpEntry -> gmap Z OpEntry) : MU unit := modify (fun r => r_set_slab (f (r_slab r)) (r_woken r) r).

(** A failing call whose effects stay. *)
Definition attempt {A} (m : MU A) : MU (option IoError) := fun r =>
  match m r with (r, Ok _) => (r, Ok None) | (r, Err e) => (r, Ok (Some e)) | (r, Panic) => (r, Panic) end.

Definition submit_op (key : Z) (a : Enter) (op : Opcode) (resources : Resources) (c : SqeClass) : MU Z :=
  _ ← slab_set (insert key (OpEntry_new resources));
  failed ← attempt (push_sqe a {| en_op := op; en_key := key |} c);
  match failed with
  | Some e => _ ← slab_set (delete key); fail e
  | None => mret key
  end.

Definition orphan (a : Enter) (key : Z) : MU unit :=
  r ← get;
  match r_slab r !! key with
  | None => mret tt
  | Some e =>
      if oe_terminated e then slab_set (delete key)
      else
        _ ← slab_set (insert key (oe_state None (oe_terminated e) true e));
        _ ← attempt (push_sqe a {| en_op := SqAsyncCancel key; en_key := IGNORE_USER_DATA |} ClOther);
        mret tt
  end.

(** ** Reaping *)

(** A completion is routed to its entry: the wakers woken. *)
Definition route_cqe (c : Z * CqeResult) : MU nat :=
  _ ← stat (fun s => v ← checked 64 (st_cqes s + 1); Ok (st_set (st_parks s) (st_sqes s) v (st_hist s) (st_last_rw s) s));
  let '(key, result) := c in
  if key =? IGNORE_USER_DATA then mret 0%nat
  else
    r ← get;
    e ← lift (expect (r_slab r !! key));
    let e := oe_state (oe_waker e) (oe_terminated e || negb (more result)) (oe_orphaned e) e in
    if oe_orphaned e then
      _ ← slab_set (if oe_terminated e then delete key else insert key e); mret 0%nat
    else
      let e := push_result result e in
      match oe_waker e with
      | None => _ ← slab_set (insert key e); mret 0%nat
      | Some w =>
          _ ← modify (fun r => r_set_slab (<[key := oe_state None (oe_terminated e) (oe_orphaned e) e]> (r_slab r)) (r_woken r ++ [w]) r);
          mret 1%nat
      end.

Fixpoint reap_loop (l : list (Z * CqeResult)) : MU nat :=
  match l with [] => mret 0%nat | c :: l => n ← route_cqe c; m ← reap_loop l; mret (n + m)%nat end.

Definition reap : MU nat :=
  r ← get;
  _ ← modify (r_set_ring (r_sq r) (r_kernel r) []);
  reap_loop (r_cq r).

(** ** Parking *)

Definition add_park_probe (spin : bool) : MU Z :=
  r ← get;
  let id := r_next_probe_id r in
  next ← lift (checked 64 (id + 1));
  _ ← modify (r_set_probes (r_probes r ++ [(id, spin)]) next);
  mret id.

Definition remove_park_probe (id : Z) : MU unit :=
  modify (fun r => r_set_probes (filter (fun p => p.1 <> id) (r_probes r)) (r_next_probe_id r) r).

(** What the probes and the spin predicates return. *)
Definition run_park_probes (work : Z -> bool) (r : Reactor) : bool := existsb (fun p => work p.1) (r_probes r).
Definition spin_requested (spin : Z -> bool) (r : Reactor) : bool := existsb (fun p => p.2 && spin p.1) (r_probes r).

Definition ETIME : Z := 62.
Definition EINTR : Z := 4.
Definition EBUSY : Z := 16.
Definition EAGAIN : Z := 11.

(** [Park]: a pass has ended; [Spun], [Waited]: the kernel was entered, and the
    loop goes on. *)
Inductive Pass := Return | Spun | Waited.

(** A pass of the loop of [park], up to the completions of the wait. *)
Definition park_pass (work spin : Z -> bool) (a : Enter) : MU Pass :=
  n ← reap;
  if (0 <? n)%nat then mret Return
  else
    r ← get;
    if run_park_probes work r then mret Return
    else if spin_requested spin r then
      _ ← (if (0 <? length (r_sq r))%nat then stat note_submit else mret tt);
      _ ← attempt (enter a);
      mret Spun
    else if bool_decide (r_slab r = ∅) then mret Return
    else
      _ ← stat (fun s => v ← checked 64 (st_parks s + 1); Ok (st_set v (st_sqes s) (st_cqes s) (st_hist s) (st_last_rw s) s));
      _ ← stat note_submit;
      failed ← attempt (enter a);
      match failed with
      | None => mret Waited
      | Some (OsError e) => if (e =? ETIME) || (e =? EINTR) || (e =? EBUSY) || (e =? EAGAIN) then mret Waited else panic
      | Some _ => panic
      end.

(** What follows the wait. *)
Definition park_reap : MU bool := n ← reap; mret (0 <? n)%nat.

(** ** The fixed tables *)

(** [ok]: the kernel accepted the registration. *)
Definition register_buffer (ok : bool) : MU (option Z) := fun r =>
  match reverse (r_free_bufs r) with
  | [] => (r, Ok None)
  | idx :: l =>
      if ok then (r_set_tables (reverse l) (r_free_files r) (r_file_cache r) r, Ok (Some idx))
      else (r_set_tables (reverse l ++ [idx]) (r_free_files r) (r_file_cache r) r, Ok None)
  end.
Definition unregister_buffer (idx : Z) : MU unit :=
  modify (fun r => r_set_tables (r_free_bufs r ++ [idx]) (r_free_files r) (r_file_cache r) r).

Definition register_file (ok : bool) : MU (option Z) := fun r =>
  match reverse (r_free_files r) with
  | [] => (r, Ok None)
  | idx :: l =>
      if ok then (r_set_tables (r_free_bufs r) (reverse l) (r_file_cache r) r, Ok (Some idx))
      else (r_set_tables (r_free_bufs r) (reverse l ++ [idx]) (r_file_cache r) r, Ok None)
  end.

Definition fixed_file_index (ok : bool) (fd : Z) : MU (option Z) :=
  r ← get;
  match find (fun c => c.1 =? fd) (r_file_cache r) with
  | Some (_, i) => mret i
  | None =>
      i ← register_file ok;
      _ ← modify (fun r => r_set_tables (r_free_bufs r) (r_free_files r) (r_file_cache r ++ [(fd, i)]) r);
      mret i
  end.

(** ** Waiting for the end *)

Definition pending_ops (r : Reactor) : nat := size (r_slab r).

(** [Drop]: rounds left (before the check of a round, or in its wait), or done:
    everything was freed, or what is left leaked. *)
Inductive Closing := Rounds (n : nat) | Waiting (n : nat) | Freed | Leaked (rest : gmap Z OpEntry).

Definition DROP_ROUNDS : nat := 500.

Definition drop_round (a : Enter) (c : Closing) : MU Closing :=
  match c with
  | Rounds n =>
      r ← get;
      if bool_decide (r_slab r = ∅) then mret Freed
      else match n with
           | O => _ ← slab_set (fun _ => ∅); mret (Leaked (r_slab r))
           | S n => _ ← attempt (enter a); mret (Waiting n)
           end
  | Waiting n => _ ← reap; mret (Rounds n)
  | _ => mret c
  end.

(** ** Handles *)

Record Op := { op_key : Z; op_done : bool }.

Definition poll_single (w : nat) (o : Op) : MU (Op * option (CqeResult * Resources)) :=
  _ ← lift (assert (negb (op_done o)));
  r ← get;
  e ← lift (expect (r_slab r !! op_key o));
  if negb (has_result e) then
    _ ← slab_set (insert (op_key o) (oe_state (Some w) (oe_terminated e) (oe_orphaned e) e));
    mret (o, None)
  else
    _ ← lift (assert (oe_terminated e));
    _ ← slab_set (delete (op_key o));
    let '(e, result) := pop_result e in
    result ← lift (expect result);
    mret ({| op_key := op_key o; op_done := true |}, Some (result, oe_resources e)).

Definition drop_op (a : Enter) (o : Op) : MU unit := if op_done o then mret tt else orphan a (op_key o).

(** [MultiOp::poll_next]: pending, ended, or the next completion. *)
Inductive Next := NPending | NEnd | NSome (r : CqeResult).

Definition poll_next (w : nat) (o : Op) : MU (Op * Next) :=
  if op_done o then mret (o, NEnd)
  else
    let done := {| op_key := op_key o; op_done := true |} in
    r ← get;
    e ← lift (expect (r_slab r !! op_key o));
    match pop_result e with
    | (e, Some result) =>
        if oe_terminated e && negb (has_result e)
        then _ ← slab_set (delete (op_key o)); mret (done, NSome result)
        else _ ← slab_set (insert (op_key o) e); mret (o, NSome result)
    | (e, None) =>
        if oe_terminated e then _ ← slab_set (delete (op_key o)); mret (done, NEnd)
        else _ ← slab_set (insert (op_key o) (oe_state (Some w) (oe_terminated e) (oe_orphaned e) e)); mret (o, NPending)
    end.

(** ** [ops.rs]: the operations *)

(** [Op::submit_classed] and [MultiOp::submit_classed]. *)
Definition submit_classed (key : Z) (a : Enter) (op : Opcode) (resources : Resources) (c : SqeClass) : MU Op :=
  k ← submit_op key a op resources c; mret {| op_key := k; op_done := false |}.

Definition buf_len (b : Buf) : res IoError Z := if b_len b <? 2 ^ 32 then Ok (b_len b) else Err BufferTooLarge.

Section Ops.
Variables (key : Z) (a : Enter).

Definition read_at (fd : Z) (buf : Buf) (offset : Z) : MU Op :=
  len ← lift (buf_len buf);
  submit_classed key a (SqRead (FdRaw fd) (b_addr buf) len offset) (ResBuffer buf) ClOther.
Definition write_at (fd : Z) (buf : Buf) (offset : Z) : MU Op :=
  len ← lift (buf_len buf);
  submit_classed key a (SqWrite (FdRaw fd) (b_addr buf) len offset) (ResBuffer buf) ClOther.
Definition recv (fd : Z) (buf : Buf) : MU Op :=
  len ← lift (buf_len buf);
  submit_classed key a (SqRecv fd (b_addr buf) len) (ResBuffer buf) ClRecv.
Definition send (fd : Z) (buf : Buf) : MU Op :=
  len ← lift (buf_len buf);
  submit_classed key a (SqSend fd (b_addr buf) len) (ResBuffer buf) ClSend.
(** [box]: where the message header is put. *)
Definition send_vectored (box fd : Z) (header payload : Buf) : MU Op :=
  let msg := new_send box header payload in
  submit_classed key a (SqSendMsg fd (ms_addr msg)) (ResMsg msg) ClSend.
Definition accept (fd : Z) : MU Op := submit_classed key a (SqAccept fd) ResNone ClOther.
Definition accept_multi (fd : Z) : MU Op := submit_classed key a (SqAcceptMulti fd) ResNone ClOther.
Definition poll_add (fd events : Z) : MU Op := submit_classed key a (SqPollAdd fd events false) ResNone ClOther.
Definition poll_add_multi (fd events : Z) : MU Op := submit_classed key a (SqPollAdd fd events true) ResNone ClOther.
Definition sleep (box secs nanos : Z) : MU Op :=
  submit_classed key a (SqTimeout box) (ResTimespec box secs nanos) ClOther.
Definition fsync (file : BackendFd) (datasync : bool) : MU Op := submit_classed key a (SqFsync file datasync) ResNone ClOther.
Definition fallocate (file : BackendFd) (mode offset len : Z) : MU Op :=
  submit_classed key a (SqFallocate file mode offset len) ResNone ClOther.

Definition BLOCK_URING_CMD_DISCARD : Z := Z.shiftl 0x12 8.

Definition block_discard (file : BackendFd) (offset len : Z) : MU Op :=
  submit_classed key a (SqUringCmd file BLOCK_URING_CMD_DISCARD (le_split 8 len ++ zeroes 8) offset) ResNone ClOther.
Definition recv_raw (fd ptr len : Z) : MU Op := submit_classed key a (SqRecv fd ptr len) ResNone ClRecv.

(** [MSG_WAITALL]. *)
Definition MSG_WAITALL : Z := 0x100.

Definition recvmsg_raw (fd msg : Z) : MU Op := submit_classed key a (SqRecvMsg fd msg MSG_WAITALL) ResNone ClRecv.
Definition recv_multi (fd bgid : Z) : MU Op := submit_classed key a (SqRecvMulti fd bgid) ResNone ClRecv.
Definition sendmsg_raw (fd msg : Z) : MU Op := submit_classed key a (SqSendMsg fd msg) ResNone ClSend.

Definition SEND_ZC_REPORT_USAGE : Z := 8.
Definition SEND_VECTORIZED : Z := 2 ^ 5.
Definition NOTIF_ZC_COPIED : Z := 2 ^ 31.

Definition sendmsg_zc_raw (fd msg : Z) : MU Op := submit_classed key a (SqSendMsgZc fd msg SEND_ZC_REPORT_USAGE) ResNone ClSend.
Definition send_zc_vec_fixed_raw (fd iov nr_segs buf_index : Z) : MU Op :=
  submit_classed key a (SqSendZc fd iov nr_segs buf_index (Z.lor SEND_ZC_REPORT_USAGE SEND_VECTORIZED)) ResNone ClSend.
Definition read_at_raw (file : BackendFd) (ptr len offset : Z) : MU Op := submit_classed key a (SqRead file ptr len offset) ResNone ClRead.
Definition write_at_raw (file : BackendFd) (ptr len offset : Z) : MU Op := submit_classed key a (SqWrite file ptr len offset) ResNone ClWrite.
Definition readv_at_raw (file : BackendFd) (iov n offset rw_flags : Z) : MU Op :=
  submit_classed key a (SqReadv file iov n offset rw_flags) ResNone ClRead.
Definition writev_at_raw (file : BackendFd) (iov n offset rw_flags : Z) : MU Op :=
  submit_classed key a (SqWritev file iov n offset rw_flags) ResNone ClWrite.
Definition readv_fixed_at_raw (file : BackendFd) (iov n offset buf_index rw_flags : Z) : MU Op :=
  submit_classed key a (SqReadvFixed file iov n offset buf_index rw_flags) ResNone ClRead.
Definition writev_fixed_at_raw (file : BackendFd) (iov n offset buf_index rw_flags : Z) : MU Op :=
  submit_classed key a (SqWritevFixed file iov n offset buf_index rw_flags) ResNone ClWrite.

End Ops.

(** A pass of [drain]: it returns, or waits for a timer. *)
Inductive Drain := DrReturn | DrSleep (o : Op).

Definition drain_pass (key : Z) (a : Enter) (box : Z) : MU Drain := fun r =>
  if (pending_ops r =? 0)%nat then (r, Ok DrReturn)
  else match sleep key a box 0 500000 r with
       | (r, Ok o) => (r, Ok (DrSleep o))
       | (r, Err _) => (r, Ok DrReturn)
       | (r, Panic) => (r, Panic)
       end.

(** A completion as the [io::Result] of its future. *)
Definition io_value {A} (f : Z -> A) (r : CqeResult) : MU (res IoError A) :=
  match io r with Ok n => mret (Ok (f n)) | Err e => mret (Err e) | Panic => panic end.

(** [BufOp], [RawOp], [Accept] (its value is the descriptor), [SendVectored],
    [Sleep]: a poll is pending or gives the result. *)
Definition BufOp_poll (w : nat) (o : Op) : MU (Op * option (res IoError Z * Buf)) :=
  '(o, x) ← poll_single w o;
  match x with
  | None => mret (o, None)
  | Some (result, resources) => v ← io_value id result; b ← lift (into_buffer resources); mret (o, Some (v, b))
  end.
Definition RawOp_poll (w : nat) (o : Op) : MU (Op * option (res IoError Z)) :=
  '(o, x) ← poll_single w o;
  match x with
  | None => mret (o, None)
  | Some (result, _) => v ← io_value id result; mret (o, Some v)
  end.
Definition Accept_poll (w : nat) (o : Op) : MU (Op * option (res IoError Z)) :=
  '(o, x) ← poll_single w o;
  match x with
  | None => mret (o, None)
  | Some (result, _) => fd ← io_value (fun fd => fd) result; mret (o, Some fd)
  end.
Definition SendVectored_poll (w : nat) (o : Op) : MU (Op * option (res IoError Z * (Buf * Buf))) :=
  '(o, x) ← poll_single w o;
  match x with
  | None => mret (o, None)
  | Some (result, resources) => v ← io_value id result; m ← lift (into_msg resources); mret (o, Some (v, ms_bufs m))
  end.
Definition Sleep_poll (w : nat) (o : Op) : MU (Op * option (res IoError unit)) :=
  '(o, x) ← poll_single w o;
  match x with
  | None => mret (o, None)
  | Some (result, _) =>
      let err := cq_result result in
      if (err =? 0) || (err =? - ETIME) then mret (o, Some (Ok tt))
      else if err =? - 2 ^ 31 then panic else mret (o, Some (Err (OsError (- err))))
  end.

(** [PollMulti::next], and [AcceptMulti::next], whose values are descriptors. *)
Definition multi_next (w : nat) (o : Op) : MU (Op * option (option (res IoError Z))) :=
  '(o, x) ← poll_next w o;
  match x with
  | NPending => mret (o, None)
  | NEnd => mret (o, Some None)
  | NSome result => v ← io_value id result; mret (o, Some (Some v))
  end.

(** [IORING_CQE_F_BUFFER] with the identifier above it, [IORING_CQE_F_BUF_MORE]. *)
Definition buffer_select (flags : Z) : option Z := if Z.testbit flags 0 then Some (Z.shiftr flags 16) else None.
Definition buffer_more (flags : Z) : bool := Z.testbit flags 4.

Record RecvChunk := { rc_bid : Z; rc_len : Z; rc_more : bool; rc_buf_more : bool }.

Definition recv_next (w : nat) (o : Op) : MU (Op * option (option (res IoError RecvChunk))) :=
  '(o, x) ← poll_next w o;
  match x with
  | NPending => mret (o, None)
  | NEnd => mret (o, Some None)
  | NSome result =>
      v ← io_value id result;
      match v with
      | Ok len =>
          if len =? 0 then mret (o, Some None)
          else match buffer_select (cq_flags result) with
               | Some bid => mret (o, Some (Some (Ok {| rc_bid := bid; rc_len := len; rc_more := more result; rc_buf_more := buffer_more (cq_flags result) |})))
               | None => mret (o, Some (Some (Err NoBuffer)))
               end
      | Err e => mret (o, Some (Some (Err e)))
      | Panic => panic
      end
  end.

(** [SendZcOp::sent]. *)
Definition sent_poll (w : nat) (o : Op) : MU (Op * option (res IoError Z)) :=
  '(o, x) ← poll_next w o;
  match x with
  | NPending => mret (o, None)
  | NEnd => panic
  | NSome result => v ← io_value id result; mret (o, Some v)
  end.

(** [ZcNotif]; a poll takes what has come.  [fuel]: as many completions as the
    entry holds, and one. *)
Fixpoint notif_loop (fuel : nat) (w : nat) (o : Op) (copied : bool) : MU (Op * option bool) :=
  match fuel with
  | O => panic
  | S fuel =>
      '(o, x) ← poll_next w o;
      match x with
      | NPending => mret (o, None)
      | NEnd => mret (o, Some copied)
      | NSome result => notif_loop fuel w o (negb (Z.land (wrap 32 (cq_result result)) NOTIF_ZC_COPIED =? 0))
      end
  end.
Definition ZcNotif_poll (w : nat) (o : Op) : MU (Op * option bool) :=
  r ← get;
  let n := match r_slab r !! op_key o with Some e => length (option_list (oe_first e) ++ oe_overflow e) | None => 0%nat end in
  notif_loop (S (S n)) w o false.
