(* ===== verification/ReactorProofs.v ===== *)
(** * The reactor: operations, their memory and their results

    [USys] is a reactor with the futures that hold its operations.  [us_step]
    interleaves submissions (that may fail), polls, dropped futures, parking, and
    the kernel, which completes what it holds in any order.  [core] is the
    invariant: an operation the kernel has not finished is in the slab with the
    memory it was given, a completion has its entry, an entry has its future or is
    orphaned, and what a future has seen, its entry holds and the completion ring
    holds are, in this order, what the kernel has posted for it. *)

From S2P Require Import Prelude SlotQ ExecLaws ConnProofs Reactor.

#[local] Opaque more.

(** ** Entries *)

Definition results (e : OpEntry) : list CqeResult := option_list (oe_first e) ++ oe_overflow e.

Lemma results_push r e : results (push_result r e) = results e ++ [r].
Proof. unfold push_result, results. by destruct (oe_first e), (oe_overflow e). Qed.

Lemma push_fields r e :
  oe_waker (push_result r e) = oe_waker e /\ oe_terminated (push_result r e) = oe_terminated e /\ oe_orphaned (push_result r e) = oe_orphaned e /\
  oe_resources (push_result r e) = oe_resources e.
Proof. unfold push_result. by destruct (oe_first e), (oe_overflow e). Qed.

(** Results are a queue. *)
Lemma pop_spec e :
  match results e with
  | [] => pop_result e = (e, None)
  | r :: l => exists e', pop_result e = (e', Some r) /\ results e' = l /\ oe_waker e' = oe_waker e /\ oe_terminated e' = oe_terminated e /\
      oe_orphaned e' = oe_orphaned e /\ oe_resources e' = oe_resources e
  end.
Proof. unfold pop_result, results. destruct (oe_first e) as [r|]; [by eexists|]. destruct (oe_overflow e) as [|r l]; [done|]. by eexists. Qed.

Lemma has_result_iff e : has_result e = negb (bool_decide (results e = [])).
Proof. unfold has_result, results. by destruct (oe_first e), (oe_overflow e). Qed.

Lemma results_state w t o e : results (oe_state w t o e) = results e.
Proof. done. Qed.

Lemma oe_state_id e : oe_state (oe_waker e) (oe_terminated e) (oe_orphaned e) e = e.
Proof. by destruct e. Qed.

(** ** Futures *)

(** Of one completion, with the memory the caller gave up to the reactor: a
    buffer, a message, the value of a timer, or none (no memory, or memory the
    caller keeps alive); of many completions. *)
Inductive HKind := KBuf (b : Buf) | KMsg (m : MsgResources) | KTime (addr secs nanos : Z) | KOne | KMany.
Definition is_many (k : HKind) : bool := match k with KMany => true | _ => false end.

(** The memory the reactor has to keep until the operation has ended. *)
Definition given (k : HKind) : Resources :=
  match k with KBuf b => ResBuffer b | KMsg m => ResMsg m | KTime p secs nanos => ResTimespec p secs nanos | KOne | KMany => ResNone end.

(** Operations with more than one completion. *)
Definition multishot (op : Opcode) : bool :=
  match op with SqAcceptMulti _ | SqPollAdd _ _ true | SqRecvMulti _ _ | SqSendMsgZc _ _ _ | SqSendZc _ _ _ _ _ => true | _ => false end.

(** The memory an operation names is the memory kept for it.  None is kept for
    operations without memory, or on memory of the caller; a timer always has
    its value kept. *)
Definition backed (op : Opcode) (r : Resources) : Prop :=
  match r with
  | ResNone => match op with SqAsyncCancel _ | SqTimeout _ => False | _ => True end
  | ResBuffer b =>
      match op with SqRead _ p n _ | SqWrite _ p n _ | SqRecv _ p n | SqSend _ p n => p = b_addr b /\ n = b_len b | _ => False end
  | ResTimespec p _ _ => op = SqTimeout p
  | ResMsg m => ms_iovecs m = [(b_addr (ms_bufs m).1, b_len (ms_bufs m).1); (b_addr (ms_bufs m).2, b_len (ms_bufs m).2)] /\
      exists fd, op = SqSendMsg fd (ms_addr m)
  end.

Definition kind_res (k : HKind) (r : Resources) : Prop := r = given k.

(** A submission as the constructors of operations make it. *)
Definition op_ok (k : HKind) (op : Opcode) (r : Resources) : Prop := backed op r /\ kind_res k r /\ multishot op = is_many k.

(** ** The invariant *)

Definition keys (l : list Entry) : list Z := filter (fun k => k <> IGNORE_USER_DATA) (map en_key l).
Abbreviation Cqes := (list (Z * CqeResult)).
(** The operations that end in these completions. *)
Definition ends_of (cq : Cqes) : list Z :=
  omap (fun c : Z * CqeResult => if decide (c.1 = IGNORE_USER_DATA) then None else if more c.2 then None else Some c.1) cq.
Definition posts (k : Z) (cq : Cqes) : list CqeResult := omap (fun c : Z * CqeResult => if decide (c.1 = k) then Some c.2 else None) cq.

(** A completion that is not the last of its operation precedes the last, or the
    kernel still has the operation. *)
Fixpoint cq_ok (cq : Cqes) (ks : list Z) : Prop :=
  match cq with
  | [] => True
  | c :: cq => (c.1 = IGNORE_USER_DATA \/ more c.2 = false \/ c.1 ∈ ends_of cq ++ ks) /\ cq_ok cq ks
  end.

Definition entry_ok (k : option HKind) (e : OpEntry) : Prop :=
  match k with
  | None => oe_orphaned e = true /\ oe_terminated e = false /\ oe_waker e = None
  | Some k =>
      oe_orphaned e = false /\ kind_res k (oe_resources e) /\ (oe_terminated e = true -> results e <> []) /\
      (oe_waker e <> None -> results e = []) /\
      (is_many k = false -> (length (results e) <= 1)%nat /\ (results e <> [] -> oe_terminated e = true))
  end.

Record core (outs : list Entry) (cq : Cqes) (slab : gmap Z OpEntry) (hs : gmap Z HKind) (mem : Z -> HKind) (log seen : Z -> list CqeResult) : Prop := {
  c_range : forall k e, slab !! k = Some e -> 0 <= k < 2 ^ 63;
  c_nodup : NoDup (ends_of cq ++ keys outs);
  c_live : forall k, k ∈ ends_of cq ++ keys outs <-> exists e, slab !! k = Some e /\ oe_terminated e = false;
  c_cq : cq_ok cq (keys outs);
  c_outs : Forall (fun x => if decide (en_key x = IGNORE_USER_DATA) then multishot (en_op x) = false
             else exists e, slab !! en_key x = Some e /\ backed (en_op x) (oe_resources e) /\
               forall k, hs !! en_key x = Some k -> multishot (en_op x) = is_many k) outs;
  c_handles : forall k h, hs !! k = Some h -> is_Some (slab !! k);
  c_mem : forall k e, slab !! k = Some e -> kind_res (mem k) (oe_resources e);
  c_entry : forall k e, slab !! k = Some e -> entry_ok (hs !! k) e;
  c_once : Forall (fun c => more c.2 = true -> forall h, hs !! c.1 = Some h -> is_many h = true) cq;
  c_log : forall k e, slab !! k = Some e -> is_Some (hs !! k) -> log k = seen k ++ results e ++ posts k cq;
}.

Lemma ends_app a b : ends_of (a ++ b) = ends_of a ++ ends_of b.
Proof. apply omap_app. Qed.
Lemma posts_app k a b : posts k (a ++ b) = posts k a ++ posts k b.
Proof. apply omap_app. Qed.

Lemma ends_cons c cq : ends_of (c :: cq) = (if decide (c.1 = IGNORE_USER_DATA) then [] else if more c.2 then [] else [c.1]) ++ ends_of cq.
Proof. change (c :: cq) with ([c] ++ cq). rewrite ends_app. f_equal. unfold ends_of. cbn. destruct (decide _); [done|]. by destruct (more c.2). Qed.
Lemma posts_cons k c cq : posts k (c :: cq) = (if decide (c.1 = k) then [c.2] else []) ++ posts k cq.
Proof. change (c :: cq) with ([c] ++ cq). rewrite posts_app. f_equal. unfold posts. cbn. by case_decide. Qed.

#[export] Instance keys_perm : Proper (Permutation ==> Permutation) keys.
Proof. intros a b H. unfold keys. by rewrite H. Qed.

Lemma cq_ok_keys cq ks ks' : (forall x, x ∈ ks -> x ∈ ks') -> cq_ok cq ks -> cq_ok cq ks'.
Proof. intros H. induction cq as [|c cq IH]; [done|]. cbn. rewrite !elem_of_app. intros [[Hc|[Hc|[Hc|Hc]]] Hr]; (split; [|by apply IH]); eauto. Qed.

Lemma cq_ok_post cq c ks ks' :
  cq_ok cq ks -> (forall x, x ∈ ks -> x ∈ ends_of [c] ++ ks') -> (c.1 = IGNORE_USER_DATA \/ more c.2 = false \/ c.1 ∈ ks') -> cq_ok (cq ++ [c]) ks'.
Proof.
  intros Hq Hk Hc. induction cq as [|d cq IH]; cbn; [by split|]. destruct Hq as [Hd Hq]. split; [|by apply IH].
  destruct Hd as [Hd|[Hd|Hd]]; [by left|by right; left|]. right; right. rewrite ends_app, <- app_assoc, elem_of_app. apply elem_of_app in Hd as [Hd|Hd]; [by left|].
  right. by apply Hk.
Qed.

Lemma core_perm outs outs' cq slab hs mem log seen : outs ≡ₚ outs' -> core outs cq slab hs mem log seen -> core outs' cq slab hs mem log seen.
Proof.
  intros Hp []. split; try done.
  - by rewrite <- Hp.
  - intros k. by rewrite <- Hp.
  - eapply cq_ok_keys; [|done]. intros x. by rewrite Hp.
  - by rewrite <- Hp.
Qed.

(** A completion's operation is in the slab. *)
Lemma posted_live outs c cq slab hs mem log seen :
  core outs (c :: cq) slab hs mem log seen -> c.1 <> IGNORE_USER_DATA -> exists e, slab !! c.1 = Some e /\ oe_terminated e = false.
Proof.
  intros [] Hc. apply c_live0. cbn in c_cq0. rewrite ends_cons, decide_False by done. destruct c_cq0 as [[H|[->|H]] _]; [done|by left|].
  destruct (more c.2); [done|by left].
Qed.

Lemma cqe_live outs cq slab hs mem log seen k :
  core outs cq slab hs mem log seen -> k <> IGNORE_USER_DATA -> posts k cq <> [] -> exists e, slab !! k = Some e /\ oe_terminated e = false.
Proof.
  intros Hc Hk Hp. apply (c_live _ _ _ _ _ _ _ Hc). pose proof (c_cq _ _ _ _ _ _ _ Hc) as Hq. clear Hc.
  induction cq as [|c cq IH]; [done|]. rewrite posts_cons in Hp. destruct Hq as [Hc Hq]. rewrite ends_cons, <- app_assoc, elem_of_app.
  destruct (decide (c.1 = k)) as [<-|Hne]; [|right; by apply IH].
  rewrite decide_False by done. destruct Hc as [Hc|[->|Hc]]; [done|left; by left|by right].
Qed.

Lemma keys_cons x outs : keys (x :: outs) = if decide (en_key x = IGNORE_USER_DATA) then keys outs else en_key x :: keys outs.
Proof. unfold keys. cbn. case_decide; [rewrite decide_False by tauto; done|by rewrite decide_True]. Qed.

(** ** What keeps it *)

Definition upd {A} (k : Z) (v : A) (f : Z -> A) : Z -> A := fun x => if decide (x = k) then v else f x.

Lemma upd_same {A} k (v : A) f : upd k v f k = v.
Proof. unfold upd. by rewrite decide_True. Qed.
Lemma upd_other {A} k (v : A) f j : j <> k -> upd k v f j = f j.
Proof. intros. unfold upd. by rewrite decide_False. Qed.

Section Core.
Context {outs : list Entry} {cq : Cqes} {slab : gmap Z OpEntry} {hs : gmap Z HKind} {mem : Z -> HKind} {log seen : Z -> list CqeResult}.
Implicit Types (e : OpEntry) (k : Z).

(** An entry changes, not what it is waiting for. *)
Lemma core_entry k e e' seen' :
  core outs cq slab hs mem log seen -> slab !! k = Some e -> oe_terminated e' = oe_terminated e -> oe_resources e' = oe_resources e ->
  entry_ok (hs !! k) e' -> seen k ++ results e = seen' k ++ results e' -> (forall j, j <> k -> seen' j = seen j) ->
  core outs cq (<[k := e']> slab) hs mem log seen'.
Proof.
  intros [] He Ht Hr Hok Hl Hs.
  assert (forall j, (exists x, slab !! j = Some x /\ oe_terminated x = false) <-> (exists x, <[k := e']> slab !! j = Some x /\ oe_terminated x = false)) as Hlive.
  { intros j. destruct (decide (j = k)) as [->|]; [|by rewrite lookup_insert_ne]. rewrite lookup_insert_eq, He.
    split; intros (x & [= <-] & Hx); eexists; (split; [done|]); congruence. }
  split; try done.
  - intros j x. destruct (decide (j = k)) as [->|]; [intros _; by eapply c_range0|rewrite lookup_insert_ne by done; apply c_range0].
  - intros j. by rewrite <- Hlive.
  - eapply list.Forall_impl; [exact c_outs0|]. intros x. cbv beta. case_decide; [done|]. intros (y & Hy & Hb & Hk). destruct (decide (en_key x = k)) as [<-|].
    + exists e'. rewrite lookup_insert_eq, Hr. rewrite He in Hy. by injection Hy as <-.
    + exists y. by rewrite lookup_insert_ne.
  - intros j h Hj. destruct (decide (j = k)) as [->|]; [rewrite lookup_insert_eq; by eexists|rewrite lookup_insert_ne by done; by eapply c_handles0].
  - intros j x. destruct (decide (j = k)) as [->|]; [rewrite lookup_insert_eq; intros [= <-]; rewrite Hr; by apply c_mem0|rewrite lookup_insert_ne by done; apply c_mem0].
  - intros j x. destruct (decide (j = k)) as [->|]; [rewrite lookup_insert_eq; by intros [= <-]|rewrite lookup_insert_ne by done; apply c_entry0].
  - intros j x. destruct (decide (j = k)) as [->|].
    + rewrite lookup_insert_eq. intros [= <-] Hj. rewrite (c_log0 k e He Hj), !app_assoc. by rewrite Hl.
    + rewrite lookup_insert_ne, Hs by done. apply c_log0.
Qed.

(** An entry that has ended leaves the slab with its future. *)
Lemma core_remove k e seen' :
  core outs cq slab hs mem log seen -> slab !! k = Some e -> oe_terminated e = true -> (forall j, j <> k -> seen' j = seen j) ->
  core outs cq (delete k slab) (delete k hs) mem log seen'.
Proof.
  intros [] He Ht Hs. assert (k ∉ ends_of cq ++ keys outs) as Hni by (rewrite c_live0; intros (x & Hx & Hxt); congruence).
  split; try done.
  - intros j x. rewrite lookup_delete_Some. intros [_ Hj]. by eapply c_range0.
  - intros j. rewrite c_live0. split; intros (x & Hx & Hxt); exists x; (split; [|done]).
    + rewrite lookup_delete_ne; [done|]. intros ->. congruence.
    + by apply lookup_delete_Some in Hx as [_ Hx].
  - apply list.Forall_forall. intros x Hx. rewrite list.Forall_forall in c_outs0. specialize (c_outs0 x Hx). revert c_outs0. case_decide as Hi; [done|].
    intros (y & Hy & Hb & Hk). exists y. assert (en_key x <> k) as Hne.
    { intros Hkx. apply Hni. rewrite elem_of_app. right. apply list_elem_of_filter. split; [congruence|].
      apply (proj2 (list_elem_of_fmap en_key _ _)). exists x. by split. }
    rewrite !lookup_delete_ne by done. done.
  - intros j h. rewrite lookup_delete_Some. intros [Hne Hj]. rewrite lookup_delete_ne by done. by eapply c_handles0.
  - intros j x. rewrite lookup_delete_Some. intros [_ Hj]. by apply c_mem0.
  - intros j x. rewrite lookup_delete_Some. intros [Hne Hj]. rewrite lookup_delete_ne by done. by apply c_entry0.
  - eapply list.Forall_impl; [exact c_once0|]. cbn. intros c Hc Hm h. rewrite lookup_delete_Some. intros [_ Hh]. by eapply Hc.
  - intros j x. rewrite lookup_delete_Some. intros [Hne Hj]. rewrite lookup_delete_ne, Hs by done. by apply c_log0.
Qed.

(** The future of a running operation is dropped. *)
Lemma core_orphan k e :
  core outs cq slab hs mem log seen -> slab !! k = Some e -> oe_terminated e = false ->
  core outs cq (<[k := oe_state None false true e]> slab) (delete k hs) mem log seen.
Proof.
  intros [] He Ht. split; try done.
  - intros j x. destruct (decide (j = k)) as [->|]; [intros _; by eapply c_range0|rewrite lookup_insert_ne by done; apply c_range0].
  - intros j. rewrite c_live0. destruct (decide (j = k)) as [->|]; [|by rewrite lookup_insert_ne]. rewrite lookup_insert_eq. split; intros _; [by eexists|by exists e].
  - eapply list.Forall_impl; [exact c_outs0|]. intros x. cbv beta. case_decide; [done|]. intros (y & Hy & Hb & Hk). destruct (decide (en_key x = k)) as [Hkx|].
    + rewrite Hkx in *. eexists. rewrite lookup_insert_eq, lookup_delete_eq. split; [done|]. split; [|done]. rewrite He in Hy. by injection Hy as <-.
    + exists y. by rewrite lookup_insert_ne, lookup_delete_ne.
  - intros j h. rewrite lookup_delete_Some. intros [Hne Hj]. rewrite lookup_insert_ne by done. by eapply c_handles0.
  - intros j x. destruct (decide (j = k)) as [->|]; [rewrite lookup_insert_eq; intros [= <-]; cbn; by apply c_mem0|rewrite lookup_insert_ne by done; apply c_mem0].
  - intros j x. destruct (decide (j = k)) as [->|]; [rewrite lookup_insert_eq, lookup_delete_eq; by intros [= <-]|].
    rewrite lookup_insert_ne, lookup_delete_ne by done. apply c_entry0.
  - eapply list.Forall_impl; [exact c_once0|]. cbn. intros c Hc Hm h. rewrite lookup_delete_Some. intros [_ Hh]. by eapply Hc.
  - intros j x. destruct (decide (j = k)) as [->|]; [rewrite lookup_delete_eq; by intros _ []|].
    rewrite lookup_insert_ne, lookup_delete_ne by done. apply c_log0.
Qed.

(** What was submitted has its memory. *)
Lemma core_backed x : core outs cq slab hs mem log seen -> x ∈ outs -> en_key x <> IGNORE_USER_DATA ->
  exists e, slab !! en_key x = Some e /\ oe_resources e = given (mem (en_key x)) /\ backed (en_op x) (given (mem (en_key x))).
Proof.
  intros [] Hx Hi. rewrite list.Forall_forall in c_outs0. specialize (c_outs0 x Hx). cbv beta in c_outs0. rewrite decide_False in c_outs0 by done.
  destruct c_outs0 as (e & He & Hb & _). exists e. pose proof (c_mem0 _ _ He) as Hm. unfold kind_res in Hm. split; [done|]. split; [done|]. by rewrite <- Hm.
Qed.

(** A request to cancel. *)
Lemma core_cancel x : core outs cq slab hs mem log seen -> en_key x = IGNORE_USER_DATA -> multishot (en_op x) = false -> core (x :: outs) cq slab hs mem log seen.
Proof.
  intros [] Hx Hm. assert (keys (x :: outs) = keys outs) as Hk by (rewrite keys_cons, decide_True by done; done).
  split; rewrite ?Hk; try done. constructor; [by rewrite decide_True|done].
Qed.

(** A new operation. *)
Lemma core_submit k op res kind :
  core outs cq slab hs mem log seen -> slab !! k = None -> 0 <= k < 2 ^ 63 -> op_ok kind op res ->
  core ({| en_op := op; en_key := k |} :: outs) cq (<[k := OpEntry_new res]> slab) (<[k := kind]> hs) (upd k kind mem) (upd k [] log) (upd k [] seen).
Proof.
  intros Hc Hk Hr (Hb & Hkr & Hm). pose proof Hc as []. assert (k <> IGNORE_USER_DATA) as Hi by (unfold IGNORE_USER_DATA; lia).
  assert (k ∉ ends_of cq ++ keys outs) as Hni by (rewrite c_live0; intros (x & Hx & _); congruence).
  assert (posts k cq = []) as Hpo.
  { destruct (posts k cq) eqn:Hp; [done|]. destruct (cqe_live _ _ _ _ _ _ _ k Hc Hi) as (x & Hx & _); [by rewrite Hp|congruence]. }
  split.
  - intros j x. destruct (decide (j = k)) as [->|]; [done|rewrite lookup_insert_ne by done; apply c_range0].
  - rewrite keys_cons, decide_False by done. cbn [en_key]. rewrite <- Permutation_middle. apply list.NoDup_cons. by split.
  - intros j. rewrite keys_cons, decide_False by done. cbn [en_key]. rewrite <- Permutation_middle, elem_of_cons, c_live0.
    destruct (decide (j = k)) as [->|]; [rewrite lookup_insert_eq; split; [by eexists|by left]|]. rewrite lookup_insert_ne by done. tauto.
  - eapply cq_ok_keys; [|done]. intros x. rewrite keys_cons, decide_False by done. by right.
  - constructor.
    + cbn. rewrite decide_False by done. eexists. rewrite !lookup_insert_eq. split; [done|]. split; [done|]. by intros ? [= <-].
    + apply list.Forall_forall. intros x Hx. rewrite list.Forall_forall in c_outs0. specialize (c_outs0 x Hx). revert c_outs0. case_decide; [done|].
      intros (y & Hy & Hrest). assert (en_key x <> k) by congruence. exists y. by rewrite !lookup_insert_ne.
  - intros j h. destruct (decide (j = k)) as [->|]; [rewrite !lookup_insert_eq; by eexists|rewrite !lookup_insert_ne by done; apply c_handles0].
  - intros j x. destruct (decide (j = k)) as [->|]; [rewrite lookup_insert_eq, upd_same; by intros [= <-]|rewrite lookup_insert_ne, upd_other by done; apply c_mem0].
  - intros j x. destruct (decide (j = k)) as [->|]; [rewrite !lookup_insert_eq; intros [= <-]|rewrite !lookup_insert_ne by done; apply c_entry0].
    split; [done|]. split; [done|]. split; [done|]. split; [done|]. intros _. cbn. split; [lia|done].
  - apply list.Forall_forall. intros c Hc' Hmo h. destruct (decide (c.1 = k)) as [Hck|]; [|rewrite lookup_insert_ne by done; rewrite list.Forall_forall in c_once0; by apply c_once0].
    assert (c.2 ∈ posts k cq) as Hin by (unfold posts; apply list_elem_of_omap; exists c; by rewrite decide_True). rewrite Hpo in Hin. by apply not_elem_of_nil in Hin.
  - intros j x. destruct (decide (j = k)) as [->|]; [|rewrite !lookup_insert_ne, !upd_other by done; apply c_log0].
    rewrite lookup_insert_eq, !upd_same, Hpo. by intros [= <-].
Qed.

(** The kernel has finished an operation. *)
Lemma core_done x r :
  core (x :: outs) cq slab hs mem log seen -> more r = false ->
  core outs (cq ++ [(en_key x, r)]) slab hs mem (upd (en_key x) (log (en_key x) ++ [r]) log) seen.
Proof.
  intros Hc Hm. pose proof Hc as []. apply list.Forall_cons in c_outs0 as [Hx c_outs0]. set (k := en_key x) in *.
  assert (ends_of (cq ++ [(k, r)]) ++ keys outs ≡ₚ ends_of cq ++ keys (x :: outs)) as Hp.
  { rewrite ends_app, ends_cons, keys_cons. cbn. rewrite Hm. fold k. case_decide; cbn; rewrite ?app_nil_r; [done|]. rewrite <- app_assoc. done. }
  split; try done.
  - by rewrite Hp.
  - intros j. by rewrite Hp.
  - eapply cq_ok_post; [exact c_cq0| |by right; left]. intros j. rewrite keys_cons, ends_cons. cbn. rewrite Hm. fold k. by case_decide.
  - apply list.Forall_app. split; [done|]. constructor; [|constructor]. cbn. congruence.
  - intros j e He Hh. rewrite posts_app, posts_cons. cbn. destruct (decide (j = k)) as [->|Hne].
    + rewrite upd_same, decide_True, (c_log0 k e He Hh) by done. by rewrite app_nil_r, <- !app_assoc.
    + rewrite upd_other, decide_False by congruence. cbn. rewrite app_nil_r. by apply c_log0.
Qed.

(** The kernel posts a completion, and goes on. *)
Lemma core_post x r :
  core (x :: outs) cq slab hs mem log seen -> more r = true -> multishot (en_op x) = true ->
  core (x :: outs) (cq ++ [(en_key x, r)]) slab hs mem (upd (en_key x) (log (en_key x) ++ [r]) log) seen.
Proof.
  intros Hc Hm Hmu. pose proof Hc as []. pose proof c_outs0 as Hx. apply list.Forall_cons in Hx as [Hx _]. set (k := en_key x) in *.
  destruct (decide (k = IGNORE_USER_DATA)) as [|Hki]; [congruence|]. destruct Hx as (e0 & He0 & _ & Hk0).
  assert (ends_of (cq ++ [(k, r)]) = ends_of cq) as Hp by (rewrite ends_app, ends_cons; cbn; rewrite Hm; case_decide; by rewrite app_nil_r).
  split; rewrite ?Hp; try done.
  - eapply cq_ok_post; [exact c_cq0|intros j Hj; apply elem_of_app; by right|]. right; right. rewrite keys_cons, decide_False by done. by left.
  - apply list.Forall_app. split; [done|]. constructor; [|constructor]. intros _ h Hh. cbn in Hh. by rewrite <- (Hk0 h Hh).
  - intros j e He Hh. rewrite posts_app, posts_cons. cbn. destruct (decide (j = k)) as [->|Hne].
    + rewrite upd_same, decide_True, (c_log0 k e He Hh) by done. by rewrite app_nil_r, <- !app_assoc.
    + rewrite upd_other, decide_False by congruence. cbn. rewrite app_nil_r. by apply c_log0.
Qed.

End Core.

(** A completion that nobody waits for. *)
Lemma core_ignored outs r cq slab hs mem log seen : core outs ((IGNORE_USER_DATA, r) :: cq) slab hs mem log seen -> core outs cq slab hs mem log seen.
Proof.
  intros Hc. pose proof Hc as []. rewrite ends_cons, decide_True in c_nodup0, c_live0 by done. split; try done.
  - by destruct c_cq0.
  - by apply list.Forall_cons in c_once0 as [_ ?].
  - intros j e He Hh. rewrite (c_log0 j e He Hh), posts_cons. cbn. rewrite decide_False; [done|]. intros <-. specialize (c_range0 _ _ He).
    unfold IGNORE_USER_DATA in c_range0. lia.
Qed.

Section Route.
Context {outs : list Entry} {cq : Cqes} {slab : gmap Z OpEntry} {hs : gmap Z HKind} {mem : Z -> HKind} {log seen : Z -> list CqeResult} {k : Z} {r : CqeResult}.
Hypothesis Hc : core outs ((k, r) :: cq) slab hs mem log seen.
Hypothesis Hki : k <> IGNORE_USER_DATA.

Lemma route_once : Forall (fun c => more c.2 = true -> forall h, hs !! c.1 = Some h -> is_many h = true) cq.
Proof. pose proof (c_once _ _ _ _ _ _ _ Hc) as H. by apply list.Forall_cons in H as [_ H]. Qed.

(** The completion of an orphan: its memory is given up when it has ended. *)
Lemma core_orphaned e :
  slab !! k = Some e -> oe_orphaned e = true -> core outs cq (if more r then slab else delete k slab) hs mem log seen.
Proof.
  intros He Ho. pose proof Hc as []. pose proof (c_entry0 _ _ He) as Hek. assert (hs !! k = None) as Hh by (by destruct (hs !! k) as [h|] eqn:?; [destruct Hek; congruence|]).
  rewrite ends_cons, decide_False in c_nodup0, c_live0 by done. destruct c_cq0 as [Hq c_cq0]. cbn in Hq, c_nodup0, c_live0.
  assert (forall j x, slab !! j = Some x -> is_Some (hs !! j) -> log j = seen j ++ results x ++ posts j cq) as Hlog.
  { intros j x Hj Hjh. rewrite (c_log0 j x Hj Hjh), posts_cons. cbn. rewrite decide_False; [done|]. intros <-. rewrite Hh in Hjh. by destruct Hjh. }
  destruct (more r); cbn in *; [split; try done; apply route_once|].
  apply list.NoDup_cons in c_nodup0 as [Hni c_nodup0].
  assert (forall j x, delete k slab !! j = Some x -> slab !! j = Some x) as Hdel by (intros j x; rewrite lookup_delete_Some; by intros [_ ?]).
  assert (forall j, j ∈ ends_of cq ++ keys outs -> j <> k) as Hne by (intros j Hj ->; done).
  split; try done; try (by eauto).
  - intros j. split.
    + intros Hj. destruct (proj1 (c_live0 j)) as (x & Hx & Hxt); [by right|]. exists x. rewrite lookup_delete_ne; [done|]. intros ->. by apply (Hne j).
    + intros (x & Hx & Hxt). apply lookup_delete_Some in Hx as [Hjk Hx]. assert (j ∈ k :: ends_of cq ++ keys outs) as H by (apply c_live0; by exists x).
      apply elem_of_cons in H as [->|H]; done.
  - apply list.Forall_forall. intros x Hx. rewrite list.Forall_forall in c_outs0. specialize (c_outs0 x Hx). revert c_outs0. case_decide as Hi; [done|].
    intros (y & Hy & Hrest). exists y. rewrite lookup_delete_ne; [done|]. intros Heq. apply (Hne (en_key x)); [|done].
    apply elem_of_app. right. apply list_elem_of_filter. split; [done|]. apply (proj2 (list_elem_of_fmap en_key _ _)). by exists x.
  - intros j h Hj. rewrite lookup_delete_ne; [by eapply c_handles0|]. intros <-. congruence.
  - apply route_once.
Qed.

(** The completion of an operation whose future waits. *)
Lemma core_routed e e' :
  slab !! k = Some e -> oe_orphaned e = false -> results e' = results e ++ [r] -> oe_terminated e' = negb (more r) -> oe_orphaned e' = false ->
  oe_resources e' = oe_resources e -> oe_waker e' = None -> core outs cq (<[k := e']> slab) hs mem log seen.
Proof.
  intros He Ho Hr Ht Ho' Hres Hw. pose proof Hc as []. pose proof (c_entry0 _ _ He) as Hek.
  assert (exists h, hs !! k = Some h) as [h Hh] by (destruct (hs !! k) as [h|]; [by exists h|destruct Hek; congruence]). rewrite Hh in Hek.
  destruct Hek as (_ & E2 & E3 & E4 & E5). rewrite ends_cons, decide_False in c_nodup0, c_live0 by done. destruct c_cq0 as [Hq c_cq0]. cbn in Hq, c_nodup0, c_live0.
  assert (oe_terminated e = false) as Het by (destruct (posted_live _ _ _ _ _ _ _ _ Hc Hki) as (x & Hx & ?); cbn in Hx; congruence).
  apply list.Forall_cons in c_once0 as [Hon _]. cbn in Hon.
  split; try done.
  - intros j x. destruct (decide (j = k)) as [->|]; [intros _; by eapply c_range0|rewrite lookup_insert_ne by done; apply c_range0].
  - destruct (more r); [done|]. cbn in c_nodup0. by apply list.NoDup_cons in c_nodup0 as [_ ?].
  - intros j. destruct (decide (j = k)) as [->|Hne].
    + rewrite lookup_insert_eq. destruct (more r); cbn in *.
      * destruct Hq as [Hq|[Hq|Hq]]; [done|done|]. split; [|done]. intros _. by eexists.
      * apply list.NoDup_cons in c_nodup0 as [Hni _]. split; [done|]. intros (x & [= <-] & Hx). rewrite Ht in Hx. done.
    + rewrite lookup_insert_ne by done. rewrite <- c_live0. destruct (more r); [done|]. cbn. rewrite elem_of_cons. tauto.
  - eapply list.Forall_impl; [exact c_outs0|]. intros x. cbv beta. case_decide; [done|]. intros (y & Hy & Hb & Hk). destruct (decide (en_key x = k)) as [Hkx|].
    + rewrite Hkx in *. exists e'. rewrite lookup_insert_eq, Hres. rewrite He in Hy. by injection Hy as <-.
    + exists y. by rewrite lookup_insert_ne.
  - intros j g Hj. destruct (decide (j = k)) as [->|]; [rewrite lookup_insert_eq; by eexists|rewrite lookup_insert_ne by done; by eapply c_handles0].
  - intros j x. destruct (decide (j = k)) as [->|]; [rewrite lookup_insert_eq; intros [= <-]; rewrite Hres; by apply c_mem0|rewrite lookup_insert_ne by done; apply c_mem0].
  - intros j x. destruct (decide (j = k)) as [->|]; [|rewrite lookup_insert_ne by done; apply c_entry0]. rewrite lookup_insert_eq, Hh. intros [= <-].
    split; [done|]. rewrite Hres, Hr. split; [done|]. split; [intros _; by destruct (results e)|]. split; [by rewrite Hw|]. intros Hmany.
    assert (more r = false) as Hmr by (destruct (more r) eqn:Hm; [specialize (Hon eq_refl h Hh); congruence|done]). rewrite Ht, Hmr.
    destruct (E5 Hmany) as [_ Hnr]. destruct (results e) as [|? ?]; [cbn; split; [lia|done]|]. rewrite Het in Hnr. by specialize (Hnr ltac:(done)).
  - apply route_once.
  - intros j x. destruct (decide (j = k)) as [->|Hne].
    + rewrite lookup_insert_eq. intros [= <-] Hj. rewrite (c_log0 k e He Hj), posts_cons, Hr. cbn. rewrite decide_True by done. by rewrite <- !app_assoc.
    + rewrite lookup_insert_ne by done. intros Hj Hjh. rewrite (c_log0 j x Hj Hjh), posts_cons. cbn. by rewrite decide_False.
Qed.

End Route.

(** ** Counters *)

Definition counters (s : StatCells) : list Z := [st_parks s; st_sqes s; st_send s; st_recv s; st_read s; st_write s; st_cqes s] ++ st_hist s.

(** No counter is above [b]. *)
Definition within (b : Z) (s : StatCells) : Prop :=
  Forall (fun c => 0 <= c <= b) (counters s) /\ 0 <= st_last_rw s <= st_read s + st_write s /\ length (st_hist s) = 6%nat.

Lemma within_mono b b' s : b <= b' -> within b s -> within b' s.
Proof. intros Hb (H & Hr). split; [|done]. eapply list.Forall_impl; [exact H|]. cbn. lia. Qed.

(** What a way of counting does. *)
Definition counts (f : StatCells -> res IoError StatCells) : Prop :=
  forall b s, within b s -> b < 2 ^ 63 - 1 -> exists s', f s = Ok s' /\ within (b + 1) s'.

Ltac bumped H := destruct H as (H & ?Hl & ?Hh); unfold counters in H; cbn [app] in H;
  repeat match type of H with Forall _ (_ :: _) => let H1 := fresh "B" in apply list.Forall_cons in H as [H1 H] end.

Lemma bumped_ok b s s' : within b s ->
  Forall (fun c => 0 <= c <= b + 1) (counters s') -> st_hist s' = st_hist s -> st_last_rw s' = st_last_rw s -> st_read s + st_write s <= st_read s' + st_write s' ->
  within (b + 1) s'.
Proof. intros (H & Hl & Hh) H1 H2 H3 H4. split; [done|]. rewrite H2, H3. split; [lia|done]. Qed.

Lemma hist_up b h : Forall (fun c => 0 <= c <= b) h -> Forall (fun c => 0 <= c <= b + 1) h.
Proof. intros H. eapply list.Forall_impl; [exact H|]. cbn. lia. Qed.

Lemma counts_sqe : counts (fun s => v ← checked 64 (st_sqes s + 1); Ok (st_set (st_parks s) v (st_cqes s) (st_hist s) (st_last_rw s) s)).
Proof.
  intros b s Hs Hb. pose proof Hs as H. bumped H. rewrite checked_ok by (unfold in_u; lia). eexists. split; [reflexivity|].
  eapply bumped_ok; [exact Hs| |done|done|cbn; lia]. cbn. repeat (constructor; [lia|]). by apply hist_up.
Qed.
Lemma counts_cqe : counts (fun s => v ← checked 64 (st_cqes s + 1); Ok (st_set (st_parks s) (st_sqes s) v (st_hist s) (st_last_rw s) s)).
Proof.
  intros b s Hs Hb. pose proof Hs as H. bumped H. rewrite checked_ok by (unfold in_u; lia). eexists. split; [reflexivity|].
  eapply bumped_ok; [exact Hs| |done|done|cbn; lia]. cbn. repeat (constructor; [lia|]). by apply hist_up.
Qed.
Lemma counts_park : counts (fun s => v ← checked 64 (st_parks s + 1); Ok (st_set v (st_sqes s) (st_cqes s) (st_hist s) (st_last_rw s) s)).
Proof.
  intros b s Hs Hb. pose proof Hs as H. bumped H. rewrite checked_ok by (unfold in_u; lia). eexists. split; [reflexivity|].
  eapply bumped_ok; [exact Hs| |done|done|cbn; lia]. cbn. repeat (constructor; [lia|]). by apply hist_up.
Qed.
Lemma counts_class c : counts (bump_class c).
Proof.
  intros b s Hs Hb. pose proof Hs as H. bumped H. destruct c; cbn; rewrite ?checked_ok by (unfold in_u; lia);
    (eexists; split; [reflexivity|]); (eapply bumped_ok; [exact Hs| |done|done|cbn; lia]); cbn; repeat (constructor; [lia|]); by apply hist_up.
Qed.
Lemma counts_submit : counts note_submit.
Proof.
  intros b s Hs Hb. pose proof Hs as H. bumped H. unfold note_submit. rewrite !checked_ok by (unfold in_u; lia). cbn [mbind res_bind].
  rewrite checked_ok by (unfold in_u; lia). cbn [mbind res_bind]. set (batch := st_read s + st_write s - st_last_rw s).
  assert (Forall (fun c => 0 <= c <= b + 1) (counters (st_set (st_parks s) (st_sqes s) (st_cqes s) (st_hist s) (st_read s + st_write s) s))) as Hc
    by (repeat (constructor; [cbn; lia|]); by apply hist_up).
  destruct (hist_index batch) as [i|] eqn:Hi; [|eexists; split; [reflexivity|]; split; [exact Hc|cbn; lia]].
  assert (i < 6)%nat as Hi6 by (unfold hist_index in Hi; repeat case_match; simplify_eq; lia). cbn [st_set st_hist].
  destruct (lookup_lt_is_Some_2 (st_hist s) i) as [v Hv]; [lia|]. rewrite Hv. cbn [expect mbind res_bind].
  pose proof H as Hf. rewrite list.Forall_forall in Hf. specialize (Hf v ltac:(by eapply list_elem_of_lookup_2)). cbv beta in Hf.
  rewrite checked_ok by (unfold in_u; lia). eexists. split; [reflexivity|]. split; [|cbn; rewrite length_insert; lia].
  repeat (constructor; [cbn; lia|]). cbn. apply list.Forall_insert; [by apply hist_up|lia].
Qed.

(** ** Submitting *)

(** What was submitted, oldest first. *)
Definition outs (r : Reactor) : list Entry := r_kernel r ++ r_sq r.

(** The tables, and the probes. *)
Definition side (r : Reactor) := (r_probes r, r_next_probe_id r, (r_free_bufs r, r_fixed_supported r), (r_free_files r, r_files_supported r), r_file_cache r).

(** Entries [es] went into the rings; nothing else but the counters changed. *)
Record moved (es : list Entry) (b : Z) (r r' : Reactor) : Prop := {
  mv_outs : outs r' = outs r ++ es;
  mv_cq : r_cq r' = r_cq r;
  mv_slab : r_slab r' = r_slab r;
  mv_woken : r_woken r' = r_woken r;
  mv_side : side r' = side r;
  mv_stats : within b (r_stats r');
}.
Arguments mv_outs {_ _ _ _} _.
Arguments mv_cq {_ _ _ _} _.
Arguments mv_slab {_ _ _ _} _.
Arguments mv_woken {_ _ _ _} _.
Arguments mv_side {_ _ _ _} _.
Arguments mv_stats {_ _ _ _} _.

Lemma moved_trans es es' b b' r r1 r2 : moved es b r r1 -> moved es' b' r1 r2 -> moved (es ++ es') b' r r2.
Proof. intros [] []. split; [|congruence..|done]. rewrite mv_outs1, mv_outs0. by rewrite <- app_assoc. Qed.

Lemma stat_ok f b r : counts f -> within b (r_stats r) -> b < 2 ^ 63 - 1 -> exists r', stat f r = (r', Ok tt) /\ moved [] (b + 1) r r'.
Proof.
  intros Hf Hw Hb. destruct (Hf b _ Hw Hb) as (s' & He & Hw'). unfold stat, mbind, M_bind, get, lift. rewrite He. eexists.
  split; [reflexivity|]. split; [symmetry; apply app_nil_r|done..].
Qed.

Lemma count_sqe_ok c b r : within b (r_stats r) -> b <= 2 ^ 62 -> exists r', count_sqe c r = (r', Ok tt) /\ moved [] (b + 2) r r'.
Proof.
  intros Hw Hb. unfold count_sqe. destruct (stat_ok _ b r counts_sqe Hw ltac:(lia)) as (r1 & He1 & H1). rewrite (bind_ok _ _ _ _ _ He1).
  destruct (stat_ok _ (b + 1) r1 (counts_class c) (mv_stats H1) ltac:(lia)) as (r2 & He2 & H2). exists r2. split; [exact He2|].
  replace (b + 2) with (b + 1 + 1) by lia. exact (moved_trans [] [] _ _ _ _ _ H1 H2).
Qed.

Lemma sq_push_ok e b r : within b (r_stats r) ->
  (exists r', sq_push e r = (r', Ok true) /\ moved [e] b r r') \/ sq_push e r = (r, Ok false).
Proof.
  intros Hw. unfold sq_push. rewrite get_bind. destruct (_ <? _)%nat; [left|by right]. eexists. split; [reflexivity|].
  split; [|done..]. unfold outs. cbn. by rewrite app_assoc.
Qed.

Lemma enter_ok a b r : within b (r_stats r) -> ends (enter a) r (fun r' _ => moved [] b r r') (fun r' _ => moved [] b r r').
Proof.
  intros Hw. unfold enter. apply ends_get. eapply ends_step; [reflexivity|].
  assert (moved [] b r (r_set_ring (drop (ent_taken a) (r_sq r)) (r_kernel r ++ take (ent_taken a) (r_sq r)) (r_cq r) r)) as H.
  { split; [|done..]. unfold outs. cbn. by rewrite <- app_assoc, take_drop, app_nil_r. }
  by destruct (ent_errno a).
Qed.

Lemma push_sqe_ok a e c b r : within b (r_stats r) -> b < 2 ^ 62 ->
  ends (push_sqe a e c) r (fun r' _ => moved [e] (b + 3) r r') (fun r' _ => moved [] (b + 3) r r').
Proof.
  intros Hw Hb. unfold push_sqe.
  assert (forall b1 r1 es, moved es b1 r r1 -> b1 <= b + 1 -> ends (count_sqe c) r1 (fun r' _ => moved es (b + 3) r r') (fun r' _ => moved [] (b + 3) r r')) as Hcount.
  { intros b1 r1 es H1 Hb1. destruct (count_sqe_ok c (b + 1) r1) as (r2 & He & H2); [eapply within_mono; [|apply (mv_stats H1)]; lia|lia|].
    eapply ends_eq; [exact He|]. replace (b + 3) with (b + 1 + 2) by lia. pose proof (moved_trans _ _ _ _ _ _ _ H1 H2) as H.
    by rewrite app_nil_r in H. }
  destruct (sq_push_ok e b r Hw) as [(r1 & He1 & H1)|He1]; (eapply ends_step; [exact He1|]); [eapply Hcount; [exact H1|lia]|].
  destruct (stat_ok _ b r counts_submit Hw ltac:(lia)) as (r1 & He2 & H1). eapply ends_step; [exact He2|]. apply ends_bind.
  assert (forall es r2, moved es (b + 1) r r2 -> moved es (b + 3) r r2) as Hup by (intros es r2 []; split; [done..|]; eapply within_mono; [|done]; lia).
  eapply ends_mono; [apply (enter_ok a (b + 1) r1 (mv_stats H1))| |].
  2:{ intros r2 er H2. apply Hup. exact (moved_trans _ _ _ _ _ _ _ H1 H2). }
  intros r2 [] H2. pose proof (moved_trans _ _ _ _ _ _ _ H1 H2) as H02. cbn in H02.
  destruct (sq_push_ok e (b + 1) r2 (mv_stats H2)) as [(r3 & He3 & H3)|He3]; (eapply ends_step; [exact He3|]).
  - eapply Hcount; [exact (moved_trans _ _ _ _ _ _ _ H02 H3)|lia].
  - apply ends_fail. by apply Hup.
Qed.

Lemma attempt_ok {A} (m : MU A) r Q R : ends m r Q R ->
  ends (attempt m) r (fun r' x => match x with None => exists y, Q r' y | Some e => R r' e end) (fun _ _ => False).
Proof. unfold ends, attempt. destruct (m r) as [r' [y|e|]]; [by exists y|done|done]. Qed.

Lemma moved_core hs mem log seen es b r r' : moved es b r r' ->
  core (es ++ outs r) (r_cq r) (r_slab r) hs mem log seen -> core (outs r') (r_cq r') (r_slab r') hs mem log seen.
Proof.
  intros Hm Hc. rewrite (mv_cq Hm), (mv_slab Hm). eapply core_perm; [|exact Hc]. rewrite (mv_outs Hm). apply Permutation_app_comm.
Qed.

(** ** Cancelling *)

(** A request to cancel [y] finds, of what was submitted before it, only what
    no future waits for. *)
Definition aim (hs : gmap Z HKind) (x y : Entry) : Prop := match en_op y with SqAsyncCancel k => en_key x = k -> hs !! k = None | _ => True end.
Definition aimed (hs : gmap Z HKind) (l : list Entry) : Prop := ForallOrdPairs (aim hs) l.

Lemma aimed_impl hs hs' l : (forall x y, x ∈ l -> aim hs x y -> aim hs' x y) -> aimed hs l -> aimed hs' l.
Proof.
  intros Hi. induction 1 as [|x l Hx H IH]; constructor.
  - eapply list.Forall_impl; [exact Hx|]. intros y. apply Hi. by left.
  - apply IH. intros a b Ha. apply Hi. by right.
Qed.

Lemma aimed_app hs a b : aimed hs (a ++ b) <-> aimed hs a /\ aimed hs b /\ Forall (fun x => Forall (aim hs x) b) a.
Proof.
  induction a as [|x a IH]; cbn; [split; [intros H; repeat split; [constructor|done|constructor]|tauto]|]. split.
  - inversion 1 as [|? ? Hx H']; subst. apply IH in H' as (Ha & Hb & Hab). apply list.Forall_app in Hx as [Hxa Hxb].
    repeat split; [by constructor|done|by constructor].
  - intros (Ha & Hb & Hab). inversion Ha as [|? ? Hx Ha']; subst. apply list.Forall_cons in Hab as [Hxb Hab].
    constructor; [apply list.Forall_app; by split|apply IH; done].
Qed.

Lemma aimed_drop hs a x b : aimed hs (a ++ x :: b) -> aimed hs (a ++ b).
Proof.
  rewrite !aimed_app. intros (Ha & Hb & Hab). inversion Hb; subst. split; [done|]. split; [done|].
  eapply list.Forall_impl; [exact Hab|]. intros y Hy. by apply list.Forall_cons in Hy as [_ Hy].
Qed.

Lemma aimed_snoc hs l y : aimed hs l -> (forall x, x ∈ l -> aim hs x y) -> aimed hs (l ++ [y]).
Proof.
  intros Hl Hy. apply aimed_app. split; [done|]. split; [repeat constructor|]. apply list.Forall_forall. intros x Hx. constructor; [by apply Hy|constructor].
Qed.

Lemma aimed_delete hs k l : aimed hs l -> aimed (delete k hs) l.
Proof.
  apply aimed_impl. intros x y _. unfold aim. destruct (en_op y); try done. intros H Hk. apply lookup_delete_None. right. by apply H.
Qed.

Lemma aimed_insert hs k h l : (forall x, x ∈ l -> en_key x <> k) -> aimed hs l -> aimed (<[k := h]> hs) l.
Proof.
  intros Hne. apply aimed_impl. intros x y Hx. unfold aim. destruct (en_op y); try done. intros H Hk. rewrite lookup_insert_ne; [by apply H|].
  intros ->. by apply (Hne x Hx).
Qed.

(** ** The operations of the reactor *)

Definition uok (hs : gmap Z HKind) (mem : Z -> HKind) (log seen : Z -> list CqeResult) (r : Reactor) : Prop :=
  core (outs r) (r_cq r) (r_slab r) hs mem log seen /\ aimed hs (outs r) /\ exists b, within b (r_stats r).

(** No counter is near its end. *)
Definition uroom (r : Reactor) : Prop := Forall (fun c => c <= 2 ^ 61) (counters (r_stats r)) /\ Z.of_nat (length (r_cq r)) < 2 ^ 61.

Lemma room_within hs mem log seen r : uok hs mem log seen r -> uroom r -> within (2 ^ 61) (r_stats r).
Proof.
  intros (_ & _ & b & Hw & Hr) [Hc _]. split; [|done]. apply list.Forall_forall. intros c Hin.
  rewrite list.Forall_forall in Hw, Hc. specialize (Hw c Hin). specialize (Hc c Hin). cbv beta in *. lia.
Qed.

(** Wakers: what was registered still is, or was woken. *)
Definition wakes (r r' : Reactor) : Prop :=
  exists l, r_woken r' = r_woken r ++ l /\
    forall k e w, r_slab r !! k = Some e -> oe_waker e = Some w -> w ∈ l \/ exists e', r_slab r' !! k = Some e' /\ oe_waker e' = Some w.

Lemma wakes_refl r r' : r_woken r' = r_woken r -> r_slab r' = r_slab r -> wakes r r'.
Proof. intros H1 H2. exists []. rewrite H1, app_nil_r. split; [done|]. intros k e w He Hw. right. exists e. by rewrite H2. Qed.

Lemma wakes_trans r r1 r2 : wakes r r1 -> wakes r1 r2 -> wakes r r2.
Proof.
  intros (l & H1 & H2) (l' & K1 & K2). exists (l ++ l'). split; [by rewrite K1, H1, app_assoc|]. intros k e w He Hw.
  destruct (H2 k e w He Hw) as [Hl|(e' & He' & Hw')]; [left; apply elem_of_app; by left|].
  destruct (K2 k e' w He' Hw') as [Hl|?]; [left; apply elem_of_app; by right|by right].
Qed.

Section Steps.
Context {hs : gmap Z HKind} {mem : Z -> HKind} {log seen : Z -> list CqeResult}.
Implicit Type r : Reactor.

Lemma outs_live r x e : uok hs mem log seen r -> x ∈ outs r -> r_slab r !! en_key x = e -> en_key x <> IGNORE_USER_DATA -> is_Some e.
Proof.
  intros [[] _] Hx <- Hi. rewrite list.Forall_forall in c_outs0. specialize (c_outs0 x Hx). cbv beta in c_outs0. rewrite decide_False in c_outs0 by done.
  destruct c_outs0 as (e & He & _). by exists e.
Qed.

Lemma moved_uok es b r r' hs' mem' log' seen' : moved es b r r' ->
  core (es ++ outs r) (r_cq r) (r_slab r) hs' mem' log' seen' -> aimed hs' (outs r ++ es) -> uok hs' mem' log' seen' r'.
Proof. intros Hm Hc Ha. split; [by eapply moved_core|]. rewrite (mv_outs Hm). split; [done|]. eexists. exact (mv_stats Hm). Qed.

Lemma submit_ok k a op res c kind r :
  uok hs mem log seen r -> uroom r -> r_slab r !! k = None -> 0 <= k < 2 ^ 63 -> op_ok kind op res ->
  ends (submit_classed k a op res c) r
    (fun r' o => o = {| op_key := k; op_done := false |} /\ uok (<[k := kind]> hs) (upd k kind mem) (upd k [] log) (upd k [] seen) r' /\
       r_slab r' = <[k := OpEntry_new res]> (r_slab r) /\ r_woken r' = r_woken r /\ side r' = side r)
    (fun r' _ => uok hs mem log seen r' /\ r_slab r' = r_slab r /\ r_woken r' = r_woken r /\ side r' = side r).
Proof.
  intros Hu Hroom Hk Hr Hop. pose proof (room_within _ _ _ _ _ Hu Hroom) as Hw. pose proof Hu as (Hc & Ha & _).
  unfold submit_classed, submit_op. apply ends_bind. eapply ends_step; [reflexivity|].
  set (r1 := r_set_slab _ _ r). apply ends_bind. eapply ends_mono; [apply attempt_ok, (push_sqe_ok a {| en_op := op; en_key := k |} c (2 ^ 61) r1); [exact Hw|lia]| |done].
  assert (forall x, x ∈ outs r -> en_key x <> k) as Hne.
  { intros x Hx <-. destruct (outs_live r x _ Hu Hx Hk) as [? ?]; [unfold IGNORE_USER_DATA; lia|done]. }
  intros r2 [e|].
  - intros Hm. eapply ends_step; [reflexivity|]. apply ends_fail.
    assert (delete k (r_slab r2) = r_slab r) as Hd by (rewrite (mv_slab Hm); cbn; by rewrite delete_insert_id).
    assert (outs r2 = outs r) as Ho by (rewrite (mv_outs Hm); apply app_nil_r).
    split; [|split; [exact Hd|split; [exact (mv_woken Hm)|exact (mv_side Hm)]]].
    split; [cbn; rewrite Hd, (mv_cq Hm); change (core (outs r2) (r_cq r) (r_slab r) hs mem log seen); by rewrite Ho|].
    split; [change (aimed hs (outs r2)); by rewrite Ho|eexists; exact (mv_stats Hm)].
  - intros ([] & Hm). eapply ends_eq; [reflexivity|]. split; [done|]. split; [|split; [exact (mv_slab Hm)|split; [exact (mv_woken Hm)|exact (mv_side Hm)]]].
    eapply moved_uok; [exact Hm|exact (core_submit k op res kind Hc Hk Hr Hop)|]. change (outs r1) with (outs r).
    apply aimed_snoc; [by apply aimed_insert|]. intros x Hx. unfold aim. cbn. destruct op; try done. destruct Hop as (Hb & _ & _). destruct res; naive_solver.
Qed.

Lemma orphan_ok a k h r :
  uok hs mem log seen r -> uroom r -> hs !! k = Some h ->
  ends (orphan a k) r (fun r' _ => uok (delete k hs) mem log seen r' /\ r_woken r' = r_woken r /\ side r' = side r /\
    forall j, j <> k -> r_slab r' !! j = r_slab r !! j) (fun _ _ => False).
Proof.
  intros Hu Hroom Hk. pose proof (room_within _ _ _ _ _ Hu Hroom) as Hw. pose proof Hu as (Hc & Ha & Hb).
  unfold orphan. apply ends_get. destruct (c_handles _ _ _ _ _ _ _ Hc _ _ Hk) as [e He]. rewrite He.
  pose proof (aimed_delete hs k _ Ha) as Ha'. destruct (oe_terminated e) eqn:Ht.
  - eapply ends_eq; [reflexivity|]. split; [|split; [done|]; split; [done|]; intros j Hj; cbn; by rewrite lookup_delete_ne].
    split; [|done]. cbn. by eapply core_remove.
  - eapply ends_step; [reflexivity|]. set (r1 := r_set_slab _ _ r).
    assert (core (outs r1) (r_cq r1) (r_slab r1) (delete k hs) mem log seen) as Hc1 by (exact (core_orphan k e Hc He Ht)).
    apply ends_bind. eapply ends_mono; [apply attempt_ok, (push_sqe_ok a {| en_op := SqAsyncCancel k; en_key := IGNORE_USER_DATA |} ClOther (2 ^ 61) r1); [exact Hw|lia]| |done].
    assert (forall es r2, moved es (2 ^ 61 + 3) r1 r2 -> core (es ++ outs r1) (r_cq r1) (r_slab r1) (delete k hs) mem log seen -> aimed (delete k hs) (outs r1 ++ es) ->
      ends (mret tt : MU unit) r2 (fun r' _ => uok (delete k hs) mem log seen r' /\ r_woken r' = r_woken r /\ side r' = side r /\
        forall j, j <> k -> r_slab r' !! j = r_slab r !! j) (fun _ _ => False)) as Hend.
    { intros es r2 Hm H2 H3. apply ends_ret. split; [by eapply moved_uok|]. split; [exact (mv_woken Hm)|]. split; [exact (mv_side Hm)|].
      intros j Hj. rewrite (mv_slab Hm). cbn. by rewrite lookup_insert_ne. }
    intros r2 [er|] Hm; [apply (Hend [] r2 Hm Hc1); by rewrite app_nil_r|]. destruct Hm as ([] & Hm). eapply Hend; [exact Hm|by apply core_cancel|].
    apply aimed_snoc; [done|]. intros x _. unfold aim. cbn. intros _. apply lookup_delete_eq.
Qed.

(** A completion is routed. *)
Lemma route_cqe_ok c cq b r :
  core (outs r) (c :: cq) (r_slab r) hs mem log seen -> within b (r_stats r) -> b < 2 ^ 62 ->
  ends (route_cqe c) r (fun r' n => length (r_woken r') = (length (r_woken r) + n)%nat /\ core (outs r) cq (r_slab r') hs mem log seen /\ within (b + 1) (r_stats r') /\ wakes r r' /\
    (outs r', r_cq r') = (outs r, r_cq r) /\ side r' = side r) (fun _ _ => False).
Proof.
  intros Hc Hw Hb. unfold route_cqe. destruct (stat_ok _ b r counts_cqe Hw ltac:(lia)) as (r1 & He1 & Hm). eapply ends_step; [exact He1|].
  destruct Hm as [Mo Mq Ms Mw Mi Mst]. rewrite app_nil_r in Mo. destruct c as [k res].
  assert (forall (slab : gmap Z OpEntry) woken, (outs (r_set_slab slab woken r1), r_cq (r_set_slab slab woken r1)) = (outs r, r_cq r)) as Hq
    by (intros slab woken; rewrite <- Mo, <- Mq; done).
  destruct (Z.eqb_spec k IGNORE_USER_DATA) as [->|Hk].
  { apply ends_ret. rewrite Mo, Mq, Ms, Mw. split; [lia|]. split; [by eapply core_ignored|]. split; [done|]. split; [by apply wakes_refl|done]. }
  destruct (posted_live _ _ _ _ _ _ _ _ Hc Hk) as (e & He & Ht). cbn in He. apply ends_get. rewrite Ms, He. eapply ends_step; [reflexivity|]. cbn zeta.
  rewrite Ht. cbn [orb oe_state oe_orphaned oe_terminated]. destruct (oe_orphaned e) eqn:Ho.
  - pose proof (core_orphaned Hc Hk e He Ho) as Hc'. pose proof (c_entry _ _ _ _ _ _ _ Hc _ _ He) as Hek.
    assert (oe_waker e = None) as Hwk by (destruct (hs !! k); [destruct Hek; congruence|by destruct Hek as (_ & _ & ?)]).
    eapply ends_step; [reflexivity|]. apply ends_ret. cbn [r_slab r_set_slab r_stats]. rewrite Ms.
    assert ((if negb (more res) then delete k else insert k (oe_state (oe_waker e) (negb (more res)) (oe_orphaned e) e)) (r_slab r) = if more res then r_slab r else delete k (r_slab r)) as Hs.
    { destruct (more res); cbn; [|done]. apply insert_id. rewrite He. f_equal. rewrite <- Ht. symmetry. apply oe_state_id. }
    rewrite Ho in Hs. rewrite Hs. split; [cbn; rewrite Mw; lia|]. split; [done|]. split; [done|]. split; [|split; [apply Hq|exact Mi]].
    exists []. rewrite app_nil_r. split; [exact Mw|]. intros j x w Hj Hjw. right. exists x. split; [|done]. cbn.
    assert (j <> k) by (intros ->; congruence). destruct (more res); [done|by rewrite lookup_delete_ne].
  - set (e' := push_result _ _). destruct (push_fields res (oe_state (oe_waker e) (negb (more res)) false e)) as (F1 & F2 & F3 & F4). fold e' in F1, F2, F3, F4. cbn in F1, F2, F3, F4.
    assert (results e' = results e ++ [res]) as Hr by (unfold e'; by rewrite results_push). rewrite F1.
    destruct (oe_waker e) as [w|] eqn:Hwk.
    + eapply ends_step; [reflexivity|]. apply ends_ret. split; [cbn; by rewrite Mw, length_app|]. split; [|split; [done|split; [|split; [apply Hq|exact Mi]]]].
      * cbn. rewrite Ms, F2, F3. eapply (core_routed Hc Hk e); done.
      * exists [w]. cbn. split; [by rewrite Mw|]. rewrite Ms. intros j x v Hj Hjw. destruct (decide (j = k)) as [->|]; [left; assert (v = w) as -> by congruence; by left|].
        right. exists x. by rewrite lookup_insert_ne.
    + eapply ends_step; [reflexivity|]. apply ends_ret. split; [cbn; rewrite Mw; lia|]. split; [|split; [done|split; [|split; [apply Hq|exact Mi]]]].
      * cbn. rewrite Ms. eapply (core_routed Hc Hk e); done.
      * exists []. cbn. split; [by rewrite Mw, app_nil_r|]. rewrite Ms. intros j x v Hj Hjw. right. exists x.
        rewrite lookup_insert_ne; [done|]. intros <-. congruence.
Qed.

Lemma reap_loop_ok cq : forall b r,
  core (outs r) cq (r_slab r) hs mem log seen -> within b (r_stats r) -> b + Z.of_nat (length cq) < 2 ^ 62 ->
  ends (reap_loop cq) r (fun r' n => length (r_woken r') = (length (r_woken r) + n)%nat /\ core (outs r) [] (r_slab r') hs mem log seen /\ (exists b', within b' (r_stats r') /\ b' <= b + Z.of_nat (length cq)) /\ wakes r r' /\
    (outs r', r_cq r') = (outs r, r_cq r) /\ side r' = side r) (fun _ _ => False).
Proof.
  induction cq as [|c cq IH]; cbn [length reap_loop]; intros b r Hc Hw Hb.
  { apply ends_ret. split; [lia|]. split; [done|]. split; [exists b; split; [done|lia]|]. split; [by apply wakes_refl|done]. }
  apply ends_bind. eapply ends_mono; [apply (route_cqe_ok c cq b r Hc Hw); lia| |done].
  intros r1 n (Hn1 & Hc1 & Hw1 & Hwk1 & Hq1 & Hs1). injection Hq1 as Ho1 Hq1. apply ends_bind. rewrite <- Ho1 in Hc1.
  eapply ends_mono; [apply (IH (b + 1) r1 Hc1 Hw1); lia| |done].
  intros r2 m (Hn2 & Hc2 & (b' & Hw2 & Hb') & Hwk2 & Hq2 & Hs2). apply ends_ret. rewrite <- Ho1. split; [lia|]. split; [done|]. split; [exists b'; split; [done|lia]|].
  split; [by eapply wakes_trans|]. split; [congruence|congruence].
Qed.

Lemma reap_routes r : uok hs mem log seen r -> uroom r ->
  ends reap r (fun r' n => length (r_woken r') = (length (r_woken r) + n)%nat /\ uok hs mem log seen r' /\ r_cq r' = [] /\ wakes r r' /\ outs r' = outs r /\ side r' = side r /\ within (2 ^ 62) (r_stats r')) (fun _ _ => False).
Proof.
  intros Hu Hroom. pose proof (room_within _ _ _ _ _ Hu Hroom) as Hw. destruct Hu as (Hc & Ha & _). destruct Hroom as [_ Hl].
  unfold reap. apply ends_get. eapply ends_step; [reflexivity|]. set (r1 := r_set_ring _ _ _ r).
  eapply ends_mono; [apply (reap_loop_ok (r_cq r) (2 ^ 61) r1 Hc Hw); lia| |done].
  intros r2 n (Hn2 & Hc2 & (b' & Hw2 & Hb') & Hwk2 & Hq2 & Hs2). injection Hq2 as Ho Hq. change (outs r1) with (outs r) in *. cbn in Hq.
  split; [exact Hn2|]. split; [split; [rewrite Ho, Hq; exact Hc2|rewrite Ho; split; [exact Ha|by eexists]]|]. split; [done|]. split; [exact Hwk2|]. split; [done|]. split; [exact Hs2|].
  eapply within_mono; [|exact Hw2]. lia.
Qed.

(** An operation that has ended posts no more. *)
Lemma ended_posts r k e : uok hs mem log seen r -> r_slab r !! k = Some e -> oe_terminated e = true -> posts k (r_cq r) = [].
Proof.
  intros [Hc _] He Ht. destruct (posts k (r_cq r)) eqn:Hp; [done|]. destruct (cqe_live _ _ _ _ _ _ _ k Hc) as (x & Hx & Hxt); [|by rewrite Hp|congruence].
  pose proof (c_range _ _ _ _ _ _ _ Hc _ _ He). unfold IGNORE_USER_DATA. lia.
Qed.

(** What a poll of the future of [k] keeps. *)
Definition polled (k : Z) r r' : Prop :=
  r_woken r' = r_woken r /\ side r' = side r /\ (outs r', r_cq r', r_stats r') = (outs r, r_cq r, r_stats r) /\ forall j, j <> k -> r_slab r' !! j = r_slab r !! j.

Lemma polled_insert k e r : polled k r (r_set_slab (<[k := e]> (r_slab r)) (r_woken r) r).
Proof. split; [done|]. split; [done|]. split; [done|]. intros j Hj. by apply lookup_insert_ne. Qed.
Lemma polled_delete k r : polled k r (r_set_slab (delete k (r_slab r)) (r_woken r) r).
Proof. split; [done|]. split; [done|]. split; [done|]. intros j Hj. by apply lookup_delete_ne. Qed.

Definition waits (k : Z) (w : nat) r : Prop := exists e, r_slab r !! k = Some e /\ oe_waker e = Some w /\ results e = [].

(** Nothing yet: the waker is registered. *)
Lemma pending_uok k h e w r : uok hs mem log seen r -> hs !! k = Some h -> r_slab r !! k = Some e -> results e = [] ->
  let r' := r_set_slab (<[k := oe_state (Some w) (oe_terminated e) (oe_orphaned e) e]> (r_slab r)) (r_woken r) r in
  uok hs mem log seen r' /\ waits k w r'.
Proof.
  intros (Hc & Ha & Hb) Hk He Hr. split; [|eexists; cbn; rewrite lookup_insert_eq; by split]. split; [|by split].
  eapply core_entry; [exact Hc|exact He|done|done| |done|done]. pose proof (c_entry _ _ _ _ _ _ _ Hc _ _ He) as Hek. rewrite Hk in *.
  destruct Hek as (E1 & E2 & E3 & E4 & E5). split; [done|]. split; [done|]. split; [done|]. split; [by rewrite results_state|done].
Qed.

(** The last result is taken. *)
Lemma taken_uok k e res r : uok hs mem log seen r -> is_Some (hs !! k) -> r_slab r !! k = Some e -> oe_terminated e = true -> results e = [res] ->
  log k = seen k ++ [res] /\ uok (delete k hs) mem log (upd k (seen k ++ [res]) seen) (r_set_slab (delete k (r_slab r)) (r_woken r) r).
Proof.
  intros Hu Hk He Ht Hr. pose proof Hu as (Hc & Ha & Hb). split.
  - rewrite (c_log _ _ _ _ _ _ _ Hc k e He Hk), Hr, (ended_posts r k e Hu He Ht). by rewrite app_nil_r.
  - split; [|split; [by apply aimed_delete|done]]. eapply core_remove; [exact Hc|exact He|done|]. intros j Hj. by apply upd_other.
Qed.

Lemma poll_single_ok k h w r : uok hs mem log seen r -> hs !! k = Some h -> is_many h = false ->
  let o := {| op_key := k; op_done := false |} in
  ends (poll_single w o) r (fun r' p => polled k r r' /\
    match p.2 with
    | None => p.1 = o /\ uok hs mem log seen r' /\ waits k w r'
    | Some (res, rs) => p.1 = {| op_key := k; op_done := true |} /\ kind_res h rs /\ log k = seen k ++ [res] /\
        uok (delete k hs) mem log (upd k (seen k ++ [res]) seen) r'
    end) (fun _ _ => False).
Proof.
  intros Hu Hk Hm o. pose proof Hu as (Hc & _). destruct (c_handles _ _ _ _ _ _ _ Hc _ _ Hk) as [e He]. pose proof (c_entry _ _ _ _ _ _ _ Hc _ _ He) as Hek.
  rewrite Hk in Hek. destruct Hek as (E1 & E2 & E3 & E4 & E5). destruct (E5 Hm) as [Hl Ht].
  unfold poll_single. eapply ends_step; [reflexivity|]. apply ends_get. cbn [o op_key]. rewrite He. eapply ends_step; [reflexivity|].
  rewrite has_result_iff, negb_involutive. pose proof (pop_spec e) as Hp. destruct (results e) as [|res [|? ?]] eqn:Hr; [| |cbn in Hl; lia].
  - cbn [bool_decide decide_rel]. rewrite bool_decide_true by done. eapply ends_step; [reflexivity|]. apply ends_ret. split; [apply polled_insert|]. split; [done|].
    by eapply pending_uok.
  - rewrite bool_decide_false by done. rewrite (Ht ltac:(done)). eapply ends_step; [reflexivity|]. eapply ends_step; [reflexivity|].
    destruct Hp as (e' & He' & _ & _ & _ & _ & Hres). rewrite He'. eapply ends_step; [reflexivity|]. apply ends_ret. split; [apply polled_delete|].
    split; [done|]. cbn. rewrite Hres. split; [done|]. apply (taken_uok k e res r Hu); [by eexists|done|by apply Ht|done].
Qed.

Lemma poll_next_ok k w r : uok hs mem log seen r -> hs !! k = Some KMany ->
  let o := {| op_key := k; op_done := false |} in
  ends (poll_next w o) r (fun r' p => polled k r r' /\
    match p.2 with
    | NPending => p.1 = o /\ uok hs mem log seen r' /\ waits k w r'
    | NEnd => False
    | NSome res =>
        let seen' := upd k (seen k ++ [res]) seen in
        if op_done p.1 then p.1 = {| op_key := k; op_done := true |} /\ log k = seen k ++ [res] /\ uok (delete k hs) mem log seen' r'
        else p.1 = o /\ (exists l, log k = seen k ++ res :: l) /\ uok hs mem log seen' r'
    end) (fun _ _ => False).
Proof.
  intros Hu Hk o. pose proof Hu as (Hc & Ha & Hb). destruct (c_handles _ _ _ _ _ _ _ Hc _ _ Hk) as [e He]. pose proof (c_entry _ _ _ _ _ _ _ Hc _ _ He) as Hek.
  pose proof (c_log _ _ _ _ _ _ _ Hc k e He ltac:(by eexists)) as Hl.
  rewrite Hk in Hek. destruct Hek as (E1 & E2 & E3 & E4 & _). unfold poll_next. cbn [o op_done op_key]. apply ends_get. rewrite He. eapply ends_step; [reflexivity|].
  pose proof (pop_spec e) as Hp. destruct (results e) as [|res l] eqn:Hr.
  - rewrite Hp. destruct (oe_terminated e) eqn:Ht; [by specialize (E3 eq_refl)|]. eapply ends_step; [reflexivity|]. apply ends_ret. split; [apply polled_insert|].
    split; [done|]. rewrite <- Ht. by eapply pending_uok.
  - destruct Hp as (e' & -> & Hr' & Hw' & Ht' & Ho' & Hres'). rewrite has_result_iff, Hr', Ht'. destruct (oe_terminated e) eqn:Ht; [destruct l as [|res' l]|]; cbn [andb].
    + rewrite bool_decide_true by done. cbn [negb]. eapply ends_step; [reflexivity|]. apply ends_ret. split; [apply polled_delete|].
      cbn. split; [done|]. apply (taken_uok k e res r Hu); [by eexists|done..].
    + rewrite bool_decide_false by done. cbn [negb]. eapply ends_step; [reflexivity|]. apply ends_ret. split; [apply polled_insert|]. cbn. split; [done|].
      split; [by eexists|]. split; [|by split]. eapply core_entry; [exact Hc|exact He|congruence|done| |by rewrite upd_same, Hr, Hr', <- app_assoc|by intros j ?; apply upd_other].
      rewrite Hk. split; [congruence|]. split; [by rewrite Hres'|]. split; [by rewrite Hr'|]. split; [|done]. rewrite Hw'. intros Hn. by specialize (E4 Hn).
    + eapply ends_step; [reflexivity|]. apply ends_ret. split; [apply polled_insert|]. cbn. split; [done|].
      split; [by eexists|]. split; [|by split]. eapply core_entry; [exact Hc|exact He|congruence|done| |by rewrite upd_same, Hr, Hr', <- app_assoc|by intros j ?; apply upd_other].
      rewrite Hk. split; [congruence|]. split; [by rewrite Hres'|]. split; [congruence|]. split; [|done]. rewrite Hw'. intros Hn. by specialize (E4 Hn).
Qed.

(** What a wait may return. *)
Definition benign (a : Enter) : Prop := match ent_errno a with None => True | Some e => e ∈ [ETIME; EINTR; EBUSY; EAGAIN] end.

Definition worked (work : Z -> bool) r : Prop := exists p, p ∈ r_probes r /\ work p.1 = true.

Lemma side_probes r r' : side r' = side r -> r_probes r' = r_probes r.
Proof. unfold side. congruence. Qed.

(** Nothing but the rings and the counters changed since [r]. *)
Lemma parked_moved b r r1 r2 : uok hs mem log seen r1 -> wakes r r1 -> side r1 = side r -> moved [] b r1 r2 ->
  uok hs mem log seen r2 /\ wakes r r2 /\ side r2 = side r.
Proof.
  intros Hu Hw Hs Hm. destruct Hu as (Hc & Ha & _). split; [eapply moved_uok; [exact Hm|done|by rewrite app_nil_r]|]. split.
  - eapply wakes_trans; [exact Hw|]. by apply wakes_refl; [apply (mv_woken Hm)|apply (mv_slab Hm)].
  - rewrite (mv_side Hm). done.
Qed.

Lemma park_pass_ok work spin a r : uok hs mem log seen r -> uroom r -> benign a ->
  ends (park_pass work spin a) r (fun r' p => uok hs mem log seen r' /\ wakes r r' /\ side r' = side r /\ r_cq r' = [] /\
    (p = Return -> (length (r_woken r) < length (r_woken r'))%nat \/ worked work r \/ r_slab r' = ∅)) (fun _ _ => False).
Proof.
  intros Hu Hroom Hben. unfold park_pass. apply ends_bind. eapply ends_mono; [by apply reap_routes| |done]. cbv beta.
  intros r1 n (Hn & Hu1 & Hq & Hwk & _ & Hs & Hw). destruct (Nat.ltb_spec 0 n) as [Hn0|Hn0]; [apply ends_ret; split; [done|]; split; [done|]; split; [done|]; split; [done|]; left; lia|].
  apply ends_get. destruct (run_park_probes work r1) eqn:Hpr.
  { apply ends_ret. split; [done|]. split; [done|]. split; [done|]. split; [done|]. intros _. right; left. unfold run_park_probes in Hpr. apply existsb_exists in Hpr as (p & Hp & Hwp).
    exists p. rewrite <- (side_probes _ _ Hs). split; [by apply list_elem_of_In|done]. }
  assert (forall r2 b, moved [] b r1 r2 -> forall p, p <> Return -> ends (mret p : MU Pass) r2 (fun r' p => uok hs mem log seen r' /\ wakes r r' /\ side r' = side r /\ r_cq r' = [] /\
    (p = Return -> (length (r_woken r) < length (r_woken r'))%nat \/ worked work r \/ r_slab r' = ∅)) (fun _ _ => False)) as Hend.
  { intros r2 b Hm p Hp. apply ends_ret. destruct (parked_moved b r r1 r2 Hu1 Hwk Hs Hm) as (? & ? & ?). rewrite (mv_cq Hm). done. }
  assert (forall b r2, moved [] b r1 r2 -> b < 2 ^ 63 - 1 -> ends (attempt (enter a)) r2
    (fun r' x => moved [] b r1 r' /\ x = option_map OsError (ent_errno a)) (fun _ _ => False)) as Henter.
  { intros b r2 Hm Hb. assert (enter a r2 = (r_set_ring (drop (ent_taken a) (r_sq r2)) (r_kernel r2 ++ take (ent_taken a) (r_sq r2)) (r_cq r2) r2,
      match ent_errno a with Some e => Err (OsError e) | None => Ok tt end)) as He by (unfold enter; rewrite get_bind; by destruct (ent_errno a)).
    pose proof (enter_ok a b r2 (mv_stats Hm)) as H2. unfold ends, attempt in *. rewrite He in *. destruct (ent_errno a); split; try done;
      by apply (moved_trans _ _ _ _ _ _ _ Hm H2). }
  destruct (spin_requested spin r1).
  - apply ends_bind. eapply (ends_mono _ _ (fun r2 _ => moved [] (2 ^ 62 + 1) r1 r2) _ (fun _ _ => False)); [| |done].
    + destruct (0 <? _)%nat; [destruct (stat_ok _ (2 ^ 62) r1 counts_submit Hw ltac:(lia)) as (r2 & He2 & Hm); by eapply ends_eq|].
      apply ends_ret. split; [by rewrite app_nil_r|done..|eapply within_mono; [|exact Hw]; lia].
    + intros r2 [] Hm. apply ends_bind. eapply ends_mono; [apply (Henter _ r2 Hm); lia| |done]. intros r3 x [H3 _]. by eapply Hend.
  - destruct (bool_decide_reflect (r_slab r1 = ∅)) as [Hem|Hem]; [apply ends_ret; split; [done|]; split; [done|]; split; [done|]; split; [done|]; by right; right|].
    destruct (stat_ok _ (2 ^ 62) r1 counts_park Hw ltac:(lia)) as (r2 & He2 & Hm2). eapply ends_step; [exact He2|].
    destruct (stat_ok _ (2 ^ 62 + 1) r2 counts_submit (mv_stats Hm2) ltac:(lia)) as (r3 & He3 & Hm3). eapply ends_step; [exact He3|].
    pose proof (moved_trans _ _ _ _ _ _ _ Hm2 Hm3) as Hm. apply ends_bind. eapply ends_mono; [apply (Henter _ r3 Hm); lia| |done].
    intros r4 x [Hm4 ->]. unfold benign in Hben. destruct (ent_errno a) as [e|]; cbn; [|by eapply Hend].
    replace ((e =? ETIME) || (e =? EINTR) || (e =? EBUSY) || (e =? EAGAIN)) with true; [by eapply Hend|].
    symmetry. rewrite !orb_true_iff, !Z.eqb_eq. rewrite !elem_of_cons in Hben. pose proof (not_elem_of_nil e). tauto.
Qed.

End Steps.
