(* ===== verification/ReactorSpec.v ===== *)
(** * The reactor: the claims

    [us_step] interleaves the constructors of operations (that may fail), polls,
    dropped futures, parking, the tables, and the kernel, which completes what it
    holds in any order.  A constructor is given the memory its operation uses
    ([given]); what each operation was given is recorded beside the reactor, and
    the claims compare it with what the slab holds. *)

From S2P Require Import Prelude SlotQ ExecLaws ConnProofs Reactor ReactorProofs.

#[local] Opaque more.

(** ** The system *)

(** A reactor with the futures of its operations, what each operation was given
    when it was submitted under its key (this stays when its future is dropped),
    what the kernel has posted and each future has seen, the polls that wait
    (their waker, and how many wakers had been woken), and the buffer slots handed
    out. *)
Record USys := {
  us_r : Reactor;
  us_hs : gmap Z HKind;
  us_mem : Z -> HKind;
  us_log : Z -> list CqeResult;
  us_seen : Z -> list CqeResult;
  us_parked : gmap Z (nat * nat);
  us_bufs : list Z;
}.

Definition handle (k : Z) : Op := {| op_key := k; op_done := false |}.

(** The constructors of operations: the kind of future, and the call. *)
Inductive built (k : Z) (a : Enter) : HKind -> MU Op -> Prop :=
| B_read_at fd buf off : built k a (KBuf buf) (read_at k a fd buf off)
| B_write_at fd buf off : built k a (KBuf buf) (write_at k a fd buf off)
| B_recv fd buf : built k a (KBuf buf) (recv k a fd buf)
| B_send fd buf : built k a (KBuf buf) (send k a fd buf)
| B_send_vectored box fd header payload : built k a (KMsg (new_send box header payload)) (send_vectored k a box fd header payload)
| B_accept fd : built k a KOne (accept k a fd)
| B_accept_multi fd : built k a KMany (accept_multi k a fd)
| B_poll_add fd events : built k a KOne (poll_add k a fd events)
| B_poll_add_multi fd events : built k a KMany (poll_add_multi k a fd events)
| B_sleep box secs nanos : built k a (KTime box secs nanos) (sleep k a box secs nanos)
| B_fsync file datasync : built k a KOne (fsync k a file datasync)
| B_fallocate file mode off len : built k a KOne (fallocate k a file mode off len)
| B_block_discard file off len : built k a KOne (block_discard k a file off len)
| B_recv_raw fd ptr len : built k a KOne (recv_raw k a fd ptr len)
| B_recvmsg_raw fd msg : built k a KOne (recvmsg_raw k a fd msg)
| B_recv_multi fd bgid : built k a KMany (recv_multi k a fd bgid)
| B_sendmsg_raw fd msg : built k a KOne (sendmsg_raw k a fd msg)
| B_sendmsg_zc_raw fd msg : built k a KMany (sendmsg_zc_raw k a fd msg)
| B_send_zc_vec_fixed_raw fd iov n i : built k a KMany (send_zc_vec_fixed_raw k a fd iov n i)
| B_read_at_raw file ptr len off : built k a KOne (read_at_raw k a file ptr len off)
| B_write_at_raw file ptr len off : built k a KOne (write_at_raw k a file ptr len off)
| B_readv_at_raw file iov n off fl : built k a KOne (readv_at_raw k a file iov n off fl)
| B_writev_at_raw file iov n off fl : built k a KOne (writev_at_raw k a file iov n off fl)
| B_readv_fixed_at_raw file iov n off i fl : built k a KOne (readv_fixed_at_raw k a file iov n off i fl)
| B_writev_fixed_at_raw file iov n off i fl : built k a KOne (writev_fixed_at_raw k a file iov n off i fl).

(** Every constructor submits an operation whose memory the reactor keeps, or
    refuses. *)
Lemma built_submits k a kind m r : built k a kind m ->
  (exists e, m r = (r, Err e)) \/ exists op res c, m r = submit_classed k a op res c r /\ op_ok kind op res.
Proof.
  assert (forall buf (f : Z -> Opcode) c, (forall n, backed (f n) (ResBuffer buf) <-> n = b_len buf) -> (forall n, multishot (f n) = false) ->
    let m := len ← lift (buf_len buf); submit_classed k a (f len) (ResBuffer buf) c in
    (exists e, m r = (r, Err e)) \/ exists op res c, m r = submit_classed k a op res c r /\ op_ok (KBuf buf) op res) as Hbuf.
  { intros buf f c Hf Hm m'. subst m'. unfold buf_len. destruct (_ <? _); [right|left; by eexists]. eexists _, _, _. split; [reflexivity|].
    split; [by apply Hf|]. split; [done|apply Hm]. }
  destruct 1; try (apply Hbuf; [intros n; cbn; tauto|done]); right; (eexists _, _, _; split; [reflexivity|]); repeat split; by eexists.
Qed.

Definition us_put (r : Reactor) (u : USys) : USys :=
  {| us_r := r; us_hs := us_hs u; us_mem := us_mem u; us_log := us_log u; us_seen := us_seen u; us_parked := us_parked u; us_bufs := us_bufs u |}.

Definition us_submit (k : Z) (kind : HKind) (r : Reactor) (u : USys) : USys :=
  {| us_r := r; us_hs := <[k := kind]> (us_hs u); us_mem := upd k kind (us_mem u); us_log := upd k [] (us_log u); us_seen := upd k [] (us_seen u); us_parked := delete k (us_parked u);
     us_bufs := us_bufs u |}.

(** A poll was pending; it took a result, the last when [last]. *)
Definition us_wait (k : Z) (w : nat) (r : Reactor) (u : USys) : USys :=
  {| us_r := r; us_hs := us_hs u; us_mem := us_mem u; us_log := us_log u; us_seen := us_seen u; us_parked := <[k := (w, length (r_woken r))]> (us_parked u); us_bufs := us_bufs u |}.
Definition us_took (k : Z) (res : CqeResult) (last : bool) (r : Reactor) (u : USys) : USys :=
  {| us_r := r; us_hs := if last then delete k (us_hs u) else us_hs u; us_mem := us_mem u; us_log := us_log u; us_seen := upd k (us_seen u k ++ [res]) (us_seen u);
     us_parked := delete k (us_parked u); us_bufs := us_bufs u |}.
Definition us_drop (k : Z) (r : Reactor) (u : USys) : USys :=
  {| us_r := r; us_hs := delete k (us_hs u); us_mem := us_mem u; us_log := us_log u; us_seen := us_seen u; us_parked := delete k (us_parked u); us_bufs := us_bufs u |}.
Definition us_post (k : Z) (res : CqeResult) (r : Reactor) (u : USys) : USys :=
  {| us_r := r; us_hs := us_hs u; us_mem := us_mem u; us_log := upd k (us_log u k ++ [res]) (us_log u); us_seen := us_seen u; us_parked := us_parked u; us_bufs := us_bufs u |}.
Definition us_slots (bufs : list Z) (r : Reactor) (u : USys) : USys :=
  {| us_r := r; us_hs := us_hs u; us_mem := us_mem u; us_log := us_log u; us_seen := us_seen u; us_parked := us_parked u; us_bufs := bufs |}.

(** The kernel posts a completion; the operation stays with it, or not. *)
Definition posted (kernel : list Entry) (k : Z) (res : CqeResult) (r : Reactor) : Reactor := r_set_ring (r_sq r) kernel (r_cq r ++ [(k, res)]) r.

Inductive us_step (u : USys) : USys -> Prop :=
| U_submit k a kind m r o :
    r_slab (us_r u) !! k = None -> 0 <= k < 2 ^ 63 -> built k a kind m -> m (us_r u) = (r, Ok o) -> us_step u (us_submit k kind r u)
| U_refuse k a kind m r e :
    r_slab (us_r u) !! k = None -> 0 <= k < 2 ^ 63 -> built k a kind m -> m (us_r u) = (r, Err e) -> us_step u (us_put r u)
| U_poll k h w r p :
    us_hs u !! k = Some h -> is_many h = false -> poll_single w (handle k) (us_r u) = (r, Ok p) ->
    us_step u (match p.2 with None => us_wait k w r u | Some (res, _) => us_took k res true r u end)
| U_next k w r p :
    us_hs u !! k = Some KMany -> poll_next w (handle k) (us_r u) = (r, Ok p) ->
    us_step u (match p.2 with NPending => us_wait k w r u | NEnd => us_put r u | NSome res => us_took k res (op_done p.1) r u end)
| U_drop k h a r : us_hs u !! k = Some h -> drop_op a (handle k) (us_r u) = (r, Ok tt) -> us_step u (us_drop k r u)
| U_park work spin a r p : benign a -> park_pass work spin a (us_r u) = (r, Ok p) -> us_step u (us_put r u)
| U_reap r b : park_reap (us_r u) = (r, Ok b) -> us_step u (us_put r u)
| U_done l x l' res :
    r_kernel (us_r u) = l ++ x :: l' -> more res = false -> us_step u (us_post (en_key x) res (posted (l ++ l') (en_key x) res (us_r u)) u)
| U_more l x l' res :
    r_kernel (us_r u) = l ++ x :: l' -> more res = true -> multishot (en_op x) = true ->
    us_step u (us_post (en_key x) res (posted (l ++ x :: l') (en_key x) res (us_r u)) u)
| U_probe spin r id : add_park_probe spin (us_r u) = (r, Ok id) -> us_step u (us_put r u)
| U_unprobe id r : remove_park_probe id (us_r u) = (r, Ok tt) -> us_step u (us_put r u)
| U_register ok r i : register_buffer ok (us_r u) = (r, Ok i) -> us_step u (us_slots (us_bufs u ++ option_list i) r u)
| U_unregister l i l' r : us_bufs u = l ++ i :: l' -> unregister_buffer i (us_r u) = (r, Ok tt) -> us_step u (us_slots (l ++ l') r u)
| U_file ok fd r i : fixed_file_index ok fd (us_r u) = (r, Ok i) -> us_step u (us_put r u)
| U_reset r : reset_stats (us_r u) = (r, Ok tt) -> us_step u (us_put r u).

Definition us_init (n : nat) (fixed files : bool) : USys :=
  {| us_r := Reactor_init n fixed files; us_hs := ∅; us_mem := fun _ => KOne; us_log := fun _ => []; us_seen := fun _ => []; us_parked := ∅; us_bufs := [] |}.

Inductive ureached (n : nat) (fixed files : bool) : USys -> Prop :=
| ur_init : ureached n fixed files (us_init n fixed files)
| ur_step u u' : ureached n fixed files u -> uroom (us_r u) -> us_step u u' -> ureached n fixed files u'.

(** ** The tables and the probes *)

(** The slots of a table are free or handed out, once. *)
Definition table_ok (supported : bool) (free used : list Z) (size : Z) : Prop :=
  if supported then free ++ used ≡ₚ seqZ 0 size else free = [] /\ used = [].

Record side_ok (bufs : list Z) (r : Reactor) : Prop := {
  so_bufs : table_ok (r_fixed_supported r) (r_free_bufs r) bufs MAX_REG_BUFS;
  so_files : table_ok (r_files_supported r) (r_free_files r) (omap snd (r_file_cache r)) MAX_REG_FILES;
  so_cache : NoDup (map fst (r_file_cache r));
  so_probes : NoDup (map fst (r_probes r));
  so_next : Forall (fun p : Z * bool => p.1 < r_next_probe_id r) (r_probes r);
}.

Lemma side_eq bufs r r' : side r' = side r -> side_ok bufs r -> side_ok bufs r'.
Proof. unfold side. intros H []. injection H as H1 H2 H3 H4 H5 H6 H7. split; by rewrite ?H1, ?H2, ?H3, ?H4, ?H5, ?H6, ?H7. Qed.

Lemma table_take s free used size i l : table_ok s free used size -> reverse free = i :: l -> table_ok s (reverse l) (used ++ [i]) size.
Proof.
  intros Ht Hr. assert (free = reverse l ++ [i]) as -> by (rewrite <- (reverse_involutive free), Hr; by rewrite reverse_cons).
  unfold table_ok in *. destruct s; [|by destruct Ht as [Ht _]; apply app_eq_nil in Ht as [_ ?]]. rewrite <- Ht. solve_Permutation.
Qed.

Lemma table_put s free size l i l' : table_ok s free (l ++ i :: l') size -> table_ok s (free ++ [i]) (l ++ l') size.
Proof. unfold table_ok. destruct s; [intros <-; solve_Permutation|]. intros [_ H]. by apply app_eq_nil in H as [_ ?]. Qed.

Lemma reverse_back free (i : Z) l : reverse free = i :: l -> reverse l ++ [i] = free.
Proof. intros Hr. by rewrite <- reverse_cons, <- Hr, reverse_involutive. Qed.

Lemma register_buffer_ok ok bufs r r' i : side_ok bufs r -> register_buffer ok r = (r', Ok i) -> side_ok (bufs ++ option_list i) r'.
Proof.
  unfold register_buffer. intros Hs. destruct (reverse (r_free_bufs r)) as [|j l] eqn:Hr; [intros [= <- <-]; cbn; by rewrite app_nil_r|].
  destruct ok; intros [= <- <-]; cbn; [destruct Hs; split; try done; by eapply table_take|]. rewrite app_nil_r, (reverse_back _ _ _ Hr).
  eapply side_eq; [|exact Hs]. done.
Qed.

Lemma fixed_file_ok ok fd bufs r r' i : side_ok bufs r -> fixed_file_index ok fd r = (r', Ok i) ->
  side_ok bufs r' /\ find (fun c => c.1 =? fd) (r_file_cache r') = Some (fd, i).
Proof.
  intros Hs. unfold fixed_file_index. rewrite get_bind. destruct (find _ (r_file_cache r)) as [[fd' i']|] eqn:Hf.
  { intros [= <- <-]. split; [done|]. rewrite Hf. apply find_some in Hf as [_ Hf]. cbn in Hf. apply Z.eqb_eq in Hf as ->. done. }
  assert (fd ∉ map fst (r_file_cache r)) as Hn.
  { intros Hin. apply (proj1 (list_elem_of_fmap fst _ _)) in Hin as (c & -> & Hc). apply list_elem_of_In in Hc. pose proof (find_none _ _ Hf _ Hc) as H. cbn in H. lia. }
  assert (forall l : list (Z * option Z), find (fun c => c.1 =? fd) l = None -> forall j, find (fun c => c.1 =? fd) (l ++ [(fd, j)]) = Some (fd, j)) as Hfind.
  { induction l as [|c l IH]; cbn; [intros _ j; by rewrite Z.eqb_refl|]. destruct (c.1 =? fd); [done|apply IH]. }
  assert (forall j, NoDup (map fst (r_file_cache r ++ [(fd, j)]))) as Hnd.
  { intros j. rewrite map_app. apply list.NoDup_app. split; [apply Hs|]. split; [|repeat constructor; apply not_elem_of_nil]. intros x Hx Hx'. cbn in Hx'.
    apply list_elem_of_singleton in Hx' as ->. done. }
  unfold register_file, mbind, M_bind. destruct (reverse (r_free_files r)) as [|j l] eqn:Hr.
  { intros [= <- <-]. split; [|by apply Hfind]. destruct Hs. split; cbn; try done. rewrite omap_app. cbn. by rewrite app_nil_r. }
  destruct ok; intros [= <- <-]; (split; [|by apply Hfind]); destruct Hs; split; cbn; try done; rewrite omap_app; cbn; [by eapply table_take|].
  by rewrite app_nil_r, (reverse_back _ _ _ Hr).
Qed.

Lemma probe_ok spin bufs r r' id : side_ok bufs r -> add_park_probe spin r = (r', Ok id) -> side_ok bufs r'.
Proof.
  intros [] H. unfold add_park_probe in H. rewrite get_bind in H. unfold checked in H. destruct (decide _) as [Hin|]; [|done]. injection H as <- <-.
  split; cbn; try done.
  - rewrite map_app. apply list.NoDup_app. split; [done|]. split; [|repeat constructor; apply not_elem_of_nil]. intros x Hx Hx'. cbn in Hx'. apply list_elem_of_singleton in Hx' as ->.
    apply (proj1 (list_elem_of_fmap fst _ _)) in Hx as (p & Hp & Hin'). rewrite list.Forall_forall in so_next0. specialize (so_next0 p Hin'). cbn in so_next0. lia.
  - apply list.Forall_app. split; [|repeat constructor; cbn; lia]. eapply list.Forall_impl; [exact so_next0|]. cbn. lia.
Qed.

Lemma unprobe_ok id bufs r r' : side_ok bufs r -> remove_park_probe id r = (r', Ok tt) -> side_ok bufs r' /\ id ∉ map fst (r_probes r').
Proof.
  intros [] [= <-]. cbn. assert (id ∉ map fst (filter (fun p : Z * bool => p.1 <> id) (r_probes r))) as Hni.
  { intros Hin. apply (proj1 (list_elem_of_fmap fst _ _)) in Hin as (p & -> & Hp). apply list_elem_of_filter in Hp as [Hp _]. done. }
  split; [|done]. split; cbn; try done.
  - clear - so_probes0. induction (r_probes r) as [|p l IH]; [constructor|]. apply list.NoDup_cons in so_probes0 as [Hp Hl]. rewrite filter_cons.
    destruct (decide _); [|by apply IH]. apply list.NoDup_cons. split; [|by apply IH]. intros Hin. apply Hp. apply (proj1 (list_elem_of_fmap fst _ _)) in Hin as (q & -> & Hq).
    apply list_elem_of_filter in Hq as [_ Hq]. apply (proj2 (list_elem_of_fmap fst _ _)). by exists q.
  - apply list.Forall_forall. intros p Hp. apply list_elem_of_filter in Hp as [_ Hp]. rewrite list.Forall_forall in so_next0. by apply so_next0.
Qed.

(** ** The invariant *)

(** A poll that waits is registered, or was woken since. *)
Definition parked_ok (parked : gmap Z (nat * nat)) (r : Reactor) : Prop :=
  forall k w n, parked !! k = Some (w, n) ->
    (n <= length (r_woken r))%nat /\ (w ∈ drop n (r_woken r) \/ exists e, r_slab r !! k = Some e /\ oe_waker e = Some w).

Lemma parked_wakes p r r' : wakes r r' -> parked_ok p r -> parked_ok p r'.
Proof.
  intros (l & Hl & Hw) Hp k w n Hk. destruct (Hp k w n Hk) as [Hn H]. rewrite Hl, length_app. split; [lia|]. rewrite drop_app_le by done.
  destruct H as [H|(e & He & Hwe)]; [left; apply elem_of_app; by left|]. destruct (Hw k e w He Hwe) as [H|H]; [left; apply elem_of_app; by right|by right].
Qed.

Lemma parked_except k p r r' : r_woken r' = r_woken r -> (forall j, j <> k -> r_slab r' !! j = r_slab r !! j) -> parked_ok p r -> parked_ok (delete k p) r'.
Proof.
  intros Hw Hs Hp j w n Hj. apply lookup_delete_Some in Hj as [Hne Hj]. rewrite Hw, Hs by done. by apply Hp.
Qed.

Lemma parked_waits k w p r r' : polled k r r' -> waits k w r' -> parked_ok p r -> parked_ok (<[k := (w, length (r_woken r'))]> p) r'.
Proof.
  intros (Hw & _ & _ & Hs) (e & He & Hwe & _) Hp j v n. destruct (decide (j = k)) as [->|Hne].
  - rewrite lookup_insert_eq. intros [= <- <-]. split; [done|]. right. by exists e.
  - rewrite lookup_insert_ne by done. rewrite Hw, Hs by done. apply Hp.
Qed.

Definition uinv (u : USys) : Prop :=
  uok (us_hs u) (us_mem u) (us_log u) (us_seen u) (us_r u) /\ parked_ok (us_parked u) (us_r u) /\ side_ok (us_bufs u) (us_r u).

Lemma ends_run {A} (m : MU A) r r' x (Q : Reactor -> A -> Prop) R : ends m r Q R -> m r = (r', Ok x) -> Q r' x.
Proof. unfold ends. by intros H He; rewrite He in H. Qed.
Lemma ends_err {A} (m : MU A) r r' e (Q : Reactor -> A -> Prop) (R : Reactor -> IoError -> Prop) : ends m r Q R -> m r = (r', Err e) -> R r' e.
Proof. unfold ends. by intros H He; rewrite He in H. Qed.

Lemma us_init_ok n fixed files : uinv (us_init n fixed files).
Proof.
  split; [|split; [by intros k w m; cbn|]].
  - split; [|split; [constructor|exists 0; split; [repeat constructor; cbn; lia|cbn; lia]]]. split; cbn; try done; try constructor.
    + by intros ?%not_elem_of_nil.
    + by intros (e & ? & _).
  - assert (forall b : bool, table_ok b (if b then rev (seqZ 0 64) else []) [] 64) as Ht.
    { intros []; cbn [table_ok]; [|done]. rewrite app_nil_r. symmetry. apply Permutation_rev. }
    split; cbn; try constructor; apply Ht.
Qed.

Lemma uok_slab_keep hs mem log seen r r' : outs r' = outs r -> r_cq r' = r_cq r -> r_slab r' = r_slab r -> (exists b, within b (r_stats r')) ->
  uok hs mem log seen r -> uok hs mem log seen r'.
Proof. intros H1 H2 H3 H4 (Hc & Ha & _). split; [by rewrite H1, H2, H3|]. by rewrite H1. Qed.


Lemma us_submit_inv u k a kind m : uinv u -> uroom (us_r u) -> r_slab (us_r u) !! k = None -> 0 <= k < 2 ^ 63 -> built k a kind m ->
  ends m (us_r u) (fun r o => o = handle k /\ uinv (us_submit k kind r u)) (fun r _ => uinv (us_put r u)).
Proof.
  intros (Hu & Hp & Hs) Hroom Hk Hr Hb. destruct (built_submits k a kind m (us_r u) Hb) as [[e He]|(op & res & c & He & Hop)]; [unfold ends; by rewrite He|].
  pose proof (submit_ok k a op res c kind (us_r u) Hu Hroom Hk Hr Hop) as H. unfold ends in *. rewrite He. destruct (submit_classed _ _ _ _ _ _) as [r [o|e|]]; [| |done].
  - destruct H as (-> & H1 & H2 & H3 & H4). split; [done|]. split; [done|]. split; [|by eapply side_eq].
    eapply parked_except; [exact H3| |exact Hp]. intros j Hj. cbn. rewrite H2. by rewrite lookup_insert_ne.
  - destruct H as (H1 & H2 & H3 & H4). split; [done|]. split; [|by eapply side_eq]. eapply parked_wakes; [|exact Hp]. by apply wakes_refl.
Qed.

Lemma us_poll_inv u k h w : uinv u -> us_hs u !! k = Some h -> is_many h = false ->
  ends (poll_single w (handle k)) (us_r u)
    (fun r p => match p.2 with None => p.1 = handle k /\ waits k w r /\ uinv (us_wait k w r u)
       | Some (res, rs) => op_done p.1 = true /\ kind_res h rs /\ us_log u k = us_seen u k ++ [res] /\ uinv (us_took k res true r u) end) (fun _ _ => False).
Proof.
  intros (Hu & Hp & Hs) Hk Hm. eapply ends_mono; [by apply (poll_single_ok k h w (us_r u) Hu)| |done]. intros r [o [[res rs]|]]; cbn.
  - intros (H1 & -> & H3 & H4 & H5). split; [done|]. split; [done|]. split; [done|]. destruct H1 as (W & S & _ & L). split; [done|]. split; [|by eapply side_eq]. by eapply parked_except.
  - intros (H1 & -> & H3 & H4). split; [done|]. split; [done|]. split; [done|]. split; [by eapply parked_waits|]. destruct H1 as (_ & S & _). by eapply side_eq.
Qed.

Lemma us_next_inv u k w : uinv u -> us_hs u !! k = Some KMany ->
  ends (poll_next w (handle k)) (us_r u)
    (fun r p => match p.2 with NPending => p.1 = handle k /\ waits k w r /\ uinv (us_wait k w r u) | NEnd => False
       | NSome res => (exists l, us_log u k = us_seen u k ++ res :: l /\ (op_done p.1 = true -> l = [])) /\ p.1 = {| op_key := k; op_done := op_done p.1 |} /\
           uinv (us_took k res (op_done p.1) r u) end) (fun _ _ => False).
Proof.
  intros (Hu & Hp & Hs) Hk. eapply ends_mono; [by apply (poll_next_ok k w (us_r u) Hu)| |done]. intros r [o [| |res]]; cbn; [|tauto|].
  - intros (H1 & -> & H3 & H4). split; [done|]. split; [done|]. split; [done|]. split; [by eapply parked_waits|]. destruct H1 as (_ & S & _). by eapply side_eq.
  - intros (H1 & H). destruct H1 as (W & S & _ & L). assert (parked_ok (delete k (us_parked u)) r) as Hp' by (by eapply parked_except).
    assert (side_ok (us_bufs u) r) as Hs' by (by eapply side_eq). destruct (op_done o) eqn:Ho.
    + destruct H as (-> & H2 & H3). split; [by exists []|]. by split.
    + destruct H as (-> & (l & H2) & H3). split; [by exists l|]. by split.
Qed.

Lemma us_post_inv u l x l' kernel res : uinv u -> r_kernel (us_r u) = l ++ x :: l' ->
  (more res = false /\ kernel = l ++ l' \/ more res = true /\ multishot (en_op x) = true /\ kernel = l ++ x :: l') ->
  uinv (us_post (en_key x) res (posted kernel (en_key x) res (us_r u)) u).
Proof.
  intros ((Hc & Ha & Hb) & Hp & Hs) Hk Hm. split; [|split; [exact Hp|by eapply side_eq; [|exact Hs]]]. split; [|split; [|exact Hb]].
  - assert (core (x :: l ++ l' ++ r_sq (us_r u)) (r_cq (us_r u)) (r_slab (us_r u)) (us_hs u) (us_mem u) (us_log u) (us_seen u)) as Hc'.
    { eapply core_perm; [|exact Hc]. unfold outs. rewrite Hk. solve_Permutation. }
    destruct Hm as [[Hm ->]|(Hm & Hmu & ->)]; (eapply core_perm; [|first [exact (core_done x res Hc' Hm)|exact (core_post x res Hc' Hm Hmu)]]);
      unfold outs, posted; cbn; solve_Permutation.
  - change (aimed (us_hs u) (kernel ++ r_sq (us_r u))). unfold outs in Ha. rewrite Hk in Ha. destruct Hm as [[_ ->]|(_ & _ & ->)]; [|done].
    rewrite <- app_assoc in *. by eapply aimed_drop.
Qed.

Lemma us_step_ok u u' : uinv u -> uroom (us_r u) -> us_step u u' -> uinv u'.
Proof.
  intros Hi Hroom Hstep. pose proof Hi as (Hu & Hp & Hs). destruct Hstep as
    [k a kind m r o Hk Hr Hb He|k a kind m r e Hk Hr Hb He|k h w r p Hk Hm He|k w r p Hk He|k h a r Hk He|work spin a r p Hben He|r b He|
     l x l' res Hk Hm|l x l' res Hk Hm Hmu|spin r id He|id r He|ok r i He|l i l' r Hl He|ok fd r i He|r He].
  - exact (proj2 (ends_run _ _ _ _ _ _ (us_submit_inv u k a kind m Hi Hroom Hk Hr Hb) He)).
  - exact (ends_err _ _ _ _ _ _ (us_submit_inv u k a kind m Hi Hroom Hk Hr Hb) He).
  - pose proof (ends_run _ _ _ _ _ _ (us_poll_inv u k h w Hi Hk Hm) He) as H. cbv beta in H. destruct p as [o [[res rs]|]]; cbn in *; tauto.
  - pose proof (ends_run _ _ _ _ _ _ (us_next_inv u k w Hi Hk) He) as H. cbv beta in H. destruct p as [o [| |res]]; cbn in *; tauto.
  - pose proof (ends_run _ _ _ _ _ _ (orphan_ok a k h (us_r u) Hu Hroom Hk) He) as (H1 & H2 & H3 & H4). split; [done|]. split; [by eapply parked_except|by eapply side_eq].
  - pose proof (ends_run _ _ _ _ _ _ (park_pass_ok work spin a (us_r u) Hu Hroom Hben) He) as (H1 & H2 & H3 & _ & _). split; [done|]. split; [by eapply parked_wakes|by eapply side_eq].
  - assert (ends park_reap (us_r u) (fun r _ => uinv (us_put r u)) (fun _ _ => False)) as H; [|exact (ends_run _ _ _ _ _ _ H He)].
    apply ends_bind. eapply ends_mono; [apply (reap_routes _ Hu Hroom)| |done]. intros r1 n (_ & H1 & _ & H2 & _ & H3 & _). apply ends_ret. split; [done|]. split; [by eapply parked_wakes|by eapply side_eq].
  - apply (us_post_inv u l x l'); [done..|by left].
  - apply (us_post_inv u l x l'); [done..|by right].
  - split; [|split; [|by eapply probe_ok]]; unfold add_park_probe in He; rewrite get_bind in He; unfold checked in He; destruct (decide _); try done; by injection He as <- _.
  - split; [|split; [|by eapply unprobe_ok]]; by injection He as <-.
  - split; [|split; [|by eapply register_buffer_ok]]; unfold register_buffer in He; destruct (reverse _); try (by injection He as <- _); destruct ok; by injection He as <- _.
  - injection He as <-. split; [done|]. split; [done|]. destruct Hs. split; cbn; try done. apply table_put. by rewrite <- Hl.
  - assert (outs r = outs (us_r u) /\ r_cq r = r_cq (us_r u) /\ r_slab r = r_slab (us_r u) /\ r_stats r = r_stats (us_r u) /\ r_woken r = r_woken (us_r u)) as (H1 & H2 & H3 & H4 & H5).
    { unfold fixed_file_index in He. rewrite get_bind in He. destruct (find _ _) as [[? ?]|]; [by injection He as <- _|]. unfold register_file, mbind, M_bind in He.
      destruct (reverse _); [by injection He as <- _|]. destruct ok; by injection He as <- _. }
    split; [eapply uok_slab_keep; [done..| |exact Hu]; cbn; rewrite H4; by destruct Hu as (_ & _ & ?)|]. split; [|by eapply fixed_file_ok].
    eapply parked_wakes; [|exact Hp]. by apply wakes_refl.
  - injection He as <-. split; [|split; [exact Hp|by eapply side_eq; [|exact Hs]]]. apply (uok_slab_keep _ _ _ _ (us_r u)); [done..| |exact Hu]. exists 0. split; [repeat constructor; cbn; lia|cbn; lia].
Qed.

Lemma ureached_ok n fixed files u : ureached n fixed files u -> uinv u.
Proof. induction 1 as [|u u' _ IH Hroom Hs]; [apply us_init_ok|by eapply us_step_ok]. Qed.

(** ** Claims *)

(** C5. An operation in the submission ring or in the kernel has its entry in
    the slab, not ended, and the entry holds exactly the memory the caller gave
    when it submitted: the buffer, the message with its vectors, the value of the
    timer (none where the caller gave none, on the [raw] calls the memory stays the
    caller's).  This also holds after the future was dropped.  The operation names
    that memory by its address and length.  No two operations have the same key;
    and a request to cancel finds, of what was submitted before it, nothing a
    future still waits for: a key that was used again is not hit. *)
Theorem uring_memory_safe n fixed files u : ureached n fixed files u ->
  let r := us_r u in
  Forall (fun x => en_key x = IGNORE_USER_DATA \/
    exists e, r_slab r !! en_key x = Some e /\ oe_terminated e = false /\
      oe_resources e = given (us_mem u (en_key x)) /\ backed (en_op x) (given (us_mem u (en_key x)))) (outs r) /\
  NoDup (keys (outs r)) /\ aimed (us_hs u) (outs r).
Proof.
  intros Hr r. destruct (ureached_ok _ _ _ _ Hr) as ((Hc & Ha & _) & _). split; [|split; [|exact Ha]].
  - apply list.Forall_forall. intros x Hx. destruct (decide (en_key x = IGNORE_USER_DATA)) as [|Hi]; [by left|right].
    destruct (core_backed x Hc Hx Hi) as (e & He & Hm & Hb). exists e. split; [done|]. split; [|done].
    destruct (proj1 (c_live _ _ _ _ _ _ _ Hc (en_key x))) as (e' & He' & Ht); [|congruence]. apply elem_of_app. right. apply list_elem_of_filter. split; [done|].
    apply (proj2 (list_elem_of_fmap en_key _ _)). by exists x.
  - pose proof (c_nodup _ _ _ _ _ _ _ Hc) as Hn. apply list.NoDup_app in Hn. tauto.
Qed.

(** C6. What the kernel has posted for an operation is, in order, what its future
    has seen, what its entry holds and what is in the completion ring: each result
    is seen once.  The entry has the memory the operation was given.  A poll that waits
    and was not woken has nothing to take, and an entry that has ended has no
    completion coming. *)
Theorem uring_results_once n fixed files u k h : ureached n fixed files u -> us_hs u !! k = Some h ->
  let r := us_r u in
  exists e, r_slab r !! k = Some e /\ kind_res h (oe_resources e) /\ us_log u k = us_seen u k ++ results e ++ posts k (r_cq r) /\
    (forall w m, us_parked u !! k = Some (w, m) -> w ∉ drop m (r_woken r) -> results e = []) /\
    (oe_terminated e = true -> posts k (r_cq r) = [] /\ k ∉ keys (outs r)).
Proof.
  intros Hr Hk r. destruct (ureached_ok _ _ _ _ Hr) as (Hu & Hp & _). pose proof Hu as (Hc & _). destruct (c_handles _ _ _ _ _ _ _ Hc _ _ Hk) as [e He].
  pose proof (c_entry _ _ _ _ _ _ _ Hc _ _ He) as Hek. rewrite Hk in Hek. destruct Hek as (_ & E2 & _ & E4 & _). exists e. split; [done|]. split; [done|].
  split; [apply (c_log _ _ _ _ _ _ _ Hc); [done|by eexists]|]. split.
  - intros w m Hpk Hw. destruct (Hp k w m Hpk) as [_ [?|(e' & He' & Hwe)]]; [done|]. apply E4. congruence.
  - intros Ht. split; [by eapply ended_posts|]. intros Hin. destruct (proj1 (c_live _ _ _ _ _ _ _ Hc k)) as (e' & He' & Ht'); [|congruence].
    apply elem_of_app. by right.
Qed.

(** C16. A pass of [park] does not panic on what a wait may return.  When it
    returns, a waker was woken, a probe reported work, or no operation is left.
    A poll that waits for what is in the completion ring is woken. *)
Theorem uring_park_wakes n fixed files u work spin a : ureached n fixed files u -> uroom (us_r u) -> benign a ->
  exists r p, park_pass work spin a (us_r u) = (r, Ok p) /\
    (p = Return -> (length (r_woken (us_r u)) < length (r_woken r))%nat \/ worked work (us_r u) \/ pending_ops r = 0%nat) /\
    forall k w m, us_parked u !! k = Some (w, m) -> is_Some (us_hs u !! k) -> posts k (r_cq (us_r u)) <> [] -> w ∈ drop m (r_woken r).
Proof.
  intros Hr Hroom Hben. destruct (ureached_ok _ _ _ _ Hr) as (Hu & Hp & _). pose proof (park_pass_ok work spin a (us_r u) Hu Hroom Hben) as H.
  unfold ends in H. destruct (park_pass work spin a (us_r u)) as [r [p|?|]]; [|done..]. destruct H as (H1 & H2 & H3 & H4 & H5). exists r, p. split; [done|]. split.
  - intros Hp'. destruct (H5 Hp') as [?|[?|He]]; [tauto..|]. right; right. unfold pending_ops. by rewrite He, map_size_empty.
  - intros k w m Hk [h Hh] Hpo. destruct (parked_wakes _ _ _ H2 Hp k w m Hk) as [_ [?|(e & He & Hw)]]; [done|]. exfalso. apply Hpo.
    pose proof H1 as (Hc1 & _). pose proof Hu as (Hc & _). destruct (c_handles _ _ _ _ _ _ _ Hc _ _ Hh) as [e0 He0].
    pose proof (c_log _ _ _ _ _ _ _ Hc k e0 He0 ltac:(by eexists)) as L0. pose proof (c_log _ _ _ _ _ _ _ Hc1 k e He ltac:(by eexists)) as L1.
    pose proof (c_entry _ _ _ _ _ _ _ Hc1 _ _ He) as Hek. rewrite Hh in Hek. destruct Hek as (_ & _ & _ & E4 & _). rewrite (E4 ltac:(congruence)), H4, L0 in L1.
    cbn in L1. apply (app_inv_head (us_seen u k) _ []) in L1. by apply app_eq_nil in L1 as [_ ?].
Qed.

(** A slot of the buffer table is free or handed out to one holder, distinct
    descriptors have distinct slots of the file table, indices are within the
    tables, and a descriptor keeps its index; probes have distinct identifiers. *)
Theorem uring_tables_exclusive n fixed files u : ureached n fixed files u ->
  let r := us_r u in
  NoDup (r_free_bufs r ++ us_bufs u) /\ Forall (fun i => 0 <= i < MAX_REG_BUFS) (us_bufs u) /\
  NoDup (map fst (r_file_cache r)) /\ NoDup (r_free_files r ++ omap snd (r_file_cache r)) /\
  Forall (fun i => 0 <= i < MAX_REG_FILES) (omap snd (r_file_cache r)) /\ NoDup (map fst (r_probes r)) /\
  forall ok fd r' i, fixed_file_index ok fd r = (r', Ok i) -> forall ok', fixed_file_index ok' fd r' = (r', Ok i).
Proof.
  intros Hr r. destruct (ureached_ok _ _ _ _ Hr) as (_ & _ & Hs). fold r in Hs.
  assert (forall s free used size, table_ok s free used size -> NoDup (free ++ used) /\ Forall (fun i => 0 <= i < size) used) as Ht.
  { intros [] free used size; cbn; [|intros [-> ->]; split; constructor]. intros Hp. split; [rewrite Hp; apply NoDup_seqZ|].
    apply list.Forall_forall. intros i Hi. assert (i ∈ free ++ used) as Hin by (apply elem_of_app; by right). rewrite Hp in Hin. apply elem_of_seqZ in Hin. lia. }
  destruct (Ht _ _ _ _ (so_bufs _ _ Hs)) as [H1 H2], (Ht _ _ _ _ (so_files _ _ Hs)) as [H3 H4]. split; [done|]. split; [done|]. split; [apply Hs|]. split; [done|]. split; [done|].
  split; [apply Hs|]. intros ok fd r' i Hi ok'. destruct (fixed_file_ok _ _ _ _ _ _ Hs Hi) as [_ Hf]. unfold fixed_file_index. rewrite get_bind. by rewrite Hf.
Qed.

(** ** Futures *)

(** An [i32], and not the one whose negation overflows (a notification may have
    it). *)
Definition plain (c : CqeResult) : Prop := - 2 ^ 31 < cq_result c < 2 ^ 31.

Lemma io_value_ok c r : plain c -> io_value id c r = (r, Ok (io c)).
Proof.
  unfold io_value, io, plain. intros Hc. destruct (cq_result c <? 0); [|done]. by rewrite (proj2 (Z.eqb_neq _ _)) by lia.
Qed.

(** A poll of a future with one result; [g] converts it. *)
Lemma single_ok {A} u k h w (g : Op * option (CqeResult * Resources) -> MU (Op * option A)) (Q : CqeResult -> A -> Prop) :
  uinv u -> us_hs u !! k = Some h -> is_many h = false -> Forall plain (us_log u k) ->
  (forall o r, g (o, None) r = (r, Ok (o, None))) ->
  (forall o c rs r, plain c -> kind_res h rs -> exists v, g (o, Some (c, rs)) r = (r, Ok (o, Some v)) /\ Q c v) ->
  exists r o x, (poll_single w (handle k) ≫= g) (us_r u) = (r, Ok (o, x)) /\
    match x with
    | None => o = handle k /\ waits k w r
    | Some v => op_done o = true /\ exists c, us_log u k = us_seen u k ++ [c] /\ Q c v
    end.
Proof.
  intros Hi Hk Hm Hpl Hn Hf. pose proof (us_poll_inv u k h w Hi Hk Hm) as H. unfold ends in H. unfold mbind, M_bind.
  destruct (poll_single w (handle k) (us_r u)) as [r [[o [[c rs]|]]|?|]]; cbn in H; [| |done..].
  - destruct H as (H1 & H2 & H3 & _). assert (plain c) as Hc by (rewrite H3 in Hpl; apply list.Forall_app in Hpl as [_ Hpl]; by apply list.Forall_cons in Hpl as [? _]).
    destruct (Hf o c rs r Hc H2) as (v & Hv & HQ). exists r, o, (Some v). split; [done|]. split; [done|by exists c].
  - destruct H as (-> & H & _). by exists r, (handle k), None.
Qed.

(** And of a stream. *)
Lemma stream_ok {A} u k w (g : Op * Next -> MU (Op * option A)) (Q : CqeResult -> A -> Prop) :
  uinv u -> us_hs u !! k = Some KMany -> Forall plain (us_log u k) ->
  (forall o r, g (o, NPending) r = (r, Ok (o, None))) ->
  (forall o c r, plain c -> exists v, g (o, NSome c) r = (r, Ok (o, Some v)) /\ Q c v) ->
  exists r o x, (poll_next w (handle k) ≫= g) (us_r u) = (r, Ok (o, x)) /\
    match x with
    | None => o = handle k /\ waits k w r
    | Some v => exists c l, us_log u k = us_seen u k ++ c :: l /\ Q c v /\ (op_done o = true -> l = [])
    end.
Proof.
  intros Hi Hk Hpl Hn Hf. pose proof (us_next_inv u k w Hi Hk) as H. unfold ends in H. unfold mbind, M_bind.
  destruct (poll_next w (handle k) (us_r u)) as [r [[o [| |c]]|?|]]; cbn in H; [|done| |done..].
  - destruct H as (-> & H & _). by exists r, (handle k), None.
  - destruct H as ((l & Hl & Hd) & _ & _). assert (plain c) as Hc by (rewrite Hl in Hpl; apply list.Forall_app in Hpl as [_ Hpl]; by apply list.Forall_cons in Hpl as [? _]).
    destruct (Hf o c r Hc) as (v & Hv & HQ). exists r, o, (Some v). split; [done|]. by exists c, l.
Qed.

(** What a completion says to the caller: its error or its value; the chunk of a
    receiving stream ([None]: the stream has ended); the end of a timer. *)
Definition value_of (c : CqeResult) : res IoError Z := if cq_result c <? 0 then Err (OsError (- cq_result c)) else Ok (cq_result c).
Definition chunk_of (c : CqeResult) : option (res IoError RecvChunk) :=
  if cq_result c <? 0 then Some (Err (OsError (- cq_result c)))
  else if cq_result c =? 0 then None
  else if Z.testbit (cq_flags c) 0
    then Some (Ok {| rc_bid := Z.shiftr (cq_flags c) 16; rc_len := cq_result c; rc_more := Z.testbit (cq_flags c) 1; rc_buf_more := Z.testbit (cq_flags c) 4 |})
    else Some (Err NoBuffer).
Definition timer_of (c : CqeResult) : res IoError unit :=
  if bool_decide (cq_result c = 0 \/ cq_result c = -62) then Ok tt else Err (OsError (- cq_result c)).

Lemma io_plain c : plain c -> io c = value_of c.
Proof.
  unfold io, value_of, plain. intros Hc. destruct (Z.ltb_spec (cq_result c) 0); [by rewrite (proj2 (Z.eqb_neq _ _)) by lia|].
  f_equal. unfold wrap. apply Z.mod_small. lia.
Qed.

Lemma recv_chunk o c (r : Reactor) : plain c ->
  (match io c with
    | Ok len => if len =? 0 then mret (o, Some None) else match buffer_select (cq_flags c) with
        | Some bid => mret (o, Some (Some (Ok {| rc_bid := bid; rc_len := len; rc_more := more c; rc_buf_more := buffer_more (cq_flags c) |})))
        | None => mret (o, Some (Some (Err NoBuffer))) end
    | Err e => mret (o, Some (Some (Err e))) | Panic => panic end : MU (Op * option (option (res IoError RecvChunk)))) r = (r, Ok (o, Some (chunk_of c))).
Proof.
  intros Hc. rewrite io_plain by done. unfold chunk_of, value_of, buffer_select, buffer_more. destruct (_ <? 0); [done|]. destruct (_ =? 0); [done|].
  by destruct (Z.testbit _ 0).
Qed.

(** C18. The futures of operations: a poll does not panic; it waits, with its
    waker registered, or gives the last result the kernel posted, as the value or
    the error of the call, with the buffers the operation was given; a timer that
    expired is no error.  A stream gives the results in order, and does not end
    before the last; a receiving stream gives for each the chunk with the buffer,
    the length and the flags of the completion, the error it carries, an error
    when it names no buffer, or the end of the stream. *)
Theorem uring_futures n fixed files u k h w : ureached n fixed files u -> us_hs u !! k = Some h -> Forall plain (us_log u k) ->
  let r := us_r u in
  match h with
  | KBuf b => exists r' o x, BufOp_poll w (handle k) r = (r', Ok (o, x)) /\
      match x with None => o = handle k /\ waits k w r' | Some v => op_done o = true /\ exists c, us_log u k = us_seen u k ++ [c] /\ v = (value_of c, b) end
  | KMsg m => exists r' o x, SendVectored_poll w (handle k) r = (r', Ok (o, x)) /\
      match x with None => o = handle k /\ waits k w r' | Some v => op_done o = true /\ exists c, us_log u k = us_seen u k ++ [c] /\ v = (value_of c, ms_bufs m) end
  | KTime _ _ _ => exists r' o x, Sleep_poll w (handle k) r = (r', Ok (o, x)) /\
      match x with None => o = handle k /\ waits k w r' | Some v => op_done o = true /\ exists c, us_log u k = us_seen u k ++ [c] /\ v = timer_of c end
  | KOne => exists r' o x, RawOp_poll w (handle k) r = (r', Ok (o, x)) /\ Accept_poll w (handle k) r = (r', Ok (o, x)) /\
      match x with None => o = handle k /\ waits k w r' | Some v => op_done o = true /\ exists c, us_log u k = us_seen u k ++ [c] /\ v = value_of c end
  | KMany =>
      (exists r' o x, multi_next w (handle k) r = (r', Ok (o, x)) /\
        match x with None => o = handle k /\ waits k w r'
        | Some y => exists c l, us_log u k = us_seen u k ++ c :: l /\ y = Some (value_of c) /\ (op_done o = true -> l = []) end) /\
      (exists r' o x, sent_poll w (handle k) r = (r', Ok (o, x)) /\
        match x with None => o = handle k /\ waits k w r'
        | Some y => exists c l, us_log u k = us_seen u k ++ c :: l /\ y = value_of c /\ (op_done o = true -> l = []) end) /\
      exists r' o x, recv_next w (handle k) r = (r', Ok (o, x)) /\
        match x with None => o = handle k /\ waits k w r'
        | Some y => exists c l, us_log u k = us_seen u k ++ c :: l /\ y = chunk_of c /\ (op_done o = true -> l = []) end
  end.
Proof.
  intros Hr Hk Hpl r. pose proof (ureached_ok _ _ _ _ Hr) as Hi.
  assert (forall c r', plain c -> io_value id c r' = (r', Ok (value_of c))) as Hv by (intros c r' Hc; by rewrite io_value_ok, io_plain).
  destruct h as [b|m|p secs nanos| |].
  - apply (single_ok u k (KBuf b) w _ (fun c v => v = (value_of c, b)) Hi Hk eq_refl Hpl); [done|]. intros o c rs r' Hc ->. eexists. split; [|reflexivity].
    by rewrite (bind_ok _ _ _ _ _ (Hv c r' Hc)).
  - apply (single_ok u k (KMsg m) w _ (fun c v => v = (value_of c, ms_bufs m)) Hi Hk eq_refl Hpl); [done|]. intros o c rs r' Hc ->. eexists. split; [|reflexivity].
    by rewrite (bind_ok _ _ _ _ _ (Hv c r' Hc)).
  - apply (single_ok u k (KTime p secs nanos) w _ (fun c v => v = timer_of c) Hi Hk eq_refl Hpl); [done|].
    intros o c rs r' Hc _. exists (timer_of c). split; [|done]. cbv zeta. unfold timer_of. change (- ETIME) with (-62).
    destruct (Z.eqb_spec (cq_result c) 0); [by rewrite bool_decide_true by lia|]. destruct (Z.eqb_spec (cq_result c) (-62)); [by rewrite bool_decide_true by lia|].
    cbn [orb]. rewrite (proj2 (Z.eqb_neq _ _)) by (unfold plain in Hc; lia). by rewrite bool_decide_false by lia.
  - destruct (single_ok u k KOne w (fun '(o, x) => match x with None => mret (o, None) | Some (result, _) => v ← io_value id result; mret (o, Some v) end)
      (fun c v => v = value_of c) Hi Hk eq_refl Hpl) as (r' & o & x & Hx & HQ); [done| |by exists r', o, x]. intros o c rs r' Hc _. eexists. split; [|reflexivity].
    by rewrite (bind_ok _ _ _ _ _ (Hv c r' Hc)).
  - split; [|split].
    + apply (stream_ok u k w _ (fun c v => v = Some (value_of c)) Hi Hk Hpl); [done|]. intros o c r' Hc. eexists. split; [|reflexivity].
      by rewrite (bind_ok _ _ _ _ _ (Hv c r' Hc)).
    + apply (stream_ok u k w _ (fun c v => v = value_of c) Hi Hk Hpl); [done|]. intros o c r' Hc. eexists. split; [|reflexivity].
      by rewrite (bind_ok _ _ _ _ _ (Hv c r' Hc)).
    + apply (stream_ok u k w _ (fun c v => v = chunk_of c) Hi Hk Hpl); [done|]. intros o c r' Hc. rewrite (bind_ok _ _ _ _ _ (io_value_ok c r' Hc)).
      eexists. split; [by apply recv_chunk|done].
Qed.

(** Whether a notification says the data was copied. *)
Definition copied_bit (c : CqeResult) : bool := negb (Z.land (wrap 32 (cq_result c)) NOTIF_ZC_COPIED =? 0).

Lemma notif_ok k w fuel : forall u copied e, uinv u -> us_hs u !! k = Some KMany -> r_slab (us_r u) !! k = Some e -> (length (results e) + 2 <= fuel)%nat ->
  exists r o x, notif_loop fuel w (handle k) copied (us_r u) = (r, Ok (o, x)) /\
    match x with None => o = handle k /\ waits k w r | Some b => op_done o = true /\ exists c l, us_log u k = l ++ [c] /\ b = copied_bit c end.
Proof.
  induction fuel as [|fuel IH]; [lia|]. intros u copied e Hi Hk He Hf. cbn [notif_loop]. unfold mbind, M_bind at 1.
  pose proof (us_next_inv u k w Hi Hk) as H. pose proof (poll_next_ok k w (us_r u) (proj1 Hi) Hk) as H0. unfold ends in H, H0. cbv zeta in H0. fold (handle k) in H0.
  destruct (poll_next w (handle k) (us_r u)) as [r [[o [| |c]]|?|]]; cbn in H, H0; [|done| |done..].
  - destruct H as (-> & H & _). by exists r, (handle k), None.
  - destruct H0 as ((_ & _ & Hq & _) & _). destruct H as ((l & Hl & Hd) & Ho & Hi'). destruct o as [k' [|]]; cbn in Ho, Hd; injection Ho as ->.
    + rewrite (Hd eq_refl) in Hl. destruct fuel as [|fuel]; [lia|]. cbn [notif_loop]. unfold mbind, M_bind. cbn.
      eexists _, _, (Some _). split; [reflexivity|]. split; [done|]. by exists c, (us_seen u k).
    + cbn [us_took us_r us_hs us_log op_done] in Hi'. pose proof (c_handles _ _ _ _ _ _ _ (proj1 (proj1 Hi')) k KMany Hk) as [e' He']. cbn in He'.
      destruct (IH (us_took k c false r u) (copied_bit c) e' Hi' Hk He') as (r' & o' & x & Hx & HQ); [|by exists r', o', x].
      pose proof (c_log _ _ _ _ _ _ _ (proj1 (proj1 Hi)) k e He ltac:(by eexists)) as L0. pose proof (c_log _ _ _ _ _ _ _ (proj1 (proj1 Hi')) k e' He' ltac:(by eexists)) as L1.
      cbn in L1. injection Hq as _ Hq _. rewrite Hq, upd_same, L0, <- app_assoc in L1. apply app_inv_head in L1. rewrite app_assoc in L1. apply app_inv_tail in L1.
      rewrite L1 in Hf. cbn in Hf. lia.
Qed.

(** A notification: the poll takes what has come (its fuel is enough), and ends
    with what the last completion says. *)
Theorem uring_zc_notif n fixed files u k w : ureached n fixed files u -> us_hs u !! k = Some KMany ->
  exists r o x, ZcNotif_poll w (handle k) (us_r u) = (r, Ok (o, x)) /\
    match x with None => o = handle k /\ waits k w r | Some b => op_done o = true /\ exists c l, us_log u k = l ++ [c] /\ b = copied_bit c end.
Proof.
  intros Hr Hk. pose proof (ureached_ok _ _ _ _ Hr) as Hi. destruct (c_handles _ _ _ _ _ _ _ (proj1 (proj1 Hi)) _ _ Hk) as [e He].
  unfold ZcNotif_poll. rewrite get_bind. cbn [handle op_key]. rewrite He. apply (notif_ok k w _ u false e Hi Hk He). unfold results. lia.
Qed.

(** ** The end of a reactor *)

(** [Drop], from a reactor no future holds: its rounds (counted), and the
    kernel. *)
Inductive crun (u : USys) : nat -> Reactor -> (Z -> list CqeResult) -> Closing -> Prop :=
| cr_start : us_hs u = ∅ -> crun u 0 (us_r u) (us_log u) (Rounds DROP_ROUNDS)
| cr_round i r log c a r' c' : crun u i r log c -> uroom r -> drop_round a c r = (r', Ok c') -> crun u (S i) r' log c'
| cr_done i r log c l x l' res :
    crun u i r log c -> r_kernel r = l ++ x :: l' -> more res = false ->
    crun u i (posted (l ++ l') (en_key x) res r) (upd (en_key x) (log (en_key x) ++ [res]) log) c
| cr_more i r log c l x l' res :
    crun u i r log c -> r_kernel r = l ++ x :: l' -> more res = true -> multishot (en_op x) = true ->
    crun u i (posted (l ++ x :: l') (en_key x) res r) (upd (en_key x) (log (en_key x) ++ [res]) log) c.

(** What the process has not freed. *)
Definition kept (r : Reactor) (c : Closing) : gmap Z OpEntry := match c with Leaked rest => rest | _ => r_slab r end.

Definition clock (i : nat) (c : Closing) : Prop :=
  match c with Rounds n => (i + 2 * n = 2 * DROP_ROUNDS)%nat | Waiting n => (i + 2 * n + 1 = 2 * DROP_ROUNDS)%nat | _ => True end.

Record cinv (mem : Z -> HKind) (seen : Z -> list CqeResult) (i : nat) (r : Reactor) (log : Z -> list CqeResult) (c : Closing) : Prop := {
  ci_core : core (outs r) (r_cq r) (kept r c) ∅ mem log seen;
  ci_stats : exists b, within b (r_stats r);
  ci_freed : c = Freed -> r_slab r = ∅;
  ci_clock : clock i c;
}.

Lemma aimed_none l : aimed ∅ l.
Proof. induction l as [|x l IH]; constructor; [|done]. apply list.Forall_true. intros y. unfold aim. by destruct (en_op y). Qed.

Lemma drop_round_ok mem seen i r log c a : cinv mem seen i r log c -> uroom r ->
  ends (drop_round a c) r (fun r' c' => cinv mem seen (S i) r' log c') (fun _ _ => False).
Proof.
  intros [Hc Hb Hf Ht] Hroom. destruct c as [n|n| |rest]; cbn [drop_round kept] in *.
  - assert (uok ∅ mem log seen r) as Hu by (split; [done|]; split; [apply aimed_none|done]). pose proof (room_within _ _ _ _ _ Hu Hroom) as Hw.
    apply ends_get. destruct (bool_decide_reflect (r_slab r = ∅)) as [He|He]; [apply ends_ret; by split|]. destruct n as [|n].
    + eapply ends_step; [reflexivity|]. apply ends_ret. by split.
    + apply ends_bind. eapply ends_mono; [apply attempt_ok, (enter_ok a _ r Hw)| |done]. intros r1 x Hx. apply ends_ret.
      assert (moved [] (2 ^ 61) r r1) as Hm by (destruct x; [done|by destruct Hx]). split; [by eapply moved_core|eexists; exact (mv_stats Hm)|done|cbn in *; lia].
  - assert (uok ∅ mem log seen r) as Hu by (split; [done|]; split; [apply aimed_none|done]). apply ends_bind. eapply ends_mono; [apply (reap_routes r Hu Hroom)| |done].
    intros r1 m (_ & (Hc1 & _ & Hb1) & _). apply ends_ret. split; [done|done|done|cbn in *; lia].
  - apply ends_ret. by split.
  - apply ends_ret. by split.
Qed.

Lemma crun_ok u i r log c : uinv u -> crun u i r log c -> cinv (us_mem u) (us_seen u) i r log c.
Proof.
  intros ((Hc & _ & Hb) & _). induction 1 as [Hh|i r log c a r' c' _ IH Hroom He|i r log c l x l' res _ IH Hk Hm|i r log c l x l' res _ IH Hk Hm Hmu].
  - rewrite Hh in Hc. by split.
  - exact (ends_run _ _ _ _ _ _ (drop_round_ok _ _ _ _ _ _ a IH Hroom) He).
  - destruct IH as [Hc0 Hb0 Hf Ht]. split; [|done..]. assert (core (x :: l ++ l' ++ r_sq r) (r_cq r) (kept r c) ∅ (us_mem u) log (us_seen u)) as Hc'
      by (eapply core_perm; [|exact Hc0]; unfold outs; rewrite Hk; solve_Permutation).
    eapply core_perm; [|exact (core_done x res Hc' Hm)]. unfold outs, posted. cbn. solve_Permutation.
  - destruct IH as [Hc0 Hb0 Hf Ht]. split; [|done..]. assert (core (x :: l ++ l' ++ r_sq r) (r_cq r) (kept r c) ∅ (us_mem u) log (us_seen u)) as Hc'
      by (eapply core_perm; [|exact Hc0]; unfold outs; rewrite Hk; solve_Permutation).
    eapply core_perm; [|exact (core_post x res Hc' Hm Hmu)]. unfold outs, posted. cbn. solve_Permutation.
Qed.

(** C17. The end of a reactor: a round does not panic, after 500 rounds (two steps
    each) and the check that follows nothing is done any more, and at any time,
    afterwards too, the memory that was given to what the kernel still holds is in
    the slab or was leaked, whole; when everything was freed, the kernel holds
    nothing. *)
Theorem uring_close_safe n fixed files u i r log c : ureached n fixed files u -> crun u i r log c ->
  Forall (fun x => en_key x = IGNORE_USER_DATA \/ exists e, kept r c !! en_key x = Some e /\
    oe_resources e = given (us_mem u (en_key x)) /\ backed (en_op x) (given (us_mem u (en_key x)))) (outs r) /\
  (c = Freed -> keys (outs r) = []) /\
  ((2 * DROP_ROUNDS < i)%nat -> c = Freed \/ exists rest, c = Leaked rest) /\
  forall a, uroom r -> exists r' c', drop_round a c r = (r', Ok c').
Proof.
  intros Hr Hrun. pose proof (crun_ok u i r log c (ureached_ok _ _ _ _ Hr) Hrun) as Hci. pose proof Hci as [Hc _ Hf Ht]. split; [|split; [|split]].
  - apply list.Forall_forall. intros x Hx. destruct (decide (en_key x = IGNORE_USER_DATA)) as [|Hi]; [by left|right]. exact (core_backed x Hc Hx Hi).
  - intros ->. destruct (keys (outs r)) as [|k ks] eqn:Hks; [done|]. destruct (proj1 (c_live _ _ _ _ _ _ _ Hc k)) as (e & He & _); [apply elem_of_app; right; rewrite Hks; by left|].
    cbn in He. by rewrite (Hf eq_refl) in He.
  - intros Hi. destruct c as [m|m| |rest]; unfold clock in Ht; [lia|lia|by left|right; by eexists].
  - intros a Hroom. pose proof (drop_round_ok _ _ _ _ _ _ a Hci Hroom) as H. unfold ends in H. destruct (drop_round a c r) as [r' [c'|?|]]; [by eexists _, _|done..].
Qed.

(** [drain] returns when nothing is in flight, or when it has no timer. *)
Theorem drain_confirms n fixed files u k a box r' : ureached n fixed files u -> drain_pass k a box (us_r u) = (r', Ok DrReturn) ->
  keys (outs (us_r u)) = [] \/ exists e, sleep k a box 0 500000 (us_r u) = (r', Err e).
Proof.
  intros Hr. destruct (ureached_ok _ _ _ _ Hr) as ((Hc & _) & _). unfold drain_pass. destruct (Nat.eqb_spec (pending_ops (us_r u)) 0) as [Hz|_].
  - intros _. left. destruct (keys (outs (us_r u))) as [|j ks] eqn:Hks; [done|].
    destruct (proj1 (c_live _ _ _ _ _ _ _ Hc j)) as (e & He & _); [apply elem_of_app; right; rewrite Hks; by left|].
    apply map_size_empty_iff in Hz. by rewrite Hz in He.
  - destruct (sleep _ _ _ _ _ _) as [r [o|e|]]; [done| |done]. intros [= <-]. right. by exists e.
Qed.

(** ** A reactor at work *)

#[export] Instance uroom_dec r : Decision (uroom r) := and_dec _ _.
#[export] Instance aim_dec hs x y : Decision (aim hs x y).
Proof. unfold aim. destruct (en_op y); apply _. Defined.

Definition demo_buf : Buf := {| b_addr := 0x1000; b_len := 512 |}.
Definition took_all (n : nat) : Enter := {| ent_errno := None; ent_taken := n |}.
Definition none_taken : Enter := {| ent_errno := Some EAGAIN; ent_taken := 0 |}.
Definition demo_res : CqeResult := {| cq_result := 512; cq_flags := 0 |}.
Definition quiet : Z -> bool := fun _ => false.

(** A buffer is received: submitted, polled, taken by the kernel, completed. *)
Definition demo_u0 : USys := us_init 1 true true.
Definition demo_u1 : USys := us_submit 0 (KBuf demo_buf) (recv 0 (took_all 0) 3 demo_buf (us_r demo_u0)).1 demo_u0.
Definition demo_u2 : USys := us_wait 0 7 (poll_single 7 (handle 0) (us_r demo_u1)).1 demo_u1.
Definition demo_u3 : USys := us_put (park_pass quiet quiet (took_all 1) (us_r demo_u2)).1 demo_u2.
Definition demo_u4 : USys := us_post 0 demo_res (posted [] 0 demo_res (us_r demo_u3)) demo_u3.
(** Or its future is dropped. *)
Definition demo_u5 : USys := us_drop 0 (drop_op none_taken (handle 0) (us_r demo_u3)).1 demo_u3.

Lemma demo_has_room : uroom (us_r demo_u0) /\ uroom (us_r demo_u1) /\ uroom (us_r demo_u2) /\ uroom (us_r demo_u3) /\ uroom (us_r demo_u4) /\ uroom (us_r demo_u5).
Proof. repeat split; apply (bool_decide_unpack _); by vm_compute. Qed.

Lemma demo_u3_reached : ureached 1 true true demo_u3.
Proof.
  destruct demo_has_room as (R0 & R1 & R2 & _). assert (ureached 1 true true demo_u1) as H1.
  { eapply ur_step; [apply ur_init|exact R0|]. eapply (U_submit _ 0 (took_all 0) _ _ _ (handle 0)); [done|lia|apply B_recv|]. apply ran. by vm_compute. }
  assert (ureached 1 true true demo_u2) as H2.
  { eapply ur_step; [exact H1|exact R1|]. refine (U_poll demo_u1 0 (KBuf demo_buf) 7 _ (handle 0, None) _ _ _); [by vm_compute|done|]. apply ran. by vm_compute. }
  eapply ur_step; [exact H2|exact R2|]. eapply (U_park _ quiet quiet (took_all 1) _ Waited); [done|]. apply ran. by vm_compute.
Qed.

Lemma demo_u4_reached : ureached 1 true true demo_u4.
Proof.
  eapply ur_step; [exact demo_u3_reached|apply demo_has_room|]. refine (U_done demo_u3 [] {| en_op := SqRecv 3 0x1000 512; en_key := 0 |} [] demo_res _ _); by vm_compute.
Qed.

Lemma demo_u5_reached : ureached 1 true true demo_u5.
Proof.
  eapply ur_step; [exact demo_u3_reached|apply demo_has_room|]. eapply (U_drop _ 0 (KBuf demo_buf) none_taken); [by vm_compute|]. apply ran. by vm_compute.
Qed.

(** The future was dropped, and the kernel still has the operation. *)
Definition demo_entry : Entry := {| en_op := SqRecv 3 0x1000 512; en_key := 0 |}.

Lemma demo_u5_facts : us_hs demo_u5 !! 0 = None /\ r_kernel (us_r demo_u5) = [demo_entry] /\ given (us_mem demo_u5 (en_key demo_entry)) = ResBuffer demo_buf.
Proof. split; [by vm_compute|]. split; by vm_compute. Qed.

Lemma demo_u5_out : demo_entry ∈ outs (us_r demo_u5).
Proof. destruct demo_u5_facts as (_ & H & _). unfold outs. rewrite H. by left. Qed.

Lemma uring_memory_safe_witness : us_hs demo_u5 !! 0 = None /\ r_kernel (us_r demo_u5) = [demo_entry] /\
  exists e, r_slab (us_r demo_u5) !! en_key demo_entry = Some e /\ oe_resources e = ResBuffer demo_buf.
Proof.
  destruct demo_u5_facts as (F1 & F2 & F3). split; [exact F1|]. split; [exact F2|].
  destruct (uring_memory_safe 1 true true demo_u5 demo_u5_reached) as [H _]. rewrite list.Forall_forall in H.
  destruct (H demo_entry demo_u5_out) as [H0|(e & He & _ & Hm & _)]; [discriminate H0|]. exists e. split; [exact He|]. rewrite <- F3. exact Hm.
Defined.

Lemma uring_results_once_witness : us_hs demo_u4 !! 0 = Some (KBuf demo_buf) /\ posts 0 (r_cq (us_r demo_u4)) = [demo_res] /\
  exists e, r_slab (us_r demo_u4) !! 0 = Some e /\ oe_resources e = ResBuffer demo_buf.
Proof.
  assert (us_hs demo_u4 !! 0 = Some (KBuf demo_buf)) as Hk by (by vm_compute). split; [exact Hk|]. split; [by vm_compute|].
  destruct (uring_results_once 1 true true demo_u4 0 (KBuf demo_buf) demo_u4_reached Hk) as (e & H1 & H2 & _). exists e. split; [exact H1|exact H2].
Defined.

Lemma uring_park_wakes_witness : exists r p, park_pass quiet quiet (took_all 0) (us_r demo_u4) = (r, Ok p) /\ 7%nat ∈ drop 0 (r_woken r).
Proof.
  destruct (uring_park_wakes 1 true true demo_u4 quiet quiet (took_all 0) demo_u4_reached) as (r & p & H1 & _ & H3); [apply demo_has_room|exact I|].
  exists r, p. split; [exact H1|]. apply (H3 0 7%nat 0%nat); [by vm_compute|exists (KBuf demo_buf); by vm_compute|]. by vm_compute.
Defined.

Lemma uring_tables_exclusive_witness : ureached 1 true true demo_u4 /\ NoDup (r_free_bufs (us_r demo_u4) ++ us_bufs demo_u4).
Proof. split; [exact demo_u4_reached|]. apply (uring_tables_exclusive 1 true true demo_u4 demo_u4_reached). Defined.

Lemma uring_futures_witness : Forall plain (us_log demo_u4 0) /\ exists r' o x, BufOp_poll 8 (handle 0) (us_r demo_u4) = (r', Ok (o, x)).
Proof.
  assert (Forall plain (us_log demo_u4 0)) as Hp by (by repeat constructor). split; [exact Hp|].
  destruct (uring_futures 1 true true demo_u4 0 (KBuf demo_buf) 8 demo_u4_reached ltac:(by vm_compute) Hp) as (r & o & x & H & _). by exists r, o, x.
Defined.

Lemma uring_close_safe_witness : us_hs demo_u5 = ∅ /\ (exists e, r_slab (us_r demo_u5) !! en_key demo_entry = Some e /\ oe_resources e = ResBuffer demo_buf) /\
  exists r' c', drop_round (took_all 1) (Rounds DROP_ROUNDS) (us_r demo_u5) = (r', Ok c').
Proof.
  assert (us_hs demo_u5 = ∅) as Hh by (exact (delete_insert_id (∅ : gmap Z HKind) 0 _ eq_refl)). split; [exact Hh|].
  destruct (uring_close_safe 1 true true demo_u5 0 (us_r demo_u5) (us_log demo_u5) (Rounds DROP_ROUNDS) demo_u5_reached (cr_start _ Hh)) as (Hf & _ & _ & H).
  split; [|apply H; apply demo_has_room]. rewrite list.Forall_forall in Hf. destruct demo_u5_facts as (_ & _ & F3).
  destruct (Hf demo_entry demo_u5_out) as [H0|(e & He & Hm & _)]; [discriminate H0|]. exists e. split; [exact He|]. rewrite <- F3. exact Hm.
Defined.

(** [drain] returns with an operation in flight when the submission ring is full
    and the kernel takes nothing. *)
Example drain_gives_up : (drain_pass 1 none_taken 0x2000 (us_r demo_u1)).2 = Ok DrReturn /\ keys (outs (us_r demo_u1)) = [0].
Proof. by vm_compute. Qed.
